(* ===== verification/_CoqProject ===== *)
-Q . S2P
Prelude.v
Protocol.v
Varint.v
AckFrame.v
ReceivedHistory.v
ReceivedTracker.v
SentHistory.v
PNGenerator.v
Ecn.v
GoFloat.v
RTTStats.v
Congestion.v
SentPacketHandler.v
SentPacketProofs.v
AckProcessing.v
SentPacketClaims.v
FlowControl.v
Frames.v
FrameParser.v
FrameSplit.v
Connection.v
FrameSorter.v
FrameSorterProofs.v
ReceiveStream.v
ReceiveStreamProofs.v
ReceiveStreamClaims.v
SendStream.v
SendStreamProofs.v
SendStreamClaims.v
StreamTransfer.v
CryptoStream.v
RetransmissionQueue.v
Headers.v
HeaderProofs.v
Protection.v
ProtectionProofs.v
KeyUpdate.v
KeyUpdateProofs.v
KeyUpdateClaims.v
Unpacker.v
UnpackerProofs.v
StreamsMap.v
StreamsMapProofs.v
StreamsMapClaims.v
OpenStreamClaims.v
StreamsMapTyping.v
RingBuffer.v
Framer.v
FramerProofs.v
TransportParams.v
TransportParamsProofs.v
TransportParamsClaims.v
ConnIDs.v
ConnIDProofs.v
ConnIDClaims.v
CryptoSetup.v
DatagramQueue.v
Mtu.v
Packer.v
PackerProofs.v
PackerClaims.v
CryptoSetupProofs.v
PacketHandling.v
PacketHandlingProofs.v
ConnHandshake.v
SendQueue.v
Sending.v
RunLoop.v
SendingProofs.v
SendingClaims.v
InstantAck.v
Endpoint.v
