(* ===== verification/Prelude.v ===== *)
(** * A verified model of quic-go with the instant ACK

    The program is the QUIC implementation under
    src/01-quic-go-instant-ack (quic-go, with an [EnableInstantACK] option that
    lets a server acknowledge the first Initial packet before its frames are
    handled).  This library translates the transport machinery of that
    program to executable definitions and proves what makes it correct.  Paths
    below are relative to src/01-quic-go-instant-ack.

    ** The program and how its parts interact

    A datagram is cut into packets (internal/wire), which the packet unpacker
    (packet_unpacker.go) opens with the keys of internal/handshake.  What cannot
    be opened yet waits for its keys.  A packet that
    was opened reaches [connection.handleUnpackedLongHeaderPacket] (connection.go)
    or its sibling for short headers.  Its payload is cut into frames by the frame
    parser, which reads variable-length integers (quicvarint); each frame is
    dispatched to the part it concerns: ACK frames to the sent packet handler
    (internal/ackhandler), CRYPTO frames to the crypto streams, STREAM frames via
    the streams map to the streams, whose frame sorter puts them in order and which
    account for them with flow control (internal/flowcontrol), connection ID frames
    to the manager and the generator of connection IDs.  The packet is registered
    with the received packet handler, which decides when to acknowledge.  In the
    other direction the framer collects control frames and the frames of the
    streams, the retransmission queue what was lost; the packet packer
    (packet_packer.go) puts them into packets, seals these with the keys of the
    crypto setup (internal/handshake/crypto_setup.go, which drives TLS) and fills a
    datagram, whose size path MTU discovery determines, and which goes to the send
    queue.  The main loop of the connection waits for datagrams, timers and data to
    send, and closes the connection in the end.  The sent packet handler keeps
    a history of the packets in flight, declares packets lost, runs the probe
    timeout, and drives congestion control (internal/congestion), RTT statistics
    (internal/utils) and ECN validation.

    ** Conventions

    Integers are elements of [Z]; where Go's fixed width can be exceeded the
    wrap-around is written out with [u8], [u64], [i64] (this file).  [res A] is
    the result of a Go function: a value, an error value or a panic; [stM S A]
    is a computation on a mutable struct [S] that may fail, and [wp] its weakest
    precondition (a panic falsifies it), [keeps] its preservation of an
    observation.  A time is a number of nanoseconds with 0 the zero
    [time.Time]; a call of time.Now is the parameter [now].  Byte slices are
    [list Z] with the predicate [bytes_ok].  Mutexes, logging, tracing and
    sync.Pool are left out: they do not change results.  Values that are opaque
    to a component (frame handlers, callbacks) are kept as identifiers, and the
    calls made to them are recorded as events.

    ** Files

    - Prelude: integers, the monads, the hint databases and their lemmas.
    - Protocol: internal/protocol - packet number encoding and decoding,
      encryption levels, stream IDs, ECN bits, constants.
    - Varint: quicvarint/varint.go.
    - AckFrame: internal/wire/ack_frame.go and ack_range.go.
    - Frames, FrameParser, FrameSplit: the other frames of internal/wire, with a
      codec class [FrameCodec] and one instance per frame, frame_parser.go, and
      the splitting of STREAM and CRYPTO frames.
    - ReceivedHistory, ReceivedTracker: received_packet_history.go,
      received_packet_tracker.go and received_packet_handler.go.
    - SentHistory, PNGenerator, Ecn: sent_packet_history.go,
      packet_number_generator.go, ecn.go.
    - GoFloat, RTTStats: float32 and float64 with their rounding, and
      internal/utils/rtt_stats.go on them.
    - Congestion: cubic_sender.go, hybrid_slow_start.go, pacer.go, bandwidth.go;
      the CUBIC window function is the class [CubicAlgorithm].
    - SentPacketHandler (definitions), SentPacketProofs, AckProcessing,
      SentPacketClaims (theorems): sent_packet_handler.go, generic in the
      congestion controller by the class [SendAlgorithm].
    - FlowControl: internal/flowcontrol.
    - Connection: the receive path of connection.go on the models above, generic
      in the remaining subsystems by the class [ConnectionOps].
    - FrameSorter, FrameSorterProofs: frame_sorter.go, and of
      internal/utils/linkedlist what it uses.
    - ReceiveStream, ReceiveStreamProofs, ReceiveStreamClaims: receive_stream.go.
    - SendStream, SendStreamProofs, SendStreamClaims: send_stream.go; in
      StreamTransfer a send stream and a receive stream exchange frames.
    - CryptoStream: crypto_stream.go and crypto_stream_manager.go; the TLS
      handshake is a parameter.
    - RetransmissionQueue: retransmission_queue.go.
    - Headers, HeaderProofs: header.go, extended_header.go, short_header.go and
      version_negotiation.go of internal/wire, and protocol/version.go.
    - Protection, ProtectionProofs: cipher_suite.go, hkdf.go,
      header_protector.go, aead.go and initial_aead.go of internal/handshake;
      the block ciphers and the hash are the class [Crypto] with its laws.
    - KeyUpdate, KeyUpdateProofs, KeyUpdateClaims: updatable_aead.go.
    - Unpacker, UnpackerProofs: packet_unpacker.go, and encryptPacket of
      packet_packer.go.
    - StreamsMap, StreamsMapProofs, StreamsMapClaims, OpenStreamClaims,
      StreamsMapTyping: streams_map.go, streams_map_incoming.go and
      streams_map_outgoing.go.
    - RingBuffer, Framer, FramerProofs: internal/utils/ringbuffer and framer.go.
    - TransportParams, TransportParamsProofs, TransportParamsClaims:
      internal/wire/transport_parameters.go.
    - ConnIDs, ConnIDProofs, ConnIDClaims: conn_id_manager.go and
      conn_id_generator.go.
    - CryptoSetup, CryptoSetupProofs: internal/handshake/crypto_setup.go and
      session_ticket.go; the TLS stack is the class [TLSConn] with its laws
      [TLSLaws].
    - DatagramQueue, Mtu: datagram_queue.go and mtu_discoverer.go.
    - Packer, PackerProofs, PackerClaims: packet_packer.go on the models of the
      crypto setup, the crypto streams, the retransmission and the datagram queue;
      framer, ACKs, packet numbers and connection IDs are the class [PackerEnv].
    - PacketHandling, PacketHandlingProofs: from a datagram to its packets, with
      undecryptable packets, Retry and Version Negotiation (connection.go), and
      internal/handshake/retry.go; the parts it calls are the class [PacketOps].
    - ConnHandshake: the events of the handshake and the transport parameters in
      connection.go, on the class [HandshakeOps].
    - SendQueue: send_queue.go; a round of its goroutine is an event.
    - Sending, SendingProofs, SendingClaims: the sending half of connection.go from
      [triggerSending] on, and window_update_queue.go, on the models of the packer,
      the framer, the send queue and path MTU discovery.
    - RunLoop: connection_timer.go, internal/utils/timer.go, and the main loop,
      deadlines and closing of connection.go, on the class [RunOps].
    - InstantAck: the receiving and the sending half together, for the first packet.
    - Endpoint: the instances of the classes above that make one connection of all
      these parts, and what it does from the datagram to the send queue.

    ** What the theorems show

    - Wire formats: integers, packet numbers and every frame survive the round
      trip; parsing arbitrary bytes terminates, never panics, and returns
      well-formed values only.
    - Receiving: the interval list refines a set of packet numbers; ACK frames
      acknowledge exactly that set and are due within the maximum ACK delay.
    - Sending: the bytes in flight are always the sum over the tracked packets;
      ACK processing and loss detection take out exactly the acknowledged and
      the lost packets; timers are armed, timeouts never fail; the
      anti-amplification limit, window bounds and ECN validation hold.
    - Flow control: what a peer can make the receiver buffer is bounded, credit
      is granted again, the limits of the peer are respected.
    - Connection: frames arrive in order and unchanged; the instant ACK is
      queued when sending is triggered, and the packet is registered once.
    - Streams: the frame sorter refines a partial map from offsets to bytes; a
      send stream loses nothing, a receive stream delivers the bytes in order,
      and both together are a reliable byte stream over a network that loses,
      reorders and repeats frames.  CRYPTO data reaches TLS in order.
    - Packets: headers are parsed without a panic; a packet that was sealed and
      protected is opened by the peer with the same header and payload; two
      endpoints that update their keys stay synchronised; client and server
      derive the same Initial keys.
    - Streams maps and framer: the map of incoming streams refines a counter with
      a set of open streams; waiting calls are served in order and woken up; a
      stream has the type that its ID says; frames fit into the packet and are
      taken from the streams in turn.
    - Negotiation: transport parameters survive the round trip, also through a
      session ticket, and arbitrary bytes are validated; the connection IDs that
      one endpoint uses are always routed at the other one.
    - Sending datagrams: whatever is pending, the packer fills a datagram within
      the allowed size, pads Initial packets as it must, and what it writes is
      opened and parsed by the peer to the same frames; DATAGRAM frames keep their
      order; path MTU discovery converges.
    - Handshake: the crypto setup never panics and hands out usable keys only,
      whatever TLS does within its contract, also when it issues and reads session
      tickets, and accepts 0-RTT exactly if no limit was lowered since the ticket was
      issued and the limit of connection IDs is the same.
    - A connection as a whole: the first datagram of a client is answered by the
      instant ACK, which the client understands, whatever the packet contains; during
      the handshake a datagram that no key opens is ignored; a connection is closed
      when it has been idle for too long, and not before; a client accepts only transport parameters with authentic connection IDs; the
      send queue writes in order and drains before it closes.
    - Deviations found while modelling are theorems too (names and sources in the
      doc comments), for example [empty_ack_end_to_end].

    ** Recursion

    Loops of the code that are not structural carry fuel, chosen from the input
    so that it cannot run out, and the theorems prove that it does not (running
    out is a panic of the model): [parseNext_loop] and [handleFrames_loop] use
    the number of bytes left, since every round consumes at least one;
    [parseAckRanges] the number of bytes plus one; the binary search and the
    range scan the length of the list; [rejectLoop] is not entered, since every
    period is a power of two, for which [Int31n] only masks.
    In the frame sorter, [deleteConsecutive_loop] and [popAll] use the size of
    the queue, [replaceLoop] one more, the loop over the gaps their number; a
    call of Read loops at most once per byte of the buffer and once more;
    [im_openLoop] runs once per stream to open, [appendStreams] once per element
    of the queue, [unmarshal_loop] once per byte, [cg_issueLoop] once per
    connection ID to issue.  The number of packets after which a connection ID is
    changed is drawn with rejection: there the theorems assume that among [fuel]
    random words one is accepted.
    The loops of the packer over lost frames, [cryptoRetransmissions] and
    [appDataRetransmissions], run at most once per byte of room, since no frame is
    empty; [eventLoop] of the crypto setup runs at most [tls_bound] times, the bound
    on the events that TLS has pending.
    [handleCoalesced] uses the length of the datagram, since every packet has at
    least one byte; the number of datagrams that one call of [triggerSending] sends,
    of events of the handshake and of rounds of the main loop are parameters.

    ** Not modelled

    The TLS stack (crypto/tls) and the ciphers, which are parameters with the laws
    that the code relies on; sockets, the routing of datagrams to connections and the
    goroutines that read them (transport.go, server.go, client.go); address validation
    tokens; qlog and tracing; HTTP/3; and the parts listed as not modelled in the
    manifest.  Of connection.go the construction of connections and the calls that
    only pass a request on to the streams are left out, of crypto_setup.go the
    configuration of TLS. *)

From stdpp Require Import base numbers list option strings.
From Stdlib Require Import ZArith Lia.
#[local] Open Scope Z_scope.

(** ** Machine integers

    Go's fixed-width integers are integers of [Z] kept in range by an explicit
    wrap.  [uN z] is the value of the conversion [uintN(z)], [iN z] that of
    [intN(z)]. *)

Definition u8 (z : Z) : Z := z mod 2 ^ 8.
Definition u32 (z : Z) : Z := z mod 2 ^ 32.
Definition u64 (z : Z) : Z := z mod 2 ^ 64.
Definition i64 (z : Z) : Z := (z + 2 ^ 63) mod 2 ^ 64 - 2 ^ 63.

(** The values of a type, as predicates. *)
Definition is_u8 (z : Z) : Prop := 0 <= z < 2 ^ 8.
Definition is_u64 (z : Z) : Prop := 0 <= z < 2 ^ 64.
Definition is_i64 (z : Z) : Prop := - 2 ^ 63 <= z < 2 ^ 63.

(** A byte slice. *)
Abbreviation bytes := (list Z).
Definition bytes_ok (bs : bytes) : Prop := Forall is_u8 bs.

(** [len(bs)] as an [int]. *)
Definition blen {A} (bs : list A) : Z := Z.of_nat (length bs).

(** ** Errors and panics

    A Go function that returns an [error] returns [Err]; a run-time panic
    (index out of range, nil dereference, explicit [panic]) is [Panic].
    Error values carry the constant text (the format string) of the message;
    [HeaderParseError] wraps the error of a header; [StreamError] and [FmtError]
    keep the numbers that go into the message. *)

Inductive GoError :=
  | EOF
  | ErrUnexpectedEOF
  | ErrorString (msg : string)
  | TransportError (code frameType : Z) (msg : string)
  | HeaderParseError (e : GoError)
  | StreamError (msg : string) (nums : list Z)
  | FmtError (format : string) (args : list Z).

Inductive res (A : Type) :=
  | Ok (a : A)
  | Err (e : GoError)
  | Panic (msg : string).
Arguments Ok {_} _.
Arguments Err {_} _.
Arguments Panic {_} _.

#[export] Instance GoError_eq_dec : EqDecision GoError.
Proof. solve_decision. Defined.

#[export] Instance res_ret : MRet res := fun _ a => Ok a.
#[export] Instance res_bind : MBind res := fun _ _ f m =>
  match m with
  | Ok a => f a
  | Err e => Err e
  | Panic s => Panic s
  end.

Definition is_ok {A} (r : res A) : Prop := exists a, r = Ok a.
Definition no_panic {A} (r : res A) : Prop := forall s, r <> Panic s.

(** ** Stateful code

    A method that changes its receiver and may fail: the result and the state
    after the call, on error paths too. *)

Definition stM (S A : Type) : Type := S -> res A * S.

#[export] Instance stM_ret {S} : MRet (stM S) := fun _ a s => (Ok a, s).
#[export] Instance stM_bind {S} : MBind (stM S) := fun _ _ f m s =>
  match m s with
  | (Ok a, s') => f a s'
  | (Err e, s') => (Err e, s')
  | (Panic p, s') => (Panic p, s')
  end.

Definition get {S} : stM S S := fun s => (Ok s, s).
Definition modify {S} (f : S -> S) : stM S unit := fun s => (Ok tt, f s).
Definition lift {S A} (r : res A) : stM S A := fun s => (r, s).
Definition throw {S A} (e : GoError) : stM S A := fun s => (Err e, s).

(** Run [m] whatever the outcome of the previous call, [defer m()]. *)
Definition deferring {S A} (m : stM S A) (d : stM S unit) : stM S A := fun s =>
  match m s with
  | (Panic p, s') => (Panic p, s')
  | (r, s') =>
      match d s' with
      | (Ok _, s'') => (r, s'')
      | (Err e, s'') => (Err e, s'')
      | (Panic p, s'') => (Panic p, s'')
      end
  end.

(** ** Readers

    A [bytes.Reader] is the list of unread bytes; a reading function returns
    its result and the bytes it left unread, on error paths too. *)

Abbreviation parser := (stM bytes).

Definition fail {A} (e : GoError) : parser A := fun r => (Err e, r).

(** [r.Len()] *)
Definition reader_len : parser Z := fun r => (Ok (blen r), r).

(** [bytes.Reader.ReadByte] *)
Definition ReadByte : parser Z := fun r =>
  match r with
  | [] => (Err EOF, [])
  | b :: r' => (Ok b, r')
  end.

(** [io.ReadFull(r, buf)] into a buffer of [n] bytes. *)
Definition ReadFull (n : Z) : parser bytes := fun r =>
  if n <=? 0 then (Ok [], r)
  else if blen r =? 0 then (Err EOF, r)
  else if blen r <? n then (Err ErrUnexpectedEOF, [])
  else (Ok (take (Z.to_nat n) r), drop (Z.to_nat n) r).

(** [ReadFull] in the callers that turn [io.ErrUnexpectedEOF] into [io.EOF]. *)
Definition ReadFullEOF (n : Z) : parser bytes := fun r =>
  match ReadFull n r with
  | (Err ErrUnexpectedEOF, r') => (Err EOF, r')
  | x => x
  end.

(** ** Time

    A [time.Time] is its distance in nanoseconds from the zero time, so
    [time.Time{}] is 0; a [time.Duration] is an [int64] of nanoseconds. *)

Definition zeroTime : Z := 0.
Definition Time_IsZero (t : Z) : bool := t =? 0.
Definition Time_After (t u : Z) : bool := u <? t.
Definition Time_Before (t u : Z) : bool := t <? u.
Definition Time_Add (t d : Z) : Z := t + d.

(** [Time.Sub] saturates at the extreme durations. *)
Definition Time_Sub (t u : Z) : Z :=
  Z.max (- 2 ^ 63) (Z.min (2 ^ 63 - 1) (t - u)).

Definition Microsecond : Z := 1000.
Definition Millisecond : Z := 1000 * Microsecond.
Definition Second : Z := 1000 * Millisecond.

(** ** Lemmas on machine integers *)

Lemma u8_small z : is_u8 z -> u8 z = z.
Proof. unfold is_u8, u8. intros. apply Z.mod_small. lia. Qed.

Lemma u64_small z : is_u64 z -> u64 z = z.
Proof. unfold is_u64, u64. intros. apply Z.mod_small. lia. Qed.

Lemma i64_small z : is_i64 z -> i64 z = z.
Proof. unfold is_i64, i64. intros. rewrite Z.mod_small; lia. Qed.

Lemma u8_range z : is_u8 (u8 z).
Proof. unfold is_u8, u8. apply Z.mod_pos_bound. lia. Qed.

Lemma u64_range z : is_u64 (u64 z).
Proof. unfold is_u64, u64. apply Z.mod_pos_bound. lia. Qed.

Lemma i64_range z : is_i64 (i64 z).
Proof.
  unfold is_i64, i64.
  pose proof (Z.mod_pos_bound (z + 2 ^ 63) (2 ^ 64) ltac:(lia)). lia.
Qed.

(** Prove that a wrap is the identity from the bounds in the context. *)
Ltac int_range :=
  unfold is_i64, is_u64, is_u8 in *; lia.

Ltac unwrap :=
  repeat match goal with
  | |- context [i64 ?x] => rewrite (i64_small x) by int_range
  | |- context [u64 ?x] => rewrite (u64_small x) by int_range
  | |- context [u8 ?x] => rewrite (u8_small x) by int_range
  end.

Ltac unwrap_in H :=
  repeat match type of H with
  | context [i64 ?x] => rewrite (i64_small x) in H by int_range
  | context [u64 ?x] => rewrite (u64_small x) in H by int_range
  | context [u8 ?x] => rewrite (u8_small x) in H by int_range
  end.

(** Decide a comparison of the code from the context. *)
Ltac zfalse e :=
  replace e with false
    by (symmetry; first [apply Z.leb_gt | apply Z.ltb_ge | apply Z.eqb_neq]; lia).
Ltac ztrue e :=
  replace e with true
    by (symmetry; first [apply Z.leb_le | apply Z.ltb_lt | apply Z.eqb_eq]; lia).

Ltac ztrue_in e H :=
  replace e with true in H
    by (symmetry; first [apply Z.leb_le | apply Z.ltb_lt | apply Z.eqb_eq]; lia).

Ltac zfalse_in e H :=
  replace e with false in H
    by (symmetry; first [apply Z.leb_gt | apply Z.ltb_ge | apply Z.eqb_neq]; lia).

(** ** Lemmas on the monads *)

Lemma res_bind_ok {A B} (m : res A) (f : A -> res B) b :
  (m ≫= f) = Ok b <-> exists a, m = Ok a /\ f a = Ok b.
Proof. destruct m; simpl; naive_solver. Qed.

Lemma stM_bind_ok {S A B} (m : stM S A) (f : A -> stM S B) s s' a :
  m s = (Ok a, s') -> (m ≫= f) s = f a s'.
Proof. intros H. unfold mbind, stM_bind. by rewrite H. Qed.

Lemma stM_bind_panic {S A B} (m : stM S A) (f : A -> stM S B) s s' p :
  m s = (Panic p, s') -> (m ≫= f) s = (Panic p, s').
Proof. intros H. unfold mbind, stM_bind. by rewrite H. Qed.

(** *** Weakest preconditions

    [wp m Q E s]: from [s], [m] does not panic, and ends with [Q] on a result and
    with [E] on an error. *)

Definition wp {S A} (m : stM S A) (Q : A -> S -> Prop) (E : GoError -> S -> Prop) (s : S) : Prop :=
  match m s with
  | (Ok a, s') => Q a s'
  | (Err e, s') => E e s'
  | (Panic _, _) => False
  end.

Section wp.
Context {S : Type}.
Implicit Types (E : GoError -> S -> Prop) (s : S).

Lemma wp_bind {A B} (m : stM S A) (f : A -> stM S B) Q E s :
  wp m (fun a => wp (f a) Q E) E s -> wp (m ≫= f) Q E s.
Proof. unfold wp, mbind, stM_bind. by destruct (m s) as [[]]. Qed.

Lemma wp_ret {A} (a : A) (Q : A -> S -> Prop) E s : Q a s -> wp (mret a) Q E s.
Proof. done. Qed.

Lemma wp_get (Q : S -> S -> Prop) E s : Q s s -> wp get Q E s.
Proof. done. Qed.

Lemma wp_modify f (Q : unit -> S -> Prop) E s : Q tt (f s) -> wp (modify f) Q E s.
Proof. done. Qed.

Lemma wp_lift {A} (a : A) (r : res A) (Q : A -> S -> Prop) E s :
  r = Ok a -> Q a s -> wp (lift r) Q E s.
Proof. intros -> HQ. exact HQ. Qed.

Lemma wp_mono {A} (m : stM S A) (Q Q' : A -> S -> Prop) E E' s :
  (forall a s', Q a s' -> Q' a s') -> (forall e s', E e s' -> E' e s') ->
  wp m Q E s -> wp m Q' E' s.
Proof. unfold wp. destruct (m s) as [[] ?]; auto. Qed.

Lemma wp_deferring {A} (m : stM S A) d (Q : A -> S -> Prop) E s :
  wp m (fun a => wp d (fun _ => Q a) E) (fun e => wp d (fun _ => E e) E) s ->
  wp (deferring m d) Q E s.
Proof.
  unfold wp, deferring. destruct (m s) as [[a|e|p] s']; [| |done];
    destruct (d s') as [[] ?]; done.
Qed.
(** A command that returns nothing and can neither fail nor panic returns. *)
Lemma wp_total (m : stM S unit) (Q : unit -> S -> Prop) s :
  wp m Q (fun _ _ => False) s -> exists s', m s = (Ok tt, s') /\ Q tt s'.
Proof. unfold wp. destruct (m s) as [[[]| |] s']; [eauto|done..]. Qed.

End wp.

(** *** Frame conditions: [m] leaves the observation [f] alone, however it ends. *)

Definition keeps {S T A} (f : S -> T) (m : stM S A) : Prop := forall s, f (m s).2 = f s.

Section keeps.
Context {S T : Type} (f : S -> T).

Lemma keeps_bind {A B} (m : stM S A) (k : A -> stM S B) :
  keeps f m -> (forall a, keeps f (k a)) -> keeps f (m ≫= k).
Proof.
  intros Hm Hk s. unfold mbind, stM_bind. specialize (Hm s).
  destruct (m s) as [[a|e|p] s']; cbn in *; [|done|done]. by rewrite Hk.
Qed.

Lemma keeps_ret {A} (a : A) : keeps f (mret a).
Proof. done. Qed.
Lemma keeps_get : keeps f get.
Proof. done. Qed.
Lemma keeps_lift {A} (r : res A) : keeps f (lift r).
Proof. done. Qed.
Lemma keeps_throw {A} e : keeps f (@throw S A e).
Proof. done. Qed.
Lemma keeps_modify g : (forall s, f (g s) = f s) -> keeps f (modify g).
Proof. intros Hg s. apply Hg. Qed.
End keeps.

(** *** Partial correctness: [Q] holds if [m] returns a result. *)

Definition wlp {S A} (m : stM S A) (Q : A -> S -> Prop) (s : S) : Prop :=
  match m s with (Ok a, s') => Q a s' | _ => True end.

Section wlp.
Context {S : Type}.
Implicit Types s : S.

Lemma wlp_bind {A B} (m : stM S A) (f : A -> stM S B) Q s :
  wlp m (fun a => wlp (f a) Q) s -> wlp (m ≫= f) Q s.
Proof. unfold wlp, mbind, stM_bind. by destruct (m s) as [[]]. Qed.
Lemma wlp_ret {A} (a : A) (Q : A -> S -> Prop) s : Q a s -> wlp (mret a) Q s.
Proof. done. Qed.
Lemma wlp_get (Q : S -> S -> Prop) s : Q s s -> wlp get Q s.
Proof. done. Qed.
Lemma wlp_modify f (Q : unit -> S -> Prop) s : Q tt (f s) -> wlp (modify f) Q s.
Proof. done. Qed.
Lemma wlp_keeps {A T} (f : S -> T) (m : stM S A) (Q : A -> S -> Prop) s :
  keeps f m -> (forall a s', f s' = f s -> Q a s') -> wlp m Q s.
Proof. unfold wlp. intros Hk HQ. specialize (Hk s). destruct (m s) as [[] s']; cbn in *; auto. Qed.
End wlp.

Lemma parser_bind_ok {A B} (m : parser A) (f : A -> parser B) r r' a :
  m r = (Ok a, r') -> (m ≫= f) r = f a r'.
Proof. intros H. unfold mbind, stM_bind. by rewrite H. Qed.

Lemma parser_bind_err {A B} (m : parser A) (f : A -> parser B) r r' e :
  m r = (Err e, r') -> (m ≫= f) r = (Err e, r').
Proof. intros H. unfold mbind, stM_bind. by rewrite H. Qed.

Lemma parser_bind_inv {A B} (m : parser A) (f : A -> parser B) r r' b :
  (m ≫= f) r = (Ok b, r') ->
  exists a r1, m r = (Ok a, r1) /\ f a r1 = (Ok b, r').
Proof.
  unfold mbind, stM_bind. destruct (m r) as [[a| |] r1] eqn:E; naive_solver.
Qed.

(** ** Lemmas on byte slices *)

Lemma blen_app {A} (xs ys : list A) : blen (xs ++ ys) = blen xs + blen ys.
Proof. unfold blen. rewrite length_app. lia. Qed.

Lemma blen_cons {A} (x : A) xs : blen (x :: xs) = 1 + blen xs.
Proof. unfold blen. simpl. lia. Qed.

Lemma blen_nil {A} : blen (@nil A) = 0.
Proof. done. Qed.

Lemma blen_nonneg {A} (xs : list A) : 0 <= blen xs.
Proof. unfold blen. lia. Qed.

Lemma ReadFull_app n (d rest : bytes) :
  blen d = n -> ReadFull n (d ++ rest) = (Ok d, rest).
Proof.
  intros <-. unfold ReadFull. rewrite blen_app.
  pose proof (blen_nonneg d). pose proof (blen_nonneg rest).
  destruct (Z.leb_spec (blen d) 0).
  { assert (d = []) as ->; [|done]. destruct d; [done|]. rewrite blen_cons in *.
    pose proof (blen_nonneg d). lia. }
  replace (blen d + blen rest =? 0) with false by lia.
  replace (blen d + blen rest <? blen d) with false by lia.
  unfold blen. rewrite Nat2Z.id. by rewrite take_app_length, drop_app_length.
Qed.

Create Rewrite HintDb goslice.
#[export] Hint Rewrite @blen_app @blen_cons @blen_nil @length_app : goslice.
