(* ===== verification/Protocol.v ===== *)
(** * Protocol: the vocabulary of [internal/protocol]

    Encryption levels, ECN codepoints, perspectives, stream identifiers, packet
    number truncation ([packet_number.go]) and the constants of [params.go] and
    [protocol.go] the other files use. *)

From S2P Require Import Prelude.
From stdpp Require Import base numbers list option strings.
From Stdlib Require Import ZArith Lia.
#[local] Open Scope Z_scope.

(** ** Enumerations *)

Inductive EncryptionLevel :=
  | EncryptionInitial
  | EncryptionHandshake
  | Encryption0RTT
  | Encryption1RTT.

Inductive Perspective := PerspectiveServer | PerspectiveClient.

Inductive ECN := ECNUnsupported | ECNNon | ECT1 | ECT0 | ECNCE.

Inductive StreamType := StreamTypeUni | StreamTypeBidi.

#[export] Instance EncryptionLevel_eq_dec : EqDecision EncryptionLevel.
Proof. solve_decision. Defined.
#[export] Instance Perspective_eq_dec : EqDecision Perspective.
Proof. solve_decision. Defined.
#[export] Instance ECN_eq_dec : EqDecision ECN.
Proof. solve_decision. Defined.
#[export] Instance StreamType_eq_dec : EqDecision StreamType.
Proof. solve_decision. Defined.

Definition ParseECNHeaderBits (bits : Z) : res ECN :=
  if bits =? 0 then Ok ECNNon
  else if bits =? 2 then Ok ECT0
  else if bits =? 1 then Ok ECT1
  else if bits =? 3 then Ok ECNCE
  else Panic "invalid ECN bits".

Definition ECN_ToHeaderBits (e : ECN) : res Z :=
  match e with
  | ECNNon => Ok 0
  | ECT0 => Ok 2
  | ECT1 => Ok 1
  | ECNCE => Ok 3
  | ECNUnsupported => Panic "ECN unsupported"
  end.

(** ** Constants *)

Definition InvalidPacketNumber : Z := -1.
Definition MaxByteCount : Z := 2 ^ 62 - 1.
Definition InvalidByteCount : Z := -1.
Definition MaxPacketBufferSize : Z := 1452.
Definition MaxConnIDLen : Z := 20.
Definition DefaultAckDelayExponent : Z := 3.
Definition AckDelayExponent : Z := 3.
Definition MaxAckFrameSize : Z := 1000.
Definition MaxNumAckRanges : Z := 32.
Definition MinStreamFrameBufferSize : Z := 128.
Definition MaxStreamFrameSorterGaps : Z := 1000.
Definition MaxCongestionWindowPackets : Z := 10000.
Definition MaxOutstandingSentPackets : Z := 2 * MaxCongestionWindowPackets.
Definition MaxTrackedSentPackets : Z := MaxOutstandingSentPackets * 5 / 4.
Definition SkipPacketInitialPeriod : Z := 256.
Definition SkipPacketMaxPeriod : Z := 128 * 1024.
Definition TimerGranularity : Z := Millisecond.
Definition MaxAckDelay : Z := 25 * Millisecond.
Definition MinPacingDelay : Z := Millisecond.
Definition InitialPacketSizeIPv4 : Z := 1252.

(** ** Stream identifiers ([stream.go]) *)

Definition InvalidStreamID : Z := -1.
Definition MaxStreamCount : Z := 2 ^ 60.

Definition StreamNum_StreamID (s : Z) (stype : StreamType) (pers : Perspective) : Z :=
  if s =? 0 then InvalidStreamID
  else
    let first :=
      match stype with
      | StreamTypeBidi =>
          match pers with PerspectiveClient => 0 | PerspectiveServer => 1 end
      | StreamTypeUni =>
          match pers with PerspectiveClient => 2 | PerspectiveServer => 3 end
      end in
    i64 (first + i64 (4 * i64 (s - 1))).

(** Go's [%] and [/] truncate towards zero. *)
Definition StreamID_InitiatedBy (s : Z) : Perspective :=
  if Z.rem s 2 =? 0 then PerspectiveClient else PerspectiveServer.

Definition StreamID_Type (s : Z) : StreamType :=
  if 2 <=? Z.rem s 4 then StreamTypeUni else StreamTypeBidi.

Definition StreamID_StreamNum (s : Z) : Z := i64 (Z.quot s 4 + 1).

(** ** Packet numbers ([packet_number.go]) *)

Definition delta (a b : Z) : Z := if a <? b then i64 (b - a) else i64 (a - b).

Definition closestTo (target a b : Z) : Z :=
  if delta target a <? delta target b then a else b.

(** [packetNumberLength] is a [uint8]; the [switch] leaves [epochDelta] at 0
    for a length outside 1..4. *)
Definition epochDelta (packetNumberLength : Z) : Z :=
  if packetNumberLength =? 1 then Z.shiftl 1 8
  else if packetNumberLength =? 2 then Z.shiftl 1 16
  else if packetNumberLength =? 3 then Z.shiftl 1 24
  else if packetNumberLength =? 4 then Z.shiftl 1 32
  else 0.

Definition DecodePacketNumber (packetNumberLength lastPacketNumber wirePacketNumber : Z) : Z :=
  let epochDelta := epochDelta packetNumberLength in
  let epoch := Z.land lastPacketNumber (Z.lnot (i64 (epochDelta - 1))) in
  let prevEpochBegin := if epochDelta <? epoch then i64 (epoch - epochDelta) else 0 in
  let nextEpochBegin := i64 (epoch + epochDelta) in
  closestTo (i64 (lastPacketNumber + 1))
    (i64 (epoch + wirePacketNumber))
    (closestTo (i64 (lastPacketNumber + 1))
       (i64 (prevEpochBegin + wirePacketNumber))
       (i64 (nextEpochBegin + wirePacketNumber))).

Definition GetPacketNumberLengthForHeader (packetNumber leastUnacked : Z) : Z :=
  let diff := u64 (i64 (packetNumber - leastUnacked)) in
  if diff <? Z.shiftl 1 (16 - 1) then 2
  else if diff <? Z.shiftl 1 (24 - 1) then 3
  else 4.

(** ** Lemmas *)

Lemma epochDelta_pow len :
  1 <= len <= 4 -> epochDelta len = 2 ^ (8 * len).
Proof.
  intros H. assert (len = 1 \/ len = 2 \/ len = 3 \/ len = 4) as [|[|[|]]] by lia; by subst.
Qed.

(** Clearing the low bits rounds down to a multiple of the epoch. *)
Lemma land_lnot_ones a n :
  0 <= n -> Z.land a (Z.lnot (2 ^ n - 1)) = a - a mod 2 ^ n.
Proof.
  intros Hn.
  replace (2 ^ n - 1) with (Z.ones n) by (rewrite Z.ones_equiv; lia).
  rewrite <- Z.ldiff_land, Z.ldiff_ones_r by done.
  rewrite Z.shiftl_mul_pow2, Z.shiftr_div_pow2 by done.
  pose proof (Z.div_mod a (2 ^ n) ltac:(apply Z.pow_nonzero; lia)). lia.
Qed.

(** The candidate closest to the expected packet number wins, the wrap-around
    of the 64-bit arithmetic notwithstanding. *)
Lemma closestTo_eq target a b :
  0 <= target < 2 ^ 62 -> - 2 ^ 62 < a < 2 ^ 62 + 2 ^ 34 -> - 2 ^ 62 < b < 2 ^ 62 + 2 ^ 34 ->
  closestTo target a b = if Z.abs (target - a) <? Z.abs (target - b) then a else b.
Proof.
  intros. unfold closestTo, delta.
  assert (Habs : forall x, - 2 ^ 62 < x < 2 ^ 62 + 2 ^ 34 ->
    (if target <? x then i64 (x - target) else i64 (target - x)) = Z.abs (target - x)).
  { intros x ?. case_match; unwrap; lia. }
  by rewrite !Habs.
Qed.

(** Decoding a truncated packet number recovers the packet number when it is
    within half a window of the next expected one. *)
Lemma DecodePacketNumber_window len last pn :
  1 <= len <= 4 -> 0 <= last < 2 ^ 61 -> 0 <= pn < 2 ^ 62 ->
  Z.abs (pn - (last + 1)) < 2 ^ (8 * len - 1) ->
  DecodePacketNumber len last (pn mod 2 ^ (8 * len)) = pn.
Proof.
  intros Hlen Hlast Hpn Hwin. unfold DecodePacketNumber.
  rewrite epochDelta_pow by done.
  assert (Hd : 2 ^ (8 * len) = 2 * 2 ^ (8 * len - 1)).
  { rewrite <- Z.pow_succ_r by lia. f_equal. lia. }
  assert (Hdr : 2 ^ (8 * len) <= 2 ^ 32) by (apply Z.pow_le_mono_r; lia).
  assert (Hdl : 2 ^ 7 <= 2 ^ (8 * len - 1)) by (apply Z.pow_le_mono_r; lia).
  set (h := 2 ^ (8 * len - 1)) in *. set (d := 2 ^ (8 * len)) in *.
  rewrite (i64_small (d - 1)) by int_range.
  replace (Z.land last (Z.lnot (d - 1))) with (last - last mod d)
    by (symmetry; apply land_lnot_ones; lia).
  pose proof (Z.div_mod last d ltac:(lia)). pose proof (Z.mod_pos_bound last d ltac:(lia)).
  pose proof (Z.div_mod pn d ltac:(lia)). pose proof (Z.mod_pos_bound pn d ltac:(lia)).
  set (w := pn mod d) in *. set (m := last mod d) in *.
  assert (0 <= last / d) by (apply Z.div_pos; lia).
  assert (0 <= pn / d) by (apply Z.div_pos; lia).
  set (ql := last / d) in *. set (qp := pn / d) in *.
  assert (Hq : qp = ql - 1 \/ qp = ql \/ qp = ql + 1) by nia.
  set (e := last - m) in *. assert (He : e = d * ql) by lia.
  assert (Hprev : (if d <? e then i64 (e - d) else 0) = Z.max 0 (e - d)).
  { case_match; unwrap; nia. }
  rewrite Hprev. clear Hprev. clearbody e w m ql qp h d. unwrap.
  rewrite (closestTo_eq _ (Z.max 0 (e - d) + w)) by lia.
  assert (He0 : e = 0 \/ d <= e).
  { assert (ql = 0 \/ 1 <= ql) as [-> | ?] by lia; [left | right]; nia. }
  assert (Hpne : (pn = e - d + w /\ 0 <= e - d) \/ pn = e + w \/ pn = e + d + w).
  { destruct Hq as [-> | [-> | ->]]; [left | right; left | right; right]; nia. }
  assert (Hle : last = e + m) by lia. clear Hq H H1 He.
  case_match; rewrite closestTo_eq by lia; case_match;
    destruct Hpne as [[-> ?] | [-> | ->]]; lia.
Qed.

(** Packet number compression round-trips between the two endpoints.  A
    sender that knows [largestAcked] truncates [pn] to the length
    [GetPacketNumberLengthForHeader] chooses; a receiver whose largest received
    packet number is anywhere from [largestAcked] up to [pn] decodes exactly
    [pn]. *)
Theorem packet_number_roundtrip (largestAcked last pn : Z) :
  -1 <= largestAcked -> largestAcked <= last -> 0 <= last <= pn ->
  pn - largestAcked < 2 ^ 31 -> pn < 2 ^ 61 ->
  let len := GetPacketNumberLengthForHeader pn largestAcked in
  2 <= len <= 4 /\
  DecodePacketNumber len last (pn mod 2 ^ (8 * len)) = pn.
Proof.
  intros Hla Hle Hlast Hdiff Hpn len. subst len.
  assert (Hlen : let len := GetPacketNumberLengthForHeader pn largestAcked in
    2 <= len <= 4 /\ pn - largestAcked < 2 ^ (8 * len - 1)).
  { unfold GetPacketNumberLengthForHeader. rewrite i64_small, u64_small by int_range.
    change (Z.shiftl 1 (16 - 1)) with (2 ^ 15). change (Z.shiftl 1 (24 - 1)) with (2 ^ 23).
    repeat case_match; simpl; try change (8 * 2 - 1) with 15;
      try change (8 * 3 - 1) with 23; try change (8 * 4 - 1) with 31; lia. }
  simpl in Hlen. destruct Hlen as [Hb Hw]. split; [done|].
  revert Hb Hw. generalize (GetPacketNumberLengthForHeader pn largestAcked) as n.
  intros n Hb. assert (2 ^ 15 <= 2 ^ (8 * n - 1)) as Hh by (apply Z.pow_le_mono_r; lia).
  revert Hh. generalize (DecodePacketNumber_window n last pn).
  generalize (2 ^ (8 * n - 1)). intros h IH Hh Hw. apply IH; lia.
Qed.

Lemma packet_number_roundtrip_witness :
  let len := GetPacketNumberLengthForHeader 0xac5c02 0xabe8b3 in
  2 <= len <= 4 /\
  DecodePacketNumber len 0xabe8b3 (0xac5c02 mod 2 ^ (8 * len)) = 0xac5c02.
Proof. apply (packet_number_roundtrip 0xabe8b3 0xabe8b3 0xac5c02); lia. Defined.

(** A stream identifier encodes its initiator, its type and its number, and
    nothing else: the three accessors invert [StreamID] for every stream number
    the protocol allows. *)
Theorem stream_id_roundtrip (num : Z) (stype : StreamType) (pers : Perspective) :
  1 <= num <= MaxStreamCount ->
  let id := StreamNum_StreamID num stype pers in
  0 <= id < 2 ^ 62 /\
  StreamID_InitiatedBy id = pers /\ StreamID_Type id = stype /\ StreamID_StreamNum id = num.
Proof.
  unfold MaxStreamCount. intros Hn. cbv zeta.
  unfold StreamNum_StreamID, StreamID_InitiatedBy, StreamID_Type, StreamID_StreamNum.
  replace (num =? 0) with false by lia.
  assert (Hf : forall first, 0 <= first < 4 ->
    i64 (first + i64 (4 * i64 (num - 1))) = first + 4 * (num - 1)) by (intros; unwrap; lia).
  destruct stype, pers; rewrite !Hf by lia;
    rewrite Z.rem_mod_nonneg, Z.rem_mod_nonneg, Z.quot_div_nonneg by lia;
    match goal with |- context [?f + 4 * ?x] =>
      rewrite (Z.mul_comm 4 x), (Z.div_add f x 4), (Z.mod_add f x 4) by lia;
      replace ((f + x * 4) mod 2) with (f mod 2)
        by (replace (x * 4) with ((2 * x) * 2) by lia; rewrite Z.mod_add; lia)
    end;
    split_and!; try lia; try done;
    match goal with |- context [?f / 4] => change (f / 4) with 0 end; unwrap; lia.
Qed.

Lemma stream_id_roundtrip_witness :
  let id := StreamNum_StreamID 3 StreamTypeBidi PerspectiveServer in
  0 <= id < 2 ^ 62 /\
  StreamID_InitiatedBy id = PerspectiveServer /\ StreamID_Type id = StreamTypeBidi /\
  StreamID_StreamNum id = 3.
Proof. apply (stream_id_roundtrip 3 StreamTypeBidi PerspectiveServer). vm_compute. split; discriminate. Defined.
