(* ===== verification/Varint.v ===== *)
(** * Varint: [quicvarint/varint.go]

    QUIC's variable-length integers: [Read], [Append], [AppendWithLen] and
    [Len], with the shifts, masks and byte truncations of the code. *)

From S2P Require Import Prelude Protocol.
From stdpp Require Import base numbers list option strings.
From Stdlib Require Import ZArith Lia.
#[local] Open Scope Z_scope.

Definition maxVarInt1 : Z := 63.
Definition maxVarInt2 : Z := 16383.
Definition maxVarInt4 : Z := 1073741823.
Definition maxVarInt8 : Z := 4611686018427387903.

Definition varint_Read : parser Z :=
  firstByte ← ReadByte;
  let len := Z.shiftl 1 (Z.shiftr (Z.land firstByte 0xc0) 6) in
  let b1 := Z.land firstByte (0xff - 0xc0) in
  if len =? 1 then mret b1 else
  b2 ← ReadByte;
  if len =? 2 then mret (u64 (b2 + Z.shiftl b1 8)) else
  b3 ← ReadByte;
  b4 ← ReadByte;
  if len =? 4 then mret (u64 (b4 + Z.shiftl b3 8 + Z.shiftl b2 16 + Z.shiftl b1 24)) else
  b5 ← ReadByte;
  b6 ← ReadByte;
  b7 ← ReadByte;
  b8 ← ReadByte;
  mret (u64 (b8 + Z.shiftl b7 8 + Z.shiftl b6 16 + Z.shiftl b5 24 + Z.shiftl b4 32
             + Z.shiftl b3 40 + Z.shiftl b2 48 + Z.shiftl b1 56)).

Definition varint_Append (b : bytes) (i : Z) : res bytes :=
  if i <=? maxVarInt1 then Ok (b ++ [u8 i])
  else if i <=? maxVarInt2 then
    Ok (b ++ [Z.lor (u8 (Z.shiftr i 8)) 0x40; u8 i])
  else if i <=? maxVarInt4 then
    Ok (b ++ [Z.lor (u8 (Z.shiftr i 24)) 0x80; u8 (Z.shiftr i 16); u8 (Z.shiftr i 8); u8 i])
  else if i <=? maxVarInt8 then
    Ok (b ++ [Z.lor (u8 (Z.shiftr i 56)) 0xc0; u8 (Z.shiftr i 48); u8 (Z.shiftr i 40);
              u8 (Z.shiftr i 32); u8 (Z.shiftr i 24); u8 (Z.shiftr i 16);
              u8 (Z.shiftr i 8); u8 i])
  else Panic "doesn't fit into 62 bits".

Definition varint_Len (i : Z) : res Z :=
  if i <=? maxVarInt1 then Ok 1
  else if i <=? maxVarInt2 then Ok 2
  else if i <=? maxVarInt4 then Ok 4
  else if i <=? maxVarInt8 then Ok 8
  else Panic "value doesn't fit into 62 bits".

(** The loops [for j := 1; j < length-l; j++] and [for j := 0; j < l; j++]. *)
Definition AppendWithLen_zeros (length l : Z) : bytes :=
  replicate (Z.to_nat (length - l - 1)) 0.

Definition AppendWithLen_payload (i l : Z) : bytes :=
  (fun j => u8 (Z.shiftr i (8 * (l - 1 - Z.of_nat j)))) <$> seq 0 (Z.to_nat l).

Definition varint_AppendWithLen (b : bytes) (i length : Z) : res bytes :=
  if negb (length =? 1) && negb (length =? 2) && negb (length =? 4) && negb (length =? 8)
  then Panic "invalid varint length"
  else
    l ← varint_Len i;
    if l =? length then varint_Append b i
    else if length <? l then Panic "cannot encode in this many bytes"
    else
      let b := if length =? 2 then b ++ [0x40]
               else if length =? 4 then b ++ [0x80]
               else if length =? 8 then b ++ [0xc0]
               else b in
      Ok (b ++ AppendWithLen_zeros length l ++ AppendWithLen_payload i l).

(** A value that the wire format can carry. *)
Definition is_varint (i : Z) : Prop := 0 <= i <= maxVarInt8.

(** [Len] as a total function on the encodable values. *)
Definition vlen (i : Z) : Z :=
  if i <=? maxVarInt1 then 1 else if i <=? maxVarInt2 then 2
  else if i <=? maxVarInt4 then 4 else 8.

(** The encoding, as a total function on the encodable values. *)
Definition venc (i : Z) : bytes :=
  match varint_Append [] i with Ok bs => bs | _ => [] end.

(** ** Lemmas *)

Lemma lor_high (x k : Z) : 0 <= k -> 0 <= x < 2 ^ k -> forall m, Z.lor x (m * 2 ^ k) = x + m * 2 ^ k.
Proof.
  intros Hk Hx m.
  assert (Hl : Z.land x (m * 2 ^ k) = 0).
  { apply Z.bits_inj'. intros j Hj. rewrite Z.land_spec, Z.bits_0, Bool.andb_false_iff.
    rewrite <- Z.shiftl_mul_pow2 by done. destruct (Z.lt_ge_cases j k).
    - right. apply Z.shiftl_spec_low. done.
    - left. destruct (Z.eq_dec x 0) as [->|]; [apply Z.bits_0|].
      apply Z.bits_above_log2; [lia|]. apply Z.log2_lt_pow2; [lia|].
      apply Z.lt_le_trans with (2 ^ k); [lia|]. apply Z.pow_le_mono_r; lia. }
  pose proof (Z.add_lor_land x (m * 2 ^ k)). lia.
Qed.

(** The two tag bits and the six value bits of a first byte. *)
Lemma first_byte_tag (x t : Z) : 0 <= x < 64 -> 0 <= t < 4 ->
  Z.shiftr (Z.land (x + t * 64) 0xc0) 6 = t /\ Z.land (x + t * 64) (0xff - 0xc0) = x.
Proof.
  intros Hx Ht. split.
  - rewrite Z.shiftr_land. change (Z.shiftr 192 6) with (Z.ones 2).
    rewrite Z.land_ones, Z.shiftr_div_pow2 by lia.
    change (2 ^ 6) with 64. rewrite Z.div_add, Z.div_small by lia.
    apply Z.mod_small. change (2 ^ 2) with 4. lia.
  - change (255 - 192) with (Z.ones 6). rewrite Z.land_ones by lia.
    change (2 ^ 6) with 64. rewrite Z.mod_add, Z.mod_small; lia.
Qed.

(** The base-256 digits of a number. *)
Lemma shiftr_succ i k : 0 <= k -> Z.shiftr i (k + 8) = Z.shiftr i k / 256.
Proof.
  intros. rewrite <- Z.shiftr_shiftr by lia.
  by rewrite (Z.shiftr_div_pow2 (Z.shiftr i k)) by lia.
Qed.

Lemma digit_split q : q = u8 q + 256 * (q / 256).
Proof. unfold u8. change (2 ^ 8) with 256. pose proof (Z.div_mod q 256). lia. Qed.

Lemma shiftl_val a k : 0 <= k -> Z.shiftl a k = a * 2 ^ k.
Proof. apply Z.shiftl_mul_pow2. Qed.

Lemma varint_Len_vlen i : i <= maxVarInt8 -> varint_Len i = Ok (vlen i).
Proof.
  intros. unfold varint_Len, vlen. repeat case_match; try done; lia.
Qed.

Lemma vlen_range i : 1 <= vlen i <= 8.
Proof. unfold vlen. repeat case_match; lia. Qed.

Lemma vlen_mono i j : i <= j -> vlen i <= vlen j.
Proof. unfold vlen, maxVarInt1, maxVarInt2, maxVarInt4. repeat case_match; lia. Qed.

Lemma vlen_small i : i <= maxVarInt1 -> vlen i = 1.
Proof. unfold vlen. case_match; [done | lia]. Qed.

Lemma varint_Append_venc b i :
  is_varint i -> varint_Append b i = Ok (b ++ venc i).
Proof.
  intros [_ Hi]. unfold venc, varint_Append. repeat case_match; simplify_eq/=; try done; lia.
Qed.

Lemma blen_venc i : is_varint i -> blen (venc i) = vlen i.
Proof.
  intros [_ Hi]. unfold venc, varint_Append, vlen. repeat case_match; simplify_eq/=; try done; lia.
Qed.

(** Read the digits of [i] from the top: each [Z.shiftr] is a quotient of the
    previous one by 256. *)
Ltac digits i :=
  let rec go k n :=
    lazymatch n with
    | O => idtac
    | S ?m =>
        let k' := eval vm_compute in (k + 8) in
        let H := fresh "Hs" in let D := fresh "Hd" in
        assert (H : Z.shiftr i k' = Z.shiftr i k / 256) by (apply (shiftr_succ i k); lia);
        pose proof (digit_split (Z.shiftr i k)) as D; rewrite <- H in D;
        pose proof (u8_range (Z.shiftr i k));
        go k' m
    end in
  go 0 7%nat;
  pose proof (u8_range (Z.shiftr i 56)); pose proof (digit_split (Z.shiftr i 56));
  assert (0 <= Z.shiftr i 56) by (apply Z.shiftr_nonneg; lia);
  rewrite ?Z.shiftr_0_r in *.

Lemma varint_Read_venc i rest :
  is_varint i -> varint_Read (venc i ++ rest) = (Ok i, rest).
Proof.
  unfold is_varint. intros [Hi0 Hi]. digits i. unfold is_u8 in *.
  unfold venc, varint_Append, maxVarInt1, maxVarInt2, maxVarInt4, maxVarInt8 in *.
  assert (Hlor : forall x t, 0 <= x < 64 -> Z.lor x (t * 2 ^ 6) = x + t * 64)
    by (intros; apply lor_high; lia).
  change 0x40 with (1 * 2 ^ 6). change 0x80 with (2 * 2 ^ 6). change 0xc0 with (3 * 2 ^ 6).
  repeat case_match; simplify_eq/=; try lia.
  1: replace (u8 i) with (i + 0 * 64) by lia.
  all: rewrite ?Hlor by lia; unfold varint_Read, mbind, stM_bind, ReadByte;
    match goal with |- context [?x + ?t * 64] =>
      destruct (first_byte_tag x t ltac:(lia) ltac:(lia)) as [-> ->] end;
    match goal with |- context [Z.shiftl 1 ?t] => change (Z.shiftl 1 t) with (2 ^ t) end;
    simpl; unfold mret, stM_ret; f_equal; f_equal;
    rewrite ?shiftl_val by lia; rewrite ?u64_small; try done; unfold is_u64; lia.
Qed.

Lemma venc_bytes_ok i : is_varint i -> bytes_ok (venc i).
Proof.
  intros [Hi0 Hi]. unfold venc, varint_Append.
  assert (Hl : forall k t, 0 <= t < 4 -> 0 <= Z.shiftr i k < 64 ->
    is_u8 (Z.lor (u8 (Z.shiftr i k)) (t * 2 ^ 6))).
  { intros k t Ht Hk. rewrite u8_small, lor_high by (unfold is_u8; lia). unfold is_u8. lia. }
  assert (Hk : forall k m, 0 <= k -> i < m * 2 ^ k -> 0 <= Z.shiftr i k < m).
  { intros k m Hk Hm. rewrite Z.shiftr_div_pow2 by done.
    split; [apply Z.div_pos; lia | apply Z.div_lt_upper_bound; lia]. }
  unfold maxVarInt1, maxVarInt2, maxVarInt4, maxVarInt8 in *.
  change 0x40 with (1 * 2 ^ 6). change 0x80 with (2 * 2 ^ 6). change 0xc0 with (3 * 2 ^ 6).
  repeat case_match; simplify_eq/=; repeat apply Forall_cons_2; try apply Forall_nil_2;
    try apply u8_range; apply Hl; try lia; apply Hk; lia.
Qed.

(** Any two-bit tag on a byte selects one of the four encodings. *)
Lemma byte_tag_cases b : is_u8 b ->
  exists x t, b = x + t * 64 /\ 0 <= x < 64 /\ (t = 0 \/ t = 1 \/ t = 2 \/ t = 3).
Proof.
  intros Hb. unfold is_u8 in Hb. exists (b mod 64), (b / 64).
  pose proof (Z.div_mod b 64). pose proof (Z.mod_pos_bound b 64).
  assert (0 <= b / 64 < 4) by (split; [apply Z.div_pos; lia | apply Z.div_lt_upper_bound; lia]).
  lia.
Qed.

(** Case on the next unread byte: at the end of the input the reader fails. *)
Ltac next_byte r Hr :=
  let b := fresh "b" in
  destruct r as [|b r]; [left; by eexists|]; apply Forall_cons in Hr as [? Hr].

(** The value a first byte with value bits [x] and tag [t] starts. *)
Definition read_result (r : bytes) (o : res Z * bytes) : Prop :=
  (exists e, o = (Err e, [])) \/
  exists used v r', r = used ++ r' /\ o = (Ok v, r') /\ is_varint v /\
    vlen v <= blen used /\ (blen used = 1 \/ blen used = 2 \/ blen used = 4 \/ blen used = 8).

Lemma read_result_ok used r' v :
  0 <= v < 2 ^ (8 * blen used - 2) ->
  blen used = 1 \/ blen used = 2 \/ blen used = 4 \/ blen used = 8 ->
  read_result (used ++ r') (Ok v, r').
Proof.
  intros Hv Hu. right. exists used, v, r'. unfold is_varint, maxVarInt8.
  assert (2 ^ (8 * blen used - 2) <= 2 ^ 62) by (apply Z.pow_le_mono_r; lia).
  split_and!; try done; try lia.
  unfold vlen, maxVarInt1, maxVarInt2, maxVarInt4.
  destruct Hu as [Hu|[Hu|[Hu|Hu]]]; rewrite Hu in *;
    repeat case_match; try lia;
    match goal with H : _ < 2 ^ ?e |- _ => let k := eval vm_compute in (2 ^ e) in
      change (2 ^ e) with k in H end; lia.
Qed.

Ltac read_width :=
  match goal with |- context [8 * blen ?l - 2] =>
    let k := eval cbv in (8 * blen l - 2) in change (8 * blen l - 2) with k end.

Lemma varint_Read_total r : bytes_ok r -> read_result r (varint_Read r).
Proof.
  intros Hr. destruct r as [|b1 r]; [left; by exists EOF|].
  apply Forall_cons in Hr as [H1 Hr].
  destruct (byte_tag_cases b1 H1) as (x & t & -> & Hx & Ht).
  destruct (first_byte_tag x t Hx ltac:(lia)) as [Ht6 Hx6].
  unfold varint_Read, mbind, stM_bind, ReadByte. rewrite Ht6, Hx6. clear Ht6 Hx6 H1.
  unfold mret, stM_ret.
  destruct Ht as [->|[->|[->| ->]]];
    [ change (Z.shiftl 1 0) with 1 | change (Z.shiftl 1 1) with 2
    | change (Z.shiftl 1 2) with 4 | change (Z.shiftl 1 3) with 8 ]; simpl.
  - apply (read_result_ok [_]); [read_width; lia | by left].
  - next_byte r Hr. unfold is_u8 in *. rewrite !shiftl_val, u64_small by int_range.
    apply (read_result_ok [_; _]); [read_width; lia | by right; left].
  - do 3 next_byte r Hr. unfold is_u8 in *. rewrite !shiftl_val, u64_small by int_range.
    apply (read_result_ok [_; _; _; _]); [read_width; lia | by right; right; left].
  - do 7 next_byte r Hr. unfold is_u8 in *. rewrite !shiftl_val, u64_small by int_range.
    apply (read_result_ok [_; _; _; _; _; _; _; _]); [read_width; lia | by right; right; right].
Qed.

(** The value [AppendWithLen] lays out, byte by byte. *)
Fixpoint be_value (acc : Z) (bs : bytes) : Z :=
  match bs with
  | [] => acc
  | b :: bs' => be_value (acc * 256 + b) bs'
  end.

Lemma be_value_app acc xs ys : be_value acc (xs ++ ys) = be_value (be_value acc xs) ys.
Proof. revert acc; induction xs; intros; simpl; auto. Qed.

Lemma be_value_zeros n : be_value 0 (replicate n 0) = 0.
Proof. induction n; simpl; auto. Qed.

(** A well-formed encoding of a given length is its tag and its base-256 value. *)
Lemma varint_Read_be n t x bs rest :
  (n = 2 /\ t = 1) \/ (n = 4 /\ t = 2) \/ (n = 8 /\ t = 3) ->
  0 <= x < 64 -> bytes_ok bs -> blen bs = n - 1 ->
  varint_Read ((x + t * 64 :: bs) ++ rest) = (Ok (be_value x bs), rest).
Proof.
  intros Hn Hx Hbs Hl. unfold blen in Hl.
  destruct (first_byte_tag x t Hx ltac:(lia)) as [Ht6 Hx6].
  unfold varint_Read, mbind, stM_bind, ReadByte. cbn [app]. rewrite Ht6, Hx6.
  unfold mret, stM_ret. unfold bytes_ok in Hbs.
  destruct Hn as [[-> ->]|[[-> ->]|[-> ->]]];
    [ change (Z.shiftl 1 1) with 2 | change (Z.shiftl 1 2) with 4 | change (Z.shiftl 1 3) with 8 ];
    repeat (destruct bs as [|? bs]; simpl in Hl; try lia);
    repeat (apply Forall_cons in Hbs as [? Hbs]); unfold is_u8 in *;
    simpl; f_equal; f_equal; rewrite !shiftl_val, u64_small by int_range; lia.
Qed.

(** The payload loop of [AppendWithLen] writes the low [l] bytes of [i]. *)
Lemma AppendWithLen_payload_val i l :
  0 <= i -> l = 1 \/ l = 2 \/ l = 4 -> i < 2 ^ (8 * l) ->
  be_value 0 (AppendWithLen_payload i l) = i /\ bytes_ok (AppendWithLen_payload i l) /\
  blen (AppendWithLen_payload i l) = l.
Proof.
  intros Hi Hl Hb. digits i. unfold is_u8 in *.
  destruct Hl as [->|[->| ->]];
    [ change (AppendWithLen_payload i 1) with [u8 (Z.shiftr i 0)]; change (2 ^ (8 * 1)) with 256 in Hb
    | change (AppendWithLen_payload i 2) with [u8 (Z.shiftr i 8); u8 (Z.shiftr i 0)];
      change (2 ^ (8 * 2)) with 65536 in Hb
    | change (AppendWithLen_payload i 4) with
        [u8 (Z.shiftr i 24); u8 (Z.shiftr i 16); u8 (Z.shiftr i 8); u8 (Z.shiftr i 0)];
      change (2 ^ (8 * 4)) with 4294967296 in Hb ]; simpl be_value;
    (split_and!; [| repeat apply Forall_cons_2; try apply Forall_nil_2; apply u8_range | done]);
    rewrite ?Z.shiftr_0_r; lia.
Qed.

Lemma AppendWithLen_padded b i n l :
  (l = 1 /\ (n = 2 \/ n = 4 \/ n = 8)) \/ (l = 2 /\ (n = 4 \/ n = 8)) \/ (l = 4 /\ n = 8) ->
  is_varint i -> vlen i = l ->
  exists bs, varint_AppendWithLen b i n = Ok (b ++ bs) /\ blen bs = n /\
    forall rest, varint_Read (bs ++ rest) = (Ok i, rest).
Proof.
  intros Hln Hi Hl. unfold varint_AppendWithLen.
  rewrite varint_Len_vlen by apply Hi. simpl. rewrite Hl.
  assert (Hpow : i < 2 ^ (8 * l)).
  { destruct Hi as [? Hi]. unfold vlen, maxVarInt1, maxVarInt2, maxVarInt4, maxVarInt8 in *.
    repeat case_match; simplify_eq; simpl; lia. }
  destruct (AppendWithLen_payload_val i l) as (Hval & Hok & Hlen);
    [apply Hi | lia | done |].
  replace (l =? n) with false by lia. replace (n <? l) with false by lia.
  assert (exists t, ((n = 2 /\ t = 1) \/ (n = 4 /\ t = 2) \/ (n = 8 /\ t = 3)) /\
    (if n =? 2 then b ++ [0x40] else if n =? 4 then b ++ [0x80]
     else if n =? 8 then b ++ [0xc0] else b) = b ++ [0 + t * 64]) as (t & Ht & ->).
  { destruct (Z.eqb_spec n 2); [exists 1; split; [lia | done]|].
    destruct (Z.eqb_spec n 4); [exists 2; split; [lia | done]|].
    destruct (Z.eqb_spec n 8); [exists 3; split; [lia | done]|]. lia. }
  replace (negb (n =? 1) && negb (n =? 2) && negb (n =? 4) && negb (n =? 8)) with false by lia.
  set (bs := AppendWithLen_zeros n l ++ AppendWithLen_payload i l).
  assert (Hbs : blen bs = n - 1).
  { unfold bs, AppendWithLen_zeros. rewrite blen_app, Hlen. unfold blen.
    rewrite length_replicate. lia. }
  exists ((0 + t * 64) :: bs). split; [|split].
  - by rewrite <- app_assoc.
  - rewrite blen_cons. lia.
  - assert (bytes_ok bs).
    { apply Forall_app. split; [apply Forall_replicate; unfold is_u8; lia | done]. }
    intros rest. rewrite (varint_Read_be n) by (done || lia).
    unfold bs, AppendWithLen_zeros. by rewrite be_value_app, be_value_zeros, Hval.
Qed.

(** ** Claims *)

(** Varint round trip and failure.  For every value up to 2^62-1, [Append]
    writes exactly [Len] well-formed bytes that [Read] decodes to the same value
    leaving the rest of the input untouched; above that, both [Append] and [Len]
    panic, whatever the prefix. *)
Theorem varint_roundtrip (b : bytes) (i : Z) (rest : bytes) :
  0 <= i ->
  if i <=? maxVarInt8 then
    exists bs, varint_Append b i = Ok (b ++ bs) /\ varint_Len i = Ok (blen bs) /\
      bytes_ok bs /\ varint_Read (bs ++ rest) = (Ok i, rest)
  else (exists s, varint_Append b i = Panic s) /\ (exists s, varint_Len i = Panic s).
Proof.
  intros Hi. destruct (Z.leb_spec i maxVarInt8).
  - assert (is_varint i) by (split; lia). exists (venc i). split_and!.
    + by apply varint_Append_venc.
    + by rewrite varint_Len_vlen, blen_venc.
    + by apply venc_bytes_ok.
    + by apply varint_Read_venc.
  - unfold varint_Append, varint_Len, maxVarInt1, maxVarInt2, maxVarInt4, maxVarInt8 in *.
    repeat case_match; try lia. split; by eexists.
Qed.

Lemma varint_roundtrip_witness :
  if 494878333 <=? maxVarInt8 then
    exists bs, varint_Append [7] 494878333 = Ok ([7] ++ bs) /\
      varint_Len 494878333 = Ok (blen bs) /\
      bytes_ok bs /\ varint_Read (bs ++ [1; 2]) = (Ok 494878333, [1; 2])
  else (exists s, varint_Append [7] 494878333 = Panic s) /\
       (exists s, varint_Len 494878333 = Panic s).
Proof. apply (varint_roundtrip [7] 494878333 [1; 2]). lia. Defined.

(** [AppendWithLen] encodes every value that fits in the requested length
    (1, 2, 4 or 8) in exactly that many bytes, and [Read] still decodes the
    value: non-minimal encodings round-trip too. *)
Theorem varint_AppendWithLen_roundtrip (b : bytes) (i n l : Z) :
  0 <= i -> n = 1 \/ n = 2 \/ n = 4 \/ n = 8 -> varint_Len i = Ok l -> l <= n ->
  exists bs, varint_AppendWithLen b i n = Ok (b ++ bs) /\ blen bs = n /\
    forall rest, varint_Read (bs ++ rest) = (Ok i, rest).
Proof.
  intros Hi Hn Hl Hle.
  assert (Hv : is_varint i).
  { unfold is_varint. split; [done|].
    unfold varint_Len, maxVarInt1, maxVarInt2, maxVarInt4, maxVarInt8 in *.
    repeat case_match; try done; lia. }
  rewrite varint_Len_vlen in Hl by apply Hv. injection Hl as <-.
  destruct (Z.eq_dec (vlen i) n) as [<-|Hne].
  - exists (venc i). split_and!.
    + unfold varint_AppendWithLen. rewrite varint_Len_vlen by apply Hv.
      replace (negb (vlen i =? 1) && negb (vlen i =? 2) && negb (vlen i =? 4)
        && negb (vlen i =? 8)) with false by lia.
      simpl. rewrite Z.eqb_refl. by apply varint_Append_venc.
    + by apply blen_venc.
    + intros. by apply varint_Read_venc.
  - apply (AppendWithLen_padded b i n (vlen i)); [|done|done].
    assert (vlen i = 1 \/ vlen i = 2 \/ vlen i = 4 \/ vlen i = 8)
      by (unfold vlen; repeat case_match; lia). lia.
Qed.

Lemma varint_AppendWithLen_roundtrip_witness :
  exists bs, varint_AppendWithLen [9] 37 4 = Ok ([9] ++ bs) /\ blen bs = 4 /\
    forall rest, varint_Read (bs ++ rest) = (Ok 37, rest).
Proof. apply (varint_AppendWithLen_roundtrip [9] 37 4 1); [lia | lia | reflexivity | lia]. Defined.

(** [Read] never panics on byte input.  It either reports the end of the
    input after consuming all of it, or consumes 1, 2, 4 or 8 bytes and returns a
    value below 2^62 whose minimal encoding is no longer than what was read. *)
Theorem varint_Read_safe (r : bytes) :
  bytes_ok r ->
  (exists e, varint_Read r = (Err e, [])) \/
  exists used v r', r = used ++ r' /\ varint_Read r = (Ok v, r') /\
    0 <= v <= maxVarInt8 /\ varint_Len v = Ok (vlen v) /\ vlen v <= blen used /\
    (blen used = 1 \/ blen used = 2 \/ blen used = 4 \/ blen used = 8).
Proof.
  intros Hr. destruct (varint_Read_total r Hr) as [?|(used & v & r' & ? & ? & Hv & ? & ?)];
    [by left | right].
  exists used, v, r'. split_and!; try done; try apply Hv. by apply varint_Len_vlen, Hv.
Qed.

Lemma varint_Read_safe_witness :
  (exists e, varint_Read [0x40; 37; 1] = (Err e, [])) \/
  exists used v r', [0x40; 37; 1] = used ++ r' /\ varint_Read [0x40; 37; 1] = (Ok v, r') /\
    0 <= v <= maxVarInt8 /\ varint_Len v = Ok (vlen v) /\ vlen v <= blen used /\
    (blen used = 1 \/ blen used = 2 \/ blen used = 4 \/ blen used = 8).
Proof. apply (varint_Read_safe [0x40; 37; 1]). repeat constructor; lia. Defined.
