(* ===== verification/AckFrame.v ===== *)
(** * AckFrame: [internal/wire/ack_frame.go] and [ack_range.go]

    The ACK frame: its ranges, parsing, serialization, length, the limit on the
    number of encoded ranges, and the membership test by binary search. *)

From S2P Require Import Prelude Protocol Varint.
From stdpp Require Import base numbers list option strings.
From Stdlib Require Import ZArith Lia.
#[local] Open Scope Z_scope.

Definition ackFrameType : Z := 0x2.
Definition ackECNFrameType : Z := 0x3.

(** [utils.InfDuration] *)
Definition InfDuration : Z := 2 ^ 63 - 1.

Record AckRange := mkAckRange { Smallest : Z; Largest : Z }.

Definition AckRange_Len (r : AckRange) : Z := i64 (i64 (Largest r - Smallest r) + 1).

Record AckFrame := mkAckFrame {
  AckRanges : list AckRange;   (* highest range first *)
  DelayTime : Z;
  AckECT0 : Z;
  AckECT1 : Z;
  AckECNCE : Z
}.

#[export] Instance AckRange_eq_dec : EqDecision AckRange.
Proof. solve_decision. Defined.
#[export] Instance AckFrame_eq_dec : EqDecision AckFrame.
Proof. solve_decision. Defined.

Definition emptyAckFrame : AckFrame := mkAckFrame [] 0 0 0 0.

Definition errInvalidAckRanges : GoError :=
  ErrorString "AckFrame: ACK frame contains invalid ACK ranges".

(** ** Accessors *)

Definition LargestAcked (f : AckFrame) : res Z :=
  match AckRanges f !! 0%nat with
  | Some r => Ok (Largest r)
  | None => Panic "index out of range"
  end.

Definition LowestAcked (f : AckFrame) : res Z :=
  match last (AckRanges f) with
  | Some r => Ok (Smallest r)
  | None => Panic "index out of range"
  end.

Definition HasMissingRanges (f : AckFrame) : bool := 1 <? blen (AckRanges f).

(** The two loops of [validateAckRanges]. *)
Fixpoint validateRangesOrder (lastAckRange : AckRange) (rs : list AckRange) : bool :=
  match rs with
  | [] => true
  | ackRange :: rs' =>
      if Smallest lastAckRange <=? Smallest ackRange then false
      else if Smallest lastAckRange <=? i64 (Largest ackRange + 1) then false
      else validateRangesOrder ackRange rs'
  end.

Definition validateAckRanges (f : AckFrame) : bool :=
  match AckRanges f with
  | [] => false
  | r0 :: rs =>
      if existsb (fun r => Largest r <? Smallest r) (AckRanges f) then false
      else validateRangesOrder r0 rs
  end.

(** [sort.Search(n, f)] of the Go standard library: binary search for the least
    index at which [f] holds; [fuel] bounds the halvings of [j - i]. *)
Fixpoint sort_Search_loop (fuel : nat) (f : nat -> bool) (i j : nat) : nat :=
  match fuel with
  | O => i
  | S fuel' =>
      if (i <? j)%nat then
        let h := ((i + j) / 2)%nat in
        if f h then sort_Search_loop fuel' f i h
        else sort_Search_loop fuel' f (S h) j
      else i
  end.

Definition sort_Search (n : nat) (f : nat -> bool) : nat := sort_Search_loop n f 0 n.

Definition AcksPacket (f : AckFrame) (p : Z) : res bool :=
  lowest ← LowestAcked f;
  if p <? lowest then Ok false else
  largest ← LargestAcked f;
  if largest <? p then Ok false else
  let i := sort_Search (length (AckRanges f))
    (fun i => match AckRanges f !! i with Some r => Smallest r <=? p | None => false end) in
  match AckRanges f !! i with
  | Some r => Ok (p <=? Largest r)
  | None => Panic "index out of range"
  end.

(** [Reset] zeroes the counters and truncates the slice of ranges. *)
Definition AckFrame_Reset (f : AckFrame) : AckFrame := mkAckFrame [] 0 0 0 0.

(** ** Parsing *)

(** The loop over the ranges after the first.  Every iteration reads at least
    two bytes, so a fuel above the number of unread bytes is never used up. *)
Fixpoint parseAckRanges (fuel : nat) (numBlocks : Z) (smallest : Z)
    (ranges : list AckRange) : parser (list AckRange) :=
  if numBlocks <=? 0 then mret ranges else
  match fuel with
  | O => fun r => (Panic "out of fuel", r)
  | S fuel' =>
      g ← varint_Read;
      let gap := i64 g in
      if smallest <? i64 (gap + 2) then fail errInvalidAckRanges else
      let largest := i64 (i64 (smallest - gap) - 2) in
      ab ← varint_Read;
      let ackBlock := i64 ab in
      if largest <? ackBlock then fail errInvalidAckRanges else
      let smallest := i64 (largest - ackBlock) in
      parseAckRanges fuel' (numBlocks - 1) smallest (ranges ++ [mkAckRange smallest largest])
  end.

(** [time.Duration(delay*1<<ackDelayExponent) * time.Microsecond], with the
    [uint64] shift, the conversion to [int64] and the product all wrapping. *)
Definition ackDelayTime (delay ackDelayExponent : Z) : Z :=
  let delayTime := i64 (i64 (u64 (Z.shiftl delay ackDelayExponent)) * Microsecond) in
  if delayTime <? 0 then InfDuration else delayTime.

Definition parseAckFrame (frame : AckFrame) (typ ackDelayExponent : Z) : parser AckFrame :=
  let ecn := typ =? ackECNFrameType in
  la ← varint_Read;
  let largestAcked := i64 la in
  delay ← varint_Read;
  let delayTime := ackDelayTime delay ackDelayExponent in
  numBlocks ← varint_Read;
  ab ← varint_Read;
  let ackBlock := i64 ab in
  if largestAcked <? ackBlock then fail (ErrorString "invalid first ACK range") else
  let smallest := i64 (largestAcked - ackBlock) in
  n ← reader_len;
  ranges ← parseAckRanges (S (Z.to_nat n)) numBlocks smallest
             (AckRanges frame ++ [mkAckRange smallest largestAcked]);
  let frame := mkAckFrame ranges delayTime (AckECT0 frame) (AckECT1 frame) (AckECNCE frame) in
  if negb (validateAckRanges frame) then fail errInvalidAckRanges else
  if ecn then
    ect0 ← varint_Read;
    ect1 ← varint_Read;
    ecnce ← varint_Read;
    mret (mkAckFrame ranges delayTime ect0 ect1 ecnce)
  else mret frame.

(** ** Serialization *)

Definition encodeAckDelay (delay : Z) : Z :=
  u64 (Z.quot delay (1000 * Z.shiftl 1 AckDelayExponent)).

Definition encodeAckRange (f : AckFrame) (i : nat) : res (Z * Z) :=
  match i with
  | O =>
      match AckRanges f !! 0%nat with
      | Some r => Ok (0, u64 (i64 (Largest r - Smallest r)))
      | None => Panic "index out of range"
      end
  | S i' =>
      match AckRanges f !! i', AckRanges f !! i with
      | Some prev, Some r =>
          Ok (u64 (i64 (i64 (Smallest prev - Largest r) - 2)),
              u64 (i64 (Largest r - Smallest r)))
      | _, _ => Panic "index out of range"
      end
  end.

(** The loop of [numEncodableAckRanges] over the indices [idxs]. *)
Fixpoint numEncodable_loop (f : AckFrame) (length : Z) (idxs : list nat) : res Z :=
  match idxs with
  | [] => Ok (blen (AckRanges f))
  | i :: idxs' =>
      '(gap, len) ← encodeAckRange f i;
      gl ← varint_Len gap;
      ll ← varint_Len len;
      let rangeLen := gl + ll in
      if MaxAckFrameSize <? length + rangeLen then Ok (Z.of_nat i - 1)
      else numEncodable_loop f (length + rangeLen) idxs'
  end.

Definition numEncodableAckRanges (f : AckFrame) : res Z :=
  la ← LargestAcked f;
  l1 ← varint_Len (u64 la);
  l2 ← varint_Len (encodeAckDelay (DelayTime f));
  numEncodable_loop f (1 + l1 + l2 + 2) (seq 1 (length (AckRanges f) - 1)).

(** The loop that writes the ranges with indices [idxs]. *)
Fixpoint appendAckRanges (f : AckFrame) (b : bytes) (idxs : list nat) : res bytes :=
  match idxs with
  | [] => Ok b
  | i :: idxs' =>
      '(gap, len) ← encodeAckRange f i;
      b ← varint_Append b gap;
      b ← varint_Append b len;
      appendAckRanges f b idxs'
  end.

Definition AckFrame_hasECN (f : AckFrame) : bool :=
  (0 <? AckECT0 f) || (0 <? AckECT1 f) || (0 <? AckECNCE f).

Definition AckFrame_Append (b : bytes) (f : AckFrame) : res bytes :=
  let b := b ++ [if AckFrame_hasECN f then ackECNFrameType else ackFrameType] in
  la ← LargestAcked f;
  b ← varint_Append b (u64 la);
  b ← varint_Append b (encodeAckDelay (DelayTime f));
  numRanges ← numEncodableAckRanges f;
  b ← varint_Append b (u64 (numRanges - 1));
  '(_, firstRange) ← encodeAckRange f 0;
  b ← varint_Append b firstRange;
  b ← appendAckRanges f b (seq 1 (Z.to_nat (numRanges - 1)));
  if AckFrame_hasECN f then
    b ← varint_Append b (AckECT0 f);
    b ← varint_Append b (AckECT1 f);
    varint_Append b (AckECNCE f)
  else Ok b.

Fixpoint lengthAckRanges (f : AckFrame) (length : Z) (idxs : list nat) : res Z :=
  match idxs with
  | [] => Ok length
  | i :: idxs' =>
      '(gap, len) ← encodeAckRange f i;
      gl ← varint_Len gap;
      ll ← varint_Len len;
      lengthAckRanges f (length + gl + ll) idxs'
  end.

Definition AckFrame_Length (f : AckFrame) : res Z :=
  match AckRanges f !! 0%nat with
  | None => Panic "index out of range"
  | Some r0 =>
      let largestAcked := Largest r0 in
      numRanges ← numEncodableAckRanges f;
      l1 ← varint_Len (u64 largestAcked);
      l2 ← varint_Len (encodeAckDelay (DelayTime f));
      l3 ← varint_Len (u64 (numRanges - 1));
      l4 ← varint_Len (u64 (i64 (largestAcked - Smallest r0)));
      length ← lengthAckRanges f (1 + l1 + l2 + l3 + l4) (seq 1 (Z.to_nat (numRanges - 1)));
      if AckFrame_hasECN f then
        e0 ← varint_Len (AckECT0 f);
        e1 ← varint_Len (AckECT1 f);
        e2 ← varint_Len (AckECNCE f);
        Ok (length + e0 + e1 + e2)
      else Ok length
  end.

Example ack_ex1 :
  AckFrame_Append [] (mkAckFrame [mkAckRange 90 100; mkAckRange 50 60] 16000 1 0 0)
  = Ok [3; 64; 100; 2; 1; 10; 28; 10; 1; 0; 0].
Proof. vm_compute. reflexivity. Qed.
Example ack_ex2 :
  parseAckFrame emptyAckFrame 3 3 [64; 100; 2; 1; 10; 28; 10; 1; 0; 0; 77]
  = (Ok (mkAckFrame [mkAckRange 90 100; mkAckRange 50 60] 16000 1 0 0), [77]).
Proof. vm_compute. reflexivity. Qed.

(** ** Well-formed ranges

    [ranges_desc hi rs]: non-empty ranges of non-negative packet numbers, in
    descending order, with at least one missing packet between two of them, and
    nothing above [hi]. *)
Fixpoint ranges_desc (hi : Z) (rs : list AckRange) : Prop :=
  match rs with
  | [] => True
  | r :: rs' => 0 <= Smallest r <= Largest r /\ Largest r <= hi /\ ranges_desc (Smallest r - 2) rs'
  end.

Definition range_mem (p : Z) (r : AckRange) : Prop := Smallest r <= p <= Largest r.

(** The packets a frame acknowledges. *)
Definition acks (f : AckFrame) (p : Z) : Prop := Exists (range_mem p) (AckRanges f).

(** A frame the sender may serialize. *)
Definition ack_wf (f : AckFrame) : Prop :=
  AckRanges f <> [] /\ ranges_desc maxVarInt8 (AckRanges f) /\
  0 <= DelayTime f < 2 ^ 63 /\
  is_varint (AckECT0 f) /\ is_varint (AckECT1 f) /\ is_varint (AckECNCE f).

(** The bytes of the ranges below [prev]. *)
Fixpoint enc_ranges (prev : AckRange) (rs : list AckRange) : bytes :=
  match rs with
  | [] => []
  | r :: rs' =>
      venc (Smallest prev - Largest r - 2) ++ venc (Largest r - Smallest r) ++ enc_ranges r rs'
  end.

Lemma ranges_desc_le hi hi' rs : hi <= hi' -> ranges_desc hi rs -> ranges_desc hi' rs.
Proof. destruct rs; simpl; intuition lia. Qed.

Lemma ranges_desc_lookup hi rs i r :
  ranges_desc hi rs -> rs !! i = Some r -> 0 <= Smallest r <= Largest r /\ Largest r <= hi.
Proof.
  revert hi i. induction rs as [|r0 rs IH]; intros hi i Hd Hi; [done|].
  destruct Hd as (? & ? & Hd). destruct i as [|i]; simpl in Hi; [naive_solver lia|].
  destruct (IH _ _ Hd Hi). lia.
Qed.

Lemma ranges_desc_next hi rs i r r' :
  ranges_desc hi rs -> rs !! i = Some r -> rs !! S i = Some r' -> Largest r' <= Smallest r - 2.
Proof.
  revert hi i. induction rs as [|r0 rs IH]; intros hi i Hd Hi Hi'; [done|].
  destruct Hd as (? & ? & Hd). destruct i as [|i]; simpl in *; [|by eapply IH].
  injection Hi as ->. by apply (ranges_desc_lookup _ _ _ _ Hd Hi').
Qed.

Lemma ranges_desc_take hi rs n : ranges_desc hi rs -> ranges_desc hi (take n rs).
Proof.
  revert hi n. induction rs as [|r rs IH]; intros hi n Hd; [by rewrite take_nil|].
  destruct n; [done|]. simpl in *. naive_solver.
Qed.

(** What the code computes for range [i] is the gap and length on the wire. *)
Lemma encodeAckRange_S f hi i prev r :
  ranges_desc hi (AckRanges f) -> hi <= maxVarInt8 ->
  AckRanges f !! i = Some prev -> AckRanges f !! S i = Some r ->
  encodeAckRange f (S i) = Ok (Smallest prev - Largest r - 2, Largest r - Smallest r) /\
  is_varint (Smallest prev - Largest r - 2) /\ is_varint (Largest r - Smallest r).
Proof.
  unfold is_varint, maxVarInt8. intros Hd Hhi Hp Hr.
  destruct (ranges_desc_lookup _ _ _ _ Hd Hp). destruct (ranges_desc_lookup _ _ _ _ Hd Hr).
  pose proof (ranges_desc_next _ _ _ _ _ Hd Hp Hr).
  split; [|lia]. unfold encodeAckRange. rewrite Hp, Hr. f_equal. unwrap. done.
Qed.

#[local] Arguments encodeAckRange : simpl never.
#[local] Arguments varint_Append : simpl never.
#[local] Arguments varint_Len : simpl never.
#[local] Arguments drop : simpl never.

Section ranges.
Context (f : AckFrame) (hi : Z).
Hypothesis Hd : ranges_desc hi (AckRanges f).
Hypothesis Hhi : hi <= maxVarInt8.

(** The frame has a range at index [S i], and what is encoded for it. *)
Lemma encode_step i n prev :
  AckRanges f !! i = Some prev -> (S i + S n <= length (AckRanges f))%nat ->
  exists r, AckRanges f !! S i = Some r /\
    drop (S i) (AckRanges f) = r :: drop (S (S i)) (AckRanges f) /\
    encodeAckRange f (S i) = Ok (Smallest prev - Largest r - 2, Largest r - Smallest r) /\
    is_varint (Smallest prev - Largest r - 2) /\ is_varint (Largest r - Smallest r).
Proof using Hd Hhi.
  intros Hp Hlen. destruct (lookup_lt_is_Some_2 (AckRanges f) (S i)) as [r Hr]; [lia|].
  destruct (encodeAckRange_S f hi i prev r Hd Hhi Hp Hr) as (? & ? & ?).
  exists r. split_and!; try done. by apply drop_S.
Qed.

Lemma appendAckRanges_spec n : forall b i prev,
  AckRanges f !! i = Some prev -> (S i + n <= length (AckRanges f))%nat ->
  appendAckRanges f b (seq (S i) n)
  = Ok (b ++ enc_ranges prev (take n (drop (S i) (AckRanges f)))).
Proof using Hd Hhi.
  induction n as [|n IH]; intros b i prev Hp Hlen; simpl; [by rewrite app_nil_r|].
  destruct (encode_step i n prev Hp Hlen) as (r & Hr & -> & -> & Hg & Hl). simpl.
  rewrite varint_Append_venc by done. simpl. rewrite varint_Append_venc by done. simpl.
  rewrite (IH _ (S i) r) by (done || lia). by rewrite <- !app_assoc.
Qed.

Lemma lengthAckRanges_spec n : forall len0 i prev,
  AckRanges f !! i = Some prev -> (S i + n <= length (AckRanges f))%nat ->
  lengthAckRanges f len0 (seq (S i) n)
  = Ok (len0 + blen (enc_ranges prev (take n (drop (S i) (AckRanges f))))).
Proof using Hd Hhi.
  induction n as [|n IH]; intros len0 i prev Hp Hlen; simpl; [by rewrite Z.add_0_r|].
  destruct (encode_step i n prev Hp Hlen) as (r & Hr & -> & -> & Hg & Hl). simpl.
  rewrite !varint_Len_vlen by (apply Hg || apply Hl). simpl.
  rewrite (IH _ (S i) r) by (done || lia).
  rewrite !blen_app, !blen_venc by done. f_equal. lia.
Qed.

(** The number of encodable ranges, and the size they take. *)
Lemma numEncodable_loop_spec n : forall len0 i prev,
  AckRanges f !! i = Some prev -> (S i + n = length (AckRanges f))%nat ->
  len0 <= MaxAckFrameSize ->
  exists k, numEncodable_loop f len0 (seq (S i) n) = Ok (Z.of_nat k) /\
    (i <= k <= length (AckRanges f))%nat /\
    (len0 + 16 <= MaxAckFrameSize -> (S i <= k)%nat) /\
    (len0 + 16 * Z.of_nat n <= MaxAckFrameSize -> k = length (AckRanges f)) /\
    len0 + blen (enc_ranges prev (take (k - S i) (drop (S i) (AckRanges f)))) <= MaxAckFrameSize.
Proof using Hd Hhi.
  induction n as [|n IH]; intros len0 i prev Hp Hlen Hmax; simpl.
  { exists (length (AckRanges f)). split_and!; try done; try lia.
    replace (_ - _)%nat with 0%nat by lia. simpl. rewrite blen_nil. lia. }
  destruct (encode_step i n prev Hp ltac:(lia)) as (r & Hr & Hdrop & -> & Hg & Hl). simpl.
  rewrite !varint_Len_vlen by (apply Hg || apply Hl). simpl.
  pose proof (vlen_range (Smallest prev - Largest r - 2)).
  pose proof (vlen_range (Largest r - Smallest r)).
  case_match.
  - exists i. split_and!; try lia.
    + f_equal. lia.
    + replace (_ - _)%nat with 0%nat by lia. simpl. rewrite blen_nil. lia.
  - destruct (IH (len0 + (vlen (Smallest prev - Largest r - 2) + vlen (Largest r - Smallest r)))
      (S i) r) as (k & -> & Hk & Hk1 & Hk2 & Hk3); [done | lia | lia |].
    exists k. split_and!; try done; try lia.
    destruct (decide (k = S i)) as [->|].
    { replace (_ - _)%nat with 0%nat by lia. simpl. rewrite blen_nil. lia. }
    rewrite Hdrop. replace (k - S i)%nat with (S (k - S (S i))) by lia. simpl.
    rewrite !blen_app, !blen_venc by done. lia.
Qed.
End ranges.

(** The size limit never leaves a frame without its first range. *)
Lemma numEncodableAckRanges_spec f :
  ack_wf f ->
  exists r0 rs n, AckRanges f = r0 :: rs /\
    numEncodableAckRanges f = Ok (Z.of_nat (S n)) /\ (n <= length rs)%nat /\
    (length rs <= 61 -> n = length rs)%nat /\
    blen (enc_ranges r0 (take n rs)) <= MaxAckFrameSize.
Proof.
  intros (Hne & Hd & Hdel & _). destruct (AckRanges f) as [|r0 rs] eqn:Hr; [done|].
  exists r0, rs. rewrite <- Hr in Hd.
  assert (Hr0 : AckRanges f !! 0%nat = Some r0) by by rewrite Hr.
  destruct (ranges_desc_lookup _ _ _ _ Hd Hr0). unfold maxVarInt8 in *.
  assert (Hq : 0 <= encodeAckDelay (DelayTime f) <= maxVarInt8).
  { unfold encodeAckDelay, AckDelayExponent. change (1000 * Z.shiftl 1 3) with 8000.
    rewrite Z.quot_div_nonneg by lia.
    assert (0 <= DelayTime f / 8000 <= DelayTime f)
      by (split; [apply Z.div_pos; lia | apply Z.div_le_upper_bound; lia]).
    assert (DelayTime f / 8000 < 2 ^ 62) by (apply Z.div_lt_upper_bound; lia).
    rewrite u64_small by int_range. unfold maxVarInt8. lia. }
  unfold numEncodableAckRanges, LargestAcked. rewrite Hr0. simpl.
  rewrite u64_small by int_range.
  rewrite !varint_Len_vlen by (unfold maxVarInt8 in *; lia). simpl.
  pose proof (vlen_range (Largest r0)). pose proof (vlen_range (encodeAckDelay (DelayTime f))).
  destruct (numEncodable_loop_spec f _ Hd ltac:(done) (length rs)
    (1 + vlen (Largest r0) + vlen (encodeAckDelay (DelayTime f)) + 2) 0 r0)
    as (k & Hk & Hk0 & Hk1 & Hk2 & Hk3);
    [done | by rewrite Hr | unfold MaxAckFrameSize; lia |].
  unfold MaxAckFrameSize in *. rewrite Hr in Hk0, Hk2, Hk3. simpl in *.
  rewrite Hr. simpl. rewrite Nat.sub_0_r. destruct k as [|k]; [lia|].
  exists k. rewrite Hk. split_and!; try done; try lia.
  change (drop 1 (r0 :: rs)) with rs in Hk3. replace (S k - 1)%nat with k in Hk3 by lia. lia.
Qed.

(** Parsing the encoded ranges gives them back. *)
Lemma parseAckRanges_enc rs : forall fuel prev acc rest,
  ranges_desc (Smallest prev - 2) rs -> 0 <= Smallest prev <= maxVarInt8 ->
  (length rs <= fuel)%nat ->
  parseAckRanges fuel (Z.of_nat (length rs)) (Smallest prev) acc (enc_ranges prev rs ++ rest)
  = (Ok (acc ++ rs), rest).
Proof.
  unfold maxVarInt8. induction rs as [|r rs IH]; intros fuel prev acc rest Hd Hp Hf.
  { destruct fuel; simpl; by rewrite app_nil_r. }
  destruct fuel as [|fuel]; [simpl in Hf; lia|]. destruct Hd as (Hr & Hle & Hd).
  cbn [parseAckRanges enc_ranges length].
  zfalse (Z.of_nat (S (length rs)) <=? 0).
  rewrite <- !app_assoc.
  erewrite parser_bind_ok; [|apply varint_Read_venc; unfold is_varint, maxVarInt8; lia].
  unwrap. replace (Smallest prev <? _) with false by lia.
  erewrite parser_bind_ok; [|apply varint_Read_venc; unfold is_varint, maxVarInt8; lia].
  unwrap. replace (_ <? Largest r - Smallest r) with false by lia.
  replace (Smallest prev - (Smallest prev - Largest r - 2) - 2) with (Largest r) by lia.
  replace (Largest r - (Largest r - Smallest r)) with (Smallest r) by lia.
  replace (Z.of_nat (S (length rs)) - 1) with (Z.of_nat (length rs)) by lia.
  rewrite IH by (simpl in Hf; done || lia). destruct r. by rewrite <- app_assoc.
Qed.

Lemma validateRangesOrder_desc r rs :
  ranges_desc (Smallest r - 2) rs -> 0 <= Smallest r < 2 ^ 62 -> validateRangesOrder r rs = true.
Proof.
  revert r. induction rs as [|r' rs IH]; intros r Hd Hr; simpl; [done|].
  destruct Hd as (? & ? & Hd). rewrite i64_small by int_range.
  replace (Smallest r <=? Smallest r') with false by lia.
  replace (Smallest r <=? Largest r' + 1) with false by lia. apply IH; [done | lia].
Qed.

Lemma validateAckRanges_desc f :
  AckRanges f <> [] -> ranges_desc maxVarInt8 (AckRanges f) -> validateAckRanges f = true.
Proof.
  unfold maxVarInt8, validateAckRanges. intros Hne Hd.
  assert (Hex : existsb (fun r => Largest r <? Smallest r) (AckRanges f) = false).
  { apply not_true_iff_false. rewrite existsb_exists. intros (r & Hin & Hlt).
    apply list_elem_of_In, list_elem_of_lookup in Hin as [i Hi].
    destruct (ranges_desc_lookup _ _ _ _ Hd Hi). lia. }
  destruct (AckRanges f) as [|r0 rs]; [done|]. rewrite Hex. destruct Hd as (? & ? & Hd).
  apply validateRangesOrder_desc; [done | lia].
Qed.

Lemma encodeAckDelay_val d :
  0 <= d < 2 ^ 63 -> encodeAckDelay d = d / 8000 /\ is_varint (d / 8000).
Proof.
  intros Hd. unfold encodeAckDelay, AckDelayExponent, is_varint, maxVarInt8.
  change (1000 * Z.shiftl 1 3) with 8000. rewrite Z.quot_div_nonneg by lia.
  assert (0 <= d / 8000) by (apply Z.div_pos; lia).
  assert (d / 8000 < 2 ^ 62) by (apply Z.div_lt_upper_bound; lia).
  rewrite u64_small by int_range. lia.
Qed.

(** The delay is carried in units of 8 microseconds. *)
Lemma ackDelayTime_encode d :
  0 <= d < 2 ^ 63 -> ackDelayTime (d / 8000) AckDelayExponent = d / 8000 * 8000.
Proof.
  intros Hd. unfold ackDelayTime, AckDelayExponent, Microsecond.
  assert (0 <= d / 8000) by (apply Z.div_pos; lia).
  assert (d / 8000 * 8000 <= d) by (pose proof (Z.mod_pos_bound d 8000); pose proof (Z.div_mod d 8000); lia).
  rewrite shiftl_val by lia. change (2 ^ 3) with 8. unwrap. zfalse (d / 8000 * 8 * 1000 <? 0). lia.
Qed.

(** The bytes of a frame after its type, when [n] ranges follow the first. *)
Definition ack_body (f : AckFrame) (r0 : AckRange) (rs : list AckRange) (n : nat) : bytes :=
  venc (Largest r0) ++ venc (DelayTime f / 8000) ++ venc (Z.of_nat n) ++
  venc (Largest r0 - Smallest r0) ++ enc_ranges r0 (take n rs) ++
  (if AckFrame_hasECN f then venc (AckECT0 f) ++ venc (AckECT1 f) ++ venc (AckECNCE f) else []).

Definition ack_type (f : AckFrame) : Z :=
  if AckFrame_hasECN f then ackECNFrameType else ackFrameType.

(** Every range takes at least two bytes. *)
Lemma enc_ranges_count rs : forall r,
  ranges_desc (Smallest r - 2) rs -> Smallest r <= maxVarInt8 ->
  2 * Z.of_nat (length rs) <= blen (enc_ranges r rs).
Proof.
  unfold maxVarInt8. induction rs as [|r' rs IH]; intros r Hd Hr; [done|].
  destruct Hd as (? & ? & Hd). cbn [enc_ranges length].
  rewrite !blen_app, !blen_venc by (unfold is_varint, maxVarInt8; lia).
  pose proof (vlen_range (Smallest r - Largest r' - 2)).
  pose proof (vlen_range (Largest r' - Smallest r')).
  pose proof (IH r' Hd ltac:(lia)). lia.
Qed.

(** ... and at most sixteen. *)
Lemma enc_ranges_size rs : forall r,
  ranges_desc (Smallest r - 2) rs -> Smallest r <= maxVarInt8 ->
  blen (enc_ranges r rs) <= 16 * Z.of_nat (length rs).
Proof.
  unfold maxVarInt8. induction rs as [|r' rs IH]; intros r Hd Hr; [done|].
  destruct Hd as (? & ? & Hd). cbn [enc_ranges length].
  rewrite !blen_app, !blen_venc by (unfold is_varint, maxVarInt8; lia).
  pose proof (vlen_range (Smallest r - Largest r' - 2)).
  pose proof (vlen_range (Largest r' - Smallest r')).
  pose proof (IH r' Hd ltac:(lia)). lia.
Qed.

Section frame.
Context (f : AckFrame) (r0 : AckRange) (rs : list AckRange) (n : nat).
Hypothesis Hwf : ack_wf f.
Hypothesis Hr : AckRanges f = r0 :: rs.
Hypothesis Hn : (n <= length rs)%nat.
Hypothesis Hnum : numEncodableAckRanges f = Ok (Z.of_nat (S n)).
Hypothesis Hsmall : Z.of_nat n <= maxVarInt8.

Lemma frame_facts :
  ranges_desc maxVarInt8 (AckRanges f) /\ AckRanges f !! 0%nat = Some r0 /\
  0 <= Smallest r0 <= Largest r0 /\ Largest r0 <= maxVarInt8 /\
  is_varint (Largest r0) /\ is_varint (Largest r0 - Smallest r0) /\ is_varint (Z.of_nat n) /\
  encodeAckDelay (DelayTime f) = DelayTime f / 8000 /\ is_varint (DelayTime f / 8000) /\
  u64 (Largest r0) = Largest r0 /\ u64 (Z.of_nat (S n) - 1) = Z.of_nat n /\
  u64 (i64 (Largest r0 - Smallest r0)) = Largest r0 - Smallest r0.
Proof using Hwf Hr Hn Hsmall.
  destruct Hwf as (_ & Hd & Hdel & _). assert (H0 : AckRanges f !! 0%nat = Some r0) by by rewrite Hr.
  destruct (ranges_desc_lookup _ _ _ _ Hd H0) as [? ?].
  destruct (encodeAckDelay_val _ Hdel). unfold is_varint, maxVarInt8 in *.
  rewrite (i64_small (Largest r0 - Smallest r0)) by int_range. rewrite !u64_small by int_range.
  split_and!; done || lia.
Qed.

Lemma AckFrame_Append_body b :
  AckFrame_Append b f = Ok (b ++ ack_type f :: ack_body f r0 rs n).
Proof using Hwf Hr Hn Hnum Hsmall.
  destruct frame_facts as (Hd & H0 & ? & ? & Hv1 & Hv2 & Hv3 & Hdel & Hv4 & Hu1 & Hu2 & Hu3).
  destruct Hwf as (_ & _ & _ & He0 & He1 & He2).
  unfold AckFrame_Append, LargestAcked. rewrite H0. cbn [mbind res_bind].
  rewrite Hu1, Hdel, Hnum. rewrite !varint_Append_venc by done. cbn [mbind res_bind].
  rewrite varint_Append_venc by done. cbn [mbind res_bind]. rewrite Hu2.
  rewrite varint_Append_venc by done. cbn [mbind res_bind].
  unfold encodeAckRange. rewrite H0, Hu3. cbn [mbind res_bind].
  rewrite varint_Append_venc by done. cbn [mbind res_bind].
  replace (Z.to_nat (Z.of_nat (S n) - 1)) with n by lia.
  rewrite (appendAckRanges_spec f maxVarInt8 Hd ltac:(lia) n _ 0 r0) by (rewrite ?Hr; simpl; done || lia).
  cbn [mbind res_bind]. unfold ack_body, ack_type. rewrite Hr.
  change (drop 1 (r0 :: rs)) with rs. destruct (AckFrame_hasECN f).
  - rewrite varint_Append_venc by done. cbn [mbind res_bind].
    rewrite varint_Append_venc by done. cbn [mbind res_bind].
    rewrite varint_Append_venc by done. by rewrite <- !app_assoc.
  - rewrite app_nil_r. by rewrite <- !app_assoc.
Qed.

Lemma AckFrame_Length_body :
  AckFrame_Length f = Ok (1 + blen (ack_body f r0 rs n)).
Proof using Hwf Hr Hn Hnum Hsmall.
  destruct frame_facts as (Hd & H0 & ? & ? & Hv1 & Hv2 & Hv3 & Hdel & Hv4 & Hu1 & Hu2 & Hu3).
  destruct Hwf as (_ & _ & _ & He0 & He1 & He2).
  unfold AckFrame_Length. rewrite H0, Hnum. cbn [mbind res_bind].
  rewrite Hu1, Hu2, Hu3, Hdel.
  rewrite !varint_Len_vlen by (apply Hv1 || apply Hv2 || apply Hv3 || apply Hv4 ||
                               apply He0 || apply He1 || apply He2).
  cbn [mbind res_bind]. replace (Z.to_nat (Z.of_nat (S n) - 1)) with n by lia.
  rewrite (lengthAckRanges_spec f maxVarInt8 Hd ltac:(lia) n _ 0 r0) by (rewrite ?Hr; simpl; done || lia).
  cbn [mbind res_bind]. unfold ack_body. rewrite Hr.
  change (drop 1 (r0 :: rs)) with rs. rewrite !blen_app, !blen_venc by done.
  destruct (AckFrame_hasECN f).
  - cbn [mbind res_bind]. rewrite !blen_app, !blen_venc by done. f_equal. lia.
  - rewrite blen_nil. f_equal. lia.
Qed.
End frame.

(** What the peer reads: the encoded ranges, the delay rounded down to the
    8-microsecond unit, the ECN counts. *)
Definition ack_on_wire (f : AckFrame) (numRanges : nat) : AckFrame :=
  mkAckFrame (take numRanges (AckRanges f)) (DelayTime f / 8000 * 8000)
    (AckECT0 f) (AckECT1 f) (AckECNCE f).

Ltac read_venc :=
  erewrite parser_bind_ok; [|apply varint_Read_venc; done].

Lemma parseAckFrame_body f r0 rs n rest :
  ack_wf f -> AckRanges f = r0 :: rs -> (n <= length rs)%nat -> Z.of_nat n <= maxVarInt8 ->
  parseAckFrame emptyAckFrame (ack_type f) AckDelayExponent (ack_body f r0 rs n ++ rest)
  = (Ok (ack_on_wire f (S n)), rest).
Proof.
  intros Hwf Hr Hn Hsmall.
  destruct (frame_facts f r0 rs n Hwf Hr Hn Hsmall)
    as (Hd & H0 & ? & ? & Hv1 & Hv2 & Hv3 & _ & Hv4 & _).
  pose proof Hwf as (_ & _ & Hdel & He0 & He1 & He2).
  assert (Hr0 : is_i64 (Largest r0) /\ is_i64 (Largest r0 - Smallest r0))
    by (unfold is_i64, is_varint, maxVarInt8 in *; lia).
  rewrite Hr in Hd. destruct Hd as (_ & _ & Hd).
  unfold parseAckFrame, ack_body. rewrite <- !app_assoc.
  do 4 read_venc. rewrite ackDelayTime_encode by done.
  rewrite (i64_small (Largest r0)), (i64_small (Largest r0 - Smallest r0)) by apply Hr0.
  zfalse (Largest r0 <? Largest r0 - Smallest r0).
  replace (Largest r0 - (Largest r0 - Smallest r0)) with (Smallest r0) by lia.
  rewrite (i64_small (Smallest r0)) by (unfold maxVarInt8 in *; int_range).
  assert (Hlen : length (take n rs) = n) by (rewrite length_take; lia).
  assert (Hdt : ranges_desc (Smallest r0 - 2) (take n rs)) by by apply ranges_desc_take.
  erewrite parser_bind_ok; [|done].
  erewrite parser_bind_ok; cycle 1.
  { replace (Z.of_nat n) with (Z.of_nat (length (take n rs))) by lia.
    apply parseAckRanges_enc; [done | lia |].
    pose proof (enc_ranges_count _ _ Hdt ltac:(lia)). rewrite blen_app.
    match goal with |- context [_ + blen ?x] => pose proof (blen_nonneg x) end. lia. }
  cbn [emptyAckFrame AckRanges AckECT0 AckECT1 AckECNCE app].
  rewrite validateAckRanges_desc; [|done|simpl; split_and!; done || lia].
  unfold ack_on_wire, ack_type. rewrite Hr. cbn [negb take].
  destruct (AckFrame_hasECN f) eqn:Hecn.
  - change (ackECNFrameType =? ackECNFrameType) with true. cbv iota.
    rewrite <- !app_assoc. do 3 read_venc. destruct r0. done.
  - change (ackFrameType =? ackECNFrameType) with false. cbv iota.
    unfold AckFrame_hasECN in Hecn. destruct He0, He1, He2.
    replace (AckECT0 f) with 0 by lia. replace (AckECT1 f) with 0 by lia.
    replace (AckECNCE f) with 0 by lia. destruct r0. done.
Qed.

(** ** Parsing arbitrary input *)

(** Outcomes of a parser on bytes: an error, or a value with [P]; no panic. *)
Definition parses {A} (P : A -> Prop) (o : res A * bytes) : Prop :=
  match o with
  | (Ok a, r') => P a /\ bytes_ok r'
  | (Err _, _) => True
  | (Panic _, _) => False
  end.

Lemma parses_varint r : bytes_ok r ->
  match varint_Read r with
  | (Ok v, r') => is_varint v /\ bytes_ok r' /\ (length r' < length r)%nat
  | (Err _, _) => True
  | (Panic _, _) => False
  end.
Proof.
  intros Hr. destruct (varint_Read_total r Hr) as [[e ->]|(used & v & r' & -> & -> & Hv & _ & Hl)];
    [done|]. split; [done|]. apply Forall_app in Hr as [_ ?]. split; [done|].
  rewrite length_app. unfold blen in Hl. lia.
Qed.

(** Descending ranges ending at [lo] can be extended below [lo - 1]. *)
Lemma ranges_desc_snoc hi rs lo r :
  ranges_desc hi rs -> (exists r', last rs = Some r' /\ Smallest r' = lo) ->
  0 <= Smallest r <= Largest r -> Largest r <= lo - 2 ->
  ranges_desc hi (rs ++ [r]).
Proof.
  revert hi. induction rs as [|r1 rs IH]; intros hi Hd (r' & Hl & Hlo) Hr Hle; [done|].
  destruct Hd as (? & ? & Hd). simpl. split; [done|]. split; [done|].
  destruct rs as [|r2 rs]; [injection Hl as ->; simpl; split_and!; done || lia|].
  apply IH; eauto.
Qed.

Lemma parseAckRanges_safe fuel : forall numBlocks smallest ranges r,
  bytes_ok r -> (length r < fuel)%nat -> ranges_desc maxVarInt8 ranges ->
  0 <= smallest <= maxVarInt8 ->
  (exists r', last ranges = Some r' /\ Smallest r' = smallest) ->
  parses (fun rs => rs <> [] /\ ranges_desc maxVarInt8 rs)
    (parseAckRanges fuel numBlocks smallest ranges r).
Proof.
  unfold maxVarInt8 at 2. induction fuel as [|fuel IH]; intros nb sm rg r Hr Hf Hd Hs Hl; [lia|].
  simpl. case_match.
  { simpl. split; [|done]. split; [|done]. destruct Hl as (r' & Hl & _). by destruct rg. }
  unfold mbind, stM_bind. pose proof (parses_varint r Hr) as H1.
  destruct (varint_Read r) as [[g|e|s] r1]; [|done|done]. destruct H1 as (Hg & Hr1 & Hlen1).
  unfold is_varint, maxVarInt8 in Hg. rewrite (i64_small g) by int_range.
  rewrite (i64_small (g + 2)) by int_range. case_match; [done|].
  pose proof (parses_varint r1 Hr1) as H2.
  destruct (varint_Read r1) as [[a|e|s] r2]; [|done|done]. destruct H2 as (Ha & Hr2 & Hlen2).
  unfold is_varint, maxVarInt8 in Ha. unwrap. case_match; [done|].
  apply IH; try done; try lia.
  - apply (ranges_desc_snoc _ _ sm); simpl; done || lia.
  - eexists. by rewrite last_snoc.
Qed.

Lemma parses_bind {A B} (P : A -> Prop) (Q : B -> Prop) (m : parser A) (k : A -> parser B) r :
  parses P (m r) -> (forall a r', P a -> bytes_ok r' -> parses Q (k a r')) ->
  parses Q ((m ≫= k) r).
Proof.
  unfold mbind, stM_bind. destruct (m r) as [[a|e|s] r']; simpl; intros H Hk; try done.
  destruct H. by apply Hk.
Qed.

Lemma parses_varint_Read r : bytes_ok r -> parses is_varint (varint_Read r).
Proof.
  intros Hr. pose proof (parses_varint r Hr). destruct (varint_Read r) as [[v|e|s] r']; naive_solver.
Qed.

Lemma ackDelayTime_range d e : is_i64 (ackDelayTime d e) /\ 0 <= ackDelayTime d e.
Proof.
  unfold ackDelayTime, InfDuration. pose proof (i64_range (i64 (u64 (Z.shiftl d e)) * Microsecond)).
  case_match; unfold is_i64 in *; lia.
Qed.

(** A parsed frame: what every later use of the frame relies on. *)
Definition ack_parsed (f : AckFrame) : Prop :=
  ack_wf f /\ validateAckRanges f = true.

Lemma ack_parsed_intro rs d e0 e1 e2 exp :
  rs <> [] -> ranges_desc maxVarInt8 rs -> is_varint e0 -> is_varint e1 -> is_varint e2 ->
  ack_parsed (mkAckFrame rs (ackDelayTime d exp) e0 e1 e2).
Proof.
  intros. destruct (ackDelayTime_range d exp) as [[? ?] ?].
  split; [|by apply validateAckRanges_desc]. unfold ack_wf. simpl. split_and!; done.
Qed.

Lemma parseAckFrame_safe typ exp r :
  bytes_ok r -> parses ack_parsed (parseAckFrame emptyAckFrame typ exp r).
Proof.
  intros Hr. unfold parseAckFrame.
  apply (parses_bind is_varint); [by apply parses_varint_Read|]. intros la r1 Hla Hr1.
  apply (parses_bind is_varint); [by apply parses_varint_Read|]. intros d r2 _ Hr2.
  apply (parses_bind is_varint); [by apply parses_varint_Read|]. intros nb r3 _ Hr3.
  apply (parses_bind is_varint); [by apply parses_varint_Read|]. intros ab r4 Hab Hr4.
  pose proof Hla as [? ?]. pose proof Hab as [? ?]. unfold maxVarInt8 in *. unwrap.
  case_match; [done|]. unwrap.
  erewrite parser_bind_ok; [|done].
  apply (parses_bind (fun rs => rs <> [] /\ ranges_desc maxVarInt8 rs)).
  { apply parseAckRanges_safe; try done; unfold blen, maxVarInt8; try lia.
    - simpl. unfold maxVarInt8. lia.
    - by eexists. }
  intros rs r5 [Hne Hd] Hr5. cbn [emptyAckFrame AckECT0 AckECT1 AckECNCE].
  rewrite validateAckRanges_desc by done. cbn [negb].
  case_match.
  - apply (parses_bind is_varint); [by apply parses_varint_Read|]. intros e0 r6 He0 Hr6.
    apply (parses_bind is_varint); [by apply parses_varint_Read|]. intros e1 r7 He1 Hr7.
    apply (parses_bind is_varint); [by apply parses_varint_Read|]. intros e2 r8 He2 Hr8.
    split; [|done]. by apply ack_parsed_intro.
  - split; [|done]. by apply ack_parsed_intro.
Qed.

(** ** Membership by binary search *)

(** Binary search over a monotone predicate finds its first index. *)
Lemma sort_Search_loop_spec fuel : forall P i j n,
  (forall a b, a <= b -> b < n -> P a = true -> P b = true)%nat ->
  (forall a, a < i -> P a = false)%nat -> (forall a, j <= a -> a < n -> P a = true)%nat ->
  (i <= j <= n)%nat -> (j - i <= fuel)%nat ->
  let k := sort_Search_loop fuel P i j in
  (i <= k <= j)%nat /\ (forall a, a < k -> P a = false)%nat /\
  (forall a, k <= a -> a < n -> P a = true)%nat.
Proof.
  induction fuel as [|fuel IH]; intros P i j n Hmono Hlo Hhi Hij Hf; cbn [sort_Search_loop].
  { split_and!; [lia | lia | done |]. intros. apply Hhi; lia. }
  destruct (Nat.ltb_spec i j) as [Hlt|]; [|split_and!; [lia | lia | done |]; intros; apply Hhi; lia].
  assert (Hh : (i <= (i + j) / 2 < j)%nat)
    by (split; [apply Nat.div_le_lower_bound | apply Nat.Div0.div_lt_upper_bound]; lia).
  revert Hh. generalize ((i + j) / 2)%nat as h. intros h Hh. destruct (P h) eqn:EP.
  - destruct (IH P i h n) as ([? ?] & ? & ?); try done; try lia.
    + intros a ? ?. apply (Hmono h); [lia | lia | done].
    + split; [lia | done].
  - destruct (IH P (S h) j n) as ([? ?] & ? & ?); try done; try lia.
    + intros a Ha. destruct (P a) eqn:EPa; [|done]. rewrite (Hmono a h) in EP by (done || lia). done.
    + split; [lia | done].
Qed.

Lemma ranges_desc_mono hi rs a b ra rb :
  ranges_desc hi rs -> rs !! a = Some ra -> rs !! b = Some rb -> (a < b)%nat ->
  Largest rb <= Smallest ra - 2.
Proof.
  revert hi a b. induction rs as [|r rs IH]; intros hi a b Hd Ha Hb Hab; [done|].
  destruct Hd as (? & ? & Hd). destruct b as [|b]; [lia|]. destruct a as [|a]; simpl in *.
  - injection Ha as ->. by apply (ranges_desc_lookup _ _ _ _ Hd Hb).
  - apply (IH _ a b Hd); done || lia.
Qed.

Lemma acks_lookup f p :
  acks f p <-> exists i r, AckRanges f !! i = Some r /\ range_mem p r.
Proof.
  unfold acks. rewrite Exists_exists. setoid_rewrite list_elem_of_lookup. naive_solver.
Qed.

Section search.
Context (f : AckFrame) (p : Z).
Hypothesis Hd : ranges_desc maxVarInt8 (AckRanges f).

(** No acknowledged packet lies outside the first and the last range. *)
Lemma acks_in_bounds rl r0 :
  last (AckRanges f) = Some rl -> AckRanges f !! 0%nat = Some r0 ->
  acks f p -> Smallest rl <= p <= Largest r0.
Proof using Hd.
  rewrite last_lookup, acks_lookup. intros Hlast H0 (i & r & Hi & Hm).
  pose proof (lookup_lt_Some _ _ _ Hi). unfold range_mem in Hm.
  destruct (ranges_desc_lookup _ _ _ _ Hd Hlast). destruct (ranges_desc_lookup _ _ _ _ Hd H0).
  split.
  - destruct (decide (i = Nat.pred (length (AckRanges f)))) as [->|]; [simplify_eq; lia|].
    pose proof (ranges_desc_mono _ _ _ _ _ _ Hd Hi Hlast ltac:(lia)). lia.
  - destruct (decide (i = 0%nat)) as [->|]; [simplify_eq; lia|].
    pose proof (ranges_desc_mono _ _ _ _ _ _ Hd H0 Hi ltac:(lia)). lia.
Qed.

(** The test the search runs: the range at [i] starts at or below [p]. *)
Definition starts_below (i : nat) : bool :=
  match AckRanges f !! i with Some r => Smallest r <=? p | None => false end.

Lemma starts_below_mono a b :
  (a <= b)%nat -> (b < length (AckRanges f))%nat ->
  starts_below a = true -> starts_below b = true.
Proof using Hd.
  intros Hab Hb Ha. unfold starts_below in *.
  destruct (lookup_lt_is_Some_2 _ _ Hb) as [rb Hrb]. rewrite Hrb.
  destruct (AckRanges f !! a) as [ra|] eqn:Hra; [|done].
  destruct (decide (a = b)) as [->|]; [by simplify_eq|].
  pose proof (ranges_desc_mono _ _ _ _ _ _ Hd Hra Hrb ltac:(lia)).
  destruct (ranges_desc_lookup _ _ _ _ Hd Hrb). lia.
Qed.

(** The search stops at the only range that can hold [p]. *)
Lemma sort_Search_starts_below rl :
  last (AckRanges f) = Some rl -> Smallest rl <= p ->
  exists rk, AckRanges f !! sort_Search (length (AckRanges f)) starts_below = Some rk /\
    (p <= Largest rk <-> acks f p).
Proof using Hd.
  rewrite last_lookup. intros Hlast Hp. set (n := length (AckRanges f)) in *.
  destruct (sort_Search_loop_spec n starts_below 0 n n) as (Hk & Hlo & Hhi); try lia;
    [apply starts_below_mono|].
  unfold sort_Search. set (k := sort_Search_loop _ _ _ _) in *.
  assert (Hkl : (k < n)%nat).
  { destruct (decide (k = n)) as [Hke|]; [|lia]. pose proof (lookup_lt_Some _ _ _ Hlast).
    specialize (Hlo (Nat.pred n) ltac:(lia)). unfold starts_below in Hlo. rewrite Hlast in Hlo. lia. }
  destruct (lookup_lt_is_Some_2 _ _ Hkl) as [rk Hrk]. exists rk. split; [done|].
  assert (Hrkp : Smallest rk <= p).
  { specialize (Hhi k ltac:(lia) Hkl). unfold starts_below in Hhi. rewrite Hrk in Hhi. lia. }
  rewrite acks_lookup. split; [intros; exists k, rk; split; [done|]; split; lia|].
  intros (i & r & Hi & Hm). unfold range_mem in Hm.
  destruct (Nat.lt_trichotomy i k) as [Hlt|[->|Hgt]].
  - specialize (Hlo i Hlt). unfold starts_below in Hlo. rewrite Hi in Hlo. lia.
  - simplify_eq. lia.
  - pose proof (ranges_desc_mono _ _ _ _ _ _ Hd Hrk Hi Hgt). lia.
Qed.

Lemma AcksPacket_correct :
  AckRanges f <> [] -> exists b, AcksPacket f p = Ok b /\ (b = true <-> acks f p).
Proof using Hd.
  intros Hne. unfold AcksPacket, LowestAcked, LargestAcked.
  destruct (last (AckRanges f)) as [rl|] eqn:Hlast; [|by apply last_None in Hlast].
  destruct (AckRanges f !! 0%nat) as [r0|] eqn:H0; [|by destruct (AckRanges f)].
  cbn [mbind res_bind]. pose proof (acks_in_bounds rl r0 Hlast H0) as Hb.
  destruct (Z.ltb_spec p (Smallest rl)); [exists false; split; [done|]; split; [done|]; intros Ha; specialize (Hb Ha); lia|].
  destruct (Z.ltb_spec (Largest r0) p); [exists false; split; [done|]; split; [done|]; intros Ha; specialize (Hb Ha); lia|].
  destruct (sort_Search_starts_below rl Hlast ltac:(lia)) as (rk & Hrk & Hiff).
  fold starts_below. rewrite Hrk. eexists. split; [done|]. by rewrite Z.leb_le.
Qed.
End search.

(** ** Claims *)

(** ACK frame round trip.  A frame with well-formed ranges is written as its
    type followed by exactly [Length] - 1 bytes; the parser, given these bytes
    and any rest, returns the first [numEncodableAckRanges] ranges (at least
    one), the ECN counts, and the delay rounded down to 8 microseconds, and
    leaves the rest unread. *)
Theorem ack_frame_roundtrip (f : AckFrame) (b rest : bytes) :
  ack_wf f ->
  exists typ bs n,
    AckFrame_Append b f = Ok (b ++ typ :: bs) /\
    AckFrame_Length f = Ok (blen (typ :: bs)) /\
    numEncodableAckRanges f = Ok (Z.of_nat n) /\ (1 <= n <= length (AckRanges f))%nat /\
    parseAckFrame emptyAckFrame typ AckDelayExponent (bs ++ rest) = (Ok (ack_on_wire f n), rest).
Proof.
  intros Hwf. destruct (numEncodableAckRanges_spec f Hwf) as (r0 & rs & n & Hr & Hnum & Hn & _ & Hsz).
  assert (Hsmall : Z.of_nat n <= maxVarInt8).
  { destruct Hwf as (_ & Hd & _). rewrite Hr in Hd. destruct Hd as (? & ? & Hd).
    pose proof (enc_ranges_count (take n rs) r0 (ranges_desc_take _ _ n Hd) ltac:(lia)) as Hc.
    rewrite length_take in Hc. unfold maxVarInt8, MaxAckFrameSize in *. lia. }
  exists (ack_type f), (ack_body f r0 rs n), (S n). split_and!.
  - by apply AckFrame_Append_body.
  - rewrite blen_cons. by apply AckFrame_Length_body.
  - done.
  - lia.
  - rewrite Hr. simpl. lia.
  - by apply parseAckFrame_body.
Qed.

Lemma ack_frame_roundtrip_witness :
  let f := mkAckFrame [mkAckRange 90 100; mkAckRange 50 60] 16123 1 0 0 in
  ack_wf f /\
  exists typ bs n,
    AckFrame_Append [] f = Ok ([] ++ typ :: bs) /\
    AckFrame_Length f = Ok (blen (typ :: bs)) /\
    numEncodableAckRanges f = Ok (Z.of_nat n) /\ (1 <= n <= length (AckRanges f))%nat /\
    parseAckFrame emptyAckFrame typ AckDelayExponent (bs ++ [7]) = (Ok (ack_on_wire f n), [7]).
Proof.
  intros f. assert (Hwf : ack_wf f) by (unfold ack_wf, is_varint, maxVarInt8; simpl; split_and!; done || lia).
  split; [exact Hwf|]. apply (ack_frame_roundtrip f [] [7] Hwf).
Defined.

(** Parsing an ACK frame from arbitrary bytes is safe.  It terminates without
    a panic (the range counter of up to 2^62 notwithstanding), and every frame it
    returns has a range, non-negative packet numbers below 2^62, strictly
    descending ranges separated by at least one packet, and a non-negative delay;
    in particular it passes [validateAckRanges] and [AcksPacket], [LargestAcked]
    and [LowestAcked] cannot panic on it. *)
Theorem ack_parse_safe (typ exp : Z) (r : bytes) :
  bytes_ok r ->
  match parseAckFrame emptyAckFrame typ exp r with
  | (Ok f, r') =>
      ack_wf f /\ validateAckRanges f = true /\ bytes_ok r' /\
      is_ok (LargestAcked f) /\ is_ok (LowestAcked f)
  | (Err _, _) => True
  | (Panic _, _) => False
  end.
Proof.
  intros Hr. pose proof (parseAckFrame_safe typ exp r Hr) as Hs.
  destruct (parseAckFrame _ _ _ _) as [[f|e|s] r']; try done.
  destruct Hs as [[Hwf Hv] Hr']. split_and!; try done; pose proof Hwf as (Hne & _).
  - unfold LargestAcked. destruct (AckRanges f); [done|]. by eexists.
  - unfold LowestAcked. destruct (last (AckRanges f)) eqn:E; [by eexists|]. by apply last_None in E.
Qed.

Lemma ack_parse_safe_witness :
  match parseAckFrame emptyAckFrame 2 3 [64; 100; 2; 1; 10; 28; 10] with
  | (Ok f, r') =>
      ack_wf f /\ validateAckRanges f = true /\ bytes_ok r' /\
      is_ok (LargestAcked f) /\ is_ok (LowestAcked f)
  | (Err _, _) => True
  | (Panic _, _) => False
  end.
Proof. apply (ack_parse_safe 2 3). repeat constructor; lia. Defined.

(** [AcksPacket]'s binary search decides membership.  On a frame with
    well-formed ranges it returns true exactly for the packet numbers inside one
    of the ranges, and never indexes out of range. *)
Theorem AcksPacket_decides (f : AckFrame) (p : Z) :
  ack_wf f -> exists b, AcksPacket f p = Ok b /\ (b = true <-> acks f p).
Proof. intros (Hne & Hd & _). by apply AcksPacket_correct. Qed.

Lemma AcksPacket_decides_witness :
  let f := mkAckFrame [mkAckRange 90 100; mkAckRange 50 60; mkAckRange 3 4] 0 0 0 0 in
  exists b, AcksPacket f 55 = Ok b /\ (b = true <-> acks f 55).
Proof.
  intros f. apply (AcksPacket_decides f 55).
  unfold ack_wf, is_varint, maxVarInt8; simpl; split_and!; done || lia.
Defined.

(** The frames this endpoint sends are small and complete.  With at most
    [MaxNumAckRanges] ranges the size limit drops none of them, and the frame
    takes at most 551 bytes, below [MaxAckFrameSize]. *)
Theorem ack_frame_size (f : AckFrame) :
  ack_wf f -> blen (AckRanges f) <= MaxNumAckRanges ->
  numEncodableAckRanges f = Ok (blen (AckRanges f)) /\
  exists n, AckFrame_Length f = Ok n /\ n <= 551 /\ n <= MaxAckFrameSize.
Proof.
  unfold MaxNumAckRanges, MaxAckFrameSize. intros Hwf Hlen.
  destruct (numEncodableAckRanges_spec f Hwf) as (r0 & rs & n & Hr & Hnum & Hn & Hall & _).
  rewrite Hr, blen_cons in Hlen. unfold blen in Hlen.
  specialize (Hall ltac:(lia)). split; [rewrite Hnum, Hr, blen_cons; unfold blen; f_equal; lia|].
  exists (1 + blen (ack_body f r0 rs n)).
  rewrite (AckFrame_Length_body f r0 rs n) by (unfold maxVarInt8; done || lia).
  enough (blen (ack_body f r0 rs n) <= 550) by (split; [done | lia]).
  destruct (frame_facts f r0 rs n Hwf Hr Hn ltac:(unfold maxVarInt8; lia))
    as (Hd & _ & ? & ? & Hv1 & Hv2 & Hv3 & _ & Hv4 & _).
  destruct Hwf as (_ & _ & _ & He0 & He1 & He2). rewrite Hr in Hd.
  destruct Hd as (_ & _ & Hd). pose proof (enc_ranges_size (take n rs) r0) as Hsz.
  rewrite length_take in Hsz. specialize (Hsz (ranges_desc_take _ _ n Hd) ltac:(lia)).
  unfold ack_body. rewrite !blen_app, !blen_venc by done.
  rewrite (vlen_small (Z.of_nat n)) by (unfold maxVarInt1; lia).
  pose proof (vlen_range (Largest r0)). pose proof (vlen_range (DelayTime f / 8000)).
  pose proof (vlen_range (Largest r0 - Smallest r0)).
  assert (blen (if AckFrame_hasECN f then venc (AckECT0 f) ++ venc (AckECT1 f) ++ venc (AckECNCE f)
                else []) <= 24); [|lia].
  case_match; [|by rewrite blen_nil].
  rewrite !blen_app, !blen_venc by done. pose proof (vlen_range (AckECT0 f)).
  pose proof (vlen_range (AckECT1 f)). pose proof (vlen_range (AckECNCE f)). lia.
Qed.

Lemma ack_frame_size_witness :
  let f := mkAckFrame [mkAckRange 90 100; mkAckRange 50 60] 16123 1 0 0 in
  numEncodableAckRanges f = Ok (blen (AckRanges f)) /\
  exists n, AckFrame_Length f = Ok n /\ n <= 551 /\ n <= MaxAckFrameSize.
Proof.
  intros f. apply (ack_frame_size f); [|vm_compute; discriminate].
  unfold ack_wf, is_varint, maxVarInt8; simpl; split_and!; done || lia.
Defined.

(** A delay that overflows is not always clamped.  The parser replaces a
    delay that became negative by the largest duration, but an encoded delay of
    2^61 (with the default exponent) wraps around to exactly zero: the frame is
    accepted with a delay of 0 instead of [InfDuration]. *)
Theorem ack_delay_overflow_not_clamped :
  exists r f, bytes_ok r /\
    parseAckFrame emptyAckFrame ackFrameType DefaultAckDelayExponent r = (Ok f, []) /\
    varint_Read (drop 1 r) = (Ok (2 ^ 61), [0; 0]) /\ DelayTime f = 0.
Proof.
  exists (5 :: venc (2 ^ 61) ++ [0; 0]), (mkAckFrame [mkAckRange 5 5] 0 0 0 0).
  split; [|split_and!; vm_compute; reflexivity].
  apply Forall_cons_2; [unfold is_u8; lia|]. apply Forall_app. split; [|repeat constructor; lia].
  apply venc_bytes_ok. unfold is_varint, maxVarInt8. lia.
Qed.
