(* ===== verification/ReceivedHistory.v ===== *)
(** * ReceivedHistory: [internal/ackhandler/received_packet_history.go]

    The record of received packet numbers as a list of disjoint intervals, and
    its refinement to a set of packet numbers.

    The doubly linked list [ranges] is modelled by the list of its values from
    [Back()] to [Front()], the direction in which every loop but that of
    [DeleteBelow] walks it: the head of the list is the highest interval. *)

From S2P Require Import Prelude Protocol Varint AckFrame.
From stdpp Require Import base numbers list option strings.
From Stdlib Require Import ZArith Lia.
#[local] Open Scope Z_scope.

Record interval := mkInterval { Start : Z; End : Z }.

Record receivedPacketHistory := mkHistory {
  ranges : list interval;      (* from Back() to Front() *)
  deletedBelow : Z
}.

#[export] Instance interval_eq_dec : EqDecision interval.
Proof. solve_decision. Defined.
#[export] Instance receivedPacketHistory_eq_dec : EqDecision receivedPacketHistory.
Proof. solve_decision. Defined.

Definition newReceivedPacketHistory : receivedPacketHistory := mkHistory [] 0.

(** The loop of [addToRanges], from the back: the updated ranges and whether
    the packet is new. *)
Fixpoint addToRanges (p : Z) (rs : list interval) : list interval * bool :=
  match rs with
  | [] => ([mkInterval p p], true)   (* create a new range at the beginning *)
  | el :: prevs =>
      if (Start el <=? p) && (p <=? End el) then (rs, false)
      else if End el =? i64 (p - 1) then (mkInterval (Start el) p :: prevs, true)
      else if Start el =? i64 (p + 1) then
        match prevs with
        | prev :: prevs' =>
            if i64 (End prev + 1) =? p   (* merge two ranges *)
            then (mkInterval (Start prev) (End el) :: prevs', true)
            else (mkInterval p (End el) :: prevs, true)
        | [] => ([mkInterval p (End el)], true)
        end
      else if End el <? p then (mkInterval p p :: rs, true)
      else let '(prevs', isNew) := addToRanges p prevs in (el :: prevs', isNew)
  end.

(** [for h.ranges.Len() > MaxNumAckRanges { remove Front() }] *)
Definition maybeDeleteOldRanges (rs : list interval) : list interval :=
  take (Z.to_nat MaxNumAckRanges) rs.

Definition history_ReceivedPacket (h : receivedPacketHistory) (p : Z)
    : receivedPacketHistory * bool :=
  if p <? deletedBelow h then (h, false)
  else
    let '(rs, isNew) := addToRanges p (ranges h) in
    (mkHistory (maybeDeleteOldRanges rs) (deletedBelow h), isNew).

(** The loop of [DeleteBelow] over the ranges from [Front()]. *)
Fixpoint deleteBelowFront (p : Z) (front : list interval) : list interval :=
  match front with
  | [] => []
  | el :: next =>
      if End el <? p then deleteBelowFront p next
      else if (Start el <? p) && (p <=? End el) then mkInterval p (End el) :: next
      else front
  end.

Definition history_DeleteBelow (h : receivedPacketHistory) (p : Z) : receivedPacketHistory :=
  if p <? deletedBelow h then h
  else mkHistory (rev (deleteBelowFront p (rev (ranges h)))) p.

Definition AppendAckRanges (h : receivedPacketHistory) (ackRanges : list AckRange)
    : list AckRange :=
  ackRanges ++ ((fun el => mkAckRange (Start el) (End el)) <$> ranges h).

Definition GetHighestAckRange (h : receivedPacketHistory) : AckRange :=
  match ranges h with
  | [] => mkAckRange 0 0
  | r :: _ => mkAckRange (Start r) (End r)
  end.

Fixpoint isDuplicateIn (p : Z) (rs : list interval) : bool :=
  match rs with
  | [] => false
  | el :: prevs =>
      if End el <? p then false
      else if (p <=? End el) && (Start el <=? p) then true
      else isDuplicateIn p prevs
  end.

Definition history_IsPotentiallyDuplicate (h : receivedPacketHistory) (p : Z) : bool :=
  if p <? deletedBelow h then true else isDuplicateIn p (ranges h).

(** ** Abstract view and invariant *)

Fixpoint ranges_mem (p : Z) (rs : list interval) : Prop :=
  match rs with
  | [] => False
  | r :: rs' => Start r <= p <= End r \/ ranges_mem p rs'
  end.

(** The set of packet numbers the history holds. *)
Definition received (h : receivedPacketHistory) (p : Z) : Prop := ranges_mem p (ranges h).

(** Descending, non-empty, pairwise non-adjacent intervals in [lo, hi]. *)
Fixpoint ranges_inv (lo hi : Z) (rs : list interval) : Prop :=
  match rs with
  | [] => True
  | r :: rs' => lo <= Start r <= End r /\ End r <= hi /\ ranges_inv lo (Start r - 2) rs'
  end.

Definition maxPN : Z := maxVarInt8.

Definition history_inv (h : receivedPacketHistory) : Prop :=
  0 <= deletedBelow h /\ ranges_inv (deletedBelow h) maxPN (ranges h) /\
  blen (ranges h) <= MaxNumAckRanges.

(** ** Lemmas *)

Lemma ranges_inv_hi lo hi hi' rs : hi <= hi' -> ranges_inv lo hi rs -> ranges_inv lo hi' rs.
Proof. destruct rs; simpl; intuition lia. Qed.

Lemma ranges_inv_lo lo lo' hi rs : lo' <= lo -> ranges_inv lo hi rs -> ranges_inv lo' hi rs.
Proof. revert hi; induction rs; simpl; intuition eauto; lia. Qed.

Lemma ranges_inv_mem lo hi rs p : ranges_inv lo hi rs -> ranges_mem p rs -> lo <= p <= hi.
Proof.
  revert hi. induction rs as [|r rs IH]; intros hi Hi Hm; [done|].
  destruct Hi as (? & ? & Hi). destruct Hm as [?|Hm]; [lia|]. specialize (IH _ Hi Hm). lia.
Qed.

(** What adding [p] to [rs] must achieve. *)
Definition added (p lo hi : Z) (rs rs' : list interval) (isNew : bool) : Prop :=
  ranges_inv lo hi rs' /\
  (forall q, ranges_mem q rs' <-> q = p \/ ranges_mem q rs) /\
  (isNew = true <-> ~ ranges_mem p rs) /\
  ((length rs' <= length rs)%nat \/
   (length rs' = S (length rs) /\ ~ ranges_mem (p - 1) rs /\ ~ ranges_mem p rs /\ ~ ranges_mem (p + 1) rs)).

Lemma addToRanges_spec p lo rs : forall hi,
  0 <= lo -> hi <= maxPN -> lo <= p <= hi -> ranges_inv lo hi rs ->
  added p lo hi rs (addToRanges p rs).1 (addToRanges p rs).2.
Proof.
  unfold maxPN, maxVarInt8, added. induction rs as [|el prevs IH]; intros hi Hlo Hhi Hp Hinv.
  { cbn. intuition lia. }
  destruct Hinv as (Hel & Hend & Hinv).
  assert (Hnot : forall q, ranges_mem q prevs -> q <= Start el - 2)
    by (intros q Hq; by apply (ranges_inv_mem _ _ _ _ Hinv Hq)).
  pose proof (Hnot p) as Hnotp.
  cbn [addToRanges]. rewrite !(i64_small (p - 1)), !(i64_small (p + 1)) by int_range.
  destruct ((Start el <=? p) && (p <=? End el)) eqn:E1.
  { apply andb_true_iff in E1 as [?%Z.leb_le ?%Z.leb_le].
    cbn. repeat split; intuition (subst; lia || done). }
  assert (~ (Start el <= p <= End el)) by (apply andb_false_iff in E1; lia). clear E1.
  destruct (Z.eqb_spec (End el) (p - 1)).
  { cbn. repeat split; intuition lia. }
  destruct (Z.eqb_spec (Start el) (p + 1)).
  { destruct prevs as [|prev prevs'].
    { cbn. repeat split; intuition lia. }
    destruct Hinv as (Hp1 & Hp2 & Hinv). rewrite (i64_small (End prev + 1)) by int_range.
    cbn in Hnotp.
    pose proof (ranges_inv_mem _ _ _ p Hinv).
    destruct (Z.eqb_spec (End prev + 1) p); cbn; repeat split; intuition lia. }
  pose proof (Hnot (p - 1)). pose proof (Hnot (p + 1)). destruct (Z.ltb_spec (End el) p).
  { cbn. repeat split; try (right; split_and!); intuition lia. }
  destruct (IH (Start el - 2)) as (I1 & I2 & I3 & I4); [lia..|done|].
  destruct (addToRanges p prevs) as [prevs' b]; cbn in *.
  repeat split; try (setoid_rewrite I2); intuition lia.
Qed.

(** Cutting the list after its highest [n] intervals keeps exactly the packet
    numbers from some threshold on. *)
Lemma take_ranges_spec n lo rs : forall hi,
  ranges_inv lo hi rs ->
  ranges_inv lo hi (take n rs) /\
  exists t, lo <= t /\ ((length rs <= n)%nat -> t = lo) /\
    forall q, ranges_mem q (take n rs) <-> t <= q /\ ranges_mem q rs.
Proof.
  revert rs. induction n as [|n IH]; intros rs hi Hinv.
  - split; [done|]. destruct rs as [|r rs].
    { exists lo. cbn. intuition lia. }
    exists (Z.max lo (hi + 1)). split; [lia|]. split; [cbn; lia|].
    intros q. cbn [take ranges_mem]. split; [done|]. intros [? Hm].
    apply (ranges_inv_mem _ _ _ _ Hinv) in Hm. lia.
  - destruct rs as [|r rs].
    { cbn. split; [done|]. exists lo. intuition lia. }
    destruct Hinv as (H1 & H2 & Hinv). destruct (IH _ _ Hinv) as (Hi' & t & Ht & Hl & Hq).
    split; [cbn; intuition|].
    exists (Z.min t (Start r)). cbn [take ranges_mem length].
    split; [lia|]. split; [intros; rewrite Hl; lia|].
    intros q. rewrite Hq. split.
    + intros [?|[? ?]]; [split; [lia|by left]|split; [lia|by right]].
    + intros [? [?|Hm]]; [by left|]. right. split; [|done].
      apply (ranges_inv_mem _ _ _ _ Hinv) in Hm. lia.
Qed.

(** The last interval holds the lowest packet numbers. *)
Lemma ranges_last lo r rs : forall hi, ranges_inv lo hi (rs ++ [r]) ->
  Start r <= End r /\ (forall q, ranges_mem q (rs ++ [r]) <-> ranges_mem q rs \/ Start r <= q <= End r) /\
  forall q, ranges_mem q rs -> End r + 2 <= q.
Proof.
  induction rs as [|el rs IH]; intros hi Hi.
  { destruct Hi as (? & _). cbn. intuition lia. }
  destruct Hi as (H1 & H2 & Hi). destruct (IH _ Hi) as (H3 & H4 & H5). split; [done|].
  assert (Hr : End r <= Start el - 2).
  { apply (ranges_inv_mem _ _ _ (End r) Hi). apply H4. right. lia. }
  split; intros q; cbn; [rewrite H4; intuition lia|]. intros [?|Hq]; [lia|by apply H5].
Qed.

(** [deleteBelowFront] walks the ranges it removes, so it distributes over the
    list of ranges. *)
Lemma deleteBelowFront_skip p xs ys :
  Forall (fun r => End r < p) xs -> deleteBelowFront p (xs ++ ys) = deleteBelowFront p ys.
Proof. induction 1 as [|x xs Hx _ IH]; [done|]. cbn. by ztrue (End x <? p). Qed.

Lemma deleteBelowFront_stop p xs ys :
  ~ Forall (fun r => End r < p) xs ->
  deleteBelowFront p (xs ++ ys) = deleteBelowFront p xs ++ ys.
Proof.
  induction xs as [|x xs IH]; intros Hn; [by destruct Hn|].
  cbn. destruct (Z.ltb_spec (End x) p).
  - apply IH. intros ?. apply Hn. by constructor.
  - by destruct ((Start x <? p) && (p <=? End x)).
Qed.

(** The loop of [DeleteBelow] seen from the back of the list. *)
Fixpoint deleteBelowBack (p : Z) (rs : list interval) : list interval :=
  match rs with
  | [] => []
  | el :: prevs =>
      if End el <? p then []
      else if Start el <? p then [mkInterval p (End el)]
      else el :: deleteBelowBack p prevs
  end.

Lemma ranges_inv_ends lo hi rs : ranges_inv lo hi rs -> Forall (fun r => End r <= hi) rs.
Proof.
  revert hi. induction rs as [|r rs IH]; intros hi; [constructor|].
  intros (? & ? & Hi). constructor; [done|].
  eapply Forall_impl; [by apply IH|]. cbn. lia.
Qed.

Lemma deleteBelow_back p lo rs : forall hi,
  ranges_inv lo hi rs -> rev (deleteBelowFront p (rev rs)) = deleteBelowBack p rs.
Proof.
  induction rs as [|el prevs IH]; intros hi Hinv; [done|].
  destruct Hinv as (Hel & Hend & Hinv).
  assert (Hbelow : Start el < p -> Forall (fun r => End r < p) (rev prevs)).
  { intros. apply Forall_rev. eapply Forall_impl; [by eapply ranges_inv_ends|]. cbn; lia. }
  cbn [rev deleteBelowBack].
  destruct (Z.ltb_spec (End el) p).
  { rewrite deleteBelowFront_skip by (apply Hbelow; lia). cbn. by ztrue (End el <? p). }
  destruct (Z.ltb_spec (Start el) p).
  { rewrite deleteBelowFront_skip by (by apply Hbelow). cbn.
    zfalse (End el <? p). ztrue (Start el <? p). by ztrue (p <=? End el). }
  rewrite <- (IH _ Hinv).
  destruct (decide (Forall (fun r => End r < p) (rev prevs))) as [Ha|Ha].
  - rewrite deleteBelowFront_skip by done.
    rewrite <- (app_nil_r (rev prevs)), deleteBelowFront_skip by done. cbn.
    zfalse (End el <? p). by zfalse (Start el <? p).
  - rewrite deleteBelowFront_stop by done. by rewrite rev_app_distr.
Qed.

Lemma deleteBelowBack_spec p lo rs : forall hi,
  lo <= p -> ranges_inv lo hi rs ->
  ranges_inv p hi (deleteBelowBack p rs) /\
  (forall q, ranges_mem q (deleteBelowBack p rs) <-> p <= q /\ ranges_mem q rs) /\
  (length (deleteBelowBack p rs) <= length rs)%nat.
Proof.
  induction rs as [|el prevs IH]; intros hi Hlo Hinv; [cbn; intuition lia|].
  destruct Hinv as (Hel & Hend & Hinv).
  pose proof (fun q => ranges_inv_mem _ _ _ q Hinv) as Hm.
  destruct (IH _ Hlo Hinv) as (I1 & I2 & I3). cbn.
  destruct (Z.ltb_spec (End el) p); [|destruct (Z.ltb_spec (Start el) p)].
  - cbn. split_and!; [done| |lia]. intros q. specialize (Hm q). intuition lia.
  - cbn. split_and!; [lia..| |lia]. intros q. specialize (Hm q). intuition lia.
  - cbn. split_and!; [lia..|done| |lia]. intros q. rewrite I2. intuition lia.
Qed.

Lemma isDuplicateIn_mem p lo rs : forall hi,
  ranges_inv lo hi rs -> isDuplicateIn p rs = true <-> ranges_mem p rs.
Proof.
  induction rs as [|el prevs IH]; intros hi Hinv; [done|].
  destruct Hinv as (Hel & Hend & Hinv). cbn.
  pose proof (ranges_inv_mem _ _ _ p Hinv). specialize (IH _ Hinv).
  destruct (Z.ltb_spec (End el) p); [intuition (lia || done)|].
  destruct ((p <=? End el) && (Start el <=? p)) eqn:E.
  - apply andb_true_iff in E as [?%Z.leb_le ?%Z.leb_le]. intuition.
  - assert (~ (Start el <= p)) by (apply andb_false_iff in E; lia). intuition.
Qed.

(** ** The operations preserve the invariant and refine set operations *)

(** The packet numbers [ReceivedPacket] stores: all that were there and the new
    one, except those below a threshold [t] it evicts. *)
Definition received_step (h h' : receivedPacketHistory) (p t : Z) : Prop :=
  deletedBelow h' = deletedBelow h /\
  forall q, received h' q <-> t <= q /\ (q = p \/ received h q).

Lemma history_ReceivedPacket_spec h p :
  history_inv h -> deletedBelow h <= p <= maxPN ->
  let '(h', isNew) := history_ReceivedPacket h p in
  history_inv h' /\ (isNew = true <-> ~ received h p) /\
  exists t, deletedBelow h <= t /\ received_step h h' p t /\
    ((length (addToRanges p (ranges h)).1 <= Z.to_nat MaxNumAckRanges)%nat ->
     t = deletedBelow h).
Proof.
  intros (Hd & Hinv & Hlen) Hp. unfold history_ReceivedPacket.
  zfalse (p <? deletedBelow h).
  destruct (addToRanges_spec p _ _ maxPN Hd ltac:(lia) Hp Hinv) as (I1 & I2 & I3 & I4).
  destruct (addToRanges p (ranges h)) as [rs b]; cbn in *.
  destruct (take_ranges_spec (Z.to_nat MaxNumAckRanges) _ _ _ I1) as (J1 & t & J2 & J3 & J4).
  split_and!; [|done|].
  - split_and!; [done|done|]. cbn. unfold maybeDeleteOldRanges, blen, MaxNumAckRanges.
    rewrite length_take. lia.
  - exists t. split_and!; [done| |done]. split; [done|].
    intros q. unfold received; cbn. unfold maybeDeleteOldRanges. by rewrite J4, I2.
Qed.

(** [lo] to [hi] are the lowest numbers of [S] that follow each other. *)
Definition lowest_run (S : Z -> Prop) (lo hi : Z) : Prop :=
  lo <= hi /\ (forall q, lo <= q <= hi -> S q) /\ (forall q, S q -> lo <= q) /\ ~ S (hi + 1).

(** Everything is kept, unless a packet that extends no range arrives when there are
    as many ranges as allowed: then the lowest range is forgotten. *)
Definition stored (h h' : receivedPacketHistory) (p : Z) : Prop :=
  let all q := q = p \/ received h q in
  (forall q, received h' q <-> all q) \/
  (blen (ranges h) = MaxNumAckRanges /\ ~ received h (p - 1) /\ ~ received h p /\ ~ received h (p + 1) /\
   exists lo hi, lowest_run all lo hi /\ forall q, received h' q <-> all q /\ hi < q).

Lemma history_ReceivedPacket_stored h p :
  history_inv h -> deletedBelow h <= p <= maxPN -> stored h (history_ReceivedPacket h p).1 p.
Proof.
  intros (Hd & Hinv & Hlen) Hp. unfold history_ReceivedPacket, stored, received. zfalse (p <? deletedBelow h).
  destruct (addToRanges_spec p _ _ maxPN Hd ltac:(lia) Hp Hinv) as (I1 & I2 & _ & I4).
  destruct (addToRanges p (ranges h)) as [rs b]; cbn in *. unfold maybeDeleteOldRanges, blen in *.
  destruct (decide (length rs <= Z.to_nat MaxNumAckRanges)%nat) as [Hl|Hl]; [left; rewrite take_ge by done; apply I2|].
  right. destruct I4 as [I4|(I4 & N1 & N2 & N3)]; [lia|]. split; [lia|]. do 3 (split; [done|]).
  destruct rs as [|r rs' _] using rev_ind; [cbn in Hl; lia|].
  rewrite length_app in Hl, I4. cbn in Hl, I4. rewrite take_app_length' by lia.
  destruct (ranges_last _ r rs' _ I1) as (R1 & R2 & R3). exists (Start r), (End r). split.
  - split; [done|]. split; [intros q Hq; apply I2, R2; by right|]. split.
    + intros q Hq. apply I2, R2 in Hq as [Hq|?]; [|lia]. specialize (R3 q Hq). lia.
    + intros Hq. apply I2, R2 in Hq as [Hq|?]; [|lia]. specialize (R3 _ Hq). lia.
  - intros q. rewrite <- I2, R2. specialize (R3 q). intuition lia.
Qed.

Lemma history_ReceivedPacket_old h p :
  p < deletedBelow h -> history_ReceivedPacket h p = (h, false).
Proof. intros. unfold history_ReceivedPacket. by ztrue (p <? deletedBelow h). Qed.

Lemma history_DeleteBelow_spec h p :
  history_inv h -> deletedBelow h <= p ->
  history_inv (history_DeleteBelow h p) /\
  deletedBelow (history_DeleteBelow h p) = p /\
  forall q, received (history_DeleteBelow h p) q <-> p <= q /\ received h q.
Proof.
  intros (Hd & Hinv & Hlen) Hp. unfold history_DeleteBelow.
  zfalse (p <? deletedBelow h). rewrite (deleteBelow_back _ _ _ _ Hinv).
  destruct (deleteBelowBack_spec p _ _ _ Hp Hinv) as (I1 & I2 & I3).
  split_and!; [|done|done]. split_and!; cbn; [lia|done|]. unfold blen in *. lia.
Qed.

Lemma history_DeleteBelow_old h p :
  p < deletedBelow h -> history_DeleteBelow h p = h.
Proof. intros. unfold history_DeleteBelow. by ztrue (p <? deletedBelow h). Qed.

Lemma history_IsPotentiallyDuplicate_spec h p :
  history_inv h ->
  history_IsPotentiallyDuplicate h p = true <-> p < deletedBelow h \/ received h p.
Proof.
  intros (_ & Hinv & _). unfold history_IsPotentiallyDuplicate.
  destruct (Z.ltb_spec p (deletedBelow h)); [intuition|].
  rewrite (isDuplicateIn_mem _ _ _ _ Hinv). unfold received. intuition lia.
Qed.

Lemma new_history_inv : history_inv newReceivedPacketHistory.
Proof. split_and!; cbn; unfold MaxNumAckRanges, blen; cbn; lia || done. Qed.

(** ** The claims *)

(** C33: On every reachable history (one satisfying the invariant),
    [ReceivedPacket] keeps the invariant (disjoint, non-adjacent, descending
    intervals, at most [MaxNumAckRanges] of them), reports a packet as new
    exactly when it is neither below the deletion limit nor stored, ignores a
    packet below the limit, and otherwise stores the packet and keeps all others:
    only if there are [MaxNumAckRanges] intervals and the packet extends none of
    them, exactly the lowest run of packet numbers - which may be the new packet -
    is forgotten. *)
Theorem history_ReceivedPacket_refines h p :
  history_inv h -> 0 <= p <= maxPN ->
  let '(h', isNew) := history_ReceivedPacket h p in
  history_inv h' /\
  (isNew = true <-> deletedBelow h <= p /\ ~ received h p) /\
  (p < deletedBelow h -> h' = h) /\
  (deletedBelow h <= p -> deletedBelow h' = deletedBelow h /\ stored h h' p).
Proof.
  intros Hh Hp. destruct (Z.lt_ge_cases p (deletedBelow h)) as [Hlt|Hge].
  - rewrite history_ReceivedPacket_old by done. split_and!; [done| |done|lia].
    split; [done|lia].
  - pose proof (history_ReceivedPacket_spec h p Hh ltac:(lia)) as Hs.
    pose proof (history_ReceivedPacket_stored h p Hh ltac:(lia)) as Hst.
    destruct (history_ReceivedPacket h p) as [h' b]. destruct Hs as (H1 & H2 & t & _ & [Hd _] & _).
    split_and!; [done|intuition|lia|done].
Qed.

(** The history after packets 5 and 7. *)
Definition history_ex : receivedPacketHistory :=
  (history_ReceivedPacket (history_ReceivedPacket newReceivedPacketHistory 5).1 7).1.

Lemma history_ex_inv : history_inv history_ex.
Proof. split_and!; vm_compute; repeat split; discriminate. Qed.

Lemma history_ReceivedPacket_refines_witness :
  history_inv history_ex /\ 0 <= 6 <= maxPN /\
  exists h', history_ReceivedPacket history_ex 6 = (h', true) /\
    ranges h' = [mkInterval 5 7] /\ history_inv h'.
Proof.
  split; [apply history_ex_inv|]. split; [vm_compute; intuition discriminate|].
  pose proof (history_ReceivedPacket_refines history_ex 6 history_ex_inv
    ltac:(vm_compute; intuition discriminate)) as H.
  destruct (history_ReceivedPacket history_ex 6) as [h' b] eqn:E.
  vm_compute in E. injection E as <- <-. destruct H as (H & _).
  by exists (mkHistory [mkInterval 5 7] 0).
Defined.

(** [DeleteBelow] keeps the invariant and removes exactly the packet
    numbers below the (monotone) deletion limit, and [IsPotentiallyDuplicate]
    answers true exactly for the packets below the limit and the stored ones. *)
Theorem history_DeleteBelow_refines h p q :
  history_inv h ->
  let h' := history_DeleteBelow h p in
  history_inv h' /\ deletedBelow h' = Z.max p (deletedBelow h) /\
  (received h' q <-> p <= q /\ received h q) /\
  (history_IsPotentiallyDuplicate h' q = true <->
   q < p \/ history_IsPotentiallyDuplicate h q = true).
Proof.
  intros Hh h'. destruct (Z.lt_ge_cases p (deletedBelow h)) as [Hlt|Hge].
  - subst h'. rewrite history_DeleteBelow_old by done.
    rewrite history_IsPotentiallyDuplicate_spec by done.
    split_and!; [done|lia| |intuition lia]. split; [|tauto]. intros Hr. split; [|done].
    destruct Hh as (_ & Hi & _). apply (ranges_inv_mem _ _ _ _ Hi) in Hr. lia.
  - destruct (history_DeleteBelow_spec h p Hh Hge) as (H1 & H2 & H3). fold h' in H1, H2, H3.
    rewrite !history_IsPotentiallyDuplicate_spec by done. rewrite H2, H3.
    split_and!; [done|lia|done|]. split; [intuition lia|].
    intros [?|[?|?]]; [by left|left; lia|].
    destruct (Z.lt_ge_cases q p); [by left|]. right. tauto.
Qed.

Lemma history_DeleteBelow_refines_witness :
  history_inv history_ex /\
  history_IsPotentiallyDuplicate (history_DeleteBelow history_ex 6) 5 = true /\
  ~ received (history_DeleteBelow history_ex 6) 5.
Proof.
  destruct (history_DeleteBelow_refines history_ex 6 5 history_ex_inv) as (_ & _ & H1 & H2).
  split; [apply history_ex_inv|]. split; [apply H2; left; lia|].
  intros H. apply H1 in H. lia.
Defined.

(** ** Runs of the history *)

Inductive history_op := OpReceived (p : Z) | OpDeleteBelow (p : Z).

Definition history_do (h : receivedPacketHistory) (o : history_op) : receivedPacketHistory :=
  match o with
  | OpReceived p => (history_ReceivedPacket h p).1
  | OpDeleteBelow p => history_DeleteBelow h p
  end.

Definition op_valid (o : history_op) : Prop :=
  match o with OpReceived p | OpDeleteBelow p => 0 <= p <= maxPN end.

(** [o] does not exceed the number of ranges the history keeps. *)
Definition op_fits (h : receivedPacketHistory) (o : history_op) : Prop :=
  match o with
  | OpReceived p => (length (addToRanges p (ranges h)).1 <= Z.to_nat MaxNumAckRanges)%nat
  | OpDeleteBelow _ => True
  end.

Fixpoint run_fits (h : receivedPacketHistory) (os : list history_op) : Prop :=
  match os with
  | [] => True
  | o :: os' => op_valid o /\ op_fits h o /\ run_fits (history_do h o) os'
  end.

Lemma history_do_inv h o : history_inv h -> op_valid o -> history_inv (history_do h o).
Proof.
  intros Hh Hv. destruct o as [p|p]; cbn in *.
  - destruct (Z.lt_ge_cases p (deletedBelow h)).
    + by rewrite history_ReceivedPacket_old.
    + pose proof (history_ReceivedPacket_spec h p Hh ltac:(lia)).
      destruct (history_ReceivedPacket h p). naive_solver.
  - destruct (Z.lt_ge_cases p (deletedBelow h)).
    + by rewrite history_DeleteBelow_old.
    + by apply history_DeleteBelow_spec.
Qed.

(** Once seen, a packet stays below the limit or stored, as long as the ranges fit. *)
Definition seen (h : receivedPacketHistory) (p : Z) : Prop :=
  p < deletedBelow h \/ received h p.

Lemma history_do_seen h o p :
  history_inv h -> op_valid o -> op_fits h o -> seen h p -> seen (history_do h o) p.
Proof.
  intros Hh Hv Hf Hs. destruct o as [q|q]; cbn in *.
  - destruct (Z.lt_ge_cases q (deletedBelow h)).
    + by rewrite history_ReceivedPacket_old.
    + pose proof (history_ReceivedPacket_spec h q Hh ltac:(lia)) as Hq.
      destruct (history_ReceivedPacket h q) as [h' b].
      destruct Hq as (_ & _ & t & _ & [Hd Hq] & Ht). cbn. unfold seen. rewrite Hd, Hq, Ht by done.
      destruct (Z.lt_ge_cases p (deletedBelow h)); [by left|].
      destruct Hs; [lia|]. right; auto.
  - destruct (Z.lt_ge_cases q (deletedBelow h)).
    + by rewrite history_DeleteBelow_old.
    + destruct (history_DeleteBelow_spec h q Hh ltac:(lia)) as (_ & Hd & Hq).
      unfold seen. rewrite Hd, Hq. destruct (Z.lt_ge_cases p q); [by left|].
      destruct Hs; [lia|]. right; auto.
Qed.

Lemma run_seen os : forall h p,
  history_inv h -> run_fits h os -> seen h p ->
  history_inv (foldl history_do h os) /\ seen (foldl history_do h os) p.
Proof.
  induction os as [|o os IH]; intros h p Hh Hr Hs; [done|].
  destruct Hr as (Hv & Hf & Hr). apply IH; auto using history_do_inv, history_do_seen.
Qed.

(** No packet number is accepted twice: after [ReceivedPacket p] and any
    further operations whose intervals fit in [MaxNumAckRanges], the packet is
    reported as a duplicate, and a second [ReceivedPacket p] returns false. *)
Theorem history_no_double_accept h p os :
  history_inv h -> run_fits h (OpReceived p :: os) ->
  let h' := foldl history_do h (OpReceived p :: os) in
  history_IsPotentiallyDuplicate h' p = true /\
  (history_ReceivedPacket h' p).2 = false.
Proof.
  intros Hh (Hv & Hf & Hr) h'. 
  destruct (run_seen os (history_do h (OpReceived p)) p) as [Hh' Hs]; [|done| |].
  - by apply history_do_inv.
  - cbn in *. destruct (Z.lt_ge_cases p (deletedBelow h)).
    { rewrite history_ReceivedPacket_old by done. by left. }
    pose proof (history_ReceivedPacket_spec h p Hh ltac:(lia)) as Hq.
    destruct (history_ReceivedPacket h p) as [h1 b].
    destruct Hq as (_ & _ & t & _ & [Hd Hq] & Ht). right. cbn. rewrite Hq, Ht by done. auto.
  - change (foldl history_do (history_do h (OpReceived p)) os) with h' in Hh', Hs.
    split; [by apply history_IsPotentiallyDuplicate_spec|].
    destruct (Z.lt_ge_cases p (deletedBelow h')).
    { by rewrite history_ReceivedPacket_old. }
    destruct Hs as [|Hs]; [lia|]. cbn in Hv.
    pose proof (history_ReceivedPacket_spec h' p Hh' ltac:(lia)) as Hq.
    destruct (history_ReceivedPacket h' p) as [h2 []]; [|done]. cbn. naive_solver.
Qed.

Lemma history_no_double_accept_witness :
  history_inv newReceivedPacketHistory /\
  (history_ReceivedPacket
    (foldl history_do newReceivedPacketHistory [OpReceived 9; OpReceived 4; OpDeleteBelow 6]) 9).2
  = false.
Proof.
  split; [apply new_history_inv|].
  apply (history_no_double_accept newReceivedPacketHistory 9 [OpReceived 4; OpDeleteBelow 6]).
  - apply new_history_inv.
  - vm_compute. intuition discriminate || lia.
Defined.

(** The limit of the previous statement is real. [maybeDeleteOldRanges]
    drops the lowest interval without raising [deletedBelow]: after the packets
    0, 2, ..., 64 packet 0 has been acknowledged as received once, is no longer
    recognised as a duplicate, and is accepted as new a second time. *)
Theorem history_evicted_accepted_twice :
  let evens := (fun i : nat => OpReceived (2 * Z.of_nat i)) <$> seq 0 33 in
  let h := foldl history_do newReceivedPacketHistory evens in
  (history_ReceivedPacket newReceivedPacketHistory 0).2 = true /\
  history_IsPotentiallyDuplicate h 0 = false /\
  (history_ReceivedPacket h 0).2 = true.
Proof. vm_compute. done. Qed.
