(* ===== verification/ReceivedTracker.v ===== *)
(** * ReceivedTracker: [internal/ackhandler/received_packet_tracker.go] and
    [received_packet_handler.go]

    The state that decides when an ACK is sent and what it contains.  The
    tracker always hands out the same [wire.AckFrame] object ([lastAck]): the
    model keeps its contents in the tracker, and what the handler writes into
    the frame it was handed ([ack.DelayTime = 0]) is written to the tracker's
    copy too.  The clock ([time.Now()]) is the argument [now].

    The handler reaches the sent-packet side through the interface
    [sentPacketTracker], here the class [SentPacketTracker]. *)

From S2P Require Import Prelude Protocol Varint AckFrame ReceivedHistory.
From stdpp Require Import base numbers list option strings.
From Stdlib Require Import ZArith Lia.
#[local] Open Scope Z_scope.

(** ** [internal/utils/minmax.go] on times *)

Definition MinTime (a b : Z) : Z := if Time_After a b then b else a.
Definition MinNonZeroTime (a b : Z) : Z :=
  if Time_IsZero a then b else if Time_IsZero b then a else MinTime a b.

(** ** The tracker *)

Definition packetsBeforeAck : Z := 2.

Record receivedPacketTracker := mkTracker {
  largestObserved : Z;
  ignoreBelow : Z;
  largestObservedRcvdTime : Z;
  ect0 : Z;
  ect1 : Z;
  ecnce : Z;
  packetHistory : receivedPacketHistory;
  maxAckDelay : Z;
  hasNewAck : bool;
  ackQueued : bool;
  ackElicitingPacketsReceivedSinceLastAck : Z;
  ackAlarm : Z;
  lastAck : option AckFrame
}.

#[export] Instance receivedPacketTracker_eq_dec : EqDecision receivedPacketTracker.
Proof. solve_decision. Defined.

Definition newReceivedPacketTracker : receivedPacketTracker :=
  mkTracker 0 0 zeroTime 0 0 0 newReceivedPacketHistory MaxAckDelay false false 0 zeroTime None.

(** Field updates, [h.f = v]. *)
Definition set_packetHistory (v : receivedPacketHistory) (h : receivedPacketTracker) :=
  let '(mkTracker a b c d e f _ i j k l m n) := h in mkTracker a b c d e f v i j k l m n.
Definition set_largest (pn t : Z) (h : receivedPacketTracker) :=
  let '(mkTracker _ b _ d e f g i j k l m n) := h in mkTracker pn b t d e f g i j k l m n.
Definition set_ignoreBelow (v : Z) (h : receivedPacketTracker) :=
  let '(mkTracker a _ c d e f g i j k l m n) := h in mkTracker a v c d e f g i j k l m n.
Definition set_hasNewAck (v : bool) (h : receivedPacketTracker) :=
  let '(mkTracker a b c d e f g i _ k l m n) := h in mkTracker a b c d e f g i v k l m n.
Definition set_ackQueued (v : bool) (h : receivedPacketTracker) :=
  let '(mkTracker a b c d e f g i j _ l m n) := h in mkTracker a b c d e f g i j v l m n.
Definition set_sinceLastAck (v : Z) (h : receivedPacketTracker) :=
  let '(mkTracker a b c d e f g i j k _ m n) := h in mkTracker a b c d e f g i j k v m n.
Definition set_ackAlarm (v : Z) (h : receivedPacketTracker) :=
  let '(mkTracker a b c d e f g i j k l _ n) := h in mkTracker a b c d e f g i j k l v n.
Definition set_lastAck (v : option AckFrame) (h : receivedPacketTracker) :=
  let '(mkTracker a b c d e f g i j k l m _) := h in mkTracker a b c d e f g i j k l m v.
Definition set_ecn (v0 v1 vce : Z) (h : receivedPacketTracker) :=
  let '(mkTracker a b c _ _ _ g i j k l m n) := h in mkTracker a b c v0 v1 vce g i j k l m n.

Definition tracker_isMissing (h : receivedPacketTracker) (p : Z) : res bool :=
  match lastAck h with
  | None => Ok false
  | Some ack =>
      if p <? ignoreBelow h then Ok false else
      largest ← LargestAcked ack;
      if negb (p <? largest) then Ok false else
      b ← AcksPacket ack p;
      Ok (negb b)
  end.

Definition hasNewMissingPackets (h : receivedPacketTracker) : res bool :=
  match lastAck h with
  | None => Ok false
  | Some ack =>
      let highestRange := GetHighestAckRange (packetHistory h) in
      largest ← LargestAcked ack;
      Ok ((i64 (largest + 1) <? Smallest highestRange) && (AckRange_Len highestRange =? 1))
  end.

Definition maybeQueueACK (h : receivedPacketTracker) (pn rcvTime : Z) (wasMissing : bool)
    : res receivedPacketTracker :=
  match lastAck h with
  | None => Ok (set_ackQueued true h)
  | Some _ =>
      if ackQueued h then Ok h else
      let h := set_sinceLastAck (i64 (ackElicitingPacketsReceivedSinceLastAck h + 1)) h in
      let h := if wasMissing then set_ackQueued true h else h in
      let h :=
        if packetsBeforeAck <=? ackElicitingPacketsReceivedSinceLastAck h
        then set_ackQueued true h
        else if Time_IsZero (ackAlarm h)
        then set_ackAlarm (Time_Add rcvTime (maxAckDelay h)) h
        else h in
      newMissing ← hasNewMissingPackets h;
      let h := if newMissing : bool then set_ackQueued true h else h in
      Ok (if ackQueued h then set_ackAlarm zeroTime h else h)
  end.

Definition countECN (ecn : ECN) (h : receivedPacketTracker) : receivedPacketTracker :=
  match ecn with
  | ECT0 => set_ecn (u64 (ect0 h + 1)) (ect1 h) (ecnce h) h
  | ECT1 => set_ecn (ect0 h) (u64 (ect1 h + 1)) (ecnce h) h
  | ECNCE => set_ecn (ect0 h) (ect1 h) (u64 (ecnce h + 1)) h
  | _ => h
  end.

Definition errDuplicatePacket : GoError :=
  ErrorString "recevedPacketTracker BUG: ReceivedPacket called for old / duplicate packet %d".

(** Returns the result and the tracker after the call. *)
Definition tracker_ReceivedPacket (h : receivedPacketTracker) (pn : Z) (ecn : ECN)
    (rcvTime : Z) (ackEliciting : bool) : res unit * receivedPacketTracker :=
  let '(history, isNew) := history_ReceivedPacket (packetHistory h) pn in
  let h := set_packetHistory history h in
  if negb isNew then (Err errDuplicatePacket, h) else
  match tracker_isMissing h pn with
  | Panic s => (Panic s, h)
  | Err e => (Err e, h)
  | Ok isMissing =>
      let h := if largestObserved h <=? pn then set_largest pn rcvTime h else h in
      let h := if ackEliciting then set_hasNewAck true h else h in
      match (if ackEliciting then maybeQueueACK h pn rcvTime isMissing else Ok h) with
      | Panic s => (Panic s, h)
      | Err e => (Err e, h)
      | Ok h => (Ok tt, countECN ecn h)
      end
  end.

Definition IgnoreBelow (h : receivedPacketTracker) (pn : Z) : receivedPacketTracker :=
  if pn <=? ignoreBelow h then h
  else
    let h := set_ignoreBelow pn h in
    set_packetHistory (history_DeleteBelow (packetHistory h) pn) h.

(** The frame [GetAckFrame] fills in. *)
Definition fillAck (h : receivedPacketTracker) (now : Z) : AckFrame :=
  let ack := AckFrame_Reset (default emptyAckFrame (lastAck h)) in
  mkAckFrame (AppendAckRanges (packetHistory h) (AckRanges ack))
    (Z.max 0 (Time_Sub now (largestObservedRcvdTime h)))
    (ect0 h) (ect1 h) (ecnce h).

(** The tracker after the call, and whether the frame it now holds in [lastAck]
    was returned. *)
Definition tracker_GetAckFrame (h : receivedPacketTracker) (now : Z) (onlyIfQueued : bool)
    : receivedPacketTracker * option AckFrame :=
  if negb (hasNewAck h) then (h, None)
  else if onlyIfQueued && negb (ackQueued h)
          && (Time_IsZero (ackAlarm h) || Time_After (ackAlarm h) now) then (h, None)
  else
    let ack := fillAck h now in
    let h := set_lastAck (Some ack) h in
    let h := set_ackAlarm zeroTime h in
    let h := set_ackQueued false h in
    let h := set_hasNewAck false h in
    (set_sinceLastAck 0 h, Some ack).

Definition tracker_GetAlarmTimeout (h : receivedPacketTracker) : Z := ackAlarm h.

Definition tracker_IsPotentiallyDuplicate (h : receivedPacketTracker) (pn : Z) : bool :=
  history_IsPotentiallyDuplicate (packetHistory h) pn.

(** ** The handler *)

(** The interface [sentPacketTracker]: what the received-packet handler uses of
    the sent-packet handler, whose state is [S]. *)
Class SentPacketTracker (S : Type) := {
  GetLowestPacketNotConfirmedAcked : S -> Z;
  sent_ReceivedPacket : Z -> EncryptionLevel -> S -> res S     (* at time [now] *)
}.

Record receivedPacketHandler := mkRHandler {
  initialPackets : option receivedPacketTracker;
  handshakePackets : option receivedPacketTracker;
  appDataPackets : receivedPacketTracker;
  lowest1RTTPacket : Z
}.

Definition newReceivedPacketHandler : receivedPacketHandler :=
  mkRHandler (Some newReceivedPacketTracker) (Some newReceivedPacketTracker)
    newReceivedPacketTracker InvalidPacketNumber.

Definition set_initialPackets v (h : receivedPacketHandler) :=
  mkRHandler v (handshakePackets h) (appDataPackets h) (lowest1RTTPacket h).
Definition set_handshakePackets v (h : receivedPacketHandler) :=
  mkRHandler (initialPackets h) v (appDataPackets h) (lowest1RTTPacket h).
Definition set_appDataPackets v (h : receivedPacketHandler) :=
  mkRHandler (initialPackets h) (handshakePackets h) v (lowest1RTTPacket h).
Definition set_lowest1RTTPacket v (h : receivedPacketHandler) :=
  mkRHandler (initialPackets h) (handshakePackets h) (appDataPackets h) v.

Definition err0RTTAfter1RTT : GoError :=
  ErrorString "received packet number %d on a 0-RTT packet after receiving %d on a 1-RTT packet".

Definition nilDereference {A} : res A := Panic "nil pointer dereference".

(** The switch of [ReceivedPacket], after [sentPackets.ReceivedPacket]. *)
Definition rhandler_registerPacket (h : receivedPacketHandler) (lowestNotConfirmed : Z)
    (pn : Z) (ecn : ECN) (encLevel : EncryptionLevel) (rcvTime : Z) (ackEliciting : bool)
    : res unit * receivedPacketHandler :=
  match encLevel with
  | EncryptionInitial =>
      match initialPackets h with
      | None => (nilDereference, h)
      | Some t =>
          let '(r, t) := tracker_ReceivedPacket t pn ecn rcvTime ackEliciting in
          (r, set_initialPackets (Some t) h)
      end
  | EncryptionHandshake =>
      match handshakePackets h with
      | None => (Ok tt, h)
      | Some t =>
          let '(r, t) := tracker_ReceivedPacket t pn ecn rcvTime ackEliciting in
          (r, set_handshakePackets (Some t) h)
      end
  | Encryption0RTT =>
      if negb (lowest1RTTPacket h =? InvalidPacketNumber) && (lowest1RTTPacket h <? pn)
      then (Err err0RTTAfter1RTT, h)
      else
        let '(r, t) := tracker_ReceivedPacket (appDataPackets h) pn ecn rcvTime ackEliciting in
        (r, set_appDataPackets t h)
  | Encryption1RTT =>
      let h := if (lowest1RTTPacket h =? InvalidPacketNumber) || (pn <? lowest1RTTPacket h)
               then set_lowest1RTTPacket pn h else h in
      let '(r, t) := tracker_ReceivedPacket (appDataPackets h) pn ecn rcvTime ackEliciting in
      match r with
      | Ok _ => (Ok tt, set_appDataPackets (IgnoreBelow t lowestNotConfirmed) h)
      | _ => (r, set_appDataPackets t h)
      end
  end.

Definition rhandler_ReceivedPacket {S} `{SentPacketTracker S} (sentPackets : S)
    (h : receivedPacketHandler) (pn : Z) (ecn : ECN) (encLevel : EncryptionLevel)
    (rcvTime : Z) (ackEliciting : bool) (now : Z) : res unit * receivedPacketHandler * S :=
  match sent_ReceivedPacket now encLevel sentPackets with
  | Ok sentPackets =>
      (rhandler_registerPacket h (GetLowestPacketNotConfirmedAcked sentPackets)
         pn ecn encLevel rcvTime ackEliciting, sentPackets)
  | Err e => (Err e, h, sentPackets)
  | Panic s => (Panic s, h, sentPackets)
  end.

Definition rhandler_DropPackets (h : receivedPacketHandler) (encLevel : EncryptionLevel)
    : res receivedPacketHandler :=
  match encLevel with
  | EncryptionInitial => Ok (set_initialPackets None h)
  | EncryptionHandshake => Ok (set_handshakePackets None h)
  | Encryption0RTT => Ok h
  | Encryption1RTT => Panic "Cannot drop keys for encryption level %s"
  end.

Definition rhandler_GetAlarmTimeout (h : receivedPacketHandler) : Z :=
  let initialAlarm := from_option tracker_GetAlarmTimeout zeroTime (initialPackets h) in
  let handshakeAlarm := from_option tracker_GetAlarmTimeout zeroTime (handshakePackets h) in
  let oneRTTAlarm := tracker_GetAlarmTimeout (appDataPackets h) in
  MinNonZeroTime (MinNonZeroTime initialAlarm handshakeAlarm) oneRTTAlarm.

(** [ack.DelayTime = 0] on the frame object the tracker owns. *)
Definition zeroDelay (f : AckFrame) : AckFrame :=
  mkAckFrame (AckRanges f) 0 (AckECT0 f) (AckECT1 f) (AckECNCE f).

Definition getAckFrameNoDelay (t : receivedPacketTracker) (now : Z) (onlyIfQueued : bool)
    : receivedPacketTracker * option AckFrame :=
  match tracker_GetAckFrame t now onlyIfQueued with
  | (t, Some ack) => (set_lastAck (Some (zeroDelay ack)) t, Some (zeroDelay ack))
  | (t, None) => (t, None)
  end.

Definition rhandler_GetAckFrame (h : receivedPacketHandler) (encLevel : EncryptionLevel)
    (now : Z) (onlyIfQueued : bool) : receivedPacketHandler * option AckFrame :=
  match encLevel with
  | EncryptionInitial =>
      match initialPackets h with
      | None => (h, None)
      | Some t =>
          let '(t, ack) := getAckFrameNoDelay t now onlyIfQueued in
          (set_initialPackets (Some t) h, ack)
      end
  | EncryptionHandshake =>
      match handshakePackets h with
      | None => (h, None)
      | Some t =>
          let '(t, ack) := getAckFrameNoDelay t now onlyIfQueued in
          (set_handshakePackets (Some t) h, ack)
      end
  | Encryption1RTT =>
      let '(t, ack) := tracker_GetAckFrame (appDataPackets h) now onlyIfQueued in
      (set_appDataPackets t h, ack)
  | Encryption0RTT => (h, None)
  end.

Definition rhandler_IsPotentiallyDuplicate (h : receivedPacketHandler) (pn : Z)
    (encLevel : EncryptionLevel) : res bool :=
  match encLevel with
  | EncryptionInitial =>
      match initialPackets h with
      | Some t => Ok (tracker_IsPotentiallyDuplicate t pn)
      | None => Panic "unexpected encryption level"
      end
  | EncryptionHandshake =>
      match handshakePackets h with
      | Some t => Ok (tracker_IsPotentiallyDuplicate t pn)
      | None => Panic "unexpected encryption level"
      end
  | Encryption0RTT | Encryption1RTT => Ok (tracker_IsPotentiallyDuplicate (appDataPackets h) pn)
  end.

(** ** Invariant of a tracker *)

(** A frame handed out before: it may be consulted without panicking. *)
Definition lastAck_ok (o : option AckFrame) : Prop :=
  forall f, o = Some f -> AckRanges f <> [] /\ ranges_desc maxVarInt8 (AckRanges f).

Record tracker_inv (h : receivedPacketTracker) : Prop := {
  ti_hist : history_inv (packetHistory h);
  ti_ignore : ignoreBelow h = deletedBelow (packetHistory h);
  ti_delay : maxAckDelay h = MaxAckDelay;
  ti_last : lastAck_ok (lastAck h);
  ti_queued : ackQueued h = true -> hasNewAck h = true;
  ti_alarm : ackAlarm h <> 0 ->
    hasNewAck h = true /\ ackQueued h = false /\ is_Some (lastAck h);
  ti_pending : hasNewAck h = true -> ackQueued h = true \/ ackAlarm h <> 0;
  ti_count : 0 <= ackElicitingPacketsReceivedSinceLastAck h <= 2;
  ti_count_unqueued : ackQueued h = false ->
    ackElicitingPacketsReceivedSinceLastAck h = if hasNewAck h then 1 else 0
}.

(** An ACK that may be requested has something to acknowledge. *)
Definition ack_ready (h : receivedPacketTracker) : Prop :=
  hasNewAck h = true -> ranges (packetHistory h) <> [].

Lemma newReceivedPacketTracker_inv :
  tracker_inv newReceivedPacketTracker /\ ack_ready newReceivedPacketTracker.
Proof. split; [|done]. constructor; try apply new_history_inv; cbn; done || lia. Qed.

(** *** Consulting the last ACK *)

Lemma LargestAcked_ok f : AckRanges f <> [] -> exists l, LargestAcked f = Ok l.
Proof. unfold LargestAcked. destruct (AckRanges f); [done|]. eauto. Qed.

Lemma tracker_isMissing_ok h p :
  lastAck_ok (lastAck h) -> exists b, tracker_isMissing h p = Ok b.
Proof.
  intros Hl. unfold tracker_isMissing. destruct (lastAck h) as [f|]; [|eauto].
  destruct (Hl f eq_refl) as [Hne Hd]. destruct (p <? ignoreBelow h); [eauto|].
  destruct (LargestAcked_ok f Hne) as [l ->]. cbn. destruct (p <? l); [|eauto].
  destruct (AcksPacket_correct f p Hd Hne) as (b & -> & _). cbn. eauto.
Qed.

Lemma hasNewMissingPackets_ok h :
  lastAck_ok (lastAck h) -> exists b, hasNewMissingPackets h = Ok b.
Proof.
  intros Hl. unfold hasNewMissingPackets. destruct (lastAck h) as [f|]; [|eauto].
  destruct (Hl f eq_refl) as [Hne _]. destruct (LargestAcked_ok f Hne) as [l ->]. cbn. eauto.
Qed.

(** *** What queueing an ACK changes *)

(** The fields [maybeQueueACK] leaves alone. *)
Definition same_core (h h' : receivedPacketTracker) : Prop :=
  packetHistory h' = packetHistory h /\ ignoreBelow h' = ignoreBelow h /\
  maxAckDelay h' = maxAckDelay h /\ lastAck h' = lastAck h /\ hasNewAck h' = hasNewAck h.

Lemma maybeQueueACK_spec h pn rcvTime wasMissing :
  tracker_inv h -> 0 < rcvTime ->
  exists h', maybeQueueACK (set_hasNewAck true h) pn rcvTime wasMissing = Ok h' /\
    same_core (set_hasNewAck true h) h' /\ tracker_inv h' /\
    (ackQueued h' = true \/ (hasNewAck h = false /\ ackAlarm h' = rcvTime + MaxAckDelay)) /\
    (ackQueued h = true -> ackQueued h' = true).
Proof.
  intros Hinv Ht. destruct h as [lo ig lt e0 e1 ce hi md nw qu cn al la].
  destruct Hinv as [I1 I2 I3 I4 I5 I6 I7 I8 I9]; cbn in *. subst md.
  unfold maybeQueueACK, same_core; cbn.
  destruct la as [f|]; cbn.
  2:{ eexists. split; [reflexivity|]. cbn. split; [done|]. split; [|auto].
      constructor; cbn; auto; try done. intros Ha. by destruct (I6 Ha) as (_ & _ & [? ?]). }
  destruct qu; cbn.
  { eexists. split; [reflexivity|]. cbn. split; [done|]. split; [|auto].
    constructor; cbn; auto; try done. intros Ha. by destruct (I6 Ha) as (_ & [=] & _). }
  rewrite (i64_small (cn + 1)) by int_range.
  specialize (I9 eq_refl).
  edestruct (hasNewMissingPackets_ok) as [b Hb];
    [|rewrite Hb; clear Hb; cbn].
  { repeat case_match; exact I4. }
  unfold packetsBeforeAck, Time_IsZero, Time_Add, zeroTime, MaxAckDelay, Millisecond,
    Microsecond in *.
  destruct nw; subst cn; cbn.
  - (* the second ack-eliciting packet since the last ACK *)
    destruct wasMissing, b; cbn; change (2 <=? 1 + 1) with true; cbn; (eexists; split; [reflexivity|]; cbn; split; [done|];
      split; [constructor; cbn; auto; try done; lia|auto]).
  - assert (al = 0) as -> by (destruct (Z.eq_dec al 0) as [|Ha]; [done|];
      by destruct (I6 Ha)).
    destruct wasMissing, b; cbn; change (2 <=? 0 + 1) with false; cbn; (eexists; split; [reflexivity|]; cbn; split; [done|];
      split; [constructor; cbn; eauto; try done; try lia|auto]).
    all: intros; right; try split; done || lia.
Qed.

(** *** The other field updates *)

Lemma set_packetHistory_inv h hist :
  tracker_inv h -> history_inv hist -> deletedBelow hist = deletedBelow (packetHistory h) ->
  tracker_inv (set_packetHistory hist h).
Proof. intros [] Hh Hd. destruct h; constructor; cbn in *; done || congruence. Qed.

Lemma set_largest_inv h pn t : tracker_inv h -> tracker_inv (set_largest pn t h).
Proof. intros []. by destruct h. Qed.

Lemma countECN_inv h ecn : tracker_inv h -> tracker_inv (countECN ecn h).
Proof. intros []. by destruct h, ecn. Qed.

Lemma set_largest_core h pn t : same_core h (set_largest pn t h) /\
  ackQueued (set_largest pn t h) = ackQueued h /\ ackAlarm (set_largest pn t h) = ackAlarm h.
Proof. by destruct h. Qed.

Lemma countECN_core h ecn : same_core h (countECN ecn h) /\
  ackQueued (countECN ecn h) = ackQueued h /\ ackAlarm (countECN ecn h) = ackAlarm h.
Proof. by destruct h, ecn. Qed.

Lemma addToRanges_nonempty p rs : (addToRanges p rs).1 <> [].
Proof.
  destruct rs as [|el prevs]; [done|]. cbn [addToRanges].
  repeat case_match; cbn; done.
Qed.

Lemma history_ReceivedPacket_nonempty h p :
  deletedBelow h <= p -> ranges (history_ReceivedPacket h p).1 <> [].
Proof.
  intros Hp. unfold history_ReceivedPacket. zfalse (p <? deletedBelow h).
  pose proof (addToRanges_nonempty p (ranges h)).
  destruct (addToRanges p (ranges h)) as [[|r rs] b]; [done|]. done.
Qed.

(** *** [ReceivedPacket] *)

(** An ACK is due by [d]: queued, or an alarm is set no later than [d]. *)
Definition ack_due (d : Z) (h : receivedPacketTracker) : Prop :=
  hasNewAck h = true /\ (ackQueued h = true \/ (ackAlarm h <> 0 /\ ackAlarm h <= d)).

Definition received_ok (h h' : receivedPacketTracker) (rcvTime : Z) (ackEliciting : bool) : Prop :=
  (if ackEliciting then ack_due (rcvTime + MaxAckDelay) h'
   else hasNewAck h' = hasNewAck h /\ ackQueued h' = ackQueued h /\ ackAlarm h' = ackAlarm h) /\
  (forall d, ack_due d h -> ack_due d h').

Lemma tracker_ReceivedPacket_new h pn ecn rcvTime ackEliciting hist :
  tracker_inv h -> 0 < rcvTime ->
  history_ReceivedPacket (packetHistory h) pn = (hist, true) ->
  history_inv hist -> deletedBelow hist = deletedBelow (packetHistory h) ->
  exists h', tracker_ReceivedPacket h pn ecn rcvTime ackEliciting = (Ok tt, h') /\
    tracker_inv h' /\ packetHistory h' = hist /\ lastAck h' = lastAck h /\
    received_ok h h' rcvTime ackEliciting.
Proof.
  intros Hinv Ht Hr Hhist Hdel. unfold tracker_ReceivedPacket. rewrite Hr. cbn [negb].
  pose proof (set_packetHistory_inv h hist Hinv Hhist Hdel) as Hi1.
  destruct (tracker_isMissing_ok (set_packetHistory hist h) pn (ti_last _ Hi1)) as [m ->].
  set (h2 := if largestObserved _ <=? pn then _ else _).
  assert (Hi2 : tracker_inv h2 /\ same_core (set_packetHistory hist h) h2 /\
    ackQueued h2 = ackQueued h /\ ackAlarm h2 = ackAlarm h).
  { subst h2. destruct (_ <=? pn).
    - split; [by apply set_largest_inv|].
      pose proof (set_largest_core (set_packetHistory hist h) pn rcvTime). by destruct h.
    - split; [done|]. by destruct h. }
  destruct Hi2 as (Hi2 & (C1 & C2 & C3 & C4 & C5) & Hq2 & Ha2).
  assert (Hp : packetHistory (set_packetHistory hist h) = hist) by by destruct h.
  assert (Hnw : hasNewAck (set_packetHistory hist h) = hasNewAck h) by by destruct h.
  assert (Hla : lastAck (set_packetHistory hist h) = lastAck h) by by destruct h.
  destruct ackEliciting.
  - destruct (maybeQueueACK_spec h2 pn rcvTime m Hi2 Ht) as (h' & -> & Hc & Hi' & Hq & Hqq).
    eexists. split; [reflexivity|]. split; [by apply countECN_inv|].
    destruct (countECN_core h' ecn) as ((D1 & D2 & D3 & D4 & D5) & D6 & D7).
    destruct Hc as (E1 & E2 & E3 & E4 & E5).
    assert (Hs : packetHistory (set_hasNewAck true h2) = packetHistory h2 /\
      lastAck (set_hasNewAck true h2) = lastAck h2 /\ hasNewAck (set_hasNewAck true h2) = true)
      by by destruct h2.
    destruct Hs as (S1 & S2 & S3).
    split; [congruence|]. split; [congruence|]. unfold received_ok, ack_due.
    rewrite D5, D6, D7, E5, S3. split.
    + split; [done|]. destruct Hq as [?|[_ Hq]]; [by left|]. right. rewrite Hq.
      unfold MaxAckDelay, Millisecond, Microsecond. lia.
    + intros d [Hn _]. split; [done|]. destruct Hq as [?|[Hq _]]; [by left|]. congruence.
  - eexists. split; [reflexivity|]. split; [by apply countECN_inv|].
    destruct (countECN_core h2 ecn) as ((D1 & D2 & D3 & D4 & D5) & D6 & D7).
    split; [congruence|]. split; [congruence|]. unfold received_ok, ack_due.
    rewrite D5, D6, D7, C5, Hq2, Ha2, Hnw. auto.
Qed.

(** What [ReceivedPacket] does on a packet number in range. *)
Definition tracker_received (h : receivedPacketTracker) (pn rcvTime : Z) (ackEliciting : bool)
    (out : res unit * receivedPacketTracker) : Prop :=
  let h' := out.2 in
  tracker_inv h' /\ (ack_ready h -> ack_ready h') /\ lastAck h' = lastAck h /\
  packetHistory h' = (history_ReceivedPacket (packetHistory h) pn).1 /\
  (forall d, ack_due d h -> ack_due d h') /\
  (if tracker_IsPotentiallyDuplicate h pn
   then out.1 = Err errDuplicatePacket
   else out.1 = Ok tt /\ received_ok h h' rcvTime ackEliciting).

Lemma tracker_ReceivedPacket_spec h pn ecn rcvTime ackEliciting :
  tracker_inv h -> 0 <= pn <= maxPN -> 0 < rcvTime ->
  tracker_received h pn rcvTime ackEliciting
    (tracker_ReceivedPacket h pn ecn rcvTime ackEliciting).
Proof.
  intros Hinv Hpn Ht. pose proof (ti_hist _ Hinv) as Hh.
  pose proof (history_IsPotentiallyDuplicate_spec (packetHistory h) pn Hh) as Hdup.
  unfold tracker_received, tracker_IsPotentiallyDuplicate.
  destruct (Z.lt_ge_cases pn (deletedBelow (packetHistory h))) as [Hlt|Hge].
  { unfold tracker_ReceivedPacket. rewrite history_ReceivedPacket_old by done.
    destruct (history_IsPotentiallyDuplicate _ _); [|naive_solver].
    assert (set_packetHistory (packetHistory h) h = h) as -> by by destruct h. done. }
  pose proof (history_ReceivedPacket_spec _ pn Hh ltac:(lia)) as Hs.
  pose proof (history_ReceivedPacket_nonempty (packetHistory h) pn ltac:(lia)) as Hne.
  destruct (history_ReceivedPacket (packetHistory h) pn) as [hist b] eqn:Hr.
  destruct Hs as (Hhist & Hb & t & _ & [Hdel _] & _). cbn in Hne.
  destruct b.
  - destruct (tracker_ReceivedPacket_new h pn ecn rcvTime ackEliciting hist)
      as (h' & -> & Hi' & Hp & Hl & Hok); [done..|]. cbn.
    destruct (history_IsPotentiallyDuplicate _ _) eqn:Ed.
    { destruct Hdup as [Hd _]. destruct (Hd eq_refl); [lia|]. exfalso. by apply Hb. }
    split_and!; try done; [|apply Hok]. intros _ _. by rewrite Hp.
  - unfold tracker_ReceivedPacket. rewrite Hr. cbn.
    pose proof (set_packetHistory_inv h hist Hinv Hhist Hdel) as Hi'.
    assert (received (packetHistory h) pn).
    { destruct (history_IsPotentiallyDuplicate (packetHistory h) pn) eqn:Ed.
      - destruct Hdup as [Hd _]. destruct (Hd eq_refl); [lia|done].
      - assert (~ received (packetHistory h) pn) as Hn; [|by apply Hb in Hn].
        intros Hin. destruct Hdup as [_ Hd]. by specialize (Hd (or_intror Hin)). }
    assert (history_IsPotentiallyDuplicate (packetHistory h) pn = true) as -> by (apply Hdup; auto).
    destruct h; cbn in *. split_and!; try done. by intros _ _.
Qed.

(** *** [GetAckFrame] *)

Lemma append_ranges_mem rs q :
  Exists (range_mem q) ((fun el => mkAckRange (Start el) (End el)) <$> rs) <-> ranges_mem q rs.
Proof.
  induction rs as [|r rs IH]; cbn; [by rewrite Exists_nil|].
  rewrite Exists_cons. unfold range_mem at 1. cbn. by rewrite IH.
Qed.

Lemma append_ranges_desc lo hi rs :
  0 <= lo -> ranges_inv lo hi rs ->
  ranges_desc hi ((fun el => mkAckRange (Start el) (End el)) <$> rs).
Proof.
  intros Hlo. revert hi. induction rs as [|r rs IH]; intros hi; [done|]. cbn.
  intros (? & ? & ?). split_and!; [lia..|]. by apply IH.
Qed.

Lemma fillAck_spec h now :
  history_inv (packetHistory h) -> ranges (packetHistory h) <> [] ->
  AckRanges (fillAck h now) <> [] /\
  ranges_desc maxVarInt8 (AckRanges (fillAck h now)) /\
  0 <= DelayTime (fillAck h now) < 2 ^ 63 /\
  forall q, acks (fillAck h now) q <-> received (packetHistory h) q.
Proof.
  intros (Hd & Hi & _) Hne. unfold fillAck, AppendAckRanges, acks; cbn.
  split_and!.
  - by destruct (ranges (packetHistory h)).
  - by eapply append_ranges_desc.
  - lia.
  - unfold Time_Sub. lia.
  - intros q. apply append_ranges_mem.
Qed.

(** When a frame is returned. *)
Definition ack_sendable (h : receivedPacketTracker) (now : Z) (onlyIfQueued : bool) : Prop :=
  hasNewAck h = true /\
  (onlyIfQueued = false \/ ackQueued h = true \/ (ackAlarm h <> 0 /\ ackAlarm h <= now)).

Lemma tracker_GetAckFrame_cases h now onlyIfQueued :
  (ack_sendable h now onlyIfQueued /\
   (tracker_GetAckFrame h now onlyIfQueued).2 = Some (fillAck h now)) \/
  (~ ack_sendable h now onlyIfQueued /\ tracker_GetAckFrame h now onlyIfQueued = (h, None)).
Proof.
  unfold ack_sendable, tracker_GetAckFrame, Time_IsZero, Time_After.
  destruct (hasNewAck h); cbn; [|right; naive_solver].
  destruct onlyIfQueued, (ackQueued h); cbn; auto 6.
  destruct (Z.eqb_spec (ackAlarm h) 0), (Z.ltb_spec now (ackAlarm h)); cbn;
    [right..|left]; split; auto; try lia; intros [_ [?|[?|?]]]; done || lia.
Qed.

Lemma tracker_GetAckFrame_inv h now onlyIfQueued :
  tracker_inv h -> ack_ready h ->
  let h' := (tracker_GetAckFrame h now onlyIfQueued).1 in tracker_inv h' /\ ack_ready h'.
Proof.
  intros Hi Hr h'. destruct (tracker_GetAckFrame_cases h now onlyIfQueued)
    as [[[Hn _] Hs]|[_ Hs]]; subst h'; [|by rewrite Hs].
  unfold tracker_GetAckFrame in *. rewrite Hn in *. cbn in *. case_match; [done|].
  destruct (fillAck_spec h now (ti_hist _ Hi) (Hr Hn)) as (F1 & F2 & _).
  destruct Hi. destruct h; cbn in *. split; [|done].
  constructor; cbn; try done. intros f [= <-]. done.
Qed.

(** *** [IgnoreBelow] *)

Lemma IgnoreBelow_inv h pn : tracker_inv h -> tracker_inv (IgnoreBelow h pn).
Proof.
  intros Hi. unfold IgnoreBelow. destruct (Z.leb_spec pn (ignoreBelow h)); [done|].
  pose proof (ti_ignore _ Hi).
  destruct (history_DeleteBelow_spec (packetHistory h) pn (ti_hist _ Hi) ltac:(lia)) as (H1 & H2 & _).
  destruct Hi. destruct h; cbn in *. by constructor.
Qed.

Lemma IgnoreBelow_due d h pn : ack_due d h -> ack_due d (IgnoreBelow h pn).
Proof. unfold IgnoreBelow. destruct (pn <=? ignoreBelow h); [done|]. by destruct h. Qed.

(** ** The claims on the tracker *)

(** On a tracker satisfying its invariant, [ReceivedPacket] never panics,
    keeps the invariant, fails exactly on the packets [IsPotentiallyDuplicate]
    reports, records every other packet in the history, and never withdraws an
    ACK that is due; an ack-eliciting packet makes an ACK due within
    [MaxAckDelay] of its arrival, a packet that is not ack-eliciting changes
    nothing about when an ACK is sent. *)
Theorem tracker_ReceivedPacket_correct h pn ecn rcvTime ackEliciting :
  tracker_inv h -> 0 <= pn <= maxPN -> 0 < rcvTime ->
  tracker_received h pn rcvTime ackEliciting
    (tracker_ReceivedPacket h pn ecn rcvTime ackEliciting).
Proof. apply tracker_ReceivedPacket_spec. Qed.

Lemma tracker_ReceivedPacket_correct_witness :
  tracker_inv newReceivedPacketTracker /\
  ack_due (7 + MaxAckDelay) (tracker_ReceivedPacket newReceivedPacketTracker 3 ECT0 7 true).2.
Proof.
  split; [apply newReceivedPacketTracker_inv|].
  destruct (tracker_ReceivedPacket_correct newReceivedPacketTracker 3 ECT0 7 true)
    as (_ & _ & _ & _ & _ & _ & H & _);
    [apply newReceivedPacketTracker_inv|vm_compute; intuition discriminate|lia|exact H].
Defined.

(** The operations between two ACKs. *)
Inductive tracker_op :=
  | TReceived (pn : Z) (ecn : ECN) (rcvTime : Z) (ackEliciting : bool)
  | TIgnoreBelow (pn : Z).

Definition tracker_do (h : receivedPacketTracker) (o : tracker_op) : receivedPacketTracker :=
  match o with
  | TReceived pn ecn t ae => (tracker_ReceivedPacket h pn ecn t ae).2
  | TIgnoreBelow pn => IgnoreBelow h pn
  end.

Definition tracker_op_valid (o : tracker_op) : Prop :=
  match o with
  | TReceived pn _ t _ => 0 <= pn <= maxPN /\ 0 < t
  | TIgnoreBelow _ => True
  end.

Lemma tracker_run_due d os : forall h,
  tracker_inv h -> ack_due d h -> Forall tracker_op_valid os ->
  tracker_inv (foldl tracker_do h os) /\ ack_due d (foldl tracker_do h os).
Proof.
  induction os as [|o os IH]; intros h Hi Hd Hv; [done|].
  inversion Hv as [|? ? Ho Hv']; subst. destruct o as [pn ecn t ae|pn]; cbn in *.
  - destruct (tracker_ReceivedPacket_spec h pn ecn t ae Hi) as (I & _ & _ & _ & D & _); [lia..|].
    by apply IH; auto.
  - by apply IH; auto using IgnoreBelow_inv, IgnoreBelow_due.
Qed.

(** Whenever a packet arrives, there are fewer ranges than the history can hold. *)
Fixpoint roomy (h : receivedPacketTracker) (os : list tracker_op) : Prop :=
  match os with
  | [] => True
  | o :: os' =>
      match o with TReceived _ _ _ _ => blen (ranges (packetHistory h)) < MaxNumAckRanges | TIgnoreBelow _ => True end /\
      roomy (tracker_do h o) os'
  end.

Lemma tracker_do_received h o p :
  tracker_inv h -> tracker_op_valid o -> roomy h [o] -> (forall n, o = TIgnoreBelow n -> n <= p) ->
  received (packetHistory h) p -> received (packetHistory (tracker_do h o)) p.
Proof.
  intros Hi Hv [Hr _] Hn Hp. destruct o as [pn ecn t ae|n]; cbn in *.
  - destruct (tracker_ReceivedPacket_spec h pn ecn t ae Hi) as (_ & _ & _ & -> & _); [lia..|]. pose proof (ti_hist _ Hi) as Hh.
    destruct (Z.lt_ge_cases pn (deletedBelow (packetHistory h))); [by rewrite history_ReceivedPacket_old|].
    destruct (history_ReceivedPacket_stored (packetHistory h) pn Hh ltac:(lia)) as [Hs|[Hs _]]; [apply Hs; by right|lia].
  - specialize (Hn n eq_refl). unfold IgnoreBelow. destruct (Z.leb_spec n (ignoreBelow h)); [done|]. pose proof (ti_ignore _ Hi).
    destruct (history_DeleteBelow_spec (packetHistory h) n (ti_hist _ Hi) ltac:(lia)) as (_ & _ & Hq).
    destruct h. cbn in *. apply Hq. by split.
Qed.

Lemma tracker_run_received p os : forall h,
  tracker_inv h -> Forall tracker_op_valid os -> roomy h os -> (forall n, TIgnoreBelow n ∈ os -> n <= p) ->
  received (packetHistory h) p -> received (packetHistory (foldl tracker_do h os)) p.
Proof.
  induction os as [|o os IH]; intros h Hi Hv Hr Hn Hp; [done|]. apply Forall_cons in Hv as [Ho Hv]. destruct Hr as [Hr1 Hr2].
  assert (Hi' : tracker_inv (tracker_do h o)).
  { destruct o as [pn ecn t ae|n]; cbn in *; [|by apply IgnoreBelow_inv].
    destruct (tracker_ReceivedPacket_spec h pn ecn t ae Hi) as (I & _); [lia..|done]. }
  apply IH; [done|done|done|intros n Hin; apply Hn; by right|].
  apply tracker_do_received; [done|done|by split|intros n ->; apply Hn; by left|done].
Qed.

(** C23: An ack-eliciting packet is acknowledged in time: whatever packets
    arrive after it, and whatever [IgnoreBelow] does, asking for a queued ACK at
    any time from [rcvTime + MaxAckDelay] on returns a frame, and that frame
    acknowledges exactly the packets in the history at that time.  The packet is
    among them, unless [IgnoreBelow] was called for a higher packet number, or a
    packet arrived while the history held all the ranges it can hold. *)
Theorem tracker_ack_deadline h pn ecn rcvTime os now :
  tracker_inv h -> Forall tracker_op_valid (TReceived pn ecn rcvTime true :: os) ->
  tracker_IsPotentiallyDuplicate h pn = false ->
  rcvTime + MaxAckDelay <= now ->
  let h' := foldl tracker_do h (TReceived pn ecn rcvTime true :: os) in
  exists ack, (tracker_GetAckFrame h' now true).2 = Some ack /\
    (forall q, acks ack q <-> received (packetHistory h') q) /\
    (roomy h (TReceived pn ecn rcvTime true :: os) -> (forall n, TIgnoreBelow n ∈ os -> n <= pn) -> acks ack pn).
Proof.
  intros Hi Hv Hnew Hnow h'. apply Forall_cons in Hv as [[Hpn Ht] Hv'].
  destruct (tracker_ReceivedPacket_spec h pn ecn rcvTime true Hi Hpn Ht)
    as (I & _ & _ & Hist & _ & D). pose proof Hnew as Hdup. rewrite Hnew in D. destruct D as [_ [D _]].
  destruct (tracker_run_due _ os _ I D Hv') as [I' [D1 D2]].
  change (foldl tracker_do _ os) with h' in I', D1, D2.
  destruct (tracker_GetAckFrame_cases h' now true) as [[_ Hs]|[Hn _]].
  - exists (fillAck h' now). split; [done|]. split; [intros q; apply append_ranges_mem|].
    intros [Hr1 Hr2] Hig. apply append_ranges_mem. apply (tracker_run_received pn os (tracker_do h (TReceived pn ecn rcvTime true))); try done.
    cbn. rewrite Hist. pose proof (ti_hist _ Hi) as Hh.
    assert (deletedBelow (packetHistory h) <= pn).
    { apply Z.nlt_ge. intros Hlt. assert (tracker_IsPotentiallyDuplicate h pn = true); [|congruence].
      apply history_IsPotentiallyDuplicate_spec; [done|by left]. }
    destruct (history_ReceivedPacket_stored (packetHistory h) pn Hh ltac:(lia)) as [Hst|[Hst _]]; [apply Hst; by left|lia].
  - destruct Hn. split; [done|]. destruct D2 as [?|[? ?]]; [by auto|]. right; right. lia.
Qed.

Lemma tracker_ack_deadline_witness :
  exists ack,
    (tracker_GetAckFrame
      (foldl tracker_do newReceivedPacketTracker
        [TReceived 3 ECT0 7 true; TReceived 1 ECNNon 9 false]) (7 + MaxAckDelay) true).2 = Some ack /\
    acks ack 3.
Proof.
  destruct (tracker_ack_deadline newReceivedPacketTracker 3 ECT0 7 [TReceived 1 ECNNon 9 false]
    (7 + MaxAckDelay)) as (ack & H1 & _ & H2).
  - apply newReceivedPacketTracker_inv.
  - repeat constructor; vm_compute; intuition discriminate.
  - reflexivity.
  - lia.
  - exists ack. split; [exact H1|]. apply H2.
    + vm_compute. auto.
    + intros n Hn. apply list_elem_of_singleton in Hn. discriminate Hn.
Defined.

(** [GetAckFrame] returns a frame exactly when a new ack-eliciting packet
    has arrived and, if asked for a queued ACK only, an ACK is queued or its
    alarm has expired.  The frame can be serialized ([ack_wf]) and acknowledges
    exactly the packets of the history; the pending flags and the alarm are
    cleared, so a second call returns nothing. *)
Theorem tracker_GetAckFrame_correct h now onlyIfQueued :
  tracker_inv h -> ack_ready h ->
  is_varint (ect0 h) -> is_varint (ect1 h) -> is_varint (ecnce h) ->
  let '(h', r) := tracker_GetAckFrame h now onlyIfQueued in
  tracker_inv h' /\ ack_ready h' /\
  (is_Some r <-> ack_sendable h now onlyIfQueued) /\
  (r = None -> h' = h) /\
  forall ack, r = Some ack ->
    ack_wf ack /\ (forall q, acks ack q <-> received (packetHistory h) q) /\
    lastAck h' = Some ack /\ tracker_GetAlarmTimeout h' = zeroTime /\
    (tracker_GetAckFrame h' now false).2 = None.
Proof.
  intros Hi Hr He0 He1 Hce. pose proof (tracker_GetAckFrame_inv h now onlyIfQueued Hi Hr) as [I R].
  destruct (tracker_GetAckFrame_cases h now onlyIfQueued) as [[Hs He]|[Hs He]].
  - destruct (fillAck_spec h now (ti_hist _ Hi) (Hr (proj1 Hs))) as (F1 & F2 & F3 & F4).
    pose proof He as He'. unfold tracker_GetAckFrame in He'. destruct (tracker_GetAckFrame h now onlyIfQueued) as [h' r] eqn:E.
    cbn in He, I, R. subst r. split_and!; [done|done|done|done|].
    intros ack [= <-]. split_and!; try done. all: unfold tracker_GetAckFrame in E; revert E.
    all: repeat case_match; try done; intros [= <-]; by destruct h.
  - rewrite He in *. split_and!; try done.
Qed.

Lemma tracker_GetAckFrame_correct_witness :
  let h := (tracker_ReceivedPacket newReceivedPacketTracker 3 ECT0 7 true).2 in
  tracker_inv h /\ ack_ready h /\ ack_sendable h 10 true /\
  is_Some (tracker_GetAckFrame h 10 true).2.
Proof.
  intros h.
  assert (Hi : tracker_inv h /\ ack_ready h).
  { destruct (tracker_ReceivedPacket_spec newReceivedPacketTracker 3 ECT0 7 true) as (H1 & H2 & _);
      [apply newReceivedPacketTracker_inv|vm_compute; intuition discriminate|lia|].
    split; [exact H1|]. apply H2, newReceivedPacketTracker_inv. }
  assert (Hs : ack_sendable h 10 true) by (split; [reflexivity|right; left; reflexivity]).
  pose proof (tracker_GetAckFrame_correct h 10 true (proj1 Hi) (proj2 Hi)
    ltac:(by vm_compute) ltac:(by vm_compute) ltac:(by vm_compute)) as H.
  destruct (tracker_GetAckFrame h 10 true) as [h' r]. destruct H as (_ & _ & H & _).
  split; [apply Hi|]. split; [apply Hi|]. split; [exact Hs|]. by apply H.
Defined.

(** ** The handler *)

Definition register1RTT (lowestNotConfirmed pn rcvTime : Z) (h : receivedPacketHandler)
    : receivedPacketHandler :=
  (rhandler_registerPacket h lowestNotConfirmed pn ECNNon Encryption1RTT rcvTime true).2.

(** [ack_ready] is not maintained by the 1-RTT branch of the handler,
    which calls [IgnoreBelow] after queueing an ACK.  A peer that sends packet
    100, receives its acknowledgement, and then sends packet 50 with an ACK frame
    that confirms it (so that [GetLowestPacketNotConfirmedAcked] is 101) leaves
    the handler with a queued ACK and an empty history: [GetAckFrame] returns a
    frame without ranges, and computing the length of that frame panics. *)
Theorem handler_empty_ack_frame :
  let h1 := register1RTT 0 100 1000 newReceivedPacketHandler in
  let '(h2, sent) := rhandler_GetAckFrame h1 Encryption1RTT 1000 true in
  let h3 := register1RTT 101 50 2000 h2 in
  let ack := (rhandler_GetAckFrame h3 Encryption1RTT 2000 true).2 in
  rhandler_IsPotentiallyDuplicate h2 50 Encryption1RTT = Ok false /\
  (AckRanges <$> sent) = Some [mkAckRange 100 100] /\
  (AckRanges <$> ack) = Some [] /\
  (AckFrame_Length <$> ack) = Some (Panic "index out of range").
Proof. vm_compute. done. Qed.

(** The invariant of the handler: that of each packet number space. *)
Definition rhandler_inv (h : receivedPacketHandler) : Prop :=
  (forall t, initialPackets h = Some t -> tracker_inv t /\ ack_ready t) /\
  (forall t, handshakePackets h = Some t -> tracker_inv t /\ ack_ready t) /\
  tracker_inv (appDataPackets h).

Lemma newReceivedPacketHandler_inv : rhandler_inv newReceivedPacketHandler.
Proof.
  split_and!; cbn; try (intros t [= <-]); apply newReceivedPacketTracker_inv.
Qed.

Lemma tracker_ReceivedPacket_keeps t pn ecn rcvTime ae r t' :
  tracker_ReceivedPacket t pn ecn rcvTime ae = (r, t') ->
  tracker_inv t -> 0 <= pn <= maxPN -> 0 < rcvTime ->
  no_panic r /\ tracker_inv t' /\ (ack_ready t -> ack_ready t').
Proof.
  intros E Hi Hp Ht. destruct (tracker_ReceivedPacket_spec t pn ecn rcvTime ae Hi Hp Ht)
    as (H1 & H2 & _ & _ & _ & H3). rewrite E in *. cbn in *.
  split; [|done]. intros s ->. case_match; [done|]. by destruct H3.
Qed.

Lemma rhandler_registerPacket_inv h lowest pn ecn encLevel rcvTime ae :
  rhandler_inv h -> 0 <= pn <= maxPN -> 0 < rcvTime ->
  (encLevel = EncryptionInitial -> is_Some (initialPackets h)) ->
  let '(r, h') := rhandler_registerPacket h lowest pn ecn encLevel rcvTime ae in
  no_panic r /\ rhandler_inv h'.
Proof.
  intros (HI & HH & HA) Hp Ht Hn. unfold rhandler_registerPacket.
  destruct encLevel.
  - destruct (initialPackets h) as [t|]; [|by destruct (Hn eq_refl)].
    destruct (HI t eq_refl) as [Hi Hr].
    destruct (tracker_ReceivedPacket t pn ecn rcvTime ae) as [r t'] eqn:E.
    destruct (tracker_ReceivedPacket_keeps _ _ _ _ _ _ _ E Hi Hp Ht) as (N & I & R).
    split; [done|]. split_and!; cbn; try done. intros ? [= <-]. auto.
  - destruct (handshakePackets h) as [t|] eqn:Eh; [|split; [done|by split_and!; rewrite ?Eh]].
    destruct (HH t eq_refl) as [Hi Hr].
    destruct (tracker_ReceivedPacket t pn ecn rcvTime ae) as [r t'] eqn:E.
    destruct (tracker_ReceivedPacket_keeps _ _ _ _ _ _ _ E Hi Hp Ht) as (N & I & R).
    split; [done|]. split_and!; cbn; try done. intros ? [= <-]. auto.
  - destruct (negb _ && _); [split; [done|by split_and!]|].
    destruct (tracker_ReceivedPacket (appDataPackets h) pn ecn rcvTime ae) as [r t'] eqn:E.
    destruct (tracker_ReceivedPacket_keeps _ _ _ _ _ _ _ E HA Hp Ht) as (N & I & R).
    split; [done|]. by split_and!.
  - set (h1 := if _ || _ then _ else _).
    assert (rhandler_inv h1) as (HI1 & HH1 & HA1) by (subst h1; case_match; by split_and!).
    destruct (tracker_ReceivedPacket (appDataPackets h1) pn ecn rcvTime ae) as [r t'] eqn:E.
    destruct (tracker_ReceivedPacket_keeps _ _ _ _ _ _ _ E HA1 Hp Ht) as (N & I & R).
    destruct r; split; try done; split_and!; try done. by apply IgnoreBelow_inv.
Qed.
