(* ===== verification/SentHistory.v ===== *)
(** * SentHistory: [internal/ackhandler/sent_packet_history.go], [packet.go],
    [frame.go]

    The slice of tracked packets, indexed by packet number from the first one,
    with [nil] entries for packets that are not tracked (any more).

    Packets are pointers in the code.  Every write through a packet pointer
    ([removeFromBytesInFlight], [queueFramesForRetransmission]) happens to a
    packet that is no longer, or not any longer, reachable from a history, so
    packets are modelled by value.  Frames and frame handlers are interface
    values; the model keeps their identity. *)

From S2P Require Import Prelude Protocol.
From stdpp Require Import base numbers list option strings.
From Stdlib Require Import ZArith Lia.
#[local] Open Scope Z_scope.

(** A frame and its handler ([nil] or not), by identity. *)
Record Frame := mkFrame { FrameId : Z; Handler : option Z }.

Record packet := mkPacket {
  SendTime : Z;
  PacketNumber : Z;
  StreamFrames : list Frame;
  Frames : list Frame;
  pLargestAcked : Z;
  pLength : Z;
  pEncryptionLevel : EncryptionLevel;
  IsPathMTUProbePacket : bool;
  includedInBytesInFlight : bool;
  declaredLost : bool;
  skippedPacket : bool
}.

#[export] Instance Frame_eq_dec : EqDecision Frame.
Proof. solve_decision. Defined.
#[export] Instance packet_eq_dec : EqDecision packet.
Proof. solve_decision. Defined.

Definition outstanding (p : packet) : bool :=
  negb (declaredLost p) && negb (skippedPacket p) && negb (IsPathMTUProbePacket p).

(** What [SkippedPacket] stores. *)
Definition newSkippedPacket (pn : Z) : packet :=
  mkPacket zeroTime pn [] [] 0 0 EncryptionInitial false false false true.

Record sentPacketHistory := mkSentHistory {
  packets : list (option packet);
  numOutstanding : Z;
  highestPacketNumber : Z
}.

Definition newSentPacketHistory : sentPacketHistory :=
  mkSentHistory [] 0 InvalidPacketNumber.

Definition nilPacket {A} : res A := Panic "nil pointer dereference".

Definition checkSequentialPacketNumberUse (h : sentPacketHistory) (pn : Z) : res unit :=
  if negb (highestPacketNumber h =? InvalidPacketNumber)
     && negb (pn =? i64 (highestPacketNumber h + 1))
  then Panic "non-sequential packet number use"
  else Ok tt.

Definition SkippedPacket (h : sentPacketHistory) (pn : Z) : res sentPacketHistory :=
  _ ← checkSequentialPacketNumberUse h pn;
  Ok (mkSentHistory (packets h ++ [Some (newSkippedPacket pn)]) (numOutstanding h) pn).

Definition SentNonAckElicitingPacket (h : sentPacketHistory) (pn : Z) : res sentPacketHistory :=
  _ ← checkSequentialPacketNumberUse h pn;
  Ok (mkSentHistory (if 0 <? blen (packets h) then packets h ++ [None] else packets h)
        (numOutstanding h) pn).

Definition SentAckElicitingPacket (h : sentPacketHistory) (p : packet) : res sentPacketHistory :=
  _ ← checkSequentialPacketNumberUse h (PacketNumber p);
  Ok (mkSentHistory (packets h ++ [Some p])
        (if outstanding p then i64 (numOutstanding h + 1) else numOutstanding h)
        (PacketNumber p)).

(** [Iterate] with a callback that works on a state and says whether to
    continue.  The callback sees the packets that were in the slice when the
    iteration started: the callbacks of the handler only clear the entry they are
    called for, and entries before it. *)
Fixpoint Iterate_loop {S} (cb : packet -> stM S bool) (ps : list (option packet)) : stM S unit :=
  match ps with
  | [] => mret tt
  | None :: ps' => Iterate_loop cb ps'
  | Some p :: ps' =>
      cont ← cb p;
      if cont : bool then Iterate_loop cb ps' else mret tt
  end.

Definition Iterate {S} (h : sentPacketHistory) (cb : packet -> stM S bool) : stM S unit :=
  Iterate_loop cb (packets h).

Definition HasOutstandingPackets (h : sentPacketHistory) : bool := 0 <? numOutstanding h.

Fixpoint firstOutstandingIn (ps : list (option packet)) : option packet :=
  match ps with
  | [] => None
  | Some p :: ps' => if outstanding p then Some p else firstOutstandingIn ps'
  | None :: ps' => firstOutstandingIn ps'
  end.

Definition FirstOutstanding (h : sentPacketHistory) : option packet :=
  if negb (HasOutstandingPackets h) then None else firstOutstandingIn (packets h).

Definition history_Len (h : sentPacketHistory) : Z := blen (packets h).

(** The index and whether it is in the slice. *)
Definition getIndex (h : sentPacketHistory) (p : Z) : res (Z * bool) :=
  match packets h with
  | [] => Ok (0, false)
  | None :: _ => nilPacket
  | Some p0 :: _ =>
      let first := PacketNumber p0 in
      if p <? first then Ok (0, false)
      else
        let index := i64 (p - first) in
        if blen (packets h) - 1 <? index then Ok (0, false) else Ok (index, true)
  end.

(** [cleanupStart] on the slice. *)
Fixpoint cleanupStart (ps : list (option packet)) : list (option packet) :=
  match ps with
  | None :: ps' => cleanupStart ps'
  | _ => ps
  end.

Definition decOutstanding (h : sentPacketHistory) (p : packet) : res Z :=
  if outstanding p then
    let n := i64 (numOutstanding h - 1) in
    if n <? 0 then Panic "negative number of outstanding packets" else Ok n
  else Ok (numOutstanding h).

(** The loop of [Remove] that clears the skipped packets directly before
    [idx]; returns the index at which it stops. *)
Fixpoint clearSkipped (idx : nat) (ps : list (option packet)) : list (option packet) * nat :=
  match idx with
  | O => (ps, O)
  | S i =>
      match ps !! i with
      | Some (Some p) => if skippedPacket p then clearSkipped i (<[i:=None]> ps) else (ps, i)
      | _ => (ps, i)
      end
  end.

Definition errNotFound : GoError := ErrorString "packet %d not found in sent packet history".

Definition history_Remove (h : sentPacketHistory) (pn : Z) : res sentPacketHistory :=
  '(idx, ok) ← getIndex h pn;
  if negb ok then Err errNotFound else
  match packets h !! Z.to_nat idx with
  | Some (Some p) =>
      n ← decOutstanding h p;
      let ps := <[Z.to_nat idx := None]> (packets h) in
      let '(ps, idx) := clearSkipped (Z.to_nat idx) ps in
      let ps := if (idx =? 0)%nat then cleanupStart ps else ps in
      match ps with
      | None :: _ => Panic "remove failed"
      | _ => Ok (mkSentHistory ps n (highestPacketNumber h))
      end
  | Some None => nilPacket
  | None => Panic "index out of range"
  end.

Definition LowestPacketNumber (h : sentPacketHistory) : res Z :=
  match packets h with
  | [] => Ok InvalidPacketNumber
  | Some p :: _ => Ok (PacketNumber p)
  | None :: _ => nilPacket
  end.

Definition DeclareLost (h : sentPacketHistory) (pn : Z) : res sentPacketHistory :=
  '(idx, ok) ← getIndex h pn;
  if negb ok then Ok h else
  match packets h !! Z.to_nat idx with
  | Some (Some p) =>
      n ← decOutstanding h p;
      let ps := <[Z.to_nat idx := None]> (packets h) in
      Ok (mkSentHistory (if idx =? 0 then cleanupStart ps else ps) n (highestPacketNumber h))
  | Some None => nilPacket
  | None => Panic "index out of range"
  end.

(** ** Abstract view and invariant *)

(** [p] is tracked. *)
Definition tracked (h : sentPacketHistory) (p : packet) : Prop := Some p ∈ packets h.

Fixpoint count_outstanding (ps : list (option packet)) : Z :=
  match ps with
  | [] => 0
  | o :: ps' => (if from_option outstanding false o then 1 else 0) + count_outstanding ps'
  end.

(** Entry [i] holds packet number [n + i]. *)
Definition numbered (n : Z) (ps : list (option packet)) : Prop :=
  forall i p, ps !! i = Some (Some p) -> PacketNumber p = n + Z.of_nat i.

Definition starts_tracked (ps : list (option packet)) : Prop := head ps <> Some None.

Record shist_inv (h : sentPacketHistory) : Prop := {
  si_start : starts_tracked (packets h);
  si_num : exists n, 0 <= n /\ numbered n (packets h) /\
    (packets h <> [] -> highestPacketNumber h = n + blen (packets h) - 1);
  si_count : numOutstanding h = count_outstanding (packets h);
  si_high : -1 <= highestPacketNumber h <= 2 ^ 62
}.

Lemma newSentPacketHistory_inv : shist_inv newSentPacketHistory.
Proof.
  constructor; cbn; [done| |done|unfold InvalidPacketNumber; lia]. exists 0. split_and!; [lia| |done].
  intros i p Hi. by rewrite lookup_nil in Hi.
Qed.

Lemma count_outstanding_bounds ps : 0 <= count_outstanding ps <= blen ps.
Proof.
  induction ps as [|o ps IH]; [done|]. rewrite blen_cons. cbn.
  destruct o as [p|]; cbn; [destruct (outstanding p)|]; lia.
Qed.

Lemma count_outstanding_app ps qs :
  count_outstanding (ps ++ qs) = count_outstanding ps + count_outstanding qs.
Proof. induction ps as [|o ps IH]; cbn; lia. Qed.

Lemma count_outstanding_insert ps i p :
  ps !! i = Some (Some p) ->
  count_outstanding (<[i:=None]> ps) = count_outstanding ps - (if outstanding p then 1 else 0).
Proof.
  revert i. induction ps as [|o ps IH]; intros [|i] Hi; try done; cbn in *.
  - injection Hi as ->. cbn. lia.
  - rewrite IH by done. lia.
Qed.

Lemma numbered_insert n ps i : numbered n ps -> numbered n (<[i:=None]> ps).
Proof.
  intros Hn j p Hj. apply Hn. destruct (decide (i = j)) as [->|].
  - destruct (decide (j < length ps)%nat).
    + rewrite list_lookup_insert_eq in Hj by done. done.
    + rewrite list_insert_ge in Hj by lia. done.
  - by rewrite list_lookup_insert_ne in Hj.
Qed.

Lemma numbered_snoc n ps o :
  numbered n ps -> (forall p, o = Some p -> PacketNumber p = n + blen ps) ->
  numbered n (ps ++ [o]).
Proof.
  intros Hn Ho i p Hi. apply lookup_app_Some in Hi as [Hi|[Hlen Hi]]; [by apply Hn|].
  apply list_lookup_singleton_Some in Hi as [Hi ->]. rewrite (Ho p eq_refl). unfold blen. lia.
Qed.

Lemma elem_insert_None ps i p q n :
  numbered n ps -> ps !! i = Some (Some p) ->
  Some q ∈ <[i:=None]> ps <-> Some q ∈ ps /\ PacketNumber q <> PacketNumber p.
Proof.
  intros Hn Hi. rewrite !list_elem_of_lookup. split.
  - intros [j Hj]. destruct (decide (i = j)) as [->|].
    + rewrite list_lookup_insert_eq in Hj by (by eapply lookup_lt_Some). done.
    + rewrite list_lookup_insert_ne in Hj by done. split; [by exists j|].
      rewrite (Hn _ _ Hj), (Hn _ _ Hi). lia.
  - intros [[j Hj] Hne]. exists j. rewrite list_lookup_insert_ne; [done|].
    intros ->. by rewrite Hi in Hj; injection Hj as ->.
Qed.

Lemma elem_insert_sub (ps : list (option packet)) (i : nat) (q : packet) : Some q ∈ <[i:=None]> ps -> Some q ∈ ps.
Proof.
  intros [j Hj]%list_elem_of_lookup. apply list_elem_of_lookup. exists j.
  destruct (decide (i = j)) as [->|]; [|by rewrite list_lookup_insert_ne in Hj].
  destruct (decide (j < length ps)%nat).
  - rewrite list_lookup_insert_eq in Hj by done. done.
  - by rewrite list_insert_ge in Hj by lia.
Qed.

(** [cleanupStart] drops a prefix of empty entries. *)
Lemma cleanupStart_drop ps :
  exists k, cleanupStart ps = drop k ps /\ (k <= length ps)%nat /\
    count_outstanding (cleanupStart ps) = count_outstanding ps /\
    starts_tracked (cleanupStart ps) /\
    forall q, Some q ∈ cleanupStart ps <-> Some q ∈ ps.
Proof.
  induction ps as [|[p|] ps IH].
  - exists 0%nat. done.
  - exists 0%nat. split_and!; cbn; try done. lia.
  - destruct IH as (k & H1 & H2 & H3 & H4 & H5). exists (S k). cbn.
    split_and!; [done|lia|lia|done|]. intros q. rewrite H5. rewrite elem_of_cons. naive_solver.
Qed.

(** Dropping a prefix of the slice keeps the numbering. *)
Lemma numbered_drop n ps k : numbered n ps -> numbered (n + Z.of_nat k) (drop k ps).
Proof. intros Hn i p Hi. rewrite lookup_drop in Hi. rewrite (Hn _ _ Hi). lia. Qed.

(** ** Appending *)

Lemma checkSequential_ok h pn :
  shist_inv h -> 0 <= pn -> checkSequentialPacketNumberUse h pn = Ok tt <->
  (highestPacketNumber h = -1 \/ pn = highestPacketNumber h + 1).
Proof.
  intros Hi Hpn. pose proof (si_high _ Hi).
  unfold checkSequentialPacketNumberUse, InvalidPacketNumber.
  rewrite i64_small by int_range.
  destruct (Z.eqb_spec (highestPacketNumber h) (-1)), (Z.eqb_spec pn (highestPacketNumber h + 1));
    cbn; intuition congruence.
Qed.

(** The next packet number [pn] that a caller may use. *)
Definition next_pn (h : sentPacketHistory) (pn : Z) : Prop :=
  0 <= pn <= 2 ^ 62 /\ (highestPacketNumber h = -1 \/ pn = highestPacketNumber h + 1).

(** Appending an entry for the next packet number keeps the invariant. *)
Lemma append_inv h o pn n' :
  shist_inv h -> next_pn h pn ->
  (forall p, o = Some p -> PacketNumber p = pn) ->
  (packets h = [] -> is_Some o) ->
  n' = numOutstanding h + (if from_option outstanding false o then 1 else 0) ->
  shist_inv (mkSentHistory (packets h ++ [o]) n' pn).
Proof.
  intros [I1 (n & Hn & I2 & I3) I4 I5] [Hpn Hseq] Ho Hne ->.
  assert (Hbase : packets h = [] \/ pn = n + blen (packets h)).
  { destruct (packets h) as [|o0 ps0] eqn:E; [by left|]. right.
    specialize (I3 ltac:(done)). pose proof (blen_nonneg ps0). rewrite blen_cons in *.
    destruct Hseq as [?|?]; lia. }
  constructor; cbn [packets numOutstanding highestPacketNumber].
  - unfold starts_tracked in *. destruct (packets h); cbn in *; [|done].
    destruct (Hne eq_refl) as [p ->]. done.
  - destruct Hbase as [E|Hbase].
    + exists pn. rewrite E. cbn. split_and!; [lia| |unfold blen; cbn; lia].
      intros [|i] p Hi; cbn in Hi; [|by destruct i]. injection Hi as Hi. rewrite (Ho p Hi). lia.
    + exists n. split_and!; [lia| |intros _; rewrite blen_app, blen_cons, blen_nil; lia].
      apply numbered_snoc; [done|]. intros p Hp. rewrite (Ho p Hp). lia.
  - rewrite count_outstanding_app, I4. cbn. lia.
  - lia.
Qed.

Lemma packets_length_bound h : shist_inv h -> blen (packets h) <= 2 ^ 62 + 1.
Proof.
  intros [_ (n & Hn & _ & H) _ Hh]. destruct (packets h) eqn:E; [unfold blen; cbn; lia|].
  specialize (H ltac:(done)). lia.
Qed.

Lemma SentAckElicitingPacket_spec h p :
  shist_inv h -> next_pn h (PacketNumber p) ->
  exists h', SentAckElicitingPacket h p = Ok h' /\ shist_inv h' /\
    highestPacketNumber h' = PacketNumber p /\
    forall q, tracked h' q <-> q = p \/ tracked h q.
Proof.
  intros Hi Hp. unfold SentAckElicitingPacket.
  rewrite (proj2 (checkSequential_ok h _ Hi (proj1 (proj1 Hp)))) by apply Hp. cbn.
  pose proof (packets_length_bound h Hi). pose proof (count_outstanding_bounds (packets h)).
  rewrite i64_small by (rewrite (si_count _ Hi); int_range).
  eexists. split; [reflexivity|]. split_and!; [|done|].
  - apply append_inv; try done; [naive_solver|]. cbn. destruct (outstanding p); lia.
  - intros q. unfold tracked; cbn. rewrite elem_of_app, list_elem_of_singleton. naive_solver.
Qed.

Lemma SkippedPacket_spec h pn :
  shist_inv h -> next_pn h pn ->
  exists h', SkippedPacket h pn = Ok h' /\ shist_inv h' /\ highestPacketNumber h' = pn /\
    numOutstanding h' = numOutstanding h /\
    forall q, tracked h' q <-> q = newSkippedPacket pn \/ tracked h q.
Proof.
  intros Hi Hp. unfold SkippedPacket.
  rewrite (proj2 (checkSequential_ok h _ Hi (proj1 (proj1 Hp)))) by apply Hp. cbn.
  eexists. split; [reflexivity|]. split_and!; try done.
  - apply append_inv; try done; [naive_solver|]. cbn. lia.
  - intros q. unfold tracked; cbn. rewrite elem_of_app, list_elem_of_singleton. naive_solver.
Qed.

Lemma SentNonAckElicitingPacket_spec h pn :
  shist_inv h -> next_pn h pn ->
  exists h', SentNonAckElicitingPacket h pn = Ok h' /\ shist_inv h' /\
    highestPacketNumber h' = pn /\ numOutstanding h' = numOutstanding h /\
    forall q, tracked h' q <-> tracked h q.
Proof.
  intros Hi Hp. unfold SentNonAckElicitingPacket.
  rewrite (proj2 (checkSequential_ok h _ Hi (proj1 (proj1 Hp)))) by apply Hp. cbn.
  eexists. split; [reflexivity|]. destruct (Z.ltb_spec 0 (blen (packets h))) as [Hl|Hl].
  - split_and!; try done.
    + apply append_inv; try done. { intros E. by rewrite E in Hl. } cbn. lia.
    + intros q. unfold tracked; cbn. rewrite elem_of_app, list_elem_of_singleton. naive_solver.
  - assert (packets h = []) as E.
    { destruct (packets h) as [|o ps]; [done|]. rewrite blen_cons in Hl.
      pose proof (blen_nonneg ps). lia. }
    split_and!; try done. destruct Hi as [I1 (n & Hn & I2 & I3) I4 I5].
    constructor; cbn; try done; [|destruct Hp; lia]. exists n. split_and!; done.
Qed.

(** ** Removing *)

Lemma getIndex_tracked h p :
  shist_inv h -> tracked h p ->
  exists i, getIndex h (PacketNumber p) = Ok (Z.of_nat i, true) /\
    packets h !! i = Some (Some p).
Proof.
  intros [I1 (n & Hn & I2 & I3) I4 I5] Ht. unfold tracked in Ht.
  apply list_elem_of_lookup in Ht as [i Hi]. exists i. split; [|done].
  pose proof (I2 _ _ Hi) as Hp. pose proof (lookup_lt_Some _ _ _ Hi) as Hlt.
  unfold getIndex. destruct (packets h) as [|[p0|] ps] eqn:E; [done| |done].
  pose proof (I2 0%nat p0 eq_refl) as Hp0. specialize (I3 ltac:(done)).
  rewrite Hp, Hp0. zfalse (n + Z.of_nat i <? n + Z.of_nat 0).
  rewrite i64_small by (unfold blen in *; int_range).
  assert (Z.of_nat i < blen (Some p0 :: ps)) by (unfold blen; lia).
  zfalse (blen (Some p0 :: ps) - 1 <? n + Z.of_nat i - (n + Z.of_nat 0)).
  repeat f_equal. lia.
Qed.

Lemma decOutstanding_ok h i p :
  shist_inv h -> packets h !! i = Some (Some p) ->
  decOutstanding h p = Ok (count_outstanding (<[i:=None]> (packets h))).
Proof.
  intros Hi Hl. unfold decOutstanding. rewrite (si_count _ Hi).
  pose proof (count_outstanding_insert _ _ _ Hl) as Hc.
  pose proof (count_outstanding_bounds (<[i:=None]> (packets h))).
  pose proof (count_outstanding_bounds (packets h)). pose proof (packets_length_bound h Hi).
  rewrite Hc. destruct (outstanding p); [|f_equal; lia].
  rewrite i64_small by int_range. by zfalse (count_outstanding (packets h) - 1 <? 0).
Qed.

(** The slice after [ps], cleaned up at the start or not, satisfies the
    invariant with the same highest packet number. *)
Lemma cleaned_inv h ps (c : bool) :
  shist_inv h -> length ps = length (packets h) ->
  (forall n, numbered n (packets h) -> numbered n ps) ->
  (c = false -> starts_tracked ps) ->
  let ps' := if c then cleanupStart ps else ps in
  shist_inv (mkSentHistory ps' (count_outstanding ps) (highestPacketNumber h)) /\
  forall q, Some q ∈ ps' <-> Some q ∈ ps.
Proof.
  intros [I1 (n & Hn & I2 & I3) I4 I5] Hlen Hnum Hc ps'.
  destruct (cleanupStart_drop ps) as (k & D1 & D2 & D3 & D4 & D5).
  split; [|subst ps'; destruct c; [done|done]].
  assert (packets h <> [] \/ ps = []) as Hps.
  { destruct (packets h); [right; by destruct ps|by left]. }
  subst ps'. destruct c; constructor; cbn; try done; auto.
  - exists (n + Z.of_nat k). rewrite D1. split_and!; [lia|by apply numbered_drop, Hnum|].
    intros Hne. destruct Hps as [Hps| ->]; [|by rewrite drop_nil in Hne]. rewrite (I3 Hps).
    unfold blen. rewrite length_drop, Hlen. rewrite Hlen in D2. lia.
  - exists n. split_and!; [lia|by apply Hnum|]. intros Hne.
    destruct Hps as [Hps| ->]; [|done]. rewrite (I3 Hps). unfold blen. by rewrite Hlen.
Qed.

Lemma DeclareLost_spec h p :
  shist_inv h -> tracked h p ->
  exists h', DeclareLost h (PacketNumber p) = Ok h' /\ shist_inv h' /\
    highestPacketNumber h' = highestPacketNumber h /\
    numOutstanding h' = numOutstanding h - (if outstanding p then 1 else 0) /\
    forall q, tracked h' q <-> tracked h q /\ PacketNumber q <> PacketNumber p.
Proof.
  intros Hi Ht. destruct (getIndex_tracked h p Hi Ht) as (i & Hg & Hl).
  unfold DeclareLost. rewrite Hg. cbn. rewrite Nat2Z.id, Hl.
  rewrite (decOutstanding_ok h i p Hi Hl). cbn.
  destruct (si_num _ Hi) as (n & _ & Hn & _).
  destruct (cleaned_inv h (<[i:=None]> (packets h)) (Z.of_nat i =? 0) Hi) as [H1 H2].
  - by rewrite length_insert.
  - intros m Hm. by apply numbered_insert.
  - intros Hz. pose proof (si_start _ Hi) as Hs. unfold starts_tracked in *.
    destruct i; [done|]. by destruct (packets h).
  - eexists. split; [reflexivity|]. split_and!; [done|done| |].
    + cbn. rewrite (si_count _ Hi). by apply count_outstanding_insert.
    + intros q. unfold tracked; cbn. rewrite H2. by apply (elem_insert_None _ _ _ _ _ Hn).
Qed.

(** The entries the loop of [Remove] clears are skipped packets before [idx]. *)
Lemma clearSkipped_spec idx : forall ps n,
  numbered n ps -> (idx <= length ps)%nat ->
  let '(ps', r) := clearSkipped idx ps in
  length ps' = length ps /\ (forall m, numbered m ps -> numbered m ps') /\
  count_outstanding ps' = count_outstanding ps /\ (r <= idx)%nat /\
  ((0 < r)%nat -> head ps' = head ps) /\
  (forall q, Some q ∈ ps' -> Some q ∈ ps) /\
  (forall q, Some q ∈ ps -> Some q ∈ ps' \/
     (skippedPacket q = true /\ PacketNumber q < n + Z.of_nat idx)).
Proof.
  induction idx as [|i IH]; intros ps n Hn Hle; cbn; [split_and!; auto|].
  destruct (ps !! i) as [[p|]|] eqn:E; try (split_and!; auto).
  destruct (skippedPacket p) eqn:Es; [|split_and!; auto].
  specialize (IH (<[i:=None]> ps) n (numbered_insert _ _ _ Hn)).
  rewrite length_insert in IH. specialize (IH ltac:(lia)).
  destruct (clearSkipped i (<[i:=None]> ps)) as [ps' r].
  destruct IH as (H1 & H2 & H3 & H4 & H5 & H6 & H7).
  pose proof (elem_insert_None ps i p) as He.
  split_and!; [done| | |lia| | |].
  - intros m Hm. apply H2. by apply numbered_insert.
  - rewrite H3, (count_outstanding_insert _ _ _ E). unfold outstanding. rewrite Es.
    rewrite andb_false_r. cbn. lia.
  - intros Hr. rewrite H5 by done. destruct i; [lia|]. by destruct ps.
  - intros q Hq. apply H6 in Hq. by apply (He q n Hn E) in Hq as [? _].
  - intros q Hq. destruct (decide (PacketNumber q = PacketNumber p)) as [Heq|Hne].
    + right. apply list_elem_of_lookup in Hq as [j Hj].
      pose proof (Hn _ _ Hj) as Hq'. pose proof (Hn _ _ E) as Hp'.
      assert (j = i) as -> by lia. rewrite E in Hj. injection Hj as <-. split; [done|lia].
    + destruct (H7 q) as [?|[? ?]]; [by apply (He q n Hn E)|by left|]. right. split; [done|lia].
Qed.

Lemma history_Remove_spec h p :
  shist_inv h -> tracked h p ->
  exists h', history_Remove h (PacketNumber p) = Ok h' /\ shist_inv h' /\
    highestPacketNumber h' = highestPacketNumber h /\
    numOutstanding h' = numOutstanding h - (if outstanding p then 1 else 0) /\
    (forall q, tracked h' q -> tracked h q /\ PacketNumber q <> PacketNumber p) /\
    (forall q, tracked h q -> PacketNumber q <> PacketNumber p ->
       tracked h' q \/ (skippedPacket q = true /\ PacketNumber q < PacketNumber p)).
Proof.
  intros Hi Ht. destruct (getIndex_tracked h p Hi Ht) as (i & Hg & Hl).
  unfold history_Remove. rewrite Hg. cbn [mbind res_bind negb]. rewrite Nat2Z.id, Hl.
  rewrite (decOutstanding_ok h i p Hi Hl). cbn [mbind res_bind].
  destruct (si_num _ Hi) as (n & _ & Hn & _). pose proof (lookup_lt_Some _ _ _ Hl) as Hlt.
  pose proof (clearSkipped_spec i (<[i:=None]> (packets h)) n (numbered_insert _ _ _ Hn)) as Hc.
  rewrite length_insert in Hc. specialize (Hc ltac:(lia)).
  destruct (clearSkipped i (<[i:=None]> (packets h))) as [ps r].
  destruct Hc as (C1 & C2 & C3 & C4 & C5 & C6 & C7). rewrite <- C3.
  pose proof (elem_insert_None (packets h) i p) as He.
  destruct (cleaned_inv h ps (r =? 0)%nat Hi) as [H1 H2]; [done| | |].
  { intros m Hm. by apply C2, numbered_insert. }
  { intros Hz%Nat.eqb_neq. pose proof (si_start _ Hi) as Hs. unfold starts_tracked in *.
    rewrite C5 by lia. destruct i; [lia|]. by destruct (packets h). }
  set (ps' := if (r =? 0)%nat then cleanupStart ps else ps) in *.
  exists (mkSentHistory ps' (count_outstanding ps) (highestPacketNumber h)).
  split. { pose proof (si_start _ H1) as Hs. unfold starts_tracked in Hs; cbn in Hs.
    destruct ps' as [|[]]; done. }
  split_and!; [done|done| | |]; cbn.
  - rewrite C3, (si_count _ Hi). by apply count_outstanding_insert.
  - intros q Hq. apply H2, C6 in Hq. by apply (He q n Hn Hl) in Hq.
  - intros q Hq Hne. destruct (C7 q) as [?|[? ?]]; [by apply (He q n Hn Hl)|left; by apply H2|].
    right. rewrite (Hn _ _ Hl). auto.
Qed.

(** ** Sums over the tracked packets

    [sumw w] adds up a weight of the tracked packets; removing a packet subtracts
    its weight, as long as skipped packets weigh nothing. *)

Fixpoint sumw (w : packet -> Z) (ps : list (option packet)) : Z :=
  match ps with
  | [] => 0
  | o :: ps' => from_option w 0 o + sumw w ps'
  end.

Section sums.
Context (w : packet -> Z).

Lemma sumw_app ps qs : sumw w (ps ++ qs) = sumw w ps + sumw w qs.
Proof. induction ps as [|o ps IH]; cbn; lia. Qed.

Lemma sumw_insert ps i p :
  ps !! i = Some (Some p) -> sumw w (<[i:=None]> ps) = sumw w ps - w p.
Proof.
  revert i. induction ps as [|o ps IH]; intros [|i] Hi; try done; cbn in *.
  - injection Hi as ->. cbn. lia.
  - rewrite IH by done. lia.
Qed.

Lemma sumw_cleanupStart ps : sumw w (cleanupStart ps) = sumw w ps.
Proof. induction ps as [|[p|] ps IH]; cbn; lia. Qed.

Lemma sumw_nonneg ps : (forall p, Some p ∈ ps -> 0 <= w p) -> 0 <= sumw w ps.
Proof.
  induction ps as [|o ps IH]; intros Hw; [done|]. cbn.
  assert (0 <= sumw w ps) by (apply IH; intros; apply Hw; by right).
  destruct o as [p|]; cbn; [|lia]. specialize (Hw p ltac:(by left)). lia.
Qed.

Lemma sumw_elem ps p :
  (forall p, Some p ∈ ps -> 0 <= w p) -> Some p ∈ ps -> w p <= sumw w ps.
Proof.
  intros Hw [i Hi]%list_elem_of_lookup. pose proof (sumw_insert _ _ _ Hi) as E.
  assert (0 <= sumw w (<[i:=None]> ps)); [|lia]. apply sumw_nonneg.
  intros q Hq. by apply Hw, (elem_insert_sub _ i).
Qed.

Lemma sumw_clearSkipped idx : forall ps,
  (forall p, Some p ∈ ps -> skippedPacket p = true -> w p = 0) ->
  sumw w (clearSkipped idx ps).1 = sumw w ps.
Proof.
  induction idx as [|i IH]; intros ps Hw; cbn; [done|].
  destruct (ps !! i) as [[p|]|] eqn:E; try done.
  destruct (skippedPacket p) eqn:Es; [|done]. rewrite IH.
  - rewrite (sumw_insert _ _ _ E), (Hw p); [lia| |done]. apply list_elem_of_lookup. by exists i.
  - intros q Hq. by apply Hw, (elem_insert_sub _ i).
Qed.

Lemma DeclareLost_sumw h p h' :
  shist_inv h -> tracked h p -> DeclareLost h (PacketNumber p) = Ok h' ->
  sumw w (packets h') = sumw w (packets h) - w p.
Proof.
  intros Hi Ht. destruct (getIndex_tracked h p Hi Ht) as (i & Hg & Hl).
  unfold DeclareLost. rewrite Hg. cbn. rewrite Nat2Z.id, Hl, (decOutstanding_ok h i p Hi Hl). cbn.
  intros [= <-]. cbn. case_match; rewrite ?sumw_cleanupStart; by apply sumw_insert.
Qed.

Lemma history_Remove_sumw h p h' :
  shist_inv h -> tracked h p ->
  (forall q, tracked h q -> skippedPacket q = true -> w q = 0) ->
  history_Remove h (PacketNumber p) = Ok h' ->
  sumw w (packets h') = sumw w (packets h) - w p.
Proof.
  intros Hi Ht Hw. destruct (getIndex_tracked h p Hi Ht) as (i & Hg & Hl).
  unfold history_Remove. rewrite Hg. cbn [mbind res_bind negb].
  rewrite Nat2Z.id, Hl, (decOutstanding_ok h i p Hi Hl). cbn [mbind res_bind].
  pose proof (sumw_clearSkipped i (<[i:=None]> (packets h))) as Hc.
  destruct (clearSkipped i (<[i:=None]> (packets h))) as [ps r]. cbn in Hc.
  rewrite <- (sumw_insert _ _ _ Hl), <- Hc.
  - destruct ((r =? 0)%nat); [rewrite <- (sumw_cleanupStart ps)|];
      repeat (case_match; try done); by intros [= <-].
  - intros q Hq. by apply Hw, (elem_insert_sub _ i).
Qed.
End sums.

(** ** Searching *)

Lemma firstOutstandingIn_spec ps n :
  numbered n ps ->
  match firstOutstandingIn ps with
  | Some p => Some p ∈ ps /\ outstanding p = true /\
      forall q, Some q ∈ ps -> outstanding q = true -> PacketNumber p <= PacketNumber q
  | None => count_outstanding ps = 0 /\ forall q, Some q ∈ ps -> outstanding q = false
  end.
Proof.
  revert n. induction ps as [|o ps IH]; intros n Hn; cbn.
  { split; [done|]. intros q Hq. by apply not_elem_of_nil in Hq. }
  assert (Hn' : numbered (n + 1) ps).
  { intros i p Hi. rewrite (Hn (S i) p Hi). lia. }
  specialize (IH _ Hn'). destruct o as [p|]; cbn.
  2:{ destruct (firstOutstandingIn ps); cbn; setoid_rewrite elem_of_cons; naive_solver. }
  destruct (outstanding p) eqn:Eo.
  - split_and!; [by left|done|]. intros q [[= ->]|Hq]%elem_of_cons _; [done|].
    pose proof (Hn 0%nat p eq_refl). apply list_elem_of_lookup in Hq as [i Hi].
    rewrite (Hn' _ _ Hi). lia.
  - destruct (firstOutstandingIn ps) as [p1|]; cbn.
    + destruct IH as (H1 & H2 & H3). split_and!; [by right|done|].
      intros q [[= ->]|Hq]%elem_of_cons Ho; [congruence|auto].
    + destruct IH as [H1 H2]. split; [lia|]. intros q [[= ->]|Hq]%elem_of_cons; auto.
Qed.

Lemma FirstOutstanding_spec h :
  shist_inv h ->
  match FirstOutstanding h with
  | Some p => tracked h p /\ outstanding p = true /\
      forall q, tracked h q -> outstanding q = true -> PacketNumber p <= PacketNumber q
  | None => HasOutstandingPackets h = false /\ forall q, tracked h q -> outstanding q = false
  end.
Proof.
  intros Hi. destruct (si_num _ Hi) as (n & _ & Hn & _).
  pose proof (firstOutstandingIn_spec _ n Hn) as Hs. pose proof (si_count _ Hi) as Hc.
  unfold FirstOutstanding, HasOutstandingPackets in *.
  destruct (Z.ltb_spec 0 (numOutstanding h)) as [Hlt|Hge]; cbn.
  - destruct (firstOutstandingIn (packets h)); [done|]. lia.
  - split; [done|]. intros q Hq. destruct (outstanding q) eqn:Eo; [|done].
    unfold tracked in Hq. apply list_elem_of_lookup in Hq as [i Hl].
    pose proof (count_outstanding_insert _ _ _ Hl) as Hd. rewrite Eo in Hd.
    pose proof (count_outstanding_bounds (<[i:=None]> (packets h))). lia.
Qed.

(** ** The claims *)

(** Taking a tracked packet out of the history succeeds without panicking
    ("remove failed" and "negative number of outstanding packets" are
    unreachable) and keeps the invariant: numbering, no leading [nil], exact
    count of outstanding packets.  [DeclareLost] removes exactly that packet;
    [Remove] additionally drops only skipped packets below it, and never one of
    a packet that was really sent. *)
Theorem sent_history_removal_correct h p :
  shist_inv h -> tracked h p ->
  exists hl hr,
    DeclareLost h (PacketNumber p) = Ok hl /\ history_Remove h (PacketNumber p) = Ok hr /\
    shist_inv hl /\ shist_inv hr /\
    numOutstanding hl = numOutstanding h - (if outstanding p then 1 else 0) /\
    numOutstanding hr = numOutstanding hl /\
    (forall q, tracked hl q <-> tracked h q /\ PacketNumber q <> PacketNumber p) /\
    (forall q, tracked hr q -> tracked hl q) /\
    (forall q, tracked hl q ->
       tracked hr q \/ (skippedPacket q = true /\ PacketNumber q < PacketNumber p)).
Proof.
  intros Hi Ht. destruct (DeclareLost_spec h p Hi Ht) as (hl & H1 & H2 & _ & H4 & H5).
  destruct (history_Remove_spec h p Hi Ht) as (hr & R1 & R2 & _ & R4 & R5 & R6).
  exists hl, hr. split_and!; try done; [congruence| |]; intros q Hq.
  - apply H5. auto.
  - apply H5 in Hq as []. auto.
Qed.

(** An ack-eliciting packet of 1200 bytes in the application data space. *)
Definition packet_ex (pn : Z) : packet :=
  mkPacket 5 pn [] [mkFrame pn (Some 1)] InvalidPacketNumber 1200 Encryption1RTT false true false false.

Definition sent_history_ex : sentPacketHistory :=
  mkSentHistory [Some (packet_ex 3); None; Some (newSkippedPacket 5); Some (packet_ex 6)] 2 6.

Lemma sent_history_ex_inv : shist_inv sent_history_ex.
Proof.
  constructor; try done.
  exists 3. split_and!; try done. intros i p Hi.
  do 4 (destruct i as [|i]; [cbn in Hi; by simplify_eq|]). by destruct i.
Qed.

Lemma sent_history_removal_correct_witness :
  shist_inv sent_history_ex /\ tracked sent_history_ex (packet_ex 6) /\
  exists hr, history_Remove sent_history_ex 6 = Ok hr /\ shist_inv hr /\ numOutstanding hr = 1.
Proof.
  split; [apply sent_history_ex_inv|].
  assert (Ht : tracked sent_history_ex (packet_ex 6)).
  { unfold tracked; cbn. by do 3 right; left. }
  split; [exact Ht|].
  destruct (sent_history_removal_correct sent_history_ex (packet_ex 6) sent_history_ex_inv Ht)
    as (hl & hr & _ & H2 & _ & H4 & H5 & H6 & _).
  exists hr. split; [exact H2|]. split; [exact H4|]. rewrite H6, H5. reflexivity.
Defined.

(** Adding the next packet number succeeds and keeps the invariant,
    whichever of the three kinds of packet it is, and makes exactly the right
    packet tracked; a packet number out of sequence panics. *)
Theorem sent_history_append_correct h p :
  shist_inv h -> 0 <= PacketNumber p <= 2 ^ 62 ->
  let pn := PacketNumber p in
  if decide (highestPacketNumber h = -1 \/ pn = highestPacketNumber h + 1)
  then exists ha hn hs,
    SentAckElicitingPacket h p = Ok ha /\ SentNonAckElicitingPacket h pn = Ok hn /\
    SkippedPacket h pn = Ok hs /\
    shist_inv ha /\ shist_inv hn /\ shist_inv hs /\
    (forall q, tracked ha q <-> q = p \/ tracked h q) /\
    (forall q, tracked hn q <-> tracked h q) /\
    (forall q, tracked hs q <-> q = newSkippedPacket pn \/ tracked h q)
  else
    SentAckElicitingPacket h p = Panic "non-sequential packet number use" /\
    SentNonAckElicitingPacket h pn = Panic "non-sequential packet number use" /\
    SkippedPacket h pn = Panic "non-sequential packet number use".
Proof.
  intros Hi Hp pn. case_decide as Hs.
  - destruct (SentAckElicitingPacket_spec h p Hi (conj Hp Hs)) as (ha & A1 & A2 & _ & A4).
    destruct (SentNonAckElicitingPacket_spec h pn Hi (conj Hp Hs)) as (hn & N1 & N2 & _ & _ & N5).
    destruct (SkippedPacket_spec h pn Hi (conj Hp Hs)) as (hs & S1 & S2 & _ & _ & S5).
    by exists ha, hn, hs.
  - assert (checkSequentialPacketNumberUse h pn = Panic "non-sequential packet number use") as E.
    { pose proof (checkSequential_ok h pn Hi (proj1 Hp)) as Hc.
      unfold checkSequentialPacketNumberUse in *. case_match; [done|]. destruct Hs. by apply Hc. }
    unfold SentAckElicitingPacket, SentNonAckElicitingPacket, SkippedPacket.
    fold pn. by rewrite E.
Qed.

Lemma sent_history_append_correct_witness :
  shist_inv sent_history_ex /\
  exists ha, SentAckElicitingPacket sent_history_ex (packet_ex 7) = Ok ha /\ shist_inv ha.
Proof.
  split; [apply sent_history_ex_inv|].
  pose proof (sent_history_append_correct sent_history_ex (packet_ex 7) sent_history_ex_inv
    ltac:(cbn; lia)) as H. cbv zeta in H.
  rewrite decide_True in H by (right; reflexivity).
  destruct H as (ha & _ & _ & H1 & _ & _ & H4 & _). by exists ha.
Defined.

(** [FirstOutstanding] returns the outstanding packet with the lowest
    packet number, and [nil] exactly when none is outstanding. *)
Theorem sent_history_FirstOutstanding_correct h :
  shist_inv h ->
  match FirstOutstanding h with
  | Some p => tracked h p /\ outstanding p = true /\
      forall q, tracked h q -> outstanding q = true -> PacketNumber p <= PacketNumber q
  | None => HasOutstandingPackets h = false /\ forall q, tracked h q -> outstanding q = false
  end.
Proof. apply FirstOutstanding_spec. Qed.

Lemma sent_history_FirstOutstanding_correct_witness :
  shist_inv sent_history_ex /\ tracked sent_history_ex (packet_ex 3).
Proof.
  split; [apply sent_history_ex_inv|].
  exact (proj1 (sent_history_FirstOutstanding_correct sent_history_ex sent_history_ex_inv)).
Defined.
