(* ===== verification/PNGenerator.v ===== *)
(** * PNGenerator: [internal/ackhandler/packet_number_generator.go] and
    [internal/utils/rand.go]

    The two packet number generators.  The words read from [crypto/rand] are a
    parameter [rng]: [rng i] is the [i]-th 32-bit word, and a [Rand] is the
    number of words read so far. *)

From S2P Require Import Prelude Protocol.
From stdpp Require Import base numbers list option strings.
From Stdlib Require Import ZArith Lia.
#[local] Open Scope Z_scope.

Definition i32 (z : Z) : Z := (z + 2 ^ 31) mod 2 ^ 32 - 2 ^ 31.

Record skippingPacketNumberGenerator := mkSkipping {
  period : Z;
  maxPeriod : Z;
  next : Z;
  nextToSkip : Z;
  randPos : nat
}.

(** The interface [packetNumberGenerator] and its two implementations. *)
Inductive packetNumberGenerator :=
  | sequentialGenerator (seqNext : Z)
  | skippingGenerator (g : skippingPacketNumberGenerator).

Definition newSequentialPacketNumberGenerator (initial : Z) : packetNumberGenerator :=
  sequentialGenerator initial.

Section rand.
Context (rng : nat -> Z).

(** [int32(binary.BigEndian.Uint32(buf) & ^uint32(1<<31))] *)
Definition Int31 (pos : nat) : Z * nat :=
  (Z.land (u32 (rng pos)) (2 ^ 31 - 1), S pos).

(** [for v > max { v = r.Int31() }]; [None] if it is still running after
    [fuel] iterations. *)
Fixpoint rejectLoop (fuel : nat) (max v : Z) (pos : nat) : option (Z * nat) :=
  if max <? v then
    match fuel with
    | O => None
    | S fuel' => let '(v, pos) := Int31 pos in rejectLoop fuel' max v pos
    end
  else Some (v, pos).

Definition Int31n (fuel : nat) (n : Z) (pos : nat) : option (Z * nat) :=
  if Z.land n (n - 1) =? 0 then
    let '(v, pos) := Int31 pos in Some (Z.land v (n - 1), pos)
  else
    let max := i32 (2 ^ 31 - 1 - 2 ^ 31 mod (u32 n)) in
    let '(v, pos) := Int31 pos in
    '(v, pos) ← rejectLoop fuel max v pos;
    Some (Z.rem v n, pos).

(** Every period the code uses is a power of two, so that no fuel is needed
    (see [Int31n_pow2]). *)
Definition generateNewSkip (p : skippingPacketNumberGenerator)
    : res skippingPacketNumberGenerator :=
  match Int31n 0 (i32 (2 * period p)) (randPos p) with
  | None => Panic "Int31n"
  | Some (r, pos) =>
      Ok (mkSkipping (Z.min (i64 (2 * period p)) (maxPeriod p)) (maxPeriod p)
            (next p) (i64 (i64 (next p + 3) + r)) pos)
  end.

Definition newSkippingPacketNumberGenerator (initial initialPeriod maxPer : Z) (pos : nat)
    : res packetNumberGenerator :=
  g ← generateNewSkip (mkSkipping initialPeriod maxPer initial 0 pos);
  Ok (skippingGenerator g).

Definition pns_Peek (p : packetNumberGenerator) : Z :=
  match p with
  | sequentialGenerator n => n
  | skippingGenerator g => if next g =? nextToSkip g then i64 (next g + 1) else next g
  end.

Definition pns_Pop (p : packetNumberGenerator) : res (bool * Z * packetNumberGenerator) :=
  match p with
  | sequentialGenerator n => Ok (false, n, sequentialGenerator (i64 (n + 1)))
  | skippingGenerator g =>
      if next g =? nextToSkip g then
        let n := i64 (next g + 1) in
        g ← generateNewSkip
              (mkSkipping (period g) (maxPeriod g) (i64 (next g + 2)) (nextToSkip g) (randPos g));
        Ok (true, n, skippingGenerator g)
      else
        Ok (false, next g,
            skippingGenerator
              (mkSkipping (period g) (maxPeriod g) (i64 (next g + 1)) (nextToSkip g) (randPos g)))
  end.

(** [n] calls of [Pop]: the packet numbers and whether one was skipped. *)
Fixpoint pop_n (n : nat) (p : packetNumberGenerator) : res (list (bool * Z)) :=
  match n with
  | O => Ok []
  | S n' =>
      '(skipped, pn, p) ← pns_Pop p;
      rest ← pop_n n' p;
      Ok ((skipped, pn) :: rest)
  end.

(** ** Random numbers *)

Lemma Int31_range pos : 0 <= (Int31 pos).1 < 2 ^ 31.
Proof.
  unfold Int31; cbn [fst]. change (2 ^ 31 - 1) with (Z.ones 31).
  rewrite Z.land_ones by lia. apply Z.mod_pos_bound. lia.
Qed.

Lemma Int31n_pow2 fuel k pos :
  0 <= k <= 30 ->
  exists r, Int31n fuel (2 ^ k) pos = Some (r, S pos) /\ 0 <= r < 2 ^ k.
Proof.
  intros Hk. unfold Int31n. replace (2 ^ k - 1) with (Z.ones k) by (rewrite Z.ones_equiv; lia).
  rewrite Z.land_ones by lia. rewrite Z.mod_same by lia. cbn.
  eexists. split; [reflexivity|]. rewrite Z.land_ones by lia. apply Z.mod_pos_bound. lia.
Qed.

Lemma rejectLoop_spec fuel : forall max v pos w pos',
  rejectLoop fuel max v pos = Some (w, pos') ->
  (w = v \/ exists i, w = (Int31 i).1) /\ w <= max.
Proof.
  induction fuel as [|fuel IH]; intros max v pos w pos'; cbn;
    destruct (Z.ltb_spec max v); intros [=]; subst; auto.
  destruct (IH _ _ _ _ _ H1) as [[->|[i ->]] ?]; split; auto; right;
    [by exists pos|by exists i].
Qed.

(** ** The skipping generator *)

(** Periods are powers of two, so that [Int31n] only masks. *)
Definition gen_period_ok (p : skippingPacketNumberGenerator) : Prop :=
  exists k m, 0 <= k <= m /\ m <= 20 /\ period p = 2 ^ k /\ maxPeriod p = 2 ^ m.

Lemma pow2_le k m : 0 <= k <= m -> 1 <= 2 ^ k <= 2 ^ m.
Proof.
  intros. split; [|apply Z.pow_le_mono_r; lia]. pose proof (Z.pow_pos_nonneg 2 k). lia.
Qed.

Lemma generateNewSkip_spec p :
  gen_period_ok p -> 0 <= next p <= 2 ^ 62 + 2 ->
  exists g, generateNewSkip p = Ok g /\ gen_period_ok g /\ next g = next p /\
    next p + 3 <= nextToSkip g < next p + 3 + 2 * period p.
Proof.
  intros (k & m & Hk & Hm & Hp & Hmax) Hn. unfold generateNewSkip.
  pose proof (pow2_le k m Hk). pose proof (pow2_le m 20 ltac:(lia)).
  rewrite Hp, Hmax.
  assert (Hi : i32 (2 * 2 ^ k) = 2 ^ (k + 1)).
  { unfold i32. rewrite Z.mod_small, Z.pow_add_r by lia. lia. }
  rewrite Hi. destruct (Int31n_pow2 0 (k + 1) (randPos p) ltac:(lia)) as (r & -> & Hr).
  rewrite Z.pow_add_r in Hr by lia.
  rewrite (i64_small (next p + 3)) by int_range.
  rewrite !i64_small by int_range.
  eexists. split; [reflexivity|]. cbn. split_and!; [|done|lia|lia].
  destruct (Z.eq_dec k m) as [->|Hne].
  - exists m, m. rewrite Z.min_r by lia. auto with lia.
  - exists (k + 1), m. rewrite Z.min_l.
    + split_and!; [lia..| |done]. cbn. rewrite Z.pow_add_r by lia. lia.
    + pose proof (pow2_le (k + 1) m ltac:(lia)). rewrite Z.pow_add_r in * by lia. lia.
Qed.

(** [cool] more packet numbers are handed out before one may be skipped. *)
Definition gen_inv (cool : nat) (p : packetNumberGenerator) : Prop :=
  match p with
  | sequentialGenerator n => 0 <= n
  | skippingGenerator g =>
      gen_period_ok g /\ 0 <= next g /\ next g + Z.of_nat cool <= nextToSkip g
  end.

Definition gen_next (p : packetNumberGenerator) : Z :=
  match p with sequentialGenerator n => n | skippingGenerator g => next g end.

Lemma pns_Pop_spec cool p :
  gen_inv cool p -> gen_next p <= 2 ^ 62 ->
  exists skipped p', pns_Pop p = Ok (skipped, pns_Peek p, p') /\
    pns_Peek p = gen_next p + (if skipped : bool then 1 else 0) /\
    gen_next p' = pns_Peek p + 1 /\
    (skipped = true -> cool = 0%nat) /\
    gen_inv (if skipped then 3 else pred cool) p'.
Proof.
  intros Hi Hb. destruct p as [n|g]; cbn in *.
  - rewrite i64_small by int_range. exists false. eexists. split; [done|]. cbn. auto with lia.
  - destruct Hi as (Hp & Hn & Hs). destruct (Z.eqb_spec (next g) (nextToSkip g)) as [He|He].
    + assert (cool = 0%nat) as -> by lia.
      rewrite (i64_small (next g + 1)), (i64_small (next g + 2)) by int_range.
      destruct (generateNewSkip_spec
        (mkSkipping (period g) (maxPeriod g) (next g + 2) (nextToSkip g) (randPos g)) Hp)
        as (g' & -> & Hp' & Hn' & Hs'); [cbn; lia|]. cbn in *.
      exists true. eexists. split; [reflexivity|]. cbn. rewrite Hn'. split_and!; try done; lia.
    + rewrite i64_small by int_range.
      exists false. eexists. split; [reflexivity|]. cbn.
      split_and!; try done; try lia; cbn; lia.
Qed.
End rand.

(** What a sequence of popped packet numbers must look like: strictly
    increasing without gaps, except that a single number may be skipped, and
    never within [cool] numbers of the last skip. *)
Fixpoint pns_ok (nxt : Z) (cool : nat) (l : list (bool * Z)) : Prop :=
  match l with
  | [] => True
  | (skipped, pn) :: l' =>
      pn = nxt + (if skipped : bool then 1 else 0) /\ (skipped = true -> cool = 0%nat) /\
      pns_ok (pn + 1) (if skipped then 3 else pred cool) l'
  end.

(** From a freshly created skipping generator, any number of calls of
    [Pop] succeeds and returns strictly increasing packet numbers that leave out
    at most one number at a time; the first three numbers and the three numbers
    after every skipped one are never skipped, so no two consecutive packet
    numbers are ever skipped. *)
Theorem skipping_generator_sequence rng initial pos n :
  0 <= initial -> initial + 2 * Z.of_nat n <= 2 ^ 62 ->
  exists g l,
    newSkippingPacketNumberGenerator rng initial SkipPacketInitialPeriod SkipPacketMaxPeriod pos = Ok g /\
    pop_n rng n g = Ok l /\ length l = n /\ pns_ok initial 3 l.
Proof.
  intros Hi Hn. unfold newSkippingPacketNumberGenerator.
  destruct (generateNewSkip_spec rng
    (mkSkipping SkipPacketInitialPeriod SkipPacketMaxPeriod initial 0 pos))
    as (g & -> & Hp & Hnx & Hs); [by exists 8, 17|cbn; lia|]. cbn in *.
  exists (skippingGenerator g). rewrite <- Hnx.
  assert (Hinv : gen_inv 3 (skippingGenerator g)) by (cbn; split_and!; [done|lia|lia]).
  change (next g) with (gen_next (skippingGenerator g)).
  assert (Hb : gen_next (skippingGenerator g) + 2 * Z.of_nat n <= 2 ^ 62) by (cbn; lia).
  clear -Hinv Hb. revert Hinv Hb. generalize (skippingGenerator g) as p, 3%nat as cool. clear.
  induction n as [|n IH]; intros p cool Hinv Hb.
  { exists []. done. }
  destruct (pns_Pop_spec rng cool p Hinv ltac:(lia)) as (sk & p' & E & Hpk & Hnx & Hc & Hinv').
  destruct (IH p' _ Hinv') as (l & _ & El & Hl & Hok).
  { rewrite Hnx, Hpk. destruct sk; lia. }
  exists ((sk, pns_Peek p) :: l). split; [done|]. cbn [pop_n]. rewrite E. cbn. rewrite El. cbn.
  rewrite <- Hnx. split_and!; try done. lia.
Qed.

Lemma skipping_generator_sequence_witness :
  0 <= 0 /\ 0 + 2 * Z.of_nat 300 <= 2 ^ 62 /\
  exists g l,
    newSkippingPacketNumberGenerator (fun i => 2654435761 * Z.of_nat i + 7)
      0 SkipPacketInitialPeriod SkipPacketMaxPeriod 0 = Ok g /\
    pop_n (fun i => 2654435761 * Z.of_nat i + 7) 300 g = Ok l /\ length l = 300%nat /\ pns_ok 0 3 l.
Proof.
  split; [lia|]. split; [lia|].
  apply (skipping_generator_sequence (fun i => 2654435761 * Z.of_nat i + 7) 0 0 300); lia.
Defined.
