(* ===== verification/Ecn.v ===== *)
(** * Ecn: [internal/ackhandler/ecn.go]

    ECN validation of a path as a state machine.  Tracing and logging are left
    out.  [HandleNewlyAcked] only looks at the packet numbers of the packets it
    is given. *)

From S2P Require Import Prelude Protocol.
From stdpp Require Import base numbers list option strings.
From Stdlib Require Import ZArith Lia.
#[local] Open Scope Z_scope.

Inductive ecnState :=
  | ecnStateInitial | ecnStateTesting | ecnStateUnknown | ecnStateCapable | ecnStateFailed.

#[export] Instance ecnState_eq_dec : EqDecision ecnState.
Proof. solve_decision. Defined.

Definition numECNTestingPackets : Z := 10.

Record ecnTracker := mkECN {
  state : ecnState;
  numSentTesting : Z;
  numLostTesting : Z;
  firstTestingPacket : Z;
  lastTestingPacket : Z;
  firstCapablePacket : Z;
  numSentECT0 : Z;
  numSentECT1 : Z;
  numAckedECT0 : Z;
  numAckedECT1 : Z;
  numAckedECNCE : Z
}.

Definition newECNTracker : ecnTracker :=
  mkECN ecnStateInitial 0 0 InvalidPacketNumber InvalidPacketNumber InvalidPacketNumber 0 0 0 0 0.

Definition set_state (s : ecnState) (e : ecnTracker) : ecnTracker :=
  let '(mkECN _ a b c d f g h i j k) := e in mkECN s a b c d f g h i j k.
Definition set_sent (v0 v1 : Z) (e : ecnTracker) : ecnTracker :=
  let '(mkECN s a b c d f _ _ i j k) := e in mkECN s a b c d f v0 v1 i j k.
Definition set_acked (v0 v1 vce : Z) (e : ecnTracker) : ecnTracker :=
  let '(mkECN s a b c d f g h _ _ _) := e in mkECN s a b c d f g h v0 v1 vce.
Definition set_firstCapable (v : Z) (e : ecnTracker) : ecnTracker :=
  let '(mkECN s a b c d _ g h i j k) := e in mkECN s a b c d v g h i j k.
Definition set_numSentTesting (v : Z) (e : ecnTracker) : ecnTracker :=
  let '(mkECN s _ b c d f g h i j k) := e in mkECN s v b c d f g h i j k.
Definition set_numLostTesting (v : Z) (e : ecnTracker) : ecnTracker :=
  let '(mkECN s a _ c d f g h i j k) := e in mkECN s a v c d f g h i j k.
Definition set_firstTesting (v : Z) (e : ecnTracker) : ecnTracker :=
  let '(mkECN s a b _ d f g h i j k) := e in mkECN s a b v d f g h i j k.
Definition set_lastTesting (v : Z) (e : ecnTracker) : ecnTracker :=
  let '(mkECN s a b c _ f g h i j k) := e in mkECN s a b c v f g h i j k.

(** The part of [SentPacket] after the first [switch]. *)
Definition ecn_sentMarked (e : ecnTracker) (pn : Z) : ecnTracker :=
  let e := if bool_decide (state e = ecnStateCapable) && (firstCapablePacket e =? InvalidPacketNumber)
           then set_firstCapable pn e else e in
  if negb (bool_decide (state e = ecnStateTesting)) then e
  else
    let e := set_numSentTesting (u8 (numSentTesting e + 1)) e in
    let e := if firstTestingPacket e =? InvalidPacketNumber then set_firstTesting pn e else e in
    if numECNTestingPackets <=? i64 (numSentECT0 e + numSentECT1 e)
    then set_lastTesting pn (set_state ecnStateUnknown e)
    else e.

Definition ecn_SentPacket (e : ecnTracker) (pn : Z) (ecn : ECN) : res ecnTracker :=
  match ecn with
  | ECNNon => Ok e
  | ECT0 => Ok (ecn_sentMarked (set_sent (i64 (numSentECT0 e + 1)) (numSentECT1 e) e) pn)
  | ECT1 => Ok (ecn_sentMarked (set_sent (numSentECT0 e) (i64 (numSentECT1 e + 1)) e) pn)
  | ECNUnsupported =>
      if negb (bool_decide (state e = ecnStateFailed))
      then Panic "didn't expect ECN to be unsupported"
      else Ok (ecn_sentMarked e pn)
  | ECNCE => Panic "sent packet with unexpected ECN marking: %s"
  end.

(** Calling [Mode] for the first time starts the testing. *)
Definition ecn_Mode (e : ecnTracker) : ecnTracker * ECN :=
  match state e with
  | ecnStateInitial => (set_state ecnStateTesting e, ECT0)
  | ecnStateTesting | ecnStateCapable => (e, ECT0)
  | ecnStateUnknown | ecnStateFailed => (e, ECNNon)
  end.

Definition isTestingPacket (e : ecnTracker) (pn : Z) : bool :=
  if firstTestingPacket e =? InvalidPacketNumber then false
  else (firstTestingPacket e <=? pn)
       && ((pn <=? lastTestingPacket e) || (lastTestingPacket e =? InvalidPacketNumber)).

Definition ecnMarking (e : ecnTracker) (pn : Z) : ECN :=
  if (pn <? firstTestingPacket e) || (firstTestingPacket e =? InvalidPacketNumber) then ECNNon
  else if (pn <? lastTestingPacket e) || (lastTestingPacket e =? InvalidPacketNumber) then ECT0
  else if (pn <? firstCapablePacket e) || (firstCapablePacket e =? InvalidPacketNumber) then ECNNon
  else ECT0.

Definition failIfMangled (e : ecnTracker) : ecnTracker :=
  let numAcked := i64 (numAckedECNCE e + numLostTesting e) in
  if numAcked <? i64 (numSentECT0 e + numSentECT1 e) then e
  else set_state ecnStateFailed e.

Definition ecn_LostPacket (e : ecnTracker) (pn : Z) : ecnTracker :=
  match state e with
  | ecnStateTesting | ecnStateUnknown =>
      if negb (isTestingPacket e pn) then e
      else
        let e := set_numLostTesting (u8 (numLostTesting e + 1)) e in
        if negb (bool_decide (state e = ecnStateUnknown)) then e
        else if numSentTesting e <=? numLostTesting e then set_state ecnStateFailed e
        else failIfMangled e
  | _ => e
  end.

(** The number of packets sent with a marking, as [ackedECT0] and [ackedECT1] count them. *)
Definition countMarked (e : ecnTracker) (m : ECN) (pns : list Z) : Z :=
  blen (filter (fun pn => ecnMarking e pn = m) pns).

(** The tail of [HandleNewlyAcked], after the counters are updated. *)
Definition ecn_conclude (e : ecnTracker) (pns : list Z) (newECT0 newECT1 newECNCE : Z)
    : ecnTracker * bool :=
  let e := if bool_decide (state e = ecnStateUnknown) then failIfMangled e else e in
  if bool_decide (state e = ecnStateFailed) then (e, false)
  else
    let e :=
      match state e with
      | ecnStateTesting | ecnStateUnknown =>
          if existsb (isTestingPacket e) pns && ((0 <? newECT0) || (0 <? newECT1))
          then set_state ecnStateCapable e else e
      | _ => e
      end in
    (e, bool_decide (state e = ecnStateCapable) && (0 <? newECNCE)).

Definition HandleNewlyAcked (e : ecnTracker) (pns : list Z) (ect0 ect1 ecnce : Z)
    : ecnTracker * bool :=
  let fail := (set_state ecnStateFailed e, false) in
  if bool_decide (state e = ecnStateFailed) then (e, false)
  else if (numSentECT0 e <? ect0) || (numSentECT1 e <? ect1) then fail
  else
    let ackedECT0 := countMarked e ECT0 pns in
    let ackedECT1 := countMarked e ECT1 pns in
    if ((0 <? ackedECT0) || (0 <? ackedECT1)) && (ect0 =? 0) && (ect1 =? 0) && (ecnce =? 0) then fail
    else
      let newECT0 := i64 (ect0 - numAckedECT0 e) in
      let newECT1 := i64 (ect1 - numAckedECT1 e) in
      let newECNCE := i64 (ecnce - numAckedECNCE e) in
      if (newECT0 <? 0) || (newECT1 <? 0) || (newECNCE <? 0) then fail
      else if i64 (newECT0 + newECNCE) <? ackedECT0 then fail
      else if i64 (newECT1 + newECNCE) <? ackedECT1 then fail
      else ecn_conclude (set_acked ect0 ect1 ecnce e) pns newECT0 newECT1 newECNCE.

(** ** The state machine

    [ecn_edge] are the transitions of the validation; every operation follows
    them. *)
Inductive ecn_edge : ecnState -> ecnState -> Prop :=
  | edge_stay s : ecn_edge s s
  | edge_start : ecn_edge ecnStateInitial ecnStateTesting
  | edge_sent : ecn_edge ecnStateTesting ecnStateUnknown
  | edge_capable_t : ecn_edge ecnStateTesting ecnStateCapable
  | edge_capable_u : ecn_edge ecnStateUnknown ecnStateCapable
  | edge_fail s : ecn_edge s ecnStateFailed.

(** What the rest of the connection does with a tracker: send a packet with the
    marking of the current mode (short header packets) or unmarked (coalesced
    packets), report a loss, report an acknowledgement. *)
Inductive ecn_op :=
  | EcnSend (pn : Z)
  | EcnSendUnmarked (pn : Z)
  | EcnLost (pn : Z)
  | EcnAcked (pns : list Z) (ect0 ect1 ecnce : Z).

(** The tracker after the operation and the marking sent, if any. *)
Definition ecn_do (e : ecnTracker) (o : ecn_op) : res (ecnTracker * option ECN) :=
  match o with
  | EcnSend pn =>
      let '(e, m) := ecn_Mode e in
      e ← ecn_SentPacket e pn m; Ok (e, Some m)
  | EcnSendUnmarked pn => e ← ecn_SentPacket e pn ECNNon; Ok (e, Some ECNNon)
  | EcnLost pn => Ok (ecn_LostPacket e pn, None)
  | EcnAcked pns c0 c1 ce => Ok ((HandleNewlyAcked e pns c0 c1 ce).1, None)
  end.

(** While the path is not validated, the testing packets are counted. *)
Definition ecn_inv (e : ecnTracker) : Prop :=
  numSentECT1 e = 0 /\
  match state e with
  | ecnStateInitial => numSentECT0 e = 0 /\ numSentTesting e = 0
  | ecnStateTesting => 0 <= numSentECT0 e < numECNTestingPackets /\ numSentTesting e = numSentECT0 e
  | ecnStateUnknown => numSentECT0 e = numECNTestingPackets /\ numSentTesting e = numECNTestingPackets
  | ecnStateCapable | ecnStateFailed => True
  end.

Lemma newECNTracker_inv : ecn_inv newECNTracker.
Proof. done. Qed.

(** Marking the path as failed, or confirming it, keeps the invariant. *)
Lemma set_state_inv e s :
  ecn_inv e -> s = ecnStateFailed \/ s = ecnStateCapable -> ecn_inv (set_state s e).
Proof. destruct e. unfold ecn_inv; cbn. naive_solver. Qed.

Lemma set_acked_inv e a b c : ecn_inv e -> ecn_inv (set_acked a b c e).
Proof. by destruct e. Qed.

Lemma failIfMangled_cases e :
  failIfMangled e = e \/ failIfMangled e = set_state ecnStateFailed e.
Proof. unfold failIfMangled. case_match; auto. Qed.

Lemma state_set_state s e : state (set_state s e) = s.
Proof. by destruct e. Qed.

Lemma ecn_conclude_spec e pns n0 n1 nce :
  ecn_inv e ->
  ecn_inv (ecn_conclude e pns n0 n1 nce).1 /\
  ecn_edge (state e) (state (ecn_conclude e pns n0 n1 nce).1).
Proof.
  intros Hi. unfold ecn_conclude.
  set (e1 := if bool_decide (state e = ecnStateUnknown) then failIfMangled e else e).
  assert (H1 : e1 = e \/ e1 = set_state ecnStateFailed e).
  { subst e1. case_match; [apply failIfMangled_cases|by left]. }
  clearbody e1. destruct H1 as [-> | ->].
  - case_bool_decide; cbn [fst]; [split; [done|constructor]|].
    destruct (state e) eqn:E; cbn [fst]; try (rewrite E; split; [done|constructor]);
      (destruct (existsb _ _ && _); [|rewrite E; split; [done|constructor]]);
      rewrite state_set_state; (split; [by apply set_state_inv; auto|constructor]).
  - rewrite bool_decide_eq_true_2 by apply state_set_state. cbn [fst].
    rewrite state_set_state. split; [by apply set_state_inv; auto|constructor].
Qed.

Lemma HandleNewlyAcked_spec e pns c0 c1 ce :
  ecn_inv e ->
  ecn_inv (HandleNewlyAcked e pns c0 c1 ce).1 /\
  ecn_edge (state e) (state (HandleNewlyAcked e pns c0 c1 ce).1).
Proof.
  intros Hi.
  assert (Hf : ecn_inv (set_state ecnStateFailed e) /\
    ecn_edge (state e) (state (set_state ecnStateFailed e))).
  { rewrite state_set_state. split; [by apply set_state_inv; auto|constructor]. }
  unfold HandleNewlyAcked. repeat (case_match; [first [exact Hf | by split; [|constructor]]|]).
  destruct (ecn_conclude_spec (set_acked c0 c1 ce e) pns (i64 (c0 - numAckedECT0 e))
    (i64 (c1 - numAckedECT1 e)) (i64 (ce - numAckedECNCE e)) (set_acked_inv _ _ _ _ Hi)) as [K1 K2].
  split; [done|]. by destruct e.
Qed.

Lemma ecn_LostPacket_spec e pn :
  ecn_inv e -> ecn_inv (ecn_LostPacket e pn) /\ ecn_edge (state e) (state (ecn_LostPacket e pn)).
Proof.
  intros Hi. destruct e as [s a b c d f g h i j k]. unfold ecn_LostPacket; cbn.
  destruct s; cbn; try (split; [done|constructor]);
    (destruct (isTestingPacket _ pn); cbn; [|split; [done|constructor]]);
    [split; [done|constructor]|].
  destruct (a <=? u8 (b + 1)); cbn; [split; [split; [apply Hi|done]|constructor]|].
  destruct (failIfMangled_cases (mkECN ecnStateUnknown a (u8 (b + 1)) c d f g h i j k)) as [-> | ->];
    (split; [first [exact Hi | split; [apply Hi|done]]|constructor]).
Qed.

(** Marked packets are only sent while testing or once the path is validated. *)
Definition sent_when (e : ecnTracker) (m : option ECN) : Prop :=
  m = Some ECT0 ->
  (state e = ecnStateInitial \/ state e = ecnStateTesting) /\ numSentECT0 e < numECNTestingPackets \/
  state e = ecnStateCapable.

(** Evaluate the comparisons of two known states. *)
Ltac eval_states :=
  repeat match goal with
  | |- context [bool_decide (?a = ?b)] =>
      is_constructor b;
      let v := eval vm_compute in (bool_decide (a = b)) in
      change (bool_decide (a = b)) with v; cbn
  end.

Lemma ecn_send_spec e pn :
  ecn_inv e ->
  exists e' m, ecn_do e (EcnSend pn) = Ok (e', Some m) /\ ecn_inv e' /\
    ecn_edge (state e) (state e') /\ sent_when e (Some m).
Proof.
  intros [H1 Hi]. destruct e as [s a b c d f g h i j k]. cbn in H1; subst h.
  unfold ecn_do, ecn_Mode, sent_when, ecn_inv, numECNTestingPackets in *; cbn in *.
  destruct s; cbn in *.
  - destruct Hi as [-> ->]. unfold ecn_sentMarked; cbn. eval_states.
    change (i64 (0 + 1)) with 1. change (u8 (0 + 1)) with 1.
    destruct (c =? InvalidPacketNumber); cbn; eexists _, ECT0; (split; [reflexivity|]);
      cbn; split_and!; try done; try lia; first [intros _; left; split; [auto|lia] | constructor].
  - destruct Hi as [Hg ->]. unfold ecn_sentMarked, numECNTestingPackets; cbn. eval_states.
    rewrite !(i64_small (g + 1)), (u8_small (g + 1)) by int_range.
    destruct (c =? InvalidPacketNumber); cbn; rewrite Z.add_0_r, (i64_small (g + 1)) by int_range;
      (destruct (Z.leb_spec 10 (g + 1)); cbn; eexists _, ECT0; (split; [reflexivity|]); cbn;
       split_and!; try done; try lia; first [intros _; left; split; [auto|lia] | constructor]).
  - eexists _, ECNNon. split; [reflexivity|]. split_and!; try done. constructor.
  - unfold ecn_sentMarked; cbn.
    destruct (f =? InvalidPacketNumber); cbn; eval_states; eexists _, ECT0; (split; [reflexivity|]); cbn;
      split_and!; try done; auto; constructor.
  - eexists _, ECNNon. split; [reflexivity|]. split_and!; try done. constructor.
Qed.

Lemma ecn_do_spec e o :
  ecn_inv e ->
  exists e' m, ecn_do e o = Ok (e', m) /\ ecn_inv e' /\ ecn_edge (state e) (state e') /\
    sent_when e m.
Proof.
  intros Hi. destruct o as [pn|pn|pn|pns c0 c1 ce].
  - destruct (ecn_send_spec e pn Hi) as (e' & m & H1 & H2 & H3 & H4).
    by exists e', (Some m).
  - exists e, (Some ECNNon). split_and!; try done. constructor.
  - exists (ecn_LostPacket e pn), None. destruct (ecn_LostPacket_spec e pn Hi). done.
  - exists (HandleNewlyAcked e pns c0 c1 ce).1, None.
    destruct (HandleNewlyAcked_spec e pns c0 c1 ce Hi). done.
Qed.

(** Runs: the trackers visited, and the markings sent from each. *)
Inductive ecn_run : ecnTracker -> list ecn_op -> list (ecnTracker * option ECN) -> ecnTracker -> Prop :=
  | ecn_run_nil e : ecn_run e [] [] e
  | ecn_run_cons e o os e1 m l e2 :
      ecn_do e o = Ok (e1, m) -> ecn_run e1 os l e2 -> ecn_run e (o :: os) ((e, m) :: l) e2.

Lemma ecn_failed_stays e os l e' :
  ecn_inv e -> ecn_run e os l e' -> state e = ecnStateFailed ->
  state e' = ecnStateFailed /\ Forall (fun x => x.2 <> Some ECT0) l.
Proof.
  intros Hi Hr. induction Hr as [e|e o os e1 m l e2 Hdo Hr IH]; intros Hf; [done|].
  destruct (ecn_do_spec e o Hi) as (e1' & m' & E & Hi1 & He & Hs). rewrite Hdo in E.
  injection E as <- <-. rewrite Hf in He. assert (state e1 = ecnStateFailed) as Hf1 by by inversion He.
  destruct (IH Hi1 Hf1) as [H1 H2]. split; [done|]. constructor; [|done]. cbn. intros ->.
  destruct (Hs eq_refl) as [[[?|?] _]|?]; congruence.
Qed.

(** ECN validation always terminates a step without a panic and follows
    its state machine.  On every run from a new tracker the marked packets are
    sent either among the first ten, while testing, or after the path was
    confirmed capable; and a failure is final: no later packet is marked. *)
Theorem ecn_validation_safe os :
  exists l e, ecn_run newECNTracker os l e /\ ecn_inv e /\
    Forall (fun x => sent_when x.1 x.2) l /\
    forall os' l' e', ecn_run e os' l' e' -> state e = ecnStateFailed ->
      state e' = ecnStateFailed /\ Forall (fun x => x.2 <> Some ECT0) l'.
Proof.
  assert (H : forall e, ecn_inv e -> exists l e', ecn_run e os l e' /\ ecn_inv e' /\
    Forall (fun x => sent_when x.1 x.2) l).
  { induction os as [|o os IH]; intros e Hi; [exists [], e; split; [apply ecn_run_nil|by split; [|constructor]]|].
    destruct (ecn_do_spec e o Hi) as (e1 & m & Hdo & Hi1 & _ & Hs).
    destruct (IH e1 Hi1) as (l & e' & Hr & Hi' & Hl).
    exists ((e, m) :: l), e'. split; [by econstructor|]. split; [done|]. by constructor. }
  destruct (H _ newECNTracker_inv) as (l & e & Hr & Hi & Hl). exists l, e.
  split_and!; try done. intros. by eapply ecn_failed_stays.
Qed.

(** A path is only confirmed as ECN capable by an acknowledgement of a
    testing packet whose reported ECT counts grew, do not exceed what was sent,
    and together with the CE count account for every packet acknowledged that
    the tracker knows was marked; and a congestion signal is only reported on a
    capable path, when the CE count grew. *)
Theorem ecn_capable_confirmed e pns c0 c1 ce e' congested :
  HandleNewlyAcked e pns c0 c1 ce = (e', congested) ->
  (state e' = ecnStateCapable -> state e <> ecnStateCapable ->
   c0 <= numSentECT0 e /\ c1 <= numSentECT1 e /\
   (exists pn, In pn pns /\ isTestingPacket e pn = true) /\
   (0 < i64 (c0 - numAckedECT0 e) \/ 0 < i64 (c1 - numAckedECT1 e)) /\
   countMarked e ECT0 pns <= i64 (i64 (c0 - numAckedECT0 e) + i64 (ce - numAckedECNCE e))) /\
  (congested = true -> state e' = ecnStateCapable /\ 0 < i64 (ce - numAckedECNCE e)).
Proof.
  unfold HandleNewlyAcked.
  assert (Hf : state (set_state ecnStateFailed e) = ecnStateFailed) by apply state_set_state.
  destruct (bool_decide _) eqn:E0; [intros [= <- <-]; by apply bool_decide_eq_true in E0 as ->|].
  destruct (_ || _) eqn:E1; [intros [= <- <-]; by rewrite Hf|].
  destruct (((0 <? countMarked e ECT0 pns) || _) && _ && _ && _); [intros [= <- <-]; by rewrite Hf|].
  destruct (_ || _ || _); [intros [= <- <-]; by rewrite Hf|].
  destruct (_ <? countMarked e ECT0 pns) eqn:E4; [intros [= <- <-]; by rewrite Hf|].
  destruct (_ <? countMarked e ECT1 pns); [intros [= <- <-]; by rewrite Hf|].
  apply orb_false_iff in E1 as [?%Z.ltb_ge ?%Z.ltb_ge]. apply Z.ltb_ge in E4.
  set (n0 := i64 (c0 - numAckedECT0 e)) in *. set (n1 := i64 (c1 - numAckedECT1 e)) in *.
  set (nce := i64 (ce - numAckedECNCE e)) in *.
  assert (Ht : forall pn, isTestingPacket (set_acked c0 c1 ce e) pn = isTestingPacket e pn)
    by by destruct e.
  assert (Hs : state (set_acked c0 c1 ce e) = state e) by by destruct e.
  unfold ecn_conclude. set (e1 := if bool_decide (_ = ecnStateUnknown) then _ else _).
  assert (H1 : e1 = set_acked c0 c1 ce e \/ e1 = set_state ecnStateFailed (set_acked c0 c1 ce e)).
  { subst e1. case_match; [apply failIfMangled_cases|by left]. }
  clearbody e1. destruct H1 as [-> | ->].
  2:{ rewrite bool_decide_eq_true_2 by apply state_set_state. intros [= <- <-].
      by rewrite state_set_state. }
  rewrite Hs, E0. intros [= <- <-]. split.
  - intros Hc Hnc. split_and!; try done.
    all: destruct (state e) eqn:Es; try done; try congruence;
      (destruct (existsb _ _ && _) eqn:Ex; [|congruence]);
      apply andb_true_iff in Ex as [Ex1 Ex2].
    1,2: apply existsb_exists in Ex1 as (pn & Hin & Hpn); exists pn; by rewrite <- Ht.
    all: apply orb_true_iff in Ex2 as [?%Z.ltb_lt|?%Z.ltb_lt]; auto.
  - intros [Hc Hn]%andb_true_iff. apply bool_decide_eq_true in Hc. by apply Z.ltb_lt in Hn.
Qed.

(** Packets [0 .. n-1] sent with the marking of the current mode. *)
Fixpoint send_many (n : nat) (pn : Z) (e : ecnTracker) : ecnTracker :=
  match n with
  | O => e
  | S n' =>
      match ecn_do e (EcnSend pn) with
      | Ok (e, _) => send_many n' (pn + 1) e
      | _ => e
      end
  end.

Lemma ecn_capable_confirmed_witness :
  let e := send_many 3 0 newECNTracker in
  let r := HandleNewlyAcked e [1] 1 0 1 in
  state r.1 = ecnStateCapable /\ r.2 = true /\
  1 <= numSentECT0 e /\ exists pn, In pn [1] /\ isTestingPacket e pn = true.
Proof.
  intros e r.
  destruct (ecn_capable_confirmed e [1] 1 0 1 r.1 r.2) as [H1 H2]; [apply surjective_pairing|].
  destruct H1 as (H3 & _ & H4 & _); [vm_compute; reflexivity|vm_compute; discriminate|].
  split; [vm_compute; reflexivity|]. split; [vm_compute; reflexivity|]. split; [exact H3|exact H4].
Defined.

(** [ecnMarking] misses the last testing packet: it compares with [<]
    where [isTestingPacket] compares with [<=].  After ten testing packets 0 to 9,
    all sent with ECT(0), it reports packet 9 as not marked, so that an ACK of
    packet 9 without any ECN counts passes, although the same ACK of packet 8
    fails the validation as it should. *)
Theorem ecn_last_testing_packet_missed :
  let e := send_many 10 0 newECNTracker in
  numSentECT0 e = 10 /\ isTestingPacket e 9 = true /\
  ecnMarking e 8 = ECT0 /\ ecnMarking e 9 = ECNNon /\
  state (HandleNewlyAcked e [8] 0 0 0).1 = ecnStateFailed /\
  state (HandleNewlyAcked e [9] 0 0 0).1 = ecnStateUnknown.
Proof. vm_compute. done. Qed.
