(* ===== verification/GoFloat.v ===== *)
(** * GoFloat: the float32 and float64 arithmetic of the sources

    Go rounds every operation to the nearest value of the type, ties to even.
    The values that occur here (durations, byte counts and their products with
    small constants) neither overflow nor underflow, so a float is a dyadic
    number [fm * 2 ^ fe] and rounding cuts the significand to [prec] bits: 24
    for float32, 53 for float64.  Expressions [x*y + z] are rounded twice, as on
    platforms where the compiler does not fuse them. *)

From S2P Require Import Prelude.
From stdpp Require Import base numbers list option strings.
From Stdlib Require Import ZArith Lia.
#[local] Open Scope Z_scope.

Record flt := mkFlt { fm : Z; fe : Z }.

Definition prec32 : Z := 24.
Definition prec64 : Z := 53.

(** [m / 2 ^ k] to the nearest integer, ties to even, for [0 <= m], [0 < k]. *)
Definition rne (m k : Z) : Z :=
  let q := m / 2 ^ k in
  let r := m mod 2 ^ k in
  let half := 2 ^ (k - 1) in
  if r <? half then q
  else if half <? r then q + 1
  else if Z.even q then q else q + 1.

Definition fround (prec : Z) (x : flt) : flt :=
  let k := Z.log2 (Z.abs (fm x)) + 1 - prec in
  if k <=? 0 then x
  else mkFlt (Z.sgn (fm x) * rne (Z.abs (fm x)) k) (fe x + k).

Definition fofint (prec z : Z) : flt := fround prec (mkFlt z 0).

Definition fmul (prec : Z) (x y : flt) : flt := fround prec (mkFlt (fm x * fm y) (fe x + fe y)).

Definition fadd (prec : Z) (x y : flt) : flt :=
  let e := Z.min (fe x) (fe y) in
  fround prec (mkFlt (fm x * 2 ^ (fe x - e) + fm y * 2 ^ (fe y - e)) e).

(** Division: the quotient to [prec + 2] bits and more, and a sticky bit for the
    rest, which decides the rounding as the exact quotient would.  [None] is an
    infinity or not-a-number. *)
Definition fdiv (prec : Z) (x y : flt) : option flt :=
  if fm y =? 0 then None
  else
    let s := Z.max 0 (Z.log2 (Z.abs (fm y)) - Z.log2 (Z.abs (fm x)) + prec + 3) in
    let n := Z.abs (fm x) * 2 ^ s in
    let d := Z.abs (fm y) in
    let q := 2 * (n / d) + (if n mod d =? 0 then 0 else 1) in
    Some (fround prec (mkFlt (Z.sgn (fm x) * Z.sgn (fm y) * q) (fe x - fe y - s - 1))).

(** The integer part, towards zero. *)
Definition ftrunc (x : flt) : Z :=
  if 0 <=? fe x then fm x * 2 ^ fe x else Z.quot (fm x) (2 ^ (- fe x)).

(** [math.Ceil] as an integer. *)
Definition fceil (x : flt) : Z :=
  if 0 <=? fe x then fm x * 2 ^ fe x else - ((- fm x) / 2 ^ (- fe x)).

(** [int64(x)]: towards zero, and the minimum integer for a value out of range. *)
Definition toint64 (z : Z) : Z :=
  if (- 2 ^ 63 <=? z) && (z <? 2 ^ 63) then z else - 2 ^ 63.

(** ** Lemmas *)

Lemma fround_exact prec x : Z.abs (fm x) < 2 ^ prec -> 0 < prec -> fround prec x = x.
Proof.
  intros Hx Hp. unfold fround.
  assert (Z.log2 (Z.abs (fm x)) + 1 - prec <= 0).
  { destruct (Z.eq_dec (Z.abs (fm x)) 0) as [->|]; [cbn; lia|].
    apply Z.log2_lt_pow2 in Hx; lia. }
  by ztrue (Z.log2 (Z.abs (fm x)) + 1 - prec <=? 0).
Qed.

Lemma rne_error m k : 0 <= m -> 0 < k -> - 2 ^ (k - 1) <= rne m k * 2 ^ k - m <= 2 ^ (k - 1).
Proof.
  intros Hm Hk. unfold rne.
  assert (Hpow : 2 ^ k = 2 * 2 ^ (k - 1)) by (rewrite <- Z.pow_succ_r by lia; f_equal; lia).
  pose proof (Z.pow_pos_nonneg 2 (k - 1) ltac:(lia) ltac:(lia)).
  pose proof (Z.div_mod m (2 ^ k) ltac:(lia)). pose proof (Z.mod_pos_bound m (2 ^ k) ltac:(lia)).
  set (q := m / 2 ^ k) in *. set (r := m mod 2 ^ k) in *. set (h := 2 ^ (k - 1)) in *.
  rewrite Hpow in *.
  destruct (Z.ltb_spec r h), (Z.ltb_spec h r), (Z.even q); nia.
Qed.

Lemma fofint_exact prec z : Z.abs z < 2 ^ prec -> 0 < prec -> fofint prec z = mkFlt z 0.
Proof. intros. by apply fround_exact. Qed.

Lemma toint64_small z : is_i64 z -> toint64 z = z.
Proof.
  unfold is_i64, toint64. intros. ztrue (- 2 ^ 63 <=? z). by ztrue (z <? 2 ^ 63).
Qed.

(** A product that fits in the significand is exact. *)
Lemma fmul_exact prec x y :
  Z.abs (fm x * fm y) < 2 ^ prec -> 0 < prec ->
  fmul prec x y = mkFlt (fm x * fm y) (fe x + fe y).
Proof. intros. unfold fmul. by rewrite fround_exact. Qed.

(** A sum of two numbers with the same exponent that fits is exact. *)
Lemma fadd_exact prec a b e :
  Z.abs (a + b) < 2 ^ prec -> 0 < prec ->
  fadd prec (mkFlt a e) (mkFlt b e) = mkFlt (a + b) e.
Proof.
  intros. unfold fadd; cbn. rewrite Z.min_id, Z.sub_diag, !Z.mul_1_r. by rewrite fround_exact.
Qed.

Lemma ftrunc_neg_exp m k : 0 <= m -> 0 < k -> ftrunc (mkFlt m (- k)) = m / 2 ^ k.
Proof.
  intros. unfold ftrunc; cbn. zfalse (0 <=? - k). rewrite Z.opp_involutive.
  apply Z.quot_div_nonneg; [lia|]. apply Z.pow_pos_nonneg; lia.
Qed.

(** ** Rounded division does not lose the ceiling *)

Lemma fceil_neg_exp m k : 0 < k ->
  m <= fceil (mkFlt m (- k)) * 2 ^ k < m + 2 ^ k.
Proof.
  intros Hk. unfold fceil; cbn. zfalse (0 <=? - k). rewrite Z.opp_involutive.
  pose proof (Z.pow_pos_nonneg 2 k ltac:(lia) ltac:(lia)).
  pose proof (Z.div_mod (- m) (2 ^ k) ltac:(lia)). pose proof (Z.mod_pos_bound (- m) (2 ^ k) ltac:(lia)).
  nia.
Qed.

(** The rounded quotient of [fdiv]: [m] carries the quotient and a sticky bit,
    scaled by [2 ^ (s + 1)]; rounding keeps an error of at most [2 ^ (k - 1)]
    for a [k] that is small against [m]. *)
Lemma fround_ceil prec m s :
  0 < prec -> 0 < m -> 0 <= s ->
  exists k err c, fceil (fround prec (mkFlt m (- (s + 1)))) = c /\ 0 <= k /\
    m - err <= c * 2 ^ (s + 1) < m + err + 2 ^ (s + 1) /\
    (k = 0 /\ err = 0 \/ 0 < k /\ err = 2 ^ (k - 1) /\ 2 ^ (k + prec - 1) <= m).
Proof.
  intros Hp Hm Hs. unfold fround; cbn [fm fe]. rewrite Z.abs_eq by lia.
  set (k := Z.log2 m + 1 - prec). destruct (Z.leb_spec k 0) as [Hk|Hk].
  - exists 0, 0. eexists. split; [reflexivity|]. split; [lia|].
    pose proof (fceil_neg_exp m (s + 1) ltac:(lia)). split; [lia|auto].
  - pose proof (rne_error m k ltac:(lia) Hk) as He.
    pose proof (Z.log2_spec m Hm) as [Hl1 Hl2].
    rewrite Z.sgn_pos, Z.mul_1_l by lia.
    exists k, (2 ^ (k - 1)). eexists. split; [reflexivity|]. split; [lia|]. split.
    2:{ right. split_and!; [done|done|]. by replace (k + prec - 1) with (Z.log2 m) by (subst k; lia). }
    set (m' := rne m k) in *.
    destruct (Z.lt_ge_cases k (s + 1)) as [Hks|Hks].
    + replace (- (s + 1) + k) with (- (s + 1 - k)) by lia.
      pose proof (fceil_neg_exp m' (s + 1 - k) ltac:(lia)) as Hc.
      set (c := fceil _) in *.
      assert (Hpow : 2 ^ (s + 1) = 2 ^ (s + 1 - k) * 2 ^ k)
        by (rewrite <- Z.pow_add_r by lia; f_equal; lia).
      pose proof (Z.pow_pos_nonneg 2 k ltac:(lia) ltac:(lia)). rewrite Hpow. nia.
    + unfold fceil; cbn. ztrue (0 <=? - (s + 1) + k).
      assert (Hpow : 2 ^ k = 2 ^ (- (s + 1) + k) * 2 ^ (s + 1))
        by (rewrite <- Z.pow_add_r by lia; f_equal; lia).
      pose proof (Z.pow_pos_nonneg 2 (s + 1) ltac:(lia) ltac:(lia)).
      rewrite Hpow, Z.mul_assoc in He. lia.
Qed.

Lemma fdiv_ceil n d :
  0 < n < 2 ^ 51 -> 0 < d ->
  exists x, fdiv prec64 (mkFlt n 0) (mkFlt d 0) = Some x /\
    n <= d * fceil x <= 2 * n + 2 * d.
Proof.
  intros Hn Hd. unfold fdiv, prec64; cbn [fm fe]. zfalse (d =? 0).
  rewrite (Z.abs_eq n), (Z.abs_eq d), (Z.sgn_pos n), (Z.sgn_pos d) by lia.
  set (s := Z.max 0 (Z.log2 d - Z.log2 n + 53 + 3)). rewrite !Z.mul_1_l.
  replace (0 - 0 - s - 1) with (- (s + 1)) by lia.
  set (N := n * 2 ^ s). set (Q := N / d). set (m := 2 * Q + _).
  assert (Hs : 0 <= s) by lia.
  assert (HP : 0 < 2 ^ s) by (apply Z.pow_pos_nonneg; lia).
  assert (HP1 : 2 ^ (s + 1) = 2 * 2 ^ s) by (rewrite Z.pow_add_r by lia; lia).
  pose proof (Z.div_mod N d ltac:(lia)) as Hdm. fold Q in Hdm.
  pose proof (Z.mod_pos_bound N d ltac:(lia)) as Hr.
  assert (HNpos : 0 < N) by (subst N; nia).
  assert (HQ : 0 <= Q) by (apply Z.div_pos; lia).
  (* [m] is the scaled quotient from above, up to its sticky bit. *)
  assert (Hm : (N mod d = 0 /\ m = 2 * Q) \/ (0 < N mod d /\ m = 2 * Q + 1)).
  { subst m. destruct (Z.eqb_spec (N mod d) 0); [left|right]; lia. }
  assert (Hmpos : 0 < m) by (destruct Hm as [[? ->]|[? ->]]; nia).
  destruct (fround_ceil 53 m s ltac:(lia) Hmpos Hs) as (k & err & c & Hc & Hk & Hb & Herr).
  eexists. split; [reflexivity|]. rewrite Hc. rewrite HP1 in Hb. clearbody m Q s.
  assert (Hup : m * d <= 2 * N + d) by (destruct Hm as [[? ->]|[? ->]]; nia).
  assert (HmN : m <= 2 * N + 1) by nia.
  split.
  - destruct Herr as [[_ ->]|(Hk0 & -> & Hkm)].
    + (* no rounding: the left side is even *)
      destruct Hm as [[Hr0 ->]|[Hr0 ->]]; subst N; nia.
    + destruct (Z.lt_ge_cases (d * c) n) as [Hlt|]; [exfalso|lia].
      assert (Hlow : 2 * N - d <= d * m) by (destruct Hm as [[? ->]|[? ->]]; nia).
      assert (HK : 0 < 2 ^ (k - 1)) by (apply Z.pow_pos_nonneg; lia).
      assert (Hkk : 2 ^ (k + 53 - 1) = 2 ^ (k - 1) * 2 ^ 53)
        by (rewrite <- Z.pow_add_r by lia; f_equal; lia).
      rewrite Hkk in Hkm. set (K := 2 ^ (k - 1)) in *. clearbody K. clear Hkk Hk Hk0 Hc.
      assert (H1 : 2 * 2 ^ s <= d * (1 + K)).
      { assert (d * (m - K) <= d * (c * (2 * 2 ^ s))) by nia. subst N. nia. }
      assert (H2 : K * 2 ^ 53 * d <= n * (2 * 2 ^ s) + d) by (subst N; nia).
      assert (H3 : K * 2 ^ 53 * d <= n * (d * (1 + K)) + d) by nia.
      assert (K * 2 ^ 53 <= n * (1 + K) + 1) by nia. nia.
  - assert (Herr' : err <= m).
    { destruct Herr as [[_ ->]|(Hk0 & -> & Hkm)]; [lia|].
      assert (2 ^ (k - 1) <= 2 ^ (k + 53 - 1)) by (apply Z.pow_le_mono_r; lia). lia. }
    assert (d * (c * (2 * 2 ^ s)) < d * (2 * m + 2 * 2 ^ s)) by nia. subst N. nia.
Qed.
