(* ===== verification/RTTStats.v ===== *)
(** * RTTStats: [internal/utils/rtt_stats.go]

    Round-trip time estimation and the probe timeout. *)

From S2P Require Import Prelude Protocol AckFrame GoFloat.
From stdpp Require Import base numbers list option strings.
From Stdlib Require Import ZArith Lia.
#[local] Open Scope Z_scope.

(** The constants of the source, as exact binary fractions. *)
Definition rttAlpha : flt := mkFlt 1 (-3).
Definition oneMinusAlpha : flt := mkFlt 7 (-3).
Definition rttBeta : flt := mkFlt 1 (-2).
Definition oneMinusBeta : flt := mkFlt 3 (-2).
Definition defaultInitialRTT : Z := 100 * Millisecond.

Record RTTStats := mkRTT {
  hasMeasurement : bool;
  minRTT : Z;
  latestRTT : Z;
  smoothedRTT : Z;
  meanDeviation : Z;
  rttMaxAckDelay : Z
}.

Definition NewRTTStats : RTTStats := mkRTT false 0 0 0 0 0.

(** [AbsDuration] *)
Definition AbsDuration (d : Z) : Z := if 0 <=? d then d else i64 (- d).

Definition PTO (r : RTTStats) (includeMaxAckDelay : bool) : Z :=
  if smoothedRTT r =? 0 then 2 * defaultInitialRTT
  else
    let pto := i64 (smoothedRTT r + Z.max (i64 (4 * meanDeviation r)) TimerGranularity) in
    if includeMaxAckDelay then i64 (pto + rttMaxAckDelay r) else pto.

(** [float32(d/time.Microsecond)] *)
Definition microFloat (d : Z) : flt := fofint prec32 (Z.quot d Microsecond).

(** [time.Duration(x) * time.Microsecond] *)
Definition fromMicroFloat (x : flt) : Z := i64 (toint64 (ftrunc x) * Microsecond).

Definition ewmaMeanDeviation (r : RTTStats) (sample : Z) : Z :=
  fromMicroFloat
    (fadd prec32
      (fmul prec32 oneMinusBeta (microFloat (meanDeviation r)))
      (fmul prec32 rttBeta (microFloat (AbsDuration (i64 (smoothedRTT r - sample)))))).

Definition ewmaSmoothedRTT (r : RTTStats) (sample : Z) : Z :=
  fromMicroFloat
    (fadd prec32
      (fmul prec32 (microFloat (smoothedRTT r)) oneMinusAlpha)
      (fmul prec32 (microFloat sample) rttAlpha)).

Definition UpdateRTT (r : RTTStats) (sendDelta ackDelay : Z) : RTTStats :=
  if (sendDelta =? InfDuration) || (sendDelta <=? 0) then r
  else
    let newMin := if (minRTT r =? 0) || (sendDelta <? minRTT r) then sendDelta else minRTT r in
    let sample := if ackDelay <=? i64 (sendDelta - newMin) then i64 (sendDelta - ackDelay)
                  else sendDelta in
    if negb (hasMeasurement r) then
      mkRTT true newMin sample sample (Z.quot sample 2) (rttMaxAckDelay r)
    else
      mkRTT true newMin sample (ewmaSmoothedRTT r sample) (ewmaMeanDeviation r sample)
        (rttMaxAckDelay r).

Definition SetMaxAckDelay (r : RTTStats) (mad : Z) : RTTStats :=
  mkRTT (hasMeasurement r) (minRTT r) (latestRTT r) (smoothedRTT r) (meanDeviation r) mad.

Definition SetInitialRTT (r : RTTStats) (t : Z) : RTTStats :=
  if hasMeasurement r then r
  else mkRTT (hasMeasurement r) (minRTT r) t t (meanDeviation r) (rttMaxAckDelay r).

Definition rtt_OnConnectionMigration (r : RTTStats) : RTTStats :=
  mkRTT (hasMeasurement r) 0 0 0 0 (rttMaxAckDelay r).

Definition ExpireSmoothedMetrics (r : RTTStats) : RTTStats :=
  mkRTT (hasMeasurement r) (minRTT r) (latestRTT r)
    (Z.max (smoothedRTT r) (latestRTT r))
    (Z.max (meanDeviation r) (AbsDuration (i64 (smoothedRTT r - latestRTT r))))
    (rttMaxAckDelay r).

(** ** Reference: the integer arithmetic of RFC 9002, section 5.3 *)

Definition micros (d : Z) : Z := d / Microsecond.
Definition ref_smoothed (s sample : Z) : Z := ((7 * micros s + micros sample) / 8) * Microsecond.
Definition ref_deviation (d s sample : Z) : Z :=
  ((3 * micros d + micros (Z.abs (s - sample))) / 4) * Microsecond.

(** About two seconds: three more bits are left in a float32 significand. *)
Definition exactLimit : Z := 2 ^ 21 * Microsecond.

Lemma microFloat_exact d : 0 <= d < exactLimit ->
  microFloat d = mkFlt (micros d) 0 /\ 0 <= micros d < 2 ^ 21.
Proof.
  unfold microFloat, micros, exactLimit, Microsecond. intros Hd.
  rewrite Z.quot_div_nonneg by lia.
  assert (0 <= d / 1000 < 2 ^ 21).
  { split; [apply Z.div_pos; lia|apply Z.div_lt_upper_bound; lia]. }
  split; [|done]. apply fofint_exact; unfold prec32; lia.
Qed.

Lemma AbsDuration_abs d : - 2 ^ 62 < d < 2 ^ 62 -> AbsDuration (i64 d) = Z.abs d.
Proof.
  intros. rewrite i64_small by int_range. unfold AbsDuration.
  destruct (Z.leb_spec 0 d); [lia|]. rewrite i64_small by int_range. lia.
Qed.

Lemma fromMicroFloat_frac m k :
  0 <= m < 2 ^ 24 -> 0 < k -> fromMicroFloat (mkFlt m (- k)) = (m / 2 ^ k) * Microsecond.
Proof.
  intros Hm Hk. unfold fromMicroFloat, Microsecond. rewrite ftrunc_neg_exp by lia.
  pose proof (Z.pow_pos_nonneg 2 k ltac:(lia) ltac:(lia)).
  assert (0 <= m / 2 ^ k <= m).
  { split; [apply Z.div_pos; lia|apply Z.div_le_upper_bound; nia]. }
  rewrite toint64_small by int_range. apply i64_small. int_range.
Qed.

Lemma ewmaSmoothedRTT_exact r sample :
  0 <= smoothedRTT r < exactLimit -> 0 <= sample < exactLimit ->
  ewmaSmoothedRTT r sample = ref_smoothed (smoothedRTT r) sample.
Proof.
  intros Hs Hx. destruct (microFloat_exact _ Hs) as [E1 B1].
  destruct (microFloat_exact _ Hx) as [E2 B2].
  unfold ewmaSmoothedRTT, ref_smoothed, oneMinusAlpha, rttAlpha. rewrite E1, E2.
  rewrite !fmul_exact by (unfold prec32; cbn [fm fe]; lia). cbn [fm fe].
  rewrite fadd_exact by (unfold prec32; lia).
  rewrite (fromMicroFloat_frac _ 3) by lia. unfold Microsecond. do 2 f_equal. lia.
Qed.

Lemma ewmaMeanDeviation_exact r sample :
  0 <= meanDeviation r < exactLimit -> 0 <= smoothedRTT r < exactLimit ->
  0 <= sample < exactLimit ->
  ewmaMeanDeviation r sample = ref_deviation (meanDeviation r) (smoothedRTT r) sample.
Proof.
  intros Hd Hs Hx.
  assert (HL : exactLimit = 2097152000) by reflexivity.
  unfold ewmaMeanDeviation, ref_deviation, oneMinusBeta, rttBeta.
  rewrite AbsDuration_abs by lia.
  destruct (microFloat_exact _ Hd) as [E1 B1].
  destruct (microFloat_exact (Z.abs (smoothedRTT r - sample)) ltac:(lia)) as [E2 B2].
  rewrite E1, E2. rewrite !fmul_exact by (unfold prec32; cbn [fm fe]; lia). cbn [fm fe].
  rewrite fadd_exact by (unfold prec32; lia).
  rewrite (fromMicroFloat_frac _ 2) by lia. unfold Microsecond. do 2 f_equal. lia.
Qed.

(** ** Invariant *)

Record rtt_inv (r : RTTStats) : Prop := {
  ri_min : 0 <= minRTT r < InfDuration;
  ri_latest : 0 <= latestRTT r < InfDuration;
  ri_measured : hasMeasurement r = true -> 0 < minRTT r <= latestRTT r
}.

(** A sample the estimator uses. *)
Definition valid_sample (sendDelta : Z) : Prop := 0 < sendDelta < InfDuration.

Lemma UpdateRTT_ignored r sendDelta ackDelay :
  ~ valid_sample sendDelta -> sendDelta <= InfDuration -> UpdateRTT r sendDelta ackDelay = r.
Proof.
  unfold valid_sample. intros Hn Hle. unfold UpdateRTT.
  destruct (Z.eqb_spec sendDelta InfDuration); [done|].
  by ztrue (sendDelta <=? 0).
Qed.

(** The minimum over the samples seen so far; 0 stands for none. *)
Definition min_sample (m sendDelta : Z) : Z := if m =? 0 then sendDelta else Z.min m sendDelta.

Lemma UpdateRTT_sample r sendDelta ackDelay :
  rtt_inv r -> valid_sample sendDelta -> 0 <= ackDelay < InfDuration ->
  let r' := UpdateRTT r sendDelta ackDelay in
  minRTT r' = min_sample (minRTT r) sendDelta /\
  latestRTT r' = (if ackDelay <=? sendDelta - minRTT r' then sendDelta - ackDelay else sendDelta) /\
  0 < minRTT r' <= latestRTT r' /\ latestRTT r' <= sendDelta /\ hasMeasurement r' = true.
Proof.
  unfold valid_sample, InfDuration. intros [H1 H2 H3] Hv Ha. unfold UpdateRTT, min_sample.
  unfold InfDuration in *.
  zfalse (sendDelta =? 2 ^ 63 - 1). zfalse (sendDelta <=? 0). cbn [orb].
  set (m := if (minRTT r =? 0) || (sendDelta <? minRTT r) then sendDelta else minRTT r).
  assert (Hm : m = (if minRTT r =? 0 then sendDelta else Z.min (minRTT r) sendDelta)).
  { subst m. destruct (Z.eqb_spec (minRTT r) 0); [done|]. cbn.
    destruct (Z.ltb_spec sendDelta (minRTT r)); lia. }
  assert (0 < m <= sendDelta) by (rewrite Hm; destruct (Z.eqb_spec (minRTT r) 0); lia).
  rewrite (i64_small (sendDelta - m)), (i64_small (sendDelta - ackDelay)) by int_range.
  rewrite <- Hm. destruct (hasMeasurement r); cbn;
    (destruct (Z.leb_spec ackDelay (sendDelta - m)); split_and!; try done; lia).
Qed.

Lemma UpdateRTT_inv r sendDelta ackDelay :
  rtt_inv r -> sendDelta <= InfDuration -> 0 <= ackDelay < InfDuration ->
  rtt_inv (UpdateRTT r sendDelta ackDelay).
Proof.
  intros Hi Hle Ha. destruct (decide (0 < sendDelta)); [destruct (decide (sendDelta < InfDuration))|].
  - destruct (UpdateRTT_sample r sendDelta ackDelay Hi ltac:(done) Ha) as (H1 & H2 & H3 & H4 & H5).
    constructor; try lia.
  - rewrite UpdateRTT_ignored; [done| |lia]. unfold valid_sample; lia.
  - rewrite UpdateRTT_ignored; [done| |lia]. unfold valid_sample; lia.
Qed.

(** ** The claims *)

Definition update_all (r : RTTStats) (samples : list (Z * Z)) : RTTStats :=
  foldl (fun r '(sendDelta, ackDelay) => UpdateRTT r sendDelta ackDelay) r samples.

Definition sample_ok (x : Z * Z) : Prop := x.1 <= InfDuration /\ 0 <= x.2 < InfDuration.

(** The usable round-trip times among the samples. *)
Definition usable (samples : list (Z * Z)) : list Z :=
  filter (fun d => 0 < d < InfDuration) samples.*1.

(** After any sequence of updates [minRTT] is the minimum of the usable
    samples (0 if there were none), and the latest RTT, corrected by the
    acknowledgement delay or not, never falls below that minimum. *)
Theorem rtt_min_is_minimum samples :
  Forall sample_ok samples ->
  let r := update_all NewRTTStats samples in
  minRTT r = foldl min_sample 0 (usable samples) /\
  (usable samples <> [] -> 0 < minRTT r <= latestRTT r) /\
  Forall (fun d => minRTT r <= d) (usable samples).
Proof.
  intros Hok. induction samples as [|[sd ad] samples IH] using rev_ind; [done|].
  apply Forall_app in Hok as [Hok Hx]. apply Forall_singleton in Hx as [Hx1 Hx2]; cbn in *.
  specialize (IH Hok). destruct IH as (I1 & I2 & I3).
  unfold update_all, usable in *. rewrite foldl_app, fmap_app, filter_app. cbn [foldl fmap list_fmap fst].
  set (r := foldl _ NewRTTStats samples) in *.
  assert (Hinv : rtt_inv r).
  { subst r. clear -Hok. induction samples as [|[sd ad] samples IH] using rev_ind;
      [by constructor|]. apply Forall_app in Hok as [Hok Hx].
    apply Forall_singleton in Hx as [Hx1 Hx2]; cbn in *.
    rewrite foldl_app; cbn. apply UpdateRTT_inv; auto. }
  rewrite filter_cons, filter_nil.
  case_decide as Hv.
  - destruct (UpdateRTT_sample r sd ad Hinv Hv Hx2) as (H1 & _ & H3 & _ & _).
    rewrite foldl_app; cbn. rewrite <- I1. split_and!; [done|done|].
    apply Forall_app. rewrite H1. unfold min_sample. split.
    + destruct (Z.eqb_spec (minRTT r) 0) as [E|E].
      * destruct (filter _ samples.*1); [done|]. destruct I2; [done|]. lia.
      * eapply Forall_impl; [exact I3|]. cbn. lia.
    + apply Forall_singleton. destruct (Z.eqb_spec (minRTT r) 0); lia.
  - rewrite app_nil_r, UpdateRTT_ignored by (done || lia). done.
Qed.

Lemma rtt_min_is_minimum_witness :
  let samples := [(30 * Millisecond, 0); (-1, 0); (20 * Millisecond, 5); (25 * Millisecond, 3 * Millisecond)] in
  Forall sample_ok samples /\ minRTT (update_all NewRTTStats samples) = 20 * Millisecond.
Proof.
  intros samples.
  assert (Hok : Forall sample_ok samples)
    by (repeat constructor; cbn; vm_compute; discriminate || reflexivity).
  split; [exact Hok|].
  destruct (rtt_min_is_minimum samples Hok) as [H _]. rewrite H. vm_compute. reflexivity.
Defined.

(** C36: For round-trip times below about two seconds the float32 arithmetic of
    [UpdateRTT] is exact: the smoothed RTT and the mean deviation are those of
    the integer formulas 7/8, 1/8 and 3/4, 1/4 on whole microseconds. *)
Theorem rtt_ewma_exact r sendDelta ackDelay :
  rtt_inv r -> hasMeasurement r = true -> 0 <= ackDelay < InfDuration ->
  0 < sendDelta < exactLimit ->
  0 <= smoothedRTT r < exactLimit -> 0 <= meanDeviation r < exactLimit ->
  let r' := UpdateRTT r sendDelta ackDelay in
  smoothedRTT r' = ref_smoothed (smoothedRTT r) (latestRTT r') /\
  meanDeviation r' = ref_deviation (meanDeviation r) (smoothedRTT r) (latestRTT r') /\
  0 <= smoothedRTT r' <= Z.max (smoothedRTT r) (latestRTT r').
Proof.
  intros Hi Hm Ha Hs Hsm Hd r'.
  assert (HL : exactLimit = 2097152000) by reflexivity.
  assert (HI : InfDuration = 2 ^ 63 - 1) by reflexivity.
  destruct (UpdateRTT_sample r sendDelta ackDelay Hi) as (H1 & H2 & H3 & H4 & _);
    [unfold valid_sample; lia|done|]. fold r' in H1, H2, H3, H4.
  assert (Hr : smoothedRTT r' = ewmaSmoothedRTT r (latestRTT r') /\
    meanDeviation r' = ewmaMeanDeviation r (latestRTT r')).
  { subst r'. unfold UpdateRTT. zfalse (sendDelta =? InfDuration). zfalse (sendDelta <=? 0).
    rewrite Hm. done. }
  destruct Hr as [-> ->].
  rewrite ewmaSmoothedRTT_exact, ewmaMeanDeviation_exact by lia.
  split_and!; try done.
  all: unfold ref_smoothed, micros, Microsecond;
    generalize (Z.div_mod (smoothedRTT r) 1000 ltac:(lia)),
      (Z.mod_pos_bound (smoothedRTT r) 1000 ltac:(lia)),
      (Z.div_mod (latestRTT r') 1000 ltac:(lia)),
      (Z.mod_pos_bound (latestRTT r') 1000 ltac:(lia));
    generalize (smoothedRTT r / 1000), (smoothedRTT r mod 1000), (latestRTT r' / 1000),
      (latestRTT r' mod 1000); intros a a' b b' ? ? ? ?;
    pose proof (Z.div_mod (7 * a + b) 8 ltac:(lia));
    pose proof (Z.mod_pos_bound (7 * a + b) 8 ltac:(lia)); lia.
Qed.

Definition rtt_ex : RTTStats := UpdateRTT NewRTTStats (33 * Millisecond) 0.

Lemma rtt_ewma_exact_witness :
  rtt_inv rtt_ex /\
  smoothedRTT (UpdateRTT rtt_ex (41 * Millisecond) 0) = 34 * Millisecond.
Proof.
  assert (Hi : rtt_inv rtt_ex).
  { apply UpdateRTT_inv; [by constructor|vm_compute; discriminate|vm_compute; split; discriminate || reflexivity]. }
  split; [exact Hi|].
  destruct (rtt_ewma_exact rtt_ex (41 * Millisecond) 0) as [H _];
    [exact Hi|reflexivity|vm_compute; split; discriminate || reflexivity..|].
  rewrite H. vm_compute. reflexivity.
Defined.
