(* ===== verification/Congestion.v ===== *)
(** * Congestion: [internal/congestion]

    Hybrid slow start, the token bucket pacer and the Reno congestion controller
    ([cubic_sender.go] with [reno] set, which is how [newSentPacketHandler]
    creates it).  The sender keeps a pointer to the shared [RTTStats]; here the
    statistics are an argument of the operations that read them.  The state and
    operations of [cubic.go] are the class [CubicAlgorithm], which the sender is
    generic in.  Tracing is left out. *)

From S2P Require Import Prelude Protocol AckFrame GoFloat RTTStats.
From stdpp Require Import base numbers list option strings.
From Stdlib Require Import ZArith Lia.
#[local] Open Scope Z_scope.

(** ** [hybrid_slow_start.go] *)

Definition hybridStartLowWindow : Z := 16.
Definition hybridStartMinSamples : Z := 8.
Definition hybridStartDelayFactorExp : Z := 3.
Definition hybridStartDelayMinThresholdUs : Z := 4000.
Definition hybridStartDelayMaxThresholdUs : Z := 16000.

Record HybridSlowStart := mkHSS {
  endPacketNumber : Z;
  lastSentPacketNumber : Z;
  started : bool;
  currentMinRTT : Z;
  rttSampleCount : Z;
  hystartFound : bool
}.

Definition newHybridSlowStart : HybridSlowStart := mkHSS 0 0 false 0 0 false.

Definition StartReceiveRound (s : HybridSlowStart) (lastSent : Z) : HybridSlowStart :=
  mkHSS lastSent (lastSentPacketNumber s) true 0 0 (hystartFound s).

Definition IsEndOfRound (s : HybridSlowStart) (ack : Z) : bool := endPacketNumber s <? ack.

Definition ShouldExitSlowStart (s : HybridSlowStart) (latest min congestionWindow : Z)
    : HybridSlowStart * bool :=
  let s := if negb (started s) then StartReceiveRound s (lastSentPacketNumber s) else s in
  if hystartFound s then (s, true)
  else
    let count := u32 (rttSampleCount s + 1) in
    let curMin :=
      if (count <=? hybridStartMinSamples) && ((currentMinRTT s =? 0) || (latest <? currentMinRTT s))
      then latest else currentMinRTT s in
    let found :=
      if count =? hybridStartMinSamples then
        let thresholdUs := Z.shiftr (Z.quot min Microsecond) hybridStartDelayFactorExp in
        let thresholdUs := Z.min thresholdUs hybridStartDelayMaxThresholdUs in
        let threshold := i64 (Z.max thresholdUs hybridStartDelayMinThresholdUs * Microsecond) in
        i64 (min + threshold) <? curMin
      else false in
    let s := mkHSS (endPacketNumber s) (lastSentPacketNumber s) (started s) curMin count found in
    (s, (hybridStartLowWindow <=? congestionWindow) && hystartFound s).

Definition hss_OnPacketSent (s : HybridSlowStart) (pn : Z) : HybridSlowStart :=
  mkHSS (endPacketNumber s) pn (started s) (currentMinRTT s) (rttSampleCount s) (hystartFound s).

Definition hss_set_started (v : bool) (s : HybridSlowStart) : HybridSlowStart :=
  mkHSS (endPacketNumber s) (lastSentPacketNumber s) v (currentMinRTT s) (rttSampleCount s)
    (hystartFound s).

Definition hss_OnPacketAcked (s : HybridSlowStart) (ackedPN : Z) : HybridSlowStart :=
  if IsEndOfRound s ackedPN then hss_set_started false s else s.

Definition hss_Restart (s : HybridSlowStart) : HybridSlowStart :=
  mkHSS (endPacketNumber s) (lastSentPacketNumber s) false (currentMinRTT s) (rttSampleCount s) false.

(** ** [bandwidth.go] *)

Definition infBandwidth : Z := 2 ^ 64 - 1.
Definition BytesPerSecond : Z := 8.

Definition BandwidthFromDelta (bytes delta : Z) : Z :=
  u64 (u64 (u64 bytes * u64 Second) / u64 delta * BytesPerSecond).

(** ** [pacer.go] *)

Definition maxBurstSizePackets : Z := 10.
Definition initialMaxDatagramSize : Z := InitialPacketSizeIPv4.

Record pacer := mkPacer {
  budgetAtLastSent : Z;
  pacerMaxDatagramSize : Z;
  lastSentTime : Z
}.

(** The closure [adjustedBandwidth], in bytes/s, from the bandwidth in bits/s. *)
Definition adjustedBandwidth (bandwidth : Z) : Z := u64 (bandwidth / BytesPerSecond * 5) / 4.

Definition maxBurstSize (p : pacer) (bandwidth : Z) : Z :=
  Z.max
    (Z.quot (i64 (u64 ((MinPacingDelay + TimerGranularity) * adjustedBandwidth bandwidth))) Second)
    (i64 (maxBurstSizePackets * pacerMaxDatagramSize p)).

Definition newPacer (bandwidth : Z) : pacer :=
  mkPacer (maxBurstSize (mkPacer 0 initialMaxDatagramSize zeroTime) bandwidth)
    initialMaxDatagramSize zeroTime.

Definition Budget (p : pacer) (bandwidth now : Z) : Z :=
  if Time_IsZero (lastSentTime p) then maxBurstSize p bandwidth
  else
    let budget :=
      i64 (budgetAtLastSent p
           + Z.quot (i64 (i64 (adjustedBandwidth bandwidth) * Time_Sub now (lastSentTime p))) Second) in
    let budget := if budget <? 0 then MaxByteCount else budget in
    Z.min (maxBurstSize p bandwidth) budget.

Definition pacer_SentPacket (p : pacer) (bandwidth sendTime size : Z) : pacer :=
  let budget := Budget p bandwidth sendTime in
  mkPacer (if budget <? size then 0 else i64 (budget - size)) (pacerMaxDatagramSize p) sendTime.

(** [math.Ceil(float64(missing)*1e9/float64(bw))] as a duration; dividing by
    zero gives an infinity, which converts to the minimum integer. *)
Definition pacingDelay (missing bw : Z) : Z :=
  match fdiv prec64 (fmul prec64 (fofint prec64 missing) (fofint prec64 Second)) (fofint prec64 bw) with
  | Some x => toint64 (fceil x)
  | None => - 2 ^ 63
  end.

Definition pacer_TimeUntilSend (p : pacer) (bandwidth : Z) : Z :=
  if pacerMaxDatagramSize p <=? budgetAtLastSent p then zeroTime
  else
    Time_Add (lastSentTime p)
      (Z.max MinPacingDelay
        (pacingDelay (i64 (pacerMaxDatagramSize p - budgetAtLastSent p)) (adjustedBandwidth bandwidth))).

Definition pacer_SetMaxDatagramSize (p : pacer) (s : Z) : pacer :=
  mkPacer (budgetAtLastSent p) s (lastSentTime p).

(** ** [cubic_sender.go] *)

(** What the sender uses of [cubic.go]. *)
Class CubicAlgorithm (C : Type) := {
  cubic_new : C;
  cubic_OnApplicationLimited : C -> C;
  cubic_Reset : C -> C;
  CongestionWindowAfterPacketLoss : C -> Z -> C * Z;
  CongestionWindowAfterAck : C -> Z -> Z -> Z -> Z -> C * Z
}.

Definition maxBurstPackets : Z := 3.
Definition renoBeta : flt := mkFlt 6305039478318694 (-53).   (* the float64 nearest to 0.7 *)
Definition minCongestionWindowPackets : Z := 2.
Definition initialCongestionWindowPackets : Z := 32.

Record cubicSender (C : Type) := mkSender {
  hybridSlowStart : HybridSlowStart;
  cubic : C;
  sender_pacer : pacer;
  reno : bool;
  largestSentPacketNumber : Z;
  largestAckedPacketNumber : Z;
  largestSentAtLastCutback : Z;
  lastCutbackExitedSlowstart : bool;
  congestionWindow : Z;
  slowStartThreshold : Z;
  numAckedPackets : Z;
  initialCongestionWindow : Z;
  initialMaxCongestionWindow : Z;
  maxDatagramSize : Z
}.
Arguments mkSender {C}.
Arguments hybridSlowStart {C}.
Arguments cubic {C}.
Arguments sender_pacer {C}.
Arguments reno {C}.
Arguments largestSentPacketNumber {C}.
Arguments largestAckedPacketNumber {C}.
Arguments largestSentAtLastCutback {C}.
Arguments lastCutbackExitedSlowstart {C}.
Arguments congestionWindow {C}.
Arguments slowStartThreshold {C}.
Arguments numAckedPackets {C}.
Arguments initialCongestionWindow {C}.
Arguments initialMaxCongestionWindow {C}.
Arguments maxDatagramSize {C}.

Section sender.
Context {C : Type} `{CubicAlgorithm C}.
Implicit Types (c : cubicSender C) (r : RTTStats).

Definition s_hss v c : cubicSender C :=
  let '(mkSender _ b p e f g h i j k l m n o) := c in mkSender v b p e f g h i j k l m n o.
Definition s_cubic v c : cubicSender C :=
  let '(mkSender a _ p e f g h i j k l m n o) := c in mkSender a v p e f g h i j k l m n o.
Definition s_pacer v c : cubicSender C :=
  let '(mkSender a b _ e f g h i j k l m n o) := c in mkSender a b v e f g h i j k l m n o.
Definition s_largestSent v c : cubicSender C :=
  let '(mkSender a b p e _ g h i j k l m n o) := c in mkSender a b p e v g h i j k l m n o.
Definition s_largestAcked v c : cubicSender C :=
  let '(mkSender a b p e f _ h i j k l m n o) := c in mkSender a b p e f v h i j k l m n o.
Definition s_cutback v w c : cubicSender C :=
  let '(mkSender a b p e f g _ _ j k l m n o) := c in mkSender a b p e f g v w j k l m n o.
Definition s_cwnd v c : cubicSender C :=
  let '(mkSender a b p e f g h i _ k l m n o) := c in mkSender a b p e f g h i v k l m n o.
Definition s_ssthresh v c : cubicSender C :=
  let '(mkSender a b p e f g h i j _ l m n o) := c in mkSender a b p e f g h i j v l m n o.
Definition s_numAcked v c : cubicSender C :=
  let '(mkSender a b p e f g h i j k _ m n o) := c in mkSender a b p e f g h i j k v m n o.
Definition s_mds v c : cubicSender C :=
  let '(mkSender a b p e f g h i j k l m n _) := c in mkSender a b p e f g h i j k l m n v.

Definition bandwidthEstimateOf (r : RTTStats) (cwnd : Z) : Z :=
  if smoothedRTT r =? 0 then infBandwidth else BandwidthFromDelta cwnd (smoothedRTT r).

Definition BandwidthEstimate r c : Z := bandwidthEstimateOf r (congestionWindow c).

Definition newCubicSender r (useReno : bool) (initialMDS initialCwnd initialMaxCwnd : Z)
    : cubicSender C :=
  mkSender newHybridSlowStart cubic_new
    (newPacer (bandwidthEstimateOf r initialCwnd))
    useReno InvalidPacketNumber InvalidPacketNumber InvalidPacketNumber false
    initialCwnd MaxByteCount 0 initialCwnd initialMaxCwnd initialMDS.

Definition NewCubicSender r (initialMDS : Z) (useReno : bool) : cubicSender C :=
  newCubicSender r useReno initialMDS
    (i64 (initialCongestionWindowPackets * initialMDS))
    (i64 (MaxCongestionWindowPackets * initialMDS)).

Definition sender_TimeUntilSend r c : Z :=
  pacer_TimeUntilSend (sender_pacer c) (BandwidthEstimate r c).

Definition sender_HasPacingBudget r c (now : Z) : bool :=
  maxDatagramSize c <=? Budget (sender_pacer c) (BandwidthEstimate r c) now.

Definition maxCongestionWindow c : Z := i64 (maxDatagramSize c * MaxCongestionWindowPackets).
Definition minCongestionWindow c : Z := i64 (maxDatagramSize c * minCongestionWindowPackets).

Definition sender_OnPacketSent r c (sentTime packetNumber bytes : Z) (isRetransmittable : bool)
    : cubicSender C :=
  let c := s_pacer (pacer_SentPacket (sender_pacer c) (BandwidthEstimate r c) sentTime bytes) c in
  if negb isRetransmittable then c
  else
    let c := s_largestSent packetNumber c in
    s_hss (hss_OnPacketSent (hybridSlowStart c) packetNumber) c.

Definition sender_CanSend c (bytesInFlight : Z) : bool := bytesInFlight <? congestionWindow c.

Definition sender_InRecovery c : bool :=
  negb (largestAckedPacketNumber c =? InvalidPacketNumber)
  && (largestAckedPacketNumber c <=? largestSentAtLastCutback c).

Definition sender_InSlowStart c : bool := congestionWindow c <? slowStartThreshold c.

Definition sender_MaybeExitSlowStart r c : cubicSender C :=
  if sender_InSlowStart c then
    let '(hss, exit) :=
      ShouldExitSlowStart (hybridSlowStart c) (latestRTT r) (minRTT r)
        (Z.quot (congestionWindow c) (maxDatagramSize c)) in
    let c := s_hss hss c in
    if exit : bool then s_ssthresh (congestionWindow c) c else c
  else c.

Definition isCwndLimited c (bytesInFlight : Z) : bool :=
  if congestionWindow c <=? bytesInFlight then true
  else
    let availableBytes := i64 (congestionWindow c - bytesInFlight) in
    let slowStartLimited :=
      sender_InSlowStart c && (Z.quot (congestionWindow c) 2 <? bytesInFlight) in
    slowStartLimited || (availableBytes <=? i64 (maxBurstPackets * maxDatagramSize c)).

Definition maybeIncreaseCwnd r c (ackedBytes priorInFlight eventTime : Z) : cubicSender C :=
  if negb (isCwndLimited c priorInFlight) then s_cubic (cubic_OnApplicationLimited (cubic c)) c
  else if maxCongestionWindow c <=? congestionWindow c then c
  else if sender_InSlowStart c then s_cwnd (i64 (congestionWindow c + maxDatagramSize c)) c
  else if reno c then
    let c := s_numAcked (u64 (numAckedPackets c + 1)) c in
    if u64 (Z.quot (congestionWindow c) (maxDatagramSize c)) <=? numAckedPackets c
    then s_numAcked 0 (s_cwnd (i64 (congestionWindow c + maxDatagramSize c)) c)
    else c
  else
    let '(cb, w) := CongestionWindowAfterAck (cubic c) ackedBytes (congestionWindow c) (minRTT r) eventTime in
    s_cwnd (Z.min (maxCongestionWindow c) w) (s_cubic cb c).

Definition sender_OnPacketAcked r c (ackedPacketNumber ackedBytes priorInFlight eventTime : Z)
    : cubicSender C :=
  let c := s_largestAcked (Z.max ackedPacketNumber (largestAckedPacketNumber c)) c in
  if sender_InRecovery c then c
  else
    let c := maybeIncreaseCwnd r c ackedBytes priorInFlight eventTime in
    if sender_InSlowStart c
    then s_hss (hss_OnPacketAcked (hybridSlowStart c) ackedPacketNumber) c else c.

(** [ByteCount(float64(cwnd) * renoBeta)] *)
Definition renoCutback (cwnd : Z) : Z :=
  toint64 (ftrunc (fmul prec64 (fofint prec64 cwnd) renoBeta)).

Definition sender_OnCongestionEvent c (packetNumber lostBytes priorInFlight : Z) : cubicSender C :=
  if packetNumber <=? largestSentAtLastCutback c then c
  else
    let c := s_cutback (largestSentAtLastCutback c) (sender_InSlowStart c) c in
    let c :=
      if reno c then s_cwnd (renoCutback (congestionWindow c)) c
      else
        let '(cb, w) := CongestionWindowAfterPacketLoss (cubic c) (congestionWindow c) in
        s_cwnd w (s_cubic cb c) in
    let minCwnd := minCongestionWindow c in
    let c := if congestionWindow c <? minCwnd then s_cwnd minCwnd c else c in
    let c := s_ssthresh (congestionWindow c) c in
    let c := s_cutback (largestSentPacketNumber c) (lastCutbackExitedSlowstart c) c in
    s_numAcked 0 c.

Definition sender_OnRetransmissionTimeout c (packetsRetransmitted : bool) : cubicSender C :=
  let c := s_cutback InvalidPacketNumber (lastCutbackExitedSlowstart c) c in
  if negb packetsRetransmitted then c
  else
    let c := s_hss (hss_Restart (hybridSlowStart c)) c in
    let c := s_cubic (cubic_Reset (cubic c)) c in
    let c := s_ssthresh (Z.quot (congestionWindow c) 2) c in
    s_cwnd (minCongestionWindow c) c.

Definition sender_OnConnectionMigration c : cubicSender C :=
  mkSender (hss_Restart (hybridSlowStart c)) (cubic_Reset (cubic c)) (sender_pacer c) (reno c)
    InvalidPacketNumber InvalidPacketNumber InvalidPacketNumber false
    (initialCongestionWindow c) (initialMaxCongestionWindow c) 0
    (initialCongestionWindow c) (initialMaxCongestionWindow c) (maxDatagramSize c).

Definition sender_SetMaxDatagramSize c (s : Z) : res (cubicSender C) :=
  if s <? maxDatagramSize c then Panic "congestion BUG: decreased max datagram size from %d to %d"
  else
    let cwndIsMinCwnd := congestionWindow c =? minCongestionWindow c in
    let c := s_mds s c in
    let c := if cwndIsMinCwnd then s_cwnd (minCongestionWindow c) c else c in
    Ok (s_pacer (pacer_SetMaxDatagramSize (sender_pacer c) s) c).
End sender.

(** ** The interface [SendAlgorithmWithDebugInfos] ([interface.go]) *)

Class SendAlgorithm (A : Type) := {
  cc_TimeUntilSend : RTTStats -> A -> Z;
  cc_HasPacingBudget : RTTStats -> A -> Z -> bool;
  cc_OnPacketSent : RTTStats -> A -> Z -> Z -> Z -> Z -> bool -> A;
  cc_CanSend : A -> Z -> bool;
  cc_MaybeExitSlowStart : RTTStats -> A -> A;
  cc_OnPacketAcked : RTTStats -> A -> Z -> Z -> Z -> Z -> A;
  cc_OnCongestionEvent : A -> Z -> Z -> Z -> A;
  cc_OnRetransmissionTimeout : A -> bool -> A;
  cc_SetMaxDatagramSize : A -> Z -> res A;
  cc_InSlowStart : A -> bool;
  cc_InRecovery : A -> bool;
  cc_GetCongestionWindow : A -> Z
}.

#[export] Instance cubicSender_SendAlgorithm {C} `{CubicAlgorithm C} : SendAlgorithm (cubicSender C) := {
  cc_TimeUntilSend := sender_TimeUntilSend;
  cc_HasPacingBudget := sender_HasPacingBudget;
  cc_OnPacketSent r c sentTime _ pn bytes retrans := sender_OnPacketSent r c sentTime pn bytes retrans;
  cc_CanSend := sender_CanSend;
  cc_MaybeExitSlowStart := sender_MaybeExitSlowStart;
  cc_OnPacketAcked := sender_OnPacketAcked;
  cc_OnCongestionEvent := sender_OnCongestionEvent;
  cc_OnRetransmissionTimeout := sender_OnRetransmissionTimeout;
  cc_SetMaxDatagramSize := sender_SetMaxDatagramSize;
  cc_InSlowStart := sender_InSlowStart;
  cc_InRecovery := sender_InRecovery;
  cc_GetCongestionWindow := congestionWindow
}.

(** ** The Reno cutback in floating point *)

Lemma renoCutback_scaled c :
  0 <= c < 2 ^ 40 ->
  exists x, renoCutback c = x / 2 ^ 53 /\
    c * 6305039478318694 - c <= x <= c * 6305039478318694 + c /\ 0 <= x.
Proof.
  intros Hc. unfold renoCutback. rewrite fofint_exact by (unfold prec64; lia).
  unfold fmul, renoBeta, prec64; cbn [fm fe]. set (m := c * 6305039478318694).
  assert (Hm : 0 <= m < 2 ^ 93) by (subst m; lia).
  assert (Hsmall : forall x, 0 <= x < 2 ^ 94 -> toint64 (x / 2 ^ 53) = x / 2 ^ 53).
  { intros x Hx. apply toint64_small. unfold is_i64.
    assert (0 <= x / 2 ^ 53 < 2 ^ 41); [|lia].
    split; [apply Z.div_pos; lia|apply Z.div_lt_upper_bound; lia]. }
  unfold fround; cbn [fm fe]. rewrite (Z.abs_eq m) by lia.
  set (k := Z.log2 m + 1 - 53). destruct (Z.leb_spec k 0) as [Hk|Hk].
  - exists m. change (0 + -53) with (- (53)). rewrite ftrunc_neg_exp by lia.
    rewrite Hsmall by lia. split; [done|lia].
  - assert (Hm0 : 0 < m) by (destruct (Z.eq_dec m 0) as [E|]; [subst k; rewrite E in Hk; cbn in Hk; lia|lia]).
    pose proof (Z.log2_spec m Hm0) as [Hl1 Hl2].
    assert (Z.log2 m < 93) by (apply Z.log2_lt_pow2; lia).
    pose proof (rne_error m k ltac:(lia) Hk) as He.
    assert (Hpos : 0 < 2 ^ k) by (apply Z.pow_pos_nonneg; lia).
    assert (Hbig : 2 ^ (k - 1) * 2 ^ 53 <= m).
    { rewrite <- Z.pow_add_r by lia. by replace (k - 1 + 53) with (Z.log2 m) by (subst k; lia). }
    assert (Herr : 2 ^ (k - 1) <= c) by (subst m; nia).
    assert (0 <= rne m k) by (destruct (Z.lt_ge_cases (rne m k) 0); [nia|lia]).
    exists (rne m k * 2 ^ k). rewrite Z.sgn_pos, Z.mul_1_l by lia.
    replace (0 + -53 + k) with (- (53 - k)) by lia. rewrite ftrunc_neg_exp by (subst k; lia).
    assert (rne m k / 2 ^ (53 - k) = rne m k * 2 ^ k / 2 ^ 53) as ->.
    { replace (2 ^ 53) with (2 ^ (53 - k) * 2 ^ k) by (rewrite <- Z.pow_add_r by (subst k; lia); f_equal; lia).
      rewrite Z.div_mul_cancel_r; [done| |lia].
      apply Z.pow_nonzero; subst k; lia. }
    rewrite Hsmall by nia. split; [done|]. split; [|nia]. lia.
Qed.

(** The new window is 7/10 of the old one, up to rounding, and never more. *)
Lemma renoCutback_bounds c :
  0 <= c < 2 ^ 40 -> 7 * c - 10 <= 10 * renoCutback c <= 7 * c.
Proof.
  intros Hc. destruct (renoCutback_scaled c Hc) as (x & -> & Hx & Hx0).
  pose proof (Z.div_mod x (2 ^ 53) ltac:(lia)). pose proof (Z.mod_pos_bound x (2 ^ 53) ltac:(lia)).
  generalize dependent (x / 2 ^ 53). intros q Hq. lia.
Qed.

(** ** Invariant of the Reno sender

    [lo] is the smallest datagram size the path has had. *)
Record cc_inv {C} (lo : Z) (c : cubicSender C) : Prop := {
  ci_reno : reno c = true;
  ci_lo : 0 < lo <= maxDatagramSize c;
  ci_mds : maxDatagramSize c < 2 ^ 16;
  ci_cwnd : minCongestionWindowPackets * lo <= congestionWindow c
            < (MaxCongestionWindowPackets + 1) * maxDatagramSize c
}.

Section reno.
Context {C : Type} `{HC : CubicAlgorithm C}.
Implicit Types (c : cubicSender C) (r : RTTStats).

(** The operations of the sender that the handler calls. *)
Inductive cc_op :=
  | CCSent (r : RTTStats) (t pn bytes : Z) (retransmittable : bool)
  | CCAcked (r : RTTStats) (pn bytes prior t : Z)
  | CCLost (pn bytes prior : Z)
  | CCExitSlowStart (r : RTTStats)
  | CCSetMDS (s : Z).

Definition cc_do c (o : cc_op) : res (cubicSender C) :=
  match o with
  | CCSent r t pn b x => Ok (sender_OnPacketSent r c t pn b x)
  | CCAcked r pn b prior t => Ok (sender_OnPacketAcked r c pn b prior t)
  | CCLost pn b prior => Ok (sender_OnCongestionEvent c pn b prior)
  | CCExitSlowStart r => Ok (sender_MaybeExitSlowStart r c)
  | CCSetMDS s => sender_SetMaxDatagramSize c s
  end.

Fixpoint cc_run c (os : list cc_op) : res (cubicSender C) :=
  match os with
  | [] => Ok c
  | o :: os' => c ← cc_do c o; cc_run c os'
  end.

(** Datagram sizes only grow, and fit 16 bits. *)
Fixpoint mds_ok (mds : Z) (os : list cc_op) : Prop :=
  match os with
  | [] => True
  | CCSetMDS s :: os' => mds <= s < 2 ^ 16 /\ mds_ok s os'
  | _ :: os' => mds_ok mds os'
  end.

Lemma minCwnd_val lo c : cc_inv lo c -> minCongestionWindow c = 2 * maxDatagramSize c.
Proof.
  intros [? ? ? ?]. unfold minCongestionWindow, minCongestionWindowPackets.
  rewrite i64_small by int_range. lia.
Qed.

Lemma maxCwnd_val lo c : cc_inv lo c -> maxCongestionWindow c = 10000 * maxDatagramSize c.
Proof.
  intros [? ? ? ?]. unfold maxCongestionWindow, MaxCongestionWindowPackets.
  rewrite i64_small by int_range. lia.
Qed.

(** Only the window and the datagram size matter for the invariant. *)
Lemma cc_inv_ext lo c c' :
  cc_inv lo c -> reno c' = reno c -> maxDatagramSize c' = maxDatagramSize c ->
  congestionWindow c' = congestionWindow c -> cc_inv lo c'.
Proof. intros [] E1 E2 E3. constructor; rewrite ?E1, ?E2, ?E3; done. Qed.

(** Acknowledgements leave the window or add one datagram. *)
Lemma maybeIncreaseCwnd_spec lo r c b prior t :
  cc_inv lo c ->
  let c' := maybeIncreaseCwnd r c b prior t in
  cc_inv lo c' /\ maxDatagramSize c' = maxDatagramSize c /\
  (congestionWindow c' = congestionWindow c \/
   congestionWindow c' = congestionWindow c + maxDatagramSize c).
Proof.
  intros Hi c'. pose proof (maxCwnd_val lo c Hi) as Hmax.
  subst c'. unfold maybeIncreaseCwnd.
  destruct (isCwndLimited c prior); cbn [negb].
  2:{ destruct c; cbn. split_and!; auto. by eapply cc_inv_ext. }
  rewrite Hmax. destruct (Z.leb_spec (10000 * maxDatagramSize c) (congestionWindow c));
    [split_and!; auto|].
  destruct Hi as [Hr Hlo Hmds Hw]. unfold minCongestionWindowPackets, MaxCongestionWindowPackets in *.
  assert (Hgrow : i64 (congestionWindow c + maxDatagramSize c)
                  = congestionWindow c + maxDatagramSize c) by (apply i64_small; int_range).
  destruct (sender_InSlowStart c).
  - rewrite Hgrow. destruct c; cbn in *. split_and!; auto.
    constructor; unfold minCongestionWindowPackets, MaxCongestionWindowPackets; cbn; auto; lia.
  - rewrite Hr. destruct c; cbn in *. rewrite Hgrow. case_match; cbn; split_and!; auto;
      constructor; unfold minCongestionWindowPackets, MaxCongestionWindowPackets; cbn; auto; lia.
Qed.

Lemma sender_OnPacketAcked_spec lo r c pn b prior t :
  cc_inv lo c ->
  let c' := sender_OnPacketAcked r c pn b prior t in
  cc_inv lo c' /\ maxDatagramSize c' = maxDatagramSize c /\
  (congestionWindow c' = congestionWindow c \/
   congestionWindow c' = congestionWindow c + maxDatagramSize c).
Proof.
  intros Hi c'. subst c'. unfold sender_OnPacketAcked.
  set (c1 := s_largestAcked _ c).
  assert (Hi1 : cc_inv lo c1 /\ maxDatagramSize c1 = maxDatagramSize c /\
    congestionWindow c1 = congestionWindow c).
  { subst c1. destruct c; cbn in *. split_and!; auto. by eapply cc_inv_ext. }
  clearbody c1. destruct Hi1 as (Hi1 & E1 & E2).
  destruct (sender_InRecovery c1); [rewrite E1, E2; auto|].
  destruct (maybeIncreaseCwnd_spec lo r c1 b prior t Hi1) as (I & M & W).
  set (c2 := maybeIncreaseCwnd r c1 b prior t) in *. rewrite E1, E2 in *.
  destruct (sender_InSlowStart c2); [|auto].
  destruct c2; cbn in *. split_and!; auto. by eapply cc_inv_ext.
Qed.

(** The window after a cutback. *)
Definition cutWindow c : Z := Z.max (minCongestionWindow c) (renoCutback (congestionWindow c)).

Lemma sender_OnCongestionEvent_cut lo c pn b prior :
  cc_inv lo c -> largestSentAtLastCutback c < pn ->
  let c' := sender_OnCongestionEvent c pn b prior in
  congestionWindow c' = cutWindow c /\ slowStartThreshold c' = cutWindow c /\
  largestSentAtLastCutback c' = largestSentPacketNumber c /\ numAckedPackets c' = 0 /\
  reno c' = reno c /\ maxDatagramSize c' = maxDatagramSize c.
Proof.
  intros [Hr _ _ _] Hpn c'. subst c'. unfold sender_OnCongestionEvent, cutWindow.
  zfalse (pn <=? largestSentAtLastCutback c).
  destruct c as [a1 a2 a3 a4 a5 a6 a7 a8 w a10 a11 a12 a13 mds]; cbn in *. subst a4; cbn.
  unfold minCongestionWindow; cbn.
  destruct (Z.ltb_spec (renoCutback w) (i64 (mds * minCongestionWindowPackets))); cbn;
    split_and!; auto; lia.
Qed.

Lemma cutWindow_bounds lo c :
  cc_inv lo c ->
  2 * maxDatagramSize c <= cutWindow c <= Z.max (2 * maxDatagramSize c) (congestionWindow c) /\
  10 * cutWindow c <= Z.max (20 * maxDatagramSize c) (7 * congestionWindow c).
Proof.
  intros Hi. unfold cutWindow. rewrite (minCwnd_val lo c Hi). destruct Hi as [_ Hl Hm Hw].
  unfold minCongestionWindowPackets, MaxCongestionWindowPackets in *.
  pose proof (renoCutback_bounds (congestionWindow c) ltac:(lia)). lia.
Qed.

Lemma sender_OnCongestionEvent_inv lo c pn b prior :
  cc_inv lo c -> cc_inv lo (sender_OnCongestionEvent c pn b prior).
Proof.
  intros Hi. destruct (Z.lt_ge_cases (largestSentAtLastCutback c) pn) as [Hlt|Hge].
  - destruct (sender_OnCongestionEvent_cut lo c pn b prior Hi Hlt) as (E1 & _ & _ & _ & E2 & E3).
    pose proof (cutWindow_bounds lo c Hi) as [Hb _]. destruct Hi as [Hr Hl Hm Hw].
    unfold minCongestionWindowPackets, MaxCongestionWindowPackets in *.
    constructor; unfold minCongestionWindowPackets, MaxCongestionWindowPackets;
      rewrite ?E1, ?E2, ?E3; auto; lia.
  - unfold sender_OnCongestionEvent. by ztrue (pn <=? largestSentAtLastCutback c).
Qed.

Lemma sender_SetMaxDatagramSize_spec lo c s :
  cc_inv lo c -> maxDatagramSize c <= s < 2 ^ 16 ->
  exists c', sender_SetMaxDatagramSize c s = Ok c' /\ cc_inv lo c' /\ maxDatagramSize c' = s.
Proof.
  intros Hi Hs. pose proof (minCwnd_val lo c Hi) as Hmin. unfold sender_SetMaxDatagramSize.
  zfalse (s <? maxDatagramSize c). eexists. split; [reflexivity|].
  destruct Hi as [Hr Hl Hm Hw]. unfold minCongestionWindowPackets, MaxCongestionWindowPackets in *.
  rewrite Hmin.
  destruct c as [a1 a2 a3 a4 a5 a6 a7 a8 w a10 a11 a12 a13 mds]; cbn in *.
  unfold minCongestionWindow, minCongestionWindowPackets; cbn.
  rewrite (i64_small (s * 2)) by int_range.
  destruct (Z.eqb_spec w (2 * mds)); cbn; (split; [|done]); constructor;
    unfold minCongestionWindowPackets, MaxCongestionWindowPackets; cbn; auto; lia.
Qed.

Lemma cc_do_inv lo c o os :
  cc_inv lo c -> mds_ok (maxDatagramSize c) (o :: os) ->
  exists c', cc_do c o = Ok c' /\ cc_inv lo c' /\ mds_ok (maxDatagramSize c') os.
Proof.
  intros Hi Hm. destruct o as [r t pn b x|r pn b prior t|pn b prior|r|s]; cbn in *.
  - eexists. split; [reflexivity|]. unfold sender_OnPacketSent.
    destruct x; destruct c; cbn in *; (split; [by eapply cc_inv_ext|done]).
  - eexists. split; [reflexivity|].
    destruct (sender_OnPacketAcked_spec lo r c pn b prior t Hi) as (I & -> & _). done.
  - eexists. split; [reflexivity|]. split; [by apply sender_OnCongestionEvent_inv|].
    destruct (Z.lt_ge_cases (largestSentAtLastCutback c) pn) as [Hlt|Hge].
    + by destruct (sender_OnCongestionEvent_cut lo c pn b prior Hi Hlt) as (_ & _ & _ & _ & _ & ->).
    + unfold sender_OnCongestionEvent. by ztrue (pn <=? largestSentAtLastCutback c).
  - eexists. split; [reflexivity|]. unfold sender_MaybeExitSlowStart.
    destruct (sender_InSlowStart c); [|done].
    destruct (ShouldExitSlowStart _ _ _ _) as [hss []]; destruct c; cbn in *;
      (split; [by eapply cc_inv_ext|done]).
  - destruct Hm as [Hs Hm].
    destruct (sender_SetMaxDatagramSize_spec lo c s Hi Hs) as (c' & E & I & M).
    exists c'. by rewrite M.
Qed.
End reno.

(** A trivial [CubicAlgorithm], for the concrete runs. *)
#[export] Instance unit_Cubic : CubicAlgorithm unit := {
  cubic_new := tt;
  cubic_OnApplicationLimited _ := tt;
  cubic_Reset _ := tt;
  CongestionWindowAfterPacketLoss _ w := (tt, w);
  CongestionWindowAfterAck _ _ w _ _ := (tt, w)
}.

(** ** The claims *)

Lemma NewCubicSender_inv {C} `{CubicAlgorithm C} r mds :
  0 < mds < 2 ^ 16 -> cc_inv mds (NewCubicSender (C := C) r mds true).
Proof.
  intros Hm. constructor; cbn; unfold initialCongestionWindowPackets, minCongestionWindowPackets,
    MaxCongestionWindowPackets; rewrite ?i64_small by int_range; auto; lia.
Qed.

(** C35: Whatever packets are sent, acknowledged or lost, whatever round-trip
    times are measured and however the datagram size grows, the Reno sender never
    panics and its window stays between two datagrams (of the initial size) and
    one datagram above [MaxCongestionWindowPackets]. *)
Theorem reno_window_bounds {C} `{CubicAlgorithm C} r mds os :
  0 < mds < 2 ^ 16 -> mds_ok mds os ->
  exists c, cc_run (NewCubicSender (C := C) r mds true) os = Ok c /\
    minCongestionWindowPackets * mds <= congestionWindow c
      < (MaxCongestionWindowPackets + 1) * maxDatagramSize c.
Proof.
  intros Hm Hos. pose proof (NewCubicSender_inv (C := C) r mds Hm) as Hi.
  change mds with (maxDatagramSize (NewCubicSender (C := C) r mds true)) in Hos.
  revert Hi Hos. generalize (NewCubicSender (C := C) r mds true) as c0.
  induction os as [|o os IH]; intros c0 Hi Hos.
  - exists c0. split; [done|]. apply Hi.
  - destruct (cc_do_inv mds c0 o os Hi Hos) as (c1 & E & Hi1 & Hos1). cbn. rewrite E. cbn. by apply IH.
Qed.

Lemma reno_window_bounds_witness :
  exists c, cc_run (NewCubicSender (C := unit) NewRTTStats 1252 true)
      [CCSent NewRTTStats 1 0 1200 true; CCAcked NewRTTStats 0 1200 40064 2;
       CCSent NewRTTStats 3 1 1200 true; CCLost 1 1200 1200; CCSetMDS 1452] = Ok c /\
    2 * 1252 <= congestionWindow c.
Proof.
  destruct (reno_window_bounds (C := unit) NewRTTStats 1252
    [CCSent NewRTTStats 1 0 1200 true; CCAcked NewRTTStats 0 1200 40064 2;
     CCSent NewRTTStats 3 1 1200 true; CCLost 1 1200 1200; CCSetMDS 1452]) as (c & E & Hc & _).
  - lia.
  - cbn. lia.
  - exists c. split; [exact E|exact Hc].
Defined.

(** A round of losses is one congestion event.  The first loss of a packet
    sent after the last cutback sets the window to 7/10 (but at least two
    datagrams) and leaves slow start; any further losses of packets already sent
    at that point leave the sender unchanged. *)
Theorem reno_one_cutback_per_round {C} `{CubicAlgorithm C} lo (c : cubicSender C) pn b prior later :
  cc_inv lo c -> largestSentAtLastCutback c < pn ->
  Forall (fun l : Z * Z * Z => l.1.1 <= largestSentPacketNumber c) later ->
  let c' := foldl (fun c '(pn, b, prior) => sender_OnCongestionEvent c pn b prior) c
              ((pn, b, prior) :: later) in
  c' = sender_OnCongestionEvent c pn b prior /\
  congestionWindow c' = cutWindow c /\ sender_InSlowStart c' = false /\
  2 * maxDatagramSize c <= congestionWindow c' /\
  10 * congestionWindow c' <= Z.max (20 * maxDatagramSize c) (7 * congestionWindow c).
Proof.
  intros Hi Hpn Hl c'. subst c'. cbn [foldl].
  destruct (sender_OnCongestionEvent_cut lo c pn b prior Hi Hpn) as (E1 & E2 & E3 & _).
  assert (E : foldl (fun c '(pn, b, prior) => sender_OnCongestionEvent c pn b prior)
    (sender_OnCongestionEvent c pn b prior) later = sender_OnCongestionEvent c pn b prior).
  { rewrite <- E3 in Hl. clear -Hl. induction Hl as [|[[p' b'] pr'] later Hp _ IH]; [done|].
    cbn in *. replace (sender_OnCongestionEvent (sender_OnCongestionEvent c pn b prior) p' b' pr')
      with (sender_OnCongestionEvent c pn b prior); [done|].
    unfold sender_OnCongestionEvent at 2.
    by ztrue (p' <=? largestSentAtLastCutback (sender_OnCongestionEvent c pn b prior)). }
  rewrite E. destruct (cutWindow_bounds lo c Hi) as [B1 B2].
  unfold sender_InSlowStart. rewrite E1, E2. split_and!; [done|done| |lia|done]. apply Z.ltb_irrefl.
Qed.

Lemma reno_one_cutback_per_round_witness :
  let c := sender_OnPacketSent NewRTTStats (NewCubicSender (C := unit) NewRTTStats 1252 true) 1 7 1200 true in
  cc_inv 1252 c /\
  congestionWindow (foldl (fun c '(pn, b, prior) => sender_OnCongestionEvent c pn b prior) c
    [(5, 1200, 3600); (6, 1200, 3600); (7, 1200, 3600)]) = cutWindow c.
Proof.
  intros c.
  assert (Hi : cc_inv 1252 c).
  { eapply (cc_inv_ext 1252 (NewCubicSender (C := unit) NewRTTStats 1252 true));
      [apply NewCubicSender_inv; lia|reflexivity..]. }
  split; [exact Hi|].
  destruct (reno_one_cutback_per_round 1252 c 5 1200 3600 [(6, 1200, 3600); (7, 1200, 3600)])
    as (_ & H & _); [exact Hi|reflexivity|repeat constructor; cbn; lia|exact H].
Defined.

(** [SetMaxDatagramSize] only raises the window when it was exactly the
    minimum.  A window just above the minimum can be below the new minimum
    afterwards, and then the next loss raises it: the window of 2800 bytes grows
    to 2904 on a congestion event. *)
Theorem reno_loss_grows_window_after_mtu_increase :
  let c := s_cwnd 2800 (NewCubicSender (C := unit) NewRTTStats 1252 true) in
  let c := sender_OnPacketSent NewRTTStats c 1 7 1200 true in
  cc_inv 1252 c /\
  exists c', sender_SetMaxDatagramSize c 1452 = Ok c' /\
    congestionWindow c' = 2800 /\ minCongestionWindow c' = 2904 /\
    congestionWindow (sender_OnCongestionEvent c' 7 1200 1200) = 2904.
Proof.
  split; [by constructor; vm_compute|]. eexists. split; [reflexivity|].
  vm_compute. done.
Qed.

(** ** The pacer *)

Lemma pacingDelay_enough missing bw :
  0 < missing < 2 ^ 16 -> 0 < bw < 2 ^ 40 ->
  missing * Second <= bw * pacingDelay missing bw <= 2 * (missing * Second) + 2 * bw.
Proof.
  intros Hm Hb. unfold pacingDelay.
  assert (HS : Second = 1000000000) by reflexivity.
  rewrite !fofint_exact, fmul_exact by (unfold prec64; cbn [fm fe]; lia). cbn [fm fe].
  change (0 + 0) with 0.
  destruct (fdiv_ceil (missing * Second) bw ltac:(lia) ltac:(lia)) as (x & -> & Hx).
  rewrite toint64_small; [done|]. unfold is_i64. nia.
Qed.

(** A packet held back by the pacer can be sent at the time
    [TimeUntilSend] announces: from that time on (until the product of bandwidth
    and elapsed time leaves 62 bits) the budget covers a full datagram, for any
    bandwidth below 2^40 bytes/s.  The float64 division and [math.Ceil] that
    compute the time never round it too early. *)
Theorem pacer_budget_at_deadline p bandwidth now :
  0 < pacerMaxDatagramSize p < 2 ^ 16 ->
  0 <= budgetAtLastSent p < pacerMaxDatagramSize p -> 0 < lastSentTime p ->
  0 < adjustedBandwidth bandwidth < 2 ^ 40 ->
  pacer_TimeUntilSend p bandwidth <= now ->
  adjustedBandwidth bandwidth * (now - lastSentTime p) < 2 ^ 62 ->
  pacerMaxDatagramSize p <= Budget p bandwidth now.
Proof.
  intros Hm Hb Hl Hw Hnow Hov. unfold pacer_TimeUntilSend in Hnow.
  assert (HS : Second = 1000000000) by reflexivity.
  zfalse_in (pacerMaxDatagramSize p <=? budgetAtLastSent p) Hnow.
  rewrite i64_small in Hnow by int_range. unfold Time_Add in Hnow.
  set (missing := pacerMaxDatagramSize p - budgetAtLastSent p) in *.
  set (bw := adjustedBandwidth bandwidth) in *.
  pose proof (pacingDelay_enough missing bw ltac:(lia) ltac:(lia)) as Hd.
  set (delay := pacingDelay missing bw) in *.
  assert (He : 0 <= now - lastSentTime p < 2 ^ 62).
  { unfold MinPacingDelay, Millisecond, Microsecond in *. nia. }
  unfold Budget, Time_IsZero. zfalse (lastSentTime p =? 0). fold bw.
  rewrite (i64_small bw) by int_range.
  assert (Time_Sub now (lastSentTime p) = now - lastSentTime p) as -> by (unfold Time_Sub; lia).
  assert (Hprod : missing * Second <= bw * (now - lastSentTime p) < 2 ^ 62) by nia.
  rewrite (i64_small (bw * _)) by int_range.
  rewrite Z.quot_div_nonneg by lia.
  assert (Hq : missing <= bw * (now - lastSentTime p) / Second < 2 ^ 62).
  { split; [apply Z.div_le_lower_bound; lia|apply Z.div_lt_upper_bound; lia]. }
  rewrite i64_small by int_range.
  zfalse (budgetAtLastSent p + bw * (now - lastSentTime p) / Second <? 0).
  apply Z.min_glb; [|lia]. unfold maxBurstSize, maxBurstSizePackets.
  rewrite (i64_small (10 * _)) by int_range. lia.
Qed.

Lemma pacer_budget_at_deadline_witness :
  let p := mkPacer 100 1252 1000 in
  pacer_TimeUntilSend p 8000000 = 1000 + 1000000 /\ 1252 <= Budget p 8000000 (1000 + 1000000).
Proof.
  intros p.
  assert (E : pacer_TimeUntilSend p 8000000 = 1000 + 1000000) by (vm_compute; reflexivity).
  split; [exact E|].
  apply (pacer_budget_at_deadline p 8000000 (1000 + 1000000));
    [cbn; lia..|vm_compute; split; reflexivity|rewrite E; lia|vm_compute; reflexivity].
Defined.

(** The guard of [Budget] against overflow is incomplete.  It catches a
    budget that wrapped around to a negative number, not one that wrapped past
    2^64: at 2^31 bytes/s, 2^33 ns (about 8.6 s) after an emptied budget the
    computed budget is 0 again, although after half that time it was full. *)
Theorem pacer_budget_wraps_to_zero :
  let bandwidth := 8 * (4 * 2 ^ 31 / 5 + 1) in
  let p := mkPacer 0 1252 1000 in
  adjustedBandwidth bandwidth = 2 ^ 31 /\
  Budget p bandwidth (1000 + 2 ^ 31) = maxBurstSize p bandwidth /\
  1252 <= maxBurstSize p bandwidth /\
  Budget p bandwidth (1000 + 2 ^ 33) = 0.
Proof. vm_compute. intuition discriminate. Qed.
