(* ===== verification/SentPacketHandler.v ===== *)
(** * SentPacketHandler: [internal/ackhandler/sent_packet_handler.go]

    Loss detection, probe timeouts, acknowledgement processing and the
    anti-amplification limit.  The handler is generic in the congestion
    controller (class [SendAlgorithm]) and in the random words [rng] its packet
    number generator reads.  A packet number space that was dropped is [None]
    (the code's [nil]); using it panics.  Calls of the frame handlers' [OnAcked]
    and [OnLost] are recorded in [sh_events], in order.  [time.Now()] is the
    argument [now].  Tracing and logging are left out. *)

From S2P Require Import Prelude Protocol Varint AckFrame ReceivedHistory ReceivedTracker.
From S2P Require Import SentHistory PNGenerator Ecn GoFloat RTTStats Congestion.
From stdpp Require Import base numbers list option strings.
From Stdlib Require Import ZArith Lia.
#[local] Open Scope Z_scope.

Inductive SendMode :=
  | SendNone | SendAck | SendPTOInitial | SendPTOHandshake | SendPTOAppData
  | SendPacingLimited | SendAny.

#[export] Instance SendMode_eq_dec : EqDecision SendMode.
Proof. solve_decision. Defined.

(** ** Constants *)

Definition timeThreshold : flt := mkFlt 9 (-3).     (* 9.0 / 8 *)
Definition packetThreshold : Z := 3.
Definition amplificationFactor : Z := 3.
Definition minRTTAfterRetry : Z := 5 * Millisecond.
Definition maxPTODuration : Z := 60 * Second.
Definition ProtocolViolation : Z := 10.

(** ** State *)

Record packetNumberSpace := mkSpace {
  history : sentPacketHistory;
  pns : packetNumberGenerator;
  lossTime : Z;
  lastAckElicitingPacketTime : Z;
  spLargestAcked : Z;
  spLargestSent : Z
}.

Definition sp_history v (s : packetNumberSpace) :=
  mkSpace v (pns s) (lossTime s) (lastAckElicitingPacketTime s) (spLargestAcked s) (spLargestSent s).
Definition sp_pns v (s : packetNumberSpace) :=
  mkSpace (history s) v (lossTime s) (lastAckElicitingPacketTime s) (spLargestAcked s) (spLargestSent s).
Definition sp_lossTime v (s : packetNumberSpace) :=
  mkSpace (history s) (pns s) v (lastAckElicitingPacketTime s) (spLargestAcked s) (spLargestSent s).
Definition sp_lastTime v (s : packetNumberSpace) :=
  mkSpace (history s) (pns s) (lossTime s) v (spLargestAcked s) (spLargestSent s).
Definition sp_largestAcked v (s : packetNumberSpace) :=
  mkSpace (history s) (pns s) (lossTime s) (lastAckElicitingPacketTime s) v (spLargestSent s).
Definition sp_largestSent v (s : packetNumberSpace) :=
  mkSpace (history s) (pns s) (lossTime s) (lastAckElicitingPacketTime s) (spLargestAcked s) v.

(** A call of a frame handler. *)
Inductive frame_event := FrameAcked (f : Frame) | FrameLost (f : Frame).

Record sentPacketHandler (A : Type) := mkSPH {
  sh_initialPackets : option packetNumberSpace;
  sh_handshakePackets : option packetNumberSpace;
  sh_appDataPackets : packetNumberSpace;
  peerCompletedAddressValidation : bool;
  bytesReceived : Z;
  bytesSent : Z;
  peerAddressValidated : bool;
  handshakeConfirmed : bool;
  lowestNotConfirmedAcked : Z;
  bytesInFlight : Z;
  congestion : A;
  rttStats : RTTStats;
  ptoCount : Z;
  ptoMode : SendMode;
  numProbesToSend : Z;
  alarm : Z;
  sh_ecn : option ecnTracker;       (* [Some] iff [enableECN] *)
  perspective : Perspective;
  sh_events : list frame_event
}.
Arguments mkSPH {A}.
Arguments sh_initialPackets {A}.
Arguments sh_handshakePackets {A}.
Arguments sh_appDataPackets {A}.
Arguments peerCompletedAddressValidation {A}.
Arguments bytesReceived {A}.
Arguments bytesSent {A}.
Arguments peerAddressValidated {A}.
Arguments handshakeConfirmed {A}.
Arguments lowestNotConfirmedAcked {A}.
Arguments bytesInFlight {A}.
Arguments congestion {A}.
Arguments rttStats {A}.
Arguments ptoCount {A}.
Arguments ptoMode {A}.
Arguments numProbesToSend {A}.
Arguments alarm {A}.
Arguments sh_ecn {A}.
Arguments perspective {A}.
Arguments sh_events {A}.

Section setters.
Context {A : Type}.
Implicit Types h : sentPacketHandler A.

Definition w_spaces i hs ad h : sentPacketHandler A :=
  let '(mkSPH _ _ _ d e f g j k l m n o p q r s t u) := h in
  mkSPH i hs ad d e f g j k l m n o p q r s t u.
Definition w_peerCompleted v h : sentPacketHandler A :=
  let '(mkSPH a b c _ e f g j k l m n o p q r s t u) := h in
  mkSPH a b c v e f g j k l m n o p q r s t u.
Definition w_bytesReceived v h : sentPacketHandler A :=
  let '(mkSPH a b c d _ f g j k l m n o p q r s t u) := h in
  mkSPH a b c d v f g j k l m n o p q r s t u.
Definition w_bytesSent v h : sentPacketHandler A :=
  let '(mkSPH a b c d e _ g j k l m n o p q r s t u) := h in
  mkSPH a b c d e v g j k l m n o p q r s t u.
Definition w_peerValidated v h : sentPacketHandler A :=
  let '(mkSPH a b c d e f _ j k l m n o p q r s t u) := h in
  mkSPH a b c d e f v j k l m n o p q r s t u.
Definition w_confirmed v h : sentPacketHandler A :=
  let '(mkSPH a b c d e f g _ k l m n o p q r s t u) := h in
  mkSPH a b c d e f g v k l m n o p q r s t u.
Definition w_lowest v h : sentPacketHandler A :=
  let '(mkSPH a b c d e f g j _ l m n o p q r s t u) := h in
  mkSPH a b c d e f g j v l m n o p q r s t u.
Definition w_inFlight v h : sentPacketHandler A :=
  let '(mkSPH a b c d e f g j k _ m n o p q r s t u) := h in
  mkSPH a b c d e f g j k v m n o p q r s t u.
Definition w_congestion v h : sentPacketHandler A :=
  let '(mkSPH a b c d e f g j k l _ n o p q r s t u) := h in
  mkSPH a b c d e f g j k l v n o p q r s t u.
Definition w_rtt v h : sentPacketHandler A :=
  let '(mkSPH a b c d e f g j k l m _ o p q r s t u) := h in
  mkSPH a b c d e f g j k l m v o p q r s t u.
Definition w_pto cnt mode probes h : sentPacketHandler A :=
  let '(mkSPH a b c d e f g j k l m n _ _ _ r s t u) := h in
  mkSPH a b c d e f g j k l m n cnt mode probes r s t u.
Definition w_alarm v h : sentPacketHandler A :=
  let '(mkSPH a b c d e f g j k l m n o p q _ s t u) := h in
  mkSPH a b c d e f g j k l m n o p q v s t u.
Definition w_ecn v h : sentPacketHandler A :=
  let '(mkSPH a b c d e f g j k l m n o p q r _ t u) := h in
  mkSPH a b c d e f g j k l m n o p q r v t u.
Definition w_events v h : sentPacketHandler A :=
  let '(mkSPH a b c d e f g j k l m n o p q r s t _) := h in
  mkSPH a b c d e f g j k l m n o p q r s t v.
End setters.

Definition nilSpace {A} : res A := Panic "nil pointer dereference".

Section handler.
Context (rng : nat -> Z) {A : Type} `{SendAlgorithm A}.
Implicit Types h : sentPacketHandler A.

(** ** Construction *)

Definition newPacketNumberSpace (initialPN : Z) (skipPNs : bool) (pos : nat)
    : res packetNumberSpace :=
  g ← (if skipPNs
       then newSkippingPacketNumberGenerator rng initialPN SkipPacketInitialPeriod
              SkipPacketMaxPeriod pos
       else Ok (newSequentialPacketNumberGenerator initialPN));
  Ok (mkSpace newSentPacketHistory g zeroTime zeroTime InvalidPacketNumber InvalidPacketNumber).

(** [cong] is the congestion controller the constructor creates. *)
Definition newSentPacketHandler (cong : A) (initialPN : Z) (rtt : RTTStats)
    (clientAddressValidated enableECN : bool) (pers : Perspective) : res (sentPacketHandler A) :=
  i ← newPacketNumberSpace initialPN false 0;
  hs ← newPacketNumberSpace 0 false 0;
  ad ← newPacketNumberSpace 0 true 0;
  Ok (mkSPH (Some i) (Some hs) ad
        (bool_decide (pers = PerspectiveServer)) 0 0
        (bool_decide (pers = PerspectiveClient) || clientAddressValidated)
        false 0 0 cong rtt 0 SendNone 0 zeroTime
        (if enableECN then Some newECNTracker else None) pers []).

(** ** Packet number spaces *)

Definition getPacketNumberSpace h (encLevel : EncryptionLevel) : option packetNumberSpace :=
  match encLevel with
  | EncryptionInitial => sh_initialPackets h
  | EncryptionHandshake => sh_handshakePackets h
  | Encryption0RTT | Encryption1RTT => Some (sh_appDataPackets h)
  end.

(** Writing through the pointer [getPacketNumberSpace] returned. *)
Definition setPacketNumberSpace (encLevel : EncryptionLevel) (s : packetNumberSpace) h
    : sentPacketHandler A :=
  match encLevel with
  | EncryptionInitial => w_spaces (Some s) (sh_handshakePackets h) (sh_appDataPackets h) h
  | EncryptionHandshake => w_spaces (sh_initialPackets h) (Some s) (sh_appDataPackets h) h
  | Encryption0RTT | Encryption1RTT => w_spaces (sh_initialPackets h) (sh_handshakePackets h) s h
  end.

Definition getSpace (encLevel : EncryptionLevel) : stM (sentPacketHandler A) packetNumberSpace :=
  fun h => (from_option Ok nilSpace (getPacketNumberSpace h encLevel), h).

Definition modifySpace (encLevel : EncryptionLevel) (f : packetNumberSpace -> packetNumberSpace)
    : stM (sentPacketHandler A) unit :=
  s ← getSpace encLevel; modify (setPacketNumberSpace encLevel (f s)).

(** An operation of the history of a space. *)
Definition onHistory (encLevel : EncryptionLevel)
    (f : sentPacketHistory -> res sentPacketHistory) : stM (sentPacketHandler A) unit :=
  s ← getSpace encLevel;
  hist ← lift (f (history s));
  modify (setPacketNumberSpace encLevel (sp_history hist s)).

(** ** Timers *)

Definition isAmplificationLimited h : bool :=
  if peerAddressValidated h then false
  else i64 (amplificationFactor * bytesReceived h) <=? bytesSent h.

Definition spaceHasOutstanding (s : option packetNumberSpace) : bool :=
  from_option (fun s => HasOutstandingPackets (history s)) false s.

Definition hasOutstandingCryptoPackets h : bool :=
  spaceHasOutstanding (sh_initialPackets h) || spaceHasOutstanding (sh_handshakePackets h).

Definition hasOutstandingPackets h : bool :=
  HasOutstandingPackets (history (sh_appDataPackets h)) || hasOutstandingCryptoPackets h.

(** The earlier of a time found so far and the loss time of a space. *)
Definition earlierLoss (acc : Z * EncryptionLevel) (lvl : EncryptionLevel) (t : Z)
    : Z * EncryptionLevel :=
  if Time_IsZero acc.1 || (negb (Time_IsZero t) && Time_Before t acc.1) then (t, lvl) else acc.

Definition getLossTimeAndSpace h : Z * EncryptionLevel :=
  let acc := match sh_initialPackets h with
             | Some s => (lossTime s, EncryptionInitial)
             | None => (zeroTime, EncryptionInitial)
             end in
  let acc := match sh_handshakePackets h with
             | Some s => earlierLoss acc EncryptionHandshake (lossTime s)
             | None => acc
             end in
  earlierLoss acc Encryption1RTT (lossTime (sh_appDataPackets h)).

Definition getScaledPTO h (includeMaxAckDelay : bool) : Z :=
  let pto := i64 (Z.shiftl (PTO (rttStats h) includeMaxAckDelay) (ptoCount h)) in
  if (maxPTODuration <? pto) || (pto <=? 0) then maxPTODuration else pto.

(** The time, the level ([None] for the zero value) and [ok]. *)
Definition getPTOTimeAndSpace h (now : Z) : Z * option EncryptionLevel * bool :=
  if negb (handshakeConfirmed h) && negb (hasOutstandingCryptoPackets h) then
    if peerCompletedAddressValidation h then (zeroTime, None, false)
    else
      let t := Time_Add now (getScaledPTO h false) in
      match sh_initialPackets h with
      | Some _ => (t, Some EncryptionInitial, true)
      | None => (t, Some EncryptionHandshake, true)
      end
  else
    let '(pto, lvl) :=
      match sh_initialPackets h with
      | Some s =>
          let t := lastAckElicitingPacketTime s in
          (if Time_IsZero t then zeroTime else Time_Add t (getScaledPTO h false),
           Some EncryptionInitial)
      | None => (zeroTime, None)
      end in
    let '(pto, lvl) :=
      match sh_handshakePackets h with
      | Some s =>
          if Time_IsZero (lastAckElicitingPacketTime s) then (pto, lvl)
          else
            let t := Time_Add (lastAckElicitingPacketTime s) (getScaledPTO h false) in
            if Time_IsZero pto || (negb (Time_IsZero t) && Time_Before t pto)
            then (t, Some EncryptionHandshake) else (pto, lvl)
      | None => (pto, lvl)
      end in
    let '(pto, lvl) :=
      if handshakeConfirmed h && negb (Time_IsZero (lastAckElicitingPacketTime (sh_appDataPackets h)))
      then
        let t := Time_Add (lastAckElicitingPacketTime (sh_appDataPackets h)) (getScaledPTO h true) in
        if Time_IsZero pto || (negb (Time_IsZero t) && Time_Before t pto)
        then (t, Some Encryption1RTT) else (pto, lvl)
      else (pto, lvl) in
    (pto, lvl, true).

(** The alarm [setLossDetectionTimer] sets. *)
Definition lossDetectionAlarm h (now : Z) : Z :=
  let '(lossT, _) := getLossTimeAndSpace h in
  if negb (Time_IsZero lossT) then lossT
  else if isAmplificationLimited h then zeroTime
  else if negb (hasOutstandingPackets h) && peerCompletedAddressValidation h then zeroTime
  else
    let '(ptoTime, _, ok) := getPTOTimeAndSpace h now in
    if ok : bool then ptoTime else zeroTime.

Definition setLossDetectionTimer (now : Z) : stM (sentPacketHandler A) unit :=
  modify (fun h => w_alarm (lossDetectionAlarm h now) h).

(** ** Bytes in flight and frames *)

Definition removeFromBytesInFlight (p : packet) : stM (sentPacketHandler A) unit :=
  h ← get;
  if includedInBytesInFlight p then
    if bytesInFlight h <? pLength p then lift (Panic "negative bytes_in_flight")
    else modify (w_inFlight (i64 (bytesInFlight h - pLength p)))
  else mret tt.

(** The handler calls for the frames of a packet; [nil] handlers are skipped. *)
Definition frameEvents (ev : Frame -> frame_event) (p : packet) : list frame_event :=
  ev <$> filter (fun f => is_Some (Handler f)) (Frames p ++ StreamFrames p).

Definition emit (es : list frame_event) : stM (sentPacketHandler A) unit :=
  modify (fun h => w_events (sh_events h ++ es) h).

Definition queueFramesForRetransmission (p : packet) : stM (sentPacketHandler A) unit :=
  match Frames p, StreamFrames p with
  | [], [] => lift (Panic "no frames")
  | _, _ => emit (frameEvents FrameLost p)
  end.

(** ** Dropping packets *)

Definition dropSpace (encLevel : EncryptionLevel) h : sentPacketHandler A :=
  match encLevel with
  | EncryptionInitial => w_spaces None (sh_handshakePackets h) (sh_appDataPackets h) h
  | EncryptionHandshake => w_spaces (sh_initialPackets h) None (sh_appDataPackets h) h
  | _ => h
  end.

(** [Remove] with the error ignored. *)
Definition removeIgnoringError (pn : Z) : stM (sentPacketHandler A) unit := fun h =>
  match onHistory Encryption0RTT (fun hist => history_Remove hist pn) h with
  | (Err _, h') => (Ok tt, h')
  | x => x
  end.

Definition resetPTO (now : Z) : stM (sentPacketHandler A) unit :=
  modify (w_pto 0 SendNone 0) ≫= fun _ => setLossDetectionTimer now.

Definition DropPackets (encLevel : EncryptionLevel) (now : Z) : stM (sentPacketHandler A) unit :=
  _ ← modify (fun h =>
        if bool_decide (perspective h = PerspectiveClient)
           && bool_decide (encLevel = EncryptionHandshake)
        then w_peerCompleted true h else h);
  h ← get;
  match encLevel with
  | EncryptionInitial | EncryptionHandshake =>
      match getPacketNumberSpace h encLevel with
      | None => mret tt
      | Some s =>
          _ ← Iterate (history s) (fun p => removeFromBytesInFlight p ≫= fun _ => mret true);
          _ ← modify (dropSpace encLevel);
          resetPTO now
      end
  | Encryption0RTT =>
      _ ← Iterate (history (sh_appDataPackets h)) (fun p =>
            if negb (bool_decide (pEncryptionLevel p = Encryption0RTT)) && negb (skippedPacket p)
            then mret false
            else
              _ ← removeFromBytesInFlight p;
              _ ← removeIgnoringError (PacketNumber p);
              mret true);
      resetPTO now
  | Encryption1RTT => lift (Panic "Cannot drop keys for encryption level %s")
  end.

Definition ReceivedBytes (n now : Z) : stM (sentPacketHandler A) unit :=
  h ← get;
  let wasAmplificationLimit := isAmplificationLimited h in
  _ ← modify (fun h => w_bytesReceived (i64 (bytesReceived h + n)) h);
  h ← get;
  if wasAmplificationLimit && negb (isAmplificationLimited h)
  then setLossDetectionTimer now else mret tt.

Definition sph_ReceivedPacket (l : EncryptionLevel) (now : Z) : stM (sentPacketHandler A) unit :=
  h ← get;
  if bool_decide (perspective h = PerspectiveServer)
     && bool_decide (l = EncryptionHandshake) && negb (peerAddressValidated h)
  then modify (w_peerValidated true) ≫= fun _ => setLossDetectionTimer now
  else mret tt.

(** ** Sending *)

Definition newSentPacket (t pn largestAcked : Z) (streamFrames frames : list Frame)
    (encLevel : EncryptionLevel) (size : Z) (isPathMTUProbePacket : bool) : packet :=
  mkPacket t pn streamFrames frames largestAcked size encLevel isPathMTUProbePacket true false false.

Definition onECN (encLevel : EncryptionLevel) (f : ecnTracker -> res ecnTracker)
    : stM (sentPacketHandler A) unit :=
  h ← get;
  match sh_ecn h with
  | Some e =>
      if bool_decide (encLevel = Encryption1RTT)
      then e ← lift (f e); modify (w_ecn (Some e)) else mret tt
  | None => mret tt
  end.

Definition SentPacket (t pn largestAcked : Z) (streamFrames frames : list Frame)
    (encLevel : EncryptionLevel) (ecn : ECN) (size : Z) (isPathMTUProbePacket : bool) (now : Z)
    : stM (sentPacketHandler A) unit :=
  _ ← modify (fun h => w_bytesSent (i64 (bytesSent h + size)) h);
  _ ← modifySpace encLevel (sp_largestSent pn);
  let isAckEliciting := (0 <? blen streamFrames) || (0 <? blen frames) in
  _ ← (if isAckEliciting then
         _ ← modifySpace encLevel (sp_lastTime t);
         modify (fun h =>
           let h := w_inFlight (i64 (bytesInFlight h + size)) h in
           if 0 <? numProbesToSend h
           then w_pto (ptoCount h) (ptoMode h) (numProbesToSend h - 1) h else h)
       else mret tt);
  _ ← modify (fun h =>
        w_congestion (cc_OnPacketSent (rttStats h) (congestion h) t (bytesInFlight h) pn size
                        isAckEliciting) h);
  _ ← onECN encLevel (fun e => ecn_SentPacket e pn ecn);
  if negb isAckEliciting then
    _ ← onHistory encLevel (fun hist => SentNonAckElicitingPacket hist pn);
    h ← get;
    if negb (peerCompletedAddressValidation h) then setLossDetectionTimer now else mret tt
  else
    let p := newSentPacket t pn largestAcked streamFrames frames encLevel size isPathMTUProbePacket in
    _ ← onHistory encLevel (fun hist => SentAckElicitingPacket hist p);
    setLossDetectionTimer now.

(** ** Acknowledgements *)

Definition errUnsentPacket : GoError :=
  TransportError ProtocolViolation 0 "received ACK for an unsent packet".
Definition errSkippedPacket : GoError :=
  TransportError ProtocolViolation 0 "received an ACK for skipped packet number: %d (%s)".
Definition errWrongPacket : GoError :=
  ErrorString "BUG: ackhandler would have acked wrong packet %d, while evaluating range %d -> %d".

(** [ack.AckRanges[len(ack.AckRanges)-1-ackRangeIndex]] *)
Definition ackRangeAt (ack : AckFrame) (ackRangeIndex : nat) : res AckRange :=
  if (ackRangeIndex <? length (AckRanges ack))%nat then
    match AckRanges ack !! (length (AckRanges ack) - 1 - ackRangeIndex)%nat with
    | Some r => Ok r
    | None => Panic "index out of range"
    end
  else Panic "index out of range".

(** The loop that advances [ackRangeIndex] to the range of packet [pn]; it
    runs at most once per range. *)
Fixpoint advanceRange (fuel : nat) (ack : AckFrame) (pn : Z) (ackRangeIndex : nat)
    (ackRange : AckRange) : res (nat * AckRange) :=
  match fuel with
  | O => Ok (ackRangeIndex, ackRange)
  | S fuel' =>
      if (Largest ackRange <? pn) && (ackRangeIndex <? length (AckRanges ack) - 1)%nat then
        r ← ackRangeAt ack (S ackRangeIndex);
        advanceRange fuel' ack pn (S ackRangeIndex) r
      else Ok (ackRangeIndex, ackRange)
  end.

(** The callback of [detectAndRemoveAckedPackets]; its state are
    [ackRangeIndex] and [h.ackedPackets]. *)
Definition detectAcked (ack : AckFrame) (lowestAcked largestAcked : Z) (p : packet)
    : stM (nat * list packet) bool :=
  if PacketNumber p <? lowestAcked then mret true
  else if largestAcked <? PacketNumber p then mret false
  else
    '(idx, acked) ← get;
    '(idx, inRange) ←
      (if HasMissingRanges ack then
         ackRange ← lift (ackRangeAt ack idx);
         '(idx, ackRange) ← lift (advanceRange (length (AckRanges ack)) ack (PacketNumber p) idx ackRange);
         if PacketNumber p <? Smallest ackRange then mret (idx, false)
         else if Largest ackRange <? PacketNumber p then throw errWrongPacket
         else mret (idx, true)
       else mret (idx, true));
    if negb inRange then modify (fun _ => (idx, acked)) ≫= fun _ => mret true
    else if skippedPacket p then throw errSkippedPacket
    else modify (fun _ => (idx, acked ++ [p])) ≫= fun _ => mret true.

(** The loop over [h.ackedPackets]. *)
Fixpoint removeAcked (encLevel : EncryptionLevel) (acked : list packet)
    : stM (sentPacketHandler A) unit :=
  match acked with
  | [] => mret tt
  | p :: rest =>
      _ ← modify (fun h =>
            if negb (pLargestAcked p =? InvalidPacketNumber)
               && bool_decide (encLevel = Encryption1RTT)
            then w_lowest (Z.max (lowestNotConfirmedAcked h) (i64 (pLargestAcked p + 1))) h
            else h);
      _ ← emit (frameEvents FrameAcked p);
      _ ← onHistory encLevel (fun hist => history_Remove hist (PacketNumber p));
      removeAcked encLevel rest
  end.

(** An error of the iteration is returned after the packets found so far were
    removed. *)
Definition detectAndRemoveAckedPackets (ack : AckFrame) (encLevel : EncryptionLevel)
    : stM (sentPacketHandler A) (list packet) :=
  s ← getSpace encLevel;
  lowestAcked ← lift (LowestAcked ack);
  largestAcked ← lift (LargestAcked ack);
  let '(r, (_, acked)) := Iterate (history s) (detectAcked ack lowestAcked largestAcked) (0%nat, []) in
  match r with
  | Panic m => lift (Panic m)
  | _ =>
      _ ← removeAcked encLevel acked;
      match r with Err e => throw e | _ => mret acked end
  end.

(** ** Loss detection *)

Definition lossDelayOf (r : RTTStats) : Z :=
  let maxRTT := fofint prec64 (Z.max (latestRTT r) (smoothedRTT r)) in
  Z.max (toint64 (ftrunc (fmul prec64 timeThreshold maxRTT))) TimerGranularity.

(** Whether the callback of [detectLostPackets] finds a packet lost. *)
Definition packetLost (lostSendTime largestAcked : Z) (p : packet) : bool :=
  Time_Before (SendTime p) lostSendTime
  || (i64 (PacketNumber p + packetThreshold) <=? largestAcked).

Definition declarePacketLost (encLevel : EncryptionLevel) (priorInFlight : Z) (p : packet)
    : stM (sentPacketHandler A) unit :=
  _ ← onHistory encLevel (fun hist => DeclareLost hist (PacketNumber p));
  if skippedPacket p then mret tt
  else
    _ ← removeFromBytesInFlight p;
    _ ← queueFramesForRetransmission p;
    _ ← (if IsPathMTUProbePacket p then mret tt
         else modify (fun h =>
           w_congestion (cc_OnCongestionEvent (congestion h) (PacketNumber p) (pLength p)
                           priorInFlight) h));
    onECN encLevel (fun e => Ok (ecn_LostPacket e (PacketNumber p))).

Definition detectLost (encLevel : EncryptionLevel) (lostSendTime lossDelay priorInFlight : Z)
    (p : packet) : stM (sentPacketHandler A) bool :=
  s ← getSpace encLevel;
  if spLargestAcked s <? PacketNumber p then mret false
  else if packetLost lostSendTime (spLargestAcked s) p then
    _ ← declarePacketLost encLevel priorInFlight p; mret true
  else if Time_IsZero (lossTime s) then
    _ ← modify (setPacketNumberSpace encLevel (sp_lossTime (Time_Add (SendTime p) lossDelay) s));
    mret true
  else mret true.

Definition detectLostPackets (now : Z) (encLevel : EncryptionLevel)
    : stM (sentPacketHandler A) unit :=
  _ ← modifySpace encLevel (sp_lossTime zeroTime);
  h ← get;
  let lossDelay := lossDelayOf (rttStats h) in
  let lostSendTime := Time_Add now (- lossDelay) in
  s ← getSpace encLevel;
  Iterate (history s) (detectLost encLevel lostSendTime lossDelay (bytesInFlight h)).

(** The RTT sample, if the largest acknowledged packet is newly acknowledged. *)
Definition updateRTTOnAck (ack : AckFrame) (encLevel : EncryptionLevel) (rcvTime largestAcked : Z)
    (acked : list packet) h : sentPacketHandler A :=
  match last acked with
  | Some p =>
      if PacketNumber p =? largestAcked then
        let ackDelay :=
          if bool_decide (encLevel = Encryption1RTT)
          then Z.min (DelayTime ack) (rttMaxAckDelay (rttStats h)) else 0 in
        let h := w_rtt (UpdateRTT (rttStats h) (Time_Sub rcvTime (SendTime p)) ackDelay) h in
        w_congestion (cc_MaybeExitSlowStart (rttStats h) (congestion h)) h
      else h
  | None => h
  end.

(** The loop over the acknowledged packets at the end of [ReceivedAck]. *)
Fixpoint finishAcked (rcvTime priorInFlight : Z) (acked : list packet) (acked1RTT : bool)
    : stM (sentPacketHandler A) bool :=
  match acked with
  | [] => mret acked1RTT
  | p :: rest =>
      _ ← modify (fun h =>
            if includedInBytesInFlight p && negb (declaredLost p)
            then w_congestion (cc_OnPacketAcked (rttStats h) (congestion h) (PacketNumber p)
                                 (pLength p) priorInFlight rcvTime) h
            else h);
      _ ← removeFromBytesInFlight p;
      finishAcked rcvTime priorInFlight rest
        (acked1RTT || bool_decide (pEncryptionLevel p = Encryption1RTT))
  end.

(** Reporting the ECN counts of an ACK that raises the largest acknowledged. *)
Definition handleECNCounts (ack : AckFrame) (encLevel : EncryptionLevel)
    (largestAcked priorInFlight : Z) (acked : list packet) : stM (sentPacketHandler A) unit :=
  s ← getSpace encLevel;
  modify (fun h =>
    match sh_ecn h with
    | Some e =>
        if bool_decide (encLevel = Encryption1RTT) && (spLargestAcked s <? largestAcked) then
          let '(e, congested) :=
            HandleNewlyAcked e (PacketNumber <$> acked)
              (i64 (AckECT0 ack)) (i64 (AckECT1 ack)) (i64 (AckECNCE ack)) in
          let h := w_ecn (Some e) h in
          if congested : bool
          then w_congestion (cc_OnCongestionEvent (congestion h) largestAcked 0 priorInFlight) h
          else h
        else h
    | None => h
    end).

(** [ReceivedAck] once some packets were newly acknowledged. *)
Definition processAcked (ack : AckFrame) (encLevel : EncryptionLevel) (rcvTime now : Z)
    (largestAcked priorInFlight : Z) (acked : list packet) : stM (sentPacketHandler A) bool :=
  _ ← modify (updateRTTOnAck ack encLevel rcvTime largestAcked acked);
  _ ← handleECNCounts ack encLevel largestAcked priorInFlight acked;
  _ ← modifySpace encLevel (fun s => sp_largestAcked (Z.max (spLargestAcked s) largestAcked) s);
  _ ← detectLostPackets rcvTime encLevel;
  acked1RTT ← finishAcked rcvTime priorInFlight acked false;
  _ ← modify (fun h =>
        w_pto (if peerCompletedAddressValidation h then 0 else ptoCount h) (ptoMode h) 0 h);
  _ ← setLossDetectionTimer now;
  mret acked1RTT.

Definition ReceivedAck (ack : AckFrame) (encLevel : EncryptionLevel) (rcvTime now : Z)
    : stM (sentPacketHandler A) bool :=
  s ← getSpace encLevel;
  largestAcked ← lift (LargestAcked ack);
  if spLargestSent s <? largestAcked then throw errUnsentPacket
  else
    h ← get;
    _ ← (if bool_decide (perspective h = PerspectiveClient)
            && negb (peerCompletedAddressValidation h)
            && (bool_decide (encLevel = EncryptionHandshake)
                || bool_decide (encLevel = Encryption1RTT))
         then modify (w_peerCompleted true) ≫= fun _ => setLossDetectionTimer now
         else mret tt);
    h ← get;
    let priorInFlight := bytesInFlight h in
    acked ← detectAndRemoveAckedPackets ack encLevel;
    match acked with
    | [] => mret false
    | _ => processAcked ack encLevel rcvTime now largestAcked priorInFlight acked
    end.

(** ** Timeouts *)

Definition sph_PopPacketNumber (encLevel : EncryptionLevel) : stM (sentPacketHandler A) Z :=
  s ← getSpace encLevel;
  '(skipped, pn, g) ← lift (pns_Pop rng (pns s));
  _ ← modify (setPacketNumberSpace encLevel (sp_pns g s));
  _ ← (if skipped : bool
       then onHistory encLevel (fun hist => SkippedPacket hist (i64 (pn - 1)))
       else mret tt);
  mret pn.

Definition errPTODropped : GoError :=
  ErrorString "sentPacketHandler BUG: PTO fired, but bytes_in_flight is 0 and Initial and Handshake already dropped".
Definition errPTOLevel : GoError := ErrorString "PTO timer in unexpected encryption level: %s".

Definition setPTO (f : Z -> Z) (mode : SendMode -> SendMode) (g : Z -> Z) h : sentPacketHandler A :=
  w_pto (f (ptoCount h)) (mode (ptoMode h)) (g (numProbesToSend h)) h.

(** The PTO branch, without the deferred [setLossDetectionTimer]. *)
Definition onPTO (now : Z) : stM (sentPacketHandler A) unit :=
  h ← get;
  if (bytesInFlight h =? 0) && negb (peerCompletedAddressValidation h) then
    _ ← modify (setPTO (fun n => u32 (n + 1)) id (fun n => i64 (n + 1)));
    match sh_initialPackets h, sh_handshakePackets h with
    | Some _, _ => modify (setPTO id (fun _ => SendPTOInitial) id)
    | None, Some _ => modify (setPTO id (fun _ => SendPTOHandshake) id)
    | None, None => throw errPTODropped
    end
  else
    let '(_, encLevel, ok) := getPTOTimeAndSpace h now in
    if negb ok then mret tt
    else
      match encLevel with
      | None => lift (Panic "invalid packet number space")
      | Some encLevel =>
          ps ← getSpace encLevel;
          if negb (HasOutstandingPackets (history ps)) && negb (peerCompletedAddressValidation h)
          then mret tt
          else
            _ ← modify (setPTO (fun n => u32 (n + 1)) id (fun n => i64 (n + 2)));
            match encLevel with
            | EncryptionInitial => modify (setPTO id (fun _ => SendPTOInitial) id)
            | EncryptionHandshake => modify (setPTO id (fun _ => SendPTOHandshake) id)
            | Encryption1RTT =>
                pn ← sph_PopPacketNumber Encryption1RTT;
                _ ← onHistory Encryption1RTT (fun hist => SkippedPacket hist pn);
                modify (setPTO id (fun _ => SendPTOAppData) id)
            | Encryption0RTT => throw errPTOLevel
            end
      end.

Definition OnLossDetectionTimeout (now : Z) : stM (sentPacketHandler A) unit :=
  deferring
    (h ← get;
     let '(earliestLossTime, encLevel) := getLossTimeAndSpace h in
     if negb (Time_IsZero earliestLossTime) then detectLostPackets now encLevel else onPTO now)
    (setLossDetectionTimer now).

(** ** Queries *)

Definition GetLossDetectionTimeout h : Z := alarm h.

(** Reading the mode may start the ECN testing. *)
Definition ECNMode (isShortHeaderPacket : bool) : stM (sentPacketHandler A) ECN :=
  h ← get;
  match sh_ecn h with
  | None => mret ECNUnsupported
  | Some e =>
      if negb isShortHeaderPacket then mret ECNNon
      else let '(e, m) := ecn_Mode e in _ ← modify (w_ecn (Some e)); mret m
  end.

Definition sph_PeekPacketNumber h (encLevel : EncryptionLevel) : res (Z * Z) :=
  match getPacketNumberSpace h encLevel with
  | None => nilSpace
  | Some s =>
      let pn := pns_Peek (pns s) in
      Ok (pn, GetPacketNumberLengthForHeader pn (spLargestAcked s))
  end.

Definition spaceLen (s : option packetNumberSpace) : Z :=
  from_option (fun s => history_Len (history s)) 0 s.

Definition numTrackedPackets h : Z :=
  history_Len (history (sh_appDataPackets h)) + spaceLen (sh_initialPackets h)
  + spaceLen (sh_handshakePackets h).

Definition sph_SendMode h (now : Z) : SendMode :=
  if isAmplificationLimited h then SendNone
  else if MaxTrackedSentPackets <=? numTrackedPackets h then SendNone
  else if 0 <? numProbesToSend h then ptoMode h
  else if negb (cc_CanSend (congestion h) (bytesInFlight h)) then SendAck
  else if MaxOutstandingSentPackets <=? numTrackedPackets h then SendAck
  else if negb (cc_HasPacingBudget (rttStats h) (congestion h) now) then SendPacingLimited
  else SendAny.

Definition sph_TimeUntilSend h : Z := cc_TimeUntilSend (rttStats h) (congestion h).

Definition sph_SetMaxDatagramSize (s : Z) : stM (sentPacketHandler A) unit :=
  h ← get;
  c ← lift (cc_SetMaxDatagramSize (congestion h) s);
  modify (w_congestion c).

Definition QueueProbePacket (encLevel : EncryptionLevel) : stM (sentPacketHandler A) bool :=
  s ← getSpace encLevel;
  match FirstOutstanding (history s) with
  | None => mret false
  | Some p =>
      _ ← queueFramesForRetransmission p;
      _ ← removeFromBytesInFlight p;
      _ ← onHistory encLevel (fun hist => DeclareLost hist (PacketNumber p));
      mret true
  end.

(** ** Retry and handshake confirmation *)

(** The packets of a history that a Retry loses. *)
Definition requeueAll (hist : sentPacketHistory) : stM (sentPacketHandler A) unit :=
  Iterate hist (fun p =>
    if declaredLost p || skippedPacket p then mret true
    else queueFramesForRetransmission p ≫= fun _ => mret true).

(** The send time of the first packet in the history that has one. *)
Fixpoint firstSendTime (ps : list (option packet)) : Z :=
  match ps with
  | [] => zeroTime
  | None :: ps' => firstSendTime ps'
  | Some p :: ps' => if Time_IsZero (SendTime p) then firstSendTime ps' else SendTime p
  end.

Definition generatorPos (g : packetNumberGenerator) : nat :=
  match g with sequentialGenerator _ => O | skippingGenerator g => randPos g end.

Definition ResetForRetry (now : Z) : stM (sentPacketHandler A) unit :=
  _ ← modify (w_inFlight 0);
  init ← getSpace EncryptionInitial;
  let firstPacketSendTime := firstSendTime (packets (history init)) in
  _ ← requeueAll (history init);
  app ← getSpace Encryption1RTT;
  _ ← requeueAll (history app);
  _ ← modify (fun h =>
        if ptoCount h =? 0
        then w_rtt (UpdateRTT (rttStats h)
                      (Z.max minRTTAfterRetry (Time_Sub now firstPacketSendTime)) 0) h
        else h);
  i ← lift (newPacketNumberSpace (pns_Peek (pns init)) false 0);
  ad ← lift (newPacketNumberSpace (pns_Peek (pns app)) true (generatorPos (pns app)));
  modify (fun h =>
    let h := w_spaces (Some i) (sh_handshakePackets h) ad h in
    w_pto 0 (ptoMode h) (numProbesToSend h) (w_alarm zeroTime h)).

Definition SetHandshakeConfirmed (now : Z) : stM (sentPacketHandler A) unit :=
  h ← get;
  match sh_initialPackets h, sh_handshakePackets h with
  | Some _, _ => lift (Panic "didn't drop initial correctly")
  | None, Some _ => lift (Panic "didn't drop handshake correctly")
  | None, None => modify (w_confirmed true) ≫= fun _ => setLossDetectionTimer now
  end.
End handler.

(** The handler is what the received-packet side calls [sentPacketTracker]. *)
#[export] Instance sentPacketHandler_tracker {A} `{SendAlgorithm A}
    : SentPacketTracker (sentPacketHandler A) := {
  GetLowestPacketNotConfirmedAcked := lowestNotConfirmedAcked;
  sent_ReceivedPacket now l h :=
    match sph_ReceivedPacket l now h with
    | (Ok _, h') => Ok h'
    | (Err e, _) => Err e
    | (Panic m, _) => Panic m
    end
}.
