(* ===== verification/SentPacketProofs.v ===== *)
(** * SentPacketProofs: correctness of the sent-packet handler

    The accounting invariant ([bytesInFlight] is the number of bytes in the
    tracked packets), its preservation by every operation, and with it the
    absence of panics; the acknowledgement and loss decisions against their
    declarative description; probe timeouts and the amplification limit.  All
    theorems hold for any congestion controller ([SendAlgorithm]) and any random
    words. *)

From S2P Require Import Prelude Protocol Varint AckFrame ReceivedHistory ReceivedTracker.
From S2P Require Import SentHistory PNGenerator Ecn GoFloat RTTStats Congestion SentPacketHandler.
From stdpp Require Import base numbers list option strings.
From Stdlib Require Import ZArith Lia.
#[local] Open Scope Z_scope.
#[local] Set Warnings "-clear-no-such-hyp".

(** ** Iterating over a snapshot *)

Lemma wp_Iterate_loop {S} (cb : packet -> stM S bool) (I : list (option packet) -> S -> Prop)
    (Q : S -> Prop) (E : GoError -> S -> Prop) ps : forall s,
  (forall p ps' s, I (Some p :: ps') s ->
     wp (cb p) (fun (c : bool) s' => if c then I ps' s' else Q s') E s) ->
  (forall ps' s, I (None :: ps') s -> I ps' s) ->
  (forall s, I [] s -> Q s) ->
  I ps s -> wp (Iterate_loop cb ps) (fun _ => Q) E s.
Proof.
  induction ps as [|[p|] ps IH]; intros s Hcb Hnil Hend Hi; cbn [Iterate_loop].
  - apply wp_ret. by apply Hend.
  - apply wp_bind. eapply wp_mono; [| |by apply Hcb]; [|done].
    intros [] s' Hs'; [by apply IH|by apply wp_ret].
  - apply IH; auto.
Qed.

(** ** The accounting invariant *)

(** The bytes a packet has in flight. *)
Definition flight (p : packet) : Z := if includedInBytesInFlight p then pLength p else 0.

Definition packet_ok (p : packet) : Prop :=
  declaredLost p = false /\ 0 <= pLength p /\ 0 <= SendTime p /\
  if skippedPacket p then includedInBytesInFlight p = false
  else Frames p ++ StreamFrames p <> [].

Definition space_inv (s : packetNumberSpace) : Prop :=
  shist_inv (history s) /\ forall p, tracked (history s) p -> packet_ok p.

Definition space_flight (s : packetNumberSpace) : Z := sumw flight (packets (history s)).

Definition opt_flight (o : option packetNumberSpace) : Z := from_option space_flight 0 o.

(** The part of the handler the invariant is about. *)
Definition core {A} (h : sentPacketHandler A) :=
  (sh_initialPackets h, sh_handshakePackets h, sh_appDataPackets h, bytesInFlight h).

(** [x] bytes in flight belong to packets that were taken out of the histories
    but not yet subtracted. *)
Definition core_inv (x : Z)
    (c : option packetNumberSpace * option packetNumberSpace * packetNumberSpace * Z) : Prop :=
  let '(i, hs, ad, inFlight) := c in
  (forall s, i = Some s -> space_inv s) /\ (forall s, hs = Some s -> space_inv s) /\
  space_inv ad /\ 0 <= x /\ inFlight < 2 ^ 62 /\
  inFlight = opt_flight i + opt_flight hs + space_flight ad + x.

Definition sph_inv {A} (x : Z) (h : sentPacketHandler A) : Prop := core_inv x (core h).

(** The handler is unchanged but for its timers, statistics and log. *)
Section core.
Context {A : Type}.
Implicit Types h : sentPacketHandler A.

Lemma core_w_alarm v h : core (w_alarm v h) = core h. Proof. by destruct h. Qed.
Lemma core_w_pto a b c h : core (w_pto a b c h) = core h. Proof. by destruct h. Qed.
Lemma core_w_congestion v h : core (w_congestion v h) = core h. Proof. by destruct h. Qed.
Lemma core_w_rtt v h : core (w_rtt v h) = core h. Proof. by destruct h. Qed.
Lemma core_w_ecn v h : core (w_ecn v h) = core h. Proof. by destruct h. Qed.
Lemma core_w_events v h : core (w_events v h) = core h. Proof. by destruct h. Qed.
Lemma core_w_lowest v h : core (w_lowest v h) = core h. Proof. by destruct h. Qed.
Lemma core_w_peerCompleted v h : core (w_peerCompleted v h) = core h. Proof. by destruct h. Qed.
Lemma core_w_peerValidated v h : core (w_peerValidated v h) = core h. Proof. by destruct h. Qed.
Lemma core_w_confirmed v h : core (w_confirmed v h) = core h. Proof. by destruct h. Qed.
Lemma core_w_bytesSent v h : core (w_bytesSent v h) = core h. Proof. by destruct h. Qed.
Lemma core_w_bytesReceived v h : core (w_bytesReceived v h) = core h. Proof. by destruct h. Qed.
End core.

Create Rewrite HintDb sph_core.
#[export] Hint Rewrite @core_w_alarm @core_w_pto @core_w_congestion @core_w_rtt @core_w_ecn
  @core_w_events @core_w_lowest @core_w_peerCompleted @core_w_peerValidated @core_w_confirmed
  @core_w_bytesSent @core_w_bytesReceived : sph_core.

(** Solve [sph_inv x h'] from [sph_inv x h] when [h'] only differs elsewhere. *)
Ltac same_core :=
  unfold sph_inv, setPTO in *; cbn beta zeta; repeat case_match; autorewrite with sph_core; done.

Section proofs.
Context (rng : nat -> Z) {A : Type} `{SendAlgorithm A}.
Implicit Types h : sentPacketHandler A.

Lemma flight_nonneg s p : space_inv s -> tracked (history s) p -> 0 <= flight p.
Proof.
  intros [_ Hp] Ht. destruct (Hp p Ht) as (_ & Hl & _ & _). unfold flight. case_match; lia.
Qed.

Lemma space_flight_nonneg s : space_inv s -> 0 <= space_flight s.
Proof. intros Hs. apply sumw_nonneg. intros p Hp. by apply (flight_nonneg s). Qed.

Lemma opt_flight_nonneg o : (forall s, o = Some s -> space_inv s) -> 0 <= opt_flight o.
Proof. destruct o as [s|]; cbn; [|lia]. intros Hs. by apply space_flight_nonneg, Hs. Qed.

Lemma inFlight_ge x h : sph_inv x h -> x <= bytesInFlight h.
Proof.
  intros (Hi & Hh & Ha & Hx & Hm & Hf). pose proof (opt_flight_nonneg _ Hi).
  pose proof (opt_flight_nonneg _ Hh). pose proof (space_flight_nonneg _ Ha). lia.
Qed.

Lemma getSpace_inv x h encLevel s :
  sph_inv x h -> getPacketNumberSpace h encLevel = Some s -> space_inv s.
Proof.
  intros (Hi & Hh & Ha & _). destruct encLevel; cbn; [apply Hi|apply Hh|intros [= <-]; done..].
Qed.

(** Replacing a space by one with [d] bytes less in flight. *)
Lemma set_space_inv x d h encLevel s s' :
  sph_inv x h -> getPacketNumberSpace h encLevel = Some s -> space_inv s' ->
  space_flight s' = space_flight s - d -> 0 <= x + d ->
  sph_inv (x + d) (setPacketNumberSpace encLevel s' h) /\
  getPacketNumberSpace (setPacketNumberSpace encLevel s' h) encLevel = Some s'.
Proof.
  intros (Hi & Hh & Ha & Hx & Hm & Hf) Hs Hs' Hd Hxd.
  destruct h; destruct encLevel; cbn in *; subst; (split; [|done]);
    split_and!; try done; try (intros ? [= <-]; done); try lia; cbn in *; try lia.
  all: injection Hs as <-; lia.
Qed.

(** The same without change of the bytes in flight. *)
Lemma set_space_inv0 x h encLevel s s' :
  sph_inv x h -> getPacketNumberSpace h encLevel = Some s -> space_inv s' ->
  space_flight s' = space_flight s ->
  sph_inv x (setPacketNumberSpace encLevel s' h) /\
  getPacketNumberSpace (setPacketNumberSpace encLevel s' h) encLevel = Some s'.
Proof.
  intros Hi Hs Hs' Hd. rewrite <- (Z.add_0_r x). pose proof Hi as (_ & _ & _ & ? & _).
  apply (set_space_inv x 0 h encLevel s s'); [done..|lia|lia].
Qed.

Lemma wp_getSpace h encLevel s Q E :
  getPacketNumberSpace h encLevel = Some s -> Q s h -> wp (getSpace encLevel) Q E h.
Proof. intros Hs HQ. unfold wp, getSpace. rewrite Hs. done. Qed.

Lemma wp_modifySpace h encLevel s f Q E :
  getPacketNumberSpace h encLevel = Some s -> Q tt (setPacketNumberSpace encLevel (f s) h) ->
  wp (modifySpace encLevel f) Q E h.
Proof.
  intros Hs HQ. apply wp_bind. eapply wp_getSpace; [done|]. by apply wp_modify.
Qed.

Lemma wp_onHistory h encLevel s hist f Q E :
  getPacketNumberSpace h encLevel = Some s -> f (history s) = Ok hist ->
  Q tt (setPacketNumberSpace encLevel (sp_history hist s) h) ->
  wp (onHistory encLevel f) Q E h.
Proof.
  intros Hs Hf HQ. apply wp_bind. eapply wp_getSpace; [done|]. apply wp_bind.
  eapply wp_lift; [done|]. by apply wp_modify.
Qed.

(** Setting the timer touches the alarm only. *)
Lemma wp_setLossDetectionTimer h now (Q : unit -> sentPacketHandler A -> Prop) E :
  Q tt (w_alarm (lossDetectionAlarm h now) h) -> wp (setLossDetectionTimer now) Q E h.
Proof. intros HQ. by apply wp_modify. Qed.

(** Subtracting a packet that was already taken out of its history. *)
Lemma wp_removeFromBytesInFlight x h p E :
  sph_inv x h -> 0 <= pLength p -> flight p <= x ->
  wp (removeFromBytesInFlight p)
    (fun _ h' => sph_inv (x - flight p) h' /\
       h' = w_inFlight (bytesInFlight h - flight p) h) E h.
Proof.
  intros Hi Hl Hf. pose proof (inFlight_ge x h Hi). apply wp_bind, wp_get.
  assert (Hinv : sph_inv (x - flight p) (w_inFlight (bytesInFlight h - flight p) h)).
  { assert (0 <= flight p) by (unfold flight; case_match; lia).
    destruct h; cbn in *. destruct Hi as (? & ? & ? & ? & ? & Hsum). cbn in *.
    split_and!; try done; cbn; lia. }
  unfold flight in *. destruct (includedInBytesInFlight p).
  - zfalse (bytesInFlight h <? pLength p). apply wp_modify.
    destruct Hi as (? & ? & ? & ? & ? & ?). cbn in *.
    rewrite i64_small by int_range. done.
  - apply wp_ret. rewrite !Z.sub_0_r in *.
    assert (w_inFlight (bytesInFlight h) h = h) as Ew by by destruct h. by rewrite Ew in *.
Qed.

Lemma sph_inv_core x h h' : core h' = core h -> sph_inv x h -> sph_inv x h'.
Proof. unfold sph_inv. by intros ->. Qed.

Lemma get_core h h' encLevel :
  core h' = core h -> getPacketNumberSpace h' encLevel = getPacketNumberSpace h encLevel.
Proof. unfold core. intros [= E1 E2 E3 _]. by destruct encLevel; cbn; rewrite ?E1, ?E2, ?E3. Qed.

Lemma inFlight_core h h' : core h' = core h -> bytesInFlight h' = bytesInFlight h.
Proof. unfold core. by intros [= _ _ _ E]. Qed.

Lemma inFlight_set_space h encLevel s :
  bytesInFlight (setPacketNumberSpace encLevel s h) = bytesInFlight h.
Proof. by destruct h, encLevel. Qed.

Lemma inFlight_increase x d h :
  sph_inv x h -> 0 <= d -> bytesInFlight h + d < 2 ^ 62 ->
  sph_inv (x + d) (w_inFlight (bytesInFlight h + d) h).
Proof.
  intros (? & ? & ? & ? & ? & ?) Hd Hm. destruct h; cbn in *. split_and!; try done; cbn; lia.
Qed.

(** *** [SentPacket] *)

Lemma space_inv_append s p hist :
  space_inv s -> packet_ok p -> next_pn (history s) (PacketNumber p) ->
  SentAckElicitingPacket (history s) p = Ok hist ->
  space_inv (sp_history hist s) /\ space_flight (sp_history hist s) = space_flight s + flight p /\
  highestPacketNumber hist = PacketNumber p /\
  forall q, tracked hist q <-> q = p \/ tracked (history s) q.
Proof.
  intros [Hh Hp] Hok Hn E.
  destruct (SentAckElicitingPacket_spec (history s) p Hh Hn) as (h' & E' & Hi' & Hhi & Ht).
  rewrite E in E'. injection E' as <-. split; [split; [done|]|split; [|done]].
  - intros q Hq. apply Ht in Hq as [->|Hq]; auto.
  - unfold space_flight. cbn. unfold SentAckElicitingPacket in E.
    destruct (checkSequentialPacketNumberUse _ _); try done. cbn in E. injection E as <-. cbn.
    rewrite sumw_app. cbn. lia.
Qed.

Lemma space_inv_same s hist :
  space_inv s -> shist_inv hist -> (forall q, tracked hist q -> tracked (history s) q) ->
  space_inv (sp_history hist s).
Proof. intros [_ Hp] Hi Ht. split; [done|]. intros q Hq. by apply Hp, Ht. Qed.

Definition is_ack_eliciting (streamFrames frames : list Frame) : bool :=
  (0 <? blen streamFrames) || (0 <? blen frames).

Lemma ack_eliciting_frames sf fr : is_ack_eliciting sf fr = true -> fr ++ sf <> [].
Proof. destruct sf, fr; cbn; done. Qed.

(** The tracker accepts the marking (only packets of the 1-RTT level reach it). *)
Definition ecn_accepts h (encLevel : EncryptionLevel) (pn : Z) (ecn : ECN) : Prop :=
  forall e, sh_ecn h = Some e -> encLevel = Encryption1RTT -> is_ok (ecn_SentPacket e pn ecn).

Lemma wp_onECN h encLevel f (Q : unit -> sentPacketHandler A -> Prop) E :
  (forall e, sh_ecn h = Some e -> encLevel = Encryption1RTT -> is_ok (f e)) ->
  (forall h', core h' = core h ->
     peerCompletedAddressValidation h' = peerCompletedAddressValidation h -> Q tt h') ->
  wp (onECN encLevel f) Q E h.
Proof.
  intros Hok HQ. apply wp_bind, wp_get. destruct (sh_ecn h) as [e|] eqn:Ee.
  - case_bool_decide as Hl; [|by apply wp_ret, HQ].
    destruct (Hok e eq_refl Hl) as [e' He]. apply wp_bind. eapply wp_lift; [done|].
    apply wp_modify, HQ; [apply core_w_ecn|by destruct h].
  - by apply wp_ret, HQ.
Qed.

Definition sent_post h encLevel s (p : packet) (ackEliciting : bool)
    (h' : sentPacketHandler A) : Prop :=
  sph_inv 0 h' /\
  bytesInFlight h' = bytesInFlight h + (if ackEliciting then pLength p else 0) /\
  exists s', getPacketNumberSpace h' encLevel = Some s' /\
    spLargestSent s' = PacketNumber p /\ highestPacketNumber (history s') = PacketNumber p /\
    forall q, tracked (history s') q <-> (ackEliciting = true /\ q = p) \/ tracked (history s) q.

Lemma wp_sent_nonAckEliciting h encLevel s p now E :
  sph_inv 0 h -> getPacketNumberSpace h encLevel = Some s ->
  next_pn (history s) (PacketNumber p) -> spLargestSent s = PacketNumber p ->
  wp (onHistory encLevel (fun hist => SentNonAckElicitingPacket hist (PacketNumber p)) ≫= fun _ =>
      h ← get;
      if negb (peerCompletedAddressValidation h) then setLossDetectionTimer now else mret tt)
    (fun _ => sent_post h encLevel s p false) E h.
Proof.
  intros Hi Hs Hn Hl. pose proof (getSpace_inv _ _ _ _ Hi Hs) as Hsi.
  destruct (SentNonAckElicitingPacket_spec (history s) (PacketNumber p) (proj1 Hsi) Hn)
    as (hist & E1 & Hhi & Hhigh & _ & Ht).
  assert (Hf : sumw flight (packets hist) = sumw flight (packets (history s))).
  { unfold SentNonAckElicitingPacket in E1.
    destruct (checkSequentialPacketNumberUse _ _); try done. cbn in E1. injection E1 as <-. cbn.
    case_match; [|done]. rewrite sumw_app. cbn. lia. }
  destruct (set_space_inv0 0 h encLevel s (sp_history hist s) Hi Hs) as [Hi' Hs'].
  { apply space_inv_same; auto. intros q. by rewrite Ht. }
  { done. }
  assert (Hpost : forall v, sent_post h encLevel s p false
    (w_alarm v (setPacketNumberSpace encLevel (sp_history hist s) h))).
  { intros v. split; [|split].
    - eapply sph_inv_core; [apply core_w_alarm|done].
    - rewrite (inFlight_core _ _ (core_w_alarm _ _)), inFlight_set_space. lia.
    - exists (sp_history hist s). rewrite (get_core _ _ _ (core_w_alarm _ _)).
      split_and!; try done. intros q. cbn. rewrite Ht. naive_solver. }
  apply wp_bind. eapply wp_onHistory; [done..|]. apply wp_bind, wp_get.
  case_match.
  - apply wp_setLossDetectionTimer, Hpost.
  - apply wp_ret. specialize (Hpost (alarm (setPacketNumberSpace encLevel (sp_history hist s) h))).
    by destruct (setPacketNumberSpace encLevel (sp_history hist s) h).
Qed.

Lemma wp_sent_ackEliciting h h0 encLevel s p now E :
  sph_inv (flight p) h -> getPacketNumberSpace h encLevel = Some s ->
  next_pn (history s) (PacketNumber p) -> spLargestSent s = PacketNumber p -> packet_ok p ->
  bytesInFlight h = bytesInFlight h0 + pLength p ->
  wp (onHistory encLevel (fun hist => SentAckElicitingPacket hist p) ≫= fun _ =>
      setLossDetectionTimer now)
    (fun _ => sent_post h0 encLevel s p true) E h.
Proof.
  intros Hi Hs Hn Hl Hok Hb. pose proof (getSpace_inv _ _ _ _ Hi Hs) as Hsi.
  destruct (SentAckElicitingPacket_spec (history s) p (proj1 Hsi) Hn) as (hist & E1 & _).
  destruct (space_inv_append s p hist Hsi Hok Hn E1) as (Hsi' & Hf & Hhigh & Ht).
  pose proof Hi as (_ & _ & _ & Hx & _ & _).
  destruct (set_space_inv (flight p) (- flight p) h encLevel s (sp_history hist s) Hi Hs Hsi')
    as [Hi' Hs']; [lia|lia|]. rewrite Z.add_opp_diag_r in Hi'.
  apply wp_bind. eapply wp_onHistory; [done..|]. apply wp_setLossDetectionTimer.
  split; [|split].
  - eapply sph_inv_core; [apply core_w_alarm|done].
  - rewrite (inFlight_core _ _ (core_w_alarm _ _)), inFlight_set_space. lia.
  - exists (sp_history hist s). rewrite (get_core _ _ _ (core_w_alarm _ _)).
    split_and!; try done. intros q. cbn. rewrite Ht. naive_solver.
Qed.

(** Changing the times and the largest packet numbers of a space. *)
Lemma set_space_meta x h encLevel s s' :
  sph_inv x h -> getPacketNumberSpace h encLevel = Some s -> history s' = history s ->
  sph_inv x (setPacketNumberSpace encLevel s' h) /\
  getPacketNumberSpace (setPacketNumberSpace encLevel s' h) encLevel = Some s' /\
  bytesInFlight (setPacketNumberSpace encLevel s' h) = bytesInFlight h /\
  sh_ecn (setPacketNumberSpace encLevel s' h) = sh_ecn h.
Proof.
  intros Hi Hs Hh. pose proof (getSpace_inv _ _ _ _ Hi Hs) as Hsi.
  destruct (set_space_inv0 x h encLevel s s' Hi Hs) as [? ?].
  - unfold space_inv in *. by rewrite Hh.
  - unfold space_flight. by rewrite Hh.
  - split_and!; try done; [apply inFlight_set_space|by destruct h, encLevel].
Qed.

Lemma wp_SentPacket h t pn la sf fr encLevel ecn size mtu now s E :
  sph_inv 0 h -> getPacketNumberSpace h encLevel = Some s -> next_pn (history s) pn ->
  0 <= t -> 0 <= size -> bytesInFlight h + size < 2 ^ 62 -> ecn_accepts h encLevel pn ecn ->
  wp (SentPacket t pn la sf fr encLevel ecn size mtu now)
    (fun _ => sent_post h encLevel s (newSentPacket t pn la sf fr encLevel size mtu)
                (is_ack_eliciting sf fr)) E h.
Proof.
  intros Hi Hs Hn Ht0 Hsz Hb Hecn. set (p := newSentPacket t pn la sf fr encLevel size mtu).
  unfold SentPacket. apply wp_bind, wp_modify.
  set (h0 := w_bytesSent _ h).
  assert (E0 : core h0 = core h /\ sh_ecn h0 = sh_ecn h) by by destruct h.
  destruct E0 as [C0 N0]. clearbody h0.
  rewrite <- (get_core _ _ encLevel C0) in Hs. apply (sph_inv_core _ _ _ C0) in Hi.
  apply wp_bind. eapply wp_modifySpace; [exact Hs|].
  destruct (set_space_meta 0 h0 encLevel s (sp_largestSent pn s) Hi Hs eq_refl) as (Hi1 & Hs1 & B1 & N1).
  set (h1 := setPacketNumberSpace encLevel (sp_largestSent pn s) h0) in *. clearbody h1.
  rewrite (inFlight_core _ _ C0) in B1. rewrite N0 in N1.
  change ((0 <? blen sf) || (0 <? blen fr)) with (is_ack_eliciting sf fr).
  apply wp_bind. destruct (is_ack_eliciting sf fr) eqn:Eack; cbn [negb].
  - apply wp_bind. eapply wp_modifySpace; [exact Hs1|].
    destruct (set_space_meta 0 h1 encLevel _ (sp_lastTime t (sp_largestSent pn s)) Hi1 Hs1 eq_refl)
      as (Hi2 & Hs2 & B2 & N2).
    set (h2 := setPacketNumberSpace _ _ h1) in *. clearbody h2.
    apply wp_modify. rewrite B1 in B2. pose proof (inFlight_ge 0 h2 Hi2).
    rewrite i64_small by int_range.
    pose proof (inFlight_increase 0 size h2 Hi2 Hsz ltac:(lia)) as Hi3.
    set (h3 := w_inFlight (bytesInFlight h2 + size) h2) in *.
    assert (F3 : getPacketNumberSpace h3 encLevel = getPacketNumberSpace h2 encLevel /\
      bytesInFlight h3 = bytesInFlight h2 + size /\ sh_ecn h3 = sh_ecn h2).
    { subst h3. by destruct h2, encLevel. }
    destruct F3 as (F3 & B3 & N3). clearbody h3. rewrite <- F3 in Hs2.
    set (h4 := if 0 <? numProbesToSend h3 then _ else h3).
    assert (E4 : core h4 = core h3 /\ sh_ecn h4 = sh_ecn h3) by (subst h4; case_match; by destruct h3).
    destruct E4 as [C4 N4]. clearbody h4.
    apply wp_bind, wp_modify, wp_bind, wp_onECN.
    { intros e He Hl. apply Hecn; [|done].
      rewrite <- He. destruct h4; cbn in *. congruence. }
    intros h5 C5 _. rewrite core_w_congestion, C4 in C5.
    apply (wp_sent_ackEliciting h5 h encLevel (sp_lastTime t (sp_largestSent pn s)) p).
    + eapply sph_inv_core; [exact C5|exact Hi3].
    + rewrite (get_core _ _ _ C5). exact Hs2.
    + exact Hn.
    + done.
    + split_and!; try done. cbn. by apply ack_eliciting_frames.
    + rewrite (inFlight_core _ _ C5), B3, B2. done.
  - apply wp_ret. apply wp_bind, wp_modify, wp_bind, wp_onECN.
    { intros e He Hl. apply Hecn; [|done].
      rewrite <- He. destruct h1; cbn in *. congruence. }
    intros h5 C5 _. rewrite core_w_congestion in C5.
    eapply wp_mono; [| |apply (wp_sent_nonAckEliciting h5 encLevel (sp_largestSent pn s) p)]; [|done| | | |].
    + intros a h'. unfold sent_post. rewrite (inFlight_core _ _ C5), B1. done.
    + eapply sph_inv_core; [exact C5|exact Hi1].
    + rewrite (get_core _ _ _ C5). exact Hs1.
    + exact Hn.
    + done.
Qed.

(** *** Taking a packet out of its history *)

Lemma space_inv_removed s hist p :
  space_inv s -> tracked (history s) p -> shist_inv hist ->
  (forall q, tracked hist q -> tracked (history s) q) ->
  sumw flight (packets hist) = sumw flight (packets (history s)) - flight p ->
  space_inv (sp_history hist s) /\ space_flight (sp_history hist s) = space_flight s - flight p.
Proof. intros Hs Ht Hi Hsub Hf. split; [by apply space_inv_same|done]. Qed.

Lemma wp_onHistory_lost x h encLevel s p Q E :
  sph_inv x h -> getPacketNumberSpace h encLevel = Some s -> tracked (history s) p ->
  (forall hist h', h' = setPacketNumberSpace encLevel (sp_history hist s) h ->
     sph_inv (x + flight p) h' -> getPacketNumberSpace h' encLevel = Some (sp_history hist s) ->
     (forall q, tracked hist q <-> tracked (history s) q /\ PacketNumber q <> PacketNumber p) ->
     highestPacketNumber hist = highestPacketNumber (history s) ->
     Q tt h') ->
  wp (onHistory encLevel (fun hist => DeclareLost hist (PacketNumber p))) Q E h.
Proof.
  intros Hi Hs Ht HQ. pose proof (getSpace_inv _ _ _ _ Hi Hs) as Hsi.
  destruct (DeclareLost_spec (history s) p (proj1 Hsi) Ht) as (hist & E1 & Hhi & Hhigh & _ & Htr).
  pose proof (DeclareLost_sumw flight _ _ _ (proj1 Hsi) Ht E1) as Hf.
  destruct (space_inv_removed s hist p Hsi Ht Hhi) as [Hsi' Hf']; [intros q; rewrite Htr; tauto|done|].
  pose proof (flight_nonneg s p Hsi Ht). pose proof Hi as (_ & _ & _ & Hx & _).
  destruct (set_space_inv x (flight p) h encLevel s _ Hi Hs Hsi') as [Hi' Hs']; [done|lia|].
  eapply wp_onHistory; [done..|]. by eapply HQ.
Qed.

Lemma wp_queueFrames h p (Q : unit -> sentPacketHandler A -> Prop) E :
  Frames p ++ StreamFrames p <> [] ->
  Q tt (w_events (sh_events h ++ frameEvents FrameLost p) h) ->
  wp (queueFramesForRetransmission p) Q E h.
Proof.
  intros Hne HQ. unfold queueFramesForRetransmission.
  destruct (Frames p), (StreamFrames p); try done; by apply wp_modify.
Qed.

(** *** [QueueProbePacket] *)

Lemma wp_QueueProbePacket h encLevel s E :
  sph_inv 0 h -> getPacketNumberSpace h encLevel = Some s ->
  wp (QueueProbePacket encLevel)
    (fun b h' => sph_inv 0 h' /\ b = HasOutstandingPackets (history s) /\
       forall p, FirstOutstanding (history s) = Some p ->
         sh_events h' = sh_events h ++ frameEvents FrameLost p /\
         bytesInFlight h' = bytesInFlight h - flight p) E h.
Proof.
  intros Hi Hs. pose proof (getSpace_inv _ _ _ _ Hi Hs) as Hsi.
  apply wp_bind. eapply wp_getSpace; [done|].
  pose proof (FirstOutstanding_spec (history s) (proj1 Hsi)) as Hf.
  destruct (FirstOutstanding (history s)) as [p|] eqn:Ef.
  2:{ apply wp_ret. split_and!; try done. by destruct Hf as [-> _]. }
  destruct Hf as (Ht & Ho & _). destruct (proj2 Hsi p Ht) as (Hd & Hl & _ & Hfr).
  assert (Hsk : skippedPacket p = false).
  { unfold outstanding in Ho. by destruct (skippedPacket p), (declaredLost p). }
  rewrite Hsk in Hfr.
  apply wp_bind, wp_queueFrames; [done|].
  set (h1 := w_events _ h).
  assert (C1 : core h1 = core h) by apply core_w_events.
  assert (Ev1 : sh_events h1 = sh_events h ++ frameEvents FrameLost p) by by destruct h.
  clearbody h1.
  (* the bytes are subtracted before the packet leaves the history *)
  pose proof (flight_nonneg s p Hsi Ht) as Hfl.
  assert (Hge : flight p <= bytesInFlight h).
  { assert (Hle : flight p <= space_flight s).
    { apply sumw_elem; [|exact Ht]. intros q Hq. by apply (flight_nonneg s). }
    destruct Hi as (Hi1 & Hi2 & Hi3 & _ & _ & Hsum).
    pose proof (opt_flight_nonneg _ Hi1). pose proof (opt_flight_nonneg _ Hi2).
    pose proof (space_flight_nonneg _ Hi3).
    destruct encLevel; cbn in *; [rewrite Hs in *|rewrite Hs in *|injection Hs as <-|injection Hs as <-];
      cbn in *; lia. }
  assert (Hgo : forall h2, core h2 = core (w_inFlight (bytesInFlight h - flight p) h) ->
    wp (onHistory encLevel (fun hist => DeclareLost hist (PacketNumber p)) ≫= fun _ => mret true)
      (fun b h' => sph_inv 0 h' /\ b = true /\ sh_events h' = sh_events h2 /\
         bytesInFlight h' = bytesInFlight h - flight p) E h2).
  { intros h2 C2. apply wp_bind.
    destruct (DeclareLost_spec (history s) p (proj1 Hsi) Ht) as (hist & E1 & Hhi & _ & _ & Htr).
    pose proof (DeclareLost_sumw flight _ _ _ (proj1 Hsi) Ht E1) as Hfs.
    destruct (space_inv_removed s hist p Hsi Ht Hhi) as [Hsi' Hf']; [intros q; rewrite Htr; tauto|done|].
    assert (Hs2 : getPacketNumberSpace h2 encLevel = Some s).
    { rewrite (get_core _ _ _ C2), <- Hs. by destruct h, encLevel. }
    eapply wp_onHistory; [done..|]. apply wp_ret.
    assert (B2 : bytesInFlight h2 = bytesInFlight h - flight p)
      by (rewrite (inFlight_core _ _ C2); by destruct h).
    split; [|split; [done|split; [by destruct h2, encLevel|by rewrite inFlight_set_space]]].
    destruct Hi as (Hi1 & Hi2 & Hi3 & _ & Hmx & Hsum). unfold core in C2.
    injection C2 as Ca Cb Cc Cd. unfold sph_inv, core_inv, core.
    destruct h, h2, encLevel; cbn in *; subst; split_and!; try done;
      try (intros ? [= <-]; done); try (injection Hs as <-); cbn in *; lia. }
  apply wp_bind. unfold removeFromBytesInFlight. apply wp_bind, wp_get.
  assert (Hho : HasOutstandingPackets (history s) = true).
  { unfold FirstOutstanding in Ef. by destruct (HasOutstandingPackets (history s)). }
  rewrite (inFlight_core _ _ C1). unfold flight in Hge, Hgo, Hfl |- *.
  destruct (includedInBytesInFlight p) eqn:Einc.
  - zfalse (bytesInFlight h <? pLength p).
    apply wp_modify. eapply wp_mono; [| |apply Hgo]; [|done|].
    + cbn. intros b h' (? & -> & Hev & ?). rewrite Hho. split; [done|split; [done|]].
      intros p' Hp'. injection Hp' as <-. rewrite Einc. split; [|done]. rewrite Hev, <- Ev1. by destruct h1.
    + destruct Hi as (?&?&?&?&?&?). rewrite i64_small by int_range.
      unfold core in *. destruct h, h1; cbn in *. congruence.
  - apply wp_ret. eapply wp_mono; [| |apply Hgo]; [|done|].
    + cbn. intros b h' (? & -> & Hev & ?). rewrite Hho. split; [done|split; [done|]].
      intros p' Hp'. injection Hp' as <-. rewrite Einc. split; [|done]. by rewrite Hev, <- Ev1.
    + rewrite Z.sub_0_r. unfold core in *. destruct h, h1; cbn in *. congruence.
Qed.

(** *** Loss detection *)

Definition lossEvents (p : packet) : list frame_event :=
  if skippedPacket p then [] else frameEvents FrameLost p.

Lemma wp_declarePacketLost x h encLevel s prior p E :
  sph_inv x h -> getPacketNumberSpace h encLevel = Some s -> tracked (history s) p ->
  wp (declarePacketLost encLevel prior p)
    (fun _ h' => sph_inv x h' /\ sh_events h' = sh_events h ++ lossEvents p /\
       exists hist, getPacketNumberSpace h' encLevel = Some (sp_history hist s) /\
         highestPacketNumber hist = highestPacketNumber (history s) /\
         forall q, tracked hist q <-> tracked (history s) q /\ PacketNumber q <> PacketNumber p) E h.
Proof.
  intros Hi Hs Ht. pose proof (getSpace_inv _ _ _ _ Hi Hs) as Hsi.
  destruct (proj2 Hsi p Ht) as (_ & Hl & _ & Hfr). unfold lossEvents.
  pose proof Hi as (_ & _ & _ & Hx & _).
  apply wp_bind. eapply wp_onHistory_lost; [done..|]. intros hist h1 Eh1 Hi1 Hs1 Htr Hhigh.
  assert (Ev1 : sh_events h1 = sh_events h) by (subst h1; by destruct h, encLevel).
  clear Eh1. destruct (skippedPacket p).
  { apply wp_ret. rewrite app_nil_r. unfold flight in Hi1. rewrite Hfr, Z.add_0_r in Hi1.
    split; [done|split; [done|]]. by exists hist. }
  pose proof (flight_nonneg s p Hsi Ht).
  apply wp_bind. eapply wp_mono; [| |apply (wp_removeFromBytesInFlight (x + flight p)); [done|done|lia]];
    [|done]. cbn. intros _ h2 [Hi2 Eh2]. replace (x + flight p - flight p) with x in Hi2 by lia.
  assert (F2 : sh_events h2 = sh_events h1 /\
    getPacketNumberSpace h2 encLevel = getPacketNumberSpace h1 encLevel)
    by (subst h2; by destruct h1, encLevel).
  destruct F2 as [Ev2 Hs2]. clear Eh2. rewrite Hs1 in Hs2. rewrite Ev1 in Ev2.
  apply wp_bind, wp_queueFrames; [done|]. set (h3 := w_events _ h2).
  assert (F3 : core h3 = core h2 /\ sh_events h3 = sh_events h ++ frameEvents FrameLost p)
    by (subst h3; rewrite <- Ev2; by destruct h2).
  destruct F3 as [C3 Ev3]. clearbody h3.
  apply wp_bind. set (m := if IsPathMTUProbePacket p then _ else _).
  apply (wp_mono m (fun _ h4 => core h4 = core h2 /\ sh_events h4 = sh_events h3) _ E);
    [|done|].
  2:{ subst m. case_match; [by apply wp_ret|]. apply wp_modify. rewrite core_w_congestion.
      split; [done|by destruct h3]. }
  intros _ h4 [C4 Ev4]. rewrite Ev3 in Ev4. unfold onECN. apply wp_bind, wp_get.
  assert (Hfin : forall h5, core h5 = core h4 -> sh_events h5 = sh_events h4 ->
    sph_inv x h5 /\ sh_events h5 = sh_events h ++ frameEvents FrameLost p /\
    exists hist, getPacketNumberSpace h5 encLevel = Some (sp_history hist s) /\
      highestPacketNumber hist = highestPacketNumber (history s) /\
      forall q, tracked hist q <-> tracked (history s) q /\ PacketNumber q <> PacketNumber p).
  { intros h5 C5 Ev5. rewrite C4 in C5. split; [by eapply sph_inv_core|].
    split; [congruence|]. exists hist. by rewrite (get_core _ _ _ C5). }
  destruct (sh_ecn h4); [|by apply wp_ret, Hfin].
  case_bool_decide; [|by apply wp_ret, Hfin].
  apply wp_bind. eapply wp_lift; [done|]. apply wp_modify. apply Hfin; by destruct h4.
Qed.

(** The packets loss detection gives up on, in RFC 9002's terms: sent before
    the time threshold, or at least three packet numbers below the largest
    acknowledged one. *)
Definition lostb (lostSendTime la : Z) (p : packet) : bool :=
  (PacketNumber p <=? la) && ((SendTime p <? lostSendTime) || (PacketNumber p + 3 <=? la)).

Lemma packetLost_lostb s p lostSendTime la :
  space_inv s -> tracked (history s) p -> PacketNumber p <= la ->
  packetLost lostSendTime la p = lostb lostSendTime la p.
Proof.
  intros [Hh _] [i Hi]%list_elem_of_lookup Hle. unfold packetLost, lostb.
  destruct (si_num _ Hh) as (n & Hn & Hnum & Hhigh). pose proof (si_high _ Hh). pose proof (Hnum _ _ Hi).
  assert (packets (history s) <> []) as Hne by (intros E; by rewrite E in Hi).
  specialize (Hhigh Hne). apply lookup_lt_Some in Hi. unfold blen in Hhigh.
  ztrue (PacketNumber p <=? la). unfold Time_Before, packetThreshold. rewrite i64_small by (split; lia).
  done.
Qed.

Fixpoint all_lossEvents (lostSendTime la : Z) (ps : list (option packet)) : list frame_event :=
  match ps with
  | [] => []
  | Some p :: ps' =>
      (if lostb lostSendTime la p then lossEvents p else []) ++ all_lossEvents lostSendTime la ps'
  | None :: ps' => all_lossEvents lostSendTime la ps'
  end.

Lemma all_lossEvents_app t la ps qs :
  all_lossEvents t la (ps ++ qs) = all_lossEvents t la ps ++ all_lossEvents t la qs.
Proof.
  induction ps as [|[p|] ps IH]; cbn; [done| |done]. by rewrite IH, app_assoc.
Qed.

Lemma all_lossEvents_above t la ps n :
  numbered n ps -> la < n -> all_lossEvents t la ps = [].
Proof.
  revert n. induction ps as [|o ps IH]; intros n Hn Hla; [done|].
  assert (Hn' : numbered (n + 1) ps).
  { intros i p Hi. rewrite (Hn (S i) p Hi). lia. }
  destruct o as [p|]; cbn; [|by apply (IH (n + 1)); [|lia]].
  pose proof (Hn 0%nat p eq_refl). unfold lostb. zfalse (PacketNumber p <=? la). cbn.
  by apply (IH (n + 1)); [|lia].
Qed.

(** The state of the iteration of [detectLostPackets] after the prefix [pre]. *)
Definition lost_loop (x : Z) encLevel (s0 : packetNumberSpace) (ev0 : list frame_event)
    (lostSendTime lossDelay : Z) (pre : list (option packet)) h : Prop :=
  let la := spLargestAcked s0 in
  sph_inv x h /\ sh_events h = ev0 ++ all_lossEvents lostSendTime la pre /\
  exists s, getPacketNumberSpace h encLevel = Some s /\ spLargestAcked s = la /\
    spLargestSent s = spLargestSent s0 /\ pns s = pns s0 /\
    highestPacketNumber (history s) = highestPacketNumber (history s0) /\
    (forall q, tracked (history s) q <->
       tracked (history s0) q /\ ~ (Some q ∈ pre /\ lostb lostSendTime la q = true)) /\
    (lossTime s = 0 -> forall q, Some q ∈ pre -> PacketNumber q <= la ->
       lostb lostSendTime la q = true) /\
    (lossTime s <> 0 -> exists q, Some q ∈ pre /\ PacketNumber q <= la /\
       lostb lostSendTime la q = false /\ lossTime s = SendTime q + lossDelay).

Lemma lost_loop_cons_some p ps la t q :
  Some q ∈ ps ++ [Some p] /\ lostb t la q = true <->
  (Some q ∈ ps /\ lostb t la q = true) \/ (q = p /\ lostb t la p = true).
Proof. rewrite elem_of_app, list_elem_of_singleton. naive_solver. Qed.

Lemma wp_detectLost x encLevel s0 ev0 lostSendTime lossDelay prior pre p ps E h :
  space_inv s0 -> packets (history s0) = pre ++ Some p :: ps -> 0 < lossDelay ->
  lost_loop x encLevel s0 ev0 lostSendTime lossDelay pre h ->
  wp (detectLost encLevel lostSendTime lossDelay prior p)
    (fun (c : bool) h' =>
       if c then lost_loop x encLevel s0 ev0 lostSendTime lossDelay (pre ++ [Some p]) h'
       else spLargestAcked s0 < PacketNumber p /\ h' = h) E h.
Proof.
  intros Hs0 Hps Hld (Hi & Hev & s & Hs & Hla & Hls & Hpns & Hhigh & Htr & Hlt & Htm).
  set (la := spLargestAcked s0) in *. destruct (si_num _ (proj1 Hs0)) as (n & Hn & Hnum & _).
  assert (Hp0 : tracked (history s0) p).
  { unfold tracked. rewrite Hps. apply elem_of_app. right. by left. }
  assert (Huniq : forall q, tracked (history s0) q -> PacketNumber q = PacketNumber p -> q = p).
  { intros q [i Hq]%list_elem_of_lookup Heq. apply list_elem_of_lookup in Hp0 as [j Hj].
    pose proof (Hnum _ _ Hq). pose proof (Hnum _ _ Hj). assert (i = j) as -> by lia. congruence. }
  assert (Hpre : Some p ∉ pre).
  { intros [i Hq]%list_elem_of_lookup.
    assert (Hq' : packets (history s0) !! i = Some (Some p)) by (rewrite Hps; by apply lookup_app_l_Some).
    assert (Hj : packets (history s0) !! length pre = Some (Some p))
      by (rewrite Hps; by apply list_lookup_middle).
    pose proof (Hnum _ _ Hq'). pose proof (Hnum _ _ Hj). apply lookup_lt_Some in Hq. lia. }
  assert (Ht : tracked (history s) p) by (apply Htr; naive_solver).
  apply wp_bind. eapply wp_getSpace; [exact Hs|]. rewrite Hla.
  destruct (Z.ltb_spec la (PacketNumber p)) as [Hgt|Hle]; [by apply wp_ret|].
  rewrite (packetLost_lostb s0) by done. destruct (lostb lostSendTime la p) eqn:Hlp.
  - apply wp_bind. eapply wp_mono; [| |by apply (wp_declarePacketLost x h encLevel s)]; [|done].
    intros _ h' (Hi' & Hev' & hist & Hs' & Hh' & Ht'). apply wp_ret.
    split; [done|]. split.
    { rewrite Hev', Hev, all_lossEvents_app. cbn. fold la. by rewrite Hlp, app_nil_r, app_assoc. }
    exists (sp_history hist s). split_and!; try done; [by cbn; rewrite Hh'| | |].
    + intros q. cbn. rewrite Ht', Htr, lost_loop_cons_some. fold la. split.
      * intros [[Hq Hnl] Hne]. split; [done|]. naive_solver.
      * intros [Hq Hnl]. split; [split; [done|tauto]|]. intros Heq. apply Hnl. right.
        split; [by apply Huniq|done].
    + cbn. intros Hz q [Hq|Hq]%elem_of_app Hqla; [by apply Hlt|].
      apply list_elem_of_singleton in Hq as [= ->]. done.
    + cbn. intros (q & Hq & Hr)%Htm. exists q. split; [apply elem_of_app; by left|done].
  - destruct (Z.eq_dec (lossTime s) 0) as [Hz|Hz]; unfold Time_IsZero.
    + ztrue (lossTime s =? 0). apply wp_bind, wp_modify, wp_ret.
      destruct (set_space_meta x h encLevel s (sp_lossTime (Time_Add (SendTime p) lossDelay) s) Hi Hs
        eq_refl) as (Hi' & Hs' & _ & _).
      split; [done|]. split.
      { rewrite all_lossEvents_app. cbn. fold la. rewrite Hlp, !app_nil_r, <- Hev. by destruct h, encLevel. }
      eexists. split; [exact Hs'|]. split_and!; try done; cbn.
      * intros q. rewrite Htr, lost_loop_cons_some. fold la. naive_solver congruence.
      * intros Hzero. unfold Time_Add in Hzero.
        destruct (proj2 Hs0 p Hp0) as (_ & _ & ? & _). lia.
      * intros _. exists p. split; [apply elem_of_app; right; by left|done].
    + zfalse (lossTime s =? 0). apply wp_ret. split; [done|]. split.
      { rewrite all_lossEvents_app. cbn. fold la. by rewrite Hlp, !app_nil_r. }
      exists s. split_and!; try done.
      * intros q. rewrite Htr, lost_loop_cons_some. fold la. naive_solver congruence.
      * intros (q & Hq & Hr)%Htm. exists q. split; [apply elem_of_app; by left|done].
Qed.

(** The iteration stops at a packet above the largest acknowledged one: no
    packet from there on is lost. *)
Lemma lost_loop_stop x encLevel s0 ev t d pre p ps h :
  space_inv s0 -> packets (history s0) = pre ++ Some p :: ps -> spLargestAcked s0 < PacketNumber p ->
  lost_loop x encLevel s0 ev t d pre h -> lost_loop x encLevel s0 ev t d (packets (history s0)) h.
Proof.
  intros Hs0 Hps Hgt (Hi' & Hev & s' & Hs' & Hla & Hls & Hp' & Hh' & Htr & Hlt & Htm).
  destruct (si_num _ (proj1 Hs0)) as (n & _ & Hnum & _).
  assert (Hn' : numbered (n + Z.of_nat (length pre)) (Some p :: ps)).
  { pose proof (numbered_drop n (packets (history s0)) (length pre) Hnum) as Hd.
    rewrite Hps, drop_app_length in Hd. done. }
  pose proof (Hn' 0%nat p eq_refl) as Hpn.
  assert (Hrest : forall q, Some q ∈ Some p :: ps -> spLargestAcked s0 < PacketNumber q).
  { intros q [i Hq]%list_elem_of_lookup. rewrite (Hn' _ _ Hq). lia. }
  split; [done|]. rewrite Hps. split.
  - assert (Hgt' : spLargestAcked s0 < n + Z.of_nat (length pre)) by lia.
    rewrite all_lossEvents_app, (all_lossEvents_above _ _ (Some p :: ps) _ Hn' Hgt').
    by rewrite app_nil_r.
  - exists s'. split_and!; try done.
    + intros q. rewrite Htr, elem_of_app. split; [|naive_solver].
      intros [Hq Hnl]. split; [done|]. intros [[Hin|Hin] Hl]; [tauto|].
      apply Hrest in Hin. unfold lostb in Hl. apply andb_true_iff in Hl as [Hl%Z.leb_le _]. lia.
    + intros Hz q [Hin|Hin]%elem_of_app Hq; [by apply Hlt|]. apply Hrest in Hin. lia.
    + intros (q & Hq & Hr)%Htm. exists q. split; [apply elem_of_app; by left|done].
Qed.

(** What [detectLostPackets] achieves, from the space [s]: the packets above
    the thresholds stay, and the loss timer is that of one of the packets that
    stay below the largest acknowledged one, if there is one. *)
Definition lost_post (x : Z) encLevel s (ev : list frame_event) (now lossDelay : Z)
    (h' : sentPacketHandler A) : Prop :=
  let la := spLargestAcked s in
  sph_inv x h' /\ sh_events h' = ev ++ all_lossEvents (now - lossDelay) la (packets (history s)) /\
  exists s', getPacketNumberSpace h' encLevel = Some s' /\ spLargestAcked s' = la /\
    spLargestSent s' = spLargestSent s /\ pns s' = pns s /\
    highestPacketNumber (history s') = highestPacketNumber (history s) /\
    (forall q, tracked (history s') q <->
       tracked (history s) q /\ lostb (now - lossDelay) la q = false) /\
    (lossTime s' = 0 -> forall q, tracked (history s') q -> la < PacketNumber q) /\
    (lossTime s' <> 0 -> exists q, tracked (history s') q /\ PacketNumber q <= la /\
       lossTime s' = SendTime q + lossDelay).

Lemma lost_loop_post x encLevel s ev now lossDelay h' :
  lost_loop x encLevel s ev (now - lossDelay) lossDelay (packets (history s)) h' ->
  lost_post x encLevel s ev now lossDelay h'.
Proof.
  intros (Hi & Hev & s' & Hs' & Hla & Hls & Hp & Hh & Htr & Hlt & Htm).
  assert (Htr' : forall q, tracked (history s') q <->
    tracked (history s) q /\ lostb (now - lossDelay) (spLargestAcked s) q = false).
  { intros q. rewrite Htr. unfold tracked. rewrite <- not_true_iff_false. naive_solver. }
  split; [done|]. split; [done|]. exists s'. split_and!; try done.
  - intros Hz q [Hq Hl]%Htr'. destruct (Z.lt_ge_cases (spLargestAcked s) (PacketNumber q)) as [|Hge]; [done|].
    rewrite (Hlt Hz q Hq Hge) in Hl. done.
  - intros (q & Hq & Hle & Hl & E)%Htm. exists q. rewrite Htr'. done.
Qed.

Lemma lossDelayOf_pos r : 0 < lossDelayOf r.
Proof. unfold lossDelayOf, TimerGranularity, Millisecond, Microsecond. lia. Qed.

(** The loss delay of RFC 9002: 9/8 of the larger of the latest and the smoothed
    RTT, at least a millisecond.  The float64 product is exact below six days. *)
Definition ref_lossDelay (r : RTTStats) : Z :=
  Z.max (9 * Z.max (latestRTT r) (smoothedRTT r) / 8) Millisecond.

Lemma lossDelayOf_exact r :
  0 <= Z.max (latestRTT r) (smoothedRTT r) < 2 ^ 49 -> lossDelayOf r = ref_lossDelay r.
Proof.
  intros Hr. unfold lossDelayOf, ref_lossDelay. set (m := Z.max _ _) in *.
  rewrite fofint_exact by (unfold prec64; lia).
  rewrite fmul_exact by (unfold prec64; cbn [fm fe timeThreshold]; lia).
  cbn [fm fe timeThreshold].
  rewrite (ftrunc_neg_exp _ 3) by lia. rewrite toint64_small; [done|]. unfold is_i64.
  pose proof (Z.div_pos (9 * m) (2 ^ 3)). pose proof (Z.div_le_upper_bound (9 * m) (2 ^ 3) (2 ^ 53)). lia.
Qed.

Lemma wp_detectLostPackets x h encLevel s now E :
  sph_inv x h -> getPacketNumberSpace h encLevel = Some s ->
  wp (detectLostPackets now encLevel)
    (fun _ => lost_post x encLevel s (sh_events h) now (lossDelayOf (rttStats h))) E h.
Proof.
  intros Hi Hs. pose proof (getSpace_inv _ _ _ _ Hi Hs) as Hsi.
  apply wp_bind. eapply wp_modifySpace; [exact Hs|].
  set (s0 := sp_lossTime zeroTime s).
  destruct (set_space_meta x h encLevel s s0 Hi Hs eq_refl) as (Hi1 & Hs1 & _ & _).
  set (h1 := setPacketNumberSpace encLevel s0 h) in *.
  assert (F1 : rttStats h1 = rttStats h /\ sh_events h1 = sh_events h)
    by (subst h1; by destruct h, encLevel).
  destruct F1 as [R1 Ev1]. clearbody h1.
  apply wp_bind, wp_get. rewrite R1.
  change (Time_Add now (- lossDelayOf (rttStats h))) with (now - lossDelayOf (rttStats h)).
  set (d := lossDelayOf (rttStats h)). set (t := now - d).
  apply wp_bind. eapply wp_getSpace; [exact Hs1|]. unfold Iterate.
  assert (Hs0 : space_inv s0) by done.
  destruct (si_num _ (proj1 Hs0)) as (n & _ & Hnum & _).
  apply (wp_Iterate_loop _ (fun ps h' => exists pre, packets (history s0) = pre ++ ps /\
    lost_loop x encLevel s0 (sh_events h) t d pre h')).
  - intros p ps h' (pre & Hps & Hl).
    eapply wp_mono; [| |by eapply (wp_detectLost x encLevel s0 (sh_events h)); [| |apply lossDelayOf_pos|]];
      [|done].
    intros [] h''; [intros; exists (pre ++ [Some p]); split; [by rewrite <- app_assoc|done]|].
    intros [Hgt ->]. apply (lost_loop_post _ _ s0). by apply (lost_loop_stop _ _ _ _ _ _ pre p ps).
  - intros ps h' (pre & Hps & Hi' & Hev & s' & Hs' & Hla & Hls & Hp' & Hh' & Htr & Hlt & Htm).
    exists (pre ++ [None]). split; [by rewrite <- app_assoc|]. split; [done|]. split.
    { rewrite all_lossEvents_app. cbn. by rewrite app_nil_r. }
    exists s'. split_and!; try done.
    + intros q. rewrite Htr, elem_of_app, list_elem_of_singleton. naive_solver.
    + intros Hz q [Hin|Hin]%elem_of_app Hq; [by apply Hlt|].
      by apply list_elem_of_singleton in Hin.
    + intros (q & Hq & Hr)%Htm. exists q. split; [apply elem_of_app; by left|done].
  - intros h' (pre & Hps & Hl). rewrite app_nil_r in Hps. apply (lost_loop_post _ _ s0).
    by rewrite Hps.
  - exists []. split; [done|]. split; [done|]. split; [by rewrite app_nil_r|].
    exists s0. split_and!; try done.
    + intros q. cbn. split; [|tauto]. intros Hq. split; [done|]. intros [Hin _].
      by apply not_elem_of_nil in Hin.
    + intros _ q Hin. by apply not_elem_of_nil in Hin.
Qed.
End proofs.
