(* ===== verification/AckProcessing.v ===== *)
(** * AckProcessing: correctness of [ReceivedAck]

    The scan of [detectAndRemoveAckedPackets], which walks the packets and the
    ACK ranges in parallel, finds exactly the tracked packets the frame
    acknowledges; [ReceivedAck] takes these and the lost packets out, calls their
    frame handlers, and keeps the accounting of bytes in flight. *)

From S2P Require Import Prelude Protocol Varint AckFrame ReceivedHistory ReceivedTracker.
From S2P Require Import SentHistory PNGenerator Ecn GoFloat RTTStats Congestion SentPacketHandler.
From S2P Require Import SentPacketProofs.
From stdpp Require Import base numbers list option strings.
From Stdlib Require Import ZArith Lia.
#[local] Open Scope Z_scope.
#[local] Set Warnings "-clear-no-such-hyp".

#[export] Instance range_mem_dec p r : Decision (range_mem p r).
Proof. unfold range_mem. apply _. Defined.
#[export] Instance acks_dec f p : Decision (acks f p).
Proof. unfold acks. apply _. Defined.

(** ** The scan *)

(** The packets of a slice that a frame acknowledges, in order. *)
Fixpoint ackedIn (ack : AckFrame) (ps : list (option packet)) : list packet :=
  match ps with
  | [] => []
  | None :: ps' => ackedIn ack ps'
  | Some p :: ps' =>
      if decide (acks ack (PacketNumber p)) then p :: ackedIn ack ps' else ackedIn ack ps'
  end.

Lemma ackedIn_app ack ps qs : ackedIn ack (ps ++ qs) = ackedIn ack ps ++ ackedIn ack qs.
Proof.
  induction ps as [|[p|] ps IH]; cbn; [done| |done]. case_decide; cbn; by rewrite IH.
Qed.

Lemma elem_of_ackedIn ack ps p :
  p ∈ ackedIn ack ps <-> Some p ∈ ps /\ acks ack (PacketNumber p).
Proof.
  induction ps as [|[q|] ps IH]; cbn.
  - split; [by intros ?%not_elem_of_nil|by intros [?%not_elem_of_nil ?]].
  - case_decide; rewrite !elem_of_cons || rewrite elem_of_cons; rewrite IH; naive_solver.
  - rewrite elem_of_cons, IH. naive_solver.
Qed.

Section scan.
Context (ack : AckFrame) (hi : Z).
Hypothesis Hd : ranges_desc hi (AckRanges ack).

(** The ranges in ascending order. *)
Definition rangeAt (i : nat) : option AckRange :=
  if (i <? length (AckRanges ack))%nat
  then AckRanges ack !! (length (AckRanges ack) - 1 - i)%nat else None.

Lemma rangeAt_Some i : (i < length (AckRanges ack))%nat -> exists r, rangeAt i = Some r.
Proof using.
  intros Hi. unfold rangeAt. rewrite (proj2 (Nat.ltb_lt _ _) Hi).
  destruct (lookup_lt_is_Some_2 (AckRanges ack) (length (AckRanges ack) - 1 - i)%nat) as [r Hr];
    [lia|eauto].
Qed.

Lemma rangeAt_lt i r : rangeAt i = Some r -> (i < length (AckRanges ack))%nat.
Proof using. unfold rangeAt. destruct (Nat.ltb_spec i (length (AckRanges ack))); done. Qed.

Lemma ackRangeAt_rangeAt i r : rangeAt i = Some r -> ackRangeAt ack i = Ok r.
Proof using.
  intros Hr. pose proof (rangeAt_lt _ _ Hr). unfold rangeAt, ackRangeAt in *.
  destruct (i <? length (AckRanges ack))%nat; [|done]. by rewrite Hr.
Qed.

Lemma rangeAt_mono i j ri rj :
  rangeAt i = Some ri -> rangeAt j = Some rj -> (i < j)%nat -> Largest ri < Smallest rj.
Proof using Hd.
  intros Hi Hj Hij. pose proof (rangeAt_lt _ _ Hi). pose proof (rangeAt_lt _ _ Hj).
  unfold rangeAt in *.
  rewrite (proj2 (Nat.ltb_lt _ _)) in Hi by lia. rewrite (proj2 (Nat.ltb_lt _ _)) in Hj by lia.
  pose proof (ranges_desc_mono _ _ _ _ _ _ Hd Hj Hi ltac:(lia)). lia.
Qed.

Lemma acks_rangeAt p : acks ack p <-> exists i r, rangeAt i = Some r /\ range_mem p r.
Proof using.
  rewrite acks_lookup. set (n := length (AckRanges ack)). unfold rangeAt. fold n. split.
  - intros (i & r & Hi & Hm). pose proof (lookup_lt_Some _ _ _ Hi).
    exists (n - 1 - i)%nat, r. split; [|done]. rewrite (proj2 (Nat.ltb_lt _ _)) by lia.
    by replace (n - 1 - (n - 1 - i))%nat with i by lia.
  - intros (i & r & Hi & Hm). destruct (i <? n)%nat; [|done]. by eexists _, r.
Qed.

(** [advanceRange] stops at the first range that does not end before [pn]. *)
Lemma advanceRange_spec pn top fuel : forall idx r,
  rangeAt idx = Some r -> (length (AckRanges ack) <= idx + fuel)%nat ->
  rangeAt (length (AckRanges ack) - 1) = Some top -> pn <= Largest top ->
  (forall k rk, (k < idx)%nat -> rangeAt k = Some rk -> Largest rk < pn) ->
  exists j rj, advanceRange fuel ack pn idx r = Ok (j, rj) /\ rangeAt j = Some rj /\
    pn <= Largest rj /\
    (forall k rk, (k < j)%nat -> rangeAt k = Some rk -> Largest rk < pn).
Proof using.
  induction fuel as [|fuel IH]; intros idx r Hr Hfuel Htop Hpn Hbelow.
  { pose proof (rangeAt_lt _ _ Hr). lia. }
  cbn [advanceRange]. pose proof (rangeAt_lt _ _ Hr) as Hlt.
  destruct (Z.ltb_spec (Largest r) pn) as [Hgt|Hle]; cbn [andb].
  - destruct (Nat.ltb_spec idx (length (AckRanges ack) - 1)) as [Hi|Hi].
    + destruct (rangeAt_Some (S idx) ltac:(lia)) as [r' Hr'].
      rewrite (ackRangeAt_rangeAt _ _ Hr'). cbn [mbind res_bind]. apply IH; try done; [lia|].
      intros k rk Hk Hrk. destruct (decide (k = idx)) as [->|]; [congruence|].
      apply (Hbelow k); [lia|done].
    + replace (length (AckRanges ack) - 1)%nat with idx in Htop by lia.
      rewrite Hr in Htop. injection Htop as <-. lia.
  - exists idx, r. done.
Qed.

(** The range the scan has stopped at decides the packet. *)
Lemma acks_at pn j rj :
  rangeAt j = Some rj -> pn <= Largest rj ->
  (forall k rk, (k < j)%nat -> rangeAt k = Some rk -> Largest rk < pn) ->
  acks ack pn <-> Smallest rj <= pn.
Proof using Hd.
  intros Hj Hle Hbelow. rewrite acks_rangeAt. split.
  - intros (i & r & Hi & Hm). unfold range_mem in Hm.
    destruct (Nat.lt_trichotomy i j) as [Hij|[->|Hij]].
    + specialize (Hbelow _ _ Hij Hi). lia.
    + rewrite Hj in Hi. injection Hi as <-. lia.
    + pose proof (rangeAt_mono _ _ _ _ Hj Hi Hij). lia.
  - intros Hs. exists j, rj. split; [done|]. unfold range_mem. lia.
Qed.

Context (Hne : AckRanges ack <> []).

Lemma LargestAcked_rangeAt :
  exists top, rangeAt (length (AckRanges ack) - 1) = Some top /\ LargestAcked ack = Ok (Largest top).
Proof using Hne.
  clear Hd. unfold rangeAt, LargestAcked. destruct (AckRanges ack) as [|r rs]; [done|]. exists r. cbn [length].
  rewrite (proj2 (Nat.ltb_lt _ _)) by lia.
  replace (S (length rs) - 1 - (S (length rs) - 1))%nat with 0%nat by lia. done.
Qed.

Lemma LowestAcked_rangeAt :
  exists bot, rangeAt 0 = Some bot /\ LowestAcked ack = Ok (Smallest bot).
Proof using Hne.
  clear Hd. unfold rangeAt, LowestAcked. rewrite last_lookup.
  assert (0 < length (AckRanges ack))%nat by (destruct (AckRanges ack); [done|cbn; lia]).
  rewrite (proj2 (Nat.ltb_lt _ _)) by lia.
  replace (length (AckRanges ack) - 1 - 0)%nat with (pred (length (AckRanges ack))) by lia.
  destruct (lookup_lt_is_Some_2 (AckRanges ack) (pred (length (AckRanges ack)))) as [r Hr]; [lia|].
  rewrite Hr. eauto.
Qed.

(** The state of the scan before the packets [ps], after the packets [pre]. *)
Definition scan_inv (pre ps : list (option packet)) (st : nat * list packet) : Prop :=
  (st.1 < length (AckRanges ack))%nat /\
  (forall k rk p, (k < st.1)%nat -> rangeAt k = Some rk -> Some p ∈ ps -> Largest rk < PacketNumber p) /\
  st.2 = ackedIn ack pre /\
  forall p, p ∈ ackedIn ack pre -> skippedPacket p = false.

Lemma wp_detectAcked top bot n pre p ps st :
  rangeAt (length (AckRanges ack) - 1) = Some top -> rangeAt 0 = Some bot ->
  numbered n (Some p :: ps) -> scan_inv pre (Some p :: ps) st ->
  wp (detectAcked ack (Smallest bot) (Largest top) p)
    (fun (c : bool) st' =>
       if c then scan_inv (pre ++ [Some p]) ps st'
       else Largest top < PacketNumber p /\ st' = st)
    (fun e st' => e = errSkippedPacket /\ st' = st /\
       skippedPacket p = true /\ acks ack (PacketNumber p)) st.
Proof using Hd.
  intros Htop Hbot Hnum. destruct st as [idx acked]. intros (Hidx & Hbelow & Hacked & Hsk).
  cbn in Hidx, Hbelow, Hacked. subst acked.
  assert (Hskip : ~ acks ack (PacketNumber p) ->
    forall j, (forall k rk q, (k < j)%nat -> rangeAt k = Some rk -> Some q ∈ ps -> Largest rk < PacketNumber q) ->
    (j < length (AckRanges ack))%nat ->
    scan_inv (pre ++ [Some p]) ps (j, ackedIn ack pre)).
  { intros Hna j Hj Hjl. unfold scan_inv. rewrite ackedIn_app. cbn.
    rewrite decide_False by done. rewrite app_nil_r. auto. }
  assert (Hlater : forall q, Some q ∈ ps -> PacketNumber p < PacketNumber q).
  { intros q [i Hq]%list_elem_of_lookup. pose proof (Hnum 0%nat p eq_refl).
    rewrite (Hnum (S i) q Hq). lia. }
  assert (Hbelow' : forall k rk q, (k < idx)%nat -> rangeAt k = Some rk -> Some q ∈ ps ->
    Largest rk < PacketNumber q) by (intros; eapply Hbelow; [done..|by right]).
  unfold detectAcked.
  destruct (Z.ltb_spec (PacketNumber p) (Smallest bot)) as [Hlow|Hlow].
  { apply wp_ret, Hskip; [|done|done]. rewrite acks_rangeAt. intros (i & r & Hi & Hm).
    unfold range_mem in Hm. destruct i as [|i]; [rewrite Hbot in Hi; injection Hi as <-; lia|].
    pose proof (rangeAt_mono _ _ _ _ Hbot Hi ltac:(lia)).
    destruct (Z.lt_ge_cases (Largest bot) (Smallest bot)) as [Hbad|]; [|lia].
    unfold rangeAt in Hbot. case_match; [|done].
    destruct (ranges_desc_lookup _ _ _ _ Hd Hbot). lia. }
  destruct (Z.ltb_spec (Largest top) (PacketNumber p)) as [Hhigh|Hhigh]; [by apply wp_ret|].
  apply wp_bind, wp_get, wp_bind.
  (* both ways of finding the range agree with [acks] *)
  eapply (wp_mono _ (fun '(j, inRange) st' => st' = (idx, ackedIn ack pre) /\
    (j < length (AckRanges ack))%nat /\ (inRange = true <-> acks ack (PacketNumber p)) /\
    forall k rk q, (k < j)%nat -> rangeAt k = Some rk -> Some q ∈ ps -> Largest rk < PacketNumber q)
    _ (fun _ _ => False)); [|done|].
  - intros [j inRange] st' (-> & Hjl & Hin & Hjb). cbn. destruct inRange; cbn.
    + assert (Ha : acks ack (PacketNumber p)) by by apply Hin.
      destruct (skippedPacket p) eqn:Es; [done|].
      apply wp_bind, wp_modify, wp_ret. unfold scan_inv. rewrite ackedIn_app. cbn.
      rewrite decide_True by done. split_and!; try done.
      intros q [Hq|Hq]%elem_of_app; [auto|]. by apply list_elem_of_singleton in Hq as ->.
    + apply wp_bind, wp_modify, wp_ret, Hskip; [|done|done]. intros Ha. by apply Hin in Ha.
  - unfold HasMissingRanges. destruct (Z.ltb_spec 1 (blen (AckRanges ack))) as [Hmany|Hone].
    + destruct (rangeAt_Some idx Hidx) as [r Hr]. apply wp_bind.
      eapply wp_lift; [by apply ackRangeAt_rangeAt|].
      destruct (advanceRange_spec (PacketNumber p) top (length (AckRanges ack)) idx r)
        as (j & rj & Ea & Hrj & Hle & Hbj); [done|lia|done|done| |].
      { intros k rk Hk Hrk. eapply Hbelow; [done..|by left]. }
      apply wp_bind. apply (wp_lift (j, rj)); [exact Ea|]. pose proof (rangeAt_lt _ _ Hrj).
      pose proof (acks_at (PacketNumber p) j rj Hrj Hle Hbj) as Hiff.
      assert (Hnext : forall k rk q, (k < j)%nat -> rangeAt k = Some rk -> Some q ∈ ps ->
        Largest rk < PacketNumber q).
      { intros k rk q Hk Hrk Hq. specialize (Hbj _ _ Hk Hrk). specialize (Hlater q Hq). lia. }
      destruct (Z.ltb_spec (PacketNumber p) (Smallest rj)).
      { apply wp_ret. split_and!; try done. rewrite Hiff. split; [done|lia]. }
      zfalse (Largest rj <? PacketNumber p). apply wp_ret. cbn beta match. split_and!; try done. split; [intros _; apply Hiff; lia|done].
    + apply wp_ret. cbn beta match. split_and!; try done. split; [|done]. intros _.
      rewrite (acks_at _ _ _ Htop Hhigh).
      * unfold blen in Hone. assert (length (AckRanges ack) - 1 = 0)%nat as E0 by lia.
        rewrite E0, Hbot in Htop. by injection Htop as <-.
      * intros k rk Hk Hrk. unfold blen in Hone. lia.
Qed.
End scan.

Definition none_skipped (ps : list packet) : Prop := forall p, p ∈ ps -> skippedPacket p = false.

(** What the scan returns: all acknowledged packets, or an error at the first
    acknowledged packet number that was skipped. *)
Definition scan_ok (ack : AckFrame) (ps : list (option packet)) (acked : list packet) : Prop :=
  acked = ackedIn ack ps /\ none_skipped acked.

Definition scan_err (ack : AckFrame) (ps : list (option packet)) (e : GoError) (acked : list packet) : Prop :=
  e = errSkippedPacket /\ none_skipped acked /\
  exists pre p post, ps = pre ++ Some p :: post /\ acked = ackedIn ack pre /\
    skippedPacket p = true /\ acks ack (PacketNumber p).

Lemma scan_spec ack hi n ps lowest largest :
  ranges_desc hi (AckRanges ack) -> AckRanges ack <> [] -> numbered n ps ->
  LowestAcked ack = Ok lowest -> LargestAcked ack = Ok largest ->
  wp (Iterate_loop (detectAcked ack lowest largest) ps)
    (fun _ st => scan_ok ack ps st.2) (fun e st => scan_err ack ps e st.2) (0%nat, []).
Proof.
  intros Hd Hne Hnum Hlow Hlarge.
  destruct (LargestAcked_rangeAt ack Hne) as (top & Htop & E1). rewrite Hlarge in E1.
  destruct (LowestAcked_rangeAt ack Hne) as (bot & Hbot & E2). rewrite Hlow in E2.
  injection E1 as ->. injection E2 as ->.
  assert (Hnum' : forall pre qs, ps = pre ++ qs -> numbered (n + Z.of_nat (length pre)) qs).
  { intros pre qs E. pose proof (numbered_drop n ps (length pre) Hnum) as Hn.
    by rewrite E, drop_app_length in Hn. }
  eapply (wp_Iterate_loop _ (fun qs st => exists pre, ps = pre ++ qs /\ scan_inv ack pre qs st)
    (fun st => scan_ok ack ps st.2)).
  - intros p qs st (pre & E & Hinv).
    eapply wp_mono; [| |by apply (wp_detectAcked ack hi Hd top bot _ pre p qs st Htop Hbot (Hnum' _ _ E))].
    + intros [] st' Hst; [exists (pre ++ [Some p]); by rewrite <- app_assoc|].
      destruct Hst as [Hgt ->]. destruct Hinv as (_ & _ & Hacked & Hsk).
      assert (Hrest : ackedIn ack (Some p :: qs) = []).
      { destruct (ackedIn ack (Some p :: qs)) as [|q l] eqn:Eq; [done|].
        assert (Hq : q ∈ ackedIn ack (Some p :: qs)) by (rewrite Eq; by left).
        apply elem_of_ackedIn in Hq as [Hq Ha].
        assert (PacketNumber p <= PacketNumber q).
        { apply list_elem_of_lookup in Hq as [i Hq]. pose proof (Hnum' _ _ E 0%nat p eq_refl).
          rewrite (Hnum' _ _ E _ _ Hq). lia. }
        apply acks_rangeAt in Ha as (i & r & Hi & Hm). unfold range_mem in Hm.
        pose proof (rangeAt_lt _ _ _ Hi).
        destruct (decide (i = length (AckRanges ack) - 1)%nat) as [->|Hi'].
        - rewrite Htop in Hi. injection Hi as <-. lia.
        - pose proof (rangeAt_mono ack hi Hd _ _ _ _ Hi Htop ltac:(lia)).
          assert (Smallest top <= Largest top).
          { unfold rangeAt in Htop. case_match; [|done].
            destruct (ranges_desc_lookup _ _ _ _ Hd Htop). lia. }
          lia. }
      unfold scan_ok. rewrite E, ackedIn_app, Hrest, app_nil_r, Hacked. done.
    + intros e st' (-> & -> & Hs & Ha). destruct Hinv as (_ & _ & Hacked & Hsk).
      split; [done|]. rewrite Hacked. split; [done|]. by exists pre, p, qs.
  - intros qs st (pre & E & Hi1 & Hi2 & Hi3 & Hi4). exists (pre ++ [None]).
    rewrite <- app_assoc. split; [done|]. unfold scan_inv. rewrite ackedIn_app. cbn.
    rewrite app_nil_r. split_and!; try done. intros; eapply Hi2; [done..|by right].
  - intros st (pre & E & _ & _ & Hacked & Hsk). rewrite app_nil_r in E. subst. by rewrite <- Hacked in Hsk.
  - exists []. split; [done|]. unfold scan_inv; cbn. split_and!; try done.
    + destruct (AckRanges ack); [done|cbn; lia].
    + intros k rk p Hk. lia.
    + intros p Hp. by apply not_elem_of_nil in Hp.
Qed.

(** ** Removing the acknowledged packets *)

Definition sum_flight (ps : list packet) : Z := foldr (fun p n => flight p + n) 0 ps.

Definition ackedEvents (ps : list packet) : list frame_event :=
  concat (frameEvents FrameAcked <$> ps).

Section acked.
Context {A : Type} `{SendAlgorithm A}.
Implicit Types h : sentPacketHandler A.

(** The acknowledged packets [acked] are out of the history of [s]; [s'] is
    the space afterwards. *)
Definition acked_out (s : packetNumberSpace) (acked : list packet) (s' : packetNumberSpace) : Prop :=
  spLargestAcked s' = spLargestAcked s /\ spLargestSent s' = spLargestSent s /\
  pns s' = pns s /\ highestPacketNumber (history s') = highestPacketNumber (history s) /\
  (forall q, tracked (history s') q -> tracked (history s) q /\ PacketNumber q ∉ PacketNumber <$> acked) /\
  (forall q, tracked (history s) q -> PacketNumber q ∉ PacketNumber <$> acked ->
     skippedPacket q = false -> tracked (history s') q).

(** What removing acknowledged packets leaves alone. *)
Definition same_rest h h' : Prop :=
  rttStats h' = rttStats h /\ peerCompletedAddressValidation h' = peerCompletedAddressValidation h /\
  bytesInFlight h' = bytesInFlight h.

Lemma wp_removeAcked acked encLevel E : forall x h s,
  sph_inv x h -> getPacketNumberSpace h encLevel = Some s ->
  Forall (fun p => tracked (history s) p /\ skippedPacket p = false) acked ->
  NoDup (PacketNumber <$> acked) ->
  wp (removeAcked encLevel acked)
    (fun _ h' => sph_inv (x + sum_flight acked) h' /\ same_rest h h' /\
       sh_events h' = sh_events h ++ ackedEvents acked /\
       exists s', getPacketNumberSpace h' encLevel = Some s' /\ acked_out s acked s') E h.
Proof.
  induction acked as [|p acked IH]; intros x h s Hi Hs Hall Hnd.
  { apply wp_ret. cbn. rewrite Z.add_0_r, app_nil_r. split; [done|]. split; [done|]. split; [done|].
    exists s. split; [done|]. split_and!; try done. intros q Hq. split; [done|].
    by intros ?%not_elem_of_nil. }
  apply Forall_cons in Hall as [[Ht Hsk] Hall]. apply NoDup_cons in Hnd as [Hnin Hnd].
  cbn [removeAcked]. apply wp_bind, wp_modify.
  set (h1 := if _ && _ then _ else h).
  assert (F1 : core h1 = core h /\ same_rest h h1 /\ sh_events h1 = sh_events h).
  { subst h1. destruct (_ && _); by destruct h. }
  destruct F1 as (C1 & R1 & Ev1). clearbody h1.
  apply wp_bind, wp_modify. set (h2 := w_events _ h1).
  assert (F2 : core h2 = core h /\ same_rest h h2 /\
    sh_events h2 = sh_events h ++ frameEvents FrameAcked p).
  { subst h2. rewrite Ev1. destruct R1 as (R1 & R2 & R3). split; [by rewrite core_w_events|].
    by destruct h1. }
  destruct F2 as (C2 & R2 & Ev2). clearbody h2. clear C1 R1 Ev1 h1.
  assert (Hs2 : getPacketNumberSpace h2 encLevel = Some s) by by rewrite (get_core _ _ _ C2).
  assert (Hi2 : sph_inv x h2) by by eapply sph_inv_core.
  pose proof (getSpace_inv _ _ _ _ Hi Hs) as Hsi.
  destruct (history_Remove_spec (history s) p (proj1 Hsi) Ht)
    as (hist & Er & Hhi & Hhigh & _ & Hsub & Hkeep).
  pose proof (history_Remove_sumw flight (history s) p hist (proj1 Hsi) Ht) as Hsum.
  rewrite Er in Hsum. specialize (fun Hw => Hsum Hw eq_refl). lapply Hsum; clear Hsum.
  2:{ intros q Hq Hqs. destruct (proj2 Hsi q Hq) as (_ & _ & _ & Hf). rewrite Hqs in Hf.
      unfold flight. by rewrite Hf. }
  intros Hsum. destruct (space_inv_removed s hist p Hsi Ht Hhi) as [Hsi' Hf'];
    [intros q Hq; by apply Hsub|done|].
  pose proof (flight_nonneg s p Hsi Ht). pose proof Hi as (_ & _ & _ & Hx & _).
  destruct (set_space_inv x (flight p) h2 encLevel s (sp_history hist s) Hi2 Hs2 Hsi')
    as [Hi3 Hs3]; [done|lia|].
  apply wp_bind. eapply wp_onHistory; [done..|].
  set (h3 := setPacketNumberSpace encLevel (sp_history hist s) h2) in *.
  assert (F3 : same_rest h h3 /\ sh_events h3 = sh_events h ++ frameEvents FrameAcked p).
  { subst h3. rewrite <- Ev2. by destruct h2, encLevel. }
  destruct F3 as [R3 Ev3]. clearbody h3.
  eapply wp_mono; [| |apply (IH (x + flight p) h3 (sp_history hist s) Hi3 Hs3)]; [|done| |done].
  - intros _ h' (Hi' & R' & Ev' & s' & Hs' & O1 & O2 & O3 & O4 & O5 & O6).
    split; [change (sum_flight (p :: acked)) with (flight p + sum_flight acked); by rewrite Z.add_assoc|].
    split; [destruct R3 as (?&?&?), R' as (?&?&?); split_and!; congruence|].
    split; [rewrite Ev', Ev3; unfold ackedEvents; cbn; by rewrite app_assoc|].
    exists s'. split; [done|]. cbn in O1, O2, O3, O4. split_and!; try done; [congruence| |].
    + intros q Hq. apply O5 in Hq as [Hq Hnq]. cbn in Hq. apply Hsub in Hq as [Hq Hne].
      split; [done|]. cbn. rewrite not_elem_of_cons. done.
    + intros q Hq Hnq Hqs. cbn in Hnq. apply not_elem_of_cons in Hnq as [Hne Hnq].
      apply O6; [|done|done]. cbn. destruct (Hkeep q Hq Hne) as [?|[? _]]; [done|congruence].
  - rewrite Forall_forall in Hall |- *. intros q Hq. destruct (Hall q Hq) as [Htq Hqs].
    split; [|done]. cbn. destruct (Hkeep q Htq) as [?|[? _]]; [|done|congruence].
    intros Heq. apply Hnin. rewrite <- Heq. apply list_elem_of_fmap. by exists q.
Qed.

Definition all_1RTT (acked : list packet) : bool :=
  existsb (fun p => bool_decide (pEncryptionLevel p = Encryption1RTT)) acked.

Lemma sum_flight_nonneg acked :
  Forall (fun p => 0 <= pLength p) acked -> 0 <= sum_flight acked.
Proof.
  induction 1 as [|p acked Hp _ IH]; [done|].
  change (sum_flight (p :: acked)) with (flight p + sum_flight acked). unfold flight. case_match; lia.
Qed.

Lemma wp_finishAcked rcvTime prior acked E : forall b x h,
  sph_inv (x + sum_flight acked) h -> 0 <= x -> Forall (fun p => 0 <= pLength p) acked ->
  wp (finishAcked rcvTime prior acked b)
    (fun b' h' => b' = b || all_1RTT acked /\ sph_inv x h' /\ sh_events h' = sh_events h /\
       forall l, getPacketNumberSpace h' l = getPacketNumberSpace h l) E h.
Proof.
  induction acked as [|p acked IH]; intros b x h Hi Hx Hall.
  { apply wp_ret. cbn in *. rewrite Z.add_0_r in Hi. rewrite orb_false_r. done. }
  apply Forall_cons in Hall as [Hp Hall]. cbn [finishAcked].
  change (sum_flight (p :: acked)) with (flight p + sum_flight acked) in Hi.
  pose proof (sum_flight_nonneg acked Hall).
  apply wp_bind, wp_modify. set (h1 := if _ && _ then _ else h).
  assert (F1 : core h1 = core h /\ sh_events h1 = sh_events h)
    by (subst h1; destruct (_ && _); by destruct h).
  destruct F1 as [C1 Ev1]. clearbody h1.
  apply wp_bind. eapply wp_mono; [| |apply (wp_removeFromBytesInFlight (x + (flight p + sum_flight acked)))];
    [|done|by eapply sph_inv_core|done|lia].
  intros _ h2 [Hi2 Eh2].
  replace (x + (flight p + sum_flight acked) - flight p) with (x + sum_flight acked) in Hi2 by lia.
  eapply wp_mono; [| |apply (IH _ x h2 Hi2 Hx Hall)]; [|done].
  cbn. intros b' h' (-> & Hi' & Ev' & Hsp).
  split; [by rewrite <- orb_assoc|]. split; [done|].
  split; [rewrite Ev', <- Ev1, Eh2; by destruct h1|].
  intros l. rewrite Hsp, <- (get_core _ _ l C1), Eh2. by destruct h1, l.
Qed.

(** ** [ReceivedAck] *)

(** The delay after which packets count as lost when this ACK is processed: the
    one that follows from the RTT including the sample of this ACK. *)
Definition lossDelayAfter (ack : AckFrame) encLevel (rcvTime largestAcked : Z) (acked : list packet) h : Z :=
  lossDelayOf (rttStats (updateRTTOnAck ack encLevel rcvTime largestAcked acked h)).

Lemma updateRTT_core ack encLevel rcvTime la acked h :
  core (updateRTTOnAck ack encLevel rcvTime la acked h) = core h /\
  sh_events (updateRTTOnAck ack encLevel rcvTime la acked h) = sh_events h.
Proof.
  unfold updateRTTOnAck. destruct (last acked); [|done]. case_match; [|done]. by destruct h.
Qed.

Lemma updateRTT_rtt ack encLevel rcvTime la acked h h' :
  rttStats h' = rttStats h ->
  rttStats (updateRTTOnAck ack encLevel rcvTime la acked h') =
  rttStats (updateRTTOnAck ack encLevel rcvTime la acked h).
Proof.
  intros E. unfold updateRTTOnAck. destruct (last acked); [|done]. case_match; [|done].
  destruct h, h'; cbn in *. by rewrite E.
Qed.

Lemma wp_handleECNCounts h encLevel s ack la prior acked (Q : unit -> sentPacketHandler A -> Prop) E :
  getPacketNumberSpace h encLevel = Some s ->
  (forall h', core h' = core h -> rttStats h' = rttStats h -> sh_events h' = sh_events h -> Q tt h') ->
  wp (handleECNCounts ack encLevel la prior acked) Q E h.
Proof.
  intros Hs HQ. apply wp_bind. eapply wp_getSpace; [done|]. apply wp_modify.
  destruct (sh_ecn h) as [e|]; [|by apply HQ]. destruct (_ && _); [|by apply HQ].
  destruct (HandleNewlyAcked _ _ _ _ _) as [e' []]; apply HQ; by destruct h.
Qed.

(** The space loss detection starts from: the acknowledged packets left [s1],
    and [la] is acknowledged. *)
Definition ackedSpace (s1 : packetNumberSpace) (la : Z) : packetNumberSpace :=
  sp_largestAcked (Z.max (spLargestAcked s1) la) s1.

Lemma wp_processAcked h encLevel s1 ack rcvTime now la prior acked E :
  sph_inv (sum_flight acked) h -> getPacketNumberSpace h encLevel = Some s1 ->
  Forall (fun p => 0 <= pLength p) acked ->
  wp (processAcked ack encLevel rcvTime now la prior acked)
    (fun b h' => b = all_1RTT acked /\
       lost_post 0 encLevel (ackedSpace s1 la) (sh_events h) rcvTime
         (lossDelayAfter ack encLevel rcvTime la acked h) h') E h.
Proof.
  intros Hi Hs Hall. unfold processAcked. apply wp_bind, wp_modify.
  destruct (updateRTT_core ack encLevel rcvTime la acked h) as [C1 Ev1].
  set (h1 := updateRTTOnAck ack encLevel rcvTime la acked h) in *.
  rewrite <- (get_core _ _ _ C1) in Hs. apply (sph_inv_core _ _ _ C1) in Hi.
  apply wp_bind. eapply wp_handleECNCounts; [exact Hs|]. intros h2 C2 R2 Ev2.
  rewrite <- (get_core _ _ _ C2) in Hs. apply (sph_inv_core _ _ _ C2) in Hi.
  apply wp_bind. eapply wp_modifySpace; [exact Hs|].
  fold (ackedSpace s1 la). set (s2 := ackedSpace s1 la).
  destruct (set_space_meta _ h2 encLevel s1 s2 Hi Hs eq_refl) as (Hi3 & Hs3 & _ & _).
  set (h3 := setPacketNumberSpace encLevel s2 h2) in *.
  assert (F3 : rttStats h3 = rttStats h1 /\ sh_events h3 = sh_events h).
  { subst h3. rewrite <- R2, <- Ev1, <- Ev2. by destruct h2, encLevel. }
  destruct F3 as [R3 Ev3]. clearbody h3.
  apply wp_bind. eapply wp_mono; [| |by apply (wp_detectLostPackets (sum_flight acked) h3 encLevel s2)];
    [|done].
  intros _ h4 (Hi4 & Ev4 & s4 & Hs4 & Hrest4).
  apply wp_bind. eapply wp_mono; [| |apply (wp_finishAcked rcvTime prior acked E false 0 h4)];
    [|done|done|lia|done].
  intros b h5 (-> & Hi5 & Ev5 & Hsp5). apply wp_bind, wp_modify.
  set (h6 := w_pto _ _ _ h5).
  assert (F6 : core h6 = core h5 /\ sh_events h6 = sh_events h5) by by destruct h5.
  destruct F6 as [C6 Ev6]. clearbody h6.
  apply wp_bind, wp_setLossDetectionTimer, wp_ret. split; [done|].
  set (h7 := w_alarm _ h6).
  assert (F7 : core h7 = core h5 /\ sh_events h7 = sh_events h4)
    by (subst h7; rewrite core_w_alarm, <- Ev5, <- Ev6; by destruct h6).
  destruct F7 as [C7 Ev7]. clearbody h7.
  unfold lossDelayAfter. fold h1. rewrite <- R3, <- Ev3.
  split; [by eapply sph_inv_core|]. split; [by rewrite Ev7|].
  exists s4. split; [by rewrite (get_core _ _ _ C7), Hsp5|done].
Qed.

Lemma ackedIn_nodup ack ps n :
  numbered n ps ->
  NoDup (PacketNumber <$> ackedIn ack ps) /\
  forall q, q ∈ ackedIn ack ps -> n <= PacketNumber q.
Proof.
  revert n. induction ps as [|o ps IH]; intros n Hn.
  { cbn. split; [constructor|]. intros q Hq. by apply not_elem_of_nil in Hq. }
  assert (Hn' : numbered (n + 1) ps) by (intros i p Hi; rewrite (Hn (S i) p Hi); lia).
  destruct (IH _ Hn') as [Hnd Hge]. destruct o as [p|]; cbn.
  2:{ split; [done|]. intros q Hq. specialize (Hge q Hq). lia. }
  pose proof (Hn 0%nat p eq_refl) as Hp. case_decide.
  - cbn. split.
    + constructor; [|done]. intros (q & Hq & Hin)%list_elem_of_fmap. specialize (Hge q Hin). lia.
    + intros q [->|Hq]%elem_of_cons; [lia|]. specialize (Hge q Hq). lia.
  - split; [done|]. intros q Hq. specialize (Hge q Hq). lia.
Qed.

(** The acknowledged packets of a prefix of the history. *)
Lemma ackedIn_tracked ack s pre post :
  space_inv s -> packets (history s) = pre ++ post -> none_skipped (ackedIn ack pre) ->
  Forall (fun p => tracked (history s) p /\ skippedPacket p = false) (ackedIn ack pre) /\
  Forall (fun p => 0 <= pLength p) (ackedIn ack pre) /\
  NoDup (PacketNumber <$> ackedIn ack pre).
Proof.
  intros [Hh Hp] E Hns. destruct (si_num _ Hh) as (n & _ & Hnum & _).
  assert (Hsub : forall p, p ∈ ackedIn ack pre -> tracked (history s) p).
  { intros p [Hin _]%elem_of_ackedIn. unfold tracked. rewrite E. apply elem_of_app. by left. }
  split_and!.
  - apply Forall_forall. intros p Hin. auto.
  - apply Forall_forall. intros p Hin. by apply (Hp p (Hsub p Hin)).
  - apply (ackedIn_nodup ack pre n). intros i p Hi. apply Hnum. rewrite E. by apply lookup_app_l_Some.
Qed.

Definition ack_ok h encLevel s ack (rcvTime largest : Z) (b : bool) (h' : sentPacketHandler A) : Prop :=
  let acked := ackedIn ack (packets (history s)) in
  largest <= spLargestSent s /\ none_skipped acked /\
  match acked with
  | [] => b = false /\ sph_inv 0 h' /\ sh_events h' = sh_events h
  | _ =>
      b = all_1RTT acked /\
      exists s1, acked_out s acked s1 /\
        lost_post 0 encLevel (ackedSpace s1 largest) (sh_events h ++ ackedEvents acked) rcvTime
          (lossDelayAfter ack encLevel rcvTime largest acked h) h'
  end.

Definition ack_err h s ack (largest : Z) (e : GoError) (h' : sentPacketHandler A) : Prop :=
  (e = errUnsentPacket /\ spLargestSent s < largest /\ h' = h) \/
  (e = errSkippedPacket /\ largest <= spLargestSent s /\
   exists p, tracked (history s) p /\ skippedPacket p = true /\ acks ack (PacketNumber p)).

(** The client flag that [ReceivedAck] may set first. *)
Lemma wp_clientValidated h encLevel now (Q : unit -> sentPacketHandler A -> Prop) E :
  (forall h', core h' = core h -> sh_events h' = sh_events h -> rttStats h' = rttStats h -> Q tt h') ->
  wp (if bool_decide (perspective h = PerspectiveClient)
         && negb (peerCompletedAddressValidation h)
         && (bool_decide (encLevel = EncryptionHandshake) || bool_decide (encLevel = Encryption1RTT))
      then modify (w_peerCompleted true) ≫= fun _ => setLossDetectionTimer now
      else mret tt) Q E h.
Proof.
  intros HQ. destruct (_ && _ && _); [|by apply wp_ret, HQ].
  apply wp_bind, wp_modify, wp_setLossDetectionTimer, HQ; by destruct h.
Qed.

Lemma wp_ReceivedAck h encLevel s ack hi rcvTime now largest :
  sph_inv 0 h -> getPacketNumberSpace h encLevel = Some s ->
  ranges_desc hi (AckRanges ack) -> AckRanges ack <> [] -> LargestAcked ack = Ok largest ->
  wp (ReceivedAck ack encLevel rcvTime now)
    (ack_ok h encLevel s ack rcvTime largest) (ack_err h s ack largest) h.
Proof.
  intros Hi Hs Hd Hne Hl. pose proof (getSpace_inv _ _ _ _ Hi Hs) as Hsi.
  destruct (si_num _ (proj1 Hsi)) as (n & _ & Hnum & _).
  apply wp_bind. eapply wp_getSpace; [done|]. apply wp_bind. eapply wp_lift; [done|].
  destruct (Z.ltb_spec (spLargestSent s) largest) as [Hun|Hsent]; [by left|].
  apply wp_bind, wp_get, wp_bind, wp_clientValidated. intros h1 C1 Ev1 R1.
  rewrite <- (get_core _ _ _ C1) in Hs. apply (sph_inv_core _ _ _ C1) in Hi.
  apply wp_bind, wp_get, wp_bind.
  apply wp_bind. eapply wp_getSpace; [done|].
  destruct (LowestAcked_rangeAt ack Hne) as (bot & _ & Hlow).
  apply wp_bind. eapply wp_lift; [done|]. apply wp_bind. eapply wp_lift; [done|].
  pose proof (scan_spec ack hi n (packets (history s)) _ _ Hd Hne Hnum Hlow Hl) as Hscan.
  unfold wp in Hscan. unfold Iterate.
  destruct (Iterate_loop _ _ (0%nat, [])) as [[[]|e|m] [idx acked]]; cbn in Hscan; [| |done].
  - destruct Hscan as [-> Hns].
    destruct (ackedIn_tracked ack s (packets (history s)) [] Hsi) as (Ht & Hlen & Hnd);
      [by rewrite app_nil_r|done|].
    apply wp_bind. eapply wp_mono; [| |by apply (wp_removeAcked _ encLevel (fun _ _ => False) 0 h1 s)];
      [|done].
    intros _ h2 (Hi2 & (R2 & _ & _) & Ev2 & s1 & Hs1 & Hout). apply wp_ret.
    unfold ack_ok. set (acked := ackedIn ack (packets (history s))) in *.
    destruct acked as [|p0 acked0] eqn:Ea.
    { apply wp_ret. split_and!; try done. cbn in Ev2. rewrite Ev2, app_nil_r. done. }
    eapply wp_mono; [| |apply (wp_processAcked h2 encLevel s1 ack rcvTime now largest _ (p0 :: acked0))];
      [|done|done|done|done].
    intros b h3 [-> Hp]. split_and!; try done. exists s1. split; [done|].
    replace (lossDelayAfter ack encLevel rcvTime largest (p0 :: acked0) h)
      with (lossDelayAfter ack encLevel rcvTime largest (p0 :: acked0) h2).
    2:{ unfold lossDelayAfter. f_equal. apply updateRTT_rtt. congruence. }
    by rewrite <- Ev1, <- Ev2.
  - destruct Hscan as (-> & Hns & pre & p & post & E & -> & Hsk & Ha).
    destruct (ackedIn_tracked ack s pre (Some p :: post) Hsi E Hns) as (Ht & Hlen & Hnd).
    apply wp_bind. eapply wp_mono; [| |by apply (wp_removeAcked _ encLevel (fun _ _ => False) 0 h1 s)];
      [|done].
    intros _ h2 _. right. split_and!; try done. exists p. split_and!; try done.
    unfold tracked. rewrite E. apply elem_of_app. right. by left.
Qed.
End acked.
