(* ===== verification/SentPacketClaims.v ===== *)
(** * SentPacketClaims: what the sent-packet handler guarantees

    Timeouts, dropping of packet number spaces, and the theorems on
    [SentPacket], [ReceivedAck], [OnLossDetectionTimeout], the probe timeout and
    the amplification limit. *)

From S2P Require Import Prelude Protocol Varint AckFrame ReceivedHistory ReceivedTracker.
From S2P Require Import SentHistory PNGenerator Ecn GoFloat RTTStats Congestion SentPacketHandler.
From S2P Require Import SentPacketProofs AckProcessing.
From stdpp Require Import base numbers list option strings.
From Stdlib Require Import ZArith Lia.
#[local] Open Scope Z_scope.

(** The generator of a space hands out the packet number the history expects. *)
Definition pn_synced (s : packetNumberSpace) : Prop :=
  gen_inv 0 (pns s) /\ gen_next (pns s) <= 2 ^ 61 /\ highestPacketNumber (history s) <= 2 ^ 61 /\
  (highestPacketNumber (history s) = -1 \/ gen_next (pns s) = highestPacketNumber (history s) + 1).

Section timeouts.
Context (rng : nat -> Z) {A : Type} `{SendAlgorithm A}.
Implicit Types h : sentPacketHandler A.

(** *** Packet numbers *)

Lemma wp_SkippedPacket x h encLevel s pn Q E :
  sph_inv x h -> getPacketNumberSpace h encLevel = Some s -> next_pn (history s) pn ->
  (forall hist h', h' = setPacketNumberSpace encLevel (sp_history hist s) h ->
     sph_inv x h' -> getPacketNumberSpace h' encLevel = Some (sp_history hist s) ->
     highestPacketNumber hist = pn ->
     (forall q, tracked hist q <-> q = newSkippedPacket pn \/ tracked (history s) q) -> Q tt h') ->
  wp (onHistory encLevel (fun hist => SkippedPacket hist pn)) Q E h.
Proof.
  intros Hi Hs Hn HQ. pose proof (getSpace_inv _ _ _ _ Hi Hs) as Hsi.
  destruct (SkippedPacket_spec (history s) pn (proj1 Hsi) Hn) as (hist & E1 & Hhi & Hhigh & _ & Ht).
  destruct (set_space_inv0 x h encLevel s (sp_history hist s) Hi Hs) as [Hi' Hs'].
  - split; [done|]. intros q Hq. apply Ht in Hq as [->|Hq]; [done|]. by apply (proj2 Hsi).
  - unfold SkippedPacket in E1. destruct (checkSequentialPacketNumberUse _ _); try done.
    cbn in E1. injection E1 as <-. unfold space_flight. cbn. rewrite sumw_app. cbn. lia.
  - eapply wp_onHistory; [done..|]. by eapply HQ.
Qed.

Lemma wp_PopPacketNumber x h encLevel s E :
  sph_inv x h -> getPacketNumberSpace h encLevel = Some s -> pn_synced s ->
  wp (sph_PopPacketNumber rng encLevel)
    (fun pn h' => sph_inv x h' /\ sh_events h' = sh_events h /\
       bytesInFlight h' = bytesInFlight h /\ pn = pns_Peek (pns s) /\
       exists s', getPacketNumberSpace h' encLevel = Some s' /\
         next_pn (history s') pn /\ pn <= 2 ^ 61 + 1 /\
         gen_inv 0 (pns s') /\ gen_next (pns s') = pn + 1 /\
         forall q, skippedPacket q = false -> tracked (history s') q <-> tracked (history s) q) E h.
Proof.
  intros Hi Hs (Hg & Hgm & Hhm & Hsync). pose proof (getSpace_inv _ _ _ _ Hi Hs) as Hsi.
  destruct (pns_Pop_spec rng 0 (pns s) Hg ltac:(lia)) as (sk & g & Epop & Hpk & Hnx & _ & Hg').
  pose proof (si_high _ (proj1 Hsi)) as Hhi.
  assert (Hnn : 0 <= gen_next (pns s)).
  { unfold gen_inv in Hg. destruct (pns s); cbn in *; [done|]. by destruct Hg as (_ & ? & _). }
  assert (Hg0 : gen_inv 0 g).
  { unfold gen_inv in *. destruct g; [done|]. destruct Hg' as (? & ? & ?). split_and!; try done. lia. }
  apply wp_bind. eapply wp_getSpace; [done|]. apply wp_bind.
  apply (wp_lift (sk, pns_Peek (pns s), g)); [exact Epop|]. apply wp_bind, wp_modify.
  destruct (set_space_meta x h encLevel s (sp_pns g s) Hi Hs eq_refl) as (Hi1 & Hs1 & B1 & _).
  set (h1 := setPacketNumberSpace encLevel (sp_pns g s) h) in *.
  assert (Ev1 : sh_events h1 = sh_events h) by (subst h1; by destruct h, encLevel).
  clearbody h1. apply wp_bind. destruct sk.
  - rewrite i64_small by int_range.
    eapply wp_SkippedPacket; [exact Hi1|exact Hs1|split; [lia|cbn; destruct Hsync; lia]|].
    intros hist h2 Eh2 Hi2 Hs2 Hhigh Ht. apply wp_ret.
    split; [done|]. split; [subst h2; by rewrite <- Ev1; destruct h1, encLevel|].
    split; [by rewrite Eh2, inFlight_set_space|]. split; [done|].
    exists (sp_history hist (sp_pns g s)). cbn. unfold next_pn.
    split_and!; try done; try lia. intros q Hq. rewrite Ht. split; [|auto].
    intros [->|?]; [done|done].
  - apply wp_ret, wp_ret. split; [done|]. split; [done|]. split; [done|]. split; [done|].
    exists (sp_pns g s). cbn. unfold next_pn. split_and!; try done; try lia.
Qed.

(** *** The PTO branch of [OnLossDetectionTimeout] *)

Lemma getPTO_level h now t lvl :
  getPTOTimeAndSpace h now = (t, lvl, true) -> t <> 0 -> is_Some lvl.
Proof.
  unfold getPTOTimeAndSpace, Time_IsZero, zeroTime.
  destruct (negb _ && negb _).
  - destruct (peerCompletedAddressValidation h); [done|].
    destruct (sh_initialPackets h); intros [= <- <-]; eauto.
  - destruct (sh_initialPackets h); repeat case_match; intros; simplify_eq; eauto.
Qed.

(** Handshake packets are only dropped once the peer's address is settled. *)
Definition phase_inv h : Prop :=
  sh_handshakePackets h = None -> peerCompletedAddressValidation h = true.

Lemma getPTO_space h now t lvl :
  phase_inv h -> getPTOTimeAndSpace h now = (t, Some lvl, true) ->
  lvl <> Encryption0RTT /\ is_Some (getPacketNumberSpace h lvl).
Proof.
  unfold phase_inv, getPTOTimeAndSpace, Time_IsZero, zeroTime. intros Hph.
  destruct (sh_initialPackets h) eqn:Ei, (sh_handshakePackets h) eqn:Eh;
    repeat case_match; intros; simplify_eq; cbn; rewrite ?Ei, ?Eh; eauto.
  all: exfalso; intuition congruence.
Qed.

Lemma getLoss_space h t lvl :
  getLossTimeAndSpace h = (t, lvl) -> t <> 0 -> is_Some (getPacketNumberSpace h lvl).
Proof.
  unfold getLossTimeAndSpace, earlierLoss, Time_IsZero, zeroTime.
  destruct (sh_initialPackets h) eqn:Ei, (sh_handshakePackets h) eqn:Eh; cbn;
    repeat case_match; intros; simplify_eq; cbn; rewrite ?Ei, ?Eh; eauto.
Qed.

(** What a PTO does: one more timeout, a probe to send, nothing in flight changed. *)
Definition pto_post h (h' : sentPacketHandler A) : Prop :=
  sph_inv 0 h' /\ sh_events h' = sh_events h /\ bytesInFlight h' = bytesInFlight h.

Lemma pto_post_core h h' :
  sph_inv 0 h -> core h' = core h -> sh_events h' = sh_events h -> pto_post h h'.
Proof. intros Hi C Ev. split; [by eapply sph_inv_core|]. split; [done|by apply inFlight_core]. Qed.

Lemma setPTO_core f m g h : core (setPTO f m g h) = core h /\ sh_events (setPTO f m g h) = sh_events h.
Proof. by destruct h. Qed.

Lemma wp_onPTO h now E :
  sph_inv 0 h -> phase_inv h -> pn_synced (sh_appDataPackets h) ->
  (forall t lvl, getPTOTimeAndSpace h now = (t, lvl, true) -> is_Some lvl) ->
  wp (onPTO rng now) (fun _ => pto_post h) E h.
Proof.
  intros Hi Hph Hsync Hlvl. apply wp_bind, wp_get.
  assert (H2 : forall f1 m1 g1 f2 m2 g2, pto_post h (setPTO f2 m2 g2 (setPTO f1 m1 g1 h))).
  { intros. destruct (setPTO_core f1 m1 g1 h) as [C1 E1].
    destruct (setPTO_core f2 m2 g2 (setPTO f1 m1 g1 h)) as [C2 E2].
    apply pto_post_core; [done|by rewrite C2|by rewrite E2]. }
  destruct ((bytesInFlight h =? 0) && negb (peerCompletedAddressValidation h)) eqn:E0.
  { apply wp_bind, wp_modify. destruct (sh_initialPackets h); [by apply wp_modify, H2|].
    destruct (sh_handshakePackets h) eqn:Eh; [by apply wp_modify, H2|].
    apply andb_true_iff in E0 as [_ E0]. by rewrite (Hph Eh) in E0. }
  destruct (getPTOTimeAndSpace h now) as [[t lvl] ok] eqn:Ep.
  destruct ok; cbn [negb]; [|apply wp_ret; by apply pto_post_core].
  destruct (Hlvl t lvl eq_refl) as [l ->].
  destruct (getPTO_space h now t l Hph Ep) as [Hl [s Hs]].
  apply wp_bind. eapply wp_getSpace; [done|].
  destruct (negb _ && negb _); [apply wp_ret; by apply pto_post_core|].
  apply wp_bind, wp_modify. destruct l; [by apply wp_modify, H2|by apply wp_modify, H2|done|].
  cbn in Hs. injection Hs as <-.
  set (h1 := setPTO _ _ _ h).
  destruct (setPTO_core (fun n => u32 (n + 1)) id (fun n => i64 (n + 2)) h) as [C1 Ev1].
  fold h1 in C1, Ev1. clearbody h1.
  assert (Hs1 : getPacketNumberSpace h1 Encryption1RTT = Some (sh_appDataPackets h))
    by by rewrite (get_core _ _ _ C1).
  apply wp_bind. eapply wp_mono; [| |apply (wp_PopPacketNumber 0 h1 Encryption1RTT (sh_appDataPackets h) E)];
    [|done|by eapply sph_inv_core|done|done].
  intros pn h2 (Hi2 & Ev2 & B2 & -> & s2 & Hs2 & Hn2 & _). apply wp_bind.
  eapply wp_SkippedPacket; [done..|]. intros hist h3 Eh3 Hi3 _ _ _. apply wp_modify.
  split.
  - eapply sph_inv_core; [apply setPTO_core|done].
  - split; [rewrite (proj2 (setPTO_core _ _ _ _)), Eh3, <- Ev1, <- Ev2; by destruct h2|].
    rewrite (inFlight_core _ _ (proj1 (setPTO_core _ _ _ _))), Eh3, inFlight_set_space.
    rewrite B2. by apply inFlight_core.
Qed.

(** *** [OnLossDetectionTimeout] *)

Lemma wp_OnLossDetectionTimeout h now :
  sph_inv 0 h -> phase_inv h -> pn_synced (sh_appDataPackets h) -> lossDetectionAlarm h now <> 0 ->
  wp (OnLossDetectionTimeout rng now) (fun _ => sph_inv 0) (fun _ _ => False) h.
Proof.
  intros Hi Hph Hsync Halarm. apply wp_deferring, wp_bind, wp_get.
  unfold lossDetectionAlarm in Halarm. destruct (getLossTimeAndSpace h) as [t l] eqn:El.
  unfold Time_IsZero in *. destruct (Z.eqb_spec t 0) as [->|Ht]; cbn [negb] in *.
  - destruct (isAmplificationLimited h); [done|].
    destruct (negb (hasOutstandingPackets h) && peerCompletedAddressValidation h); [done|].
    eapply wp_mono; [| |apply (wp_onPTO h now (fun _ _ => False))]; [|done|done|done|done|].
    + intros _ h' [Hi' _]. apply wp_setLossDetectionTimer.
      eapply sph_inv_core; [apply core_w_alarm|done].
    + intros t' lvl E. rewrite E in Halarm. by eapply getPTO_level.
  - destruct (getLoss_space h t l El Ht) as [s Hs].
    eapply wp_mono; [| |apply (wp_detectLostPackets 0 h l s now (fun _ _ => False))]; [|done|done|done].
    intros _ h' [Hi' _]. apply wp_setLossDetectionTimer.
    eapply sph_inv_core; [apply core_w_alarm|done].
Qed.

(** *** [DropPackets] for the Initial and Handshake spaces *)

Lemma wp_drain ps E : forall h,
  (forall p, Some p ∈ ps -> packet_ok p) -> sumw flight ps <= bytesInFlight h < 2 ^ 62 ->
  wp (Iterate_loop (fun p => removeFromBytesInFlight p ≫= fun _ => mret true) ps)
    (fun _ h' => h' = w_inFlight (bytesInFlight h - sumw flight ps) h) E h.
Proof.
  assert (Hself : forall h, w_inFlight (bytesInFlight h - 0) h = h)
    by (intros []; cbn; by rewrite Z.sub_0_r).
  induction ps as [|o ps IH]; intros h Hok Hb; [apply wp_ret; cbn; by rewrite Hself|].
  assert (Hok' : forall p, Some p ∈ ps -> packet_ok p) by (intros; apply Hok; by right).
  assert (Hnn : 0 <= sumw flight ps).
  { apply sumw_nonneg. intros p Hp. destruct (Hok' p Hp) as (_ & ? & _). unfold flight.
    case_match; lia. }
  destruct o as [p|]; cbn in *; [|by apply IH].
  destruct (Hok p ltac:(by left)) as (_ & Hl & _).
  assert (Hf : 0 <= flight p) by (unfold flight; case_match; lia).
  apply wp_bind, wp_bind.
  assert (Hrm : wp (removeFromBytesInFlight p)
    (fun _ h' => h' = w_inFlight (bytesInFlight h - flight p) h) E h).
  { apply wp_bind, wp_get. unfold flight in *. destruct (includedInBytesInFlight p).
    - zfalse (bytesInFlight h <? pLength p). apply wp_modify. rewrite i64_small by int_range. done.
    - apply wp_ret. by rewrite Hself. }
  eapply wp_mono; [| |exact Hrm]; [|done]. intros _ h' ->. apply wp_ret.
  eapply wp_mono; [| |apply IH]; [|done|done|destruct h; cbn in *; lia].
  intros _ h' ->. destruct h; cbn. f_equal. lia.
Qed.

Lemma wp_DropPackets h encLevel now E :
  sph_inv 0 h -> encLevel = EncryptionInitial \/ encLevel = EncryptionHandshake ->
  wp (DropPackets encLevel now)
    (fun _ h' => sph_inv 0 h' /\ getPacketNumberSpace h' encLevel = None /\
       bytesInFlight h' = bytesInFlight h - opt_flight (getPacketNumberSpace h encLevel)) E h.
Proof.
  intros Hi Hl. apply wp_bind, wp_modify. set (h1 := if _ && _ then _ else h).
  assert (C1 : core h1 = core h) by (subst h1; destruct (_ && _); by destruct h).
  clearbody h1. apply (sph_inv_core _ _ _ C1) in Hi.
  rewrite <- (get_core _ _ encLevel C1), <- (inFlight_core _ _ C1). clear C1 h.
  apply wp_bind, wp_get.
  assert (Hnone : getPacketNumberSpace h1 encLevel = None ->
    wp (mret tt) (fun (_ : unit) h' => sph_inv 0 h' /\ getPacketNumberSpace h' encLevel = None /\
      bytesInFlight h' = bytesInFlight h1 - opt_flight (getPacketNumberSpace h1 encLevel)) E h1).
  { intros Hs. apply wp_ret. rewrite Hs. cbn. split; [done|]. split; [done|lia]. }
  assert (Hsome : forall s, getPacketNumberSpace h1 encLevel = Some s ->
    wp (Iterate (history s) (fun p => removeFromBytesInFlight p ≫= fun _ => mret true) ≫= fun _ =>
        modify (dropSpace encLevel) ≫= fun _ => resetPTO now)
      (fun (_ : unit) h' => sph_inv 0 h' /\ getPacketNumberSpace h' encLevel = None /\
        bytesInFlight h' = bytesInFlight h1 - opt_flight (getPacketNumberSpace h1 encLevel)) E h1).
  { intros s Hs. pose proof (getSpace_inv _ _ _ _ Hi Hs) as Hsi.
    pose proof Hi as (Hi1 & Hi2 & Hi3 & _ & Hmx & Hsum).
    pose proof (opt_flight_nonneg _ Hi1). pose proof (opt_flight_nonneg _ Hi2).
    pose proof (space_flight_nonneg _ Hi3).
    apply wp_bind. eapply wp_mono; [| |apply wp_drain]; [|done|apply Hsi|].
    - intros _ h2 ->. apply wp_bind, wp_modify. unfold resetPTO.
      apply wp_bind, wp_modify, wp_setLossDetectionTimer. rewrite Hs. cbn [opt_flight from_option].
      unfold space_flight at 1.
      destruct h1 as [i hs ad], encLevel; cbn in *; destruct Hl as [Hl|Hl]; try done; subst;
        (split; [|done]); split_and!; try done; cbn in *; unfold space_flight in *; lia.
    - split; [|done]. fold (space_flight s). rewrite Hsum.
      destruct encLevel; cbn in *; destruct Hl as [Hl|Hl]; try done; rewrite Hs in *; cbn in *; lia. }
  destruct encLevel; try (by destruct Hl);
    (destruct (getPacketNumberSpace h1 _) as [s|] eqn:Hs; [by apply Hsome|by apply Hnone]).
Qed.
End timeouts.

(** ** Probe timeouts *)

Section pto.
Context {A : Type} `{SendAlgorithm A}.
Implicit Types h : sentPacketHandler A.

Lemma getScaledPTO_range h incl : 0 < getScaledPTO h incl <= maxPTODuration.
Proof.
  unfold getScaledPTO, maxPTODuration, Second, Millisecond, Microsecond.
  set (p := i64 _). destruct (Z.ltb_spec (60 * (1000 * (1000 * 1000))) p), (Z.leb_spec p 0); cbn; lia.
Qed.

(** The probe timeout is always positive and at most [maxPTODuration].
    As long as the shift does not overflow an int64, it is exactly the PTO
    doubled [ptoCount] times, cut off at [maxPTODuration]. *)
Theorem scaled_pto_backoff h incl :
  0 <= ptoCount h -> 0 < PTO (rttStats h) incl ->
  PTO (rttStats h) incl * 2 ^ ptoCount h < 2 ^ 63 ->
  0 < getScaledPTO h incl <= maxPTODuration /\
  getScaledPTO h incl = Z.min (PTO (rttStats h) incl * 2 ^ ptoCount h) maxPTODuration.
Proof.
  intros Hn Hp Hb. split; [apply getScaledPTO_range|]. unfold getScaledPTO.
  rewrite Z.shiftl_mul_pow2 by done.
  assert (0 < PTO (rttStats h) incl * 2 ^ ptoCount h).
  { apply Z.mul_pos_pos; [done|]. apply Z.pow_pos_nonneg; lia. }
  rewrite i64_small by int_range.
  set (p := PTO (rttStats h) incl * 2 ^ ptoCount h) in *.
  destruct (Z.ltb_spec maxPTODuration p), (Z.leb_spec p 0); cbn; lia.
Qed.

(** Once the handshake is confirmed, a handler with an outstanding packet
    that is not blocked by the amplification limit always has its timer armed;
    unless a loss timer is running, the alarm is after the last ack-eliciting
    packet and no more than [maxPTODuration] later. *)
Theorem loss_timer_armed h now :
  handshakeConfirmed h = true -> sh_initialPackets h = None -> sh_handshakePackets h = None ->
  isAmplificationLimited h = false ->
  HasOutstandingPackets (history (sh_appDataPackets h)) = true ->
  0 < lastAckElicitingPacketTime (sh_appDataPackets h) ->
  let h' := (setLossDetectionTimer now h).2 in
  let last := lastAckElicitingPacketTime (sh_appDataPackets h) in
  GetLossDetectionTimeout h' <> 0 /\
  (lossTime (sh_appDataPackets h) = 0 -> last < GetLossDetectionTimeout h' <= last + maxPTODuration).
Proof.
  intros Hc Hi Hh Ha Ho Hl h' last.
  assert (E : GetLossDetectionTimeout h' = lossDetectionAlarm h now) by by destruct h.
  rewrite E. clear E h'. unfold lossDetectionAlarm, getLossTimeAndSpace, earlierLoss.
  rewrite Hi, Hh. cbn. destruct (Z.eqb_spec (lossTime (sh_appDataPackets h)) 0) as [Ez|Ez].
  2:{ unfold Time_IsZero. zfalse (lossTime (sh_appDataPackets h) =? 0). cbn. done. }
  rewrite Ez. cbn. rewrite Ha. unfold hasOutstandingPackets. rewrite Ho. cbn.
  unfold getPTOTimeAndSpace. rewrite Hc, Hi, Hh. cbn. unfold Time_IsZero.
  fold last. zfalse (last =? 0). cbn. pose proof (getScaledPTO_range h true). unfold Time_Add. lia.
Qed.
End pto.

(** ** The amplification limit *)

Section amplification.
Context (rng : nat -> Z) {A : Type} `{SendAlgorithm A}.
Implicit Types h : sentPacketHandler A.

Definition amp h : bool * Z * Z := (peerAddressValidated h, bytesReceived h, bytesSent h).

Lemma keeps_setSpace l s : keeps amp (modify (@setPacketNumberSpace A l s)).
Proof. apply keeps_modify. intros []; by destruct l. Qed.

Lemma keeps_getSpace l : keeps amp (@getSpace A l).
Proof. done. Qed.

Lemma keeps_modifySpace l f : keeps amp (@modifySpace A l f).
Proof. apply keeps_bind; [apply keeps_getSpace|]. intros s. apply keeps_setSpace. Qed.

Lemma keeps_onHistory l f : keeps amp (@onHistory A l f).
Proof.
  apply keeps_bind; [apply keeps_getSpace|]. intros s. apply keeps_bind; [apply keeps_lift|].
  intros hist. apply keeps_setSpace.
Qed.

Lemma keeps_onECN l f : keeps amp (@onECN A l f).
Proof.
  apply keeps_bind; [apply keeps_get|]. intros h. case_match; [|apply keeps_ret].
  case_match; [|apply keeps_ret]. apply keeps_bind; [apply keeps_lift|].
  intros e'. apply keeps_modify. by intros [].
Qed.

Lemma keeps_timer now : keeps amp (@setLossDetectionTimer A now).
Proof. apply keeps_modify. by intros []. Qed.

Lemma SentPacket_amp t pn la sf fr encLevel ecn size mtu now h :
  amp (SentPacket t pn la sf fr encLevel ecn size mtu now h).2 =
  (peerAddressValidated h, bytesReceived h, i64 (bytesSent h + size)).
Proof.
  set (h1 := w_bytesSent (i64 (bytesSent h + size)) h).
  transitivity (amp h1); [|by destruct h]. unfold SentPacket.
  rewrite (stM_bind_ok (modify _) _ h h1 tt) by done.
  match goal with |- amp (?m h1).2 = _ => enough (keeps amp m) as Hk by apply Hk end.
  apply keeps_bind; [apply keeps_modifySpace|intros _].
  set (b := (0 <? blen sf) || (0 <? blen fr)). clearbody b.
  apply keeps_bind; [|intros _].
  { destruct b; [|apply keeps_ret]. apply keeps_bind; [apply keeps_modifySpace|intros _].
    apply keeps_modify. intros []; cbn. by case_match. }
  apply keeps_bind; [apply keeps_modify; by intros []|intros _].
  apply keeps_bind; [apply keeps_onECN|intros _]. destruct b; cbn [negb].
  - apply keeps_bind; [apply keeps_onHistory|intros _]. apply keeps_timer.
  - apply keeps_bind; [apply keeps_onHistory|intros _].
    apply keeps_bind; [apply keeps_get|intros h2]. case_match; [apply keeps_timer|apply keeps_ret].
Qed.

Lemma ReceivedBytes_amp n now h :
  amp (ReceivedBytes n now h).2 = (peerAddressValidated h, i64 (bytesReceived h + n), bytesSent h).
Proof.
  unfold ReceivedBytes. rewrite (stM_bind_ok get _ h h h) by done.
  set (h1 := w_bytesReceived (i64 (bytesReceived h + n)) h).
  rewrite (stM_bind_ok (modify _) _ h h1 tt) by done.
  rewrite (stM_bind_ok get _ h1 h1 h1) by done.
  transitivity (amp h1); [|by destruct h]. case_match; [apply keeps_timer|apply keeps_ret].
Qed.

(** The packets of one datagram, as the arguments of their [SentPacket] calls. *)
Record sent_call := mkCall {
  c_time : Z; c_pn : Z; c_acked : Z; c_stream : list Frame; c_frames : list Frame;
  c_level : EncryptionLevel; c_ecn : ECN; c_size : Z; c_mtu : bool
}.

Definition doSent (now : Z) h (c : sent_call) : sentPacketHandler A :=
  (SentPacket (c_time c) (c_pn c) (c_acked c) (c_stream c) (c_frames c) (c_level c) (c_ecn c)
     (c_size c) (c_mtu c) now h).2.

(** A server before address validation: datagrams arrive, and a datagram is
    sent if [SendMode] allows it. *)
Inductive amp_op := AmpReceive (n now : Z) | AmpSend (now : Z) (calls : list sent_call).

Definition amp_do h (o : amp_op) : sentPacketHandler A :=
  match o with
  | AmpReceive n now => (ReceivedBytes n now h).2
  | AmpSend now calls =>
      if bool_decide (sph_SendMode h now = SendNone) then h else foldl (doSent now) h calls
  end.

Fixpoint datagram_size (calls : list sent_call) : Z :=
  match calls with
  | [] => 0
  | c :: rest => c_size c + datagram_size rest
  end.

Lemma datagram_size_nonneg calls : Forall (fun c => 0 <= c_size c) calls -> 0 <= datagram_size calls.
Proof. induction 1 as [|x l Hx _ IH]; cbn; lia. Qed.

Definition amp_op_ok (mds : Z) (o : amp_op) : Prop :=
  match o with
  | AmpReceive n _ => 0 <= n <= 2 ^ 16
  | AmpSend _ calls => Forall (fun c => 0 <= c_size c) calls /\ datagram_size calls <= mds
  end.

Lemma doSent_amp now calls : forall h,
  Forall (fun c => 0 <= c_size c) calls -> 0 <= bytesSent h ->
  bytesSent h + datagram_size calls < 2 ^ 62 ->
  amp (foldl (doSent now) h calls) =
  (peerAddressValidated h, bytesReceived h, bytesSent h + datagram_size calls).
Proof.
  induction calls as [|c calls IH]; intros h Hall H0 Hb; cbn in *.
  { unfold amp. by rewrite Z.add_0_r. }
  apply Forall_cons in Hall as [Hc Hall].
  pose proof (datagram_size_nonneg _ Hall) as Hsum.
  pose proof (SentPacket_amp (c_time c) (c_pn c) (c_acked c) (c_stream c) (c_frames c) (c_level c)
    (c_ecn c) (c_size c) (c_mtu c) now h) as E. fold (doSent now h c) in E.
  rewrite i64_small in E by int_range. injection E as E1 E2 E3.
  rewrite IH; [|done|lia|lia]. rewrite E1, E2, E3. f_equal. lia.
Qed.

(** The numbers the limit is about stay far from overflow. *)
Definition amp_inv (mds : Z) h : Prop :=
  peerAddressValidated h = false /\ 0 <= bytesReceived h /\
  0 <= bytesSent h <= amplificationFactor * bytesReceived h + mds.

(** C22: Before it has validated the client's address, a server never sends
    more than three times the bytes it has received, plus one datagram (of at
    most [mds] bytes): whatever datagrams arrive, if a datagram is only sent
    when [SendMode] is not [SendNone], the bound holds after every step. *)
Theorem amplification_limit mds os : forall h,
  amp_inv mds h -> 0 <= mds <= 2 ^ 16 -> Forall (amp_op_ok mds) os ->
  bytesReceived h + 2 ^ 16 * blen os < 2 ^ 58 ->
  amp_inv mds (foldl amp_do h os).
Proof.
  induction os as [|o os IH]; intros h Hinv Hm Hall Hb; [done|].
  apply Forall_cons in Hall as [Ho Hall]. rewrite blen_cons in Hb. pose proof (blen_nonneg os).
  destruct Hinv as (Hv & Hr & Hs). unfold amplificationFactor in *. cbn [foldl].
  destruct o as [n now|now calls]; cbn [amp_do amp_op_ok] in *.
  - pose proof (ReceivedBytes_amp n now h) as E. rewrite i64_small in E by int_range.
    injection E as E1 E2 E3. apply IH; try done.
    + split_and!; rewrite ?E1, ?E2, ?E3; unfold amplificationFactor; done || lia.
    + rewrite E2. lia.
  - case_bool_decide as Hmode.
    { apply IH; try done. lia. }
    assert (Hlim : bytesSent h < 3 * bytesReceived h).
    { unfold sph_SendMode in Hmode. destruct (isAmplificationLimited h) eqn:El; [done|].
      unfold isAmplificationLimited, amplificationFactor in El. rewrite Hv, i64_small in El by int_range.
      lia. }
    destruct Ho as [Hc Hsum].
    pose proof (datagram_size_nonneg _ Hc) as Hsum0.
    pose proof (doSent_amp now calls h Hc ltac:(lia) ltac:(lia)) as E. injection E as E1 E2 E3.
    apply IH; try done.
    + split_and!; rewrite ?E1, ?E2, ?E3; unfold amplificationFactor; done || lia.
    + rewrite E2. lia.
Qed.
End amplification.

(** ** The operations of the handler *)

Section operations.
Context (rng : nat -> Z) {A : Type} `{SendAlgorithm A}.
Implicit Types h : sentPacketHandler A.

Lemma newPacketNumberSpace_inv pn skip i s :
  newPacketNumberSpace rng pn skip i = Ok s -> space_inv s /\ space_flight s = 0.
Proof.
  unfold newPacketNumberSpace. intros Hs.
  apply res_bind_ok in Hs as (g & _ & Hs).
  assert (Eh : history s = newSentPacketHistory) by by injection Hs as <-.
  unfold space_inv, space_flight. rewrite Eh. split; [|done].
  split; [apply newSentPacketHistory_inv|]. intros p Hp. by apply not_elem_of_nil in Hp.
Qed.

(** A new handler satisfies the invariant. *)
Lemma newSentPacketHandler_inv cong pn rtt cav ecn pers h :
  newSentPacketHandler rng cong pn rtt cav ecn pers = Ok h -> sph_inv 0 h.
Proof.
  unfold newSentPacketHandler. intros (i & E1 & Hh)%res_bind_ok.
  apply res_bind_ok in Hh as (hs & E2 & Hh). apply res_bind_ok in Hh as (ad & E3 & Hh).
  injection Hh as <-.
  destruct (newPacketNumberSpace_inv _ _ _ _ E1) as [I1 F1],
    (newPacketNumberSpace_inv _ _ _ _ E2) as [I2 F2], (newPacketNumberSpace_inv _ _ _ _ E3) as [I3 F3].
  split; [by intros ? [= <-]|]. split; [by intros ? [= <-]|]. split; [done|].
  split; [done|]. split; [done|]. cbn. lia.
Qed.

(** Sending a packet with the next packet number of its space never
    panics, keeps the accounting of the bytes in flight, and tracks exactly the
    ack-eliciting packets: an ack-eliciting packet is added to the history and
    its size to the bytes in flight, any other packet only advances the packet
    number. *)
Theorem sph_SentPacket_correct h t pn la sf fr encLevel ecn size mtu now s :
  sph_inv 0 h -> getPacketNumberSpace h encLevel = Some s -> next_pn (history s) pn ->
  0 <= t -> 0 <= size -> bytesInFlight h + size < 2 ^ 62 -> ecn_accepts h encLevel pn ecn ->
  exists h', SentPacket t pn la sf fr encLevel ecn size mtu now h = (Ok tt, h') /\
    sent_post h encLevel s (newSentPacket t pn la sf fr encLevel size mtu)
      (is_ack_eliciting sf fr) h'.
Proof.
  intros. apply (wp_total (SentPacket _ _ _ _ _ _ _ _ _ _) (fun _ => sent_post _ _ _ _ _)).
  by apply wp_SentPacket.
Qed.

(** C2: Processing an ACK frame (with well-formed, descending ranges) never
    panics. It fails exactly in the two cases of a misbehaving peer: a packet
    was acknowledged that was never sent (the handler is unchanged), or a packet
    number that was skipped on purpose. Otherwise the acknowledged packets leave
    the history, their frames are reported as acknowledged, exactly the packets
    that the reordering and time thresholds declare lost are reported as lost,
    and the bytes in flight are again the sum over the packets left. *)
Theorem sph_ReceivedAck_correct h encLevel s ack hi rcvTime now largest :
  sph_inv 0 h -> getPacketNumberSpace h encLevel = Some s ->
  ranges_desc hi (AckRanges ack) -> AckRanges ack <> [] -> LargestAcked ack = Ok largest ->
  match ReceivedAck ack encLevel rcvTime now h with
  | (Ok b, h') => ack_ok h encLevel s ack rcvTime largest b h'
  | (Err e, h') => ack_err h s ack largest e h'
  | (Panic _, _) => False
  end.
Proof. intros. by eapply wp_ReceivedAck. Qed.

(** C34: Loss detection never panics or fails. It declares lost exactly the
    tracked packets up to the largest acknowledged one that were sent more than
    9/8 RTT (at least a millisecond) ago or are at least three packet numbers
    behind; the frames of these packets are reported as lost in order, and the
    loss timer is set to the time when one of the packets that remain below the
    largest acknowledged one is declared lost, and not set if none remains. *)
Theorem sph_detectLostPackets_correct h encLevel s now :
  sph_inv 0 h -> getPacketNumberSpace h encLevel = Some s ->
  0 <= Z.max (latestRTT (rttStats h)) (smoothedRTT (rttStats h)) < 2 ^ 49 ->
  exists h', detectLostPackets now encLevel h = (Ok tt, h') /\
    lost_post 0 encLevel s (sh_events h) now (ref_lossDelay (rttStats h)) h'.
Proof.
  intros. apply (wp_total (detectLostPackets _ _) (fun _ => lost_post _ _ _ _ _ _)).
  rewrite <- lossDelayOf_exact by done. by apply wp_detectLostPackets.
Qed.

(** When the loss detection timer fires, [OnLossDetectionTimeout]
    returns without an error or a panic (none of its "PTO timer in unexpected
    encryption level" and nil dereference paths is taken), and the accounting
    of the bytes in flight holds. *)
Theorem sph_timeout_safe h now :
  sph_inv 0 h -> phase_inv h -> pn_synced (sh_appDataPackets h) -> lossDetectionAlarm h now <> 0 ->
  exists h', OnLossDetectionTimeout rng now h = (Ok tt, h') /\ sph_inv 0 h'.
Proof.
  intros. apply (wp_total (OnLossDetectionTimeout rng _) (fun _ => sph_inv 0)). by apply wp_OnLossDetectionTimeout.
Qed.

(** Dropping the Initial or Handshake space never panics, removes the
    space and takes exactly its packets out of the bytes in flight. *)
Theorem sph_DropPackets_correct h encLevel now :
  sph_inv 0 h -> encLevel = EncryptionInitial \/ encLevel = EncryptionHandshake ->
  exists h', DropPackets encLevel now h = (Ok tt, h') /\
    sph_inv 0 h' /\ getPacketNumberSpace h' encLevel = None /\
    bytesInFlight h' = bytesInFlight h - opt_flight (getPacketNumberSpace h encLevel).
Proof.
  intros Hi Hl. pose proof (wp_DropPackets h encLevel now (fun _ _ => False) Hi Hl) as Hw.
  by apply (wp_total _ _ _) in Hw.
Qed.
End operations.

(** ** Concrete handlers *)

Definition ex_rng : nat -> Z := fun _ => 3.
Definition ex_sender : cubicSender unit := NewCubicSender NewRTTStats 1252 true.

(** The server's handler when a connection starts. *)
Definition ex_server : sentPacketHandler (cubicSender unit) :=
  mkSPH
    (Some (mkSpace newSentPacketHistory (newSequentialPacketNumberGenerator 0) 0 0 (-1) (-1)))
    (Some (mkSpace newSentPacketHistory (newSequentialPacketNumberGenerator 0) 0 0 (-1) (-1)))
    (mkSpace newSentPacketHistory (skippingGenerator (mkSkipping 512 131072 0 6 1)) 0 0 (-1) (-1))
    true 0 0 false false 0 0 ex_sender NewRTTStats 0 SendNone 0 0 (Some newECNTracker)
    PerspectiveServer [].

Lemma ex_server_new :
  newSentPacketHandler ex_rng ex_sender 0 NewRTTStats false true PerspectiveServer = Ok ex_server.
Proof. vm_compute. reflexivity. Qed.

Definition ex_frame : Frame := mkFrame 0 (Some 0).

(** The server after it received a datagram. *)
Definition ex_received : sentPacketHandler (cubicSender unit) := (ReceivedBytes 1200 1 ex_server).2.

(** The server after its first Initial packet of 1200 bytes at time 5. *)
Definition ex_sent : sentPacketHandler (cubicSender unit) :=
  (SentPacket 5 0 (-1) [] [ex_frame] EncryptionInitial ECNNon 1200 false 5 ex_received).2.

Lemma ex_server_inv : sph_inv 0 ex_server.
Proof. exact (newSentPacketHandler_inv _ _ _ _ _ _ _ _ ex_server_new). Qed.

Lemma ex_received_inv : sph_inv 0 ex_received.
Proof. apply (sph_inv_core 0 ex_server); [reflexivity|exact ex_server_inv]. Qed.

Lemma ex_next : next_pn newSentPacketHistory 0.
Proof. split; [lia|by left]. Qed.

Lemma ex_sent_inv : sph_inv 0 ex_sent.
Proof.
  pose proof (wp_SentPacket ex_received 5 0 (-1) [] [ex_frame] EncryptionInitial ECNNon 1200 false 5 _
    (fun _ _ => False) ex_received_inv eq_refl ex_next ltac:(lia) ltac:(lia) ltac:(vm_compute; reflexivity)
    ltac:(done)) as Hw.
  destruct (wp_total _ (fun _ => sent_post _ _ _ _ _) _ Hw) as (h' & E & Hi & _).
  unfold ex_sent. by rewrite E.
Qed.

Lemma scaled_pto_backoff_witness :
  getScaledPTO (setPTO (fun _ => 3) id id ex_server) true = 1600 * Millisecond.
Proof.
  destruct (scaled_pto_backoff (setPTO (fun _ => 3) id id ex_server) true) as [_ E];
    [vm_compute; congruence..|]. rewrite E. vm_compute. reflexivity.
Defined.

(** The server once the handshake is confirmed, with a packet outstanding. *)
Definition ex_confirmed : sentPacketHandler (cubicSender unit) :=
  ((_ ← ReceivedBytes 1200 1; _ ← sph_ReceivedPacket EncryptionHandshake 2;
    _ ← DropPackets EncryptionInitial 3; _ ← DropPackets EncryptionHandshake 3;
    _ ← SetHandshakeConfirmed 3;
    SentPacket 4 0 (-1) [] [ex_frame] Encryption1RTT ECT0 1200 false 4) ex_server).2.

Lemma loss_timer_armed_witness :
  4 < GetLossDetectionTimeout (setLossDetectionTimer 9 ex_confirmed).2 <= 4 + maxPTODuration.
Proof.
  destruct (loss_timer_armed ex_confirmed 9) as [_ E]; [vm_compute; reflexivity..|].
  apply E. vm_compute. reflexivity.
Defined.

Lemma amplification_limit_witness :
  amp_inv 1252 (foldl amp_do ex_server
    [AmpReceive 1200 1;
     AmpSend 2 [mkCall 2 0 0 [] [ex_frame] EncryptionInitial ECNNon 300 false;
                mkCall 2 0 0 [] [ex_frame] EncryptionHandshake ECNNon 952 false];
     AmpSend 3 [mkCall 3 1 0 [] [ex_frame] EncryptionHandshake ECNNon 1252 false]]).
Proof.
  apply (amplification_limit 1252).
  - split_and!; vm_compute; congruence.
  - lia.
  - repeat constructor; vm_compute; congruence.
  - vm_compute. reflexivity.
Defined.

Lemma sph_SentPacket_correct_witness :
  exists h', SentPacket 5 0 (-1) [] [ex_frame] EncryptionInitial ECNNon 1200 false 5 ex_server = (Ok tt, h') /\
    bytesInFlight h' = 1200.
Proof.
  destruct (sph_SentPacket_correct ex_server 5 0 (-1) [] [ex_frame] EncryptionInitial ECNNon 1200
    false 5 _ ex_server_inv eq_refl ex_next) as (h' & E & _ & B & _); [lia|lia|vm_compute; reflexivity|done|].
  exists h'. split; [exact E|exact B].
Defined.

Lemma sph_ReceivedAck_correct_witness :
  match ReceivedAck (mkAckFrame [mkAckRange 0 0] 0 0 0 0) EncryptionInitial 9 9 ex_sent with
  | (Ok b, h') => b = false /\ sph_inv 0 h'
  | _ => False
  end.
Proof.
  pose proof (sph_ReceivedAck_correct ex_sent EncryptionInitial _ (mkAckFrame [mkAckRange 0 0] 0 0 0 0)
    0 9 9 0 ex_sent_inv eq_refl) as Hr.
  destruct (ReceivedAck _ _ _ _ ex_sent) as [[b|e|m] h'] eqn:E.
  - destruct Hr as (_ & _ & Hr); [by repeat constructor|discriminate|reflexivity|].
    destruct Hr as (-> & s1 & _ & Hi & _). split; [reflexivity|exact Hi].
  - vm_compute in E. discriminate.
  - vm_compute in E. discriminate.
Defined.

Lemma sph_detectLostPackets_correct_witness :
  exists h', detectLostPackets 50 EncryptionInitial ex_sent = (Ok tt, h') /\ sph_inv 0 h'.
Proof.
  destruct (sph_detectLostPackets_correct ex_sent EncryptionInitial _ 50 ex_sent_inv eq_refl
    ltac:(vm_compute; split; [discriminate|reflexivity]))
    as (h' & E & Hi & _).
  exists h'. split; [exact E|exact Hi].
Defined.

Lemma ex_gen_inv : gen_inv 0 (pns (sh_appDataPackets ex_server)).
Proof. split; [exists 9, 17; cbn; lia|cbn; lia]. Qed.

Lemma sph_timeout_safe_witness :
  exists h', OnLossDetectionTimeout ex_rng 50 ex_sent = (Ok tt, h') /\ sph_inv 0 h'.
Proof.
  apply (sph_timeout_safe ex_rng ex_sent 50 ex_sent_inv).
  - vm_compute. discriminate.
  - split; [exact ex_gen_inv|]. split; [vm_compute; discriminate|].
    split; [vm_compute; discriminate|]. left. reflexivity.
  - vm_compute. discriminate.
Defined.

Lemma sph_DropPackets_correct_witness :
  exists h', DropPackets EncryptionInitial 9 ex_sent = (Ok tt, h') /\ bytesInFlight h' = 0.
Proof.
  destruct (sph_DropPackets_correct ex_sent EncryptionInitial 9 ex_sent_inv (or_introl eq_refl))
    as (h' & E & _ & _ & B).
  exists h'. split; [exact E|]. rewrite B. vm_compute. reflexivity.
Defined.

(** The back-off is computed by an int64 shift whose overflow is only caught
    when the result is negative: with a PTO of 2^35 + 1 nanoseconds (34 seconds)
    and 29 timeouts in a row the PTO is back at 2^29 nanoseconds (half a second). *)
Theorem scaled_pto_wraps :
  let r := mkRTT true 0 0 (2 ^ 35 + 1 - Millisecond) 0 0 in
  let h := mkSPH None None (sh_appDataPackets ex_server) true 0 0 true true 0 0 ex_sender r
             29 SendNone 0 0 None PerspectiveServer [] in
  PTO r true = 2 ^ 35 + 1 /\ getScaledPTO h true = 2 ^ 29 /\ 2 ^ 29 < PTO r true.
Proof. vm_compute. repeat split. Qed.
