(* ===== verification/FlowControl.v ===== *)
(** * FlowControl: flow control of streams and of the connection

    Models internal/flowcontrol/base_flow_controller.go,
    connection_flow_controller.go and stream_flow_controller.go.  A stream's flow
    controller holds a pointer to the connection's: its methods run on the pair
    of both.  [time.Now()] is the argument [now], the RTT statistics the two
    share with the sent-packet handler are the argument [r]; the calls of
    [queueWindowUpdate] are appended to a log.  The mutexes are not modelled. *)

From S2P Require Import Prelude GoFloat RTTStats.
From stdpp Require Import base numbers list option strings gmap fin_maps.
From Stdlib Require Import ZArith Lia Sorted.
#[local] Open Scope Z_scope.

(** ** Base flow controller *)

Record baseFlowController := mkBase {
  fcBytesSent : Z;
  sendWindow : Z;
  lastBlockedAt : Z;
  bytesRead : Z;
  highestReceived : Z;
  receiveWindow : Z;
  receiveWindowSize : Z;
  maxReceiveWindowSize : Z;
  allowWindowIncrease : option (Z -> bool);
  epochStartTime : Z;
  epochStartOffset : Z
}.

Definition fc_setSent (v : Z) (c : baseFlowController) : baseFlowController :=
  mkBase v (sendWindow c) (lastBlockedAt c) (bytesRead c) (highestReceived c) (receiveWindow c)
    (receiveWindowSize c) (maxReceiveWindowSize c) (allowWindowIncrease c) (epochStartTime c) (epochStartOffset c).
Definition fc_setSendWindow (v : Z) (c : baseFlowController) : baseFlowController :=
  mkBase (fcBytesSent c) v (lastBlockedAt c) (bytesRead c) (highestReceived c) (receiveWindow c)
    (receiveWindowSize c) (maxReceiveWindowSize c) (allowWindowIncrease c) (epochStartTime c) (epochStartOffset c).
Definition fc_setBlocked (v : Z) (c : baseFlowController) : baseFlowController :=
  mkBase (fcBytesSent c) (sendWindow c) v (bytesRead c) (highestReceived c) (receiveWindow c)
    (receiveWindowSize c) (maxReceiveWindowSize c) (allowWindowIncrease c) (epochStartTime c) (epochStartOffset c).
Definition fc_setRead (v : Z) (c : baseFlowController) : baseFlowController :=
  mkBase (fcBytesSent c) (sendWindow c) (lastBlockedAt c) v (highestReceived c) (receiveWindow c)
    (receiveWindowSize c) (maxReceiveWindowSize c) (allowWindowIncrease c) (epochStartTime c) (epochStartOffset c).
Definition fc_setHighest (v : Z) (c : baseFlowController) : baseFlowController :=
  mkBase (fcBytesSent c) (sendWindow c) (lastBlockedAt c) (bytesRead c) v (receiveWindow c)
    (receiveWindowSize c) (maxReceiveWindowSize c) (allowWindowIncrease c) (epochStartTime c) (epochStartOffset c).
Definition fc_setWindow (v : Z) (c : baseFlowController) : baseFlowController :=
  mkBase (fcBytesSent c) (sendWindow c) (lastBlockedAt c) (bytesRead c) (highestReceived c) v
    (receiveWindowSize c) (maxReceiveWindowSize c) (allowWindowIncrease c) (epochStartTime c) (epochStartOffset c).
Definition fc_setWindowSize (v : Z) (c : baseFlowController) : baseFlowController :=
  mkBase (fcBytesSent c) (sendWindow c) (lastBlockedAt c) (bytesRead c) (highestReceived c) (receiveWindow c)
    v (maxReceiveWindowSize c) (allowWindowIncrease c) (epochStartTime c) (epochStartOffset c).

Definition sendWindowSize (c : baseFlowController) : Z :=
  if sendWindow c <? fcBytesSent c then 0 else i64 (sendWindow c - fcBytesSent c).

Definition IsNewlyBlocked (c : baseFlowController) : bool * Z * baseFlowController :=
  if negb (sendWindowSize c =? 0) || (sendWindow c =? lastBlockedAt c) then (false, 0, c)
  else let c := fc_setBlocked (sendWindow c) c in (true, sendWindow c, c).

Definition fc_AddBytesSent (n : Z) (c : baseFlowController) : baseFlowController :=
  fc_setSent (i64 (fcBytesSent c + n)) c.

Definition UpdateSendWindow (offset : Z) (c : baseFlowController) : baseFlowController :=
  if sendWindow c <? offset then fc_setSendWindow offset c else c.

Definition startNewAutoTuningEpoch (now : Z) (c : baseFlowController) : baseFlowController :=
  mkBase (fcBytesSent c) (sendWindow c) (lastBlockedAt c) (bytesRead c) (highestReceived c)
    (receiveWindow c) (receiveWindowSize c) (maxReceiveWindowSize c) (allowWindowIncrease c)
    now (bytesRead c).

Definition fc_addBytesRead (n now : Z) (c : baseFlowController) : baseFlowController :=
  let c := if bytesRead c =? 0 then startNewAutoTuningEpoch now c else c in
  fc_setRead (i64 (bytesRead c + n)) c.

(** [float64(c.receiveWindowSize) * (1 - WindowUpdateThreshold)]; the constant is 3/4. *)
Definition updateThreshold (c : baseFlowController) : Z :=
  toint64 (ftrunc (fmul prec64 (fofint prec64 (receiveWindowSize c)) (mkFlt 3 (-2)))).

Definition hasWindowUpdate (c : baseFlowController) : bool :=
  let bytesRemaining := i64 (receiveWindow c - bytesRead c) in
  bytesRemaining <=? updateThreshold c.

(** [time.Duration(4 * fraction * float64(rtt))]; a division by zero is infinite. *)
Definition epochDuration (bytesReadInEpoch size rtt : Z) : Z :=
  match fdiv prec64 (fofint prec64 bytesReadInEpoch) (fofint prec64 size) with
  | Some fraction =>
      toint64 (ftrunc (fmul prec64 (fmul prec64 (mkFlt 4 0) fraction) (fofint prec64 rtt)))
  | None => - 2 ^ 63
  end.

Definition windowAllowed (c : baseFlowController) (delta : Z) : bool :=
  match allowWindowIncrease c with
  | None => true
  | Some allow => allow delta
  end.

Definition maybeAdjustWindowSize (r : RTTStats) (now : Z) (c : baseFlowController) : baseFlowController :=
  let bytesReadInEpoch := i64 (bytesRead c - epochStartOffset c) in
  if bytesReadInEpoch <=? Z.quot (receiveWindowSize c) 2 then c
  else
    let rtt := smoothedRTT r in
    if rtt =? 0 then c
    else
      let c :=
        if Time_Sub now (epochStartTime c) <? epochDuration bytesReadInEpoch (receiveWindowSize c) rtt then
          let newSize := Z.min (i64 (2 * receiveWindowSize c)) (maxReceiveWindowSize c) in
          if (receiveWindowSize c <? newSize) && windowAllowed c (i64 (newSize - receiveWindowSize c))
          then fc_setWindowSize newSize c
          else c
        else c in
      startNewAutoTuningEpoch now c.

Definition getWindowUpdate (r : RTTStats) (now : Z) (c : baseFlowController) : Z * baseFlowController :=
  if negb (hasWindowUpdate c) then (0, c)
  else
    let c := maybeAdjustWindowSize r now c in
    let c := fc_setWindow (i64 (bytesRead c + receiveWindowSize c)) c in
    (receiveWindow c, c).

Definition checkFlowControlViolation (c : baseFlowController) : bool :=
  receiveWindow c <? highestReceived c.

(** ** Connection flow controller *)

(** A call of [queueWindowUpdate]: of a stream's controller, or of the connection's. *)
Inductive window_update := UpdateStream (id : Z) | UpdateConnection.

(** The connection's controller and the log of the [queueWindowUpdate] calls. *)
Record connectionFlowController := mkConnFC {
  connBase : baseFlowController;
  queuedUpdates : list window_update
}.

Definition conn_set (b : baseFlowController) (c : connectionFlowController) : connectionFlowController :=
  mkConnFC b (queuedUpdates c).

Definition queueUpdate (u : window_update) (c : connectionFlowController) : connectionFlowController :=
  mkConnFC (connBase c) (queuedUpdates c ++ [u]).

Definition NewConnectionFlowController (window maxWindow : Z) (allow : option (Z -> bool))
    : connectionFlowController :=
  mkConnFC (mkBase 0 0 0 0 0 window window maxWindow allow zeroTime 0) [].

Definition conn_SendWindowSize (c : connectionFlowController) : Z := sendWindowSize (connBase c).

Definition errConnFlowControl : GoError :=
  TransportError 0x3 0 "received %d bytes for the connection, allowed %d bytes".

Definition IncrementHighestReceived (increment : Z) : stM connectionFlowController unit := fun c =>
  let b := fc_setHighest (i64 (highestReceived (connBase c) + increment)) (connBase c) in
  let c := conn_set b c in
  if checkFlowControlViolation b then (Err errConnFlowControl, c) else (Ok tt, c).

Definition conn_AddBytesRead (n now : Z) (c : connectionFlowController) : connectionFlowController :=
  let c := conn_set (fc_addBytesRead n now (connBase c)) c in
  if hasWindowUpdate (connBase c) then queueUpdate UpdateConnection c else c.

Definition conn_GetWindowUpdate (r : RTTStats) (now : Z) (c : connectionFlowController)
    : Z * connectionFlowController :=
  let (offset, b) := getWindowUpdate r now (connBase c) in (offset, conn_set b c).

(** The callback of the connection is called without a check for nil. *)
Definition EnsureMinimumWindowSize (inc now : Z) : stM connectionFlowController unit := fun c =>
  let b := connBase c in
  if receiveWindowSize b <? inc then
    let newSize := Z.min inc (maxReceiveWindowSize b) in
    let delta := i64 (newSize - receiveWindowSize b) in
    let start b := conn_set (startNewAutoTuningEpoch now b) c in
    if 0 <? delta then
      match allowWindowIncrease b with
      | None => (Panic "nil function", c)
      | Some allow => (Ok tt, start (if allow delta then fc_setWindowSize newSize b else b))
      end
    else (Ok tt, start b)
  else (Ok tt, c).

Definition conn_Reset : stM connectionFlowController unit := fun c =>
  let b := connBase c in
  if (0 <? bytesRead b) || (0 <? highestReceived b) || negb (Time_IsZero (epochStartTime b))
  then (Err (ErrorString "flow controller reset after reading data"), c)
  else (Ok tt, conn_set (fc_setBlocked 0 (fc_setSent 0 b)) c).

(** ** Stream flow controller *)

Record streamFlowController := mkStreamFC {
  strBase : baseFlowController;
  strID : Z;
  receivedFinalOffset : bool
}.

Definition str_set (b : baseFlowController) (c : streamFlowController) : streamFlowController :=
  mkStreamFC b (strID c) (receivedFinalOffset c).
Definition str_setFinal (v : bool) (c : streamFlowController) : streamFlowController :=
  mkStreamFC (strBase c) (strID c) v.

Definition NewStreamFlowController (id window maxWindow initialSendWindow : Z) : streamFlowController :=
  mkStreamFC (mkBase 0 initialSendWindow 0 0 0 window window maxWindow None zeroTime 0) id false.

(** A stream's controller and the connection's it points to. *)
Abbreviation fcM := (stM (streamFlowController * connectionFlowController)).

Definition modifyStream (f : streamFlowController -> streamFlowController) : fcM unit :=
  modify (fun sc => (f sc.1, sc.2)).
Definition modifyConn (f : connectionFlowController -> connectionFlowController) : fcM unit :=
  modify (fun sc => (sc.1, f sc.2)).
Definition onConn {T} (m : stM connectionFlowController T) : fcM T := fun sc =>
  let (x, c) := m sc.2 in (x, (sc.1, c)).

Definition FinalSizeError : Z := 0x6.
Definition errInconsistentFinal : GoError :=
  TransportError FinalSizeError 0 "received inconsistent final offset for stream %d (old: %d, new: %d bytes)".
Definition errBeyondFinal : GoError :=
  TransportError FinalSizeError 0 "received offset %d for stream %d, but final offset was already received at %d".
Definition errFinalTooLow : GoError :=
  TransportError FinalSizeError 0 "received final offset %d for stream %d, but already received offset %d before".
Definition errStreamFlowControl : GoError :=
  TransportError 0x3 0 "received %d bytes on stream %d, allowed %d bytes".

Definition UpdateHighestReceived (offset : Z) (final : bool) : fcM unit :=
  sc ← get;
  let c := sc.1 in
  let highest := highestReceived (strBase c) in
  if receivedFinalOffset c && final && negb (offset =? highest) then throw errInconsistentFinal
  else if receivedFinalOffset c && (highest <? offset) then throw errBeyondFinal
  else
    _ ← (if final then modifyStream (str_setFinal true) else mret tt);
    if offset =? highest then mret tt
    else if offset <=? highest then (if final then throw errFinalTooLow else mret tt)
    else
      let increment := i64 (offset - highest) in
      _ ← modifyStream (fun c => str_set (fc_setHighest offset (strBase c)) c);
      sc ← get;
      if checkFlowControlViolation (strBase sc.1) then throw errStreamFlowControl
      else onConn (IncrementHighestReceived increment).

Definition shouldQueueWindowUpdate (c : streamFlowController) : bool :=
  negb (receivedFinalOffset c) && hasWindowUpdate (strBase c).

Definition str_AddBytesRead (n now : Z) : fcM unit :=
  _ ← modifyStream (fun c => str_set (fc_addBytesRead n now (strBase c)) c);
  sc ← get;
  _ ← (if shouldQueueWindowUpdate sc.1 then modifyConn (queueUpdate (UpdateStream (strID sc.1))) else mret tt);
  modifyConn (conn_AddBytesRead n now).

Definition Abandon (now : Z) : fcM unit :=
  sc ← get;
  let unread := i64 (highestReceived (strBase sc.1) - bytesRead (strBase sc.1)) in
  if 0 <? unread then modifyConn (conn_AddBytesRead unread now) else mret tt.

Definition str_AddBytesSent (n : Z) : fcM unit :=
  _ ← modifyStream (fun c => str_set (fc_AddBytesSent n (strBase c)) c);
  modifyConn (fun c => conn_set (fc_AddBytesSent n (connBase c)) c).

Definition str_SendWindowSize (sc : streamFlowController * connectionFlowController) : Z :=
  Z.min (sendWindowSize (strBase sc.1)) (conn_SendWindowSize sc.2).

(** [protocol.ByteCount(float64(size) * ConnectionFlowControlMultiplier)]; the constant is 3/2. *)
Definition connMinimum (size : Z) : Z :=
  toint64 (ftrunc (fmul prec64 (fofint prec64 size) (mkFlt 3 (-1)))).

Definition str_GetWindowUpdate (r : RTTStats) (now : Z) : fcM Z :=
  sc ← get;
  if receivedFinalOffset sc.1 then mret 0
  else
    let (offset, b) := getWindowUpdate r now (strBase sc.1) in
    _ ← modifyStream (str_set b);
    _ ← (if receiveWindowSize (strBase sc.1) <? receiveWindowSize b
         then onConn (EnsureMinimumWindowSize (connMinimum (receiveWindowSize b)) now)
         else mret tt);
    mret offset.

(** ** Bounds of one controller

    What was received is within the window that was advertised, and the window
    is at most [receiveWindowSize] above what the application has read. *)

Definition fc_max : Z := 2 ^ 60.

Definition base_ok (b : baseFlowController) : Prop :=
  0 <= bytesRead b <= highestReceived b /\ highestReceived b <= receiveWindow b /\
  receiveWindow b <= bytesRead b + receiveWindowSize b /\
  0 <= receiveWindowSize b <= maxReceiveWindowSize b /\ maxReceiveWindowSize b <= fc_max /\
  bytesRead b < 2 ^ 61.

Definition unread (b : baseFlowController) : Z := highestReceived b - bytesRead b.

(** The configuration of a controller. *)
Definition fc_config (b : baseFlowController) := (maxReceiveWindowSize b, allowWindowIncrease b).

(** What the receiving operations leave alone. *)
Definition recv_same (b b' : baseFlowController) : Prop :=
  bytesRead b' = bytesRead b /\ highestReceived b' = highestReceived b /\
  fc_config b' = fc_config b.

Ltac fc_unfold := unfold base_ok, unread, recv_same, fc_max in *; cbn in *.

Ltac fc_solve := fc_unfold; split_and?; first [done | lia].

Lemma base_ok_unread b : base_ok b -> 0 <= unread b <= receiveWindowSize b.
Proof. fc_unfold. lia. Qed.

Lemma startNewAutoTuningEpoch_ok now b : base_ok b -> base_ok (startNewAutoTuningEpoch now b).
Proof. done. Qed.

Lemma setWindowSize_ok v b :
  base_ok b -> receiveWindowSize b <= v <= maxReceiveWindowSize b -> base_ok (fc_setWindowSize v b).
Proof. fc_unfold. lia. Qed.

Lemma addBytesRead_ok n now b :
  base_ok b -> 0 <= n <= unread b -> bytesRead b + n < 2 ^ 61 ->
  base_ok (fc_addBytesRead n now b) /\ bytesRead (fc_addBytesRead n now b) = bytesRead b + n /\
  highestReceived (fc_addBytesRead n now b) = highestReceived b /\
  fc_config (fc_addBytesRead n now b) = fc_config b.
Proof.
  intros Hb Hn Hm. unfold fc_addBytesRead. destruct (bytesRead b =? 0); fc_unfold;
    rewrite i64_small by int_range; fc_solve.
Qed.

Lemma setHighest_ok v b :
  base_ok b -> highestReceived b <= v <= receiveWindow b -> base_ok (fc_setHighest v b).
Proof. fc_unfold. lia. Qed.

Lemma maybeAdjustWindowSize_ok r now b :
  base_ok b ->
  let b' := maybeAdjustWindowSize r now b in
  base_ok b' /\ recv_same b b' /\ receiveWindow b' = receiveWindow b /\
  receiveWindowSize b <= receiveWindowSize b'.
Proof.
  intros Hb. unfold maybeAdjustWindowSize. cbv zeta.
  destruct (_ <=? _); [fc_solve|]. destruct (_ =? 0); [fc_solve|].
  destruct (_ <? epochDuration _ _ _); [|fc_solve].
  rewrite i64_small by (fc_unfold; int_range).
  destruct (Z.ltb_spec (receiveWindowSize b)
    (Z.min (2 * receiveWindowSize b) (maxReceiveWindowSize b))) as [Hlt|]; [|fc_solve].
  destruct (windowAllowed _ _); fc_solve.
Qed.

Lemma getWindowUpdate_ok r now b :
  base_ok b ->
  let '(v, b') := getWindowUpdate r now b in
  base_ok b' /\ recv_same b b' /\ receiveWindow b <= receiveWindow b' /\
  receiveWindowSize b <= receiveWindowSize b' /\
  ((v = 0 /\ hasWindowUpdate b = false /\ b' = b) \/
   (v = receiveWindow b' /\ hasWindowUpdate b = true /\ v = bytesRead b + receiveWindowSize b')).
Proof.
  intros Hb. unfold getWindowUpdate. destruct (hasWindowUpdate b) eqn:Eu; cbn [negb].
  - destruct (maybeAdjustWindowSize_ok r now b Hb) as (Ho & Hs & Hw & Hz).
    set (b' := maybeAdjustWindowSize r now b) in *. clearbody b'.
    rewrite i64_small by (fc_unfold; int_range).
    split; [fc_solve|]. split; [done|]. split; [fc_solve|]. split; [done|].
    right. fc_solve.
  - split; [done|]. split; [done|]. split; [lia|]. split; [lia|]. by left.
Qed.

(** ** Bounds of the connection *)

Lemma conn_AddBytesRead_ok n now c :
  base_ok (connBase c) -> 0 <= n <= unread (connBase c) -> bytesRead (connBase c) + n < 2 ^ 61 ->
  let c' := conn_AddBytesRead n now c in
  base_ok (connBase c') /\ bytesRead (connBase c') = bytesRead (connBase c) + n /\
  highestReceived (connBase c') = highestReceived (connBase c) /\
  fc_config (connBase c') = fc_config (connBase c).
Proof.
  intros Hb Hn Hm. unfold conn_AddBytesRead. cbv zeta.
  by destruct (hasWindowUpdate _); apply addBytesRead_ok.
Qed.

Lemma EnsureMinimumWindowSize_ok inc now c (E : GoError -> connectionFlowController -> Prop) :
  base_ok (connBase c) -> is_Some (allowWindowIncrease (connBase c)) ->
  wp (EnsureMinimumWindowSize inc now)
    (fun _ c' => base_ok (connBase c') /\ recv_same (connBase c) (connBase c')) E c.
Proof.
  intros Hb [allow Ha]. unfold wp, EnsureMinimumWindowSize. destruct (_ <? inc) eqn:Ei; [|done].
  apply Z.ltb_lt in Ei.
  set (newSize := Z.min inc (maxReceiveWindowSize (connBase c))).
  rewrite i64_small by (fc_unfold; int_range).
  destruct (Z.ltb_spec 0 (newSize - receiveWindowSize (connBase c))) as [Hd|Hd]; [|done].
  rewrite Ha. cbn [connBase conn_set]. destruct (allow _); [|done]. split; [|done].
  apply startNewAutoTuningEpoch_ok, setWindowSize_ok; [done|lia].
Qed.

Lemma wp_onConn {T} (m : stM connectionFlowController T) (Q : T -> _ -> Prop) E s c :
  wp m (fun x c' => Q x (s, c')) (fun e c' => E e (s, c')) c -> wp (onConn m) Q E (s, c).
Proof. unfold wp, onConn. cbn. by destruct (m c) as [[]]. Qed.

(** ** Several streams that share the connection's window *)

Abbreviation fcSystem := (gmap Z streamFlowController * connectionFlowController)%type.

(** The received bytes of all streams that were not read yet. *)
Definition buffered (m : gmap Z streamFlowController) : Z :=
  map_fold (fun _ s n => unread (strBase s) + n) 0 m.

Lemma buffered_insert m id s :
  m !! id = None -> buffered (<[id := s]> m) = unread (strBase s) + buffered m.
Proof. intros Hm. unfold buffered. rewrite map_fold_insert_L; [done| |done]. intros. lia. Qed.

Lemma buffered_delete m id s :
  m !! id = Some s -> buffered m = unread (strBase s) + buffered (delete id m).
Proof. intros Hm. unfold buffered. rewrite (map_fold_delete_L _ _ id s m); [done| |done]. intros. lia. Qed.

Lemma buffered_update m id s s' :
  m !! id = Some s -> buffered (<[id := s']> m) = buffered m - unread (strBase s) + unread (strBase s').
Proof.
  intros Hm. rewrite <- insert_delete_eq, buffered_insert by apply lookup_delete_eq.
  rewrite (buffered_delete m id s Hm). lia.
Qed.

(** ** Receiving data *)

(** The offset is consistent with the final size of the stream. *)
Definition final_ok (s : streamFlowController) (offset : Z) (final : bool) : Prop :=
  let highest := highestReceived (strBase s) in
  (receivedFinalOffset s = true -> offset <= highest /\ (final = true -> offset = highest)) /\
  (final = true -> highest <= offset).

(** The offset is within the windows of the stream and of the connection. *)
Definition fits (s : streamFlowController) (c : connectionFlowController) (offset : Z) : Prop :=
  let highest := highestReceived (strBase s) in
  offset <= highest \/
  (offset <= receiveWindow (strBase s) /\
   highestReceived (connBase c) + (offset - highest) <= receiveWindow (connBase c)).

Definition final_errors : list GoError := [errInconsistentFinal; errBeyondFinal; errFinalTooLow].
Definition flow_control_errors : list GoError := [errStreamFlowControl; errConnFlowControl].

Definition received_ok s c (offset : Z) (final : bool)
    (sc : streamFlowController * connectionFlowController) : Prop :=
  let increment := Z.max 0 (offset - highestReceived (strBase s)) in
  let b := str_setFinal (receivedFinalOffset s || final)
    (str_set (fc_setHighest (highestReceived (strBase s) + increment) (strBase s)) s) in
  sc.1 = b /\
  sc.2 = conn_set (fc_setHighest (highestReceived (connBase c) + increment) (connBase c)) c /\
  base_ok (strBase sc.1) /\ base_ok (connBase sc.2).

Lemma received_ok_same s c offset final :
  base_ok (strBase s) -> base_ok (connBase c) -> offset <= highestReceived (strBase s) ->
  received_ok s c offset final (str_setFinal (receivedFinalOffset s || final) s, c).
Proof.
  intros Hs Hc Ho. unfold received_ok. cbv zeta. rewrite Z.max_l by lia. rewrite !Z.add_0_r.
  destruct s as [[] ? ?], c as [[] ?]. done.
Qed.

Lemma wp_UpdateHighestReceived s c offset final :
  base_ok (strBase s) -> base_ok (connBase c) -> 0 <= offset < 2 ^ 62 ->
  wp (UpdateHighestReceived offset final)
    (fun _ sc => final_ok s offset final /\ fits s c offset /\ received_ok s c offset final sc)
    (fun e _ => (e ∈ final_errors /\ ~ final_ok s offset final) \/
                (e ∈ flow_control_errors /\ final_ok s offset final /\ ~ fits s c offset)) (s, c).
Proof.
  intros Hs Hc Ho. apply wp_bind, wp_get. cbn [fst].
  unfold final_ok, fits. cbv zeta. set (highest := highestReceived (strBase s)).
  destruct (receivedFinalOffset s && final && negb (offset =? highest)) eqn:E1.
  { apply andb_true_iff in E1 as [[E1 ->]%andb_true_iff E2]. left. split; [by left|].
    apply negb_true_iff, Z.eqb_neq in E2. intros [Hf _]. destruct (Hf E1). auto. }
  destruct (receivedFinalOffset s && (highest <? offset)) eqn:E2.
  { apply andb_true_iff in E2 as [E2 E3%Z.ltb_lt]. left. split; [right; by left|].
    intros [Hf _]. apply Hf in E2. lia. }
  assert (Hstate : wp (if final then modifyStream (str_setFinal true) else mret tt)
    (fun _ sc => sc = (str_setFinal (receivedFinalOffset s || final) s, c)) (fun _ _ => False) (s, c)).
  { destruct final; [apply wp_modify|apply wp_ret].
    - by rewrite orb_true_r.
    - rewrite orb_false_r. by destruct s. }
  apply wp_bind. eapply wp_mono; [| |exact Hstate]; [|done]. intros _ sc ->. clear Hstate.
  assert (Hfin : (final = true -> highest <= offset) ->
    (receivedFinalOffset s = true -> offset <= highest /\ (final = true -> offset = highest)) /\
    (final = true -> highest <= offset)).
  { intros Hf. split; [|done]. intros Hr. rewrite Hr in E1, E2. cbn [andb] in E1, E2.
    apply Z.ltb_ge in E2. split; [done|]. intros ->. specialize (Hf eq_refl). lia. }
  destruct (Z.eqb_spec offset highest) as [->|Hne].
  { apply wp_ret. split; [apply Hfin; lia|]. split; [left; lia|]. apply received_ok_same; [done..|lia]. }
  destruct (Z.leb_spec offset highest) as [Hle|Hgt].
  { destruct final.
    - left. split; [right; right; by left|]. intros [_ Hf]. specialize (Hf eq_refl). lia.
    - apply wp_ret. split; [by apply Hfin|]. split; [left; lia|]. apply received_ok_same; [done..|lia]. }
  apply wp_bind, wp_modify, wp_bind, wp_get. cbn [fst snd].
  unfold checkFlowControlViolation. cbn -[Z.add Z.sub].
  destruct (Z.ltb_spec (receiveWindow (strBase s)) offset) as [Hv|Hv].
  { right. split; [by left|]. split; [apply Hfin; lia|]. lia. }
  apply wp_onConn. unfold wp, IncrementHighestReceived.
  assert (0 <= highest < 2 ^ 62) by (subst highest; fc_unfold; lia).
  rewrite (i64_small (offset - highest)) by int_range.
  rewrite i64_small by (fc_unfold; int_range). unfold checkFlowControlViolation. cbn -[Z.add Z.sub].
  destruct (Z.ltb_spec (receiveWindow (connBase c)) (highestReceived (connBase c) + (offset - highest)))
    as [Hcv|Hcv].
  { right. split; [right; by left|]. split; [apply Hfin; lia|]. lia. }
  split; [apply Hfin; lia|]. split; [by right|].
  unfold received_ok. cbv zeta. fold highest. rewrite Z.max_r by lia.
  replace (highest + (offset - highest)) with offset by lia.
  split; [by destruct s as [[] ? ?]|]. split; [done|]. subst highest. split; cbn; apply setHighest_ok; done || lia.
Qed.

(** ** Reading, window updates and the end of a stream *)

(** A step of the pair that moves [n] bytes out of the buffer of the stream and
    of the connection. *)
Definition moved (n m : Z) (sc sc' : streamFlowController * connectionFlowController) : Prop :=
  base_ok (strBase sc'.1) /\ base_ok (connBase sc'.2) /\
  unread (strBase sc'.1) = unread (strBase sc.1) - n /\
  unread (connBase sc'.2) = unread (connBase sc.2) - m /\
  fc_config (connBase sc'.2) = fc_config (connBase sc.2).

Lemma moved_refl m s c : base_ok (strBase s) -> base_ok (connBase c) -> m = 0 -> moved 0 m (s, c) (s, c).
Proof.
  intros Hs Hc ->. split; [done|]. split; [done|]. cbn. split; [lia|]. split; [lia|done].
Qed.

Lemma wp_str_AddBytesRead s c n now E :
  base_ok (strBase s) -> base_ok (connBase c) -> 0 <= n <= unread (strBase s) ->
  n <= unread (connBase c) -> bytesRead (connBase c) + n < 2 ^ 61 ->
  bytesRead (strBase s) + n < 2 ^ 61 ->
  wp (str_AddBytesRead n now) (fun _ => moved n n (s, c)) E (s, c).
Proof.
  intros Hs Hc Hn Hnc Hb Hbs.
  destruct (addBytesRead_ok n now (strBase s) Hs Hn Hbs) as (S1 & S2 & S3 & _).
  assert (Hconn : forall c', connBase c' = connBase c ->
    moved n n (s, c) (str_set (fc_addBytesRead n now (strBase s)) s, conn_AddBytesRead n now c')).
  { intros c' Ec. rewrite <- Ec in Hc, Hnc, Hb.
    destruct (conn_AddBytesRead_ok n now c' Hc ltac:(lia) Hb) as (C1 & C2 & C3 & C4).
    unfold moved, unread. cbn [fst snd str_set strBase]. rewrite C2, C3, C4, S2, S3, Ec.
    split; [done|]. split; [done|]. split; [lia|]. split; [lia|done]. }
  apply wp_bind, wp_modify, wp_bind, wp_get, wp_bind.
  destruct (shouldQueueWindowUpdate _); [apply wp_modify|apply wp_ret]; apply wp_modify; by apply Hconn.
Qed.

Lemma wp_str_GetWindowUpdate s c r now E :
  base_ok (strBase s) -> base_ok (connBase c) -> is_Some (allowWindowIncrease (connBase c)) ->
  wp (str_GetWindowUpdate r now)
    (fun v sc => moved 0 0 (s, c) sc /\ receiveWindow (strBase s) <= receiveWindow (strBase sc.1) /\
       (receivedFinalOffset s = false -> hasWindowUpdate (strBase s) = true ->
        v = receiveWindow (strBase sc.1) /\
        bytesRead (strBase s) + receiveWindowSize (strBase s) <= v)) E (s, c).
Proof.
  intros Hs Hc Ha. apply wp_bind, wp_get. cbn [fst].
  destruct (receivedFinalOffset s) eqn:Ef.
  { apply wp_ret. split; [by apply moved_refl|]. split; [cbn; lia|done]. }
  pose proof (getWindowUpdate_ok r now (strBase s) Hs) as Hg.
  destruct (getWindowUpdate r now (strBase s)) as [v b]. destruct Hg as (Hb & Hsame & Hw & Hz & Hv).
  assert (Hpost : forall c', base_ok (connBase c') -> recv_same (connBase c) (connBase c') ->
    moved 0 0 (s, c) (str_set b s, c') /\
    receiveWindow (strBase s) <= receiveWindow (strBase (str_set b s, c').1) /\
    (false = false -> hasWindowUpdate (strBase s) = true ->
     v = receiveWindow (strBase (str_set b s, c').1) /\
     bytesRead (strBase s) + receiveWindowSize (strBase s) <= v)).
  { intros c' Hc' (C1 & C2 & C4). destruct Hsame as (S1 & S2 & _).
    split; [|split; [done|]].
    - split; [done|]. split; [done|]. unfold unread. cbn.
      rewrite C1, C2, C4, S1, S2. split; [lia|]. split; [lia|done].
    - intros _ Hu. destruct Hv as [(_ & Hu' & _)|(E1 & _ & E2)]; [by rewrite Hu in Hu'|].
      cbn. split; [done|]. lia. }
  apply wp_bind, wp_modify, wp_bind. destruct (_ <? _).
  - apply wp_onConn. eapply wp_mono; [| |by apply (EnsureMinimumWindowSize_ok _ now c (fun _ _ => False))];
      [|done]. intros _ c' [Hc' Hr]. apply wp_ret. by apply Hpost.
  - apply wp_ret, wp_ret. by apply Hpost.
Qed.

Lemma wp_Abandon s c now E :
  base_ok (strBase s) -> base_ok (connBase c) -> unread (strBase s) <= unread (connBase c) ->
  bytesRead (connBase c) + unread (strBase s) < 2 ^ 61 ->
  wp (Abandon now) (fun _ => moved 0 (unread (strBase s)) (s, c)) E (s, c).
Proof.
  intros Hs Hc Hu Hb. apply wp_bind, wp_get. cbn [fst].
  change (highestReceived (strBase s) - bytesRead (strBase s)) with (unread (strBase s)).
  pose proof (base_ok_unread _ Hs). rewrite i64_small by (unfold base_ok, fc_max in Hs; int_range).
  destruct (Z.ltb_spec 0 (unread (strBase s))).
  - apply wp_modify.
    destruct (conn_AddBytesRead_ok (unread (strBase s)) now c Hc ltac:(lia) Hb) as (C1 & C2 & C3 & C4).
    unfold moved. cbn [fst snd]. split; [done|]. split; [done|]. split; [lia|].
    split; [|done]. unfold unread in *. lia.
  - apply wp_ret, moved_refl; [done..|lia].
Qed.

(** The streams and the connection: streams are opened, STREAM and RESET_STREAM
    frames raise the highest received offset, the application reads what was
    received, window updates are sent, and a stream that is done is removed
    ([Abandon] credits what was not read).  An error closes the connection, so
    only calls that succeed are steps.  [small] keeps the totals below 2^61 bytes. *)
Definition small (s : streamFlowController) (c : connectionFlowController) : Prop :=
  highestReceived (strBase s) < 2 ^ 61 /\ highestReceived (connBase c) < 2 ^ 61.

Inductive fc_step : fcSystem -> fcSystem -> Prop :=
  | step_open m c id window maxWindow sendWin :
      m !! id = None -> 0 <= window <= maxWindow -> maxWindow <= fc_max ->
      fc_step (m, c) (<[id := NewStreamFlowController id window maxWindow sendWin]> m, c)
  | step_receive m c id s offset final s' c' :
      m !! id = Some s -> 0 <= offset < 2 ^ 62 ->
      UpdateHighestReceived offset final (s, c) = (Ok tt, (s', c')) ->
      fc_step (m, c) (<[id := s']> m, c')
  | step_read m c id s n now s' c' :
      m !! id = Some s -> 0 <= n <= unread (strBase s) -> small s c ->
      str_AddBytesRead n now (s, c) = (Ok tt, (s', c')) ->
      fc_step (m, c) (<[id := s']> m, c')
  | step_update m c id s r now v s' c' :
      m !! id = Some s -> str_GetWindowUpdate r now (s, c) = (Ok v, (s', c')) ->
      fc_step (m, c) (<[id := s']> m, c')
  | step_conn_update m c r now :
      fc_step (m, c) (m, (conn_GetWindowUpdate r now c).2)
  | step_done m c id s now s' c' :
      m !! id = Some s -> small s c -> Abandon now (s, c) = (Ok tt, (s', c')) ->
      fc_step (m, c) (delete id m, c').

Definition sys_inv (maxWindow : Z) (sys : fcSystem) : Prop :=
  let (m, c) := sys in
  base_ok (connBase c) /\ is_Some (allowWindowIncrease (connBase c)) /\
  maxReceiveWindowSize (connBase c) = maxWindow /\
  map_Forall (fun _ s => base_ok (strBase s)) m /\ buffered m = unread (connBase c).

Lemma buffered_nonneg m : map_Forall (fun _ s => base_ok (strBase s)) m -> 0 <= buffered m.
Proof.
  induction m as [|id s m Hm IH] using map_ind; intros Hall; [done|].
  apply map_Forall_insert in Hall as [Hs Hall]; [|done]. rewrite buffered_insert by done.
  pose proof (base_ok_unread _ Hs). specialize (IH Hall). lia.
Qed.

Lemma buffered_ge m id s :
  map_Forall (fun _ s => base_ok (strBase s)) m -> m !! id = Some s -> unread (strBase s) <= buffered m.
Proof.
  intros Hall Hm. rewrite (buffered_delete m id s Hm).
  pose proof (buffered_nonneg (delete id m)) as Hn. specialize (Hn (map_Forall_delete _ _ _ Hall)). lia.
Qed.

Lemma config_allow b b' :
  fc_config b' = fc_config b -> is_Some (allowWindowIncrease b) -> is_Some (allowWindowIncrease b').
Proof. unfold fc_config. intros [= _ ->]. done. Qed.

(** A stream is updated by a step that moves bytes. *)
Lemma sys_inv_moved maxW m c id s n s' c' :
  sys_inv maxW (m, c) -> m !! id = Some s -> moved n n (s, c) (s', c') -> sys_inv maxW (<[id := s']> m, c').
Proof.
  intros (Hc & Ha & Hx & Hall & Hsum) Hm (Hs' & Hc' & U1 & U2 & Hcfg). cbn [fst snd] in *.
  split; [done|]. split; [by eapply config_allow|].
  split; [unfold fc_config in Hcfg; congruence|]. split; [by apply map_Forall_insert_2|].
  rewrite (buffered_update m id s s' Hm). lia.
Qed.

Lemma wp_result {S A} (m : stM S A) Q E s a s' : wp m Q E s -> m s = (Ok a, s') -> Q a s'.
Proof. unfold wp. intros Hw Em. by rewrite Em in Hw. Qed.

Lemma fc_step_inv maxW sys sys' : sys_inv maxW sys -> fc_step sys sys' -> sys_inv maxW sys'.
Proof.
  intros Hinv Hstep. pose proof Hinv as Hinv'.
  destruct Hstep as [m c id w mw sw Hm Hw Hmw|m c id s off fin s' c' Hm Ho E|m c id s n now s' c' Hm Hn Hsm E
    |m c id s r now v s' c' Hm E|m c r now|m c id s now s' c' Hm Hsm E];
    destruct Hinv' as (Hc & Ha & Hx & Hall & Hsum).
  - split; [done|]. split; [done|]. split; [done|]. split.
    + apply map_Forall_insert_2; [|done]. unfold fc_max in *. fc_unfold. lia.
    + rewrite buffered_insert by done. unfold unread at 1. cbn [strBase NewStreamFlowController]. cbn [highestReceived bytesRead]. lia.
  - pose proof (Hall _ _ Hm) as Hs. cbn in Hs.
    destruct (wp_result _ _ _ _ _ _ (wp_UpdateHighestReceived s c off fin Hs Hc Ho) E)
      as (_ & _ & E1 & E2 & B1 & B2). cbn [fst snd] in *.
    split; [done|]. split; [by rewrite E2|]. split; [by rewrite E2|].
    split; [by apply map_Forall_insert_2|]. rewrite (buffered_update m id s s' Hm), Hsum, E1, E2.
    unfold unread. cbn. lia.
  - pose proof (Hall _ _ Hm) as Hs. cbn in Hs. pose proof (buffered_ge m id s Hall Hm).
    destruct Hsm. eapply sys_inv_moved; [exact Hinv|exact Hm|].
    eapply (wp_result _ (fun _ => moved n n (s, c)) (fun _ _ => False)); [|exact E].
    apply wp_str_AddBytesRead; try done; unfold unread in *; lia.
  - pose proof (Hall _ _ Hm) as Hs. cbn in Hs. eapply sys_inv_moved; [exact Hinv|exact Hm|].
    by destruct (wp_result _ _ _ _ _ _ (wp_str_GetWindowUpdate s c r now (fun _ _ => False) Hs Hc Ha) E).
  - unfold conn_GetWindowUpdate. pose proof (getWindowUpdate_ok r now (connBase c) Hc) as Hg.
    destruct (getWindowUpdate r now (connBase c)) as [v b]. destruct Hg as (Hb & (S1 & S2 & S3) & _).
    cbn [snd]. split; [done|]. split; [by eapply config_allow|].
    split; [unfold fc_config in S3; cbn; congruence|].
    split; [done|]. unfold unread in *. cbn. lia.
  - pose proof (Hall _ _ Hm) as Hs. cbn in Hs. pose proof (buffered_ge m id s Hall Hm). destruct Hsm.
    assert (moved 0 (unread (strBase s)) (s, c) (s', c')) as (_ & Hc' & _ & U2 & Hcfg).
    { eapply (wp_result _ (fun _ => moved 0 _ (s, c)) (fun _ _ => False)); [|exact E].
      apply wp_Abandon; try done; unfold unread in *; lia. }
    cbn [fst snd] in *. split; [done|]. split; [by eapply config_allow|].
    split; [unfold fc_config in Hcfg; congruence|]. split; [by apply map_Forall_delete|].
    rewrite (buffered_delete m id s Hm) in Hsum. lia.
Qed.

(** ** Theorems *)

(** C21: Flow control bounds what the peer can make the receiver buffer.  In
    every reachable state of a connection and its streams, the bytes received on
    all streams but not yet read are exactly the difference of the connection's
    counters, and never more than the maximum receive window of the connection;
    every stream stays within its own window and maximum. *)
Theorem fc_buffer_bounded window maxWindow allow m c :
  0 <= window <= maxWindow -> maxWindow <= fc_max ->
  rtc fc_step (∅, NewConnectionFlowController window maxWindow (Some allow)) (m, c) ->
  buffered m = highestReceived (connBase c) - bytesRead (connBase c) /\
  0 <= buffered m <= maxWindow /\ highestReceived (connBase c) <= receiveWindow (connBase c) /\
  forall id s, m !! id = Some s ->
    highestReceived (strBase s) <= receiveWindow (strBase s) /\
    0 <= unread (strBase s) <= maxReceiveWindowSize (strBase s).
Proof.
  intros Hw Hmw Hr.
  assert (Hinv : sys_inv maxWindow (m, c)).
  { eapply (rtc_ind_r (fun sys => sys_inv maxWindow sys)); [|intros; by eapply fc_step_inv|exact Hr].
    split; [unfold fc_max in *; fc_unfold; lia|]. split; [by eexists|]. split; [done|].
    split; [apply map_Forall_empty|done]. }
  destruct Hinv as (Hc & _ & Hx & Hall & Hsum). pose proof (base_ok_unread _ Hc).
  split; [done|]. split; [rewrite Hsum; fc_unfold; lia|]. split; [fc_unfold; lia|].
  intros id s Hm. specialize (Hall id s Hm). cbn in Hall. fc_unfold. lia.
Qed.

(** [UpdateHighestReceived] accepts an offset exactly if it is consistent
    with the final size of the stream and within the windows of the stream and
    of the connection; it then raises both counters by the same amount.  A final
    size violation and a flow control violation are told apart, and it never
    panics. *)
Theorem fc_UpdateHighestReceived_decides s c offset final :
  base_ok (strBase s) -> base_ok (connBase c) -> 0 <= offset < 2 ^ 62 ->
  match UpdateHighestReceived offset final (s, c) with
  | (Ok _, sc) => final_ok s offset final /\ fits s c offset /\ received_ok s c offset final sc
  | (Err e, _) => (e ∈ final_errors /\ ~ final_ok s offset final) \/
                  (e ∈ flow_control_errors /\ final_ok s offset final /\ ~ fits s c offset)
  | (Panic _, _) => False
  end.
Proof. exact (wp_UpdateHighestReceived s c offset final). Qed.

(** ** Window updates *)

(** For windows below 2^51 bytes the floating-point threshold is exact. *)
Lemma updateThreshold_exact b :
  0 <= receiveWindowSize b < 2 ^ 51 -> updateThreshold b = 3 * receiveWindowSize b / 4.
Proof.
  intros Hs. unfold updateThreshold, prec64. rewrite fofint_exact by lia.
  rewrite fmul_exact by (cbn [fm]; lia). cbn [fm fe]. change (0 + -2) with (- (2)).
  rewrite ftrunc_neg_exp by lia. change (2 ^ 2) with 4.
  rewrite toint64_small by (pose proof (Z.div_pos (receiveWindowSize b * 3) 4);
    pose proof (Z.div_le_upper_bound (receiveWindowSize b * 3) 4 (2 ^ 53)); int_range).
  f_equal. lia.
Qed.

Lemma hasWindowUpdate_spec b :
  base_ok b -> receiveWindowSize b < 2 ^ 51 ->
  hasWindowUpdate b = (receiveWindow b - bytesRead b <=? 3 * receiveWindowSize b / 4).
Proof.
  intros Hb Hs. unfold hasWindowUpdate. rewrite updateThreshold_exact by (fc_unfold; lia).
  rewrite i64_small by (fc_unfold; int_range). done.
Qed.

Lemma str_GetWindowUpdate_none s c r now :
  hasWindowUpdate (strBase s) = false -> str_GetWindowUpdate r now (s, c) = (Ok 0, (s, c)).
Proof.
  intros Hu. unfold str_GetWindowUpdate. rewrite (stM_bind_ok get _ (s, c) (s, c) (s, c)) by done.
  cbn [fst]. destruct (receivedFinalOffset s); [done|]. unfold getWindowUpdate. rewrite Hu. cbn [negb].
  unfold modifyStream. rewrite (stM_bind_ok (modify _) _ (s, c) (s, c) tt) by by destruct s.
  by rewrite Z.ltb_irrefl.
Qed.

(** The peer is never left without credit.  While the final size is
    unknown, [GetWindowUpdate] always returns: as soon as a quarter of the
    stream's window was consumed it advertises a strictly larger offset, at
    least a full window above what was read; before that it returns 0 and
    changes nothing. *)
Theorem fc_window_update_progress s c r now :
  base_ok (strBase s) -> base_ok (connBase c) -> is_Some (allowWindowIncrease (connBase c)) ->
  receivedFinalOffset s = false -> 0 < receiveWindowSize (strBase s) < 2 ^ 51 ->
  exists v sc, str_GetWindowUpdate r now (s, c) = (Ok v, sc) /\
    if receiveWindow (strBase s) - bytesRead (strBase s) <=? 3 * receiveWindowSize (strBase s) / 4
    then v = receiveWindow (strBase sc.1) /\ receiveWindow (strBase s) < v /\
         bytesRead (strBase s) + receiveWindowSize (strBase s) <= v
    else v = 0 /\ sc = (s, c).
Proof.
  intros Hs Hc Ha Hf Hz. rewrite <- hasWindowUpdate_spec by (done || lia).
  destruct (hasWindowUpdate (strBase s)) eqn:Eu; [|exists 0, (s, c); by rewrite str_GetWindowUpdate_none].
  pose proof (wp_str_GetWindowUpdate s c r now (fun _ _ => False) Hs Hc Ha) as Hw. unfold wp in Hw.
  destruct (str_GetWindowUpdate r now (s, c)) as [[v| |] sc]; [|done..]. exists v, sc. split; [done|].
  destruct Hw as (_ & _ & Hv). destruct (Hv Hf Eu) as [-> Hge]. split; [done|]. split; [|done].
  rewrite hasWindowUpdate_spec in Eu by (done || lia). apply Z.leb_le in Eu.
  pose proof (Z.div_lt_upper_bound (3 * receiveWindowSize (strBase s)) 4 (receiveWindowSize (strBase s))). lia.
Qed.

(** ** Sending *)

(** The sender respects the limit, and [reports] are the offsets at which
    [IsNewlyBlocked] reported it as blocked, the latest first. *)
Definition send_ok (b : baseFlowController) (reports : list Z) : Prop :=
  0 <= fcBytesSent b <= sendWindow b /\ sendWindow b < 2 ^ 62 /\ lastBlockedAt b <= sendWindow b /\
  Forall (fun x => x <= lastBlockedAt b) reports /\ StronglySorted (fun x y => y < x) reports.

Inductive send_op :=
  | OpSend (n : Z)
  | OpMaxStreamData (offset : Z)
  | OpMaxData (offset : Z)
  | OpStreamBlocked
  | OpDataBlocked.

(** The controllers, and the offsets of the STREAM_DATA_BLOCKED and DATA_BLOCKED
    frames sent so far. *)
Record send_state := mkSend {
  sndStream : streamFlowController;
  sndConn : connectionFlowController;
  streamReports : list Z;
  connReports : list Z
}.

(** A sender only sends what [SendWindowSize] allows. *)
Definition send_do (st : send_state) (o : send_op) : send_state :=
  let (s, c, rs, rc) := st in
  match o with
  | OpSend n =>
      if n <=? str_SendWindowSize (s, c) then
        let sc := (str_AddBytesSent n (s, c)).2 in mkSend sc.1 sc.2 rs rc
      else st
  | OpMaxStreamData offset => mkSend (str_set (UpdateSendWindow offset (strBase s)) s) c rs rc
  | OpMaxData offset => mkSend s (conn_set (UpdateSendWindow offset (connBase c)) c) rs rc
  | OpStreamBlocked =>
      let '(blocked, offset, b) := IsNewlyBlocked (strBase s) in
      mkSend (str_set b s) c (if blocked then offset :: rs else rs) rc
  | OpDataBlocked =>
      let '(blocked, offset, b) := IsNewlyBlocked (connBase c) in
      mkSend s (conn_set b c) rs (if blocked then offset :: rc else rc)
  end.

Definition send_op_valid (o : send_op) : Prop :=
  match o with
  | OpSend n => 0 <= n
  | OpMaxStreamData offset | OpMaxData offset => 0 <= offset < 2 ^ 62
  | _ => True
  end.

Lemma sendWindowSize_ok b reports :
  send_ok b reports -> sendWindowSize b = sendWindow b - fcBytesSent b.
Proof.
  intros (Hb & Hw & _). unfold sendWindowSize. zfalse (sendWindow b <? fcBytesSent b).
  apply i64_small. int_range.
Qed.

Lemma AddBytesSent_ok n b reports :
  send_ok b reports -> 0 <= n <= sendWindowSize b -> send_ok (fc_AddBytesSent n b) reports.
Proof.
  intros Hb Hn. rewrite (sendWindowSize_ok _ _ Hb) in Hn. destruct Hb as (Hb & Hw & Hrest).
  unfold fc_AddBytesSent. rewrite i64_small by int_range.
  split; [cbn; lia|]. by split.
Qed.

Lemma UpdateSendWindow_ok offset b reports :
  send_ok b reports -> 0 <= offset < 2 ^ 62 -> send_ok (UpdateSendWindow offset b) reports.
Proof.
  intros Hb Ho. unfold UpdateSendWindow. destruct (Z.ltb_spec (sendWindow b) offset); [|done].
  destruct Hb as (Hb & Hw & Hl & Hrest). split; [cbn; lia|]. split; [cbn; lia|]. split; [cbn; lia|done].
Qed.

Lemma IsNewlyBlocked_ok b reports :
  send_ok b reports ->
  let '(blocked, offset, b') := IsNewlyBlocked b in
  send_ok b' (if blocked then offset :: reports else reports) /\
  (blocked = true -> offset = sendWindow b /\ fcBytesSent b = offset).
Proof.
  intros Hb. pose proof (sendWindowSize_ok _ _ Hb) as Hs. unfold IsNewlyBlocked.
  destruct (Z.eqb_spec (sendWindowSize b) 0) as [E0|_]; [|done].
  destruct (Z.eqb_spec (sendWindow b) (lastBlockedAt b)) as [|Hne]; [done|]. cbn [negb orb].
  destruct Hb as (Hb & Hw & Hl & Hall & Hsort).
  split; [|intros _; cbn; lia]. split; [done|]. split; [done|]. split; [cbn; lia|].
  split; cbn.
  - constructor; [lia|]. eapply Forall_impl; [exact Hall|]. cbn. lia.
  - constructor; [done|]. eapply Forall_impl; [exact Hall|]. cbn. lia.
Qed.

Definition send_state_ok (st : send_state) : Prop :=
  send_ok (strBase (sndStream st)) (streamReports st) /\ send_ok (connBase (sndConn st)) (connReports st).

Lemma send_do_ok st o : send_state_ok st -> send_op_valid o -> send_state_ok (send_do st o).
Proof.
  destruct st as [s c rs rc], o as [n|off|off| |]; intros [Hs Hc] Hv; cbn in Hs, Hc, Hv |- *.
  - destruct (Z.leb_spec n (str_SendWindowSize (s, c))) as [Hn|]; [|done].
    unfold str_SendWindowSize, conn_SendWindowSize in Hn. cbn [fst snd] in Hn.
    split; [apply (AddBytesSent_ok n (strBase s))|apply (AddBytesSent_ok n (connBase c))]; done || lia.
  - split; [by apply UpdateSendWindow_ok|done].
  - split; [done|by apply UpdateSendWindow_ok].
  - pose proof (IsNewlyBlocked_ok _ _ Hs) as Hb.
    destruct (IsNewlyBlocked (strBase s)) as [[blocked off] b]. by destruct Hb.
  - pose proof (IsNewlyBlocked_ok _ _ Hc) as Hb.
    destruct (IsNewlyBlocked (connBase c)) as [[blocked off] b]. by destruct Hb.
Qed.

(** The sender never exceeds the peer's limits.  Whatever limits arrive,
    and however much the stream wants to send, as long as it sends at most
    [SendWindowSize] bytes at a time, the bytes sent on the stream and on the
    connection are within the limits of both; the offsets reported in
    STREAM_DATA_BLOCKED and DATA_BLOCKED frames are strictly increasing, so no
    offset is reported twice. *)
Theorem fc_send_within_limits id window maxWindow initial connWindow connMax allow os :
  0 <= initial < 2 ^ 62 -> Forall send_op_valid os ->
  let st := foldl send_do
    (mkSend (NewStreamFlowController id window maxWindow initial)
            (NewConnectionFlowController connWindow connMax allow) [] []) os in
  fcBytesSent (strBase (sndStream st)) <= sendWindow (strBase (sndStream st)) /\
  fcBytesSent (connBase (sndConn st)) <= sendWindow (connBase (sndConn st)) /\
  StronglySorted (fun x y => y < x) (streamReports st) /\
  StronglySorted (fun x y => y < x) (connReports st).
Proof.
  intros Hi Hall. cbv zeta.
  assert (Hok : forall st, send_state_ok st -> send_state_ok (foldl send_do st os)).
  { clear Hi. induction Hall as [|o os Ho _ IH]; intros st Hst; [done|]. by apply IH, send_do_ok. }
  destruct (Hok (mkSend (NewStreamFlowController id window maxWindow initial)
            (NewConnectionFlowController connWindow connMax allow) [] [])) as [Hs Hc].
  { split; split; cbn; try lia; split_and!; try lia; constructor. }
  destruct Hs as ([_ Hs] & _ & _ & _ & Hss), Hc as ([_ Hc] & _ & _ & _ & Hcs).
  split; [exact Hs|]. split; [exact Hc|]. split; [exact Hss|exact Hcs].
Qed.

(** ** Concrete runs *)

Definition ex_conn : connectionFlowController := NewConnectionFlowController 1000 3000 (Some (fun _ => true)).
Definition ex_stream : streamFlowController := NewStreamFlowController 4 600 2000 500.

Lemma fc_buffer_bounded_witness :
  exists m c, rtc fc_step (∅, ex_conn) (m, c) /\ 0 <= buffered m <= 3000 /\
    highestReceived (connBase c) = 500.
Proof.
  set (sc1 := (UpdateHighestReceived 500 false (ex_stream, ex_conn)).2).
  set (sc2 := (str_AddBytesRead 200 7 sc1).2).
  assert (Hr : rtc fc_step (∅, ex_conn)
    (<[4 := sc2.1]> (<[4 := sc1.1]> (<[4 := ex_stream]> ∅)), sc2.2)).
  { apply (rtc_l _ _ (<[4 := ex_stream]> ∅, ex_conn)).
    { apply step_open; [reflexivity|lia|vm_compute; discriminate]. }
    apply (rtc_l _ _ (<[4 := sc1.1]> (<[4 := ex_stream]> ∅), sc1.2)).
    { apply (step_receive _ _ _ ex_stream 500 false); [reflexivity|lia|reflexivity]. }
    apply rtc_once, (step_read _ _ _ sc1.1 200 7); [reflexivity| |split; reflexivity|reflexivity].
    vm_compute. split; discriminate. }
  eexists _, _. split; [exact Hr|].
  destruct (fc_buffer_bounded 1000 3000 (fun _ => true) _ _ ltac:(lia) ltac:(vm_compute; discriminate) Hr)
    as (_ & Hb & _).
  split; [exact Hb|reflexivity].
Defined.

Lemma ex_stream_ok : base_ok (strBase ex_stream).
Proof. fc_unfold. lia. Qed.
Lemma ex_conn_ok : base_ok (connBase ex_conn).
Proof. fc_unfold. lia. Qed.

Lemma fc_UpdateHighestReceived_decides_witness :
  fits ex_stream ex_conn 600 /\
  (UpdateHighestReceived 601 false (ex_stream, ex_conn)).1 = Err errStreamFlowControl.
Proof.
  pose proof (fc_UpdateHighestReceived_decides ex_stream ex_conn 600 false ex_stream_ok ex_conn_ok
    ltac:(lia)) as H.
  assert (E : (UpdateHighestReceived 600 false (ex_stream, ex_conn)).1 = Ok tt) by reflexivity.
  destruct (UpdateHighestReceived 600 false (ex_stream, ex_conn)) as [[]]; try discriminate.
  split; [apply H|reflexivity].
Defined.

(** The stream after 500 bytes arrived and 200 were read. *)
Definition ex_read : streamFlowController * connectionFlowController :=
  (str_AddBytesRead 200 7 (UpdateHighestReceived 500 false (ex_stream, ex_conn)).2).2.

Lemma fc_window_update_progress_witness :
  exists v sc, str_GetWindowUpdate NewRTTStats 9 (ex_read.1, ex_read.2) = (Ok v, sc) /\ 800 <= v.
Proof.
  destruct (fc_window_update_progress ex_read.1 ex_read.2 NewRTTStats 9) as (v & sc & E & Hv).
  - vm_compute. intuition discriminate.
  - vm_compute. intuition discriminate.
  - eexists. reflexivity.
  - reflexivity.
  - vm_compute. split; reflexivity.
  - exists v, sc. split; [exact E|].
    assert (Ec : (receiveWindow (strBase ex_read.1) - bytesRead (strBase ex_read.1)
      <=? 3 * receiveWindowSize (strBase ex_read.1) / 4) = true) by (vm_compute; reflexivity).
    rewrite Ec in Hv. destruct Hv as (_ & _ & Hv).
    etransitivity; [|exact Hv]. vm_compute. discriminate.
Defined.

Lemma fc_send_within_limits_witness :
  let st := foldl send_do (mkSend ex_stream ex_conn [] [])
    [OpMaxData 700; OpSend 500; OpStreamBlocked; OpMaxStreamData 900; OpSend 200; OpDataBlocked] in
  fcBytesSent (connBase (sndConn st)) <= sendWindow (connBase (sndConn st)) /\
  streamReports st = [500] /\ connReports st = [700].
Proof.
  destruct (fc_send_within_limits 4 600 2000 500 1000 3000 (Some (fun _ => true))
    [OpMaxData 700; OpSend 500; OpStreamBlocked; OpMaxStreamData 900; OpSend 200; OpDataBlocked])
    as (_ & H & _).
  - lia.
  - repeat constructor; vm_compute; congruence.
  - split; [exact H|]. split; reflexivity.
Defined.
