(* ===== verification/Frames.v ===== *)
(** * Frames: the frames of QUIC other than ACK

    Models internal/wire/*_frame.go: for every frame its struct, its parser
    (which runs after the frame type was read) and its [Append] and [Length].
    [protocol.ReadConnectionID] is in internal/protocol/connection_id.go.  The
    buffers of STREAM frames come from a pool whose slices have the capacity
    [MaxPacketBufferSize]. *)

From S2P Require Import Prelude Protocol Varint AckFrame.
From stdpp Require Import base numbers list option strings.
From Stdlib Require Import ZArith Lia.
#[local] Open Scope Z_scope.

(** ** Frame types *)

Definition pingFrameType : Z := 0x1.
Definition resetStreamFrameType : Z := 0x4.
Definition stopSendingFrameType : Z := 0x5.
Definition cryptoFrameType : Z := 0x6.
Definition newTokenFrameType : Z := 0x7.
Definition maxDataFrameType : Z := 0x10.
Definition maxStreamDataFrameType : Z := 0x11.
Definition bidiMaxStreamsFrameType : Z := 0x12.
Definition uniMaxStreamsFrameType : Z := 0x13.
Definition dataBlockedFrameType : Z := 0x14.
Definition streamDataBlockedFrameType : Z := 0x15.
Definition bidiStreamBlockedFrameType : Z := 0x16.
Definition uniStreamBlockedFrameType : Z := 0x17.
Definition newConnectionIDFrameType : Z := 0x18.
Definition retireConnectionIDFrameType : Z := 0x19.
Definition pathChallengeFrameType : Z := 0x1a.
Definition pathResponseFrameType : Z := 0x1b.
Definition connectionCloseFrameType : Z := 0x1c.
Definition applicationCloseFrameType : Z := 0x1d.
Definition handshakeDoneFrameType : Z := 0x1e.

(** The interface [wire.Frame]. *)
Class WireFrame (F : Type) := {
  frame_Append : bytes -> F -> res bytes;
  frame_Length : F -> res Z
}.

(** Append the integers in order; add up their lengths. *)
Fixpoint appendVarints (b : bytes) (vs : list Z) : res bytes :=
  match vs with
  | [] => Ok b
  | i :: vs' => b ← varint_Append b i; appendVarints b vs'
  end.

Fixpoint lenVarints (n : Z) (vs : list Z) : res Z :=
  match vs with
  | [] => Ok n
  | i :: vs' => l ← varint_Len i; lenVarints (n + l) vs'
  end.

(** ** Frames made of integers *)

Record ResetStreamFrame := mkResetStream { rsStreamID : Z; rsErrorCode : Z; rsFinalSize : Z }.

Definition parseResetStreamFrame : parser ResetStreamFrame :=
  sid ← varint_Read; errorCode ← varint_Read; bo ← varint_Read;
  mret (mkResetStream (i64 sid) errorCode (i64 bo)).

#[export] Instance ResetStream_frame : WireFrame ResetStreamFrame := {
  frame_Append b f := appendVarints (b ++ [resetStreamFrameType])
    [u64 (rsStreamID f); rsErrorCode f; u64 (rsFinalSize f)];
  frame_Length f := lenVarints 1 [u64 (rsStreamID f); rsErrorCode f; u64 (rsFinalSize f)]
}.

Record StopSendingFrame := mkStopSending { ssStreamID : Z; ssErrorCode : Z }.

Definition parseStopSendingFrame : parser StopSendingFrame :=
  streamID ← varint_Read; errorCode ← varint_Read; mret (mkStopSending (i64 streamID) errorCode).

#[export] Instance StopSending_frame : WireFrame StopSendingFrame := {
  frame_Append b f := appendVarints (b ++ [stopSendingFrameType]) [u64 (ssStreamID f); ssErrorCode f];
  frame_Length f := lenVarints 1 [u64 (ssStreamID f); ssErrorCode f]
}.

Record MaxDataFrame := mkMaxData { mdMaximumData : Z }.

Definition parseMaxDataFrame : parser MaxDataFrame :=
  byteOffset ← varint_Read; mret (mkMaxData (i64 byteOffset)).

#[export] Instance MaxData_frame : WireFrame MaxDataFrame := {
  frame_Append b f := appendVarints (b ++ [maxDataFrameType]) [u64 (mdMaximumData f)];
  frame_Length f := lenVarints 1 [u64 (mdMaximumData f)]
}.

Record MaxStreamDataFrame := mkMaxStreamData { msdStreamID : Z; msdMaximum : Z }.

Definition parseMaxStreamDataFrame : parser MaxStreamDataFrame :=
  sid ← varint_Read; offset ← varint_Read; mret (mkMaxStreamData (i64 sid) (i64 offset)).

#[export] Instance MaxStreamData_frame : WireFrame MaxStreamDataFrame := {
  frame_Append b f := appendVarints (b ++ [maxStreamDataFrameType]) [u64 (msdStreamID f); u64 (msdMaximum f)];
  frame_Length f := lenVarints 1 [u64 (msdStreamID f); u64 (msdMaximum f)]
}.

Definition errStreamCount : GoError := ErrorString "%d exceeds the maximum stream count".

Record MaxStreamsFrame := mkMaxStreams { msType : StreamType; msMaxStreamNum : Z }.

Definition parseMaxStreamsFrame (typ : Z) : parser MaxStreamsFrame :=
  let t := if typ =? bidiMaxStreamsFrameType then StreamTypeBidi else StreamTypeUni in
  streamID ← varint_Read;
  if MaxStreamCount <? i64 streamID then fail errStreamCount else mret (mkMaxStreams t (i64 streamID)).

Definition maxStreamsType (f : MaxStreamsFrame) : Z :=
  match msType f with StreamTypeBidi => bidiMaxStreamsFrameType | StreamTypeUni => uniMaxStreamsFrameType end.

#[export] Instance MaxStreams_frame : WireFrame MaxStreamsFrame := {
  frame_Append b f := appendVarints (b ++ [maxStreamsType f]) [u64 (msMaxStreamNum f)];
  frame_Length f := lenVarints 1 [u64 (msMaxStreamNum f)]
}.

Record DataBlockedFrame := mkDataBlocked { dbMaximumData : Z }.

Definition parseDataBlockedFrame : parser DataBlockedFrame :=
  offset ← varint_Read; mret (mkDataBlocked (i64 offset)).

#[export] Instance DataBlocked_frame : WireFrame DataBlockedFrame := {
  frame_Append b f := appendVarints (b ++ [dataBlockedFrameType]) [u64 (dbMaximumData f)];
  frame_Length f := lenVarints 1 [u64 (dbMaximumData f)]
}.

Record StreamDataBlockedFrame := mkStreamDataBlocked { sdbStreamID : Z; sdbMaximum : Z }.

Definition parseStreamDataBlockedFrame : parser StreamDataBlockedFrame :=
  sid ← varint_Read; offset ← varint_Read; mret (mkStreamDataBlocked (i64 sid) (i64 offset)).

#[export] Instance StreamDataBlocked_frame : WireFrame StreamDataBlockedFrame := {
  frame_Append b f := appendVarints (b ++ [0x15]) [u64 (sdbStreamID f); u64 (sdbMaximum f)];
  frame_Length f := lenVarints 1 [u64 (sdbStreamID f); u64 (sdbMaximum f)]
}.

Record StreamsBlockedFrame := mkStreamsBlocked { sbType : StreamType; sbStreamLimit : Z }.

Definition parseStreamsBlockedFrame (typ : Z) : parser StreamsBlockedFrame :=
  let t := if typ =? bidiStreamBlockedFrameType then StreamTypeBidi else StreamTypeUni in
  streamLimit ← varint_Read;
  if MaxStreamCount <? i64 streamLimit then fail errStreamCount
  else mret (mkStreamsBlocked t (i64 streamLimit)).

Definition streamsBlockedType (f : StreamsBlockedFrame) : Z :=
  match sbType f with StreamTypeBidi => bidiStreamBlockedFrameType | StreamTypeUni => uniStreamBlockedFrameType end.

#[export] Instance StreamsBlocked_frame : WireFrame StreamsBlockedFrame := {
  frame_Append b f := appendVarints (b ++ [streamsBlockedType f]) [u64 (sbStreamLimit f)];
  frame_Length f := lenVarints 1 [u64 (sbStreamLimit f)]
}.

Record RetireConnectionIDFrame := mkRetireConnectionID { rcSequenceNumber : Z }.

Definition parseRetireConnectionIDFrame : parser RetireConnectionIDFrame :=
  seq ← varint_Read; mret (mkRetireConnectionID seq).

#[export] Instance RetireConnectionID_frame : WireFrame RetireConnectionIDFrame := {
  frame_Append b f := appendVarints (b ++ [retireConnectionIDFrameType]) [rcSequenceNumber f];
  frame_Length f := lenVarints 1 [rcSequenceNumber f]
}.

(** ** Frames without content *)

Record PingFrame := mkPing {}.

#[export] Instance Ping_frame : WireFrame PingFrame := {
  frame_Append b _ := Ok (b ++ [pingFrameType]);
  frame_Length _ := Ok 1
}.

Record HandshakeDoneFrame := mkHandshakeDone {}.

#[export] Instance HandshakeDone_frame : WireFrame HandshakeDoneFrame := {
  frame_Append b _ := Ok (b ++ [handshakeDoneFrameType]);
  frame_Length _ := Ok 1
}.

(** ** Frames with bytes *)

Record NewTokenFrame := mkNewToken { ntToken : bytes }.

Definition parseNewTokenFrame : parser NewTokenFrame :=
  tokenLen ← varint_Read;
  n ← reader_len;
  if u64 n <? tokenLen then fail EOF
  else if tokenLen =? 0 then fail (ErrorString "token must not be empty")
  else
    token ← ReadFull (i64 tokenLen);
    mret (mkNewToken token).

#[export] Instance NewToken_frame : WireFrame NewTokenFrame := {
  frame_Append b f :=
    b ← appendVarints (b ++ [newTokenFrameType]) [u64 (blen (ntToken f))];
    Ok (b ++ ntToken f);
  frame_Length f := l ← lenVarints 1 [u64 (blen (ntToken f))]; Ok (l + blen (ntToken f))
}.

(** [protocol.ReadConnectionID]; a connection ID is the list of its bytes. *)
Definition ReadConnectionID (l : Z) : parser bytes :=
  if l =? 0 then mret []
  else if MaxConnIDLen <? l then fail (ErrorString "invalid Connection ID length")
  else ReadFullEOF l.

Record NewConnectionIDFrame := mkNewConnectionID {
  ncSequenceNumber : Z; ncRetirePriorTo : Z; ncConnectionID : bytes; ncStatelessResetToken : bytes
}.

Definition parseNewConnectionIDFrame : parser NewConnectionIDFrame :=
  seq ← varint_Read; ret ← varint_Read;
  if seq <? ret then fail (ErrorString "Retire Prior To value (%d) larger than Sequence Number (%d)")
  else
    connIDLen ← ReadByte;
    connID ← ReadConnectionID connIDLen;
    token ← ReadFullEOF 16;
    mret (mkNewConnectionID seq ret connID token).

#[export] Instance NewConnectionID_frame : WireFrame NewConnectionIDFrame := {
  frame_Append b f :=
    b ← appendVarints (b ++ [newConnectionIDFrameType]) [ncSequenceNumber f; ncRetirePriorTo f];
    let connIDLen := blen (ncConnectionID f) in
    if MaxConnIDLen <? connIDLen then Err (ErrorString "invalid connection ID length: %d")
    else Ok (b ++ [u8 connIDLen] ++ ncConnectionID f ++ ncStatelessResetToken f);
  frame_Length f :=
    l ← lenVarints 1 [ncSequenceNumber f; ncRetirePriorTo f];
    Ok (l + 1 + blen (ncConnectionID f) + 16)
}.

Record PathChallengeFrame := mkPathChallenge { pcData : bytes }.

Definition parsePathChallengeFrame : parser PathChallengeFrame :=
  data ← ReadFullEOF 8; mret (mkPathChallenge data).

#[export] Instance PathChallenge_frame : WireFrame PathChallengeFrame := {
  frame_Append b f := Ok (b ++ [pathChallengeFrameType] ++ pcData f);
  frame_Length _ := Ok (1 + 8)
}.

Record PathResponseFrame := mkPathResponse { prData : bytes }.

Definition parsePathResponseFrame : parser PathResponseFrame :=
  data ← ReadFullEOF 8; mret (mkPathResponse data).

#[export] Instance PathResponse_frame : WireFrame PathResponseFrame := {
  frame_Append b f := Ok (b ++ [pathResponseFrameType] ++ prData f);
  frame_Length _ := Ok (1 + 8)
}.

Record ConnectionCloseFrame := mkConnectionClose {
  ccIsApplicationError : bool; ccErrorCode : Z; ccFrameType : Z; ccReasonPhrase : bytes
}.

Definition parseConnectionCloseFrame (typ : Z) : parser ConnectionCloseFrame :=
  let isApp := typ =? applicationCloseFrameType in
  ec ← varint_Read;
  ft ← (if isApp then mret 0 else varint_Read);
  reasonPhraseLen ← varint_Read;
  n ← reader_len;
  if n <? i64 reasonPhraseLen then fail EOF
  else
    reasonPhrase ← ReadFull (i64 reasonPhraseLen);
    mret (mkConnectionClose isApp ec ft reasonPhrase).

(** The frame type is only sent for a transport error. *)
Definition closeVarints (f : ConnectionCloseFrame) : list Z :=
  (ccErrorCode f :: (if ccIsApplicationError f then [] else [ccFrameType f])) ++ [u64 (blen (ccReasonPhrase f))].

#[export] Instance ConnectionClose_frame : WireFrame ConnectionCloseFrame := {
  frame_Append b f :=
    let typ := if ccIsApplicationError f then applicationCloseFrameType else connectionCloseFrameType in
    b ← appendVarints (b ++ [typ]) (closeVarints f);
    Ok (b ++ ccReasonPhrase f);
  frame_Length f :=
    length ← lenVarints 1 [ccErrorCode f; u64 (blen (ccReasonPhrase f))];
    let length := length + blen (ccReasonPhrase f) in
    if ccIsApplicationError f then Ok length else lenVarints length [ccFrameType f]
}.

Record DatagramFrame := mkDatagram { dgDataLenPresent : bool; dgData : bytes }.

Definition parseDatagramFrame (typ : Z) : parser DatagramFrame :=
  let dataLenPresent := 0 <? Z.land typ 1 in
  n ← reader_len;
  length ← (if dataLenPresent then
              len ← varint_Read;
              n ← reader_len;
              if u64 n <? len then fail EOF else mret len
            else mret (u64 n));
  data ← ReadFull (i64 length);
  mret (mkDatagram dataLenPresent data).

#[export] Instance Datagram_frame : WireFrame DatagramFrame := {
  frame_Append b f :=
    let typ := if dgDataLenPresent f then Z.lxor 0x30 1 else 0x30 in
    b ← appendVarints (b ++ [typ]) (if dgDataLenPresent f then [u64 (blen (dgData f))] else []);
    Ok (b ++ dgData f);
  frame_Length f :=
    let length := 1 + blen (dgData f) in
    if dgDataLenPresent f then lenVarints length [u64 (blen (dgData f))] else Ok length
}.

(** ** CRYPTO and STREAM frames *)

Record CryptoFrame := mkCrypto { cfOffset : Z; cfData : bytes }.

Definition parseCryptoFrame : parser CryptoFrame :=
  offset ← varint_Read;
  dataLen ← varint_Read;
  n ← reader_len;
  if u64 n <? dataLen then fail EOF
  else
    data ← (if negb (dataLen =? 0) then ReadFull (i64 dataLen) else mret []);
    mret (mkCrypto (i64 offset) data).

#[export] Instance Crypto_frame : WireFrame CryptoFrame := {
  frame_Append b f :=
    b ← appendVarints (b ++ [cryptoFrameType]) [u64 (cfOffset f); u64 (blen (cfData f))];
    Ok (b ++ cfData f);
  frame_Length f :=
    l ← lenVarints 1 [u64 (cfOffset f); u64 (blen (cfData f))]; Ok (l + blen (cfData f))
}.

Record StreamFrame := mkStream {
  sfStreamID : Z; sfOffset : Z; sfData : bytes; sfFin : bool; sfDataLenPresent : bool
}.

Definition sfDataLen (f : StreamFrame) : Z := blen (sfData f).

Definition parseStreamFrame (typ : Z) : parser StreamFrame :=
  let hasOffset := 0 <? Z.land typ 4 in
  let fin := 0 <? Z.land typ 1 in
  let hasDataLen := 0 <? Z.land typ 2 in
  streamID ← varint_Read;
  offset ← (if hasOffset then varint_Read else mret 0);
  n ← reader_len;
  dataLen ← (if hasDataLen then varint_Read else mret (u64 n));
  if (MinStreamFrameBufferSize <=? dataLen) && (MaxPacketBufferSize <? dataLen) then fail EOF
  else
    data ← (if negb (dataLen =? 0) then ReadFull (i64 dataLen) else mret []);
    let frame := mkStream (i64 streamID) (i64 offset) data fin hasDataLen in
    if MaxByteCount <? i64 (sfOffset frame + sfDataLen frame)
    then fail (ErrorString "stream data overflows maximum offset")
    else mret frame.

Definition streamType (f : StreamFrame) : Z :=
  let typ := 0x8 in
  let typ := if sfFin f then Z.lxor typ 1 else typ in
  let typ := if sfDataLenPresent f then Z.lxor typ 2 else typ in
  if negb (sfOffset f =? 0) then Z.lxor typ 4 else typ.

(** The integers of the header after the type. *)
Definition streamVarints (f : StreamFrame) : list Z :=
  u64 (sfStreamID f) ::
  (if negb (sfOffset f =? 0) then [u64 (sfOffset f)] else []) ++
  (if sfDataLenPresent f then [u64 (sfDataLen f)] else []).

#[export] Instance Stream_frame : WireFrame StreamFrame := {
  frame_Append b f :=
    if (blen (sfData f) =? 0) && negb (sfFin f)
    then Err (ErrorString "StreamFrame: attempting to write empty frame without FIN")
    else
      b ← appendVarints (b ++ [streamType f]) (streamVarints f);
      Ok (b ++ sfData f);
  frame_Length f := l ← lenVarints 1 (streamVarints f); Ok (l + sfDataLen f)
}.

(** [AckFrame] is a frame too. *)
#[export] Instance Ack_frame : WireFrame AckFrame := {
  frame_Append := AckFrame_Append;
  frame_Length := AckFrame_Length
}.

(** ** Parsers on arbitrary input

    A safe parser does not panic, only consumes input, and returns values that
    satisfy [P]. *)

Definition safe_parser {A} (P : A -> Prop) (m : parser A) : Prop := forall r, bytes_ok r ->
  match m r with
  | (Ok a, r') => P a /\ suffix r' r
  | (Err _, r') => suffix r' r
  | (Panic _, _) => False
  end.

Create HintDb parsers.

Lemma suffix_bytes_ok r' r : suffix r' r -> bytes_ok r -> bytes_ok r'.
Proof. intros [k ->]. by intros [_ ?]%Forall_app. Qed.

Lemma safe_bind {A B} (P : A -> Prop) (Q : B -> Prop) (m : parser A) (f : A -> parser B) :
  safe_parser P m -> (forall a, P a -> safe_parser Q (f a)) -> safe_parser Q (m ≫= f).
Proof.
  intros Hm Hf r Hr. specialize (Hm r Hr). unfold mbind, stM_bind.
  destruct (m r) as [[a|e|p] r1]; [|done..]. destruct Hm as [Ha Hs].
  specialize (Hf a Ha r1 (suffix_bytes_ok _ _ Hs Hr)).
  destruct (f a r1) as [[b|e|p] r2]; [|by etrans|done]. split; [by apply Hf|]. by etrans; [apply Hf|].
Qed.

Lemma safe_mono {A} (P Q : A -> Prop) (m : parser A) :
  safe_parser P m -> (forall a, P a -> Q a) -> safe_parser Q m.
Proof.
  intros Hm HPQ r Hr. specialize (Hm r Hr). destruct (m r) as [[]]; try done.
  destruct Hm. auto.
Qed.

Lemma safe_ret {A} (P : A -> Prop) a : P a -> safe_parser P (mret a).
Proof. intros Ha r _. split; [done|reflexivity]. Qed.

Lemma safe_fail {A} (P : A -> Prop) e : safe_parser P (fail e).
Proof. intros r _. cbn. reflexivity. Qed.

Lemma safe_reader_len : safe_parser (fun n => 0 <= n) reader_len.
Proof. intros r _. split; [apply blen_nonneg|reflexivity]. Qed.

Lemma safe_varint : safe_parser is_varint varint_Read.
Proof.
  intros r Hr. destruct (varint_Read_total r Hr) as [[e E]|(used & v & r' & -> & E & Hv & _)];
    rewrite E; [by exists r; rewrite app_nil_r|]. split; [done|]. by exists used.
Qed.

Lemma safe_ReadByte : safe_parser is_u8 ReadByte.
Proof. intros [|b r] Hr; [cbn; reflexivity|]. apply Forall_cons in Hr as [Hb _]. split; [done|]. by exists [b]. Qed.

Definition data_of (n : Z) (d : bytes) : Prop := bytes_ok d /\ blen d = Z.max 0 n.

Lemma safe_ReadFull n : safe_parser (data_of n) (ReadFull n).
Proof.
  intros r Hr. unfold ReadFull, data_of. destruct (Z.leb_spec n 0).
  { split; [|reflexivity]. split; [constructor|]. by rewrite Z.max_l by lia. }
  destruct (Z.eqb_spec (blen r) 0); [reflexivity|]. destruct (Z.ltb_spec (blen r) n).
  { by exists r; rewrite app_nil_r. }
  split; [split|].
  - by apply Forall_take.
  - unfold blen in *. rewrite length_take. lia.
  - exists (take (Z.to_nat n) r). by rewrite take_drop.
Qed.

Lemma safe_ReadFullEOF n : safe_parser (data_of n) (ReadFullEOF n).
Proof.
  intros r Hr. pose proof (safe_ReadFull n r Hr) as Hs. unfold ReadFullEOF.
  destruct (ReadFull n r) as [[d|[]|p] r']; done.
Qed.

Lemma safe_if {A} (P : A -> Prop) (b : bool) (m1 m2 : parser A) :
  (b = true -> safe_parser P m1) -> (b = false -> safe_parser P m2) ->
  safe_parser P (if b then m1 else m2).
Proof. destruct b; auto. Qed.

#[export] Hint Resolve safe_fail safe_varint safe_ReadByte safe_ReadFull safe_ReadFullEOF safe_reader_len : parsers.

(** Walk through a parser; the facts about what was read go to the context. *)
Ltac parser_step :=
  first
    [ eapply safe_bind; [solve [eauto with parsers]|let a := fresh "v" in let H := fresh "Hv" in intros a H]
    | apply safe_if; intros ?
    | solve [eauto with parsers]
    | apply safe_ret ].

(** ** Encodings *)

Definition vencs (vs : list Z) : bytes := concat (venc <$> vs).

Lemma vencs_cons v vs : vencs (v :: vs) = venc v ++ vencs vs.
Proof. done. Qed.

Lemma appendVarints_vencs vs : forall b, Forall is_varint vs -> appendVarints b vs = Ok (b ++ vencs vs).
Proof.
  induction vs as [|v vs IH]; intros b Hall; cbn [appendVarints].
  - by rewrite app_nil_r.
  - apply Forall_cons in Hall as [Hv Hall]. rewrite varint_Append_venc by done. cbn [mbind res_bind].
    rewrite IH by done. by rewrite vencs_cons, app_assoc.
Qed.

Lemma lenVarints_vencs vs : forall n, Forall is_varint vs -> lenVarints n vs = Ok (n + blen (vencs vs)).
Proof.
  induction vs as [|v vs IH]; intros n Hall; cbn [lenVarints].
  - by rewrite Z.add_0_r.
  - apply Forall_cons in Hall as [Hv Hall]. rewrite varint_Len_vlen by apply Hv. cbn [mbind res_bind].
    rewrite IH by done. rewrite vencs_cons, blen_app, blen_venc by done. f_equal. lia.
Qed.

Lemma varint_u64 v : is_varint v -> u64 v = v.
Proof. unfold is_varint, maxVarInt8. intros. apply u64_small. int_range. Qed.

Lemma varint_i64 v : is_varint v -> i64 v = v.
Proof. unfold is_varint, maxVarInt8. intros. apply i64_small. int_range. Qed.

(** ** What a frame promises

    [frame_valid] are the frames a parser returns, [frame_sendable] those that
    may be written.  A sendable frame is written as its type and [frame_body];
    its [Length] is the number of bytes written; and the parser returns it (as
    it is on the wire, [frame_wire]) if what follows in the packet is allowed by
    [frame_tail]: a frame without a length field must be the last one.  (The length
    of a slice is an [int].) *)
Class FrameCodec (F : Type) `{WireFrame F} := {
  frame_valid : F -> Prop;
  frame_sendable : F -> Prop;
  frame_type : F -> Z;
  frame_body : F -> bytes;
  frame_wire : F -> F;
  frame_tail : F -> bytes -> Prop;
  frame_parse : Z -> parser F;
  codec_append b f : frame_sendable f -> frame_Append b f = Ok (b ++ frame_type f :: frame_body f);
  codec_length f : frame_sendable f -> frame_Length f = Ok (1 + blen (frame_body f));
  codec_parse f rest : frame_sendable f -> frame_tail f rest -> blen (frame_body f ++ rest) < 2 ^ 63 ->
    frame_parse (frame_type f) (frame_body f ++ rest) = (Ok (frame_wire f), rest);
  codec_safe typ : safe_parser frame_valid (frame_parse typ)
}.

Definition any_tail {F} (f : F) (rest : bytes) : Prop := True.

Ltac solve_varints := repeat first [apply Forall_nil | apply Forall_cons; split]; done.

Ltac frame_unfold :=
  cbn [frame_Append frame_Length ResetStream_frame StopSending_frame MaxData_frame MaxStreamData_frame
       MaxStreams_frame DataBlocked_frame StreamDataBlocked_frame StreamsBlocked_frame
       RetireConnectionID_frame Ping_frame HandshakeDone_frame NewToken_frame NewConnectionID_frame
       PathChallenge_frame PathResponse_frame ConnectionClose_frame Datagram_frame Crypto_frame Stream_frame].

(** [Append] and [Length] of a frame of integers, and maybe some bytes. *)
Ltac codec_write :=
  intros; cbn beta in *; destruct_and?; frame_unfold; rewrite ?varint_u64 by done;
  rewrite ?appendVarints_vencs, ?lenVarints_vencs by solve_varints;
  cbn [mbind res_bind]; rewrite ?blen_app, <- ?app_assoc; try done; try (f_equal; lia).

(** Read the next integer that was written. *)
Ltac read_next := erewrite parser_bind_ok; [|apply varint_Read_venc; done].
Ltac read_len := erewrite parser_bind_ok; [|reflexivity]; cbv beta.
Ltac read_data := erewrite parser_bind_ok; [|apply ReadFull_app; done]; cbv beta.

Ltac codec_read :=
  intros; cbn beta in *; destruct_and?; rewrite ?vencs_cons, <- ?app_assoc;
  change (vencs []) with (@nil Z); cbn [app]; repeat read_next; rewrite ?varint_i64 by done.

Ltac codec_safe_tac := intros; repeat parser_step; cbn in *; rewrite ?varint_i64 by done; try done.

#[export] Program Instance ResetStream_codec : FrameCodec ResetStreamFrame := {
  frame_valid f := is_varint (rsStreamID f) /\ is_varint (rsErrorCode f) /\ is_varint (rsFinalSize f);
  frame_sendable f := is_varint (rsStreamID f) /\ is_varint (rsErrorCode f) /\ is_varint (rsFinalSize f);
  frame_type _ := resetStreamFrameType;
  frame_body f := vencs [rsStreamID f; rsErrorCode f; rsFinalSize f];
  frame_wire := id;
  frame_tail := any_tail;
  frame_parse _ := parseResetStreamFrame
}.
Next Obligation. codec_write. Qed.
Next Obligation. codec_write. Qed.
Next Obligation. intros f rest Hf _ _. unfold parseResetStreamFrame. codec_read. by destruct f. Qed.
Next Obligation. unfold parseResetStreamFrame. codec_safe_tac. Qed.

#[export] Program Instance StopSending_codec : FrameCodec StopSendingFrame := {
  frame_valid f := is_varint (ssStreamID f) /\ is_varint (ssErrorCode f);
  frame_sendable f := is_varint (ssStreamID f) /\ is_varint (ssErrorCode f);
  frame_type _ := stopSendingFrameType;
  frame_body f := vencs [ssStreamID f; ssErrorCode f];
  frame_wire := id;
  frame_tail := any_tail;
  frame_parse _ := parseStopSendingFrame
}.
Next Obligation. codec_write. Qed.
Next Obligation. codec_write. Qed.
Next Obligation. intros f rest Hf _ _. unfold parseStopSendingFrame. codec_read. by destruct f. Qed.
Next Obligation. unfold parseStopSendingFrame. codec_safe_tac. Qed.

#[export] Program Instance MaxData_codec : FrameCodec MaxDataFrame := {
  frame_valid f := is_varint (mdMaximumData f);
  frame_sendable f := is_varint (mdMaximumData f);
  frame_type _ := maxDataFrameType;
  frame_body f := vencs [mdMaximumData f];
  frame_wire := id;
  frame_tail := any_tail;
  frame_parse _ := parseMaxDataFrame
}.
Next Obligation. codec_write. Qed.
Next Obligation. codec_write. Qed.
Next Obligation. intros f rest Hf _ _. unfold parseMaxDataFrame. codec_read. by destruct f. Qed.
Next Obligation. unfold parseMaxDataFrame. codec_safe_tac. Qed.

#[export] Program Instance MaxStreamData_codec : FrameCodec MaxStreamDataFrame := {
  frame_valid f := is_varint (msdStreamID f) /\ is_varint (msdMaximum f);
  frame_sendable f := is_varint (msdStreamID f) /\ is_varint (msdMaximum f);
  frame_type _ := maxStreamDataFrameType;
  frame_body f := vencs [msdStreamID f; msdMaximum f];
  frame_wire := id;
  frame_tail := any_tail;
  frame_parse _ := parseMaxStreamDataFrame
}.
Next Obligation. codec_write. Qed.
Next Obligation. codec_write. Qed.
Next Obligation. intros f rest Hf _ _. unfold parseMaxStreamDataFrame. codec_read. by destruct f. Qed.
Next Obligation. unfold parseMaxStreamDataFrame. codec_safe_tac. Qed.

#[export] Program Instance DataBlocked_codec : FrameCodec DataBlockedFrame := {
  frame_valid f := is_varint (dbMaximumData f);
  frame_sendable f := is_varint (dbMaximumData f);
  frame_type _ := dataBlockedFrameType;
  frame_body f := vencs [dbMaximumData f];
  frame_wire := id;
  frame_tail := any_tail;
  frame_parse _ := parseDataBlockedFrame
}.
Next Obligation. codec_write. Qed.
Next Obligation. codec_write. Qed.
Next Obligation. intros f rest Hf _ _. unfold parseDataBlockedFrame. codec_read. by destruct f. Qed.
Next Obligation. unfold parseDataBlockedFrame. codec_safe_tac. Qed.

#[export] Program Instance StreamDataBlocked_codec : FrameCodec StreamDataBlockedFrame := {
  frame_valid f := is_varint (sdbStreamID f) /\ is_varint (sdbMaximum f);
  frame_sendable f := is_varint (sdbStreamID f) /\ is_varint (sdbMaximum f);
  frame_type _ := streamDataBlockedFrameType;
  frame_body f := vencs [sdbStreamID f; sdbMaximum f];
  frame_wire := id;
  frame_tail := any_tail;
  frame_parse _ := parseStreamDataBlockedFrame
}.
Next Obligation. codec_write. Qed.
Next Obligation. codec_write. Qed.
Next Obligation. intros f rest Hf _ _. unfold parseStreamDataBlockedFrame. codec_read. by destruct f. Qed.
Next Obligation. unfold parseStreamDataBlockedFrame. codec_safe_tac. Qed.

#[export] Program Instance RetireConnectionID_codec : FrameCodec RetireConnectionIDFrame := {
  frame_valid f := is_varint (rcSequenceNumber f);
  frame_sendable f := is_varint (rcSequenceNumber f);
  frame_type _ := retireConnectionIDFrameType;
  frame_body f := vencs [rcSequenceNumber f];
  frame_wire := id;
  frame_tail := any_tail;
  frame_parse _ := parseRetireConnectionIDFrame
}.
Next Obligation. codec_write. Qed.
Next Obligation. codec_write. Qed.
Next Obligation. intros f rest Hf _ _. unfold parseRetireConnectionIDFrame. codec_read. by destruct f. Qed.
Next Obligation. unfold parseRetireConnectionIDFrame. codec_safe_tac. Qed.

Lemma MaxStreamCount_varint n : 0 <= n <= MaxStreamCount -> is_varint n.
Proof. unfold MaxStreamCount, is_varint, maxVarInt8. change (Z.shiftl 1 60) with (2 ^ 60). lia. Qed.

#[export] Program Instance MaxStreams_codec : FrameCodec MaxStreamsFrame := {
  frame_valid f := 0 <= msMaxStreamNum f <= MaxStreamCount;
  frame_sendable f := 0 <= msMaxStreamNum f <= MaxStreamCount;
  frame_type := maxStreamsType;
  frame_body f := vencs [msMaxStreamNum f];
  frame_wire := id;
  frame_tail := any_tail;
  frame_parse := parseMaxStreamsFrame
}.
Next Obligation. intros b f Hf. pose proof (MaxStreamCount_varint _ Hf). codec_write. Qed.
Next Obligation. intros f Hf. pose proof (MaxStreamCount_varint _ Hf). codec_write. Qed.
Next Obligation.
  intros f rest Hf _ _. pose proof (MaxStreamCount_varint _ Hf). unfold parseMaxStreamsFrame. codec_read.
  zfalse (MaxStreamCount <? msMaxStreamNum f). by destruct f as [[] ?].
Qed.
Next Obligation.
  unfold parseMaxStreamsFrame. codec_safe_tac. rewrite varint_i64 in * by done.
  split; [apply Hv|]. by apply Z.ltb_ge.
Qed.

#[export] Program Instance StreamsBlocked_codec : FrameCodec StreamsBlockedFrame := {
  frame_valid f := 0 <= sbStreamLimit f <= MaxStreamCount;
  frame_sendable f := 0 <= sbStreamLimit f <= MaxStreamCount;
  frame_type := streamsBlockedType;
  frame_body f := vencs [sbStreamLimit f];
  frame_wire := id;
  frame_tail := any_tail;
  frame_parse := parseStreamsBlockedFrame
}.
Next Obligation. intros b f Hf. pose proof (MaxStreamCount_varint _ Hf). codec_write. Qed.
Next Obligation. intros f Hf. pose proof (MaxStreamCount_varint _ Hf). codec_write. Qed.
Next Obligation.
  intros f rest Hf _ _. pose proof (MaxStreamCount_varint _ Hf). unfold parseStreamsBlockedFrame. codec_read.
  zfalse (MaxStreamCount <? sbStreamLimit f). by destruct f as [[] ?].
Qed.
Next Obligation.
  unfold parseStreamsBlockedFrame. codec_safe_tac. rewrite varint_i64 in * by done.
  split; [apply Hv|]. by apply Z.ltb_ge.
Qed.

#[export] Program Instance Ping_codec : FrameCodec PingFrame := {
  frame_valid _ := True; frame_sendable _ := True;
  frame_type _ := pingFrameType; frame_body _ := []; frame_wire := id; frame_tail := any_tail;
  frame_parse _ := mret mkPing
}.
Next Obligation. done. Qed.
Next Obligation. done. Qed.
Next Obligation. by intros []. Qed.
Next Obligation. intros. by apply safe_ret. Qed.

#[export] Program Instance HandshakeDone_codec : FrameCodec HandshakeDoneFrame := {
  frame_valid _ := True; frame_sendable _ := True;
  frame_type _ := handshakeDoneFrameType; frame_body _ := []; frame_wire := id; frame_tail := any_tail;
  frame_parse _ := mret mkHandshakeDone
}.
Next Obligation. done. Qed.
Next Obligation. done. Qed.
Next Obligation. by intros []. Qed.
Next Obligation. intros. by apply safe_ret. Qed.

(** Bytes that a frame carries: their number is sent as an integer. *)
Definition payload (d : bytes) : Prop := bytes_ok d /\ is_varint (blen d).

Lemma payload_data_of n d : is_varint n -> data_of n d -> payload d /\ blen d = n.
Proof. unfold is_varint. intros Hn [Hd Hl]. rewrite Z.max_r in Hl by lia. rewrite <- Hl in Hn. done. Qed.

(** The length check before the bytes are read. *)
Lemma data_fits (d rest : bytes) :
  blen (d ++ rest) < 2 ^ 63 -> (u64 (blen (d ++ rest)) <? blen d) = false.
Proof.
  intros Hb. pose proof (blen_nonneg (d ++ rest)). rewrite u64_small by int_range.
  rewrite blen_app. pose proof (blen_nonneg rest). apply Z.ltb_ge. lia.
Qed.

Lemma blen_app_r (d rest : bytes) : blen rest <= blen (d ++ rest).
Proof. rewrite blen_app. pose proof (blen_nonneg d). lia. Qed.

#[export] Program Instance NewToken_codec : FrameCodec NewTokenFrame := {
  frame_valid f := payload (ntToken f) /\ ntToken f <> [];
  frame_sendable f := payload (ntToken f) /\ ntToken f <> [];
  frame_type _ := newTokenFrameType;
  frame_body f := vencs [blen (ntToken f)] ++ ntToken f;
  frame_wire := id;
  frame_tail := any_tail;
  frame_parse _ := parseNewTokenFrame
}.
Next Obligation. intros b f [[_ Hf] _]. codec_write. Qed.
Next Obligation. intros f [[_ Hf] _]. codec_write. Qed.
Next Obligation.
  intros [t] rest [[_ Hl] Hne] _ Hb. cbn [ntToken] in *. unfold parseNewTokenFrame.
  rewrite <- app_assoc in Hb. pose proof (blen_app_r (vencs [blen t]) (t ++ rest)).
  codec_read. read_len. rewrite data_fits by lia.
  destruct (Z.eqb_spec (blen t) 0) as [E0|]; [destruct t; [done|]; rewrite blen_cons in E0;
    pose proof (blen_nonneg t); lia|].
  by read_data.
Qed.
Next Obligation.
  unfold parseNewTokenFrame. codec_safe_tac. rewrite varint_i64 in * by done.
  destruct (payload_data_of v v1) as [Hp Hl]; [done..|]. split; [done|].
  intros ->. apply Z.eqb_neq in H0. by rewrite <- Hl in H0.
Qed.

Lemma ReadFullEOF_app n (d rest : bytes) : blen d = n -> ReadFullEOF n (d ++ rest) = (Ok d, rest).
Proof. intros H. unfold ReadFullEOF. by rewrite ReadFull_app. Qed.

Ltac read_eof := erewrite parser_bind_ok; [|apply ReadFullEOF_app; done]; cbv beta.

Lemma data_of_pos n d : 0 <= n -> data_of n d -> bytes_ok d /\ blen d = n.
Proof. intros Hn [Hd Hl]. split; [done|]. lia. Qed.

#[export] Program Instance PathChallenge_codec : FrameCodec PathChallengeFrame := {
  frame_valid f := bytes_ok (pcData f) /\ blen (pcData f) = 8;
  frame_sendable f := bytes_ok (pcData f) /\ blen (pcData f) = 8;
  frame_type _ := pathChallengeFrameType; frame_body := pcData; frame_wire := id; frame_tail := any_tail;
  frame_parse _ := parsePathChallengeFrame
}.
Next Obligation. done. Qed.
Next Obligation. intros f [_ Hl]. cbn. by rewrite Hl. Qed.
Next Obligation. intros [d] rest [_ Hl] _ _. unfold parsePathChallengeFrame. cbn [pcData] in *. by read_eof. Qed.
Next Obligation. unfold parsePathChallengeFrame. codec_safe_tac. Qed.

#[export] Program Instance PathResponse_codec : FrameCodec PathResponseFrame := {
  frame_valid f := bytes_ok (prData f) /\ blen (prData f) = 8;
  frame_sendable f := bytes_ok (prData f) /\ blen (prData f) = 8;
  frame_type _ := pathResponseFrameType; frame_body := prData; frame_wire := id; frame_tail := any_tail;
  frame_parse _ := parsePathResponseFrame
}.
Next Obligation. done. Qed.
Next Obligation. intros f [_ Hl]. cbn. by rewrite Hl. Qed.
Next Obligation. intros [d] rest [_ Hl] _ _. unfold parsePathResponseFrame. cbn [prData] in *. by read_eof. Qed.
Next Obligation. unfold parsePathResponseFrame. codec_safe_tac. Qed.

(** *** NEW_CONNECTION_ID *)

Lemma ReadConnectionID_app (id rest : bytes) :
  blen id <= MaxConnIDLen -> ReadConnectionID (blen id) (id ++ rest) = (Ok id, rest).
Proof.
  intros Hl. unfold ReadConnectionID. destruct (Z.eqb_spec (blen id) 0) as [E|E].
  - destruct id; [done|]. rewrite blen_cons in E. pose proof (blen_nonneg id). lia.
  - zfalse (MaxConnIDLen <? blen id). by apply ReadFullEOF_app.
Qed.

Lemma safe_ReadConnectionID l :
  is_u8 l -> safe_parser (fun id => bytes_ok id /\ blen id <= MaxConnIDLen) (ReadConnectionID l).
Proof.
  intros Hl. unfold ReadConnectionID. apply safe_if; intros Hc.
  - apply safe_ret. split; [constructor|done].
  - apply safe_if; intros Hm; [apply safe_fail|]. apply Z.ltb_ge in Hm.
    eapply safe_mono; [apply safe_ReadFullEOF|]. intros d [Hd Hb]. unfold is_u8 in Hl. split; [done|lia].
Qed.
#[export] Hint Resolve safe_ReadConnectionID : parsers.

Definition newConnectionID_ok (f : NewConnectionIDFrame) : Prop :=
  is_varint (ncSequenceNumber f) /\ is_varint (ncRetirePriorTo f) /\
  ncRetirePriorTo f <= ncSequenceNumber f /\
  (bytes_ok (ncConnectionID f) /\ blen (ncConnectionID f) <= MaxConnIDLen) /\
  bytes_ok (ncStatelessResetToken f) /\ blen (ncStatelessResetToken f) = 16.

#[export] Program Instance NewConnectionID_codec : FrameCodec NewConnectionIDFrame := {
  frame_valid := newConnectionID_ok;
  frame_sendable := newConnectionID_ok;
  frame_type _ := newConnectionIDFrameType;
  frame_body f := vencs [ncSequenceNumber f; ncRetirePriorTo f] ++
    [blen (ncConnectionID f)] ++ ncConnectionID f ++ ncStatelessResetToken f;
  frame_wire := id;
  frame_tail := any_tail;
  frame_parse _ := parseNewConnectionIDFrame
}.
Next Obligation.
  intros b f (H1 & H2 & _ & [_ H3] & _). codec_write. zfalse (MaxConnIDLen <? blen (ncConnectionID f)).
  unfold MaxConnIDLen in H3. pose proof (blen_nonneg (ncConnectionID f)).
  rewrite u8_small by int_range. done.
Qed.
Next Obligation.
  intros f (H1 & H2 & _ & _ & _ & H4). codec_write. rewrite H4, blen_cons. f_equal.
  change (blen (@nil Z)) with 0. lia.
Qed.
Next Obligation.
  intros [seq ret cid tok] rest (H1 & H2 & H3 & [_ H4] & _ & H5) _ _. cbn in H1, H2, H3, H4, H5.
  cbn [ncSequenceNumber ncRetirePriorTo ncConnectionID ncStatelessResetToken].
  unfold parseNewConnectionIDFrame. codec_read. zfalse (seq <? ret). read_len.
  erewrite parser_bind_ok; [|by apply ReadConnectionID_app]. by read_eof.
Qed.
Next Obligation.
  unfold parseNewConnectionIDFrame. codec_safe_tac.
  destruct (data_of_pos 16 v3) as [? ?]; [lia|done|]. unfold newConnectionID_ok. cbn.
  destruct (Z.ltb_spec v v0); [done|]. split; [done|]. split; [done|]. split; [done|]. by split.
Qed.

(** *** CONNECTION_CLOSE *)

Definition connectionClose_ok (f : ConnectionCloseFrame) : Prop :=
  is_varint (ccErrorCode f) /\ is_varint (ccFrameType f) /\
  (ccIsApplicationError f = true -> ccFrameType f = 0) /\ payload (ccReasonPhrase f).

#[export] Program Instance ConnectionClose_codec : FrameCodec ConnectionCloseFrame := {
  frame_valid := connectionClose_ok;
  frame_sendable := connectionClose_ok;
  frame_type f := if ccIsApplicationError f then applicationCloseFrameType else connectionCloseFrameType;
  frame_body f := vencs ((ccErrorCode f :: (if ccIsApplicationError f then [] else [ccFrameType f]))
    ++ [blen (ccReasonPhrase f)]) ++ ccReasonPhrase f;
  frame_wire := id;
  frame_tail := any_tail;
  frame_parse := parseConnectionCloseFrame
}.
Next Obligation.
  intros b f (H1 & H2 & _ & _ & H3). frame_unfold. unfold closeVarints.
  destruct (ccIsApplicationError f); cbn [app]; codec_write.
Qed.
Next Obligation.
  intros f (H1 & H2 & _ & _ & H3). frame_unfold. rewrite varint_u64 by done.
  rewrite lenVarints_vencs by solve_varints. cbn [mbind res_bind].
  destruct (ccIsApplicationError f); cbn [app]; rewrite ?lenVarints_vencs by solve_varints;
    rewrite ?vencs_cons, ?blen_app; change (blen (vencs [])) with 0; f_equal; lia.
Qed.
Next Obligation.
  intros [app ec ft rp] rest (H1 & H2 & H3 & _ & H4) _ Hb.
  cbn [ccIsApplicationError ccErrorCode ccFrameType ccReasonPhrase] in *. unfold parseConnectionCloseFrame.
  rewrite <- app_assoc in Hb.
  match type of Hb with blen (?x ++ _) < _ => pose proof (blen_app_r x (rp ++ rest)) end.
  assert (Hlen : (blen (rp ++ rest) <? blen rp) = false).
  { rewrite blen_app. pose proof (blen_nonneg rest). apply Z.ltb_ge. lia. }
  destruct app; cbn [List.app].
  - change (applicationCloseFrameType =? applicationCloseFrameType) with true. cbv iota.
    codec_read. read_len. codec_read. read_len. rewrite Hlen. read_data. by rewrite H3.
  - change (connectionCloseFrameType =? applicationCloseFrameType) with false. cbv iota.
    codec_read. read_len. rewrite Hlen. by read_data.
Qed.
Next Obligation.
  unfold parseConnectionCloseFrame. intros typ. parser_step.
  apply (safe_bind (fun ft => is_varint ft /\ (typ = applicationCloseFrameType -> ft = 0))).
  { apply safe_if; intros Ht; [apply safe_ret; by split|].
    eapply safe_mono; [apply safe_varint|]. intros a Ha. split; [done|]. by apply Z.eqb_neq in Ht. }
  intros ft [Hft Hz]. repeat parser_step. cbn in *. rewrite varint_i64 in * by done.
  destruct (payload_data_of v0 v2) as [Hp Hl]; [done..|].
  split; [done|]. split; [done|]. split; [cbn; intros ?%Z.eqb_eq; auto|done].
Qed.

(** *** DATAGRAM *)

#[export] Program Instance Datagram_codec : FrameCodec DatagramFrame := {
  frame_valid f := bytes_ok (dgData f);
  frame_sendable f := payload (dgData f);
  frame_type f := if dgDataLenPresent f then 0x31 else 0x30;
  frame_body f := vencs (if dgDataLenPresent f then [blen (dgData f)] else []) ++ dgData f;
  frame_wire := id;
  frame_tail f rest := dgDataLenPresent f = false -> rest = [];
  frame_parse := parseDatagramFrame
}.
Next Obligation. intros b f [_ Hl]. frame_unfold. destruct (dgDataLenPresent f); codec_write. Qed.
Next Obligation.
  intros f [_ Hl]. frame_unfold. destruct (dgDataLenPresent f); codec_write.
Qed.
Next Obligation.
  intros [p d] rest [_ Hl] Ht Hb. cbn [dgDataLenPresent dgData] in *. unfold parseDatagramFrame.
  destruct p; cbn [List.app].
  - change (0 <? Z.land 0x31 1) with true. cbv iota zeta. rewrite <- app_assoc in Hb.
    pose proof (blen_app_r (vencs [blen d]) (d ++ rest)).
    read_len. erewrite parser_bind_ok; [|codec_read; read_len; rewrite data_fits by lia; reflexivity].
    rewrite varint_i64 by done. by read_data.
  - rewrite Ht, !app_nil_r by done. change (vencs [] ++ d) with d.
    change (0 <? Z.land 0x30 1) with false. cbv iota zeta. read_len.
    pose proof (blen_nonneg d). rewrite (varint_u64 (blen d)) by done. read_len.
    rewrite varint_i64 by done. rewrite <- (app_nil_r d) at 2. by read_data.
Qed.
Next Obligation.
  intros typ. unfold parseDatagramFrame. parser_step.
  apply (safe_bind (fun _ => True)).
  { repeat parser_step; done. }
  intros len _. repeat parser_step. apply Hv0.
Qed.

(** *** CRYPTO *)

#[export] Program Instance Crypto_codec : FrameCodec CryptoFrame := {
  frame_valid f := is_varint (cfOffset f) /\ payload (cfData f);
  frame_sendable f := is_varint (cfOffset f) /\ payload (cfData f);
  frame_type _ := cryptoFrameType;
  frame_body f := vencs [cfOffset f; blen (cfData f)] ++ cfData f;
  frame_wire := id;
  frame_tail := any_tail;
  frame_parse _ := parseCryptoFrame
}.
Next Obligation. intros b f (Ho & _ & Hl). codec_write. Qed.
Next Obligation. intros f (Ho & _ & Hl). codec_write. Qed.
Next Obligation.
  intros [o d] rest (Ho & _ & Hl) _ Hb. cbn [cfOffset cfData] in *. unfold parseCryptoFrame.
  rewrite <- app_assoc in Hb. pose proof (blen_app_r (vencs [o; blen d]) (d ++ rest)).
  codec_read. read_len. rewrite data_fits by lia.
  destruct (Z.eqb_spec (blen d) 0) as [E0|]; cbn [negb]; [|by read_data].
  destruct d; [done|]. rewrite blen_cons in E0. pose proof (blen_nonneg d). lia.
Qed.
Next Obligation.
  unfold parseCryptoFrame. intros typ. do 3 parser_step. apply safe_if; intros _; [apply safe_fail|].
  apply (safe_bind payload).
  { apply safe_if; intros _; [|apply safe_ret; done || (split; [constructor|done])].
    rewrite varint_i64 by done. eapply safe_mono; [apply safe_ReadFull|].
    intros d Hd. by destruct (payload_data_of v0 d). }
  intros d Hd. apply safe_ret. cbn. by rewrite varint_i64.
Qed.

(** *** STREAM *)

Definition streamFrame_ok (f : StreamFrame) : Prop :=
  is_varint (sfStreamID f) /\ is_varint (sfOffset f) /\ bytes_ok (sfData f) /\
  sfDataLen f <= MaxPacketBufferSize /\ sfOffset f + sfDataLen f <= MaxByteCount.

Lemma streamVarints_ok f :
  streamFrame_ok f ->
  streamVarints f = sfStreamID f ::
    (if negb (sfOffset f =? 0) then [sfOffset f] else []) ++
    (if sfDataLenPresent f then [sfDataLen f] else []) /\
  Forall is_varint (streamVarints f).
Proof.
  intros (H1 & H2 & _ & H3 & _). unfold streamVarints.
  assert (H4 : is_varint (sfDataLen f)).
  { unfold sfDataLen in *. pose proof (blen_nonneg (sfData f)).
    unfold MaxPacketBufferSize, is_varint, maxVarInt8 in *. lia. }
  rewrite !varint_u64 by done. split; [done|].
  apply Forall_cons. split; [done|]. destruct (negb _), (sfDataLenPresent f); solve_varints.
Qed.

Lemma vencs_app vs ws : vencs (vs ++ ws) = vencs vs ++ vencs ws.
Proof. unfold vencs. by rewrite fmap_app, concat_app. Qed.

Lemma vencs_one v : vencs [v] = venc v.
Proof. apply app_nil_r. Qed.

(** The flags in the type byte. *)
Lemma streamType_flags f :
  (0 <? Z.land (streamType f) 4) = negb (sfOffset f =? 0) /\
  (0 <? Z.land (streamType f) 1) = sfFin f /\ (0 <? Z.land (streamType f) 2) = sfDataLenPresent f.
Proof. unfold streamType. by destruct (sfFin f), (sfDataLenPresent f), (negb _). Qed.

Lemma parseStreamFrame_body f rest :
  streamFrame_ok f -> (sfDataLenPresent f = false -> rest = []) ->
  parseStreamFrame (streamType f) (vencs (streamVarints f) ++ sfData f ++ rest) = (Ok f, rest).
Proof.
  intros Hf Ht. destruct (streamVarints_ok f Hf) as [-> _]. destruct (streamType_flags f) as (E1 & E2 & E3).
  unfold parseStreamFrame. rewrite E1, E2, E3. destruct f as [sid off d fin p].
  destruct Hf as (H1 & H2 & _ & H3 & H4). clear E1 E2 E3.
  unfold sfDataLen in *. cbn [sfStreamID sfOffset sfData sfFin sfDataLenPresent] in *.
  pose proof (blen_nonneg d). unfold MaxPacketBufferSize, MaxByteCount in *.
  assert (Hl : is_varint (blen d)) by (unfold is_varint, maxVarInt8; lia).
  rewrite vencs_cons, vencs_app, <- !app_assoc. read_next.
  erewrite parser_bind_ok with (a := off) (r' := vencs (if p then [blen d] else []) ++ d ++ rest).
  2:{ destruct (Z.eqb_spec off 0) as [->|]; [done|]. cbn [negb].
      rewrite vencs_one. by apply varint_Read_venc. }
  cbv beta. read_len.
  erewrite parser_bind_ok with (a := blen d) (r' := d ++ rest).
  2:{ destruct p; [rewrite vencs_one; by apply varint_Read_venc|]. rewrite Ht, app_nil_r by done. cbn.
      by rewrite varint_u64. }
  cbv beta. unfold MinStreamFrameBufferSize. zfalse (1452 <? blen d). rewrite andb_false_r.
  erewrite parser_bind_ok with (a := d) (r' := rest).
  2:{ rewrite varint_i64 by done. destruct (Z.eqb_spec (blen d) 0) as [E0|]; [|by apply ReadFull_app].
      destruct d; [done|]. rewrite blen_cons in E0. pose proof (blen_nonneg d). lia. }
  cbv beta. rewrite (varint_i64 sid), (varint_i64 off) by done. unfold sfDataLen. cbn [sfOffset sfData].
  rewrite i64_small by (unfold is_varint, maxVarInt8 in *; int_range).
  by zfalse (2 ^ 62 - 1 <? off + blen d).
Qed.

Lemma parseStreamFrame_safe typ : safe_parser streamFrame_ok (parseStreamFrame typ).
Proof.
  unfold parseStreamFrame. parser_step.
  apply (safe_bind is_varint); [apply safe_if; intros _; [apply safe_varint|]|].
  { apply safe_ret. unfold is_varint, maxVarInt8. lia. }
  intros off Hoff. parser_step.
  apply (safe_bind (fun n => 0 <= n)).
  { apply safe_if; intros _; [eapply safe_mono; [apply safe_varint|]; intros ? [? _]; lia|].
    apply safe_ret. apply u64_range. }
  intros dataLen Hdl. apply safe_if; intros Hsmall; [apply safe_fail|].
  assert (Hmax : dataLen <= MaxPacketBufferSize).
  { apply andb_false_iff in Hsmall. unfold MinStreamFrameBufferSize, MaxPacketBufferSize in *. lia. }
  apply (safe_bind (fun d => bytes_ok d /\ blen d <= MaxPacketBufferSize)).
  { unfold MaxPacketBufferSize in *. apply safe_if; intros _; [|apply safe_ret; split; [constructor|done]].
    rewrite i64_small by int_range. eapply safe_mono; [apply safe_ReadFull|]. intros d [Hd Hl]. split; [done|lia]. }
  intros d [Hd Hl]. apply safe_if; intros Hov; [apply safe_fail|]. apply safe_ret.
  rewrite (varint_i64 off) in Hov by done. rewrite (varint_i64 v), (varint_i64 off) by done.
  apply Z.ltb_ge in Hov. unfold sfDataLen in Hov. cbn [sfOffset sfData] in Hov.
  pose proof (blen_nonneg d). unfold MaxPacketBufferSize in *.
  rewrite i64_small in Hov by (unfold is_varint, maxVarInt8 in *; int_range).
  split; [done|]. split; [done|]. split; [done|]. by split.
Qed.

#[export] Program Instance Stream_codec : FrameCodec StreamFrame := {
  frame_valid := streamFrame_ok;
  frame_sendable f := streamFrame_ok f /\ (sfData f <> [] \/ sfFin f = true);
  frame_type := streamType;
  frame_body f := vencs (streamVarints f) ++ sfData f;
  frame_wire := id;
  frame_tail f rest := sfDataLenPresent f = false -> rest = [];
  frame_parse := parseStreamFrame
}.
Next Obligation.
  intros b f [Hf Hne]. frame_unfold.
  assert (E : (blen (sfData f) =? 0) && negb (sfFin f) = false).
  { destruct Hne as [Hne| ->]; [|by rewrite andb_false_r]. destruct (sfData f); [done|].
    rewrite blen_cons. pose proof (blen_nonneg l). by zfalse (1 + blen l =? 0). }
  rewrite E, appendVarints_vencs by by apply streamVarints_ok.
  cbn [mbind res_bind]. by rewrite <- !app_assoc.
Qed.
Next Obligation.
  intros f [Hf _]. frame_unfold. rewrite lenVarints_vencs by by apply streamVarints_ok.
  cbn [mbind res_bind]. rewrite blen_app. unfold sfDataLen. f_equal. lia.
Qed.
Next Obligation.
  intros f rest [Hf _] Ht _. rewrite <- app_assoc. by apply parseStreamFrame_body.
Qed.
Next Obligation. apply parseStreamFrame_safe. Qed.

(** *** ACK *)

(** The number of ranges after the first that fit into the frame. *)
Definition ackMoreRanges (f : AckFrame) : nat :=
  match numEncodableAckRanges f with Ok n => Z.to_nat (n - 1) | _ => 0%nat end.

Lemma ack_facts f :
  ack_wf f -> exists r0 rs, AckRanges f = r0 :: rs /\ (ackMoreRanges f <= length rs)%nat /\
    Z.of_nat (ackMoreRanges f) <= maxVarInt8 /\ numEncodableAckRanges f = Ok (Z.of_nat (S (ackMoreRanges f))).
Proof.
  intros Hwf. destruct (numEncodableAckRanges_spec f Hwf) as (r0 & rs & n & Hr & Hnum & Hn & _ & Hsz).
  exists r0, rs. unfold ackMoreRanges. rewrite Hnum.
  replace (Z.to_nat (Z.of_nat (S n) - 1)) with n by lia. split; [done|]. split; [done|]. split; [|done].
  destruct Hwf as (_ & Hd & _). rewrite Hr in Hd. destruct Hd as (? & ? & Hd).
  pose proof (enc_ranges_count (take n rs) r0 (ranges_desc_take _ _ n Hd) ltac:(lia)) as Hc.
  rewrite length_take in Hc. unfold maxVarInt8, MaxAckFrameSize in *. lia.
Qed.

(** Parsing an ACK frame only consumes input. *)
Definition consumes {A} (m : parser A) : Prop := forall r, bytes_ok r -> suffix (m r).2 r.

Lemma consumes_bind {A B} (m : parser A) (f : A -> parser B) :
  consumes m -> (forall a, consumes (f a)) -> consumes (m ≫= f).
Proof.
  intros Hm Hf r Hr. specialize (Hm r Hr). unfold mbind, stM_bind.
  destruct (m r) as [[a|e|p] r1]; cbn in *; [|done..].
  etrans; [apply Hf; by eapply suffix_bytes_ok|done].
Qed.

Lemma consumes_safe {A} (P : A -> Prop) (m : parser A) : safe_parser P m -> consumes m.
Proof. intros Hm r Hr. specialize (Hm r Hr). destruct (m r) as [[]]; naive_solver. Qed.

Lemma consumes_varint : consumes varint_Read.
Proof. apply (consumes_safe _ _ safe_varint). Qed.

Lemma consumes_ret {A} (a : A) : consumes (mret a).
Proof. intros r _. cbn. reflexivity. Qed.

Lemma consumes_parseAckRanges fuel : forall n smallest ranges, consumes (parseAckRanges fuel n smallest ranges).
Proof.
  induction fuel as [|fuel IH]; intros n smallest ranges; cbn [parseAckRanges];
    (destruct (n <=? 0); [apply consumes_ret|]).
  - intros r _. cbn. reflexivity.
  - apply consumes_bind; [apply consumes_varint|intros g]. cbv zeta.
    destruct (_ <? _); [by apply (consumes_safe (fun _ => True)), safe_fail|].
    apply consumes_bind; [apply consumes_varint|intros ab].
    destruct (_ <? _); [by apply (consumes_safe (fun _ => True)), safe_fail|]. apply IH.
Qed.

Lemma consumes_parseAckFrame frame typ exp : consumes (parseAckFrame frame typ exp).
Proof.
  unfold parseAckFrame. do 4 (apply consumes_bind; [apply consumes_varint|intros ?]). cbv zeta.
  destruct (_ <? _); [by apply (consumes_safe (fun _ => True)), safe_fail|].
  apply consumes_bind; [apply (consumes_safe _ _ safe_reader_len)|intros n].
  apply consumes_bind; [apply consumes_parseAckRanges|intros ranges].
  destruct (negb _); [by apply (consumes_safe (fun _ => True)), safe_fail|].
  destruct (_ =? _); [|apply consumes_ret].
  do 3 (apply consumes_bind; [apply consumes_varint|intros ?]). apply consumes_ret.
Qed.

Lemma parseAckFrame_safe_parser typ exp : safe_parser ack_parsed (parseAckFrame emptyAckFrame typ exp).
Proof.
  intros r Hr. pose proof (parseAckFrame_safe typ exp r Hr) as Hp.
  pose proof (consumes_parseAckFrame emptyAckFrame typ exp r Hr) as Hc. unfold parses in Hp.
  destruct (parseAckFrame _ _ _ r) as [[f|e|p] r']; cbn in *; naive_solver.
Qed.

#[export] Program Instance Ack_codec : FrameCodec AckFrame := {
  frame_valid := ack_parsed;
  frame_sendable := ack_wf;
  frame_type := ack_type;
  frame_body f :=
    match AckRanges f with r0 :: rs => ack_body f r0 rs (ackMoreRanges f) | [] => [] end;
  frame_wire f := ack_on_wire f (S (ackMoreRanges f));
  frame_tail := any_tail;
  frame_parse typ := parseAckFrame emptyAckFrame typ AckDelayExponent
}.
Next Obligation.
  intros b f Hf. destruct (ack_facts f Hf) as (r0 & rs & Hr & Hn & Hs & Hnum). rewrite Hr.
  by apply AckFrame_Append_body.
Qed.
Next Obligation.
  intros f Hf. destruct (ack_facts f Hf) as (r0 & rs & Hr & Hn & Hs & Hnum). rewrite Hr.
  by apply AckFrame_Length_body.
Qed.
Next Obligation.
  intros f rest Hf _ _. destruct (ack_facts f Hf) as (r0 & rs & Hr & Hn & Hs & Hnum). rewrite Hr.
  by apply parseAckFrame_body.
Qed.
Next Obligation. intros. apply parseAckFrame_safe_parser. Qed.
