(* ===== verification/FrameParser.v ===== *)
(** * FrameParser: parsing the frames of a packet

    Models internal/wire/frame_parser.go.  The parser's cached [bytes.Reader] is
    the reader state of the [parser] monad; its cached ACK frame is reset before
    every use and consumed before the next frame is parsed, so a fresh value
    stands for it. *)

From S2P Require Import Prelude Protocol Varint AckFrame Frames.
From stdpp Require Import base numbers list option strings.
From Stdlib Require Import ZArith Lia.
#[local] Open Scope Z_scope.

(** The values of the interface type [wire.Frame]. *)
Inductive wireFrame :=
  | FStream (f : StreamFrame)
  | FPing (f : PingFrame)
  | FAck (f : AckFrame)
  | FResetStream (f : ResetStreamFrame)
  | FStopSending (f : StopSendingFrame)
  | FCrypto (f : CryptoFrame)
  | FNewToken (f : NewTokenFrame)
  | FMaxData (f : MaxDataFrame)
  | FMaxStreamData (f : MaxStreamDataFrame)
  | FMaxStreams (f : MaxStreamsFrame)
  | FDataBlocked (f : DataBlockedFrame)
  | FStreamDataBlocked (f : StreamDataBlockedFrame)
  | FStreamsBlocked (f : StreamsBlockedFrame)
  | FNewConnectionID (f : NewConnectionIDFrame)
  | FRetireConnectionID (f : RetireConnectionIDFrame)
  | FPathChallenge (f : PathChallengeFrame)
  | FPathResponse (f : PathResponseFrame)
  | FConnectionClose (f : ConnectionCloseFrame)
  | FHandshakeDone (f : HandshakeDoneFrame)
  | FDatagram (f : DatagramFrame).

Record frameParser := mkFrameParser { fpAckDelayExponent : Z; fpSupportsDatagrams : bool }.

Definition NewFrameParser (supportsDatagrams : bool) : frameParser := mkFrameParser 0 supportsDatagrams.

Definition SetAckDelayExponent (exp : Z) (p : frameParser) : frameParser :=
  mkFrameParser exp (fpSupportsDatagrams p).

(** [err.Error()] *)
Fixpoint error_text (e : GoError) : string :=
  match e with
  | EOF => "EOF"
  | ErrUnexpectedEOF => "unexpected EOF"
  | ErrorString msg => msg
  | TransportError _ _ msg => msg
  | HeaderParseError e => error_text e
  | StreamError msg _ | FmtError msg _ => msg
  end.

Definition FrameEncodingError : Z := 0x7.

(** The result of a parser as a value of the interface. *)
Definition as_frame {F} (c : F -> wireFrame) (m : parser F) : parser wireFrame :=
  f ← m; mret (c f).

Definition is_type (typ : Z) (ts : list Z) : bool := bool_decide (typ ∈ ts).

(** The switch of [parseFrame]. *)
Definition parseFrameType (p : frameParser) (typ : Z) (encLevel : EncryptionLevel) : parser wireFrame :=
  if Z.land typ 0xf8 =? 0x8 then as_frame FStream (parseStreamFrame typ)
  else if typ =? pingFrameType then mret (FPing mkPing)
  else if is_type typ [ackFrameType; ackECNFrameType] then
    let ackDelayExponent :=
      if negb (bool_decide (encLevel = Encryption1RTT)) then DefaultAckDelayExponent else fpAckDelayExponent p in
    as_frame FAck (parseAckFrame (AckFrame_Reset emptyAckFrame) typ ackDelayExponent)
  else if typ =? resetStreamFrameType then as_frame FResetStream parseResetStreamFrame
  else if typ =? stopSendingFrameType then as_frame FStopSending parseStopSendingFrame
  else if typ =? cryptoFrameType then as_frame FCrypto parseCryptoFrame
  else if typ =? newTokenFrameType then as_frame FNewToken parseNewTokenFrame
  else if typ =? maxDataFrameType then as_frame FMaxData parseMaxDataFrame
  else if typ =? maxStreamDataFrameType then as_frame FMaxStreamData parseMaxStreamDataFrame
  else if is_type typ [bidiMaxStreamsFrameType; uniMaxStreamsFrameType]
    then as_frame FMaxStreams (parseMaxStreamsFrame typ)
  else if typ =? dataBlockedFrameType then as_frame FDataBlocked parseDataBlockedFrame
  else if typ =? streamDataBlockedFrameType then as_frame FStreamDataBlocked parseStreamDataBlockedFrame
  else if is_type typ [bidiStreamBlockedFrameType; uniStreamBlockedFrameType]
    then as_frame FStreamsBlocked (parseStreamsBlockedFrame typ)
  else if typ =? newConnectionIDFrameType then as_frame FNewConnectionID parseNewConnectionIDFrame
  else if typ =? retireConnectionIDFrameType then as_frame FRetireConnectionID parseRetireConnectionIDFrame
  else if typ =? pathChallengeFrameType then as_frame FPathChallenge parsePathChallengeFrame
  else if typ =? pathResponseFrameType then as_frame FPathResponse parsePathResponseFrame
  else if is_type typ [connectionCloseFrameType; applicationCloseFrameType]
    then as_frame FConnectionClose (parseConnectionCloseFrame typ)
  else if typ =? handshakeDoneFrameType then mret (FHandshakeDone mkHandshakeDone)
  else if is_type typ [0x30; 0x31] && fpSupportsDatagrams p then as_frame FDatagram (parseDatagramFrame typ)
  else fail (ErrorString "unknown frame type").

Definition isAllowedAtEncLevel (f : wireFrame) (encLevel : EncryptionLevel) : bool :=
  match encLevel with
  | EncryptionInitial | EncryptionHandshake =>
      match f with FCrypto _ | FAck _ | FConnectionClose _ | FPing _ => true | _ => false end
  | Encryption0RTT =>
      match f with
      | FCrypto _ | FAck _ | FConnectionClose _ | FNewToken _ | FPathResponse _ | FRetireConnectionID _ => false
      | _ => true
      end
  | Encryption1RTT => true
  end.

Definition errNotAllowed : GoError := ErrorString "%s not allowed at encryption level %s".

Definition parseFrame (p : frameParser) (typ : Z) (encLevel : EncryptionLevel) : parser wireFrame :=
  frame ← parseFrameType p typ encLevel;
  if negb (isAllowedAtEncLevel frame encLevel) then fail errNotAllowed else mret frame.

(** [&qerr.TransportError{FrameType: typ, ErrorCode: FrameEncodingError, ...}] *)
Definition encodingError {A} (typ : Z) (m : parser A) : parser A := fun r =>
  match m r with
  | (Err e, r') => (Err (TransportError FrameEncodingError typ (error_text e)), r')
  | x => x
  end.

(** The loop that skips PADDING frames; every turn reads at least a byte. *)
Fixpoint parseNext_loop (fuel : nat) (p : frameParser) (encLevel : EncryptionLevel)
    : parser (option wireFrame) :=
  n ← reader_len;
  if n =? 0 then mret None
  else
    match fuel with
    | O => lift (Panic "out of fuel")
    | S fuel' =>
        typ ← encodingError 0 varint_Read;
        if typ =? 0 then parseNext_loop fuel' p encLevel
        else f ← encodingError typ (parseFrame p typ encLevel); mret (Some f)
    end.

Definition parseNext (p : frameParser) (encLevel : EncryptionLevel) : parser (option wireFrame) := fun r =>
  parseNext_loop (length r) p encLevel r.

(** The number of bytes parsed, and the frame; no frame if only PADDING was left. *)
Definition ParseNext (p : frameParser) (data : bytes) (encLevel : EncryptionLevel)
    : res (Z * option wireFrame) :=
  match parseNext p encLevel data with
  | (Ok f, r) => Ok (blen data - blen r, f)
  | (Err e, _) => Err e
  | (Panic m, _) => Panic m
  end.

(** Dispatch to the methods of the frame. *)
#[export] Instance wireFrame_frame : WireFrame wireFrame := {
  frame_Append b f :=
    match f with
    | FStream f => frame_Append b f | FPing f => frame_Append b f | FAck f => frame_Append b f
    | FResetStream f => frame_Append b f | FStopSending f => frame_Append b f | FCrypto f => frame_Append b f
    | FNewToken f => frame_Append b f | FMaxData f => frame_Append b f | FMaxStreamData f => frame_Append b f
    | FMaxStreams f => frame_Append b f | FDataBlocked f => frame_Append b f
    | FStreamDataBlocked f => frame_Append b f | FStreamsBlocked f => frame_Append b f
    | FNewConnectionID f => frame_Append b f | FRetireConnectionID f => frame_Append b f
    | FPathChallenge f => frame_Append b f | FPathResponse f => frame_Append b f
    | FConnectionClose f => frame_Append b f | FHandshakeDone f => frame_Append b f
    | FDatagram f => frame_Append b f
    end;
  frame_Length f :=
    match f with
    | FStream f => frame_Length f | FPing f => frame_Length f | FAck f => frame_Length f
    | FResetStream f => frame_Length f | FStopSending f => frame_Length f | FCrypto f => frame_Length f
    | FNewToken f => frame_Length f | FMaxData f => frame_Length f | FMaxStreamData f => frame_Length f
    | FMaxStreams f => frame_Length f | FDataBlocked f => frame_Length f
    | FStreamDataBlocked f => frame_Length f | FStreamsBlocked f => frame_Length f
    | FNewConnectionID f => frame_Length f | FRetireConnectionID f => frame_Length f
    | FPathChallenge f => frame_Length f | FPathResponse f => frame_Length f
    | FConnectionClose f => frame_Length f | FHandshakeDone f => frame_Length f
    | FDatagram f => frame_Length f
    end
}.

(** ** The codec of a frame

    [with_codec k f] applies [k] to the frame in [f], its codec, and the
    constructor. *)

Definition with_codec {R} (k : forall F (W : WireFrame F), FrameCodec F -> F -> (F -> wireFrame) -> R)
    (f : wireFrame) : R :=
  match f with
  | FStream x => k _ _ _ x FStream | FPing x => k _ _ _ x FPing | FAck x => k _ _ _ x FAck
  | FResetStream x => k _ _ _ x FResetStream | FStopSending x => k _ _ _ x FStopSending
  | FCrypto x => k _ _ _ x FCrypto | FNewToken x => k _ _ _ x FNewToken
  | FMaxData x => k _ _ _ x FMaxData | FMaxStreamData x => k _ _ _ x FMaxStreamData
  | FMaxStreams x => k _ _ _ x FMaxStreams | FDataBlocked x => k _ _ _ x FDataBlocked
  | FStreamDataBlocked x => k _ _ _ x FStreamDataBlocked | FStreamsBlocked x => k _ _ _ x FStreamsBlocked
  | FNewConnectionID x => k _ _ _ x FNewConnectionID | FRetireConnectionID x => k _ _ _ x FRetireConnectionID
  | FPathChallenge x => k _ _ _ x FPathChallenge | FPathResponse x => k _ _ _ x FPathResponse
  | FConnectionClose x => k _ _ _ x FConnectionClose | FHandshakeDone x => k _ _ _ x FHandshakeDone
  | FDatagram x => k _ _ _ x FDatagram
  end.

Definition wf_valid : wireFrame -> Prop := with_codec (fun _ _ _ x _ => frame_valid x).
Definition wf_sendable : wireFrame -> Prop := with_codec (fun _ _ _ x _ => frame_sendable x).
Definition wf_type : wireFrame -> Z := with_codec (fun _ _ _ x _ => frame_type x).
Definition wf_body : wireFrame -> bytes := with_codec (fun _ _ _ x _ => frame_body x).
Definition wf_wire : wireFrame -> wireFrame := with_codec (fun _ _ _ x c => c (frame_wire x)).
Definition wf_tail (f : wireFrame) (rest : bytes) : Prop := with_codec (fun _ _ _ x _ => frame_tail x rest) f.

(** The bytes of a frame on the wire. *)
Definition wf_bytes (f : wireFrame) : bytes := wf_type f :: wf_body f.

(** The parser is configured for the frame: DATAGRAM frames are enabled, and
    the exponent of an ACK frame's delay is the one the sender used. *)
Definition wf_supported (p : frameParser) (encLevel : EncryptionLevel) (f : wireFrame) : Prop :=
  match f with
  | FDatagram _ => fpSupportsDatagrams p = true
  | FAck _ => encLevel = Encryption1RTT -> fpAckDelayExponent p = AckDelayExponent
  | _ => True
  end.

Lemma wf_append b f : wf_sendable f -> frame_Append b f = Ok (b ++ wf_bytes f).
Proof. destruct f; intros Hf; exact (codec_append _ _ Hf). Qed.

Lemma wf_length f : wf_sendable f -> frame_Length f = Ok (blen (wf_bytes f)).
Proof. destruct f; intros Hf; (etrans; [exact (codec_length _ Hf)|]); unfold wf_bytes; by rewrite blen_cons. Qed.

Lemma streamType_mask f : Z.land (streamType f) 0xf8 = 0x8.
Proof. unfold streamType. by destruct (sfFin f), (sfDataLenPresent f), (negb _). Qed.

(** The switch picks the parser of the frame's type. *)
Lemma parseFrameType_dispatch p f encLevel :
  wf_supported p encLevel f ->
  parseFrameType p (wf_type f) encLevel =
  with_codec (fun _ _ _ x c => as_frame c (frame_parse (frame_type x))) f.
Proof.
  intros Hs. destruct f as [x|x|x|x|x|x|x|x|x|x|x|x|x|x|x|x|x|x|x|x]; try done.
  - change (wf_type (FStream x)) with (streamType x). unfold parseFrameType. by rewrite streamType_mask.
  - assert (E : (if negb (bool_decide (encLevel = Encryption1RTT)) then DefaultAckDelayExponent
       else fpAckDelayExponent p) = AckDelayExponent) by (case_bool_decide; [by apply Hs|done]).
    change (wf_type (FAck x)) with (ack_type x). unfold parseFrameType. cbv zeta. rewrite E.
    cbn. unfold ack_type. by destruct (AckFrame_hasECN x).
  - cbn. unfold maxStreamsType. by destruct (msType x).
  - cbn. unfold streamsBlockedType. by destruct (sbType x).
  - cbn. by destruct (ccIsApplicationError x).
  - cbn in *. unfold parseFrameType. rewrite Hs. by destruct (dgDataLenPresent x).
Qed.

Lemma as_frame_ok {F} (c : F -> wireFrame) (m : parser F) r r' x :
  m r = (Ok x, r') -> as_frame c m r = (Ok (c x), r').
Proof. intros E. unfold as_frame. by rewrite (parser_bind_ok _ _ _ _ _ E). Qed.

Lemma parseFrameType_body p f encLevel rest :
  wf_sendable f -> wf_supported p encLevel f -> wf_tail f rest -> blen (wf_body f ++ rest) < 2 ^ 63 ->
  parseFrameType p (wf_type f) encLevel (wf_body f ++ rest) = (Ok (wf_wire f), rest).
Proof.
  intros Hf Hs Ht Hb. rewrite parseFrameType_dispatch by done.
  destruct f; exact (as_frame_ok _ _ _ _ _ (codec_parse _ _ Hf Ht Hb)).
Qed.

(** ** Parsing arbitrary input *)

Lemma safe_as_frame {F} `{FrameCodec F} (c : F -> wireFrame) (m : parser F) :
  (forall x, wf_valid (c x) = frame_valid x) -> safe_parser frame_valid m -> safe_parser wf_valid (as_frame c m).
Proof.
  intros Hc Hm. eapply safe_bind; [exact Hm|]. intros x Hx. apply safe_ret. by rewrite Hc.
Qed.

Lemma parseFrameType_safe p typ encLevel : safe_parser wf_valid (parseFrameType p typ encLevel).
Proof.
  unfold parseFrameType. cbv zeta.
  repeat (apply safe_if; intros _);
    try apply safe_fail; try (apply safe_ret; done);
    (apply safe_as_frame; [done|]); try exact (codec_safe typ).
  apply parseAckFrame_safe_parser.
Qed.

Definition allowed_frame (encLevel : EncryptionLevel) (f : wireFrame) : Prop :=
  wf_valid f /\ isAllowedAtEncLevel f encLevel = true.

Lemma parseFrame_safe p typ encLevel : safe_parser (allowed_frame encLevel) (parseFrame p typ encLevel).
Proof.
  unfold parseFrame. eapply safe_bind; [apply parseFrameType_safe|]. intros f Hf.
  apply safe_if; intros Ha; [apply safe_fail|]. apply safe_ret. split; [done|].
  by destruct (isAllowedAtEncLevel f encLevel).
Qed.

(** What the parser returns for the frames left in [r]. *)
Definition next_result (encLevel : EncryptionLevel) (r : bytes) (o : res (option wireFrame) * bytes) : Prop :=
  match o with
  | (Ok None, r') => r' = []
  | (Ok (Some f), r') => allowed_frame encLevel f /\ suffix r' r /\ blen r' < blen r
  | (Err e, _) => exists typ msg, e = TransportError FrameEncodingError typ msg
  | (Panic _, _) => False
  end.

Lemma suffix_blen (r' r : bytes) : suffix r' r -> blen r' <= blen r.
Proof. intros [k ->]. apply blen_app_r. Qed.

Lemma varint_Read_shrinks r : bytes_ok r ->
  match varint_Read r with
  | (Ok v, r') => suffix r' r /\ blen r' < blen r
  | (Err _, _) => True
  | (Panic _, _) => False
  end.
Proof.
  intros Hr. destruct (varint_Read_total r Hr) as [[e E]|(used & v & r' & Er & E & _ & _ & Hu)]; rewrite E; [done|].
  subst r. split; [by exists used|]. rewrite blen_app. lia.
Qed.

Lemma parseNext_loop_safe p encLevel : forall fuel r,
  bytes_ok r -> (length r <= fuel)%nat -> next_result encLevel r (parseNext_loop fuel p encLevel r).
Proof.
  induction fuel as [|fuel IH]; intros r Hr Hlen; cbn [parseNext_loop];
    (rewrite (parser_bind_ok reader_len _ r r (blen r)) by done);
    (destruct (Z.eqb_spec (blen r) 0) as [E0|E0]; [destruct r; [done|]; rewrite blen_cons in E0;
      pose proof (blen_nonneg r); lia|]).
  { destruct r; [done|cbn in Hlen; lia]. }
  pose proof (varint_Read_shrinks r Hr) as Hv. unfold mbind at 1, stM_bind at 1, encodingError at 1.
  destruct (varint_Read r) as [[typ|e|m] r1]; [|by eexists _, _|done].
  destruct Hv as [Hs Hlt]. pose proof (suffix_bytes_ok _ _ Hs Hr) as Hr1.
  destruct (typ =? 0).
  - specialize (IH r1 Hr1 ltac:(unfold blen in Hlt; lia)). unfold next_result in *.
    destruct (parseNext_loop fuel p encLevel r1) as [[[f|]|e|m] r2]; try done.
    destruct IH as (Hf & Hs2 & Hlt2). split; [done|]. split; [by etrans|lia].
  - pose proof (parseFrame_safe p typ encLevel r1 Hr1) as Hf. unfold mbind, stM_bind, encodingError.
    destruct (parseFrame p typ encLevel r1) as [[f|e|m] r2]; [|by eexists _, _|done].
    destruct Hf as [Hf Hs2]. pose proof (suffix_blen _ _ Hs2).
    split; [done|]. split; [by etrans|lia].
Qed.

(** C15: Parsing frames from arbitrary bytes is safe.  [ParseNext] terminates
    without a panic; every frame it returns is well-formed, allowed at the
    encryption level of the packet, and takes at least one byte; if it returns no
    frame, only PADDING was left and all of it is consumed; and every error it
    returns is a connection error of type FRAME_ENCODING_ERROR. *)
Theorem frame_parser_safe p data encLevel :
  bytes_ok data ->
  match ParseNext p data encLevel with
  | Ok (n, Some f) => 0 < n <= blen data /\ wf_valid f /\ isAllowedAtEncLevel f encLevel = true
  | Ok (n, None) => n = blen data
  | Err e => exists typ msg, e = TransportError FrameEncodingError typ msg
  | Panic _ => False
  end.
Proof.
  intros Hr. pose proof (parseNext_loop_safe p encLevel (length data) data Hr (le_n _)) as Hn.
  unfold ParseNext, parseNext. unfold next_result in Hn.
  destruct (parseNext_loop _ _ _ _) as [[[f|]|e|m] r']; try done.
  - destruct Hn as ([Hv Ha] & Hs & Hlt). pose proof (blen_nonneg r'). split; [lia|done].
  - subst r'. change (blen (@nil Z)) with 0. lia.
Qed.

Lemma frame_parser_safe_witness :
  match ParseNext (NewFrameParser false) [0; 0; 0x10; 64; 200; 1] EncryptionInitial with
  | Err e => exists typ msg, e = TransportError FrameEncodingError typ msg
  | _ => False
  end.
Proof.
  pose proof (frame_parser_safe (NewFrameParser false) [0; 0; 0x10; 64; 200; 1] EncryptionInitial) as H.
  assert (E : exists e, ParseNext (NewFrameParser false) [0; 0; 0x10; 64; 200; 1] EncryptionInitial = Err e).
  { eexists. vm_compute. reflexivity. }
  destruct E as [e E]. rewrite E in *. apply H. repeat constructor; lia.
Defined.

(** ** Round trip *)

Lemma venc_small t : 0 <= t < 64 -> venc t = [t].
Proof.
  intros Ht. unfold venc, varint_Append, maxVarInt1. ztrue (t <=? 63).
  by rewrite (u8_small t) by int_range.
Qed.

Lemma varint_Read_small t r : 0 <= t < 64 -> varint_Read (t :: r) = (Ok t, r).
Proof.
  intros Ht. rewrite <- (varint_Read_venc t r) by (unfold is_varint, maxVarInt8; lia). by rewrite venc_small.
Qed.

Lemma wf_type_range f : 0 < wf_type f < 64.
Proof.
  destruct f as [x|x|x|x|x|x|x|x|x|x|x|x|x|x|x|x|x|x|x|x]; try done.
  - change (wf_type (FStream x)) with (streamType x). unfold streamType.
    by destruct (sfFin x), (sfDataLenPresent x), (negb _).
  - cbn. unfold ack_type. by destruct (AckFrame_hasECN x).
  - cbn. unfold maxStreamsType. by destruct (msType x).
  - cbn. unfold streamsBlockedType. by destruct (sbType x).
  - cbn. by destruct (ccIsApplicationError x).
  - cbn. by destruct (dgDataLenPresent x).
Qed.

Lemma parseNext_padding p encLevel k : forall fuel r,
  parseNext_loop (k + fuel) p encLevel (replicate k 0 ++ r) = parseNext_loop fuel p encLevel r.
Proof.
  induction k as [|k IH]; intros fuel r; [done|]. cbn [replicate app Nat.add parseNext_loop].
  rewrite (parser_bind_ok reader_len _ _ (0 :: replicate k 0 ++ r) (blen (0 :: replicate k 0 ++ r))) by done.
  rewrite blen_cons. pose proof (blen_nonneg (replicate k 0 ++ r)).
  zfalse (1 + blen (replicate k 0 ++ r) =? 0).
  rewrite (parser_bind_ok _ _ _ (replicate k 0 ++ r) 0); [apply IH|].
  unfold encodingError. by rewrite varint_Read_small.
Qed.

Lemma parseNext_frame p encLevel f rest fuel :
  wf_sendable f -> wf_supported p encLevel f -> wf_tail f rest ->
  isAllowedAtEncLevel (wf_wire f) encLevel = true -> blen (wf_bytes f ++ rest) < 2 ^ 63 ->
  parseNext_loop (S fuel) p encLevel (wf_bytes f ++ rest) = (Ok (Some (wf_wire f)), rest).
Proof.
  intros Hf Hs Ht Ha Hb. unfold wf_bytes in *. cbn [app] in *. cbn [parseNext_loop].
  set (r := wf_body f ++ rest) in *. rewrite blen_cons in Hb. pose proof (blen_nonneg r).
  rewrite (parser_bind_ok reader_len _ _ (wf_type f :: r) (blen (wf_type f :: r))) by done.
  rewrite blen_cons. zfalse (1 + blen r =? 0). pose proof (wf_type_range f).
  rewrite (parser_bind_ok _ _ _ r (wf_type f));
    [|unfold encodingError; rewrite varint_Read_small by lia; done].
  zfalse (wf_type f =? 0).
  rewrite (parser_bind_ok _ _ _ rest (wf_wire f)); [done|]. unfold encodingError, parseFrame.
  rewrite (parser_bind_ok _ _ r rest (wf_wire f)) by (apply parseFrameType_body; [done..|fold r; lia]).
  by rewrite Ha.
Qed.

Lemma wf_wire_allowed f encLevel : isAllowedAtEncLevel (wf_wire f) encLevel = isAllowedAtEncLevel f encLevel.
Proof. by destruct f. Qed.

(** The parser on a frame, after any number of PADDING frames. *)
Lemma ParseNext_frame p encLevel f rest k :
  wf_sendable f -> wf_supported p encLevel f -> wf_tail f rest ->
  isAllowedAtEncLevel f encLevel = true -> blen (wf_bytes f ++ rest) < 2 ^ 63 ->
  ParseNext p (replicate k 0 ++ wf_bytes f ++ rest) encLevel =
  Ok (Z.of_nat k + blen (wf_bytes f), Some (wf_wire f)).
Proof.
  intros Hf Hs Ht Ha Hb. unfold ParseNext, parseNext.
  assert (Hlen : exists fuel, length (replicate k 0 ++ wf_bytes f ++ rest) = (k + S fuel)%nat).
  { exists (length (wf_body f ++ rest)). rewrite length_app, length_replicate. unfold wf_bytes. cbn. lia. }
  destruct Hlen as [fuel ->]. rewrite parseNext_padding, parseNext_frame by (done || by rewrite wf_wire_allowed).
  rewrite !blen_app. unfold blen at 1. rewrite length_replicate. do 2 f_equal. lia.
Qed.

(** C14: Frames survive the round trip.  A well-formed frame of any of the 20
    types is written as [Length] bytes; the parser of an endpoint that supports
    it, given these bytes after any amount of padding and before any (permitted)
    rest, at an encryption level where the frame is allowed, returns the frame
    and exactly these bytes as consumed.  Only ACK frames change on the wire:
    the ranges that do not fit are left out and the delay is rounded down. *)
Theorem frame_parser_roundtrip p encLevel f rest k b :
  wf_sendable f -> wf_supported p encLevel f -> wf_tail f rest ->
  isAllowedAtEncLevel f encLevel = true -> blen (wf_bytes f ++ rest) < 2 ^ 63 ->
  exists bs, frame_Append b f = Ok (b ++ bs) /\ frame_Length f = Ok (blen bs) /\
    ParseNext p (replicate k 0 ++ bs ++ rest) encLevel = Ok (Z.of_nat k + blen bs, Some (wf_wire f)).
Proof.
  intros Hf Hs Ht Ha Hb. exists (wf_bytes f).
  split; [by apply wf_append|]. split; [by apply wf_length|by apply ParseNext_frame].
Qed.

Lemma frame_parser_roundtrip_witness :
  let f := FStream (mkStream 4 1000 [1; 2; 3] true true) in
  exists bs, frame_Append [] f = Ok bs /\ frame_Length f = Ok (blen bs) /\
    ParseNext (NewFrameParser true) (replicate 2 0 ++ bs ++ [7]) Encryption0RTT = Ok (2 + blen bs, Some f).
Proof.
  destruct (frame_parser_roundtrip (NewFrameParser true) Encryption0RTT
    (FStream (mkStream 4 1000 [1; 2; 3] true true)) [7] 2 []) as (bs & H1 & H2 & H3).
  - split; [|left; discriminate]. repeat split; try (vm_compute; congruence). repeat constructor; lia.
  - done.
  - discriminate.
  - reflexivity.
  - vm_compute. reflexivity.
  - exists bs. split; [exact H1|]. split; [exact H2|exact H3].
Defined.

(** The check for STREAM frames only looks at bits 3 to 7 of the frame type, an
    integer of up to 62 bits: the unknown frame type 0x108 is parsed as a STREAM
    frame instead of being rejected. *)
Theorem frame_type_mask_accepts_unknown :
  ParseNext (NewFrameParser false) [0x41; 0x08; 0x04; 0x61; 0x62] Encryption1RTT =
  Ok (5, Some (FStream (mkStream 4 0 [0x61; 0x62] false false))).
Proof. vm_compute. reflexivity. Qed.
