(* ===== verification/FrameSplit.v ===== *)
(** * FrameSplit: cutting CRYPTO and STREAM frames to size

    Models [MaxDataLen] and [MaybeSplitOffFrame] of internal/wire/crypto_frame.go,
    stream_frame.go and datagram_frame.go.  A split returns the frame to send and
    leaves the rest in the receiver, so the functions return both. *)

From S2P Require Import Prelude Protocol Varint Frames.
From stdpp Require Import base numbers list option strings.
From Stdlib Require Import ZArith Lia.
#[local] Open Scope Z_scope.

(** The part the three [MaxDataLen] share: [headerLen] assumes a length field of
    one byte. *)
Definition fitData (headerLen maxSize : Z) (hasLen : bool) : res Z :=
  if maxSize <? headerLen then Ok 0
  else
    let maxDataLen := maxSize - headerLen in
    if hasLen then
      l ← varint_Len (u64 maxDataLen);
      Ok (if negb (l =? 1) then maxDataLen - 1 else maxDataLen)
    else Ok maxDataLen.

Definition crypto_MaxDataLen (f : CryptoFrame) (maxSize : Z) : res Z :=
  l ← varint_Len (u64 (cfOffset f));
  fitData (1 + l + 1) maxSize true.

Definition stream_MaxDataLen (f : StreamFrame) (maxSize : Z) : res Z :=
  headerLen ← lenVarints 1 (u64 (sfStreamID f) :: (if negb (sfOffset f =? 0) then [u64 (sfOffset f)] else []));
  fitData (if sfDataLenPresent f then headerLen + 1 else headerLen) maxSize (sfDataLenPresent f).

Definition datagram_MaxDataLen (f : DatagramFrame) (maxSize : Z) : res Z :=
  fitData (if dgDataLenPresent f then 2 else 1) maxSize (dgDataLenPresent f).

(** The frame split off (if any), whether a split was required, and what is left
    of the frame.  [make] panics on a negative length. *)
Definition crypto_MaybeSplitOffFrame (f : CryptoFrame) (maxSize : Z) : res (option CryptoFrame * bool * CryptoFrame) :=
  len ← frame_Length f;
  if len <=? maxSize then Ok (None, false, f)
  else
    n ← crypto_MaxDataLen f maxSize;
    if n =? 0 then Ok (None, true, f)
    else
      let newLen := blen (cfData f) - n in
      if newLen <? 0 then Panic "makeslice: len out of range"
      else
        Ok (Some (mkCrypto (cfOffset f) (take (Z.to_nat n) (cfData f))), true,
            mkCrypto (i64 (cfOffset f + n)) (drop (Z.to_nat n) (cfData f))).

(** The rest is copied to a buffer of the pool, whose capacity is [MaxPacketBufferSize]. *)
Definition stream_MaybeSplitOffFrame (f : StreamFrame) (maxSize : Z) : res (option StreamFrame * bool * StreamFrame) :=
  len ← frame_Length f;
  if len <=? maxSize then Ok (None, false, f)
  else
    n ← stream_MaxDataLen f maxSize;
    if n =? 0 then Ok (None, true, f)
    else
      let newLen := blen (sfData f) - n in
      if (newLen <? 0) || (MaxPacketBufferSize <? newLen) then Panic "slice bounds out of range"
      else
        Ok (Some (mkStream (sfStreamID f) (sfOffset f) (take (Z.to_nat n) (sfData f)) false (sfDataLenPresent f)), true,
            mkStream (sfStreamID f) (i64 (sfOffset f + n)) (drop (Z.to_nat n) (sfData f)) (sfFin f) (sfDataLenPresent f)).

(** ** Sizes *)

Lemma fitData_spec headerLen maxSize hasLen :
  0 <= headerLen -> maxSize < 2 ^ 14 ->
  exists n, fitData headerLen maxSize hasLen = Ok n /\ 0 <= n <= Z.max 0 (maxSize - headerLen) /\
    (headerLen <= maxSize -> n + (if hasLen then vlen n else 1) <= maxSize - headerLen + 1) /\
    (headerLen <= maxSize -> hasLen = false -> n = maxSize - headerLen) /\
    (headerLen <= maxSize -> hasLen = true ->
     (n = maxSize - headerLen /\ n <= 63) \/ (n = maxSize - headerLen - 1 /\ 64 <= maxSize - headerLen)) /\
    (maxSize < headerLen -> n = 0).
Proof.
  intros Hh Hm. unfold fitData. destruct (Z.ltb_spec maxSize headerLen).
  { exists 0. split_and!; done || lia. }
  set (m := maxSize - headerLen) in *. destruct hasLen.
  2:{ exists m. split_and!; try done; lia. }
  assert (Hv : is_varint m) by (unfold is_varint, maxVarInt8; lia).
  rewrite varint_u64, varint_Len_vlen by (done || apply Hv). cbn [mbind res_bind].
  assert (Hl : vlen m = if m <=? 63 then 1 else 2).
  { unfold vlen, maxVarInt1, maxVarInt2. destruct (Z.leb_spec m 63); [done|]. ztrue (m <=? 16383). done. }
  rewrite Hl. destruct (Z.leb_spec m 63) as [H63|H63]; cbn [Z.eqb Pos.eqb negb].
  - exists m. rewrite vlen_small by done. split_and!; done || lia.
  - exists (m - 1). pose proof (vlen_mono (m - 1) m ltac:(lia)). rewrite Hl in *. split_and!; try done; lia.
Qed.

Lemma blen_vencs vs : Forall is_varint vs -> blen (vencs vs) = foldr (fun v n => vlen v + n) 0 vs.
Proof.
  induction 1 as [|v vs Hv _ IH]; [done|]. rewrite vencs_cons, blen_app, blen_venc by done. cbn. lia.
Qed.

Definition streamHeader (f : StreamFrame) : Z :=
  1 + vlen (sfStreamID f) + (if sfOffset f =? 0 then 0 else vlen (sfOffset f)).

Lemma streamDataLen_varint f : streamFrame_ok f -> is_varint (sfDataLen f).
Proof.
  intros (_ & _ & _ & Hl & _). unfold sfDataLen in *. pose proof (blen_nonneg (sfData f)).
  unfold MaxPacketBufferSize, is_varint, maxVarInt8 in *. lia.
Qed.

Lemma stream_Length_spec f : streamFrame_ok f ->
  frame_Length f = Ok (streamHeader f + (if sfDataLenPresent f then vlen (sfDataLen f) else 0) + sfDataLen f).
Proof.
  intros Hf. destruct (streamVarints_ok f Hf) as [E Hall]. frame_unfold.
  rewrite lenVarints_vencs by done. cbn [mbind res_bind].
  rewrite blen_vencs by done. rewrite E. unfold streamHeader.
  destruct (sfOffset f =? 0), (sfDataLenPresent f); cbn [negb app foldr]; f_equal; lia.
Qed.

Lemma stream_MaxDataLen_spec f maxSize : streamFrame_ok f ->
  stream_MaxDataLen f maxSize =
  fitData (if sfDataLenPresent f then streamHeader f + 1 else streamHeader f) maxSize (sfDataLenPresent f).
Proof.
  intros Hf. pose proof Hf as (H1 & H2 & _). unfold stream_MaxDataLen. rewrite !varint_u64 by done.
  rewrite lenVarints_vencs by (destruct (negb _); solve_varints). cbn [mbind res_bind].
  rewrite blen_vencs by (destruct (negb _); solve_varints). unfold streamHeader.
  destruct (sfOffset f =? 0); cbn [negb foldr]; f_equal; destruct (sfDataLenPresent f); lia.
Qed.

Lemma streamHeader_pos f : 1 <= streamHeader f.
Proof.
  unfold streamHeader. pose proof (vlen_range (sfStreamID f)). pose proof (vlen_range (sfOffset f)).
  case_match; lia.
Qed.

(** The first [n] bytes of a frame are a frame. *)
Lemma stream_take_ok f n : streamFrame_ok f -> 0 <= n <= sfDataLen f ->
  streamFrame_ok (mkStream (sfStreamID f) (sfOffset f) (take (Z.to_nat n) (sfData f)) false (sfDataLenPresent f)) /\
  blen (take (Z.to_nat n) (sfData f)) = n.
Proof.
  intros (H1 & H2 & H3 & H4 & H5) Hn. unfold sfDataLen in *.
  assert (El : blen (take (Z.to_nat n) (sfData f)) = n) by (unfold blen in *; rewrite length_take; lia).
  split; [|done]. unfold streamFrame_ok, sfDataLen. cbn. rewrite El.
  split; [done|]. split; [done|]. split; [by apply Forall_take|]. split; lia.
Qed.

Definition same_stream (f g : StreamFrame) : Prop :=
  sfStreamID g = sfStreamID f /\ sfDataLenPresent g = sfDataLenPresent f.

(** What a split does: the new frame fits, the two frames together carry the
    data, and only the rest can carry the FIN. *)
Definition split_ok (f new f' : StreamFrame) (maxSize : Z) : Prop :=
  (exists l, frame_Length new = Ok l /\ l <= maxSize) /\
  same_stream f new /\ same_stream f f' /\ sfData new ++ sfData f' = sfData f /\
  sfOffset new = sfOffset f /\ sfOffset f' = sfOffset f + blen (sfData new) /\
  sfFin new = false /\ sfFin f' = sfFin f /\ sfData new <> [] /\ sfData f' <> [].

Lemma split_fits f maxSize n :
  streamFrame_ok f -> 0 < n -> n < sfDataLen f -> streamHeader f <= maxSize ->
  streamHeader f + (if sfDataLenPresent f then vlen n else 0) + n <= maxSize ->
  split_ok f
    (mkStream (sfStreamID f) (sfOffset f) (take (Z.to_nat n) (sfData f)) false (sfDataLenPresent f))
    (mkStream (sfStreamID f) (i64 (sfOffset f + n)) (drop (Z.to_nat n) (sfData f)) (sfFin f) (sfDataLenPresent f))
    maxSize.
Proof.
  intros Hf Hn0 Hn Hh Hfit. destruct (stream_take_ok f n Hf ltac:(lia)) as [Hok El].
  pose proof Hf as (_ & H2 & _ & H4 & H5). unfold MaxPacketBufferSize, MaxByteCount in *.
  split.
  { eexists. split; [by apply stream_Length_spec|]. unfold sfDataLen. cbn [sfData sfDataLenPresent].
    rewrite El. unfold streamHeader in *. cbn [sfStreamID sfOffset]. lia. }
  split; [done|]. split; [done|]. cbn [sfData sfOffset sfFin]. rewrite El.
  split; [apply take_drop|]. split; [done|].
  split; [apply i64_small; unfold is_varint, maxVarInt8 in *; int_range|].
  split; [done|]. split; [done|]. unfold sfDataLen, blen in *. split.
  - intros E. apply (f_equal length) in E. rewrite length_take in E. cbn in E. lia.
  - intros E. apply (f_equal length) in E. rewrite length_drop in E. cbn in E. lia.
Qed.

Lemma stream_split_spec f maxSize :
  streamFrame_ok f -> maxSize < 2 ^ 14 ->
  match stream_MaybeSplitOffFrame f maxSize with
  | Ok (None, false, f') => f' = f /\ exists l, frame_Length f = Ok l /\ l <= maxSize
  | Ok (None, true, f') =>
      f' = f /\ maxSize < streamHeader f + (if sfDataLenPresent f then 1 else 0) + 1
  | Ok (Some new, true, f') => split_ok f new f' maxSize
  | _ => False
  end.
Proof.
  intros Hf Hm. unfold stream_MaybeSplitOffFrame. rewrite stream_Length_spec by done. cbn [mbind res_bind].
  pose proof (streamHeader_pos f) as Hh. pose proof (blen_nonneg (sfData f)) as Hd0.
  fold (sfDataLen f) in Hd0.
  destruct (Z.leb_spec (streamHeader f + (if sfDataLenPresent f then vlen (sfDataLen f) else 0) + sfDataLen f) maxSize)
    as [Hfit|Hbig].
  { split; [done|]. by eexists. }
  rewrite stream_MaxDataLen_spec by done.
  destruct (fitData_spec (if sfDataLenPresent f then streamHeader f + 1 else streamHeader f) maxSize
    (sfDataLenPresent f)) as (n & -> & Hn & Hsz & Hno & Hyes & Hz); [case_match; lia|done|].
  cbn [mbind res_bind].
  assert (Hfull : sfDataLenPresent f = true -> 64 <= sfDataLen f -> vlen (sfDataLen f) = 2).
  { intros _ H64. pose proof Hf as (_ & _ & _ & H4 & _). unfold vlen, maxVarInt1, maxVarInt2, MaxPacketBufferSize in *.
    zfalse (sfDataLen f <=? 63). by ztrue (sfDataLen f <=? 16383). }
  assert (Hsmall : sfDataLen f < 64 -> vlen (sfDataLen f) = 1).
  { intros. apply vlen_small. unfold maxVarInt1. lia. }
  assert (Hlt : n = 0 \/ n < sfDataLen f).
  { destruct (sfDataLenPresent f); [destruct (Z.lt_ge_cases (sfDataLen f) 64) as [Hl|Hl]|].
    - rewrite Hsmall in Hbig by done. lia.
    - rewrite Hfull in Hbig by done.
      destruct (Z.lt_ge_cases maxSize (streamHeader f + 1)) as [Hc|Hc]; [lia|].
      specialize (Hyes Hc eq_refl). lia.
    - lia. }
  destruct (Z.eqb_spec n 0) as [->|Hn0].
  { split; [done|]. destruct (sfDataLenPresent f); lia. }
  fold (sfDataLen f). pose proof Hf as (_ & _ & _ & H4 & _).
  zfalse (sfDataLen f - n <? 0). zfalse (MaxPacketBufferSize <? sfDataLen f - n). cbn [orb].
  apply split_fits; [done|lia|lia| |]; destruct (sfDataLenPresent f); lia.
Qed.

(** Splitting a STREAM frame is lossless and respects the size.  For any
    size of a UDP datagram, [MaybeSplitOffFrame] never panics: it returns no
    frame if the frame fits, or if not even one byte of data fits; otherwise the
    frame it splits off is at most [maxSize] bytes long, carries a non-empty
    prefix of the data without the FIN, and the receiver keeps the rest of the
    data at the right offset, with the FIN. *)
Theorem stream_split_correct f maxSize :
  streamFrame_ok f -> maxSize < 2 ^ 14 ->
  match stream_MaybeSplitOffFrame f maxSize with
  | Ok (None, false, f') => f' = f /\ exists l, frame_Length f = Ok l /\ l <= maxSize
  | Ok (None, true, f') =>
      f' = f /\ maxSize < streamHeader f + (if sfDataLenPresent f then 1 else 0) + 1
  | Ok (Some new, true, f') => split_ok f new f' maxSize
  | _ => False
  end.
Proof. apply stream_split_spec. Qed.

Lemma stream_split_correct_witness :
  match stream_MaybeSplitOffFrame (mkStream 4 100 (replicate 200 7) true true) 90 with
  | Ok (Some new, true, f') => sfData new ++ sfData f' = replicate 200 7 /\ sfFin f' = true
  | _ => False
  end.
Proof.
  pose proof (stream_split_correct (mkStream 4 100 (replicate 200 7) true true) 90) as H.
  assert (E : exists new f', stream_MaybeSplitOffFrame (mkStream 4 100 (replicate 200 7) true true) 90 =
    Ok (Some new, true, f')) by (eexists _, _; vm_compute; reflexivity).
  destruct E as (new & f' & E). rewrite E in *.
  destruct H as (_ & _ & _ & H1 & _ & _ & _ & H2 & _).
  - repeat split; try (vm_compute; congruence). apply Forall_replicate. vm_compute. split; congruence.
  - reflexivity.
  - split; [exact H1|exact H2].
Defined.
