(* ===== verification/Connection.v ===== *)
(** * Connection: handling received packets, and the instant ACK

    Models the receive path of connection.go: [handleUnpackedLongHeaderPacket]
    with the instant-ACK extension, [handleUnpackedShortHeaderPacket],
    [handleFrames], [handleFrame], [handleAckFrame], [handleHandshakeDoneFrame],
    [handleHandshakeConfirmed] and [dropEncryptionLevel], on top of the two
    packet handlers and the frame parser.  The other subsystems of a connection
    (streams, TLS, connection IDs, packing and sending) are the state [X] and the
    operations of [ConnectionOps].  [time.Now()] is the argument [now]; logging,
    tracing and the configured delays (busy waiting) have no effect on the state. *)

From S2P Require Import Prelude Protocol Varint AckFrame ReceivedHistory ReceivedTracker.
From S2P Require Import SentHistory PNGenerator Ecn GoFloat RTTStats Congestion SentPacketHandler.
From S2P Require Import Frames FrameParser.
From stdpp Require Import base numbers list option strings.
From Stdlib Require Import ZArith Lia.
#[local] Open Scope Z_scope.

Record connection (A X : Type) := mkConn {
  cPerspective : Perspective;
  cEnableInstantACK : bool;
  receivedFirstPacket : bool;
  handshakeDestConnID : bytes;
  handshakeComplete : bool;
  cHandshakeConfirmed : bool;
  lastPacketReceivedTime : Z;
  firstAckElicitingPacketAfterIdleSentTime : Z;
  keepAlivePingSent : bool;
  cSent : sentPacketHandler A;
  cReceived : receivedPacketHandler;
  cParser : frameParser;
  cRest : X
}.
Arguments mkConn {A X}.
Arguments cPerspective {A X}.
Arguments cEnableInstantACK {A X}.
Arguments receivedFirstPacket {A X}.
Arguments handshakeDestConnID {A X}.
Arguments handshakeComplete {A X}.
Arguments cHandshakeConfirmed {A X}.
Arguments lastPacketReceivedTime {A X}.
Arguments firstAckElicitingPacketAfterIdleSentTime {A X}.
Arguments keepAlivePingSent {A X}.
Arguments cSent {A X}.
Arguments cReceived {A X}.
Arguments cParser {A X}.
Arguments cRest {A X}.

(** What dropping an encryption level does in the other subsystems. *)
Class LevelOps (X : Type) := {
  (* cryptoStreamHandler *)
  ops_DiscardInitialKeys : X -> X;
  (* cryptoStreamManager.Drop *)
  ops_DropCryptoStream : EncryptionLevel -> X -> res X;
  (* streamsMap.ResetFor0RTT, connFlowController.Reset, framer.Handle0RTTRejection *)
  ops_Reset0RTT : X -> res X
}.

(** What the receive path calls in the other subsystems. *)
Class ConnectionOps (A X : Type) := {
  ops_levels :: LevelOps X;
  (* connIDManager.ChangeInitialConnID *)
  ops_ChangeInitialConnID : bytes -> X -> X;
  (* the frames of streams, TLS, connection IDs, paths, tokens and datagrams *)
  ops_handleFrame : wireFrame -> EncryptionLevel -> bytes -> stM (connection A X) unit;
  ops_handleHandshakeComplete : stM (connection A X) unit;
  ops_triggerSending : stM (connection A X) unit;
  (* cryptoStreamHandler *)
  ops_SetHandshakeConfirmed : X -> X;
  ops_SetLargest1RTTAcked : Z -> X -> res X
}.

(** [IsFrameAckEliciting] *)
Definition IsFrameAckEliciting (f : wireFrame) : bool :=
  match f with FAck _ | FConnectionClose _ => false | _ => true end.

Section levels.
Context {A X : Type} `{SendAlgorithm A} `{LevelOps X}.
Implicit Types c : connection A X.

Definition c_rest (v : X) c : connection A X :=
  mkConn (cPerspective c) (cEnableInstantACK c) (receivedFirstPacket c) (handshakeDestConnID c)
    (handshakeComplete c) (cHandshakeConfirmed c) (lastPacketReceivedTime c)
    (firstAckElicitingPacketAfterIdleSentTime c) (keepAlivePingSent c) (cSent c) (cReceived c) (cParser c) v.
Definition c_sent (v : sentPacketHandler A) c : connection A X :=
  mkConn (cPerspective c) (cEnableInstantACK c) (receivedFirstPacket c) (handshakeDestConnID c)
    (handshakeComplete c) (cHandshakeConfirmed c) (lastPacketReceivedTime c)
    (firstAckElicitingPacketAfterIdleSentTime c) (keepAlivePingSent c) v (cReceived c) (cParser c) (cRest c).
Definition c_received (v : receivedPacketHandler) c : connection A X :=
  mkConn (cPerspective c) (cEnableInstantACK c) (receivedFirstPacket c) (handshakeDestConnID c)
    (handshakeComplete c) (cHandshakeConfirmed c) (lastPacketReceivedTime c)
    (firstAckElicitingPacketAfterIdleSentTime c) (keepAlivePingSent c) (cSent c) v (cParser c) (cRest c).
Definition c_confirmed (v : bool) c : connection A X :=
  mkConn (cPerspective c) (cEnableInstantACK c) (receivedFirstPacket c) (handshakeDestConnID c)
    (handshakeComplete c) v (lastPacketReceivedTime c)
    (firstAckElicitingPacketAfterIdleSentTime c) (keepAlivePingSent c) (cSent c) (cReceived c) (cParser c) (cRest c).
Definition c_first (v : bool) c : connection A X :=
  mkConn (cPerspective c) (cEnableInstantACK c) v (handshakeDestConnID c)
    (handshakeComplete c) (cHandshakeConfirmed c) (lastPacketReceivedTime c)
    (firstAckElicitingPacketAfterIdleSentTime c) (keepAlivePingSent c) (cSent c) (cReceived c) (cParser c) (cRest c).

(** The bookkeeping of the idle timer when a packet is received. *)
Definition packetReceivedAt (rcvTime : Z) c : connection A X :=
  mkConn (cPerspective c) (cEnableInstantACK c) (receivedFirstPacket c) (handshakeDestConnID c)
    (handshakeComplete c) (cHandshakeConfirmed c) rcvTime zeroTime false (cSent c) (cReceived c) (cParser c) (cRest c).

(** Run a method of a subsystem on its part of the state. *)
Definition onSent {T} (m : stM (sentPacketHandler A) T) : stM (connection A X) T := fun c =>
  let (x, h) := m (cSent c) in (x, c_sent h c).
Definition onRest (f : X -> res X) : stM (connection A X) unit := fun c =>
  match f (cRest c) with
  | Ok x => (Ok tt, c_rest x c)
  | Err e => (Err e, c)
  | Panic m => (Panic m, c)
  end.

Definition conn_ReceivedPacket (pn : Z) (ecn : ECN) (encLevel : EncryptionLevel) (rcvTime : Z)
    (ackEliciting : bool) (now : Z) : stM (connection A X) unit := fun c =>
  let '(r, received, sent) :=
    rhandler_ReceivedPacket (cSent c) (cReceived c) pn ecn encLevel rcvTime ackEliciting now in
  (r, c_received received (c_sent sent c)).

(** ** Encryption levels and the handshake *)

Definition dropEncryptionLevel (encLevel : EncryptionLevel) (now : Z) : stM (connection A X) unit :=
  _ ← onSent (DropPackets encLevel now);
  c ← get;
  received ← lift (rhandler_DropPackets (cReceived c) encLevel);
  _ ← modify (c_received received);
  match encLevel with
  | EncryptionInitial =>
      _ ← modify (fun c => c_rest (ops_DiscardInitialKeys (cRest c)) c);
      onRest (ops_DropCryptoStream encLevel)
  | Encryption0RTT => onRest ops_Reset0RTT
  | _ => onRest (ops_DropCryptoStream encLevel)
  end.

End levels.

Section connection.
Context {A X : Type} `{SendAlgorithm A} `{ConnectionOps A X}.
Implicit Types c : connection A X.

(** Change the destination connection ID, here and in the connection ID manager. *)
Definition switchConnID (cid : bytes) c : connection A X :=
  mkConn (cPerspective c) (cEnableInstantACK c) (receivedFirstPacket c) cid
    (handshakeComplete c) (cHandshakeConfirmed c) (lastPacketReceivedTime c)
    (firstAckElicitingPacketAfterIdleSentTime c) (keepAlivePingSent c) (cSent c) (cReceived c) (cParser c)
    (ops_ChangeInitialConnID cid (cRest c)).

(** Path MTU discovery is part of [ops_SetHandshakeConfirmed]. *)
Definition handleHandshakeConfirmed (now : Z) : stM (connection A X) unit :=
  _ ← dropEncryptionLevel EncryptionHandshake now;
  _ ← modify (c_confirmed true);
  _ ← onSent (SetHandshakeConfirmed now);
  modify (fun c => c_rest (ops_SetHandshakeConfirmed (cRest c)) c).

Definition errHandshakeDone : GoError := TransportError ProtocolViolation 0 "received a HANDSHAKE_DONE frame".

Definition handleHandshakeDoneFrame (now : Z) : stM (connection A X) unit :=
  c ← get;
  match cPerspective c with
  | PerspectiveServer => throw errHandshakeDone
  | PerspectiveClient => if negb (cHandshakeConfirmed c) then handleHandshakeConfirmed now else mret tt
  end.

Definition handleAckFrame (frame : AckFrame) (encLevel : EncryptionLevel) (now : Z) : stM (connection A X) unit :=
  c ← get;
  acked1RTTPacket ← onSent (ReceivedAck frame encLevel (lastPacketReceivedTime c) now);
  if negb acked1RTTPacket then mret tt
  else
    c ← get;
    _ ← (if bool_decide (cPerspective c = PerspectiveClient) && negb (cHandshakeConfirmed c)
         then handleHandshakeConfirmed now else mret tt);
    la ← lift (LargestAcked frame);
    onRest (ops_SetLargest1RTTAcked la).

(** ** Frames *)

Definition handleFrame (f : wireFrame) (encLevel : EncryptionLevel) (destConnID : bytes) (now : Z)
    : stM (connection A X) unit :=
  match f with
  | FAck ack => handleAckFrame ack encLevel now
  | FDataBlocked _ | FStreamDataBlocked _ | FStreamsBlocked _ | FPing _ => mret tt
  | FPathResponse _ => throw (ErrorString "unexpected PATH_RESPONSE frame")
  | FHandshakeDone _ => handleHandshakeDoneFrame now
  | _ => ops_handleFrame f encLevel destConnID
  end.

(** The loop of [handleFrames].  While logging, an error of a frame is kept and
    the frames after it are parsed but not handled.  Every turn consumes at
    least one byte. *)
Fixpoint handleFrames_loop (fuel : nat) (data destConnID : bytes) (encLevel : EncryptionLevel)
    (log : bool) (now : Z) (isAckEliciting : bool) (handleErr : option GoError)
    : stM (connection A X) (bool * option GoError) := fun c =>
  if blen data =? 0 then (Ok (isAckEliciting, handleErr), c)
  else
    match fuel with
    | O => (Panic "out of fuel", c)
    | S fuel' =>
        match ParseNext (cParser c) data encLevel with
        | Err e => (Err e, c)
        | Panic m => (Panic m, c)
        | Ok (l, None) => (Ok (isAckEliciting, handleErr), c)
        | Ok (l, Some frame) =>
            let data := drop (Z.to_nat l) data in
            let isAckEliciting := isAckEliciting || IsFrameAckEliciting frame in
            match handleErr with
            | Some _ => handleFrames_loop fuel' data destConnID encLevel log now isAckEliciting handleErr c
            | None =>
                match handleFrame frame encLevel destConnID now c with
                | (Ok _, c) => handleFrames_loop fuel' data destConnID encLevel log now isAckEliciting None c
                | (Err e, c) =>
                    if log then handleFrames_loop fuel' data destConnID encLevel log now isAckEliciting (Some e) c
                    else (Err e, c)
                | (Panic m, c) => (Panic m, c)
                end
            end
        end
    end.

Definition handleFrames (data destConnID : bytes) (encLevel : EncryptionLevel) (log : bool) (now : Z)
    : stM (connection A X) bool :=
  c0 ← get;
  '(isAckEliciting, handleErr) ←
    handleFrames_loop (length data) data destConnID encLevel log now false None;
  _ ← match handleErr with Some e => throw e | None => mret tt end;
  c ← get;
  _ ← (if negb (handshakeComplete c0) && handshakeComplete c then ops_handleHandshakeComplete else mret tt);
  mret isAckEliciting.

(** ** Packets *)

(** Call a method and ignore the error it returns. *)
Definition ignoring {T} (m : stM (connection A X) T) : stM (connection A X) unit := fun c =>
  match m c with
  | (Panic p, c') => (Panic p, c')
  | (_, c') => (Ok tt, c')
  end.

(** A packet as the unpacker returns it. *)
Record unpackedPacket := mkUnpacked {
  upPacketNumber : Z; upSrcConnID : bytes; upDestConnID : bytes;
  upLevel : EncryptionLevel; upData : bytes
}.

(** The first packet of the connection.  Both endpoints adopt the source
    connection ID; a server with [EnableInstantACK] registers the packet as
    ack-eliciting and sends before it looks at the frames. *)
Definition firstPacket (packet : unpackedPacket) (ecn : ECN) (rcvTime now : Z) : stM (connection A X) bool :=
  _ ← modify (c_first true);
  c ← get;
  _ ← (if negb (bool_decide (upSrcConnID packet = handshakeDestConnID c))
       then modify (switchConnID (upSrcConnID packet)) else mret tt);
  if bool_decide (cPerspective c = PerspectiveServer) && cEnableInstantACK c then
    _ ← ignoring (conn_ReceivedPacket (upPacketNumber packet) ecn (upLevel packet) rcvTime true now);
    _ ← ignoring ops_triggerSending;
    mret true
  else mret false.

Definition handleUnpackedLongHeaderPacket (packet : unpackedPacket) (ecn : ECN) (rcvTime : Z)
    (log : bool) (now : Z) : stM (connection A X) unit :=
  c ← get;
  instantACKSent ← (if negb (receivedFirstPacket c) then firstPacket packet ecn rcvTime now else mret false);
  c ← get;
  _ ← (if bool_decide (cPerspective c = PerspectiveServer) && bool_decide (upLevel packet = EncryptionHandshake)
       then dropEncryptionLevel EncryptionInitial now else mret tt);
  _ ← modify (packetReceivedAt rcvTime);
  isAckEliciting ← handleFrames (upData packet) (upDestConnID packet) (upLevel packet) log now;
  if negb instantACKSent
  then conn_ReceivedPacket (upPacketNumber packet) ecn (upLevel packet) rcvTime isAckEliciting now
  else mret tt.

Definition handleUnpackedShortHeaderPacket (destConnID : bytes) (pn : Z) (data : bytes) (ecn : ECN)
    (rcvTime : Z) (log : bool) (now : Z) : stM (connection A X) unit :=
  _ ← modify (packetReceivedAt rcvTime);
  isAckEliciting ← handleFrames data destConnID Encryption1RTT log now;
  conn_ReceivedPacket pn ecn Encryption1RTT rcvTime isAckEliciting now.
End connection.

(** ** Handling the frames of a packet *)

Section frames.
Context {A X : Type} `{SendAlgorithm A} `{ConnectionOps A X}.
Implicit Types c : connection A X.

(** The payload of a packet: frames, each after some padding. *)
Definition payload (fs : list (nat * wireFrame)) : bytes :=
  concat ((fun kf => replicate kf.1 0 ++ wf_bytes kf.2) <$> fs).

Fixpoint payload_ok (encLevel : EncryptionLevel) (fs : list (nat * wireFrame)) : Prop :=
  match fs with
  | [] => True
  | (_, f) :: fs' =>
      wf_sendable f /\ isAllowedAtEncLevel f encLevel = true /\ wf_tail f (payload fs') /\
      payload_ok encLevel fs'
  end.

(** Handling frames one after the other until one fails. *)
Fixpoint handleEach (encLevel : EncryptionLevel) (destConnID : bytes) (now : Z) (fs : list (nat * wireFrame)) : stM (connection A X) unit :=
  match fs with
  | [] => mret tt
  | (_, f) :: fs' => _ ← handleFrame (wf_wire f) encLevel destConnID now; handleEach encLevel destConnID now fs'
  end.

(** The frames are handled; at the end the handshake is completed if one of them did so. *)
Definition handleInOrder (encLevel : EncryptionLevel) (destConnID : bytes) (now : Z) (fs : list (nat * wireFrame)) : stM (connection A X) bool :=
  c0 ← get;
  _ ← handleEach encLevel destConnID now fs;
  c ← get;
  _ ← (if negb (handshakeComplete c0) && handshakeComplete c then ops_handleHandshakeComplete else mret tt);
  mret (existsb (fun kf => IsFrameAckEliciting kf.2) fs).

(** The parser, which handling a frame may change, supports each frame when it is parsed. *)
Fixpoint parsable (encLevel : EncryptionLevel) (destConnID : bytes) (now : Z) (fs : list (nat * wireFrame)) c : Prop :=
  match fs with
  | [] => True
  | (_, f) :: fs' =>
      wf_supported (cParser c) encLevel f /\
      match handleFrame (wf_wire f) encLevel destConnID now c with
      | (Ok _, c1) => parsable encLevel destConnID now fs' c1
      | (Err _, c1) => Forall (fun kf => wf_supported (cParser c1) encLevel kf.2) fs'
      | (Panic _, _) => True
      end
  end.

Lemma IsFrameAckEliciting_wire f : IsFrameAckEliciting (wf_wire f) = IsFrameAckEliciting f.
Proof. by destruct f. Qed.

Lemma payload_cons k f fs : payload ((k, f) :: fs) = replicate k 0 ++ wf_bytes f ++ payload fs.
Proof. unfold payload. cbn. by rewrite <- app_assoc. Qed.

(** The parser takes the first frame off. *)
Lemma parse_first encLevel k f fs (p : frameParser) :
  payload_ok encLevel ((k, f) :: fs) -> wf_supported p encLevel f -> blen (payload ((k, f) :: fs)) < 2 ^ 63 ->
  let data := payload ((k, f) :: fs) in
  exists l, ParseNext p data encLevel = Ok (l, Some (wf_wire f)) /\ drop (Z.to_nat l) data = payload fs /\
    (blen data =? 0) = false /\ (length (payload fs) < length data)%nat /\ blen (payload fs) <= blen data.
Proof.
  intros (Hs & Ha & Ht & Hok) Hsup Hb. cbv zeta. rewrite payload_cons in *. set (rest := payload fs) in *.
  assert (Hlen : blen (replicate k 0 ++ wf_bytes f ++ rest) = Z.of_nat k + blen (wf_bytes f) + blen rest).
  { rewrite !blen_app. unfold blen at 1. rewrite length_replicate. lia. }
  assert (Hpos : 1 <= blen (wf_bytes f)).
  { unfold wf_bytes. rewrite blen_cons. pose proof (blen_nonneg (wf_body f)). lia. }
  pose proof (blen_nonneg rest). exists (Z.of_nat k + blen (wf_bytes f)). split; [by rewrite ParseNext_frame by (done || rewrite blen_app; lia)|].
  split; [rewrite app_assoc; apply drop_app_length'; rewrite length_app, length_replicate; unfold blen; lia|].
  split; [rewrite Hlen; lia|]. unfold blen in *. lia.
Qed.

(** After an error the rest is only parsed. *)
Lemma handleFrames_loop_failed encLevel destConnID log now e c fs : forall fuel ae,
  Forall (fun kf => wf_supported (cParser c) encLevel kf.2) fs ->
  payload_ok encLevel fs -> blen (payload fs) < 2 ^ 63 -> (length (payload fs) <= fuel)%nat ->
  handleFrames_loop fuel (payload fs) destConnID encLevel log now ae (Some e) c =
  (Ok (ae || existsb (fun kf => IsFrameAckEliciting kf.2) fs, Some e), c).
Proof.
  induction fs as [|[k f] fs IH]; intros fuel ae Hsup Hok Hb Hf; [destruct fuel; cbn; by rewrite orb_false_r|].
  apply Forall_cons in Hsup as [Hs1 Hs2]. destruct (parse_first encLevel k f fs (cParser c) Hok Hs1 Hb) as (l & El & Ed & E0 & H1 & H2).
  destruct fuel as [|fuel]; [lia|]. cbn [handleFrames_loop]. rewrite E0, El. cbv zeta.
  rewrite Ed, IH; [|done|apply Hok|lia|lia]. cbn [existsb snd]. by rewrite IsFrameAckEliciting_wire, orb_assoc.
Qed.

Lemma handleFrames_loop_delivers encLevel destConnID log now fs : forall c fuel ae,
  parsable encLevel destConnID now fs c ->
  payload_ok encLevel fs -> blen (payload fs) < 2 ^ 63 -> (length (payload fs) <= fuel)%nat ->
  handleFrames_loop fuel (payload fs) destConnID encLevel log now ae None c =
  match handleEach encLevel destConnID now fs c with
  | (Ok _, c') => (Ok (ae || existsb (fun kf => IsFrameAckEliciting kf.2) fs, None), c')
  | (Err e, c') => if log then (Ok (ae || existsb (fun kf => IsFrameAckEliciting kf.2) fs, Some e), c') else (Err e, c')
  | (Panic m, c') => (Panic m, c')
  end.
Proof.
  induction fs as [|[k f] fs IH]; intros c fuel ae Hp Hok Hb Hf; [destruct fuel; cbn; by rewrite orb_false_r|].
  destruct Hp as [Hs1 Hs2]. destruct (parse_first encLevel k f fs (cParser c) Hok Hs1 Hb) as (l & El & Ed & E0 & H1 & H2).
  destruct fuel as [|fuel]; [lia|]. cbn [handleFrames_loop handleEach]. rewrite E0, El. cbv zeta. unfold mbind, stM_bind.
  destruct (handleFrame (wf_wire f) encLevel destConnID now c) as [[[]|e|m] c1]; [| |done]; cbn [existsb snd].
  - rewrite Ed, IH; [|done|apply Hok|lia|lia]. by rewrite IsFrameAckEliciting_wire, orb_assoc.
  - destruct log; [|done]. rewrite Ed, handleFrames_loop_failed; [|done|apply Hok|lia|lia]. by rewrite IsFrameAckEliciting_wire, orb_assoc.
Qed.

(** C20: What the peer packs is what is handled.  The frames of a packet, padded
    and serialized by the sender, are handed to [handleFrame] one by one, in
    order and as they were sent (ACK frames without what their encoding drops)
    until the handler of one of them fails, whose error is returned, with or
    without tracing; at the end the handshake is completed if the frames did so,
    and the packet is ack-eliciting exactly if one of its frames is. *)
Theorem frames_delivered encLevel destConnID log now fs c :
  parsable encLevel destConnID now fs c -> payload_ok encLevel fs -> blen (payload fs) < 2 ^ 63 ->
  handleFrames (payload fs) destConnID encLevel log now c = handleInOrder encLevel destConnID now fs c.
Proof.
  intros Hh Hok Hb. unfold handleFrames, handleInOrder. rewrite !(stM_bind_ok get _ c c c) by done.
  unfold mbind at 1, stM_bind at 1. rewrite handleFrames_loop_delivers by done. unfold mbind at 4, stM_bind at 4.
  destruct (handleEach encLevel destConnID now fs c) as [[[]|e|m] c']; [done| |done]. by destruct log.
Qed.

(** What a handler keeps, whatever its result, without panicking. *)
Definition preserves {T} (I : connection A X -> Prop) (m : stM (connection A X) T) : Prop := forall c,
  I c -> match m c with (Panic _, _) => False | (_, c') => I c' end.

Lemma preserves_bind {T U} I (m : stM (connection A X) T) (f : T -> stM (connection A X) U) :
  preserves I m -> (forall a, preserves I (f a)) -> preserves I (m ≫= f).
Proof.
  intros Hm Hf c Hc. specialize (Hm c Hc). unfold mbind, stM_bind.
  destruct (m c) as [[a|e|p] c1]; [by apply Hf|done..].
Qed.

Lemma preserves_get I : preserves I get.
Proof. by intros c Hc. Qed.

Lemma preserves_ret {T} I (a : T) : preserves I (mret a).
Proof. by intros c Hc. Qed.

Lemma preserves_throw {T} I e : preserves I (throw (A := T) e).
Proof. by intros c Hc. Qed.

Lemma handleFrames_loop_preserves I encLevel destConnID log now :
  (forall f, allowed_frame encLevel f -> preserves I (handleFrame f encLevel destConnID now)) ->
  forall fuel data ae err, bytes_ok data -> (length data <= fuel)%nat ->
  preserves I (handleFrames_loop fuel data destConnID encLevel log now ae err).
Proof.
  intros Hh. induction fuel as [|fuel IH]; intros data ae err Hd Hlen c Hc; cbn [handleFrames_loop].
  { destruct data; [done|cbn in Hlen; lia]. }
  destruct (blen data =? 0); [done|].
  pose proof (parseNext_loop_safe (cParser c) encLevel (length data) data Hd (le_n _)) as Hp.
  unfold ParseNext, parseNext. unfold next_result in Hp.
  destruct (parseNext_loop _ _ _ _) as [[[f|]|e|m] r]; [|done..].
  destruct Hp as (Hf & Hs & Hlt). cbv zeta.
  assert (Hd' : bytes_ok (drop (Z.to_nat (blen data - blen r)) data)) by by apply Forall_drop.
  assert (Hlen' : (length (drop (Z.to_nat (blen data - blen r)) data) <= fuel)%nat).
  { rewrite length_drop. unfold blen in *. lia. }
  destruct err as [e|]; [by apply IH|].
  specialize (Hh f Hf c Hc). destruct (handleFrame f encLevel destConnID now c) as [[[]|e|p] c1]; [|destruct log|done];
    try (by apply IH); done.
Qed.

(** Handling the payload of a packet terminates and does not panic, for
    arbitrary bytes: whatever invariant the handlers of single (well-formed and
    allowed) frames keep without panicking is kept by [handleFrames], on every
    path, also after a frame that failed. *)
Theorem handleFrames_preserves I data encLevel destConnID log now :
  bytes_ok data ->
  (forall f, allowed_frame encLevel f -> preserves I (handleFrame f encLevel destConnID now)) ->
  preserves I ops_handleHandshakeComplete ->
  preserves I (handleFrames data destConnID encLevel log now).
Proof.
  intros Hd Hh Hc. unfold handleFrames. apply preserves_bind; [apply preserves_get|intros c0].
  apply preserves_bind; [by apply handleFrames_loop_preserves|intros [ae err]].
  apply preserves_bind; [destruct err; [apply preserves_throw|apply preserves_ret]|intros _].
  apply preserves_bind; [apply preserves_get|intros c1].
  apply preserves_bind; [|intros _; apply preserves_ret].
  destruct (_ && _); [done|apply preserves_ret].
Qed.
End frames.

(** ** The instant ACK *)

(** The first packet a tracker registers: its history is that packet, and an ACK
    is queued at once if the packet is ack-eliciting. *)
Lemma tracker_first pn ecn rcvTime ae :
  0 <= pn -> exists t, tracker_ReceivedPacket newReceivedPacketTracker pn ecn rcvTime ae = (Ok tt, t) /\
    packetHistory t = mkHistory [mkInterval pn pn] 0 /\ hasNewAck t = ae /\ ackQueued t = ae /\ lastAck t = None.
Proof.
  intros Hp. unfold tracker_ReceivedPacket, history_ReceivedPacket.
  cbn [packetHistory newReceivedPacketTracker deletedBelow newReceivedPacketHistory]. zfalse (pn <? 0).
  cbn. ztrue (0 <=? pn). destruct ae; (eexists; split; [reflexivity|]); by destruct ecn.
Qed.

(** A tracker that registers a packet hands it to its history. *)
Lemma tracker_history t pn ecn rcvTime ae :
  packetHistory (tracker_ReceivedPacket t pn ecn rcvTime ae).2 = (history_ReceivedPacket (packetHistory t) pn).1.
Proof.
  assert (Hq : forall t2 wm t3, maybeQueueACK t2 pn rcvTime wm = Ok t3 -> packetHistory t3 = packetHistory t2).
  { intros t2 wm t3. unfold maybeQueueACK. destruct (lastAck t2); [|by intros [= <-]; destruct t2].
    destruct (ackQueued t2) eqn:Eq; [by intros [= <-]|]. intros (b & _ & E)%res_bind_ok. injection E as <-.
    destruct t2, wm, b; cbn; repeat case_match; done. }
  unfold tracker_ReceivedPacket. destruct (history_ReceivedPacket (packetHistory t) pn) as [hist isNew].
  cbv zeta. set (t1 := set_packetHistory hist t). assert (E1 : packetHistory t1 = hist) by by destruct t.
  clearbody t1. destruct isNew; cbn [negb]; [|done].
  destruct (tracker_isMissing t1 pn) as [m| |]; [|done..].
  set (t2 := if largestObserved t1 <=? pn then set_largest pn rcvTime t1 else t1).
  assert (E2 : packetHistory t2 = hist) by (subst t2; case_match; by destruct t1). clearbody t2.
  assert (E3 : forall t3, packetHistory (countECN ecn t3) = packetHistory t3) by (intros []; by destruct ecn).
  destruct ae; [|cbn; by rewrite E3].
  destruct (maybeQueueACK (set_hasNewAck true t2) pn rcvTime m) as [t3| |] eqn:Eq; cbn.
  - rewrite E3, (Hq _ _ _ Eq). by destruct t2.
  - by destruct t2.
  - by destruct t2.
Qed.

Section instant_ack.
Context {A X : Type} `{SendAlgorithm A} `{ConnectionOps A X}.
Implicit Types c : connection A X.

(** Registering the first packet of the Initial packet number space. *)
Lemma conn_ReceivedPacket_first pn ecn rcvTime ae now c :
  cReceived c = newReceivedPacketHandler -> 0 <= pn ->
  exists t, tracker_ReceivedPacket newReceivedPacketTracker pn ecn rcvTime ae = (Ok tt, t) /\
    conn_ReceivedPacket pn ecn EncryptionInitial rcvTime ae now c =
      (Ok tt, c_received (set_initialPackets (Some t) newReceivedPacketHandler) c) /\
    packetHistory t = mkHistory [mkInterval pn pn] 0 /\ hasNewAck t = ae /\ ackQueued t = ae /\ lastAck t = None.
Proof.
  intros Hc Hp. destruct (tracker_first pn ecn rcvTime ae Hp) as (t & E & Ht). exists t. split; [done|]. split; [|done].
  unfold conn_ReceivedPacket, rhandler_ReceivedPacket.
  assert (Es : sent_ReceivedPacket now EncryptionInitial (cSent c) = Ok (cSent c)).
  { cbn. unfold sph_ReceivedPacket. rewrite (stM_bind_ok get _ (cSent c) (cSent c) (cSent c)) by done.
    rewrite (bool_decide_eq_false_2 (EncryptionInitial = EncryptionHandshake)) by done.
    by rewrite andb_false_r. }
  rewrite Es, Hc. unfold rhandler_registerPacket. cbn [initialPackets newReceivedPacketHandler].
  rewrite E. by destruct c.
Qed.

(** What the server has registered when it calls [triggerSending]. *)
Lemma firstPacket_triggers packet ecn rcvTime now c :
  cPerspective c = PerspectiveServer -> cEnableInstantACK c = true ->
  cReceived c = newReceivedPacketHandler -> upLevel packet = EncryptionInitial ->
  0 <= upPacketNumber packet ->
  let c2 := if negb (bool_decide (upSrcConnID packet = handshakeDestConnID c))
            then switchConnID (upSrcConnID packet) (c_first true c) else c_first true c in
  exists t, tracker_ReceivedPacket newReceivedPacketTracker (upPacketNumber packet) ecn rcvTime true = (Ok tt, t) /\
    firstPacket packet ecn rcvTime now c =
      (ignoring ops_triggerSending ≫= fun _ => mret true) (c_received (set_initialPackets (Some t) newReceivedPacketHandler) c2) /\
    packetHistory t = mkHistory [mkInterval (upPacketNumber packet) (upPacketNumber packet)] 0 /\
    hasNewAck t = true /\ ackQueued t = true /\ lastAck t = None.
Proof.
  intros Hp Hi Hr Hl Hpn c2. unfold firstPacket. rewrite (stM_bind_ok (modify _) _ c (c_first true c) tt) by done.
  set (c0 := c_first true c). rewrite (stM_bind_ok get _ c0 c0 c0) by done.
  fold c0 in c2. change (handshakeDestConnID c0) with (handshakeDestConnID c).
  rewrite (stM_bind_ok _ _ c0 c2 tt) by (subst c2; by destruct (negb _)).
  change (cPerspective c0) with (cPerspective c). change (cEnableInstantACK c0) with (cEnableInstantACK c).
  rewrite Hp, Hi, Hl, bool_decide_eq_true_2 by done. cbn [andb].
  assert (Hr2 : cReceived c2 = newReceivedPacketHandler) by (subst c2; by destruct (negb _)).
  destruct (conn_ReceivedPacket_first (upPacketNumber packet) ecn rcvTime true now c2 Hr2 Hpn)
    as (t & Et & E & Ht).
  set (c1 := c_received (set_initialPackets (Some t) newReceivedPacketHandler) c2) in *.
  exists t. split; [exact Et|]. split; [|exact Ht]. rewrite (stM_bind_ok _ _ c2 c1 tt); [done|]. unfold ignoring. by rewrite E.
Qed.

Lemma firstPacket_instant packet ecn rcvTime now c :
  cPerspective c = PerspectiveServer -> cEnableInstantACK c = true ->
  cReceived c = newReceivedPacketHandler -> upLevel packet = EncryptionInitial ->
  0 <= upPacketNumber packet ->
  exists c1 t, firstPacket packet ecn rcvTime now c = (ignoring ops_triggerSending ≫= fun _ => mret true) c1 /\
    cSent c1 = cSent c /\ cReceived c1 = set_initialPackets (Some t) newReceivedPacketHandler /\
    packetHistory t = mkHistory [mkInterval (upPacketNumber packet) (upPacketNumber packet)] 0 /\
    hasNewAck t = true /\ ackQueued t = true /\ lastAck t = None.
Proof.
  intros Hp Hi Hr Hl Hpn. destruct (firstPacket_triggers packet ecn rcvTime now c Hp Hi Hr Hl Hpn) as (t & _ & E & Ht).
  eexists _, t. split; [exact E|]. split; [by destruct (negb _)|]. by split.
Qed.

(** The instant ACK is ready when it should be sent.  When a server with
    [EnableInstantACK] receives the first packet of a connection, then at the
    moment it calls [triggerSending] - before any frame of the packet was parsed
    or handled - the received-packet handler has an ACK frame queued for the
    Initial packet number space, which acknowledges exactly this packet, with a
    delay of zero; the sent-packet handler is unchanged. *)
Theorem instant_ack_ready packet ecn rcvTime now c :
  cPerspective c = PerspectiveServer -> cEnableInstantACK c = true ->
  cReceived c = newReceivedPacketHandler -> upLevel packet = EncryptionInitial ->
  0 <= upPacketNumber packet ->
  exists c1, firstPacket packet ecn rcvTime now c = (ignoring ops_triggerSending ≫= fun _ => mret true) c1 /\
    cSent c1 = cSent c /\
    forall now', exists ack, (rhandler_GetAckFrame (cReceived c1) EncryptionInitial now' true).2 = Some ack /\
      AckRanges ack = [mkAckRange (upPacketNumber packet) (upPacketNumber packet)] /\ DelayTime ack = 0.
Proof.
  intros Hp Hi Hr Hl Hpn.
  destruct (firstPacket_instant packet ecn rcvTime now c Hp Hi Hr Hl Hpn)
    as (c1 & t & E & Hs & Hc & Hh & Hn & Hq & Hla).
  exists c1. split; [done|]. split; [done|]. intros now'. rewrite Hc. cbn.
  unfold getAckFrameNoDelay, tracker_GetAckFrame. rewrite Hn, Hq. cbn.
  eexists. split; [reflexivity|]. unfold zeroDelay, fillAck. cbn. by rewrite Hh.
Qed.

(** The tracker of the Initial packet number space, and its history. *)
Definition initialTracker c : option receivedPacketTracker := initialPackets (cReceived c).
Definition initialHistory c : option receivedPacketHistory := packetHistory <$> initialTracker c.

Definition history_of (pn : Z) : receivedPacketHistory := mkHistory [mkInterval pn pn] 0.

Lemma keeps_onSent {T} (m : stM (sentPacketHandler A) T) : keeps initialTracker (onSent m).
Proof. intros c. unfold onSent. by destruct (m (cSent c)). Qed.

Lemma keeps_onRest f : keeps initialTracker (onRest f).
Proof. intros c. unfold onRest. by destruct (f (cRest c)). Qed.

Lemma keeps_dropHandshake now : keeps initialTracker (dropEncryptionLevel EncryptionHandshake now).
Proof.
  intros c. unfold dropEncryptionLevel, mbind, stM_bind, onSent.
  destruct (DropPackets EncryptionHandshake now (cSent c)) as [[[]|e|m] h]; [|done..].
  cbn. unfold onRest. by destruct (ops_DropCryptoStream _ _).
Qed.

Lemma keeps_handshakeConfirmed now : keeps initialTracker (handleHandshakeConfirmed now).
Proof.
  apply keeps_bind; [apply keeps_dropHandshake|intros _].
  apply keeps_bind; [by apply keeps_modify|intros _].
  apply keeps_bind; [apply keeps_onSent|intros _]. by apply keeps_modify.
Qed.

(** The frames handled here do not touch the history of received packets. *)
Lemma keeps_handleFrame f encLevel destConnID now :
  keeps initialTracker (ops_handleFrame f encLevel destConnID) ->
  keeps initialTracker (handleFrame f encLevel destConnID now).
Proof.
  intros Hops. destruct f as [x|x|x|x|x|x|x|x|x|x|x|x|x|x|x|x|x|x|x|x]; try exact Hops; try done; cbn.
  - apply keeps_bind; [apply keeps_get|intros c]. apply keeps_bind; [apply keeps_onSent|intros []]; [|apply keeps_ret].
    apply keeps_bind; [apply keeps_get|intros c1].
    apply keeps_bind; [destruct (_ && _); [apply keeps_handshakeConfirmed|apply keeps_ret]|intros _].
    apply keeps_bind; [apply keeps_lift|intros la]. apply keeps_onRest.
  - apply keeps_bind; [apply keeps_get|intros c]. destruct (cPerspective c); [done|].
    destruct (negb _); [apply keeps_handshakeConfirmed|apply keeps_ret].
Qed.

Lemma handleFrames_loop_keeps {V} (g : connection A X -> V) encLevel destConnID log now :
  (forall f, keeps g (handleFrame f encLevel destConnID now)) ->
  forall fuel data ae err, keeps g (handleFrames_loop fuel data destConnID encLevel log now ae err).
Proof.
  intros Hh. induction fuel as [|fuel IH]; intros data ae err c; cbn [handleFrames_loop];
    (destruct (blen data =? 0); [done|]); [done|].
  destruct (ParseNext (cParser c) data encLevel) as [[l [f|]]|e|m]; [|done..]. cbv zeta.
  destruct err as [e|]; [apply IH|]. specialize (Hh f c).
  destruct (handleFrame f encLevel destConnID now c) as [[[]|e|p] c1]; cbn in Hh; [|destruct log|done].
  - by rewrite <- Hh; apply IH.
  - by rewrite <- Hh; apply IH.
  - done.
Qed.

Lemma handleFrames_keeps {V} (g : connection A X -> V) data encLevel destConnID log now :
  (forall f, keeps g (handleFrame f encLevel destConnID now)) ->
  keeps g ops_handleHandshakeComplete ->
  keeps g (handleFrames data destConnID encLevel log now).
Proof.
  intros Hh Hc. unfold handleFrames. apply keeps_bind; [apply keeps_get|intros c0].
  apply keeps_bind; [by apply handleFrames_loop_keeps|intros [ae err]].
  apply keeps_bind; [by destruct err|intros _].
  apply keeps_bind; [apply keeps_get|intros c1].
  apply keeps_bind; [|intros _; apply keeps_ret]. destruct (_ && _); [done|apply keeps_ret].
Qed.

(** A part of the other subsystems that their operations keep is kept by handling frames. *)
Section rest.
Context {V : Type} (g : X -> V).
Context (Hdrop : forall l x x', ops_DropCryptoStream l x = Ok x' -> g x' = g x).
Context (Hconf : forall x, g (ops_SetHandshakeConfirmed x) = g x).
Context (Hacked : forall pn x x', ops_SetLargest1RTTAcked pn x = Ok x' -> g x' = g x).

Lemma keeps_rest_onSent {T} (m : stM (sentPacketHandler A) T) : keeps (fun c => g (cRest c)) (onSent m).
Proof. intros c. unfold onSent. by destruct (m (cSent c)). Qed.

Lemma keeps_rest_onRest f : (forall x x', f x = Ok x' -> g x' = g x) -> keeps (fun c => g (cRest c)) (onRest f).
Proof. intros Hf c. unfold onRest. destruct (f (cRest c)) eqn:E; [|done..]. by apply Hf. Qed.

Lemma keeps_rest_confirmed now : keeps (fun c => g (cRest c)) (handleHandshakeConfirmed now).
Proof.
  apply keeps_bind; [|intros _].
  - apply keeps_bind; [apply keeps_rest_onSent|intros _]. apply keeps_bind; [apply keeps_get|intros c].
    apply keeps_bind; [apply keeps_lift|intros r]. apply keeps_bind; [by apply keeps_modify|intros _]. apply keeps_rest_onRest. apply Hdrop.
  - apply keeps_bind; [by apply keeps_modify|intros _]. apply keeps_bind; [apply keeps_rest_onSent|intros _].
    apply keeps_modify. intros c. apply Hconf.
Qed.

Lemma keeps_rest_handleFrame f encLevel destConnID now :
  keeps (fun c => g (cRest c)) (ops_handleFrame f encLevel destConnID) -> keeps (fun c => g (cRest c)) (handleFrame f encLevel destConnID now).
Proof.
  intros Hops. destruct f as [x|x|x|x|x|x|x|x|x|x|x|x|x|x|x|x|x|x|x|x]; try exact Hops; try done; cbn.
  - apply keeps_bind; [apply keeps_get|intros c]. apply keeps_bind; [apply keeps_rest_onSent|intros []]; [|apply keeps_ret].
    apply keeps_bind; [apply keeps_get|intros c1].
    apply keeps_bind; [destruct (_ && _); [apply keeps_rest_confirmed|apply keeps_ret]|intros _].
    apply keeps_bind; [apply keeps_lift|intros la]. apply keeps_rest_onRest. intros x1 x2. apply Hacked.
  - apply keeps_bind; [apply keeps_get|intros c]. destruct (cPerspective c); [done|].
    destruct (negb _); [apply keeps_rest_confirmed|apply keeps_ret].
Qed.
End rest.

(** The state in which the frames of the first packet are handled if there was
    no instant ACK. *)
Definition beforeFrames (packet : unpackedPacket) (rcvTime : Z) c : connection A X :=
  let c := c_first true c in
  packetReceivedAt rcvTime
    (if negb (bool_decide (upSrcConnID packet = handshakeDestConnID c))
     then switchConnID (upSrcConnID packet) c else c).

(** Registering a packet with a new tracker. *)
Lemma conn_ReceivedPacket_new pn ecn rcvTime ae now c :
  initialTracker c = Some newReceivedPacketTracker -> 0 <= pn ->
  exists c', conn_ReceivedPacket pn ecn EncryptionInitial rcvTime ae now c = (Ok tt, c') /\ initialHistory c' = Some (history_of pn).
Proof.
  intros Hc Hp. destruct (tracker_first pn ecn rcvTime ae Hp) as (t & E & Hh & _). unfold conn_ReceivedPacket, rhandler_ReceivedPacket.
  assert (Es : sent_ReceivedPacket now EncryptionInitial (cSent c) = Ok (cSent c)).
  { cbn. unfold sph_ReceivedPacket. rewrite (stM_bind_ok get _ (cSent c) (cSent c) (cSent c)) by done.
    rewrite (bool_decide_eq_false_2 (EncryptionInitial = EncryptionHandshake)) by done.
    by rewrite andb_false_r. }
  rewrite Es. unfold rhandler_registerPacket, initialTracker in *. rewrite Hc, E.
  eexists. split; [reflexivity|]. unfold initialHistory. cbn. by rewrite Hh.
Qed.

Lemma stM_bind_assoc_ret {T} (m : stM (connection A X) unit) (m1 : stM (connection A X) bool)
    (k : bool -> stM (connection A X) T) c c1 :
  m1 c = (m ≫= fun _ => mret true) c1 -> (m1 ≫= k) c = (m ≫= fun _ => k true) c1.
Proof. unfold mbind, stM_bind. intros ->. by destruct (m c1) as [[]]. Qed.

(** The handler of the first packet after [firstPacket]. *)
Definition afterFirst (packet : unpackedPacket) (ecn : ECN) (rcvTime : Z) (log : bool) (now : Z)
    (instantACKSent : bool) : stM (connection A X) unit :=
  _ ← modify (packetReceivedAt rcvTime);
  isAckEliciting ← handleFrames (upData packet) (upDestConnID packet) EncryptionInitial log now;
  if negb instantACKSent
  then conn_ReceivedPacket (upPacketNumber packet) ecn EncryptionInitial rcvTime isAckEliciting now
  else mret tt.

Lemma handleUnpacked_first packet ecn rcvTime log now c :
  receivedFirstPacket c = false -> upLevel packet = EncryptionInitial ->
  handleUnpackedLongHeaderPacket packet ecn rcvTime log now c =
  (firstPacket packet ecn rcvTime now ≫= afterFirst packet ecn rcvTime log now) c.
Proof.
  intros Hf Hl. unfold handleUnpackedLongHeaderPacket. rewrite (stM_bind_ok get _ c c c) by done.
  rewrite Hf, Hl. cbn [negb]. unfold mbind, stM_bind.
  destruct (firstPacket packet ecn rcvTime now c) as [[b|e|m] c1]; [|done..]. cbn [get].
  rewrite (bool_decide_eq_false_2 (EncryptionInitial = EncryptionHandshake)) by done.
  rewrite andb_false_r. done.
Qed.

Lemma firstPacket_no_instant packet ecn rcvTime now c :
  cEnableInstantACK c = false ->
  exists c1, firstPacket packet ecn rcvTime now c = (Ok false, c1) /\
    packetReceivedAt rcvTime c1 = beforeFrames packet rcvTime c /\ cReceived c1 = cReceived c.
Proof.
  intros Hi. unfold firstPacket, beforeFrames. cbv zeta.
  rewrite (stM_bind_ok (modify _) _ c (c_first true c) tt) by done.
  set (c0 := c_first true c). rewrite (stM_bind_ok get _ c0 c0 c0) by done.
  change (cEnableInstantACK c0) with (cEnableInstantACK c). rewrite Hi, andb_false_r.
  destruct (negb (bool_decide (upSrcConnID packet = handshakeDestConnID c0)));
    (eexists; split; [reflexivity|done]).
Qed.

Lemma keeps_history {T} (m : stM (connection A X) T) : keeps initialTracker m -> keeps initialHistory m.
Proof. intros Hm c. unfold initialHistory. by rewrite (Hm c). Qed.

(** C13: The first packet is registered exactly once, and with an instant ACK it
    is registered whatever becomes of its frames.  For a server's first Initial
    packet, if sending keeps the history of received packets, and the handlers of
    frames leave the received packets alone: with [EnableInstantACK] the packet is
    registered before its frames are handled, and not again afterwards; without it,
    it is registered after its frames if these were handled without an error, and a
    packet whose frames fail is not registered (so it is never acknowledged).  In
    both cases the result is that of handling the frames: registering the packet
    adds no error, which a second registration would (a panic while the instant ACK
    is sent is passed on). *)
Theorem first_packet_registered_once packet ecn rcvTime log now c :
  cPerspective c = PerspectiveServer -> receivedFirstPacket c = false ->
  cReceived c = newReceivedPacketHandler -> upLevel packet = EncryptionInitial -> 0 <= upPacketNumber packet ->
  keeps initialHistory ops_triggerSending -> keeps initialTracker ops_handleHandshakeComplete ->
  (forall f, keeps initialTracker (ops_handleFrame f EncryptionInitial (upDestConnID packet))) ->
  let '(r, c') := handleUnpackedLongHeaderPacket packet ecn rcvTime log now c in
  let registered := Some (history_of (upPacketNumber packet)) in
  exists cf, initialHistory cf = (if cEnableInstantACK c then registered else Some newReceivedPacketHistory) /\
    (cEnableInstantACK c = false -> cf = beforeFrames packet rcvTime c) /\
    ((exists m c1, cEnableInstantACK c = true /\ ops_triggerSending c1 = (Panic m, cf) /\ r = Panic m /\ c' = cf) \/
     let frames := (handleFrames (upData packet) (upDestConnID packet) EncryptionInitial log now cf).1 in
     r = (_ ← frames; Ok tt) /\
     initialHistory c' = (if cEnableInstantACK c || (match frames with Ok _ => true | _ => false end)
                          then registered else Some newReceivedPacketHistory)).
Proof.
  intros Hp Hf Hr Hl Hpn Ht Hc Hh. rewrite handleUnpacked_first by done.
  pose proof (handleFrames_keeps initialTracker (upData packet) EncryptionInitial (upDestConnID packet) log now
    (fun f => keeps_handleFrame f EncryptionInitial (upDestConnID packet) now (Hh f)) Hc) as Hk.
  destruct (cEnableInstantACK c) eqn:Ei.
  - destruct (firstPacket_instant packet ecn rcvTime now c Hp Ei Hr Hl Hpn) as (c1 & t & E & _ & Hc1 & Hh1 & _).
    assert (Hreg : initialHistory c1 = Some (history_of (upPacketNumber packet))).
    { unfold initialHistory, initialTracker. rewrite Hc1. cbn. by rewrite Hh1. }
    rewrite (stM_bind_assoc_ret _ _ _ _ _ E). specialize (Ht c1). rewrite Hreg in Ht.
    unfold mbind at 1, stM_bind at 1, ignoring. destruct (ops_triggerSending c1) as [[?|?|m] c2] eqn:Eq; cbn in Ht.
    3:{ exists c2. split; [done|]. split; [done|]. left. by exists m, c1. }
    all: unfold afterFirst; rewrite (stM_bind_ok (modify _) _ c2 (packetReceivedAt rcvTime c2) tt) by done;
      pose proof (keeps_history _ Hk (packetReceivedAt rcvTime c2)) as Hk2; unfold mbind at 1, stM_bind at 1;
      destruct (handleFrames _ _ _ _ _ (packetReceivedAt rcvTime c2)) as [rf c3] eqn:Ef; cbn in Hk2;
      change (initialHistory (packetReceivedAt rcvTime c2)) with (initialHistory c2) in Hk2;
      destruct rf; exists (packetReceivedAt rcvTime c2); (split; [exact Ht|]); (split; [done|]); right; rewrite Ef; cbn; split; congruence.
  - destruct (firstPacket_no_instant packet ecn rcvTime now c Ei) as (c1 & E & Hb & Hc1).
    rewrite (stM_bind_ok _ _ _ _ _ E). unfold afterFirst.
    rewrite (stM_bind_ok (modify _) _ c1 (beforeFrames packet rcvTime c) tt) by by rewrite <- Hb.
    assert (Hnew : initialTracker (beforeFrames packet rcvTime c) = Some newReceivedPacketTracker)
      by (rewrite <- Hb; unfold initialTracker; cbn; by rewrite Hc1, Hr).
    specialize (Hk (beforeFrames packet rcvTime c)). rewrite Hnew in Hk.
    unfold mbind at 1, stM_bind at 1. destruct (handleFrames _ _ _ _ _ (beforeFrames packet rcvTime c)) as [rf c2] eqn:Ef; cbn in Hk.
    assert (Hh2 : initialHistory c2 = Some newReceivedPacketHistory) by (unfold initialHistory; by rewrite Hk).
    destruct rf as [ae|e|m].
    + destruct (conn_ReceivedPacket_new (upPacketNumber packet) ecn rcvTime ae now c2 Hk Hpn) as (c3 & E3 & Hreg). cbn [negb]. rewrite E3.
      exists (beforeFrames packet rcvTime c). split; [unfold initialHistory; by rewrite Hnew|]. split; [done|]. right. by rewrite Ef.
    + exists (beforeFrames packet rcvTime c). split; [unfold initialHistory; by rewrite Hnew|]. split; [done|]. right. by rewrite Ef.
    + exists (beforeFrames packet rcvTime c). split; [unfold initialHistory; by rewrite Hnew|]. split; [done|]. right. by rewrite Ef.
Qed.
End instant_ack.

(** ** A concrete connection

    Its other subsystems do nothing, but for sending: [triggerSending] sends the
    ACK frame that is queued for the Initial packet number space, and the state
    is the list of the ACK frames sent. *)

Definition ex_triggerSending {A} : stM (connection A (list AckFrame)) unit := fun c =>
  let '(received, ack) := rhandler_GetAckFrame (cReceived c) EncryptionInitial 7 true in
  (Ok tt, c_rest (match ack with Some a => cRest c ++ [a] | None => cRest c end) (c_received received c)).

#[local] Instance ex_levels : LevelOps (list AckFrame) := {
  ops_DiscardInitialKeys x := x;
  ops_DropCryptoStream _ x := Ok x;
  ops_Reset0RTT x := Ok x
}.

#[local] Instance ex_ops {A} : ConnectionOps A (list AckFrame) := {
  ops_ChangeInitialConnID _ x := x;
  ops_handleFrame _ _ _ := mret tt;
  ops_handleHandshakeComplete := mret tt;
  ops_triggerSending := ex_triggerSending;
  ops_SetHandshakeConfirmed x := x;
  ops_SetLargest1RTTAcked _ x := Ok x
}.

Definition ex_space0 : packetNumberSpace :=
  mkSpace newSentPacketHistory (newSequentialPacketNumberGenerator 0) 0 0 (-1) (-1).

Definition ex_sentHandler : sentPacketHandler (cubicSender unit) :=
  mkSPH (Some ex_space0) (Some ex_space0) ex_space0 true 0 0 false false 0 0
    (NewCubicSender NewRTTStats 1252 true) NewRTTStats 0 SendNone 0 0 None PerspectiveServer [].

Definition ex_connection (instant : bool) : connection (cubicSender unit) (list AckFrame) :=
  mkConn PerspectiveServer instant false [1; 2] false false 0 0 false ex_sentHandler
    newReceivedPacketHandler (SetAckDelayExponent 3 (NewFrameParser false)) [].

(** An Initial packet with a PING frame, and one with an invalid frame. *)
Definition ex_ping : unpackedPacket := mkUnpacked 0 [9; 9] [] EncryptionInitial [0x01].
Definition ex_invalid : unpackedPacket := mkUnpacked 0 [9; 9] [] EncryptionInitial [0x1f].

Lemma frames_delivered_witness :
  handleFrames (payload [(1%nat, FPing mkPing); (2%nat, FCrypto (mkCrypto 5 [1; 2]))]) [] EncryptionInitial false 7
    (ex_connection true) = (Ok true, ex_connection true).
Proof.
  etransitivity; [apply (frames_delivered EncryptionInitial [] false 7 [(1%nat, FPing mkPing); (2%nat, FCrypto (mkCrypto 5 [1; 2]))])|reflexivity].
  - by split.
  - split; [done|]. split; [reflexivity|]. split; [done|]. split; [|done].
    split; [vm_compute; intuition congruence|]. split; [repeat constructor; lia|vm_compute; intuition congruence].
  - vm_compute. reflexivity.
Defined.

(** A server stays a server. *)
Lemma handleFrames_preserves_witness :
  preserves (fun c : connection (cubicSender unit) (list AckFrame) => cPerspective c = PerspectiveServer)
    (handleFrames [0x1e; 0x01; 0x1f] [] Encryption0RTT true 7).
Proof.
  apply (handleFrames_preserves (fun c => cPerspective c = PerspectiveServer)).
  - repeat constructor; lia.
  - intros f [Hv Ha] c Hc. destruct f; try discriminate Ha; try exact Hc.
    cbn. unfold handleHandshakeDoneFrame, mbind, stM_bind, get. rewrite Hc. exact Hc.
  - intros c Hc. exact Hc.
Defined.

Lemma instant_ack_ready_witness :
  exists c1, firstPacket ex_ping ECNNon 5 7 (ex_connection true) =
      (ignoring ops_triggerSending ≫= fun _ => mret true) c1 /\
    exists ack, (rhandler_GetAckFrame (cReceived c1) EncryptionInitial 9 true).2 = Some ack /\
      AckRanges ack = [mkAckRange 0 0].
Proof.
  destruct (instant_ack_ready ex_ping ECNNon 5 7 (ex_connection true)) as (c1 & E & _ & Hack);
    [reflexivity..|vm_compute; discriminate|].
  exists c1. split; [exact E|]. destruct (Hack 9) as (ack & H1 & H2 & _). exists ack. split; [exact H1|exact H2].
Defined.

Lemma ex_triggerSending_keeps :
  keeps initialHistory (ops_triggerSending : stM (connection (cubicSender unit) (list AckFrame)) unit).
Proof.
  intros c. cbn. unfold ex_triggerSending, initialHistory, initialTracker. cbn.
  destruct (initialPackets (cReceived c)) as [t|] eqn:E; [|cbn; by rewrite E].
  unfold getAckFrameNoDelay, tracker_GetAckFrame.
  destruct (negb (hasNewAck t)); [done|]. destruct (_ && _ && _); [done|]. by destruct t.
Qed.

(** The packet with the invalid frame: acknowledged with the instant ACK, not
    registered without it. *)
Lemma first_packet_registered_once_witness :
  let handle instant := handleUnpackedLongHeaderPacket ex_invalid ECNNon 5 false 7 (ex_connection instant) in
  initialHistory (handle true).2 = Some (history_of 0) /\
  initialHistory (handle false).2 = Some newReceivedPacketHistory.
Proof.
  assert (H : forall instant,
    let '(r, c') := handleUnpackedLongHeaderPacket ex_invalid ECNNon 5 false 7 (ex_connection instant) in
    exists cf, initialHistory cf = (if instant then Some (history_of 0) else Some newReceivedPacketHistory) /\
      (instant = false -> cf = beforeFrames ex_invalid 5 (ex_connection instant)) /\
      ((exists m c1, instant = true /\ ops_triggerSending c1 = (Panic m, cf) /\ r = Panic m /\ c' = cf) \/
       let frames := (handleFrames [0x1f] [] EncryptionInitial false 7 cf).1 in
       r = (_ ← frames; Ok tt) /\
       initialHistory c' = (if instant || (match frames with Ok _ => true | _ => false end)
                            then Some (history_of 0) else Some newReceivedPacketHistory))).
  { intros instant.
    apply (first_packet_registered_once ex_invalid ECNNon 5 false 7 (ex_connection instant));
      [reflexivity..|vm_compute; discriminate|exact ex_triggerSending_keeps|done|done]. }
  cbv zeta beta. split.
  - generalize (H true). destruct (handleUnpackedLongHeaderPacket _ _ _ _ _ (ex_connection true)) as [r c']. cbn [snd].
    intros (cf & Hcf & _ & [(m & c1 & _ & _ & _ & ->)|[_ ->]]); [exact Hcf|reflexivity].
  - generalize (H false). destruct (handleUnpackedLongHeaderPacket _ _ _ _ _ (ex_connection false)) as [r c']. cbn [snd].
    intros (cf & _ & Hcf & [(m & c1 & Hd & _)|[_ ->]]); [discriminate Hd|]. rewrite (Hcf eq_refl). vm_compute. reflexivity.
Defined.

(** ** Findings *)

(** The instant ACK acknowledges packets that are not ack-eliciting: an Initial
    packet that only carries an ACK frame or a CONNECTION_CLOSE frame (here the
    latter) makes the server send an ACK. *)
Theorem instant_ack_not_ack_eliciting :
  let packet := mkUnpacked 0 [9; 9] [] EncryptionInitial [0x1c; 0; 0; 0] in
  let run instant := handleUnpackedLongHeaderPacket packet ECNNon 5 false 7 (ex_connection instant) in
  (AckRanges <$> cRest (run true).2) = [[mkAckRange 0 0]] /\
  (rhandler_GetAckFrame (cReceived (run false).2) EncryptionInitial 9 true).2 = None.
Proof. vm_compute. done. Qed.

(** The crash of [handler_empty_ack_frame] in a connection.  The server has
    received packet 100 and sent packet 0 with its acknowledgement.  The client
    then sends packet 50, whose ACK frame acknowledges packet 0, and a PING:
    handling it succeeds, but the ACK the server then wants to send has no
    ranges, and computing its length panics. *)
Theorem empty_ack_end_to_end :
  let c0 := ex_connection false in
  let c1 := (conn_ReceivedPacket 100 ECNNon Encryption1RTT 1000 true 1000 c0).2 in
  let c2 := c_received (rhandler_GetAckFrame (cReceived c1) Encryption1RTT 1000 true).1 c1 in
  let c3 := (onSent (SentPacket 1001 0 100 [] [mkFrame 0 None] Encryption1RTT ECNNon 1200 false 1001) c2).2 in
  let '(r, c4) := handleUnpackedShortHeaderPacket [] 50 [0x02; 0; 0; 0; 0; 0x01] ECNNon 2000 false 2000 c3 in
  let ack := (rhandler_GetAckFrame (cReceived c4) Encryption1RTT 2000 true).2 in
  rhandler_IsPotentiallyDuplicate (cReceived c3) 50 Encryption1RTT = Ok false /\
  r = Ok tt /\ (AckRanges <$> ack) = Some [] /\
  (AckFrame_Length <$> ack) = Some (Panic "index out of range").
Proof. vm_compute. done. Qed.
