(* ===== verification/FrameSorter.v ===== *)
(** * FrameSorter: reassembly of stream data

    Models frame_sorter.go.  The gaps are a doubly linked list whose elements
    the code holds pointers to across removals and insertions: an element is a
    pair of an identity and a value, and a pointer is the identity ([None] is
    nil).  Reading the value of nil, or of an element that was removed (and went
    back to the pool), is a panic.  A [doneCb] is an identifier; calling it
    appends it to a log. *)

From S2P Require Import Prelude Protocol Frames.
From stdpp Require Import base numbers list option strings gmap fin_maps.
From Stdlib Require Import ZArith Lia.
#[local] Open Scope Z_scope.

(** ** Data *)

Record byteInterval := mkByteInterval { biStart : Z; biEnd : Z }.

Record frameSorterEntry := mkEntry { feData : bytes; feDoneCb : option nat }.

Abbreviation gap := (nat * byteInterval)%type.

Record frameSorter := mkFrameSorter {
  fsQueue : gmap Z frameSorterEntry;
  fsReadPos : Z;
  fsGaps : list gap;
  fsFresh : nat;           (* identity of the next list element *)
  fsCalled : list nat      (* the callbacks called so far *)
}.


Definition errDuplicateStreamData : GoError := ErrorString "duplicate stream data".
Definition errTooManyGaps : GoError := ErrorString "too many gaps in received data".

Definition fs_queue (q : gmap Z frameSorterEntry) (s : frameSorter) : frameSorter :=
  mkFrameSorter q (fsReadPos s) (fsGaps s) (fsFresh s) (fsCalled s).
Definition fs_readPos (p : Z) (s : frameSorter) : frameSorter :=
  mkFrameSorter (fsQueue s) p (fsGaps s) (fsFresh s) (fsCalled s).
Definition fs_gaps (gs : list gap) (s : frameSorter) : frameSorter :=
  mkFrameSorter (fsQueue s) (fsReadPos s) gs (fsFresh s) (fsCalled s).

Abbreviation fsM := (stM frameSorter).

(** ** The list of gaps (internal/utils/linkedlist) *)

Fixpoint gap_value (gs : list gap) (i : nat) : res byteInterval :=
  match gs with
  | [] => Panic "nil pointer dereference"
  | g :: gs' => if decide (g.1 = i) then Ok g.2 else gap_value gs' i
  end.

(** [e.Next()] and [e.Prev()] *)
Fixpoint gap_Next (gs : list gap) (i : nat) : option nat :=
  match gs with
  | [] => None
  | g :: gs' => if decide (g.1 = i) then fst <$> head gs' else gap_Next gs' i
  end.

Fixpoint gap_Prev (prev : option nat) (gs : list gap) (i : nat) : option nat :=
  match gs with
  | [] => None
  | g :: gs' => if decide (g.1 = i) then prev else gap_Prev (Some g.1) gs' i
  end.

Definition gap_Remove (i : nat) (gs : list gap) : list gap :=
  filter (fun g => g.1 <> i) gs.

Definition gap_set (i : nat) (f : byteInterval -> byteInterval) (gs : list gap) : list gap :=
  (fun g => if decide (g.1 = i) then (g.1, f g.2) else g) <$> gs.

Fixpoint gap_InsertAfter (v : gap) (i : nat) (gs : list gap) : list gap :=
  match gs with
  | [] => []
  | g :: gs' => if decide (g.1 = i) then g :: v :: gs' else g :: gap_InsertAfter v i gs'
  end.

Definition setStart (v : Z) (b : byteInterval) : byteInterval := mkByteInterval v (biEnd b).
Definition setEnd (v : Z) (b : byteInterval) : byteInterval := mkByteInterval (biStart b) v.

Definition gapDeref (p : option nat) : fsM byteInterval := fun s =>
  match p with
  | None => (Panic "nil pointer dereference", s)
  | Some i => (gap_value (fsGaps s) i, s)
  end.

Definition gapRemove (i : nat) : fsM unit := modify (fun s => fs_gaps (gap_Remove i (fsGaps s)) s).
Definition gapSet (i : nat) (f : byteInterval -> byteInterval) : fsM unit :=
  modify (fun s => fs_gaps (gap_set i f (fsGaps s)) s).
Definition gapInsertAfter (v : byteInterval) (i : nat) : fsM unit := modify (fun s =>
  mkFrameSorter (fsQueue s) (fsReadPos s) (gap_InsertAfter (fsFresh s, v) i (fsGaps s))
    (S (fsFresh s)) (fsCalled s)).

(** ** Operations *)

Definition newFrameSorter : frameSorter :=
  mkFrameSorter ∅ 0 [(0%nat, mkByteInterval 0 MaxByteCount)] 1 [].

(** [if cb != nil { cb() }] *)
Definition callDone (cb : option nat) : fsM unit := modify (fun s =>
  match cb with
  | None => s
  | Some c => mkFrameSorter (fsQueue s) (fsReadPos s) (fsGaps s) (fsFresh s) (fsCalled s ++ [c])
  end).

(** The loop of [findStartGap]. *)
Fixpoint findStartGap (gs : list gap) (offset : Z) : res (nat * bool) :=
  match gs with
  | [] => Panic "no gap found"
  | g :: gs' =>
      if (biStart g.2 <=? offset) && (offset <=? biEnd g.2) then Ok (g.1, true)
      else if offset <? biStart g.2 then Ok (g.1, false)
      else findStartGap gs' offset
  end.

(** The loop of [findEndGap] from the element at the head of [gs]; [all] is the
    whole list. *)
Fixpoint findEndGap_loop (all gs : list gap) (offset : Z) : res (option nat * bool) :=
  match gs with
  | [] => Panic "no gap found"
  | g :: gs' =>
      if (biStart g.2 <=? offset) && (offset <? biEnd g.2) then Ok (Some g.1, true)
      else if offset <? biStart g.2 then Ok (gap_Prev None all g.1, false)
      else findEndGap_loop all gs' offset
  end.

(** The list from an element on. *)
Fixpoint from_gap (gs : list gap) (i : nat) : list gap :=
  match gs with
  | [] => []
  | g :: gs' => if decide (g.1 = i) then gs else from_gap gs' i
  end.

Definition findEndGap (gs : list gap) (startGap : nat) (offset : Z) : res (option nat * bool) :=
  findEndGap_loop gs (from_gap gs startGap) offset.

Definition queueDelete (pos : Z) : fsM unit := modify (fun s => fs_queue (delete pos (fsQueue s)) s).

Fixpoint deleteConsecutive_loop (fuel : nat) (pos : Z) : fsM unit :=
  s ← get;
  match fsQueue s !! pos with
  | None => mret tt
  | Some oldEntry =>
      match fuel with
      | O => lift (Panic "out of fuel")
      | S fuel' =>
          let oldEntryLen := blen (feData oldEntry) in
          _ ← queueDelete pos;
          _ ← callDone (feDoneCb oldEntry);
          deleteConsecutive_loop fuel' (i64 (pos + oldEntryLen))
      end
  end.

Definition deleteConsecutive (pos : Z) : fsM unit :=
  s ← get; deleteConsecutive_loop (size (fsQueue s)) pos.

(** The loop over the frames that start in the new one: returns whether a frame
    was replaced, and where the new frame has to be cut, if it has to. *)
Fixpoint replaceLoop (fuel : nat) (end_ pos : Z) (hasReplacedAtLeastOne : bool)
    : fsM (bool * option Z) :=
  s ← get;
  match fsQueue s !! pos with
  | None => mret (hasReplacedAtLeastOne, None)
  | Some oldEntry =>
      match fuel with
      | O => lift (Panic "out of fuel")
      | S fuel' =>
          let oldEntryLen := blen (feData oldEntry) in
          if (oldEntryLen <? i64 (end_ - pos))
             || (hasReplacedAtLeastOne && (i64 (end_ - pos) =? oldEntryLen)) then
            _ ← queueDelete pos;
            _ ← callDone (feDoneCb oldEntry);
            replaceLoop fuel' end_ (i64 (pos + oldEntryLen)) true
          else if negb hasReplacedAtLeastOne then throw errDuplicateStreamData
          else mret (hasReplacedAtLeastOne, Some pos)
      end
  end.

(** [d[n:]] and [d[:n]] *)
Definition sliceFrom (n : Z) (d : bytes) : res bytes :=
  if (0 <=? n) && (n <=? blen d) then Ok (drop (Z.to_nat n) d) else Panic "slice bounds out of range".
Definition sliceTo (n : Z) (d : bytes) : res bytes :=
  if (0 <=? n) && (n <=? blen d) then Ok (take (Z.to_nat n) d) else Panic "slice bounds out of range".

(** A piece of data on its way into the queue: data, start, end, [wasCut]. *)
Record piece := mkPiece { pcData : bytes; pcStart : Z; pcEnd : Z; pcCut : bool }.

(** The new frame ends where an existing, longer frame starts. *)
Definition cutAt (p : piece) (cut : option Z) : res piece :=
  match cut with
  | None => Ok p
  | Some pos => d ← sliceTo (i64 (pos - pcStart p)) (pcData p); Ok (mkPiece d (pcStart p) pos true)
  end.

Definition cutStart (startsInGap hasReplacedAtLeastOne : bool) (gapStart : Z) (p : piece) : res piece :=
  if negb startsInGap && negb hasReplacedAtLeastOne then
    d ← sliceFrom (i64 (gapStart - pcStart p)) (pcData p);
    Ok (mkPiece d gapStart (pcEnd p) true)
  else Ok p.

(** Returns [adjustedStartGapEnd]. *)
Definition adjustStartGap (startGap : nat) (v : byteInterval) (hasReplacedAtLeastOne : bool) (p : piece)
    : fsM bool :=
  if pcStart p <=? biStart v then
    _ ← (if biEnd v <=? pcEnd p then gapRemove startGap else gapSet startGap (setStart (pcEnd p)));
    mret false
  else if negb hasReplacedAtLeastOne then
    _ ← gapSet startGap (setEnd (pcStart p)); mret true
  else mret false.

Fixpoint deleteBetween (fuel : nat) (gap : option nat) (endGapStart : Z) : fsM unit :=
  v ← gapDeref gap;
  match gap with
  | Some i =>
      if biEnd v <? endGapStart then
        match fuel with
        | O => lift (Panic "out of fuel")
        | S fuel' =>
            s ← get;
            let nextGap := gap_Next (fsGaps s) i in
            _ ← deleteConsecutive (biEnd v);
            _ ← gapRemove i;
            deleteBetween fuel' nextGap endGapStart
        end
      else mret tt
  | None => mret tt
  end.

Definition cutEnd (endsInGap : bool) (endGapEnd : Z) (p : piece) : res piece :=
  if negb endsInGap && negb (pcStart p =? endGapEnd) && (endGapEnd <? pcEnd p) then
    d ← sliceTo (i64 (endGapEnd - pcStart p)) (pcData p);
    Ok (mkPiece d (pcStart p) endGapEnd true)
  else Ok p.

Definition adjustEndGap (startGap endGap : nat) (same adjustedStartGapEnd : bool)
    (startGapEnd endGapEnd : Z) (p : piece) : fsM unit :=
  if pcEnd p =? endGapEnd then
    if negb same then gapRemove endGap else mret tt
  else if same && adjustedStartGapEnd then
    gapInsertAfter (mkByteInterval (pcEnd p) startGapEnd) startGap
  else if negb same then gapSet endGap (setStart (pcEnd p))
  else mret tt.

(** A short piece of a frame is copied, to release the frame's buffer. *)
Definition releaseCut (p : piece) (doneCb : option nat) : fsM (option nat) :=
  if pcCut p && (blen (pcData p) <? MinStreamFrameBufferSize)
  then _ ← callDone doneCb; mret None
  else mret doneCb.

Definition push (data : bytes) (offset : Z) (doneCb : option nat) : fsM unit :=
  if blen data =? 0 then throw errDuplicateStreamData
  else
    let end_ := i64 (offset + blen data) in
    s ← get;
    front ← gapDeref (fst <$> head (fsGaps s));
    if end_ <=? biStart front then throw errDuplicateStreamData
    else
      '(startGap, startsInGap) ← lift (findStartGap (fsGaps s) offset);
      '(endGapPtr, endsInGap) ← lift (findEndGap (fsGaps s) startGap end_);
      let same := bool_decide (Some startGap = endGapPtr) in
      sg ← gapDeref (Some startGap);
      eg ← gapDeref endGapPtr;
      let endGap := default startGap endGapPtr in
      if (same && (end_ <=? biStart sg))
         || (negb same && (biStart eg <=? biEnd sg) && (end_ <=? biStart sg))
      then throw errDuplicateStreamData
      else
        let startGapNext := gap_Next (fsGaps s) startGap in
        '(hasReplaced, cut) ← replaceLoop (S (size (fsQueue s))) end_ offset false;
        p ← lift (cutAt (mkPiece data offset end_ false) cut);
        p ← lift (cutStart startsInGap hasReplaced (biStart sg) p);
        adjusted ← adjustStartGap startGap sg hasReplaced p;
        _ ← (if negb same then
               _ ← deleteConsecutive (biEnd sg);
               deleteBetween (length (fsGaps s)) startGapNext (biStart eg)
             else mret tt);
        p ← lift (cutEnd endsInGap (biEnd eg) p);
        _ ← adjustEndGap startGap endGap same adjusted (biEnd sg) (biEnd eg) p;
        cb ← releaseCut p doneCb;
        s ← get;
        if MaxStreamFrameSorterGaps <? blen (fsGaps s) then throw errTooManyGaps
        else modify (fun s => fs_queue (<[pcStart p := mkEntry (pcData p) cb]> (fsQueue s)) s).

Definition Push (data : bytes) (offset : Z) (doneCb : option nat) : fsM unit := fun s =>
  match push data offset doneCb s with
  | (Err e, s') =>
      if decide (e = errDuplicateStreamData) then callDone doneCb s' else (Err e, s')
  | r => r
  end.

Definition Pop : fsM (Z * option bytes * option nat) :=
  s ← get;
  match fsQueue s !! fsReadPos s with
  | None => mret (fsReadPos s, None, None)
  | Some entry =>
      _ ← queueDelete (fsReadPos s);
      let offset := fsReadPos s in
      _ ← modify (fs_readPos (i64 (fsReadPos s + blen (feData entry))));
      s ← get;
      front ← gapDeref (fst <$> head (fsGaps s));
      if biEnd front <=? fsReadPos s
      then lift (Panic "frame sorter BUG: read position higher than a gap")
      else mret (offset, Some (feData entry), feDoneCb entry)
  end.

Definition HasMoreData (s : frameSorter) : bool := (0 <? size (fsQueue s))%nat.
