(* ===== verification/FrameSorterProofs.v ===== *)
(** * FrameSorterProofs: the frame sorter reassembles the stream

    The invariant of the frame sorter, byte by byte: a byte from the read
    position on is in a gap or in exactly one queued frame.  [push] removes
    exactly the bytes of the new frame from the gaps, and queues its bytes or
    bytes that were queued before. *)

From S2P Require Import Prelude Protocol Frames FrameSorter.
From stdpp Require Import base numbers list option strings gmap fin_maps sorting.
From Stdlib Require Import ZArith Lia.
#[local] Open Scope Z_scope.
#[local] Set Warnings "-clear-no-such-hyp".

Implicit Types (gs : list gap) (q : gmap Z frameSorterEntry) (s : frameSorter).

(** ** The list of gaps *)

Section gap_list.
Context (i : nat) (v : byteInterval) (pre post : list gap).

Lemma gap_value_mid : i ∉ pre.*1 -> gap_value (pre ++ (i, v) :: post) i = Ok v.
Proof.
  induction pre as [|g pre' IH]; cbn; [by rewrite decide_True|].
  intros [Hg Hp]%not_elem_of_cons. rewrite decide_False by congruence. auto.
Qed.

Lemma gap_Next_mid : i ∉ pre.*1 -> gap_Next (pre ++ (i, v) :: post) i = fst <$> head post.
Proof.
  induction pre as [|g pre' IH]; cbn; [by rewrite decide_True|].
  intros [Hg Hp]%not_elem_of_cons. rewrite decide_False by congruence. auto.
Qed.

Lemma from_gap_mid : i ∉ pre.*1 -> from_gap (pre ++ (i, v) :: post) i = (i, v) :: post.
Proof.
  induction pre as [|g pre' IH]; cbn; [by rewrite decide_True|].
  intros [Hg Hp]%not_elem_of_cons. rewrite decide_False by congruence. auto.
Qed.

Lemma gap_Prev_mid p :
  i ∉ pre.*1 ->
  gap_Prev p (pre ++ (i, v) :: post) i = match last pre with Some g => Some g.1 | None => p end.
Proof.
  revert p. induction pre as [|g pre' IH]; intros p; cbn; [by rewrite decide_True|].
  intros [Hg Hp]%not_elem_of_cons. rewrite decide_False by congruence. rewrite IH by done.
  rewrite last_cons. by destruct (last pre').
Qed.

Lemma gap_Remove_mid : i ∉ pre.*1 -> i ∉ post.*1 -> gap_Remove i (pre ++ (i, v) :: post) = pre ++ post.
Proof.
  intros H1 H2. unfold gap_Remove. rewrite filter_app, filter_cons_False by (cbn; auto).
  assert (Hf : forall l : list gap, i ∉ l.*1 -> filter (fun g : gap => g.1 <> i) l = l).
  { induction l as [|g l IH]; [done|]. rewrite fmap_cons, not_elem_of_cons. intros [Hg Hl].
    rewrite filter_cons_True by congruence. by rewrite IH. }
  by rewrite !Hf.
Qed.

Lemma gap_set_mid f :
  i ∉ pre.*1 -> i ∉ post.*1 -> gap_set i f (pre ++ (i, v) :: post) = pre ++ (i, f v) :: post.
Proof.
  intros H1 H2. unfold gap_set. rewrite fmap_app, fmap_cons, decide_True by done.
  assert (Hf : forall l : list gap, i ∉ l.*1 ->
    (fun g : gap => if decide (g.1 = i) then (g.1, f g.2) else g) <$> l = l).
  { induction l as [|g l IH]; [done|]. cbn. intros [Hg Hl]%not_elem_of_cons.
    rewrite decide_False by congruence. by rewrite IH. }
  by rewrite !Hf.
Qed.

Lemma gap_InsertAfter_mid w :
  i ∉ pre.*1 -> gap_InsertAfter w i (pre ++ (i, v) :: post) = pre ++ (i, v) :: w :: post.
Proof.
  induction pre as [|g pre' IH]; cbn; [by rewrite decide_True|].
  intros [Hg Hp]%not_elem_of_cons. rewrite decide_False by congruence. by rewrite IH.
Qed.
End gap_list.

Definition in_gap gs (b : Z) : Prop := exists g, g ∈ gs /\ biStart g.2 <= b < biEnd g.2.

Lemma in_gap_app gs gs' b : in_gap (gs ++ gs') b <-> in_gap gs b \/ in_gap gs' b.
Proof. unfold in_gap. setoid_rewrite elem_of_app. naive_solver. Qed.

Lemma in_gap_cons g gs b : in_gap (g :: gs) b <-> biStart g.2 <= b < biEnd g.2 \/ in_gap gs b.
Proof. unfold in_gap. setoid_rewrite elem_of_cons. naive_solver. Qed.

Lemma in_gap_nil b : in_gap [] b <-> False.
Proof. split; [|done]. by intros (g & Hg%not_elem_of_nil & _). Qed.

(** The gaps are in order, not empty, and not adjacent. *)
Definition gap_lt (a b : gap) : Prop := biEnd a.2 < biStart b.2.

Record gaps_ok (r : Z) gs : Prop := {
  go_sorted : StronglySorted gap_lt gs;
  go_each : forall g, g ∈ gs -> r <= biStart g.2 < biEnd g.2 /\ biEnd g.2 <= MaxByteCount;
  go_last : in_gap gs (MaxByteCount - 1)
}.

(** ** The queue *)

Definition elen (e : frameSorterEntry) : Z := blen (feData e).

(** The queued frames are not empty and do not overlap. *)
Definition disjoint_queue q : Prop := forall off e, q !! off = Some e ->
  0 < elen e /\ forall off' e', q !! off' = Some e' -> off < off' -> off + elen e <= off'.

(** No queued frame extends across an offset. *)
Definition boundary q (x : Z) : Prop := forall off e, q !! off = Some e -> off < x -> off + elen e <= x.

(** The queue without the frames that start in an interval. *)
Definition clear (a b : Z) q : gmap Z frameSorterEntry := filter (fun kv => ~ (a <= kv.1 < b)) q.

Lemma clear_lookup a b q k : clear a b q !! k = if decide (a <= k < b) then None else q !! k.
Proof.
  unfold clear. case_decide.
  - apply map_lookup_filter_None. right. naive_solver.
  - destruct (q !! k) eqn:E.
    + by apply map_lookup_filter_Some.
    + apply map_lookup_filter_None. by left.
Qed.

Lemma clear_clear a b c q : a <= b <= c -> clear b c (clear a b q) = clear a c q.
Proof.
  intros. apply map_eq. intros k. rewrite !clear_lookup. repeat case_decide; done || lia.
Qed.

Lemma clear_none a b q : (forall k, a <= k < b -> q !! k = None) -> clear a b q = q.
Proof.
  intros Hn. apply map_eq. intros k. rewrite clear_lookup. case_decide; [|done]. by rewrite Hn.
Qed.

Lemma clear_extend a b c q :
  a <= b <= c -> (forall k, b <= k < c -> q !! k = None) -> clear a b q = clear a c q.
Proof.
  intros Hl Hn. apply map_eq. intros k. rewrite !clear_lookup. repeat case_decide; try done || lia.
  apply Hn. lia.
Qed.

Lemma clear_disjoint a b q : disjoint_queue q -> disjoint_queue (clear a b q).
Proof.
  intros Hd off e. rewrite clear_lookup. case_decide; [done|]. intros He.
  destruct (Hd _ _ He) as [Hp Hl]. split; [done|]. intros off' e'. rewrite clear_lookup.
  case_decide; [done|]. apply Hl.
Qed.

(** The frames of the queue fill an interval exactly. *)
Inductive tiled q : Z -> Z -> Prop :=
  | tiled_nil a : tiled q a a
  | tiled_cons a b e : q !! a = Some e -> 0 < elen e -> tiled q (a + elen e) b -> tiled q a b.

Lemma tiled_le q a b : tiled q a b -> a <= b.
Proof. induction 1; lia. Qed.

Lemma tiled_agree q q' a b :
  tiled q a b -> (forall k, a <= k < b -> q' !! k = q !! k) -> tiled q' a b.
Proof.
  induction 1 as [a|a b e He Hp Ht IH]; intros Hk; [constructor|].
  pose proof (tiled_le _ _ _ Ht). econstructor; [rewrite Hk by lia; done|done|].
  apply IH. intros. apply Hk. lia.
Qed.

(** Callbacks of queued frames, which have not been called yet. *)
Definition pending q : list nat := omap feDoneCb (map_to_list q).*2.

Definition opt_list (o : option nat) : list nat := match o with Some c => [c] | None => [] end.

Lemma pending_delete q k e :
  q !! k = Some e -> pending q ≡ₚ opt_list (feDoneCb e) ++ pending (delete k q).
Proof.
  intros He. unfold pending. rewrite <- (map_to_list_delete q k e He). cbn.
  by destruct (feDoneCb e).
Qed.

Lemma pending_insert q k e :
  q !! k = None -> pending (<[k := e]> q) ≡ₚ opt_list (feDoneCb e) ++ pending q.
Proof.
  intros He. unfold pending. rewrite (map_to_list_insert q k e He). cbn.
  by destruct (feDoneCb e).
Qed.

(** Every callback is either pending or called, and stays so. *)
Definition callbacks s : list nat := fsCalled s ++ pending (fsQueue s).

(** What the deletion of frames changes. *)
Definition deleted (a b : Z) s s' : Prop :=
  fsQueue s' = clear a b (fsQueue s) /\ fsGaps s' = fsGaps s /\ fsReadPos s' = fsReadPos s /\
  fsFresh s' = fsFresh s /\ callbacks s' ≡ₚ callbacks s.

Lemma deleted_none a b s : (forall k, a <= k < b -> fsQueue s !! k = None) -> deleted a b s s.
Proof. intros. split; [|done]. by rewrite clear_none. Qed.

Lemma deleted_trans a b c s s' s'' :
  a <= b <= c -> deleted a b s s' -> deleted b c s' s'' -> deleted a c s s''.
Proof.
  intros Hl (Q1 & G1 & R1 & F1 & C1) (Q2 & G2 & R2 & F2 & C2). split.
  - by rewrite Q2, Q1, clear_clear.
  - split_and!; [congruence..|]. by rewrite C2, C1.
Qed.

(** One round of the loops: a frame is deleted and its callback called. *)
Definition drop_entry (a : Z) (e : frameSorterEntry) s : frameSorter :=
  mkFrameSorter (delete a (fsQueue s)) (fsReadPos s) (fsGaps s) (fsFresh s)
    (fsCalled s ++ opt_list (feDoneCb e)).

Lemma wp_drop_entry {A} a e (m : fsM A) Q E s :
  wp m Q E (drop_entry a e s) ->
  wp (_ ← queueDelete a; _ ← callDone (feDoneCb e); m) Q E s.
Proof.
  intros Hm. apply wp_bind, wp_modify, wp_bind, wp_modify. unfold drop_entry in Hm.
  destruct (feDoneCb e); cbn in *; [done|]. rewrite app_nil_r in Hm. by destruct s.
Qed.

Lemma drop_entry_deleted a e s :
  disjoint_queue (fsQueue s) -> fsQueue s !! a = Some e -> deleted a (a + elen e) s (drop_entry a e s).
Proof.
  intros Hd He. destruct (Hd _ _ He) as [Hp Hl]. split_and!; try done.
  - cbn. apply map_eq. intros k. rewrite clear_lookup. destruct (decide (k = a)) as [->|Hne].
    + rewrite lookup_delete_eq. by rewrite decide_True by lia.
    + rewrite lookup_delete_ne by done. case_decide; [|done].
      destruct (fsQueue s !! k) as [e'|] eqn:E; [|done]. specialize (Hl _ _ E). lia.
  - unfold callbacks. cbn. rewrite (pending_delete _ _ _ He). by rewrite <- app_assoc.
Qed.

Lemma drop_entry_tiled a b e s :
  tiled (fsQueue s) (a + elen e) b -> 0 < elen e -> tiled (fsQueue (drop_entry a e s)) (a + elen e) b.
Proof.
  intros Ht Hp. eapply tiled_agree; [done|]. intros k Hk. cbn. by rewrite lookup_delete_ne by lia.
Qed.

Lemma drop_entry_size a e s :
  fsQueue s !! a = Some e -> size (fsQueue s) = S (size (fsQueue (drop_entry a e s))).
Proof.
  intros He. cbn. rewrite map_size_delete, He.
  assert (size (fsQueue s) <> 0)%nat; [|lia].
  intros Hz%map_size_empty_inv. by rewrite Hz in He.
Qed.

Lemma wp_deleteConsecutive_loop b : forall fuel a s,
  tiled (fsQueue s) a b -> disjoint_queue (fsQueue s) -> fsQueue s !! b = None ->
  b < 2 ^ 63 -> 0 <= a -> (size (fsQueue s) <= fuel)%nat ->
  wp (deleteConsecutive_loop fuel a) (fun _ => deleted a b s) (fun _ _ => False) s.
Proof.
  induction fuel as [|fuel IH]; intros a s Ht Hd Hb Hlt Ha Hf; cbn [deleteConsecutive_loop];
    apply wp_bind, wp_get; (inversion Ht as [|? ? e He Hp Ht']; subst;
      [rewrite Hb; apply wp_ret, deleted_none; lia|]); rewrite He.
  { pose proof (drop_entry_size _ _ _ He). lia. }
  apply wp_drop_entry. fold (elen e). pose proof (tiled_le _ _ _ Ht').
  rewrite i64_small by int_range. pose proof (drop_entry_deleted a e s Hd He) as Hdel.
  eapply wp_mono; [| |apply (IH (a + elen e) (drop_entry a e s))].
  - intros ? s' Hs'. eapply deleted_trans; [|done|done]. lia.
  - done.
  - by apply drop_entry_tiled.
  - rewrite (proj1 Hdel). by apply clear_disjoint.
  - cbn. destruct (decide (a = b)) as [->|]; [by rewrite lookup_delete_eq|by rewrite lookup_delete_ne].
  - done.
  - lia.
  - pose proof (drop_entry_size _ _ _ He). lia.
Qed.

Lemma wp_deleteConsecutive a b s :
  tiled (fsQueue s) a b -> disjoint_queue (fsQueue s) -> fsQueue s !! b = None -> b < 2 ^ 63 -> 0 <= a ->
  wp (deleteConsecutive a) (fun _ => deleted a b s) (fun _ _ => False) s.
Proof. intros. apply wp_bind, wp_get. by apply wp_deleteConsecutive_loop. Qed.

(** ** The loop over the frames that are replaced *)

(** The rounds after the first one, in a region of frames up to [hi]: either
    all of them are replaced, or the new frame is cut at the last one. *)
Definition replaced (a hi end_ : Z) s (r : bool * option Z) s' : Prop :=
  if decide (hi <= end_) then r = (true, None) /\ deleted a hi s s'
  else exists c e, r = (true, Some c) /\ a <= c <= end_ /\ deleted a c s s' /\
    fsQueue s !! c = Some e /\ end_ < c + elen e.

Lemma wp_replaceLoop_true hi end_ : forall fuel a s,
  tiled (fsQueue s) a hi -> disjoint_queue (fsQueue s) -> fsQueue s !! hi = None ->
  hi < 2 ^ 62 -> end_ < 2 ^ 62 -> 0 <= a <= end_ -> (size (fsQueue s) <= fuel)%nat ->
  wp (replaceLoop fuel end_ a true) (replaced a hi end_ s) (fun _ _ => False) s.
Proof.
  induction fuel as [|fuel IH]; intros a s Ht Hd Hb Hlt He2 Ha Hf; cbn [replaceLoop];
    apply wp_bind, wp_get; (inversion Ht as [|? ? e He Hp Ht']; subst;
      [rewrite Hb; apply wp_ret; unfold replaced; rewrite decide_True by lia; split; [done|];
       apply deleted_none; lia|]); rewrite He.
  { pose proof (drop_entry_size _ _ _ He). lia. }
  fold (elen e). pose proof (tiled_le _ _ _ Ht'). rewrite (i64_small (end_ - a)) by int_range.
  cbn [andb negb]. destruct (Z.ltb_spec (elen e) (end_ - a)) as [Hl|Hl]; cbn [orb];
    [|destruct (Z.eqb_spec (end_ - a) (elen e)) as [Hl2|Hl2]].
  3:{ apply wp_ret. unfold replaced. rewrite decide_False by lia. exists a, e.
      split; [done|]. split; [lia|]. split; [apply deleted_none; lia|]. split; [done|lia]. }
  all: apply wp_drop_entry; rewrite i64_small by int_range;
    pose proof (drop_entry_deleted a e s Hd He) as Hdel;
    eapply wp_mono; [| |apply (IH (a + elen e) (drop_entry a e s))];
    [|done|by apply drop_entry_tiled|rewrite (proj1 Hdel); by apply clear_disjoint
     |cbn; destruct (decide (a = hi)) as [->|]; [by rewrite lookup_delete_eq|by rewrite lookup_delete_ne]
     |done|done|lia|pose proof (drop_entry_size _ _ _ He); lia].
  all: intros r s' Hr; unfold replaced in *; case_decide;
    [destruct Hr as [-> Hr]; split; [done|]; eapply deleted_trans; [|done|done]; lia|].
  all: destruct Hr as (c & e' & -> & Hc & Hr & Hq & Hend); exists c, e'; split; [done|];
    (split; [lia|]); (split; [eapply deleted_trans; [|done|done]; lia|]); (split; [|done]).
  all: cbn in Hq; by apply lookup_delete_Some in Hq as [_ Hq].
Qed.

(** ** The invariant *)

Record fs_inv s : Prop := {
  fi_ids : NoDup (fsGaps s).*1;
  fi_fresh : forall g, g ∈ fsGaps s -> (g.1 < fsFresh s)%nat;
  fi_read : 0 <= fsReadPos s;
  fi_gaps : gaps_ok (fsReadPos s) (fsGaps s);
  fi_disj : disjoint_queue (fsQueue s);
  fi_entry : forall off e, fsQueue s !! off = Some e ->
    fsReadPos s <= off /\ off + elen e <= MaxByteCount /\
    forall b, off <= b < off + elen e -> ~ in_gap (fsGaps s) b;
  fi_cover : forall b, fsReadPos s <= b < MaxByteCount -> ~ in_gap (fsGaps s) b ->
    exists off e, fsQueue s !! off = Some e /\ off <= b < off + elen e
}.

Lemma newFrameSorter_inv : fs_inv newFrameSorter.
Proof.
  assert (Hg : in_gap (fsGaps newFrameSorter) = fun b => in_gap [(0%nat, mkByteInterval 0 MaxByteCount)] b) by done.
  constructor; cbn [fsGaps fsQueue fsReadPos fsFresh newFrameSorter]; try done.
  - apply NoDup_singleton.
  - intros g ->%list_elem_of_singleton. cbn. lia.
  - constructor.
    + repeat constructor.
    + intros g ->%list_elem_of_singleton. cbn. unfold MaxByteCount. lia.
    + rewrite in_gap_cons. left. cbn. unfold MaxByteCount. lia.
  - intros b Hb Hn. destruct Hn. rewrite in_gap_cons. left. done.
Qed.

(** The end of a queued frame, the ends of gaps and the read position are
    boundaries; so is every byte of a gap. *)
Lemma boundary_gap s x : fs_inv s -> in_gap (fsGaps s) x \/ in_gap (fsGaps s) (x - 1) -> boundary (fsQueue s) x.
Proof.
  intros Hi Hx off e He Hlt. destruct (fi_entry _ Hi _ _ He) as (_ & _ & Hn).
  pose proof (proj1 (fi_disj _ Hi _ _ He)).
  destruct (Z.le_gt_cases (off + elen e) x) as [|Hgt]; [done|].
  destruct Hx as [Hx|Hx]; apply Hn in Hx; [done|lia|done|lia].
Qed.

Lemma boundary_entry s x e : fs_inv s -> fsQueue s !! x = Some e ->
  boundary (fsQueue s) x /\ boundary (fsQueue s) (x + elen e).
Proof.
  intros Hi He. pose proof (fi_disj _ Hi) as Hd. split; intros off e' He' Hlt.
  - by apply (proj2 (Hd _ _ He') _ _ He).
  - destruct (Z.lt_trichotomy off x) as [Hc|[->|Hc]].
    + pose proof (proj2 (Hd _ _ He') _ _ He Hc). pose proof (proj1 (Hd _ _ He)). lia.
    + rewrite He in He'. injection He' as ->. lia.
    + pose proof (proj2 (Hd _ _ He) _ _ He' Hc). lia.
Qed.

(** A byte without a gap whose offset is a boundary starts a frame. *)
Lemma boundary_starts s x :
  fs_inv s -> boundary (fsQueue s) x -> fsReadPos s <= x < MaxByteCount -> ~ in_gap (fsGaps s) x ->
  exists e, fsQueue s !! x = Some e.
Proof.
  intros Hi Hb Hx Hn. destruct (fi_cover _ Hi x Hx Hn) as (off & e & He & Hin).
  destruct (Z.eq_dec off x) as [->|]; [by exists e|].
  specialize (Hb _ _ He). lia.
Qed.

Lemma inv_tiled s b : fs_inv s -> boundary (fsQueue s) b -> b <= MaxByteCount -> forall a,
  fsReadPos s <= a <= b -> boundary (fsQueue s) a ->
  (forall x, a <= x < b -> ~ in_gap (fsGaps s) x) -> tiled (fsQueue s) a b.
Proof.
  intros Hi Hb Hmax a Ha Hba Hn.
  assert (Hgen : forall n a, Z.to_nat (b - a) = n -> fsReadPos s <= a <= b -> boundary (fsQueue s) a ->
    (forall x, a <= x < b -> ~ in_gap (fsGaps s) x) -> tiled (fsQueue s) a b).
  { clear a Ha Hba Hn. induction n as [n IH] using lt_wf_ind. intros a En Ha Hba Hn.
    destruct (Z.eq_dec a b) as [->|Hne]; [constructor|].
    destruct (boundary_starts s a Hi Hba) as [e He]; [lia|apply Hn; lia|].
    pose proof (proj1 (fi_disj _ Hi _ _ He)). pose proof (Hb _ _ He ltac:(lia)).
    econstructor; [done|done|]. eapply IH; [|reflexivity|lia| |].
    - lia.
    - by apply (boundary_entry s a e).
    - intros x Hx. apply Hn. lia. }
  by eapply Hgen.
Qed.

Lemma gap_no_entry s x : fs_inv s -> in_gap (fsGaps s) x -> fsQueue s !! x = None.
Proof.
  intros Hi Hx. destruct (fsQueue s !! x) as [e|] eqn:He; [|done].
  destruct (fi_entry _ Hi _ _ He) as (_ & _ & Hn). pose proof (proj1 (fi_disj _ Hi _ _ He)).
  exfalso. apply (Hn x); [lia|done].
Qed.

(** ** Finding gaps *)

Lemma findStartGap_spec r x : forall gs,
  gaps_ok r gs -> x < MaxByteCount ->
  exists pre i v post ins, gs = pre ++ (i, v) :: post /\ findStartGap gs x = Ok (i, ins) /\
    (forall g, g ∈ pre -> biEnd g.2 < x) /\
    (if ins : bool then biStart v <= x <= biEnd v else x < biStart v).
Proof.
  intros gs [Hs He Hl] Hx.
  assert (Hex : exists g, g ∈ gs /\ x <= biEnd g.2).
  { destruct Hl as (g & Hg & Hb). exists g. split; [done|]. lia. }
  clear Hs Hl. induction gs as [|[i v] gs IH].
  { destruct Hex as (g & Hg%not_elem_of_nil & _). done. }
  cbn [findStartGap fst snd]. destruct (Z.leb_spec (biStart v) x), (Z.leb_spec x (biEnd v)); cbn [andb].
  - exists [], i, v, gs, true. split_and!; try done. by intros g ?%not_elem_of_nil.
  - zfalse (x <? biStart v). destruct IH as (pre & j & w & post & ins & -> & Hf & Hp & Hj).
    + intros g Hg. apply He. by right.
    + destruct Hex as (g & [->|Hg]%elem_of_cons & Hb); [cbn in *; lia|by exists g].
    + exists ((i, v) :: pre), j, w, post, ins. split_and!; try done.
      intros g [->|Hg]%elem_of_cons; [done|auto].
  - ztrue (x <? biStart v). exists [], i, v, gs, false. split_and!; try done.
    by intros g ?%not_elem_of_nil.
  - ztrue (x <? biStart v). exists [], i, v, gs, false. split_and!; try done.
    by intros g ?%not_elem_of_nil.
Qed.

(** The end gap, when the frame reaches beyond the start of the start gap: the
    last gap that starts at or before the end of the frame. *)
Lemma findEndGap_loop_spec all x : forall done_ gs v i,
  all = done_ ++ (i, v) :: gs -> NoDup all.*1 ->
  (forall g, g ∈ gs -> biStart g.2 < biEnd g.2) -> StronglySorted gap_lt ((i, v) :: gs) ->
  in_gap ((i, v) :: gs) (MaxByteCount - 1) -> biStart v <= x < MaxByteCount ->
  exists mid j w post, (i, v) :: gs = mid ++ (j, w) :: post /\
    findEndGap_loop all ((i, v) :: gs) x = Ok (Some j, bool_decide (x < biEnd w)) /\
    biStart w <= x /\ (forall g, g ∈ post -> x < biStart g.2).
Proof.
  intros done_ gs. revert done_. induction gs as [|[i' v'] gs IH]; intros done_ v i Hall Hnd He Hs Hl Hx.
  - exists [], i, v, []. assert (x < biEnd v).
    { apply in_gap_cons in Hl as [Hl|Hl%in_gap_nil]; [cbn in Hl; lia|done]. }
    cbn [findEndGap_loop fst snd]. ztrue (biStart v <=? x). ztrue (x <? biEnd v).
    split; [done|]. split; [by rewrite bool_decide_true by lia|]. split; [lia|]. by intros g ?%not_elem_of_nil.
  - apply StronglySorted_inv in Hs as [Hs Hf].
    assert (Hlt : biEnd v < biStart v') by (rewrite Forall_forall in Hf; apply (Hf (i', v')); by left).
    cbn [findEndGap_loop fst snd]. ztrue (biStart v <=? x). cbn [andb].
    destruct (Z.ltb_spec x (biEnd v)) as [Hin|Hout].
    + exists [], i, v, ((i', v') :: gs). split; [done|]. split; [by rewrite bool_decide_true by lia|].
      split; [lia|]. intros g Hg. rewrite Forall_forall in Hf. specialize (Hf _ Hg).
      unfold gap_lt in Hf. cbn in Hf. lia.
    + zfalse (x <? biStart v). destruct (Z.lt_ge_cases x (biStart v')) as [Hlt'|Hge].
      * exists [], i, v, ((i', v') :: gs). pose proof (He _ (list_elem_of_here _ _)) as Hv'. cbn in Hv'.
        zfalse (biStart v' <=? x). cbn [andb]. ztrue (x <? biStart v').
        split; [done|]. split.
        { rewrite bool_decide_false by lia. do 2 f_equal. rewrite Hall.
          rewrite (app_assoc done_ [_] (_ :: _) : done_ ++ (i, v) :: (i', v') :: gs = _).
          rewrite gap_Prev_mid; [by rewrite last_snoc|].
          rewrite Hall in Hnd. rewrite (app_assoc done_ [_] (_ :: _) : done_ ++ (i, v) :: (i', v') :: gs = _) in Hnd.
          rewrite fmap_app in Hnd. apply NoDup_app in Hnd as (_ & Hnd & _).
          intros Hin. apply (Hnd i' Hin). by left. }
        split; [lia|]. intros g [->|Hg]%elem_of_cons; [done|].
        apply StronglySorted_inv in Hs as [_ Hf']. rewrite Forall_forall in Hf'. specialize (Hf' _ Hg).
        unfold gap_lt in Hf'. cbn in Hf'. lia.
      * destruct (IH (done_ ++ [(i, v)]) v' i') as (mid & j & w & post & E & Hfind & Hw & Hp); try done.
        -- by rewrite <- app_assoc.
        -- intros g Hg. apply He. by right.
        -- apply in_gap_cons in Hl as [Hl|Hl]; [cbn in Hl; lia|done].
        -- lia.
        -- exists ((i, v) :: mid), j, w, post. rewrite E at 1. split; [done|]. split; [exact Hfind|done].
Qed.

(** ** Deleting everything between two gaps *)

(** Between the gaps of a list the queue is filled, and in them it is empty. *)
Fixpoint regions q gs : Prop :=
  match gs with
  | [] => True
  | g :: gs' =>
      (forall x, biStart g.2 <= x < biEnd g.2 -> q !! x = None) /\ biStart g.2 < biEnd g.2 /\
      match gs' with
      | [] => True
      | g' :: _ => biEnd g.2 < biStart g'.2 /\ tiled q (biEnd g.2) (biStart g'.2)
      end /\ regions q gs'
  end.

(** Consecutive gaps of a frame sorter. *)
Lemma no_gap_between s X g g' rest x :
  fs_inv s -> fsGaps s = X ++ g :: g' :: rest -> biEnd g.2 <= x < biStart g'.2 -> ~ in_gap (fsGaps s) x.
Proof.
  intros Hi E Hx Hg. pose proof (go_sorted _ _ (fi_gaps _ Hi)) as Hs. rewrite E in Hs, Hg.
  apply StronglySorted_app in Hs as (H1 & _ & Hs). apply StronglySorted_inv in Hs as [Hs H2].
  apply StronglySorted_inv in Hs as [_ H3]. rewrite Forall_forall in H2, H3. unfold gap_lt in *.
  destruct Hg as (h & [Hh|[->|[->|Hh]%elem_of_cons]%elem_of_cons]%elem_of_app & Hb); try lia.
  - specialize (H1 h g Hh ltac:(by left)).
    pose proof (go_each _ _ (fi_gaps _ Hi) g) as He. rewrite E in He.
    specialize (He ltac:(apply elem_of_app; right; by left)). lia.
  - specialize (H3 h Hh). pose proof (go_each _ _ (fi_gaps _ Hi) g') as He. rewrite E in He.
    specialize (He ltac:(apply elem_of_app; right; right; by left)). lia.
Qed.

Lemma gap_each s g : fs_inv s -> g ∈ fsGaps s ->
  fsReadPos s <= biStart g.2 < biEnd g.2 /\ biEnd g.2 <= MaxByteCount.
Proof. intros Hi. apply (go_each _ _ (fi_gaps _ Hi)). Qed.

Lemma regions_inv s rest : forall ys X, fs_inv s -> fsGaps s = X ++ ys ++ rest -> regions (fsQueue s) ys.
Proof.
  induction ys as [|g ys IH]; intros X Hi E; [done|]. cbn [regions].
  assert (Hg : g ∈ fsGaps s) by (rewrite E; apply elem_of_app; right; by left).
  pose proof (gap_each _ _ Hi Hg) as He. split_and!; [|lia| |].
  - intros x Hx. apply gap_no_entry; [done|]. exists g. done.
  - destruct ys as [|g' ys]; [done|].
    assert (Hg' : g' ∈ fsGaps s) by (rewrite E; apply elem_of_app; right; right; by left).
    pose proof (gap_each _ _ Hi Hg') as He'.
    assert (Hlt : biEnd g.2 < biStart g'.2).
    { pose proof (go_sorted _ _ (fi_gaps _ Hi)) as Hs. rewrite E in Hs.
      apply StronglySorted_app in Hs as (_ & _ & Hs). apply StronglySorted_inv in Hs as [_ Hs].
      rewrite Forall_forall in Hs. apply (Hs g'). by left. }
    split; [done|]. apply inv_tiled; [done| |lia|lia| |].
    + apply boundary_gap; [done|]. left. exists g'. split; [done|lia].
    + apply boundary_gap; [done|]. right. exists g. split; [done|lia].
    + intros x Hx. by eapply (no_gap_between s X g g' (ys ++ rest)).
  - apply (IH (X ++ [g])); [done|]. by rewrite <- app_assoc.
Qed.

Definition hd_gap (mid : list gap) (l : gap) : gap := match mid with [] => l | g :: _ => g end.

Lemma regions_hd q l : forall mid, regions q (mid ++ [l]) ->
  biStart (hd_gap mid l).2 <= biStart l.2 /\ q !! biStart (hd_gap mid l).2 = None.
Proof.
  induction mid as [|g mid IH]; cbn [app regions hd_gap]; intros (Hn & Hlt & Hnx & Hr).
  - split; [lia|]. apply Hn. lia.
  - destruct (IH Hr) as [Hle _]. split; [|apply Hn; lia].
    destruct mid as [|g' mid]; cbn in Hnx, Hle |- *; lia.
Qed.

Lemma nodup_mid (i : nat) (v : byteInterval) (pre post : list gap) :
  NoDup ((pre ++ (i, v) :: post).*1) -> (i ∉ pre.*1) /\ (i ∉ post.*1).
Proof.
  rewrite fmap_app, NoDup_app. intros (_ & H1 & H2). split.
  - intros Hj. apply (H1 i Hj). by left.
  - cbn in H2. by apply NoDup_cons in H2 as [? _].
Qed.

Lemma wp_deleteBetween (j : nat) eg post2 a q : disjoint_queue q -> biStart eg < MaxByteCount ->
  forall mid X fuel s,
  fsGaps s = X ++ mid ++ (j, eg) :: post2 -> NoDup ((fsGaps s).*1) -> regions q (mid ++ [(j, eg)]) ->
  (length mid <= fuel)%nat -> 0 <= a <= biStart (hd_gap mid (j, eg)).2 ->
  fsQueue s = clear a (biStart (hd_gap mid (j, eg)).2) q ->
  wp (deleteBetween fuel (Some (hd_gap mid (j, eg)).1) (biStart eg))
    (fun _ s' => fsGaps s' = X ++ (j, eg) :: post2 /\ fsQueue s' = clear a (biStart eg) q /\
       fsReadPos s' = fsReadPos s /\ fsFresh s' = fsFresh s /\ callbacks s' ≡ₚ callbacks s)
    (fun _ _ => False) s.
Proof.
  intros Hd Hmax. induction mid as [|[i v] mid IH]; intros X fuel s HG Hnd Hr Hf Ha HQ;
    cbn [hd_gap fst snd app] in *.
  - assert (Hval : gap_value (fsGaps s) j = Ok eg).
    { rewrite HG in *. by apply gap_value_mid, (nodup_mid _ _ _ _ Hnd). }
    destruct Hr as (_ & Hlt & _). cbn in Hlt.
    destruct fuel; cbn [deleteBetween]; apply wp_bind; unfold gapDeref, wp; cbn; rewrite Hval;
      zfalse (biEnd eg <? biStart eg); done.
  - destruct fuel as [|fuel]; [cbn in Hf; lia|]. pose proof Hnd as Hnd'. rewrite HG in Hnd.
    destruct (nodup_mid _ _ _ _ Hnd) as [Hi1 Hi2].
    assert (Hnext : gap_Next (fsGaps s) i = Some (hd_gap mid (j, eg)).1).
    { rewrite HG, gap_Next_mid by done. by destruct mid. }
    destruct Hr as (Hnone & Hlt & Hnx & Hr). cbn [snd] in *.
    destruct (regions_hd _ _ _ Hr) as [Hle Hh]. set (h := hd_gap mid (j, eg)) in *.
    assert (Hlt2 : biEnd v < biStart h.2 /\ tiled q (biEnd v) (biStart h.2)).
    { subst h. by destruct mid. }
    destruct Hlt2 as [Hlt2 Htile]. cbn in Hle. unfold MaxByteCount in Hmax.
    cbn [deleteBetween]. apply wp_bind. eapply (wp_lift v); [rewrite HG; by apply gap_value_mid|].
    ztrue (biEnd v <? biStart eg). apply wp_bind, wp_get. rewrite Hnext.
    apply wp_bind. eapply wp_mono; [| |apply (wp_deleteConsecutive _ (biStart h.2))]; [|done|..].
    2:{ rewrite HQ. eapply tiled_agree; [done|]. intros k Hk. rewrite clear_lookup. by rewrite decide_False by lia. }
    2:{ rewrite HQ. by apply clear_disjoint. }
    2:{ rewrite HQ, clear_lookup. by case_decide. }
    2,3: lia.
    intros _ s1 (Q1 & G1 & R1 & F1 & C1). apply wp_bind, wp_modify.
    eapply wp_mono; [| |apply (IH X)]; [|done| | |done|cbn in Hf; lia|lia|].
    + intros _ s2 (G2 & Q2 & R2 & F2 & C2). split_and!; [done|done|by rewrite R2|by rewrite F2|].
      rewrite C2, <- C1. done.
    + cbn. rewrite G1, HG, gap_Remove_mid by done. done.
    + cbn. rewrite G1, HG, gap_Remove_mid by done. rewrite fmap_app in Hnd |- *. cbn in Hnd.
      eapply sublist_NoDup; [exact Hnd|]. apply sublist_app; [done|by apply sublist_cons].
    + cbn. rewrite Q1, HQ, (clear_extend a (biStart v) (biEnd v)); [|lia|done]. apply clear_clear. lia.
Qed.

(** ** What [push] achieves *)

Definition byte_at s (b v : Z) : Prop := exists off e,
  fsQueue s !! off = Some e /\ off <= b /\ feData e !! Z.to_nat (b - off) = Some v.

Definition pushed s (data : bytes) (offset : Z) (cb : option nat) s' : Prop :=
  fs_inv s' /\ fsReadPos s' = fsReadPos s /\
  (forall b, in_gap (fsGaps s') b <-> in_gap (fsGaps s) b /\ ~ (offset <= b < offset + blen data)) /\
  (forall b v, byte_at s' b v ->
     byte_at s b v \/ (offset <= b /\ data !! Z.to_nat (b - offset) = Some v)) /\
  callbacks s' ≡ₚ opt_list cb ++ callbacks s.

(** A run of gaps is replaced by gaps inside it. *)
Definition inside (B B' : list gap) : Prop := forall g', g' ∈ B' ->
  biStart g'.2 < biEnd g'.2 /\ (exists g, g ∈ B /\ biStart g.2 <= biStart g'.2) /\
  (exists g, g ∈ B /\ biEnd g'.2 <= biEnd g.2).

Lemma regap_ok r A B B' C :
  StronglySorted gap_lt (A ++ B ++ C) ->
  (forall g, g ∈ A ++ B ++ C -> r <= biStart g.2 < biEnd g.2 /\ biEnd g.2 <= MaxByteCount) ->
  StronglySorted gap_lt B' -> inside B B' ->
  StronglySorted gap_lt (A ++ B' ++ C) /\
  forall g, g ∈ A ++ B' ++ C -> r <= biStart g.2 < biEnd g.2 /\ biEnd g.2 <= MaxByteCount.
Proof.
  intros Hs He Hs' Hin. split.
  - apply StronglySorted_app in Hs as (H1 & HA & Hs). apply StronglySorted_app in Hs as (H2 & HB & HC).
    unfold gap_lt in H1, H2. apply StronglySorted_app. split_and!; [|done|].
    + intros x y Hx [Hy|Hy]%elem_of_app.
      * destruct (Hin _ Hy) as (_ & (g & Hg & ?) & _).
        specialize (H1 x g Hx ltac:(apply elem_of_app; by left)). unfold gap_lt. lia.
      * apply H1; [done|]. apply elem_of_app. by right.
    + apply StronglySorted_app. split_and!; [|done|done]. intros x y Hx Hy.
      destruct (Hin _ Hx) as (_ & _ & (g & Hg & ?)). specialize (H2 g y Hg Hy). unfold gap_lt. lia.
  - intros g [Hg|[Hg|Hg]%elem_of_app]%elem_of_app.
    + apply He. apply elem_of_app. by left.
    + destruct (Hin _ Hg) as (? & (g1 & Hg1 & ?) & (g2 & Hg2 & ?)).
      pose proof (He g1). pose proof (He g2). rewrite !elem_of_app in *. intuition lia.
    + apply He. rewrite !elem_of_app. by right; right.
Qed.

(** The last steps of [push], once the queue is cleared and the gaps are
    adjusted for a piece of the frame. *)
Record ready s (data : bytes) (offset : Z) (p : piece) s' : Prop := {
  rd_queue : fsQueue s' = clear (pcStart p) (pcEnd p) (fsQueue s);
  rd_read : fsReadPos s' = fsReadPos s;
  rd_callbacks : callbacks s' ≡ₚ callbacks s;
  rd_ids : NoDup ((fsGaps s').*1);
  rd_fresh : forall g, g ∈ fsGaps s' -> (g.1 < fsFresh s')%nat;
  rd_sorted : StronglySorted gap_lt (fsGaps s');
  rd_each : forall g, g ∈ fsGaps s' ->
    fsReadPos s <= biStart g.2 < biEnd g.2 /\ biEnd g.2 <= MaxByteCount;
  rd_gaps : forall b, in_gap (fsGaps s') b <-> in_gap (fsGaps s) b /\ ~ (pcStart p <= b < pcEnd p);
  rd_rest : forall b, offset <= b < offset + blen data -> ~ (pcStart p <= b < pcEnd p) ->
    ~ in_gap (fsGaps s) b;
  rd_bounds : boundary (fsQueue s) (pcStart p) /\ boundary (fsQueue s) (pcEnd p);
  rd_range : fsReadPos s <= pcStart p /\ offset <= pcStart p < pcEnd p /\ pcEnd p <= offset + blen data;
  rd_data : pcData p = take (Z.to_nat (pcEnd p - pcStart p)) (drop (Z.to_nat (pcStart p - offset)) data)
}.

Lemma slice_lookup (data : bytes) off a b i v :
  off <= a -> take (Z.to_nat (b - a)) (drop (Z.to_nat (a - off)) data) !! i = Some v ->
  data !! Z.to_nat (a + Z.of_nat i - off) = Some v.
Proof.
  intros Ha Hi. apply lookup_take_Some in Hi as [Hi _]. rewrite lookup_drop in Hi.
  rewrite <- Hi. f_equal. lia.
Qed.

Lemma slice_len (data : bytes) off a b :
  off <= a <= b -> b <= off + blen data ->
  blen (take (Z.to_nat (b - a)) (drop (Z.to_nat (a - off)) data)) = b - a.
Proof. intros. unfold blen in *. rewrite length_take, length_drop. lia. Qed.

(** The queue and the gaps after storing the piece. *)
Lemma ready_inv s data offset p s' cb called :
  fs_inv s -> ready s data offset p s' -> 0 <= offset -> offset + blen data < MaxByteCount ->
  fs_inv (mkFrameSorter (<[pcStart p := mkEntry (pcData p) cb]> (fsQueue s')) (fsReadPos s') (fsGaps s')
            (fsFresh s') called).
Proof.
  intros Hi [HQ HR _ Hids Hfr Hs He Hg Hrest [Hb1 Hb2] (Hr & Hab & Hend) Hd] Hoff Hmax.
  assert (Hlen : elen (mkEntry (pcData p) cb) = pcEnd p - pcStart p).
  { unfold elen. cbn. rewrite Hd. apply slice_len; lia. }
  set (a := pcStart p) in *. set (b := pcEnd p) in *.
  assert (Hin : forall off e, <[a := mkEntry (pcData p) cb]> (clear a b (fsQueue s)) !! off = Some e ->
    (off = a /\ elen e = b - a) \/ (~ (a <= off < b) /\ fsQueue s !! off = Some e)).
  { intros off e Ho. destruct (decide (off = a)) as [->|Hne].
    - rewrite lookup_insert_eq in Ho. injection Ho as <-. by left.
    - rewrite lookup_insert_ne, clear_lookup in Ho by done. case_decide; [done|]. by right. }
  constructor; cbn [fsQueue fsReadPos fsGaps fsFresh]; try rewrite HR; try rewrite HQ; try done.
  - apply (fi_read _ Hi).
  - constructor; [done|done|]. apply Hg. split; [apply (go_last _ _ (fi_gaps _ Hi))|lia].
  - intros off e Ho. split.
    + destruct (Hin _ _ Ho) as [[-> ->]|[_ Ho']]; [lia|]. apply (fi_disj _ Hi _ _ Ho').
    + intros off' e' Ho' Hlt. destruct (Hin _ _ Ho) as [[-> ->]|[Hn Hq]], (Hin _ _ Ho') as [[-> E']|[Hn' Hq']];
        [lia|lia|by apply (Hb1 _ _ Hq)|by apply (proj2 (fi_disj _ Hi _ _ Hq) _ _ Hq')].
  - intros off e Ho. destruct (Hin _ _ Ho) as [[-> ->]|[Hn Hq]].
    + split; [done|]. split; [lia|]. intros x Hx. rewrite Hg. intros [_ Hc]. lia.
    + destruct (fi_entry _ Hi _ _ Hq) as (H1 & H2 & H3). split; [done|]. split; [done|].
      intros x Hx. rewrite Hg. intros [Hc _]. by apply (H3 x).
  - intros x Hx Hn. destruct (decide (a <= x < b)) as [Hc|Hc].
    { exists a, (mkEntry (pcData p) cb). rewrite lookup_insert_eq, Hlen. split; [done|lia]. }
    rewrite Hg in Hn. destruct (fi_cover _ Hi x Hx) as (off & e & Ho & Hox); [tauto|].
    exists off, e. split; [|done].
    assert (~ (a <= off < b)).
    { intros Hc'. pose proof (Hb2 _ _ Ho). lia. }
    rewrite lookup_insert_ne, clear_lookup by lia. by rewrite decide_False.
Qed.

Lemma wp_store s data offset doneCb p s' :
  fs_inv s -> ready s data offset p s' -> 0 <= offset -> offset + blen data < MaxByteCount ->
  wp (cb ← releaseCut p doneCb; s ← get;
      if MaxStreamFrameSorterGaps <? blen (fsGaps s) then throw errTooManyGaps
      else modify (fun s => fs_queue (<[pcStart p := mkEntry (pcData p) cb]> (fsQueue s)) s))
    (fun _ => pushed s data offset doneCb)
    (fun e s2 => e = errTooManyGaps /\ MaxStreamFrameSorterGaps < blen (fsGaps s2)) s'.
Proof.
  intros Hi Hrd Hoff Hmax.
  assert (Hgen : forall cb called, callbacks s' ≡ₚ callbacks s ->
    (opt_list cb ++ called ≡ₚ opt_list doneCb ++ fsCalled s') ->
    wp (s ← get;
      if MaxStreamFrameSorterGaps <? blen (fsGaps s) then throw errTooManyGaps
      else modify (fun s => fs_queue (<[pcStart p := mkEntry (pcData p) cb]> (fsQueue s)) s))
    (fun _ => pushed s data offset doneCb)
    (fun e s2 => e = errTooManyGaps /\ MaxStreamFrameSorterGaps < blen (fsGaps s2))
    (mkFrameSorter (fsQueue s') (fsReadPos s') (fsGaps s') (fsFresh s') called)).
  { intros cb called Hc Hperm. apply wp_bind, wp_get. cbn [fsGaps].
    destruct (Z.ltb_spec MaxStreamFrameSorterGaps (blen (fsGaps s'))) as [Hm|Hm]; [done|]. apply wp_modify.
    split; [by apply (ready_inv s data offset p s' cb)|]. destruct Hrd as [HQ HR _ _ _ _ _ Hg Hrest _ Hran Hd].
    split; [done|]. split; [|split].
    - intros b. cbn. rewrite Hg. split; [|intros [? Hn]; split; [done|]; lia].
      intros [Hb Hn]. split; [done|]. intros Hc'. by apply (Hrest b).
    - intros b v (off & e & Ho & Hob & Hv). cbn in Ho. destruct (decide (off = pcStart p)) as [->|Hne].
      + rewrite lookup_insert_eq in Ho. injection Ho as <-. cbn in Hv. right. split; [lia|].
        rewrite Hd in Hv. apply (slice_lookup _ offset) in Hv; [|lia]. rewrite <- Hv. f_equal. lia.
      + rewrite lookup_insert_ne, HQ, clear_lookup in Ho by done. case_decide; [done|].
        left. by exists off, e.
    - unfold callbacks. cbn. rewrite pending_insert.
      2:{ rewrite HQ, clear_lookup. by rewrite decide_True by lia. }
      unfold callbacks in Hc. cbn. rewrite <- Hc. rewrite (Permutation_app_comm called), <- app_assoc.
      rewrite (Permutation_app_comm (pending _)). rewrite !app_assoc. by rewrite Hperm. }
  unfold releaseCut. destruct (pcCut p && _).
  - apply wp_bind, wp_bind, wp_modify, wp_ret.
    destruct doneCb as [c|].
    + apply (Hgen None (fsCalled s' ++ [c])); [apply Hrd|]. cbn. apply (Permutation_app_comm _ [c]).
    + destruct s' as [? ? ? ? called]. apply (Hgen None called); [apply Hrd|done].
  - apply wp_bind, wp_ret. destruct s' as [? ? ? ? called]. apply (Hgen doneCb called); [apply Hrd|done].
Qed.

(** ** The steps of [push] *)

Section push.
Context (s : frameSorter) (data : bytes) (offset : Z).
Context (pre post : list gap) (i : nat) (sg : byteInterval) (ins : bool).
Hypothesis Hi : fs_inv s.
Hypothesis Hlen : 0 < blen data.
Hypothesis Hoff : 0 <= offset.
Let end_ := offset + blen data.
Hypothesis Hmax : end_ < MaxByteCount.
Hypothesis HG : fsGaps s = pre ++ (i, sg) :: post.
Hypothesis Hpre : forall g, g ∈ pre -> biEnd g.2 < offset.
Hypothesis Hins : if ins then biStart sg <= offset <= biEnd sg else offset < biStart sg.
Hypothesis Hbeyond : biStart sg < end_.

Lemma sg_each : fsReadPos s <= biStart sg < biEnd sg /\ biEnd sg <= MaxByteCount.
Proof. apply (gap_each s (i, sg)); [done|]. rewrite HG. apply elem_of_app. right. by left. Qed.

Lemma post_after g : g ∈ post -> biEnd sg < biStart g.2.
Proof.
  intros Hg. pose proof (go_sorted _ _ (fi_gaps _ Hi)) as Hs. rewrite HG in Hs.
  apply StronglySorted_app in Hs as (_ & _ & Hs). apply StronglySorted_inv in Hs as [_ Hs].
  rewrite Forall_forall in Hs. by apply (Hs g).
Qed.

Lemma in_gap_cases x : offset <= x ->
  in_gap (fsGaps s) x <-> biStart sg <= x < biEnd sg \/ in_gap post x.
Proof.
  intros Hx. rewrite HG, in_gap_app, in_gap_cons. cbn. split; [|tauto]. intros [(g & Hg & Hb)|?]; [|tauto].
  specialize (Hpre g Hg). lia.
Qed.

Lemma post_in_gap x : in_gap post x -> biEnd sg < x.
Proof. intros (g & Hg & Hb). pose proof (post_after g Hg). lia. Qed.

(** The pieces after the loop and the first two cuts: the start of the frame is
    in the gap, or it replaces frames before the gap, or frames after it. *)
Inductive started (has : bool) (p : piece) s' : Prop :=
  | started_in_gap :
      has = false -> biStart sg <= pcStart p < biEnd sg ->
      (pcStart p = offset \/ offset < biStart sg /\ pcStart p = biStart sg) ->
      pcEnd p = end_ -> s' = s -> started has p s'
  | started_before :
      has = true -> pcStart p = offset -> offset < biStart sg -> pcEnd p = end_ ->
      boundary (fsQueue s) offset -> fsReadPos s <= offset ->
      deleted offset (biStart sg) s s' -> started has p s'
  | started_after g post' :
      has = true -> pcStart p = offset -> offset = biEnd sg -> post = g :: post' ->
      deleted offset (Z.min (pcEnd p) (biStart g.2)) s s' ->
      (if decide (biStart g.2 <= end_) then pcEnd p = end_
       else offset < pcEnd p <= end_ /\ boundary (fsQueue s) (pcEnd p)) -> started has p s'.

Definition slice_of (p : piece) : Prop :=
  pcData p = take (Z.to_nat (pcEnd p - pcStart p)) (drop (Z.to_nat (pcStart p - offset)) data).

Let p0 := mkPiece data offset end_ false.

Lemma cutAt_ok c : offset <= c <= end_ ->
  exists p, cutAt p0 (Some c) = Ok p /\ pcStart p = offset /\ pcEnd p = c /\ slice_of p.
Proof.
  intros Hc. unfold cutAt, sliceTo. cbn [pcStart pcData p0]. unfold MaxByteCount in Hmax.
  unfold end_ in *. rewrite i64_small by int_range.
  ztrue (0 <=? c - offset). ztrue (c - offset <=? blen data).
  eexists. split; [reflexivity|]. split_and!; [done|done|]. unfold slice_of. cbn.
  by replace (offset - offset) with 0 by lia.
Qed.

Lemma p0_slice : slice_of p0.
Proof.
  unfold slice_of, p0, end_. cbn [pcData pcStart pcEnd]. replace (offset - offset) with 0 by lia.
  change (Z.to_nat 0) with 0%nat. rewrite drop_0, take_ge; [done|]. unfold blen. lia.
Qed.

Lemma cutStart_ok : offset < biStart sg ->
  exists p, cutStart false false (biStart sg) p0 = Ok p /\ pcStart p = biStart sg /\ pcEnd p = end_ /\ slice_of p.
Proof.
  intros Hc. unfold cutStart, sliceFrom. cbn [negb andb pcStart pcData pcEnd p0]. unfold MaxByteCount in Hmax.
  pose proof sg_each as He. unfold MaxByteCount in He. unfold end_ in *. rewrite i64_small by int_range.
  ztrue (0 <=? biStart sg - offset). ztrue (biStart sg - offset <=? blen data).
  eexists. split; [reflexivity|]. split_and!; [done|done|]. unfold slice_of. cbn.
  rewrite take_ge; [done|]. rewrite length_drop. unfold blen in *. lia.
Qed.

Definition dup s' : Prop := s' = s /\ forall b, offset <= b < end_ -> ~ in_gap (fsGaps s) b.

Definition replace_post (r : bool * option Z) s' : Prop := exists p1 p,
  cutAt p0 r.2 = Ok p1 /\ cutStart ins r.1 (biStart sg) p1 = Ok p /\ slice_of p /\ started r.1 p s'.

(** The loop, when a frame starts where the new one does, in a region of frames
    that ends at the gap [hi]. *)
Lemma wp_replace_entry hi e :
  fsQueue s !! offset = Some e -> tiled (fsQueue s) offset hi -> fsQueue s !! hi = None ->
  offset < hi < MaxByteCount ->
  wp (replaceLoop (S (size (fsQueue s))) end_ offset false)
    (fun r s' => replaced offset hi end_ s r s' /\
       forall c, r.2 = Some c -> offset < c)
    (fun er s' => er = errDuplicateStreamData /\ dup s') s.
Proof.
  intros He Ht Hhi Hlt. cbn [replaceLoop]. apply wp_bind, wp_get. rewrite He. fold (elen e).
  unfold MaxByteCount in *. destruct (fi_entry _ Hi _ _ He) as (_ & Hem & Hng). unfold MaxByteCount in Hem.
  pose proof (proj1 (fi_disj _ Hi _ _ He)) as Hpos.
  rewrite (i64_small (end_ - offset)) by (unfold end_ in *; int_range).
  cbn [andb negb]. rewrite orb_false_r. destruct (Z.ltb_spec (elen e) (end_ - offset)) as [Hl|Hl].
  - inversion Ht as [|? ? e' He' _ Ht']; subst; [congruence|].
    rewrite He in He'. injection He' as <-. apply wp_drop_entry.
    rewrite i64_small by int_range. pose proof (drop_entry_deleted offset e s (fi_disj _ Hi) He) as Hdel.
    pose proof (tiled_le _ _ _ Ht').
    eapply wp_mono; [| |apply (wp_replaceLoop_true hi end_ _ (offset + elen e) (drop_entry offset e s))].
    + intros r s' Hr. unfold replaced in *. case_decide.
      * destruct Hr as [-> Hr]. split; [|done]. split; [done|]. eapply deleted_trans; [|done|done]. lia.
      * destruct Hr as (c & e' & -> & Hc & Hr & Hq & Hend). split.
        -- exists c, e'. split; [done|]. split; [lia|]. split; [eapply deleted_trans; [|done|done]; lia|].
           split; [|done]. cbn in Hq. by apply lookup_delete_Some in Hq as [_ Hq].
        -- intros ? [= <-]. lia.
    + done.
    + by apply drop_entry_tiled.
    + rewrite (proj1 Hdel). apply clear_disjoint, (fi_disj _ Hi).
    + cbn. by rewrite lookup_delete_ne by lia.
    + lia.
    + lia.
    + lia.
    + pose proof (drop_entry_size _ _ _ He). lia.
  - cbv beta iota. split; [done|]. split; [done|]. intros b Hb. apply Hng. lia.
Qed.

Lemma replace_none : fsQueue s !! offset = None ->
  wp (replaceLoop (S (size (fsQueue s))) end_ offset false)
    (fun r s' => r = (false, None) /\ s' = s) (fun _ _ => False) s.
Proof. intros Hn. cbn [replaceLoop]. apply wp_bind, wp_get. rewrite Hn. by apply wp_ret. Qed.

Lemma wp_replace :
  wp (replaceLoop (S (size (fsQueue s))) end_ offset false) replace_post
    (fun er s' => er = errDuplicateStreamData /\ dup s') s.
Proof.
  pose proof sg_each as He. destruct ins eqn:Ei.
  - destruct (Z.lt_ge_cases offset (biEnd sg)) as [Hlt|Hge].
    + (* the frame starts inside the gap *)
      eapply wp_mono; [| |apply replace_none]; [|done|].
      2:{ apply gap_no_entry; [done|]. apply in_gap_cases; [lia|]. left. lia. }
      intros r s' [-> ->]. exists p0, p0. split; [done|]. split; [rewrite Ei; done|]. split; [apply p0_slice|].
      apply started_in_gap; try done; cbn; lia || auto.
    + (* the frame starts at the end of the gap *)
      assert (Eo : offset = biEnd sg) by lia.
      assert (Hpost : exists g post', post = g :: post').
      { pose proof (go_last _ _ (fi_gaps _ Hi)) as Hl. apply in_gap_cases in Hl; [|unfold end_ in *; lia].
        destruct Hl as [Hl|(g & Hg & _)]; [unfold end_ in *; lia|].
        destruct post as [|g' post']; [by apply not_elem_of_nil in Hg|by exists g', post']. }
      destruct Hpost as (g & post' & Ep).
      assert (Hg : biEnd sg < biStart g.2) by (apply post_after; rewrite Ep; by left).
      assert (Hgm : biStart g.2 < biEnd g.2 /\ biEnd g.2 <= MaxByteCount).
      { pose proof (gap_each s g Hi) as Hg'. rewrite HG, Ep in Hg'.
        specialize (Hg' ltac:(apply elem_of_app; right; right; by left)). lia. }
      assert (Hreg : regions (fsQueue s) [(i, sg); g])
        by (apply (regions_inv s post' _ pre); [done|]; by rewrite HG, Ep).
      destruct Hreg as (_ & _ & [_ Ht] & Hn & _). cbn in Ht, Hn. rewrite <- Eo in Ht.
      assert (Hq : exists e, fsQueue s !! offset = Some e).
      { inversion Ht as [? Ea Eb|? ? e Hq]; [lia|by exists e]. }
      destruct Hq as [e Hq].
      eapply wp_mono; [| |eapply (wp_replace_entry (biStart g.2) e)]; [|done|done|done|apply Hn; lia|lia].
      intros r s' [Hr Hc]. unfold replaced in Hr. case_decide as Hd.
      * destruct Hr as [-> Hr]. exists p0, p0. split; [done|]. split; [by rewrite Ei|]. split; [apply p0_slice|].
        eapply started_after; try done; cbn [pcEnd p0].
        -- by rewrite Z.min_r by lia.
        -- by rewrite decide_True by lia.
      * destruct Hr as (c & e' & -> & Hc1 & Hr & Hq' & _). specialize (Hc c eq_refl).
        destruct (cutAt_ok c) as (p & Hp & Ps & Pe & Hsl); [lia|].
        exists p, p. split; [done|]. split; [by rewrite Ei|]. split; [done|].
        eapply started_after; try done; rewrite Pe.
        -- by rewrite Z.min_l by lia.
        -- rewrite decide_False by lia. split; [lia|]. by eapply (boundary_entry s c).
  - destruct (fsQueue s !! offset) as [e|] eqn:Hq.
    + (* the frame starts where a queued frame does, before the gap *)
      destruct (boundary_entry s offset e Hi Hq) as [Hb _].
      pose proof (fi_entry _ Hi _ _ Hq) as (Hr0 & _).
      assert (Hin : in_gap (fsGaps s) (biStart sg)) by (apply in_gap_cases; [lia|]; left; lia).
      eapply wp_mono; [| |eapply (wp_replace_entry (biStart sg) e Hq)]; [|done|..].
      2:{ apply inv_tiled; [done| |lia|lia|done|].
          - apply boundary_gap; [done|]. by left.
          - intros x Hx. rewrite in_gap_cases by lia. intros [?|?%post_in_gap]; lia. }
      2:{ by apply gap_no_entry. }
      2: lia.
      intros r s' [Hr _]. unfold replaced in Hr. rewrite decide_True in Hr by lia. destruct Hr as [-> Hr].
      exists p0, p0. split; [done|]. split; [by rewrite Ei|]. split; [apply p0_slice|].
      by apply started_before.
    + (* the frame starts inside a queued frame, or in data that was read *)
      eapply wp_mono; [| |by apply replace_none]; [|done]. intros r s' [-> ->].
      destruct (cutStart_ok Hins) as (p & Hp & Ps & Pe & Hsl). exists p0, p.
      split; [done|]. split; [by rewrite Ei|]. split; [done|].
      apply started_in_gap; try done; [lia|]. right. done.
Qed.

(** ** Adjusting the gaps *)

Lemma regap_ids (B B' C : list gap) fresh' :
  fsGaps s = pre ++ B ++ C -> NoDup (B'.*1) -> (fsFresh s <= fresh')%nat ->
  (forall x, x ∈ B'.*1 -> x ∈ B.*1 \/ (x = fsFresh s /\ (fsFresh s < fresh')%nat)) ->
  NoDup ((pre ++ B' ++ C).*1) /\ forall g, g ∈ pre ++ B' ++ C -> (g.1 < fresh')%nat.
Proof.
  intros E HB Hf HB'. pose proof (fi_ids _ Hi) as Hnd. pose proof (fi_fresh _ Hi) as Hfr. rewrite E in Hnd, Hfr.
  assert (Hfr' : forall x, x ∈ (pre ++ B ++ C).*1 -> (x < fsFresh s)%nat).
  { intros x (g & -> & Hg)%list_elem_of_fmap. by apply Hfr. }
  rewrite !fmap_app in *. apply NoDup_app in Hnd as (H1 & H2 & H3). apply NoDup_app in H3 as (H4 & H5 & H6).
  split.
  - apply NoDup_app. split; [done|]. split; [|apply NoDup_app; split; [done|]; split; [|done]].
    + intros x Hx [Hx'|Hx']%elem_of_app; [|by apply (H2 x Hx), elem_of_app; right].
      destruct (HB' x Hx') as [Hb|[-> _]]; [by apply (H2 x Hx), elem_of_app; left|].
      specialize (Hfr' (fsFresh s)). rewrite !elem_of_app in Hfr'. specialize (Hfr' (or_introl Hx)). lia.
    + intros x Hx Hx'. destruct (HB' x Hx) as [Hb|[-> _]]; [by apply (H5 x Hb)|].
      specialize (Hfr' (fsFresh s)). rewrite !elem_of_app in Hfr'. specialize (Hfr' (or_intror (or_intror Hx'))). lia.
  - intros g [Hg|[Hg|Hg]%elem_of_app]%elem_of_app; apply (list_elem_of_fmap_2 fst) in Hg.
    + specialize (Hfr' g.1). rewrite !elem_of_app in Hfr'. specialize (Hfr' (or_introl Hg)). lia.
    + destruct (HB' _ Hg) as [Hb|[-> ?]]; [|done]. specialize (Hfr' g.1). rewrite !elem_of_app in Hfr'.
      specialize (Hfr' (or_intror (or_introl Hb))). lia.
    + specialize (Hfr' g.1). rewrite !elem_of_app in Hfr'. specialize (Hfr' (or_intror (or_intror Hg))). lia.
Qed.

(** The piece is ready when a run of gaps was replaced by the gaps that are left
    of it. *)
Lemma make_ready p s2 (B B' C : list gap) :
  fsGaps s = pre ++ B ++ C -> fsGaps s2 = pre ++ B' ++ C ->
  NoDup (B'.*1) -> (fsFresh s <= fsFresh s2)%nat ->
  (forall x, x ∈ B'.*1 -> x ∈ B.*1 \/ (x = fsFresh s /\ (fsFresh s < fsFresh s2)%nat)) ->
  StronglySorted gap_lt B' -> inside B B' ->
  (forall b, in_gap B' b <-> in_gap B b /\ ~ (pcStart p <= b < pcEnd p)) ->
  (forall g, g ∈ C -> end_ < biStart g.2) ->
  fsQueue s2 = clear (pcStart p) (pcEnd p) (fsQueue s) -> fsReadPos s2 = fsReadPos s ->
  callbacks s2 ≡ₚ callbacks s -> slice_of p ->
  pcStart p = offset \/ offset < biStart sg /\ pcStart p = biStart sg ->
  (forall b, pcEnd p <= b < end_ -> ~ in_gap (fsGaps s) b) ->
  boundary (fsQueue s) (pcStart p) -> boundary (fsQueue s) (pcEnd p) ->
  fsReadPos s <= pcStart p < pcEnd p -> pcEnd p <= end_ ->
  ready s data offset p s2.
Proof.
  intros EB EB' Hnd Hf Hid Hs Hin Hgap HC HQ HR Hcb Hsl Hstart Hrest Hb1 Hb2 Hran Hend.
  destruct (regap_ids B B' C (fsFresh s2) EB Hnd Hf Hid) as [Hids Hfr].
  destruct (regap_ok (fsReadPos s) pre B B' C) as [Hsort Heach]; [| |done|done|].
  { rewrite <- EB. apply (go_sorted _ _ (fi_gaps _ Hi)). }
  { intros g Hg. apply (gap_each s g Hi). by rewrite EB. }
  constructor; try done; try (by rewrite EB').
  - intros b. rewrite EB, EB', !in_gap_app, Hgap. split.
    + intros [(g & Hg & Hb)|[?|(g & Hg & Hb)]]; [|tauto|].
      * split; [left; by exists g|]. specialize (Hpre g Hg). lia.
      * split; [right; right; by exists g|]. specialize (HC g Hg). lia.
    + tauto.
  - intros b Hb Hn. fold end_ in Hb. destruct (Z.lt_ge_cases b (pcStart p)) as [Hlt|Hge].
    + rewrite in_gap_cases by lia. intros [?|?%post_in_gap]; pose proof sg_each; lia.
    + apply Hrest. lia.
  - fold end_. pose proof sg_each. lia.
Qed.

Lemma cutEnd_ok p gend :
  slice_of p -> pcStart p < gend -> gend <= MaxByteCount -> offset <= pcStart p < pcEnd p -> pcEnd p <= end_ ->
  exists p', cutEnd (bool_decide (pcEnd p < gend)) gend p = Ok p' /\ pcStart p' = pcStart p /\
    pcEnd p' = Z.min (pcEnd p) gend /\ slice_of p'.
Proof.
  intros Hsl Hlt Hg Hp Hpe. unfold cutEnd. zfalse (pcStart p =? gend). cbn [negb]. rewrite andb_true_r.
  destruct (Z.lt_ge_cases (pcEnd p) gend) as [Hc|Hc].
  - rewrite bool_decide_true by done. exists p. split_and!; try done. lia.
  - rewrite bool_decide_false by lia. cbn [negb andb]. destruct (Z.ltb_spec gend (pcEnd p)) as [Hd|Hd].
    + unfold sliceTo, end_, MaxByteCount in *. rewrite i64_small by int_range.
      assert (El : blen (pcData p) = pcEnd p - pcStart p) by (rewrite Hsl; apply slice_len; lia).
      rewrite El. ztrue (0 <=? gend - pcStart p). ztrue (gend - pcStart p <=? pcEnd p - pcStart p).
      eexists. split; [reflexivity|]. cbn. split_and!; [done|lia|]. unfold slice_of in *. cbn. rewrite Hsl.
      rewrite take_take. f_equal. lia.
    + exists p. split_and!; try done. lia.
Qed.

(** What is left of the start gap, and whether its end was moved. *)
Definition leftover (has : bool) (p : piece) : list gap * bool :=
  if pcStart p <=? biStart sg then
    (if biEnd sg <=? pcEnd p then [] else [(i, setStart (pcEnd p) sg)], false)
  else if negb has then ([(i, setEnd (pcStart p) sg)], true)
  else ([(i, sg)], false).

Lemma wp_adjustStartGap {A} has p (K : bool -> fsM A) Q E st :
  fsGaps st = fsGaps s ->
  wp (K (leftover has p).2) Q E (fs_gaps (pre ++ (leftover has p).1 ++ post) st) ->
  wp (adjusted ← adjustStartGap i sg has p; K adjusted) Q E st.
Proof.
  intros EG HK. pose proof (fi_ids _ Hi) as Hnd. rewrite HG in Hnd, EG.
  destruct (nodup_mid _ _ _ _ Hnd) as [H1 H2]. unfold adjustStartGap, leftover in *.
  destruct (_ <=? _); [destruct (_ <=? _)|destruct has]; cbn [negb fst snd app] in *; apply wp_bind.
  - apply wp_bind, wp_modify, wp_ret. by rewrite EG, gap_Remove_mid.
  - apply wp_bind, wp_modify, wp_ret. by rewrite EG, gap_set_mid.
  - apply wp_ret. rewrite <- EG in HK. by destruct st.
  - apply wp_bind, wp_modify, wp_ret. by rewrite EG, gap_set_mid.
Qed.

(** The queue of the pieces, up to the end of the start gap. *)
Lemma started_facts has p st :
  started has p st ->
  fsGaps st = fsGaps s /\ fsReadPos st = fsReadPos s /\ fsFresh st = fsFresh s /\
  callbacks st ≡ₚ callbacks s /\ boundary (fsQueue s) (pcStart p) /\
  fsReadPos s <= pcStart p < pcEnd p /\ pcEnd p <= end_ /\
  (pcStart p = offset \/ offset < biStart sg /\ pcStart p = biStart sg).
Proof.
  pose proof sg_each as He. intros Hst.
  assert (Hin : forall x, offset <= x -> biStart sg <= x < biEnd sg -> in_gap (fsGaps s) x)
    by (intros; apply in_gap_cases; auto).
  destruct Hst as [-> H1 H2 H3 -> | -> H1 H2 H3 H4 H5 H6 | g post' -> H1 H2 H3 H4 H5].
  - split_and!; try done; [|lia|lia|lia]. apply boundary_gap; [done|]. left. apply Hin; lia.
  - destruct H6 as (Q & G & R & F & C). split_and!; try done; [by rewrite H1|lia|lia|lia|by left].
  - destruct H4 as (Q & G & R & F & C). case_decide as Hd;
      (split_and!; try done; [|lia|lia|lia|by left]); rewrite H1, H2; apply boundary_gap; try done; right;
      rewrite HG; apply in_gap_app; right; apply in_gap_cons; left; cbn; lia.
Qed.

Lemma started_queue has p st x :
  started has p st -> pcStart p <= biStart sg -> pcStart p <= x -> biStart sg <= x <= biEnd sg ->
  fsQueue st = clear (pcStart p) x (fsQueue s).
Proof.
  intros Hst Hle Hx1 Hx. pose proof sg_each as He.
  assert (Hnone : forall k, offset <= k -> biStart sg <= k < x -> fsQueue s !! k = None).
  { intros k Hk1 Hk. apply gap_no_entry; [done|]. apply in_gap_cases; [done|]. left. lia. }
  destruct Hst as [-> H1 H2 H3 -> | -> H1 H2 H3 H4 H5 H6 | g post' -> H1 H2 H3 H4 H5]; [| |lia].
  - symmetry. apply clear_none. intros k Hk. apply Hnone; lia.
  - rewrite (proj1 H6), H1. apply clear_extend; [lia|]. intros k Hk. apply Hnone; lia.
Qed.

(** *** The frame ends before the next gap *)

Section same.
Hypothesis Hsame : forall g, g ∈ post -> end_ < biStart g.2.

Lemma no_gap_after b : biEnd sg <= b < end_ -> offset <= b -> ~ in_gap (fsGaps s) b.
Proof.
  intros Hb Ho. rewrite in_gap_cases by done. intros [?|(g & Hg & ?)]; [lia|]. specialize (Hsame g Hg). lia.
Qed.

(** The part of the start gap before and after the piece. *)
Definition leftovers (a b : Z) (f : nat) : list gap :=
  (if a <=? biStart sg then [] else [(i, setEnd a sg)]) ++
  (if biEnd sg <=? b then [] else [(if a <=? biStart sg then i else f, setStart b sg)]).

Lemma leftovers_ready p s2 :
  fsGaps s2 = pre ++ leftovers (pcStart p) (pcEnd p) (fsFresh s) ++ post ->
  (fsFresh s2 = if (pcStart p <=? biStart sg) || (biEnd sg <=? pcEnd p) then fsFresh s else S (fsFresh s)) ->
  fsQueue s2 = clear (pcStart p) (pcEnd p) (fsQueue s) -> fsReadPos s2 = fsReadPos s ->
  callbacks s2 ≡ₚ callbacks s -> slice_of p ->
  pcStart p = offset \/ offset < biStart sg /\ pcStart p = biStart sg ->
  boundary (fsQueue s) (pcStart p) -> fsReadPos s <= pcStart p < pcEnd p -> pcEnd p <= end_ ->
  pcStart p < biEnd sg -> pcEnd p = Z.min end_ (biEnd sg) ->
  ready s data offset p s2.
Proof.
  intros EG EF HQ HR HC Hsl Hst Hb Hran Hend Hlt Hpe. pose proof sg_each as He.
  assert (Hfr : (i < fsFresh s)%nat).
  { apply (fi_fresh _ Hi (i, sg)). rewrite HG. apply elem_of_app. right. by left. }
  assert (Hab : biStart sg < pcEnd p) by lia.
  eapply (make_ready p s2 [(i, sg)] (leftovers (pcStart p) (pcEnd p) (fsFresh s)) post); try done;
    unfold leftovers in *.
  - destruct (_ <=? _), (_ <=? _); cbn; try apply NoDup_singleton; try constructor.
    + rewrite list_elem_of_singleton. lia.
    + apply NoDup_singleton.
  - rewrite EF. destruct (_ || _); lia.
  - rewrite EF. intros x. destruct (_ <=? _), (_ <=? _); cbn; rewrite ?elem_of_cons, ?elem_of_nil; intuition.
  - destruct (_ <=? _), (_ <=? _); cbn; repeat constructor. unfold gap_lt. cbn. lia.
  - intros g'. destruct (Z.leb_spec (pcStart p) (biStart sg)), (Z.leb_spec (biEnd sg) (pcEnd p)); cbn [app];
      rewrite ?elem_of_cons, ?elem_of_nil; intros Hg';
      repeat (destruct Hg' as [->|Hg'] || destruct Hg' as [Hg'|Hg']); try done; cbn;
      (split; [lia|]; split; exists (i, sg); (split; [by left|cbn; lia])).
  - intros b. destruct (Z.leb_spec (pcStart p) (biStart sg)), (Z.leb_spec (biEnd sg) (pcEnd p)); cbn [app];
      rewrite ?in_gap_cons, ?in_gap_nil; cbn; lia.
  - intros b Hb'. apply no_gap_after; lia.
  - apply boundary_gap; [done|]. destruct (Z.lt_ge_cases (pcEnd p) (biEnd sg)).
    + left. apply in_gap_cases; lia.
    + right. apply in_gap_cases; lia.
Qed.

Lemma wp_finish_same {A} has p st (K : piece -> fsM A) Q E :
  started has p st -> slice_of p ->
  (forall p' s2, ready s data offset p' s2 -> wp (K p') Q E s2) ->
  wp (adjusted ← adjustStartGap i sg has p;
      _ ← (mret tt : fsM unit);
      p ← lift (cutEnd (bool_decide (end_ < biEnd sg)) (biEnd sg) p);
      _ ← adjustEndGap i i true adjusted (biEnd sg) (biEnd sg) p; K p) Q E st.
Proof.
  intros Hst Hsl HK. pose proof sg_each as He.
  destruct (started_facts _ _ _ Hst) as (G & R & F & C & Hb & Hran & Hend & Hoffs).
  apply wp_adjustStartGap; [done|]. apply wp_bind, wp_ret. apply wp_bind.
  destruct (Z.lt_ge_cases (pcStart p) (biEnd sg)) as [Hlt|Hge].
  - (* the piece starts in or before the gap *)
    assert (Hpe : pcEnd p = end_) by (destruct Hst; lia).
    destruct (cutEnd_ok p (biEnd sg)) as (p' & Hp' & Ps & Pe & Hsl'); try done; [lia|lia|].
    rewrite Hpe in Hp', Pe. eapply wp_lift; [exact Hp'|].
    assert (HQ : fsQueue st = clear (pcStart p) (pcEnd p') (fsQueue s)).
    { destruct (Z.le_gt_cases (pcStart p) (biStart sg)) as [Hle|Hgt].
      - apply (started_queue has); try done; lia.
      - destruct Hst as [-> H1 H2 H3 -> | | ]; [|lia|lia]. symmetry. apply clear_none.
        intros k Hk. apply gap_no_entry; [done|]. apply in_gap_cases; lia. }
    assert (Hnd : i ∉ pre.*1).
    { pose proof (fi_ids _ Hi) as Hnd. rewrite HG in Hnd. by destruct (nodup_mid _ _ _ _ Hnd). }
    assert (Hhas : pcStart p <= biStart sg \/ has = false) by (destruct Hst; [by right|lia..]).
    unfold adjustEndGap, leftover. cbn [negb andb]. apply wp_bind.
    assert (Hready : forall gs fr, gs = pre ++ leftovers (pcStart p') (pcEnd p') (fsFresh s) ++ post ->
      (fr = if (pcStart p' <=? biStart sg) || (biEnd sg <=? pcEnd p') then fsFresh s else S (fsFresh s)) ->
      wp (K p') Q E (mkFrameSorter (fsQueue st) (fsReadPos st) gs fr (fsCalled st))).
    { intros gs fr Egs Efr. apply HK, leftovers_ready; cbn; try done; rewrite ?Ps; try done; lia. }
    rewrite Ps, Pe in Hready. rewrite Pe. unfold leftovers in Hready. clear HK.
    destruct (Z.leb_spec (pcStart p) (biStart sg)) as [Hs1|Hs1]; cbn [fst snd].
    + destruct (Z.leb_spec (biEnd sg) (pcEnd p)) as [He1|He1].
      * ztrue (Z.min end_ (biEnd sg) =? biEnd sg). apply wp_ret.
        replace (biEnd sg <=? Z.min end_ (biEnd sg)) with true in Hready by lia.
        by apply Hready; [|rewrite <- F].
      * zfalse (Z.min end_ (biEnd sg) =? biEnd sg). cbn [andb]. apply wp_ret.
        replace (biEnd sg <=? Z.min end_ (biEnd sg)) with false in Hready by lia.
        apply Hready; [|by rewrite <- F]. rewrite Hpe. by rewrite Z.min_l by lia.
    + destruct Hhas as [? | ->]; [lia|]. cbn [negb fst snd].
      destruct (Z.leb_spec (biEnd sg) end_) as [He1|He1].
      * ztrue (Z.min end_ (biEnd sg) =? biEnd sg). apply wp_ret.
        replace (biEnd sg <=? Z.min end_ (biEnd sg)) with true in Hready by lia.
        by apply Hready; [|rewrite <- F].
      * zfalse (Z.min end_ (biEnd sg) =? biEnd sg). apply wp_modify.
        replace (biEnd sg <=? Z.min end_ (biEnd sg)) with false in Hready by lia.
        cbn. apply Hready; [|by rewrite <- F]. rewrite gap_InsertAfter_mid by done. by rewrite F.
  - (* the piece replaces frames after the gap *)
    destruct Hst as [-> H1 | -> H1 | g post' -> H1 H2 H3 H4 H5]; [lia|lia|].
    assert (Hg : end_ < biStart g.2) by (apply Hsame; rewrite H3; by left).
    rewrite decide_False in H5 by lia. destruct H5 as [H5 Hbe].
    unfold cutEnd. ztrue (pcStart p =? biEnd sg). rewrite andb_false_r. cbn [andb].
    eapply wp_lift; [done|]. unfold leftover, adjustEndGap. zfalse (pcStart p <=? biStart sg).
    cbn [negb fst snd andb]. zfalse (pcEnd p =? biEnd sg). apply wp_bind, wp_ret, HK.
    destruct H4 as (HQ & _). rewrite Z.min_l in HQ by lia. rewrite <- H1 in HQ.
    eapply (make_ready p _ [(i, sg)] [(i, sg)] post); try done; cbn.
    + apply NoDup_singleton.
    + by rewrite F.
    + intros x Hx. by left.
    + repeat constructor.
    + intros g' Hg'%list_elem_of_singleton. subst g'. cbn. split; [lia|].
      split; exists (i, sg); (split; [by left|cbn; lia]).
    + intros b. rewrite in_gap_cons, in_gap_nil. cbn. lia.
    + intros b Hb'. apply no_gap_after; lia.
Qed.
End same.

(** *** The frame reaches a later gap *)

Section between.
Context (mid post2 : list gap) (j : nat) (eg : byteInterval).
Hypothesis Hpost : post = mid ++ (j, eg) :: post2.
Hypothesis Heg : biStart eg <= end_.
Hypothesis Hafter : forall g, g ∈ post2 -> end_ < biStart g.2.

Let B : list gap := (i, sg) :: mid ++ [(j, eg)].

Lemma between_gaps : fsGaps s = pre ++ B ++ post2.
Proof. rewrite HG, Hpost. subst B. cbn. by rewrite <- app_assoc. Qed.

Lemma eg_each : biEnd sg < biStart eg < biEnd eg /\ biEnd eg <= MaxByteCount.
Proof.
  pose proof (gap_each s (j, eg) Hi) as He. rewrite HG, Hpost in He.
  specialize (He ltac:(rewrite elem_of_app, elem_of_cons, elem_of_app, elem_of_cons; auto)).
  cbn in He. pose proof (post_after (j, eg)) as Hp. rewrite Hpost in Hp.
  specialize (Hp ltac:(rewrite elem_of_app, elem_of_cons; auto)). cbn in Hp. lia.
Qed.

Lemma mid_each g : g ∈ mid -> biEnd sg < biStart g.2 /\ biEnd g.2 < biStart eg.
Proof.
  intros Hg. split; [apply post_after; rewrite Hpost; apply elem_of_app; by left|].
  pose proof (go_sorted _ _ (fi_gaps _ Hi)) as Hs. rewrite HG, Hpost in Hs.
  apply StronglySorted_app in Hs as (_ & _ & Hs). apply StronglySorted_inv in Hs as [Hs _].
  apply StronglySorted_app in Hs as (Hs & _). apply (Hs g (j, eg) Hg). by left.
Qed.

Lemma hd_start : biEnd sg < biStart (hd_gap mid (j, eg)).2 <= biStart eg /\
  tiled (fsQueue s) (biEnd sg) (biStart (hd_gap mid (j, eg)).2) /\
  fsQueue s !! biStart (hd_gap mid (j, eg)).2 = None /\ regions (fsQueue s) (mid ++ [(j, eg)]).
Proof.
  pose proof (regions_inv s post2 B pre Hi between_gaps) as Hr. subst B. cbn [regions] in Hr.
  destruct Hr as (_ & _ & Hnx & Hr). destruct (regions_hd _ _ _ Hr) as [Hle Hn]. cbn in Hle.
  split_and!; try done; destruct mid; cbn in *; tauto || lia.
Qed.

Lemma between_ready p (L Y : list gap) s2 :
  fsGaps s2 = pre ++ (L ++ Y) ++ post2 ->
  L = (if pcStart p <=? biStart sg then [] else [(i, setEnd (Z.min (biEnd sg) (pcStart p)) sg)]) ->
  Y = (if biEnd eg <=? pcEnd p then [] else [(j, setStart (pcEnd p) eg)]) ->
  fsFresh s2 = fsFresh s -> fsQueue s2 = clear (pcStart p) (pcEnd p) (fsQueue s) ->
  fsReadPos s2 = fsReadPos s -> callbacks s2 ≡ₚ callbacks s -> slice_of p ->
  pcStart p = offset \/ offset < biStart sg /\ pcStart p = biStart sg ->
  boundary (fsQueue s) (pcStart p) -> fsReadPos s <= pcStart p < pcEnd p -> pcEnd p <= end_ ->
  pcStart p <= biEnd sg -> pcEnd p = Z.min end_ (biEnd eg) ->
  ready s data offset p s2.
Proof.
  intros EG EL EY EF HQ HR HC Hsl Hst Hb Hran Hend Hlt Hpe.
  pose proof sg_each as He. pose proof eg_each as He'.
  assert (Hij : i <> j).
  { pose proof (fi_ids _ Hi) as Hnd. rewrite HG, Hpost in Hnd. destruct (nodup_mid _ _ _ _ Hnd) as [_ Hn].
    intros ->. apply Hn. rewrite fmap_app. apply elem_of_app. right. by left. }
  assert (HiB : (i, sg) ∈ B) by by left.
  assert (HjB : (j, eg) ∈ B) by (right; apply elem_of_app; right; by left).
  assert (Hab : pcStart p < biStart eg <= pcEnd p) by lia.
  assert (Hgb : forall b, in_gap B b <-> biStart sg <= b < biEnd sg \/ in_gap mid b \/ biStart eg <= b < biEnd eg).
  { intros b. unfold B. rewrite in_gap_cons, in_gap_app, in_gap_cons, in_gap_nil. cbn. tauto. }
  assert (Hmid : forall b, in_gap mid b -> biEnd sg < b < biStart eg).
  { intros b (g & Hg & Hgb'). pose proof (mid_each g Hg). lia. }
  eapply (make_ready p s2 B (L ++ Y) post2); try done; try (by rewrite EF).
  - apply between_gaps.
  - rewrite EL, EY. destruct (_ <=? _), (_ <=? _); cbn; repeat constructor;
      rewrite ?list_elem_of_singleton, ?elem_of_nil; auto; intros []%not_elem_of_nil || auto.
  - intros x Hx. left. assert (x = i \/ x = j) as [->| ->].
    { rewrite EL, EY in Hx. destruct (_ <=? _), (_ <=? _); cbn in Hx;
        rewrite ?elem_of_cons, ?elem_of_nil in Hx; intuition. }
    + by apply (list_elem_of_fmap_2 fst _ (i, sg)).
    + by apply (list_elem_of_fmap_2 fst _ (j, eg)).
  - rewrite EL, EY. destruct (_ <=? _), (_ <=? _); cbn; repeat constructor. unfold gap_lt. cbn. lia.
  - intros g'. rewrite EL, EY.
    destruct (Z.leb_spec (pcStart p) (biStart sg)), (Z.leb_spec (biEnd eg) (pcEnd p)); cbn [app];
      rewrite ?elem_of_cons, ?elem_of_nil; intros Hg';
      repeat (destruct Hg' as [-> | Hg'] || destruct Hg' as [Hg'|Hg']); try done; cbn;
      (split; [lia|]); split;
      solve [exists (i, sg); split; [done|cbn; lia] | exists (j, eg); split; [done|cbn; lia]].
  - intros b. rewrite Hgb, EL, EY. pose proof (Hmid b).
    destruct (Z.leb_spec (pcStart p) (biStart sg)), (Z.leb_spec (biEnd eg) (pcEnd p)); cbn [app];
      rewrite ?in_gap_cons, ?in_gap_nil; cbn; intuition lia.
  - intros b Hb'. rewrite between_gaps, !in_gap_app, Hgb. intros [(g & Hg & ?)|[[?|[?%Hmid|?]]|(g & Hg & ?)]]; try lia.
    + specialize (Hpre g Hg). lia.
    + specialize (Hafter g Hg). lia.
  - apply boundary_gap; [done|]. rewrite between_gaps, !in_gap_app, !Hgb. destruct (Z.lt_ge_cases (pcEnd p) (biEnd eg)).
    + left. right. left. right. right. lia.
    + right. right. left. right. right. lia.
Qed.

(** What is left of the start gap in front of the piece. *)
Definition before_piece (p : piece) : list gap :=
  if pcStart p <=? biStart sg then [] else [(i, setEnd (Z.min (biEnd sg) (pcStart p)) sg)].

Lemma before_piece_ids p x : x ∈ (before_piece p).*1 -> x = i.
Proof. unfold before_piece. destruct (_ <=? _); cbn; rewrite ?elem_of_cons, ?elem_of_nil; intuition. Qed.

Lemma before_piece_nodup p : NoDup ((before_piece p).*1).
Proof. unfold before_piece. destruct (_ <=? _); [constructor|apply NoDup_singleton]. Qed.

Lemma i_ne_j : i <> j.
Proof.
  pose proof (fi_ids _ Hi) as Hnd. rewrite HG, Hpost in Hnd. destruct (nodup_mid _ _ _ _ Hnd) as [_ Hnn].
  intros ->. apply Hnn. rewrite fmap_app. apply elem_of_app. right. by left.
Qed.

(** The piece keeps its end, and the queue is cleared up to the end of the start
    gap, or up to the next gap. *)
Lemma between_started has p st :
  started has p st ->
  pcEnd p = end_ /\ pcStart p <= biEnd sg /\ (leftover has p).1 = before_piece p /\
  exists k, fsQueue st = clear (pcStart p) k (fsQueue s) /\
    (k = biEnd sg \/ (k = biStart (hd_gap mid (j, eg)).2 /\ pcStart p = biEnd sg)).
Proof.
  intros Hst. pose proof sg_each as He. pose proof eg_each as He'. destruct hd_start as (Hh & _).
  set (h := hd_gap mid (j, eg)) in *. unfold leftover, before_piece.
  assert (Hclear : pcStart p <= biStart sg -> pcStart p <= biEnd sg ->
    exists k, fsQueue st = clear (pcStart p) k (fsQueue s) /\
      (k = biEnd sg \/ (k = biStart h.2 /\ pcStart p = biEnd sg))).
  { intros. exists (biEnd sg). split; [|by left]. apply (started_queue has); try done; lia. }
  pose proof Hst as [-> H1 H2 H3 -> | -> H1 H2 H3 H4 H5 H6 | g post' -> H1 H2 H3 H4 H5].
  - split; [done|]. split; [lia|]. destruct (Z.leb_spec (pcStart p) (biStart sg)).
    + split; [by ztrue (biEnd sg <=? pcEnd p)|]. apply Hclear; lia.
    + split; [by rewrite Z.min_r by lia|]. exists (biEnd sg). split; [|by left]. symmetry. apply clear_none.
      intros k Hk. apply gap_no_entry; [done|]. apply in_gap_cases; lia.
  - split; [done|]. split; [lia|]. ztrue (pcStart p <=? biStart sg).
    split; [by ztrue (biEnd sg <=? pcEnd p)|]. apply Hclear; lia.
  - assert (g = h) as ->. { rewrite Hpost in H3. subst h. destruct mid; cbn in *; by injection H3. }
    rewrite decide_True in H5 by lia. split; [done|]. split; [lia|]. zfalse (pcStart p <=? biStart sg).
    split; [cbn; rewrite Z.min_l by lia; by destruct sg|].
    exists (biStart h.2). split; [|right; by rewrite H1]. destruct H4 as (-> & _). rewrite H1. f_equal. lia.
Qed.

(** Everything between the start and the end gap is deleted. *)
Lemma wp_clear_between {A} a k (X : list gap) st (K : fsM A) Q E :
  fsGaps st = X ++ post -> NoDup ((fsGaps st).*1) -> 0 <= a <= biEnd sg ->
  fsQueue st = clear a k (fsQueue s) ->
  k = biEnd sg \/ (k = biStart (hd_gap mid (j, eg)).2 /\ a = biEnd sg) ->
  (forall s', fsGaps s' = X ++ (j, eg) :: post2 -> fsQueue s' = clear a (biStart eg) (fsQueue s) ->
     fsReadPos s' = fsReadPos st -> fsFresh s' = fsFresh st -> callbacks s' ≡ₚ callbacks st -> wp K Q E s') ->
  wp (_ ← (_ ← deleteConsecutive (biEnd sg);
           deleteBetween (length (fsGaps s)) (Some (hd_gap mid (j, eg)).1) (biStart eg)); K) Q E st.
Proof.
  intros EG Hnd Ha HQ Hk HK. pose proof sg_each as He. pose proof eg_each as He'.
  destruct hd_start as (Hh & Ht & Hn & Hr). set (h := hd_gap mid (j, eg)) in *. unfold MaxByteCount in *.
  apply wp_bind, wp_bind.
  eapply wp_mono; [| |apply (wp_deleteConsecutive _ (if decide (k = biEnd sg) then biStart h.2 else biEnd sg))];
    [|done|..].
  2:{ case_decide; [|constructor]. rewrite HQ. eapply tiled_agree; [done|].
      intros x Hx. rewrite clear_lookup. by rewrite decide_False by lia. }
  2:{ rewrite HQ. apply clear_disjoint, (fi_disj _ Hi). }
  2:{ rewrite HQ, clear_lookup. destruct (decide (k = biEnd sg)).
      - by rewrite decide_False by lia.
      - by rewrite decide_True by lia. }
  2:{ case_decide; lia. }
  2:{ pose proof (fi_read _ Hi). lia. }
  intros _ s2 (Q2 & G2 & R2 & F2 & C2).
  assert (Q2' : fsQueue s2 = clear a (biStart h.2) (fsQueue s)).
  { rewrite Q2, HQ. destruct Hk as [-> | [-> Hp]].
    - rewrite decide_True by done. apply clear_clear. lia.
    - rewrite decide_False by lia. apply clear_none. lia. }
  eapply wp_mono; [| |apply (wp_deleteBetween j eg post2 a (fsQueue s)) with (X := X)];
    [|done|apply (fi_disj _ Hi)|unfold MaxByteCount; lia| | |done| |fold h; lia|done].
  - intros _ s3 (G3 & Q3 & R3 & F3 & C3). apply HK; try done; [by rewrite R3|by rewrite F3|by rewrite C3].
  - by rewrite G2, EG, Hpost.
  - by rewrite G2.
  - rewrite HG, Hpost, !length_app. cbn. rewrite length_app. lia.
Qed.

Lemma wp_finish_between {A} has p st (K : piece -> fsM A) Q E :
  started has p st -> slice_of p ->
  (forall p' s2, ready s data offset p' s2 -> wp (K p') Q E s2) ->
  wp (adjusted ← adjustStartGap i sg has p;
      _ ← (_ ← deleteConsecutive (biEnd sg);
           deleteBetween (length (fsGaps s)) (Some (hd_gap mid (j, eg)).1) (biStart eg));
      p ← lift (cutEnd (bool_decide (end_ < biEnd eg)) (biEnd eg) p);
      _ ← adjustEndGap i j false adjusted (biEnd sg) (biEnd eg) p; K p) Q E st.
Proof.
  intros Hst Hsl HK. pose proof sg_each as He. pose proof eg_each as He'.
  destruct (started_facts _ _ _ Hst) as (G & R & F & C & Hb & Hran & Hend & Hoffs).
  destruct (between_started _ _ _ Hst) as (Hpe & Hps & EL & k & HQ & Hk).
  apply wp_adjustStartGap; [done|]. rewrite EL. clear EL.
  eapply (wp_clear_between (pcStart p) k (pre ++ before_piece p)); cbn [fsGaps fsQueue fs_gaps]; try done.
  { by rewrite <- app_assoc. }
  { apply (regap_ids [(i, sg)] (before_piece p) post (fsFresh s) HG);
      [apply before_piece_nodup|lia|]. intros x ->%before_piece_ids. left. by left. }
  { pose proof (fi_read _ Hi). lia. }
  intros s3 G3 Q3 R3 F3 C3. apply wp_bind.
  destruct (cutEnd_ok p (biEnd eg)) as (p' & Hp' & Ps & Pe & Hsl'); try done; [lia|lia|lia|].
  rewrite Hpe in Hp', Pe. eapply wp_lift; [exact Hp'|]. unfold adjustEndGap. cbn [andb negb].
  assert (Hnd3 : NoDup (((pre ++ before_piece p) ++ (j, eg) :: post2).*1)).
  { rewrite <- app_assoc. change ((j, eg) :: post2) with ([(j, eg)] ++ post2). rewrite (app_assoc (before_piece p)).
    apply (regap_ids B (before_piece p ++ [(j, eg)]) post2 (fsFresh s) between_gaps); [|lia|].
    - rewrite fmap_app. apply NoDup_app. split; [apply before_piece_nodup|]. split; [|apply NoDup_singleton].
      intros x ->%before_piece_ids. cbn. rewrite list_elem_of_singleton. apply i_ne_j.
    - intros x Hx. rewrite fmap_app, elem_of_app in Hx. left. subst B.
      rewrite fmap_cons, fmap_app, elem_of_cons, elem_of_app.
      destruct Hx as [->%before_piece_ids|Hx]; [by left|right; by right]. }
  destruct (nodup_mid _ _ _ _ Hnd3) as [Hj1 Hj2].
  assert (Q3' : forall x, biStart eg <= x <= biEnd eg -> fsQueue s3 = clear (pcStart p) x (fsQueue s)).
  { intros x Hx. rewrite Q3. apply clear_extend; [lia|]. intros y Hy. apply gap_no_entry; [done|].
    rewrite between_gaps, !in_gap_app. right. left. subst B.
    rewrite in_gap_cons, in_gap_app, in_gap_cons. cbn. right. right. left. lia. }
  assert (Hcb : callbacks s3 ≡ₚ callbacks s) by (rewrite C3, <- C; done).
  destruct (Z.eqb_spec (pcEnd p') (biEnd eg)) as [Ee|Ee]; apply wp_bind, wp_modify, HK;
    eapply (between_ready p' (before_piece p) (if biEnd eg <=? pcEnd p' then [] else [(j, setStart (pcEnd p') eg)]));
    cbn [fsGaps fsQueue fsReadPos fsFresh fs_gaps]; try done; unfold before_piece; rewrite ?Ps; try done; try lia;
    try (by rewrite F3); try (by rewrite R3); try (apply Q3'; lia).
  - rewrite G3, gap_Remove_mid by done. ztrue (biEnd eg <=? pcEnd p'). by rewrite app_nil_r, <- app_assoc.
  - rewrite G3, gap_set_mid by done. zfalse (biEnd eg <=? pcEnd p'). by rewrite <- !app_assoc.
Qed.
End between.
End push.

(** ** [push] and [Push] *)

Lemma gaps_nonempty s : fs_inv s -> exists g gs, fsGaps s = g :: gs.
Proof.
  intros Hi. destruct (go_last _ _ (fi_gaps _ Hi)) as (g & Hg & _).
  destruct (fsGaps s) as [|g' gs]; [by apply not_elem_of_nil in Hg|by eexists _, _].
Qed.

(** Bytes before the first gap are in no gap. *)
Lemma before_front s g gs b : fs_inv s -> fsGaps s = g :: gs -> b < biStart g.2 -> ~ in_gap (fsGaps s) b.
Proof.
  intros Hi E Hb. pose proof (go_sorted _ _ (fi_gaps _ Hi)) as Hs. rewrite E in *.
  apply StronglySorted_inv in Hs as [_ Hs]. rewrite Forall_forall in Hs.
  pose proof (gap_each s g Hi ltac:(rewrite E; by left)).
  intros (h & [-> | Hh]%elem_of_cons & Hbh); [lia|]. specialize (Hs h Hh). unfold gap_lt in Hs. lia.
Qed.

Definition push_err s (data : bytes) offset e s' : Prop :=
  (e = errDuplicateStreamData /\ s' = s /\ forall b, offset <= b < offset + blen data -> ~ in_gap (fsGaps s) b) \/
  (e = errTooManyGaps /\ MaxStreamFrameSorterGaps < blen (fsGaps s')).

(** The frame does not reach its start gap: nothing in it is new. *)
Lemma findEndGap_before s pre i v post x :
  fs_inv s -> fsGaps s = pre ++ (i, v) :: post -> x <= biStart v ->
  (forall g gs, fsGaps s = g :: gs -> biStart g.2 < x) ->
  exists k w ins, findEndGap (fsGaps s) i x = Ok (Some k, ins) /\ gap_value (fsGaps s) k = Ok w /\
    (k = i \/ (k <> i /\ biStart w <= biEnd v)).
Proof.
  intros Hi E Hx Hf. pose proof (fi_ids _ Hi) as Hnd. rewrite E in Hnd.
  destruct (nodup_mid _ _ _ _ Hnd) as [H1 H2].
  assert (Hv : biStart v < biEnd v).
  { pose proof (gap_each s (i, v) Hi) as Hg. rewrite E in Hg.
    specialize (Hg ltac:(apply elem_of_app; right; by left)). cbn in Hg. lia. }
  unfold findEndGap. rewrite E, from_gap_mid by done. cbn [findEndGap_loop fst snd].
  destruct (Z.eq_dec x (biStart v)) as [->|Hne].
  - ztrue (biStart v <=? biStart v). ztrue (biStart v <? biEnd v). exists i, v, true.
    split; [done|]. split; [by apply gap_value_mid|by left].
  - zfalse (biStart v <=? x). cbn [andb]. ztrue (x <? biStart v). rewrite gap_Prev_mid by done.
    destruct (last pre) as [[k w]|] eqn:El.
    + apply last_Some in El as [pre' ->]. exists k, w, false. split; [done|].
      rewrite <- app_assoc in Hnd |- *. destruct (nodup_mid _ _ _ _ Hnd) as [H3 H4].
      split; [by apply gap_value_mid|]. right. split.
      * intros ->. apply H4. cbn. by left.
      * pose proof (go_sorted _ _ (fi_gaps _ Hi)) as Hs. rewrite E, <- app_assoc in Hs.
        apply StronglySorted_app in Hs as (_ & _ & Hs). apply StronglySorted_inv in Hs as [_ Hs].
        rewrite Forall_forall in Hs. specialize (Hs (i, v) ltac:(by left)). unfold gap_lt in Hs. cbn in Hs.
        pose proof (gap_each s (k, w) Hi) as Hg. rewrite E, <- app_assoc in Hg.
        specialize (Hg ltac:(apply elem_of_app; right; by left)). cbn in Hg. lia.
    + apply last_None in El as ->. specialize (Hf _ _ E). cbn in Hf. lia.
Qed.

Lemma wp_push s data offset doneCb :
  fs_inv s -> 0 <= offset -> offset + blen data < MaxByteCount ->
  wp (push data offset doneCb) (fun _ => pushed s data offset doneCb) (push_err s data offset) s.
Proof.
  intros Hi Hoff Hmax. unfold push. pose proof (blen_nonneg data).
  destruct (Z.eqb_spec (blen data) 0) as [E0|E0].
  { left. split; [done|]. split; [done|]. lia. }
  rewrite i64_small by (unfold MaxByteCount in Hmax; int_range). set (end_ := offset + blen data) in *.
  destruct (gaps_nonempty s Hi) as (front & gs & EG).
  apply wp_bind, wp_get. rewrite EG at 1. cbn [head fmap option_fmap option_map].
  apply wp_bind. eapply (wp_lift front.2).
  { rewrite EG. cbn. by rewrite decide_True. }
  destruct (Z.leb_spec end_ (biStart front.2)) as [Hfr|Hfr].
  { left. split; [done|]. split; [done|]. intros b Hb. apply (before_front s front gs); [done|done|lia]. }
  destruct (findStartGap_spec _ offset _ (fi_gaps _ Hi)) as (pre & i & sg & post & ins & HG & Hf & Hpre & Hins);
    [lia|].
  apply wp_bind. eapply wp_lift; [exact Hf|]. apply wp_bind.
  pose proof (fi_ids _ Hi) as Hnd. rewrite HG in Hnd. destruct (nodup_mid _ _ _ _ Hnd) as [H1 H2].
  assert (Hval : gap_value (fsGaps s) i = Ok sg) by (rewrite HG; by apply gap_value_mid).
  destruct (Z.le_gt_cases end_ (biStart sg)) as [Hle|Hgt].
  { destruct (findEndGap_before s pre i sg post end_) as (k & w & ins' & Hfe & Hk & Hki); try done.
    { intros g gs' E. rewrite E in EG. injection EG as -> ->. lia. }
    eapply wp_lift; [exact Hfe|]. apply wp_bind. eapply wp_lift; [exact Hval|].
    apply wp_bind. eapply wp_lift; [exact Hk|]. ztrue (end_ <=? biStart sg).
    assert (Hc : bool_decide (Some i = Some k) && true
      || negb (bool_decide (Some i = Some k)) && (biStart w <=? biEnd sg) && true = true).
    { destruct Hki as [->|[Hne Hw]]; [by rewrite bool_decide_true|].
      rewrite bool_decide_false by congruence. cbn. lia. }
    rewrite Hc. left. split; [done|]. split; [done|]. intros b Hb. fold end_ in Hb.
    rewrite HG, in_gap_app, in_gap_cons. cbn. intros [(g & Hg & ?)|[?|(g & Hg & ?)]]; [|lia|].
    - specialize (Hpre g Hg). lia.
    - pose proof (sg_each s pre post i sg Hi HG). pose proof (post_after s pre post i sg Hi HG g Hg). lia. }
  pose proof (fun P => findEndGap_loop_spec (fsGaps s) end_ pre post sg i HG P) as Hfe.
  destruct Hfe as (mid & j & eg & post2 & Epost & Hfe & Heg & Hafter).
  { apply (fi_ids _ Hi). }
  { intros g Hg. apply (gap_each s g Hi). rewrite HG. apply elem_of_app. right. by right. }
  { pose proof (go_sorted _ _ (fi_gaps _ Hi)) as Hs. rewrite HG in Hs. by apply StronglySorted_app in Hs as (_ & _ & Hs). }
  { pose proof (go_last _ _ (fi_gaps _ Hi)) as Hl. rewrite HG in Hl. apply in_gap_app in Hl as [(g & Hg & ?)|Hl]; [|done].
    specialize (Hpre g Hg). lia. }
  { lia. }
  eapply wp_lift.
  { unfold findEndGap. rewrite HG at 2. rewrite from_gap_mid by done. exact Hfe. }
  apply wp_bind. eapply wp_lift; [exact Hval|]. apply wp_bind.
  assert (Hlen : 0 < blen data) by lia.
  pose proof (wp_replace s data offset pre post i sg ins) as Hrep.
  repeat (specialize (Hrep ltac:(first [assumption | exact Hgt | exact Hmax]))). fold end_ in Hrep.
  assert (Hrep_err : forall er s', er = errDuplicateStreamData /\ dup s data offset s' ->
    push_err s data offset er s') by (intros ? ? [-> [-> Hd]]; left; done).
  destruct mid as [|m mid].
  - (* the start gap is the end gap *)
    injection Epost as <- <- <-. eapply wp_lift; [exact Hval|].
    rewrite bool_decide_true by done. cbn [negb andb orb]. rewrite orb_false_r.
    zfalse (end_ <=? biStart sg). cbn [andb default].
    apply wp_bind. eapply wp_mono; [|exact Hrep_err|exact Hrep].
    intros [has cut] s1 (p1 & p & Hc1 & Hc2 & Hsl & Hst). cbn [fst snd] in *.
    apply wp_bind. eapply wp_lift; [exact Hc1|]. apply wp_bind. eapply wp_lift; [exact Hc2|].
    eapply (wp_finish_same s data offset pre post i sg); try done.
    intros p' s2 Hrd. eapply wp_mono; [| |by apply (wp_store s data offset doneCb p' s2)]; [done|].
    intros e s3 [-> He]. right. done.
  - injection Epost as <- Epost. eapply (wp_lift eg).
    { assert (E2 : pre ++ (i, sg) :: post = (pre ++ (i, sg) :: mid) ++ (j, eg) :: post2)
        by (rewrite Epost, <- app_assoc; done).
      rewrite HG, E2. rewrite E2 in Hnd. apply gap_value_mid. by destruct (nodup_mid _ _ _ _ Hnd). }
    assert (Hij : i <> j).
    { intros ->. apply H2. rewrite Epost, fmap_app. apply elem_of_app. right. by left. }
    rewrite bool_decide_false by congruence. cbn [negb andb orb default].
    zfalse (end_ <=? biStart sg). rewrite andb_false_r.
    apply wp_bind. eapply wp_mono; [|exact Hrep_err|exact Hrep].
    intros [has cut] s1 (p1 & p & Hc1 & Hc2 & Hsl & Hst). cbn [fst snd] in *.
    apply wp_bind. eapply wp_lift; [exact Hc1|]. apply wp_bind. eapply wp_lift; [exact Hc2|].
    replace (gap_Next (fsGaps s) i) with (Some (hd_gap mid (j, eg)).1).
    2:{ rewrite HG, gap_Next_mid, Epost by done. by destruct mid. }
    eapply (wp_finish_between s data offset pre post i sg) with (post2 := post2); try done.
    intros p' s2 Hrd. eapply wp_mono; [| |by apply (wp_store s data offset doneCb p' s2)]; [done|].
    intros e s3 [-> He]. right. done.
Qed.

Lemma wp_Push s data offset doneCb :
  fs_inv s -> 0 <= offset -> offset + blen data < MaxByteCount ->
  wp (Push data offset doneCb) (fun _ => pushed s data offset doneCb)
    (fun e s' => e = errTooManyGaps /\ MaxStreamFrameSorterGaps < blen (fsGaps s')) s.
Proof.
  intros Hi Hoff Hmax. pose proof (wp_push s data offset doneCb Hi Hoff Hmax) as Hp.
  unfold wp, Push in *. destruct (push data offset doneCb s) as [[[]|e|m] s']; [done| |done].
  destruct Hp as [(-> & -> & Hn)|[-> Hp]]; [|done].
  rewrite decide_True by done. unfold callDone, modify. split; [|split; [|split; [|split]]].
  - destruct doneCb; [|done]. destruct Hi. by constructor.
  - by destruct doneCb.
  - intros b. assert (E : fsGaps match doneCb with
        | Some c => mkFrameSorter (fsQueue s) (fsReadPos s) (fsGaps s) (fsFresh s) (fsCalled s ++ [c])
        | None => s end = fsGaps s) by by destruct doneCb.
    rewrite E. split; [|tauto]. intros Hb. split; [done|]. intros Hc. by apply (Hn b).
  - intros b v Hb. left. by destruct doneCb.
  - unfold callbacks. destruct doneCb; [|done]. cbn. rewrite <- app_assoc. cbn.
    by rewrite <- Permutation_middle.
Qed.

(** ** [Pop] *)

Definition popped s (r : Z * option bytes * option nat) s' : Prop :=
  fs_inv s' /\ r.1.1 = fsReadPos s /\ (forall b, in_gap (fsGaps s') b <-> in_gap (fsGaps s) b) /\
  match r.1.2 with
  | None => s' = s /\ r.2 = None /\ in_gap (fsGaps s) (fsReadPos s)
  | Some d =>
      d <> [] /\ fsReadPos s' = fsReadPos s + blen d /\
      (forall k v, d !! k = Some v -> byte_at s (fsReadPos s + Z.of_nat k) v) /\
      (forall b v, byte_at s' b v -> byte_at s b v) /\
      callbacks s ≡ₚ opt_list r.2 ++ callbacks s'
  end.

Lemma boundary_readPos s : fs_inv s -> boundary (fsQueue s) (fsReadPos s).
Proof. intros Hi off e He Hlt. destruct (fi_entry _ Hi _ _ He). lia. Qed.

Lemma pop_inv s e :
  fs_inv s -> fsQueue s !! fsReadPos s = Some e ->
  fs_inv (fs_readPos (fsReadPos s + elen e) (fs_queue (delete (fsReadPos s) (fsQueue s)) s)).
Proof.
  intros Hi He. destruct (fi_entry _ Hi _ _ He) as (_ & Hm & Hn). destruct (fi_disj _ Hi _ _ He) as [Hp Hl].
  destruct Hi as [Hids Hfr Hr Hg Hd Hen Hc]. set (r := fsReadPos s) in *.
  constructor; cbn [fsQueue fsReadPos fsGaps fsFresh fs_readPos fs_queue]; try done; [lia|..].
  - destruct Hg as [H1 H2 H3]. constructor; [done| |done]. intros g Hg. specialize (H2 g Hg).
    split; [|lia]. split; [|lia]. destruct (Z.le_gt_cases (r + elen e) (biStart g.2)) as [|Hc']; [done|].
    exfalso. apply (Hn (biStart g.2)); [lia|]. exists g. split; [done|lia].
  - intros off e' [_ He']%lookup_delete_Some. destruct (Hd _ _ He') as [? Hl']. split; [done|].
    intros off2 e2 [_ He2]%lookup_delete_Some. by apply (Hl' _ _ He2).
  - intros off e' [Hne He']%lookup_delete_Some. destruct (Hen _ _ He') as (? & ? & ?).
    split; [|done]. apply (Hl _ _ He'). lia.
  - intros b Hb Hg'. destruct (Hc b ltac:(lia) Hg') as (off & e' & He' & Hin).
    exists off, e'. split; [|done]. apply lookup_delete_Some. split; [|done]. intros <-.
    rewrite He in He'. injection He' as <-. lia.
Qed.

Lemma wp_Pop s : fs_inv s -> wp Pop (popped s) (fun _ _ => False) s.
Proof.
  intros Hi. unfold Pop. apply wp_bind, wp_get. destruct (fsQueue s !! fsReadPos s) as [e|] eqn:He.
  - destruct (fi_entry _ Hi _ _ He) as (_ & Hm & _). pose proof (fi_read _ Hi) as Hr.
    pose proof (pop_inv s e Hi He) as Hi'. pose proof (proj1 (fi_disj _ Hi _ _ He)) as Hp.
    apply wp_bind, wp_modify, wp_bind, wp_modify. fold (elen e). unfold MaxByteCount in Hm.
    rewrite i64_small by int_range. set (s' := fs_readPos _ _) in *.
    apply wp_bind, wp_get. destruct (gaps_nonempty s' Hi') as (front & gs & EG).
    pose proof (gap_each s' front Hi' ltac:(rewrite EG; by left)) as Hf.
    rewrite EG at 1. cbn [head fmap option_fmap option_map].
    apply wp_bind. eapply (wp_lift front.2).
    { rewrite EG. cbn. by rewrite decide_True. }
    zfalse (biEnd front.2 <=? fsReadPos s'). apply wp_ret.
    split; [done|]. split; [done|]. split; [done|]. cbn [fst snd].
    split; [intros E; unfold elen in Hp; rewrite E in Hp; done|]. split; [done|]. split; [|split].
    + intros k v Hk. exists (fsReadPos s), e. split; [done|]. split; [lia|].
      by replace (Z.to_nat (fsReadPos s + Z.of_nat k - fsReadPos s)) with k by lia.
    + intros b v (off & e' & He' & Hb). subst s'. cbn in He'. apply lookup_delete_Some in He' as [_ He']. by exists off, e'.
    + unfold callbacks. cbn. rewrite (pending_delete _ _ _ He). rewrite !app_assoc.
      by rewrite (Permutation_app_comm (fsCalled s)).
  - apply wp_ret. split; [done|]. split; [done|]. split; [done|]. cbn. split; [done|]. split; [done|].
    destruct (gaps_nonempty s Hi) as (front & gs & EG).
    assert (Hg : forall g, g ∈ fsGaps s -> biStart g.2 <= fsReadPos s -> in_gap (fsGaps s) (fsReadPos s)).
    { intros g Hg Hle. pose proof (gap_each s g Hi Hg). exists g. split; [done|lia]. }
    pose proof (gap_each s front Hi ltac:(rewrite EG; by left)) as Hf.
    destruct (Z.le_gt_cases (biStart front.2) (fsReadPos s)) as [Hle|Hgt].
    + apply (Hg front); [rewrite EG; by left|done].
    + destruct (boundary_starts s (fsReadPos s) Hi) as [e He']; [by apply boundary_readPos|lia| |congruence].
      by apply (before_front s front gs).
Qed.

(** ** Runs of the frame sorter *)

Inductive fs_op := FsPush (data : bytes) (offset : Z) (cb : option nat) | FsPop.

(** The sorter, the bytes popped so far and the callbacks handed out with them. *)
Record fs_state := mkFsState { fssSorter : frameSorter; fssOut : bytes; fssCbs : list nat }.

Definition fs_do (st : fs_state) (o : fs_op) : res fs_state :=
  match o with
  | FsPush data offset cb =>
      match Push data offset cb (fssSorter st) with
      | (Ok _, s') => Ok (mkFsState s' (fssOut st) (fssCbs st))
      | (Err e, _) => Err e
      | (Panic m, _) => Panic m
      end
  | FsPop =>
      match Pop (fssSorter st) with
      | (Ok (_, d, cb), s') => Ok (mkFsState s' (fssOut st ++ default [] d) (fssCbs st ++ opt_list cb))
      | (Err e, _) => Err e
      | (Panic m, _) => Panic m
      end
  end.

Fixpoint fs_run (st : fs_state) (os : list fs_op) : res fs_state :=
  match os with
  | [] => Ok st
  | o :: os' => st ← fs_do st o; fs_run st os'
  end.

(** The peer sends frames of one stream of bytes [str], in any order and cut in
    any way. *)
Definition op_ok (str : Z -> Z) (o : fs_op) : Prop :=
  match o with
  | FsPush data offset _ =>
      0 <= offset /\ offset + blen data < MaxByteCount /\
      forall k v, data !! k = Some v -> v = str (offset + Z.of_nat k)
  | FsPop => True
  end.

Definition op_covers (b : Z) (o : fs_op) : Prop :=
  match o with FsPush data offset _ => offset <= b < offset + blen data | FsPop => False end.

Definition op_cb (o : fs_op) : list nat := match o with FsPush _ _ cb => opt_list cb | FsPop => [] end.

(** The state after a run of the operations [os]. *)
Record fs_sound (str : Z -> Z) (os : list fs_op) (st : fs_state) : Prop := {
  ss_inv : fs_inv (fssSorter st);
  ss_bytes : forall b v, byte_at (fssSorter st) b v -> v = str b;
  ss_gaps : forall b, 0 <= b < MaxByteCount -> in_gap (fsGaps (fssSorter st)) b <-> ~ Exists (op_covers b) os;
  ss_out : fssOut st = str <$> seqZ 0 (fsReadPos (fssSorter st));
  ss_cbs : callbacks (fssSorter st) ++ fssCbs st ≡ₚ mjoin (op_cb <$> os)
}.

Lemma str_slice (str : Z -> Z) (d : bytes) r :
  (forall k v, d !! k = Some v -> v = str (r + Z.of_nat k)) -> d = str <$> seqZ r (blen d).
Proof.
  intros Hd. apply list_eq. intros k. rewrite list_lookup_fmap.
  destruct (d !! k) as [v|] eqn:Ek.
  - rewrite lookup_seqZ_lt; [cbn; f_equal; by apply Hd|]. apply lookup_lt_Some in Ek. unfold blen. lia.
  - rewrite lookup_seqZ_ge; [done|]. apply lookup_ge_None in Ek. unfold blen. lia.
Qed.

Lemma fs_do_sound str os st o :
  fs_sound str os st -> op_ok str o ->
  match fs_do st o with
  | Ok st' => fs_sound str (os ++ [o]) st'
  | Err e => e = errTooManyGaps
  | Panic _ => False
  end.
Proof.
  intros [Hi Hb Hg Ho Hc] Hok. destruct o as [data offset cb|]; cbn [fs_do].
  - destruct Hok as (H0 & Hm & Hd). pose proof (wp_Push (fssSorter st) data offset cb Hi H0 Hm) as Hp.
    unfold wp in Hp. destruct (Push _ _ _ _) as [[[]|e|m] s']; [|by destruct Hp|done].
    destruct Hp as (Hi' & Hr & Hg' & Hb' & Hc'). constructor; cbn [fssSorter fssOut fssCbs]; [done|..].
    + intros b v [?|[Hle Hv]]%Hb'; [by apply Hb|]. apply Hd in Hv. rewrite Hv. f_equal. lia.
    + intros b Hbr. rewrite Hg', Hg, Exists_app, Exists_cons, Exists_nil by done. cbn. tauto.
    + by rewrite Ho, Hr.
    + rewrite Hc', <- app_assoc, Hc, fmap_app, join_app. cbn. rewrite app_nil_r. apply Permutation_app_comm.
  - pose proof (wp_Pop (fssSorter st) Hi) as Hp. unfold wp in Hp.
    destruct (Pop _) as [[[[off d] cb]|e|m] s']; [|done|done].
    destruct Hp as (Hi' & Hoff & Hg' & Hrest). cbn in Hrest.
    assert (Hgaps : forall b, 0 <= b < MaxByteCount ->
      in_gap (fsGaps s') b <-> ~ Exists (op_covers b) (os ++ [FsPop])).
    { intros b Hbr. rewrite Hg', Hg, Exists_app, Exists_cons, Exists_nil by done. cbn. tauto. }
    destruct d as [d|]; cbn [default].
    + destruct Hrest as (Hne & Hr & Hd & Hb' & Hc'). constructor; cbn [fssSorter fssOut fssCbs]; try done.
      * intros b v Hv. by apply Hb, Hb'.
      * rewrite Hr, Ho. pose proof (fi_read _ Hi). pose proof (blen_nonneg d).
        rewrite seqZ_app, fmap_app by lia. f_equal. replace (0 + fsReadPos (fssSorter st)) with (fsReadPos (fssSorter st)) by lia.
        apply str_slice. intros k v Hk. by apply Hb, Hd.
      * rewrite fmap_app, join_app. cbn. rewrite app_nil_r, <- Hc, Hc'.
        rewrite (Permutation_app_comm (fssCbs st)), app_assoc. by rewrite (Permutation_app_comm (callbacks s')).
    + destruct Hrest as (-> & -> & Hin). rewrite app_nil_r. constructor; cbn [fssSorter fssOut fssCbs]; try done.
      rewrite fmap_app, join_app. cbn. by rewrite !app_nil_r.
Qed.

Lemma fs_run_sound str : forall os' os st,
  fs_sound str os st -> Forall (op_ok str) os' ->
  match fs_run st os' with
  | Ok st' => fs_sound str (os ++ os') st'
  | Err e => e = errTooManyGaps
  | Panic _ => False
  end.
Proof.
  induction os' as [|o os' IH]; intros os st Hs Hok; cbn [fs_run]; [by rewrite app_nil_r|].
  apply Forall_cons in Hok as [Ho Hok]. pose proof (fs_do_sound _ _ _ _ Hs Ho) as Hd.
  unfold mbind, res_bind. destruct (fs_do st o) as [st'|e|m]; [|done|done].
  specialize (IH _ _ Hd Hok). by rewrite <- app_assoc in IH.
Qed.

Lemma new_sound str : fs_sound str [] (mkFsState newFrameSorter [] []).
Proof.
  constructor; cbn [fssSorter fssOut fssCbs]; [apply newFrameSorter_inv| | |done|done].
  - intros b v (off & e & He & _). cbn in He. by rewrite lookup_empty in He.
  - intros b Hb. rewrite Exists_nil. unfold newFrameSorter. cbn. rewrite in_gap_cons. cbn. tauto.
Qed.

(** C12: The frame sorter reassembles the stream.  Whatever frames of a
    stream arrive, in any order, overlapping and repeated, and whenever the
    reader pops data: unless there are more than [MaxStreamFrameSorterGaps] gaps,
    no operation fails or panics; the bytes popped are exactly the first
    [readPos] bytes of the stream; a byte is missing exactly if no frame carried
    it, and [Pop] returns nothing exactly if the next byte is missing; and every
    callback is accounted for once, as called, handed to the reader or still
    queued (no buffer is released twice or lost). *)
Theorem frame_sorter_reassembles str os :
  Forall (op_ok str) os ->
  match fs_run (mkFsState newFrameSorter [] []) os with
  | Ok st =>
      let s := fssSorter st in
      fssOut st = str <$> seqZ 0 (fsReadPos s) /\
      (forall b, 0 <= b < MaxByteCount -> in_gap (fsGaps s) b <-> ~ Exists (op_covers b) os) /\
      ((exists r s', Pop s = (Ok (r, None, None), s')) <-> in_gap (fsGaps s) (fsReadPos s)) /\
      fsCalled s ++ pending (fsQueue s) ++ fssCbs st ≡ₚ mjoin (op_cb <$> os)
  | Err e => e = errTooManyGaps
  | Panic _ => False
  end.
Proof.
  intros Hok. pose proof (fs_run_sound str os [] _ (new_sound str) Hok) as Hr.
  destruct (fs_run _ os) as [st|e|m]; [|done|done]. destruct Hr as [Hi Hb Hg Ho Hc].
  split; [done|]. split; [done|]. split; [|by rewrite app_assoc].
  pose proof (wp_Pop (fssSorter st) Hi) as Hp. unfold wp in Hp.
  destruct (Pop (fssSorter st)) as [[[[r d] cb]|e|m] s']; [|done|done].
  destruct Hp as (_ & _ & _ & Hd). cbn in Hd. destruct d as [d|].
  - split; [by intros (? & ? & [=])|]. intros Hin. destruct Hd as (Hne & _ & Hd & _).
    destruct d as [|x d]; [done|]. destruct (Hd 0%nat x eq_refl) as (off & e & He & Hle & Hx).
    replace (fsReadPos (fssSorter st) + Z.of_nat 0) with (fsReadPos (fssSorter st)) in * by lia.
    destruct (fi_entry _ Hi _ _ He) as (_ & _ & Hn). exfalso. apply (Hn (fsReadPos (fssSorter st))); [|done].
    apply lookup_lt_Some in Hx. unfold elen, blen. lia.
  - destruct Hd as (-> & -> & Hin). split; [done|]. intros _. by eexists _, _.
Qed.

(** Three frames, the second one first: overlapping, one of them a duplicate. *)
Lemma frame_sorter_reassembles_witness :
  match fs_run (mkFsState newFrameSorter [] [])
          [FsPush [3; 4; 5] 3 (Some 1%nat); FsPop; FsPush [0; 1; 2; 3] 0 (Some 2%nat);
           FsPush [1; 2] 1 (Some 3%nat); FsPop; FsPop; FsPop] with
  | Ok st => fssOut st = [0; 1; 2; 3; 4; 5]
  | _ => False
  end.
Proof.
  pose proof (frame_sorter_reassembles (fun b => b)
    [FsPush [3; 4; 5] 3 (Some 1%nat); FsPop; FsPush [0; 1; 2; 3] 0 (Some 2%nat);
     FsPush [1; 2] 1 (Some 3%nat); FsPop; FsPop; FsPop]) as Hr.
  destruct (fs_run _ _) as [st|e|m] eqn:E; vm_compute in E; [|discriminate..].
  destruct Hr as [Hr _].
  { repeat apply Forall_cons_2; try exact I; [..|apply Forall_nil_2];
      (split; [vm_compute; discriminate|]; split; [vm_compute; reflexivity|]); intros k v Hk;
      repeat (destruct k as [|k]; [injection Hk as <-; reflexivity|]); discriminate. }
  rewrite Hr. injection E as <-. vm_compute. reflexivity.
Defined.
