(* ===== verification/ReceiveStream.v ===== *)
(** * ReceiveStream: the receiving side of a stream

    Models receive_stream.go on the frame sorter of FrameSorter.v.  The flow
    controller is an interface, the class [StreamFlow]; the laws the stream
    relies on are the class [StreamFlowLaws], and FlowControl.v provides the
    instance.  A call of [Read] runs until it returns or waits on [readChan];
    [readResume] is the rest of a waiting call once it was woken up.  The calls
    of the [streamSender] are a list of events; [time.Now()] is the argument
    [now].  The frame's [PutBack] is the callback of the frame sorter. *)

From S2P Require Import Prelude Protocol Frames GoFloat RTTStats FlowControl FrameSorter FrameSorterProofs.
From stdpp Require Import base numbers list option strings gmap fin_maps sorting.
From Stdlib Require Import ZArith Lia.
#[local] Open Scope Z_scope.
#[local] Set Warnings "-clear-no-such-hyp".

(** ** The flow controller of a stream *)

Class StreamFlow (F : Type) := {
  sfc_UpdateHighestReceived : Z -> bool -> stM F unit;
  sfc_AddBytesRead : Z -> Z -> stM F unit;
  sfc_Abandon : Z -> stM F unit;
  sfc_GetWindowUpdate : RTTStats -> Z -> stM F Z
}.

(** What a stream relies on.  [sfc_live]: the unread bytes have not been given
    back to the connection yet. *)
Class StreamFlowLaws (F : Type) `{StreamFlow F} := {
  sfc_ok : F -> Prop;
  sfc_live : F -> Prop;
  sfc_highest : F -> Z;
  sfc_read : F -> Z;
  sfc_final : F -> bool;
  sfc_bounds f : sfc_ok f -> 0 <= sfc_read f <= sfc_highest f /\ sfc_highest f < MaxByteCount;
  sfc_update f offset final : sfc_ok f -> 0 <= offset <= MaxByteCount ->
    wp (sfc_UpdateHighestReceived offset final)
      (fun _ f' => sfc_ok f' /\ (sfc_live f -> sfc_live f') /\
         sfc_highest f' = Z.max (sfc_highest f) offset /\ sfc_read f' = sfc_read f /\
         sfc_final f' = sfc_final f || final /\
         (sfc_final f = true -> offset <= sfc_highest f) /\
         (final = true -> offset = sfc_highest f'))
      (fun _ _ => True) f;
  sfc_add f n now : sfc_ok f -> sfc_live f -> 0 <= n <= sfc_highest f - sfc_read f ->
    wp (sfc_AddBytesRead n now)
      (fun _ f' => sfc_ok f' /\ sfc_live f' /\ sfc_highest f' = sfc_highest f /\
         sfc_read f' = sfc_read f + n /\ sfc_final f' = sfc_final f)
      (fun _ _ => False) f;
  sfc_abandon f now : sfc_ok f -> sfc_live f ->
    wp (sfc_Abandon now)
      (fun _ f' => sfc_ok f' /\ sfc_highest f' = sfc_highest f /\
         sfc_read f' = sfc_read f /\ sfc_final f' = sfc_final f)
      (fun _ _ => False) f
}.

(** ** Data *)

Inductive rx_event :=
  | StreamCompleted (id : Z)
  | QueuedStopSending (f : StopSendingFrame).

(** The errors [Read] returns. *)
Inductive read_err :=
  | ReadEOF
  | ReadStreamError (streamID errorCode : Z) (remote : bool)
  | ReadShutdown (e : GoError)
  | ReadDeadline
  | ReadBUG (msg : string).

Record receiveStream (F : Type) := mkRx {
  rxStreamID : Z;
  rxQueue : frameSorter;
  rxFinalOffset : Z;
  rxCurrentFrame : option bytes;
  rxCurrentDone : option nat;
  rxReadPosInFrame : Z;
  rxCurrentIsLast : bool;
  rxFinRead : bool;
  rxShutdownErr : option GoError;
  rxCancelErr : option Z;
  rxResetErr : option Z;
  rxReadChan : bool;          (* a wake-up is in the channel *)
  rxDeadline : Z;
  rxFlow : F;
  rxEvents : list rx_event
}.
Arguments mkRx {_}. Arguments rxStreamID {_}. Arguments rxQueue {_}. Arguments rxFinalOffset {_}.
Arguments rxCurrentFrame {_}. Arguments rxCurrentDone {_}. Arguments rxReadPosInFrame {_}.
Arguments rxCurrentIsLast {_}. Arguments rxFinRead {_}. Arguments rxShutdownErr {_}.
Arguments rxCancelErr {_}. Arguments rxResetErr {_}. Arguments rxReadChan {_}. Arguments rxDeadline {_}.
Arguments rxFlow {_}. Arguments rxEvents {_}.

Section model.
Context {F : Type} `{StreamFlow F}.
Implicit Types s : receiveStream F.

Definition newReceiveStream (streamID : Z) (flowController : F) : receiveStream F :=
  mkRx streamID newFrameSorter MaxByteCount None None 0 false false None None None false 0 flowController [].

Definition x_queue q s : receiveStream F :=
  mkRx (rxStreamID s) q (rxFinalOffset s) (rxCurrentFrame s) (rxCurrentDone s) (rxReadPosInFrame s)
    (rxCurrentIsLast s) (rxFinRead s) (rxShutdownErr s) (rxCancelErr s) (rxResetErr s) (rxReadChan s)
    (rxDeadline s) (rxFlow s) (rxEvents s).
Definition x_finalOffset v s : receiveStream F :=
  mkRx (rxStreamID s) (rxQueue s) v (rxCurrentFrame s) (rxCurrentDone s) (rxReadPosInFrame s)
    (rxCurrentIsLast s) (rxFinRead s) (rxShutdownErr s) (rxCancelErr s) (rxResetErr s) (rxReadChan s)
    (rxDeadline s) (rxFlow s) (rxEvents s).
Definition x_current d cb pos isLast s : receiveStream F :=
  mkRx (rxStreamID s) (rxQueue s) (rxFinalOffset s) d cb pos isLast (rxFinRead s) (rxShutdownErr s)
    (rxCancelErr s) (rxResetErr s) (rxReadChan s) (rxDeadline s) (rxFlow s) (rxEvents s).
Definition x_finRead v s : receiveStream F :=
  mkRx (rxStreamID s) (rxQueue s) (rxFinalOffset s) (rxCurrentFrame s) (rxCurrentDone s) (rxReadPosInFrame s)
    (rxCurrentIsLast s) v (rxShutdownErr s) (rxCancelErr s) (rxResetErr s) (rxReadChan s)
    (rxDeadline s) (rxFlow s) (rxEvents s).
Definition x_errs shutdown cancel reset s : receiveStream F :=
  mkRx (rxStreamID s) (rxQueue s) (rxFinalOffset s) (rxCurrentFrame s) (rxCurrentDone s) (rxReadPosInFrame s)
    (rxCurrentIsLast s) (rxFinRead s) shutdown cancel reset (rxReadChan s)
    (rxDeadline s) (rxFlow s) (rxEvents s).
Definition x_chan v s : receiveStream F :=
  mkRx (rxStreamID s) (rxQueue s) (rxFinalOffset s) (rxCurrentFrame s) (rxCurrentDone s) (rxReadPosInFrame s)
    (rxCurrentIsLast s) (rxFinRead s) (rxShutdownErr s) (rxCancelErr s) (rxResetErr s) v
    (rxDeadline s) (rxFlow s) (rxEvents s).
Definition x_deadline v s : receiveStream F :=
  mkRx (rxStreamID s) (rxQueue s) (rxFinalOffset s) (rxCurrentFrame s) (rxCurrentDone s) (rxReadPosInFrame s)
    (rxCurrentIsLast s) (rxFinRead s) (rxShutdownErr s) (rxCancelErr s) (rxResetErr s) (rxReadChan s)
    v (rxFlow s) (rxEvents s).
Definition x_flow v s : receiveStream F :=
  mkRx (rxStreamID s) (rxQueue s) (rxFinalOffset s) (rxCurrentFrame s) (rxCurrentDone s) (rxReadPosInFrame s)
    (rxCurrentIsLast s) (rxFinRead s) (rxShutdownErr s) (rxCancelErr s) (rxResetErr s) (rxReadChan s)
    (rxDeadline s) v (rxEvents s).
Definition x_event e s : receiveStream F :=
  mkRx (rxStreamID s) (rxQueue s) (rxFinalOffset s) (rxCurrentFrame s) (rxCurrentDone s) (rxReadPosInFrame s)
    (rxCurrentIsLast s) (rxFinRead s) (rxShutdownErr s) (rxCancelErr s) (rxResetErr s) (rxReadChan s)
    (rxDeadline s) (rxFlow s) (rxEvents s ++ [e]).

Abbreviation rxM := (stM (receiveStream F)).

Definition onQueue {T} (m : fsM T) : rxM T := fun s => let '(r, q) := m (rxQueue s) in (r, x_queue q s).
Definition onFlow {T} (m : stM F T) : rxM T := fun s => let '(r, f) := m (rxFlow s) in (r, x_flow f s).

(** ** Operations *)

(** A non-blocking send on a channel of capacity 1. *)
Definition signalRead : rxM unit := modify (x_chan true).

Definition frame_len (d : option bytes) : Z := blen (default [] d).

Definition dequeueNextFrame : rxM unit :=
  s ← get;
  _ ← onQueue (callDone (rxCurrentDone s));
  '(offset, frame, frameDone) ← onQueue Pop;
  modify (fun s => x_current frame frameDone 0 (rxFinalOffset s <=? i64 (offset + frame_len frame)) s).

(** The result of running [readImpl] until it returns or waits: whether the
    stream is completed, the bytes copied into [p], the error. *)
Inductive read_result :=
  | ReadReturns (completed : bool) (data : bytes) (err : option read_err)
  | ReadBlocks.

Definition localErr s (code : Z) (remote : bool) : option read_err :=
  Some (ReadStreamError (rxStreamID s) code remote).

(** The errors that end the inner loop, in the order of its tests. *)
Definition waitErr s (now : Z) : option read_err :=
  match rxShutdownErr s, rxCancelErr s, rxResetErr s with
  | Some e, _, _ => Some (ReadShutdown e)
  | _, Some c, _ => localErr s c false
  | _, _, Some c => localErr s c true
  | None, None, None =>
      if negb (Time_IsZero (rxDeadline s)) && negb (Time_Before now (rxDeadline s))
      then Some ReadDeadline else None
  end.

(** From the inner loop on: [rest] is the next round of the outer loop. *)
Definition readInner (plen : Z) (acc : bytes) (now : Z) (rest : bytes -> rxM read_result) : rxM read_result :=
  s ← get;
  match waitErr s now with
  | Some e => mret (ReadReturns false acc (Some e))
  | None =>
      if negb (bool_decide (is_Some (rxCurrentFrame s))) && negb (rxCurrentIsLast s) then mret ReadBlocks
      else
        let cur := default [] (rxCurrentFrame s) in
        if plen <? blen acc then mret (ReadReturns false acc (Some (ReadBUG "bytesRead > len(p)")))
        else if blen cur <? rxReadPosInFrame s then
          mret (ReadReturns false acc (Some (ReadBUG "readPosInFrame > frame.DataLen")))
        else
          let m := Z.min (plen - blen acc) (blen cur - rxReadPosInFrame s) in
          let acc := acc ++ take (Z.to_nat m) (drop (Z.to_nat (rxReadPosInFrame s)) cur) in
          _ ← modify (fun s => x_current (rxCurrentFrame s) (rxCurrentDone s) (rxReadPosInFrame s + m)
                                 (rxCurrentIsLast s) s);
          _ ← (if bool_decide (rxResetErr s = None) then onFlow (sfc_AddBytesRead m now) else mret tt);
          s ← get;
          if (blen cur <=? rxReadPosInFrame s) && rxCurrentIsLast s then
            _ ← modify (x_finRead true);
            _ ← modify (fun s => x_current None (rxCurrentDone s) (rxReadPosInFrame s) (rxCurrentIsLast s) s);
            _ ← onQueue (callDone (rxCurrentDone s));
            mret (ReadReturns true acc (Some ReadEOF))
          else rest acc
  end.

Fixpoint readLoop (fuel : nat) (plen now : Z) (acc : bytes) : rxM read_result :=
  if blen acc <? plen then
    match fuel with
    | O => lift (Panic "out of fuel")
    | S fuel' =>
        s ← get;
        _ ← (if negb (bool_decide (is_Some (rxCurrentFrame s)))
                || (frame_len (rxCurrentFrame s) <=? rxReadPosInFrame s)
             then dequeueNextFrame else mret tt);
        s ← get;
        if negb (bool_decide (is_Some (rxCurrentFrame s))) && (0 <? blen acc)
        then mret (ReadReturns false acc (ReadShutdown <$> rxShutdownErr s))
        else readInner plen acc now (readLoop fuel' plen now)
    end
  else mret (ReadReturns false acc None).

Definition readImpl (plen now : Z) : rxM read_result :=
  s ← get;
  if rxFinRead s then mret (ReadReturns false [] (Some ReadEOF))
  else match rxCancelErr s, rxResetErr s, rxShutdownErr s with
  | Some c, _, _ => mret (ReadReturns false [] (localErr s c false))
  | _, Some c, _ => mret (ReadReturns false [] (localErr s c true))
  | _, _, Some e => mret (ReadReturns false [] (Some (ReadShutdown e)))
  | None, None, None => readLoop (S (Z.to_nat plen)) plen now []
  end.

(** A waiting [readImpl] was woken up, by the deadline timer or through the
    channel: it has not copied any bytes yet. *)
Definition readResume (plen now : Z) (timer : bool) : rxM read_result :=
  _ ← (if timer then mret tt else modify (x_chan false));
  s ← get;
  _ ← (if negb (bool_decide (is_Some (rxCurrentFrame s))) then dequeueNextFrame else mret tt);
  readInner plen [] now (readLoop (S (Z.to_nat plen)) plen now).

(** [Read], around one of the two: *)
Definition finishRead (m : rxM read_result) : rxM read_result :=
  r ← m;
  _ ← (match r with
       | ReadReturns true _ _ => modify (fun s => x_event (StreamCompleted (rxStreamID s)) s)
       | _ => mret tt
       end);
  mret r.

Definition Read (plen now : Z) : rxM read_result := finishRead (readImpl plen now).
Definition ReadResume (plen now : Z) (timer : bool) : rxM read_result := finishRead (readResume plen now timer).

(** [if completed { Abandon; onStreamCompleted }] *)
Definition completeStream (completed : bool) (now : Z) : rxM unit :=
  if completed then
    _ ← onFlow (sfc_Abandon now);
    modify (fun s => x_event (StreamCompleted (rxStreamID s)) s)
  else mret tt.

Definition cancelReadImpl (errorCode : Z) : rxM bool :=
  s ← get;
  if rxFinRead s || bool_decide (is_Some (rxCancelErr s)) || bool_decide (is_Some (rxResetErr s))
  then mret false
  else
    _ ← modify (fun s => x_errs (rxShutdownErr s) (Some errorCode) (rxResetErr s) s);
    _ ← signalRead;
    _ ← modify (fun s => x_event (QueuedStopSending (mkStopSending (rxStreamID s) errorCode)) s);
    s ← get;
    mret (negb (rxFinalOffset s =? MaxByteCount)).

Definition CancelRead (errorCode now : Z) : rxM unit :=
  completed ← cancelReadImpl errorCode; completeStream completed now.

Definition handleStreamFrameImpl (frame : StreamFrame) (putBack : option nat) : rxM bool :=
  let maxOffset := i64 (sfOffset frame + sfDataLen frame) in
  _ ← onFlow (sfc_UpdateHighestReceived maxOffset (sfFin frame));
  s ← get;
  let newlyRcvdFinalOffset := sfFin frame && (rxFinalOffset s =? MaxByteCount) in
  _ ← (if sfFin frame then modify (x_finalOffset maxOffset) else mret tt);
  s ← get;
  if bool_decide (is_Some (rxCancelErr s)) then mret newlyRcvdFinalOffset
  else
    _ ← onQueue (Push (sfData frame) (sfOffset frame) putBack);
    _ ← signalRead;
    mret false.

Definition handleStreamFrame (frame : StreamFrame) (putBack : option nat) (now : Z) : rxM unit :=
  completed ← handleStreamFrameImpl frame putBack; completeStream completed now.

Definition handleResetStreamFrameImpl (frame : ResetStreamFrame) : rxM bool :=
  s ← get;
  if bool_decide (is_Some (rxShutdownErr s)) then mret false
  else
    _ ← onFlow (sfc_UpdateHighestReceived (rsFinalSize frame) true);
    s ← get;
    let newlyRcvdFinalOffset := rxFinalOffset s =? MaxByteCount in
    _ ← modify (x_finalOffset (rsFinalSize frame));
    if bool_decide (is_Some (rxResetErr s)) then mret false
    else
      _ ← modify (fun s => x_errs (rxShutdownErr s) (rxCancelErr s) (Some (rsErrorCode frame)) s);
      _ ← signalRead;
      mret newlyRcvdFinalOffset.

Definition handleResetStreamFrame (frame : ResetStreamFrame) (now : Z) : rxM unit :=
  completed ← handleResetStreamFrameImpl frame; completeStream completed now.

(** The error of [handleStreamFrame] is ignored. *)
Definition CloseRemote (offset now : Z) : rxM unit := fun s =>
  match handleStreamFrame (mkStream 0 offset [] true false) None now s with
  | (Panic m, s') => (Panic m, s')
  | (_, s') => (Ok tt, s')
  end.

Definition SetReadDeadline (t : Z) : rxM unit := _ ← modify (x_deadline t); signalRead.

Definition closeForShutdown (err : GoError) : rxM unit :=
  _ ← modify (fun s => x_errs (Some err) (rxCancelErr s) (rxResetErr s) s); signalRead.

Definition rx_getWindowUpdate (r : RTTStats) (now : Z) : rxM Z := onFlow (sfc_GetWindowUpdate r now).
End model.
Abbreviation rxM F := (stM (receiveStream F)).
