(* ===== verification/ReceiveStreamProofs.v ===== *)
(** * ReceiveStreamProofs: a reader gets exactly the stream

    The flow controllers of FlowControl.v satisfy the laws of [StreamFlow]; on
    any flow controller that does, [Read] returns the bytes of the stream in
    order, [io.EOF] exactly at the final size, and the stream is reported as
    completed at most once. *)

From S2P Require Import Prelude Protocol Frames GoFloat RTTStats FlowControl FrameSorter FrameSorterProofs.
From S2P Require Import ReceiveStream.
From stdpp Require Import base numbers list option strings gmap fin_maps sorting.
From Stdlib Require Import ZArith Lia.
#[local] Open Scope Z_scope.
#[local] Set Warnings "-clear-no-such-hyp".

(** ** The flow controllers as an instance *)

#[export] Instance fc_StreamFlow : StreamFlow (streamFlowController * connectionFlowController) := {
  sfc_UpdateHighestReceived := UpdateHighestReceived;
  sfc_AddBytesRead := str_AddBytesRead;
  sfc_Abandon := Abandon;
  sfc_GetWindowUpdate := str_GetWindowUpdate
}.

Definition fc_ok (sc : streamFlowController * connectionFlowController) : Prop :=
  base_ok (strBase sc.1) /\ base_ok (connBase sc.2) /\
  receiveWindow (strBase sc.1) < 2 ^ 61 /\ receiveWindow (connBase sc.2) < 2 ^ 61.

Definition fc_live (sc : streamFlowController * connectionFlowController) : Prop :=
  unread (strBase sc.1) <= unread (connBase sc.2).

Lemma fc_addBytesRead_keeps n now b :
  highestReceived (fc_addBytesRead n now b) = highestReceived b /\
  receiveWindow (fc_addBytesRead n now b) = receiveWindow b.
Proof. unfold fc_addBytesRead. by destruct (bytesRead b =? 0). Qed.

Lemma conn_AddBytesRead_keeps n now c :
  highestReceived (connBase (conn_AddBytesRead n now c)) = highestReceived (connBase c) /\
  receiveWindow (connBase (conn_AddBytesRead n now c)) = receiveWindow (connBase c).
Proof. unfold conn_AddBytesRead. destruct (hasWindowUpdate _); apply fc_addBytesRead_keeps. Qed.

Definition windows_same (sc sc' : streamFlowController * connectionFlowController) : Prop :=
  receivedFinalOffset sc'.1 = receivedFinalOffset sc.1 /\
  highestReceived (strBase sc'.1) = highestReceived (strBase sc.1) /\
  receiveWindow (strBase sc'.1) = receiveWindow (strBase sc.1) /\
  highestReceived (connBase sc'.2) = highestReceived (connBase sc.2) /\
  receiveWindow (connBase sc'.2) = receiveWindow (connBase sc.2).

Lemma str_AddBytesRead_keeps n now sc : windows_same sc (str_AddBytesRead n now sc).2.
Proof.
  unfold windows_same. destruct sc as [s c]. unfold str_AddBytesRead, mbind, stM_bind, get, modifyStream, modifyConn, modify.
  cbn -[fc_addBytesRead conn_AddBytesRead shouldQueueWindowUpdate].
  pose proof (fc_addBytesRead_keeps n now (strBase s)) as [H1 H2].
  destruct (shouldQueueWindowUpdate _); cbn -[fc_addBytesRead conn_AddBytesRead];
    rewrite ?(proj1 (conn_AddBytesRead_keeps _ _ _)), ?(proj2 (conn_AddBytesRead_keeps _ _ _)); done.
Qed.

Lemma Abandon_keeps now sc : windows_same sc (Abandon now sc).2 /\ (Abandon now sc).2.1 = sc.1.
Proof.
  unfold windows_same. destruct sc as [s c]. unfold Abandon, mbind, stM_bind, get, modifyConn, modify.
  cbn -[conn_AddBytesRead Z.ltb i64].
  destruct (0 <? _); [|done]. cbn -[conn_AddBytesRead i64]. by rewrite (proj1 (conn_AddBytesRead_keeps _ _ _)), (proj2 (conn_AddBytesRead_keeps _ _ _)).
Qed.

Lemma wp_and_keeps {S A} (m : stM S A) (Q : A -> S -> Prop) E s (K : S -> Prop) :
  wp m Q E s -> K (m s).2 -> wp m (fun a s' => Q a s' /\ K s') E s.
Proof. unfold wp. by destruct (m s) as [[] s']. Qed.

#[export] Program Instance fc_StreamFlowLaws :
    StreamFlowLaws (streamFlowController * connectionFlowController) := {
  sfc_ok := fc_ok;
  sfc_live := fc_live;
  sfc_highest sc := highestReceived (strBase sc.1);
  sfc_read sc := bytesRead (strBase sc.1);
  sfc_final sc := receivedFinalOffset sc.1
}.
Next Obligation. intros [s c] ((Hb & Hw & _) & _ & Hr & _). cbn in *. unfold MaxByteCount. lia. Qed.
Next Obligation.
  intros [s c] offset final (Hs & Hc & Hw & Hwc) Ho. unfold MaxByteCount in Ho. cbn in Hs, Hc, Hw, Hwc.
  eapply wp_mono; [| |apply (wp_UpdateHighestReceived s c offset final Hs Hc ltac:(lia))]; [|done].
  intros _ [s' c'] (Hfin & Hfit & E1 & E2 & Hs' & Hc'). cbn [fst snd] in *. subst s' c'. cbn.
  unfold final_ok in Hfin. split; [split_and!; done|]. split.
  { unfold fc_live, unread. cbn. lia. }
  split; [lia|]. split; [done|]. split; [done|]. destruct (receivedFinalOffset s), final; cbn in *; split; lia || (intros; lia).
Qed.
Next Obligation.
  intros [s c] n now (Hs & Hc & Hw & Hwc) Hl Hn. unfold fc_live, unread in Hl. cbn in *.
  pose proof (str_AddBytesRead_keeps n now (s, c)) as Hk.
  pose proof Hs as (Hs1 & Hs2 & _). pose proof Hc as (Hc1 & Hc2 & _).
  eapply wp_mono; [| |eapply (wp_and_keeps _ _ _ _ (windows_same (s, c))); [apply (wp_str_AddBytesRead s c n now (fun _ _ => False)); unfold unread; try done; lia|exact Hk]];
    [|done].
  intros _ [s' c'] ((M1 & M2 & M3 & M4 & _) & K1 & K2 & K3 & K4 & K5). unfold unread in M3, M4. cbn in *.
  split; [split_and!; try done; cbn; lia|]. split; [unfold fc_live, unread; cbn; lia|].
  split; [done|]. split; [lia|done].
Qed.
Next Obligation.
  intros [s c] now (Hs & Hc & Hw & Hwc) Hl. unfold fc_live, unread in Hl. cbn in *.
  pose proof (Abandon_keeps now (s, c)) as [Hk Hk'].
  pose proof Hs as (Hs1 & Hs2 & _). pose proof Hc as (Hc1 & Hc2 & _).
  eapply wp_mono; [| |eapply (wp_and_keeps _ _ _ _ (fun sc => windows_same (s, c) sc /\ sc.1 = s)); [apply (wp_Abandon s c now (fun _ _ => False)); unfold unread; try done; lia|done]];
    [|done].
  intros _ [s' c'] ((M1 & M2 & M3 & M4 & _) & (K1 & K2 & K3 & K4 & K5) & E). unfold unread in M3, M4. cbn in *. subst s'.
  split; [split_and!; try done; cbn; lia|]. done.
Qed.

(** ** The invariant *)

Section proofs.
Context {F : Type} `{HF : StreamFlow F} {HL : StreamFlowLaws F}.
Context (str : Z -> Z).
Implicit Types s : receiveStream F.

Section fixed.
(** The bytes carried by the frames received so far. *)
Context (cov : Z -> Prop).

(** The bytes of the current frame that were not copied yet. *)
Definition rx_rem s : bytes := drop (Z.to_nat (rxReadPosInFrame s)) (default [] (rxCurrentFrame s)).

(** The stream, after the bytes [out] were read. *)
Record rx_core (out : bytes) s : Prop := {
  rc_queue : fs_inv (rxQueue s);
  rc_bytes : forall b v, byte_at (rxQueue s) b v -> v = str b;
  rc_cov : rxCancelErr s = None ->
    forall b, 0 <= b < MaxByteCount -> in_gap (fsGaps (rxQueue s)) b -> ~ cov b;
  rc_got : forall b, 0 <= b < MaxByteCount -> ~ in_gap (fsGaps (rxQueue s)) b -> cov b;
  rc_high : forall b, 0 <= b < MaxByteCount -> ~ in_gap (fsGaps (rxQueue s)) b -> b < sfc_highest (rxFlow s);
  rc_out : out ++ rx_rem s = str <$> seqZ 0 (fsReadPos (rxQueue s));
  rc_pos : 0 <= rxReadPosInFrame s <= frame_len (rxCurrentFrame s) \/ rxFinRead s = true;
  rc_flow : sfc_ok (rxFlow s);
  rc_read : sfc_read (rxFlow s) = blen out;
  rc_final : if sfc_final (rxFlow s) then rxFinalOffset s = sfc_highest (rxFlow s)
             else rxFinalOffset s = MaxByteCount;
  rc_last : rxCurrentIsLast s = true ->
    sfc_final (rxFlow s) = true /\ fsReadPos (rxQueue s) = sfc_highest (rxFlow s);
  rc_fin : rxFinRead s = true -> sfc_final (rxFlow s) = true /\ blen out = sfc_highest (rxFlow s)
}.

Definition is_completion (e : rx_event) : bool := match e with StreamCompleted _ => true | _ => false end.
Definition completions s : list rx_event := filter is_completion (rxEvents s).

(** The stream is reported as completed at most once, and only if it is. *)
Record rx_once s : Prop := {
  ro_live : completions s = [] -> sfc_live (rxFlow s);
  ro_once : completions s = [] \/
    (length (completions s) = 1%nat /\
     (rxFinRead s = true \/
      ((is_Some (rxCancelErr s) \/ is_Some (rxResetErr s)) /\ rxFinalOffset s <> MaxByteCount)))
}.

Definition open_for_reading s : Prop :=
  rxFinRead s = false /\ rxCancelErr s = None /\ rxResetErr s = None.

Lemma open_live s : rx_once s -> open_for_reading s -> sfc_live (rxFlow s).
Proof.
  intros [Hl Ho] (H1 & H2 & H3). apply Hl. destruct Ho as [?|[_ [Hf|[[[? Hc]|[? Hr]] _]]]]; congruence.
Qed.

(** A byte before the read position is not missing. *)
Lemma read_not_missing out s b :
  rx_core out s -> 0 <= b < fsReadPos (rxQueue s) ->
  ~ in_gap (fsGaps (rxQueue s)) b /\ fsReadPos (rxQueue s) < MaxByteCount.
Proof.
  intros Hc Hb. pose proof (rc_queue _ _ Hc) as Hi. split.
  - intros (g & Hg & Hin). pose proof (gap_each _ g Hi Hg). lia.
  - destruct (gaps_nonempty _ Hi) as (g & gs & E). pose proof (gap_each _ g Hi ltac:(rewrite E; by left)). lia.
Qed.

(** The read position is bounded by what was received. *)
Lemma readPos_bound out s : rx_core out s -> 0 <= fsReadPos (rxQueue s) <= sfc_highest (rxFlow s).
Proof.
  intros Hc. pose proof (rc_queue _ _ Hc) as Hi. pose proof (fi_read _ Hi) as Hr. split; [done|].
  pose proof (sfc_bounds _ (rc_flow _ _ Hc)) as Hb.
  destruct (Z.le_gt_cases (fsReadPos (rxQueue s)) (sfc_highest (rxFlow s))) as [|Hgt]; [done|].
  destruct (read_not_missing out s (fsReadPos (rxQueue s) - 1) Hc ltac:(lia)) as [Hng Hmax].
  pose proof (rc_high _ _ Hc (fsReadPos (rxQueue s) - 1) ltac:(lia) Hng). lia.
Qed.

(** What a step may leave alone. *)
Definition same_status s s' : Prop :=
  rxStreamID s' = rxStreamID s /\ rxFinalOffset s' = rxFinalOffset s /\ rxFinRead s' = rxFinRead s /\
  rxShutdownErr s' = rxShutdownErr s /\ rxCancelErr s' = rxCancelErr s /\ rxResetErr s' = rxResetErr s /\
  rxDeadline s' = rxDeadline s /\ rxEvents s' = rxEvents s.

Lemma callDone_core out s cb :
  rx_core out s -> exists q', onQueue (callDone cb) s = (Ok tt, x_queue q' s) /\ rx_core out (x_queue q' s).
Proof.
  intros Hc. unfold onQueue, callDone, modify. eexists. split; [reflexivity|].
  destruct Hc as [[]]. destruct cb; constructor; done || by constructor.
Qed.

(** The next frame is nil only if the next byte is missing or the stream ends. *)
Definition at_gap s : Prop :=
  rxCurrentFrame s = None -> in_gap (fsGaps (rxQueue s)) (fsReadPos (rxQueue s)) /\
    rxCurrentIsLast s = (rxFinalOffset s <=? fsReadPos (rxQueue s)).

Lemma wp_dequeue out s E :
  rx_core out s -> rx_rem s = [] -> rxFinRead s = false ->
  wp (dequeueNextFrame (F := F))
    (fun _ s' => rx_core out s' /\ same_status s s' /\ rxFlow s' = rxFlow s /\
       rxReadPosInFrame s' = 0 /\ rxCurrentFrame s' <> Some [] /\ at_gap s') E s.
Proof.
  intros Hc Hrem Hfin. apply wp_bind, wp_get, wp_bind.
  destruct (callDone_core out s (rxCurrentDone s) Hc) as (q & Eq & Hcq). unfold wp at 1. rewrite Eq. clear Eq.
  set (s1 := x_queue q s) in *.
  assert (Hs1 : same_status s s1 /\ rxFlow s1 = rxFlow s /\ rx_rem s1 = []) by done.
  destruct Hs1 as (Hst & Hfl & Hrem1). clearbody s1. clear Hc Hrem.
  apply wp_bind. pose proof (wp_Pop _ (rc_queue _ _ Hcq)) as Hp. unfold wp in Hp |- *. unfold onQueue.
  destruct (Pop (rxQueue s1)) as [[[[off d] cb]|e|m] q']; [|done|done].
  destruct Hp as (Hi' & Hoff & Hg & Hd). cbn in Hoff, Hd. subst off.
  destruct Hst as (T1 & T2 & T3 & T4 & T5 & T6 & T7 & T8).
  pose proof (readPos_bound _ _ Hcq) as Hrp. destruct Hcq as [Hi Hb Hcv Hgot Hh Ho Hpos Hok Hr Hf Hlast Hfinr].
  pose proof (sfc_bounds _ Hok) as Hbd. rewrite Hrem1, app_nil_r in Ho. unfold MaxByteCount in *.
  assert (Hcore : forall isLast,
    (isLast = true -> sfc_final (rxFlow s1) = true /\ fsReadPos q' = sfc_highest (rxFlow s1)) ->
    rx_core out (x_current d cb 0 isLast (x_queue q' s1))).
  { intros isLast Hl. constructor; cbn; try done.
    - intros b v Hbv. destruct d; [|by destruct Hd as (-> & _); apply Hb]. by apply Hb, Hd.
    - intros Hcn b Hb'. rewrite Hg. by apply Hcv.
    - intros b Hb'. rewrite Hg. by apply Hgot.
    - intros b Hb' Hng. apply Hh; [done|]. by rewrite <- Hg.
    - unfold rx_rem. cbn. change (Z.to_nat 0) with 0%nat. rewrite drop_0. destruct d as [d|]; cbn.
      + destruct Hd as (_ & -> & Hd & _). rewrite seqZ_app, fmap_app by (pose proof (blen_nonneg d); lia).
        f_equal; [done|]. replace (0 + fsReadPos (rxQueue s1)) with (fsReadPos (rxQueue s1)) by lia.
        apply str_slice. intros k v Hk. by apply Hb, Hd.
      + destruct Hd as (-> & _). by rewrite app_nil_r.
    - left. unfold frame_len. pose proof (blen_nonneg (default [] d)). lia. }
  assert (Hpos' : fsReadPos q' = fsReadPos (rxQueue s1) + frame_len d).
  { destruct d as [d|]; [apply Hd|]. destruct Hd as (-> & _). change (frame_len None) with 0. lia. }
  pose proof (readPos_bound _ _ (Hcore false ltac:(done))) as Hrp'. cbn in Hrp'.
  rewrite <- Hpos', i64_small by int_range. split; [|split; [|split; [done|split; [done|split]]]].
  - apply Hcore. intros Hle%Z.leb_le. cbn in Hle.
    destruct (sfc_final (rxFlow s1)) eqn:Ef in Hf |- *; [split; [done|lia]|lia].
  - split_and!; done.
  - cbn. destruct d; [|done]. intros [= ->]. by destruct Hd.
  - intros En. cbn in En |- *. subst d. destruct Hd as (-> & _ & Hin). done.
Qed.

(** ** Reading *)

(** A step of [Read], from the state [s0] at its start: only the queue, the
    current frame and the flow controller have changed. *)
Definition reading s0 s : Prop :=
  rxStreamID s = rxStreamID s0 /\ rxFinalOffset s = rxFinalOffset s0 /\
  rxShutdownErr s = rxShutdownErr s0 /\ rxCancelErr s = rxCancelErr s0 /\ rxResetErr s = rxResetErr s0 /\
  rxDeadline s = rxDeadline s0 /\ rxEvents s = rxEvents s0 /\
  (sfc_live (rxFlow s0) -> sfc_live (rxFlow s)).

Definition read_post (out0 : bytes) (plen : Z) s0 (r : read_result) s : Prop :=
  reading s0 s /\
  match r with
  | ReadBlocks => rx_core out0 s /\ rxFinRead s = false /\ rxCancelErr s = None /\ rxCurrentFrame s = None /\
      in_gap (fsGaps (rxQueue s)) (fsReadPos (rxQueue s)) /\ fsReadPos (rxQueue s) < rxFinalOffset s
  | ReadReturns completed data err =>
      rx_core (out0 ++ data) s /\ blen data <= Z.max 0 plen /\ rxFinRead s = completed /\
      (completed = true -> open_for_reading s0) /\
      (err = Some ReadEOF <-> completed = true) /\ (forall m, err <> Some (ReadBUG m)) /\
      (err = None -> Z.min 1 plen <= blen data)
  end.

Lemma waitErr_none s now :
  waitErr s now = None -> rxShutdownErr s = None /\ rxCancelErr s = None /\ rxResetErr s = None.
Proof. unfold waitErr, localErr. by destruct (rxShutdownErr s), (rxCancelErr s), (rxResetErr s). Qed.

Lemma waitErr_some s now e :
  waitErr s now = Some e -> e <> ReadEOF /\ forall m, e <> ReadBUG m.
Proof.
  unfold waitErr, localErr.
  destruct (rxShutdownErr s), (rxCancelErr s), (rxResetErr s); try (by intros [= <-]).
  destruct (_ && _); by intros [= <-].
Qed.

Lemma wp_onFlow {T} (m : stM F T) (Q : T -> receiveStream F -> Prop) E s :
  wp m (fun a f' => Q a (x_flow f' s)) (fun e f' => E e (x_flow f' s)) (rxFlow s) -> wp (onFlow m) Q E s.
Proof. unfold wp, onFlow. by destruct (m (rxFlow s)) as [[] ?]. Qed.

Lemma wp_onQueue {T} (m : fsM T) (Q : T -> receiveStream F -> Prop) E s :
  wp m (fun a q => Q a (x_queue q s)) (fun e q => E e (x_queue q s)) (rxQueue s) -> wp (onQueue m) Q E s.
Proof. unfold wp, onQueue. by destruct (m (rxQueue s)) as [[] ?]. Qed.

(** The last byte of the last frame was copied. *)
Lemma finish_core out s :
  rx_core out s -> rxCurrentIsLast s = true -> rx_rem s = [] ->
  rx_core out (x_current None (rxCurrentDone s) (rxReadPosInFrame s) (rxCurrentIsLast s) (x_finRead true s)).
Proof.
  intros [Hi Hb Hcv Hgot Hh Ho Hp Hok Hr Hf Hlast Hfin] Hl Hrem. rewrite Hrem, app_nil_r in Ho.
  destruct (Hlast Hl) as [Hfl Hpos].
  constructor; cbn; try done; [|by right|].
  - rewrite Ho. unfold rx_rem. cbn. by rewrite drop_nil, app_nil_r.
  - intros _. split; [done|]. rewrite Ho. unfold blen. rewrite length_fmap, length_seqZ.
    pose proof (sfc_bounds _ Hok). lia.
Qed.

(** Copying bytes out of the current frame. *)
Lemma copy_core out s m f' :
  rx_core out s -> rxFinRead s = false -> 0 <= m <= blen (rx_rem s) ->
  sfc_ok f' -> sfc_highest f' = sfc_highest (rxFlow s) -> sfc_read f' = sfc_read (rxFlow s) + m ->
  sfc_final f' = sfc_final (rxFlow s) ->
  rx_core (out ++ take (Z.to_nat m) (rx_rem s))
    (x_flow f' (x_current (rxCurrentFrame s) (rxCurrentDone s) (rxReadPosInFrame s + m) (rxCurrentIsLast s) s)).
Proof.
  intros [Hi Hb Hcv Hgot Hh Ho Hp Hok Hr Hf Hlast Hfin] Hnf Hm Hok' H1 H2 H3.
  destruct Hp as [Hp|?]; [|congruence].
  assert (Hrem : blen (rx_rem s) = frame_len (rxCurrentFrame s) - rxReadPosInFrame s).
  { unfold rx_rem, frame_len, blen in *. rewrite length_drop. lia. }
  constructor; cbn; rewrite ?H1, ?H2, ?H3; try done.
  - rewrite <- Ho, <- app_assoc. f_equal. unfold rx_rem. cbn.
    rewrite Z2Nat.inj_add, <- drop_drop by lia. apply take_drop.
  - left. lia.
  - rewrite Hr, blen_app. unfold blen at 3. rewrite length_take. unfold blen in Hm. lia.
  - congruence.
Qed.

Lemma wp_readInner out0 plen now acc s0 s rest :
  rx_core (out0 ++ acc) s -> rx_once s0 -> reading s0 s -> rxFinRead s0 = false -> rxFinRead s = false ->
  blen acc <= plen -> at_gap s -> (rxCurrentFrame s = None -> acc = []) ->
  (forall acc' s', is_Some (rxCurrentFrame s) ->
     rx_core (out0 ++ acc') s' -> reading s0 s' -> rxFinRead s' = false -> blen acc' <= plen ->
     blen acc + Z.min (plen - blen acc) (blen (rx_rem s)) <= blen acc' ->
     wp (rest acc') (read_post out0 plen s0) (fun _ _ => False) s') ->
  wp (readInner plen acc now rest) (read_post out0 plen s0) (fun _ _ => False) s.
Proof.
  intros Hc Honce Hrd Hnf0 Hnf Hacc Hgap Hcur Hrest. unfold readInner. apply wp_bind, wp_get.
  destruct (waitErr s now) as [e|] eqn:Ew.
  { destruct (waitErr_some _ _ _ Ew) as [He1 He2]. apply wp_ret. split; [done|].
    split; [done|]. split; [lia|]. split; [done|]. split; [done|]. split; [by split; [intros [=]|]|].
    split; [intros m [=]; by eapply He2|done]. }
  destruct (waitErr_none _ _ Ew) as (Hsd & Hca & Hre).
  destruct (negb _ && negb (rxCurrentIsLast s)) eqn:Eb.
  { apply andb_true_iff in Eb as [Eb El]. apply negb_true_iff, bool_decide_eq_false in Eb.
    apply negb_true_iff in El. apply wp_ret. split; [done|].
    destruct (rxCurrentFrame s) eqn:Ecur; [destruct Eb; by eexists|]. rewrite Hcur, app_nil_r in Hc by done.
    destruct (Hgap Ecur) as [Hin Hl]. rewrite El in Hl. symmetry in Hl. apply Z.leb_gt in Hl. split; [done|].
    split; [done|]. split; [done|]. split; done. }
  zfalse (plen <? blen acc). pose proof (rc_pos _ _ Hc) as [Hp|?]; [|congruence].
  unfold frame_len in Hp. zfalse (blen (default [] (rxCurrentFrame s)) <? rxReadPosInFrame s).
  set (cur := default [] (rxCurrentFrame s)) in *.
  assert (Hrem : blen (rx_rem s) = blen cur - rxReadPosInFrame s).
  { unfold rx_rem, blen in *. fold cur. rewrite length_drop. lia. }
  set (m := Z.min _ _). assert (Hm : m = Z.min (plen - blen acc) (blen (rx_rem s))) by (subst m; lia).
  clearbody m. change (drop (Z.to_nat (rxReadPosInFrame s)) cur) with (rx_rem s). apply wp_bind, wp_modify, wp_bind.
  rewrite Hre, bool_decide_true by done.
  assert (Hopen : open_for_reading s0).
  { destruct Hrd as (_ & _ & _ & R4 & R5 & _). split; [done|]. split; congruence. }
  assert (Hlive : sfc_live (rxFlow s)).
  { destruct Hrd as (_ & _ & _ & _ & _ & _ & _ & Hl). apply Hl. by apply open_live. }
  pose proof (sfc_add (rxFlow s) m now (rc_flow _ _ Hc) Hlive) as Ha.
  pose proof (readPos_bound _ _ Hc) as Hrp.
  assert (Hlen : blen (out0 ++ acc) + blen (rx_rem s) = fsReadPos (rxQueue s)).
  { rewrite <- blen_app, (rc_out _ _ Hc). unfold blen. rewrite length_fmap, length_seqZ. lia. }
  rewrite (rc_read _ _ Hc) in Ha. specialize (Ha ltac:(lia)).
  apply wp_onFlow. cbn [rxFlow x_current]. eapply wp_mono; [| |exact Ha]; [|done]. clear Ha.
  intros _ f' (Hok' & Hl' & A1 & A2 & A3).
  assert (Hcopy : rx_core ((out0 ++ acc) ++ take (Z.to_nat m) (rx_rem s))
    (x_flow f' (x_current (rxCurrentFrame s) (rxCurrentDone s) (rxReadPosInFrame s + m) (rxCurrentIsLast s) s))).
  { apply copy_core; try done; [lia|]. by rewrite A2, (rc_read _ _ Hc). }
  set (s2 := x_flow f' _) in *. rewrite <- app_assoc in Hcopy.
  set (acc' := acc ++ take (Z.to_nat m) (rx_rem s)) in *.
  assert (Hacc' : blen acc' = blen acc + m).
  { subst acc'. rewrite blen_app. unfold blen at 2. rewrite length_take. unfold blen in *. lia. }
  assert (Hrd2 : reading s0 s2).
  { destruct Hrd as (R1 & R2 & R3 & R4 & R5 & R6 & R7 & R8). split_and!; done. }
  apply wp_bind, wp_get. destruct ((blen cur <=? rxReadPosInFrame s2) && rxCurrentIsLast s2) eqn:Ed.
  - (* the last byte was read *)
    apply andb_true_iff in Ed as [Ed%Z.leb_le El]. apply wp_bind, wp_modify, wp_bind, wp_modify, wp_bind.
    assert (Hfc : rx_core (out0 ++ acc')
      (x_current None (rxCurrentDone s2) (rxReadPosInFrame s2) (rxCurrentIsLast s2) (x_finRead true s2))).
    { apply finish_core; try done. unfold rx_rem. subst s2. cbn in *. fold cur. apply drop_ge.
      unfold blen in *. lia. }
    destruct (callDone_core _ _ (rxCurrentDone s2) Hfc) as (q & Eq & Hq).
    unfold wp at 1. cbn [rxCurrentDone rxReadPosInFrame rxCurrentIsLast x_finRead] in *. rewrite Eq. apply wp_ret.
    split; [done|]. split; [done|]. split; [lia|]. split; [done|]. split; [done|]. split; [done|]. split; done.
  - eapply Hrest; try done; [|lia..].
    destruct (rxCurrentFrame s) as [d|] eqn:Ecur; [by eexists|]. cbn in Eb. apply negb_false_iff in Eb.
    subst s2 cur. cbn in Ed. rewrite Eb, andb_true_r in Ed. apply Z.leb_gt in Ed. unfold blen in Ed. cbn in Ed. lia.
Qed.

Lemma same_reading s0 s s' :
  reading s0 s -> same_status s s' -> rxFlow s' = rxFlow s -> reading s0 s' /\ rxFinRead s' = rxFinRead s.
Proof.
  intros (R1 & R2 & R3 & R4 & R5 & R6 & R7 & R8) (T1 & T2 & T3 & T4 & T5 & T6 & T7 & T8) Ef.
  split; [|done]. unfold reading. rewrite T1, T2, T4, T5, T6, T7, T8, Ef. split_and!; done.
Qed.

Lemma rem_nil_read s :
  frame_len (rxCurrentFrame s) <= rxReadPosInFrame s -> rx_rem s = [].
Proof. intros Hl. unfold rx_rem. apply drop_ge. unfold frame_len, blen in *. lia. Qed.

Lemma wp_readLoop out0 plen now s0 :
  rx_once s0 -> rxFinRead s0 = false -> forall fuel acc s,
  rx_core (out0 ++ acc) s -> reading s0 s -> rxFinRead s = false -> blen acc <= Z.max 0 plen ->
  plen - blen acc < Z.of_nat fuel ->
  wp (readLoop fuel plen now acc) (read_post out0 plen s0) (fun _ _ => False) s.
Proof.
  intros Honce Hnf0. induction fuel as [|fuel IH]; intros acc s Hc Hrd Hnf Hacc Hf; cbn [readLoop].
  { zfalse (blen acc <? plen). apply wp_ret. split; [done|]. split; [done|]. split; [lia|]. split; [done|].
    split; [done|]. split; [done|split; [by intros m|intros _; lia]]. }
  destruct (Z.ltb_spec (blen acc) plen) as [Hlt|Hge].
  2:{ apply wp_ret. split; [done|]. split; [done|]. split; [lia|]. split; [done|].
      split; [done|]. split; [done|split; [by intros m|intros _; lia]]. }
  pose proof (blen_nonneg acc) as Hann.
  apply wp_bind, wp_get, wp_bind.
  assert (Hnext : forall s1, rx_core (out0 ++ acc) s1 -> reading s0 s1 -> rxFinRead s1 = false ->
    (is_Some (rxCurrentFrame s1) -> 0 < blen (rx_rem s1)) -> at_gap s1 ->
    wp (s ← get;
        if negb (bool_decide (is_Some (rxCurrentFrame s))) && (0 <? blen acc)
        then mret (ReadReturns false acc (ReadShutdown <$> rxShutdownErr s))
        else readInner plen acc now (readLoop fuel plen now)) (read_post out0 plen s0) (fun _ _ => False) s1).
  { intros s1 Hc1 Hrd1 Hnf1 Hpos Hgap1. apply wp_bind, wp_get.
    destruct (negb _ && (0 <? blen acc)) eqn:Eb.
    - apply andb_true_iff in Eb as [_ Eb%Z.ltb_lt]. apply wp_ret. split; [done|]. split; [done|]. split; [lia|]. split; [done|]. split; [done|].
      split; [destruct (rxShutdownErr s1); done|]. split; [intros m; destruct (rxShutdownErr s1); done|lia].
    - eapply wp_readInner; try done; [lia| |].
      + intros En. rewrite En in Eb. cbn in Eb. destruct acc; [done|]. apply Z.ltb_ge in Eb. rewrite blen_cons in Eb.
        pose proof (blen_nonneg acc). lia.
      + intros acc' s' Hcur Hc' Hrd' Hnf' Hle' Hge'. apply IH; try done; [lia|]. specialize (Hpos Hcur). lia. }
  destruct (negb _ || _) eqn:Eb.
  - assert (Hrem : rx_rem s = []).
    { apply orb_true_iff in Eb as [Eb|Eb%Z.leb_le]; [|by apply rem_nil_read].
      apply negb_true_iff, bool_decide_eq_false in Eb. unfold rx_rem.
      destruct (rxCurrentFrame s); [destruct Eb; by eexists|]. apply drop_nil. }
    eapply wp_mono; [| |apply (wp_dequeue (out0 ++ acc) s (fun _ _ => False)); done]; [|done].
    intros _ s1 (Hc1 & Hst & Hfl & Hp0 & Hcur & Hgap1). destruct (same_reading s0 s s1 Hrd Hst Hfl) as [Hrd1 Hnf1].
    apply Hnext; try done; [congruence|]. intros [d Ed]. unfold rx_rem. rewrite Hp0, Ed in *.
    change (Z.to_nat 0) with 0%nat. rewrite drop_0. cbn. destruct d; [done|]. rewrite blen_cons.
    pose proof (blen_nonneg d). lia.
  - apply orb_false_iff in Eb as [Es Eb%Z.leb_gt]. apply negb_false_iff, bool_decide_eq_true in Es as [d Es].
    apply wp_ret. apply Hnext; try done; [|intros ?; congruence]. intros _.
    unfold rx_rem, frame_len, blen in *. rewrite length_drop. pose proof (rc_pos _ _ Hc) as [?|?]; [|congruence].
    unfold frame_len, blen in *. lia.
Qed.

Lemma wp_readImpl out plen now s :
  rx_core out s -> rx_once s -> rxFinRead s = false ->
  wp (readImpl plen now) (read_post out plen s) (fun _ _ => False) s.
Proof.
  intros Hc Ho Hnf. unfold readImpl. apply wp_bind, wp_get. rewrite Hnf.
  assert (Hrd : reading s s) by done.
  assert (Herr : forall e, e <> ReadEOF -> (forall m, e <> ReadBUG m) ->
    read_post out plen s (ReadReturns false [] (Some e)) s).
  { intros e H1 H2. split; [done|]. rewrite app_nil_r. split; [done|]. rewrite blen_nil. split; [lia|]. split; [done|].
    split; [done|]. split; [by split; [intros [=]|]|]. split; [intros m [=]; by eapply H2|done]. }
  destruct (rxCancelErr s), (rxResetErr s), (rxShutdownErr s); try (by apply wp_ret, Herr).
  apply wp_readLoop; try done; [by rewrite app_nil_r|rewrite blen_nil; lia..].
Qed.

Lemma wp_readResume out plen now timer s :
  rx_core out s -> rx_once s -> rxFinRead s = false -> 0 <= plen -> rxCurrentFrame s = None ->
  wp (readResume plen now timer) (read_post out plen s) (fun _ _ => False) s.
Proof.
  intros Hc Ho Hnf Hpl Hcur. unfold readResume. apply wp_bind.
  assert (Hrest : forall s1, rx_core out s1 -> reading s s1 -> rxFinRead s1 = false->
    rxCurrentFrame s1 = None ->
    wp (s ← get; _ ← (if negb (bool_decide (is_Some (rxCurrentFrame s))) then dequeueNextFrame else mret tt);
        readInner plen [] now (readLoop (S (Z.to_nat plen)) plen now)) (read_post out plen s) (fun _ _ => False) s1).
  { intros s1 Hc1 Hrd1 Hnf1 Hcur1. apply wp_bind, wp_get, wp_bind.
    rewrite Hcur1, bool_decide_false by by intros [? [=]].
    assert (rx_rem s1 = []) by (unfold rx_rem; rewrite Hcur1; apply drop_nil).
    eapply wp_mono; [| |apply (wp_dequeue out s1 (fun _ _ => False)); done]; [|done].
    intros _ s2 (Hc2 & Hst & Hfl & _ & _ & Hgap2). destruct (same_reading s s1 s2 Hrd1 Hst Hfl).
    eapply wp_readInner; try done; [by rewrite app_nil_r|congruence|].
    intros acc' s' _ Hc' Hrd' Hnf' Hle' Hge'. apply wp_readLoop; try done; [lia|].
    pose proof (blen_nonneg acc'). lia. }
  destruct timer; [by apply wp_ret, Hrest|]. apply wp_modify, Hrest; try done. destruct Hc; by constructor.
Qed.

(** ** Receiving *)

Definition rx_inv out s : Prop := rx_core out s /\ rx_once s.

(** What the writers leave to the reader. *)
Definition same_reader s s' : Prop := rxCurrentFrame s' = rxCurrentFrame s /\ rxFinRead s' = rxFinRead s.

(** The final size does not change once it is known, and is the announced one. *)
Definition final_step (v : option Z) s s' : Prop :=
  (rxFinalOffset s <> MaxByteCount -> rxFinalOffset s' = rxFinalOffset s) /\
  (rxFinalOffset s' = rxFinalOffset s \/ v = Some (rxFinalOffset s')).

Lemma rx_inv_chan out s v : rx_inv out s -> rx_inv out (x_chan v s).
Proof. intros [[] []]. split; by constructor. Qed.

Lemma rx_inv_deadline out s t : rx_inv out s -> rx_inv out (x_deadline t s).
Proof. intros [[] []]. split; by constructor. Qed.

Lemma rx_inv_errs out s sd c r :
  rx_inv out s -> (is_Some (rxCancelErr s) -> is_Some c) -> (is_Some (rxResetErr s) -> is_Some r) ->
  rx_inv out (x_errs sd c r s).
Proof.
  intros [[] [Hl Ho]] Hc Hr. split; constructor; try done; cbn.
  { intros ->. apply rc_cov0. destruct (rxCancelErr s); [destruct Hc as [? [=]]; by eexists|done]. }
  destruct Ho as [?|(? & [?|(? & ?)])]; [by left|by right; split; [|left]|right].
  split; [done|]. right. split; [|done]. naive_solver.
Qed.

Lemma rx_inv_stop out s f : rx_inv out s -> rx_inv out (x_event (QueuedStopSending f) s).
Proof.
  intros [[] [Hl Ho]].
  assert (E : completions (x_event (QueuedStopSending f) s) = completions s).
  { unfold completions. cbn. by rewrite filter_app, app_nil_r. }
  split; constructor; try done; rewrite E; done.
Qed.

(** A completed stream knows its final size. *)
Lemma not_completed out s :
  rx_inv out s -> rxFinalOffset s = MaxByteCount \/ open_for_reading s -> completions s = [].
Proof.
  intros [Hc [_ Ho]] Hopen. destruct Ho as [?|(_ & Ho)]; [done|].
  pose proof (sfc_bounds _ (rc_flow _ _ Hc)). pose proof (rc_final _ _ Hc) as Hf.
  destruct Hopen as [Hm|(H1 & H2 & H3)].
  - destruct Ho as [Hfin|[_ ?]]; [|done]. destruct (rc_fin _ _ Hc Hfin) as [Hs _]. rewrite Hs in Hf. lia.
  - destruct Ho as [?|[[[? ?]|[? ?]] _]]; congruence.
Qed.

Lemma wp_completeStream out b now s E :
  rx_inv out s ->
  (b = true -> completions s = [] /\ (is_Some (rxCancelErr s) \/ is_Some (rxResetErr s)) /\
     rxFinalOffset s <> MaxByteCount) ->
  wp (completeStream b now) (fun _ s' => rx_inv out s' /\ same_reader s s' /\ rxFinalOffset s' = rxFinalOffset s) E s.
Proof.
  intros [Hc Ho] Hb. unfold completeStream. destruct b; [|by apply wp_ret].
  destruct (Hb eq_refl) as (Hn & He & Hfo). apply wp_bind, wp_onFlow.
  eapply wp_mono; [| |apply (sfc_abandon (rxFlow s) now); [by destruct Hc|by apply (ro_live _ Ho)]]; [|done].
  intros _ f' (Hok & H1 & H2 & H3). apply wp_modify. destruct Hc.
  assert (Hcs : completions (x_event (StreamCompleted (rxStreamID s)) (x_flow f' s)) = [StreamCompleted (rxStreamID s)]).
  { unfold completions. cbn. rewrite filter_app. unfold completions in Hn. by rewrite Hn. }
  unfold completions in Hcs. split; [|done]. split; constructor; cbn; rewrite ?H1, ?H2, ?H3; try done; cbn in Hcs; rewrite Hcs; [done|].
  right. split; [done|]. by right.
Qed.

(** The flow controller accepted data up to [offset]. *)
Lemma update_core out s f' offset (final : bool) :
  rx_inv out s ->
  sfc_ok f' -> (sfc_live (rxFlow s) -> sfc_live f') ->
  sfc_highest f' = Z.max (sfc_highest (rxFlow s)) offset -> sfc_read f' = sfc_read (rxFlow s) ->
  sfc_final f' = sfc_final (rxFlow s) || final ->
  (sfc_final (rxFlow s) = true -> offset <= sfc_highest (rxFlow s)) -> (final = true -> offset = sfc_highest f') ->
  rx_inv out (x_finalOffset (if final then offset else rxFinalOffset s) (x_flow f' s)) /\
  (final = true -> rxFinalOffset s <> MaxByteCount -> offset = rxFinalOffset s).
Proof.
  intros [[] [Hl Ho]] Hok Hlive Hh Hr Hf H1 H2. pose proof (sfc_bounds _ Hok) as Hb.
  split.
  2:{ intros Hfi Hm. destruct (sfc_final (rxFlow s)); [|done]. specialize (H1 eq_refl). specialize (H2 Hfi). lia. }
  split; constructor; cbn; try done.
  - intros b Hb1 Hb2. rewrite Hh. specialize (rc_high0 b Hb1 Hb2). lia.
  - by rewrite Hr.
  - rewrite Hf. destruct final; [rewrite orb_true_r; auto|rewrite orb_false_r].
    destruct (sfc_final (rxFlow s)); [|done]. specialize (H1 eq_refl). lia.
  - intros [Hs Hp]%rc_last0. rewrite Hf, Hs. specialize (H1 Hs). split; [done|lia].
  - intros [Hs Hp]%rc_fin0. rewrite Hf, Hs. specialize (H1 Hs). split; [done|lia].
  - intros Hn. by apply Hlive, Hl.
  - destruct Ho as [?|(? & [?|(? & ?)])]; [by left|by right; split; [|left]|right].
    split; [done|]. right. split; [done|]. destruct final; [|done]. rewrite (H2 eq_refl). lia.
Qed.

Definition frame_ok (f : StreamFrame) : Prop :=
  0 <= sfOffset f /\ sfOffset f + sfDataLen f <= MaxByteCount /\
  forall k v, sfData f !! k = Some v -> v = str (sfOffset f + Z.of_nat k).

Lemma wp_handleResetStreamFrame out s f now :
  rx_inv out s -> 0 <= rsFinalSize f <= MaxByteCount ->
  wp (handleResetStreamFrame f now)
    (fun _ s' => rx_inv out s' /\ same_reader s s' /\ final_step (Some (rsFinalSize f)) s s') (fun _ _ => True) s.
Proof.
  intros Hi Hf. unfold handleResetStreamFrame, handleResetStreamFrameImpl. apply wp_bind, wp_bind, wp_get.
  destruct (bool_decide (is_Some (rxShutdownErr s))).
  { apply wp_ret. eapply wp_mono; [| |by apply (wp_completeStream out false now s (fun _ _ => False))]; [|done].
    intros _ s' (Hi' & Hr & Hfo). split; [done|]. split; [done|]. split; [done|by left]. }
  apply wp_bind, wp_onFlow.
  eapply wp_mono; [| |apply (sfc_update (rxFlow s) (rsFinalSize f) true); [apply Hi|lia]]; [|done].
  intros _ f' (Hok & Hl & Hh & Hr & Hfin & Hfo & Hnew).
  destruct (update_core out s f' (rsFinalSize f) true Hi Hok Hl Hh Hr Hfin Hfo Hnew) as [Hi1 Hsz].
  apply wp_bind, wp_get, wp_bind, wp_modify. cbn [rxFinalOffset x_flow x_finalOffset rxResetErr].
  pose proof (sfc_bounds _ Hok) as Hb. specialize (Hnew eq_refl).
  destruct (bool_decide (is_Some (rxResetErr s))) eqn:Er.
  { apply wp_ret. eapply wp_mono; [| |apply (wp_completeStream out false now _ (fun _ _ => False) Hi1)]; [|done|done].
    intros _ s' (Hi' & Hr' & Hfo'). split; [done|]. split; [done|]. unfold final_step. rewrite Hfo'. cbn. auto. }
  apply wp_bind, wp_modify, wp_bind, wp_modify, wp_ret.
  eapply wp_mono; [| |eapply (wp_completeStream out _ now _ (fun _ _ => False))]; [|done|..].
  - intros _ s' (? & [E1 E2] & E3). split; [done|]. split; [split; [by rewrite E1|by rewrite E2]|].
    unfold final_step. rewrite E3. cbn. auto.
  - apply rx_inv_chan, rx_inv_errs; done.
  - intros Em%Z.eqb_eq. split; [apply (not_completed out s); auto|]. cbn. split; [right; by eexists|lia].
Qed.

Lemma wp_CancelRead out s code now E :
  rx_inv out s -> wp (CancelRead code now) (fun _ s' => rx_inv out s' /\ same_reader s s' /\ rxFinalOffset s' = rxFinalOffset s) E s.
Proof.
  intros Hi. unfold CancelRead, cancelReadImpl. apply wp_bind, wp_bind, wp_get.
  destruct (_ || _) eqn:Eb; [by apply wp_ret, wp_completeStream|].
  apply orb_false_iff in Eb as [[Hnf Hc]%orb_false_iff Hr]. apply bool_decide_eq_false in Hc, Hr.
  apply wp_bind, wp_modify, wp_bind, wp_modify, wp_bind, wp_modify, wp_bind, wp_get, wp_ret.
  assert (Hi1 : rx_inv out (x_event (QueuedStopSending (mkStopSending (rxStreamID s) code))
            (x_chan true (x_errs (rxShutdownErr s) (Some code) (rxResetErr s) s)))).
  { apply rx_inv_stop, rx_inv_chan, rx_inv_errs; done. }
  eapply wp_mono; [| |apply (wp_completeStream out _ now _ E Hi1)]; [|done|].
  - intros _ s' (? & [E1 E2] & E3). split; [done|]. split; [split; [by rewrite E1|by rewrite E2]|by rewrite E3].
  - intros Hfo%negb_true_iff%Z.eqb_neq. cbn in Hfo |- *. split; [|split; [left; by eexists|done]].
    unfold completions. cbn. rewrite filter_app, app_nil_r. apply (not_completed out s Hi). right.
    split; [done|]. split; apply eq_None_not_Some; done.
Qed.
(** ** [Read] *)

Definition read_ok (out : bytes) (plen : Z) s (r : read_result) s' : Prop :=
  rxFinalOffset s' = rxFinalOffset s /\
  match r with
  | ReadBlocks => rx_inv out s' /\ rxFinRead s = false /\ rxFinRead s' = false /\ rxCurrentFrame s' = None /\
      blen out < rxFinalOffset s' /\ ~ cov (blen out)
  | ReadReturns _ data err =>
      rx_inv (out ++ data) s' /\ blen data <= Z.max 0 plen /\ (rxFinRead s = true -> data = [] /\ rxFinRead s' = true) /\
      (err = Some ReadEOF <-> rxFinRead s' = true) /\ (forall m, err <> Some (ReadBUG m)) /\
      (err = None -> Z.min 1 plen <= blen data)
  end.

Lemma reading_once s0 s : reading s0 s -> rx_once s0 -> rxFinRead s = rxFinRead s0 -> rx_once s.
Proof.
  intros (R1 & R2 & R3 & R4 & R5 & R6 & R7 & R8) [Hl Ho] Hf.
  assert (E : completions s = completions s0) by (unfold completions; by rewrite R7).
  constructor; rewrite E; [auto|]. by rewrite Hf, R4, R5, R2.
Qed.

Lemma wp_finishRead out plen s m :
  rx_inv out s -> rxFinRead s = false ->
  wp m (read_post out plen s) (fun _ _ => False) s ->
  wp (finishRead m) (read_ok out plen s) (fun _ _ => False) s.
Proof.
  intros [Hc Ho] Hnf Hm. apply wp_bind. eapply wp_mono; [| |exact Hm]; [|done]. clear Hm.
  intros r s' [Hrd Hp]. pose proof Hrd as (R1 & R2 & R3 & R4 & R5 & R6 & R7 & R8).
  destruct r as [completed data err|]; [|].
  - destruct Hp as (Hc' & Hle & Hfin & Hopen & Heof & Hbug & Hnone). subst completed.
    destruct (rxFinRead s') eqn:Ef; apply wp_bind.
    + apply wp_modify, wp_ret. specialize (Hopen eq_refl).
      assert (Hn : completions s = []) by (apply (not_completed out s); [done|by right]).
      assert (Hcs : completions (x_event (StreamCompleted (rxStreamID s')) s') = [StreamCompleted (rxStreamID s')]).
      { unfold completions in *. cbn. by rewrite R7, filter_app, Hn. }
      split; [done|]. split; [|split; [done|split; [congruence|split; [cbn; by rewrite Ef|done]]]].
      split; [by destruct Hc'; constructor|]. constructor; rewrite Hcs; [done|].
      right. split; [done|]. left. done.
    + apply wp_ret, wp_ret. split; [done|]. split; [|split; [done|split; [congruence|split; [cbn; by rewrite Ef|done]]]].
      split; [done|]. apply (reading_once s); congruence.
  - destruct Hp as (Hc' & Hf' & Hcn & Hcur & Hgap & Hlt). apply wp_bind, wp_ret, wp_ret.
    assert (Hpos : fsReadPos (rxQueue s') = blen out).
    { pose proof (rc_out _ _ Hc') as Ho'. unfold rx_rem in Ho'. rewrite Hcur in Ho'. cbn in Ho'.
      rewrite drop_nil, app_nil_r in Ho'. rewrite Ho'. unfold blen. rewrite length_fmap, length_seqZ.
      pose proof (readPos_bound _ _ Hc'). lia. }
    rewrite Hpos in *. split; [done|]. split; [split; [done|by apply (reading_once s); [..|congruence]]|].
    split; [done|]. split; [done|]. split; [done|]. split; [done|].
    apply (rc_cov _ _ Hc' Hcn); [|done]. pose proof (rc_final _ _ Hc'). pose proof (sfc_bounds _ (rc_flow _ _ Hc')).
    pose proof (blen_nonneg out). destruct (sfc_final (rxFlow s')); lia.
Qed.

Lemma wp_Read out plen now s :
  rx_inv out s -> wp (Read plen now) (read_ok out plen s) (fun _ _ => False) s.
Proof.
  intros Hi. destruct (rxFinRead s) eqn:Ef.
  - unfold Read, finishRead, readImpl. apply wp_bind, wp_bind, wp_get. rewrite Ef. apply wp_ret, wp_bind, wp_ret, wp_ret.
    split; [done|]. split; [by rewrite app_nil_r|]. split; [rewrite blen_nil; lia|]. split; [done|]. split; [done|]. split; done.
  - apply wp_finishRead; try done. by apply wp_readImpl; [apply Hi|apply Hi|].
Qed.

Lemma wp_ReadResume out plen now timer s :
  rx_inv out s -> rxFinRead s = false -> rxCurrentFrame s = None -> 0 <= plen ->
  wp (ReadResume plen now timer) (read_ok out plen s) (fun _ _ => False) s.
Proof. intros Hi Hnf Hcur Hp. apply wp_finishRead; try done. apply wp_readResume; try done; apply Hi. Qed.
End fixed.

Definition covers (f : StreamFrame) (b : Z) : Prop := sfOffset f <= b < sfOffset f + sfDataLen f.

(** A canceled stream drops its data. *)
Lemma rx_inv_cancelled cov cov' out s :
  (forall b, cov b -> cov' b) -> rx_inv cov out s -> is_Some (rxCancelErr s) -> rx_inv cov' out s.
Proof. intros Hcv [[] []] [c Hc]. split; constructor; try done; [congruence|auto]. Qed.

Lemma push_core cov out s f cb q' :
  rx_inv cov out s -> frame_ok f -> sfOffset f + sfDataLen f <= sfc_highest (rxFlow s) ->
  pushed (rxQueue s) (sfData f) (sfOffset f) cb q' ->
  rx_inv (fun b => cov b \/ covers f b) out (x_queue q' s).
Proof.
  intros [[] []] (Hf1 & Hf2 & Hf3) Hh (Hi & Hr & Hg & Hb & _). split; constructor; cbn; rewrite ?Hr; try done.
  - intros b v [?|[Hle Hv]]%Hb; [by apply rc_bytes0|]. apply Hf3 in Hv. rewrite Hv. f_equal. lia.
  - intros Hcn b Hb'. rewrite Hg. unfold covers, sfDataLen. intros [Hin Hn]. apply rc_cov0 in Hin; tauto.
  - intros b Hb'. rewrite Hg. unfold covers, sfDataLen.
    destruct (decide (sfOffset f <= b < sfOffset f + blen (sfData f))) as [?|Hn]; [by right|].
    intros Hng. left. apply rc_got0; tauto.
  - intros b Hb1 Hb2. rewrite Hg in Hb2. unfold sfDataLen in Hh.
    destruct (decide (sfOffset f <= b < sfOffset f + blen (sfData f))) as [?|Hn]; [lia|].
    apply rc_high0; [done|]. intros Hin. by apply Hb2.
Qed.

Lemma wp_handleStreamFrame cov out s f cb now :
  rx_inv cov out s -> frame_ok f ->
  wp (handleStreamFrame f cb now)
    (fun _ s' => rx_inv (fun b => cov b \/ covers f b) out s' /\ same_reader s s' /\
       final_step (if sfFin f then Some (sfOffset f + sfDataLen f) else None) s s' /\
       (sfFin f = true -> rxFinalOffset s' = sfOffset f + sfDataLen f /\ rxFinalOffset s' < MaxByteCount))
    (fun _ _ => True) s.
Proof.
  intros Hi Hf. pose proof Hf as (Hf1 & Hf2 & Hf3). pose proof (blen_nonneg (sfData f)) as Hn.
  unfold handleStreamFrame, handleStreamFrameImpl. unfold sfDataLen in *. apply wp_bind.
  rewrite i64_small by (unfold MaxByteCount in Hf2; int_range). set (top := sfOffset f + blen (sfData f)) in *.
  apply wp_bind, wp_onFlow.
  eapply wp_mono; [| |apply (sfc_update (rxFlow s) top (sfFin f)); [apply Hi|lia]]; [|done].
  intros _ f' (Hok & Hl & Hh & Hr & Hfin & Hfo & Hnew).
  destruct (update_core cov out s f' top (sfFin f) Hi Hok Hl Hh Hr Hfin Hfo Hnew) as [Hi1 Hsz].
  set (s1 := x_finalOffset _ _) in *. apply wp_bind, wp_get, wp_bind. cbn [rxFinalOffset x_flow].
  assert (Hset : wp (if sfFin f then modify (x_finalOffset top) else mret tt) (fun _ s' => s' = s1)
            (fun _ _ => False) (x_flow f' s)).
  { subst s1. destruct (sfFin f); [by apply wp_modify|apply wp_ret]. by destruct s. }
  eapply wp_mono; [| |exact Hset]; [|done]. intros _ ? ->. apply wp_bind, wp_get.
  pose proof (sfc_bounds _ Hok) as Hb.
  assert (Hsame : same_reader s s1 /\ rxCancelErr s1 = rxCancelErr s /\ rxFlow s1 = f' /\
            completions s1 = completions s /\ (sfFin f = true -> rxFinalOffset s1 = top /\ rxFinalOffset s1 < MaxByteCount) /\
            final_step (if sfFin f then Some top else None) s s1).
  { assert (Hlt : sfFin f = true -> top < MaxByteCount) by (intros Hfi; rewrite (Hnew Hfi); lia).
    subst s1. unfold final_step. cbn. destruct (sfFin f); split_and!; first [done|auto]. }
  destruct Hsame as (Hsr & Hca & Hfl & Hcs & Hfin1 & Hstep). clearbody s1.
  destruct (bool_decide (is_Some (rxCancelErr s1))) eqn:Ec.
  - apply bool_decide_eq_true in Ec. apply wp_ret.
    apply (rx_inv_cancelled cov (fun b => cov b \/ covers f b)) in Hi1; [|by left|done].
    eapply wp_mono; [| |apply (wp_completeStream _ out _ now s1 (fun _ _ => False) Hi1)]; [|done|].
    + intros _ s' (? & [E1 E2] & E3). destruct Hsr. split; [done|]. unfold final_step, same_reader in *. rewrite E3.
      split; [split; congruence|done].
    + intros [Ef Em%Z.eqb_eq]%andb_true_iff. split; [rewrite Hcs; apply (not_completed cov out); auto|].
      split; [by left|]. destruct (Hfin1 Ef). lia.
  - apply wp_bind, wp_onQueue.
    assert (Htop : top <= sfc_highest (rxFlow s1)) by (rewrite Hfl; lia).
    eapply wp_mono; [| |apply (wp_Push (rxQueue s1) (sfData f) (sfOffset f) cb); [apply Hi1|lia|]]; [|done|rewrite Hfl in Htop; lia].
    intros [] q' Hq. apply wp_bind, wp_modify, wp_ret, wp_ret. split; [|done].
    by apply rx_inv_chan, (push_core cov out s1 f cb q').
Qed.

End proofs.
