(* ===== verification/ReceiveStreamClaims.v ===== *)
(** * ReceiveStreamClaims: what the reader of a stream observes

    A receive stream together with its reader: the frames of the peer, the
    calls of [Read] (one at a time, since [readOnce] serialises them), the
    cancellations, deadlines and shutdowns in any order, with the shared flow
    controller changed by others in between. *)

From S2P Require Import Prelude Protocol Frames GoFloat RTTStats FlowControl FrameSorter FrameSorterProofs.
From S2P Require Import ReceiveStream ReceiveStreamProofs.
From stdpp Require Import base numbers list option strings gmap fin_maps sorting.
From Stdlib Require Import ZArith Lia.
#[local] Open Scope Z_scope.

Section system.
Context {F : Type} `{HF : StreamFlow F}.

Inductive rx_op :=
  | RxFrame (f : StreamFrame) (putBack : option nat) (now : Z)
  | RxReset (f : ResetStreamFrame) (now : Z)
  | RxRead (plen now : Z)
  | RxWake (timer : bool) (now : Z)
  | RxCancel (errorCode now : Z)
  | RxDeadline (t : Z)
  | RxShutdown (err : GoError)
  | RxFlow (g : F -> F).

(** The stream, the bytes [Read] has returned, the call of [Read] that waits,
    and for each call that returned the number of bytes read by then and its
    error. *)
Record rx_sys := mkRxSys {
  sysStream : receiveStream F;
  sysOut : bytes;
  sysWaiting : option Z;
  sysLog : list (Z * option read_err)
}.

Definition sys_stream (st : rx_sys) (m : rxM F unit) : res rx_sys :=
  match m (sysStream st) with
  | (Ok _, s) => Ok (mkRxSys s (sysOut st) (sysWaiting st) (sysLog st))
  | (Err e, _) => Err e
  | (Panic m, _) => Panic m
  end.

Definition sys_read (st : rx_sys) (plen : Z) (m : rxM F read_result) : res rx_sys :=
  match m (sysStream st) with
  | (Ok ReadBlocks, s) => Ok (mkRxSys s (sysOut st) (Some plen) (sysLog st))
  | (Ok (ReadReturns _ data err), s) =>
      Ok (mkRxSys s (sysOut st ++ data) None (sysLog st ++ [(blen (sysOut st ++ data), err)]))
  | (Err e, _) => Err e
  | (Panic m, _) => Panic m
  end.

Definition rx_do (st : rx_sys) (o : rx_op) : res rx_sys :=
  match o with
  | RxFrame f cb now => sys_stream st (handleStreamFrame f cb now)
  | RxReset f now => sys_stream st (handleResetStreamFrame f now)
  | RxRead plen now => if bool_decide (sysWaiting st = None) then sys_read st plen (Read plen now) else Ok st
  | RxWake timer now =>
      match sysWaiting st with
      | Some plen => if timer || rxReadChan (sysStream st) then sys_read st plen (ReadResume plen now timer) else Ok st
      | None => Ok st
      end
  | RxCancel c now => sys_stream st (CancelRead c now)
  | RxDeadline t => sys_stream st (SetReadDeadline t)
  | RxShutdown e => sys_stream st (closeForShutdown e)
  | RxFlow g => sys_stream st (modify (fun s => x_flow (g (rxFlow s)) s))
  end.

Fixpoint rx_run (st : rx_sys) (os : list rx_op) : res rx_sys :=
  match os with
  | [] => Ok st
  | o :: os' => st' ← rx_do st o; rx_run st' os'
  end.

Definition rx_start (id : Z) (f : F) : rx_sys := mkRxSys (newReceiveStream id f) [] None [].

Definition rx_covers (b : Z) (o : rx_op) : Prop :=
  match o with RxFrame f _ _ => covers f b | _ => False end.

(** A frame with the FIN at [v]; a frame that announces the final size [v]. *)
Definition rx_fin (v : Z) (o : rx_op) : Prop :=
  match o with RxFrame f _ _ => sfFin f = true /\ sfOffset f + sfDataLen f = v | _ => False end.
Definition rx_final (v : Z) (o : rx_op) : Prop :=
  match o with RxReset f _ => rsFinalSize f = v | _ => rx_fin v o end.

Section laws.
Context {HL : StreamFlowLaws F} (str : Z -> Z).

(** The frames carry the stream [str]; others leave the stream's counters in
    the flow controller alone. *)
Definition rx_op_ok (o : rx_op) : Prop :=
  match o with
  | RxFrame f _ _ => frame_ok str f
  | RxReset f _ => 0 <= rsFinalSize f <= MaxByteCount
  | RxRead plen _ => 0 <= plen
  | RxFlow g => forall f, sfc_ok f -> sfc_ok (g f) /\ (sfc_live f -> sfc_live (g f)) /\
      sfc_highest (g f) = sfc_highest f /\ sfc_read (g f) = sfc_read f /\ sfc_final (g f) = sfc_final f
  | _ => True
  end.

Record sys_inv (os : list rx_op) (st : rx_sys) : Prop := {
  si_inv : rx_inv str (fun b => Exists (rx_covers b) os) (sysOut st) (sysStream st);
  si_wait : forall plen, sysWaiting st = Some plen ->
    0 <= plen /\ rxFinRead (sysStream st) = false /\ rxCurrentFrame (sysStream st) = None;
  si_log : forall p e, (p, e) ∈ sysLog st -> (forall m, e <> Some (ReadBUG m)) /\
    (e = Some ReadEOF -> rxFinRead (sysStream st) = true /\ p = blen (sysOut st));
  si_final : rxFinalOffset (sysStream st) = MaxByteCount \/
    Exists (rx_final (rxFinalOffset (sysStream st))) os;
  si_fin : forall v, Exists (rx_fin v) os -> rxFinalOffset (sysStream st) = v /\ v <> MaxByteCount
}.

Lemma rx_inv_cov cov cov' out (s : receiveStream F) :
  (forall b, cov b <-> cov' b) -> rx_inv str cov out s -> rx_inv str cov' out s.
Proof.
  intros Hc [[] []]. split; constructor; try done; [intros Hn b Hb; rewrite <- Hc; by apply rc_cov|].
  intros b Hb Hg. by apply Hc, rc_got.
Qed.

Lemma exists_snoc (P : rx_op -> Prop) os o : Exists P (os ++ [o]) <-> Exists P os \/ P o.
Proof. rewrite Exists_app, Exists_cons, Exists_nil. tauto. Qed.

(** What a step does to the final size. *)
Definition final_ok (o : rx_op) (s s' : receiveStream F) : Prop :=
  (rxFinalOffset s <> MaxByteCount -> rxFinalOffset s' = rxFinalOffset s) /\
  (rxFinalOffset s' = rxFinalOffset s \/ rx_final (rxFinalOffset s') o) /\
  (forall v, rx_fin v o -> rxFinalOffset s' = v /\ v <> MaxByteCount).

Lemma final_ok_same o s s' : rxFinalOffset s' = rxFinalOffset s -> (forall v, ~ rx_fin v o) -> final_ok o s s'.
Proof. intros E Hn. split; [done|]. split; [by left|]. intros v Hv. by destruct (Hn v). Qed.

Lemma final_ok_inv os o s s' :
  final_ok o s s' -> rxFinalOffset s = MaxByteCount \/ Exists (rx_final (rxFinalOffset s)) os ->
  (forall v, Exists (rx_fin v) os -> rxFinalOffset s = v /\ v <> MaxByteCount) ->
  (rxFinalOffset s' = MaxByteCount \/ Exists (rx_final (rxFinalOffset s')) (os ++ [o])) /\
  (forall v, Exists (rx_fin v) (os ++ [o]) -> rxFinalOffset s' = v /\ v <> MaxByteCount).
Proof.
  intros (H1 & H2 & H3) H4 H5. split.
  - rewrite exists_snoc. destruct H2 as [->|H2]; tauto.
  - intros v [Hv|Hv]%exists_snoc; [|by apply H3]. destruct (H5 v Hv) as [<- Hm]. by rewrite H1.
Qed.

(** A step of a writer. *)
Lemma sys_stream_inv os st o m (E : GoError -> receiveStream F -> Prop) :
  sys_inv os st ->
  wp m (fun _ s' => rx_inv str (fun b => Exists (rx_covers b) (os ++ [o])) (sysOut st) s' /\
          same_reader (sysStream st) s' /\ final_ok o (sysStream st) s') E (sysStream st) ->
  match sys_stream st m with Ok st' => sys_inv (os ++ [o]) st' | Err _ => True | Panic _ => False end.
Proof.
  intros [Hi Hw Hlog Hf1 Hf2] Hm. unfold sys_stream. unfold wp in Hm.
  destruct (m (sysStream st)) as [[[]|e|p] s']; [|done|done]. destruct Hm as (Hi' & [E1 E2] & Hf).
  destruct (final_ok_inv os o _ _ Hf Hf1 Hf2).
  constructor; cbn [sysStream sysOut sysWaiting sysLog]; [done|by rewrite E1, E2|by rewrite E2|done|done].
Qed.

Lemma sys_read_inv os st o plen m :
  sys_inv os st -> 0 <= plen -> (forall b, ~ rx_covers b o /\ ~ rx_fin b o) ->
  wp m (read_ok str (fun b => Exists (rx_covers b) os) (sysOut st) plen (sysStream st)) (fun _ _ => False) (sysStream st) ->
  match sys_read st plen m with Ok st' => sys_inv (os ++ [o]) st' | _ => False end.
Proof.
  intros [Hi Hw Hlog Hf1 Hf2] Hp Ho Hm. unfold sys_read. unfold wp in Hm.
  assert (Hcov : forall b, Exists (rx_covers b) os <-> Exists (rx_covers b) (os ++ [o])).
  { intros b. rewrite exists_snoc. specialize (Ho b). tauto. }
  destruct (m (sysStream st)) as [[r|e|p] s']; [|done|done]. destruct Hm as [Hsame Hm].
  destruct (final_ok_inv os o _ _ (final_ok_same o _ _ Hsame (fun v => proj2 (Ho v))) Hf1 Hf2) as [Hf1' Hf2'].
  destruct r as [c data err|]; cbn in Hm.
  - destruct Hm as (Hi' & Hle & Hd & Heof & Hbug & Hn).
    constructor; cbn [sysStream sysOut sysWaiting sysLog]; [by apply (rx_inv_cov _ _ _ _ Hcov)|done| |done|done].
    intros q e [Hin|Hin%list_elem_of_singleton]%elem_of_app.
    + destruct (Hlog _ _ Hin) as [H1 H2]. split; [done|]. intros He. destruct (H2 He) as [Hfin ->].
      destruct (Hd Hfin) as [-> Hf]. by rewrite app_nil_r.
    + injection Hin as -> ->. split; [done|]. intros ->. split; [by apply Heof|done].
  - destruct Hm as (Hi' & Hnf0 & Hnf & Hcur & _).
    constructor; cbn [sysStream sysOut sysWaiting sysLog]; [by apply (rx_inv_cov _ _ _ _ Hcov)|by intros ? [= <-]| |done|done].
    intros q e Hin. destruct (Hlog _ _ Hin) as [H1 H2]. split; [done|]. intros He. destruct (H2 He). congruence.
Qed.

Lemma rx_do_inv os st o :
  sys_inv os st -> rx_op_ok o ->
  match rx_do st o with Ok st' => sys_inv (os ++ [o]) st' | Err _ => True | Panic _ => False end.
Proof.
  intros Hs Ho. pose proof Hs as [Hi Hw Hlog Hf1 Hf2].
  assert (Hmono : (forall b, ~ rx_covers b o) -> forall out s, rx_inv str (fun b => Exists (rx_covers b) os) out s ->
            rx_inv str (fun b => Exists (rx_covers b) (os ++ [o])) out s).
  { intros Hn out s. apply rx_inv_cov. intros b. rewrite exists_snoc. specialize (Hn b). tauto. }
  assert (Hskip : (forall b, ~ rx_covers b o /\ ~ rx_fin b o) -> sys_inv (os ++ [o]) st).
  { intros Hn. destruct (final_ok_inv os o _ _ (final_ok_same o _ _ eq_refl (fun v => proj2 (Hn v))) Hf1 Hf2).
    constructor; [apply Hmono; [apply Hn|done]|done..]. }
  assert (Hsame : forall s', (forall b, ~ rx_fin b o) -> rxFinalOffset s' = rxFinalOffset (sysStream st) ->
            final_ok o (sysStream st) s') by (intros; by apply final_ok_same).
  assert (Hnot : match o with RxFrame _ _ _ => True | _ => forall b, ~ rx_covers b o /\ ~ rx_fin b o end).
  { destruct o; [done|by intros b; split; intros []..]. }
  destruct o as [f cb now|f now|plen now|timer now|c now|t|e|g]; cbn [rx_do rx_op_ok] in *.
  - eapply sys_stream_inv; [done|]. eapply wp_mono; [| |by apply wp_handleStreamFrame]; [|done].
    intros _ s' (Hi' & Hr & [Hst1 Hst2] & Hfin). split; [|split; [done|]].
    + eapply rx_inv_cov; [|exact Hi']. intros b. by rewrite exists_snoc.
    + split; [done|]. cbn. split; [|intros v [Hv <-]; destruct (Hfin Hv); lia].
      destruct Hst2 as [->|Hst2]; [by left|right]. destruct (sfFin f); [|done]. by injection Hst2 as E.
  - eapply sys_stream_inv; [done|]. eapply wp_mono; [| |by apply wp_handleResetStreamFrame]; [|done].
    intros _ s' (Hi' & Hr & [Hst1 Hst2]). split; [apply Hmono; [apply Hnot|done]|]. split; [done|]. split; [done|].
    split; [|by intros v []]. destruct Hst2 as [->|[= E]]; [by left|by right].
  - destruct (bool_decide _); [|by apply Hskip].
    pose proof (sys_read_inv os st (RxRead plen now) plen (Read plen now) Hs Ho Hnot ltac:(by apply wp_Read)).
    by destruct (sys_read _ _ _).
  - destruct (sysWaiting st) as [plen|] eqn:Ew; [|by apply Hskip].
    destruct (timer || _); [|by apply Hskip]. destruct (Hw _ eq_refl) as (Hp & Hnf & Hcur).
    pose proof (sys_read_inv os st (RxWake timer now) plen (ReadResume plen now timer) Hs Hp Hnot
      ltac:(by apply wp_ReadResume)). by destruct (sys_read _ _ _).
  - eapply (sys_stream_inv _ _ _ _ (fun _ _ => False)); [done|].
    eapply wp_mono; [| |apply (wp_CancelRead str _ _ _ c now (fun _ _ => False) Hi)]; [|done].
    intros _ s' (Hi' & Hr & Hfo). split; [apply Hmono; [apply Hnot|done]|]. split; [done|]. apply Hsame; [apply Hnot|done].
  - eapply (sys_stream_inv _ _ _ _ (fun _ _ => False)); [done|]. apply wp_bind, wp_modify, wp_modify.
    split; [|split; [done|by apply Hsame; [apply Hnot|]]]. apply Hmono; [apply Hnot|]. by apply rx_inv_chan, rx_inv_deadline.
  - eapply (sys_stream_inv _ _ _ _ (fun _ _ => False)); [done|]. apply wp_bind, wp_modify, wp_modify.
    split; [|split; [done|by apply Hsame; [apply Hnot|]]]. apply Hmono; [apply Hnot|]. by apply rx_inv_chan, rx_inv_errs.
  - eapply (sys_stream_inv _ _ _ _ (fun _ _ => False)); [done|]. apply wp_modify.
    split; [|split; [done|by apply Hsame; [apply Hnot|]]]. apply Hmono; [apply Hnot|].
    destruct (Ho (rxFlow (sysStream st))) as (H1 & H2 & H3 & H4 & H5); [apply Hi|].
    destruct Hi as [[] []]. split; constructor; cbn; rewrite ?H3, ?H4, ?H5; auto.
Qed.

Lemma rx_run_inv : forall os' os st, sys_inv os st -> Forall rx_op_ok os' ->
  match rx_run st os' with Ok st' => sys_inv (os ++ os') st' | Err _ => True | Panic _ => False end.
Proof.
  induction os' as [|o os' IH]; intros os st Hs Hok; cbn [rx_run]; [by rewrite app_nil_r|].
  apply Forall_cons in Hok as [Ho Hok]. pose proof (rx_do_inv _ _ _ Hs Ho) as Hd.
  unfold mbind, res_bind. destruct (rx_do st o) as [st'|e|m]; [|done|done].
  specialize (IH _ _ Hd Hok). by rewrite <- app_assoc in IH.
Qed.

Lemma rx_start_inv id f :
  sfc_ok f -> sfc_live f -> sfc_read f = 0 -> sfc_final f = false -> sys_inv [] (rx_start id f).
Proof.
  intros Hok Hl Hr Hf. constructor; cbn [rx_start sysStream sysOut sysWaiting sysLog]; [|done|by intros ? ? ?%elem_of_nil|by left|by intros v ?%Exists_nil].
  split; constructor; cbn; rewrite ?Hr, ?Hf; try done.
  - apply newFrameSorter_inv.
  - intros b v (off & e & He & _). cbn in He. by rewrite lookup_empty in He.
  - intros _ b Hb. rewrite Exists_nil. tauto.
  - intros b Hb Hn. exfalso. apply Hn. rewrite in_gap_cons. by left.
  - intros b Hb Hn. exfalso. apply Hn. rewrite in_gap_cons. by left.
  - by left.
  - by left.
Qed.

(** What a call of [Read] for at least one byte does next. *)
Definition read_next (os : list rx_op) (st : rx_sys) : Prop :=
  forall plen now, 0 < plen ->
  match Read plen now (sysStream st) with
  | (Ok ReadBlocks, s') =>
      blen (sysOut st) < rxFinalOffset (sysStream st) /\ ~ Exists (rx_covers (blen (sysOut st))) os
  | (Ok (ReadReturns _ data err), s') =>
      data = str <$> seqZ (blen (sysOut st)) (blen data) /\ blen data <= plen /\ (err = None -> data <> []) /\
      (err = Some ReadEOF <-> rxFinRead s' = true)
  | _ => False
  end.

Lemma prefix_of_stream cov out (s : receiveStream F) :
  rx_core str cov out s -> out = str <$> seqZ 0 (blen out).
Proof.
  intros Hc. pose proof (rc_out _ _ _ _ Hc) as Ho. pose proof (f_equal (take (length out)) Ho) as E.
  rewrite take_app_length in E. rewrite E at 1. rewrite <- fmap_take.
  f_equal. pose proof (f_equal length Ho) as El. rewrite length_app, length_fmap, length_seqZ in El.
  pose proof (readPos_bound _ _ _ _ Hc).
  replace (fsReadPos (rxQueue s)) with (blen out + (fsReadPos (rxQueue s) - blen out)) by lia. unfold blen in *. rewrite seqZ_app by lia.
  rewrite take_app_length'; [done|]. rewrite length_seqZ. lia.
Qed.

Lemma read_next_holds os st : sys_inv os st -> read_next os st.
Proof.
  intros [Hi Hw Hlog Hf1 Hf2] plen now Hp. pose proof (wp_Read str _ _ plen now _ Hi) as Hr. unfold wp in Hr.
  destruct (Read plen now (sysStream st)) as [[[c data err|]|e|m] s']; [| |done..].
  - destruct Hr as (_ & Hi' & Hle & _ & Heof & _ & Hn). split; [|split; [lia|split; [|done]]].
    + pose proof (prefix_of_stream _ _ _ (proj1 Hi)) as E1. pose proof (prefix_of_stream _ _ _ (proj1 Hi')) as E2.
      pose proof (blen_nonneg data). pose proof (blen_nonneg (sysOut st)).
      rewrite blen_app, seqZ_app, fmap_app, <- E1 in E2 by lia. by apply app_inv_head in E2.
    + intros Hz%Hn ->. rewrite blen_nil in Hz. lia.
  - destruct Hr as (<- & _ & _ & _ & _ & ?). done.
Qed.

(** C5: Reading a stream.  Whatever frames of the stream [str] arrive, in any
    order, repeated and overlapping, whenever the reader calls [Read], whenever
    the stream is reset, canceled, shut down or given a deadline, and whatever
    others do to the shared flow controller: nothing panics and no [BUG] error
    is returned; the bytes returned by [Read] are exactly the first bytes of the
    stream; [io.EOF] is returned only at the final size that a frame announced, and
    nothing is returned after it; the stream is reported as completed at most once; and the next
    [Read] either returns the next bytes, waits because the next byte is in no
    frame received so far, or fails. *)
Theorem receive_stream_delivers id f os :
  sfc_ok f -> sfc_live f -> sfc_read f = 0 -> sfc_final f = false -> Forall rx_op_ok os ->
  match rx_run (rx_start id f) os with
  | Ok st =>
      sysOut st = str <$> seqZ 0 (blen (sysOut st)) /\
      (forall p e, (p, e) ∈ sysLog st -> (forall m, e <> Some (ReadBUG m)) /\
         (e = Some ReadEOF -> Exists (rx_final p) os /\ p = rxFinalOffset (sysStream st) /\ p = blen (sysOut st))) /\
      (length (completions (sysStream st)) <= 1)%nat /\
      read_next os st
  | Err _ => True
  | Panic _ => False
  end.
Proof.
  intros Hok Hl Hr Hf Hos. pose proof (rx_run_inv os [] _ (rx_start_inv id f Hok Hl Hr Hf) Hos) as Hi.
  destruct (rx_run _ os) as [st|e|m]; [|done|done]. pose proof (read_next_holds _ _ Hi) as Hn.
  destruct Hi as [[Hc Ho] Hw Hlog Hf1 Hf2]. split; [by eapply prefix_of_stream|]. split; [|split; [|done]].
  - intros p e Hin. destruct (Hlog _ _ Hin) as [H1 H2]. split; [done|]. intros [Hfin ->]%H2.
    destruct (rc_fin _ _ _ _ Hc Hfin) as [Hs ->]. pose proof (rc_final _ _ _ _ Hc) as Hff. rewrite Hs in Hff.
    pose proof (sfc_bounds _ (rc_flow _ _ _ _ Hc)). rewrite Hff in Hf1. destruct Hf1 as [?|?]; [lia|done].
  - destruct Ho as [_ [Hz|[Hz _]]]; rewrite Hz; cbn; lia.
Qed.
End laws.

(** ** A reset after the FIN *)

(** The stream was reset, the reader did not reach its end or cancel it, and
    nothing reported it as completed. *)
Definition stuck (s : receiveStream F) : Prop :=
  rxFinRead s = false /\ is_Some (rxResetErr s) /\ rxCancelErr s = None /\ completions s = [].

Definition status (s : receiveStream F) := (rxFinRead s, rxResetErr s, rxCancelErr s, rxEvents s).

Lemma stuck_status s s' : status s' = status s -> stuck s -> stuck s'.
Proof. unfold status, stuck, completions. by intros [= -> -> -> ->]. Qed.

Lemma keeps_onQueue {T} (m : fsM T) : keeps status (onQueue (F := F) m).
Proof. intros s. unfold onQueue. by destruct (m (rxQueue s)). Qed.

Lemma keeps_onFlow {T} (m : stM F T) : keeps status (onFlow m).
Proof. intros s. unfold onFlow. by destruct (m (rxFlow s)). Qed.

Lemma keeps_dequeue : keeps status (dequeueNextFrame (F := F)).
Proof.
  apply keeps_bind; [apply keeps_get|intros s]. apply keeps_bind; [apply keeps_onQueue|intros _].
  apply keeps_bind; [apply keeps_onQueue|intros [[o d] cb]]. by apply keeps_modify.
Qed.

Lemma stuck_frame f cb now s : stuck s -> wlp (handleStreamFrame f cb now) (fun _ => stuck) s.
Proof.
  intros Hs. unfold handleStreamFrame, handleStreamFrameImpl. apply wlp_bind, wlp_bind.
  apply (wlp_keeps status); [apply keeps_onFlow|]. intros _ s1 E1. apply wlp_bind, wlp_get, wlp_bind.
  apply (wlp_keeps status). { destruct (sfFin f); [by apply keeps_modify|apply keeps_ret]. }
  intros _ s2 E2. assert (Hs2 : stuck s2) by (apply (stuck_status s); congruence).
  apply wlp_bind, wlp_get. pose proof Hs2 as (_ & _ & Hc & _). rewrite Hc, bool_decide_false by by intros [? [=]].
  apply wlp_bind. apply (wlp_keeps status); [apply keeps_onQueue|]. intros _ s3 E3.
  apply wlp_bind, wlp_modify, wlp_ret, wlp_ret. by apply (stuck_status s2).
Qed.

Lemma stuck_reset f now s : stuck s -> wlp (handleResetStreamFrame f now) (fun _ => stuck) s.
Proof.
  intros Hs. unfold handleResetStreamFrame, handleResetStreamFrameImpl. apply wlp_bind, wlp_bind, wlp_get.
  destruct (bool_decide _); [by apply wlp_ret, wlp_ret|]. apply wlp_bind.
  apply (wlp_keeps status); [apply keeps_onFlow|]. intros _ s1 E1. apply wlp_bind, wlp_get, wlp_bind, wlp_modify.
  assert (Hs1 : stuck s1) by by apply (stuck_status s). pose proof Hs1 as (_ & Hr & _).
  rewrite bool_decide_true by done. by apply wlp_ret, wlp_ret.
Qed.

Lemma stuck_cancel c now s : stuck s -> wlp (CancelRead c now) (fun _ => stuck) s.
Proof.
  intros Hs. pose proof Hs as (_ & Hr & _). unfold CancelRead, cancelReadImpl. apply wlp_bind, wlp_bind, wlp_get.
  rewrite (bool_decide_true (is_Some (rxResetErr s))), orb_true_r by done. by apply wlp_ret, wlp_ret.
Qed.

Lemma stuck_waitErr s now : stuck s -> exists e, waitErr s now = Some e.
Proof.
  intros (_ & [r Hr] & Hc & _). unfold waitErr. rewrite Hr, Hc. destruct (rxShutdownErr s); by eexists.
Qed.

Lemma stuck_Read plen now s : stuck s -> wlp (Read plen now) (fun _ => stuck) s.
Proof.
  intros Hs. pose proof Hs as (Hf & [r Hr] & Hc & _). unfold Read, finishRead, readImpl.
  apply wlp_bind, wlp_bind, wlp_get. rewrite Hf, Hc, Hr. by apply wlp_ret, wlp_bind, wlp_ret, wlp_ret.
Qed.

Lemma stuck_ReadResume plen now timer s : stuck s -> wlp (ReadResume plen now timer) (fun _ => stuck) s.
Proof.
  intros Hs. unfold ReadResume, finishRead, readResume. apply wlp_bind, wlp_bind.
  apply (wlp_keeps status). { destruct timer; [apply keeps_ret|by apply keeps_modify]. }
  intros _ s1 E1. apply wlp_bind, wlp_get, wlp_bind. apply (wlp_keeps status).
  { destruct (negb _); [apply keeps_dequeue|apply keeps_ret]. }
  intros _ s2 E2. assert (Hs2 : stuck s2) by (apply (stuck_status s); congruence).
  unfold readInner. apply wlp_bind, wlp_get. destruct (stuck_waitErr s2 now Hs2) as [e ->].
  by apply wlp_ret, wlp_bind, wlp_ret, wlp_ret.
Qed.

Lemma sys_stream_stuck st m : wlp m (fun _ => stuck) (sysStream st) ->
  match sys_stream st m with Ok st' => stuck (sysStream st') | _ => True end.
Proof. unfold sys_stream, wlp. by destruct (m (sysStream st)) as [[] ?]. Qed.

Lemma sys_read_stuck st plen m : wlp m (fun _ => stuck) (sysStream st) ->
  match sys_read st plen m with Ok st' => stuck (sysStream st') | _ => True end.
Proof. unfold sys_read, wlp. by destruct (m (sysStream st)) as [[[]| |] ?]. Qed.

Lemma stuck_do st o : stuck (sysStream st) ->
  match rx_do st o with Ok st' => stuck (sysStream st') | _ => True end.
Proof.
  intros Hs. destruct o as [f cb now|f now|plen now|timer now|c now|t|e|g]; cbn [rx_do].
  - by apply sys_stream_stuck, stuck_frame.
  - by apply sys_stream_stuck, stuck_reset.
  - destruct (bool_decide _); [|done]. by apply sys_read_stuck, stuck_Read.
  - destruct (sysWaiting st); [|done]. destruct (_ || _); [|done]. by apply sys_read_stuck, stuck_ReadResume.
  - by apply sys_stream_stuck, stuck_cancel.
  - by apply sys_stream_stuck.
  - by apply sys_stream_stuck.
  - by apply sys_stream_stuck.
Qed.

Lemma stuck_run : forall os st, stuck (sysStream st) ->
  match rx_run st os with Ok st' => stuck (sysStream st') | _ => True end.
Proof.
  induction os as [|o os IH]; intros st Hs; cbn [rx_run]; [done|].
  unfold mbind, res_bind. pose proof (stuck_do st o Hs) as Hd. destruct (rx_do st o) as [st'| |]; [by apply IH|done..].
Qed.

End system.

(** Two frames out of order, read in three calls with the flow controllers of
    FlowControl.v; the last call meets the end of the stream. *)
Lemma receive_stream_delivers_witness :
  match rx_run (rx_start 4 (ex_stream, ex_conn))
          [RxFrame (mkStream 4 2 [12; 13] true false) (Some 1%nat) 5; RxRead 3 6;
           RxFrame (mkStream 4 0 [10; 11] false false) None 7; RxWake false 8; RxRead 9 9; RxRead 1 10] with
  | Ok st => sysOut st = [10; 11; 12; 13]
  | _ => False
  end.
Proof.
  pose proof (receive_stream_delivers (fun b => 10 + b) 4 (ex_stream, ex_conn)
    [RxFrame (mkStream 4 2 [12; 13] true false) (Some 1%nat) 5; RxRead 3 6;
     RxFrame (mkStream 4 0 [10; 11] false false) None 7; RxWake false 8; RxRead 9 9; RxRead 1 10]) as Hr.
  destruct (rx_run _ _) as [st|e|m] eqn:E; vm_compute in E; [|discriminate..].
  destruct Hr as [Hr _].
  - split; [|split; [|split]]; vm_compute; try (split_and!); try done.
  - vm_compute. discriminate.
  - reflexivity.
  - reflexivity.
  - repeat apply Forall_cons_2; try exact I; try (cbn; lia); [..|apply Forall_nil_2];
      (split; [vm_compute; discriminate|]; split; [vm_compute; discriminate|]); intros k v Hk;
      repeat (destruct k as [|k]; [injection Hk as <-; reflexivity|]); discriminate.
  - rewrite Hr. injection E as <-. vm_compute. reflexivity.
Defined.

