(* ===== verification/SendStream.v ===== *)
(** * SendStream: the sending side of a stream

    Models send_stream.go.  The flow controller is an interface, the class
    [SendFlow]; the laws the stream relies on are the class [SendFlowLaws], and
    FlowControl.v provides the instance (in SendStreamProofs.v).  A call of
    [Write] runs until it returns or waits on [writeChan]; [WriteResume] is the
    rest of a waiting call once it was woken up.  The calls of the
    [streamSender] are a list of events; [time.Now()] is the argument [now].
    The frames of the pool are values: a frame taken from the pool has a buffer
    of [MaxPacketBufferSize] bytes, and extending its data beyond that panics.
    The number of outstanding frames counts objects in memory, so that it does
    not overflow. *)

From S2P Require Import Prelude Protocol Frames FrameSplit FlowControl.
From stdpp Require Import base numbers list option strings.
From Stdlib Require Import ZArith Lia.
#[local] Open Scope Z_scope.

(** ** The flow controller *)

Class SendFlow (F : Type) := {
  tfc_SendWindowSize : F -> Z;
  tfc_IsNewlyBlocked : stM F (bool * Z);
  tfc_AddBytesSent : Z -> stM F unit;
  tfc_UpdateSendWindow : Z -> stM F unit
}.

(** What a stream relies on: [tfc_sent] is what it has sent. *)
Class SendFlowLaws (F : Type) `{SendFlow F} := {
  tfc_ok : F -> Prop;
  tfc_sent : F -> Z;
  tfc_window f : tfc_ok f -> 0 <= tfc_sent f /\ 0 <= tfc_SendWindowSize f /\
    tfc_sent f + tfc_SendWindowSize f <= MaxByteCount;
  tfc_blocked f : tfc_ok f ->
    wp tfc_IsNewlyBlocked (fun _ f' => tfc_ok f' /\ tfc_sent f' = tfc_sent f) (fun _ _ => False) f;
  tfc_add f n : tfc_ok f -> 0 <= n <= tfc_SendWindowSize f ->
    wp (tfc_AddBytesSent n) (fun _ f' => tfc_ok f' /\ tfc_sent f' = tfc_sent f + n) (fun _ _ => False) f;
  tfc_update f limit : tfc_ok f -> 0 <= limit <= MaxByteCount ->
    wp (tfc_UpdateSendWindow limit) (fun _ f' => tfc_ok f' /\ tfc_sent f' = tfc_sent f) (fun _ _ => False) f
}.

(** The framer leaves at least this much for a STREAM frame. *)
Definition MinStreamFrameSize : Z := 128.

(** ** Data *)

Inductive tx_event :=
  | TxHasStreamData (id : Z)
  | TxStreamCompleted (id : Z)
  | TxQueuedReset (f : ResetStreamFrame)
  | TxQueuedBlocked (f : StreamDataBlockedFrame).

(** The errors of a stream: [StreamError], the error of the shutdown, the
    others. *)
Inductive tx_err :=
  | TxStreamError (streamID errorCode : Z) (remote : bool)
  | TxShutdown (e : GoError)
  | TxDeadline
  | TxWriteOnClosed
  | TxCloseOnCanceled.

Record sendStream (F : Type) := mkTx {
  txNumOutstandingFrames : Z;
  txRetransmissionQueue : list StreamFrame;
  txCtxCause : option (option tx_err);     (* the context's cause, once it is canceled *)
  txStreamID : Z;
  txWriteOffset : Z;
  txCancelWriteErr : option tx_err;
  txCloseForShutdownErr : option GoError;
  txFinishedWriting : bool;
  txFinSent : bool;
  txCompleted : bool;
  txDataForWriting : option bytes;
  txNextFrame : option StreamFrame;
  txWriteChan : bool;                      (* a wake-up is in the channel *)
  txDeadline : Z;
  txFlow : F;
  txEvents : list tx_event
}.
Arguments mkTx {_}. Arguments txNumOutstandingFrames {_}. Arguments txRetransmissionQueue {_}.
Arguments txCtxCause {_}. Arguments txStreamID {_}. Arguments txWriteOffset {_}. Arguments txCancelWriteErr {_}.
Arguments txCloseForShutdownErr {_}. Arguments txFinishedWriting {_}. Arguments txFinSent {_}.
Arguments txCompleted {_}. Arguments txDataForWriting {_}. Arguments txNextFrame {_}. Arguments txWriteChan {_}.
Arguments txDeadline {_}. Arguments txFlow {_}. Arguments txEvents {_}.

Section model.
Context {F : Type} `{SendFlow F}.
Implicit Types s : sendStream F.

Definition newSendStream (streamID : Z) (flowController : F) : sendStream F :=
  mkTx 0 [] None streamID 0 None None false false false None None false 0 flowController [].

Definition t_frames n q s : sendStream F :=
  mkTx n q (txCtxCause s) (txStreamID s) (txWriteOffset s) (txCancelWriteErr s) (txCloseForShutdownErr s)
    (txFinishedWriting s) (txFinSent s) (txCompleted s) (txDataForWriting s) (txNextFrame s) (txWriteChan s)
    (txDeadline s) (txFlow s) (txEvents s).
Definition t_ctx v s : sendStream F :=
  mkTx (txNumOutstandingFrames s) (txRetransmissionQueue s) v (txStreamID s) (txWriteOffset s)
    (txCancelWriteErr s) (txCloseForShutdownErr s) (txFinishedWriting s) (txFinSent s) (txCompleted s)
    (txDataForWriting s) (txNextFrame s) (txWriteChan s) (txDeadline s) (txFlow s) (txEvents s).
Definition t_offset v s : sendStream F :=
  mkTx (txNumOutstandingFrames s) (txRetransmissionQueue s) (txCtxCause s) (txStreamID s) v
    (txCancelWriteErr s) (txCloseForShutdownErr s) (txFinishedWriting s) (txFinSent s) (txCompleted s)
    (txDataForWriting s) (txNextFrame s) (txWriteChan s) (txDeadline s) (txFlow s) (txEvents s).
Definition t_errs c e s : sendStream F :=
  mkTx (txNumOutstandingFrames s) (txRetransmissionQueue s) (txCtxCause s) (txStreamID s) (txWriteOffset s)
    c e (txFinishedWriting s) (txFinSent s) (txCompleted s) (txDataForWriting s) (txNextFrame s)
    (txWriteChan s) (txDeadline s) (txFlow s) (txEvents s).
Definition t_finishedWriting v s : sendStream F :=
  mkTx (txNumOutstandingFrames s) (txRetransmissionQueue s) (txCtxCause s) (txStreamID s) (txWriteOffset s)
    (txCancelWriteErr s) (txCloseForShutdownErr s) v (txFinSent s) (txCompleted s) (txDataForWriting s)
    (txNextFrame s) (txWriteChan s) (txDeadline s) (txFlow s) (txEvents s).
Definition t_finSent v s : sendStream F :=
  mkTx (txNumOutstandingFrames s) (txRetransmissionQueue s) (txCtxCause s) (txStreamID s) (txWriteOffset s)
    (txCancelWriteErr s) (txCloseForShutdownErr s) (txFinishedWriting s) v (txCompleted s)
    (txDataForWriting s) (txNextFrame s) (txWriteChan s) (txDeadline s) (txFlow s) (txEvents s).
Definition t_completed v s : sendStream F :=
  mkTx (txNumOutstandingFrames s) (txRetransmissionQueue s) (txCtxCause s) (txStreamID s) (txWriteOffset s)
    (txCancelWriteErr s) (txCloseForShutdownErr s) (txFinishedWriting s) (txFinSent s) v
    (txDataForWriting s) (txNextFrame s) (txWriteChan s) (txDeadline s) (txFlow s) (txEvents s).
Definition t_data d s : sendStream F :=
  mkTx (txNumOutstandingFrames s) (txRetransmissionQueue s) (txCtxCause s) (txStreamID s) (txWriteOffset s)
    (txCancelWriteErr s) (txCloseForShutdownErr s) (txFinishedWriting s) (txFinSent s) (txCompleted s) d
    (txNextFrame s) (txWriteChan s) (txDeadline s) (txFlow s) (txEvents s).
Definition t_next f s : sendStream F :=
  mkTx (txNumOutstandingFrames s) (txRetransmissionQueue s) (txCtxCause s) (txStreamID s) (txWriteOffset s)
    (txCancelWriteErr s) (txCloseForShutdownErr s) (txFinishedWriting s) (txFinSent s) (txCompleted s)
    (txDataForWriting s) f (txWriteChan s) (txDeadline s) (txFlow s) (txEvents s).
Definition t_chan v s : sendStream F :=
  mkTx (txNumOutstandingFrames s) (txRetransmissionQueue s) (txCtxCause s) (txStreamID s) (txWriteOffset s)
    (txCancelWriteErr s) (txCloseForShutdownErr s) (txFinishedWriting s) (txFinSent s) (txCompleted s)
    (txDataForWriting s) (txNextFrame s) v (txDeadline s) (txFlow s) (txEvents s).
Definition t_deadline v s : sendStream F :=
  mkTx (txNumOutstandingFrames s) (txRetransmissionQueue s) (txCtxCause s) (txStreamID s) (txWriteOffset s)
    (txCancelWriteErr s) (txCloseForShutdownErr s) (txFinishedWriting s) (txFinSent s) (txCompleted s)
    (txDataForWriting s) (txNextFrame s) (txWriteChan s) v (txFlow s) (txEvents s).
Definition t_flow v s : sendStream F :=
  mkTx (txNumOutstandingFrames s) (txRetransmissionQueue s) (txCtxCause s) (txStreamID s) (txWriteOffset s)
    (txCancelWriteErr s) (txCloseForShutdownErr s) (txFinishedWriting s) (txFinSent s) (txCompleted s)
    (txDataForWriting s) (txNextFrame s) (txWriteChan s) (txDeadline s) v (txEvents s).
Definition t_event e s : sendStream F :=
  mkTx (txNumOutstandingFrames s) (txRetransmissionQueue s) (txCtxCause s) (txStreamID s) (txWriteOffset s)
    (txCancelWriteErr s) (txCloseForShutdownErr s) (txFinishedWriting s) (txFinSent s) (txCompleted s)
    (txDataForWriting s) (txNextFrame s) (txWriteChan s) (txDeadline s) (txFlow s) (txEvents s ++ [e]).

Abbreviation txM := (stM (sendStream F)).

Definition onTxFlow {T} (m : stM F T) : txM T := fun s => let '(r, f) := m (txFlow s) in (r, t_flow f s).

(** A non-blocking send on a channel of capacity 1. *)
Definition signalWrite : txM unit := modify (t_chan true).

Definition onHasStreamData : txM unit := modify (fun s => t_event (TxHasStreamData (txStreamID s)) s).
Definition onTxCompleted : txM unit := modify (fun s => t_event (TxStreamCompleted (txStreamID s)) s).

(** Only the first cancellation of the context counts. *)
Definition ctxCancel (cause : option tx_err) : txM unit :=
  modify (fun s => if bool_decide (is_Some (txCtxCause s)) then s else t_ctx (Some cause) s).

(** [b[:n]] on the buffer of a pooled frame *)
Definition poolSlice (n : Z) : res unit :=
  if (n <? 0) || (MaxPacketBufferSize <? n) then Panic "slice bounds out of range" else Ok tt.

(** ** Writing *)

Definition data_len s : Z := blen (default [] (txDataForWriting s)).

Definition canBufferStreamFrame s : bool :=
  let l := match txNextFrame s with Some f => sfDataLen f | None => 0 end in
  l + data_len s <=? MaxPacketBufferSize.

Inductive write_result :=
  | WriteReturns (n : Z) (err : option tx_err)
  | WriteBlocks.

(** After the loop of [Write]. *)
Definition writeDone s (plen bytesWritten : Z) : write_result :=
  if bytesWritten =? plen then WriteReturns bytesWritten None
  else match txCloseForShutdownErr s, txCancelWriteErr s with
  | Some e, _ => WriteReturns bytesWritten (Some (TxShutdown e))
  | None, Some e => WriteReturns bytesWritten (Some e)
  | None, None => WriteReturns bytesWritten None
  end.

Definition bufferData : txM unit :=
  s ← get;
  let d := default [] (txDataForWriting s) in
  _ ← (match txNextFrame s with
       | None =>
           _ ← lift (poolSlice (blen d));
           modify (t_next (Some (mkStream (txStreamID s) (txWriteOffset s) d false true)))
       | Some f =>
           _ ← lift (poolSlice (sfDataLen f + blen d));
           modify (t_next (Some (mkStream (sfStreamID f) (sfOffset f) (sfData f ++ d) (sfFin f) (sfDataLenPresent f))))
       end);
  modify (t_data None).

(** One round of the loop of [Write], until it returns or waits. *)
Definition writeRound (plen now : Z) (notifiedSender : bool) : txM write_result :=
  s ← get;
  if canBufferStreamFrame s && (0 <? data_len s) then
    _ ← bufferData;
    _ ← (if notifiedSender then mret tt else onHasStreamData);
    s ← get;
    mret (writeDone s plen plen)
  else
    let bytesWritten := plen - data_len s in
    if negb (Time_IsZero (txDeadline s)) && negb (Time_Before now (txDeadline s)) then
      _ ← modify (t_data None);
      mret (WriteReturns bytesWritten (Some TxDeadline))
    else if bool_decide (txDataForWriting s = None) || bool_decide (is_Some (txCancelWriteErr s))
            || bool_decide (is_Some (txCloseForShutdownErr s))
    then mret (writeDone s plen bytesWritten)
    else
      _ ← (if notifiedSender then mret tt else onHasStreamData);
      mret WriteBlocks.

Definition Write (p : bytes) (now : Z) : txM write_result :=
  s ← get;
  if txFinishedWriting s then mret (WriteReturns 0 (Some TxWriteOnClosed))
  else match txCancelWriteErr s, txCloseForShutdownErr s with
  | Some e, _ => mret (WriteReturns 0 (Some e))
  | None, Some e => mret (WriteReturns 0 (Some (TxShutdown e)))
  | None, None =>
      if negb (Time_IsZero (txDeadline s)) && negb (Time_Before now (txDeadline s))
      then mret (WriteReturns 0 (Some TxDeadline))
      else if blen p =? 0 then mret (WriteReturns 0 None)
      else
        _ ← modify (t_data (Some p));
        writeRound (blen p) now false
  end.

(** A waiting [Write] was woken up, by the deadline timer or through the channel. *)
Definition WriteResume (plen now : Z) (timer : bool) : txM write_result :=
  _ ← (if timer then mret tt else modify (t_chan false));
  writeRound plen now true.

(** ** Sending *)

Definition maybeGetRetransmission (maxBytes : Z) : txM (option StreamFrame * bool) :=
  s ← get;
  match txRetransmissionQueue s with
  | [] => lift (Panic "index out of range")
  | f :: q =>
      '(newFrame, needsSplit, f') ← lift (stream_MaybeSplitOffFrame f maxBytes);
      if (needsSplit : bool) then
        _ ← modify (fun s => t_frames (txNumOutstandingFrames s) (f' :: q) s);
        mret (newFrame, true)
      else
        _ ← modify (fun s => t_frames (txNumOutstandingFrames s) q s);
        mret (Some f', 0 <? blen q)
  end.

(** The data copied to the frame. *)
Definition getDataForWriting (maxBytes : Z) : txM bytes :=
  s ← get;
  let d := default [] (txDataForWriting s) in
  if blen d <=? maxBytes then
    _ ← lift (poolSlice (blen d));
    _ ← modify (t_data None);
    _ ← signalWrite;
    mret d
  else
    _ ← lift (poolSlice maxBytes);
    _ ← modify (t_data (Some (drop (Z.to_nat maxBytes) d)));
    s ← get;
    _ ← (if canBufferStreamFrame s then signalWrite else mret tt);
    mret (take (Z.to_nat maxBytes) d).

Definition hasMoreToWrite s : bool :=
  bool_decide (is_Some (txDataForWriting s)) || bool_decide (is_Some (txNextFrame s)) || txFinishedWriting s.

Definition popNewStreamFrameWithoutBuffer (f : StreamFrame) (maxBytes sendWindow : Z) : txM (StreamFrame * bool) :=
  maxDataLen ← lift (stream_MaxDataLen f maxBytes);
  if maxDataLen =? 0 then s ← get; mret (f, hasMoreToWrite s)
  else
    d ← getDataForWriting (Z.min maxDataLen sendWindow);
    s ← get;
    mret (mkStream (sfStreamID f) (sfOffset f) d (sfFin f) (sfDataLenPresent f), hasMoreToWrite s).

Definition popNewStreamFrame (maxBytes sendWindow : Z) : txM (option StreamFrame * bool) :=
  s ← get;
  match txNextFrame s with
  | Some nextFrame =>
      _ ← modify (t_next None);
      n ← lift (stream_MaxDataLen nextFrame maxBytes);
      let maxDataLen := Z.min sendWindow n in
      frame ← (if maxDataLen <? sfDataLen nextFrame then
                 _ ← lift (poolSlice (sfDataLen nextFrame - maxDataLen));
                 _ ← modify (fun s => t_next (Some (mkStream (txStreamID s) (i64 (txWriteOffset s + maxDataLen))
                                                (drop (Z.to_nat maxDataLen) (sfData nextFrame)) false true)) s);
                 mret (mkStream (sfStreamID nextFrame) (sfOffset nextFrame)
                         (take (Z.to_nat maxDataLen) (sfData nextFrame)) (sfFin nextFrame) (sfDataLenPresent nextFrame))
               else
                 _ ← signalWrite; mret nextFrame);
      s ← get;
      mret (Some frame, bool_decide (is_Some (txNextFrame s)) || bool_decide (is_Some (txDataForWriting s)))
  | None =>
      '(f, hasMoreData) ← popNewStreamFrameWithoutBuffer
        (mkStream (txStreamID s) (txWriteOffset s) [] false true) maxBytes sendWindow;
      mret (if (sfDataLen f =? 0) && negb (sfFin f) then None else Some f, hasMoreData)
  end.

(** From [sendWindow] on. *)
Definition popNewData (maxBytes : Z) : txM (option StreamFrame * bool) :=
  s ← get;
  let sendWindow := tfc_SendWindowSize (txFlow s) in
  if sendWindow =? 0 then
    '(isBlocked, offset) ← onTxFlow tfc_IsNewlyBlocked;
    if (isBlocked : bool) then
      _ ← modify (t_event (TxQueuedBlocked (mkStreamDataBlocked (txStreamID s) offset)));
      mret (None, false)
    else mret (None, true)
  else
    '(frame, hasMoreData) ← popNewStreamFrame maxBytes sendWindow;
    f ← lift (from_option Ok (Panic "nil pointer dereference") frame);
    _ ← (if 0 <? sfDataLen f then
           _ ← modify (fun s => t_offset (i64 (txWriteOffset s + sfDataLen f)) s);
           onTxFlow (tfc_AddBytesSent (sfDataLen f))
         else mret tt);
    s ← get;
    let fin := txFinishedWriting s && bool_decide (txDataForWriting s = None) && bool_decide (txNextFrame s = None)
               && negb (txFinSent s) in
    _ ← (if fin then modify (t_finSent true) else mret tt);
    mret (Some (mkStream (sfStreamID f) (sfOffset f) (sfData f) fin (sfDataLenPresent f)), hasMoreData).

(** The rest, after the retransmissions. *)
Definition popNew (maxBytes : Z) : txM (option StreamFrame * bool) :=
  s ← get;
  if (data_len s =? 0) && bool_decide (txNextFrame s = None) then
    if txFinishedWriting s && negb (txFinSent s) then
      _ ← modify (t_finSent true);
      mret (Some (mkStream (txStreamID s) (txWriteOffset s) [] true true), false)
    else mret (None, false)
  else popNewData maxBytes.

Definition popNewOrRetransmittedStreamFrame (maxBytes : Z) : txM (option StreamFrame * bool) :=
  s ← get;
  if bool_decide (is_Some (txCancelWriteErr s)) || bool_decide (is_Some (txCloseForShutdownErr s))
  then mret (None, false)
  else if 0 <? blen (txRetransmissionQueue s) then
    '(f, hasMoreRetransmissions) ← maybeGetRetransmission maxBytes;
    if bool_decide (is_Some f) || hasMoreRetransmissions then mret (f, true)
    else popNew maxBytes
  else popNew maxBytes.

Definition popStreamFrame (maxBytes : Z) : txM (option StreamFrame * bool) :=
  '(f, hasMoreData) ← popNewOrRetransmittedStreamFrame maxBytes;
  _ ← (match f with
       | Some _ => modify (fun s => t_frames (txNumOutstandingFrames s + 1) (txRetransmissionQueue s) s)
       | None => mret tt
       end);
  mret (f, hasMoreData).

Definition hasData s : bool := 0 <? data_len s.

(** ** Closing *)

Definition isNewlyCompleted : txM bool :=
  s ← get;
  let completed := (txFinSent s || bool_decide (is_Some (txCancelWriteErr s))) && (txNumOutstandingFrames s =? 0)
                   && (blen (txRetransmissionQueue s) =? 0) in
  if completed && negb (txCompleted s) then _ ← modify (t_completed true); mret true
  else mret false.

Definition Close : txM (option tx_err) :=
  s ← get;
  if bool_decide (is_Some (txCloseForShutdownErr s)) then mret None
  else if bool_decide (is_Some (txCancelWriteErr s)) then mret (Some TxCloseOnCanceled)
  else
    _ ← ctxCancel None;
    _ ← modify (t_finishedWriting true);
    _ ← onHasStreamData;
    mret None.

Definition cancelWriteImpl (errorCode : Z) (remote : bool) : txM unit :=
  s ← get;
  if bool_decide (is_Some (txCancelWriteErr s)) then mret tt
  else
    let err := TxStreamError (txStreamID s) errorCode remote in
    _ ← modify (fun s => t_errs (Some err) (txCloseForShutdownErr s) s);
    _ ← ctxCancel (Some err);
    _ ← modify (t_frames 0 []);
    newlyCompleted ← isNewlyCompleted;
    _ ← signalWrite;
    _ ← modify (fun s => t_event (TxQueuedReset (mkResetStream (txStreamID s) errorCode (txWriteOffset s))) s);
    if (newlyCompleted : bool) then onTxCompleted else mret tt.

Definition CancelWrite (errorCode : Z) : txM unit := cancelWriteImpl errorCode false.

Definition handleStopSendingFrame (frame : StopSendingFrame) : txM unit := cancelWriteImpl (ssErrorCode frame) true.

Definition updateSendWindow (limit : Z) : txM unit :=
  s ← get;
  let hasStreamData := bool_decide (is_Some (txDataForWriting s)) || bool_decide (is_Some (txNextFrame s)) in
  _ ← onTxFlow (tfc_UpdateSendWindow limit);
  if hasStreamData then onHasStreamData else mret tt.

Definition SetWriteDeadline (t : Z) : txM unit := _ ← modify (t_deadline t); signalWrite.

Definition tx_closeForShutdown (err : GoError) : txM unit :=
  _ ← ctxCancel (Some (TxShutdown err));
  _ ← modify (fun s => t_errs (txCancelWriteErr s) (Some err) s);
  signalWrite.

(** ** Acknowledgments *)

Definition decOutstanding : txM unit :=
  _ ← modify (fun s => t_frames (txNumOutstandingFrames s - 1) (txRetransmissionQueue s) s);
  s ← get;
  if txNumOutstandingFrames s <? 0 then lift (Panic "numOutStandingFrames negative") else mret tt.

Definition OnAcked (f : StreamFrame) : txM unit :=
  s ← get;
  if bool_decide (is_Some (txCancelWriteErr s)) then mret tt
  else
    _ ← decOutstanding;
    newlyCompleted ← isNewlyCompleted;
    if (newlyCompleted : bool) then onTxCompleted else mret tt.

Definition OnLost (sf : StreamFrame) : txM unit :=
  s ← get;
  if bool_decide (is_Some (txCancelWriteErr s)) then mret tt
  else
    let sf := mkStream (sfStreamID sf) (sfOffset sf) (sfData sf) (sfFin sf) true in
    _ ← modify (fun s => t_frames (txNumOutstandingFrames s) (txRetransmissionQueue s ++ [sf]) s);
    _ ← decOutstanding;
    onHasStreamData.
End model.
Abbreviation txM F := (stM (sendStream F)).
