(* ===== verification/SendStreamProofs.v ===== *)
(** * SendStreamProofs: the send stream cuts the written bytes into frames

    The flow controllers of FlowControl.v satisfy the laws of [SendFlow]; on any
    flow controller that does, [popStreamFrame] sends the written bytes in
    order, each at its offset, and retransmits what was lost. *)

From S2P Require Import Prelude Protocol Varint Frames FrameSplit FlowControl SendStream.
From stdpp Require Import base numbers list option strings sorting.
From Stdlib Require Import ZArith Lia.
#[local] Open Scope Z_scope.

(** ** The flow controllers *)

#[export] Instance fc_SendFlow : SendFlow (streamFlowController * connectionFlowController) := {
  tfc_SendWindowSize := str_SendWindowSize;
  tfc_IsNewlyBlocked := fun sc => let '(r, b) := IsNewlyBlocked (strBase sc.1) in (Ok r, (str_set b sc.1, sc.2));
  tfc_AddBytesSent := str_AddBytesSent;
  tfc_UpdateSendWindow limit := modifyStream (fun c => str_set (UpdateSendWindow limit (strBase c)) c)
}.

#[export] Program Instance fc_SendFlowLaws : SendFlowLaws (streamFlowController * connectionFlowController) := {
  tfc_ok sc := send_ok (strBase sc.1) [] /\ send_ok (connBase sc.2) [];
  tfc_sent sc := fcBytesSent (strBase sc.1)
}.
Next Obligation.
  intros [s c] [Hs Hc]. cbn in *. unfold str_SendWindowSize, conn_SendWindowSize. cbn.
  rewrite (sendWindowSize_ok _ _ Hs), (sendWindowSize_ok _ _ Hc). destruct Hs as (? & ? & _), Hc as (? & ? & _).
  unfold MaxByteCount. lia.
Qed.
Next Obligation.
  intros [s c] [Hs Hc]. cbn in *. unfold wp. cbn. pose proof (IsNewlyBlocked_ok _ _ Hs) as Hb.
  unfold IsNewlyBlocked in *. destruct (_ || _); [by destruct s|]. cbn. split; [|done]. split; [|done].
  destruct Hs as (H1 & H2 & H3 & _). split; [done|]. split; [done|]. cbn. split; [lia|split; constructor].
Qed.
Next Obligation.
  intros [s c] n [Hs Hc] Hn. cbn [tfc_SendWindowSize fc_SendFlow] in Hn. unfold str_SendWindowSize, conn_SendWindowSize in Hn. cbn [fst snd] in *.
  unfold str_AddBytesSent. apply wp_bind, wp_modify, wp_modify. cbn [fst snd strBase str_set conn_set connBase].
  split; [split; apply AddBytesSent_ok; done || lia|]. unfold fc_AddBytesSent. cbn.
  rewrite (sendWindowSize_ok _ _ Hs) in Hn. destruct Hs as (? & ? & _). apply i64_small. int_range.
Qed.
Next Obligation.
  intros [s c] limit [Hs Hc] Hl. unfold MaxByteCount in Hl. apply wp_modify. cbn [fst snd strBase str_set] in *.
  split; [split; [apply UpdateSendWindow_ok; [done|lia]|done]|]. unfold UpdateSendWindow. by case_match.
Qed.

(** ** The invariant *)

Section proofs.
Context {F : Type} `{HF : SendFlow F} {HL : SendFlowLaws F}.
Implicit Types (s : sendStream F) (f : StreamFrame).

(** The bytes that wait to be sent: the frame that was buffered, then the rest of
    the data of [Write]. *)
Definition next_data s : bytes := from_option sfData [] (txNextFrame s).
Definition pending s : bytes := next_data s ++ default [] (txDataForWriting s).

(** A frame of the bytes [sent]. *)
Definition frame_of (sent : bytes) (finSent : bool) (id : Z) f : Prop :=
  sfStreamID f = id /\ 0 <= sfOffset f /\ sfOffset f + sfDataLen f <= blen sent /\
  sfData f = take (length (sfData f)) (drop (Z.to_nat (sfOffset f)) sent) /\
  (sfFin f = true -> finSent = true /\ sfOffset f + sfDataLen f = blen sent) /\
  sfDataLen f <= MaxPacketBufferSize /\ (sfData f <> [] \/ sfFin f = true).

Record tx_core (sent : bytes) s : Prop := {
  tc_id : is_varint (txStreamID s);
  tc_off : txWriteOffset s = blen sent;
  tc_flow : tfc_ok (txFlow s);
  tc_sent : tfc_sent (txFlow s) = blen sent;
  tc_bytes : bytes_ok (sent ++ pending s);
  tc_data : txDataForWriting s <> Some [];
  tc_next : forall f, txNextFrame s = Some f ->
    sfStreamID f = txStreamID s /\ sfOffset f = blen sent /\ sfData f <> [] /\
    sfDataLen f <= MaxPacketBufferSize /\ sfDataLenPresent f = true;
  tc_retr : Forall (frame_of sent (txFinSent s) (txStreamID s)) (txRetransmissionQueue s);
  tc_fin : txFinSent s = true -> txFinishedWriting s = true /\ txDataForWriting s = None /\ txNextFrame s = None
}.

Definition covered (fs : list StreamFrame) (b : Z) : Prop :=
  Exists (fun f => sfOffset f <= b < sfOffset f + sfDataLen f) fs.
Definition has_fin (fs : list StreamFrame) : Prop := Exists (fun f => sfFin f = true) fs.

Lemma sent_bound sent s : tx_core sent s -> blen sent <= MaxByteCount.
Proof. intros Hc. pose proof (tfc_window _ (tc_flow _ _ Hc)). pose proof (tc_sent _ _ Hc). lia. Qed.

(** A frame of the sent bytes stays one. *)
Lemma frame_of_app sent new (finSent finSent' : bool) id f :
  frame_of sent finSent id f -> (finSent = true -> finSent' = true /\ new = []) ->
  frame_of (sent ++ new) finSent' id f.
Proof.
  intros (H1 & H2 & H3 & H4 & H5 & H6) Hf. split; [done|]. split; [done|]. unfold sfDataLen in *.
  rewrite blen_app. pose proof (blen_nonneg new). split; [lia|]. split; [|split; [|done]].
  - rewrite H4 at 1. unfold blen in H3. rewrite drop_app_le, take_app_le; [done|rewrite ?length_drop; unfold blen in *; lia..].
  - intros [Hs He]%H5. destruct (Hf Hs) as [? ->]. rewrite blen_nil. split; [done|lia].
Qed.

Lemma frame_of_ok sent s fs f :
  tx_core sent s -> frame_of sent fs (txStreamID s) f -> streamFrame_ok f.
Proof.
  intros Hc (H1 & H2 & H3 & H4 & H5 & H6). pose proof (sent_bound _ _ Hc) as Hb.
  pose proof (blen_nonneg (sfData f)). unfold sfDataLen in *.
  split; [rewrite H1; by destruct Hc|]. split; [unfold is_varint, maxVarInt8, MaxByteCount in *; lia|].
  split; [|unfold sfDataLen; split; [apply H6|lia]].
  rewrite H4. apply Forall_take, Forall_drop. pose proof (tc_bytes _ _ Hc) as Hby.
  by apply Forall_app in Hby as [? _].
Qed.

(** ** Sending new data *)

Lemma MaxDataLen_bounds f maxBytes :
  is_varint (sfStreamID f) -> is_varint (sfOffset f) -> sfDataLenPresent f = true ->
  MinStreamFrameSize <= maxBytes <= MaxPacketBufferSize ->
  exists n, stream_MaxDataLen f maxBytes = Ok n /\ 0 < n <= MaxPacketBufferSize /\
    forall m, 0 <= m <= n -> streamHeader f + vlen m + m <= maxBytes.
Proof.
  intros H1 H2 H3 Hm. unfold MinStreamFrameSize, MaxPacketBufferSize in *.
  set (g := mkStream (sfStreamID f) (sfOffset f) [] false true).
  assert (Hg : streamFrame_ok g).
  { split; [done|]. split; [done|]. split; [by constructor|]. unfold sfDataLen. cbn.
    unfold MaxPacketBufferSize, MaxByteCount, is_varint, maxVarInt8, blen in *. cbn. lia. }
  assert (E : stream_MaxDataLen f maxBytes = stream_MaxDataLen g maxBytes) by (unfold stream_MaxDataLen; by rewrite H3).
  rewrite E, stream_MaxDataLen_spec by done. cbn [g sfDataLenPresent].
  assert (Hh : 1 <= streamHeader g <= 17).
  { unfold streamHeader. pose proof (vlen_range (sfStreamID g)). pose proof (vlen_range (sfOffset g)). case_match; lia. }
  destruct (fitData_spec (streamHeader g + 1) maxBytes true) as (n & -> & Hn & Hsz & _ & Hyes & _); [lia|lia|].
  exists n. split; [done|]. specialize (Hsz ltac:(lia)). specialize (Hyes ltac:(lia) eq_refl).
  split; [lia|]. intros m Hmn. change (streamHeader f) with (streamHeader g).
  pose proof (vlen_mono m n ltac:(lia)). lia.
Qed.

Lemma poolSlice_ok n : 0 <= n <= MaxPacketBufferSize -> poolSlice n = Ok tt.
Proof. intros Hn. unfold poolSlice. zfalse (n <? 0). by zfalse (MaxPacketBufferSize <? n). Qed.

(** Everything but the data that waits and the wake-up. *)
Definition tx_rest s :=
  (txNumOutstandingFrames s, txRetransmissionQueue s, txCtxCause s, txStreamID s, txWriteOffset s, txCancelWriteErr s,
   txCloseForShutdownErr s, txFinishedWriting s, txFinSent s, txCompleted s, txDeadline s, txFlow s, txEvents s).

Definition next_ok (off : Z) s : Prop := forall f, txNextFrame s = Some f ->
  sfStreamID f = txStreamID s /\ sfOffset f = off /\ sfData f <> [] /\
  sfDataLen f <= MaxPacketBufferSize /\ sfDataLenPresent f = true.

(** The next bytes were moved to the frame [f]. *)
Definition new_frame (sent : bytes) (w maxBytes : Z) s f s' : Prop :=
  sfStreamID f = txStreamID s /\ sfOffset f = blen sent /\ sfDataLenPresent f = true /\ sfData f <> [] /\
  sfDataLen f <= w /\ sfDataLen f <= MaxPacketBufferSize /\
  streamHeader f + vlen (sfDataLen f) + sfDataLen f <= maxBytes /\
  pending s = sfData f ++ pending s' /\ next_ok (blen sent + sfDataLen f) s' /\
  txDataForWriting s' <> Some [] /\ data_len s' <= data_len s /\ tx_rest s' = tx_rest s.

Lemma wp_getDataForWriting m s E d :
  txDataForWriting s = Some d -> txNextFrame s = None -> d <> [] -> 0 < m <= MaxPacketBufferSize ->
  wp (getDataForWriting m)
    (fun d' s' => d' <> [] /\ blen d' <= m /\ pending s = d' ++ pending s' /\ txNextFrame s' = None /\
       txDataForWriting s' <> Some [] /\ data_len s' <= data_len s /\ tx_rest s' = tx_rest s) E s.
Proof.
  intros Hd Hn Hne Hm. unfold getDataForWriting. apply wp_bind, wp_get. rewrite Hd. change (default [] (Some d)) with d.
  pose proof (blen_nonneg d). assert (Hp : pending s = d) by (unfold pending, next_data; by rewrite Hn, Hd).
  destruct (Z.leb_spec (blen d) m) as [Hle|Hgt].
  - apply wp_bind. eapply wp_lift; [apply poolSlice_ok; lia|]. apply wp_bind, wp_modify, wp_bind, wp_modify, wp_ret.
    assert (Hdl : data_len (t_chan true (t_data None s)) <= data_len s) by apply blen_nonneg.
    split; [done|]. split; [done|]. split; [|done]. unfold pending, next_data. cbn. by rewrite Hn, Hd, app_nil_r.
  - apply wp_bind. eapply wp_lift; [apply poolSlice_ok; lia|]. apply wp_bind, wp_modify, wp_bind, wp_get, wp_bind.
    set (s1 := t_data _ s).
    assert (H1 : take (Z.to_nat m) d <> [] /\ blen (take (Z.to_nat m) d) <= m /\
      pending s = take (Z.to_nat m) d ++ pending s1 /\ txNextFrame s1 = None /\
      txDataForWriting s1 <> Some [] /\ data_len s1 <= data_len s /\ tx_rest s1 = tx_rest s).
    { unfold blen in Hgt. split; [|split; [|split; [|split; [done|split; [|split; [|done]]]]]].
      - intros E0. apply (f_equal length) in E0. rewrite length_take in E0. cbn in E0. lia.
      - unfold blen. rewrite length_take. lia.
      - rewrite Hp. unfold pending, next_data. cbn. rewrite Hn. cbn. by rewrite take_drop.
      - cbn. intros [= E0]. apply (f_equal length) in E0. rewrite length_drop in E0. cbn in E0. lia.
      - unfold data_len, blen. cbn. rewrite Hd. cbn. rewrite length_drop. lia. }
    destruct (canBufferStreamFrame s1); [apply wp_modify|]; apply wp_ret; exact H1.
Qed.

Lemma wp_popNewStreamFrame sent s maxBytes w E :
  tx_core sent s -> pending s <> [] -> 0 < w <= tfc_SendWindowSize (txFlow s) ->
  MinStreamFrameSize <= maxBytes <= MaxPacketBufferSize ->
  wp (popNewStreamFrame maxBytes w)
    (fun r s' => exists f, r.1 = Some f /\ new_frame sent w maxBytes s f s') E s.
Proof.
  intros Hc Hp Hw Hm. pose proof (sent_bound _ _ Hc) as Hb. pose proof (blen_nonneg sent) as Hs0.
  pose proof (tfc_window _ (tc_flow _ _ Hc)) as Hwin. rewrite (tc_sent _ _ Hc) in Hwin.
  assert (Hv : is_varint (blen sent)) by (unfold is_varint, maxVarInt8, MaxByteCount in *; lia).
  unfold popNewStreamFrame. apply wp_bind, wp_get. destruct (txNextFrame s) as [nf|] eqn:En.
  - destruct (tc_next _ _ Hc nf En) as (N1 & N2 & N3 & N4 & N5). apply wp_bind, wp_modify, wp_bind.
    destruct (MaxDataLen_bounds nf maxBytes) as (n & En' & Hn & Hfit); [rewrite N1; by destruct Hc|by rewrite N2|done..|].
    eapply wp_lift; [exact En'|]. pose proof (blen_nonneg (sfData nf)) as Hl0. fold (sfDataLen nf) in Hl0.
    set (k := Z.min w n). assert (Hk : 0 < k <= w /\ k <= n) by lia. clearbody k.
    assert (Hpend : pending s = sfData nf ++ default [] (txDataForWriting s)) by (unfold pending, next_data; by rewrite En).
    apply wp_bind. destruct (Z.ltb_spec k (sfDataLen nf)) as [Hlt|Hge].
    + apply wp_bind. eapply wp_lift; [apply poolSlice_ok; lia|]. apply wp_bind, wp_modify, wp_ret, wp_bind, wp_get, wp_ret.
      eexists. split; [done|]. set (f := mkStream _ _ (take _ _) _ _).
      assert (Hlen : sfDataLen f = k).
      { unfold sfDataLen, blen in *. cbn. rewrite length_take. lia. }
      unfold new_frame. rewrite Hlen. split; [done|]. split; [done|]. split; [done|]. split.
      { intros E0. unfold sfDataLen in Hlen. rewrite E0, blen_nil in Hlen. lia. }
      split; [lia|]. split; [lia|]. split; [by apply Hfit; lia|]. split; [|split; [|split; [by destruct Hc|by split]]].
      * rewrite Hpend. unfold pending, next_data. cbn. by rewrite app_assoc, take_drop.
      * intros g [= <-]. cbn. split; [done|]. rewrite (tc_off _ _ Hc). split; [apply i64_small; unfold MaxByteCount in *; int_range|].
        split; [|split; [unfold sfDataLen; cbn|done]].
        -- intros E0. apply (f_equal length) in E0. rewrite length_drop in E0. unfold sfDataLen, blen in *. cbn in E0. lia.
        -- unfold sfDataLen, blen in *. rewrite length_drop. lia.
    + apply wp_bind, wp_modify, wp_ret, wp_bind, wp_get, wp_ret. exists nf. split; [done|].
      split; [done|]. split; [done|]. split; [done|]. split; [done|]. split; [lia|]. split; [done|].
      split; [by apply Hfit; lia|]. split; [|split; [by intros ? [=]|split; [by destruct Hc|by split]]].
      rewrite Hpend. done.
  - destruct (txDataForWriting s) as [d|] eqn:Ed; [|unfold pending, next_data in Hp; by rewrite En, Ed in Hp].
    assert (d <> []) by (intros ->; by apply (tc_data _ _ Hc)).
    apply wp_bind, wp_bind. rewrite (tc_off _ _ Hc). set (f0 := mkStream _ _ [] false true).
    destruct (MaxDataLen_bounds f0 maxBytes) as (n & En' & Hn & Hfit); [by destruct Hc|done..|].
    eapply wp_lift; [exact En'|]. zfalse (n =? 0). apply wp_bind.
    eapply wp_mono; [| |apply (wp_getDataForWriting (Z.min n w) s (fun _ _ => False) d); done || lia]; [|done].
    intros d' s' (D1 & D2 & D3 & D4 & D5 & D6 & D7). apply wp_bind, wp_get, wp_ret, wp_ret.
    assert (Hd' : 0 < blen d') by (destruct d'; [done|]; rewrite blen_cons; pose proof (blen_nonneg d'); lia).
    unfold sfDataLen. cbn [sfData sfFin fst]. zfalse (blen d' =? 0). cbn [andb]. eexists. split; [done|].
    split; [done|]. split; [done|]. split; [done|]. split; [done|]. unfold sfDataLen. cbn [sfData].
    split; [lia|]. split; [lia|]. split; [apply (Hfit (blen d')); lia|]. split; [done|]. split; [|done].
    intros g Hg. congruence.
Qed.

(** What a call of [popStreamFrame] leaves alone. *)
Definition tx_ctl s :=
  (txCtxCause s, txStreamID s, txCancelWriteErr s, txCloseForShutdownErr s, txFinishedWriting s, txCompleted s,
   txDeadline s).

Definition is_tx_completion (e : tx_event) : bool := match e with TxStreamCompleted _ => true | _ => false end.
Definition tx_completions s : list tx_event := filter is_tx_completion (txEvents s).

Definition writable s : Prop := txCancelWriteErr s = None /\ txCloseForShutdownErr s = None.

(** Nothing was sent: the stream is canceled or shut down, or nothing was lost and
    there is nothing new to send that flow control allows. *)
Definition nothing_to_send s : Prop :=
  ~ writable s \/
  (txRetransmissionQueue s = [] /\
   ((pending s = [] /\ (txFinishedWriting s = true -> txFinSent s = true)) \/
    (pending s <> [] /\ tfc_SendWindowSize (txFlow s) = 0))).

(** The result of [popStreamFrame], the frame counter apart. *)
Definition popped (maxBytes : Z) (sent : bytes) s (o : option StreamFrame) s' : Prop :=
  tx_ctl s' = tx_ctl s /\ tx_completions s' = tx_completions s /\
  txNumOutstandingFrames s' = txNumOutstandingFrames s /\
  match o with
  | None => tx_core sent s' /\ nothing_to_send s /\ pending s' = pending s /\ next_data s' = next_data s /\
      txDataForWriting s' = txDataForWriting s /\
      txFinSent s' = txFinSent s /\ txRetransmissionQueue s' = txRetransmissionQueue s
  | Some f => writable s /\ exists new, tx_core (sent ++ new) s' /\ pending s = new ++ pending s' /\ data_len s' <= data_len s /\
      frame_of (sent ++ new) (txFinSent s') (txStreamID s) f /\
      (exists l, frame_Length f = Ok l /\ l <= maxBytes) /\
      (txFinSent s = true -> txFinSent s' = true /\ txRetransmissionQueue s <> []) /\
      (forall b, covered (txRetransmissionQueue s) b \/ blen sent <= b < blen (sent ++ new) ->
         covered (f :: txRetransmissionQueue s') b) /\
      (has_fin (txRetransmissionQueue s) \/ (txFinSent s = false /\ txFinSent s' = true) ->
         has_fin (f :: txRetransmissionQueue s'))
  end.

Lemma core_frame sent s f maxBytes :
  tx_core sent s -> sfDataLen f <= MaxPacketBufferSize ->
  is_varint (sfStreamID f) -> is_varint (sfOffset f) -> sfDataLenPresent f = true ->
  streamHeader f + vlen (sfDataLen f) + sfDataLen f <= maxBytes ->
  exists l, frame_Length f = Ok l /\ l <= maxBytes.
Proof.
  intros Hc Hl H1 H2 H3 Hfit. eexists. split; [|exact Hfit]. frame_unfold.
  pose proof (blen_nonneg (sfData f)) as Hn. fold (sfDataLen f) in Hn.
  assert (Hv : is_varint (sfDataLen f)) by (unfold is_varint, maxVarInt8, MaxPacketBufferSize in *; lia).
  unfold streamVarints. rewrite H3, !varint_u64 by done.
  assert (Hall : Forall is_varint (sfStreamID f :: (if negb (sfOffset f =? 0) then [sfOffset f] else []) ++ [sfDataLen f])).
  { apply Forall_cons. split; [done|]. destruct (negb _); solve_varints. }
  rewrite lenVarints_vencs by done. cbn [mbind res_bind]. rewrite blen_vencs by done. unfold streamHeader.
  destruct (sfOffset f =? 0); cbn [negb app foldr]; f_equal; lia.
Qed.

(** The new bytes are a frame of what was sent then. *)
Lemma new_frame_of sent (fs : bool) id f fin :
  sfStreamID f = id -> sfOffset f = blen sent -> sfDataLenPresent f = true -> sfDataLen f <= MaxPacketBufferSize ->
  (fin = true -> fs = true) -> sfData f <> [] \/ fin = true ->
  frame_of (sent ++ sfData f) fs id (mkStream (sfStreamID f) (sfOffset f) (sfData f) fin (sfDataLenPresent f)).
Proof.
  intros H1 H2 H3 H4 H5 H6. pose proof (blen_nonneg sent). unfold frame_of, sfDataLen in *. cbn.
  rewrite H2, blen_app. split; [done|]. split; [done|]. split; [lia|]. split; [|split; [|done]].
  - unfold blen. rewrite Nat2Z.id, drop_app_length, firstn_all. done.
  - intros Hf. split; [auto|lia].
Qed.

Lemma wp_popNewData maxBytes sent s E :
  tx_core sent s -> writable s -> txRetransmissionQueue s = [] -> pending s <> [] ->
  MinStreamFrameSize <= maxBytes <= MaxPacketBufferSize ->
  wp (popNewData maxBytes) (fun r s' => popped maxBytes sent s r.1 s') E s.
Proof.
  intros Hc Hwr Hq Hp Hm. pose proof (sent_bound _ _ Hc) as Hb. pose proof (blen_nonneg sent) as Hs0.
  pose proof (tfc_window _ (tc_flow _ _ Hc)) as Hwin. rewrite (tc_sent _ _ Hc) in Hwin.
  assert (Hv : is_varint (blen sent)) by (unfold is_varint, maxVarInt8, MaxByteCount in *; lia).
  unfold popNewData. apply wp_bind, wp_get. destruct (Z.eqb_spec (tfc_SendWindowSize (txFlow s)) 0) as [E0|E0].
  - apply wp_bind. pose proof (tfc_blocked _ (tc_flow _ _ Hc)) as Hbl. unfold wp, onTxFlow in *.
    destruct (tfc_IsNewlyBlocked (txFlow s)) as [[[b o]|e|m] f']; [|done|done]. destruct Hbl as [Hok Hse].
    rewrite (tc_sent _ _ Hc) in Hse.
    assert (Hc' : tx_core sent (t_flow f' s)) by (destruct Hc; by constructor).
    assert (Hn : nothing_to_send s) by (right; split; [done|]; by right).
    destruct b; [|by split].
    split; [done|]. split; [|split; [done|split; [by destruct Hc'; constructor|done]]].
    unfold tx_completions. cbn. by rewrite filter_app, app_nil_r.
  - apply wp_bind. eapply wp_mono; [| |apply (wp_popNewStreamFrame sent s maxBytes _ (fun _ _ => False)); done || lia]; [|done].
    intros [o more] s1 (f & Ef & F1 & F2 & F3 & F4 & F5 & F6 & F7 & F8 & F9 & F10 & F11 & F12). cbn in Ef. subst o.
    injection F12 as R1 R2 R3 R4 R5 R6 R7 R8 R9 R10 R11 R12 R13.
    apply wp_bind, (wp_lift f); [done|]. apply wp_bind.
    assert (Hlen : 0 < sfDataLen f).
    { unfold sfDataLen. destruct (sfData f) as [|x d]; [done|]. rewrite blen_cons. pose proof (blen_nonneg d). lia. }
    ztrue (0 <? sfDataLen f). apply wp_bind, wp_modify.
    pose proof (tfc_add (txFlow s1) (sfDataLen f)) as Ha. rewrite R12 in Ha.
    specialize (Ha (tc_flow _ _ Hc) ltac:(lia)). unfold wp at 1. unfold onTxFlow. cbn [txFlow t_offset]. rewrite R12.
    unfold wp in Ha. destruct (tfc_AddBytesSent (sfDataLen f) (txFlow s)) as [[[]|e|m] f']; [|done|done].
    destruct Ha as [Hok Hse]. apply wp_bind, wp_get. set (fin := _ && _). apply wp_bind.
    set (new := sfData f). assert (Hbn : blen (sent ++ new) = blen sent + sfDataLen f) by apply blen_app.
    set (s2 := t_flow f' (t_offset _ s1)).
    assert (Hcore : tx_core (sent ++ new) s2).
    { constructor; cbn; rewrite ?R2, ?R4, ?R8, ?R9.
      - apply Hc.
      - rewrite R5, (tc_off _ _ Hc), i64_small by (unfold MaxByteCount in *; int_range). lia.
      - done.
      - rewrite Hse, (tc_sent _ _ Hc). lia.
      - rewrite <- (app_assoc sent). change (bytes_ok (sent ++ (sfData f ++ pending s1))). rewrite <- F8. apply Hc.
      - done.
      - intros g Hg. destruct (F9 g Hg) as (G1 & G2 & G3). rewrite R4 in G1. by rewrite Hbn.
      - by rewrite Hq.
      - intros Hfs. destruct (tc_fin _ _ Hc Hfs) as (_ & Hd & Hn). unfold pending, next_data in Hp. by rewrite Hd, Hn in Hp. }
    assert (Hfs : txFinSent s = false).
    { destruct (txFinSent s) eqn:Hfs; [|done]. destruct (tc_fin _ _ Hc Hfs) as (_ & Hd & Hn).
      unfold pending, next_data in Hp. by rewrite Hd, Hn in Hp. }
    assert (Hpost : forall s3, txFinSent s3 = fin -> s3 = (if fin then t_finSent true s2 else s2) ->
      popped maxBytes sent s (Some (mkStream (sfStreamID f) (sfOffset f) (sfData f) fin (sfDataLenPresent f))) s3).
    { intros s3 E3 Es3. split; [destruct fin; subst s3; cbn; unfold tx_ctl; cbn; congruence|].
      split; [destruct fin; subst s3; unfold tx_completions; cbn; by rewrite R13|].
      split; [destruct fin; subst s3; cbn; congruence|]. split; [done|]. exists new. rewrite E3.
      split; [|split; [|split; [destruct fin; subst s3; exact F11|split; [|split; [|split; [congruence|split]]]]]].
      - destruct fin eqn:Efin; subst s3; [|done]. destruct Hcore. constructor; try done.
        + cbn. rewrite R2, Hq. constructor.
        + intros _. cbn. unfold fin in Efin. apply andb_true_iff in Efin as [Efin _].
          apply andb_true_iff in Efin as [Efin En]. apply andb_true_iff in Efin as [Ef Ed].
          apply bool_decide_eq_true in En, Ed. cbn in *. by rewrite Ed, En.
      - rewrite F8. destruct fin; subst s3; done.
      - apply new_frame_of; auto.
      - eapply core_frame; [exact Hcore|done|rewrite F1; by destruct Hc|by rewrite F2|done|exact F7].
      - intros b [Hcv|Hb']; [rewrite Hq in Hcv; by apply Exists_nil in Hcv|]. left. unfold sfDataLen in *. cbn. rewrite F2. lia.
      - intros [Hcv|[_ Hfin]]; [rewrite Hq in Hcv; by apply Exists_nil in Hcv|]. by left. }
    destruct fin eqn:Efin; [apply wp_modify|]; apply wp_ret; apply Hpost; try done.
    cbn. by rewrite R9.
Qed.

Lemma wp_popNew maxBytes sent s E :
  tx_core sent s -> writable s -> txRetransmissionQueue s = [] ->
  MinStreamFrameSize <= maxBytes <= MaxPacketBufferSize ->
  wp (popNew maxBytes) (fun r s' => popped maxBytes sent s r.1 s') E s.
Proof.
  intros Hc Hwr Hq Hm. unfold popNew. apply wp_bind, wp_get.
  destruct ((data_len s =? 0) && bool_decide (txNextFrame s = None)) eqn:Eb.
  - apply andb_true_iff in Eb as [Ed%Z.eqb_eq En%bool_decide_eq_true].
    assert (Hd : txDataForWriting s = None).
    { pose proof (tc_data _ _ Hc) as Hd. unfold data_len in Ed. destruct (txDataForWriting s) as [[|x d]|]; [done| |done].
      change (default [] (Some (x :: d))) with (x :: d) in Ed. rewrite blen_cons in Ed. pose proof (blen_nonneg d). lia. }
    assert (Hp : pending s = []) by (unfold pending, next_data; by rewrite En, Hd).
    destruct (txFinishedWriting s && negb (txFinSent s)) eqn:Ef.
    + apply andb_true_iff in Ef as [Ef Efs%negb_true_iff]. apply wp_bind, wp_modify, wp_ret.
      split; [done|]. split; [done|]. split; [done|]. split; [done|]. exists []. rewrite app_nil_r.
      set (f := mkStream _ _ [] true true).
      assert (Hv : is_varint (txWriteOffset s)).
      { rewrite (tc_off _ _ Hc). pose proof (sent_bound _ _ Hc). pose proof (blen_nonneg sent).
        unfold is_varint, maxVarInt8, MaxByteCount in *. lia. }
      split; [destruct Hc; constructor; try done; cbn; by rewrite Hq|].
      split; [done|]. split; [done|]. split; [|split; [|split; [congruence|split]]].
      * rewrite <- (app_nil_r sent). subst f. rewrite (tc_off _ _ Hc).
        apply (new_frame_of sent true (txStreamID s) (mkStream (txStreamID s) (blen sent) [] true true) true); try done; by right.
      * eapply core_frame; [exact Hc|done|by destruct Hc|done|done|].
        change (sfDataLen f) with 0. change (vlen 0) with 1. unfold streamHeader. cbn [f sfStreamID sfOffset].
        pose proof (vlen_range (txStreamID s)). pose proof (vlen_range (txWriteOffset s)). unfold MinStreamFrameSize in Hm.
        case_match; lia.
      * intros b [Hcv|Hb']; [rewrite Hq in Hcv; by apply Exists_nil in Hcv|lia].
      * intros _. by left.
    + apply wp_ret. split; [done|]. split; [done|]. split; [done|]. split; [done|]. split; [|done].
      right. split; [done|]. left. split; [done|]. intros Hf. rewrite Hf in Ef. by apply negb_false_iff in Ef.
  - apply wp_popNewData; try done. intros Hp. unfold pending, next_data in Hp. apply app_nil in Hp as [Hn Hd].
    destruct (txNextFrame s) as [f|] eqn:En.
    + by destruct (tc_next _ _ Hc f En) as (_ & _ & ? & _).
    + rewrite bool_decide_true, andb_true_r in Eb by done. unfold data_len in Eb. by rewrite Hd in Eb.
Qed.

(** ** Retransmissions *)

Lemma covered_split f new f' maxSize b :
  split_ok f new f' maxSize -> sfOffset f <= b < sfOffset f + sfDataLen f ->
  sfOffset new <= b < sfOffset new + sfDataLen new \/ sfOffset f' <= b < sfOffset f' + sfDataLen f'.
Proof.
  intros (_ & _ & _ & Hd & Ho & Ho' & _) Hb. unfold sfDataLen in *. rewrite <- Hd, blen_app in Hb. lia.
Qed.

(** Both parts of a frame are frames. *)
Lemma split_frames sent fs id f new f' maxSize :
  frame_of sent fs id f -> split_ok f new f' maxSize -> frame_of sent fs id new /\ frame_of sent fs id f'.
Proof.
  intros (H1 & H2 & H3 & H4 & H5 & H6 & _) (_ & [S1 S2] & [S3 S4] & Hd & Ho & Ho' & F1 & F2 & N1 & N2).
  unfold frame_of, sfDataLen in *. pose proof (blen_nonneg (sfData new)). pose proof (blen_nonneg (sfData f')).
  rewrite <- Hd, ?blen_app in H3, H5, H6. rewrite <- Hd, length_app in H4.
  assert (E : sfData new = take (length (sfData new)) (drop (Z.to_nat (sfOffset f)) sent) /\
    sfData f' = take (length (sfData f')) (drop (length (sfData new)) (drop (Z.to_nat (sfOffset f)) sent))).
  { set (r := drop (Z.to_nat (sfOffset f)) sent) in *.
    assert (Hl : length (sfData new) = length (take (length (sfData new)) r)).
    { unfold r. rewrite length_take, length_drop. unfold blen in *. lia. }
    rewrite <- (take_drop (length (sfData new)) r), take_app_add' in H4 by done. by apply app_inj_1 in H4. }
  destruct E as [E1 E2]. rewrite drop_drop in E2.
  split.
  - split; [congruence|]. split; [lia|]. split; [lia|]. split; [by rewrite Ho|]. split; [congruence|].
    split; [lia|by left].
  - split; [congruence|]. split; [lia|]. split; [lia|]. split; [|split; [|split; [lia|by left]]].
    + rewrite Ho'. unfold blen. rewrite Z2Nat.inj_add, Nat2Z.id by lia. done.
    + rewrite F2. intros [? ?]%H5. split; [done|lia].
Qed.

Lemma core_frames sent s n q :
  tx_core sent s -> Forall (frame_of sent (txFinSent s) (txStreamID s)) q -> tx_core sent (t_frames n q s).
Proof. intros [] Hq. by constructor. Qed.

Lemma wp_retransmission maxBytes sent s E :
  tx_core sent s -> writable s -> txRetransmissionQueue s <> [] ->
  MinStreamFrameSize <= maxBytes <= MaxPacketBufferSize ->
  wp (maybeGetRetransmission maxBytes) (fun r s' => is_Some r.1 /\ popped maxBytes sent s r.1 s') E s.
Proof.
  intros Hc Hwr Hq Hm. unfold maybeGetRetransmission. apply wp_bind, wp_get.
  destruct (txRetransmissionQueue s) as [|f q] eqn:Eq; [done|]. clear Hq.
  pose proof (tc_retr _ _ Hc) as Hr. rewrite Eq in Hr. apply Forall_cons in Hr as [Hf Hfq].
  pose proof (frame_of_ok _ _ _ _ Hc Hf) as Hok. unfold MinStreamFrameSize, MaxPacketBufferSize in Hm.
  pose proof (stream_split_spec f maxBytes Hok ltac:(lia)) as Hsp. apply wp_bind.
  assert (Hpop : forall g q', Forall (frame_of sent (txFinSent s) (txStreamID s)) (g :: q') ->
    (exists l, frame_Length g = Ok l /\ l <= maxBytes) ->
    (forall b, covered (f :: q) b -> covered (g :: q') b) -> (has_fin (f :: q) -> has_fin (g :: q')) ->
    popped maxBytes sent s (Some g) (t_frames (txNumOutstandingFrames s) q' s)).
  { intros g q' [Hg Hq']%Forall_cons Hl Hcv Hfin. split; [done|]. split; [done|]. split; [done|]. split; [done|].
    exists []. rewrite app_nil_r, Eq. split; [by apply core_frames|]. split; [done|]. split; [done|]. split; [done|]. split; [done|].
    split; [done|]. split; [intros b [?|?]; [by apply Hcv|lia]|]. intros [?|[H1 H2]]; [by apply Hfin|]. cbn in H2. congruence. }
  destruct (stream_MaybeSplitOffFrame f maxBytes) as [[[[new|] [|]] f']|e|m] eqn:Es; try done.
  - destruct (split_frames _ _ _ _ _ _ _ Hf Hsp) as [Hn Hf'].
    eapply wp_lift; [reflexivity|]. apply wp_bind, wp_modify, wp_ret. split; [by eexists|].
    apply Hpop; [constructor; [done|by constructor]|by destruct Hsp| |].
    + intros b [Hb|Hb]%Exists_cons; [|by do 2 right]. destruct (covered_split _ _ _ _ _ Hsp Hb); [by left|by right; left].
    + destruct Hsp as (_ & _ & _ & _ & _ & _ & _ & Hfin & _). intros [Hb|Hb]%Exists_cons; [|by do 2 right].
      right. left. congruence.
  - exfalso. destruct Hsp as [_ Hsp]. unfold streamHeader in Hsp. pose proof (vlen_range (sfStreamID f)).
    pose proof (vlen_range (sfOffset f)). repeat case_match; lia.
  - destruct Hsp as [-> Hl]. eapply wp_lift; [reflexivity|]. apply wp_bind, wp_modify, wp_ret. split; [by eexists|].
    apply Hpop; [by constructor|done..].
Qed.

(** [popStreamFrame]: the frame sent, if any, and the counter of the frames. *)
Definition pop_post (maxBytes : Z) (sent : bytes) s (r : option StreamFrame * bool) s' : Prop :=
  exists s1, popped maxBytes sent s r.1 s1 /\
    s' = match r.1 with
         | Some _ => t_frames (txNumOutstandingFrames s1 + 1) (txRetransmissionQueue s1) s1
         | None => s1
         end.

Lemma wp_popStreamFrame maxBytes sent s E :
  tx_core sent s -> MinStreamFrameSize <= maxBytes <= MaxPacketBufferSize ->
  wp (popStreamFrame maxBytes) (pop_post maxBytes sent s) E s.
Proof.
  intros Hc Hm. unfold popStreamFrame. apply wp_bind.
  assert (Hp : wp (popNewOrRetransmittedStreamFrame maxBytes) (fun r s' => popped maxBytes sent s r.1 s') E s).
  { unfold popNewOrRetransmittedStreamFrame. apply wp_bind, wp_get. destruct (_ || _) eqn:Ew.
    - apply wp_ret. split; [done|]. split; [done|]. split; [done|]. split; [done|]. split; [|done].
      left. intros [H1 H2]. rewrite H1, H2 in Ew. by rewrite bool_decide_false in Ew by by intros [? [=]].
    - apply orb_false_iff in Ew as [E1%bool_decide_eq_false E2%bool_decide_eq_false].
      assert (Hwr : writable s) by (split; by apply eq_None_not_Some).
      destruct (Z.ltb_spec 0 (blen (txRetransmissionQueue s))) as [Hq|Hq].
      + apply wp_bind. eapply wp_mono; [| |apply (wp_retransmission maxBytes sent s (fun _ _ => False)); try done]; [|done|by intros E0; rewrite E0 in Hq].
        intros [g more] s1 [Hg Hpop]. rewrite bool_decide_true by done. by apply wp_ret.
      + apply wp_popNew; try done. destruct (txRetransmissionQueue s) as [|f q]; [done|].
        unfold blen in Hq. cbn in Hq. lia. }
  eapply wp_mono; [| |exact Hp]; [|done]. intros [g more] s1 Hpop. apply wp_bind.
  destruct g as [g|]; [apply wp_modify|]; apply wp_ret; by exists s1.
Qed.
End proofs.
