(* ===== verification/SendStreamClaims.v ===== *)
(** * SendStreamClaims: nothing that was written is lost

    A send stream together with its writer and the sent packet handler: calls of
    [Write] (one at a time, since [writeOnce] serialises them), the frames the
    framer pops, their acknowledgment or loss, cancellations, window updates,
    deadlines and shutdowns in any order. *)

From S2P Require Import Prelude Protocol Varint Frames FrameSplit FlowControl SendStream SendStreamProofs.
From stdpp Require Import base numbers list option strings.
From Stdlib Require Import ZArith Lia.
#[local] Open Scope Z_scope.

Section system.
Context {F : Type} `{HF : SendFlow F}.

(** [TxPop maxBytes last]: the packet packer drops the length of the last STREAM
    frame of a packet.  [TxAck i], [TxLose i]: the [i]-th frame in flight. *)
Inductive tx_op :=
  | TxWrite (p : bytes) (now : Z)
  | TxWake (timer : bool) (now : Z)
  | TxPop (maxBytes : Z) (last : bool)
  | TxAck (i : nat)
  | TxLose (i : nat)
  | TxClose
  | TxCancel (errorCode : Z)
  | TxStop (f : StopSendingFrame)
  | TxWindow (limit : Z)
  | TxSetDeadline (t : Z)
  | TxShut (err : GoError)
  | TxFlow (g : F -> F).

(** The stream, the bytes [Write] has accepted, the argument of the call of
    [Write] that waits, the frames in flight, those acknowledged and all that
    were ever sent. *)
Record tx_sys := mkTxSys {
  tyStream : sendStream F;
  tyAccepted : bytes;
  tyWaiting : option bytes;
  tyFlight : list StreamFrame;
  tyAcked : list StreamFrame;
  tySent : list StreamFrame
}.

Definition ty_do {A} (st : tx_sys) (m : txM F A) (k : A -> sendStream F -> tx_sys) : res tx_sys :=
  match m (tyStream st) with
  | (Ok a, s) => Ok (k a s)
  | (Err e, _) => Err e
  | (Panic m, _) => Panic m
  end.

Definition ty_write (st : tx_sys) (p : bytes) (m : txM F write_result) : res tx_sys :=
  ty_do st m (fun r s =>
    match r with
    | WriteBlocks => mkTxSys s (tyAccepted st) (Some p) (tyFlight st) (tyAcked st) (tySent st)
    | WriteReturns n _ => mkTxSys s (tyAccepted st ++ take (Z.to_nat n) p) None (tyFlight st) (tyAcked st) (tySent st)
    end).

Definition ty_stream {A} (st : tx_sys) (m : txM F A) : res tx_sys :=
  ty_do st m (fun _ s => mkTxSys s (tyAccepted st) (tyWaiting st) (tyFlight st) (tyAcked st) (tySent st)).

Definition dropLen (last : bool) (f : StreamFrame) : StreamFrame :=
  mkStream (sfStreamID f) (sfOffset f) (sfData f) (sfFin f) (negb last && sfDataLenPresent f).

Definition tx_do (st : tx_sys) (o : tx_op) : res tx_sys :=
  match o with
  | TxWrite p now => if bool_decide (tyWaiting st = None) then ty_write st p (Write p now) else Ok st
  | TxWake timer now =>
      match tyWaiting st with
      | Some p => if timer || txWriteChan (tyStream st) then ty_write st p (WriteResume (blen p) now timer) else Ok st
      | None => Ok st
      end
  | TxPop maxBytes last =>
      ty_do st (popStreamFrame maxBytes) (fun r s =>
        let fs := match r.1 with Some f => [dropLen last f] | None => [] end in
        mkTxSys s (tyAccepted st) (tyWaiting st) (fs ++ tyFlight st) (tyAcked st) (fs ++ tySent st))
  | TxAck i =>
      match tyFlight st !! i with
      | Some f => ty_do st (OnAcked f) (fun _ s =>
          mkTxSys s (tyAccepted st) (tyWaiting st) (delete i (tyFlight st)) (f :: tyAcked st) (tySent st))
      | None => Ok st
      end
  | TxLose i =>
      match tyFlight st !! i with
      | Some f => ty_do st (OnLost f) (fun _ s =>
          mkTxSys s (tyAccepted st) (tyWaiting st) (delete i (tyFlight st)) (tyAcked st) (tySent st))
      | None => Ok st
      end
  | TxClose => ty_stream st Close
  | TxCancel c => ty_stream st (CancelWrite c)
  | TxStop f => ty_stream st (handleStopSendingFrame f)
  | TxWindow limit => ty_stream st (updateSendWindow limit)
  | TxSetDeadline t => ty_stream st (SetWriteDeadline t)
  | TxShut e => ty_stream st (tx_closeForShutdown e)
  | TxFlow g => ty_stream st (modify (fun s => t_flow (g (txFlow s)) s))
  end.

Fixpoint tx_run (st : tx_sys) (os : list tx_op) : res tx_sys :=
  match os with
  | [] => Ok st
  | o :: os' => st' ← tx_do st o; tx_run st' os'
  end.

Definition tx_start (id : Z) (f : F) : tx_sys := mkTxSys (newSendStream id f) [] None [] [] [].

Section laws.
Context {HL : SendFlowLaws F}.

Definition tx_op_ok (o : tx_op) : Prop :=
  match o with
  | TxWrite p _ => bytes_ok p
  | TxPop maxBytes _ => MinStreamFrameSize <= maxBytes <= MaxPacketBufferSize
  | TxWindow limit => 0 <= limit <= MaxByteCount
  | TxFlow g => forall f, tfc_ok f -> tfc_ok (g f) /\ tfc_sent (g f) = tfc_sent f
  | _ => True
  end.

(** The bytes accepted, and those of the call that waits. *)
Definition tx_stream (st : tx_sys) : bytes := tyAccepted st ++ default [] (tyWaiting st).

Definition write_inv (sent : bytes) (st : tx_sys) : Prop :=
  match tyWaiting st with
  | Some p => tyAccepted st ++ p = sent ++ pending (tyStream st) /\ data_len (tyStream st) <= blen p
  | None => tyAccepted st = sent ++ next_data (tyStream st) /\
      (txDataForWriting (tyStream st) = None \/ ~ writable (tyStream st))
  end.

(** The frames of the stream that are not lost. *)
Definition alive (st : tx_sys) : list StreamFrame :=
  tyAcked st ++ tyFlight st ++ txRetransmissionQueue (tyStream st).

Record tx_inv (sent : bytes) (st : tx_sys) : Prop := {
  ti_core : tx_core sent (tyStream st);
  ti_write : write_inv sent st;
  ti_frames : Forall (frame_of sent (txFinSent (tyStream st)) (txStreamID (tyStream st)))
    (tyFlight st ++ tyAcked st ++ tySent st);
  ti_count : txCancelWriteErr (tyStream st) = None ->
    txNumOutstandingFrames (tyStream st) = blen (tyFlight st) /\
    (forall b, 0 <= b < blen sent -> covered (alive st) b) /\
    (txFinSent (tyStream st) = true -> has_fin (alive st));
  ti_once : tx_completions (tyStream st) =
    (if txCompleted (tyStream st) then [TxStreamCompleted (txStreamID (tyStream st))] else []);
  ti_done : txCompleted (tyStream st) = true -> txCancelWriteErr (tyStream st) = None ->
    txFinSent (tyStream st) = true /\ tyFlight st = [] /\ txRetransmissionQueue (tyStream st) = []
}.

(** ** Operations that leave the frames alone *)

Definition tx_keep (s : sendStream F) :=
  (txNumOutstandingFrames s, txRetransmissionQueue s, txStreamID s, txFinSent s, txCompleted s, tx_completions s).

Lemma tx_inv_keep sent st s' acc w :
  tx_inv sent st -> tx_core sent s' -> tx_keep s' = tx_keep (tyStream st) ->
  (txCancelWriteErr s' = None -> txCancelWriteErr (tyStream st) = None) ->
  let st' := mkTxSys s' acc w (tyFlight st) (tyAcked st) (tySent st) in
  write_inv sent st' -> tx_inv sent st'.
Proof.
  intros [] Hc [= E1 E2 E3 E4 E5 E6] Hcn st' Hw. constructor; cbn; unfold alive in *; cbn; rewrite ?E1, ?E2, ?E3, ?E4, ?E5, ?E6; auto.
Qed.

Lemma core_event sent s ev : tx_core sent s -> tx_core sent (t_event ev s).
Proof. intros []. by constructor. Qed.

Lemma completions_event s ev : is_tx_completion ev = false -> tx_completions (F := F) (t_event ev s) = tx_completions s.
Proof. intros He. unfold tx_completions. cbn. rewrite filter_app. cbn. rewrite He. apply app_nil_r. Qed.

(** ** Writing *)

Definition write_post (sent acc p : bytes) (s : sendStream F) (r : write_result) (s' : sendStream F) : Prop :=
  tx_core sent s' /\ tx_keep s' = tx_keep s /\ txCancelWriteErr s' = txCancelWriteErr s /\
  match r with
  | WriteBlocks => acc ++ p = sent ++ pending s' /\ data_len s' <= blen p
  | WriteReturns n _ => acc ++ take (Z.to_nat n) p = sent ++ next_data s' /\
      (txDataForWriting s' = None \/ ~ writable s')
  end.

(** The part of [p] that was taken over. *)
Lemma written_part (acc p x d : bytes) :
  acc ++ p = x ++ d -> blen d <= blen p -> acc ++ take (Z.to_nat (blen p - blen d)) p = x.
Proof.
  intros E Hl. unfold blen in *. pose proof (f_equal length E) as El. rewrite !length_app in El.
  pose proof (f_equal (take (length x)) E) as Et. rewrite take_app_length in Et.
  rewrite <- Et, take_app_ge by lia. do 2 f_equal. lia.
Qed.

Lemma wp_bufferData sent s E :
  tx_core sent s -> txDataForWriting s <> None -> canBufferStreamFrame s = true ->
  wp bufferData (fun _ s' => tx_core sent s' /\ tx_keep s' = tx_keep s /\ txCancelWriteErr s' = txCancelWriteErr s /\
    txDataForWriting s' = None /\ next_data s' = pending s) E s.
Proof.
  intros Hc Hd Hb. unfold bufferData. apply wp_bind, wp_get.
  destruct (txDataForWriting s) as [d|] eqn:Ed; [|done]. change (default [] (Some d)) with d.
  assert (Hdn : d <> []) by (intros ->; by apply (tc_data _ _ Hc)).
  unfold canBufferStreamFrame, data_len in Hb. rewrite Ed in Hb. change (default [] (Some d)) with d in Hb.
  apply Z.leb_le in Hb. pose proof (blen_nonneg d) as Hd0.
  assert (Hfs : txFinSent s = false).
  { destruct (txFinSent s) eqn:Hfs; [|done]. destruct (tc_fin _ _ Hc Hfs) as (_ & ? & _). congruence. }
  pose proof (tc_bytes _ _ Hc) as Hby. unfold pending, next_data in *. rewrite Ed in *. apply wp_bind.
  destruct (txNextFrame s) as [f|] eqn:En.
  - destruct (tc_next _ _ Hc f En) as (N1 & N2 & N3 & N4 & N5). pose proof (blen_nonneg (sfData f)). unfold sfDataLen in *.
    apply wp_bind. eapply wp_lift; [apply poolSlice_ok; lia|]. apply wp_modify, wp_modify.
    split; [|done]. destruct Hc. constructor; cbn; try done; [|intros g [= <-]|congruence].
    + unfold pending, next_data. cbn. by rewrite app_nil_r.
    + unfold sfDataLen. cbn. rewrite blen_app. split; [done|]. split; [done|]. split; [by destruct (sfData f)|]. split; [lia|done].
  - apply wp_bind. eapply wp_lift; [apply poolSlice_ok; lia|]. apply wp_modify, wp_modify.
    split; [|done]. pose proof (tc_off _ _ Hc). destruct Hc. constructor; cbn; try done; [|intros g [= <-]|congruence].
    + unfold pending, next_data. cbn. by rewrite app_nil_r.
    + unfold sfDataLen. cbn. split; [done|]. split; [done|]. split; [done|]. split; [lia|done].
Qed.

Lemma core_data_none sent s : tx_core sent s -> tx_core sent (t_data None s).
Proof.
  intros []. constructor; cbn; try done.
  - unfold pending, next_data in *. cbn. rewrite app_nil_r. rewrite app_assoc in tc_bytes.
    by apply Forall_app in tc_bytes as [? _].
  - intros Hf. by destruct (tc_fin Hf) as (? & _ & ?).
Qed.

Lemma data_len_pos s sent : tx_core sent s -> (0 <? data_len s) = bool_decide (txDataForWriting s <> None).
Proof.
  intros Hc. pose proof (tc_data _ _ Hc). unfold data_len. destruct (txDataForWriting s) as [[|x d]|]; [done| |done].
  change (default [] (Some (x :: d))) with (x :: d). rewrite blen_cons. pose proof (blen_nonneg d).
  rewrite bool_decide_true by done. apply Z.ltb_lt. lia.
Qed.

Lemma wp_writeRound sent s acc p now notified E :
  tx_core sent s -> acc ++ p = sent ++ pending s -> data_len s <= blen p ->
  wp (writeRound (blen p) now notified) (write_post sent acc p s) E s.
Proof.
  intros Hc Hp Hl. unfold writeRound. apply wp_bind, wp_get.
  assert (Hpart : acc ++ take (Z.to_nat (blen p - data_len s)) p = sent ++ next_data s).
  { apply written_part; [|exact Hl]. by rewrite <- app_assoc. }
  destruct (canBufferStreamFrame s && (0 <? data_len s)) eqn:Eb.
  - apply andb_true_iff in Eb as [Eb Ed]. rewrite (data_len_pos _ _ Hc) in Ed. apply bool_decide_eq_true in Ed.
    apply wp_bind. eapply wp_mono; [| |by apply (wp_bufferData sent s (fun _ _ => False))]; [|done].
    intros _ s1 (Hc1 & Hk & Hcn & Hd1 & Hn1). apply wp_bind.
    assert (Hpost : forall s2, s2 = s1 \/ s2 = t_event (TxHasStreamData (txStreamID s1)) s1 ->
      write_post sent acc p s (writeDone s2 (blen p) (blen p)) s2).
    { intros s2 Hs2. unfold writeDone. rewrite Z.eqb_refl. unfold write_post.
      assert (Ht : acc ++ take (Z.to_nat (blen p)) p = sent ++ next_data s1).
      { unfold blen. rewrite Nat2Z.id, firstn_all, Hp, Hn1. done. }
      destruct Hs2 as [-> | ->]; [by split_and!; try left|]. split; [by apply core_event|]. split; [|split_and!; try done; by left].
      rewrite <- Hk. unfold tx_keep. by rewrite completions_event. }
    destruct notified; [apply wp_ret|apply wp_modify]; apply wp_bind, wp_get, wp_ret, Hpost; auto.
  - destruct (negb _ && negb _).
    { apply wp_bind, wp_modify, wp_ret. split; [by apply core_data_none|]. split; [done|]. split; [done|]. split; [done|by left]. }
    destruct (_ || _) eqn:Ew.
    { apply wp_ret. assert (Hd : txDataForWriting s = None \/ ~ writable s).
      { apply orb_true_iff in Ew as [[Ew%bool_decide_eq_true|[e Ew]%bool_decide_eq_true]%orb_true_iff|[e Ew]%bool_decide_eq_true];
          [by left|right; intros [? ?]; congruence..]. }
      unfold writeDone. destruct (_ =? _); [by split|]. destruct (txCloseForShutdownErr s), (txCancelWriteErr s) eqn:?; by split. }
    assert (Hb : forall s2, s2 = s \/ s2 = t_event (TxHasStreamData (txStreamID s)) s -> write_post sent acc p s WriteBlocks s2).
    { intros s2 [-> | ->]; [by split|]. split; [by apply core_event|]. split; [|done]. unfold tx_keep. by rewrite completions_event. }
    apply wp_bind. destruct notified; [apply wp_ret|apply wp_modify]; apply wp_ret, Hb; auto.
Qed.

(** The invariant after a step that cannot fail. *)
Definition do_post (r : res tx_sys) : Prop := match r with Ok st' => exists sent, tx_inv sent st' | _ => False end.

Lemma ty_do_post {A} st (m : txM F A) k (Q : A -> sendStream F -> Prop) :
  wp m Q (fun _ _ => False) (tyStream st) -> (forall a s', Q a s' -> exists sent, tx_inv sent (k a s')) ->
  do_post (ty_do st m k).
Proof. unfold wp, ty_do. destruct (m (tyStream st)) as [[]]; cbn; auto. Qed.

Lemma write_do sent st p m :
  tx_inv sent st ->
  wp m (write_post sent (tyAccepted st) p (tyStream st)) (fun _ _ => False) (tyStream st) ->
  do_post (ty_write st p m).
Proof.
  intros Hi Hm. eapply ty_do_post; [exact Hm|]. intros r s' (Hc & Hk & Hcn & Hr). exists sent.
  destruct r; apply tx_inv_keep; try done; congruence.
Qed.

Lemma wp_Write sent st p now :
  tx_inv sent st -> bytes_ok p -> tyWaiting st = None ->
  wp (Write p now) (write_post sent (tyAccepted st) p (tyStream st)) (fun _ _ => False) (tyStream st).
Proof.
  intros Hi Hp Hwt. pose proof (ti_core _ _ Hi) as Hc. pose proof (ti_write _ _ Hi) as Hw. unfold write_inv in Hw.
  rewrite Hwt in Hw. destruct Hw as [Hacc Hd]. set (s := tyStream st) in *. unfold Write. apply wp_bind, wp_get.
  assert (Hret : forall e, wp (mret (WriteReturns 0 e)) (write_post sent (tyAccepted st) p s) (fun _ _ => False) s).
  { intros e. apply wp_ret. split; [done|]. split; [done|]. split; [done|]. split; [|done]. change (Z.to_nat 0) with 0%nat.
    by rewrite app_nil_r. }
  destruct (txFinishedWriting s) eqn:Ef; [apply Hret|].
  destruct (txCancelWriteErr s) eqn:Ec; [apply Hret|]. destruct (txCloseForShutdownErr s) eqn:Es; [apply Hret|].
  destruct (negb _ && negb _); [apply Hret|]. destruct (Z.eqb_spec (blen p) 0) as [E0|E0]; [apply Hret|].
  destruct Hd as [Hd|Hnw]; [|by destruct Hnw]. apply wp_bind, wp_modify.
  eapply wp_mono; [| |apply (wp_writeRound sent (t_data (Some p) s) (tyAccepted st) p now false (fun _ _ => False))]; [|done|..].
  - by intros r s' Hr.
  - assert (Hb : bytes_ok (sent ++ next_data s)).
    { pose proof (tc_bytes _ _ Hc) as Hb. unfold pending in Hb. rewrite app_assoc in Hb. by apply Forall_app in Hb as [? _]. }
    destruct Hc. constructor; cbn; try done.
    + unfold pending, next_data in *. cbn. rewrite app_assoc. by apply Forall_app.
    + intros [= ->]. by rewrite blen_nil in E0.
    + intros Hf. destruct (tc_fin Hf) as (Hf' & _). congruence.
  - rewrite Hacc. unfold pending, next_data. cbn. by rewrite <- app_assoc.
  - done.
Qed.

Lemma covered_app l k b : covered (l ++ k) b <-> covered l b \/ covered k b.
Proof. apply Exists_app. Qed.
Lemma has_fin_app l k : has_fin (l ++ k) <-> has_fin l \/ has_fin k.
Proof. apply Exists_app. Qed.

Lemma data_none sent (s : sendStream F) : tx_core sent s -> data_len s <= 0 -> txDataForWriting s = None.
Proof.
  intros Hc Hl. pose proof (data_len_pos _ _ Hc) as E. replace (0 <? data_len s) with false in E by (symmetry; apply Z.ltb_ge; lia).
  symmetry in E. apply bool_decide_eq_false in E. by destruct (txDataForWriting s); [destruct E|].
Qed.

Lemma frames_mono sent new (fs fs' : bool) id l :
  Forall (frame_of sent fs id) l -> (fs = true -> fs' = true /\ new = []) -> Forall (frame_of (sent ++ new) fs' id) l.
Proof. intros Hl Hf. eapply Forall_impl; [exact Hl|]. intros f Hfr. by eapply frame_of_app. Qed.

Lemma pop_do sent st maxBytes last :
  tx_inv sent st -> MinStreamFrameSize <= maxBytes <= MaxPacketBufferSize -> do_post (tx_do st (TxPop maxBytes last)).
Proof.
  intros Hi Hm. eapply ty_do_post; [apply wp_popStreamFrame; [apply Hi|done]|].
  intros [g more] s' (s1 & (Hctl & Hcs & Hnum & Hg) & ->). cbn [fst] in *.
  injection Hctl as C1 C2 C3 C4 C5 C6 C7. destruct g as [g|].
  - destruct Hg as (Hwr & new & Hc & Hpend & Hdl & Hfr & _ & Hfs & Hcov & Hfin). exists (sent ++ new).
    assert (Hnew : txFinSent (tyStream st) = true -> txFinSent s1 = true /\ new = []).
    { intros Hf. split; [by apply Hfs|]. destruct (tc_fin _ _ (ti_core _ _ Hi) Hf) as (_ & Hd & Hn).
      assert (Hp : pending (tyStream st) = []) by (unfold pending, next_data; by rewrite Hd, Hn).
      rewrite Hp in Hpend. symmetry in Hpend. by apply app_nil in Hpend as [? _]. }
    assert (Hg' : frame_of (sent ++ new) (txFinSent s1) (txStreamID s1) (dropLen last g)) by (rewrite C2; exact Hfr).
    destruct Hi as [Hc0 Hw Hf Hcnt Honce Hdone]. constructor; cbn [tyStream tyAccepted tyWaiting tyFlight tyAcked tySent].
    + apply core_frames; [done|]. apply Hc.
    + unfold write_inv in *. cbn. destruct (tyWaiting st) as [p|].
      * destruct Hw as [Hw Hl]. change (pending (t_frames _ _ s1)) with (pending s1). change (data_len (t_frames _ _ s1)) with (data_len s1).
        split; [|lia]. rewrite Hw, Hpend. by rewrite app_assoc.
      * destruct Hw as [Hw [Hd|Hn]]; [|done]. change (next_data (t_frames _ _ s1)) with (next_data s1).
        assert (Hd1 : txDataForWriting s1 = None).
        { apply (data_none (sent ++ new)); [done|]. unfold data_len in Hdl at 2. rewrite Hd in Hdl. exact Hdl. }
        split; [|by left]. rewrite Hw. unfold pending in Hpend. rewrite Hd, Hd1 in Hpend. cbn in Hpend. rewrite !app_nil_r in Hpend.
        by rewrite Hpend, app_assoc.
    + cbn. rewrite <- C2 in Hf. pose proof (frames_mono _ _ _ _ _ _ Hf Hnew) as Hf'. apply Forall_app in Hf' as [H1 [H2 H3]%Forall_app].
      constructor; [done|]. apply Forall_app. split; [done|]. apply Forall_app. split; [done|]. by constructor.
    + intros Hcn. cbn in Hcn. rewrite C3 in Hcn. destruct (Hcnt Hcn) as (N1 & N2 & N3). unfold alive in *. cbn.
      split; [rewrite Hnum, N1, blen_cons; lia|].
      assert (Hperm : forall b, covered (tyAcked st ++ (dropLen last g :: tyFlight st) ++ txRetransmissionQueue s1) b <->
                covered (tyAcked st ++ tyFlight st) b \/ covered (g :: txRetransmissionQueue s1) b).
      { intros b. unfold covered. rewrite !Exists_app, !Exists_cons. cbn. tauto. }
      assert (Hperm' : has_fin (tyAcked st ++ (dropLen last g :: tyFlight st) ++ txRetransmissionQueue s1) <->
                has_fin (tyAcked st ++ tyFlight st) \/ has_fin (g :: txRetransmissionQueue s1)).
      { unfold has_fin. rewrite !Exists_app, !Exists_cons. cbn. tauto. }
      split.
      * intros b Hb. apply Hperm. destruct (Z.lt_ge_cases b (blen sent)) as [Hlt|Hge]; [|right; apply Hcov; right; lia].
        pose proof (N2 b ltac:(lia)) as [Hx|Hx]%Exists_app; [left; apply Exists_app; by left|].
        apply Exists_app in Hx as [Hx|Hx]; [left; apply Exists_app; by right|right; apply Hcov; by left].
      * intros Hf1. apply Hperm'. destruct (txFinSent (tyStream st)) eqn:Ef; [|right; apply Hfin; by right].
        pose proof (N3 eq_refl) as [Hx|Hx]%Exists_app; [left; apply Exists_app; by left|].
        apply Exists_app in Hx as [Hx|Hx]; [left; apply Exists_app; by right|right; apply Hfin; by left].
    + change (tx_completions (t_frames _ _ s1)) with (tx_completions s1). cbn. by rewrite Hcs, Honce, C6, C2.
    + cbn. intros Hd Hcn. exfalso. rewrite C6 in Hd. rewrite C3 in Hcn. destruct (Hdone Hd Hcn) as (Hf0 & _ & Hq).
      by destruct (Hfs Hf0).
  - destruct Hg as (Hc & _ & Hp & Hn & Hd & Hfs & Hq). exists sent. apply tx_inv_keep; try done.
    + unfold tx_keep. congruence.
    + congruence.
    + pose proof (ti_write _ _ Hi) as Hw. unfold write_inv in *. cbn. unfold data_len, writable. rewrite Hp, Hn, Hd, C3, C4.
      exact Hw.
Qed.

(** ** Acknowledgments and losses *)

Lemma delete_flight (P : StreamFrame -> Prop) l i f : l !! i = Some f -> Exists P l <-> P f \/ Exists P (delete i l).
Proof.
  intros Hi. rewrite (delete_take_drop l i), <- (take_drop_middle l i f Hi) at 1.
  rewrite !Exists_app, Exists_cons. tauto.
Qed.

Lemma blen_delete (l : list StreamFrame) i f : l !! i = Some f -> blen (delete i l) = blen l - 1.
Proof.
  intros Hi. unfold blen. rewrite length_delete by (rewrite Hi; by eexists). apply lookup_lt_Some in Hi. lia.
Qed.

Lemma frames_delete P (l k : list StreamFrame) i f :
  l !! i = Some f -> Forall P (l ++ k) -> P f /\ Forall P (delete i l ++ k).
Proof.
  intros Hi [Hl Hk]%Forall_app. split; [exact (Forall_lookup_1 _ _ _ _ Hl Hi)|]. apply Forall_app. split; [|done].
  by apply Forall_delete.
Qed.

Lemma wp_decOutstanding (s : sendStream F) E :
  1 <= txNumOutstandingFrames s ->
  wp decOutstanding (fun _ s' => s' = t_frames (txNumOutstandingFrames s - 1) (txRetransmissionQueue s) s) E s.
Proof.
  intros Hn. unfold decOutstanding. apply wp_bind, wp_modify, wp_bind, wp_get. cbn [txNumOutstandingFrames t_frames].
  by zfalse (txNumOutstandingFrames s - 1 <? 0).
Qed.

(** *** [isNewlyCompleted] *)

Definition tx_finished (s : sendStream F) : Prop :=
  (txFinSent s = true \/ is_Some (txCancelWriteErr s)) /\ txNumOutstandingFrames s = 0 /\ txRetransmissionQueue s = [].

Definition complete (s : sendStream F) : sendStream F :=
  t_event (TxStreamCompleted (txStreamID s)) (t_completed true s).

Lemma completed_test (s : sendStream F) :
  (txFinSent s || bool_decide (is_Some (txCancelWriteErr s))) && (txNumOutstandingFrames s =? 0)
    && (blen (txRetransmissionQueue s) =? 0) = true <-> tx_finished s.
Proof.
  unfold tx_finished. rewrite !andb_true_iff, orb_true_iff, bool_decide_eq_true, !Z.eqb_eq.
  destruct (txRetransmissionQueue s) as [|f q]; [naive_solver|]. rewrite blen_cons. pose proof (blen_nonneg q).
  split; [intros [_ ?]; lia|intros (_ & _ & [=])].
Qed.

Lemma wp_isNewlyCompleted (s : sendStream F) (Q : bool -> sendStream F -> Prop) E :
  (tx_finished s -> txCompleted s = false -> Q true (t_completed true s)) ->
  (~ tx_finished s \/ txCompleted s = true -> Q false s) -> wp isNewlyCompleted Q E s.
Proof.
  intros H1 H2. unfold isNewlyCompleted. apply wp_bind, wp_get. pose proof (completed_test s) as Ht.
  destruct (_ && _ && _) eqn:Eb; cbn [andb].
  - destruct (txCompleted s) eqn:Ec; cbn [negb]; [apply wp_ret, H2; by right|].
    apply wp_bind, wp_modify, wp_ret, H1; [by apply Ht|done].
  - apply wp_ret, H2. left. rewrite <- Ht. done.
Qed.

Lemma core_complete sent s : tx_core sent s -> tx_core sent (complete s).
Proof. intros []. by constructor. Qed.

Lemma ack_do sent st i : tx_inv sent st -> do_post (tx_do st (TxAck i)).
Proof.
  intros Hi. cbn [tx_do]. destruct (tyFlight st !! i) as [f|] eqn:Ef; [|by exists sent].
  destruct Hi as [Hc Hw Hf Hcnt Honce Hdone]. destruct (frames_delete _ _ _ _ _ Ef Hf) as [Hff Hfd].
  assert (Hfr : Forall (frame_of sent (txFinSent (tyStream st)) (txStreamID (tyStream st)))
            (delete i (tyFlight st) ++ (f :: tyAcked st) ++ tySent st)).
  { apply Forall_app in Hfd as [? ?]. apply Forall_app. split; [done|]. by constructor. }
  assert (Hal : forall P q, Exists P (tyAcked st ++ tyFlight st ++ q) <->
            Exists P ((f :: tyAcked st) ++ delete i (tyFlight st) ++ q)).
  { intros P q. cbn. rewrite Exists_cons, !Exists_app, (delete_flight P (tyFlight st) i f Ef). tauto. }
  eapply (ty_do_post _ _ _ (fun _ s' => exists sent, tx_inv sent (mkTxSys s' (tyAccepted st) (tyWaiting st)
    (delete i (tyFlight st)) (f :: tyAcked st) (tySent st)))); [|done].
  unfold OnAcked. apply wp_bind, wp_get. destruct (bool_decide (is_Some (txCancelWriteErr (tyStream st)))) eqn:Ec.
  - apply bool_decide_eq_true in Ec as [c Ec]. apply wp_ret. exists sent. by constructor; cbn; try done; intros; congruence.
  - apply bool_decide_eq_false in Ec. apply eq_None_not_Some in Ec. destruct (Hcnt Ec) as (N1 & N2 & N3).
    pose proof (blen_delete _ _ _ Ef) as Hbl. pose proof (blen_nonneg (delete i (tyFlight st))).
    assert (Hnc : txCompleted (tyStream st) = false).
    { destruct (txCompleted (tyStream st)) eqn:E; [|done]. destruct (Hdone eq_refl Ec) as (_ & Hz & _). by rewrite Hz in Ef. }
    apply wp_bind. eapply wp_mono; [| |apply (wp_decOutstanding _ (fun _ _ => False)); lia]; [|done].
    intros _ s1 ->. set (s1 := t_frames _ _ _).
    assert (Hc1 : tx_core sent s1) by (apply core_frames; [done|apply Hc]).
    apply wp_bind, wp_isNewlyCompleted.
    + intros (Hfin & Hz & Hq) _. apply wp_modify. exists sent. change (t_event _ (t_completed true s1)) with (complete s1).
      constructor; cbn [tyStream tyFlight tyAcked tySent]; [by apply core_complete|exact Hw|exact Hfr| | |].
      * intros _. cbn. split; [lia|]. unfold alive. cbn. split; [intros b Hb; by apply Hal, N2|intros ?; by apply Hal, N3].
      * unfold tx_completions. cbn. rewrite filter_app. unfold tx_completions in Honce. rewrite Honce, Hnc. done.
      * intros _ _. cbn in *. destruct Hfin as [Hfin|[? ?]]; [|congruence]. split; [done|]. split; [|done].
        destruct (delete i (tyFlight st)) as [|g l]; [done|]. rewrite blen_cons in Hbl. pose proof (blen_nonneg l). lia.
    + intros Hnf. apply wp_ret. exists sent. constructor; cbn [tyStream tyFlight tyAcked tySent]; [done|exact Hw|exact Hfr| |exact Honce|].
      * intros _. cbn. split; [lia|]. unfold alive. cbn. split; [intros b Hb; by apply Hal, N2|intros ?; by apply Hal, N3].
      * cbn. congruence.
Qed.

Lemma lose_do sent st i : tx_inv sent st -> do_post (tx_do st (TxLose i)).
Proof.
  intros Hi. cbn [tx_do]. destruct (tyFlight st !! i) as [f|] eqn:Ef; [|by exists sent].
  destruct Hi as [Hc Hw Hf Hcnt Honce Hdone]. destruct (frames_delete _ _ _ _ _ Ef Hf) as [Hff Hfd].
  eapply (ty_do_post _ _ _ (fun _ s' => exists sent, tx_inv sent (mkTxSys s' (tyAccepted st) (tyWaiting st)
    (delete i (tyFlight st)) (tyAcked st) (tySent st)))); [|done].
  unfold OnLost. apply wp_bind, wp_get. destruct (bool_decide (is_Some (txCancelWriteErr (tyStream st)))) eqn:Ec.
  - apply bool_decide_eq_true in Ec as [c Ec]. apply wp_ret. exists sent. by constructor; cbn; try done; intros; congruence.
  - apply bool_decide_eq_false in Ec. apply eq_None_not_Some in Ec. destruct (Hcnt Ec) as (N1 & N2 & N3).
    pose proof (blen_delete _ _ _ Ef) as Hbl. pose proof (blen_nonneg (delete i (tyFlight st))).
    assert (Hnc : txCompleted (tyStream st) = false).
    { destruct (txCompleted (tyStream st)) eqn:E; [|done]. destruct (Hdone eq_refl Ec) as (_ & Hz & _). by rewrite Hz in Ef. }
    apply wp_bind, wp_modify, wp_bind. set (s1 := t_frames _ _ _). set (g := mkStream _ _ _ _ true) in *.
    assert (Hg : frame_of sent (txFinSent (tyStream st)) (txStreamID (tyStream st)) g) by exact Hff.
    eapply wp_mono; [| |apply (wp_decOutstanding s1 (fun _ _ => False)); cbn; lia]; [|done].
    intros _ s2 ->. apply wp_modify. exists sent.
    assert (Hal : forall P : StreamFrame -> Prop, (P f -> P g) -> Exists P (alive st) -> Exists P
      (tyAcked st ++ delete i (tyFlight st) ++ txRetransmissionQueue (tyStream st) ++ [g])).
    { intros P HP. unfold alive. rewrite !Exists_app, (delete_flight P (tyFlight st) i f Ef), Exists_cons, Exists_nil. tauto. }
    constructor; cbn [tyStream tyFlight tyAcked tySent].
    + apply core_event, core_frames; [|].
      * apply core_frames; [done|]. apply Forall_app. split; [apply Hc|by constructor].
      * cbn. apply Forall_app. split; [apply Hc|by constructor].
    + exact Hw.
    + exact Hfd.
    + intros _. cbn. split; [lia|]. split; [intros b Hb; by apply Hal, N2|intros ?; by apply Hal, N3].
    + rewrite completions_event by done. exact Honce.
    + cbn. congruence.
Qed.

(** ** The other operations *)

Lemma stream_do {A} sent st (m : txM F A) :
  wp m (fun _ s' => tx_inv sent (mkTxSys s' (tyAccepted st) (tyWaiting st) (tyFlight st) (tyAcked st) (tySent st)))
    (fun _ _ => False) (tyStream st) -> do_post (ty_stream st m).
Proof. intros Hm. eapply ty_do_post; [exact Hm|]. intros a s' Hi. by exists sent. Qed.

(** A change of the flags and of the flow controller that the frames and the data
    do not see. *)
Lemma tx_inv_ctl sent st s' :
  tx_inv sent st -> tx_core sent s' -> tx_keep s' = tx_keep (tyStream st) ->
  (txCancelWriteErr s' = None -> txCancelWriteErr (tyStream st) = None) -> (writable s' -> writable (tyStream st)) ->
  txNextFrame s' = txNextFrame (tyStream st) -> txDataForWriting s' = txDataForWriting (tyStream st) ->
  tx_inv sent (mkTxSys s' (tyAccepted st) (tyWaiting st) (tyFlight st) (tyAcked st) (tySent st)).
Proof.
  intros Hi Hc Hk Hcn Hwr Hn Hd. apply tx_inv_keep; try done. pose proof (ti_write _ _ Hi) as Hw.
  unfold write_inv, pending, next_data, data_len in *. cbn. rewrite Hn, Hd.
  destruct (tyWaiting st); [done|]. destruct Hw as [? [?|?]]; [split; auto|]. split; [done|]. right. auto.
Qed.

Lemma core_ctx sent s v : tx_core sent s -> tx_core sent (t_ctx v s).
Proof. intros []. by constructor. Qed.

Lemma wp_ctxCancel cause (s : sendStream F) (Q : unit -> sendStream F -> Prop) E :
  (forall v, Q tt (t_ctx v s)) -> wp (ctxCancel cause) Q E s.
Proof.
  intros HQ. unfold ctxCancel. apply wp_modify. destruct (bool_decide _); [|apply HQ].
  specialize (HQ (txCtxCause s)). by destruct s.
Qed.

Lemma close_do sent st : tx_inv sent st -> do_post (tx_do st TxClose).
Proof.
  intros Hi. pose proof (ti_core _ _ Hi) as Hc. apply (stream_do sent). unfold Close. apply wp_bind, wp_get.
  assert (Hsame : tx_inv sent (mkTxSys (tyStream st) (tyAccepted st) (tyWaiting st) (tyFlight st) (tyAcked st) (tySent st)))
    by by apply tx_inv_ctl.
  destruct (bool_decide _); [by apply wp_ret|]. destruct (bool_decide _); [by apply wp_ret|].
  apply wp_bind, wp_ctxCancel. intros v. apply wp_bind, wp_modify, wp_bind, wp_modify, wp_ret.
  apply tx_inv_ctl; try done.
  - apply core_event. destruct Hc. constructor; try done. intros Hf. by destruct (tc_fin Hf).
  - unfold tx_keep. by rewrite completions_event.
Qed.

Lemma cancel_do sent st code remote : tx_inv sent st -> do_post (ty_stream st (cancelWriteImpl code remote)).
Proof.
  intros Hi. pose proof (ti_core _ _ Hi) as Hc. apply (stream_do sent). unfold cancelWriteImpl. apply wp_bind, wp_get.
  destruct (bool_decide (is_Some (txCancelWriteErr (tyStream st)))) eqn:Ec.
  { apply wp_ret. by apply tx_inv_ctl. }
  apply bool_decide_eq_false in Ec. apply eq_None_not_Some in Ec. apply wp_bind, wp_modify, wp_bind, wp_ctxCancel. intros v.
  apply wp_bind, wp_modify. set (s1 := t_frames 0 [] _).
  assert (Hc1 : tx_core sent s1) by (destruct Hc; by constructor).
  assert (Hinv : forall s2, tx_core sent s2 -> txCancelWriteErr s2 <> None -> txNextFrame s2 = txNextFrame (tyStream st) ->
    txDataForWriting s2 = txDataForWriting (tyStream st) -> txFinSent s2 = txFinSent (tyStream st) ->
    txStreamID s2 = txStreamID (tyStream st) ->
    tx_completions s2 = (if txCompleted s2 then [TxStreamCompleted (txStreamID s2)] else []) ->
    tx_inv sent (mkTxSys s2 (tyAccepted st) (tyWaiting st) (tyFlight st) (tyAcked st) (tySent st))).
  { intros s2 Hc2 Hcn Hn Hd Hf Hid Ho. constructor; cbn [tyStream tyFlight tyAcked tySent]; try done.
    - pose proof (ti_write _ _ Hi) as Hw. unfold write_inv, pending, next_data, data_len in *. cbn. rewrite Hn, Hd.
      destruct (tyWaiting st); [done|]. destruct Hw. split; [done|]. right. by intros [? _].
    - rewrite Hf, Hid. apply Hi. }
  assert (Hreset : forall s2 fr, tx_core sent s2 -> tx_core sent (t_event (TxQueuedReset fr) (t_chan true s2))).
  { intros s2 fr []. by constructor. }
  pose proof (ti_once _ _ Hi) as Honce. apply wp_bind, wp_isNewlyCompleted.
  - intros _ Hnc. apply wp_bind, wp_modify, wp_bind, wp_modify, wp_modify. cbn in Hnc. rewrite Hnc in Honce.
    apply Hinv; try done; [apply core_event, Hreset; destruct Hc1; by constructor|].
    unfold tx_completions in *. cbn. by rewrite !filter_app, Honce.
  - intros Hnf. apply wp_bind, wp_modify, wp_bind, wp_modify, wp_ret.
    apply Hinv; try done; [by apply Hreset|]. rewrite completions_event by done. exact Honce.
Qed.

Lemma tx_do_inv sent st o : tx_inv sent st -> tx_op_ok o -> do_post (tx_do st o).
Proof.
  intros Hi Ho. pose proof (ti_core _ _ Hi) as Hc.
  destruct o as [p now|timer now|maxBytes last|i|i| |c|f|limit|t|e|g]; cbn [tx_op_ok] in Ho.
  - cbn [tx_do]. destruct (bool_decide (tyWaiting st = None)) eqn:Ew; [|by exists sent].
    apply bool_decide_eq_true in Ew. by apply (write_do sent), wp_Write.
  - cbn [tx_do]. destruct (tyWaiting st) as [p|] eqn:Ew; [|by exists sent].
    destruct (timer || _); [|by exists sent]. apply (write_do sent); [done|].
    pose proof (ti_write _ _ Hi) as Hw. unfold write_inv in Hw. rewrite Ew in Hw. destruct Hw as [Hw Hl].
    unfold WriteResume. apply wp_bind. destruct timer; [apply wp_ret; by apply wp_writeRound|].
    apply wp_modify. eapply wp_mono; [| |apply (wp_writeRound sent (t_chan false (tyStream st)) (tyAccepted st) p now true (fun _ _ => False))]; try done.
    destruct Hc; by constructor.
  - by apply (pop_do sent).
  - by apply (ack_do sent).
  - by apply (lose_do sent).
  - by apply (close_do sent).
  - by apply (cancel_do sent).
  - by apply (cancel_do sent).
  - apply (stream_do sent). unfold updateSendWindow. apply wp_bind, wp_get, wp_bind.
    pose proof (tfc_update _ limit (tc_flow _ _ Hc) Ho) as Hu. unfold wp, onTxFlow in *.
    destruct (tfc_UpdateSendWindow limit (txFlow (tyStream st))) as [[[]|e|m] f']; [|done|done].
    destruct Hu as [Hok Hse]. rewrite (tc_sent _ _ Hc) in Hse.
    assert (Hc' : tx_core sent (t_flow f' (tyStream st))) by (destruct Hc; by constructor).
    destruct (_ || _); [|by apply tx_inv_ctl]. apply tx_inv_ctl; try done; [by apply core_event|].
    unfold tx_keep. by rewrite completions_event.
  - apply (stream_do sent). apply wp_bind, wp_modify, wp_modify. apply tx_inv_ctl; try done. destruct Hc; by constructor.
  - apply (stream_do sent). unfold tx_closeForShutdown. apply wp_bind, wp_ctxCancel. intros v. apply wp_bind, wp_modify, wp_modify.
    apply tx_inv_ctl; try done; [destruct Hc; by constructor|by intros [_ ?]].
  - apply (stream_do sent). apply wp_modify. destruct (Ho _ (tc_flow _ _ Hc)) as [H1 H2]. rewrite (tc_sent _ _ Hc) in H2.
    apply tx_inv_ctl; try done. destruct Hc; by constructor.
Qed.

Lemma tx_run_inv : forall os sent st, tx_inv sent st -> Forall tx_op_ok os -> do_post (tx_run st os).
Proof.
  induction os as [|o os IH]; intros sent st Hi Hok; cbn [tx_run]; [by exists sent|].
  apply Forall_cons in Hok as [Ho Hok]. pose proof (tx_do_inv sent st o Hi Ho) as Hd.
  unfold mbind, res_bind. destruct (tx_do st o) as [st'|e|m]; [|done|done]. destruct Hd as [sent' Hd]. by eapply IH.
Qed.

Lemma tx_start_inv id f : tfc_ok f -> tfc_sent f = 0 -> is_varint id -> tx_inv [] (tx_start id f).
Proof.
  intros Hok Hs Hid. constructor; cbn [tx_start tyStream tyFlight tyAcked tySent]; try done.
  - constructor; cbn; try done; by constructor.
  - split; [done|by left].
  - intros _. cbn. split; [done|]. split; [|done]. intros b Hb. exfalso. unfold blen in Hb. cbn in Hb. lia.
Qed.

(** The bytes of a sent frame. *)
Definition carries (stream : bytes) (f : StreamFrame) : Prop :=
  0 <= sfOffset f /\ forall k v, sfData f !! k = Some v -> stream !! (Z.to_nat (sfOffset f) + k)%nat = Some v.

Lemma frame_carries sent rest fs id f : frame_of sent fs id f -> carries (sent ++ rest) f.
Proof.
  intros (_ & H1 & H2 & H3 & _). split; [done|]. intros k v Hk. rewrite H3 in Hk. apply lookup_take_Some in Hk as [Hk _].
  rewrite lookup_drop in Hk. by apply lookup_app_l_Some.
Qed.

Lemma tx_stream_sent sent st : tx_inv sent st -> exists rest, tx_stream st = sent ++ rest /\
  (txFinSent (tyStream st) = true -> rest = []).
Proof.
  intros Hi. pose proof (ti_write _ _ Hi) as Hw. unfold write_inv in Hw. unfold tx_stream.
  assert (Hfin : txFinSent (tyStream st) = true -> pending (tyStream st) = [] /\ next_data (tyStream st) = []).
  { intros Hf. destruct (tc_fin _ _ (ti_core _ _ Hi) Hf) as (_ & Hd & Hn). unfold pending, next_data. by rewrite Hd, Hn. }
  destruct (tyWaiting st) as [p|].
  - exists (pending (tyStream st)). split; [apply Hw|naive_solver].
  - exists (next_data (tyStream st)). split; [|naive_solver]. destruct Hw as [-> _]. apply app_nil_r.
Qed.

(** C4: A send stream delivers everything or says so.  Whatever the writer, the
    framer, the peer and the application do: nothing panics or fails; every STREAM
    frame sent carries the bytes that were written at its offset, a FIN is only
    sent after [Close], at the end of the stream; what was sent is what flow
    control has counted; unless the stream is canceled, every byte sent and the
    FIN are in a frame that was acknowledged, is in flight or is queued for
    retransmission; the stream is reported as completed at most once, and unless
    it is canceled only when the FIN and all the bytes written have been
    acknowledged; and [popStreamFrame] returns no frame only if there is nothing
    to send that flow control allows. *)
Theorem send_stream_reliable id f os :
  tfc_ok f -> tfc_sent f = 0 -> is_varint id -> Forall tx_op_ok os ->
  match tx_run (tx_start id f) os with
  | Ok st =>
      let s := tyStream st in
      Forall (fun g => sfStreamID g = txStreamID s /\ carries (tx_stream st) g /\
        (sfFin g = true -> txFinishedWriting s = true /\ sfOffset g + sfDataLen g = blen (tx_stream st))) (tySent st) /\
      tfc_sent (txFlow s) = txWriteOffset s /\
      (txCancelWriteErr s = None ->
        (forall b, 0 <= b < txWriteOffset s -> covered (alive st) b) /\ (txFinSent s = true -> has_fin (alive st))) /\
      (length (tx_completions s) <= 1)%nat /\
      (tx_completions s <> [] -> txCancelWriteErr s = None ->
        has_fin (tyAcked st) /\ forall b, 0 <= b < blen (tx_stream st) -> covered (tyAcked st) b) /\
      (forall maxBytes, MinStreamFrameSize <= maxBytes <= MaxPacketBufferSize ->
        match (popStreamFrame maxBytes s).1 with
        | Ok (Some _, _) => True
        | Ok (None, _) => nothing_to_send s
        | _ => False
        end)
  | _ => False
  end.
Proof.
  intros Hok Hs Hid Hos. pose proof (tx_run_inv os [] _ (tx_start_inv id f Hok Hs Hid) Hos) as Hi.
  destruct (tx_run _ os) as [st|e|m]; [|done|done]. destruct Hi as [sent Hi].
  destruct (tx_stream_sent sent st Hi) as (rest & Hst & Hrest).
  destruct Hi as [Hc Hw Hf Hcnt Honce Hdone]. cbn zeta. split; [|split; [|split; [|split; [|split]]]].
  - rewrite app_assoc in Hf. apply Forall_app in Hf as [_ Hf]. eapply Forall_impl; [exact Hf|]. intros g Hg.
    split; [apply Hg|]. split; [rewrite Hst; by eapply frame_carries|]. intros Hfin.
    destruct Hg as (_ & _ & _ & _ & Hg & _). destruct (Hg Hfin) as [Hfs He]. split; [by apply (tc_fin _ _ Hc)|].
    rewrite Hst, (Hrest Hfs), app_nil_r. done.
  - by rewrite (tc_sent _ _ Hc), (tc_off _ _ Hc).
  - intros Hcn. destruct (Hcnt Hcn) as (_ & H2 & H3). rewrite (tc_off _ _ Hc). done.
  - rewrite Honce. destruct (txCompleted _); cbn; lia.
  - intros Hne Hcn. destruct (txCompleted (tyStream st)) eqn:Ecomp; [|by rewrite Honce in Hne].
    destruct (Hdone eq_refl Hcn) as (Hfs & Hfl & Hq). destruct (Hcnt Hcn) as (_ & H2 & H3).
    unfold alive in *. rewrite Hfl, Hq, !app_nil_r in H2, H3. split; [auto|]. by rewrite Hst, (Hrest Hfs), app_nil_r.
  - intros maxBytes Hm. pose proof (wp_popStreamFrame maxBytes sent (tyStream st) (fun _ _ => False) Hc Hm) as Hpop. unfold wp in Hpop.
    destruct (popStreamFrame maxBytes (tyStream st)) as [[[[g|] more]|e|m] s']; cbn [fst]; try done.
    destruct Hpop as (s1 & (_ & _ & _ & Hg) & _). cbn in Hg. apply Hg.
Qed.
End laws.
End system.

(** Five bytes in two frames: the first is lost and sent again, then everything is
    acknowledged. *)
Lemma send_stream_reliable_witness :
  match tx_run (tx_start 4 (ex_stream, NewConnectionFlowController 1000 3000 None))
          [TxFlow (fun sc => (sc.1, conn_set (UpdateSendWindow 800 (connBase sc.2)) sc.2));
           TxWrite [1; 2; 3] 5; TxPop 128 false; TxWrite [4; 5] 6; TxClose; TxPop 128 true; TxLose 1; TxPop 128 false;
           TxAck 0; TxAck 0] with
  | Ok st => tx_completions (tyStream st) = [TxStreamCompleted 4] /\ has_fin (tyAcked st)
  | _ => False
  end.
Proof.
  pose proof (send_stream_reliable 4 (ex_stream, NewConnectionFlowController 1000 3000 None)
    [TxFlow (fun sc => (sc.1, conn_set (UpdateSendWindow 800 (connBase sc.2)) sc.2));
     TxWrite [1; 2; 3] 5; TxPop 128 false; TxWrite [4; 5] 6; TxClose; TxPop 128 true; TxLose 1; TxPop 128 false;
     TxAck 0; TxAck 0]) as Hr.
  destruct (tx_run _ _) as [st|e|m] eqn:E; vm_compute in E; [|discriminate..]. injection E as <-.
  destruct Hr as (_ & _ & _ & _ & Hr & _).
  - split; (split; [vm_compute; split; congruence|]; split; [vm_compute; reflexivity|]; split; [vm_compute; congruence|]; split; constructor).
  - reflexivity.
  - vm_compute. split; congruence.
  - repeat apply Forall_cons_2; try exact I; [..|apply Forall_nil_2].
    { intros [s c] [Hs Hc]. split; [|done]. split; [done|]. by apply UpdateSendWindow_ok. }
    all: first [apply Forall_nil_2|unfold is_u8; lia|split; discriminate].
  - split; [reflexivity|]. apply Hr; [discriminate|reflexivity].
Defined.
