(* ===== verification/StreamTransfer.v ===== *)
(** * StreamTransfer: a stream from its writer to its reader

    Composes SendStream.v and ReceiveStream.v: the frames the send stream of one
    peer has sent reach the receive stream of the other in any order, any number
    of times or not at all. *)

From S2P Require Import Prelude Protocol Varint Frames FlowControl FrameSorter FrameSorterProofs.
From S2P Require Import ReceiveStream ReceiveStreamProofs ReceiveStreamClaims.
From S2P Require Import SendStream SendStreamProofs SendStreamClaims.
From stdpp Require Import base numbers list option strings.
From Stdlib Require Import ZArith Lia.
#[local] Open Scope Z_scope.

Section transfer.
Context {F G : Type} `{HF : SendFlow F} {HFL : SendFlowLaws F} `{HG : StreamFlow G} {HGL : StreamFlowLaws G}.

(** What the receiver does: it only gets STREAM frames that were sent. *)
Definition from_sender (ts : tx_sys (F := F)) (o : rx_op (F := G)) : Prop :=
  match o with
  | RxFrame f _ _ => f ∈ tySent ts
  | RxReset _ _ => False
  | RxRead plen _ => 0 <= plen
  | RxFlow g => rx_op_ok (fun _ => 0) (RxFlow g)
  | _ => True
  end.

(** The stream as a function. *)
Definition stream_at (stream : bytes) (b : Z) : Z := default 0 (stream !! Z.to_nat b).

Lemma carries_frame_ok stream f :
  carries stream f -> sfOffset f + sfDataLen f <= MaxByteCount -> frame_ok (stream_at stream) f.
Proof.
  intros [H0 Hk] Hm. split; [done|]. split; [done|]. intros k v Hv. apply Hk in Hv. unfold stream_at.
  replace (Z.to_nat (sfOffset f + Z.of_nat k)) with (Z.to_nat (sfOffset f) + k)%nat by lia. by rewrite Hv.
Qed.

(** The sender's side of the contract. *)
Lemma sent_frames_ok sent (ts : tx_sys (F := F)) f :
  tx_inv sent ts -> f ∈ tySent ts ->
  frame_ok (stream_at (tx_stream ts)) f /\ sfOffset f + sfDataLen f <= blen sent /\
  (sfFin f = true -> sfOffset f + sfDataLen f = blen (tx_stream ts) /\ txFinishedWriting (tyStream ts) = true).
Proof.
  intros Hi Hin. destruct (tx_stream_sent sent ts Hi) as (rest & Hst & Hrest).
  pose proof (sent_bound _ _ (ti_core _ _ Hi)) as Hb. pose proof (ti_frames _ _ Hi) as Hf.
  rewrite app_assoc in Hf. apply Forall_app in Hf as [_ Hf]. rewrite Forall_forall in Hf. specialize (Hf f Hin).
  pose proof Hf as (_ & _ & Hle & _ & Hfin & _). split; [|split; [done|]].
  - apply carries_frame_ok; [|lia]. rewrite Hst. by eapply frame_carries.
  - intros [Hfs He]%Hfin. rewrite Hst, (Hrest Hfs), app_nil_r. split; [done|]. by apply (tc_fin _ _ (ti_core _ _ Hi)).
Qed.

Lemma from_sender_ok sent (ts : tx_sys (F := F)) o :
  tx_inv sent ts -> from_sender ts o -> rx_op_ok (stream_at (tx_stream ts)) o.
Proof.
  intros Hi Ho. destruct o as [f cb now|f now|plen now|timer now|c now|t|e|g]; cbn in *; try done.
  by apply (sent_frames_ok sent).
Qed.

(** The bytes of a stream that have been received are bytes of the stream. *)
Lemma stream_at_prefix stream n : 0 <= n <= blen stream -> stream_at stream <$> seqZ 0 n = take (Z.to_nat n) stream.
Proof.
  intros Hn. unfold blen in Hn. apply list_eq. intros i. rewrite list_lookup_fmap.
  destruct (decide (Z.of_nat i < n)) as [Hi|Hi].
  - rewrite lookup_seqZ_lt by done. rewrite lookup_take_lt by lia. cbn. unfold stream_at.
    destruct (lookup_lt_is_Some_2 stream i ltac:(lia)) as [v Hv]. replace (Z.to_nat (0 + Z.of_nat i)) with i by lia.
    by rewrite Hv.
  - rewrite lookup_seqZ_ge by lia. cbn. symmetry. apply lookup_take_ge. lia.
Qed.

(** The bytes read so far are covered by frames, and hence were sent. *)
Lemma read_was_sent sent (ts : tx_sys (F := F)) os (rs : rx_sys (F := G)) :
  tx_inv sent ts -> Forall (from_sender ts) os -> sys_inv (stream_at (tx_stream ts)) os rs ->
  blen (sysOut rs) <= blen sent.
Proof.
  intros Hi Hos Hs. destruct (Z.le_gt_cases (blen (sysOut rs)) (blen sent)) as [|Hgt]; [done|exfalso].
  destruct (si_inv _ _ _ Hs) as [Hc _]. pose proof (blen_nonneg sent).
  assert (Hpos : blen (sysOut rs) <= fsReadPos (rxQueue (sysStream rs))).
  { pose proof (f_equal length (rc_out _ _ _ _ Hc)) as Hl. rewrite length_app, length_fmap, length_seqZ in Hl.
    unfold blen in *. lia. }
  destruct (read_not_missing _ _ _ _ (blen sent) Hc ltac:(lia)) as [Hng Hmax].
  apply (rc_got _ _ _ _ Hc) in Hng; [|lia]. apply Exists_exists in Hng as (o & Ho & Hcov).
  rewrite Forall_forall in Hos. specialize (Hos o Ho). destruct o; try done. cbn in *.
  destruct (sent_frames_ok sent ts f Hi Hos) as (_ & Hle & _). unfold covers in Hcov. lia.
Qed.

(** C3: End to end.  Let a writer and a send stream do anything, and let the frames
    that were sent reach the receive stream of the peer reordered, repeated or not
    at all.  The bytes the reader gets are a prefix of the bytes written; it gets
    [io.EOF] only if the writer closed the stream, and then it has read everything
    that was written; and once the sender has reported the stream as completed and
    the frames it knows to be acknowledged have indeed arrived, no [Read] waits:
    it returns the next bytes, [io.EOF] or an error. *)
Theorem stream_transfer_correct id f g tos ros ts rs :
  tfc_ok f -> tfc_sent f = 0 -> is_varint id -> Forall tx_op_ok tos -> tx_run (tx_start id f) tos = Ok ts ->
  sfc_ok g -> sfc_live g -> sfc_read g = 0 -> sfc_final g = false ->
  Forall (from_sender ts) ros -> rx_run (rx_start id g) ros = Ok rs ->
  sysOut rs `prefix_of` tx_stream ts /\
  (forall p, (p, Some ReadEOF) ∈ sysLog rs -> txFinishedWriting (tyStream ts) = true /\ sysOut rs = tx_stream ts) /\
  (tx_completions (tyStream ts) <> [] -> txCancelWriteErr (tyStream ts) = None ->
   (forall fr, fr ∈ tyAcked ts -> exists cb now, RxFrame fr cb now ∈ ros) ->
   forall plen now, 0 < plen -> (Read plen now (sysStream rs)).1 <> Ok ReadBlocks).
Proof.
  intros Hf Hs0 Hid Htos Htx Hg Hl Hr0 Hfin Hros Hrx.
  pose proof (tx_run_inv tos [] _ (tx_start_inv id f Hf Hs0 Hid) Htos) as Hi. rewrite Htx in Hi. destruct Hi as [sent Hi].
  assert (Hok : Forall (rx_op_ok (stream_at (tx_stream ts))) ros).
  { eapply Forall_impl; [exact Hros|]. intros o Ho. by eapply from_sender_ok. }
  pose proof (rx_run_inv (stream_at (tx_stream ts)) ros [] _ (rx_start_inv _ id g Hg Hl Hr0 Hfin) Hok) as Hs.
  rewrite Hrx in Hs. cbn [app] in Hs. pose proof (read_was_sent sent ts ros rs Hi Hros Hs) as Hle.
  destruct (tx_stream_sent sent ts Hi) as (rest & Hst & Hrest).
  assert (Hlen : blen sent <= blen (tx_stream ts)) by (rewrite Hst, blen_app; pose proof (blen_nonneg rest); lia).
  pose proof (blen_nonneg (sysOut rs)) as Hn0.
  assert (Hout : sysOut rs = take (Z.to_nat (blen (sysOut rs))) (tx_stream ts)).
  { destruct (si_inv _ _ _ Hs) as [Hc _]. rewrite (prefix_of_stream _ _ _ _ Hc) at 1. apply stream_at_prefix. lia. }
  assert (Hend : forall v o, o ∈ ros -> rx_final v o -> v = blen (tx_stream ts) /\ txFinishedWriting (tyStream ts) = true).
  { intros v o Ho Hv. rewrite Forall_forall in Hros. specialize (Hros o Ho). destruct o; try done.
    destruct Hv as [Hv <-]. by apply (sent_frames_ok sent ts). }
  split; [rewrite Hout; apply prefix_take|]. split.
  - intros p Hp. destruct (si_log _ _ _ Hs _ _ Hp) as [_ He]. destruct (He eq_refl) as [Hfr ->].
    destruct (si_inv _ _ _ Hs) as [Hc _]. destruct (rc_fin _ _ _ _ Hc Hfr) as [Hsf Hb]. pose proof (rc_final _ _ _ _ Hc) as Hff.
    rewrite Hsf in Hff. pose proof (sfc_bounds _ (rc_flow _ _ _ _ Hc)).
    destruct (si_final _ _ _ Hs) as [?|Hex]; [lia|]. apply Exists_exists in Hex as (o & Ho & Hv).
    destruct (Hend _ _ Ho Hv) as [Hv' Hfw]. split; [done|]. rewrite Hout, Hb, <- Hff, Hv'. unfold blen.
    by rewrite Nat2Z.id, firstn_all.
  - intros Hne Hcn Hacked plen now Hp Hblk. pose proof (read_next_holds _ _ _ Hs plen now Hp) as Hnext.
    destruct (Read plen now (sysStream rs)) as [r s'] eqn:Er. cbn [fst] in Hblk. subst r.
    destruct Hnext as [Hlt Hnc].
    assert (Hcomp : txCompleted (tyStream ts) = true).
    { pose proof (ti_once _ _ Hi) as Ho. destruct (txCompleted (tyStream ts)); [done|]. by rewrite Ho in Hne. }
    destruct (ti_done _ _ Hi Hcomp Hcn) as (Hfs & Hfl & Hq). destruct (ti_count _ _ Hi Hcn) as (_ & Hcov & Hhf).
    unfold alive in Hcov, Hhf. rewrite Hfl, Hq, !app_nil_r in Hcov, Hhf. specialize (Hhf Hfs).
    destruct (Z.lt_ge_cases (blen (sysOut rs)) (blen sent)) as [Hlt'|Hge].
    + pose proof (Hcov (blen (sysOut rs)) ltac:(lia)) as (fr & Hfr & Hc)%Exists_exists.
      destruct (Hacked fr Hfr) as (cb & now' & Hin). apply Hnc, Exists_exists. by exists (RxFrame fr cb now').
    + apply Exists_exists in Hhf as (fr & Hfr & Hff). destruct (Hacked fr Hfr) as (cb & now' & Hin).
      assert (Hv : Exists (rx_fin (F := G) (sfOffset fr + sfDataLen fr)) ros) by (apply Exists_exists; by exists (RxFrame fr cb now')).
      destruct (si_fin _ _ _ Hs _ Hv) as [Hv' _].
      assert (Hfo : frame_of sent (txFinSent (tyStream ts)) (txStreamID (tyStream ts)) fr).
      { pose proof (ti_frames _ _ Hi) as Hall. rewrite Forall_forall in Hall. apply Hall. apply elem_of_app. right.
        apply elem_of_app. by left. }
      destruct Hfo as (_ & _ & _ & _ & Hfo & _). destruct (Hfo Hff) as [_ He]. lia.
Qed.
End transfer.

(** Three bytes in one frame, which arrives twice; the reader waits for it. *)
Lemma stream_transfer_correct_witness :
  exists ts rs,
  tx_run (tx_start 4 (ex_stream, NewConnectionFlowController 1000 3000 None))
    [TxFlow (fun sc => (sc.1, conn_set (UpdateSendWindow 800 (connBase sc.2)) sc.2));
     TxWrite [1; 2; 3] 5; TxClose; TxPop 128 true; TxAck 0] = Ok ts /\
  rx_run (rx_start 4 (ex_stream, ex_conn))
    [RxRead 5 6; RxFrame (mkStream 4 0 [1; 2; 3] true false) None 7; RxWake false 8;
     RxFrame (mkStream 4 0 [1; 2; 3] true false) None 9] = Ok rs /\
  sysOut rs = [1; 2; 3] /\ sysOut rs = tx_stream ts.
Proof.
  eexists _, _. split; [vm_compute; reflexivity|]. split; [vm_compute; reflexivity|]. split; [reflexivity|].
  eapply (stream_transfer_correct 4 (ex_stream, NewConnectionFlowController 1000 3000 None) (ex_stream, ex_conn)
    [TxFlow (fun sc => (sc.1, conn_set (UpdateSendWindow 800 (connBase sc.2)) sc.2));
     TxWrite [1; 2; 3] 5; TxClose; TxPop 128 true; TxAck 0]
    [RxRead 5 6; RxFrame (mkStream 4 0 [1; 2; 3] true false) None 7; RxWake false 8;
     RxFrame (mkStream 4 0 [1; 2; 3] true false) None 9]) with (p := 3).
  - split; (split; [vm_compute; split; congruence|]; split; [vm_compute; reflexivity|]; split; [vm_compute; congruence|]; split; constructor).
  - reflexivity.
  - vm_compute. split; congruence.
  - repeat apply Forall_cons_2; try exact I; [..|apply Forall_nil_2].
    { intros [s c] [Hs Hc]. split; [|done]. split; [done|]. by apply UpdateSendWindow_ok. }
    all: first [apply Forall_nil_2|unfold is_u8; lia|split; discriminate].
  - vm_compute. reflexivity.
  - split; [|split; [|split]]; vm_compute; try (split_and!); try done.
  - vm_compute. discriminate.
  - reflexivity.
  - reflexivity.
  - repeat apply Forall_cons_2; try exact I; [..|apply Forall_nil_2]; try (cbn; lia); cbn; by left.
  - vm_compute. reflexivity.
  - cbn. by left.
Defined.
