(* ===== verification/CryptoStream.v ===== *)
(** * CryptoStream: handshake data

    Models crypto_stream.go and crypto_stream_manager.go on the frame sorter of
    FrameSorter.v.  The TLS stack is a parameter: [HandleMessage] gets all the
    messages it was passed so far, the last one included, and says whether it
    fails. *)

From S2P Require Import Prelude Protocol Varint Frames FrameSplit FrameSorter FrameSorterProofs.
From stdpp Require Import base numbers list option strings gmap fin_maps.
From Stdlib Require Import ZArith Lia.
#[local] Open Scope Z_scope.

(** ** The stream of an encryption level *)

Definition MaxCryptoStreamOffset : Z := 16 * Z.shiftl 1 10.
Definition CryptoBufferExceeded : Z := 0xd.

Record cryptoStream := mkCryptoStream {
  csQueue : frameSorter;
  csMsgBuf : option bytes;       (* nil until data arrives *)
  csHighestOffset : Z;
  csFinished : bool;
  csWriteOffset : Z;
  csWriteBuf : bytes
}.

Definition newCryptoStream : cryptoStream := mkCryptoStream newFrameSorter None 0 false 0 [].

Definition cs_queue q s : cryptoStream :=
  mkCryptoStream q (csMsgBuf s) (csHighestOffset s) (csFinished s) (csWriteOffset s) (csWriteBuf s).
Definition cs_msgBuf b s : cryptoStream :=
  mkCryptoStream (csQueue s) b (csHighestOffset s) (csFinished s) (csWriteOffset s) (csWriteBuf s).
Definition cs_highest v s : cryptoStream :=
  mkCryptoStream (csQueue s) (csMsgBuf s) v (csFinished s) (csWriteOffset s) (csWriteBuf s).
Definition cs_finished v s : cryptoStream :=
  mkCryptoStream (csQueue s) (csMsgBuf s) (csHighestOffset s) v (csWriteOffset s) (csWriteBuf s).
Definition cs_write off b s : cryptoStream :=
  mkCryptoStream (csQueue s) (csMsgBuf s) (csHighestOffset s) (csFinished s) off b.

Abbreviation csM := (stM cryptoStream).

Definition onCsQueue {T} (m : fsM T) : csM T := fun s => let '(r, q) := m (csQueue s) in (r, cs_queue q s).

Definition errCryptoBuffer : GoError :=
  TransportError CryptoBufferExceeded 0 "received invalid offset %d on crypto stream, maximum allowed %d".
Definition errCryptoAfterFinish : GoError :=
  TransportError 0xa 0 "received crypto data after change of encryption level".
Definition errCryptoMoreData : GoError :=
  TransportError 0xa 0 "encryption level changed, but crypto stream has more data to read".

(** The loop that pops the data in order: every round takes an entry from the queue. *)
Fixpoint popAll (fuel : nat) : csM unit :=
  '(_, data, _) ← onCsQueue Pop;
  match data with
  | None => mret tt
  | Some d =>
      _ ← modify (fun s => cs_msgBuf (Some (default [] (csMsgBuf s) ++ d)) s);
      match fuel with O => lift (Panic "out of fuel") | S fuel' => popAll fuel' end
  end.

Definition cs_HandleCryptoFrame (f : CryptoFrame) : csM unit :=
  let highestOffset := i64 (cfOffset f + blen (cfData f)) in
  if MaxCryptoStreamOffset <? highestOffset then throw errCryptoBuffer
  else
    s ← get;
    if csFinished s then
      if csHighestOffset s <? highestOffset then throw errCryptoAfterFinish else mret tt
    else
      _ ← modify (cs_highest (Z.max (csHighestOffset s) highestOffset));
      _ ← onCsQueue (Push (cfData f) (cfOffset f) None);
      s ← get;
      popAll (size (fsQueue (csQueue s))).

Definition GetCryptoData : csM (option bytes) :=
  s ← get; _ ← modify (cs_msgBuf None); mret (csMsgBuf s).

Definition cs_Finish : csM unit :=
  s ← get;
  if HasMoreData (csQueue s) then throw errCryptoMoreData else modify (cs_finished true).

Definition cs_Write (p : bytes) : csM Z := _ ← modify (fun s => cs_write (csWriteOffset s) (csWriteBuf s ++ p) s); mret (blen p).

Definition cs_HasData (s : cryptoStream) : bool := 0 <? blen (csWriteBuf s).

Definition PopCryptoFrame (maxLen : Z) : csM CryptoFrame :=
  s ← get;
  m ← lift (crypto_MaxDataLen (mkCrypto (csWriteOffset s) []) maxLen);
  let n := Z.min m (blen (csWriteBuf s)) in
  let data := take (Z.to_nat n) (csWriteBuf s) in
  _ ← modify (cs_write (i64 (csWriteOffset s + n)) (drop (Z.to_nat n) (csWriteBuf s)));
  mret (mkCrypto (csWriteOffset s) data).

(** ** The manager *)

Record cryptoStreamManager := mkCryptoManager {
  cmInitial : cryptoStream;
  cmHandshake : cryptoStream;
  cmOneRTT : cryptoStream;
  cmMessages : list (EncryptionLevel * bytes)     (* the calls of HandleMessage *)
}.

Definition newCryptoStreamManager (i h o : cryptoStream) : cryptoStreamManager := mkCryptoManager i h o [].

Definition cm_stream (lvl : EncryptionLevel) (m : cryptoStreamManager) : option cryptoStream :=
  match lvl with
  | EncryptionInitial => Some (cmInitial m)
  | EncryptionHandshake => Some (cmHandshake m)
  | Encryption1RTT => Some (cmOneRTT m)
  | Encryption0RTT => None
  end.

Definition cm_set (lvl : EncryptionLevel) (s : cryptoStream) (m : cryptoStreamManager) : cryptoStreamManager :=
  match lvl with
  | EncryptionInitial => mkCryptoManager s (cmHandshake m) (cmOneRTT m) (cmMessages m)
  | EncryptionHandshake => mkCryptoManager (cmInitial m) s (cmOneRTT m) (cmMessages m)
  | Encryption1RTT => mkCryptoManager (cmInitial m) (cmHandshake m) s (cmMessages m)
  | Encryption0RTT => m
  end.

Definition cm_message (lvl : EncryptionLevel) (d : bytes) (m : cryptoStreamManager) : cryptoStreamManager :=
  mkCryptoManager (cmInitial m) (cmHandshake m) (cmOneRTT m) (cmMessages m ++ [(lvl, d)]).

Abbreviation cmM := (stM cryptoStreamManager).

Definition onStream {T} (lvl : EncryptionLevel) (k : csM T) : cmM T := fun m =>
  match cm_stream lvl m with
  | None => (Panic "nil pointer dereference", m)
  | Some s => let '(r, s') := k s in (r, cm_set lvl s' m)
  end.

Definition errCryptoLevel : GoError := ErrorString "received CRYPTO frame with unexpected encryption level: %s".

Section manager.
Context (HandleMessage : list (EncryptionLevel * bytes) -> option GoError).

(** [GetCryptoData] returns nil when it is called again. *)
Fixpoint deliver (fuel : nat) (lvl : EncryptionLevel) : cmM unit :=
  data ← onStream lvl GetCryptoData;
  match data with
  | None => mret tt
  | Some d =>
      _ ← modify (cm_message lvl d);
      m ← get;
      match HandleMessage (cmMessages m) with
      | Some e => throw e
      | None => match fuel with O => lift (Panic "out of fuel") | S fuel' => deliver fuel' lvl end
      end
  end.

Definition cm_HandleCryptoFrame (frame : CryptoFrame) (lvl : EncryptionLevel) : cmM unit :=
  match lvl with
  | Encryption0RTT => throw errCryptoLevel
  | _ =>
      _ ← onStream lvl (cs_HandleCryptoFrame frame);
      deliver 1 lvl
  end.
End manager.

Definition GetPostHandshakeData (maxSize : Z) : cmM (option CryptoFrame) :=
  m ← get;
  if negb (cs_HasData (cmOneRTT m)) then mret None
  else f ← onStream Encryption1RTT (PopCryptoFrame maxSize); mret (Some f).

Definition cm_Drop (lvl : EncryptionLevel) : cmM unit :=
  match lvl with
  | EncryptionInitial | EncryptionHandshake => onStream lvl cs_Finish
  | _ => lift (Panic "dropped unexpected encryption level: %s")
  end.

(** ** Receiving *)

Lemma Pop_size s r d cb s' :
  Pop s = (Ok (r, Some d, cb), s') -> size (fsQueue s) = S (size (fsQueue s')).
Proof.
  unfold Pop, mbind, stM_bind, get. destruct (fsQueue s !! fsReadPos s) as [e|] eqn:He; [|done].
  unfold queueDelete, modify. cbn. unfold gapDeref. destruct (head _); cbn; [|done].
  unfold lift, mbind, stM_bind, get. cbn. destruct (gap_value _ _); [|done..]. destruct (_ <=? _); [done|].
  intros [= <- <- <- <-]. cbn. rewrite map_size_delete_Some by done.
  destruct (size (fsQueue s)) eqn:E; [|done]. apply map_size_empty_inv in E. by rewrite E, lookup_empty in He.
Qed.

Section receive.
Context (str : Z -> Z) (cov : Z -> Prop).

(** The stream, after the bytes [out] were handed out; [cov]: the bytes that
    frames carried. *)
Record cs_mid (out : bytes) (s : cryptoStream) : Prop := {
  cm_queue : fs_inv (csQueue s);
  cm_bytes : forall b v, byte_at (csQueue s) b v -> v = str b;
  cm_gap : forall b, 0 <= b < MaxByteCount -> in_gap (fsGaps (csQueue s)) b <-> ~ cov b;
  cm_out : out ++ default [] (csMsgBuf s) = str <$> seqZ 0 (fsReadPos (csQueue s));
  cm_buf : csMsgBuf s <> Some []
}.

(** At rest, the next byte is missing. *)
Definition cs_inv (out : bytes) (s : cryptoStream) : Prop :=
  cs_mid out s /\ in_gap (fsGaps (csQueue s)) (fsReadPos (csQueue s)).

Definition cs_same (s s' : cryptoStream) : Prop :=
  csHighestOffset s' = csHighestOffset s /\ csFinished s' = csFinished s /\
  csWriteOffset s' = csWriteOffset s /\ csWriteBuf s' = csWriteBuf s.

Lemma wp_popAll out : forall fuel s, (size (fsQueue (csQueue s)) <= fuel)%nat -> cs_mid out s ->
  wp (popAll fuel) (fun _ s' => cs_inv out s' /\ cs_same s s') (fun _ _ => False) s.
Proof.
  induction fuel as [|fuel IH]; intros s Hf Hm; cbn [popAll]; apply wp_bind.
  all: pose proof (wp_Pop _ (cm_queue _ _ Hm)) as Hp; pose proof (Pop_size (csQueue s)) as Hsz;
    unfold wp in Hp |- *; unfold onCsQueue;
    destruct (Pop (csQueue s)) as [[[[off d] cb]|e|m] q']; [|done|done];
    destruct Hp as (Hi & _ & Hg & Hd); cbn in Hd; destruct d as [d|];
    [|destruct Hd as (-> & _ & Hin); split; [|done]; split; [destruct Hm; by constructor|done]].
  { specialize (Hsz _ _ _ _ eq_refl). lia. }
  specialize (Hsz _ _ _ _ eq_refl). destruct Hd as (Hne & Hr & Hd & Hb & _).
  eapply (IH (cs_msgBuf _ (cs_queue q' s))); [cbn; lia|]. destruct Hm as [Hq Hby Hgap Hout Hbuf].
  constructor; cbn; [done| | | |by destruct (default [] (csMsgBuf s)), d].
  - intros b v Hv. by apply Hby, Hb.
  - intros b Hb'. rewrite Hg. by apply Hgap.
  - pose proof (fi_read _ Hq). pose proof (blen_nonneg d).
    rewrite app_assoc, Hout, Hr, seqZ_app, fmap_app by lia. f_equal.
    replace (0 + fsReadPos (csQueue s)) with (fsReadPos (csQueue s)) by lia.
    apply str_slice. intros k v Hk. by apply Hby, Hd.
Qed.
End receive.

Definition crypto_ok (str : Z -> Z) (f : CryptoFrame) : Prop :=
  0 <= cfOffset f < 2 ^ 62 /\ blen (cfData f) < 2 ^ 62 /\
  forall k v, cfData f !! k = Some v -> v = str (cfOffset f + Z.of_nat k).

Definition crypto_covers (f : CryptoFrame) (b : Z) : Prop := cfOffset f <= b < cfOffset f + blen (cfData f).

Lemma wp_cs_HandleCryptoFrame str cov out s f :
  cs_inv str cov out s -> crypto_ok str f ->
  wp (cs_HandleCryptoFrame f)
    (fun _ s' => cs_inv str (fun b => cov b \/ (csFinished s = false /\ crypto_covers f b)) out s' /\
       csFinished s' = csFinished s /\ csWriteOffset s' = csWriteOffset s /\ csWriteBuf s' = csWriteBuf s)
    (fun e _ => e = errCryptoBuffer \/ e = errCryptoAfterFinish \/ e = errTooManyGaps) s.
Proof.
  intros [Hm Htop] (Hoff & Hlen & Hd). unfold cs_HandleCryptoFrame. pose proof (blen_nonneg (cfData f)).
  rewrite i64_small by int_range. destruct (Z.ltb_spec MaxCryptoStreamOffset (cfOffset f + blen (cfData f))) as [|Hle];
    [by left|]. change MaxCryptoStreamOffset with 16384 in Hle. apply wp_bind, wp_get. destruct (csFinished s) eqn:Ef.
  - destruct (_ <? _); [right; by left|]. apply wp_ret. split; [|done]. split; [|done].
    destruct Hm as [Hq Hby Hgap Hout Hbuf]. constructor; try done. intros b Hb. rewrite Hgap by done. split; [|tauto].
    intros Hn [?|[? _]]; [tauto|done].
  - apply wp_bind, wp_modify, wp_bind. destruct Hm as [Hq Hby Hgap Hout Hbuf].
    pose proof (wp_Push (csQueue s) (cfData f) (cfOffset f) None Hq ltac:(lia) ltac:(unfold MaxByteCount; lia)) as Hp.
    unfold wp at 1. unfold wp in Hp. unfold onCsQueue. cbn [csQueue cs_highest].
    destruct (Push (cfData f) (cfOffset f) None (csQueue s)) as [[[]|e|m] q']; [|right; right; by destruct Hp|done].
    destruct Hp as (Hi & Hr & Hg & Hb & _). apply wp_bind, wp_get.
    eapply wp_mono; [| |apply (wp_popAll str (fun b => cov b \/ (false = false /\ crypto_covers f b)) out); [done|]]; [|done|].
    + intros _ s' (Hi' & _ & H2 & H3 & H4). cbn in H2. split; [done|]. split; [congruence|done].
    + constructor; cbn; [done| | |by rewrite Hr|done].
      * intros b v [?|[Hle' Hv]]%Hb; [by apply Hby|]. apply Hd in Hv. rewrite Hv. f_equal. lia.
      * intros b Hb'. rewrite Hg, Hgap by done. unfold crypto_covers. tauto.
Qed.

(** ** The messages of the TLS stack *)

Definition level_data (lvl : EncryptionLevel) (log : list (EncryptionLevel * bytes)) : bytes :=
  mjoin (snd <$> filter (fun x => x.1 = lvl) log).

Lemma level_data_snoc lvl log l d :
  level_data lvl (log ++ [(l, d)]) = level_data lvl log ++ (if decide (l = lvl) then d else []).
Proof.
  unfold level_data. rewrite filter_app, fmap_app, join_app. f_equal. rewrite filter_cons, filter_nil. cbn [fst].
  destruct (decide (l = lvl)); cbn; [apply app_nil_r|done].
Qed.

Inductive cm_op :=
  | CmFrame (f : CryptoFrame) (lvl : EncryptionLevel)
  | CmDrop (lvl : EncryptionLevel).

Definition cm_do (HandleMessage : list (EncryptionLevel * bytes) -> option GoError) (o : cm_op) : cmM unit :=
  match o with
  | CmFrame f lvl => cm_HandleCryptoFrame HandleMessage f lvl
  | CmDrop lvl => cm_Drop lvl
  end.

Fixpoint cm_run (HandleMessage : list (EncryptionLevel * bytes) -> option GoError) (os : list cm_op) : cmM unit :=
  match os with
  | [] => mret tt
  | o :: os' => _ ← cm_do HandleMessage o; cm_run HandleMessage os'
  end.

(** The CRYPTO frames received before their level was dropped. *)
Fixpoint level_frames (lvl : EncryptionLevel) (os : list cm_op) : list CryptoFrame :=
  match os with
  | [] => []
  | CmFrame f l :: os' => if decide (l = lvl) then f :: level_frames lvl os' else level_frames lvl os'
  | CmDrop l :: os' => if decide (l = lvl) then [] else level_frames lvl os'
  end.

Definition level_cov (lvl : EncryptionLevel) (os : list cm_op) (b : Z) : Prop :=
  Exists (fun f => crypto_covers f b) (level_frames lvl os).

Definition level_dropped (lvl : EncryptionLevel) (os : list cm_op) : bool :=
  existsb (fun o => match o with CmDrop l => bool_decide (l = lvl) | _ => false end) os.

Lemma level_frames_snoc lvl os o :
  level_frames lvl (os ++ [o]) = level_frames lvl os ++
    match o with
    | CmFrame f l => if decide (l = lvl /\ level_dropped lvl os = false) then [f] else []
    | CmDrop _ => []
    end.
Proof.
  induction os as [|[f l|l] os IH]; cbn.
  - destruct o as [f l|l]; repeat case_decide; naive_solver.
  - destruct (decide (l = lvl)); by rewrite IH.
  - destruct (decide (l = lvl)) as [->|]; [|by rewrite bool_decide_false by done; apply IH].
    rewrite bool_decide_true by done. destruct o; [|done]. by rewrite decide_False by naive_solver.
Qed.

Lemma level_dropped_snoc lvl os o :
  level_dropped lvl (os ++ [o]) = level_dropped lvl os ||
    match o with CmDrop l => bool_decide (l = lvl) | _ => false end.
Proof. unfold level_dropped. rewrite existsb_app. cbn. by rewrite orb_false_r. Qed.

Lemma cm_stream_set lvl l s m :
  cm_stream lvl m <> None ->
  cm_stream l (cm_set lvl s m) = if decide (l = lvl) then Some s else cm_stream l m.
Proof. destruct lvl, l; cbn; try done; by rewrite ?decide_True, ?decide_False. Qed.

Lemma wp_onStream {T} lvl (k : csM T) (Q : T -> cryptoStreamManager -> Prop) E s m :
  cm_stream lvl m = Some s ->
  wp k (fun a s' => Q a (cm_set lvl s' m)) (fun e s' => E e (cm_set lvl s' m)) s -> wp (onStream lvl k) Q E m.
Proof. intros Hs. unfold wp, onStream. rewrite Hs. by destruct (k s) as [[] s']. Qed.

Lemma cm_messages_set lvl s m : cmMessages (cm_set lvl s m) = cmMessages m.
Proof. by destruct lvl. Qed.

Lemma cm_stream_message lvl l d m : cm_stream l (cm_message lvl d m) = cm_stream l m.
Proof. by destruct l. Qed.

Section messages.
Context (HandleMessage : list (EncryptionLevel * bytes) -> option GoError).

Lemma wp_deliver lvl s m :
  cm_stream lvl m = Some s ->
  wp (deliver HandleMessage 1 lvl)
    (fun _ m' => cmMessages m' = cmMessages m ++ match csMsgBuf s with Some d => [(lvl, d)] | None => [] end /\
       forall l, cm_stream l m' = if decide (l = lvl) then Some (cs_msgBuf None s) else cm_stream l m)
    (fun _ _ => True) m.
Proof.
  intros Hs. cbn [deliver]. apply wp_bind, (wp_onStream _ _ _ _ s); [done|]. apply wp_bind, wp_get, wp_bind, wp_modify, wp_ret.
  assert (Hset : forall l, cm_stream l (cm_set lvl (cs_msgBuf None s) m) =
            if decide (l = lvl) then Some (cs_msgBuf None s) else cm_stream l m) by (intros l; apply cm_stream_set; congruence).
  destruct (csMsgBuf s) as [d|] eqn:Eb.
  - apply wp_bind, wp_modify, wp_bind, wp_get. destruct (HandleMessage _) as [e|]; [done|].
    set (m1 := cm_message _ _ _).
    assert (Hm1 : forall l, cm_stream l m1 = if decide (l = lvl) then Some (cs_msgBuf None s) else cm_stream l m).
    { intros l. unfold m1. by rewrite cm_stream_message. }
    apply wp_bind, (wp_onStream _ _ _ _ (cs_msgBuf None s)); [by rewrite Hm1, decide_True|].
    apply wp_bind, wp_get, wp_bind, wp_modify, wp_ret, wp_ret. split.
    + rewrite cm_messages_set. unfold m1. cbn. by rewrite cm_messages_set.
    + intros l. rewrite cm_stream_set by (rewrite Hm1, decide_True; done). rewrite Hm1. by destruct (decide (l = lvl)).
  - apply wp_ret. split; [by rewrite cm_messages_set, app_nil_r|]. exact Hset.
Qed.

Context (strs : EncryptionLevel -> Z -> Z).

Definition cm_op_ok (o : cm_op) : Prop :=
  match o with
  | CmFrame f lvl => crypto_ok (strs lvl) f
  | CmDrop lvl => lvl = EncryptionInitial \/ lvl = EncryptionHandshake
  end.

Definition cm_inv (os : list cm_op) (m : cryptoStreamManager) : Prop := forall lvl s, cm_stream lvl m = Some s ->
  cs_inv (strs lvl) (level_cov lvl os) (level_data lvl (cmMessages m)) s /\ csMsgBuf s = None /\
  csFinished s = level_dropped lvl os.

Lemma cs_inv_cov str cov cov' out s : (forall b, cov b <-> cov' b) -> cs_inv str cov out s -> cs_inv str cov' out s.
Proof. intros Hc [[] ?]. split; [constructor; try done|done]. intros b Hb. rewrite <- Hc. by apply cm_gap0. Qed.

Lemma cs_inv_deliver str cov out s :
  cs_inv str cov out s -> cs_inv str cov (out ++ default [] (csMsgBuf s)) (cs_msgBuf None s).
Proof. intros [[] ?]. split; [|done]. constructor; cbn; try done. by rewrite app_nil_r. Qed.

Lemma cm_frame_inv os m f lvl :
  cm_inv os m -> crypto_ok (strs lvl) f ->
  wp (cm_HandleCryptoFrame HandleMessage f lvl) (fun _ m' => cm_inv (os ++ [CmFrame f lvl]) m') (fun _ _ => True) m.
Proof.
  intros Hi Hf. assert (Hcases : lvl = Encryption0RTT \/ exists s, cm_stream lvl m = Some s) by (destruct lvl; eauto).
  destruct Hcases as [-> |[s Hs]]; [done|].
  assert (Hgoal : wp (_ ← onStream lvl (cs_HandleCryptoFrame f); deliver HandleMessage 1 lvl)
    (fun _ m' => cm_inv (os ++ [CmFrame f lvl]) m') (fun _ _ => True) m); [|by destruct lvl].
  destruct (Hi lvl s Hs) as (Hc & Hb & Hfin). apply wp_bind, (wp_onStream _ _ _ _ s); [done|].
  eapply wp_mono; [| |by apply (wp_cs_HandleCryptoFrame (strs lvl))]; [|done]. intros _ s1 (Hc1 & Hf1 & _).
  assert (Hs1 : forall l, cm_stream l (cm_set lvl s1 m) = if decide (l = lvl) then Some s1 else cm_stream l m)
    by (intros l; apply cm_stream_set; congruence).
  eapply wp_mono; [| |apply (wp_deliver lvl s1); by rewrite Hs1, decide_True]; [|done].
  intros _ m' [Hmsg Hst] l s' Hl. rewrite cm_messages_set in Hmsg. rewrite Hst, Hs1 in Hl.
  unfold level_cov. rewrite level_frames_snoc, level_dropped_snoc, orb_false_r, Hmsg.
  destruct (decide (l = lvl)) as [->|Hne].
  - injection Hl as <-. split; [|split; [done|cbn; congruence]].
    assert (Hd : level_data lvl (cmMessages m ++ match csMsgBuf s1 with Some d => [(lvl, d)] | None => [] end) =
              level_data lvl (cmMessages m) ++ default [] (csMsgBuf s1)).
    { destruct (csMsgBuf s1); [by rewrite level_data_snoc, decide_True|by rewrite !app_nil_r]. }
    rewrite Hd. eapply cs_inv_cov; [|by apply cs_inv_deliver]. intros b. rewrite Exists_app. cbn. rewrite Hfin.
    unfold level_cov. destruct (level_dropped lvl os); case_decide; rewrite ?Exists_cons, Exists_nil; naive_solver.
  - destruct (Hi l s' Hl) as (Hc' & Hb' & Hf'). rewrite decide_False, app_nil_r by naive_solver. split; [|done].
    assert (Hd : level_data l (cmMessages m ++ match csMsgBuf s1 with Some d => [(lvl, d)] | None => [] end) =
              level_data l (cmMessages m)).
    { destruct (csMsgBuf s1); [by rewrite level_data_snoc, decide_False, app_nil_r by done|by rewrite app_nil_r]. }
    by rewrite Hd.
Qed.

Lemma cm_drop_inv os m lvl :
  cm_inv os m -> lvl = EncryptionInitial \/ lvl = EncryptionHandshake ->
  wp (cm_Drop lvl) (fun _ m' => cm_inv (os ++ [CmDrop lvl]) m') (fun _ _ => True) m.
Proof.
  intros Hi Hl. assert (exists s, cm_stream lvl m = Some s) as [s Hs] by (destruct Hl as [-> | ->]; eauto).
  assert (Hgoal : wp (onStream lvl cs_Finish) (fun _ m' => cm_inv (os ++ [CmDrop lvl]) m') (fun _ _ => True) m);
    [|by destruct Hl as [-> | ->]].
  apply (wp_onStream _ _ _ _ s); [done|]. unfold cs_Finish. apply wp_bind, wp_get. destruct (HasMoreData _); [done|].
  apply wp_modify. intros l s' Hl'. rewrite cm_stream_set in Hl' by congruence. rewrite cm_messages_set.
  unfold level_cov. rewrite level_frames_snoc, app_nil_r, level_dropped_snoc.
  destruct (decide (l = lvl)) as [->|Hne].
  - injection Hl' as <-. destruct (Hi lvl s Hs) as ([[] ?] & Hb & Hfin).
    split; [split; [by constructor|done]|]. split; [done|]. by rewrite bool_decide_true, orb_true_r.
  - rewrite bool_decide_false, orb_false_r by congruence. by apply Hi.
Qed.

Lemma cm_run_inv : forall os' os m, cm_inv os m -> Forall cm_op_ok os' ->
  wp (cm_run HandleMessage os') (fun _ m' => cm_inv (os ++ os') m') (fun _ _ => True) m.
Proof.
  induction os' as [|o os' IH]; intros os m Hi Hok; cbn [cm_run]; [apply wp_ret; by rewrite app_nil_r|].
  apply Forall_cons in Hok as [Ho Hok]. apply wp_bind.
  assert (Hd : wp (cm_do HandleMessage o) (fun _ m' => cm_inv (os ++ [o]) m') (fun _ _ => True) m)
    by (destruct o; [by apply cm_frame_inv|by apply cm_drop_inv]).
  eapply wp_mono; [| |exact Hd]; [|done]. intros [] m' Hi'. specialize (IH _ _ Hi' Hok). by rewrite <- app_assoc in IH.
Qed.

(** C17: The handshake data reaches TLS in order.  Whatever CRYPTO frames arrive at
    the three encryption levels, reordered, repeated and overlapping, interleaved
    with the dropping of levels, and whatever TLS answers: nothing panics, and all
    the loops end; the data passed to [HandleMessage] at a level is exactly the
    beginning of the stream of that level, and it ends only where a byte is in no
    frame received before the level was dropped.  In particular no level mixes
    with another. *)
Theorem crypto_data_in_order os :
  Forall cm_op_ok os ->
  match cm_run HandleMessage os (newCryptoStreamManager newCryptoStream newCryptoStream newCryptoStream) with
  | (Ok _, m) => forall lvl, lvl <> Encryption0RTT ->
      let data := level_data lvl (cmMessages m) in
      data = strs lvl <$> seqZ 0 (blen data) /\ ~ level_cov lvl os (blen data)
  | (Err _, _) => True
  | (Panic _, _) => False
  end.
Proof.
  intros Hok.
  assert (Hnew : cm_inv [] (newCryptoStreamManager newCryptoStream newCryptoStream newCryptoStream)).
  { intros lvl s Hs. assert (s = newCryptoStream) as -> by (destruct lvl; naive_solver). split; [|done]. split.
    - constructor; cbn; try done; [apply newFrameSorter_inv| |].
      + intros b v (off & e & He & _). cbn in He. by rewrite lookup_empty in He.
      + intros b Hb. rewrite in_gap_cons. unfold level_cov. rewrite Exists_nil. cbn. tauto.
    - cbn. rewrite in_gap_cons. left. cbn. unfold MaxByteCount. lia. }
  pose proof (cm_run_inv os [] _ Hnew Hok) as Hr. unfold wp in Hr.
  destruct (cm_run HandleMessage os _) as [[[]|e|p] m]; [|done|done]. cbn [app] in Hr. intros lvl Hlvl.
  assert (exists s, cm_stream lvl m = Some s) as [s Hs] by (destruct lvl; [eauto|eauto|done|eauto]).
  destruct (Hr lvl s Hs) as ([[Hq Hby Hgap Hout Hbuf] Hin] & Hb & _). rewrite Hb in Hout. cbn in Hout.
  rewrite app_nil_r in Hout. pose proof (fi_read _ Hq) as Hrp.
  assert (Hlen : blen (level_data lvl (cmMessages m)) = fsReadPos (csQueue s)).
  { rewrite Hout. unfold blen. rewrite length_fmap, length_seqZ. lia. }
  cbn zeta. rewrite Hlen. split; [done|]. apply Hgap; [|done].
  destruct Hin as (g & Hg & Hin). pose proof (gap_each _ g Hq Hg). lia.
Qed.
End messages.

(** Two frames at the Initial level, the second one first, and one at the
    Handshake level. *)
Lemma crypto_data_in_order_witness :
  let r := cm_run (fun log => None)
    [CmFrame (mkCrypto 2 [12; 13]) EncryptionInitial; CmFrame (mkCrypto 0 [20]) EncryptionHandshake;
     CmFrame (mkCrypto 0 [10; 11; 12]) EncryptionInitial; CmDrop EncryptionInitial]
    (newCryptoStreamManager newCryptoStream newCryptoStream newCryptoStream) in
  r.1 = Ok tt /\ level_data EncryptionInitial (cmMessages r.2) = [10; 11; 12; 13].
Proof.
  pose proof (crypto_data_in_order (fun log => None)
    (fun lvl b => if decide (lvl = EncryptionInitial) then 10 + b else 20 + b)
    [CmFrame (mkCrypto 2 [12; 13]) EncryptionInitial; CmFrame (mkCrypto 0 [20]) EncryptionHandshake;
     CmFrame (mkCrypto 0 [10; 11; 12]) EncryptionInitial; CmDrop EncryptionInitial]) as Hr.
  cbn zeta. destruct (cm_run _ _ _) as [r m] eqn:E. vm_compute in E. injection E as <- <-.
  destruct (Hr ltac:(
    repeat apply Forall_cons_2; [..|apply Forall_nil_2]; try (left; reflexivity);
    (split; [split; [discriminate|reflexivity]|split; [reflexivity|]]); intros k v Hk;
      repeat (destruct k as [|k]; [injection Hk as <-; reflexivity|]); discriminate) EncryptionInitial) as [Hd _];
    [discriminate|]. split; [reflexivity|]. etransitivity; [exact Hd|vm_compute; reflexivity].
Defined.

(** ** Sending *)

Definition cryptoHeader (f : CryptoFrame) : Z := 1 + vlen (cfOffset f).

Lemma crypto_Length_spec f : is_varint (cfOffset f) -> is_varint (blen (cfData f)) ->
  frame_Length f = Ok (cryptoHeader f + vlen (blen (cfData f)) + blen (cfData f)).
Proof.
  intros H1 H2. frame_unfold. rewrite !varint_u64 by done.
  rewrite lenVarints_vencs by solve_varints. cbn [mbind res_bind]. rewrite blen_vencs by solve_varints.
  unfold cryptoHeader. cbn [foldr]. f_equal. lia.
Qed.

Lemma crypto_MaxDataLen_spec f maxSize : is_varint (cfOffset f) ->
  crypto_MaxDataLen f maxSize = fitData (cryptoHeader f + 1) maxSize true.
Proof.
  intros H1. unfold crypto_MaxDataLen. rewrite varint_u64, varint_Len_vlen by (done || apply H1). done.
Qed.

(** What a split of a CRYPTO frame does. *)
Definition crypto_split_ok (f new f' : CryptoFrame) (maxSize : Z) : Prop :=
  (exists l, frame_Length new = Ok l /\ l <= maxSize) /\
  cfData new ++ cfData f' = cfData f /\ cfOffset new = cfOffset f /\
  cfOffset f' = cfOffset f + blen (cfData new) /\ cfData new <> [] /\ cfData f' <> [].

Definition cryptoFrame_ok (f : CryptoFrame) : Prop :=
  is_varint (cfOffset f) /\ cfOffset f + blen (cfData f) <= MaxByteCount.

Lemma crypto_len_varint f : cryptoFrame_ok f -> is_varint (blen (cfData f)).
Proof.
  intros [H1 H2]. pose proof (blen_nonneg (cfData f)). unfold is_varint, maxVarInt8, MaxByteCount in *. lia.
Qed.

Lemma crypto_split_spec f maxSize :
  cryptoFrame_ok f -> maxSize < 2 ^ 14 ->
  match crypto_MaybeSplitOffFrame f maxSize with
  | Ok (None, false, f') => f' = f /\ exists l, frame_Length f = Ok l /\ l <= maxSize
  | Ok (None, true, f') => f' = f /\ maxSize < cryptoHeader f + 2
  | Ok (Some new, true, f') => crypto_split_ok f new f' maxSize
  | _ => False
  end.
Proof.
  intros Hf Hm. pose proof Hf as [Ho Hmax]. pose proof (crypto_len_varint f Hf) as Hl.
  unfold crypto_MaybeSplitOffFrame. rewrite crypto_Length_spec by done. cbn [mbind res_bind].
  destruct (Z.leb_spec (cryptoHeader f + vlen (blen (cfData f)) + blen (cfData f)) maxSize) as [Hfit|Hbig].
  { split; [done|]. by eexists. }
  rewrite crypto_MaxDataLen_spec by done. pose proof (vlen_range (cfOffset f)) as Hvr. unfold cryptoHeader in *.
  destruct (fitData_spec (1 + vlen (cfOffset f) + 1) maxSize true) as (n & -> & Hn & Hsz & _ & Hyes & _); [lia|done|].
  cbn [mbind res_bind]. destruct (Z.eqb_spec n 0) as [->|Hn0].
  { split; [done|]. lia. }
  assert (Hhdr : 1 + vlen (cfOffset f) + 1 <= maxSize) by lia. specialize (Hsz Hhdr).
  assert (Hlt : n < blen (cfData f)).
  { destruct (Z.lt_ge_cases n (blen (cfData f))) as [|Hge]; [done|]. pose proof (blen_nonneg (cfData f)).
    pose proof (vlen_mono (blen (cfData f)) n ltac:(lia)). lia. }
  zfalse (blen (cfData f) - n <? 0).
  assert (Hlen : blen (take (Z.to_nat n) (cfData f)) = n) by (unfold blen in *; rewrite length_take; lia).
  split.
  { eexists. split; [apply crypto_Length_spec; cbn; rewrite ?Hlen; [done|]|].
    - unfold is_varint, maxVarInt8 in *. lia.
    - cbn. rewrite Hlen. unfold cryptoHeader. cbn. lia. }
  cbn. rewrite take_drop, Hlen. split; [done|]. split; [done|].
  split; [apply i64_small; unfold is_varint, maxVarInt8, MaxByteCount in *; int_range|].
  unfold blen in *. split; intros E0; apply (f_equal length) in E0; rewrite ?length_take, ?length_drop in E0; cbn in E0; lia.
Qed.

(** [PopCryptoFrame] takes the next bytes that were written. *)
Lemma wp_PopCryptoFrame s maxLen E :
  0 <= csWriteOffset s -> csWriteOffset s + blen (csWriteBuf s) <= MaxByteCount -> maxLen < 2 ^ 14 ->
  wp (PopCryptoFrame maxLen)
    (fun f s' => cfOffset f = csWriteOffset s /\ csWriteBuf s = cfData f ++ csWriteBuf s' /\
       csWriteOffset s' = csWriteOffset s + blen (cfData f) /\
       (cfData f = [] \/ exists l, frame_Length f = Ok l /\ l <= maxLen) /\
       (csWriteBuf s <> [] -> cryptoHeader f + 2 <= maxLen -> cfData f <> [])) E s.
Proof.
  intros H0 Hmax Hm. pose proof (blen_nonneg (csWriteBuf s)). unfold PopCryptoFrame. apply wp_bind, wp_get, wp_bind.
  assert (Hv : is_varint (csWriteOffset s)) by (unfold is_varint, maxVarInt8, MaxByteCount in *; lia).
  set (f0 := mkCrypto (csWriteOffset s) []).
  destruct (fitData_spec (cryptoHeader f0 + 1) maxLen true) as (n & En & Hn & Hsz & _ & Hyes & _);
    [unfold cryptoHeader; pose proof (vlen_range (cfOffset f0)); lia|done|].
  eapply wp_lift; [rewrite (crypto_MaxDataLen_spec f0) by done; exact En|].
  set (k := Z.min n (blen (csWriteBuf s))). assert (Hk : 0 <= k <= n /\ k <= blen (csWriteBuf s)) by lia.
  assert (Hlen : blen (take (Z.to_nat k) (csWriteBuf s)) = k) by (unfold blen in *; rewrite length_take; lia).
  apply wp_bind, wp_modify, wp_ret. set (f := mkCrypto _ (take _ _)). change (blen (cfData f) = k) in Hlen.
  cbn [csWriteBuf csWriteOffset cs_write]. rewrite Hlen.
  split; [done|]. split; [symmetry; apply take_drop|].
  split; [apply i64_small; unfold MaxByteCount in *; int_range|]. change (cryptoHeader f0) with (cryptoHeader f) in *. split.
  - destruct (Z.eq_dec k 0) as [E0|E0]; [left; subst f; by rewrite E0|right]. eexists. split.
    + apply crypto_Length_spec; [done|]. rewrite Hlen. unfold is_varint, maxVarInt8, MaxByteCount in *. lia.
    + rewrite Hlen. specialize (Hsz ltac:(lia)). pose proof (vlen_mono k n ltac:(lia)). lia.
  - intros Hne Hroom E0. specialize (Hyes ltac:(lia) eq_refl).
    assert (0 < blen (csWriteBuf s)) by (destruct (csWriteBuf s) as [|x b]; [done|]; rewrite blen_cons; pose proof (blen_nonneg b); lia).
    rewrite E0 in Hlen. rewrite blen_nil in Hlen. lia.
Qed.
