(* ===== verification/RetransmissionQueue.v ===== *)
(** * RetransmissionQueue: frames to be sent again

    Models retransmission_queue.go: the frames of lost packets (STREAM frames are
    kept by their streams), CRYPTO frames apart, since they are split when they do
    not fit. *)

From S2P Require Import Prelude Protocol Varint AckFrame Frames FrameParser FrameSplit CryptoStream FrameSorter FrameSorterProofs.
From stdpp Require Import base numbers list option strings.
From Stdlib Require Import ZArith Lia.
#[local] Open Scope Z_scope.

Record retransmissionQueue := mkRetrans {
  rqInitial : list wireFrame;
  rqInitialCryptoData : list CryptoFrame;
  rqHandshake : list wireFrame;
  rqHandshakeCryptoData : list CryptoFrame;
  rqAppData : list wireFrame
}.

Definition newRetransmissionQueue : retransmissionQueue := mkRetrans [] [] [] [] [].

Abbreviation rqM := (stM retransmissionQueue).

Definition rq_initial cs fs q : retransmissionQueue :=
  mkRetrans fs cs (rqHandshake q) (rqHandshakeCryptoData q) (rqAppData q).
Definition rq_handshake cs fs q : retransmissionQueue :=
  mkRetrans (rqInitial q) (rqInitialCryptoData q) fs cs (rqAppData q).
Definition rq_appData fs q : retransmissionQueue :=
  mkRetrans (rqInitial q) (rqInitialCryptoData q) (rqHandshake q) (rqHandshakeCryptoData q) fs.

Definition addInitial (f : wireFrame) : rqM unit := modify (fun q =>
  match f with
  | FCrypto cf => rq_initial (rqInitialCryptoData q ++ [cf]) (rqInitial q) q
  | _ => rq_initial (rqInitialCryptoData q) (rqInitial q ++ [f]) q
  end).

Definition addHandshake (f : wireFrame) : rqM unit := modify (fun q =>
  match f with
  | FCrypto cf => rq_handshake (rqHandshakeCryptoData q ++ [cf]) (rqHandshake q) q
  | _ => rq_handshake (rqHandshakeCryptoData q) (rqHandshake q ++ [f]) q
  end).

Definition addAppData (f : wireFrame) : rqM unit :=
  match f with
  | FStream _ => lift (Panic "STREAM frames are handled with their respective streams.")
  | _ => modify (fun q => rq_appData (rqAppData q ++ [f]) q)
  end.

Definition AddPing (lvl : EncryptionLevel) : rqM unit :=
  match lvl with
  | EncryptionInitial => addInitial (FPing mkPing)
  | EncryptionHandshake => addHandshake (FPing mkPing)
  | Encryption1RTT => addAppData (FPing mkPing)
  | Encryption0RTT => lift (Panic "unexpected encryption level")
  end.

Definition HasInitialData (q : retransmissionQueue) : bool :=
  (0 <? blen (rqInitialCryptoData q)) || (0 <? blen (rqInitial q)).
Definition HasHandshakeData (q : retransmissionQueue) : bool :=
  (0 <? blen (rqHandshakeCryptoData q)) || (0 <? blen (rqHandshake q)).
Definition HasAppData (q : retransmissionQueue) : bool := 0 <? blen (rqAppData q).

(** The first frame of a queue, if it fits. *)
Definition firstFitting (maxLen : Z) (fs : list wireFrame) : res (option wireFrame * list wireFrame) :=
  match fs with
  | [] => Ok (None, [])
  | f :: fs' => l ← frame_Length f; Ok (if maxLen <? l then (None, fs) else (Some f, fs'))
  end.

(** The body of [GetInitialFrame] and of [GetHandshakeFrame]. *)
Definition getFrame (maxLen : Z) (cs : list CryptoFrame) (fs : list wireFrame)
    : res (option wireFrame * list CryptoFrame * list wireFrame) :=
  let others := r ← firstFitting maxLen fs; Ok (r.1, cs, r.2) in
  match cs with
  | [] => others
  | f :: cs' =>
      '(newFrame, needsSplit, f') ← crypto_MaybeSplitOffFrame f maxLen;
      match newFrame, (needsSplit : bool) with
      | None, false => Ok (Some (FCrypto f), cs', fs)
      | Some g, _ => Ok (Some (FCrypto g), f' :: cs', fs)
      | None, true => others
      end
  end.

Definition GetInitialFrame (maxLen : Z) : rqM (option wireFrame) :=
  q ← get;
  '(f, cs, fs) ← lift (getFrame maxLen (rqInitialCryptoData q) (rqInitial q));
  _ ← modify (rq_initial cs fs); mret f.

Definition GetHandshakeFrame (maxLen : Z) : rqM (option wireFrame) :=
  q ← get;
  '(f, cs, fs) ← lift (getFrame maxLen (rqHandshakeCryptoData q) (rqHandshake q));
  _ ← modify (rq_handshake cs fs); mret f.

Definition GetAppDataFrame (maxLen : Z) : rqM (option wireFrame) :=
  q ← get;
  '(f, fs) ← lift (firstFitting maxLen (rqAppData q));
  _ ← modify (rq_appData fs); mret f.

Definition rq_DropPackets (lvl : EncryptionLevel) : rqM unit :=
  match lvl with
  | EncryptionInitial => modify (rq_initial [] [])
  | EncryptionHandshake => modify (rq_handshake [] [])
  | _ => lift (Panic "unexpected encryption level: %s")
  end.

(** The [OnLost] of the three frame handlers; their [OnAcked] does nothing. *)
Definition rq_OnLost (lvl : EncryptionLevel) (f : wireFrame) : rqM unit :=
  match lvl with
  | EncryptionInitial => addInitial f
  | EncryptionHandshake => addHandshake f
  | _ => addAppData f
  end.

(** ** The queue of a level *)

Definition rq_Get (lvl : EncryptionLevel) (maxLen : Z) : rqM (option wireFrame) :=
  match lvl with
  | EncryptionInitial => GetInitialFrame maxLen
  | EncryptionHandshake => GetHandshakeFrame maxLen
  | _ => GetAppDataFrame maxLen
  end.

Definition lane (lvl : EncryptionLevel) (q : retransmissionQueue) : list CryptoFrame * list wireFrame :=
  match lvl with
  | EncryptionInitial => (rqInitialCryptoData q, rqInitial q)
  | EncryptionHandshake => (rqHandshakeCryptoData q, rqHandshake q)
  | _ => ([], rqAppData q)
  end.

(** The CRYPTO frames of the Initial and the Handshake level. *)
Definition crypto_of (lvl : EncryptionLevel) (f : wireFrame) : option CryptoFrame :=
  match lvl, f with
  | (EncryptionInitial | EncryptionHandshake), FCrypto cf => Some cf
  | _, _ => None
  end.

Definition cryptos (lvl : EncryptionLevel) (l : list wireFrame) : list CryptoFrame := omap (crypto_of lvl) l.
Definition others (lvl : EncryptionLevel) (l : list wireFrame) : list wireFrame := filter (fun f => crypto_of lvl f = None) l.

(** The bytes of a frame with their offsets in the crypto stream, and those of a list of frames, in order. *)
Definition placed (f : CryptoFrame) : list (Z * Z) := zip (seqZ (cfOffset f) (blen (cfData f))) (cfData f).
Definition placedAll (fs : list CryptoFrame) : list (Z * Z) := concat (placed <$> fs).

Lemma placedAll_app l k : placedAll (l ++ k) = placedAll l ++ placedAll k.
Proof. unfold placedAll. by rewrite fmap_app, concat_app. Qed.

(** The frames [added] to the queue, those [sent] again, and those in it. *)
Record lane_inv (lvl : EncryptionLevel) (added sent : list wireFrame) (l : list CryptoFrame * list wireFrame) : Prop := {
  li_others : others lvl sent ++ l.2 = others lvl added;
  li_crypto : placedAll (cryptos lvl sent ++ l.1) = placedAll (cryptos lvl added);
  li_ok : Forall cryptoFrame_ok l.1;
  li_length : Forall (fun f => exists n, frame_Length f = Ok n) l.2
}.

Lemma split_placed f new f' maxSize : crypto_split_ok f new f' maxSize -> placed f = placed new ++ placed f'.
Proof.
  intros (_ & Hd & Ho & Ho' & _). unfold placed. rewrite Ho, Ho', <- Hd, blen_app.
  rewrite seqZ_app by apply blen_nonneg. apply zip_with_app. unfold blen. rewrite length_seqZ. lia.
Qed.

(** A frame was taken from a level: the frame fits, nothing else was lost, and no
    frame is returned only if the first frames do not fit. *)
Definition got (lvl : EncryptionLevel) (maxLen : Z) (added sent : list wireFrame)
    (l : list CryptoFrame * list wireFrame) (r : option wireFrame) (l' : list CryptoFrame * list wireFrame) : Prop :=
  lane_inv lvl added (sent ++ from_option (fun f => [f]) [] r) l' /\
  match r with
  | Some f => exists n, frame_Length f = Ok n /\ n <= maxLen
  | None => match l.2 with [] => True | f :: _ => exists n, frame_Length f = Ok n /\ maxLen < n end /\
            match l.1 with [] => True | f :: _ => maxLen < cryptoHeader f + 2 end
  end.

Lemma firstFitting_got lvl maxLen added sent cs fs :
  lane_inv lvl added sent (cs, fs) -> match cs with [] => True | f :: _ => maxLen < cryptoHeader f + 2 end ->
  Forall (fun f => crypto_of lvl f = None) fs ->
  exists r fs', firstFitting maxLen fs = Ok (r, fs') /\ got lvl maxLen added sent (cs, fs) r (cs, fs') /\
    Forall (fun f => crypto_of lvl f = None) fs'.
Proof.
  intros Hi Hcs Hn. destruct fs as [|f fs]; cbn.
  { exists None, []. split; [done|]. split; [|done]. split; [cbn; by rewrite app_nil_r|done]. }
  destruct Hi as [H1 H2 H3 H4]. apply Forall_cons in H4 as [[n Hl] H4]. apply Forall_cons in Hn as [Hn Hn'].
  cbn in Hl. rewrite Hl. cbn. destruct (Z.ltb_spec maxLen n) as [Hlt|Hge].
  - exists None, (f :: fs). split; [done|]. split; [|by constructor]. split; [|split; [by exists n|done]].
    cbn. rewrite app_nil_r. constructor; try done. constructor; [by exists n|done].
  - exists (Some f), fs. split; [done|]. split; [|done]. split; [|by exists n]. constructor; cbn in *; try done.
    + unfold others in *. rewrite filter_app, filter_cons_True, filter_nil, <- app_assoc by done. done.
    + rewrite <- H2. unfold cryptos. rewrite omap_app. cbn. rewrite Hn. by rewrite app_nil_r.
Qed.

Lemma cryptos_fcrypto lvl cf : lvl = EncryptionInitial \/ lvl = EncryptionHandshake -> crypto_of lvl (FCrypto cf) = Some cf.
Proof. by intros [-> | ->]. Qed.

Lemma getFrame_got lvl maxLen added sent cs fs :
  lvl = EncryptionInitial \/ lvl = EncryptionHandshake -> maxLen < 2 ^ 14 ->
  lane_inv lvl added sent (cs, fs) -> Forall (fun f => crypto_of lvl f = None) fs ->
  exists r cs' fs', getFrame maxLen cs fs = Ok (r, cs', fs') /\ got lvl maxLen added sent (cs, fs) r (cs', fs') /\
    Forall (fun f => crypto_of lvl f = None) fs'.
Proof.
  intros Hlvl Hm Hi Hn. unfold getFrame.
  assert (Hrest : match cs with [] => True | f :: _ => maxLen < cryptoHeader f + 2 end ->
    exists r cs' fs', (r ← firstFitting maxLen fs; Ok (r.1, cs, r.2)) = Ok (r, cs', fs') /\
      got lvl maxLen added sent (cs, fs) r (cs', fs') /\ Forall (fun f => crypto_of lvl f = None) fs').
  { intros Hcs. destruct (firstFitting_got lvl maxLen added sent cs fs Hi Hcs Hn) as (r & fs' & -> & Hg & Hf).
    by exists r, cs, fs'. }
  destruct cs as [|f cs]; [by apply Hrest|]. destruct Hi as [H1 H2 H3 H4]. cbn in H3. apply Forall_cons in H3 as [Hf Hcs].
  pose proof (crypto_split_spec f maxLen Hf Hm) as Hsp.
  assert (Hput : forall g cs' (P : exists n, frame_Length (FCrypto g) = Ok n /\ n <= maxLen), Forall cryptoFrame_ok cs' ->
    placedAll (g :: cs') = placedAll (f :: cs) ->
    got lvl maxLen added sent (f :: cs, fs) (Some (FCrypto g)) (cs', fs)).
  { intros g cs' P Hok Hcar. split; [|done]. pose proof (cryptos_fcrypto lvl g Hlvl) as Hc. constructor; cbn in *; try done.
    - unfold others in *. rewrite filter_app, filter_cons_False, filter_nil, app_nil_r; [done|by rewrite Hc].
    - rewrite <- H2. unfold cryptos. rewrite omap_app. cbn. rewrite Hc. rewrite <- app_assoc. cbn.
      rewrite !placedAll_app. f_equal. exact Hcar. }
  destruct (crypto_MaybeSplitOffFrame f maxLen) as [[[[new|] [|]] f']|e|m]; try done; cbn [mbind res_bind].
  - exists (Some (FCrypto new)), (f' :: cs), fs. split; [done|]. split; [|done]. apply Hput.
    + by destruct Hsp as [? _].
    + constructor; [|done]. destruct Hsp as (_ & Hd & _ & Ho' & _). destruct Hf as [Hv Hmx].
      rewrite <- Hd, blen_app in Hmx. pose proof (blen_nonneg (cfData new)). pose proof (blen_nonneg (cfData f')).
      split; [|lia]. unfold is_varint, maxVarInt8, MaxByteCount in *. lia.
    + unfold placedAll. cbn. rewrite (split_placed f new f' maxLen) by done. by rewrite <- app_assoc.
  - destruct Hsp as [-> Hsp]. by apply Hrest.
  - destruct Hsp as [-> Hl]. exists (Some (FCrypto f)), cs, fs. split; [done|]. split; [|done]. by apply Hput.
Qed.

(** ** Runs *)

Inductive rq_op :=
  | RqLost (lvl : EncryptionLevel) (f : wireFrame)
  | RqPing (lvl : EncryptionLevel)
  | RqGet (lvl : EncryptionLevel) (maxLen : Z)
  | RqDrop (lvl : EncryptionLevel).

(** The queue, and the frames added to it and sent from it at each level since the
    level was dropped. *)
Record rq_sys := mkRqSys {
  rqsQueue : retransmissionQueue;
  rqsAdded : EncryptionLevel -> list wireFrame;
  rqsSent : EncryptionLevel -> list wireFrame
}.

Definition upd {A} (lvl : EncryptionLevel) (g : A -> A) (h : EncryptionLevel -> A) : EncryptionLevel -> A :=
  fun l => if decide (l = lvl) then g (h l) else h l.

Definition rq_do (st : rq_sys) (o : rq_op) : res rq_sys :=
  match o with
  | RqLost lvl f =>
      match rq_OnLost lvl f (rqsQueue st) with
      | (Ok _, q) => Ok (mkRqSys q (upd lvl (fun l => l ++ [f]) (rqsAdded st)) (rqsSent st))
      | (Err e, _) => Err e
      | (Panic m, _) => Panic m
      end
  | RqPing lvl =>
      match AddPing lvl (rqsQueue st) with
      | (Ok _, q) => Ok (mkRqSys q (upd lvl (fun l => l ++ [FPing mkPing]) (rqsAdded st)) (rqsSent st))
      | (Err e, _) => Err e
      | (Panic m, _) => Panic m
      end
  | RqGet lvl maxLen =>
      match rq_Get lvl maxLen (rqsQueue st) with
      | (Ok r, q) => Ok (mkRqSys q (rqsAdded st) (upd lvl (fun l => l ++ from_option (fun f => [f]) [] r) (rqsSent st)))
      | (Err e, _) => Err e
      | (Panic m, _) => Panic m
      end
  | RqDrop lvl =>
      match rq_DropPackets lvl (rqsQueue st) with
      | (Ok _, q) => Ok (mkRqSys q (upd lvl (fun _ => []) (rqsAdded st)) (upd lvl (fun _ => []) (rqsSent st)))
      | (Err e, _) => Err e
      | (Panic m, _) => Panic m
      end
  end.

Fixpoint rq_run (st : rq_sys) (os : list rq_op) : res rq_sys :=
  match os with
  | [] => Ok st
  | o :: os' => st' ← rq_do st o; rq_run st' os'
  end.

Definition rq_start : rq_sys := mkRqSys newRetransmissionQueue (fun _ => []) (fun _ => []).

Definition rq_frame_ok (lvl : EncryptionLevel) (f : wireFrame) : Prop :=
  (exists n, frame_Length f = Ok n) /\
  match f with FStream _ => lvl = EncryptionInitial \/ lvl = EncryptionHandshake | FCrypto cf => cryptoFrame_ok cf | _ => True end.

Definition rq_op_ok (o : rq_op) : Prop :=
  match o with
  | RqLost lvl f => lvl <> Encryption0RTT /\ rq_frame_ok lvl f
  | RqPing lvl => lvl <> Encryption0RTT
  | RqGet lvl maxLen => lvl <> Encryption0RTT /\ maxLen < 2 ^ 14
  | RqDrop lvl => lvl = EncryptionInitial \/ lvl = EncryptionHandshake
  end.

Definition rq_inv (st : rq_sys) : Prop := forall lvl, lvl <> Encryption0RTT ->
  lane_inv lvl (rqsAdded st lvl) (rqsSent st lvl) (lane lvl (rqsQueue st)) /\
  Forall (fun f => crypto_of lvl f = None) (lane lvl (rqsQueue st)).2.

(** A step at one level leaves the others alone. *)
Lemma rq_inv_step st lvl q added sent :
  rq_inv st -> lvl <> Encryption0RTT -> (forall l, l <> Encryption0RTT -> l <> lvl -> lane l q = lane l (rqsQueue st)) ->
  lane_inv lvl (added (rqsAdded st lvl)) (sent (rqsSent st lvl)) (lane lvl q) ->
  Forall (fun f => crypto_of lvl f = None) (lane lvl q).2 ->
  rq_inv (mkRqSys q (upd lvl added (rqsAdded st)) (upd lvl sent (rqsSent st))).
Proof.
  intros Hi H0 Hsame Hl Hn l Hl0. cbn. unfold upd. destruct (decide (l = lvl)) as [->|Hne]; [done|].
  rewrite Hsame by done. by apply Hi.
Qed.

Lemma upd_id {A} lvl (h : EncryptionLevel -> A) l : upd lvl id h l = h l.
Proof. unfold upd. by destruct (decide (l = lvl)). Qed.

(** Adding a frame to a level. *)
Lemma lane_add lvl added sent cs fs f :
  lane_inv lvl added sent (cs, fs) -> Forall (fun f => crypto_of lvl f = None) fs -> rq_frame_ok lvl f ->
  let l := match crypto_of lvl f with Some cf => (cs ++ [cf], fs) | None => (cs, fs ++ [f]) end in
  lane_inv lvl (added ++ [f]) sent l /\ Forall (fun f => crypto_of lvl f = None) l.2.
Proof.
  intros [H1 H2 H3 H4] Hn [[n Hlen] Hok]. cbn in H1, H2, H3, H4. destruct (crypto_of lvl f) as [cf|] eqn:Ec; cbn.
  - assert (Hcf : cryptoFrame_ok cf) by (destruct lvl, f; try done; by injection Ec as <-).
    split; [|done]. constructor; cbn.
    + unfold others in *. rewrite filter_app, filter_cons_False, filter_nil, app_nil_r; [done|by rewrite Ec].
    + unfold cryptos in *. rewrite omap_app. cbn. rewrite Ec, app_assoc, !(placedAll_app _ [cf]). by rewrite H2.
    + apply Forall_app. split; [done|]. by constructor.
    + done.
  - split; [|apply Forall_app; split; [done|]; by constructor]. constructor; cbn.
    + unfold others in *. rewrite filter_app, filter_cons_True, filter_nil, app_assoc by done. by rewrite H1.
    + unfold cryptos. rewrite omap_app. cbn. rewrite Ec, app_nil_r. apply H2.
    + done.
    + apply Forall_app. split; [done|]. constructor; [by exists n|done].
Qed.

Lemma lost_lane lvl f q :
  lvl <> Encryption0RTT -> rq_frame_ok lvl f -> exists q', rq_OnLost lvl f q = (Ok tt, q') /\
    lane lvl q' = (let '(cs, fs) := lane lvl q in
                   match crypto_of lvl f with Some cf => (cs ++ [cf], fs) | None => (cs, fs ++ [f]) end) /\
    forall l, l <> Encryption0RTT -> l <> lvl -> lane l q' = lane l q.
Proof.
  intros H0 [_ Hf]. destruct lvl; try done; cbn [rq_OnLost].
  - eexists. split; [reflexivity|]. split; [by destruct f|]. by intros [] ? ?; destruct f.
  - eexists. split; [reflexivity|]. split; [by destruct f|]. by intros [] ? ?; destruct f.
  - destruct f; try (eexists; split; [reflexivity|]; split; [done|]; by intros [] ? ?). by destruct Hf.
Qed.

Lemma rq_add_inv st lvl f q' :
  rq_inv st -> lvl <> Encryption0RTT -> rq_frame_ok lvl f -> rq_OnLost lvl f (rqsQueue st) = (Ok tt, q') ->
  rq_inv (mkRqSys q' (upd lvl (fun l => l ++ [f]) (rqsAdded st)) (rqsSent st)).
Proof.
  intros Hi H0 Hf Hq. destruct (lost_lane lvl f (rqsQueue st) H0 Hf) as (q & Hq' & Hl & Hsame).
  rewrite Hq in Hq'. injection Hq' as <-. destruct (Hi lvl H0) as [Hli Hn].
  destruct (lane lvl (rqsQueue st)) as [cs fs]. destruct (lane_add lvl _ _ cs fs f Hli Hn Hf) as [Hli' Hn'].
  rewrite <- Hl in Hli', Hn'.
  assert (Hid : rq_inv (mkRqSys q' (upd lvl (fun l => l ++ [f]) (rqsAdded st)) (upd lvl id (rqsSent st)))) by by apply rq_inv_step.
  intros l Hl0. specialize (Hid l Hl0). cbn in *. by rewrite upd_id in Hid.
Qed.

Lemma get_lane st lvl maxLen :
  rq_inv st -> lvl <> Encryption0RTT -> maxLen < 2 ^ 14 ->
  exists r q', rq_Get lvl maxLen (rqsQueue st) = (Ok r, q') /\
    got lvl maxLen (rqsAdded st lvl) (rqsSent st lvl) (lane lvl (rqsQueue st)) r (lane lvl q') /\
    Forall (fun f => crypto_of lvl f = None) (lane lvl q').2 /\
    forall l, l <> Encryption0RTT -> l <> lvl -> lane l q' = lane l (rqsQueue st).
Proof.
  intros Hi H0 Hm. destruct (Hi lvl H0) as [Hli Hn]. destruct lvl; try done; cbn [rq_Get lane snd] in *.
  - destruct (getFrame_got EncryptionInitial maxLen _ _ _ _ ltac:(by left) Hm Hli Hn) as (r & cs' & fs' & E & Hg & Hf).
    exists r, (rq_initial cs' fs' (rqsQueue st)). unfold GetInitialFrame, mbind, stM_bind, get, lift. rewrite E.
    split; [done|]. split; [done|]. split; [done|]. by intros [] ? ?.
  - destruct (getFrame_got EncryptionHandshake maxLen _ _ _ _ ltac:(by right) Hm Hli Hn) as (r & cs' & fs' & E & Hg & Hf).
    exists r, (rq_handshake cs' fs' (rqsQueue st)). unfold GetHandshakeFrame, mbind, stM_bind, get, lift. rewrite E.
    split; [done|]. split; [done|]. split; [done|]. by intros [] ? ?.
  - destruct (firstFitting_got Encryption1RTT maxLen _ _ _ _ Hli I Hn) as (r & fs' & E & Hg & Hf).
    exists r, (rq_appData fs' (rqsQueue st)). unfold GetAppDataFrame, mbind, stM_bind, get, lift. rewrite E.
    split; [done|]. split; [done|]. split; [done|]. by intros [] ? ?.
Qed.

Lemma rq_do_inv st o : rq_inv st -> rq_op_ok o -> match rq_do st o with Ok st' => rq_inv st' | _ => False end.
Proof.
  intros Hi Ho. destruct o as [lvl f|lvl|lvl maxLen|lvl]; cbn [rq_op_ok rq_do] in *.
  - destruct Ho as [H0 Hf]. destruct (lost_lane lvl f (rqsQueue st) H0 Hf) as (q' & E & _). rewrite E. by eapply rq_add_inv.
  - assert (Hf : rq_frame_ok lvl (FPing mkPing)) by (split; [by eexists|done]).
    assert (E0 : AddPing lvl (rqsQueue st) = rq_OnLost lvl (FPing mkPing) (rqsQueue st)) by by destruct lvl.
    destruct (lost_lane lvl (FPing mkPing) (rqsQueue st) Ho Hf) as (q' & E & _). rewrite E0, E. by eapply rq_add_inv.
  - destruct Ho as [H0 Hm]. destruct (get_lane st lvl maxLen Hi H0 Hm) as (r & q' & E & [Hg _] & Hf & Hsame). rewrite E.
    assert (Hid : rq_inv (mkRqSys q' (upd lvl id (rqsAdded st)) (upd lvl (fun l => l ++ from_option (fun f => [f]) [] r) (rqsSent st))))
      by by apply rq_inv_step.
    intros l Hl0. specialize (Hid l Hl0). cbn in *. by rewrite upd_id in Hid.
  - destruct Ho as [-> | ->]; cbn; (apply rq_inv_step; [done|done|by intros [] ? ?| |by constructor]);
      constructor; done || by constructor.
Qed.


