(* ===== verification/Headers.v ===== *)
(** * Headers: packet headers

    Models internal/wire/header.go, extended_header.go, short_header.go and
    version_negotiation.go, the big-endian reader of internal/utils and the
    version functions of internal/protocol/version.go.  A connection ID is the
    list of its bytes; the random bytes of the Version Negotiation packet are
    arguments.  A reader that seeks forward drops bytes. *)

From S2P Require Import Prelude Protocol Varint Frames.
From stdpp Require Import base numbers list option strings.
From Stdlib Require Import ZArith Lia.
#[local] Open Scope Z_scope.

(** ** Versions *)

Definition Version1 : Z := 0x1.
Definition Version2 : Z := 0x6b3343cf.
Definition SupportedVersions : list Z := [Version1; Version2].

Fixpoint IsSupportedVersion (supported : list Z) (v : Z) : bool :=
  match supported with
  | [] => false
  | t :: supported' => if t =? v then true else IsSupportedVersion supported' v
  end.

(** The inner loop of [ChooseSupportedVersion] is a search for [ourVer]. *)
Fixpoint ChooseSupportedVersion (ours theirs : list Z) : Z * bool :=
  match ours with
  | [] => (0, false)
  | ourVer :: ours' =>
      if existsb (fun theirVer => ourVer =? theirVer) theirs then (ourVer, true)
      else ChooseSupportedVersion ours' theirs
  end.

Definition generateReservedVersion (random : Z) : Z := Z.land (Z.lor random 0x0a0a0a0a) 0xfafafafa.

Definition GetGreasedVersions (supported : list Z) (b0 random : Z) : list Z :=
  let randPos := Z.to_nat (b0 mod (blen supported + 1)) in
  take randPos supported ++ [generateReservedVersion random] ++ drop randPos supported.

(** ** Big-endian integers *)

Definition u16 (z : Z) : Z := z mod 2 ^ 16.

Definition ReadUint32 : parser Z :=
  b4 ← ReadByte; b3 ← ReadByte; b2 ← ReadByte; b1 ← ReadByte;
  mret (u32 (b1 + Z.shiftl b2 8 + Z.shiftl b3 16 + Z.shiftl b4 24)).
Definition ReadUint24 : parser Z :=
  b3 ← ReadByte; b2 ← ReadByte; b1 ← ReadByte;
  mret (u32 (b1 + Z.shiftl b2 8 + Z.shiftl b3 16)).
Definition ReadUint16 : parser Z :=
  b2 ← ReadByte; b1 ← ReadByte; mret (u16 (b1 + Z.shiftl b2 8)).

Definition putUint32 (i : Z) : bytes := [u8 (Z.shiftr i 24); u8 (Z.shiftr i 16); u8 (Z.shiftr i 8); u8 i].
Definition putUint16 (i : Z) : bytes := [u8 (Z.shiftr i 8); u8 i].

(** [b.Seek(n, io.SeekCurrent)] *)
Definition seek (n : Z) : parser unit := modify (drop (Z.to_nat n)).

(** [data[i]] *)
Definition byteAt (data : bytes) (i : Z) : res Z :=
  match data !! Z.to_nat i with
  | Some b => if i <? 0 then Panic "index out of range" else Ok b
  | None => Panic "index out of range"
  end.

(** [data[i:j]] *)
Definition sliceOf (data : bytes) (i j : Z) : res bytes :=
  if (i <? 0) || (j <? i) || (blen data <? j) then Panic "slice bounds out of range"
  else Ok (take (Z.to_nat (j - i)) (drop (Z.to_nat i) data)).

(** ** Long headers *)

Inductive PacketType := PacketTypeInitial | PacketTypeRetry | PacketTypeHandshake | PacketType0RTT.

#[export] Instance PacketType_eq_dec : EqDecision PacketType.
Proof. solve_decision. Defined.

(** [hType] is [None] where the code leaves the zero value. *)
Record Header := mkHeader {
  hTypeByte : Z;
  hType : option PacketType;
  hVersion : Z;
  hSrcConnectionID : bytes;
  hDestConnectionID : bytes;
  hLength : Z;
  hToken : bytes;
  hParsedLen : Z
}.

Definition IsPotentialQUICPacket (firstByte : Z) : bool := 0 <? Z.land firstByte 0x40.
Definition IsLongHeaderPacket (firstByte : Z) : bool := 0 <? Z.land firstByte 0x80.

Definition errInvalidConnectionIDLen : GoError := ErrorString "invalid Connection ID length".

Definition header_ParseConnectionID (data : bytes) (shortHeaderConnIDLen : Z) : res bytes :=
  if blen data =? 0 then Err EOF
  else
    b0 ← byteAt data 0;
    if negb (IsLongHeaderPacket b0) then
      if blen data <? shortHeaderConnIDLen + 1 then Err EOF
      else
        id ← sliceOf data 1 (1 + shortHeaderConnIDLen);
        if MaxConnIDLen <? blen id then Panic "invalid conn id length" else Ok id
    else if blen data <? 6 then Err EOF
    else
      destConnIDLen ← byteAt data 5;
      if MaxConnIDLen <? destConnIDLen then Err errInvalidConnectionIDLen
      else if blen data <? 6 + destConnIDLen then Err EOF
      else sliceOf data 6 (6 + destConnIDLen).

(** The two results of [parseArbitraryLenConnectionIDs], and what is left. *)
Definition parseArbitraryLenConnectionIDs : parser (bytes * bytes) :=
  _ ← seek 5;
  destConnIDLen ← ReadByte;
  destConnID ← ReadFullEOF destConnIDLen;
  srcConnIDLen ← ReadByte;
  srcConnID ← ReadFullEOF srcConnIDLen;
  mret (destConnID, srcConnID).

Definition ParseArbitraryLenConnectionIDs (data : bytes) : res (Z * bytes * bytes) :=
  let '(r, rest) := parseArbitraryLenConnectionIDs data in
  '(dest, src) ← r;
  Ok (blen data - blen rest, dest, src).

Definition ParseVersion (data : bytes) : res Z :=
  if blen data <? 5 then Err EOF
  else '(r, _) ← Ok (ReadUint32 (drop 1 data)); r.

Definition IsVersionNegotiationPacket (b : bytes) : bool :=
  match b with
  | b0 :: b1 :: b2 :: b3 :: b4 :: _ => IsLongHeaderPacket b0 && (b1 =? 0) && (b2 =? 0) && (b3 =? 0) && (b4 =? 0)
  | _ => false
  end.

Definition typeBits (typeByte : Z) : Z := Z.land (Z.shiftr typeByte 4) 3.

Definition Is0RTTPacket (b : bytes) : bool :=
  match b with
  | b0 :: b1 :: b2 :: b3 :: b4 :: _ =>
      let version := u32 (b4 + Z.shiftl b3 8 + Z.shiftl b2 16 + Z.shiftl b1 24) in
      IsLongHeaderPacket b0 &&
      (if version =? Version1 then typeBits b0 =? 1 else if version =? Version2 then typeBits b0 =? 2 else false)
  | _ => false
  end.

Definition packetTypeOf (version typeByte : Z) : PacketType :=
  let bits := typeBits typeByte in
  if version =? Version2 then
    if bits =? 0 then PacketTypeRetry else if bits =? 1 then PacketTypeInitial
    else if bits =? 2 then PacketType0RTT else PacketTypeHandshake
  else
    if bits =? 0 then PacketTypeInitial else if bits =? 1 then PacketType0RTT
    else if bits =? 2 then PacketTypeHandshake else PacketTypeRetry.

(** The rest of [parseLongHeader], after the type. *)
Definition parseTypeDependent (typ : PacketType) : parser (bytes * Z) :=
  if decide (typ = PacketTypeRetry) then
    n ← reader_len;
    let tokenLen := n - 16 in
    if tokenLen <=? 0 then fail EOF
    else
      token ← ReadFull tokenLen;
      _ ← seek 16;
      mret (token, 0)
  else
    token ← (if decide (typ = PacketTypeInitial) then
               tokenLen ← varint_Read;
               n ← reader_len;
               if u64 n <? tokenLen then fail EOF else ReadFull (i64 tokenLen)
             else mret []);
    pl ← varint_Read;
    mret (token, i64 pl).

(** The header, and whether its version is supported. *)
Definition parseLongHeader (typeByte : Z) : parser (Header * bool) :=
  v ← ReadUint32;
  if negb (v =? 0) && (Z.land typeByte 0x40 =? 0) then fail (ErrorString "not a QUIC packet")
  else
    destConnIDLen ← ReadByte;
    dest ← ReadConnectionID destConnIDLen;
    srcConnIDLen ← ReadByte;
    src ← ReadConnectionID srcConnIDLen;
    let h := mkHeader typeByte None v src dest 0 [] 0 in
    if v =? 0 then mret (h, true)
    else if negb (IsSupportedVersion SupportedVersions v) then mret (h, false)
    else
      let typ := packetTypeOf v typeByte in
      '(token, len) ← parseTypeDependent typ;
      mret (mkHeader typeByte (Some typ) v src dest len token 0, true).

Definition setParsedLen (n : Z) (h : Header) : Header :=
  mkHeader (hTypeByte h) (hType h) (hVersion h) (hSrcConnectionID h) (hDestConnectionID h) (hLength h) (hToken h) n.

Definition parseHeader : parser (Header * bool) :=
  startLen ← reader_len;
  typeByte ← ReadByte;
  '(h, supported) ← parseLongHeader typeByte;
  n ← reader_len;
  mret (setParsedLen (startLen - n) h, supported).

(** A packet of a known version and the rest of the datagram, or the header of a
    packet with an unsupported version. *)
Inductive parsedPacket :=
  | ParsedPacket (h : Header) (packet rest : bytes)
  | UnsupportedVersion (h : Header).

Definition ParsePacket (data : bytes) : res parsedPacket :=
  match data with
  | b0 :: _ =>
      if negb (IsLongHeaderPacket b0) then Err (ErrorString "not a long header packet")
      else
        '(h, supported) ← (parseHeader data).1;
        if negb supported then Ok (UnsupportedVersion h)
        else
          let packetLen := i64 (hParsedLen h + hLength h) in
          if blen data <? packetLen
          then Err (ErrorString "packet length (%d bytes) is smaller than the expected length (%d bytes)")
          else
            packet ← sliceOf data 0 packetLen;
            rest ← sliceOf data packetLen (blen data);
            Ok (ParsedPacket h packet rest)
  | [] => Err (ErrorString "not a long header packet")
  end.

(** ** The protected part of long headers *)

Record ExtendedHeader := mkExtended {
  ehHeader : Header;
  ehTypeByte : Z;
  ehPacketNumberLen : Z;
  ehPacketNumber : Z;
  ehParsedLen : Z
}.

Definition readPacketNumber (len : Z) : parser Z :=
  if len =? 1 then ReadByte
  else if len =? 2 then ReadUint16
  else if len =? 3 then ReadUint24
  else if len =? 4 then ReadUint32
  else fail (ErrorString "invalid packet number length: %d").

(** The extended header, and whether its reserved bits are valid. *)
Definition ParseExtended (h : Header) : parser (ExtendedHeader * bool) :=
  startLen ← reader_len;
  typeByte ← ReadByte;
  _ ← seek (hParsedLen h - 1);
  let len := Z.land typeByte 0x3 + 1 in
  pn ← readPacketNumber len;
  n ← reader_len;
  mret (mkExtended h typeByte len pn (startLen - n), Z.land typeByte 0xc =? 0).

Definition appendPacketNumber (b : bytes) (pn pnLen : Z) : res bytes :=
  if pnLen =? 1 then Ok (b ++ [u8 pn])
  else if pnLen =? 2 then Ok (b ++ putUint16 (u16 pn))
  else if pnLen =? 3 then Ok (b ++ drop 1 (putUint32 (u32 pn)))
  else if pnLen =? 4 then Ok (b ++ putUint32 (u32 pn))
  else Err (ErrorString "invalid packet number length: %d").

Definition packetTypeBits (v : Z) (typ : option PacketType) : Z :=
  if v =? Version2 then
    match typ with
    | Some PacketTypeInitial => 1 | Some PacketType0RTT => 2 | Some PacketTypeHandshake => 3
    | Some PacketTypeRetry => 0 | None => 0
    end
  else
    match typ with
    | Some PacketTypeInitial => 0 | Some PacketType0RTT => 1 | Some PacketTypeHandshake => 2
    | Some PacketTypeRetry => 3 | None => 0
    end.

Definition ext_Append (b : bytes) (e : ExtendedHeader) (v : Z) : res bytes :=
  let h := ehHeader e in
  if MaxConnIDLen <? blen (hDestConnectionID h) then Err (ErrorString "invalid connection ID length: %d bytes")
  else if MaxConnIDLen <? blen (hSrcConnectionID h) then Err (ErrorString "invalid connection ID length: %d bytes")
  else
    let firstByte := Z.lor 0xc0 (u8 (Z.shiftl (packetTypeBits v (hType h)) 4)) in
    let firstByte := if decide (hType h = Some PacketTypeRetry) then firstByte
                     else Z.lor firstByte (u8 (ehPacketNumberLen e - 1)) in
    let b := b ++ [firstByte] ++ putUint32 (u32 (hVersion h)) ++
             [u8 (blen (hDestConnectionID h))] ++ hDestConnectionID h ++
             [u8 (blen (hSrcConnectionID h))] ++ hSrcConnectionID h in
    if decide (hType h = Some PacketTypeRetry) then Ok (b ++ hToken h)
    else
      b ← (if decide (hType h = Some PacketTypeInitial)
           then b ← varint_Append b (u64 (blen (hToken h))); Ok (b ++ hToken h)
           else Ok b);
      b ← varint_AppendWithLen b (u64 (hLength h)) 2;
      appendPacketNumber b (ehPacketNumber e) (ehPacketNumberLen e).

Definition GetLength (e : ExtendedHeader) : res Z :=
  let h := ehHeader e in
  let length := 1 + 4 + 1 + blen (hDestConnectionID h) + 1 + blen (hSrcConnectionID h) + ehPacketNumberLen e + 2 in
  if decide (hType h = Some PacketTypeInitial)
  then l ← varint_Len (u64 (blen (hToken h))); Ok (length + l + blen (hToken h))
  else Ok length.

(** ** Short headers *)

Inductive KeyPhaseBit := KeyPhaseUndefined | KeyPhaseZero | KeyPhaseOne.

#[export] Instance KeyPhaseBit_eq_dec : EqDecision KeyPhaseBit.
Proof. solve_decision. Defined.

(** The length, the packet number, its length, the key phase, and whether the
    reserved bits are valid. *)
Definition ParseShortHeader (data : bytes) (connIDLen : Z) : res (Z * Z * Z * KeyPhaseBit * bool) :=
  if blen data =? 0 then Err EOF
  else
    b0 ← byteAt data 0;
    if 0 <? Z.land b0 0x80 then Err (ErrorString "not a short header packet")
    else if Z.land b0 0x40 =? 0 then Err (ErrorString "not a QUIC packet")
    else
      let pnLen := Z.land b0 0x3 + 1 in
      if blen data <? 1 + pnLen + connIDLen then Err EOF
      else
        let pos := 1 + connIDLen in
        d ← sliceOf data pos (pos + pnLen);
        pn ← (readPacketNumber pnLen d).1;
        let kp := if 0 <? Z.land b0 0x4 then KeyPhaseOne else KeyPhaseZero in
        Ok (1 + connIDLen + pnLen, pn, pnLen, kp, Z.land b0 0x18 =? 0).

Definition AppendShortHeader (b : bytes) (connID : bytes) (pn pnLen : Z) (kp : KeyPhaseBit) : res bytes :=
  let typeByte := Z.lor 0x40 (u8 (pnLen - 1)) in
  let typeByte := if decide (kp = KeyPhaseOne) then Z.lor typeByte (Z.shiftl 1 2) else typeByte in
  appendPacketNumber (b ++ [typeByte] ++ connID) pn pnLen.

Definition ShortHeaderLen (dest : bytes) (pnLen : Z) : Z := 1 + blen dest + pnLen.

(** ** Version negotiation *)

Fixpoint parseVersions (n : nat) : parser (list Z) :=
  match n with
  | O => mret []
  | S n' => v ← ReadUint32; vs ← parseVersions n'; mret (v :: vs)
  end.

Definition ParseVersionNegotiationPacket (b : bytes) : res (bytes * bytes * list Z) :=
  '(n, dest, src) ← ParseArbitraryLenConnectionIDs b;
  b ← sliceOf b n (blen b);
  if blen b =? 0 then Err (ErrorString "Version Negotiation packet has empty version list")
  else if negb (blen b mod 4 =? 0) then Err (ErrorString "Version Negotiation packet has a version list with an invalid length")
  else
    versions ← (parseVersions (Z.to_nat (blen b / 4)) b).1;
    Ok (dest, src, versions).

Definition ComposeVersionNegotiation (destConnID srcConnID : bytes) (versions : list Z) (r0 b0 random : Z) : bytes :=
  [u8 (Z.lor r0 0xc0)] ++ putUint32 0 ++ [u8 (blen destConnID)] ++ destConnID ++ [u8 (blen srcConnID)] ++ srcConnID ++
  mjoin (putUint32 <$> GetGreasedVersions versions b0 random).
