(* ===== verification/HeaderProofs.v ===== *)
(** * HeaderProofs: what is written is what is read

    The big-endian codecs of the packet number and the version, the round trip
    of long, Retry and short headers, the parser on arbitrary datagrams and
    Version Negotiation. *)

From S2P Require Import Prelude Protocol Varint Frames Headers.
From stdpp Require Import base numbers list option strings.
From Stdlib Require Import ZArith Lia.
#[local] Open Scope Z_scope.

(** ** Big-endian codecs *)

(** [put] writes and [get] reads the numbers below [bound] in [n] bytes. *)
Class BigEndian (n bound : Z) (put : Z -> bytes) (get : parser Z) : Prop := {
  be_len i : blen (put i) = n;
  be_bytes i : bytes_ok (put i);
  be_get i rest : 0 <= i < bound -> get (put i ++ rest) = (Ok i, rest)
}.

Ltac be_tac :=
  split; [ done | intros; repeat apply Forall_cons_2; try apply Forall_nil_2; apply u8_range | ];
  intros i rest Hi; digits i; unfold is_u8 in *;
  unfold ReadUint16, ReadUint24, ReadUint32, mbind, stM_bind, ReadByte, mret, stM_ret;
  cbn [putUint32 putUint16 app drop]; f_equal; f_equal; unfold u32, u16;
  rewrite ?shiftl_val by lia; rewrite ?Z.mod_small by lia; lia.

#[export] Instance be_uint8 : BigEndian 1 (2 ^ 8) (fun i => [u8 i]) ReadByte.
Proof. be_tac. Qed.
#[export] Instance be_uint16 : BigEndian 2 (2 ^ 16) putUint16 ReadUint16.
Proof. be_tac. Qed.
#[export] Instance be_uint24 : BigEndian 3 (2 ^ 24) (fun i => drop 1 (putUint32 i)) ReadUint24.
Proof. be_tac. Qed.
#[export] Instance be_uint32 : BigEndian 4 (2 ^ 32) putUint32 ReadUint32.
Proof. be_tac. Qed.

(** A byte of a number below bit [w] does not see the truncation to [w] bits. *)
Lemma u8_shiftr_mod x k w : 0 <= k -> k + 8 <= w -> u8 (Z.shiftr (x mod 2 ^ w) k) = u8 (Z.shiftr x k).
Proof.
  intros Hk Hw. unfold u8. apply Z.bits_inj'. intros j Hj. rewrite !Z.testbit_mod_pow2 by lia.
  destruct (Z.ltb_spec j 8); [|done]. rewrite !Z.shiftr_spec by lia. by rewrite Z.mod_pow2_bits_low by lia.
Qed.

Lemma putUint24_mod pn : drop 1 (putUint32 (u32 pn)) = drop 1 (putUint32 (pn mod 2 ^ 24)).
Proof.
  unfold putUint32, u32. cbn [drop]. rewrite !u8_shiftr_mod by lia.
  f_equal. f_equal. f_equal. pose proof (u8_shiftr_mod pn 0 32). pose proof (u8_shiftr_mod pn 0 24).
  rewrite !Z.shiftr_0_r in *. lia.
Qed.

(** The bytes of a packet number, and what they read as. *)
Lemma appendPacketNumber_spec b pn len :
  1 <= len <= 4 ->
  exists bs, appendPacketNumber b pn len = Ok (b ++ bs) /\ blen bs = len /\ bytes_ok bs /\
    forall rest, readPacketNumber len (bs ++ rest) = (Ok (pn mod 2 ^ (8 * len)), rest).
Proof.
  intros Hlen. unfold appendPacketNumber, readPacketNumber.
  assert (Hpow : forall w, 0 <= w -> 0 <= pn mod 2 ^ w < 2 ^ w) by (intros; apply Z.mod_pos_bound; lia).
  assert (len = 1 \/ len = 2 \/ len = 3 \/ len = 4) as [->|[->|[->| ->]]] by lia; cbn [Z.eqb Pos.eqb].
  - exists [u8 pn]. split_and!; [done..|by apply (be_bytes (BigEndian := be_uint8))|].
    intros. unfold ReadByte. done.
  - eexists. split_and!; [done| |apply be_bytes|]; [done|]. intros. apply be_get. by apply Hpow.
  - rewrite putUint24_mod. eexists. split_and!; [done|done|apply (be_bytes (BigEndian := be_uint24))|].
    intros. apply (be_get (BigEndian := be_uint24)). by apply Hpow.
  - eexists. split_and!; [done|done|apply be_bytes|]. intros. apply be_get. by apply Hpow.
Qed.

(** ** The first byte of a long header *)

Definition longFirstByte (v : Z) (typ : PacketType) (pnLen : Z) : Z :=
  Z.lor (Z.lor 0xc0 (u8 (Z.shiftl (packetTypeBits v (Some typ)) 4))) (u8 (pnLen - 1)).

Lemma longFirstByte_spec v typ pnLen :
  v = Version1 \/ v = Version2 -> 1 <= pnLen <= 4 ->
  let b := longFirstByte v typ pnLen in
  is_u8 b /\ IsLongHeaderPacket b = true /\ Z.land b 0x40 <> 0 /\ packetTypeOf v b = typ /\
  Z.land b 0x3 + 1 = pnLen /\ Z.land b 0xc = 0.
Proof.
  intros Hv Hl. assert (pnLen = 1 \/ pnLen = 2 \/ pnLen = 3 \/ pnLen = 4) as [->|[->|[->| ->]]] by lia;
    destruct Hv as [-> | ->]; destruct typ; vm_compute; repeat split; try discriminate; congruence.
Qed.

(** ** Long headers *)

Ltac int_varint := unfold is_varint, maxVarInt8 in *; int_range.

(** The headers the packer builds: a supported version, connection IDs of legal
    length, a token only in Initial packets and a length that fits two bytes. *)
Record long_sendable (e : ExtendedHeader) (v : Z) (typ : PacketType) : Prop := {
  ls_type : hType (ehHeader e) = Some typ;
  ls_not_retry : typ <> PacketTypeRetry;
  ls_version : hVersion (ehHeader e) = v;
  ls_supported : v = Version1 \/ v = Version2;
  ls_dest : blen (hDestConnectionID (ehHeader e)) <= MaxConnIDLen;
  ls_src : blen (hSrcConnectionID (ehHeader e)) <= MaxConnIDLen;
  ls_token : typ <> PacketTypeInitial -> hToken (ehHeader e) = [];
  ls_token_len : is_varint (blen (hToken (ehHeader e)));
  ls_length : 0 <= hLength (ehHeader e) <= maxVarInt2;
  ls_pnLen : 1 <= ehPacketNumberLen e <= 4
}.

Definition tokenBytes (typ : PacketType) (token : bytes) : bytes :=
  if decide (typ = PacketTypeInitial) then venc (blen token) ++ token else [].

(** The version-independent start of a header. *)
Definition idBytes (fb v : Z) (dest src : bytes) : bytes :=
  [fb] ++ putUint32 v ++ [blen dest] ++ dest ++ [blen src] ++ src.

Lemma blen_idBytes fb v dest src : blen (idBytes fb v dest src) = 7 + blen dest + blen src.
Proof. unfold idBytes. autorewrite with goslice. change (blen (putUint32 v)) with 4. lia. Qed.

Lemma u32_version v : v = Version1 \/ v = Version2 -> u32 v = v /\ 0 <= v < 2 ^ 32.
Proof. intros [->| ->]; vm_compute; repeat split; discriminate. Qed.

Lemma u8_connIDLen (id : bytes) : blen id <= MaxConnIDLen -> u8 (blen id) = blen id.
Proof. intros H. pose proof (blen_nonneg id). apply u8_small. unfold MaxConnIDLen in H. int_range. Qed.

(** [AppendWithLen(b, i, 2)] writes two bytes. *)
Lemma AppendWithLen_two b i : 0 <= i <= maxVarInt2 ->
  exists bs, varint_AppendWithLen b i 2 = Ok (b ++ bs) /\ blen bs = 2 /\
    forall rest, varint_Read (bs ++ rest) = (Ok i, rest).
Proof.
  intros Hi. assert (is_varint i) by (unfold is_varint, maxVarInt2, maxVarInt8 in *; lia).
  assert (vlen i = 1 \/ vlen i = 2) as [E|E]
    by (unfold vlen, maxVarInt1, maxVarInt2, maxVarInt4 in *; repeat case_match; lia).
  - by apply (AppendWithLen_padded b i 2 1); [lia|..].
  - exists (venc i). unfold varint_AppendWithLen. rewrite varint_Len_vlen by (unfold is_varint in *; lia).
    cbn [mbind res_bind negb andb Z.eqb Pos.eqb]. rewrite E. cbn [Z.eqb Pos.eqb].
    rewrite varint_Append_venc, blen_venc by done. split_and!; [done|done|]. intros. by apply varint_Read_venc.
Qed.

Lemma ext_Append_bytes e v typ : long_sendable e v typ ->
  let h := ehHeader e in
  exists lbs pbs,
    ext_Append [] e v =
      Ok (idBytes (longFirstByte v typ (ehPacketNumberLen e)) v (hDestConnectionID h) (hSrcConnectionID h) ++
          tokenBytes typ (hToken h) ++ lbs ++ pbs) /\
    blen lbs = 2 /\ blen pbs = ehPacketNumberLen e /\
    (forall rest, varint_Read (lbs ++ rest) = (Ok (hLength h), rest)) /\
    (forall rest, readPacketNumber (ehPacketNumberLen e) (pbs ++ rest) =
       (Ok (ehPacketNumber e mod 2 ^ (8 * ehPacketNumberLen e)), rest)).
Proof.
  intros [Ht Hr Hv Hs Hd Hsrc Htok Htl Hl Hp] h. fold h in Ht, Hv, Hd, Hsrc, Htok, Htl, Hl.
  unfold ext_Append. fold h. zfalse (MaxConnIDLen <? blen (hDestConnectionID h)).
  zfalse (MaxConnIDLen <? blen (hSrcConnectionID h)).
  rewrite Ht, Hv, (proj1 (u32_version v Hs)), !u8_connIDLen by done.
  rewrite (decide_False (P := Some typ = Some PacketTypeRetry)) by congruence.
  assert (E : forall b : bytes,
    (if decide (Some typ = Some PacketTypeInitial)
     then b ← varint_Append b (u64 (blen (hToken h))); Ok (b ++ hToken h) else Ok b) =
    Ok (b ++ tokenBytes typ (hToken h))).
  { intros b. unfold tokenBytes. destruct (decide (typ = PacketTypeInitial)) as [->|Hn].
    - rewrite decide_True, u64_small, varint_Append_venc by (done || int_varint). cbn. by rewrite app_assoc.
    - rewrite decide_False by congruence. by rewrite app_nil_r. }
  rewrite E. cbn [mbind res_bind].
  rewrite u64_small by (unfold maxVarInt2 in Hl; int_range).
  match goal with |- context [varint_AppendWithLen ?b _ _] => destruct (AppendWithLen_two b (hLength h) Hl) as (lbs & El & Hlb & Hlr) end.
  rewrite El. cbn [mbind res_bind].
  match goal with |- context [appendPacketNumber ?b _ _] =>
    destruct (appendPacketNumber_spec b (ehPacketNumber e) _ Hp) as (pbs & Ep & Hpb & _ & Hpr) end.
  rewrite Ep. exists lbs, pbs. split_and!; try done. unfold idBytes, longFirstByte.
  f_equal. rewrite <- !(assoc_L (++)). by rewrite decide_False by congruence.
Qed.

Lemma GetLength_spec e v typ : long_sendable e v typ ->
  let h := ehHeader e in
  GetLength e = Ok (9 + blen (hDestConnectionID h) + blen (hSrcConnectionID h) +
    blen (tokenBytes typ (hToken h)) + ehPacketNumberLen e).
Proof.
  intros [Ht _ _ _ _ _ _ Htl _ _] h. unfold GetLength, tokenBytes. fold h. fold h in Ht, Htl. rewrite Ht.
  destruct (decide (typ = PacketTypeInitial)) as [->|Hn].
  - rewrite decide_True, u64_small, varint_Len_vlen by (done || int_varint). cbn.
    rewrite blen_app, blen_venc by done. f_equal. lia.
  - rewrite decide_False by congruence. rewrite blen_nil. f_equal. lia.
Qed.

Ltac step_read lem := erewrite parser_bind_ok; [|apply lem]; cbv beta.

(** The version-independent part of a header is read back. *)
Lemma parseLongHeader_ids fb v dest src rest :
  0 <= v < 2 ^ 32 -> (v <> 0 -> Z.land fb 0x40 <> 0) ->
  blen dest <= MaxConnIDLen -> blen src <= MaxConnIDLen ->
  parseLongHeader fb (drop 1 (idBytes fb v dest src) ++ rest) =
    (if v =? 0 then mret (mkHeader fb None v src dest 0 [] 0, true)
     else if negb (IsSupportedVersion SupportedVersions v) then mret (mkHeader fb None v src dest 0 [] 0, false)
     else '(token, len) ← parseTypeDependent (packetTypeOf v fb);
          mret (mkHeader fb (Some (packetTypeOf v fb)) v src dest len token 0, true)) rest.
Proof.
  intros Hv Hfb Hd Hs. unfold parseLongHeader.
  change (drop 1 (idBytes fb v dest src)) with (putUint32 v ++ [blen dest] ++ dest ++ [blen src] ++ src).
  rewrite <- (app_assoc (putUint32 v)).
  erewrite parser_bind_ok; [|by apply be_get]. cbv beta.
  replace (negb (v =? 0) && (Z.land fb 64 =? 0)) with false
    by (destruct (Z.eqb_spec v 0); [done|]; cbn; symmetry; apply Z.eqb_neq; auto).
  cbn [app]. erewrite parser_bind_ok; [|done]. rewrite <- (app_assoc dest).
  erewrite parser_bind_ok; [|by apply ReadConnectionID_app]. cbn [app].
  erewrite parser_bind_ok; [|done].
  erewrite parser_bind_ok; [|by apply ReadConnectionID_app]. done.
Qed.

Lemma parseTypeDependent_token typ token lbs len rest :
  typ <> PacketTypeRetry -> (typ <> PacketTypeInitial -> token = []) ->
  blen token + blen lbs + blen rest < 2 ^ 62 -> is_varint len ->
  varint_Read (lbs ++ rest) = (Ok len, rest) ->
  parseTypeDependent typ (tokenBytes typ token ++ lbs ++ rest) = (Ok (token, len), rest).
Proof.
  intros Hr Htok Hsz Hlen Hrd. unfold parseTypeDependent, tokenBytes.
  pose proof (blen_nonneg token). pose proof (blen_nonneg lbs). pose proof (blen_nonneg rest).
  rewrite decide_False by done.
  assert (Hl : i64 len = len) by (apply i64_small; int_varint).
  destruct (decide (typ = PacketTypeInitial)) as [->|Hn].
  - erewrite parser_bind_ok.
    2:{ rewrite <- (assoc_L (++)). erewrite parser_bind_ok; [|apply varint_Read_venc; int_varint].
        erewrite parser_bind_ok; [|done]. rewrite !blen_app, u64_small by int_range.
        zfalse (blen token + (blen lbs + blen rest) <? blen token).
        rewrite i64_small by int_range. by apply ReadFull_app. }
    cbv beta. erewrite parser_bind_ok; [|done]. by rewrite Hl.
  - rewrite Htok by done. erewrite parser_bind_ok; [|done]. cbv beta. cbn [app].
    erewrite parser_bind_ok; [|done]. by rewrite Hl.
Qed.

Lemma idBytes_split fb v dest src : idBytes fb v dest src = fb :: drop 1 (idBytes fb v dest src).
Proof. done. Qed.

Lemma sliceOf_prefix (d rest : bytes) : sliceOf (d ++ rest) 0 (blen d) = Ok d.
Proof.
  unfold sliceOf. pose proof (blen_nonneg d). pose proof (blen_nonneg rest). rewrite blen_app.
  zfalse (blen d <? 0). zfalse (blen d + blen rest <? blen d). cbn [Z.ltb orb].
  change (0 <? 0) with false. cbn [orb]. f_equal. cbn [Z.to_nat drop]. unfold blen.
  rewrite Z.sub_0_r, Nat2Z.id. apply take_app_length.
Qed.

Lemma sliceOf_suffix (d rest : bytes) : sliceOf (d ++ rest) (blen d) (blen (d ++ rest)) = Ok rest.
Proof.
  unfold sliceOf. pose proof (blen_nonneg d). pose proof (blen_nonneg rest). rewrite blen_app.
  zfalse (blen d <? 0). zfalse (blen d + blen rest <? blen d).
  zfalse (blen d + blen rest <? blen d + blen rest). cbn [orb]. f_equal. unfold blen.
  rewrite Nat2Z.id, drop_app_length, Z.add_simpl_l, Nat2Z.id. apply take_ge. lia.
Qed.

Lemma ParsePacket_cut data h n packet rest :
  match data with b0 :: _ => IsLongHeaderPacket b0 = true | [] => False end ->
  (parseHeader data).1 = Ok (h, true) -> data = packet ++ rest ->
  blen packet = hParsedLen h + hLength h -> blen data < n -> n <= 2 ^ 63 ->
  ParsePacket data = Ok (ParsedPacket h packet rest).
Proof.
  intros Hb Hp -> Hl Hn Hm. unfold ParsePacket. destruct (packet ++ rest) as [|b0 bs] eqn:E; [done|].
  rewrite <- E in *. rewrite Hb, Hp. cbn [negb mbind res_bind]. rewrite blen_app in Hn.
  pose proof (blen_nonneg packet). pose proof (blen_nonneg rest).
  rewrite i64_small, <- Hl by int_range. rewrite blen_app.
  zfalse (blen packet + blen rest <? blen packet). rewrite sliceOf_prefix. cbn [mbind res_bind].
  rewrite <- blen_app, sliceOf_suffix. done.
Qed.

Lemma seek_app n (d rest : bytes) : blen d = n -> seek n (d ++ rest) = (Ok (), rest).
Proof. intros <-. unfold seek, modify, blen. by rewrite Nat2Z.id, drop_app_length. Qed.

(** [ParseExtended] goes over the bytes that [ParsePacket] read to the packet number. *)
Lemma ParseExtended_spec h fb pre pbs pn rest :
  hParsedLen h = 1 + blen pre ->
  (forall r, readPacketNumber (Z.land fb 0x3 + 1) (pbs ++ r) = (Ok pn, r)) ->
  ParseExtended h ((fb :: pre) ++ pbs ++ rest) =
    (Ok (mkExtended h fb (Z.land fb 0x3 + 1) pn (1 + blen pre + blen pbs), Z.land fb 0xc =? 0), rest).
Proof.
  intros Hl Hpn. unfold ParseExtended. erewrite parser_bind_ok; [|done].
  erewrite parser_bind_ok; [|done]. change (fb :: pre) with ([fb] ++ pre). cbn [app].
  erewrite parser_bind_ok; [|apply seek_app; lia]. erewrite parser_bind_ok; [|apply Hpn].
  erewrite parser_bind_ok; [|done]. unfold mret, stM_ret. repeat f_equal.
  rewrite blen_cons, !blen_app. lia.
Qed.

Lemma blen_tokenBytes typ token :
  (typ <> PacketTypeInitial -> token = []) -> blen token <= blen (tokenBytes typ token).
Proof.
  intros Htok. unfold tokenBytes. case_decide.
  - rewrite blen_app. pose proof (blen_nonneg (venc (blen token))). lia.
  - by rewrite Htok.
Qed.

(** The header is read whatever the bits are that header protection hides. *)
Lemma parseHeader_long e v typ fb lbs rest : long_sendable e v typ ->
  Z.land fb 0x40 <> 0 -> packetTypeOf v fb = typ ->
  let h := ehHeader e in
  let pre := drop 1 (idBytes fb v (hDestConnectionID h) (hSrcConnectionID h)) ++ tokenBytes typ (hToken h) ++ lbs in
  blen pre + blen rest < 2 ^ 62 ->
  (forall rest, varint_Read (lbs ++ rest) = (Ok (hLength h), rest)) ->
  parseHeader ((fb :: pre) ++ rest) =
    (Ok (mkHeader fb (Some typ) v (hSrcConnectionID h) (hDestConnectionID h) (hLength h) (hToken h) (1 + blen pre), true), rest).
Proof.
  intros [Ht Hr Hv Hs Hd Hsrc Htok Htl Hl Hp] H40 Hty h pre Hsz Hlr.
  change ((fb :: pre) ++ rest) with (fb :: (pre ++ rest)).
  assert (Htd : parseTypeDependent typ (tokenBytes typ (hToken h) ++ lbs ++ rest) =
    (Ok (hToken h, hLength h), rest)).
  { apply parseTypeDependent_token; [done|exact Htok| |unfold h, maxVarInt2 in *; int_varint|apply Hlr].
    pose proof (blen_tokenBytes typ (hToken h) Htok). unfold pre in Hsz. rewrite !blen_app in Hsz.
    pose proof (blen_nonneg (drop 1 (idBytes fb v (hDestConnectionID h) (hSrcConnectionID h)))). lia. }
  unfold parseHeader. erewrite parser_bind_ok; [|done]. erewrite parser_bind_ok; [|done]. cbv beta.
  erewrite parser_bind_ok.
  2:{ unfold pre. rewrite <- !(assoc_L (++)), parseLongHeader_ids;
        [|apply u32_version; done|done|done|done].
      replace (v =? 0) with false by (destruct Hs as [-> | ->]; done).
      replace (IsSupportedVersion SupportedVersions v) with true by (destruct Hs as [-> | ->]; done).
      cbn [negb]. rewrite Hty. by rewrite (parser_bind_ok _ _ _ _ _ Htd). }
  cbv beta iota. clearbody pre. erewrite parser_bind_ok; [|done]. unfold setParsedLen, mret, stM_ret. cbn. repeat f_equal.
  rewrite blen_cons, blen_app. lia.
Qed.

(** The layout of a long header: the first byte, the bytes in front of the packet
    number, which the parser reads whatever the protected bits are, and the packet
    number. *)
Lemma long_layout e v typ : long_sendable e v typ ->
  let h := ehHeader e in let n := ehPacketNumberLen e in
  exists pre pbs,
    ext_Append [] e v = Ok ((longFirstByte v typ n :: pre) ++ pbs) /\ GetLength e = Ok (1 + blen pre + blen pbs) /\
    blen pbs = n /\ blen pre <= 56 + blen (hToken h) /\
    (forall rest, readPacketNumber n (pbs ++ rest) = (Ok (ehPacketNumber e mod 2 ^ (8 * n)), rest)) /\
    forall fb rest, Z.land fb 0x40 <> 0 -> packetTypeOf v fb = typ -> blen pre + blen rest < 2 ^ 62 ->
      parseHeader ((fb :: pre) ++ rest) =
        (Ok (mkHeader fb (Some typ) v (hSrcConnectionID h) (hDestConnectionID h) (hLength h) (hToken h) (1 + blen pre), true), rest).
Proof.
  intros Hls h n. destruct (ext_Append_bytes e v typ Hls) as (lbs & pbs & Ha & Hlb & Hpb & Hlr & Hpr).
  pose proof (GetLength_spec e v typ Hls) as Hg. fold h n in Ha, Hg, Hlr, Hpb, Hpr.
  set (fb := longFirstByte v typ n) in *.
  set (pre := drop 1 (idBytes fb v (hDestConnectionID h) (hSrcConnectionID h)) ++ tokenBytes typ (hToken h) ++ lbs).
  assert (Hpre : blen pre = 8 + blen (hDestConnectionID h) + blen (hSrcConnectionID h) + blen (tokenBytes typ (hToken h))).
  { unfold pre. pose proof (blen_idBytes fb v (hDestConnectionID h) (hSrcConnectionID h)) as E.
    rewrite idBytes_split, blen_cons in E. rewrite !blen_app. lia. }
  exists pre, pbs. split_and!; [|rewrite Hg; f_equal; lia|done| |done|].
  - rewrite Ha, idBytes_split. unfold pre. cbn [app]. by rewrite <- !(assoc_L (++)).
  - destruct Hls as [_ _ _ _ Hd Hs _ Htl _ _]. fold h in Hd, Hs, Htl. unfold MaxConnIDLen in *.
    assert (blen (tokenBytes typ (hToken h)) <= 8 + blen (hToken h)); [|lia].
    unfold tokenBytes. case_decide; [|rewrite blen_nil; pose proof (blen_nonneg (hToken h)); lia].
    rewrite blen_app, blen_venc by done. pose proof (vlen_range (blen (hToken h))). lia.
  - intros fb' rest H40 Hty Hsz. exact (parseHeader_long e v typ fb' lbs rest Hls H40 Hty Hsz Hlr).
Qed.

(** A long header that is written is the header that is read.  [Append]
    writes exactly the bytes [GetLength] announced, and whatever payload and
    further packets follow in the datagram, [ParsePacket] returns the connection
    IDs, type, token and length, cuts the packet at the end of the payload, and
    [ParseExtended] then finds the packet number (truncated to its length on the
    wire) with valid reserved bits, right in front of the payload. *)
Theorem long_header_roundtrip e v typ payload rest :
  long_sendable e v typ ->
  hLength (ehHeader e) = ehPacketNumberLen e + blen payload ->
  blen (hToken (ehHeader e)) + blen rest < 2 ^ 61 ->
  let h := ehHeader e in
  exists hdr fb,
    ext_Append [] e v = Ok hdr /\ GetLength e = Ok (blen hdr) /\
    let h' := mkHeader fb (Some typ) v (hSrcConnectionID h) (hDestConnectionID h) (hLength h) (hToken h)
                (blen hdr - ehPacketNumberLen e) in
    ParsePacket (hdr ++ payload ++ rest) = Ok (ParsedPacket h' (hdr ++ payload) rest) /\
    ParseExtended h' (hdr ++ payload) =
      (Ok (mkExtended h' fb (ehPacketNumberLen e) (ehPacketNumber e mod 2 ^ (8 * ehPacketNumberLen e)) (blen hdr), true),
       payload).
Proof.
  intros Hls Hlen Hsz h. destruct (long_layout e v typ Hls) as (pre & pbs & Ha & Hg & Hpb & Hpre & Hpr & Hph).
  fold h in Hph, Hpre, Hlen, Hsz.
  destruct (longFirstByte_spec v typ _ (ls_supported _ _ _ Hls) (ls_pnLen _ _ _ Hls)) as (Hfb & Hlong & H40 & Hty & H3 & Hc).
  set (fb := longFirstByte v typ (ehPacketNumberLen e)) in *.
  exists ((fb :: pre) ++ pbs), fb.
  assert (Hhdr : blen ((fb :: pre) ++ pbs) = 1 + blen pre + ehPacketNumberLen e)
    by (rewrite blen_app, blen_cons; lia).
  split; [done|]. split; [rewrite Hg; f_equal; lia|]. rewrite Hhdr.
  replace (1 + blen pre + ehPacketNumberLen e - ehPacketNumberLen e) with (1 + blen pre) by lia.
  assert (Hbound : blen ((fb :: pre) ++ pbs ++ payload ++ rest) < 2 ^ 62).
  { pose proof (ls_length _ _ _ Hls) as Hll. fold h in Hll. rewrite !blen_app, blen_cons. unfold maxVarInt2 in *. lia. }
  rewrite blen_app, blen_cons in Hbound.
  split.
  - eapply (ParsePacket_cut _ _ (2 ^ 63)); [done| |by rewrite <- !(assoc_L (++))| | |done].
    + rewrite <- (assoc_L (++)), Hph; [done|done|done|lia].
    + rewrite blen_app, Hhdr. cbn. lia.
    + rewrite <- (assoc_L (++)), blen_app, blen_cons. lia.
  - rewrite <- (assoc_L (++)). rewrite <- H3 in Hpr |- *.
    erewrite ParseExtended_spec; [|done|apply Hpr]. rewrite Hc. repeat f_equal. lia.
Qed.

Definition longHeader_example : ExtendedHeader :=
  mkExtended (mkHeader 0 (Some PacketTypeInitial) Version2 [1; 2; 3] [4; 5; 6; 7] 5 [0xaa; 0xbb] 0) 0 2 0xac5c02 0.

Lemma long_header_roundtrip_witness :
  exists hdr fb,
    ext_Append [] longHeader_example Version2 = Ok hdr /\ GetLength longHeader_example = Ok (blen hdr) /\
    let h' := mkHeader fb (Some PacketTypeInitial) Version2 [1; 2; 3] [4; 5; 6; 7] 5 [0xaa; 0xbb] (blen hdr - 2) in
    ParsePacket (hdr ++ [10; 11; 12] ++ [99]) = Ok (ParsedPacket h' (hdr ++ [10; 11; 12]) [99]) /\
    ParseExtended h' (hdr ++ [10; 11; 12]) = (Ok (mkExtended h' fb 2 0x5c02 (blen hdr), true), [10; 11; 12]).
Proof.
  apply (long_header_roundtrip longHeader_example Version2 PacketTypeInitial [10; 11; 12] [99]);
    [constructor; vm_compute; first [by auto | done | split; discriminate] | reflexivity | reflexivity].
Defined.

(** ** Short headers *)

Lemma short_first_byte pnLen kp : 1 <= pnLen <= 4 -> kp <> KeyPhaseUndefined ->
  let b := (if decide (kp = KeyPhaseOne) then Z.lor (Z.lor 0x40 (u8 (pnLen - 1))) (Z.shiftl 1 2)
            else Z.lor 0x40 (u8 (pnLen - 1))) in
  is_u8 b /\ (0 <? Z.land b 0x80) = false /\ (Z.land b 0x40 =? 0) = false /\ Z.land b 0x3 + 1 = pnLen /\
  (if 0 <? Z.land b 0x4 then KeyPhaseOne else KeyPhaseZero) = kp /\ (Z.land b 0x18 =? 0) = true.
Proof.
  intros Hl Hk. assert (pnLen = 1 \/ pnLen = 2 \/ pnLen = 3 \/ pnLen = 4) as [->|[->|[->| ->]]] by lia;
    destruct kp; try done; vm_compute; repeat split; try discriminate; congruence.
Qed.

Lemma sliceOf_mid (x d y : bytes) : sliceOf (x ++ d ++ y) (blen x) (blen x + blen d) = Ok d.
Proof.
  unfold sliceOf. pose proof (blen_nonneg x). pose proof (blen_nonneg d). pose proof (blen_nonneg y).
  rewrite !blen_app. zfalse (blen x <? 0). zfalse (blen x + blen d <? blen x).
  zfalse (blen x + (blen d + blen y) <? blen x + blen d). cbn [orb]. f_equal. unfold blen.
  rewrite Nat2Z.id, drop_app_length, Z.add_simpl_l, Nat2Z.id. apply take_app_length.
Qed.

(** The layout of a short header: it has the length [ShortHeaderLen] announces, and
    is read back whatever follows it. *)
Lemma short_layout (connID : bytes) pn pnLen kp :
  1 <= pnLen <= 4 -> kp <> KeyPhaseUndefined ->
  exists b pbs, AppendShortHeader [] connID pn pnLen kp = Ok ((b :: connID) ++ pbs) /\ blen pbs = pnLen /\
    blen ((b :: connID) ++ pbs) = ShortHeaderLen connID pnLen /\
    forall payload, ParseShortHeader ((b :: connID) ++ pbs ++ payload) (blen connID) =
      Ok (1 + blen connID + pnLen, pn mod 2 ^ (8 * pnLen), pnLen, kp, true).
Proof.
  intros Hl Hk. pose proof (short_first_byte pnLen kp Hl Hk) as Hb. unfold AppendShortHeader.
  set (b := if decide (kp = KeyPhaseOne) then _ else _) in *. destruct Hb as (_ & H80 & H40 & H3 & H4 & H18).
  destruct (appendPacketNumber_spec ([] ++ [b] ++ connID) pn pnLen Hl) as (pbs & -> & Hpb & _ & Hpr).
  exists b, pbs. pose proof (blen_nonneg connID).
  assert (Hb : blen (b :: connID) = 1 + blen connID) by apply blen_cons.
  split; [done|]. split; [done|]. unfold ShortHeaderLen. split; [rewrite blen_app, Hb; lia|].
  intros payload. pose proof (blen_nonneg payload). unfold ParseShortHeader.
  rewrite !blen_app, Hb, Hpb. zfalse (1 + blen connID + (pnLen + blen payload) =? 0).
  change (byteAt ((b :: connID) ++ pbs ++ payload) 0) with (Ok b). cbn [mbind res_bind].
  rewrite H80, H40, H3. zfalse (1 + blen connID + (pnLen + blen payload) <? 1 + pnLen + blen connID).
  rewrite <- Hb, <- Hpb, sliceOf_mid. cbn [mbind res_bind]. rewrite Hpb.
  pose proof (Hpr []) as Hr. rewrite app_nil_r in Hr. rewrite Hr. cbn [mbind res_bind fst].
  rewrite H4, H18, Hb. done.
Qed.

(** ** Arbitrary datagrams *)

Lemma safe_ReadUint32 : safe_parser (fun v => 0 <= v < 2 ^ 32) ReadUint32.
Proof.
  unfold ReadUint32. repeat parser_step. unfold u32. apply Z.mod_pos_bound. lia.
Qed.
#[export] Hint Resolve safe_ReadUint32 : parsers.

Lemma safe_seek n : safe_parser (fun _ => True) (seek n).
Proof. intros r Hr. split; [done|]. exists (take (Z.to_nat n) r). by rewrite take_drop. Qed.
#[export] Hint Resolve safe_seek : parsers.

Definition tokenLen_ok (p : bytes * Z) : Prop := bytes_ok p.1 /\ is_varint p.2.

Lemma is_varint_i64 v : is_varint v -> is_varint (i64 v).
Proof. intros Hv. by rewrite i64_small by int_varint. Qed.

Lemma safe_parseTypeDependent typ : safe_parser tokenLen_ok (parseTypeDependent typ).
Proof.
  unfold parseTypeDependent. case_decide.
  - repeat parser_step. unfold tokenLen_ok, data_of in *. cbn. split; [by destruct Hv0|]. int_varint.
  - eapply (safe_bind bytes_ok).
    + case_decide; [|apply safe_ret; constructor]. repeat parser_step.
      eapply safe_mono; [apply safe_ReadFull|]. by intros d [? _].
    + intros token Ht. repeat parser_step. split; [done|]. by apply is_varint_i64.
Qed.
#[export] Hint Resolve safe_parseTypeDependent : parsers.

(** What a parsed header says, known version or not. *)
Definition header_ok (p : Header * bool) : Prop :=
  let h := p.1 in
  0 <= hVersion h < 2 ^ 32 /\
  blen (hSrcConnectionID h) <= MaxConnIDLen /\ blen (hDestConnectionID h) <= MaxConnIDLen /\
  bytes_ok (hToken h) /\ is_varint (hLength h) /\
  p.2 = (hVersion h =? 0) || IsSupportedVersion SupportedVersions (hVersion h).

Lemma header_ok_intro tb typ v src dest len token n supported :
  0 <= v < 2 ^ 32 -> bytes_ok src /\ blen src <= MaxConnIDLen -> bytes_ok dest /\ blen dest <= MaxConnIDLen ->
  tokenLen_ok (token, len) -> supported = (v =? 0) || IsSupportedVersion SupportedVersions v ->
  header_ok (mkHeader tb typ v src dest len token n, supported).
Proof. intros ? [] [] [] ?. unfold header_ok. cbn [fst snd hVersion hSrcConnectionID hDestConnectionID hToken hLength]. done. Qed.

Lemma tokenLen_ok_nil : tokenLen_ok ([], 0).
Proof. split; cbn [fst snd]; [by apply Forall_nil|int_varint]. Qed.

Lemma safe_parseLongHeader tb : safe_parser header_ok (parseLongHeader tb).
Proof.
  unfold parseLongHeader. repeat parser_step; [| |destruct v4; apply safe_ret];
    apply header_ok_intro; try done; try apply tokenLen_ok_nil.
  - by rewrite H0.
  - rewrite H0. cbn [orb]. by apply negb_true_iff in H1.
  - rewrite H0. cbn [orb]. by apply negb_false_iff in H1.
Qed.

Lemma suffix_blen_le {A} (r' r : list A) : suffix r' r -> blen r' <= blen r.
Proof. intros [k ->]. rewrite blen_app. pose proof (blen_nonneg k). lia. Qed.

Lemma parseHeader_total data : bytes_ok data ->
  match (parseHeader data).1 with
  | Ok (h, supported) => header_ok (h, supported) /\ 1 <= hParsedLen h <= blen data
  | Err _ => True
  | Panic _ => False
  end.
Proof.
  intros Hd. unfold parseHeader. destruct data as [|tb data]; [done|]. apply Forall_cons in Hd as [_ Hd].
  unfold mbind, stM_bind. cbn [ReadByte reader_len].
  pose proof (safe_parseLongHeader tb data Hd) as Hs. destruct (parseLongHeader tb data) as [[[h sup]| |] r]; [|done..].
  destruct Hs as [Hok Hs]. cbn [reader_len fst mret stM_ret]. apply suffix_blen_le in Hs.
  split; [exact Hok|]. unfold setParsedLen. cbn [hParsedLen]. rewrite blen_cons. pose proof (blen_nonneg r). lia.
Qed.

Lemma sliceOf_total (data : bytes) i j : 0 <= i <= j -> j <= blen data ->
  sliceOf data i j = Ok (take (Z.to_nat (j - i)) (drop (Z.to_nat i) data)).
Proof.
  intros Hi Hj. unfold sliceOf. zfalse (i <? 0). zfalse (j <? i). by zfalse (blen data <? j).
Qed.

Lemma ParsePacket_total (data : bytes) : bytes_ok data -> blen data < 2 ^ 62 ->
  match ParsePacket data with
  | Ok (ParsedPacket h packet rest) =>
      data = packet ++ rest /\ blen packet = hParsedLen h + hLength h /\ 1 <= hParsedLen h /\ 0 <= hLength h /\
      blen (hSrcConnectionID h) <= MaxConnIDLen /\ blen (hDestConnectionID h) <= MaxConnIDLen /\
      (hVersion h = 0 \/ hVersion h = Version1 \/ hVersion h = Version2)
  | Ok (UnsupportedVersion h) => hVersion h <> 0 /\ hVersion h <> Version1 /\ hVersion h <> Version2
  | Err _ => True
  | Panic _ => False
  end.
Proof.
  intros Hd Hl. unfold ParsePacket. destruct data as [|b0 data0]; [done|].
  destruct (negb (IsLongHeaderPacket b0)); [done|]. set (data := b0 :: data0) in *. clearbody data.
  pose proof (parseHeader_total data Hd) as Hp.
  destruct (parseHeader data).1 as [[h sup]| |]; cbn [mbind res_bind]; [|done..].
  destruct Hp as [(_ & Hs & Hdst & _ & Hlen & Hsup) Hpl]. cbn [fst snd] in *.
  unfold IsSupportedVersion, SupportedVersions in Hsup.
  destruct sup; cbn [negb].
  2:{ destruct (Z.eqb_spec (hVersion h) 0), (Z.eqb_spec Version1 (hVersion h)),
        (Z.eqb_spec Version2 (hVersion h)); try discriminate Hsup. split_and!; [done|congruence..]. }
  destruct Hlen as [Hlen0 Hlen1]. unfold maxVarInt8 in Hlen1. rewrite i64_small by int_range.
  destruct (Z.ltb_spec (blen data) (hParsedLen h + hLength h)); [done|].
  rewrite !sliceOf_total by lia. cbn [mbind res_bind]. rewrite Z.sub_0_r. change (Z.to_nat 0) with 0%nat. rewrite drop_0.
  split_and!; try done; try lia.
  - rewrite (take_ge (drop _ _)); [by rewrite take_drop|]. rewrite length_drop. unfold blen in *. lia.
  - unfold blen in *. rewrite length_take. lia.
  - destruct (Z.eqb_spec (hVersion h) 0), (Z.eqb_spec Version1 (hVersion h)),
      (Z.eqb_spec Version2 (hVersion h)); try discriminate Hsup; auto.
Qed.



(** ** Version negotiation *)

(** A reserved version has the pattern 0x?a?a?a?a. *)
Lemma generateReservedVersion_spec random :
  0 <= generateReservedVersion random < 2 ^ 32 /\ Z.land (generateReservedVersion random) 0xf = 0xa.
Proof.
  unfold generateReservedVersion. split.
  - assert (E : Z.land (Z.lor random 0x0a0a0a0a) 0xfafafafa =
      Z.land (Z.land (Z.lor random 0x0a0a0a0a) 0xfafafafa) (Z.ones 32)) by (by rewrite <- Z.land_assoc).
    rewrite E, Z.land_ones by lia. apply Z.mod_pos_bound. lia.
  - rewrite <- Z.land_assoc. change (Z.land 0xfafafafa 0xf) with 0xa. rewrite Z.land_lor_distr_l.
    change (Z.land 0x0a0a0a0a 0xa) with 0xa. apply Z.bits_inj'. intros n _.
    rewrite Z.lor_spec, Z.land_spec. by destruct (Z.testbit random n), (Z.testbit 0xa n).
Qed.

Lemma reserved_not_supported random v :
  v = Version1 \/ v = Version2 -> (v =? generateReservedVersion random) = false.
Proof.
  intros Hv. apply Z.eqb_neq. intros E. destruct (generateReservedVersion_spec random) as [_ Hp].
  rewrite <- E in Hp. by destruct Hv as [-> | ->].
Qed.

(** Greasing does not change the choice. *)
Lemma ChooseSupportedVersion_greased ours versions b0 random :
  Forall (fun v => v = Version1 \/ v = Version2) ours ->
  ChooseSupportedVersion ours (GetGreasedVersions versions b0 random) = ChooseSupportedVersion ours versions.
Proof.
  intros Ho. induction Ho as [|v ours Hv Ho IH]; [done|]. cbn [ChooseSupportedVersion].
  assert (E : existsb (fun t => v =? t) (GetGreasedVersions versions b0 random) = existsb (fun t => v =? t) versions).
  { unfold GetGreasedVersions. rewrite !existsb_app. cbn [existsb]. rewrite reserved_not_supported by done.
    cbn [orb]. by rewrite <- existsb_app, take_drop. }
  by rewrite E, IH.
Qed.

Lemma greased_range versions b0 random :
  Forall (fun v => 0 <= v < 2 ^ 32) versions ->
  Forall (fun v => 0 <= v < 2 ^ 32) (GetGreasedVersions versions b0 random).
Proof.
  intros H. unfold GetGreasedVersions. apply Forall_app; split; [by apply Forall_take|].
  apply Forall_app; split; [|by apply Forall_drop]. repeat constructor; apply generateReservedVersion_spec.
Qed.

Lemma parseVersions_put vs : Forall (fun v => 0 <= v < 2 ^ 32) vs ->
  parseVersions (length vs) (mjoin (putUint32 <$> vs)) = (Ok vs, []) /\
  blen (mjoin (putUint32 <$> vs)) = 4 * blen vs.
Proof.
  intros Hv. induction Hv as [|v vs Hv Hvs [IH1 IH2]]; [done|]. split.
  - cbn [parseVersions length]. change (mjoin (putUint32 <$> v :: vs)) with (putUint32 v ++ mjoin (putUint32 <$> vs)).
    erewrite parser_bind_ok; [|by apply be_get]. cbv beta. by erewrite parser_bind_ok; [|apply IH1].
  - change (mjoin (putUint32 <$> v :: vs)) with (putUint32 v ++ mjoin (putUint32 <$> vs)).
    rewrite blen_app, blen_cons, IH2. change (blen (putUint32 v)) with 4. lia.
Qed.

Lemma parseArbitrary_app b0 b1 b2 b3 b4 dest src rest : blen dest <= 255 -> blen src <= 255 ->
  ParseArbitraryLenConnectionIDs ([b0; b1; b2; b3; b4] ++ [u8 (blen dest)] ++ dest ++ [u8 (blen src)] ++ src ++ rest) =
    Ok (7 + blen dest + blen src, dest, src).
Proof.
  intros Hd Hs. pose proof (blen_nonneg dest). pose proof (blen_nonneg src).
  rewrite !u8_small by int_range. unfold ParseArbitraryLenConnectionIDs, parseArbitraryLenConnectionIDs.
  erewrite parser_bind_ok; [|by apply seek_app]. cbn [app]. erewrite parser_bind_ok; [|done]. read_eof.
  erewrite parser_bind_ok; [|done]. read_eof. cbn [mret stM_ret mbind res_bind].
  f_equal. f_equal. f_equal. autorewrite with goslice. lia.
Qed.

Lemma sliceOf_from (d rest : bytes) n : n = blen d -> sliceOf (d ++ rest) n (blen (d ++ rest)) = Ok rest.
Proof. intros ->. apply sliceOf_suffix. Qed.

(** Version Negotiation.  The packet a server composes is recognised as one,
    the client reads the connection IDs and the server's versions out of it with
    the reserved version mixed in, and, whatever the random bytes were, the
    reserved version does not change which version the client chooses. *)
Theorem version_negotiation_roundtrip dest src versions r0 b0 random :
  blen dest <= 255 -> blen src <= 255 -> Forall (fun v => 0 <= v < 2 ^ 32) versions -> is_u8 r0 -> 0 <= b0 ->
  let packet := ComposeVersionNegotiation dest src versions r0 b0 random in
  IsVersionNegotiationPacket packet = true /\
  exists vs, ParseVersionNegotiationPacket packet = Ok (dest, src, vs) /\
    vs ≡ₚ generateReservedVersion random :: versions /\
    ChooseSupportedVersion SupportedVersions vs = ChooseSupportedVersion SupportedVersions versions.
Proof.
  intros Hd Hs Hv Hr Hb packet. split.
  { unfold packet, ComposeVersionNegotiation. cbn [app putUint32 IsVersionNegotiationPacket].
    change (u8 (Z.shiftr 0 24)) with 0. change (u8 (Z.shiftr 0 16)) with 0. change (u8 (Z.shiftr 0 8)) with 0.
    change (u8 0) with 0. rewrite !Z.eqb_refl, !andb_true_r. unfold IsLongHeaderPacket.
    apply Z.ltb_lt. unfold u8. change (2 ^ 8) with 256.
    assert (E : Z.land (Z.lor r0 0xc0 mod 2 ^ 8) 0x80 = 0x80); [|change (2 ^ 8) with 256 in E; lia].
    rewrite <- Z.land_ones, <- Z.land_assoc by lia. change (Z.land (Z.ones 8) 0x80) with 0x80.
    rewrite Z.land_lor_distr_l. change (Z.land 0xc0 0x80) with 0x80. apply Z.bits_inj'. intros n _.
    rewrite Z.lor_spec, Z.land_spec. by destruct (Z.testbit r0 n), (Z.testbit 0x80 n). }
  exists (GetGreasedVersions versions b0 random). split_and!.
  - unfold packet, ComposeVersionNegotiation, ParseVersionNegotiationPacket.
    destruct (parseVersions_put _ (greased_range versions b0 random Hv)) as [Hp Hl].
    set (vs := GetGreasedVersions versions b0 random) in *. set (vbs := mjoin (putUint32 <$> vs)) in *.
    change ([u8 (Z.lor r0 192)] ++ putUint32 0 ++ ?x) with
      ([u8 (Z.lor r0 192); u8 (Z.shiftr 0 24); u8 (Z.shiftr 0 16); u8 (Z.shiftr 0 8); u8 0] ++ x).
    rewrite parseArbitrary_app by done. cbn [mbind res_bind].
    set (pre := [u8 (Z.lor r0 192); u8 (Z.shiftr 0 24); u8 (Z.shiftr 0 16); u8 (Z.shiftr 0 8); u8 0]).
    replace (pre ++ [u8 (blen dest)] ++ dest ++ [u8 (blen src)] ++ src ++ vbs)
      with ((pre ++ [u8 (blen dest)] ++ dest ++ [u8 (blen src)] ++ src) ++ vbs) by (by rewrite <- !(assoc_L (++))).
    rewrite sliceOf_from by (rewrite !blen_app; change (blen pre) with 5; autorewrite with goslice; lia).
    cbn [mbind res_bind]. rewrite Hl.
    assert (0 < blen vs).
    { unfold vs, GetGreasedVersions. autorewrite with goslice.
      pose proof (blen_nonneg (take (Z.to_nat (b0 mod (blen versions + 1))) versions)).
      pose proof (blen_nonneg (drop (Z.to_nat (b0 mod (blen versions + 1))) versions)). lia. }
    zfalse (4 * blen vs =? 0). rewrite (Z.mul_comm 4), Z.mod_mul, Z.div_mul by lia. cbn [negb Z.eqb].
    unfold blen. rewrite Nat2Z.id, Hp. done.
  - unfold GetGreasedVersions. cbn [app]. rewrite <- Permutation_middle. by rewrite take_drop.
  - apply ChooseSupportedVersion_greased.
    repeat apply Forall_cons_2; try apply Forall_nil_2; auto.
Qed.

Lemma version_negotiation_roundtrip_witness :
  let packet := ComposeVersionNegotiation [1; 2] [3] [Version2; 0x12345678] 0x11 7 0xdeadbeef in
  IsVersionNegotiationPacket packet = true /\
  exists vs, ParseVersionNegotiationPacket packet = Ok ([1; 2], [3], vs) /\
    vs ≡ₚ generateReservedVersion 0xdeadbeef :: [Version2; 0x12345678] /\
    ChooseSupportedVersion SupportedVersions vs = ChooseSupportedVersion SupportedVersions [Version2; 0x12345678].
Proof.
  apply (version_negotiation_roundtrip [1; 2] [3] [Version2; 0x12345678] 0x11 7 0xdeadbeef);
    first [discriminate | split; discriminate || reflexivity | idtac].
  repeat apply Forall_cons_2; try apply Forall_nil_2; split; discriminate || reflexivity.
Defined.
