(* ===== verification/Protection.v ===== *)
(** * Protection: sealing packets and protecting headers

    Models internal/handshake/cipher_suite.go, hkdf.go, header_protector.go,
    aead.go and initial_aead.go.  The ciphers, the hashes and HKDF come from the
    Go standard library and golang.org/x/crypto: they are the class [Crypto], and
    [CryptoLaws] is what the code relies on. *)

From S2P Require Import Prelude Protocol Headers.
From stdpp Require Import base numbers list option strings.
From Stdlib Require Import ZArith Lia.
#[local] Open Scope Z_scope.

Inductive Hash := SHA256 | SHA384.
Definition hash_Size (h : Hash) : Z := match h with SHA256 => 32 | SHA384 => 48 end.

(** [newAEAD suite key] is the AEAD that [cipher.NewGCM] or
    [chacha20poly1305.New] returns; [aes_Encrypt key] is [Encrypt] of the block
    cipher with the key; [chacha20_XORKeyStream key nonce counter] is the key
    stream XORed to its argument. *)
Class Crypto (A : Type) := {
  newAEAD : Z -> bytes -> A;
  aead_Seal : A -> bytes -> bytes -> bytes -> bytes;
  aead_Open : A -> bytes -> bytes -> bytes -> option bytes;
  aead_Overhead : A -> Z;
  aes_Encrypt : bytes -> bytes -> bytes;
  chacha20_XORKeyStream : bytes -> bytes -> Z -> bytes -> bytes;
  hkdf_Expand : Hash -> bytes -> bytes -> Z -> bytes;
  hkdf_Extract : Hash -> bytes -> bytes -> bytes
}.

(** An AEAD opens what it sealed, with a tag of 16 bytes; the other primitives
    keep or set the length as documented. *)
Class CryptoLaws (A : Type) `{Crypto A} : Prop := {
  aead_open_seal a nonce p ad : aead_Open a nonce (aead_Seal a nonce p ad) ad = Some p;
  aead_seal_len a nonce p ad : blen (aead_Seal a nonce p ad) = blen p + aead_Overhead a;
  aead_overhead a : aead_Overhead a = 16;
  aes_block_len key b : blen b = 16 -> blen (aes_Encrypt key b) = 16;
  chacha20_len key nonce c b : blen (chacha20_XORKeyStream key nonce c b) = blen b;
  hkdf_Expand_len h secret info n : 0 <= n <= 255 * hash_Size h -> blen (hkdf_Expand h secret info n) = n
}.

(** ** Cipher suites *)

Definition aeadNonceLength : Z := 12.
Definition TLS_AES_128_GCM_SHA256 : Z := 0x1301.
Definition TLS_AES_256_GCM_SHA384 : Z := 0x1302.
Definition TLS_CHACHA20_POLY1305_SHA256 : Z := 0x1303.

Record cipherSuite := mkSuite { csID : Z; csHash : Hash; csKeyLen : Z }.

Definition getCipherSuite (id : Z) : res cipherSuite :=
  if id =? TLS_AES_128_GCM_SHA256 then Ok (mkSuite TLS_AES_128_GCM_SHA256 SHA256 16)
  else if id =? TLS_CHACHA20_POLY1305_SHA256 then Ok (mkSuite TLS_CHACHA20_POLY1305_SHA256 SHA256 32)
  else if id =? TLS_AES_256_GCM_SHA384 then Ok (mkSuite TLS_AES_256_GCM_SHA384 SHA384 32)
  else Panic "unknown cypher suite: %d".

(** [[]byte(s)] *)
Fixpoint bytes_of_string (s : string) : bytes :=
  match s with
  | EmptyString => []
  | String c s' => Z.of_N (Ascii.N_of_ascii c) :: bytes_of_string s'
  end.

Definition putUint64 (i : Z) : bytes :=
  [u8 (Z.shiftr i 56); u8 (Z.shiftr i 48); u8 (Z.shiftr i 40); u8 (Z.shiftr i 32);
   u8 (Z.shiftr i 24); u8 (Z.shiftr i 16); u8 (Z.shiftr i 8); u8 i].

(** Overwrite the bytes of [data] from offset [i] on with [bs]. *)
Definition setRange (data : bytes) (i : Z) (bs : bytes) : bytes :=
  take (Z.to_nat i) data ++ bs ++ drop (Z.to_nat i + length bs) data.

Section model.
Context {A : Type} `{Crypto A}.

Definition hkdfExpandLabel (hash : Hash) (secret context : bytes) (label : string) (length : Z) : res bytes :=
  let l := bytes_of_string label in
  let b := putUint16 (u16 length) ++ [u8 (6 + blen l)] ++ bytes_of_string "tls13 " ++ l ++ [u8 (blen context)] ++ context in
  let out := hkdf_Expand hash secret b length in
  if blen out =? length then Ok out else Panic "quic: HKDF-Expand-Label invocation failed unexpectedly".

(** ** The nonce *)

Record xorNonceAEAD := mkXorNonce { nonceMask : bytes; xaead : A }.

(** The loop [f.nonceMask[4+i] ^= b] over the nonce. *)
Definition xorNonce (nonce mask : bytes) : res bytes :=
  if blen mask <? 4 + blen nonce then Panic "index out of range"
  else Ok (setRange mask 4 (zip_with Z.lxor (drop 4 mask) nonce)).

Definition xor_Seal (nonce plaintext ad : bytes) : stM xorNonceAEAD bytes := fun f =>
  match xorNonce nonce (nonceMask f) with
  | Ok mask =>
      let result := aead_Seal (xaead f) mask plaintext ad in
      match xorNonce nonce mask with
      | Ok mask' => (Ok result, mkXorNonce mask' (xaead f))
      | Err e => (Err e, f)
      | Panic p => (Panic p, f)
      end
  | Err e => (Err e, f)
  | Panic p => (Panic p, f)
  end.

(** [None] is the error of the AEAD. *)
Definition xor_Open (nonce ciphertext ad : bytes) : stM xorNonceAEAD (option bytes) := fun f =>
  match xorNonce nonce (nonceMask f) with
  | Ok mask =>
      let result := aead_Open (xaead f) mask ciphertext ad in
      match xorNonce nonce mask with
      | Ok mask' => (Ok result, mkXorNonce mask' (xaead f))
      | Err e => (Err e, f)
      | Panic p => (Panic p, f)
      end
  | Err e => (Err e, f)
  | Panic p => (Panic p, f)
  end.

(** [suite.AEAD(key, nonceMask)] *)
Definition suite_AEAD (suite : cipherSuite) (key mask : bytes) : res xorNonceAEAD :=
  if negb (blen mask =? aeadNonceLength) then Panic "tls: internal error: wrong nonce length"
  else Ok (mkXorNonce mask (newAEAD (csID suite) key)).

Definition hkdfLabelKeyV1 : string := "quic key".
Definition hkdfLabelKeyV2 : string := "quicv2 key".
Definition hkdfLabelIVV1 : string := "quic iv".
Definition hkdfLabelIVV2 : string := "quicv2 iv".

Definition createAEAD (suite : cipherSuite) (trafficSecret : bytes) (v : Z) : res xorNonceAEAD :=
  let keyLabel := if v =? Version2 then hkdfLabelKeyV2 else hkdfLabelKeyV1 in
  let ivLabel := if v =? Version2 then hkdfLabelIVV2 else hkdfLabelIVV1 in
  key ← hkdfExpandLabel (csHash suite) trafficSecret [] keyLabel (csKeyLen suite);
  iv ← hkdfExpandLabel (csHash suite) trafficSecret [] ivLabel aeadNonceLength;
  suite_AEAD suite key iv.

(** ** Header protection *)

Inductive headerProtector :=
  | aesHeaderProtector (hpKey : bytes) (isLongHeader : bool)
  | chachaHeaderProtector (key : bytes) (isLongHeader : bool).

Definition hkdfHeaderProtectionLabel (v : Z) : string := if v =? Version2 then "quicv2 hp" else "quic hp".

Definition newHeaderProtector (suite : cipherSuite) (trafficSecret : bytes) (isLongHeader : bool) (v : Z)
    : res headerProtector :=
  hpKey ← hkdfExpandLabel (csHash suite) trafficSecret [] (hkdfHeaderProtectionLabel v) (csKeyLen suite);
  if (csID suite =? TLS_AES_128_GCM_SHA256) || (csID suite =? TLS_AES_256_GCM_SHA384)
  then Ok (aesHeaderProtector hpKey isLongHeader)
  else if csID suite =? TLS_CHACHA20_POLY1305_SHA256 then Ok (chachaHeaderProtector hpKey isLongHeader)
  else Panic "Invalid cipher suite id: %d".

Definition hp_isLongHeader (p : headerProtector) : bool :=
  match p with aesHeaderProtector _ l | chachaHeaderProtector _ l => l end.

Definition littleEndianUint32 (b : bytes) : Z :=
  match b with
  | [b0; b1; b2; b3] => b0 + Z.shiftl b1 8 + Z.shiftl b2 16 + Z.shiftl b3 24
  | _ => 0
  end.

(** The mask that a sample gives. *)
Definition hp_mask (p : headerProtector) (sample : bytes) : bytes :=
  match p with
  | aesHeaderProtector key _ => aes_Encrypt key sample
  | chachaHeaderProtector key _ =>
      chacha20_XORKeyStream key (drop 4 sample) (littleEndianUint32 (take 4 sample)) (replicate 5 0)
  end.

(** The bytes are XORed with the mask from its second byte on. *)
Definition applyMask (isLongHeader : bool) (mask : bytes) (firstByte : Z) (hdrBytes : bytes) : res (Z * bytes) :=
  m0 ← byteAt mask 0;
  let firstByte := Z.lxor firstByte (Z.land m0 (if isLongHeader then 0xf else 0x1f)) in
  if blen mask <? 1 + blen hdrBytes then Panic "index out of range"
  else Ok (firstByte, zip_with Z.lxor hdrBytes (drop 1 mask)).

(** [EncryptHeader] and [DecryptHeader] are both [apply]. *)
Definition hp_apply (p : headerProtector) (sample : bytes) (firstByte : Z) (hdrBytes : bytes) : res (Z * bytes) :=
  if negb (blen sample =? 16) then Panic "invalid sample size"
  else applyMask (hp_isLongHeader p) (hp_mask p sample) firstByte hdrBytes.

(** ** Sealing and opening long header packets *)

Definition ErrDecryptionFailed : GoError := ErrorString "decryption failed".

(** [binary.BigEndian.PutUint64(nonceBuf[len(nonceBuf)-8:], uint64(pn))] *)
Definition putNonce (nonceBuf : bytes) (pn : Z) : res bytes :=
  if blen nonceBuf <? 8 then Panic "slice bounds out of range"
  else Ok (take (length nonceBuf - 8) nonceBuf ++ putUint64 (u64 pn)).

Record longHeaderSealer := mkSealer { lsAead : xorNonceAEAD; lsHeaderProtector : headerProtector; lsNonceBuf : bytes }.

Definition newLongHeaderSealer (aead : xorNonceAEAD) (p : headerProtector) : longHeaderSealer :=
  mkSealer aead p (replicate 8 0).

Definition ls_Seal (src : bytes) (pn : Z) (ad : bytes) : stM longHeaderSealer bytes :=
  s ← get;
  nonceBuf ← lift (putNonce (lsNonceBuf s) pn);
  let '(r, aead) := xor_Seal nonceBuf src ad (lsAead s) in
  _ ← modify (fun s => mkSealer aead (lsHeaderProtector s) nonceBuf);
  lift r.

Record longHeaderOpener := mkOpener {
  loAead : xorNonceAEAD; loHeaderProtector : headerProtector; loHighestRcvdPN : Z; loNonceBuf : bytes
}.

Definition newLongHeaderOpener (aead : xorNonceAEAD) (p : headerProtector) : longHeaderOpener :=
  mkOpener aead p 0 (replicate 8 0).

Definition lo_DecodePacketNumber (wirePN wirePNLen : Z) (o : longHeaderOpener) : Z :=
  DecodePacketNumber wirePNLen (loHighestRcvdPN o) wirePN.

Definition lo_Open (src : bytes) (pn : Z) (ad : bytes) : stM longHeaderOpener bytes :=
  o ← get;
  nonceBuf ← lift (putNonce (loNonceBuf o) pn);
  let '(r, aead) := xor_Open nonceBuf src ad (loAead o) in
  _ ← modify (fun o => mkOpener aead (loHeaderProtector o) (loHighestRcvdPN o) nonceBuf);
  dec ← lift r;
  match dec with
  | Some d =>
      _ ← modify (fun o => mkOpener (loAead o) (loHeaderProtector o) (Z.max (loHighestRcvdPN o) pn) (loNonceBuf o));
      mret d
  | None => throw ErrDecryptionFailed
  end.

(** ** The keys of Initial packets *)

Definition quicSaltV1 : bytes :=
  [0x38; 0x76; 0x2c; 0xf7; 0xf5; 0x59; 0x34; 0xb3; 0x4d; 0x17; 0x9a; 0xe6; 0xa4; 0xc8; 0x0c; 0xad; 0xcc; 0xbb; 0x7f; 0x0a].
Definition quicSaltV2 : bytes :=
  [0x0d; 0xed; 0xe3; 0xde; 0xf7; 0x00; 0xa6; 0xdb; 0x81; 0x93; 0x81; 0xbe; 0x6e; 0x26; 0x9d; 0xcb; 0xf9; 0xbd; 0x2e; 0xd9].
Definition getSalt (v : Z) : bytes := if v =? Version2 then quicSaltV2 else quicSaltV1.

Definition initialSuite : cipherSuite := mkSuite TLS_AES_128_GCM_SHA256 SHA256 16.

Definition computeSecrets (connID : bytes) (v : Z) : res (bytes * bytes) :=
  let initialSecret := hkdf_Extract SHA256 connID (getSalt v) in
  clientSecret ← hkdfExpandLabel SHA256 initialSecret [] "client in" (hash_Size SHA256);
  serverSecret ← hkdfExpandLabel SHA256 initialSecret [] "server in" (hash_Size SHA256);
  Ok (clientSecret, serverSecret).

Definition computeInitialKeyAndIV (secret : bytes) (v : Z) : res (bytes * bytes) :=
  let keyLabel := if v =? Version2 then hkdfLabelKeyV2 else hkdfLabelKeyV1 in
  let ivLabel := if v =? Version2 then hkdfLabelIVV2 else hkdfLabelIVV1 in
  key ← hkdfExpandLabel SHA256 secret [] keyLabel 16;
  iv ← hkdfExpandLabel SHA256 secret [] ivLabel 12;
  Ok (key, iv).

Definition NewInitialAEAD (connID : bytes) (pers : Perspective) (v : Z) : res (longHeaderSealer * longHeaderOpener) :=
  '(clientSecret, serverSecret) ← computeSecrets connID v;
  let '(mySecret, otherSecret) :=
    if decide (pers = PerspectiveClient) then (clientSecret, serverSecret) else (serverSecret, clientSecret) in
  '(myKey, myIV) ← computeInitialKeyAndIV mySecret v;
  '(otherKey, otherIV) ← computeInitialKeyAndIV otherSecret v;
  encrypter ← suite_AEAD initialSuite myKey myIV;
  decrypter ← suite_AEAD initialSuite otherKey otherIV;
  sp ← newHeaderProtector initialSuite mySecret true v;
  op ← newHeaderProtector initialSuite otherSecret true v;
  Ok (newLongHeaderSealer encrypter sp, newLongHeaderOpener decrypter op).
End model.
Arguments xorNonceAEAD : clear implicits.
Arguments longHeaderSealer : clear implicits.
Arguments longHeaderOpener : clear implicits.
