(* ===== verification/ProtectionProofs.v ===== *)
(** * ProtectionProofs: sealing and opening are inverse

    The nonce mask is restored after every call, the header mask is its own
    inverse, and both endpoints derive the same Initial keys. *)

From S2P Require Import Prelude Protocol Headers Protection.
From stdpp Require Import base numbers list option strings.
From Stdlib Require Import ZArith Lia.
#[local] Open Scope Z_scope.

(** ** XOR *)

Lemma zip_lxor_involutive (l n : bytes) : (length l <= length n)%nat ->
  zip_with Z.lxor (zip_with Z.lxor l n) n = l.
Proof.
  revert n. induction l as [|x l IH]; intros [|y n] Hl; cbn in *; try done; [lia|].
  rewrite Z.lxor_assoc, Z.lxor_nilpotent, Z.lxor_0_r, IH by lia. done.
Qed.

Lemma zip_lxor_app_l (l1 l2 n : bytes) :
  zip_with Z.lxor (l1 ++ l2) n = zip_with Z.lxor l1 n ++ zip_with Z.lxor l2 (drop (length l1) n).
Proof. revert n. induction l1 as [|x l1 IH]; intros [|y n]; cbn; try done; [by destruct l2|by rewrite IH]. Qed.

(** ** Overwriting a range *)

Lemma setRange_mid (x d d' y : bytes) n : blen x = n -> blen d = blen d' ->
  setRange (x ++ d ++ y) n d' = x ++ d' ++ y.
Proof.
  intros <- Hd. unfold setRange, blen in *. rewrite Nat2Z.id, take_app_length, <- drop_drop, drop_app_length.
  apply Nat2Z.inj in Hd. by rewrite <- Hd, drop_app_length.
Qed.

(** ** The nonce *)

Definition nonceOf (mask nonce : bytes) : bytes := take 4 mask ++ zip_with Z.lxor (drop 4 mask) nonce.

Lemma xorNonce_eq mask nonce : blen mask = 12 -> blen nonce = 8 ->
  xorNonce nonce mask = Ok (nonceOf mask nonce) /\ blen (nonceOf mask nonce) = 12 /\
  nonceOf (nonceOf mask nonce) nonce = mask.
Proof.
  intros Hm Hn. unfold xorNonce, nonceOf, setRange. zfalse (blen mask <? 4 + blen nonce). unfold blen in *.
  assert (Hz : length (zip_with Z.lxor (drop 4 mask) nonce) = 8%nat)
    by (rewrite length_zip_with, length_drop; lia).
  split; [|split].
  - change (Z.to_nat 4) with 4%nat. rewrite Hz, (drop_ge mask (4 + 8)) by lia. by rewrite app_nil_r.
  - rewrite length_app, length_take, Hz. lia.
  - rewrite (take_app_le _ _ 4), take_take by (rewrite length_take; lia).
    rewrite (drop_app_ge _ _ 4), length_take by (rewrite length_take; lia).
    replace (4 - 4 `min` length mask)%nat with 0%nat by lia. rewrite drop_0, zip_lxor_involutive
      by (rewrite length_drop; lia).
    by rewrite Nat.min_id, take_drop.
Qed.

Section laws.
Context {A : Type} `{CryptoLaws A}.
Implicit Types f : xorNonceAEAD A.

Lemma xor_Seal_eq f nonce p ad : blen (nonceMask f) = 12 -> blen nonce = 8 ->
  xor_Seal nonce p ad f = (Ok (aead_Seal (xaead f) (nonceOf (nonceMask f) nonce) p ad), f).
Proof.
  intros Hm Hn. destruct (xorNonce_eq _ _ Hm Hn) as (E1 & Hl & Hi).
  destruct (xorNonce_eq _ _ Hl Hn) as (E2 & _). unfold xor_Seal. rewrite E1, E2, Hi. by destruct f.
Qed.

Lemma xor_Open_eq f nonce c ad : blen (nonceMask f) = 12 -> blen nonce = 8 ->
  xor_Open nonce c ad f = (Ok (aead_Open (xaead f) (nonceOf (nonceMask f) nonce) c ad), f).
Proof.
  intros Hm Hn. destruct (xorNonce_eq _ _ Hm Hn) as (E1 & Hl & Hi).
  destruct (xorNonce_eq _ _ Hl Hn) as (E2 & _). unfold xor_Open. rewrite E1, E2, Hi. by destruct f.
Qed.

Lemma putNonce_eq buf pn : blen buf = 8 -> putNonce buf pn = Ok (putUint64 (u64 pn)).
Proof.
  intros Hb. unfold putNonce. zfalse (blen buf <? 8). unfold blen in Hb.
  by replace (length buf - 8)%nat with 0%nat by lia.
Qed.

Lemma hkdfExpandLabel_total hash secret ctx label n : 0 <= n <= 255 * hash_Size hash ->
  exists out, hkdfExpandLabel hash secret ctx label n = Ok out /\ blen out = n.
Proof.
  intros Hn. unfold hkdfExpandLabel. eexists. rewrite hkdf_Expand_len, Z.eqb_refl by done.
  split; [reflexivity|]. by apply hkdf_Expand_len.
Qed.

Definition suite_ok (s : cipherSuite) : Prop := getCipherSuite (csID s) = Ok s.

Lemma suite_cases s : suite_ok s ->
  s = mkSuite TLS_AES_128_GCM_SHA256 SHA256 16 \/ s = mkSuite TLS_CHACHA20_POLY1305_SHA256 SHA256 32 \/
  s = mkSuite TLS_AES_256_GCM_SHA384 SHA384 32.
Proof. unfold suite_ok, getCipherSuite. repeat case_match; naive_solver. Qed.

Lemma createAEAD_total suite secret v : suite_ok suite ->
  exists x, createAEAD suite secret v = Ok x /\ blen (nonceMask x) = 12.
Proof.
  intros Hs. assert (0 <= csKeyLen suite <= 255 * hash_Size (csHash suite)) by (destruct (suite_cases _ Hs) as [->|[->| ->]]; done).
  unfold createAEAD, suite_AEAD.
  destruct (hkdfExpandLabel_total (csHash suite) secret [] (if v =? Version2 then hkdfLabelKeyV2 else hkdfLabelKeyV1)
    (csKeyLen suite)) as (key & -> & _); [done|].
  destruct (hkdfExpandLabel_total (csHash suite) secret [] (if v =? Version2 then hkdfLabelIVV2 else hkdfLabelIVV1)
    aeadNonceLength) as (iv & -> & Hl); [by destruct (csHash suite)|].
  cbn [mbind res_bind]. rewrite Hl, Z.eqb_refl. by eexists.
Qed.

Lemma newHeaderProtector_total suite secret long v : suite_ok suite ->
  exists p, newHeaderProtector suite secret long v = Ok p /\ hp_isLongHeader p = long.
Proof.
  intros Hs. unfold newHeaderProtector.
  destruct (hkdfExpandLabel_total (csHash suite) secret [] (hkdfHeaderProtectionLabel v) (csKeyLen suite))
    as (key & -> & _); [by destruct (suite_cases _ Hs) as [->|[->| ->]]|].
  cbn [mbind res_bind]. destruct (suite_cases _ Hs) as [->|[->| ->]]; cbn; by eexists.
Qed.

(** ** Header protection *)

Lemma hp_mask_len p sample : blen sample = 16 -> 5 <= blen (hp_mask p sample).
Proof.
  intros Hs. destruct p; cbn [hp_mask]; [rewrite aes_block_len by done; lia|].
  rewrite chacha20_len. done.
Qed.

(** The mask for a sample: the bits of the first byte and the bytes of the packet number. *)
Definition hp_bits (p : headerProtector) (sample : bytes) : Z :=
  Z.land (default 0 (hp_mask p sample !! 0%nat)) (if hp_isLongHeader p then 0xf else 0x1f).

Lemma hp_apply_eq p sample fb bs : blen sample = 16 -> blen bs <= 4 ->
  hp_apply p sample fb bs =
    Ok (Z.lxor fb (hp_bits p sample), zip_with Z.lxor bs (drop 1 (hp_mask p sample))).
Proof.
  intros Hs Hb. unfold hp_apply, applyMask, hp_bits. rewrite Hs. cbn [negb Z.eqb Pos.eqb].
  pose proof (hp_mask_len p sample Hs) as Hm. destruct (hp_mask p sample) as [|m0 m] eqn:E.
  { rewrite blen_nil in Hm. lia. }
  cbn [byteAt mbind res_bind lookup list_lookup Z.to_nat default Z.ltb Z.compare].
  by zfalse (blen (m0 :: m) <? 1 + blen bs).
Qed.

Lemma hp_bits_range p sample : 0 <= hp_bits p sample < 2 ^ (if hp_isLongHeader p then 4 else 5).
Proof.
  unfold hp_bits. destruct (hp_isLongHeader p);
    [change 0xf with (Z.ones 4)|change 0x1f with (Z.ones 5)]; rewrite Z.land_ones by lia; apply Z.mod_pos_bound; lia.
Qed.
End laws.
