(* ===== verification/KeyUpdate.v ===== *)
(** * KeyUpdate: the AEAD of 1-RTT packets

    Models internal/handshake/updatable_aead.go.  The RTT statistics, which the
    code shares with the loss detection, are an argument of [Open]; tracing is
    left out. *)

From S2P Require Import Prelude Protocol RTTStats Headers Protection.
From stdpp Require Import base numbers list option strings.
From Stdlib Require Import ZArith Lia.
#[local] Open Scope Z_scope.

Definition KeyUpdateInterval : Z := 100 * 1000.
Definition FirstKeyUpdateInterval : Z := 100.
Definition InvalidPacketLimitAES : Z := Z.shiftl 1 52.
Definition InvalidPacketLimitChaCha : Z := Z.shiftl 1 36.

(** [KeyPhase.Bit] *)
Definition KeyPhase_Bit (p : Z) : KeyPhaseBit := if p mod 2 =? 0 then KeyPhaseZero else KeyPhaseOne.

Definition ErrKeysDropped : GoError := ErrorString "CryptoSetup: keys were already dropped".
Definition errAEADLimitReached : GoError := TransportError 0xf 0 "".
Definition errUpdatedTooQuickly : GoError := TransportError 0xe 0 "keys updated too quickly".
Definition errPeerDidNotUpdate : GoError :=
  TransportError 0xe 0 "received ACK for key phase %d, but peer didn't update keys".

Record updatableAEAD (A : Type) := mkUpdatable {
  uSuite : option cipherSuite;
  uKeyPhase : Z;
  uLargestAcked : Z;
  uFirstPacketNumber : Z;
  uHandshakeConfirmed : bool;
  uInvalidPacketLimit : Z;
  uInvalidPacketCount : Z;
  uPrevRcvAEADExpiry : Z;
  uPrevRcvAEAD : option (xorNonceAEAD A);
  uFirstRcvdWithCurrentKey : Z;
  uFirstSentWithCurrentKey : Z;
  uHighestRcvdPN : Z;
  uNumRcvdWithCurrentKey : Z;
  uNumSentWithCurrentKey : Z;
  uRcvAEAD : option (xorNonceAEAD A);
  uSendAEAD : option (xorNonceAEAD A);
  uAeadOverhead : Z;
  uNextRcvAEAD : option (xorNonceAEAD A);
  uNextSendAEAD : option (xorNonceAEAD A);
  uNextRcvTrafficSecret : bytes;
  uNextSendTrafficSecret : bytes;
  uHeaderDecrypter : option headerProtector;
  uHeaderEncrypter : option headerProtector;
  uVersion : Z;
  uNonceBuf : bytes
}.
Arguments mkUpdatable {A}.
Arguments uSuite {A}.
Arguments uKeyPhase {A}.
Arguments uLargestAcked {A}.
Arguments uFirstPacketNumber {A}.
Arguments uHandshakeConfirmed {A}.
Arguments uInvalidPacketLimit {A}.
Arguments uInvalidPacketCount {A}.
Arguments uPrevRcvAEADExpiry {A}.
Arguments uPrevRcvAEAD {A}.
Arguments uFirstRcvdWithCurrentKey {A}.
Arguments uFirstSentWithCurrentKey {A}.
Arguments uHighestRcvdPN {A}.
Arguments uNumRcvdWithCurrentKey {A}.
Arguments uNumSentWithCurrentKey {A}.
Arguments uRcvAEAD {A}.
Arguments uSendAEAD {A}.
Arguments uAeadOverhead {A}.
Arguments uNextRcvAEAD {A}.
Arguments uNextSendAEAD {A}.
Arguments uNextRcvTrafficSecret {A}.
Arguments uNextSendTrafficSecret {A}.
Arguments uHeaderDecrypter {A}.
Arguments uHeaderEncrypter {A}.
Arguments uVersion {A}.
Arguments uNonceBuf {A}.

Section model.
Context {A : Type} `{Crypto A}.
Implicit Types a : updatableAEAD A.

Definition ua_rolled  a : updatableAEAD A :=
  mkUpdatable (uSuite a) (u64 (uKeyPhase a + 1)) (uLargestAcked a) (uFirstPacketNumber a) (uHandshakeConfirmed
    a) (uInvalidPacketLimit a) (uInvalidPacketCount a) (uPrevRcvAEADExpiry a) (uRcvAEAD a) InvalidPacketNumber
    InvalidPacketNumber (uHighestRcvdPN a) 0 0 (uNextRcvAEAD a) (uNextSendAEAD a) (uAeadOverhead a)
    (uNextRcvAEAD a) (uNextSendAEAD a) (uNextRcvTrafficSecret a) (uNextSendTrafficSecret a) (uHeaderDecrypter
    a) (uHeaderEncrypter a) (uVersion a) (uNonceBuf a).
Definition ua_nextRcv ts aead a : updatableAEAD A :=
  mkUpdatable (uSuite a) (uKeyPhase a) (uLargestAcked a) (uFirstPacketNumber a) (uHandshakeConfirmed a)
    (uInvalidPacketLimit a) (uInvalidPacketCount a) (uPrevRcvAEADExpiry a) (uPrevRcvAEAD a)
    (uFirstRcvdWithCurrentKey a) (uFirstSentWithCurrentKey a) (uHighestRcvdPN a) (uNumRcvdWithCurrentKey a)
    (uNumSentWithCurrentKey a) (uRcvAEAD a) (uSendAEAD a) (uAeadOverhead a) aead (uNextSendAEAD a) ts
    (uNextSendTrafficSecret a) (uHeaderDecrypter a) (uHeaderEncrypter a) (uVersion a) (uNonceBuf a).
Definition ua_nextSend ts aead a : updatableAEAD A :=
  mkUpdatable (uSuite a) (uKeyPhase a) (uLargestAcked a) (uFirstPacketNumber a) (uHandshakeConfirmed a)
    (uInvalidPacketLimit a) (uInvalidPacketCount a) (uPrevRcvAEADExpiry a) (uPrevRcvAEAD a)
    (uFirstRcvdWithCurrentKey a) (uFirstSentWithCurrentKey a) (uHighestRcvdPN a) (uNumRcvdWithCurrentKey a)
    (uNumSentWithCurrentKey a) (uRcvAEAD a) (uSendAEAD a) (uAeadOverhead a) (uNextRcvAEAD a) aead
    (uNextRcvTrafficSecret a) ts (uHeaderDecrypter a) (uHeaderEncrypter a) (uVersion a) (uNonceBuf a).
Definition ua_expiry t a : updatableAEAD A :=
  mkUpdatable (uSuite a) (uKeyPhase a) (uLargestAcked a) (uFirstPacketNumber a) (uHandshakeConfirmed a)
    (uInvalidPacketLimit a) (uInvalidPacketCount a) t (uPrevRcvAEAD a) (uFirstRcvdWithCurrentKey a)
    (uFirstSentWithCurrentKey a) (uHighestRcvdPN a) (uNumRcvdWithCurrentKey a) (uNumSentWithCurrentKey a)
    (uRcvAEAD a) (uSendAEAD a) (uAeadOverhead a) (uNextRcvAEAD a) (uNextSendAEAD a) (uNextRcvTrafficSecret a)
    (uNextSendTrafficSecret a) (uHeaderDecrypter a) (uHeaderEncrypter a) (uVersion a) (uNonceBuf a).
Definition ua_prevRcv x a : updatableAEAD A :=
  mkUpdatable (uSuite a) (uKeyPhase a) (uLargestAcked a) (uFirstPacketNumber a) (uHandshakeConfirmed a)
    (uInvalidPacketLimit a) (uInvalidPacketCount a) (uPrevRcvAEADExpiry a) x (uFirstRcvdWithCurrentKey a)
    (uFirstSentWithCurrentKey a) (uHighestRcvdPN a) (uNumRcvdWithCurrentKey a) (uNumSentWithCurrentKey a)
    (uRcvAEAD a) (uSendAEAD a) (uAeadOverhead a) (uNextRcvAEAD a) (uNextSendAEAD a) (uNextRcvTrafficSecret a)
    (uNextSendTrafficSecret a) (uHeaderDecrypter a) (uHeaderEncrypter a) (uVersion a) (uNonceBuf a).
Definition ua_rcv x a : updatableAEAD A :=
  mkUpdatable (uSuite a) (uKeyPhase a) (uLargestAcked a) (uFirstPacketNumber a) (uHandshakeConfirmed a)
    (uInvalidPacketLimit a) (uInvalidPacketCount a) (uPrevRcvAEADExpiry a) (uPrevRcvAEAD a)
    (uFirstRcvdWithCurrentKey a) (uFirstSentWithCurrentKey a) (uHighestRcvdPN a) (uNumRcvdWithCurrentKey a)
    (uNumSentWithCurrentKey a) x (uSendAEAD a) (uAeadOverhead a) (uNextRcvAEAD a) (uNextSendAEAD a)
    (uNextRcvTrafficSecret a) (uNextSendTrafficSecret a) (uHeaderDecrypter a) (uHeaderEncrypter a) (uVersion
    a) (uNonceBuf a).
Definition ua_send x a : updatableAEAD A :=
  mkUpdatable (uSuite a) (uKeyPhase a) (uLargestAcked a) (uFirstPacketNumber a) (uHandshakeConfirmed a)
    (uInvalidPacketLimit a) (uInvalidPacketCount a) (uPrevRcvAEADExpiry a) (uPrevRcvAEAD a)
    (uFirstRcvdWithCurrentKey a) (uFirstSentWithCurrentKey a) (uHighestRcvdPN a) (uNumRcvdWithCurrentKey a)
    (uNumSentWithCurrentKey a) (uRcvAEAD a) x (uAeadOverhead a) (uNextRcvAEAD a) (uNextSendAEAD a)
    (uNextRcvTrafficSecret a) (uNextSendTrafficSecret a) (uHeaderDecrypter a) (uHeaderEncrypter a) (uVersion
    a) (uNonceBuf a).
Definition ua_nextRcvAEAD x a : updatableAEAD A :=
  mkUpdatable (uSuite a) (uKeyPhase a) (uLargestAcked a) (uFirstPacketNumber a) (uHandshakeConfirmed a)
    (uInvalidPacketLimit a) (uInvalidPacketCount a) (uPrevRcvAEADExpiry a) (uPrevRcvAEAD a)
    (uFirstRcvdWithCurrentKey a) (uFirstSentWithCurrentKey a) (uHighestRcvdPN a) (uNumRcvdWithCurrentKey a)
    (uNumSentWithCurrentKey a) (uRcvAEAD a) (uSendAEAD a) (uAeadOverhead a) x (uNextSendAEAD a)
    (uNextRcvTrafficSecret a) (uNextSendTrafficSecret a) (uHeaderDecrypter a) (uHeaderEncrypter a) (uVersion
    a) (uNonceBuf a).
Definition ua_nonce n a : updatableAEAD A :=
  mkUpdatable (uSuite a) (uKeyPhase a) (uLargestAcked a) (uFirstPacketNumber a) (uHandshakeConfirmed a)
    (uInvalidPacketLimit a) (uInvalidPacketCount a) (uPrevRcvAEADExpiry a) (uPrevRcvAEAD a)
    (uFirstRcvdWithCurrentKey a) (uFirstSentWithCurrentKey a) (uHighestRcvdPN a) (uNumRcvdWithCurrentKey a)
    (uNumSentWithCurrentKey a) (uRcvAEAD a) (uSendAEAD a) (uAeadOverhead a) (uNextRcvAEAD a) (uNextSendAEAD a)
    (uNextRcvTrafficSecret a) (uNextSendTrafficSecret a) (uHeaderDecrypter a) (uHeaderEncrypter a) (uVersion
    a) n.
Definition ua_params n o s l a : updatableAEAD A :=
  mkUpdatable (Some s) (uKeyPhase a) (uLargestAcked a) (uFirstPacketNumber a) (uHandshakeConfirmed a) l
    (uInvalidPacketCount a) (uPrevRcvAEADExpiry a) (uPrevRcvAEAD a) (uFirstRcvdWithCurrentKey a)
    (uFirstSentWithCurrentKey a) (uHighestRcvdPN a) (uNumRcvdWithCurrentKey a) (uNumSentWithCurrentKey a)
    (uRcvAEAD a) (uSendAEAD a) o (uNextRcvAEAD a) (uNextSendAEAD a) (uNextRcvTrafficSecret a)
    (uNextSendTrafficSecret a) (uHeaderDecrypter a) (uHeaderEncrypter a) (uVersion a) n.
Definition ua_invalid n a : updatableAEAD A :=
  mkUpdatable (uSuite a) (uKeyPhase a) (uLargestAcked a) (uFirstPacketNumber a) (uHandshakeConfirmed a)
    (uInvalidPacketLimit a) n (uPrevRcvAEADExpiry a) (uPrevRcvAEAD a) (uFirstRcvdWithCurrentKey a)
    (uFirstSentWithCurrentKey a) (uHighestRcvdPN a) (uNumRcvdWithCurrentKey a) (uNumSentWithCurrentKey a)
    (uRcvAEAD a) (uSendAEAD a) (uAeadOverhead a) (uNextRcvAEAD a) (uNextSendAEAD a) (uNextRcvTrafficSecret a)
    (uNextSendTrafficSecret a) (uHeaderDecrypter a) (uHeaderEncrypter a) (uVersion a) (uNonceBuf a).
Definition ua_highest n a : updatableAEAD A :=
  mkUpdatable (uSuite a) (uKeyPhase a) (uLargestAcked a) (uFirstPacketNumber a) (uHandshakeConfirmed a)
    (uInvalidPacketLimit a) (uInvalidPacketCount a) (uPrevRcvAEADExpiry a) (uPrevRcvAEAD a)
    (uFirstRcvdWithCurrentKey a) (uFirstSentWithCurrentKey a) n (uNumRcvdWithCurrentKey a)
    (uNumSentWithCurrentKey a) (uRcvAEAD a) (uSendAEAD a) (uAeadOverhead a) (uNextRcvAEAD a) (uNextSendAEAD a)
    (uNextRcvTrafficSecret a) (uNextSendTrafficSecret a) (uHeaderDecrypter a) (uHeaderEncrypter a) (uVersion
    a) (uNonceBuf a).
Definition ua_received first num a : updatableAEAD A :=
  mkUpdatable (uSuite a) (uKeyPhase a) (uLargestAcked a) (uFirstPacketNumber a) (uHandshakeConfirmed a)
    (uInvalidPacketLimit a) (uInvalidPacketCount a) (uPrevRcvAEADExpiry a) (uPrevRcvAEAD a) first
    (uFirstSentWithCurrentKey a) (uHighestRcvdPN a) num (uNumSentWithCurrentKey a) (uRcvAEAD a) (uSendAEAD a)
    (uAeadOverhead a) (uNextRcvAEAD a) (uNextSendAEAD a) (uNextRcvTrafficSecret a) (uNextSendTrafficSecret a)
    (uHeaderDecrypter a) (uHeaderEncrypter a) (uVersion a) (uNonceBuf a).
Definition ua_sent first firstPN num a : updatableAEAD A :=
  mkUpdatable (uSuite a) (uKeyPhase a) (uLargestAcked a) firstPN (uHandshakeConfirmed a) (uInvalidPacketLimit
    a) (uInvalidPacketCount a) (uPrevRcvAEADExpiry a) (uPrevRcvAEAD a) (uFirstRcvdWithCurrentKey a) first
    (uHighestRcvdPN a) (uNumRcvdWithCurrentKey a) num (uRcvAEAD a) (uSendAEAD a) (uAeadOverhead a)
    (uNextRcvAEAD a) (uNextSendAEAD a) (uNextRcvTrafficSecret a) (uNextSendTrafficSecret a) (uHeaderDecrypter
    a) (uHeaderEncrypter a) (uVersion a) (uNonceBuf a).
Definition ua_largestAcked n a : updatableAEAD A :=
  mkUpdatable (uSuite a) (uKeyPhase a) n (uFirstPacketNumber a) (uHandshakeConfirmed a) (uInvalidPacketLimit
    a) (uInvalidPacketCount a) (uPrevRcvAEADExpiry a) (uPrevRcvAEAD a) (uFirstRcvdWithCurrentKey a)
    (uFirstSentWithCurrentKey a) (uHighestRcvdPN a) (uNumRcvdWithCurrentKey a) (uNumSentWithCurrentKey a)
    (uRcvAEAD a) (uSendAEAD a) (uAeadOverhead a) (uNextRcvAEAD a) (uNextSendAEAD a) (uNextRcvTrafficSecret a)
    (uNextSendTrafficSecret a) (uHeaderDecrypter a) (uHeaderEncrypter a) (uVersion a) (uNonceBuf a).
Definition ua_confirmed  a : updatableAEAD A :=
  mkUpdatable (uSuite a) (uKeyPhase a) (uLargestAcked a) (uFirstPacketNumber a) true (uInvalidPacketLimit a)
    (uInvalidPacketCount a) (uPrevRcvAEADExpiry a) (uPrevRcvAEAD a) (uFirstRcvdWithCurrentKey a)
    (uFirstSentWithCurrentKey a) (uHighestRcvdPN a) (uNumRcvdWithCurrentKey a) (uNumSentWithCurrentKey a)
    (uRcvAEAD a) (uSendAEAD a) (uAeadOverhead a) (uNextRcvAEAD a) (uNextSendAEAD a) (uNextRcvTrafficSecret a)
    (uNextSendTrafficSecret a) (uHeaderDecrypter a) (uHeaderEncrypter a) (uVersion a) (uNonceBuf a).
Definition ua_hpDec p a : updatableAEAD A :=
  mkUpdatable (uSuite a) (uKeyPhase a) (uLargestAcked a) (uFirstPacketNumber a) (uHandshakeConfirmed a)
    (uInvalidPacketLimit a) (uInvalidPacketCount a) (uPrevRcvAEADExpiry a) (uPrevRcvAEAD a)
    (uFirstRcvdWithCurrentKey a) (uFirstSentWithCurrentKey a) (uHighestRcvdPN a) (uNumRcvdWithCurrentKey a)
    (uNumSentWithCurrentKey a) (uRcvAEAD a) (uSendAEAD a) (uAeadOverhead a) (uNextRcvAEAD a) (uNextSendAEAD a)
    (uNextRcvTrafficSecret a) (uNextSendTrafficSecret a) p (uHeaderEncrypter a) (uVersion a) (uNonceBuf a).
Definition ua_hpEnc p a : updatableAEAD A :=
  mkUpdatable (uSuite a) (uKeyPhase a) (uLargestAcked a) (uFirstPacketNumber a) (uHandshakeConfirmed a)
    (uInvalidPacketLimit a) (uInvalidPacketCount a) (uPrevRcvAEADExpiry a) (uPrevRcvAEAD a)
    (uFirstRcvdWithCurrentKey a) (uFirstSentWithCurrentKey a) (uHighestRcvdPN a) (uNumRcvdWithCurrentKey a)
    (uNumSentWithCurrentKey a) (uRcvAEAD a) (uSendAEAD a) (uAeadOverhead a) (uNextRcvAEAD a) (uNextSendAEAD a)
    (uNextRcvTrafficSecret a) (uNextSendTrafficSecret a) (uHeaderDecrypter a) p (uVersion a) (uNonceBuf a).

Definition newUpdatableAEAD (version : Z) : updatableAEAD A :=
  mkUpdatable None 0 InvalidPacketNumber InvalidPacketNumber false 0 0 zeroTime None InvalidPacketNumber InvalidPacketNumber 0 0 0 None None 0 None None [] [] None None version [].

Abbreviation uaM := (stM (updatableAEAD A)).

Definition nilDeref {T} (o : option T) : res T := from_option Ok (Panic "nil pointer dereference") o.

Definition getNextTrafficSecret (hash : Hash) (ts : bytes) : res bytes :=
  hkdfExpandLabel hash ts [] "quic ku" (hash_Size hash).

Definition rollKeys : uaM unit :=
  a ← get;
  _ ← (if bool_decide (is_Some (uPrevRcvAEAD a)) then modify (ua_expiry zeroTime) else mret tt);
  _ ← modify ua_rolled;
  suite ← lift (nilDeref (uSuite a));
  rs ← lift (getNextTrafficSecret (csHash suite) (uNextRcvTrafficSecret a));
  ss ← lift (getNextTrafficSecret (csHash suite) (uNextSendTrafficSecret a));
  ra ← lift (createAEAD suite rs (uVersion a));
  sa ← lift (createAEAD suite ss (uVersion a));
  _ ← modify (ua_nextRcv rs (Some ra));
  modify (ua_nextSend ss (Some sa)).

Definition startKeyDropTimer (rtt : RTTStats) (now : Z) : uaM unit :=
  modify (ua_expiry (Time_Add now (i64 (3 * PTO rtt true)))).

Definition setAEADParameters (aead : xorNonceAEAD A) (suite : cipherSuite) : uaM unit :=
  limit ← lift (if (csID suite =? TLS_AES_128_GCM_SHA256) || (csID suite =? TLS_AES_256_GCM_SHA384)
                then Ok InvalidPacketLimitAES
                else if csID suite =? TLS_CHACHA20_POLY1305_SHA256 then Ok InvalidPacketLimitChaCha
                else Panic "unknown cipher suite %d");
  modify (ua_params (replicate 8 0) (aead_Overhead (xaead aead)) suite limit).

Definition SetReadKey (suite : cipherSuite) (trafficSecret : bytes) : uaM unit :=
  a ← get;
  aead ← lift (createAEAD suite trafficSecret (uVersion a));
  _ ← modify (ua_rcv (Some aead));
  hp ← lift (newHeaderProtector suite trafficSecret false (uVersion a));
  _ ← modify (ua_hpDec (Some hp));
  _ ← (if bool_decide (uSuite a = None) then setAEADParameters aead suite else mret tt);
  ts ← lift (getNextTrafficSecret (csHash suite) trafficSecret);
  next ← lift (createAEAD suite ts (uVersion a));
  modify (ua_nextRcv ts (Some next)).

Definition SetWriteKey (suite : cipherSuite) (trafficSecret : bytes) : uaM unit :=
  a ← get;
  aead ← lift (createAEAD suite trafficSecret (uVersion a));
  _ ← modify (ua_send (Some aead));
  hp ← lift (newHeaderProtector suite trafficSecret false (uVersion a));
  _ ← modify (ua_hpEnc (Some hp));
  _ ← (if bool_decide (uSuite a = None) then setAEADParameters aead suite else mret tt);
  ts ← lift (getNextTrafficSecret (csHash suite) trafficSecret);
  next ← lift (createAEAD suite ts (uVersion a));
  modify (ua_nextSend ts (Some next)).

Definition ua_DecodePacketNumber (wirePN wirePNLen : Z) a : Z := DecodePacketNumber wirePNLen (uHighestRcvdPN a) wirePN.

(** Call a method of one of the AEADs of the object. *)
Definition withAEAD {T} (f : updatableAEAD A -> option (xorNonceAEAD A))
    (set : option (xorNonceAEAD A) -> updatableAEAD A -> updatableAEAD A) (m : stM (xorNonceAEAD A) T) : uaM T :=
  a ← get;
  x ← lift (nilDeref (f a));
  let '(r, x') := m x in
  _ ← modify (set (Some x'));
  lift r.

Definition open (rtt : RTTStats) (src : bytes) (rcvTime pn : Z) (kp : KeyPhaseBit) (ad : bytes) : uaM bytes :=
  a ← get;
  _ ← (if bool_decide (is_Some (uPrevRcvAEAD a)) && negb (Time_IsZero (uPrevRcvAEADExpiry a))
          && Time_After rcvTime (uPrevRcvAEADExpiry a)
       then modify (fun a => ua_expiry zeroTime (ua_prevRcv None a)) else mret tt);
  a ← get;
  nonce ← lift (putNonce (uNonceBuf a) pn);
  _ ← modify (ua_nonce nonce);
  if negb (bool_decide (kp = KeyPhase_Bit (uKeyPhase a))) then
    if ((0 <? uKeyPhase a) && (uFirstRcvdWithCurrentKey a =? InvalidPacketNumber)) || (pn <? uFirstRcvdWithCurrentKey a) then
      if bool_decide (uPrevRcvAEAD a = None) then throw ErrKeysDropped
      else
        dec ← withAEAD uPrevRcvAEAD ua_prevRcv (xor_Open nonce src ad);
        from_option mret (throw ErrDecryptionFailed) dec
    else
      dec ← withAEAD uNextRcvAEAD ua_nextRcvAEAD (xor_Open nonce src ad);
      match dec with
      | None => throw ErrDecryptionFailed
      | Some d =>
          if (0 <? uKeyPhase a) && (uFirstSentWithCurrentKey a =? InvalidPacketNumber) then throw errUpdatedTooQuickly
          else
            _ ← rollKeys;
            _ ← startKeyDropTimer rtt rcvTime;
            _ ← modify (fun a => ua_received pn (uNumRcvdWithCurrentKey a) a);
            mret d
      end
  else
    dec ← withAEAD uRcvAEAD ua_rcv (xor_Open nonce src ad);
    match dec with
    | None => throw ErrDecryptionFailed
    | Some d =>
        _ ← modify (fun a => ua_received (uFirstRcvdWithCurrentKey a) (u64 (uNumRcvdWithCurrentKey a + 1)) a);
        _ ← (if uFirstRcvdWithCurrentKey a =? InvalidPacketNumber then
               _ ← (if 0 <? uKeyPhase a then startKeyDropTimer rtt rcvTime else mret tt);
               modify (fun a => ua_received pn (uNumRcvdWithCurrentKey a) a)
             else mret tt);
        mret d
    end.

Definition ua_Open (rtt : RTTStats) (src : bytes) (rcvTime pn : Z) (kp : KeyPhaseBit) (ad : bytes) : uaM bytes := fun a =>
  match open rtt src rcvTime pn kp ad a with
  | (Ok dec, a') => (Ok dec, ua_highest (Z.max (uHighestRcvdPN a') pn) a')
  | (Err e, a') =>
      if bool_decide (e = ErrDecryptionFailed) then
        let a' := ua_invalid (u64 (uInvalidPacketCount a' + 1)) a' in
        if uInvalidPacketLimit a' <=? uInvalidPacketCount a' then (Err errAEADLimitReached, a') else (Err e, a')
      else (Err e, a')
  | (Panic p, a') => (Panic p, a')
  end.

Definition ua_Seal (src : bytes) (pn : Z) (ad : bytes) : uaM bytes :=
  a ← get;
  _ ← modify (ua_sent
         (if uFirstSentWithCurrentKey a =? InvalidPacketNumber then pn else uFirstSentWithCurrentKey a)
         (if uFirstPacketNumber a =? InvalidPacketNumber then pn else uFirstPacketNumber a)
         (u64 (uNumSentWithCurrentKey a + 1)));
  nonce ← lift (putNonce (uNonceBuf a) pn);
  _ ← modify (ua_nonce nonce);
  withAEAD uSendAEAD ua_send (xor_Seal nonce src ad).

Definition SetLargestAcked (pn : Z) : uaM unit :=
  a ← get;
  if negb (uFirstSentWithCurrentKey a =? InvalidPacketNumber) && (uFirstSentWithCurrentKey a <=? pn)
     && (uNumRcvdWithCurrentKey a =? 0)
  then throw errPeerDidNotUpdate
  else modify (ua_largestAcked pn).

Definition ua_SetHandshakeConfirmed : uaM unit := modify ua_confirmed.

Definition updateAllowed a : bool :=
  uHandshakeConfirmed a &&
  ((uKeyPhase a =? 0) ||
   (negb (uFirstSentWithCurrentKey a =? InvalidPacketNumber) && negb (uLargestAcked a =? InvalidPacketNumber)
    && (uFirstSentWithCurrentKey a <=? uLargestAcked a))).

Definition shouldInitiateKeyUpdate a : bool :=
  updateAllowed a &&
  (((uKeyPhase a =? 0) &&
    ((FirstKeyUpdateInterval <=? uNumRcvdWithCurrentKey a) || (FirstKeyUpdateInterval <=? uNumSentWithCurrentKey a)))
   || (KeyUpdateInterval <=? uNumRcvdWithCurrentKey a) || (KeyUpdateInterval <=? uNumSentWithCurrentKey a)).

(** [KeyPhase], which updates the keys when it is time. *)
Definition ua_KeyPhase : uaM KeyPhaseBit :=
  a ← get;
  _ ← (if shouldInitiateKeyUpdate a then rollKeys else mret tt);
  a ← get;
  mret (KeyPhase_Bit (uKeyPhase a)).

Definition ua_EncryptHeader (sample : bytes) (firstByte : Z) (hdrBytes : bytes) a : res (Z * bytes) :=
  p ← nilDeref (uHeaderEncrypter a); hp_apply p sample firstByte hdrBytes.

Definition ua_DecryptHeader (sample : bytes) (firstByte : Z) (hdrBytes : bytes) a : res (Z * bytes) :=
  p ← nilDeref (uHeaderDecrypter a); hp_apply p sample firstByte hdrBytes.
End model.
