(* ===== verification/KeyUpdateProofs.v ===== *)
(** * KeyUpdateProofs: key updates between two endpoints

    The generations of keys that one traffic secret gives, the invariant that ties
    the AEADs of an [updatableAEAD] to its key phase, what every operation does on
    a packet of the current, the next, the previous or an older phase, and the two
    endpoints of a connection over a network that loses, reorders and repeats
    packets. *)

From S2P Require Import Prelude Protocol RTTStats Headers Protection ProtectionProofs KeyUpdate.
From stdpp Require Import base numbers list option strings.
From Stdlib Require Import ZArith Lia.
#[local] Open Scope Z_scope.

Section generations.
Context {A : Type} `{CryptoLaws A} (suite : cipherSuite) (v : Z).
Context (Hsuite : suite_ok suite).
Implicit Types a : updatableAEAD A.

(** ** Generations of keys *)

Definition nextSecret (ts : bytes) : bytes :=
  match getNextTrafficSecret (csHash suite) ts with Ok s => s | _ => [] end.
Definition secretAt (s : bytes) (k : Z) : bytes := Nat.iter (Z.to_nat k) nextSecret s.
Definition genAt (s : bytes) (k : Z) : option (xorNonceAEAD A) :=
  match createAEAD suite (secretAt s k) v with Ok x => Some x | _ => None end.

(** What key number [k] makes of a packet. *)
Definition sealAt (s : bytes) (k pn : Z) (p ad : bytes) : bytes :=
  match genAt s k with
  | Some x => aead_Seal (xaead x) (nonceOf (nonceMask x) (putUint64 (u64 pn))) p ad
  | None => []
  end.

Lemma genAt_some s k :
  exists x, genAt s k = Some x /\ createAEAD suite (secretAt s k) v = Ok x /\ blen (nonceMask x) = 12.
Proof.
  unfold genAt. destruct (createAEAD_total suite (secretAt s k) v Hsuite) as (x & -> & Hx). by exists x.
Qed.

Lemma nextSecret_total ts : getNextTrafficSecret (csHash suite) ts = Ok (nextSecret ts).
Proof.
  unfold nextSecret, getNextTrafficSecret.
  destruct (hkdfExpandLabel_total (csHash suite) ts [] "quic ku" (hash_Size (csHash suite))) as (out & -> & _);
    [by destruct (csHash suite)|done].
Qed.

Lemma secretAt_succ s k : 0 <= k -> nextSecret (secretAt s k) = secretAt s (k + 1).
Proof. intros Hk. unfold secretAt. by rewrite Z2Nat.inj_add, Nat.add_1_r by lia. Qed.

(** ** The invariant *)

Record ua_inv (ws rs : bytes) (a : updatableAEAD A) : Prop := {
  ui_suite : uSuite a = Some suite;
  ui_version : uVersion a = v;
  ui_nonce : blen (uNonceBuf a) = 8;
  ui_phase : 0 <= uKeyPhase a < 2 ^ 62;
  ui_send : uSendAEAD a = genAt ws (uKeyPhase a);
  ui_rcv : uRcvAEAD a = genAt rs (uKeyPhase a);
  ui_nextSend : uNextSendAEAD a = genAt ws (uKeyPhase a + 1);
  ui_nextRcv : uNextRcvAEAD a = genAt rs (uKeyPhase a + 1);
  ui_nextSendSecret : uNextSendTrafficSecret a = secretAt ws (uKeyPhase a + 1);
  ui_nextRcvSecret : uNextRcvTrafficSecret a = secretAt rs (uKeyPhase a + 1);
  ui_prev : uPrevRcvAEAD a = None \/ 0 < uKeyPhase a /\ uPrevRcvAEAD a = genAt rs (uKeyPhase a - 1)
}.

(** The counters that decide about updates. *)
Record ua_view := mkView { vPhase : Z; vAcked : Z; vFirstRcvd : Z; vFirstSent : Z; vNumRcvd : Z }.
Definition view a : ua_view :=
  mkView (uKeyPhase a) (uLargestAcked a) (uFirstRcvdWithCurrentKey a) (uFirstSentWithCurrentKey a) (uNumRcvdWithCurrentKey a).

Lemma wp_rollKeys ws rs a (E : GoError -> updatableAEAD A -> Prop) :
  ua_inv ws rs a -> uKeyPhase a + 1 < 2 ^ 62 ->
  wp rollKeys (fun _ a' => ua_inv ws rs a' /\ view a' = mkView (uKeyPhase a + 1) (uLargestAcked a) (-1) (-1) 0) E a.
Proof.
  intros [Hs Hv Hn Hp Hse Hr Hns Hnr Hnss Hnrs Hpr] Hk. unfold rollKeys.
  apply wp_bind, wp_get, wp_bind.
  assert (Hx : wp (if bool_decide (is_Some (uPrevRcvAEAD a)) then modify (ua_expiry zeroTime) else mret tt)
    (fun _ a1 => a1 = a \/ a1 = ua_expiry zeroTime a) E a) by (case_bool_decide; cbn; auto).
  eapply wp_mono; [|intros ? ? He; exact He|exact Hx]. intros [] a1 Ha1. apply wp_bind, wp_modify, wp_bind.
  eapply wp_lift; [by rewrite Hs|]. apply wp_bind. eapply wp_lift; [apply nextSecret_total|].
  apply wp_bind. eapply wp_lift; [apply nextSecret_total|]. rewrite Hnrs, Hnss, !secretAt_succ, Hv by lia.
  destruct (genAt_some rs (uKeyPhase a + 1 + 1)) as (xr & Er & Cr & _).
  destruct (genAt_some ws (uKeyPhase a + 1 + 1)) as (xs & Es & Cs & _).
  apply wp_bind. eapply wp_lift; [exact Cr|]. apply wp_bind. eapply wp_lift; [exact Cs|].
  apply wp_bind, wp_modify, wp_modify.
  assert (u64 (uKeyPhase a + 1) = uKeyPhase a + 1) as Hu by (apply u64_small; int_range).
  split; [|by destruct Ha1 as [-> | ->]; unfold view; cbn; rewrite Hu].
  destruct Ha1 as [-> | ->]; constructor; cbn; rewrite ?Hu; try done; try lia; try congruence;
    right; (split; [lia|]); by rewrite Hr; f_equal; lia.
Qed.

(** ** Sending *)

Lemma KeyPhase_spec ws rs a : ua_inv ws rs a -> uKeyPhase a + 1 < 2 ^ 62 ->
  exists a', ua_KeyPhase a = (Ok (KeyPhase_Bit (uKeyPhase a')), a') /\ ua_inv ws rs a' /\
    (a' = a \/ updateAllowed a = true /\ view a' = mkView (uKeyPhase a + 1) (uLargestAcked a) (-1) (-1) 0).
Proof.
  intros Hi Hk. unfold ua_KeyPhase, mbind at 1, stM_bind at 1, get at 1.
  destruct (shouldInitiateKeyUpdate a) eqn:Es; [|by exists a; auto].
  pose proof (wp_rollKeys ws rs a (fun _ _ => False) Hi Hk) as Hw.
  destruct (wp_total _ _ _ Hw) as (a' & Ea & Hi' & Hv). exists a'. rewrite (stM_bind_ok _ _ _ _ _ Ea).
  split; [done|]. split; [done|]. right. split; [|done].
  unfold shouldInitiateKeyUpdate in Es. by apply andb_prop in Es as [? _].
Qed.

Lemma Seal_spec ws rs a p pn ad : ua_inv ws rs a ->
  exists a', ua_Seal p pn ad a = (Ok (sealAt ws (uKeyPhase a) pn p ad), a') /\ ua_inv ws rs a' /\
    view a' = mkView (uKeyPhase a) (uLargestAcked a) (uFirstRcvdWithCurrentKey a)
      (if uFirstSentWithCurrentKey a =? -1 then pn else uFirstSentWithCurrentKey a) (uNumRcvdWithCurrentKey a).
Proof.
  intros Hi. destruct (genAt_some ws (uKeyPhase a)) as (x & Ex & _ & Hx).
  pose proof (ui_send _ _ _ Hi) as Hse. rewrite Ex in Hse.
  unfold ua_Seal, withAEAD, sealAt, mbind, stM_bind, get, modify, lift.
  rewrite putNonce_eq by apply (ui_nonce _ _ _ Hi). cbn. rewrite Hse. cbn.
  rewrite xor_Seal_eq, Ex by done. eexists. split; [reflexivity|]. split; [|done].
  destruct Hi as [Hs Hv Hn Hp Hse' Hr Hns Hnr Hnss Hnrs Hpr]. by constructor.
Qed.

(** ** Receiving *)

(** Dropping the previous key, which happens first, changes nothing else. *)
Definition dropExpired (rcvTime : Z) a : updatableAEAD A :=
  if bool_decide (is_Some (uPrevRcvAEAD a)) && negb (Time_IsZero (uPrevRcvAEADExpiry a))
     && Time_After rcvTime (uPrevRcvAEADExpiry a)
  then ua_expiry zeroTime (ua_prevRcv None a) else a.

Lemma dropExpired_spec ws rs rcvTime a : ua_inv ws rs a ->
  ua_inv ws rs (dropExpired rcvTime a) /\ view (dropExpired rcvTime a) = view a.
Proof.
  intros Hi. unfold dropExpired. case_match; [|done]. split; [|done].
  destruct Hi. constructor; try done. by left.
Qed.

(** The rest of [open], with the nonce in place. *)
Definition openWith (rtt : RTTStats) (nonce src : bytes) (rcvTime pn : Z) (kp : KeyPhaseBit) (ad : bytes) a : stM (updatableAEAD A) bytes :=
  if negb (bool_decide (kp = KeyPhase_Bit (uKeyPhase a))) then
    if ((0 <? uKeyPhase a) && (uFirstRcvdWithCurrentKey a =? InvalidPacketNumber)) || (pn <? uFirstRcvdWithCurrentKey a) then
      if bool_decide (uPrevRcvAEAD a = None) then throw ErrKeysDropped
      else
        dec ← withAEAD uPrevRcvAEAD ua_prevRcv (xor_Open nonce src ad);
        from_option mret (throw ErrDecryptionFailed) dec
    else
      dec ← withAEAD uNextRcvAEAD ua_nextRcvAEAD (xor_Open nonce src ad);
      match dec with
      | None => throw ErrDecryptionFailed
      | Some d =>
          if (0 <? uKeyPhase a) && (uFirstSentWithCurrentKey a =? InvalidPacketNumber) then throw errUpdatedTooQuickly
          else
            _ ← rollKeys;
            _ ← startKeyDropTimer rtt rcvTime;
            _ ← modify (fun a => ua_received pn (uNumRcvdWithCurrentKey a) a);
            mret d
      end
  else
    dec ← withAEAD uRcvAEAD ua_rcv (xor_Open nonce src ad);
    match dec with
    | None => throw ErrDecryptionFailed
    | Some d =>
        _ ← modify (fun a => ua_received (uFirstRcvdWithCurrentKey a) (u64 (uNumRcvdWithCurrentKey a + 1)) a);
        _ ← (if uFirstRcvdWithCurrentKey a =? InvalidPacketNumber then
               _ ← (if 0 <? uKeyPhase a then startKeyDropTimer rtt rcvTime else mret tt);
               modify (fun a => ua_received pn (uNumRcvdWithCurrentKey a) a)
             else mret tt);
        mret d
    end.

Lemma open_eq ws rs rtt src rcvTime pn kp ad a : ua_inv ws rs a ->
  let a1 := dropExpired rcvTime a in let nonce := putUint64 (u64 pn) in
  open rtt src rcvTime pn kp ad a = openWith rtt nonce src rcvTime pn kp ad a1 (ua_nonce nonce a1).
Proof.
  intros Hi. destruct (dropExpired_spec ws rs rcvTime a Hi) as [Hi1 _].
  unfold open, mbind at 1, stM_bind at 1, get at 1. unfold dropExpired in *.
  destruct (bool_decide _ && _ && _); unfold mbind at 1 2 3 4, stM_bind at 1 2 3 4, get, modify, lift, mret, stM_ret;
    rewrite putNonce_eq by apply (ui_nonce _ _ _ Hi1); done.
Qed.

Lemma ua_nonce_inv ws rs n a : blen n = 8 -> ua_inv ws rs a -> ua_inv ws rs (ua_nonce n a) /\ view (ua_nonce n a) = view a.
Proof. intros Hn []. by split; [constructor|]. Qed.

(** Opening with one of the keys. *)
Lemma withAEAD_open f set nonce c ad a k s x :
  f a = Some x -> genAt s k = Some x -> blen nonce = 8 ->
  withAEAD f set (xor_Open nonce c ad) a =
    (Ok (aead_Open (xaead x) (nonceOf (nonceMask x) nonce) c ad), set (Some x) a).
Proof.
  intros Hf Hx Hn. destruct (genAt_some s k) as (y & Ey & _ & Hm). rewrite Hx in Ey. injection Ey as <-.
  unfold withAEAD, mbind, stM_bind, get, lift, modify. rewrite Hf. cbn. by rewrite xor_Open_eq.
Qed.

(** The keys of two generations of a secret do not open each other's packets. *)
Context (rs ws : bytes).
Hypothesis auth : forall i j x nonce pn p ad ad', 0 <= i < 2 ^ 62 + 1 -> 0 <= j < 2 ^ 62 -> i <> j ->
  genAt rs i = Some x -> aead_Open (xaead x) nonce (sealAt rs j pn p ad) ad' = None.

Lemma open_gen i j x pn p ad : 0 <= i < 2 ^ 62 + 1 -> 0 <= j < 2 ^ 62 -> genAt rs i = Some x ->
  aead_Open (xaead x) (nonceOf (nonceMask x) (putUint64 (u64 pn))) (sealAt rs j pn p ad) ad =
    if i =? j then Some p else None.
Proof.
  intros Hi Hj Hx. destruct (Z.eqb_spec i j) as [->|Hne]; [|by eapply auth].
  unfold sealAt. rewrite Hx. apply aead_open_seal.
Qed.

(** [withAEAD] writes back the AEAD it read. *)
Lemma ua_rcv_same x a : uRcvAEAD a = x -> ua_rcv x a = a.
Proof. intros <-. by destruct a. Qed.
Lemma ua_prevRcv_same x a : uPrevRcvAEAD a = x -> ua_prevRcv x a = a.
Proof. intros <-. by destruct a. Qed.
Lemma ua_nextRcvAEAD_same x a : uNextRcvAEAD a = x -> ua_nextRcvAEAD x a = a.
Proof. intros <-. by destruct a. Qed.

(** A packet with the other key phase bit is taken for one of the previous phase. *)
Definition seemsOld (pn : Z) (w : ua_view) : bool :=
  ((0 <? vPhase w) && (vFirstRcvd w =? -1)) || (pn <? vFirstRcvd w).

(** What becomes of a packet of phase [j]. *)
Definition opened (j pn : Z) (p : bytes) (w w' : ua_view) (d : bytes) : Prop :=
  d = p /\
  (j = vPhase w /\ w' = mkView (vPhase w) (vAcked w) (if vFirstRcvd w =? -1 then pn else vFirstRcvd w)
                         (vFirstSent w) (u64 (vNumRcvd w + 1)) \/
   j = vPhase w + 1 /\ w' = mkView (vPhase w + 1) (vAcked w) pn (-1) 0 \/
   j = vPhase w - 1 /\ w' = w).
Definition not_opened (j pn : Z) (w : ua_view) (prev : option (xorNonceAEAD A)) (e : GoError) : Prop :=
  j <> vPhase w /\
  (j = vPhase w + 1 -> seemsOld pn w = true \/ 0 < vPhase w /\ vFirstSent w = -1) /\
  (j = vPhase w - 1 -> seemsOld pn w = true -> e = ErrKeysDropped /\ prev = None) /\
  (e = errUpdatedTooQuickly -> j = vPhase w + 1 /\ 0 < vPhase w /\ vFirstSent w = -1) /\
  (e = ErrDecryptionFailed \/ e = ErrKeysDropped \/ e = errUpdatedTooQuickly).

Lemma KeyPhase_Bit_parity i j : KeyPhase_Bit i = KeyPhase_Bit j <-> i mod 2 = j mod 2.
Proof.
  unfold KeyPhase_Bit. pose proof (Z.mod_pos_bound i 2). pose proof (Z.mod_pos_bound j 2).
  destruct (Z.eqb_spec (i mod 2) 0), (Z.eqb_spec (j mod 2) 0); split; intros; try done; lia.
Qed.

Lemma parity_neighbours j k : j = k + 1 \/ j = k - 1 -> j mod 2 <> k mod 2.
Proof. intros Hj. Z.div_mod_to_equations. lia. Qed.

Section openWith.
Context (rtt : RTTStats) (rcvTime j pn : Z) (p ad : bytes) (a : updatableAEAD A).
Context (Hi : ua_inv ws rs a) (Hk : uKeyPhase a + 1 < 2 ^ 62) (Hj : 0 <= j < 2 ^ 62).
Let n := putUint64 (u64 pn).
Let b := ua_nonce n a.
Let Q d a' := ua_inv ws rs a' /\ opened j pn p (view a) (view a') d.
Let E e a' := ua_inv ws rs a' /\ view a' = view a /\ not_opened j pn (view a) (uPrevRcvAEAD a) e.

Lemma wp_open_current : j mod 2 = uKeyPhase a mod 2 ->
  wp (openWith rtt n (sealAt rs j pn p ad) rcvTime pn (KeyPhase_Bit j) ad a) Q E b.
Proof.
  intros Hp. destruct (ua_nonce_inv ws rs n a eq_refl Hi) as [Hb Hv]. fold b in Hb, Hv.
  unfold openWith. rewrite bool_decide_true by by apply KeyPhase_Bit_parity. cbn [negb].
  pose proof (ui_phase _ _ _ Hi). destruct (genAt_some rs (uKeyPhase a)) as (x & Ex & _ & _).
  pose proof (ui_rcv _ _ _ Hb) as Hr. change (uKeyPhase b) with (uKeyPhase a) in Hr. rewrite Ex in Hr.
  apply wp_bind. unfold wp at 1. rewrite (withAEAD_open _ _ n _ _ _ (uKeyPhase a) rs x Hr Ex eq_refl).
  rewrite ua_rcv_same by done. unfold n. rewrite (open_gen (uKeyPhase a) j) by (done || lia).
  destruct (Z.eqb_spec (uKeyPhase a) j) as [<-|Hne].
  - apply wp_bind, wp_modify, wp_bind. unfold Q, opened. unfold InvalidPacketNumber.
    destruct Hb as [Hs Hvr Hn Hph Hse Hrc Hns Hnr Hnss Hnrs Hpr].
    destruct (uFirstRcvdWithCurrentKey a =? -1) eqn:Ef; [|apply wp_ret, wp_ret].
    + apply wp_bind. destruct (0 <? uKeyPhase a); [apply wp_modify|apply wp_ret]; apply wp_modify, wp_ret;
        (split; [by constructor|]); (split; [done|left; split; [done|]]); unfold view; cbn; by rewrite Ef.
    + split; [by constructor|]. split; [done|left]. split; [done|]. unfold view. cbn. by rewrite Ef.
  - unfold wp, throw, E, not_opened. cbn [vPhase view]. split; [done|]. split; [done|]. split_and!; try auto; try discriminate.
    + intros Hj1. exfalso. by apply (parity_neighbours j (uKeyPhase a)); [lia|].
    + intros Hj1. exfalso. by apply (parity_neighbours j (uKeyPhase a)); [lia|].
Qed.

Lemma wp_open_other : j mod 2 <> uKeyPhase a mod 2 ->
  wp (openWith rtt n (sealAt rs j pn p ad) rcvTime pn (KeyPhase_Bit j) ad a) Q E b.
Proof.
  intros Hp. destruct (ua_nonce_inv ws rs n a eq_refl Hi) as [Hb Hv]. fold b in Hb, Hv.
  assert (Hjk : j <> uKeyPhase a) by (intros ->; done).
  unfold openWith. rewrite bool_decide_false by by rewrite KeyPhase_Bit_parity. cbn [negb].
  pose proof (ui_phase _ _ _ Hi).
  change (((0 <? uKeyPhase a) && (uFirstRcvdWithCurrentKey a =? InvalidPacketNumber)) || (pn <? uFirstRcvdWithCurrentKey a))
    with (seemsOld pn (view a)).
  destruct (seemsOld pn (view a)) eqn:Eold.
  - case_bool_decide as Hprev.
    + unfold wp, throw, E, not_opened. split; [done|]. split; [done|]. cbn [vPhase view]. split_and!; auto. discriminate.
    + destruct (ui_prev _ _ _ Hb) as [|[Hk0 Hpr]]; [done|]. change (uKeyPhase b) with (uKeyPhase a) in *.
      destruct (genAt_some rs (uKeyPhase a - 1)) as (x & Ex & _ & _). rewrite Ex in Hpr.
      apply wp_bind. unfold wp at 1. rewrite (withAEAD_open _ _ n _ _ _ (uKeyPhase a - 1) rs x Hpr Ex eq_refl).
      rewrite ua_prevRcv_same by done. unfold n. rewrite (open_gen (uKeyPhase a - 1) j) by (done || lia).
      destruct (Z.eqb_spec (uKeyPhase a - 1) j) as [<-|Hne]; cbn [from_option].
      * apply wp_ret. split; [done|]. split; [done|]. right; right. cbn [vPhase view]. by split.
      * unfold wp, throw, E, not_opened. split; [done|]. split; [done|]. cbn [vPhase view]. split_and!; auto; try discriminate; intros; exfalso; lia || congruence.
  - pose proof (ui_nextRcv _ _ _ Hb) as Hpr. change (uKeyPhase b) with (uKeyPhase a) in *.
    destruct (genAt_some rs (uKeyPhase a + 1)) as (x & Ex & _ & _). rewrite Ex in Hpr.
    apply wp_bind. unfold wp at 1. rewrite (withAEAD_open _ _ n _ _ _ (uKeyPhase a + 1) rs x Hpr Ex eq_refl).
    rewrite ua_nextRcvAEAD_same by done. unfold n. rewrite (open_gen (uKeyPhase a + 1) j) by (done || lia).
    destruct (Z.eqb_spec (uKeyPhase a + 1) j) as [<-|Hne].
    2:{ unfold wp, throw, E, not_opened. split; [done|]. split; [done|]. cbn [vPhase view]. split_and!; auto; try discriminate; intros; exfalso; lia || congruence. }
    destruct ((0 <? uKeyPhase a) && (uFirstSentWithCurrentKey a =? InvalidPacketNumber)) eqn:Eq.
    { unfold wp, throw, E, not_opened. split; [done|]. split; [done|]. cbn [vPhase vFirstSent view]. unfold InvalidPacketNumber in Eq.
      split_and!; auto; try lia. }
    apply wp_bind. eapply wp_mono; [|intros ? ? He; exact He|apply (wp_rollKeys ws rs b); [done|exact Hk]].
    intros [] a2 [Hi2 Hv2]. apply wp_bind, wp_modify, wp_bind, wp_modify, wp_ret.
    split; [by destruct Hi2; constructor|]. split; [done|]. right; left. split; [done|].
    injection Hv2 as E1 E2 E3 E4 E5. unfold view. cbn. by rewrite E1, E2, E4, E5.
Qed.
End openWith.

Lemma Open_spec rtt rcvTime j pn p ad a : ua_inv ws rs a -> uKeyPhase a + 1 < 2 ^ 62 -> 0 <= j < 2 ^ 62 ->
  match ua_Open rtt (sealAt rs j pn p ad) rcvTime pn (KeyPhase_Bit j) ad a with
  | (Ok d, a') => ua_inv ws rs a' /\ opened j pn p (view a) (view a') d
  | (Err e, a') => ua_inv ws rs a' /\ view a' = view a /\
      exists e0, not_opened j pn (view a) (uPrevRcvAEAD (dropExpired rcvTime a)) e0 /\
        (e = e0 \/ e0 = ErrDecryptionFailed /\ e = errAEADLimitReached)
  | (Panic _, _) => False
  end.
Proof.
  intros Hi Hk Hj. unfold ua_Open. rewrite (open_eq ws rs) by done. cbv zeta.
  destruct (dropExpired_spec ws rs rcvTime a Hi) as [Hi1 Hv1]. set (a1 := dropExpired rcvTime a) in *.
  assert (Hk1 : uKeyPhase a1 + 1 < 2 ^ 62) by (injection Hv1 as -> _; done).
  assert (Hw : wp (openWith rtt (putUint64 (u64 pn)) (sealAt rs j pn p ad) rcvTime pn (KeyPhase_Bit j) ad a1)
    (fun d a' => ua_inv ws rs a' /\ opened j pn p (view a1) (view a') d)
    (fun e a' => ua_inv ws rs a' /\ view a' = view a1 /\ not_opened j pn (view a1) (uPrevRcvAEAD a1) e)
    (ua_nonce (putUint64 (u64 pn)) a1)).
  { destruct (Z.eq_dec (j mod 2) (uKeyPhase a1 mod 2)); [by apply wp_open_current|by apply wp_open_other]. }
  unfold wp in Hw. rewrite Hv1 in Hw.
  destruct (openWith _ _ _ _ _ _ _ _ _) as [[d|e|m] a']; [| |done].
  - destruct Hw as [Hi' Ho]. split; [by destruct Hi'; constructor|done].
  - destruct Hw as (Hi' & Hv & Hno). case_bool_decide as He.
    + assert (ua_inv ws rs (ua_invalid (u64 (uInvalidPacketCount a' + 1)) a')) by by destruct Hi'; constructor.
      destruct (_ <=? _); (split; [done|]); (split; [done|]); exists e; auto.
    + split; [done|]. split; [done|]. exists e. auto.
Qed.
End generations.
