(* ===== verification/KeyUpdateClaims.v ===== *)
(** * KeyUpdateClaims: two endpoints that update their keys

    Both endpoints run [updatableAEAD]; packets may be lost, reordered and
    repeated, and carry acknowledgements of packets that their sender has opened. *)

From S2P Require Import Prelude Protocol Varint RTTStats Headers Protection ProtectionProofs KeyUpdate KeyUpdateProofs.
From stdpp Require Import base numbers list option strings.
From Stdlib Require Import ZArith Lia.
#[local] Open Scope Z_scope.

(** A 1-RTT packet; the phase of the key that sealed it is not part of the wire format. *)
Record packet := mkPacket {
  pkPhase : Z; pkBit : KeyPhaseBit; pkPN : Z; pkAck : option Z; pkPayload : bytes; pkAD : bytes; pkBytes : bytes
}.

(** ** The invariant of one direction

    [X] sends, [Y] receives; both are described by their counters, the packets
    they sent, the packet numbers they opened and the next packet number. *)

Record half := mkHalf { hView : ua_view; hSent : list packet; hOpened : list Z; hNext : Z }.
Abbreviation phase h := (vPhase (hView h)).

Record pair_inv (n : Z) (X Y : half) : Prop := {
  pi_phase : 0 <= phase X <= n;
  pi_sent p : p ∈ hSent X -> 0 <= pkPN p < hNext X /\ 0 <= pkPhase p <= phase X /\ pkBit p = KeyPhase_Bit (pkPhase p);
  pi_mono p q : p ∈ hSent X -> q ∈ hSent X -> pkPN p <= pkPN q -> pkPhase p <= pkPhase q;
  pi_firstSent_none : vFirstSent (hView X) = -1 -> forall p, p ∈ hSent X -> pkPhase p <> phase X;
  pi_firstSent : vFirstSent (hView X) <> -1 ->
    (exists p, p ∈ hSent X /\ pkPN p = vFirstSent (hView X) /\ pkPhase p = phase X) /\
    (forall p, p ∈ hSent X -> pkPhase p = phase X -> vFirstSent (hView X) <= pkPN p);
  pi_opened pn : pn ∈ hOpened Y -> exists p, p ∈ hSent X /\ pkPN p = pn /\ pkPhase p <= phase Y;
  pi_firstRcvd_none : vFirstRcvd (hView Y) = -1 ->
    forall p, p ∈ hSent X -> pkPN p ∈ hOpened Y -> pkPhase p <> phase Y;
  pi_firstRcvd : vFirstRcvd (hView Y) <> -1 ->
    exists p, p ∈ hSent X /\ pkPN p = vFirstRcvd (hView Y) /\ pkPhase p = phase Y;
  pi_ack p q : p ∈ hSent Y -> pkAck p = Some q ->
    q ∈ hOpened Y /\ exists p', p' ∈ hSent X /\ pkPN p' = q /\ pkPhase p' <= pkPhase p;
  pi_acked : vAcked (hView X) = -1 \/ exists p, p ∈ hSent Y /\ pkAck p = Some (vAcked (hView X));
  pi_ahead : phase X <= phase Y + 1;
  pi_behind : phase X = phase Y + 1 -> 0 < phase Y -> vFirstSent (hView Y) <> -1 /\ vFirstRcvd (hView Y) <> -1;
  pi_num : 0 <= vNumRcvd (hView X) <= n;
  pi_next : 0 <= hNext X
}.

Definition h_view w X : half := mkHalf w (hSent X) (hOpened X) (hNext X).
Definition h_sent p X : half := mkHalf (hView X) (hSent X ++ [p]) (hOpened X) (pkPN p + 1).
Definition h_opened pn X : half := mkHalf (hView X) (hSent X) (hOpened X ++ [pn]) (hNext X).

(** Packets with one packet number are of one phase. *)
Lemma same_phase n X Y p q : pair_inv n X Y -> p ∈ hSent X -> q ∈ hSent X -> pkPN p = pkPN q -> pkPhase p = pkPhase q.
Proof.
  intros Hi Hp Hq E. pose proof (pi_mono _ _ _ Hi p q Hp Hq). pose proof (pi_mono _ _ _ Hi q p Hq Hp). lia.
Qed.

Lemma opened_phase n X Y p : pair_inv n X Y -> p ∈ hSent X -> pkPN p ∈ hOpened Y -> pkPhase p <= phase Y.
Proof.
  intros Hi Hp Ho. destruct (pi_opened _ _ _ Hi _ Ho) as (q & Hq & E & Hle).
  by rewrite (same_phase n X Y p q Hi Hp Hq (eq_sym E)).
Qed.

(** A packet from the first one of the current phase on is of the current phase. *)
Lemma since_firstSent n X Y p : pair_inv n X Y -> p ∈ hSent X -> vFirstSent (hView X) <> -1 ->
  vFirstSent (hView X) <= pkPN p -> pkPhase p = phase X.
Proof.
  intros Hi Hp Hf Hle. destruct (pi_firstSent _ _ _ Hi Hf) as [(q & Hq & Eq & Ek) _].
  pose proof (pi_mono _ _ _ Hi q p Hq Hp). pose proof (pi_sent _ _ _ Hi p Hp). lia.
Qed.

(** ** Updating the keys *)

Definition may_roll (w : ua_view) : Prop :=
  vPhase w = 0 \/ vFirstSent w <> -1 /\ vAcked w <> -1 /\ vFirstSent w <= vAcked w.
Definition rolled (w : ua_view) : ua_view := mkView (vPhase w + 1) (vAcked w) (-1) (-1) 0.

(** An update is only started when the peer has sent and opened packets of the current phase. *)
Lemma roll_acked n X Y : pair_inv n X Y -> pair_inv n Y X -> may_roll (hView X) ->
  phase X <= phase Y /\ (0 < phase X -> phase X = phase Y -> vFirstSent (hView Y) <> -1 /\ vFirstRcvd (hView Y) <> -1).
Proof.
  intros Hi Hj Hr. pose proof (pi_phase _ _ _ Hi). pose proof (pi_phase _ _ _ Hj).
  destruct Hr as [E|(Hf & Ha & Hle)]; [split; lia|].
  destruct (pi_acked _ _ _ Hi) as [?|(p & Hp & Eack)]; [done|].
  destruct (pi_ack _ _ _ Hi p _ Hp Eack) as (Ho & p' & Hp' & Epn & Hph).
  assert (Ek : pkPhase p' = phase X) by (eapply since_firstSent; eauto; lia).
  pose proof (pi_sent _ _ _ Hj p Hp). split; [lia|]. intros Hpos E. split.
  - intros Hn. apply (pi_firstSent_none _ _ _ Hj Hn p Hp). lia.
  - intros Hn. apply (pi_firstRcvd_none _ _ _ Hi Hn p' Hp'); [by rewrite Epn|]. lia.
Qed.

Lemma roll_sender n X Y : pair_inv n X Y -> pair_inv n Y X -> may_roll (hView X) ->
  pair_inv (n + 1) (h_view (rolled (hView X)) X) Y.
Proof.
  intros Hi Hj Hr. destruct (roll_acked n X Y Hi Hj Hr) as [Hle Hb]. destruct Hi. constructor; cbn; auto; try lia.
  - intros p Hp. destruct (pi_sent0 p Hp) as (? & ? & ?). split_and!; auto; lia.
  - intros _ p Hp. specialize (pi_sent0 p Hp). lia.
Qed.

Lemma roll_receiver n X Y : pair_inv n X Y -> pair_inv n Y X -> pair_inv (n + 1) Y (h_view (rolled (hView X)) X).
Proof.
  intros Hi Hj. pose proof (fun p Hp Ho => opened_phase n Y X p Hj Hp Ho) as Hop.
  destruct Hj. constructor; cbn; auto; try lia.
  - intros pn Hpn. destruct (pi_opened0 pn Hpn) as (p & ? & ? & ?). exists p. split_and!; auto. lia.
  - intros _ p Hp Ho. specialize (Hop p Hp Ho). lia.
Qed.

(** ** Sending a packet *)

Definition sealed (pn : Z) (w : ua_view) : ua_view :=
  mkView (vPhase w) (vAcked w) (vFirstRcvd w) (if vFirstSent w =? -1 then pn else vFirstSent w) (vNumRcvd w).

Lemma seal_sender n X Y p : pair_inv n X Y -> hNext X <= pkPN p -> pkPhase p = phase X ->
  pkBit p = KeyPhase_Bit (phase X) -> pair_inv n (h_sent p (h_view (sealed (pkPN p) (hView X)) X)) Y.
Proof.
  intros [] Hpn Hk Hbit. constructor; cbn; auto; try lia.
  - intros q [Hq|Hq%list_elem_of_singleton]%elem_of_app.
    + destruct (pi_sent0 q Hq) as (? & ? & ?). split_and!; auto; lia.
    + subst q. rewrite Hk. split; [lia|]. split; [lia|done].
  - intros q r [Hq|Hq%list_elem_of_singleton]%elem_of_app [Hr|Hr%list_elem_of_singleton]%elem_of_app Hle; subst; auto.
    + specialize (pi_sent0 q Hq). lia.
    + specialize (pi_sent0 r Hr). lia.
    + lia.
  - destruct (Z.eqb_spec (vFirstSent (hView X)) (-1)); [lia|done].
  - intros _. destruct (Z.eqb_spec (vFirstSent (hView X)) (-1)) as [E|E]; split.
    + exists p. rewrite elem_of_app, list_elem_of_singleton. auto.
    + intros q [Hq|Hq%list_elem_of_singleton]%elem_of_app Hqk; [by destruct (pi_firstSent_none0 E q Hq)|by subst].
    + destruct (pi_firstSent0 E) as [(q & ? & ? & ?) _]. exists q. rewrite elem_of_app. auto.
    + intros q [Hq|Hq%list_elem_of_singleton]%elem_of_app Hqk; [by apply (pi_firstSent0 E)|subst q].
      destruct (pi_firstSent0 E) as [(q & Hq & <- & _) _]. specialize (pi_sent0 q Hq). lia.
  - intros pn Ho. destruct (pi_opened0 pn Ho) as (q & ? & ? & ?). exists q. rewrite elem_of_app. auto.
  - intros E q [Hq|Hq%list_elem_of_singleton]%elem_of_app Ho; [auto|subst q].
    destruct (pi_opened0 _ Ho) as (q & Hq & E' & _). specialize (pi_sent0 q Hq). lia.
  - intros E. destruct (pi_firstRcvd0 E) as (q & ? & ? & ?). exists q. rewrite elem_of_app. auto.
  - intros q a Hq Ha. destruct (pi_ack0 q a Hq Ha) as (? & r & ? & ? & ?). split; [done|].
    exists r. rewrite elem_of_app. auto.
Qed.

Lemma seal_receiver n X Y p : pair_inv n Y X -> 0 <= pkPN p -> pkPhase p = phase X ->
  (forall q, pkAck p = Some q -> q ∈ hOpened X) -> pair_inv n Y (h_sent p (h_view (sealed (pkPN p) (hView X)) X)).
Proof.
  intros [] Hpn Hk Hack. constructor; cbn; auto; try lia.
  - intros q a [Hq|Hq%list_elem_of_singleton]%elem_of_app Ha; [auto|subst q].
    split; [auto|]. destruct (pi_opened0 a (Hack a Ha)) as (r & ? & ? & ?). exists r. split_and!; auto. lia.
  - destruct pi_acked0 as [?|(q & ? & ?)]; [auto|right]. exists q. rewrite elem_of_app. auto.
  - intros E H0. destruct (pi_behind0 E H0) as [Hf Hr]. split; [|done].
    destruct (Z.eqb_spec (vFirstSent (hView X)) (-1)); [done|done].
Qed.

(** ** Opening a packet *)

(** The counters after the packet was opened, by phase: current, next, previous. *)
Definition after_open (j pn : Z) (w w' : ua_view) : Prop :=
  j = vPhase w /\ w' = mkView (vPhase w) (vAcked w) (if vFirstRcvd w =? -1 then pn else vFirstRcvd w)
                         (vFirstSent w) (u64 (vNumRcvd w + 1)) \/
  j = vPhase w + 1 /\ w' = mkView (vPhase w + 1) (vAcked w) pn (-1) 0 \/
  j = vPhase w - 1 /\ w' = w.

Lemma open_receiver n X Y p w' : pair_inv n Y X -> pair_inv n X Y -> p ∈ hSent Y ->
  after_open (pkPhase p) (pkPN p) (hView X) w' -> pair_inv (n + 1) Y (h_opened (pkPN p) (h_view w' X)).
Proof.
  intros Hi Hj Hp Ho. pose proof (fun q Hq E => same_phase n Y X q p Hi Hq Hp E) as Hsame.
  pose proof (fun q Hq Hoq => opened_phase n Y X q Hi Hq Hoq) as Hop. pose proof (pi_phase _ _ _ Hj) as HX.
  destruct Hi. destruct (pi_sent0 p Hp) as (Hpn & Hph & _).
  assert (Hadd : forall pn k, phase X <= k -> pkPhase p <= k -> pn ∈ hOpened X ++ [pkPN p] ->
    exists q, q ∈ hSent Y /\ pkPN q = pn /\ pkPhase q <= k).
  { intros pn k Hk Hpk [Hin|Hin%list_elem_of_singleton]%elem_of_app; [|subst; eauto].
    destruct (pi_opened0 pn Hin) as (q & ? & ? & ?). exists q. split_and!; auto. lia. }
  destruct Ho as [[Ej ->]|[[Ej ->]|[Ej ->]]]; constructor; cbn; auto; try lia.
  - intros pn. apply Hadd; lia.
  - destruct (Z.eqb_spec (vFirstRcvd (hView X)) (-1)); [lia|done].
  - intros _. destruct (Z.eqb_spec (vFirstRcvd (hView X)) (-1)); [exists p; auto|auto].
  - intros q a Hq Ha. destruct (pi_ack0 q a Hq Ha) as [? ?]. rewrite elem_of_app. auto.
  - intros E Hpos. destruct (pi_behind0 E Hpos) as [Hf Hr]. split; [done|]. destruct (Z.eqb_spec (vFirstRcvd (hView X)) (-1)); [lia|done].
  - intros pn. apply Hadd; lia.
  - intros _. exists p. auto.
  - intros q a Hq Ha. destruct (pi_ack0 q a Hq Ha) as [? ?]. rewrite elem_of_app. auto.
  - intros pn. apply Hadd; lia.
  - intros E q Hq [Hin|Hin%list_elem_of_singleton]%elem_of_app; [auto|]. rewrite (Hsame q Hq Hin). lia.
  - intros q a Hq Ha. destruct (pi_ack0 q a Hq Ha) as [? ?]. rewrite elem_of_app. auto.
Qed.

Lemma open_sender n X Y p w' : pair_inv n X Y -> pair_inv n Y X -> n < 2 ^ 62 -> p ∈ hSent Y ->
  after_open (pkPhase p) (pkPN p) (hView X) w' -> pair_inv (n + 1) (h_opened (pkPN p) (h_view w' X)) Y.
Proof.
  intros Hi Hj Hn Hp Ho. pose proof (pi_sent _ _ _ Hj p Hp) as (_ & Hph & _). destruct Hi.
  destruct Ho as [[Ej ->]|[[Ej ->]|[Ej ->]]]; constructor; cbn; auto; try lia.
  - rewrite u64_small by int_range. lia.
  - intros q Hq. destruct (pi_sent0 q Hq) as (? & ? & ?). split_and!; auto; lia.
  - intros _ q Hq. specialize (pi_sent0 q Hq). lia.
Qed.

(** An honest peer's packet of the current or the next phase always opens. *)
Lemma not_opened_old {A} n X Y p e (prev : option (xorNonceAEAD A)) : pair_inv n X Y -> pair_inv n Y X -> p ∈ hSent Y ->
  not_opened (pkPhase p) (pkPN p) (hView X) prev e ->
  e <> errUpdatedTooQuickly /\ pkPhase p < phase X /\ (pkPhase p = phase X - 1 -> e = ErrKeysDropped /\ prev = None).
Proof.
  intros Hi Hj Hp (Hne & Hnext & Hprev & Hquick & He). pose proof (pi_sent _ _ _ Hj p Hp) as (Hpn & Hph & _).
  pose proof (pi_ahead _ _ _ Hj) as Hah. pose proof (pi_phase _ _ _ Hi).
  assert (Hfr : vFirstRcvd (hView X) <> -1 -> (pkPN p < vFirstRcvd (hView X) -> pkPhase p <= phase X) /\
    (vFirstRcvd (hView X) <= pkPN p -> phase X <= pkPhase p)).
  { intros Hf. destruct (pi_firstRcvd _ _ _ Hj Hf) as (q & Hq & Eq & Ek).
    pose proof (pi_mono _ _ _ Hj p q Hp Hq). pose proof (pi_mono _ _ _ Hj q p Hq Hp). lia. }
  assert (Hnot : pkPhase p <> phase X + 1).
  { intros E. assert (Ek : phase Y = phase X + 1) by lia. unfold seemsOld in Hnext.
    pose proof (pi_behind _ _ _ Hj Ek). destruct (Hnext E) as [Ho|?]; [|lia].
    destruct (Z.eq_dec (vFirstRcvd (hView X)) (-1)) as [Ef|Ef]; [rewrite Ef in Ho; lia|]. apply Hfr in Ef. lia. }
  split; [intros E; by destruct (Hquick E)|]. split; [lia|]. intros E. apply Hprev; [done|]. unfold seemsOld.
  destruct (Z.eq_dec (vFirstRcvd (hView X)) (-1)) as [Ef|Ef]; [rewrite Ef; lia|]. apply Hfr in Ef. lia.
Qed.

(** ** The acknowledgement in the packet *)

Lemma ack_sender n X Y p q : pair_inv n X Y -> p ∈ hSent Y -> pkAck p = Some q ->
  pair_inv n (h_view (mkView (phase X) q (vFirstRcvd (hView X)) (vFirstSent (hView X)) (vNumRcvd (hView X))) X) Y.
Proof. intros [] Hp Ha. constructor; cbn; auto. right. by exists p. Qed.

Lemma ack_receiver n X Y w : pair_inv n Y X -> vPhase w = phase X -> vFirstRcvd w = vFirstRcvd (hView X) ->
  vFirstSent w = vFirstSent (hView X) -> pair_inv n Y (h_view w X).
Proof. intros [] E1 E2 E3. constructor; cbn; rewrite ?E1, ?E2, ?E3; auto. Qed.

(** The peer has used the key phase that it acknowledges. *)
Lemma ack_after_open n X Y p q w' : pair_inv n X Y -> pair_inv n Y X -> n < 2 ^ 62 -> p ∈ hSent Y -> pkAck p = Some q ->
  after_open (pkPhase p) (pkPN p) (hView X) w' ->
  ~ (vFirstSent w' <> -1 /\ vFirstSent w' <= q /\ vNumRcvd w' = 0).
Proof.
  intros Hi Hj Hn Hp Ha Ho (Hf & Hle & Hnum). destruct (pi_ack _ _ _ Hi p q Hp Ha) as (_ & p' & Hp' & Epn & Hph).
  pose proof (pi_num _ _ _ Hi). destruct Ho as [[Ej ->]|[[Ej ->]|[Ej ->]]]; cbn in *.
  - rewrite u64_small in Hnum by int_range. lia.
  - done.
  - assert (pkPhase p' = phase X) by (eapply since_firstSent; eauto; lia). lia.
Qed.

(** ** The two endpoints *)

Section system.
Context {A : Type} `{CryptoLaws A} (suite : cipherSuite) (v : Z).
Context (Hsuite : suite_ok suite).
(** [secret true] is the write secret of one endpoint and the read secret of the other. *)
Context (secret : bool -> bytes).

Record endpoint := mkEndpoint {
  epAEAD : updatableAEAD A; epNextPN : Z; epSent : list packet; epOpened : list Z
}.
Definition world : Type := bool -> endpoint.

Definition setEp (b : bool) (e : endpoint) (w : world) : world := fun b' => if decide (b' = b) then e else w b'.

(** An endpoint sends a packet, a packet that the peer has sent arrives, or the
    handshake is confirmed. *)
Inductive ku_op :=
  | KSend (b : bool) (pn : Z) (ack : option Z) (payload ad : bytes)
  | KArrive (b : bool) (i : nat) (rtt : RTTStats) (rcvTime : Z)
  | KConfirmed (b : bool).

Definition ack_allowed (ack : option Z) (e : endpoint) : bool :=
  match ack with None => true | Some q => bool_decide (q ∈ epOpened e) end.

(** The packer asks for the key phase and seals. *)
Definition ep_send (pn : Z) (ack : option Z) (payload ad : bytes) (e : endpoint) : res endpoint :=
  let '(r, a) := (kp ← ua_KeyPhase; ct ← ua_Seal payload pn ad; a ← get; mret (kp, ct, uKeyPhase a)) (epAEAD e) in
  '(kp, ct, ph) ← r;
  Ok (mkEndpoint a (pn + 1) (epSent e ++ [mkPacket ph kp pn ack payload ad ct]) (epOpened e)).

(** The packet is dropped on an error that is not a transport error; otherwise
    its acknowledgement is handled. *)
Definition ep_arrive (p : packet) (rtt : RTTStats) (rcvTime : Z) (e : endpoint) : res endpoint :=
  match ua_Open rtt (pkBytes p) rcvTime (pkPN p) (pkBit p) (pkAD p) (epAEAD e) with
  | (Ok _, a) =>
      match (match pkAck p with Some q => SetLargestAcked q a | None => (Ok tt, a) end) with
      | (Ok _, a) => Ok (mkEndpoint a (epNextPN e) (epSent e) (epOpened e ++ [pkPN p]))
      | (Err err, _) => Err err
      | (Panic m, _) => Panic m
      end
  | (Err (TransportError c t m), _) => Err (TransportError c t m)
  | (Err _, a) => Ok (mkEndpoint a (epNextPN e) (epSent e) (epOpened e))
  | (Panic m, _) => Panic m
  end.

Definition ku_do (w : world) (o : ku_op) : res world :=
  match o with
  | KSend b pn ack payload ad =>
      if (epNextPN (w b) <=? pn) && ack_allowed ack (w b)
      then e ← ep_send pn ack payload ad (w b); Ok (setEp b e w)
      else Ok w
  | KArrive b i rtt rcvTime =>
      match epSent (w (negb b)) !! i with
      | Some p => e ← ep_arrive p rtt rcvTime (w b); Ok (setEp b e w)
      | None => Ok w
      end
  | KConfirmed b =>
      let e := w b in
      let '(r, a) := ua_SetHandshakeConfirmed (epAEAD e) in
      _ ← r; Ok (setEp b (mkEndpoint a (epNextPN e) (epSent e) (epOpened e)) w)
  end.

Fixpoint ku_run (w : world) (os : list ku_op) : res world :=
  match os with
  | [] => Ok w
  | o :: os' => w' ← ku_do w o; ku_run w' os'
  end.

(** The state after the handshake: the client sets its read key first, the server its write key. *)
Definition ku_setup (b : bool) : res (updatableAEAD A) :=
  let m := if b then _ ← SetReadKey suite (secret (negb b)); SetWriteKey suite (secret b)
           else _ ← SetWriteKey suite (secret b); SetReadKey suite (secret (negb b)) in
  let '(r, a) := m (newUpdatableAEAD v) in
  _ ← r; Ok a.

Definition ku_start : res world :=
  a0 ← ku_setup true; a1 ← ku_setup false;
  Ok (fun b => mkEndpoint (if b : bool then a0 else a1) 0 [] []).

Definition half_of (e : endpoint) : half := mkHalf (view (epAEAD e)) (epSent e) (epOpened e) (epNextPN e).

Record ku_inv (n : Z) (w : world) : Prop := {
  ku_aead b : ua_inv suite v (secret b) (secret (negb b)) (epAEAD (w b));
  ku_pair b : pair_inv n (half_of (w b)) (half_of (w (negb b)));
  ku_sealed b p : p ∈ epSent (w b) -> pkBytes p = sealAt suite v (secret b) (pkPhase p) (pkPN p) (pkPayload p) (pkAD p)
}.

Lemma pair_inv_mono n m X Y : pair_inv n X Y -> n <= m -> pair_inv m X Y.
Proof. intros [] Hm. constructor; auto; lia. Qed.

(** Change one endpoint. *)
Lemma ku_inv_set n m w b e : ku_inv n w ->
  ua_inv suite v (secret b) (secret (negb b)) (epAEAD e) ->
  pair_inv m (half_of e) (half_of (w (negb b))) -> pair_inv m (half_of (w (negb b))) (half_of e) ->
  (forall p, p ∈ epSent e -> pkBytes p = sealAt suite v (secret b) (pkPhase p) (pkPN p) (pkPayload p) (pkAD p)) ->
  ku_inv m (setEp b e w).
Proof.
  intros [Ha Hp Hs] Hi H1 H2 Hse. unfold setEp.
  assert (Hn : forall b' : bool, b' <> b -> b' = negb b) by (by intros [] ?; destruct b).
  constructor; intros b'.
  - destruct (decide (b' = b)) as [->|?]; auto.
  - destruct (decide (b' = b)) as [->|E].
    + rewrite decide_False by by destruct b. done.
    + rewrite (Hn b' E), negb_involutive, decide_True by done. done.
  - destruct (decide (b' = b)) as [->|?]; [auto|]. apply Hs.
Qed.

(** ** Setting up the keys *)

Definition withParams (x : xorNonceAEAD A) (a : updatableAEAD A) : updatableAEAD A :=
  if bool_decide (uSuite a = None) then ua_params (replicate 8 0) (aead_Overhead (xaead x)) suite
    (if csID suite =? TLS_CHACHA20_POLY1305_SHA256 then InvalidPacketLimitChaCha else InvalidPacketLimitAES) a
  else a.

Lemma setKeys_params x (a : updatableAEAD A) :
  uSuite a = None -> setAEADParameters x suite a = (Ok tt, withParams x a).
Proof.
  intros Hn. unfold setAEADParameters, withParams. rewrite bool_decide_true by done.
  by destruct (suite_cases _ Hsuite) as [E|[E|E]]; rewrite E.
Qed.

Lemma secretAt_0 s : secretAt suite s 0 = s.
Proof. done. Qed.

Lemma ku_setup_inv b : exists a, ku_setup b = Ok a /\ ua_inv suite v (secret b) (secret (negb b)) a /\
  view a = mkView 0 (-1) (-1) (-1) 0.
Proof.
  destruct (genAt_some suite v Hsuite (secret b) 0) as (xw & Ew & Cw & Hw).
  destruct (genAt_some suite v Hsuite (secret (negb b)) 0) as (xr & Er & Cr & Hr).
  destruct (genAt_some suite v Hsuite (secret b) 1) as (yw & Ew1 & Cw1 & _).
  destruct (genAt_some suite v Hsuite (secret (negb b)) 1) as (yr & Er1 & Cr1 & _).
  destruct (newHeaderProtector_total suite (secret b) false v Hsuite) as (pw & Pw & _).
  destruct (newHeaderProtector_total suite (secret (negb b)) false v Hsuite) as (pr & Pr & _).
  change (secretAt suite (secret b) 1) with (nextSecret suite (secret b)) in Cw1.
  change (secretAt suite (secret (negb b)) 1) with (nextSecret suite (secret (negb b))) in Cr1.
  rewrite secretAt_0 in Cw, Cr.
  assert (HR : forall a : updatableAEAD A, uVersion a = v -> SetReadKey suite (secret (negb b)) a =
    (Ok tt, ua_nextRcv (nextSecret suite (secret (negb b))) (Some yr)
      (withParams xr (ua_hpDec (Some pr) (ua_rcv (Some xr) a))))).
  { intros a Hv. unfold SetReadKey, mbind, stM_bind, get, lift, modify, mret, stM_ret. rewrite Hv, Cr, Pr.
    unfold withParams.
    case_bool_decide as Hn; [rewrite setKeys_params by done|]; rewrite nextSecret_total, Cr1 by done;
      unfold withParams; cbn [uSuite]; by rewrite ?(bool_decide_true _ Hn), ?(bool_decide_false _ Hn). }
  assert (HW : forall a : updatableAEAD A, uVersion a = v -> SetWriteKey suite (secret b) a =
    (Ok tt, ua_nextSend (nextSecret suite (secret b)) (Some yw)
      (withParams xw (ua_hpEnc (Some pw) (ua_send (Some xw) a))))).
  { intros a Hv. unfold SetWriteKey, mbind, stM_bind, get, lift, modify, mret, stM_ret. rewrite Hv, Cw, Pw.
    unfold withParams.
    case_bool_decide as Hn; [rewrite setKeys_params by done|]; rewrite nextSecret_total, Cw1 by done;
      unfold withParams; cbn [uSuite]; by rewrite ?(bool_decide_true _ Hn), ?(bool_decide_false _ Hn). }
  unfold ku_setup. destruct b; [rewrite (stM_bind_ok _ _ _ _ _ (HR (newUpdatableAEAD v) eq_refl)), HW by done
    | rewrite (stM_bind_ok _ _ _ _ _ (HW (newUpdatableAEAD v) eq_refl)), HR by done];
    (eexists; split; [reflexivity|]; split; [|done]);
    constructor; try done; cbn; lia || auto.
Qed.

(** ** Every step keeps the invariant *)

(** The cryptographic assumption: a packet sealed with one generation of a secret
    is not accepted by the key of another. *)
Hypothesis auth : forall b i j x nonce pn p ad ad', 0 <= i < 2 ^ 62 + 1 -> 0 <= j < 2 ^ 62 -> i <> j ->
  genAt suite v (secret b) i = Some x -> aead_Open (xaead x) nonce (sealAt suite v (secret b) j pn p ad) ad' = None.

Lemma updateAllowed_may_roll (a : updatableAEAD A) : updateAllowed a = true -> may_roll (view a).
Proof. unfold updateAllowed, may_roll, InvalidPacketNumber. cbn. lia. Qed.

Lemma send_inv n w b pn ack payload ad : ku_inv n w -> n + 1 < 2 ^ 62 ->
  epNextPN (w b) <= pn -> ack_allowed ack (w b) = true ->
  exists e, ep_send pn ack payload ad (w b) = Ok e /\ ku_inv (n + 1) (setEp b e w).
Proof.
  intros Hi Hn Hpn Hack. pose proof (ku_aead _ _ Hi b) as Ha. pose proof (ku_pair _ _ Hi b) as Hp.
  pose proof (ku_pair _ _ Hi (negb b)) as Hq. rewrite negb_involutive in Hq.
  pose proof (pi_phase _ _ _ Hp) as Hph. pose proof (pi_next _ _ _ Hp) as Hnx. cbn in Hph, Hnx.
  destruct (KeyPhase_spec suite v Hsuite _ _ _ Ha) as (a1 & E1 & Hi1 & Hr); [lia|].
  destruct (Seal_spec suite v Hsuite _ _ a1 payload pn ad Hi1) as (a2 & E2 & Hi2 & Hv2).
  unfold ep_send. rewrite (stM_bind_ok _ _ _ _ _ E1), (stM_bind_ok _ _ _ _ _ E2). cbn [mbind stM_bind get mret stM_ret res_bind].
  eexists. split; [reflexivity|]. set (p := mkPacket _ _ _ _ _ _ _).
  assert (Hk2 : uKeyPhase a2 = uKeyPhase a1) by (by injection Hv2).
  set (X1 := h_view (view a1) (half_of (w b))).
  assert (H1 : pair_inv (n + 1) X1 (half_of (w (negb b))) /\ pair_inv (n + 1) (half_of (w (negb b))) X1).
  { unfold X1. destruct Hr as [->|[Hal ->]].
    - split; eapply pair_inv_mono; eauto; lia.
    - apply updateAllowed_may_roll in Hal.
      split; [by apply (roll_sender n (half_of (w b)))|by apply (roll_receiver n (half_of (w b)))]. }
  destruct H1 as [H1s H1r].
  assert (Ehalf : half_of (mkEndpoint a2 (pn + 1) (epSent (w b) ++ [p]) (epOpened (w b))) =
    h_sent p (h_view (sealed (pkPN p) (hView X1)) X1)).
  { unfold half_of, h_sent, h_view, X1. cbn. f_equal. exact Hv2. }
  eapply ku_inv_set; [done|done|rewrite Ehalf..|].
  - apply seal_sender; cbn; auto; lia || congruence.
  - apply seal_receiver; cbn; auto; try lia. intros q ->. cbn in Hack. by apply bool_decide_eq_true in Hack.
  - intros q [Hqs|Hqs%list_elem_of_singleton]%elem_of_app; [by apply (ku_sealed _ _ Hi)|subst q]. cbn. by rewrite Hk2.
Qed.

(** What opening does to a packet of the peer. *)
Lemma arrive_open n w b p rtt rcvTime : ku_inv n w -> n + 1 < 2 ^ 62 -> p ∈ epSent (w (negb b)) ->
  match ua_Open rtt (pkBytes p) rcvTime (pkPN p) (pkBit p) (pkAD p) (epAEAD (w b)) with
  | (Ok d, a) => ua_inv suite v (secret b) (secret (negb b)) a /\ d = pkPayload p /\
      after_open (pkPhase p) (pkPN p) (view (epAEAD (w b))) (view a)
  | (Err e, a) => ua_inv suite v (secret b) (secret (negb b)) a /\ view a = view (epAEAD (w b)) /\
      pkPhase p < uKeyPhase (epAEAD (w b)) /\
      (pkPhase p = uKeyPhase (epAEAD (w b)) - 1 -> e = ErrKeysDropped /\ uPrevRcvAEAD (dropExpired rcvTime (epAEAD (w b))) = None) /\
      (e = ErrDecryptionFailed \/ e = ErrKeysDropped \/ e = errAEADLimitReached)
  | (Panic _, _) => False
  end.
Proof.
  intros Hi Hn Hp. pose proof (ku_aead _ _ Hi b) as Ha. pose proof (ku_pair _ _ Hi b) as H1.
  pose proof (ku_pair _ _ Hi (negb b)) as H2. rewrite negb_involutive in H2.
  pose proof (pi_phase _ _ _ H1) as Hph. pose proof (pi_phase _ _ _ H2) as Hph2. cbn in Hph, Hph2.
  destruct (pi_sent _ _ _ H2 p Hp) as (_ & Hpp & Hbit). cbn in Hpp. rewrite Hbit, (ku_sealed _ _ Hi _ _ Hp).
  pose proof (Open_spec suite v Hsuite (secret (negb b)) (secret b) (auth (negb b)) rtt rcvTime (pkPhase p) (pkPN p)
    (pkPayload p) (pkAD p) _ Ha ltac:(lia) ltac:(lia)) as Ho.
  destruct (ua_Open _ _ _ _ _ _ _) as [[d|e|m] a]; [| |done].
  - destruct Ho as (Hia & -> & Hop). done.
  - destruct Ho as (Hia & Hv & e0 & Hno & He). destruct (not_opened_old n (half_of (w b)) (half_of (w (negb b))) p e0 _ H1 H2 Hp Hno) as (Hq & Hlt & Hpr).
    destruct Hno as (_ & _ & _ & _ & Hcase). split; [done|]. split; [done|]. split; [done|]. split.
    + intros E. destruct (Hpr E) as [-> ?]. destruct He as [->|[? _]]; done.
    + destruct He as [->|[_ ->]]; [|auto]. destruct Hcase as [?|[?|?]]; auto; done.
Qed.

Lemma SetLargestAcked_spec (a : updatableAEAD A) q :
  ~ (vFirstSent (view a) <> -1 /\ vFirstSent (view a) <= q /\ vNumRcvd (view a) = 0) ->
  SetLargestAcked q a = (Ok tt, ua_largestAcked q a).
Proof.
  intros Hn. unfold SetLargestAcked, mbind, stM_bind, get, InvalidPacketNumber. cbn in Hn.
  destruct (negb _ && _ && _) eqn:E; [exfalso; apply Hn; lia|done].
Qed.

Lemma arrive_inv n w b p rtt rcvTime : ku_inv n w -> n + 1 < 2 ^ 62 -> p ∈ epSent (w (negb b)) ->
  match ep_arrive p rtt rcvTime (w b) with
  | Ok e => ku_inv (n + 1) (setEp b e w)
  | Err err => err = errAEADLimitReached
  | Panic _ => False
  end.
Proof.
  intros Hi Hn Hp. pose proof (arrive_open n w b p rtt rcvTime Hi Hn Hp) as Ho.
  pose proof (ku_pair _ _ Hi b) as H1. pose proof (ku_pair _ _ Hi (negb b)) as H2. rewrite negb_involutive in H2.
  unfold ep_arrive. destruct (ua_Open _ _ _ _ _ _ _) as [[d|e|m] a]; [| |done].
  - destruct Ho as (Hia & _ & Hop).
    pose proof (open_sender n (half_of (w b)) _ p (view a) H1 H2 ltac:(lia) Hp Hop) as Hs.
    pose proof (open_receiver n (half_of (w b)) _ p (view a) H2 H1 Hp Hop) as Hr.
    destruct (pkAck p) as [q|] eqn:Eack.
    + rewrite SetLargestAcked_spec by by eapply (ack_after_open n (half_of (w b))); eauto; lia.
      eapply ku_inv_set; [done|by destruct Hia; constructor|..|by apply (ku_sealed _ _ Hi)].
      * exact (ack_sender _ _ _ p q Hs Hp Eack).
      * by apply (ack_receiver (n + 1) (h_opened (pkPN p) (h_view (view a) (half_of (w b))))).
    + eapply ku_inv_set; [done|done|done|done|by apply (ku_sealed _ _ Hi)].
  - destruct Ho as (Hia & Hv & _ & _ & He).
    assert (Hk : ku_inv (n + 1) (setEp b (mkEndpoint a (epNextPN (w b)) (epSent (w b)) (epOpened (w b))) w)).
    { eapply ku_inv_set; [done|done|..|by apply (ku_sealed _ _ Hi)]; unfold half_of; cbn; rewrite Hv;
        eapply pair_inv_mono; eauto; lia. }
    destruct He as [->|[->| ->]]; done.
Qed.

Lemma ku_do_inv n w o : ku_inv n w -> n + 1 < 2 ^ 62 ->
  match ku_do w o with
  | Ok w' => ku_inv (n + 1) w'
  | Err err => err = errAEADLimitReached
  | Panic _ => False
  end.
Proof.
  intros Hi Hn. assert (Hsame : ku_inv (n + 1) w).
  { destruct Hi. constructor; auto. intros b. eapply pair_inv_mono; eauto; lia. }
  destruct o as [b pn ack payload ad|b i rtt rcvTime|b]; cbn [ku_do].
  - destruct ((epNextPN (w b) <=? pn) && ack_allowed ack (w b)) eqn:E; [|done]. apply andb_prop in E as [E1 E2].
    destruct (send_inv n w b pn ack payload ad Hi Hn ltac:(lia) E2) as (e & -> & He). done.
  - destruct (epSent (w (negb b)) !! i) as [p|] eqn:E; [|done]. apply list_elem_of_lookup_2 in E.
    pose proof (arrive_inv n w b p rtt rcvTime Hi Hn E) as Ha. by destruct (ep_arrive p rtt rcvTime (w b)).
  - cbn. eapply ku_inv_set; [exact Hsame|..|by apply (ku_sealed _ _ Hi)].
    + pose proof (ku_aead _ _ Hi b) as []. by constructor.
    + apply (ku_pair _ _ Hsame).
    + pose proof (ku_pair _ _ Hsame (negb b)) as Hq. by rewrite negb_involutive in Hq.
Qed.

Lemma ku_run_inv os : forall n w, ku_inv n w -> n + blen os < 2 ^ 62 ->
  match ku_run w os with
  | Ok w' => ku_inv (n + blen os) w'
  | Err err => err = errAEADLimitReached
  | Panic _ => False
  end.
Proof.
  induction os as [|o os IH]; intros n w Hi Hn; cbn [ku_run]; [by rewrite blen_nil, Z.add_0_r|].
  rewrite blen_cons in *. pose proof (blen_nonneg os). pose proof (ku_do_inv n w o Hi ltac:(lia)) as Hd.
  destruct (ku_do w o) as [w'| |]; cbn [mbind res_bind]; [|done..].
  specialize (IH (n + 1) w' Hd ltac:(lia)). by rewrite (Z.add_assoc n).
Qed.

Lemma ku_start_inv : exists w, ku_start = Ok w /\ ku_inv 0 w.
Proof.
  destruct (ku_setup_inv true) as (a0 & E0 & I0 & V0). destruct (ku_setup_inv false) as (a1 & E1 & I1 & V1).
  unfold ku_start. rewrite E0, E1. cbn [mbind res_bind]. eexists. split; [reflexivity|].
  constructor; [by intros []| |by intros b p Hp%not_elem_of_nil].
  intros []; unfold half_of; cbn; rewrite V0, V1; constructor; cbn; try done; try lia;
    try (by left); intros; match goal with Hin : _ ∈ [] |- _ => by apply not_elem_of_nil in Hin end.
Qed.

(** The phases of the two endpoints are at most one apart; a packet of the peer
    opens to what was sealed, unless it is of an older phase than the current one,
    and of the previous one only if that key has been dropped. *)
Definition synchronised (w : world) : Prop := forall b,
  let a := epAEAD (w b) in
  uKeyPhase a <= uKeyPhase (epAEAD (w (negb b))) + 1 /\
  forall p rtt rcvTime, p ∈ epSent (w (negb b)) ->
    match (ua_Open rtt (pkBytes p) rcvTime (pkPN p) (pkBit p) (pkAD p) a).1 with
    | Ok d => d = pkPayload p
    | Err e => pkPhase p < uKeyPhase a /\
        (pkPhase p = uKeyPhase a - 1 -> e = ErrKeysDropped /\ uPrevRcvAEAD (dropExpired rcvTime a) = None)
    | Panic _ => False
    end.

End system.

(** ** A toy cipher that satisfies the laws

    The key is the seal, and the next secret is the successor. *)

Definition toy_value (s : bytes) : Z := Varint.be_value 0 (take 8 s).
Definition toy_secret (k : Z) : bytes := putUint64 k ++ replicate 24 0.
Definition toy_tag (key : bytes) : bytes := resize 16 0 key.

#[export] Instance toy_crypto : Crypto bytes := {
  newAEAD _ key := key;
  aead_Seal key _ p _ := p ++ toy_tag key;
  aead_Open key _ c _ :=
    if decide (drop (length c - 16) c = toy_tag key) then Some (take (length c - 16) c) else None;
  aead_Overhead _ := 16;
  aes_Encrypt _ b := b;
  chacha20_XORKeyStream _ _ _ b := b;
  hkdf_Expand _ s _ n := if n =? 32 then toy_secret (toy_value s + 1) else resize (Z.to_nat n) 0 s;
  hkdf_Extract _ s _ := s
}.

Lemma toy_open_seal key nonce p ad ad' key' : @aead_Open bytes _ key' nonce (aead_Seal key nonce p ad) ad' =
  if decide (toy_tag key = toy_tag key') then Some p else None.
Proof.
  cbn. assert (length (toy_tag key) = 16%nat) as Hl by apply length_resize.
  rewrite length_app, Hl, Nat.add_sub, drop_app_length, take_app_length. done.
Qed.

#[export] Instance toy_laws : CryptoLaws bytes.
Proof.
  split.
  - intros. rewrite toy_open_seal. by rewrite decide_True.
  - intros. cbn. rewrite blen_app. f_equal. unfold blen, toy_tag. by rewrite length_resize.
  - done.
  - done.
  - done.
  - intros h s info n Hn. cbn. destruct (Z.eqb_spec n 32) as [->|]; [done|]. unfold blen. rewrite length_resize. lia.
Qed.

Lemma putUint64_value k : 0 <= k < 2 ^ 64 -> be_value 0 (putUint64 k) = k.
Proof. intros Hk. unfold putUint64. digits k. unfold is_u8 in *. cbn [be_value]. lia. Qed.

Definition toy_suite : cipherSuite := mkSuite TLS_AES_128_GCM_SHA256 SHA256 16.

Lemma toy_secretAt s k : 0 <= s < 2 ^ 63 -> 0 <= k < 2 ^ 63 -> secretAt toy_suite (toy_secret s) k = toy_secret (s + k).
Proof.
  intros Hs Hk. unfold secretAt. rewrite <- (Z2Nat.id k) at 2 by lia.
  assert (Hn : Z.of_nat (Z.to_nat k) < 2 ^ 63) by lia. revert Hn. generalize (Z.to_nat k) as n. clear Hk.
  induction n as [|n IH]; intros Hn; [by rewrite Z.add_0_r|]. rewrite Nat.iter_succ, IH by lia.
  change (nextSecret toy_suite ?x) with (toy_secret (toy_value x + 1)). f_equal. unfold toy_value, toy_secret.
  rewrite (take_app_length' (putUint64 _)) by done. rewrite putUint64_value; lia.
Qed.

Lemma toy_genAt s k v : 0 <= s < 2 ^ 63 -> 0 <= k < 2 ^ 63 ->
  exists iv, genAt toy_suite v (toy_secret s) k = Some (mkXorNonce iv (resize 16 0 (toy_secret (s + k)))).
Proof.
  intros Hs Hk. unfold genAt, createAEAD. rewrite toy_secretAt by done.
  eexists. unfold hkdfExpandLabel, suite_AEAD. cbn. unfold blen. rewrite !length_resize. reflexivity.
Qed.

Lemma toy_tag_inj i j : 0 <= i < 2 ^ 64 -> 0 <= j < 2 ^ 64 ->
  toy_tag (resize 16 0 (toy_secret i)) = toy_tag (resize 16 0 (toy_secret j)) -> i = j.
Proof.
  intros Hi Hj E. rewrite <- (putUint64_value i), <- (putUint64_value j) by done.
  assert (Ht : forall k, take 8 (toy_tag (resize 16 0 (toy_secret k))) = putUint64 k) by done.
  by rewrite <- (Ht i), <- (Ht j), E.
Qed.

Definition toy_secrets (b : bool) : bytes := toy_secret (if b then 0 else 2 ^ 62).

Lemma toy_auth b i j x nonce pn p ad ad' : 0 <= i < 2 ^ 62 + 1 -> 0 <= j < 2 ^ 62 -> i <> j ->
  genAt toy_suite Version1 (toy_secrets b) i = Some x ->
  aead_Open (xaead x) nonce (sealAt toy_suite Version1 (toy_secrets b) j pn p ad) ad' = None.
Proof.
  intros Hi Hj Hne Hx. unfold toy_secrets in *. set (s := if b then 0 else 2 ^ 62) in *.
  assert (0 <= s < 2 ^ 63) by (destruct b; unfold s; lia).
  destruct (toy_genAt s i Version1) as (iv & Ei); [done|lia|]. rewrite Ei in Hx. injection Hx as <-.
  unfold sealAt. destruct (toy_genAt s j Version1) as (iv' & ->); [done|lia|]. cbn [xaead nonceMask].
  pose proof (toy_open_seal (resize 16 0 (toy_secret (s + j))) nonce p ad ad' (resize 16 0 (toy_secret (s + i)))) as E.
  rewrite decide_False in E; [exact E|]. intros Et%toy_tag_inj; lia.
Qed.

Definition ku_example : list ku_op :=
  [KConfirmed true; KSend true 0 None [1; 2] [9]; KArrive false 0 NewRTTStats 5;
   KSend false 0 (Some 0) [3] []; KArrive true 0 NewRTTStats 7; KArrive true 0 NewRTTStats 8].

