(* ===== verification/Unpacker.v ===== *)
(** * Unpacker: protecting and unprotecting packets

    Models packet_unpacker.go and [encryptPacket] of packet_packer.go.  The sealer
    of the packer is an interface with two implementations, the class [Sealer].
    The getters of the crypto setup return the keys that the handshake has made
    available so far, or the reason why there are none: [openers]. *)

From S2P Require Import Prelude Protocol Frames RTTStats Connection Headers Protection KeyUpdate.
From stdpp Require Import base numbers list option strings.
From Stdlib Require Import ZArith Lia.
#[local] Open Scope Z_scope.

Class Sealer (S : Type) := {
  seal_Seal : bytes -> Z -> bytes -> stM S bytes;
  seal_EncryptHeader : S -> bytes -> Z -> bytes -> res (Z * bytes);
  seal_Overhead : S -> Z
}.

Class HeaderDecryptor (O : Type) := {
  DecryptHeader : O -> bytes -> Z -> bytes -> res (Z * bytes)
}.

Section model.
Context {A : Type} `{Crypto A}.

#[export] Instance longHeaderSealer_Sealer : Sealer (longHeaderSealer A) := {
  seal_Seal := ls_Seal;
  seal_EncryptHeader s := hp_apply (lsHeaderProtector s);
  seal_Overhead s := aead_Overhead (xaead (lsAead s))
}.

#[export] Instance updatableAEAD_Sealer : Sealer (updatableAEAD A) := {
  seal_Seal := ua_Seal;
  seal_EncryptHeader a sample fb bs := ua_EncryptHeader sample fb bs a;
  seal_Overhead := uAeadOverhead
}.

#[export] Instance longHeaderOpener_HeaderDecryptor : HeaderDecryptor (longHeaderOpener A) := {
  DecryptHeader o := hp_apply (loHeaderProtector o)
}.

#[export] Instance updatableAEAD_HeaderDecryptor : HeaderDecryptor (updatableAEAD A) := {
  DecryptHeader a sample fb bs := ua_DecryptHeader sample fb bs a
}.

(** The AEAD writes its output over the payload; header protection then takes its
    sample four bytes after the start of the packet number. *)
Definition encryptPacket {S} `{Sealer S} (raw : bytes) (pn payloadOffset pnLen : Z) : stM S bytes :=
  payload ← lift (sliceOf raw payloadOffset (blen raw));
  ad ← lift (sliceOf raw 0 payloadOffset);
  ct ← seal_Seal payload pn ad;
  s ← get;
  let raw := ad ++ take (Z.to_nat (blen payload + seal_Overhead s)) ct in
  let pnOffset := payloadOffset - pnLen in
  sample ← lift (sliceOf raw (pnOffset + 4) (pnOffset + 4 + 16));
  b0 ← lift (byteAt raw 0);
  pnBytes ← lift (sliceOf raw pnOffset payloadOffset);
  '(fb, pnBytes) ← lift (seal_EncryptHeader s sample b0 pnBytes);
  mret (setRange (setRange raw 0 [fb]) pnOffset pnBytes).

(** ** Unpacking *)

Definition ErrInvalidReservedBits : GoError := ErrorString "invalid reserved bits".
Definition errEmptyPacket : GoError := TransportError 0xa 0 "empty packet".

(** The header, whether its reserved bits are valid, and the packet with its header protection removed. *)
Definition unpackLongHeader {O} `{HeaderDecryptor O} (hd : O) (hdr : Header) (data : bytes)
    : res (ExtendedHeader * bool * bytes) :=
  let hdrLen := hParsedLen hdr in
  if blen data <? hdrLen + 4 + 16
  then Err (ErrorString "Packet too small. Expected at least 20 bytes after the header, got %d")
  else
    origPNBytes ← sliceOf data hdrLen (hdrLen + 4);
    sample ← sliceOf data (hdrLen + 4) (hdrLen + 4 + 16);
    b0 ← byteAt data 0;
    '(fb, pnBytes) ← DecryptHeader hd sample b0 origPNBytes;
    let data := setRange (setRange data 0 [fb]) hdrLen pnBytes in
    '(extHdr, reservedBitsValid) ← (ParseExtended hdr data).1;
    let data := if negb (ehPacketNumberLen extHdr =? 4)
                then setRange data (ehParsedLen extHdr) (drop (Z.to_nat (ehPacketNumberLen extHdr)) origPNBytes)
                else data in
    Ok (extHdr, reservedBitsValid, data).

(** The error is a [headerParseError]. *)
Definition headerParse {T} (r : res T) : res T := match r with Err e => Err (HeaderParseError e) | _ => r end.

Definition setPacketNumber (pn : Z) (e : ExtendedHeader) : ExtendedHeader :=
  mkExtended (ehHeader e) (ehTypeByte e) (ehPacketNumberLen e) pn (ehParsedLen e).

Definition unpackLongHeaderPacket (hdr : Header) (data : bytes) : stM (longHeaderOpener A) (ExtendedHeader * bytes) :=
  o ← get;
  '(extHdr, valid, data) ← lift (headerParse (unpackLongHeader o hdr data));
  let extHdrLen := ehParsedLen extHdr in
  let pn := lo_DecodePacketNumber (ehPacketNumber extHdr) (ehPacketNumberLen extHdr) o in
  src ← lift (sliceOf data extHdrLen (blen data));
  ad ← lift (sliceOf data 0 extHdrLen);
  decrypted ← lo_Open src pn ad;
  if negb valid then throw ErrInvalidReservedBits else mret (setPacketNumber pn extHdr, decrypted).

Record openers := mkOpeners {
  opInitial : res (longHeaderOpener A);
  opHandshake : res (longHeaderOpener A);
  op0RTT : res (longHeaderOpener A);
  op1RTT : res (updatableAEAD A)
}.

Definition getOpener (lvl : EncryptionLevel) (os : openers) : res (longHeaderOpener A) :=
  match lvl with
  | EncryptionInitial => opInitial os
  | EncryptionHandshake => opHandshake os
  | Encryption0RTT => op0RTT os
  | Encryption1RTT => Panic "unreachable"
  end.

Definition setOpener (lvl : EncryptionLevel) (o : longHeaderOpener A) (os : openers) : openers :=
  match lvl with
  | EncryptionInitial => mkOpeners (Ok o) (opHandshake os) (op0RTT os) (op1RTT os)
  | EncryptionHandshake => mkOpeners (opInitial os) (Ok o) (op0RTT os) (op1RTT os)
  | Encryption0RTT => mkOpeners (opInitial os) (opHandshake os) (Ok o) (op1RTT os)
  | Encryption1RTT => os
  end.

(** The encryption level of a packet type; [None] for Retry packets and unknown types. *)
Definition levelOf (typ : option PacketType) : option EncryptionLevel :=
  match typ with
  | Some PacketTypeInitial => Some EncryptionInitial
  | Some PacketTypeHandshake => Some EncryptionHandshake
  | Some PacketType0RTT => Some Encryption0RTT
  | Some PacketTypeRetry | None => None
  end.

Definition UnpackLongHeader (hdr : Header) (data : bytes) : stM openers unpackedPacket :=
  match levelOf (hType hdr) with
  | None => throw (ErrorString "unknown packet type: %s")
  | Some lvl =>
      os ← get;
      opener ← lift (getOpener lvl os);
      let '(r, opener) := unpackLongHeaderPacket hdr data opener in
      _ ← modify (setOpener lvl opener);
      '(extHdr, decrypted) ← lift r;
      if blen decrypted =? 0 then throw errEmptyPacket
      else mret (mkUnpacked (ehPacketNumber extHdr) (hSrcConnectionID hdr) (hDestConnectionID hdr) lvl decrypted)
  end.

(** The result of [ParseShortHeader], and the packet with its header protection removed. *)
Definition unpackShortHeader {O} `{HeaderDecryptor O} (hd : O) (shortHdrConnIDLen : Z) (data : bytes)
    : res (Z * Z * Z * KeyPhaseBit * bool * bytes) :=
  let hdrLen := 1 + shortHdrConnIDLen in
  if blen data <? hdrLen + 4 + 16
  then Err (ErrorString "packet too small, expected at least 20 bytes after the header, got %d")
  else
    origPNBytes ← sliceOf data hdrLen (hdrLen + 4);
    sample ← sliceOf data (hdrLen + 4) (hdrLen + 4 + 16);
    b0 ← byteAt data 0;
    '(fb, pnBytes) ← DecryptHeader hd sample b0 origPNBytes;
    let data := setRange (setRange data 0 [fb]) hdrLen pnBytes in
    '(l, pn, pnLen, kp, valid) ← ParseShortHeader data shortHdrConnIDLen;
    let data := if negb (pnLen =? 4)
                then setRange data (hdrLen + pnLen) (drop (Z.to_nat pnLen) origPNBytes) else data in
    Ok (l, pn, pnLen, kp, valid, data).

Definition unpackShortHeaderPacket (rtt : RTTStats) (shortHdrConnIDLen rcvTime : Z) (data : bytes)
    : stM (updatableAEAD A) (Z * Z * KeyPhaseBit * bytes) :=
  o ← get;
  '(l, pn, pnLen, kp, valid, data) ← lift (headerParse (unpackShortHeader o shortHdrConnIDLen data));
  let pn := ua_DecodePacketNumber pn pnLen o in
  src ← lift (sliceOf data l (blen data));
  ad ← lift (sliceOf data 0 l);
  decrypted ← ua_Open rtt src rcvTime pn kp ad;
  if negb valid then throw ErrInvalidReservedBits else mret (pn, pnLen, kp, decrypted).

Definition UnpackShortHeader (rtt : RTTStats) (shortHdrConnIDLen rcvTime : Z) (data : bytes)
    : stM openers (Z * Z * KeyPhaseBit * bytes) :=
  os ← get;
  opener ← lift (op1RTT os);
  let '(r, opener) := unpackShortHeaderPacket rtt shortHdrConnIDLen rcvTime data opener in
  _ ← modify (fun os => mkOpeners (opInitial os) (opHandshake os) (op0RTT os) (Ok opener));
  '(pn, pnLen, kp, decrypted) ← lift r;
  if blen decrypted =? 0 then throw errEmptyPacket else mret (pn, pnLen, kp, decrypted).
End model.
Arguments openers : clear implicits.
