(* ===== verification/UnpackerProofs.v ===== *)
(** * UnpackerProofs: what is packed is what is unpacked

    Header protection is removed exactly, for every length of the packet number,
    and a long or short header packet that was sealed opens to its payload. *)

From S2P Require Import Prelude Protocol Varint Frames RTTStats Connection Headers HeaderProofs Protection ProtectionProofs KeyUpdate KeyUpdateProofs KeyUpdateClaims Unpacker.
From stdpp Require Import base numbers list option strings.
From Stdlib Require Import ZArith Lia.
#[local] Open Scope Z_scope.

(** Running the steps that cannot fail. *)
Lemma run_lift {S T U} (x : T) (f : T -> stM S U) s : (lift (Ok x) ≫= f) s = f x s.
Proof. done. Qed.
Lemma run_get {S U} (f : S -> stM S U) s : (get ≫= f) s = f s s.
Proof. done. Qed.

(** Bit by bit, on bytes: header protection does not touch the bits that tell the type of a packet. *)
Lemma land_lxor_above b m x k : 0 <= k -> 0 <= m < 2 ^ k -> (forall i, 0 <= i < k -> Z.testbit x i = false) ->
  Z.land (Z.lxor b m) x = Z.land b x.
Proof.
  intros Hk Hm Hx. apply Z.bits_inj'. intros i Hi. rewrite !Z.land_spec, Z.lxor_spec.
  destruct (Z.ltb_spec i k) as [?|Hge]; [by rewrite Hx, !andb_false_r|].
  replace (Z.testbit m i) with false; [by rewrite xorb_false_r|]. symmetry.
  destruct (Z.eq_dec m 0) as [->|]; [by rewrite Z.testbit_0_l|]. apply Z.bits_above_log2; [lia|].
  assert (Z.log2 m < k) by (apply Z.log2_lt_pow2; lia). lia.
Qed.

Lemma low_bits_clear x (k : nat) : forallb (fun i => negb (Z.testbit x (Z.of_nat i))) (seq 0 k) = true ->
  forall i, 0 <= i < Z.of_nat k -> Z.testbit x i = false.
Proof.
  intros H i Hi. rewrite forallb_forall in H. specialize (H (Z.to_nat i)). rewrite Z2Nat.id in H by lia.
  apply negb_true_iff, H, in_seq. lia.
Qed.

Lemma protected_long b m v : 0 <= m < 2 ^ 4 ->
  IsLongHeaderPacket (Z.lxor b m) = IsLongHeaderPacket b /\ Z.land (Z.lxor b m) 0x40 = Z.land b 0x40 /\
  packetTypeOf v (Z.lxor b m) = packetTypeOf v b.
Proof.
  intros Hm. unfold IsLongHeaderPacket, packetTypeOf, typeBits.
  rewrite (land_lxor_above b m 0x80 4), (land_lxor_above b m 0x40 4), Z.shiftr_lxor;
    try (lia || by apply (low_bits_clear _ 4)).
  replace (Z.shiftr m 4) with 0 by (rewrite Z.shiftr_div_pow2 by lia; symmetry; by apply Z.div_small).
  by rewrite Z.lxor_0_r.
Qed.

Section protection.
Context {A : Type} `{CryptoLaws A}.

(** ** Header protection *)

(** The mask over the packet number and the bytes behind it is its own inverse. *)
Lemma hp_apply_twice (p : headerProtector) sample b0 pbs c1 :
  blen sample = 16 -> blen (pbs ++ c1) = 4 ->
  let b0' := Z.lxor b0 (hp_bits p sample) in
  let pbs' := zip_with Z.lxor pbs (drop 1 (hp_mask p sample)) in
  exists c1', hp_apply p sample b0 pbs = Ok (b0', pbs') /\ blen pbs' = blen pbs /\
    hp_apply p sample b0' (pbs' ++ c1) = Ok (b0, pbs ++ c1') /\ blen c1' = blen c1.
Proof.
  intros Hs Hp b0' pbs'. rewrite blen_app in Hp. pose proof (blen_nonneg c1). pose proof (blen_nonneg pbs).
  pose proof (hp_mask_len p sample Hs) as Hm. unfold blen in Hm, Hp.
  assert (Hl : length pbs' = length pbs) by (unfold pbs'; rewrite length_zip_with, length_drop; lia).
  exists (zip_with Z.lxor c1 (drop (length pbs) (drop 1 (hp_mask p sample)))).
  rewrite !hp_apply_eq by (done || unfold blen; rewrite ?length_app; lia).
  split; [done|]. unfold blen. rewrite Hl. split; [done|]. split.
  - rewrite zip_lxor_app_l, Hl. unfold b0', pbs'. rewrite zip_lxor_involutive by (rewrite length_drop; lia).
    by rewrite Z.lxor_assoc, Z.lxor_nilpotent, Z.lxor_0_r.
  - rewrite length_zip_with, !length_drop. lia.
Qed.

(** ** Encrypting a packet *)

Lemma encryptPacket_eq {S} `{Sealer S} (s s' : S) b0 pre pbs payload pn c1 sample c2 b0' pbs' :
  seal_Seal payload pn ((b0 :: pre) ++ pbs) s = (Ok (c1 ++ sample ++ c2), s') ->
  blen (c1 ++ sample ++ c2) = blen payload + seal_Overhead s' -> blen sample = 16 -> blen pbs + blen c1 = 4 ->
  seal_EncryptHeader s' sample b0 pbs = Ok (b0', pbs') -> blen pbs' = blen pbs ->
  encryptPacket ((b0 :: pre) ++ pbs ++ payload) pn (1 + blen pre + blen pbs) (blen pbs) s =
    (Ok ((b0' :: pre) ++ pbs' ++ c1 ++ sample ++ c2), s').
Proof.
  intros Hseal Hlen Hs Hpc Hhp Hpl. unfold encryptPacket.
  set (hdr := (b0 :: pre) ++ pbs) in *.
  replace ((b0 :: pre) ++ pbs ++ payload) with (hdr ++ payload) by (unfold hdr; by rewrite <- (assoc_L (++))).
  assert (Hh : 1 + blen pre + blen pbs = blen hdr) by (unfold hdr; rewrite blen_app, blen_cons; lia).
  rewrite Hh. rewrite sliceOf_suffix, sliceOf_prefix.
  rewrite !run_lift, (stM_bind_ok _ _ _ _ _ Hseal), run_get, <- Hlen. set (ct := c1 ++ sample ++ c2) in *.
  rewrite take_ge by (unfold blen; rewrite Nat2Z.id; lia). cbv zeta.
  replace (blen hdr - blen pbs) with (blen (b0 :: pre)) by (unfold hdr; rewrite blen_app; lia).
  assert (E1 : sliceOf (hdr ++ ct) (blen (b0 :: pre) + 4) (blen (b0 :: pre) + 4 + 16) = Ok sample).
  { replace (hdr ++ ct) with (((b0 :: pre) ++ pbs ++ c1) ++ sample ++ c2)
      by (unfold hdr, ct; by rewrite <- !(assoc_L (++))).
    replace (blen (b0 :: pre) + 4) with (blen ((b0 :: pre) ++ pbs ++ c1)) by (rewrite !blen_app; lia).
    rewrite <- Hs. apply sliceOf_mid. }
  assert (E2 : sliceOf (hdr ++ ct) (blen (b0 :: pre)) (blen hdr) = Ok pbs).
  { unfold hdr. rewrite <- (assoc_L (++)), (blen_app _ pbs). apply sliceOf_mid. }
  rewrite E1, E2. change (byteAt (hdr ++ ct) 0) with (Ok b0).
  rewrite !run_lift, Hhp, run_lift.
  unfold mret, stM_ret. f_equal. f_equal. unfold hdr. cbn [app].
  change (setRange (b0 :: ((pre ++ pbs) ++ ct)) 0 [b0']) with (b0' :: ((pre ++ pbs) ++ ct)).
  rewrite <- (assoc_L (++)). change (b0' :: (pre ++ pbs ++ ct)) with ((b0' :: pre) ++ pbs ++ ct).
  rewrite (setRange_mid (b0' :: pre) pbs pbs' ct) by (by rewrite ?blen_cons). done.
Qed.

(** Removing the header protection. *)
Lemma unprotect (b0 b0' : Z) (pre pbs' c1 sample c2 pbs c1' : bytes) :
  blen pbs' + blen c1 = 4 -> blen sample = 16 -> blen pbs = blen pbs' -> blen c1' = blen c1 ->
  let data := (b0' :: pre) ++ pbs' ++ c1 ++ sample ++ c2 in
  let n := 1 + blen pre in
  (blen data <? n + 4 + 16) = false /\
  sliceOf data n (n + 4) = Ok (pbs' ++ c1) /\ sliceOf data (n + 4) (n + 4 + 16) = Ok sample /\ byteAt data 0 = Ok b0' /\
  setRange (setRange data 0 [b0]) n (pbs ++ c1') = (b0 :: pre) ++ pbs ++ c1' ++ sample ++ c2 /\
  (forall k, k = blen pbs ->
    (if negb (k =? 4) then setRange ((b0 :: pre) ++ pbs ++ c1' ++ sample ++ c2) (n + k) (drop (Z.to_nat k) (pbs' ++ c1))
     else (b0 :: pre) ++ pbs ++ c1' ++ sample ++ c2) = (b0 :: pre) ++ pbs ++ c1 ++ sample ++ c2).
Proof.
  intros Hp Hs Hl Hc data n. pose proof (blen_nonneg c2). pose proof (blen_nonneg pbs').
  pose proof (blen_cons b0' pre) as Hb'. pose proof (blen_cons b0 pre) as Hb. fold n in Hb, Hb'.
  split_and!.
  - unfold data. rewrite !blen_app, Hb'. apply Z.ltb_ge. lia.
  - unfold data. rewrite (assoc_L (++) pbs'), <- Hb'. replace 4 with (blen (pbs' ++ c1)) by (rewrite blen_app; lia).
    apply sliceOf_mid.
  - unfold data. replace ((b0' :: pre) ++ pbs' ++ c1 ++ sample ++ c2) with (((b0' :: pre) ++ pbs' ++ c1) ++ sample ++ c2)
      by (by rewrite <- !(assoc_L (++))).
    replace (n + 4) with (blen ((b0' :: pre) ++ pbs' ++ c1)) by (rewrite !blen_app; lia). rewrite <- Hs. apply sliceOf_mid.
  - done.
  - change (setRange data 0 [b0]) with ((b0 :: pre) ++ pbs' ++ c1 ++ sample ++ c2).
    rewrite (assoc_L (++) pbs'), setRange_mid by (rewrite ?blen_app; lia). by rewrite <- !(assoc_L (++)).
  - intros k ->. replace (drop (Z.to_nat (blen pbs)) (pbs' ++ c1)) with c1
      by (rewrite Hl; unfold blen; by rewrite Nat2Z.id, drop_app_length).
    destruct (Z.eqb_spec (blen pbs) 4) as [E|E]; cbn [negb].
    + assert (blen c1 = 0) by lia. assert (blen c1' = 0) by lia. unfold blen in *. by destruct c1, c1'.
    + rewrite (assoc_L (++) (b0 :: pre)), setRange_mid by (rewrite ?blen_app; lia). by rewrite <- !(assoc_L (++)).
Qed.

(** ** Long header keys *)

(** The sealer of one endpoint and the opener of the other. *)
Record keys_match (s : longHeaderSealer A) (o : longHeaderOpener A) : Prop := {
  km_aead : lsAead s = loAead o;
  km_hp : lsHeaderProtector s = loHeaderProtector o;
  km_long : hp_isLongHeader (loHeaderProtector o) = true;
  km_mask : blen (nonceMask (loAead o)) = 12;
  km_sealBuf : blen (lsNonceBuf s) = 8;
  km_openBuf : blen (loNonceBuf o) = 8
}.

Lemma ls_Seal_eq s o src pn ad : keys_match s o ->
  ls_Seal src pn ad s =
    (Ok (aead_Seal (xaead (loAead o)) (nonceOf (nonceMask (loAead o)) (putUint64 (u64 pn))) src ad),
     mkSealer (lsAead s) (lsHeaderProtector s) (putUint64 (u64 pn))).
Proof.
  intros [Ha _ _ Hm Hs _]. unfold ls_Seal, mbind, stM_bind, get, modify, lift. rewrite putNonce_eq by done.
  rewrite xor_Seal_eq by (by rewrite ?Ha). by rewrite Ha.
Qed.

Lemma lo_Open_eq s o src pn ad : keys_match s o ->
  let nonce := nonceOf (nonceMask (loAead o)) (putUint64 (u64 pn)) in
  lo_Open (aead_Seal (xaead (loAead o)) nonce src ad) pn ad o =
    (Ok src, mkOpener (loAead o) (loHeaderProtector o) (Z.max (loHighestRcvdPN o) pn) (putUint64 (u64 pn))).
Proof.
  intros [_ _ _ Hm _ Ho] nonce. unfold lo_Open, mbind, stM_bind, get, modify, lift. rewrite putNonce_eq by done.
  rewrite xor_Open_eq by done. fold nonce. rewrite aead_open_seal. done.
Qed.
End protection.

(** ** Long header packets *)

Section long.
Context {A : Type} `{CryptoLaws A}.

(** A ciphertext has a sample: the bytes that complete the packet number to four, and the 16 behind them. *)
Lemma sample_split (ct : bytes) n : 0 <= n -> n + 16 <= blen ct ->
  exists c1 sample c2, ct = c1 ++ sample ++ c2 /\ blen c1 = n /\ blen sample = 16.
Proof.
  intros Hn Hl. unfold blen in *.
  exists (take (Z.to_nat n) ct), (take 16 (drop (Z.to_nat n) ct)), (drop 16 (drop (Z.to_nat n) ct)).
  rewrite !take_drop, !length_take, length_drop. split; [done|]. lia.
Qed.

(** Removing the protection of a long header packet and reading the header. *)
Lemma unpackLongHeader_ok {O} `{HeaderDecryptor O} (hd : O) (h : Header) b0 b0' pre pbs pbs' c1 c1' sample c2 pn :
  hParsedLen h = 1 + blen pre -> blen pbs' + blen c1 = 4 -> blen sample = 16 -> blen pbs = blen pbs' -> blen c1' = blen c1 ->
  DecryptHeader hd sample b0' (pbs' ++ c1) = Ok (b0, pbs ++ c1') ->
  Z.land b0 0x3 + 1 = blen pbs ->
  (forall r, readPacketNumber (blen pbs) (pbs ++ r) = (Ok pn, r)) ->
  unpackLongHeader hd h ((b0' :: pre) ++ pbs' ++ c1 ++ sample ++ c2) =
    Ok (mkExtended h b0 (blen pbs) pn (1 + blen pre + blen pbs), Z.land b0 0xc =? 0, ((b0 :: pre) ++ pbs) ++ c1 ++ sample ++ c2).
Proof.
  intros Hh Hp Hs Hl Hc Hdec H3 Hpn. destruct (unprotect b0 b0' pre pbs' c1 sample c2 pbs c1' Hp Hs Hl Hc)
    as (E0 & E1 & E2 & E3 & E4 & E5). unfold unpackLongHeader. rewrite Hh, E0, E1. cbn [mbind res_bind].
  rewrite E2. cbn [mbind res_bind]. rewrite E3. cbn [mbind res_bind]. rewrite Hdec. cbn [mbind res_bind]. rewrite E4.
  rewrite <- H3 in Hpn. rewrite (ParseExtended_spec h b0 pre pbs pn _ Hh Hpn), H3. cbn [fst mbind res_bind ehPacketNumberLen ehParsedLen].
  rewrite E5 by done. by rewrite <- (assoc_L (++) (b0 :: pre)).
Qed.

Lemma long_packet_opens e v typ lvl payload rest (s : longHeaderSealer A) (os : openers A) o :
  let h := ehHeader e in let n := ehPacketNumberLen e in let pn := ehPacketNumber e in
  long_sendable e v typ -> hLength h = n + blen payload + 16 -> blen (hToken h) + blen rest < 2 ^ 61 ->
  0 < blen payload -> 4 <= n + blen payload ->
  levelOf (Some typ) = Some lvl -> getOpener lvl os = Ok o -> keys_match s o ->
  0 <= loHighestRcvdPN o < 2 ^ 61 -> 0 <= pn < 2 ^ 62 -> Z.abs (pn - (loHighestRcvdPN o + 1)) < 2 ^ (8 * n - 1) ->
  exists hdr packet s' h' o',
    ext_Append [] e v = Ok hdr /\
    encryptPacket (hdr ++ payload) pn (blen hdr) n s = (Ok packet, s') /\
    ParsePacket (packet ++ rest) = Ok (ParsedPacket h' packet rest) /\
    UnpackLongHeader h' packet os =
      (Ok (mkUnpacked pn (hSrcConnectionID h) (hDestConnectionID h) lvl payload), setOpener lvl o' os) /\
    keys_match s' o' /\ loHighestRcvdPN o' = Z.max (loHighestRcvdPN o) pn /\ hVersion h' = v /\ hType h' = Some typ.
Proof.
  intros h n pn Hls Hlen Hsz Hpl H4 Hlvl Hop Hk Hhi Hpn Hwin.
  destruct (long_layout e v typ Hls) as (pre & pbs & Ha & _ & Hpb & Hpre & Hpr & Hph). fold h n pn in Ha, Hpb, Hpre, Hpr, Hph.
  destruct (longFirstByte_spec v typ _ (ls_supported _ _ _ Hls) (ls_pnLen _ _ _ Hls)) as (_ & Hlong & H40 & Hty & H3 & Hc).
  fold n in Hlong, H40, Hty, H3, Hc. set (b0 := longFirstByte v typ n) in *.
  pose proof (ls_pnLen _ _ _ Hls) as Hn. fold n in Hn. pose proof (ls_length _ _ _ Hls) as Hll. fold h in Hll.
  set (hdr := (b0 :: pre) ++ pbs) in *.
  pose proof (ls_Seal_eq s o payload pn hdr Hk) as Hseal.
  pose proof (lo_Open_eq s o payload pn hdr Hk) as Hopen. cbv zeta in Hopen.
  set (nonce := nonceOf (nonceMask (loAead o)) (putUint64 (u64 pn))) in *.
  pose proof (aead_seal_len (xaead (loAead o)) nonce payload hdr) as Hct. rewrite aead_overhead in Hct.
  set (ct := aead_Seal (xaead (loAead o)) nonce payload hdr) in *.
  destruct (sample_split ct (4 - n)) as (c1 & sample & c2 & Ect & Hc1 & Hs); [lia..|]. rewrite Ect in Hseal, Hopen.
  destruct (hp_apply_twice (loHeaderProtector o) sample b0 pbs c1 Hs) as (c1' & Henc & Hl' & Hdec & Hc1');
    [rewrite blen_app; lia|]. cbv zeta in Henc, Hl', Hdec.
  pose proof (hp_bits_range (loHeaderProtector o) sample) as Hbits. rewrite (km_long _ _ Hk) in Hbits.
  destruct (protected_long b0 _ v Hbits) as (Hlong' & H40' & Hty').
  set (b0' := Z.lxor b0 (hp_bits (loHeaderProtector o) sample)) in *.
  set (pbs' := zip_with Z.lxor pbs _) in *. clearbody b0' pbs'.
  set (s' := mkSealer (lsAead s) (lsHeaderProtector s) (putUint64 (u64 pn))) in *.
  set (o' := mkOpener (loAead o) (loHeaderProtector o) (Z.max (loHighestRcvdPN o) pn) (putUint64 (u64 pn))) in *.
  assert (Hhdr : blen hdr = 1 + blen pre + n) by (unfold hdr; rewrite blen_app, blen_cons; lia).
  exists hdr, ((b0' :: pre) ++ pbs' ++ ct), s'.
  exists (mkHeader b0' (Some typ) v (hSrcConnectionID h) (hDestConnectionID h) (hLength h) (hToken h) (1 + blen pre)), o'.
  split_and!; [done| | | | |done|done|done].
  - rewrite Ect in Hct |- *. unfold hdr in *. rewrite <- (assoc_L (++)), Hhdr, <- Hpb.
    eapply encryptPacket_eq; [exact Hseal| |done|lia| |done].
    + cbn. rewrite aead_overhead. exact Hct.
    + cbn. rewrite (km_hp _ _ Hk). exact Henc.
  - assert (Hb : blen pre + blen ((pbs' ++ ct) ++ rest) < 2 ^ 62) by (rewrite !blen_app; unfold maxVarInt2 in *; lia).
    eapply (ParsePacket_cut _ _ (2 ^ 63)); [by cbn; rewrite Hlong'| |done| | |done].
    + rewrite <- (assoc_L (++)), Hph; [done|by rewrite H40'|by rewrite Hty'|exact Hb].
    + cbn [hParsedLen hLength]. rewrite !blen_app, blen_cons. lia.
    + rewrite !blen_app, blen_cons in *. lia.
  - unfold UnpackLongHeader. cbn [hType]. rewrite Hlvl, run_get, Hop, run_lift.
    unfold unpackLongHeaderPacket. rewrite run_get, Ect.
    rewrite (unpackLongHeader_ok (O := longHeaderOpener A) o _ b0 b0' pre pbs pbs' c1 c1' sample c2 (pn mod 2 ^ (8 * n)))
      by (done || lia || by rewrite Hpb).
    cbn [headerParse]. rewrite run_lift. cbn [ehParsedLen ehPacketNumber ehPacketNumberLen].
    unfold lo_DecodePacketNumber. rewrite Hpb, DecodePacketNumber_window by done.
    fold hdr. rewrite <- Hhdr, sliceOf_suffix, sliceOf_prefix, !run_lift, (stM_bind_ok _ _ _ _ _ Hopen), Hc.
    cbn [negb Z.eqb setPacketNumber]. unfold mbind, stM_bind, modify, lift, mret, stM_ret. cbn.
    by zfalse (blen payload =? 0).
  - destruct Hk. by constructor.
Qed.

(** C11: A long header packet that is sealed is the packet that is opened.  The
    packer appends the header, seals the payload and protects the header; whatever
    follows in the datagram, [ParsePacket] cuts the packet at its end without the
    keys, and [UnpackLongHeader] at the peer removes the header protection for any
    length of the packet number, recovers the full packet number and returns the
    payload at the right encryption level.  The keys of the two endpoints still
    match afterwards. *)
Theorem long_packet_roundtrip e v typ lvl payload rest (s : longHeaderSealer A) (os : openers A) o :
  let h := ehHeader e in let n := ehPacketNumberLen e in let pn := ehPacketNumber e in
  long_sendable e v typ -> hLength h = n + blen payload + 16 -> blen (hToken h) + blen rest < 2 ^ 61 ->
  0 < blen payload -> 4 <= n + blen payload ->
  levelOf (Some typ) = Some lvl -> getOpener lvl os = Ok o -> keys_match s o ->
  0 <= loHighestRcvdPN o < 2 ^ 61 -> 0 <= pn < 2 ^ 62 -> Z.abs (pn - (loHighestRcvdPN o + 1)) < 2 ^ (8 * n - 1) ->
  exists hdr packet s' h' o',
    ext_Append [] e v = Ok hdr /\
    encryptPacket (hdr ++ payload) pn (blen hdr) n s = (Ok packet, s') /\
    ParsePacket (packet ++ rest) = Ok (ParsedPacket h' packet rest) /\
    UnpackLongHeader h' packet os =
      (Ok (mkUnpacked pn (hSrcConnectionID h) (hDestConnectionID h) lvl payload), setOpener lvl o' os) /\
    keys_match s' o' /\ loHighestRcvdPN o' = Z.max (loHighestRcvdPN o) pn.
Proof.
  intros. destruct (long_packet_opens e v typ lvl payload rest s os o) as (hdr & packet & s' & h' & o' & E1 & E2 & E3 & E4 & E5 & E6 & _); try done.
  by exists hdr, packet, s', h', o'.
Qed.

(** Client and server derive matching Initial keys from the client's
    connection ID, for every version: each one's sealer fits the other's opener. *)
Theorem initial_keys_match connID v :
  exists cs co ss so,
    NewInitialAEAD connID PerspectiveClient v = Ok (cs, co) /\ NewInitialAEAD connID PerspectiveServer v = Ok (ss, so) /\
    keys_match cs so /\ keys_match ss co /\ loHighestRcvdPN co = 0 /\ loHighestRcvdPN so = 0.
Proof.
  unfold NewInitialAEAD, computeSecrets, computeInitialKeyAndIV, suite_AEAD.
  destruct (hkdfExpandLabel_total SHA256 (hkdf_Extract SHA256 connID (getSalt v)) [] "client in" (hash_Size SHA256))
    as (c & -> & _); [done|].
  destruct (hkdfExpandLabel_total SHA256 (hkdf_Extract SHA256 connID (getSalt v)) [] "server in" (hash_Size SHA256))
    as (s & -> & _); [done|].
  cbn [mbind res_bind]. rewrite decide_True, decide_False by done.
  assert (Hiv : forall x, exists iv, hkdfExpandLabel SHA256 x []
    (if v =? Version2 then hkdfLabelIVV2 else hkdfLabelIVV1) 12 = Ok iv /\ blen iv = 12)
    by (intros; by apply hkdfExpandLabel_total).
  assert (Hkey : forall x, exists key, hkdfExpandLabel SHA256 x []
    (if v =? Version2 then hkdfLabelKeyV2 else hkdfLabelKeyV1) 16 = Ok key /\ blen key = 16)
    by (intros; by apply hkdfExpandLabel_total).
  destruct (Hkey c) as (kc & -> & _), (Hkey s) as (ks & -> & _), (Hiv c) as (ic & -> & Hic), (Hiv s) as (ivs & -> & His).
  destruct (newHeaderProtector_total initialSuite c true v) as (pc & -> & Hpc); [done|].
  destruct (newHeaderProtector_total initialSuite s true v) as (ps & -> & Hps); [done|].
  cbn [mbind res_bind]. unfold aeadNonceLength. rewrite Hic, His. cbn [negb Z.eqb Pos.eqb].
  do 4 eexists. split; [reflexivity|]. split; [reflexivity|]. split_and!; done.
Qed.
End long.

(** A client sends an Initial packet with a token and a packet number of one byte to a server. *)
Definition initial_example : ExtendedHeader :=
  mkExtended (mkHeader 0 (Some PacketTypeInitial) Version1 [1; 2; 3] [4; 5; 6; 7] 21 [0xaa] 0) 0 1 7 0.

Definition toy_client : longHeaderSealer bytes :=
  match NewInitialAEAD [4; 5; 6; 7] PerspectiveClient Version1 with
  | Ok (s, _) => s
  | _ => newLongHeaderSealer (mkXorNonce [] []) (aesHeaderProtector [] true)
  end.
Definition toy_server : longHeaderOpener bytes :=
  match NewInitialAEAD [4; 5; 6; 7] PerspectiveServer Version1 with
  | Ok (_, o) => o
  | _ => newLongHeaderOpener (mkXorNonce [] []) (aesHeaderProtector [] true)
  end.
Definition toy_openers : openers bytes :=
  mkOpeners (Ok toy_server) (Err ErrKeysDropped) (Err ErrKeysDropped) (Err ErrKeysDropped).

Lemma long_packet_roundtrip_witness :
  exists hdr packet s' h' o',
    ext_Append [] initial_example Version1 = Ok hdr /\
    encryptPacket (hdr ++ [6; 0; 0; 0]) 7 (blen hdr) 1 toy_client = (Ok packet, s') /\
    ParsePacket (packet ++ [99; 98]) = Ok (ParsedPacket h' packet [99; 98]) /\
    UnpackLongHeader h' packet toy_openers =
      (Ok (mkUnpacked 7 [1; 2; 3] [4; 5; 6; 7] EncryptionInitial [6; 0; 0; 0]), setOpener EncryptionInitial o' toy_openers) /\
    keys_match s' o' /\ loHighestRcvdPN o' = 7.
Proof.
  apply (long_packet_roundtrip initial_example Version1 PacketTypeInitial EncryptionInitial [6; 0; 0; 0] [99; 98]
           toy_client toy_openers toy_server);
    [constructor; vm_compute; first [by auto | done | split; discriminate] | reflexivity | reflexivity | reflexivity
    | vm_compute; discriminate | reflexivity | reflexivity | constructor; reflexivity
    | split; [vm_compute; discriminate | reflexivity] | split; [vm_compute; discriminate | reflexivity] | reflexivity].
Defined.

(** With the toy cipher, the keys for one connection ID. *)
Lemma initial_keys_match_witness :
  exists cs co ss so : _,
    @NewInitialAEAD bytes _ [1; 2; 3; 4; 5; 6; 7; 8] PerspectiveClient Version1 = Ok (cs, co) /\
    @NewInitialAEAD bytes _ [1; 2; 3; 4; 5; 6; 7; 8] PerspectiveServer Version1 = Ok (ss, so) /\
    keys_match cs so /\ keys_match ss co /\ loHighestRcvdPN co = 0 /\ loHighestRcvdPN so = 0.
Proof. exact (initial_keys_match [1; 2; 3; 4; 5; 6; 7; 8] Version1). Defined.

(** ** Short header packets *)

Section short.
Context {A : Type} `{CryptoLaws A} (suite : cipherSuite) (v : Z).
Context (Hsuite : suite_ok suite).
Implicit Types a : updatableAEAD A.

Lemma unpackShortHeader_ok {O} `{HeaderDecryptor O} (hd : O) (b0 b0' : Z) (connID : bytes) pbs pbs' c1 c1' sample c2 pn kp :
  blen pbs' + blen c1 = 4 -> blen sample = 16 -> blen pbs = blen pbs' -> blen c1' = blen c1 ->
  DecryptHeader hd sample b0' (pbs' ++ c1) = Ok (b0, pbs ++ c1') ->
  (forall r, ParseShortHeader ((b0 :: connID) ++ pbs ++ r) (blen connID) =
     Ok (1 + blen connID + blen pbs, pn, blen pbs, kp, true)) ->
  unpackShortHeader hd (blen connID) ((b0' :: connID) ++ pbs' ++ c1 ++ sample ++ c2) =
    Ok (1 + blen connID + blen pbs, pn, blen pbs, kp, true, ((b0 :: connID) ++ pbs) ++ c1 ++ sample ++ c2).
Proof.
  intros Hp Hs Hl Hc Hdec Hps. destruct (unprotect b0 b0' connID pbs' c1 sample c2 pbs c1' Hp Hs Hl Hc)
    as (E0 & E1 & E2 & E3 & E4 & E5). unfold unpackShortHeader. rewrite E0, E1. cbn [mbind res_bind].
  rewrite E2. cbn [mbind res_bind]. rewrite E3. cbn [mbind res_bind]. rewrite Hdec. cbn [mbind res_bind].
  rewrite E4, Hps. cbn [mbind res_bind]. rewrite E5 by done. by rewrite <- (assoc_L (++) (b0 :: connID)).
Qed.

(** The receiver opens a packet of its own phase. *)
Lemma Open_same ws rs rtt rcvTime pn p ad (b : updatableAEAD A) : ua_inv suite v ws rs b ->
  exists b', ua_Open rtt (sealAt suite v rs (uKeyPhase b) pn p ad) rcvTime pn (KeyPhase_Bit (uKeyPhase b)) ad b = (Ok p, b') /\
    ua_inv suite v ws rs b'.
Proof.
  intros Hi. unfold ua_Open. rewrite (open_eq suite v ws rs) by done. cbv zeta.
  destruct (dropExpired_spec suite v ws rs rcvTime b Hi) as [Hi1 Hv1]. set (b1 := dropExpired rcvTime b) in *.
  assert (Hk : uKeyPhase b = uKeyPhase b1) by (injection Hv1 as -> _; done). rewrite Hk.
  unfold openWith. rewrite bool_decide_true by done. cbn [negb].
  destruct (genAt_some suite v Hsuite rs (uKeyPhase b1)) as (x & Ex & _ & Hx).
  set (n := putUint64 (u64 pn)). destruct (ua_nonce_inv suite v ws rs n b1 eq_refl Hi1) as [Hb _].
  assert (Hr : uRcvAEAD (ua_nonce n b1) = Some x) by (rewrite (ui_rcv _ _ _ _ _ Hb); exact Ex).
  rewrite (stM_bind_ok _ _ _ _ _ (withAEAD_open suite v Hsuite uRcvAEAD ua_rcv n _ ad _ _ rs x Hr Ex eq_refl)).
  rewrite ua_rcv_same by done. unfold sealAt. rewrite Ex. unfold n. rewrite aead_open_seal.
  unfold mbind, stM_bind, modify, mret, stM_ret, startKeyDropTimer. destruct Hb.
  destruct (uFirstRcvdWithCurrentKey b1 =? InvalidPacketNumber); [destruct (0 <? uKeyPhase b1)|]; eexists;
    (split; [reflexivity|]); by constructor.
Qed.

(** The sealed bytes, and what sealing leaves alone. *)
Lemma Seal_header ws rs a p pn ad : ua_inv suite v ws rs a ->
  exists a', ua_Seal p pn ad a = (Ok (sealAt suite v ws (uKeyPhase a) pn p ad), a') /\ ua_inv suite v ws rs a' /\
    uAeadOverhead a' = uAeadOverhead a /\ uHeaderEncrypter a' = uHeaderEncrypter a.
Proof.
  intros Hi. destruct (Seal_spec suite v Hsuite ws rs a p pn ad Hi) as (a' & E & Hi' & _). exists a'.
  split; [done|]. split; [done|]. unfold ua_Seal, withAEAD, mbind, stM_bind, get, modify, lift in E.
  cbn in E. repeat case_match; simplify_eq; done.
Qed.
(** A short header packet that is sealed with the current 1-RTT key opens at
    the peer: the packer appends the header with the key phase bit, seals and
    protects it, and [UnpackShortHeader] at an endpoint of the same key phase
    returns the full packet number, its length, the key phase and the payload,
    with the keys of both endpoints still in step. *)
Theorem short_packet_roundtrip ws rs (a b : updatableAEAD A) (p : headerProtector) (os : openers A)
    connID pn pnLen payload rtt rcvTime :
  ua_inv suite v ws rs a -> ua_inv suite v rs ws b -> uKeyPhase a = uKeyPhase b ->
  uAeadOverhead a = 16 -> uHeaderEncrypter a = Some p -> uHeaderDecrypter b = Some p -> op1RTT os = Ok b ->
  1 <= pnLen <= 4 -> 0 < blen payload -> 4 <= pnLen + blen payload ->
  0 <= uHighestRcvdPN b < 2 ^ 61 -> 0 <= pn < 2 ^ 62 -> Z.abs (pn - (uHighestRcvdPN b + 1)) < 2 ^ (8 * pnLen - 1) ->
  let kp := KeyPhase_Bit (uKeyPhase a) in
  exists hdr packet a' b',
    AppendShortHeader [] connID pn pnLen kp = Ok hdr /\ blen hdr = ShortHeaderLen connID pnLen /\
    encryptPacket (hdr ++ payload) pn (blen hdr) pnLen a = (Ok packet, a') /\
    UnpackShortHeader rtt (blen connID) rcvTime packet os =
      (Ok (pn, pnLen, kp, payload), mkOpeners (opInitial os) (opHandshake os) (op0RTT os) (Ok b')) /\
    ua_inv suite v ws rs a' /\ ua_inv suite v rs ws b'.
Proof.
  intros Ha Hb Hph Hov Hpe Hpd Hop Hn Hpl H4 Hhi Hpn Hwin kp.
  destruct (short_layout connID pn pnLen kp Hn) as (b0 & pbs & Happ & Hpb & Hlen & Hparse);
    [by unfold kp, KeyPhase_Bit; case_match|].
  set (hdr := (b0 :: connID) ++ pbs) in *.
  destruct (Seal_header ws rs a payload pn hdr Ha) as (a' & Hseal & Ha' & Hov' & Hpe').
  destruct (Open_same rs ws rtt rcvTime pn payload hdr b Hb) as (b' & Hopen & Hb').
  rewrite <- Hph in Hopen. fold kp in Hopen.
  assert (Hct : blen (sealAt suite v ws (uKeyPhase a) pn payload hdr) = blen payload + 16).
  { unfold sealAt. destruct (genAt_some suite v Hsuite ws (uKeyPhase a)) as (x & -> & _). by rewrite aead_seal_len, aead_overhead. }
  set (ct := sealAt suite v ws (uKeyPhase a) pn payload hdr) in *.
  destruct (sample_split ct (4 - pnLen)) as (c1 & sample & c2 & Ect & Hc1 & Hs); [lia..|]. rewrite Ect in Hseal, Hopen, Hct.
  destruct (hp_apply_twice p sample b0 pbs c1 Hs) as (c1' & Henc & Hl' & Hdec & Hc1'); [rewrite blen_app; lia|].
  cbv zeta in Henc, Hl', Hdec. set (b0' := Z.lxor b0 _) in *. set (pbs' := zip_with Z.lxor pbs _) in *. clearbody b0' pbs'.
  assert (Hhdr : blen hdr = 1 + blen connID + blen pbs) by (rewrite Hlen; unfold ShortHeaderLen; lia).
  exists hdr, ((b0' :: connID) ++ pbs' ++ c1 ++ sample ++ c2), a', b'.
  split_and!; [done|done| | |done|done].
  - rewrite Hhdr, <- Hpb. unfold hdr. rewrite <- (assoc_L (++)).
    eapply encryptPacket_eq; [exact Hseal| |done|lia| |done].
    + cbn. by rewrite Hov', Hov.
    + cbn. unfold ua_EncryptHeader. by rewrite Hpe', Hpe.
  - unfold UnpackShortHeader. rewrite run_get, Hop, run_lift. unfold unpackShortHeaderPacket. rewrite run_get.
    rewrite (unpackShortHeader_ok b b0 b0' connID pbs pbs' c1 c1' sample c2 (pn mod 2 ^ (8 * pnLen)) kp);
      [|lia|done|done|done|by cbn; unfold ua_DecryptHeader; rewrite Hpd|by intros; rewrite Hparse, Hpb].
    cbn [headerParse]. rewrite run_lift. fold hdr. unfold ua_DecodePacketNumber.
    rewrite Hpb, DecodePacketNumber_window by done.
    rewrite <- Hpb, <- Hhdr, sliceOf_suffix, sliceOf_prefix, !run_lift, (stM_bind_ok _ _ _ _ _ Hopen).
    cbn [negb]. unfold mbind, stM_bind, modify, lift, mret, stM_ret. cbn. by zfalse (blen payload =? 0).
Qed.
End short.

(** The two endpoints right after the handshake. *)
Definition toy_endpoint (b : bool) : updatableAEAD bytes :=
  match ku_setup toy_suite Version1 toy_secrets b with Ok a => a | _ => newUpdatableAEAD Version1 end.

Lemma toy_endpoint_inv b : ua_inv toy_suite Version1 (toy_secrets b) (toy_secrets (negb b)) (toy_endpoint b).
Proof.
  unfold toy_endpoint. by destruct (ku_setup_inv toy_suite Version1 eq_refl toy_secrets b) as (a & -> & Ha & _).
Qed.

Definition toy_1rtt_openers : openers bytes :=
  mkOpeners (Err ErrKeysDropped) (Err ErrKeysDropped) (Err ErrKeysDropped) (Ok (toy_endpoint false)).

Lemma short_packet_roundtrip_witness :
  exists hdr packet a' b',
    AppendShortHeader [] [1; 2; 3] 5 2 KeyPhaseZero = Ok hdr /\ blen hdr = 6 /\
    encryptPacket (hdr ++ [1; 0; 0]) 5 (blen hdr) 2 (toy_endpoint true) = (Ok packet, a') /\
    UnpackShortHeader NewRTTStats 3 1 packet toy_1rtt_openers =
      (Ok (5, 2, KeyPhaseZero, [1; 0; 0]),
       mkOpeners (Err ErrKeysDropped) (Err ErrKeysDropped) (Err ErrKeysDropped) (Ok b')) /\
    ua_inv toy_suite Version1 (toy_secrets true) (toy_secrets false) a' /\
    ua_inv toy_suite Version1 (toy_secrets false) (toy_secrets true) b'.
Proof.
  pose proof (toy_endpoint_inv true) as Ha. pose proof (toy_endpoint_inv false) as Hb.
  destruct (uHeaderEncrypter (toy_endpoint true)) as [p|] eqn:Ep; [|vm_compute in Ep; discriminate].
  apply (short_packet_roundtrip toy_suite Version1 eq_refl (toy_secrets true) (toy_secrets false) (toy_endpoint true)
           (toy_endpoint false) p toy_1rtt_openers [1; 2; 3] 5 2 [1; 0; 0] NewRTTStats 1);
    [exact Ha | exact Hb | reflexivity | reflexivity | exact Ep | rewrite <- Ep; reflexivity | reflexivity | lia
    | reflexivity | vm_compute; discriminate | split; [vm_compute; discriminate | reflexivity] | lia | reflexivity].
Defined.
