(* ===== verification/StreamsMap.v ===== *)
(** * StreamsMap: the streams of a connection

    Models streams_map_incoming.go, streams_map_outgoing.go and streams_map.go.  A
    stream is the handle its constructor returns (the objects are those of
    [ReceiveStream] and [SendStream]).  The methods that block are cut at the
    points where they release the mutex, so that other calls can come in between;
    the channels that wake them up are [wakeChan]. *)

From S2P Require Import Prelude Protocol Frames FrameParser.
From stdpp Require Import base numbers list option strings gmap.
From Stdlib Require Import ZArith Lia.
#[local] Open Scope Z_scope.

(** ** Channels that wake up goroutines

    A [chan struct{}] with a buffer of one element.  Goroutines are numbered; one
    that waits in a [select] is parked, and woken when it is handed an element or
    the channel is closed. *)

Record wakeChan := mkWake { wcBuffered : bool; wcClosed : bool; wcParked : list nat; wcWoken : list nat }.

Definition newWakeChan : wakeChan := mkWake false false [] [].

(** [select { case c <- struct{}{}: default: }] *)
Definition wc_send (c : wakeChan) : res wakeChan :=
  if wcClosed c then Panic "send on closed channel"
  else match wcParked c with
       | g :: parked => Ok (mkWake (wcBuffered c) false parked (wcWoken c ++ [g]))
       | [] => Ok (mkWake true false [] (wcWoken c))
       end.

(** [close(c)] *)
Definition wc_close (c : wakeChan) : res wakeChan :=
  if wcClosed c then Panic "close of closed channel"
  else Ok (mkWake (wcBuffered c) true [] (wcWoken c ++ wcParked c)).

(** [select { case <-c: default: }] *)
Definition wc_drain (c : wakeChan) : wakeChan := mkWake false (wcClosed c) (wcParked c) (wcWoken c).

(** Goroutine [g] reaches a [select] that receives from [c]: it continues at once, or is parked. *)
Definition wc_select (g : nat) (c : wakeChan) : bool * wakeChan :=
  if wcBuffered c then (true, wc_drain c)
  else if wcClosed c then (true, c)
  else (false, mkWake false false (wcParked c ++ [g]) (wcWoken c)).

(** A parked goroutine continues if it was woken. *)
Definition wc_resume (g : nat) (c : wakeChan) : option wakeChan :=
  if bool_decide (g ∈ wcWoken c)
  then Some (mkWake (wcBuffered c) (wcClosed c) (wcParked c) (filter (.≠ g) (wcWoken c))) else None.

(** A parked goroutine leaves the [select] because its context is done. *)
Definition wc_leave (g : nat) (c : wakeChan) : wakeChan :=
  mkWake (wcBuffered c) (wcClosed c) (filter (.≠ g) (wcParked c)) (wcWoken c).

(** What the maps do to the outside: a queued control frame, and calls on streams. *)
Inductive smEvent (T : Type) :=
  | QueueControlFrame (f : wireFrame)
  | CloseForShutdown (s : T) (err : GoError)
  | UpdateStreamSendWindow (s : T) (limit : Z).
Arguments QueueControlFrame {_} _.
Arguments CloseForShutdown {_} _ _.
Arguments UpdateStreamSendWindow {_} _ _.

(** ** Streams opened by the peer *)

Record incomingStreamEntry (T : Type) := mkEntry { ieStream : T; ieShouldDelete : bool }.
Arguments mkEntry {_} _ _.
Arguments ieStream {_} _.
Arguments ieShouldDelete {_} _.

Record incomingStreamsMap (T : Type) := mkIncoming {
  imNewStreamChan : wakeChan;
  imStreamType : StreamType;
  imStreams : gmap Z (incomingStreamEntry T);
  imNextStreamToAccept : Z;
  imNextStreamToOpen : Z;
  imMaxStream : Z;
  imMaxNumStreams : Z;
  imCloseErr : option GoError;
  imEvents : list (smEvent T)
}.
Arguments mkIncoming {_} _ _ _ _ _ _ _ _ _.
Arguments imNewStreamChan {_} _.
Arguments imStreamType {_} _.
Arguments imStreams {_} _.
Arguments imNextStreamToAccept {_} _.
Arguments imNextStreamToOpen {_} _.
Arguments imMaxStream {_} _.
Arguments imMaxNumStreams {_} _.
Arguments imCloseErr {_} _.
Arguments imEvents {_} _.

Section incoming.
Context {T : Type} (newStream : Z -> T).
Implicit Types m : incomingStreamsMap T.

Definition newIncomingStreamsMap (streamType : StreamType) (maxStreams : Z) : incomingStreamsMap T :=
  mkIncoming newWakeChan streamType ∅ 1 1 (i64 maxStreams) maxStreams None [].

Definition im_chan (c : wakeChan) m : incomingStreamsMap T :=
  mkIncoming c (imStreamType m) (imStreams m) (imNextStreamToAccept m) (imNextStreamToOpen m) (imMaxStream m)
    (imMaxNumStreams m) (imCloseErr m) (imEvents m).

Definition im_streams (ss : gmap Z (incomingStreamEntry T)) m : incomingStreamsMap T :=
  mkIncoming (imNewStreamChan m) (imStreamType m) ss (imNextStreamToAccept m) (imNextStreamToOpen m) (imMaxStream m)
    (imMaxNumStreams m) (imCloseErr m) (imEvents m).

Definition im_nextAccept (n : Z) m : incomingStreamsMap T :=
  mkIncoming (imNewStreamChan m) (imStreamType m) (imStreams m) n (imNextStreamToOpen m) (imMaxStream m)
    (imMaxNumStreams m) (imCloseErr m) (imEvents m).

Definition im_nextOpen (n : Z) m : incomingStreamsMap T :=
  mkIncoming (imNewStreamChan m) (imStreamType m) (imStreams m) (imNextStreamToAccept m) n (imMaxStream m)
    (imMaxNumStreams m) (imCloseErr m) (imEvents m).

(** Raise the limit and queue the MAX_STREAMS frame. *)
Definition im_credit (n : Z) m : incomingStreamsMap T :=
  mkIncoming (imNewStreamChan m) (imStreamType m) (imStreams m) (imNextStreamToAccept m) (imNextStreamToOpen m) n
    (imMaxNumStreams m) (imCloseErr m) (imEvents m ++ [QueueControlFrame (FMaxStreams (mkMaxStreams (imStreamType m) n))]).

Definition im_deleteStream (num : Z) : stM (incomingStreamsMap T) unit :=
  m ← get;
  match imStreams m !! num with
  | None => throw (StreamError "tried to delete unknown incoming stream %d" [num])
  | Some entry =>
      if imNextStreamToAccept m <=? num then
        if ieShouldDelete entry then throw (StreamError "tried to delete incoming stream %d multiple times" [num])
        else modify (im_streams (<[num := mkEntry (ieStream entry) true]> (imStreams m)))
      else
        let streams := delete num (imStreams m) in
        _ ← modify (im_streams streams);
        let n := Z.of_nat (size streams) in
        if n <? imMaxNumStreams m then
          let maxStream := i64 (imNextStreamToOpen m + i64 (u64 (imMaxNumStreams m - n)) - 1) in
          if maxStream <=? MaxStreamCount then modify (im_credit maxStream) else mret tt
        else mret tt
  end.

(** [AcceptStream], up to the first time it holds the mutex. *)
Definition im_acceptEnter m : incomingStreamsMap T := im_chan (wc_drain (imNewStreamChan m)) m.

(** One round of the loop of [AcceptStream] and, if a stream is available, the
    rest of the method.  Without one, the mutex is released to wait. *)
Definition im_acceptLocked : stM (incomingStreamsMap T) (option T) :=
  m ← get;
  let num := imNextStreamToAccept m in
  match imCloseErr m with
  | Some err => throw err
  | None =>
      match imStreams m !! num with
      | None => mret None
      | Some entry =>
          _ ← modify (im_nextAccept (i64 (num + 1)));
          _ ← (if ieShouldDelete entry then im_deleteStream num else mret tt);
          mret (Some (ieStream entry))
      end
  end.

(** The loop of [GetOrOpenStream] for [k] more streams. *)
Fixpoint im_openLoop (k : nat) (newNum : Z) : stM (incomingStreamsMap T) unit :=
  match k with
  | O => mret tt
  | S k' =>
      m ← get;
      _ ← modify (im_streams (<[newNum := mkEntry (newStream newNum) false]> (imStreams m)));
      c ← lift (wc_send (imNewStreamChan m));
      _ ← modify (im_chan c);
      im_openLoop k' (i64 (newNum + 1))
  end.

(** [None] is the nil stream. *)
Definition im_GetOrOpenStream (num : Z) : stM (incomingStreamsMap T) (option T) :=
  m ← get;
  if imMaxStream m <? num
  then throw (StreamError "peer tried to open stream %d (current limit: %d)" [num; imMaxStream m])
  else if num <? imNextStreamToOpen m then
    mret (match imStreams m !! num with
          | Some entry => if ieShouldDelete entry then None else Some (ieStream entry)
          | None => None
          end)
  else
    _ ← im_openLoop (Z.to_nat (num - imNextStreamToOpen m + 1)) (imNextStreamToOpen m);
    _ ← modify (im_nextOpen (i64 (num + 1)));
    m ← get;
    mret (ieStream <$> imStreams m !! num).

Definition im_DeleteStream (num : Z) : stM (incomingStreamsMap T) unit := im_deleteStream num.

Definition im_CloseWithError (err : GoError) : stM (incomingStreamsMap T) unit :=
  _ ← modify (fun m =>
    mkIncoming (imNewStreamChan m) (imStreamType m) (imStreams m) (imNextStreamToAccept m) (imNextStreamToOpen m)
      (imMaxStream m) (imMaxNumStreams m) (Some err)
      (imEvents m ++ map (fun e => CloseForShutdown (ieStream e.2) err) (map_to_list (imStreams m))));
  m ← get;
  c ← lift (wc_close (imNewStreamChan m));
  modify (im_chan c).
End incoming.

(** ** Streams opened by this endpoint *)

Definition InvalidStreamNum : Z := -1.
Definition errTooManyOpenStreams : GoError := ErrorString "too many open streams".

Record outgoingStreamsMap (T : Type) := mkOutgoing {
  omStreamType : StreamType;
  omStreams : gmap Z T;
  omOpenQueue : gmap Z wakeChan;
  omLowestInQueue : Z;
  omHighestInQueue : Z;
  omNextStream : Z;
  omMaxStream : Z;
  omBlockedSent : bool;
  omCloseErr : option GoError;
  omEvents : list (smEvent T)
}.
Arguments mkOutgoing {_} _ _ _ _ _ _ _ _ _ _.
Arguments omStreamType {_} _.
Arguments omStreams {_} _.
Arguments omOpenQueue {_} _.
Arguments omLowestInQueue {_} _.
Arguments omHighestInQueue {_} _.
Arguments omNextStream {_} _.
Arguments omMaxStream {_} _.
Arguments omBlockedSent {_} _.
Arguments omCloseErr {_} _.
Arguments omEvents {_} _.

Section outgoing.
Context {T : Type} (newStream : Z -> T).
Implicit Types m : outgoingStreamsMap T.

Definition newOutgoingStreamsMap (streamType : StreamType) : outgoingStreamsMap T :=
  mkOutgoing streamType ∅ ∅ 0 0 1 InvalidStreamNum false None [].

Definition om_queue (q : gmap Z wakeChan) (lowest highest : Z) m : outgoingStreamsMap T :=
  mkOutgoing (omStreamType m) (omStreams m) q lowest highest (omNextStream m) (omMaxStream m) (omBlockedSent m)
    (omCloseErr m) (omEvents m).

Definition om_open (ss : gmap Z T) (next : Z) m : outgoingStreamsMap T :=
  mkOutgoing (omStreamType m) ss (omOpenQueue m) (omLowestInQueue m) (omHighestInQueue m) next (omMaxStream m)
    (omBlockedSent m) (omCloseErr m) (omEvents m).

Definition om_limit (n : Z) (blocked : bool) (evs : list (smEvent T)) m : outgoingStreamsMap T :=
  mkOutgoing (omStreamType m) (omStreams m) (omOpenQueue m) (omLowestInQueue m) (omHighestInQueue m) (omNextStream m) n
    blocked (omCloseErr m) (omEvents m ++ evs).

Definition om_openStream : stM (outgoingStreamsMap T) T :=
  m ← get;
  let s := newStream (omNextStream m) in
  _ ← modify (om_open (<[omNextStream m := s]> (omStreams m)) (i64 (omNextStream m + 1)));
  mret s.

Definition om_maybeSendBlockedFrame m : outgoingStreamsMap T :=
  if omBlockedSent m then m
  else
    let streamNum := if negb (omMaxStream m =? InvalidStreamNum) then omMaxStream m else 0 in
    om_limit (omMaxStream m) true [QueueControlFrame (FStreamsBlocked (mkStreamsBlocked (omStreamType m) streamNum))] m.

Definition om_OpenStream : stM (outgoingStreamsMap T) T :=
  m ← get;
  match omCloseErr m with
  | Some err => throw err
  | None =>
      if (0 <? Z.of_nat (size (omOpenQueue m))) || (omMaxStream m <? omNextStream m) then
        _ ← modify om_maybeSendBlockedFrame;
        throw errTooManyOpenStreams
      else om_openStream
  end.

(** The positions that the loop of [unblockOpenSync] looks at. *)
Definition om_positions m : list Z := seqZ (omLowestInQueue m) (omHighestInQueue m - omLowestInQueue m + 1).

Definition om_unblockOpenSync : stM (outgoingStreamsMap T) unit :=
  m ← get;
  if Z.of_nat (size (omOpenQueue m)) =? 0 then mret tt
  else
    match list_find (fun qp => is_Some (omOpenQueue m !! qp)) (om_positions m) with
    | None => mret tt
    | Some (_, qp) =>
        match omOpenQueue m !! qp with
        | None => mret tt
        | Some c =>
            c ← lift (wc_send c);
            modify (om_queue (<[qp := c]> (omOpenQueue m)) (omLowestInQueue m) (omHighestInQueue m))
        end
    end.

(** [OpenStreamSync], up to the point where it has a stream or a position in the queue. *)
Definition om_openSyncEnter (ctxErr : option GoError) : stM (outgoingStreamsMap T) (T + Z) :=
  m ← get;
  match omCloseErr m with
  | Some err => throw err
  | None =>
      match ctxErr with
      | Some err => throw err
      | None =>
          if (Z.of_nat (size (omOpenQueue m)) =? 0) && (omNextStream m <=? omMaxStream m)
          then s ← om_openStream; mret (inl s)
          else
            let queuePos := omHighestInQueue m in
            let lowest := if Z.of_nat (size (omOpenQueue m)) =? 0 then queuePos else omLowestInQueue m in
            _ ← modify (om_queue (<[queuePos := newWakeChan]> (omOpenQueue m)) lowest (u64 (queuePos + 1)));
            _ ← modify om_maybeSendBlockedFrame;
            mret (inr queuePos)
      end
  end.

(** The rest of a round of its loop, once it was woken; [None] is [continue]. *)
Definition om_openSyncWoken (queuePos : Z) : stM (outgoingStreamsMap T) (option T) :=
  m ← get;
  match omCloseErr m with
  | Some err => throw err
  | None =>
      if omMaxStream m <? omNextStream m then mret None
      else
        str ← om_openStream;
        _ ← modify (fun m => om_queue (delete queuePos (omOpenQueue m)) (u64 (queuePos + 1)) (omHighestInQueue m) m);
        _ ← om_unblockOpenSync;
        mret (Some str)
  end.

(** The case of its [select] in which the context is done. *)
Definition om_openSyncCancelled (queuePos : Z) (ctxErr : GoError) : stM (outgoingStreamsMap T) T :=
  _ ← modify (fun m => om_queue (delete queuePos (omOpenQueue m)) (omLowestInQueue m) (omHighestInQueue m) m);
  throw ctxErr.

Definition om_GetStream (num : Z) : stM (outgoingStreamsMap T) (option T) :=
  m ← get;
  if omNextStream m <=? num then throw (StreamError "peer attempted to open stream %d" [num])
  else mret (omStreams m !! num).

Definition om_DeleteStream (num : Z) : stM (outgoingStreamsMap T) unit :=
  m ← get;
  match omStreams m !! num with
  | None => throw (StreamError "tried to delete unknown outgoing stream %d" [num])
  | Some _ => modify (om_open (delete num (omStreams m)) (omNextStream m))
  end.

Definition om_SetMaxStream (num : Z) : stM (outgoingStreamsMap T) unit :=
  m ← get;
  if num <=? omMaxStream m then mret tt
  else
    _ ← modify (om_limit num false []);
    _ ← (if num <? i64 (i64 (omNextStream m - 1) + Z.of_nat (size (omOpenQueue m)))
         then modify om_maybeSendBlockedFrame else mret tt);
    om_unblockOpenSync.

Definition om_events (evs : list (smEvent T)) m : outgoingStreamsMap T :=
  mkOutgoing (omStreamType m) (omStreams m) (omOpenQueue m) (omLowestInQueue m) (omHighestInQueue m) (omNextStream m)
    (omMaxStream m) (omBlockedSent m) (omCloseErr m) (omEvents m ++ evs).

Definition om_UpdateSendWindow (limit : Z) m : outgoingStreamsMap T :=
  om_events (map (fun e => UpdateStreamSendWindow e.2 limit) (map_to_list (omStreams m))) m.

(** Closing a channel that is closed already panics. *)
Definition om_closeQueue (q : gmap Z wakeChan) : res (gmap Z wakeChan) :=
  if bool_decide (map_Forall (fun _ c => wcClosed c = false) q)
  then Ok ((fun c => mkWake (wcBuffered c) true [] (wcWoken c ++ wcParked c)) <$> q)
  else Panic "close of closed channel".

Definition om_CloseWithError (err : GoError) : stM (outgoingStreamsMap T) unit :=
  _ ← modify (fun m =>
    mkOutgoing (omStreamType m) (omStreams m) (omOpenQueue m) (omLowestInQueue m) (omHighestInQueue m) (omNextStream m)
      (omMaxStream m) (omBlockedSent m) (Some err) (omEvents m));
  _ ← modify (fun m => om_events (map (fun e => CloseForShutdown e.2 err) (map_to_list (omStreams m))) m);
  m ← get;
  q ← lift (om_closeQueue (omOpenQueue m));
  modify (om_queue q (omLowestInQueue m) (omHighestInQueue m)).
End outgoing.

(** ** The four maps of a connection *)

Definition Perspective_Opposite (p : Perspective) : Perspective :=
  match p with PerspectiveClient => PerspectiveServer | PerspectiveServer => PerspectiveClient end.

Definition convertStreamError (err : GoError) (stype : StreamType) (pers : Perspective) : GoError :=
  match err with
  | StreamError msg nums => FmtError msg (map (fun num => StreamNum_StreamID num stype pers) nums)
  | _ => err
  end.

Definition Err0RTTRejected : GoError := ErrorString "0-RTT rejected".

(** What [newStream], [newSendStream] and [newReceiveStream] return. *)
Inductive streamHandle := HStream (id : Z) | HSendStream (id : Z) | HReceiveStream (id : Z).

Record streamsMap := mkStreamsMap {
  smPerspective : Perspective;
  smMaxIncomingBidi : Z;
  smMaxIncomingUni : Z;
  smOutBidi : outgoingStreamsMap streamHandle;
  smOutUni : outgoingStreamsMap streamHandle;
  smInBidi : incomingStreamsMap streamHandle;
  smInUni : incomingStreamsMap streamHandle;
  smReset : bool
}.
Abbreviation smM := (stM streamsMap).

(** The constructors that [initMaps] passes to the maps. *)
Definition newOutBidi (p : Perspective) (num : Z) : streamHandle := HStream (StreamNum_StreamID num StreamTypeBidi p).
Definition newInBidi (p : Perspective) (num : Z) : streamHandle :=
  HStream (StreamNum_StreamID num StreamTypeBidi (Perspective_Opposite p)).
Definition newOutUni (p : Perspective) (num : Z) : streamHandle := HSendStream (StreamNum_StreamID num StreamTypeUni p).
Definition newInUni (p : Perspective) (num : Z) : streamHandle :=
  HReceiveStream (StreamNum_StreamID num StreamTypeUni (Perspective_Opposite p)).

Definition initMaps (p : Perspective) (maxBidi maxUni : Z) (reset : bool) : streamsMap :=
  mkStreamsMap p maxBidi maxUni (newOutgoingStreamsMap StreamTypeBidi) (newOutgoingStreamsMap StreamTypeUni)
    (newIncomingStreamsMap StreamTypeBidi maxBidi) (newIncomingStreamsMap StreamTypeUni maxUni) reset.

Definition newStreamsMap (maxBidi maxUni : Z) (p : Perspective) : streamsMap := initMaps p maxBidi maxUni false.

(** Calls on one of the maps. *)
Definition onOutBidi {A} (f : stM (outgoingStreamsMap streamHandle) A) : smM A := fun m =>
  let '(r, x) := f (smOutBidi m) in
  (r, mkStreamsMap (smPerspective m) (smMaxIncomingBidi m) (smMaxIncomingUni m) x (smOutUni m) (smInBidi m) (smInUni m) (smReset m)).

Definition onOutUni {A} (f : stM (outgoingStreamsMap streamHandle) A) : smM A := fun m =>
  let '(r, x) := f (smOutUni m) in
  (r, mkStreamsMap (smPerspective m) (smMaxIncomingBidi m) (smMaxIncomingUni m) (smOutBidi m) x (smInBidi m) (smInUni m) (smReset m)).

Definition onInBidi {A} (f : stM (incomingStreamsMap streamHandle) A) : smM A := fun m =>
  let '(r, x) := f (smInBidi m) in
  (r, mkStreamsMap (smPerspective m) (smMaxIncomingBidi m) (smMaxIncomingUni m) (smOutBidi m) (smOutUni m) x (smInUni m) (smReset m)).

Definition onInUni {A} (f : stM (incomingStreamsMap streamHandle) A) : smM A := fun m =>
  let '(r, x) := f (smInUni m) in
  (r, mkStreamsMap (smPerspective m) (smMaxIncomingBidi m) (smMaxIncomingUni m) (smOutBidi m) (smOutUni m) (smInBidi m) x (smReset m)).

(** The error of a call goes through [convertStreamError]. *)
Definition converting {A} (stype : StreamType) (pers : Perspective) (f : smM A) : smM A := fun m =>
  match f m with
  | (Err e, m') => (Err (convertStreamError e stype pers), m')
  | x => x
  end.

Definition unlessReset {A} (f : Perspective -> smM A) : smM A :=
  m ← get; if smReset m then throw Err0RTTRejected else f (smPerspective m).

Definition sm_OpenStream : smM streamHandle :=
  unlessReset (fun p => converting StreamTypeBidi p (onOutBidi (om_OpenStream (newOutBidi p)))).

(** [OpenStreamSync], up to the point where it has a stream or waits. *)
Definition sm_OpenStreamSync (ctxErr : option GoError) : smM (streamHandle + Z) :=
  unlessReset (fun p => converting StreamTypeBidi p (onOutBidi (om_openSyncEnter (newOutBidi p) ctxErr))).

Definition sm_OpenUniStream : smM streamHandle :=
  unlessReset (fun p => converting StreamTypeBidi p (onOutUni (om_OpenStream (newOutUni p)))).

Definition sm_OpenUniStreamSync (ctxErr : option GoError) : smM (streamHandle + Z) :=
  unlessReset (fun p => converting StreamTypeUni p (onOutUni (om_openSyncEnter (newOutUni p) ctxErr))).

(** [AcceptStream], up to the point where it has a stream or waits. *)
Definition sm_AcceptStream : smM (option streamHandle) :=
  unlessReset (fun p => converting StreamTypeBidi (Perspective_Opposite p)
    (onInBidi (_ ← modify im_acceptEnter; im_acceptLocked))).

Definition sm_AcceptUniStream : smM (option streamHandle) :=
  unlessReset (fun p => converting StreamTypeUni (Perspective_Opposite p)
    (onInUni (_ ← modify im_acceptEnter; im_acceptLocked))).

Definition sm_DeleteStream (id : Z) : smM unit :=
  m ← get;
  let num := StreamID_StreamNum id in
  let p := smPerspective m in
  match StreamID_Type id with
  | StreamTypeUni =>
      if decide (StreamID_InitiatedBy id = p) then converting StreamTypeUni p (onOutUni (om_DeleteStream num))
      else converting StreamTypeUni (Perspective_Opposite p) (onInUni (im_DeleteStream num))
  | StreamTypeBidi =>
      if decide (StreamID_InitiatedBy id = p) then converting StreamTypeBidi p (onOutBidi (om_DeleteStream num))
      else converting StreamTypeBidi (Perspective_Opposite p) (onInBidi (im_DeleteStream num))
  end.

(** The bidirectional case of both [getOrOpenReceiveStream] and [getOrOpenSendStream]. *)
Definition sm_getOrOpenBidi (id : Z) : smM (option streamHandle) :=
  m ← get;
  let num := StreamID_StreamNum id in
  let p := smPerspective m in
  converting StreamTypeBidi (StreamID_InitiatedBy id)
    (if decide (StreamID_InitiatedBy id = p) then onOutBidi (om_GetStream num)
     else onInBidi (im_GetOrOpenStream (newInBidi p) num)).

Definition sm_getOrOpenReceiveStream (id : Z) : smM (option streamHandle) :=
  m ← get;
  let p := smPerspective m in
  match StreamID_Type id with
  | StreamTypeUni =>
      if decide (StreamID_InitiatedBy id = p) then throw (FmtError "peer attempted to open receive stream %d" [id])
      else converting StreamTypeUni p (onInUni (im_GetOrOpenStream (newInUni p) (StreamID_StreamNum id)))
  | StreamTypeBidi => sm_getOrOpenBidi id
  end.

Definition sm_getOrOpenSendStream (id : Z) : smM (option streamHandle) :=
  m ← get;
  let p := smPerspective m in
  match StreamID_Type id with
  | StreamTypeUni =>
      if decide (StreamID_InitiatedBy id = p) then converting StreamTypeUni p (onOutUni (om_GetStream (StreamID_StreamNum id)))
      else throw (FmtError "peer attempted to open send stream %d" [id])
  | StreamTypeBidi => sm_getOrOpenBidi id
  end.

Definition StreamStateError : Z := 0x5.

Definition streamStateError {A} (f : smM A) : smM A := fun m =>
  match f m with
  | (Err e, m') => (Err (TransportError StreamStateError 0 (error_text e)), m')
  | x => x
  end.

Definition sm_GetOrOpenReceiveStream (id : Z) : smM (option streamHandle) := streamStateError (sm_getOrOpenReceiveStream id).
Definition sm_GetOrOpenSendStream (id : Z) : smM (option streamHandle) := streamStateError (sm_getOrOpenSendStream id).

Definition sm_HandleMaxStreamsFrame (f : MaxStreamsFrame) : smM unit :=
  match msType f with
  | StreamTypeUni => onOutUni (om_SetMaxStream (msMaxStreamNum f))
  | StreamTypeBidi => onOutBidi (om_SetMaxStream (msMaxStreamNum f))
  end.

(** The four limits of the transport parameters. *)
Definition sm_UpdateLimits (maxStreamDataBidiRemote maxBidiStreamNum maxStreamDataUni maxUniStreamNum : Z) : smM unit :=
  _ ← onOutBidi (modify (om_UpdateSendWindow maxStreamDataBidiRemote));
  _ ← onOutBidi (om_SetMaxStream maxBidiStreamNum);
  _ ← onOutUni (modify (om_UpdateSendWindow maxStreamDataUni));
  onOutUni (om_SetMaxStream maxUniStreamNum).

Definition sm_CloseWithError (err : GoError) : smM unit :=
  _ ← onOutBidi (om_CloseWithError err);
  _ ← onOutUni (om_CloseWithError err);
  _ ← onInBidi (im_CloseWithError err);
  onInUni (im_CloseWithError err).

Definition sm_setReset (b : bool) (m : streamsMap) : streamsMap :=
  mkStreamsMap (smPerspective m) (smMaxIncomingBidi m) (smMaxIncomingUni m) (smOutBidi m) (smOutUni m) (smInBidi m) (smInUni m) b.

(** The goroutines that wait in the maps are woken by [CloseWithError] before the maps are replaced. *)
Definition sm_ResetFor0RTT : smM unit :=
  _ ← modify (sm_setReset true);
  _ ← sm_CloseWithError Err0RTTRejected;
  modify (fun m => initMaps (smPerspective m) (smMaxIncomingBidi m) (smMaxIncomingUni m) (smReset m)).

Definition sm_UseResetMaps : smM unit := modify (sm_setReset false).
