(* ===== verification/StreamsMapProofs.v ===== *)
(** * StreamsMapProofs: the streams of the peer

    What the map of incoming streams promises: the peer may have so many streams
    open as were announced and gets the credit of a stream back once it is both
    accepted and completed; streams are accepted in order.  The map refines this
    specification, which has no map, no flags and no frame queue. *)

From S2P Require Import Prelude Protocol Frames FrameParser StreamsMap.
From stdpp Require Import base numbers list option strings gmap fin_sets.
From Stdlib Require Import ZArith Lia.
#[local] Open Scope Z_scope.

(** ** Ranges of stream numbers *)

Definition rangeZ (n : Z) : gset Z := list_to_set (seqZ 1 n).

Lemma elem_of_rangeZ n k : k ∈ rangeZ n <-> 1 <= k <= n.
Proof. unfold rangeZ. rewrite elem_of_list_to_set, elem_of_seqZ. lia. Qed.

Lemma size_rangeZ n : 0 <= n -> Z.of_nat (size (rangeZ n)) = n.
Proof.
  intros Hn. unfold rangeZ. rewrite size_list_to_set by apply NoDup_seqZ. rewrite length_seqZ. lia.
Qed.

Lemma seqZ_snoc i n : 0 <= n -> seqZ i (n + 1) = seqZ i n ++ [i + n].
Proof. intros Hn. rewrite seqZ_app by lia. f_equal. Qed.

(** A send to an open channel wakes a parked goroutine or fills the buffer. *)
Lemma wc_send_open c : wcClosed c = false ->
  exists c', wc_send c = Ok c' /\ wcClosed c' = false /\
    match wcParked c with
    | g :: gs => wcParked c' = gs /\ wcWoken c' = wcWoken c ++ [g] /\ wcBuffered c' = wcBuffered c
    | [] => wcParked c' = [] /\ wcWoken c' = wcWoken c /\ wcBuffered c' = true
    end.
Proof. intros Hc. unfold wc_send. rewrite Hc. destruct (wcParked c); by eexists. Qed.

(** ** The specification *)

Record inSpec := mkInSpec { isOpened : Z; isAccepted : Z; isCompleted : gset Z }.

Section spec.
Context {T : Type} (newStream : Z -> T) (maxNum : Z) (stype : StreamType).
Implicit Types a : inSpec.

(** The streams that were accepted and completed. *)
Definition is_finished a : gset Z := filter (fun k => k <= isAccepted a) (isCompleted a).

Definition is_limit a : Z := Z.min MaxStreamCount (maxNum + Z.of_nat (size (is_finished a))).

Definition is_GetOrOpen (num : Z) a : res (option T) * inSpec :=
  if is_limit a <? num then (Err (StreamError "peer tried to open stream %d (current limit: %d)" [num; is_limit a]), a)
  else if isOpened a <? num then (Ok (Some (newStream num)), mkInSpec num (isAccepted a) (isCompleted a))
  else (Ok (if bool_decide (1 <= num /\ num ∉ isCompleted a) then Some (newStream num) else None), a).

Definition is_Delete (num : Z) a : res (option T) * inSpec :=
  if bool_decide (1 <= num <= isOpened a /\ num ∉ isCompleted a)
  then (Ok None, mkInSpec (isOpened a) (isAccepted a) ({[num]} ∪ isCompleted a))
  else if bool_decide (isAccepted a < num /\ num ∈ isCompleted a)
       then (Err (StreamError "tried to delete incoming stream %d multiple times" [num]), a)
       else (Err (StreamError "tried to delete unknown incoming stream %d" [num]), a).

Definition is_Accept a : res (option T) * inSpec :=
  if isAccepted a <? isOpened a
  then (Ok (Some (newStream (isAccepted a + 1))), mkInSpec (isOpened a) (isAccepted a + 1) (isCompleted a))
  else (Ok None, a).

(** The MAX_STREAMS frames announce every value of the limit, in order. *)
Definition is_frames a : list (smEvent T) :=
  (fun n => QueueControlFrame (FMaxStreams (mkMaxStreams stype n))) <$> seqZ (maxNum + 1) (is_limit a - maxNum).

Definition is_entry a (k : Z) : option (incomingStreamEntry T) :=
  if bool_decide (1 <= k <= isOpened a /\ k ∉ is_finished a)
  then Some (mkEntry (newStream k) (bool_decide (k ∈ isCompleted a))) else None.

(** ** The refinement relation *)

Record in_refines (m : incomingStreamsMap T) a : Prop := {
  ir_chan : wcClosed (imNewStreamChan m) = false;
  ir_type : imStreamType m = stype;
  ir_streams k : imStreams m !! k = is_entry a k;
  ir_accept : imNextStreamToAccept m = isAccepted a + 1;
  ir_open : imNextStreamToOpen m = isOpened a + 1;
  ir_max : imMaxStream m = is_limit a;
  ir_maxNum : imMaxNumStreams m = maxNum;
  ir_closeErr : imCloseErr m = None;
  ir_events : imEvents m = is_frames a;
  ir_accepted : 0 <= isAccepted a <= isOpened a;
  ir_opened : isOpened a <= is_limit a;
  ir_completed k : k ∈ isCompleted a -> 1 <= k <= isOpened a
}.

Lemma finished_subseteq m a : in_refines m a -> is_finished a ⊆ rangeZ (isOpened a).
Proof. intros Hr k. unfold is_finished. rewrite elem_of_filter, elem_of_rangeZ. intros [_ Hk]. by apply (ir_completed m a Hr). Qed.

(** The entries of the map are the streams that still count. *)
Lemma ir_size m a : in_refines m a ->
  Z.of_nat (size (imStreams m)) = isOpened a - Z.of_nat (size (is_finished a)).
Proof.
  intros Hr. pose proof (finished_subseteq m a Hr) as Hs. pose proof (ir_accepted m a Hr).
  rewrite <- size_dom.
  assert (E : dom (imStreams m) ≡ rangeZ (isOpened a) ∖ is_finished a).
  { intros k. rewrite elem_of_dom, (ir_streams m a Hr), elem_of_difference, elem_of_rangeZ. unfold is_entry.
    case_bool_decide; split; naive_solver. }
  rewrite E, size_difference by done. pose proof (subseteq_size _ _ Hs) as Hle.
  pose proof (size_rangeZ (isOpened a)). lia.
Qed.

Lemma limit_range m a : in_refines m a -> 0 <= maxNum <= MaxStreamCount -> maxNum <= is_limit a <= MaxStreamCount.
Proof. intros _ Hm. unfold is_limit. lia. Qed.

(** The entry of a stream after an operation, by cases on the stream number. *)
Lemma is_entry_eq a a' k : isOpened a = isOpened a' \/ k <= isOpened a /\ k <= isOpened a' ->
  (k ∈ is_finished a <-> k ∈ is_finished a') -> (k ∈ isCompleted a <-> k ∈ isCompleted a') ->
  is_entry a k = is_entry a' k.
Proof.
  intros Ho Hf Hc. unfold is_entry.
  rewrite (bool_decide_ext (1 <= k <= isOpened a /\ k ∉ is_finished a) (1 <= k <= isOpened a' /\ k ∉ is_finished a'))
    by (rewrite Hf; destruct Ho as [->|[??]]; [done|split; intros [??]; split; auto; lia]).
  by rewrite (bool_decide_ext _ _ Hc).
Qed.

(** ** Every operation refines its specification *)

Context (Hmax : 0 <= maxNum <= MaxStreamCount).

(** Opening streams one by one. *)
Lemma openLoop_spec k : forall n m, wcClosed (imNewStreamChan m) = false -> 0 <= n -> n + Z.of_nat k <= 2 ^ 62 ->
  exists c m', im_openLoop newStream k n m = (Ok tt, m') /\ wcClosed c = false /\
    imStreams m' = foldl (fun ss j => <[j := mkEntry (newStream j) false]> ss) (imStreams m) (seqZ n (Z.of_nat k)) /\
    m' = im_chan c (im_streams (imStreams m') m).
Proof.
  induction k as [|k IH]; intros n m Hc Hn Hk.
  - exists (imNewStreamChan m), m. split; [done|]. split; [done|]. split; [done|]. by destruct m.
  - cbn [im_openLoop]. unfold mbind, stM_bind, get, modify, lift.
    destruct (wc_send_open _ Hc) as (c & -> & Hcc & _). rewrite i64_small by int_range.
    destruct (IH (n + 1) (im_chan c (im_streams (<[n := mkEntry (newStream n) false]> (imStreams m)) m)))
      as (c' & m' & -> & Hc' & Hs & E); [done|lia|lia|]. exists c', m'. split; [done|]. split; [done|]. split.
    + rewrite Hs, (seqZ_cons n) by lia. replace (Z.pred (Z.of_nat (S k))) with (Z.of_nat k) by lia. done.
    + rewrite E. done.
Qed.

Lemma foldl_insert_seqZ (ss : gmap Z (incomingStreamEntry T)) n k j :
  foldl (fun ss j => <[j := mkEntry (newStream j) false]> ss) ss (seqZ n (Z.of_nat k)) !! j =
    if bool_decide (n <= j < n + Z.of_nat k) then Some (mkEntry (newStream j) false) else ss !! j.
Proof.
  revert n ss. induction k as [|k IH]; intros n ss; [by rewrite bool_decide_false by lia|].
  rewrite (seqZ_cons n) by lia. replace (Z.pred (Z.of_nat (S k))) with (Z.of_nat k) by lia. cbn [foldl].
  rewrite <- Z.add_1_r, IH. destruct (decide (j = n)) as [->|Hj].
  - rewrite bool_decide_false, bool_decide_true by lia. by rewrite lookup_insert_eq.
  - rewrite lookup_insert_ne by done.
    by rewrite (bool_decide_ext (n + 1 <= j < n + 1 + Z.of_nat k) (n <= j < n + Z.of_nat (S k))) by lia.
Qed.

Lemma GetOrOpen_refines num m a : in_refines m a -> num < 2 ^ 62 ->
  let '(r, a') := is_GetOrOpen num a in
  exists m', im_GetOrOpenStream newStream num m = (r, m') /\ in_refines m' a'.
Proof.
  intros Hr Hn. pose proof (limit_range m a Hr Hmax) as Hl. pose proof (ir_accepted m a Hr) as Ha.
  pose proof (ir_opened m a Hr) as Ho. unfold MaxStreamCount in *.
  unfold is_GetOrOpen, im_GetOrOpenStream, mbind at 1, stM_bind at 1, get at 1. rewrite (ir_max m a Hr).
  destruct (Z.ltb_spec (is_limit a) num) as [?|Hle]; [by eexists|]. rewrite (ir_open m a Hr).
  destruct (Z.ltb_spec (isOpened a) num) as [Hlt|Hge].
  - zfalse (num <? isOpened a + 1).
    destruct (openLoop_spec (Z.to_nat (num - (isOpened a + 1) + 1)) (isOpened a + 1) m (ir_chan m a Hr))
      as (c & m1 & E & Hc & Hs & Em); [lia|lia|].
    rewrite (stM_bind_ok _ _ _ _ _ E). unfold mbind, stM_bind, modify, get, mret, stM_ret.
    rewrite i64_small by int_range. cbn [imStreams im_nextOpen]. rewrite Hs, foldl_insert_seqZ, bool_decide_true by lia.
    eexists. split; [reflexivity|].
    assert (Hf : is_finished (mkInSpec num (isAccepted a) (isCompleted a)) = is_finished a) by done.
    assert (Hlim : is_limit (mkInSpec num (isAccepted a) (isCompleted a)) = is_limit a) by done.
    rewrite Em. destruct Hr. constructor; cbn [im_nextOpen im_chan im_streams imNewStreamChan imStreamType imStreams
      imNextStreamToAccept imNextStreamToOpen imMaxStream imMaxNumStreams imCloseErr imEvents isOpened isAccepted isCompleted];
      rewrite ?Hlim; try done; try lia.
    + intros k. rewrite Hs, foldl_insert_seqZ. case_bool_decide as Hk.
      * unfold is_entry. rewrite bool_decide_true.
        -- rewrite bool_decide_false; [done|]. intros Hin%ir_completed0. lia.
        -- split; [cbn; lia|]. rewrite Hf. unfold is_finished. rewrite elem_of_filter. intros [? ?]. lia.
      * rewrite ir_streams0. unfold is_entry. rewrite Hf. cbn [isOpened].
        rewrite (bool_decide_ext (1 <= k <= isOpened a /\ k ∉ is_finished a) (1 <= k <= num /\ k ∉ is_finished a)); [done|].
        split; intros [? ?]; (split; [lia|done]).
    + intros k Hk%ir_completed0. lia.
  - ztrue (num <? isOpened a + 1). eexists. split; [|exact Hr]. unfold mret, stM_ret. do 2 f_equal.
    rewrite (ir_streams m a Hr). unfold is_entry, is_finished.
    destruct (decide (num ∈ isCompleted a)) as [Hin|Hout].
    + rewrite (bool_decide_false (1 <= num /\ num ∉ isCompleted a)) by tauto.
      case_bool_decide; [|done]. by rewrite bool_decide_true.
    + rewrite (bool_decide_ext (1 <= num /\ num ∉ isCompleted a) (1 <= num <= isOpened a /\ num ∉ filter (fun k => k <= isAccepted a) (isCompleted a))).
      * case_bool_decide; [|done]. by rewrite bool_decide_false.
      * rewrite elem_of_filter. split; intros [? ?]; split; try lia; tauto.
Qed.

(** A stream that is accepted and completed leaves the map, and its credit is announced. *)
Lemma finish_refines m a a' num : in_refines m a ->
  1 <= num <= isOpened a -> num ∉ is_finished a -> is_finished a' = {[num]} ∪ is_finished a ->
  isOpened a' = isOpened a -> isAccepted a <= isAccepted a' <= isOpened a -> num <= isAccepted a' ->
  num ∈ isCompleted a' -> (forall k, k <> num -> k ∈ isCompleted a' <-> k ∈ isCompleted a) ->
  exists m', im_deleteStream num (im_nextAccept (isAccepted a' + 1) m) = (Ok tt, m') /\ in_refines m' a'.
Proof.
  intros Hr Hnum Hnf Hf Ho Ha Hna Hin Hcomp. pose proof (limit_range m a Hr Hmax) as Hl.
  pose proof (ir_size m a Hr) as Hsz. pose proof (ir_opened m a Hr) as Hop.
  assert (He : imStreams m !! num = Some (mkEntry (newStream num) (bool_decide (num ∈ isCompleted a))))
    by (rewrite (ir_streams m a Hr); unfold is_entry; by rewrite bool_decide_true).
  assert (Hfs : Z.of_nat (size (is_finished a')) = Z.of_nat (size (is_finished a)) + 1)
    by (rewrite Hf, size_union by set_solver; rewrite size_singleton; lia).
  assert (Hds : Z.of_nat (size (delete num (imStreams m))) = Z.of_nat (size (imStreams m)) - 1)
    by (rewrite map_size_delete, He; destruct (size (imStreams m)) eqn:E; [apply map_size_empty_inv in E; rewrite E in He; done|lia]).
  unfold im_deleteStream, mbind, stM_bind, get. cbn [imStreams im_nextAccept]. rewrite He. cbn [imNextStreamToAccept im_nextAccept].
  zfalse (isAccepted a' + 1 <=? num). unfold modify. cbn [imMaxNumStreams imNextStreamToOpen im_streams im_nextAccept].
  rewrite (ir_maxNum m a Hr), (ir_open m a Hr), Hds, Hsz.
  unfold is_limit in Hl, Hop. unfold MaxStreamCount in *.
  ztrue (isOpened a - Z.of_nat (size (is_finished a)) - 1 <? maxNum).
  set (f := Z.of_nat (size (is_finished a))) in *.
  assert (0 <= f <= isOpened a).
  { unfold f. pose proof (subseteq_size _ _ (finished_subseteq m a Hr)). pose proof (size_rangeZ (isOpened a)).
    pose proof (ir_accepted m a Hr). lia. }
  rewrite (u64_small (maxNum - _)), (i64_small (maxNum - _)), i64_small by int_range.
  replace (isOpened a + 1 + (maxNum - (isOpened a - f - 1)) - 1) with (maxNum + f + 1) by lia.
  assert (Hlim : is_limit a' = if maxNum + f + 1 <=? 2 ^ 60 then maxNum + f + 1 else is_limit a).
  { unfold is_limit, MaxStreamCount. rewrite Hfs. fold f. destruct (Z.leb_spec (maxNum + f + 1) (2 ^ 60)); lia. }
  assert (Hent : forall k, delete num (imStreams m) !! k = is_entry a' k).
  { intros k. destruct (decide (k = num)) as [->|Hk].
    - rewrite lookup_delete_eq. unfold is_entry. rewrite bool_decide_false by set_solver. done.
    - rewrite lookup_delete_ne, (ir_streams m a Hr) by done. apply is_entry_eq; [by left|set_solver|by rewrite Hcomp]. }
  assert (Hdom : forall k, k ∈ isCompleted a' -> 1 <= k <= isOpened a').
  { intros k Hk. destruct (decide (k = num)) as [->|Hkn]; [lia|]. rewrite Ho. apply (ir_completed m a Hr). by apply Hcomp. }
  destruct (Z.leb_spec (maxNum + f + 1) (2 ^ 60)) as [Hle|Hgt];
    (eexists; split; [reflexivity|]); pose proof (ir_accepted m a Hr); pose proof (ir_events m a Hr) as Hev; destruct Hr;
    constructor; cbn [im_credit im_nextAccept im_streams imNewStreamChan imStreamType imStreams
      imNextStreamToAccept imNextStreamToOpen imMaxStream imMaxNumStreams imCloseErr imEvents]; rewrite ?Hlim; try done; try lia.
  - rewrite Hev, ir_type0. unfold is_frames. rewrite Hlim. unfold is_limit, MaxStreamCount. fold f.
    replace (maxNum + f + 1 - maxNum) with (Z.min (2 ^ 60) (maxNum + f) - maxNum + 1) by lia.
    rewrite seqZ_snoc, fmap_app by lia.
    by replace (maxNum + 1 + (2 ^ 60 `min` (maxNum + f) - maxNum)) with (maxNum + f + 1) by lia.
  - unfold is_frames. by rewrite Hlim.
Qed.

Lemma Delete_refines num m a : in_refines m a ->
  let '(r, a') := is_Delete num a in
  exists m', (_ ← im_DeleteStream num; mret None) m = (r, m') /\ in_refines m' a'.
Proof.
  intros Hr. unfold is_Delete, im_DeleteStream. pose proof (ir_accepted m a Hr) as Ha.
  assert (Em : im_nextAccept (isAccepted a + 1) m = m)
    by (pose proof (ir_accept m a Hr) as E; destruct m; cbn in *; by rewrite E).
  case_bool_decide as Hok.
  - destruct Hok as [Hrange Hnc]. set (a' := mkInSpec _ _ _). destruct (Z.leb_spec num (isAccepted a)) as [Hacc|Hacc].
    + assert (Hnf : num ∉ is_finished a) by (unfold is_finished; rewrite elem_of_filter; tauto).
      assert (Hf : is_finished a' = {[num]} ∪ is_finished a)
        by (apply set_eq; intros k; unfold is_finished, a'; cbn; rewrite elem_of_union, elem_of_singleton, !elem_of_filter; set_solver by lia).
      destruct (finish_refines m a a' num Hr Hrange Hnf Hf) as (m' & E & Hr'); try done; unfold a'; cbn; try lia;
        [set_solver|set_solver|].
      * cbn in E. rewrite Em in E. rewrite (stM_bind_ok _ _ _ _ _ E). by eexists.
    + unfold mbind at 1, stM_bind at 1, im_deleteStream, mbind at 1, stM_bind at 1, get.
      assert (Hf : is_finished a' = is_finished a).
      { apply set_eq. intros k. unfold is_finished, a'. cbn. rewrite !elem_of_filter, elem_of_union, elem_of_singleton. naive_solver lia. }
      rewrite (ir_streams m a Hr). unfold is_entry.
      rewrite bool_decide_true by (unfold is_finished; rewrite elem_of_filter; split; [lia|tauto]).
      rewrite (ir_accept m a Hr). ztrue (isAccepted a + 1 <=? num). cbn [ieShouldDelete].
      rewrite bool_decide_false by done. eexists. split; [reflexivity|].
      destruct Hr. constructor; cbn [im_streams imNewStreamChan imStreamType imStreams
        imNextStreamToAccept imNextStreamToOpen imMaxStream imMaxNumStreams imCloseErr imEvents]; try done.
      * intros k. destruct (decide (k = num)) as [->|Hk].
        -- rewrite lookup_insert_eq. unfold is_entry. rewrite Hf, bool_decide_true
             by (unfold is_finished; rewrite elem_of_filter; split; [done|tauto]).
           rewrite bool_decide_true by (unfold a'; set_solver). done.
        -- rewrite lookup_insert_ne, ir_streams0 by done. apply is_entry_eq; [by left|by rewrite Hf|unfold a'; set_solver].
      * unfold is_limit. by rewrite Hf.
      * unfold is_frames, is_limit. by rewrite Hf.
      * unfold is_limit. by rewrite Hf.
      * unfold a'. cbn. intros k. rewrite elem_of_union, elem_of_singleton. intros [->|Hk]; [done|auto].
  - unfold mbind at 1, stM_bind at 1, im_deleteStream, mbind at 1, stM_bind at 1, get.
    rewrite (ir_streams m a Hr). unfold is_entry, is_finished. rewrite (ir_accept m a Hr).
    case_bool_decide as Hmult.
    + pose proof (ir_completed m a Hr num (proj2 Hmult)). rewrite bool_decide_true by (rewrite elem_of_filter; split; [lia|lia]).
      ztrue (isAccepted a + 1 <=? num). cbn [ieShouldDelete]. rewrite bool_decide_true by tauto. by eexists.
    + rewrite bool_decide_false; [by eexists|]. rewrite elem_of_filter. intros [Hrg Hnot].
      destruct (decide (num ∈ isCompleted a)); [|tauto]. apply Hmult. split; [|done].
      destruct (Z.leb_spec num (isAccepted a)); [tauto|done].
Qed.

Lemma Accept_refines m a : in_refines m a ->
  let '(r, a') := is_Accept a in
  exists m', im_acceptLocked m = (r, m') /\ in_refines m' a'.
Proof.
  intros Hr. unfold is_Accept, im_acceptLocked, mbind at 1, stM_bind at 1, get at 1.
  rewrite (ir_closeErr m a Hr), (ir_accept m a Hr), (ir_streams m a Hr). pose proof (ir_accepted m a Hr) as Ha.
  pose proof (limit_range m a Hr Hmax). pose proof (ir_opened m a Hr). unfold MaxStreamCount in *.
  destruct (Z.ltb_spec (isAccepted a) (isOpened a)) as [Hlt|Hge].
  2:{ unfold is_entry. rewrite bool_decide_false by lia. by eexists. }
  unfold is_entry. rewrite bool_decide_true by (unfold is_finished; rewrite elem_of_filter; split; [lia|lia]).
  rewrite i64_small by int_range. cbn [ieShouldDelete ieStream]. set (num := isAccepted a + 1).
  unfold mbind at 1, stM_bind at 1, modify at 1. set (a' := mkInSpec _ _ _).
  case_bool_decide as Hc.
  - assert (Hnf : num ∉ is_finished a) by (unfold is_finished, num; rewrite elem_of_filter; lia).
    assert (Hf : is_finished a' = {[num]} ∪ is_finished a).
    { apply set_eq. intros k. unfold is_finished, a', num. cbn. rewrite elem_of_union, elem_of_singleton, !elem_of_filter.
      split; [intros [? ?]; destruct (decide (k = isAccepted a + 1)); [by left|right; split; [lia|done]]|].
      intros [->|[? ?]]; split; try done; lia. }
    destruct (finish_refines m a a' num) as (m' & E & Hr'); try done; unfold a', num; cbn; try lia.
    + rewrite (stM_bind_ok _ _ _ _ _ E). by eexists.
  - eexists. split; [reflexivity|].
    assert (Hf : is_finished a' = is_finished a).
    { apply set_eq. intros k. unfold is_finished, a'. cbn. rewrite !elem_of_filter.
      split; intros [? ?]; split; try done; try lia. destruct (decide (k = num)) as [->|]; [done|]. unfold num in *. lia. }
    destruct Hr. constructor; cbn [im_nextAccept imNewStreamChan imStreamType imStreams
      imNextStreamToAccept imNextStreamToOpen imMaxStream imMaxNumStreams imCloseErr imEvents]; try done;
      unfold is_frames, is_limit; rewrite ?Hf; try done; unfold a', num; cbn; try lia.
    intros k. rewrite ir_streams0. apply is_entry_eq; [by left|by rewrite <- Hf|done].
Qed.
End spec.
