(* ===== verification/StreamsMapClaims.v ===== *)
(** * StreamsMapClaims: accepting and opening streams concurrently

    Sequences of calls on the map of incoming streams, the goroutines that wait in
    [AcceptStream] and in [OpenStreamSync], and the dispatch on stream IDs. *)

From S2P Require Import Prelude Protocol Frames FrameParser StreamsMap StreamsMapProofs.
From stdpp Require Import base numbers list option strings gmap fin_sets.
From Stdlib Require Import ZArith Lia.
#[local] Open Scope Z_scope.

(** ** Sequences of calls on incoming streams *)

Inductive inOp := IGetOrOpen (num : Z) | IDelete (num : Z) | IAccept.

Section incoming.
Context {T : Type} (newStream : Z -> T).

(** [IAccept] is a call of [AcceptStream] that returns without waiting, or would wait. *)
Definition im_do (o : inOp) : stM (incomingStreamsMap T) (option T) :=
  match o with
  | IGetOrOpen num => im_GetOrOpenStream newStream num
  | IDelete num => _ ← im_DeleteStream num; mret None
  | IAccept => _ ← modify im_acceptEnter; im_acceptLocked
  end.

Definition is_do (maxNum : Z) (o : inOp) : inSpec -> res (option T) * inSpec :=
  match o with
  | IGetOrOpen num => is_GetOrOpen newStream maxNum num
  | IDelete num => is_Delete num
  | IAccept => is_Accept newStream
  end.

(** The results of the calls, and the state after them. *)
Fixpoint run {S} (f : inOp -> S -> res (option T) * S) (os : list inOp) (s : S) : list (res (option T)) * S :=
  match os with
  | [] => ([], s)
  | o :: os' => let '(r, s') := f o s in let '(rs, s'') := run f os' s' in (r :: rs, s'')
  end.

Definition inOp_ok (o : inOp) : Prop := match o with IGetOrOpen num => num < 2 ^ 62 | _ => True end.

Section refinement.
Context (maxNum : Z) (stype : StreamType) (Hmax : 0 <= maxNum <= MaxStreamCount).

Lemma enter_refines m a : in_refines newStream maxNum stype m a -> in_refines newStream maxNum stype (im_acceptEnter m) a.
Proof. intros []. by constructor. Qed.

Lemma im_do_refines o m a : in_refines newStream maxNum stype m a -> inOp_ok o ->
  exists m', im_do o m = ((is_do maxNum o a).1, m') /\ in_refines newStream maxNum stype m' (is_do maxNum o a).2.
Proof.
  intros Hr Ho. destruct o as [num|num|]; cbn [im_do is_do].
  - pose proof (GetOrOpen_refines newStream maxNum stype Hmax num m a Hr Ho) as Hg. by destruct (is_GetOrOpen _ _ _ _).
  - pose proof (Delete_refines newStream maxNum stype Hmax num m a Hr) as Hg. by destruct (is_Delete _ _).
  - pose proof (Accept_refines newStream maxNum stype Hmax _ a (enter_refines m a Hr)) as Hg. by destruct (is_Accept _ _).
Qed.

Lemma run_refines os : forall m a, in_refines newStream maxNum stype m a -> Forall inOp_ok os ->
  (run im_do os m).1 = (run (is_do maxNum) os a).1 /\
  in_refines newStream maxNum stype (run im_do os m).2 (run (is_do maxNum) os a).2.
Proof.
  induction os as [|o os IH]; intros m a Hr Hos; [done|]. apply Forall_cons in Hos as [Ho Hos].
  cbn [run]. destruct (im_do_refines o m a Hr Ho) as (m' & -> & Hr').
  destruct (is_do maxNum o a) as [r a']. cbn [fst snd] in *. specialize (IH m' a' Hr' Hos).
  destruct (run im_do os m'), (run (is_do maxNum) os a'). cbn in *. destruct IH as [-> ?]. done.
Qed.

Lemma init_refines : in_refines newStream maxNum stype (newIncomingStreamsMap stype maxNum) (mkInSpec 0 0 ∅).
Proof.
  assert (Hf : is_finished (mkInSpec 0 0 ∅) = ∅) by done.
  assert (Hl : is_limit maxNum (mkInSpec 0 0 ∅) = maxNum)
    by (unfold is_limit; rewrite Hf, size_empty; unfold MaxStreamCount in *; lia).
  constructor; cbn [newIncomingStreamsMap imNewStreamChan imStreamType imStreams imNextStreamToAccept imNextStreamToOpen
    imMaxStream imMaxNumStreams imCloseErr imEvents isAccepted isOpened]; rewrite ?Hl; try done; try lia.
  - intros k. unfold is_entry. by rewrite bool_decide_false by (cbn; lia).
  - unfold MaxStreamCount in *. apply i64_small. int_range.
  - unfold is_frames. by rewrite Hl, Z.sub_diag.
Qed.

(** C8: The map of incoming streams refines its specification.  Whatever calls of
    [GetOrOpenStream], [DeleteStream] and [AcceptStream] are made, in any order,
    every one returns what the specification says: streams are accepted in the
    order of their numbers, each one once, also the ones that complete before they
    are accepted; a stream beyond the limit is refused, a completed one is not
    returned again.  The peer never has more than the maximum number of streams in
    the map, and its limit is the initial one plus the number of streams that were
    both accepted and completed (up to 2^60), each value of it announced by one
    MAX_STREAMS frame. *)
Theorem incoming_streams_refine os : Forall inOp_ok os ->
  let '(rs, m) := run im_do os (newIncomingStreamsMap stype maxNum) in
  let '(rs', a) := run (is_do maxNum) os (mkInSpec 0 0 ∅) in
  rs = rs' /\ in_refines newStream maxNum stype m a /\ Z.of_nat (size (imStreams m)) <= maxNum.
Proof.
  intros Hos. destruct (run_refines os _ _ init_refines Hos) as [E Hr].
  destruct (run im_do os _) as [rs m], (run (is_do maxNum) os _) as [rs' a]. cbn [fst snd] in *.
  split; [done|]. split; [done|]. rewrite (ir_size newStream maxNum stype m a Hr).
  pose proof (ir_opened _ _ _ _ _ Hr) as Ho. unfold is_limit in Ho. lia.
Qed.
End refinement.
End incoming.

Lemma incoming_streams_refine_witness :
  let os := [IGetOrOpen 2; IDelete 1; IAccept; IGetOrOpen 3; IGetOrOpen 4; IAccept; IAccept; IAccept; IDelete 1] in
  let '(rs, m) := run (im_do (fun n => n)) os (newIncomingStreamsMap StreamTypeUni 2) in
  let '(rs', a) := run (is_do (fun n => n) 2) os (mkInSpec 0 0 ∅) in
  rs = rs' /\ in_refines (fun n => n) 2 StreamTypeUni m a /\ Z.of_nat (size (imStreams m)) <= 2.
Proof.
  apply (incoming_streams_refine (fun n => n) 2 StreamTypeUni ltac:(vm_compute; split; discriminate)
    [IGetOrOpen 2; IDelete 1; IAccept; IGetOrOpen 3; IGetOrOpen 4; IAccept; IAccept; IAccept; IDelete 1]).
  repeat constructor.
Defined.

(** ** Goroutines in AcceptStream

    A call of [AcceptStream] drains the channel, takes the mutex for one round of
    its loop and, without a stream, releases it, reaches the [select], and is
    parked there unless the channel is ready.  Between these steps anything else
    can happen. *)

Inductive gstate (T : Type) := GIdle | GLocking | GSelecting | GParked | GReturned (r : res T).
Arguments GIdle {_}.
Arguments GLocking {_}.
Arguments GSelecting {_}.
Arguments GParked {_}.
Arguments GReturned {_} _.

(** The map, the goroutines, and the streams that were returned to them, in order. *)
Record accWorld (T : Type) := mkAcc { awMap : incomingStreamsMap T; awG : list (gstate T); awLog : list T }.
Arguments mkAcc {_} _ _ _.
Arguments awMap {_} _.
Arguments awG {_} _.
Arguments awLog {_} _.

Inductive accOp :=
  | AEnter (g : nat) | ALock (g : nat) | ASelect (g : nat) | AResume (g : nat) | ACancel (g : nat) (err : GoError)
  | AOpen (num : Z) | ADelete (num : Z) | AClose (err : GoError).

Section accept.
Context {T : Type} (newStream : Z -> T).
Implicit Types (m : incomingStreamsMap T) (w : accWorld T).

Definition setG (g : nat) (s : gstate T) m w : accWorld T := mkAcc m (<[g := s]> (awG w)) (awLog w).
Definition setMap m w : accWorld T := mkAcc m (awG w) (awLog w).

Definition acc_do (o : accOp) w : accWorld T :=
  let m := awMap w in
  match o with
  | AEnter g =>
      match awG w !! g with
      | Some GIdle | Some (GReturned _) => setG g GLocking (im_acceptEnter m) w
      | _ => w
      end
  | ALock g =>
      match awG w !! g with
      | Some GLocking =>
          match im_acceptLocked m with
          | (Ok (Some s), m') => mkAcc m' (<[g := GReturned (Ok s)]> (awG w)) (awLog w ++ [s])
          | (Ok None, m') => setG g GSelecting m' w
          | (Err e, m') => setG g (GReturned (Err e)) m' w
          | (Panic p, m') => setG g (GReturned (Panic p)) m' w
          end
      | _ => w
      end
  | ASelect g =>
      match awG w !! g with
      | Some GSelecting =>
          let '(ready, c) := wc_select g (imNewStreamChan m) in
          setG g (if ready then GLocking else GParked) (im_chan c m) w
      | _ => w
      end
  | AResume g =>
      match awG w !! g, wc_resume g (imNewStreamChan m) with
      | Some GParked, Some c => setG g GLocking (im_chan c m) w
      | _, _ => w
      end
  | ACancel g err =>
      match awG w !! g with
      | Some GSelecting => setG g (GReturned (Err err)) m w
      | Some GParked =>
          if bool_decide (g ∈ wcParked (imNewStreamChan m))
          then setG g (GReturned (Err err)) (im_chan (wc_leave g (imNewStreamChan m)) m) w else w
      | _ => w
      end
  | AOpen num => if bool_decide (imCloseErr m = None) then setMap (im_GetOrOpenStream newStream num m).2 w else w
  | ADelete num => setMap (im_DeleteStream num m).2 w
  | AClose err => if bool_decide (imCloseErr m = None) then setMap (im_CloseWithError err m).2 w else w
  end.

Definition acc_run (os : list accOp) w : accWorld T := foldl (fun w o => acc_do o w) w os.

Definition acc_start (stype : StreamType) (maxNum : Z) (n : nat) : accWorld T :=
  mkAcc (newIncomingStreamsMap stype maxNum) (replicate n GIdle) [].

(** *** What the operations do to the map *)

Record map_ok m : Prop := {
  mo_keys k e : imStreams m !! k = Some e -> 1 <= k <= MaxStreamCount /\ ieStream e = newStream k;
  mo_max : imMaxStream m <= MaxStreamCount;
  mo_open : 1 <= imNextStreamToOpen m;
  mo_accept : 1 <= imNextStreamToAccept m
}.

(** A stream is available, or the map is closed. *)
Definition avail m : Prop := imCloseErr m <> None \/ imStreams m !! imNextStreamToAccept m <> None.

(** What a call of [AcceptStream] that waits depends on. *)
Definition same_wait m m' : Prop :=
  imNewStreamChan m' = imNewStreamChan m /\ imCloseErr m' = imCloseErr m /\
  imNextStreamToAccept m' = imNextStreamToAccept m /\ (avail m' <-> avail m).

Lemma map_ok_streams ss m : map_ok m -> (forall k e, ss !! k = Some e -> exists e', imStreams m !! k = Some e' /\ ieStream e = ieStream e') ->
  map_ok (im_streams ss m).
Proof. intros [] Hs. constructor; auto. cbn. intros k e (e' & He & ->)%Hs. auto. Qed.

(** Deleting never touches the stream to be accepted next. *)
Lemma deleteStream_wait num m : map_ok m ->
  let m' := (im_deleteStream num m).2 in map_ok m' /\ same_wait m m'.
Proof.
  intros Hm. unfold im_deleteStream, mbind, stM_bind, get, modify, throw, mret, stM_ret.
  destruct (imStreams m !! num) as [e0|] eqn:E; [|done].
  destruct (Z.leb_spec (imNextStreamToAccept m) num) as [Hle|Hlt].
  - destruct (ieShouldDelete e0); [done|]. cbn. split.
    + apply map_ok_streams; [done|]. intros k e. destruct (decide (num = k)) as [<-|?];
        [rewrite lookup_insert_eq; intros [= <-]; eauto|rewrite lookup_insert_ne by done; eauto].
    + split_and!; try done. unfold avail. cbn. destruct (decide (num = imNextStreamToAccept m)) as [->|?];
        [rewrite lookup_insert_eq, E; by split; right|by rewrite lookup_insert_ne].
  - assert (Hd : map_ok (im_streams (delete num (imStreams m)) m)).
    { apply map_ok_streams; [done|]. intros k e [_ ?]%lookup_delete_Some. eauto. }
    assert (Ha : avail (im_streams (delete num (imStreams m)) m) <-> avail m)
      by (unfold avail; cbn; by rewrite lookup_delete_ne by lia).
    cbn [im_streams imStreams imMaxNumStreams imNextStreamToOpen]. destruct (_ <? _); [|done].
    destruct (_ <=? MaxStreamCount) eqn:El; [|done]. cbn. split; [|done]. destruct Hd. constructor; cbn in *; auto. lia.
Qed.

Lemma acceptLocked_spec m : map_ok m ->
  match im_acceptLocked m with
  | (Ok None, m') => m' = m /\ ~ avail m
  | (Ok (Some s), m') =>
      imCloseErr m = None /\ s = newStream (imNextStreamToAccept m) /\ map_ok m' /\
      imNewStreamChan m' = imNewStreamChan m /\ imCloseErr m' = None /\ imNextStreamToAccept m' = imNextStreamToAccept m + 1
  | (Err e, m') => m' = m /\ imCloseErr m = Some e
  | (Panic _, _) => False
  end.
Proof.
  intros Hm. unfold im_acceptLocked, mbind at 1, stM_bind at 1, get at 1. destruct (imCloseErr m) as [err|] eqn:Ec; [done|].
  destruct (imStreams m !! imNextStreamToAccept m) as [e|] eqn:E; [|by split; [|unfold avail; rewrite Ec, E; tauto]].
  destruct (mo_keys m Hm _ _ E) as [Hk He]. unfold MaxStreamCount in Hk. rewrite i64_small by int_range.
  unfold mbind at 1, stM_bind at 1, modify at 1. set (m1 := im_nextAccept (imNextStreamToAccept m + 1) m).
  assert (Hm1 : map_ok m1) by (destruct Hm; constructor; cbn; auto; lia).
  destruct (ieShouldDelete e); [|by split_and!].
  destruct (deleteStream_wait (imNextStreamToAccept m) m1 Hm1) as [Hm2 (Hc & Hce & Hn & _)].
  assert (Hok : (im_deleteStream (imNextStreamToAccept m) m1).1 = Ok tt).
  { unfold im_deleteStream, mbind, stM_bind, get, modify, mret, stM_ret. cbn [m1 im_nextAccept imStreams imNextStreamToAccept].
    rewrite E. zfalse (imNextStreamToAccept m + 1 <=? imNextStreamToAccept m).
    cbn [im_streams imStreams imMaxNumStreams imNextStreamToOpen im_nextAccept].
    destruct (_ <? _); [|done]. by destruct (_ <=? MaxStreamCount). }
  unfold mbind, stM_bind. destruct (im_deleteStream _ m1) as [r m2]. cbn [fst snd] in *. subst r.
  unfold mret, stM_ret. by rewrite Hc, Hce, Hn.
Qed.

(** Opening sends to the channel for every new stream. *)
Lemma openLoop_wait k : forall n m, map_ok m -> wcClosed (imNewStreamChan m) = false ->
  1 <= n -> n + Z.of_nat k <= MaxStreamCount + 1 ->
  let m' := (im_openLoop newStream k n m).2 in
  map_ok m' /\ imCloseErr m' = imCloseErr m /\ imNextStreamToAccept m' = imNextStreamToAccept m /\
  (im_openLoop newStream k n m).1 = Ok tt /\ (k = 0%nat -> m' = m) /\
  let c := imNewStreamChan m in let c' := imNewStreamChan m' in
  wcClosed c' = false /\
  ((length (wcParked c) <= 1)%nat ->
   wcWoken c' = wcWoken c ++ (if decide (k = 0%nat) then [] else wcParked c) /\
   wcParked c' = (if decide (k = 0%nat) then wcParked c else []) /\
   (wcParked c = [] -> k <> 0%nat -> wcBuffered c' = true)).
Proof.
  induction k as [|k IH]; intros n m Hm Hc Hn Hk.
  - cbn. by rewrite app_nil_r.
  - cbn [im_openLoop]. unfold mbind, stM_bind, get, modify, lift. destruct (wc_send_open _ Hc) as (c & -> & Hcc & Hsend).
    unfold MaxStreamCount in *. rewrite i64_small by int_range.
    set (m1 := im_chan c _).
    assert (Hm1 : map_ok m1).
    { destruct Hm. constructor; cbn; auto. intros j e. destruct (decide (n = j)) as [<-|?];
        [rewrite lookup_insert_eq; intros [= <-]; unfold MaxStreamCount; split; [lia|done]|by rewrite lookup_insert_ne by done; auto]. }
    destruct (IH (n + 1) m1 Hm1 Hcc) as (Hm' & Hce & Hna & Hok & Heq & Hcl & Hch); [lia|lia|].
    split_and!; try done. intros Hp.
    assert (Hp1 : wcParked c = []) by (destruct (wcParked (imNewStreamChan m)) as [|g [|]]; cbn in *; [tauto|tauto|lia]).
    destruct Hch as (Hw & Hpk & Hb); [cbn; rewrite Hp1; cbn; lia|]. cbn [m1 im_chan imNewStreamChan] in Hw, Hpk, Hb.
    split_and!.
    + rewrite Hw, Hp1. destruct (wcParked (imNewStreamChan m)) as [|g [|]]; cbn in *; [|destruct Hsend as (_ & -> & _)|lia].
      * destruct Hsend as (_ & -> & _). by destruct (decide (k = 0%nat)).
      * destruct (decide (k = 0%nat)); by rewrite app_nil_r.
    + rewrite Hpk, Hp1. by destruct (decide (k = 0%nat)).
    + intros Hnil _. rewrite Hnil in Hsend. destruct Hsend as (_ & _ & Hbuf). destruct (decide (k = 0%nat)) as [->|Hk0]; [|auto].
      by rewrite (Heq eq_refl).
Qed.

(** [GetOrOpenStream] changes nothing, or makes the channel ready. *)
Lemma GetOrOpen_wait num m : map_ok m -> wcClosed (imNewStreamChan m) = false ->
  let m' := (im_GetOrOpenStream newStream num m).2 in
  m' = m \/
  map_ok m' /\ imCloseErr m' = imCloseErr m /\ imNextStreamToAccept m' = imNextStreamToAccept m /\
  let c := imNewStreamChan m in let c' := imNewStreamChan m' in
  wcClosed c' = false /\
  ((length (wcParked c) <= 1)%nat ->
   wcWoken c' = wcWoken c ++ wcParked c /\ wcParked c' = [] /\ (wcParked c = [] -> wcBuffered c' = true)).
Proof.
  intros Hm Hc. destruct (im_GetOrOpenStream newStream num m) as [r m'] eqn:E. cbn [snd].
  unfold im_GetOrOpenStream, mbind at 1, stM_bind at 1, get at 1 in E.
  destruct (Z.ltb_spec (imMaxStream m) num); [left; by injection E|].
  destruct (Z.ltb_spec num (imNextStreamToOpen m)) as [?|Hge]; [left; by injection E|].
  right. pose proof (mo_max m Hm). pose proof (mo_open m Hm). unfold MaxStreamCount in *.
  destruct (openLoop_wait (Z.to_nat (num - imNextStreamToOpen m + 1)) (imNextStreamToOpen m) m Hm Hc)
    as (Hm' & Hce & Hna & Hok & _ & Hcl & Hch); [lia|unfold MaxStreamCount; lia|].
  rewrite !decide_False in * by lia. unfold mbind, stM_bind in E. destruct (im_openLoop _ _ _ m) as [r1 m1]. cbn [fst snd] in *. subst r1.
  unfold modify, get, mret, stM_ret in E. injection E as _ <-. cbn. split_and!; try done.
  - destruct Hm'. constructor; cbn; auto. rewrite i64_small by int_range. lia.
  - intros Hp. destruct (Hch Hp) as (-> & -> & Hb). split_and!; try done. intros Hnil. apply Hb; [done|lia].
Qed.

(** *** Streams are accepted in order *)

Record order_inv w : Prop := {
  oi_map : map_ok (awMap w);
  oi_closed : wcClosed (imNewStreamChan (awMap w)) = true <-> imCloseErr (awMap w) <> None;
  oi_log : awLog w = newStream <$> seqZ 1 (imNextStreamToAccept (awMap w) - 1)
}.

Lemma order_inv_chan c gs w : order_inv w -> wcClosed c = wcClosed (imNewStreamChan (awMap w)) ->
  order_inv (mkAcc (im_chan c (awMap w)) gs (awLog w)).
Proof. intros [[] Hc Hl] E. constructor; [by constructor|cbn; by rewrite E|done]. Qed.

Lemma order_inv_do o w : order_inv w -> order_inv (acc_do o w).
Proof.
  intros Hi. pose proof Hi as [Hm Hc Hl]. destruct o as [g|g|g|g|g err|num|num|err]; cbn [acc_do].
  - destruct (awG w !! g) as [[]|]; try done; by apply order_inv_chan.
  - destruct (awG w !! g) as [[]|]; try done. pose proof (acceptLocked_spec _ Hm) as Ha.
    destruct (im_acceptLocked (awMap w)) as [[[s|]|e|p] m']; [| | |done].
    + destruct Ha as (Hce & -> & Hm' & Hch & Hce' & Hn). constructor; cbn; [done|by rewrite Hch, Hce', Hc, Hce|].
      pose proof (mo_accept _ Hm). rewrite Hl, Hn. set (n := imNextStreamToAccept (awMap w)) in *.
      replace (n + 1 - 1) with (n - 1 + 1) by lia. rewrite seqZ_snoc, fmap_app by lia. by replace (1 + (n - 1)) with n by lia.
    + by destruct Ha as [-> _].
    + by destruct Ha as [-> _].
  - destruct (awG w !! g) as [[]|]; try done. unfold wc_select.
    destruct (wcBuffered _); [by apply order_inv_chan|]. destruct (wcClosed _) eqn:Ecl; by apply order_inv_chan.
  - destruct (awG w !! g) as [[]|]; try done. unfold wc_resume. case_bool_decide; [|done]. by apply order_inv_chan.
  - destruct (awG w !! g) as [[]|]; try done. case_bool_decide; [|done]. by apply order_inv_chan.
  - case_bool_decide as Hce; [|done].
    assert (Hcl : wcClosed (imNewStreamChan (awMap w)) = false) by (destruct (wcClosed _); [by apply Hc in Hce|done]).
    destruct (GetOrOpen_wait num (awMap w) Hm Hcl) as [->|(Hm' & Hce' & Hn & Hcl' & _)]; [by destruct w|].
    constructor; cbn; [done| |by rewrite Hn]. rewrite Hcl', Hce'. by split.
  - destruct (deleteStream_wait num (awMap w) Hm) as [Hm' (Hch & Hce & Hn & _)]. unfold im_DeleteStream.
    constructor; cbn; [done|by rewrite Hch, Hce|by rewrite Hn].
  - case_bool_decide as Hce; [|done].
    assert (Hcl : wcClosed (imNewStreamChan (awMap w)) = false) by (destruct (wcClosed _); [by apply Hc in Hce|done]).
    unfold im_CloseWithError, mbind, stM_bind, modify, get, lift, wc_close. cbn [imNewStreamChan]. rewrite Hcl. cbn.
    destruct Hm. constructor; [by constructor|by cbn|done].
Qed.

(** *** One goroutine is never left waiting *)

(** The state of the channel while the goroutine is in state [g]. *)
Definition waits (g : gstate T) m : Prop :=
  let c := imNewStreamChan m in
  match g with
  | GParked => wcParked c = [0%nat] /\ wcWoken c = [] /\ ~ avail m \/ wcParked c = [] /\ wcWoken c = [0%nat]
  | GSelecting => wcParked c = [] /\ wcWoken c = [] /\ (avail m -> wcBuffered c = true \/ wcClosed c = true)
  | _ => wcParked c = [] /\ wcWoken c = []
  end.

Definition single_inv w : Prop := order_inv w /\ exists g, awG w = [g] /\ waits g (awMap w).

Lemma waits_parked g m : waits g m -> (length (wcParked (imNewStreamChan m)) <= 1)%nat.
Proof.
  intros Hw. assert (exists l, wcParked (imNewStreamChan m) = l /\ (length l <= 1)%nat) as (l & -> & Hl); [|done].
  destruct g; cbn in Hw; naive_solver.
Qed.

(** An operation of others that leaves the channel alone. *)
Lemma waits_same g m m' : same_wait m m' -> waits g m -> waits g m'.
Proof. intros (Hc & _ & _ & Ha). destruct g; cbn; rewrite Hc, ?Ha; done. Qed.

(** An operation of others that makes the channel ready. *)
Lemma waits_ready g m m' : let c := imNewStreamChan m in let c' := imNewStreamChan m' in
  wcWoken c' = wcWoken c ++ wcParked c -> wcParked c' = [] ->
  (wcParked c = [] -> wcBuffered c' = true \/ wcClosed c' = true) -> waits g m -> waits g m'.
Proof.
  intros c c' Hw Hp Hb Hg. unfold waits in *. fold c in Hg. fold c'. destruct g; rewrite Hw, Hp.
  1, 2, 5: by destruct Hg as (-> & ->).
  - destruct Hg as (E1 & E2 & _). rewrite E1, E2. auto.
  - right. destruct Hg as [(-> & -> & _)|(-> & ->)]; done.
Qed.

Lemma single_inv_do o w : single_inv w -> single_inv (acc_do o w).
Proof.
  intros [Ho (g & Eg & Hg)]. split; [by apply order_inv_do|]. pose proof Ho as [Hm Hc _].
  assert (Hlk : forall i, awG w !! i = if decide (i = 0%nat) then Some g else None)
    by (intros [|]; rewrite Eg; done).
  destruct o as [i|i|i|i|i err|num|num|err]; cbn [acc_do]; rewrite ?Hlk;
    try (destruct (decide (i = 0%nat)) as [->|_]; [|by exists g]).
  - destruct g; try (by eexists); cbn; rewrite Eg; eexists; (split; [done|]); destruct Hg as [? ?]; done.
  - destruct g; try (by eexists). pose proof (acceptLocked_spec _ Hm) as Ha.
    destruct (im_acceptLocked (awMap w)) as [[[s|]|e|p] m']; [| | |done]; cbn; rewrite Eg; eexists; (split; [done|]); cbn in *.
    + by destruct Ha as (_ & _ & _ & -> & _).
    + destruct Ha as [-> Ha], Hg as [? ?]. done.
    + by destruct Ha as [-> _].
  - destruct g; try (by eexists). unfold wc_select. destruct Hg as (Hp & Hw & Ha).
    destruct (wcBuffered _) eqn:Eb; [|destruct (wcClosed _) eqn:Ec]; cbn; rewrite Eg; eexists; (split; [done|]); cbn; rewrite ?Hp, ?Hw; try done.
    left. split_and!; [done..|]. intros [?|?]%Ha; done.
  - destruct g; try (by eexists). unfold wc_resume. case_bool_decide as Hin; [|by eexists].
    destruct Hg as [(_ & Hw & _)|(Hp & Hw)]; rewrite Hw in Hin; [by apply not_elem_of_nil in Hin|].
    cbn; rewrite Eg; eexists; (split; [done|]); cbn. by rewrite Hp, Hw.
  - destruct g; try (by eexists).
    + cbn; rewrite Eg; eexists; (split; [done|]). by destruct Hg as (? & ? & _).
    + case_bool_decide as Hin; [|by eexists]. cbn; rewrite Eg; eexists; (split; [done|]); cbn.
      destruct Hg as [(Hp & Hw & _)|(Hp & Hw)]; rewrite Hp in *; [by rewrite Hw|by apply not_elem_of_nil in Hin].
  - exists g. case_bool_decide as Hce; [|done]. split; [done|]. cbn.
    assert (Hcl : wcClosed (imNewStreamChan (awMap w)) = false) by (destruct (wcClosed _); [by apply Hc in Hce|done]).
    destruct (GetOrOpen_wait num (awMap w) Hm Hcl) as [->|(_ & _ & _ & _ & Hch)]; [done|].
    destruct (Hch (waits_parked _ _ Hg)) as (Hw & Hp & Hb). eapply waits_ready; eauto.
  - exists g. split; [done|]. eapply waits_same; [|exact Hg]. by apply (deleteStream_wait num).
  - exists g. case_bool_decide as Hce; [|done]. split; [done|]. cbn.
    assert (Hcl : wcClosed (imNewStreamChan (awMap w)) = false) by (destruct (wcClosed _); [by apply Hc in Hce|done]).
    unfold im_CloseWithError, mbind, stM_bind, modify, get, lift, wc_close. cbn [imNewStreamChan]. rewrite Hcl.
    eapply waits_ready; [| | |exact Hg]; cbn; auto.
Qed.

Lemma start_map_ok stype maxNum : 0 <= maxNum <= MaxStreamCount -> map_ok (newIncomingStreamsMap stype maxNum).
Proof.
  intros Hmax. unfold MaxStreamCount in *. constructor; cbn; try lia; [by intros k e; rewrite lookup_empty|].
  rewrite i64_small by int_range. unfold MaxStreamCount. lia.
Qed.

Lemma start_order stype maxNum n : 0 <= maxNum <= MaxStreamCount -> order_inv (acc_start stype maxNum n).
Proof. intros Hmax. constructor; [by apply start_map_ok|by cbn|done]. Qed.

Lemma acc_run_inv (P : accWorld T -> Prop) os : forall w, (forall o w, P w -> P (acc_do o w)) -> P w -> P (acc_run os w).
Proof. induction os as [|o os IH]; intros w Hs Hw; [done|]. apply IH; auto. Qed.

(** C31: A goroutine that waits in [AcceptStream] gets the stream.  Whatever the
    peer, the other users of the map and cancelled contexts do in between, the
    goroutines together accept the streams 1, 2, 3, ... in order and each one once;
    and as long as a single goroutine accepts streams, it is not left waiting: when
    a stream is available or the map was closed, its next steps return that stream,
    or the error of the close. *)
Theorem accept_wakes_up stype maxNum n os : 0 <= maxNum <= MaxStreamCount ->
  let w := acc_run os (acc_start stype maxNum n) in
  let m := awMap w in
  awLog w = newStream <$> seqZ 1 (imNextStreamToAccept m - 1) /\
  (n = 1%nat -> awG w = [GSelecting] \/ awG w = [GParked] -> avail m ->
   awG (acc_run [ASelect 0; AResume 0; ALock 0] w) =
     [GReturned (match imCloseErr m with Some e => Err e | None => Ok (newStream (imNextStreamToAccept m)) end)]).
Proof.
  intros Hmax w m. split.
  - apply oi_log, acc_run_inv; [apply order_inv_do|by apply start_order].
  - intros -> Hg Ha.
    assert (Hs : single_inv w).
    { apply acc_run_inv; [apply single_inv_do|]. split; [by apply start_order|]. by exists GIdle. }
    assert (Hlock : forall w', awG w' = [GLocking] -> order_inv w' -> imCloseErr (awMap w') = imCloseErr m ->
      imNextStreamToAccept (awMap w') = imNextStreamToAccept m -> avail (awMap w') ->
      awG (acc_do (ALock 0) w') =
        [GReturned (match imCloseErr m with Some e => Err e | None => Ok (newStream (imNextStreamToAccept m)) end)]).
    { intros w' Ew [Hm' _ _] Hce Hn Ha'. cbn. rewrite Ew. cbn. pose proof (acceptLocked_spec _ Hm') as Hl.
      destruct (im_acceptLocked (awMap w')) as [[[s|]|e|p] m']; [| | |done]; cbn; rewrite ?Ew; cbn.
      - destruct Hl as (Hce' & -> & _). by rewrite <- Hce, Hce', Hn.
      - by destruct Hl as [_ ?].
      - destruct Hl as [_ Hce']. by rewrite <- Hce, Hce'. }
    destruct Hs as [Ho (g & Eg & Hw)]. cbn [acc_run foldl].
    destruct Hg as [Hg|Hg]; rewrite Hg in Eg; injection Eg as <-.
    + destruct Hw as (_ & _ & Hr). specialize (Hr Ha). pose proof (order_inv_do (ASelect 0) w Ho) as Ho1.
      assert (E : acc_do (AResume 0) (acc_do (ASelect 0) w) = acc_do (ASelect 0) w /\ awG (acc_do (ASelect 0) w) = [GLocking] /\
        imCloseErr (awMap (acc_do (ASelect 0) w)) = imCloseErr m /\
        imNextStreamToAccept (awMap (acc_do (ASelect 0) w)) = imNextStreamToAccept m /\ avail (awMap (acc_do (ASelect 0) w))).
      { cbn. rewrite Hg. cbn. unfold wc_select. fold m.
        destruct (wcBuffered _); [|destruct (wcClosed _); [|by destruct Hr]]; cbn; by rewrite Hg. }
      destruct E as (-> & E1 & E2 & E3 & E4). by apply Hlock.
    + destruct Hw as [(_ & _ & Hn)|(Hp & Hwk)]; [done|].
      assert (Es : acc_do (ASelect 0) w = w) by (cbn; by rewrite Hg). rewrite Es.
      pose proof (order_inv_do (AResume 0) w Ho) as Ho1.
      apply Hlock; [|done|..]; cbn; rewrite Hg; cbn; unfold wc_resume; rewrite bool_decide_true
        by (rewrite Hwk; by apply list_elem_of_singleton); cbn; try done. by rewrite Hg.
Qed.
End accept.

Lemma accept_wakes_up_witness :
  let w := acc_run (fun n => n) [AEnter 0; ALock 0; ASelect 0; AOpen 2; ADelete 1] (acc_start StreamTypeUni 5 1) in
  let m := awMap w in
  awLog w = (fun n => n) <$> seqZ 1 (imNextStreamToAccept m - 1) /\
  awG (acc_run (fun n => n) [ASelect 0; AResume 0; ALock 0] w) = [GReturned (Ok 1)].
Proof.
  destruct (accept_wakes_up (fun n => n) StreamTypeUni 5 1 [AEnter 0; ALock 0; ASelect 0; AOpen 2; ADelete 1]
    ltac:(vm_compute; split; discriminate)) as [Hl Hw].
  split; [exact Hl|]. apply Hw; [reflexivity | right; reflexivity | right; vm_compute; discriminate].
Defined.

(** Two goroutines that accept streams: one of them can be left waiting
    although a stream is available.  Both have found no stream and released the
    mutex; the peer opens two streams at once, which leaves one element in the
    channel; the first goroutine takes it and stream 1, the second one is parked,
    and stream 2 stays in the map until the peer opens another one. *)
Theorem two_acceptors_lost_wakeup :
  let w := acc_run (fun n => n)
    [AEnter 0; ALock 0; AEnter 1; ALock 1; AOpen 2; ASelect 0; ALock 0; ASelect 1] (acc_start StreamTypeUni 100 2) in
  awG w = [GReturned (Ok 1); GParked] /\
  imNextStreamToAccept (awMap w) = 2 /\ imStreams (awMap w) !! 2 = Some (mkEntry 2 false) /\
  acc_run (fun n => n) [AResume 1; ASelect 1; ALock 1] w = w.
Proof. vm_compute. done. Qed.
