(* ===== verification/OpenStreamClaims.v ===== *)
(** * OpenStreamClaims: goroutines in OpenStreamSync

    Calls of [OpenStreamSync] that find no stream wait in a queue, each with its own
    channel.  Between the steps of one call, other calls come in, the peer raises
    the limit, and contexts may be cancelled. *)

From S2P Require Import Prelude Protocol Frames FrameParser StreamsMap StreamsMapProofs.
From stdpp Require Import base numbers list option strings gmap fin_sets sorting.
From Stdlib Require Import ZArith Lia.
#[local] Open Scope Z_scope.

(** A call that waits: before its [select], parked in it, or about to take the mutex. *)
Inductive wstate := WSelecting | WParked | WLocking.

(** The map, the calls that wait by their position in the queue, the positions that
    were served and the streams that were opened, in order. *)
Record openWorld (T : Type) := mkOpenWorld {
  owMap : outgoingStreamsMap T; owW : gmap Z wstate; owServed : list Z; owLog : list T
}.
Arguments mkOpenWorld {_} _ _ _ _.
Arguments owMap {_} _.
Arguments owW {_} _.
Arguments owServed {_} _.
Arguments owLog {_} _.

Inductive openOp :=
  | OOpen | OEnter | OSelect (pos : Z) | OResume (pos : Z) | OLock (pos : Z) | OCancel (pos : Z) (err : GoError)
  | OSetMax (num : Z) | ODelete (num : Z).

Section openSync.
Context {T : Type} (newStream : Z -> T).
Implicit Types (m : outgoingStreamsMap T) (w : openWorld T).

Definition om_setChan (pos : Z) (c : wakeChan) m : outgoingStreamsMap T :=
  om_queue (<[pos := c]> (omOpenQueue m)) (omLowestInQueue m) (omHighestInQueue m) m.

Definition open_do (o : openOp) w : openWorld T :=
  let m := owMap w in
  match o with
  | OOpen =>
      match om_OpenStream newStream m with
      | (Ok s, m') => mkOpenWorld m' (owW w) (owServed w) (owLog w ++ [s])
      | (_, m') => mkOpenWorld m' (owW w) (owServed w) (owLog w)
      end
  | OEnter =>
      match om_openSyncEnter newStream None m with
      | (Ok (inl s), m') => mkOpenWorld m' (owW w) (owServed w) (owLog w ++ [s])
      | (Ok (inr pos), m') => mkOpenWorld m' (<[pos := WSelecting]> (owW w)) (owServed w) (owLog w)
      | (_, m') => mkOpenWorld m' (owW w) (owServed w) (owLog w)
      end
  | OSelect pos =>
      match owW w !! pos, omOpenQueue m !! pos with
      | Some WSelecting, Some c =>
          let '(ready, c') := wc_select 0 c in
          mkOpenWorld (om_setChan pos c' m) (<[pos := if ready then WLocking else WParked]> (owW w)) (owServed w) (owLog w)
      | _, _ => w
      end
  | OResume pos =>
      match owW w !! pos, omOpenQueue m !! pos ≫= wc_resume 0 with
      | Some WParked, Some c' => mkOpenWorld (om_setChan pos c' m) (<[pos := WLocking]> (owW w)) (owServed w) (owLog w)
      | _, _ => w
      end
  | OLock pos =>
      match owW w !! pos with
      | Some WLocking =>
          match om_openSyncWoken newStream pos m with
          | (Ok (Some s), m') => mkOpenWorld m' (delete pos (owW w)) (owServed w ++ [pos]) (owLog w ++ [s])
          | (Ok None, m') => mkOpenWorld m' (<[pos := WSelecting]> (owW w)) (owServed w) (owLog w)
          | (_, m') => mkOpenWorld m' (delete pos (owW w)) (owServed w) (owLog w)
          end
      | _ => w
      end
  | OCancel pos err =>
      let cancelled := mkOpenWorld (om_openSyncCancelled pos err m).2 (delete pos (owW w)) (owServed w) (owLog w) in
      match owW w !! pos, omOpenQueue m !! pos with
      | Some WSelecting, _ => cancelled
      | Some WParked, Some c => if bool_decide (0%nat ∈ wcParked c) then cancelled else w
      | _, _ => w
      end
  | OSetMax num => mkOpenWorld (om_SetMaxStream num m).2 (owW w) (owServed w) (owLog w)
  | ODelete num => mkOpenWorld (om_DeleteStream num m).2 (owW w) (owServed w) (owLog w)
  end.

Definition open_run (os : list openOp) w : openWorld T := foldl (fun w o => open_do o w) w os.
Definition open_start (stype : StreamType) : openWorld T := mkOpenWorld (newOutgoingStreamsMap stype) ∅ [] [].

(** ** The invariant *)

Definition chan_ok (st : wstate) (c : wakeChan) : Prop :=
  wcClosed c = false /\
  match st with
  | WParked => wcParked c = [0%nat] /\ wcWoken c = [] /\ wcBuffered c = false \/ wcParked c = [] /\ wcWoken c = [0%nat]
  | _ => wcParked c = [] /\ wcWoken c = []
  end.

(** The call was woken or will not wait. *)
Definition tokened (st : wstate) (c : wakeChan) : Prop := st = WLocking \/ wcBuffered c = true \/ wcWoken c <> [].

Definition is_min (q : gmap Z wakeChan) (pos : Z) : Prop := forall pos', is_Some (q !! pos') -> pos <= pos'.

Record queue_inv (n : Z) (m : outgoingStreamsMap T) (ws : gmap Z wstate) (served : list Z) : Prop := {
  qi_dom pos : is_Some (omOpenQueue m !! pos) <-> is_Some (ws !! pos);
  qi_range pos : is_Some (omOpenQueue m !! pos) -> omLowestInQueue m <= pos < omHighestInQueue m;
  qi_bounds : 0 <= omLowestInQueue m <= omHighestInQueue m /\ omHighestInQueue m <= n;
  qi_chan pos st c : ws !! pos = Some st -> omOpenQueue m !! pos = Some c -> chan_ok st c;
  qi_min pos st c : ws !! pos = Some st -> omOpenQueue m !! pos = Some c -> tokened st c -> is_min (omOpenQueue m) pos;
  qi_sorted : StronglySorted Z.lt served;
  qi_served pos : pos ∈ served -> pos < omHighestInQueue m /\ forall pos', is_Some (omOpenQueue m !! pos') -> pos < pos'
}.

Record limit_inv (n : Z) (m : outgoingStreamsMap T) (log : list T) : Prop := {
  li_next : 1 <= omNextStream m <= n + 1;
  li_max : omMaxStream m <= MaxStreamCount;
  li_limit : omNextStream m - 1 <= Z.max 0 (omMaxStream m);
  li_log : log = newStream <$> seqZ 1 (omNextStream m - 1);
  li_open : omCloseErr m = None
}.

(** Somebody who waits was woken if a stream can be opened. *)
Definition wake_inv (m : outgoingStreamsMap T) (ws : gmap Z wstate) : Prop :=
  omNextStream m <= omMaxStream m -> omOpenQueue m <> ∅ ->
  exists pos st c, ws !! pos = Some st /\ omOpenQueue m !! pos = Some c /\ tokened st c.

Record open_inv (live : bool) (n : Z) w : Prop := {
  oi_queue : queue_inv n (owMap w) (owW w) (owServed w);
  oi_limit : limit_inv n (owMap w) (owLog w);
  oi_wake : live = true -> wake_inv (owMap w) (owW w)
}.

(** ** The operations *)

Lemma queue_empty (q : gmap Z wakeChan) : (Z.of_nat (size q) =? 0) = bool_decide (q = ∅).
Proof.
  case_bool_decide as E; [subst; by rewrite map_size_empty|]. apply Z.eqb_neq. rewrite <- map_size_empty_iff in E. lia.
Qed.

Lemma maybeSendBlocked_same m : let m' := om_maybeSendBlockedFrame m in
  omOpenQueue m' = omOpenQueue m /\ omLowestInQueue m' = omLowestInQueue m /\ omHighestInQueue m' = omHighestInQueue m /\
  omNextStream m' = omNextStream m /\ omMaxStream m' = omMaxStream m /\ omCloseErr m' = omCloseErr m.
Proof. unfold om_maybeSendBlockedFrame. by destruct (omBlockedSent m). Qed.

(** A map with the same queue. *)
Lemma queue_inv_same n n' m m' ws served : n <= n' ->
  omOpenQueue m' = omOpenQueue m -> omLowestInQueue m' = omLowestInQueue m -> omHighestInQueue m' = omHighestInQueue m ->
  queue_inv n m ws served -> queue_inv n' m' ws served.
Proof. intros Hn Eq El Eh []. constructor; rewrite ?Eq, ?El, ?Eh; auto. lia. Qed.

Lemma queue_inv_mono n n' m ws served : n <= n' -> queue_inv n m ws served -> queue_inv n' m ws served.
Proof. intros Hn. by apply queue_inv_same. Qed.

Lemma limit_inv_same n n' m m' log : n <= n' -> omNextStream m' = omNextStream m -> omMaxStream m' = omMaxStream m ->
  omCloseErr m' = omCloseErr m -> limit_inv n m log -> limit_inv n' m' log.
Proof. intros Hn E1 E2 E3 []. constructor; rewrite ?E1, ?E2, ?E3; auto. lia. Qed.

(** Opening the next stream. *)
Lemma openStream_spec n m log : limit_inv n m log -> omNextStream m <= omMaxStream m ->
  let m' := om_open (<[omNextStream m := newStream (omNextStream m)]> (omStreams m)) (omNextStream m + 1) m in
  om_openStream newStream m = (Ok (newStream (omNextStream m)), m') /\
  limit_inv (n + 1) m' (log ++ [newStream (omNextStream m)]).
Proof.
  intros [] Hle m'. unfold MaxStreamCount in *.
  unfold om_openStream, mbind, stM_bind, get, modify, mret, stM_ret. rewrite i64_small by int_range. split; [done|].
  constructor; cbn; unfold MaxStreamCount; try done; try lia.
  rewrite li_log0. replace (omNextStream m + 1 - 1) with (omNextStream m - 1 + 1) by lia.
  rewrite seqZ_snoc, fmap_app by lia. by replace (1 + (omNextStream m - 1)) with (omNextStream m) by lia.
Qed.

(** One call and its channel change. *)
Lemma queue_inv_set n m ws served pos c st' c' : queue_inv n m ws served ->
  omOpenQueue m !! pos = Some c -> chan_ok st' c' -> (tokened st' c' -> is_min (omOpenQueue m) pos) ->
  queue_inv n (om_setChan pos c' m) (<[pos := st']> ws) served.
Proof.
  intros Hi Hc Hok Hmin.
  assert (Hsome : forall k, is_Some (<[pos := c']> (omOpenQueue m) !! k) <-> is_Some (omOpenQueue m !! k)).
  { intros k. destruct (decide (pos = k)) as [<-|?]; [rewrite lookup_insert_eq, Hc; split; eauto|by rewrite lookup_insert_ne]. }
  assert (Hws : forall k, is_Some (<[pos := st']> ws !! k) <-> is_Some (ws !! k)).
  { intros k. destruct (decide (pos = k)) as [<-|?]; [|by rewrite lookup_insert_ne].
    rewrite lookup_insert_eq, <- (qi_dom _ _ _ _ Hi), Hc. split; eauto. }
  destruct Hi. constructor; cbn; auto.
  - intros k. by rewrite Hsome, Hws.
  - intros k Hk%Hsome. auto.
  - intros k st0 c0. destruct (decide (pos = k)) as [<-|?]; [rewrite !lookup_insert_eq|rewrite !lookup_insert_ne by done; eauto].
    by intros [= <-] [= <-].
  - intros k st0 c0 H1 H2 Ht k' Hk'%Hsome. revert H1 H2.
    destruct (decide (pos = k)) as [<-|?]; [rewrite !lookup_insert_eq|rewrite !lookup_insert_ne by done].
    + intros [= <-] [= <-]. by apply Hmin.
    + intros H1 H2. by apply (qi_min0 k st0 c0).
  - intros k Hk. destruct (qi_served0 k Hk) as [? Hlt]. split; [done|]. intros k' Hk'%Hsome. auto.
Qed.

(** A send to the channel of a call wakes it up. *)
Lemma send_chan_ok st c : chan_ok st c -> exists c', wc_send c = Ok c' /\ chan_ok st c' /\ tokened st c'.
Proof.
  intros [Hcl Hst]. destruct (wc_send_open c Hcl) as (c' & E & Hcl' & Hs). exists c'. split; [done|].
  unfold chan_ok, tokened. rewrite Hcl'.
  destruct st; [destruct Hst as [Hp Hw]|destruct Hst as [(Hp & Hw & Hb)|[Hp Hw]]|destruct Hst as [Hp Hw]];
    rewrite Hp in Hs; destruct Hs as (-> & -> & Hb'); rewrite ?Hw; auto; (split; [done|]); right; by right.
Qed.

Lemma min_exists n m ws served : queue_inv n m ws served -> omOpenQueue m <> ∅ ->
  exists i pos, list_find (fun qp => is_Some (omOpenQueue m !! qp)) (om_positions m) = Some (i, pos) /\
    is_Some (omOpenQueue m !! pos) /\ is_min (omOpenQueue m) pos.
Proof.
  intros Hi Hne. unfold om_positions. destruct (list_find _ _) as [[i pos]|] eqn:E.
  - exists i, pos. split; [done|]. apply list_find_Some in E as (Hl & Hs & Hmin). split; [done|].
    intros pos' Hs'. apply lookup_seqZ in Hl as [-> Hlt]. pose proof (qi_range _ _ _ _ Hi pos' Hs').
    destruct (Z.le_gt_cases (omLowestInQueue m + Z.of_nat i) pos') as [?|Hgt]; [done|]. exfalso.
    apply (Hmin (Z.to_nat (pos' - omLowestInQueue m)) pos'); [|lia|done]. apply lookup_seqZ. lia.
  - exfalso. apply list_find_None in E. apply map_choose in Hne as (pos & c & Hc).
    rewrite Forall_forall in E. apply (E pos); [|by eexists]. apply elem_of_seqZ.
    pose proof (qi_range _ _ _ _ Hi pos ltac:(by eexists)). lia.
Qed.

Lemma unblock_spec n m ws served : queue_inv n m ws served ->
  exists m', om_unblockOpenSync m = (Ok tt, m') /\ queue_inv n m' ws served /\
    omNextStream m' = omNextStream m /\ omMaxStream m' = omMaxStream m /\ omCloseErr m' = omCloseErr m /\
    (omOpenQueue m' <> ∅ -> exists pos st c, ws !! pos = Some st /\ omOpenQueue m' !! pos = Some c /\ tokened st c).
Proof.
  intros Hi. unfold om_unblockOpenSync, mbind at 1, stM_bind at 1, get at 1. rewrite queue_empty.
  case_bool_decide as He; [by exists m|]. destruct (min_exists n m ws served Hi He) as (i & pos & -> & Hs & Hmin).
  destruct Hs as [c Hc]. rewrite Hc. destruct (proj1 (qi_dom _ _ _ _ Hi pos)) as [st Hst]; [by eexists|].
  destruct (send_chan_ok st c (qi_chan _ _ _ _ Hi pos st c Hst Hc)) as (c' & E & Hok & Ht).
  unfold mbind, stM_bind, lift. rewrite E. exists (om_setChan pos c' m). split; [done|].
  split; [|split; [done|split; [done|split; [done|]]]].
  - rewrite <- (insert_id ws pos st) by done. by apply (queue_inv_set n m ws served pos c).
  - intros _. exists pos, st, c'. split; [done|]. split; [|done]. cbn. by rewrite lookup_insert_eq.
Qed.

Lemma unblock_highest m : omHighestInQueue (om_unblockOpenSync m).2 = omHighestInQueue m /\
  omLowestInQueue (om_unblockOpenSync m).2 = omLowestInQueue m.
Proof.
  unfold om_unblockOpenSync, mbind, stM_bind, get, lift, modify, mret, stM_ret. repeat case_match; done.
Qed.

(** A call leaves the queue. *)
Lemma queue_inv_delete n m ws served pos lowest : queue_inv n m ws served ->
  (forall pos', is_Some (omOpenQueue m !! pos') -> pos' <> pos -> lowest <= pos') -> 0 <= lowest <= omHighestInQueue m ->
  queue_inv n (om_queue (delete pos (omOpenQueue m)) lowest (omHighestInQueue m) m) (delete pos ws) served.
Proof.
  intros Hi Hlow Hl.
  assert (Hsome : forall {B} (q : gmap Z B) k, is_Some (delete pos q !! k) <-> k <> pos /\ is_Some (q !! k)).
  { intros B q k. destruct (decide (k = pos)) as [->|?]; [rewrite lookup_delete_eq; split; [by intros []|by intros []]|].
    rewrite lookup_delete_ne by done. tauto. }
  destruct Hi. constructor; cbn; auto.
  - intros k. by rewrite !Hsome, qi_dom0.
  - intros k [? Hk]%Hsome. specialize (qi_range0 k Hk). specialize (Hlow k Hk). lia.
  - lia.
  - intros k st0 c0 [_ ?]%lookup_delete_Some [_ ?]%lookup_delete_Some. eauto.
  - intros k st0 c0 [_ ?]%lookup_delete_Some [_ ?]%lookup_delete_Some Ht k' [_ Hk']%Hsome. by apply (qi_min0 k st0 c0).
  - intros k Hk. destruct (qi_served0 k Hk) as [? Hlt]. split; [done|]. intros k' [_ Hk']%Hsome. auto.
Qed.

(** A call joins the queue. *)
Lemma queue_inv_add n m ws served : queue_inv n m ws served ->
  queue_inv (n + 1) (om_queue (<[omHighestInQueue m := newWakeChan]> (omOpenQueue m))
    (if bool_decide (omOpenQueue m = ∅) then omHighestInQueue m else omLowestInQueue m) (omHighestInQueue m + 1) m)
    (<[omHighestInQueue m := WSelecting]> ws) served.
Proof.
  intros Hi. set (h := omHighestInQueue m).
  assert (Hsome : forall {B} (q : gmap Z B) (x : B) k, is_Some (<[h := x]> q !! k) <-> k = h \/ is_Some (q !! k)).
  { intros B q x k. destruct (decide (h = k)) as [<-|?]; [rewrite lookup_insert_eq; split; eauto|].
    rewrite lookup_insert_ne by done. naive_solver. }
  destruct Hi. constructor; cbn; auto.
  - intros k. by rewrite !Hsome, qi_dom0.
  - intros k [->|Hk]%Hsome; [case_bool_decide; lia|]. specialize (qi_range0 k Hk).
    case_bool_decide as He; [|lia]. rewrite He in Hk. by destruct Hk.
  - case_bool_decide; lia.
  - intros k st0 c0. destruct (decide (h = k)) as [<-|?]; [rewrite !lookup_insert_eq|rewrite !lookup_insert_ne by done; eauto].
    by intros [= <-] [= <-].
  - intros k st0 c0. destruct (decide (h = k)) as [<-|?]; [rewrite !lookup_insert_eq|rewrite !lookup_insert_ne by done].
    + intros [= <-] [= <-] [?|[?|?]]; done.
    + intros H1 H2 Ht k' [->|Hk']%Hsome; [|by apply (qi_min0 k st0 c0)].
      specialize (qi_range0 k ltac:(by eexists)). unfold h. lia.
  - intros k Hk. destruct (qi_served0 k Hk) as [? Hlt]. split; [lia|]. intros k' [->|Hk']%Hsome; [unfold h; lia|auto].
Qed.

(** A request for more streams than allowed is not a frame the peer can send; the
    liveness part excludes calls whose context is cancelled while they wait. *)
Definition open_op_ok (live : bool) (o : openOp) : Prop :=
  match o with OSetMax num => num <= MaxStreamCount | OCancel _ _ => live = false | _ => True end.

Lemma wake_inv_same m m' ws : omOpenQueue m' = omOpenQueue m -> omNextStream m' = omNextStream m ->
  omMaxStream m' = omMaxStream m -> wake_inv m ws -> wake_inv m' ws.
Proof. unfold wake_inv. intros -> -> ->. done. Qed.

Lemma open_inv_open live n w : open_inv live n w -> open_inv live (n + 1) (open_do OOpen w).
Proof.
  intros [Hq Hl Hw]. unfold open_do, om_OpenStream, mbind at 1, stM_bind at 1, get at 1. rewrite (li_open _ _ _ Hl).
  destruct (Z.ltb_spec 0 (Z.of_nat (size (omOpenQueue (owMap w))))) as [Hs|Hs];
    [|destruct (Z.ltb_spec (omMaxStream (owMap w)) (omNextStream (owMap w))) as [Hlt|Hge]]; cbn [orb].
  1, 2: destruct (maybeSendBlocked_same (owMap w)) as (E1 & E2 & E3 & E4 & E5 & E6); constructor; cbn;
    [eapply queue_inv_same; [| | | |exact Hq]; try done; lia|eapply limit_inv_same; [| | | |exact Hl]; try done; lia|
     intros Hlive; eapply wake_inv_same; try done; by apply Hw].
  destruct (openStream_spec n (owMap w) (owLog w) Hl) as [-> Hl']; [lia|]. constructor; cbn; [|done|].
  - eapply queue_inv_same; [| | | |exact Hq]; try done; lia.
  - intros _ _ Hne. cbn in Hne. rewrite <- map_size_empty_iff in Hne. lia.
Qed.

Lemma open_inv_enter live n w : open_inv live n w -> n < 2 ^ 62 -> open_inv live (n + 1) (open_do OEnter w).
Proof.
  intros [Hq Hl Hw] Hn. unfold open_do, om_openSyncEnter, mbind at 1, stM_bind at 1, get at 1. rewrite (li_open _ _ _ Hl).
  rewrite queue_empty. destruct (bool_decide (omOpenQueue (owMap w) = ∅) && (omNextStream (owMap w) <=? omMaxStream (owMap w))) eqn:E.
  - apply andb_prop in E as [He Hle%Z.leb_le]. apply bool_decide_eq_true in He.
    destruct (openStream_spec n (owMap w) (owLog w) Hl Hle) as [E Hl']. rewrite (stM_bind_ok _ _ _ _ _ E). constructor; cbn; [|done|].
    + eapply queue_inv_same; [| | | |exact Hq]; try done; lia.
    + intros _ _ Hne. by cbn in Hne.
  - unfold mbind, stM_bind, modify, mret, stM_ret. pose proof (qi_bounds _ _ _ _ Hq) as Hb. rewrite u64_small by int_range.
    set (m1 := om_queue _ _ _ (owMap w)). pose proof (queue_inv_add n (owMap w) (owW w) (owServed w) Hq) as Hadd. fold m1 in Hadd.
    destruct (maybeSendBlocked_same m1) as (E1 & E2 & E3 & E4 & E5 & E6). constructor; cbn.
    + by eapply queue_inv_same; [| | | |exact Hadd].
    + eapply limit_inv_same; [| | | |exact Hl]; try done; lia.
    + intros Hlive. eapply (wake_inv_same m1); try done. intros Hle _. cbn in Hle.
      apply andb_false_iff in E as [E|E]; [|lia]. apply bool_decide_eq_false in E.
      destruct (Hw Hlive Hle E) as (pos & st & c & H1 & H2 & Ht). exists pos, st, c.
      pose proof (qi_range _ _ _ _ Hq pos ltac:(by eexists)). cbn. rewrite !lookup_insert_ne by lia. done.
Qed.

(** A step of one call that keeps its token, or has none. *)
Lemma open_inv_set live n w pos st c st' c' : open_inv live n w ->
  owW w !! pos = Some st -> omOpenQueue (owMap w) !! pos = Some c -> chan_ok st' c' -> (tokened st' c' <-> tokened st c) ->
  open_inv live (n + 1) (mkOpenWorld (om_setChan pos c' (owMap w)) (<[pos := st']> (owW w)) (owServed w) (owLog w)).
Proof.
  intros [Hq Hl Hw] Hst Hc Hok Ht. constructor; cbn.
  - eapply queue_inv_mono; [|eapply queue_inv_set; [exact Hq|exact Hc|done|]]; [lia|]. intros Htk. eapply qi_min; [exact Hq|exact Hst|exact Hc|by apply Ht].
  - eapply limit_inv_same; [| | | |exact Hl]; try done; lia.
  - intros Hlive Hle _. cbn in Hle. destruct (Hw Hlive Hle) as (p & st0 & c0 & H1 & H2 & Ht0); [by intros E; rewrite E in Hc|].
    destruct (decide (pos = p)) as [<-|Hne].
    + exists pos, st', c'. cbn. rewrite !lookup_insert_eq. split_and!; try done. apply Ht. congruence.
    + exists p, st0, c0. cbn. by rewrite !lookup_insert_ne.
Qed.

Lemma open_inv_mono live n w : open_inv live n w -> open_inv live (n + 1) w.
Proof.
  intros [Hq Hl Hw]. constructor; [by eapply queue_inv_mono; [|exact Hq]; lia| |done].
  eapply limit_inv_same; [| | | |exact Hl]; try done; lia.
Qed.

Lemma open_inv_select live n w pos : open_inv live n w -> open_inv live (n + 1) (open_do (OSelect pos) w).
Proof.
  intros Hi. cbn. destruct (owW w !! pos) as [[]|] eqn:Hst; try by apply open_inv_mono.
  destruct (omOpenQueue (owMap w) !! pos) as [c|] eqn:Hc; [|by apply open_inv_mono].
  destruct (qi_chan _ _ _ _ (oi_queue _ _ _ Hi) _ _ _ Hst Hc) as (Hcl & Hp & Hwk). unfold wc_select. rewrite Hcl.
  destruct (wcBuffered c) eqn:Hb; (eapply open_inv_set; [done|exact Hst|exact Hc|..]).
  - by split.
  - unfold tokened. rewrite Hb. split; auto.
  - split; [done|]. left. by rewrite Hp, Hwk.
  - unfold tokened. rewrite Hb, Hwk. cbn. naive_solver.
Qed.

Lemma open_inv_resume live n w pos : open_inv live n w -> open_inv live (n + 1) (open_do (OResume pos) w).
Proof.
  intros Hi. cbn. destruct (owW w !! pos) as [[]|] eqn:Hst; try by apply open_inv_mono.
  destruct (omOpenQueue (owMap w) !! pos) as [c|] eqn:Hc; [|by apply open_inv_mono]. cbn. unfold wc_resume.
  case_bool_decide as Hin; [|by apply open_inv_mono].
  destruct (qi_chan _ _ _ _ (oi_queue _ _ _ Hi) _ _ _ Hst Hc) as (Hcl & [(_ & Hwk & _)|(Hp & Hwk)]); rewrite Hwk in Hin; [by apply not_elem_of_nil in Hin|].
  eapply open_inv_set; [done|exact Hst|exact Hc|..].
  - split; [done|]. cbn. by rewrite Hp, Hwk.
  - unfold tokened. rewrite Hwk. split; [by right; right|by left].
Qed.

Lemma open_inv_lock live n w pos : open_inv live n w -> n < 2 ^ 62 -> open_inv live (n + 1) (open_do (OLock pos) w).
Proof.
  intros Hi Hn. pose proof Hi as [Hq Hl Hw]. cbn. destruct (owW w !! pos) as [[]|] eqn:Hst; try by apply open_inv_mono.
  destruct (proj2 (qi_dom _ _ _ _ Hq pos)) as [c Hc]; [by eexists|].
  unfold om_openSyncWoken, mbind at 1, stM_bind at 1, get at 1. rewrite (li_open _ _ _ Hl).
  destruct (Z.ltb_spec (omMaxStream (owMap w)) (omNextStream (owMap w))) as [Hlt|Hge].
  { destruct (qi_chan _ _ _ _ Hq _ _ _ Hst Hc) as (Hcl & Hp & Hwk). constructor; cbn.
    - apply (queue_inv_mono n); [lia|].
      assert (Em : owMap w = om_setChan pos c (owMap w)) by (unfold om_setChan; rewrite insert_id by done; by destruct (owMap w)).
      rewrite Em. apply (queue_inv_set n (owMap w) _ _ pos c); [done|done|by split|].
      intros _. apply (qi_min _ _ _ _ Hq pos WLocking c Hst Hc). by left.
    - eapply limit_inv_same; [| | | |exact Hl]; try done; lia.
    - intros _ Hle. lia. }
  assert (Hmin : is_min (omOpenQueue (owMap w)) pos) by (apply (qi_min _ _ _ _ Hq pos WLocking c Hst Hc); by left).
  pose proof (qi_range _ _ _ _ Hq pos ltac:(by eexists)) as Hr. pose proof (qi_bounds _ _ _ _ Hq) as Hb.
  destruct (openStream_spec n (owMap w) (owLog w) Hl Hge) as [E Hl']. rewrite (stM_bind_ok _ _ _ _ _ E). clear E.
  set (m1 := om_open _ _ (owMap w)) in *. unfold mbind at 1, stM_bind at 1, modify at 1. rewrite u64_small by int_range.
  set (m2 := om_queue _ _ _ m1).
  assert (Hq2 : queue_inv n m2 (delete pos (owW w)) (owServed w)).
  { apply (queue_inv_delete n m1 (owW w) (owServed w) pos (pos + 1)).
    - by eapply queue_inv_same; [| | | |exact Hq].
    - intros pos' Hs Hne. specialize (Hmin pos' Hs). lia.
    - cbn. lia. }
  destruct (unblock_spec n m2 _ _ Hq2) as (m3 & E3 & Hq3 & N3 & M3 & C3 & Hw3). rewrite (stM_bind_ok _ _ _ _ _ E3).
  assert (Hdom3 : forall p, is_Some (omOpenQueue m3 !! p) -> pos < p /\ is_Some (omOpenQueue (owMap w) !! p)).
  { intros p Hs. apply (qi_dom _ _ _ _ Hq3), (qi_dom _ _ _ _ Hq2) in Hs. cbn in Hs.
    destruct (decide (p = pos)) as [->|Hne]; [rewrite lookup_delete_eq in Hs; by destruct Hs|].
    rewrite lookup_delete_ne in Hs by done. specialize (Hmin p Hs). split; [lia|done]. }
  constructor; cbn.
  - apply (queue_inv_mono n); [lia|]. destruct Hq3. constructor; auto.
    + apply StronglySorted_app. split_and!; [|apply (qi_sorted _ _ _ _ Hq)|by repeat constructor].
      intros p1 p2 Hin Ep%list_elem_of_singleton. subst p2. by apply (qi_served _ _ _ _ Hq p1 Hin); eexists.
    + intros p [Hin|Hin%list_elem_of_singleton]%elem_of_app; [|subst p].
      * by apply qi_served0.
      * split; [|by intros p' [? _]%Hdom3]. 
        destruct (unblock_highest m2) as [Eh _]. rewrite E3 in Eh. cbn in Eh. rewrite Eh. cbn. lia.
  - eapply limit_inv_same; [| | | |exact Hl']; try done; lia.
  - intros _ _. apply Hw3.
Qed.

Lemma open_inv_cancel n w pos err : open_inv false n w -> open_inv false (n + 1) (open_do (OCancel pos err) w).
Proof.
  intros Hi. pose proof Hi as [Hq Hl _].
  assert (Hc : open_inv false (n + 1)
    (mkOpenWorld (om_openSyncCancelled pos err (owMap w)).2 (delete pos (owW w)) (owServed w) (owLog w))).
  { constructor; [|eapply limit_inv_same; [| | | |exact Hl]; try done; lia|done]. cbn. apply (queue_inv_mono n); [lia|].
    apply queue_inv_delete; [done| |apply (qi_bounds _ _ _ _ Hq)]. intros pos' Hs _. by apply (qi_range _ _ _ _ Hq). }
  cbn. destruct (owW w !! pos) as [[]|]; [exact Hc| |by apply open_inv_mono..].
  destruct (omOpenQueue (owMap w) !! pos); [|by apply open_inv_mono]. case_bool_decide; [exact Hc|by apply open_inv_mono].
Qed.

Lemma open_inv_setmax live n w num : open_inv live n w -> num <= MaxStreamCount -> open_inv live (n + 1) (open_do (OSetMax num) w).
Proof.
  intros Hi Hnum. pose proof Hi as [Hq Hl Hw]. cbn. unfold om_SetMaxStream, mbind at 1, stM_bind at 1, get at 1.
  destruct (Z.leb_spec num (omMaxStream (owMap w))) as [Hle|Hgt].
  { cbn. apply (open_inv_mono live n) in Hi. by destruct w. }
  unfold mbind at 1, stM_bind at 1, modify at 1. set (m1 := om_limit _ _ _ (owMap w)).
  assert (Hm2 : exists m2, (if num <? i64 (i64 (omNextStream (owMap w) - 1) + Z.of_nat (size (omOpenQueue (owMap w))))
     then modify om_maybeSendBlockedFrame else mret tt) m1 = (Ok tt, m2) /\
     omOpenQueue m2 = omOpenQueue m1 /\ omLowestInQueue m2 = omLowestInQueue m1 /\ omHighestInQueue m2 = omHighestInQueue m1 /\
     omNextStream m2 = omNextStream m1 /\ omMaxStream m2 = omMaxStream m1 /\ omCloseErr m2 = omCloseErr m1).
  { destruct (_ <? _); eexists; (split; [reflexivity|]); [apply maybeSendBlocked_same|done]. }
  destruct Hm2 as (m2 & E2 & Q2 & L2 & H2 & N2 & M2 & C2). rewrite (stM_bind_ok _ _ _ _ _ E2).
  assert (Hq2 : queue_inv n m2 (owW w) (owServed w)) by (eapply queue_inv_same; [| | | |exact Hq]; done).
  destruct (unblock_spec n m2 _ _ Hq2) as (m3 & -> & Hq3 & N3 & M3 & C3 & Hw3). constructor; cbn.
  - by apply (queue_inv_mono n); [lia|].
  - destruct Hl. constructor; rewrite ?N3, ?M3, ?C3, ?N2, ?M2, ?C2; cbn; try done; lia.
  - intros _ _. apply Hw3.
Qed.

Lemma open_inv_delete live n w num : open_inv live n w -> open_inv live (n + 1) (open_do (ODelete num) w).
Proof.
  intros Hi. cbn. unfold om_DeleteStream, mbind, stM_bind, get, throw, modify.
  destruct (omStreams (owMap w) !! num); [|by apply (open_inv_mono live n) in Hi; destruct w].
  destruct Hi as [Hq Hl Hw]. constructor; cbn; [by eapply queue_inv_same; [| | | |exact Hq]; try done; lia| |done].
  eapply limit_inv_same; [| | | |exact Hl]; try done; lia.
Qed.

Lemma open_inv_do live n w o : open_inv live n w -> n < 2 ^ 62 -> open_op_ok live o -> open_inv live (n + 1) (open_do o w).
Proof.
  intros Hi Hn Ho. destruct o.
  - by apply open_inv_open.
  - by apply open_inv_enter.
  - by apply open_inv_select.
  - by apply open_inv_resume.
  - by apply open_inv_lock.
  - cbn in Ho. subst. by apply open_inv_cancel.
  - by apply open_inv_setmax.
  - by apply open_inv_delete.
Qed.

Lemma open_inv_run live os : forall n w, open_inv live n w -> n + blen os < 2 ^ 62 -> Forall (open_op_ok live) os ->
  open_inv live (n + blen os) (open_run os w).
Proof.
  induction os as [|o os IH]; intros n w Hi Hn Hos; [by rewrite blen_nil, Z.add_0_r|].
  apply Forall_cons in Hos as [Ho Hos]. rewrite blen_cons in *. pose proof (blen_nonneg os).
  rewrite (Z.add_assoc n). apply IH; [|lia|done]. apply open_inv_do; [done|lia|done].
Qed.

Lemma open_start_inv live stype : open_inv live 0 (open_start stype).
Proof.
  constructor; [constructor|constructor|]; cbn; try done; try lia.
  - intros pos. rewrite !lookup_empty. done.
  - intros pos [? Hs]. by rewrite lookup_empty in Hs.
  - constructor.
  - by intros pos ?%not_elem_of_nil.
  - intros _ Hle. cbn in Hle. unfold InvalidStreamNum in Hle. lia.
Qed.

(** The step that the call at the head of the queue takes next leads to its stream. *)
Lemma tokened_served n w pos st c : open_inv true n w -> n < 2 ^ 62 ->
  owW w !! pos = Some st -> omOpenQueue (owMap w) !! pos = Some c -> tokened st c ->
  omNextStream (owMap w) <= omMaxStream (owMap w) ->
  let w' := open_run [OSelect pos; OResume pos; OLock pos] w in
  owServed w' = owServed w ++ [pos] /\ owLog w' = owLog w ++ [newStream (omNextStream (owMap w))].
Proof.
  intros Hi Hn Hst Hc Ht Hle.
  assert (Hlock : forall w1, open_inv true (n + 2) w1 -> owW w1 !! pos = Some WLocking ->
    omNextStream (owMap w1) = omNextStream (owMap w) -> omMaxStream (owMap w1) = omMaxStream (owMap w) ->
    owServed (open_do (OLock pos) w1) = owServed w1 ++ [pos] /\
    owLog (open_do (OLock pos) w1) = owLog w1 ++ [newStream (omNextStream (owMap w))]).
  { intros w1 [Hq Hl _] Hst1 N1 M1.
    assert (exists m3, om_openSyncWoken newStream pos (owMap w1) = (Ok (Some (newStream (omNextStream (owMap w)))), m3))
      as [m3 E]; [|cbn; by rewrite Hst1, E].
    unfold om_openSyncWoken, mbind at 1, stM_bind at 1, get at 1.
    rewrite (li_open _ _ _ Hl), N1, M1. zfalse (omMaxStream (owMap w) <? omNextStream (owMap w)).
    destruct (openStream_spec _ _ _ Hl) as [E _]; [lia|]. rewrite (stM_bind_ok _ _ _ _ _ E). clear E.
    destruct (proj2 (qi_dom _ _ _ _ Hq pos)) as [c1 Hc1]; [by eexists|].
    pose proof (qi_min _ _ _ _ Hq pos WLocking c1 Hst1 Hc1 ltac:(by left)) as Hmin.
    pose proof (qi_range _ _ _ _ Hq pos ltac:(by eexists)) as Hr. pose proof (qi_bounds _ _ _ _ Hq) as Hb.
    unfold mbind at 1, stM_bind at 1, modify at 1. rewrite u64_small by int_range. set (m1 := om_open _ _ _). set (m2 := om_queue _ _ _ m1).
    assert (Hq2 : queue_inv (n + 2) m2 (delete pos (owW w1)) (owServed w1)).
    { apply (queue_inv_delete (n + 2) m1); [by eapply queue_inv_same; [| | | |exact Hq]| |cbn; lia].
      intros pos' Hs Hne. specialize (Hmin pos' Hs). lia. }
    destruct (unblock_spec _ _ _ _ Hq2) as (m3 & E3 & _). rewrite (stM_bind_ok _ _ _ _ _ E3), N1. by exists m3. }
  pose proof (open_inv_select _ _ _ pos Hi) as Hi1. pose proof (open_inv_resume _ _ _ pos Hi1) as Hi2.
  rewrite <- Z.add_assoc in Hi2. cbn [open_run foldl].
  pose proof (qi_chan _ _ _ _ (oi_queue _ _ _ Hi) _ _ _ Hst Hc) as (Hcl & Hch).
  assert (E : let w2 := open_do (OResume pos) (open_do (OSelect pos) w) in
    owW w2 !! pos = Some WLocking /\ omNextStream (owMap w2) = omNextStream (owMap w) /\
    omMaxStream (owMap w2) = omMaxStream (owMap w) /\ owServed w2 = owServed w /\ owLog w2 = owLog w).
  { cbn. rewrite Hst. destruct st.
    - rewrite Hc. destruct Ht as [?|[Hb|Hb]]; [done| |by destruct Hch as [_ ?]].
      unfold wc_select. rewrite Hb. cbn. rewrite !lookup_insert_eq. cbn. by rewrite lookup_insert_eq.
    - rewrite Hc, Hst. cbn. unfold wc_resume. destruct Hch as [(_ & Hw & Hb)|(_ & Hw)].
      + destruct Ht as [?|[?|?]]; congruence.
      + rewrite bool_decide_true by (rewrite Hw; by apply list_elem_of_singleton). cbn. by rewrite lookup_insert_eq.
    - by rewrite Hst. }
  destruct E as (E1 & E2 & E3 & E4 & E5). destruct (Hlock _ Hi2 E1 E2 E3) as [-> ->]. by rewrite E4, E5.
Qed.

(** C30: Calls of [OpenStreamSync] get their streams in turn.  Whatever calls of
    [OpenStream] and [OpenStreamSync] are made, wake up, or are cancelled while the
    peer raises the limit, the streams that are opened are 1, 2, 3, ... within the
    limit, and the calls that have to wait are served in the order in which they
    came.  As long as no call is cancelled, none is left waiting: when a stream can
    be opened, the next steps of the call at the head of the queue open it. *)
Theorem open_sync_in_turn stype os : blen os < 2 ^ 61 -> Forall (open_op_ok false) os ->
  let w := open_run os (open_start stype) in
  let m := owMap w in
  owLog w = newStream <$> seqZ 1 (omNextStream m - 1) /\ omNextStream m - 1 <= Z.max 0 (omMaxStream m) /\
  StronglySorted Z.lt (owServed w) /\
  (Forall (open_op_ok true) os -> omNextStream m <= omMaxStream m -> omOpenQueue m <> ∅ ->
   exists pos, is_Some (omOpenQueue m !! pos) /\ is_min (omOpenQueue m) pos /\
     let w' := open_run [OSelect pos; OResume pos; OLock pos] w in
     owServed w' = owServed w ++ [pos] /\ owLog w' = owLog w ++ [newStream (omNextStream m)]).
Proof.
  intros Hn Hos w m. pose proof (blen_nonneg os).
  destruct (open_inv_run false os 0 _ (open_start_inv false stype) ltac:(lia) Hos) as [Hq Hl _]. fold w in Hq, Hl. fold m in Hq, Hl.
  split; [apply (li_log _ _ _ Hl)|]. split; [apply (li_limit _ _ _ Hl)|]. split; [apply (qi_sorted _ _ _ _ Hq)|].
  intros Hlive Hle Hne. pose proof (open_inv_run true os 0 _ (open_start_inv true stype) ltac:(lia) Hlive) as Hi. fold w in Hi.
  destruct (oi_wake _ _ _ Hi eq_refl Hle Hne) as (pos & st & c & Hst & Hc & Ht). exists pos. split; [by eexists|].
  split; [by eapply qi_min|]. eapply tokened_served; [exact Hi|lia|exact Hst|exact Hc|done|done].
Qed.
End openSync.

Lemma open_sync_in_turn_witness :
  let w := open_run (fun n => n) [OEnter; OEnter; OSelect 0; OSetMax 2; OSelect 1] (open_start StreamTypeBidi) in
  StronglySorted Z.lt (owServed w) /\
  exists pos, is_Some (omOpenQueue (owMap w) !! pos) /\ is_min (omOpenQueue (owMap w)) pos /\
    let w' := open_run (fun n => n) [OSelect pos; OResume pos; OLock pos] w in
    owServed w' = [pos] /\ owLog w' = [1].
Proof.
  destruct (open_sync_in_turn (fun n => n) StreamTypeBidi [OEnter; OEnter; OSelect 0; OSetMax 2; OSelect 1])
    as (_ & _ & Hs & Hw).
  - reflexivity.
  - repeat constructor. vm_compute. discriminate.
  - split; [exact Hs|]. apply Hw.
    + repeat constructor. vm_compute. discriminate.
    + vm_compute. discriminate.
    + intros E. apply (f_equal (fun q => q !! 0)) in E. vm_compute in E. discriminate.
Defined.

(** A call of [OpenStreamSync] that is woken and cancelled at the same time
    leaves the call behind it waiting.  Two calls wait; the peer allows one stream,
    which wakes up the first call; its context is done when it reaches the
    [select], and it leaves the queue without waking up the second call, which stays
    parked although a stream can be opened. *)
Theorem cancelled_opener_lost_wakeup :
  let w := open_run (fun n => n)
    [OEnter; OEnter; OSelect 1; OSetMax 1; OCancel 0 (ErrorString "context canceled")] (open_start StreamTypeBidi) in
  omNextStream (owMap w) = 1 /\ omMaxStream (owMap w) = 1 /\ owW w !! 1 = Some WParked /\ owServed w = [] /\
  open_run (fun n => n) [OResume 1; OSelect 1; OLock 1] w = w /\
  (om_OpenStream (fun n => n) (owMap w)).1 = Err errTooManyOpenStreams.
Proof. vm_compute. done. Qed.
