(* ===== verification/StreamsMapTyping.v ===== *)
(** * StreamsMapTyping: stream IDs and directions

    Every stream that a connection hands out is of the right kind and has the right
    ID: the four maps only hold streams that their own constructor made for the
    number under which they are stored. *)

From S2P Require Import Prelude Protocol Frames FrameParser StreamsMap.
From stdpp Require Import base numbers list option strings gmap.
From Stdlib Require Import ZArith Lia.
#[local] Open Scope Z_scope.

(** The ID determines the type, the initiator and the number. *)
Lemma StreamID_inv id : 0 <= id < 2 ^ 62 ->
  StreamNum_StreamID (StreamID_StreamNum id) (StreamID_Type id) (StreamID_InitiatedBy id) = id.
Proof.
  intros Hid. unfold StreamNum_StreamID, StreamID_StreamNum, StreamID_Type, StreamID_InitiatedBy.
  rewrite Z.quot_div_nonneg, !Z.rem_mod_nonneg by lia.
  assert (0 <= id / 4 < 2 ^ 60) by (split; [apply Z.div_pos|apply Z.div_lt_upper_bound]; lia).
  rewrite (i64_small (id / 4 + 1)) by int_range. zfalse (id / 4 + 1 =? 0).
  rewrite Z.add_simpl_r, (i64_small (id / 4)), (i64_small (4 * (id / 4))) by int_range.
  assert (Hd : id = 4 * (id / 4) + id mod 4) by (apply Z.div_mod; lia).
  assert (H2 : id mod 2 = (id mod 4) mod 2)
    by (rewrite Hd at 1; rewrite <- (Z.add_mod_idemp_l (4 * _)) by lia; replace (4 * (id / 4)) with (2 * (id / 4) * 2) by lia;
        by rewrite Z.mod_mul by lia).
  pose proof (Z.mod_pos_bound id 4 ltac:(lia)). rewrite H2. set (q := id / 4) in *. set (r := id mod 4) in *.
  assert (r = 0 \/ r = 1 \/ r = 2 \/ r = 3) as [E|[E|[E|E]]] by lia; rewrite E;
    match goal with |- context [?a mod 2] => let v := eval vm_compute in (a mod 2) in change (a mod 2) with v end;
    cbn [Z.eqb Z.leb Z.compare Pos.compare Pos.compare_cont]; rewrite i64_small by int_range; lia.
Qed.

(** ** One map *)

Section maps.
Context {T : Type} (new : Z -> T).
Implicit Types (om : outgoingStreamsMap T) (im : incomingStreamsMap T).

Definition om_typed om : Prop := forall k s, omStreams om !! k = Some s -> s = new k.
Definition im_typed im : Prop := forall k e, imStreams im !! k = Some e -> ieStream e = new k.

(** [f] keeps the map well typed, and a result satisfies [Q]. *)
Definition om_keeps {B} (Q : B -> Prop) (f : stM (outgoingStreamsMap T) B) : Prop := forall om, om_typed om ->
  let '(r, om') := f om in om_typed om' /\ match r with Ok b => Q b | _ => True end.
Definition im_keeps {B} (Q : B -> Prop) (f : stM (incomingStreamsMap T) B) : Prop := forall im, im_typed im ->
  let '(r, im') := f im in im_typed im' /\ match r with Ok b => Q b | _ => True end.

Definition made (s : T) : Prop := exists k, s = new k.

Ltac run := unfold mbind, stM_bind, get, modify, throw, lift, mret, stM_ret.

Lemma om_openStream_keeps : om_keeps made (om_openStream new).
Proof.
  intros om Ht. unfold om_openStream. run. split; [|by eexists]. intros k s. cbn. destruct (decide (omNextStream om = k)) as [<-|?];
    [rewrite lookup_insert_eq; by intros [= <-]|rewrite lookup_insert_ne by done; apply Ht].
Qed.

Lemma om_blocked_typed om : om_typed om -> om_typed (om_maybeSendBlockedFrame om).
Proof. unfold om_maybeSendBlockedFrame. by destruct (omBlockedSent om). Qed.

Lemma om_OpenStream_keeps : om_keeps made (om_OpenStream new).
Proof.
  intros om Ht. unfold om_OpenStream, mbind at 1, stM_bind at 1, get at 1. destruct (omCloseErr om); [done|].
  destruct (_ || _); [split; [by apply om_blocked_typed|done]|by apply om_openStream_keeps].
Qed.

Lemma om_openSyncEnter_keeps err :
  om_keeps (fun r => match r with inl s => made s | inr _ => True end) (om_openSyncEnter new err).
Proof.
  intros om Ht. unfold om_openSyncEnter, mbind at 1, stM_bind at 1, get at 1. destruct (omCloseErr om), err; try done.
  destruct (_ && _); [|run; split; [by apply om_blocked_typed|done]].
  pose proof (om_openStream_keeps om Ht) as Ho. unfold mbind, stM_bind. by destruct (om_openStream new om) as [[]].
Qed.

Lemma om_GetStream_keeps num : om_keeps (fun r => forall s, r = Some s -> s = new num) (om_GetStream num).
Proof. intros om Ht. unfold om_GetStream. run. destruct (_ <=? _); [done|]. split; [done|]. intros s. apply Ht. Qed.

Lemma om_DeleteStream_keeps num : om_keeps (fun _ => True) (om_DeleteStream num).
Proof.
  intros om Ht. unfold om_DeleteStream. run. destruct (omStreams om !! num); [|done]. split; [|done].
  intros k s. cbn. intros [_ ?]%lookup_delete_Some. by apply Ht.
Qed.

Lemma om_unblock_keeps : om_keeps (fun _ => True) (@om_unblockOpenSync T).
Proof. intros om Ht. unfold om_unblockOpenSync. run. repeat (case_match; simplify_eq); done. Qed.

Lemma om_SetMaxStream_keeps num : om_keeps (fun _ => True) (@om_SetMaxStream T num).
Proof.
  intros om Ht. unfold om_SetMaxStream, mbind at 1, stM_bind at 1, get at 1. destruct (_ <=? _); [done|].
  unfold mbind, stM_bind, modify. destruct (_ <? _); [|by apply (om_unblock_keeps (om_limit num false [] om))].
  by apply (om_unblock_keeps (om_maybeSendBlockedFrame (om_limit num false [] om))), om_blocked_typed.
Qed.

Lemma om_CloseWithError_keeps err : om_keeps (fun _ => True) (@om_CloseWithError T err).
Proof. intros om Ht. unfold om_CloseWithError. run. repeat (case_match; simplify_eq); done. Qed.

Lemma im_deleteStream_keeps num : im_keeps (fun _ => True) (@im_deleteStream T num).
Proof.
  intros im Ht. unfold im_deleteStream. run. destruct (imStreams im !! num) as [e0|] eqn:E; [|done].
  destruct (_ <=? _).
  - destruct (ieShouldDelete e0); [done|]. split; [|done]. intros k e. cbn.
    destruct (decide (num = k)) as [<-|?]; [rewrite lookup_insert_eq; intros [= <-]; by apply (Ht num e0)|].
    rewrite lookup_insert_ne by done. apply Ht.
  - assert (Hd : im_typed (im_streams (delete num (imStreams im)) im)) by (intros k e; cbn; intros [_ ?]%lookup_delete_Some; by apply Ht).
    destruct (_ <? _); [destruct (_ <=? _)|]; done.
Qed.

Lemma im_accept_keeps : im_keeps (fun r => forall s, r = Some s -> made s) (_ ← modify im_acceptEnter; im_acceptLocked).
Proof.
  intros im0 Ht0. unfold mbind at 1, stM_bind at 1, modify at 1.
  assert (Ht : im_typed (im_acceptEnter im0)) by done. generalize dependent (im_acceptEnter im0). clear. intros im Ht.
  unfold im_acceptLocked, mbind at 1, stM_bind at 1, get at 1. destruct (imCloseErr im); [done|].
  destruct (imStreams im !! imNextStreamToAccept im) as [e|] eqn:E; [|by split].
  assert (He : made (ieStream e)) by (eexists; by eapply Ht).
  unfold mbind at 1, stM_bind at 1, modify at 1. destruct (ieShouldDelete e); [|by split; [|intros s [= <-]]].
  pose proof (im_deleteStream_keeps (imNextStreamToAccept im) (im_nextAccept (i64 (imNextStreamToAccept im + 1)) im) Ht) as Hd.
  unfold mbind, stM_bind. destruct (im_deleteStream _ _) as [[[]| |] im2]; destruct Hd as [Hd _]; [by split; [|intros s [= <-]]|done|done].
Qed.

Lemma im_openLoop_keeps k : forall n, im_keeps (fun _ => True) (im_openLoop new k n).
Proof.
  induction k as [|k IH]; intros n im Ht; [done|]. cbn [im_openLoop]. run.
  set (im1 := im_streams _ im). assert (Ht1 : im_typed im1).
  { intros j e. cbn. destruct (decide (n = j)) as [<-|?]; [rewrite lookup_insert_eq; by intros [= <-]|].
    rewrite lookup_insert_ne by done. apply Ht. }
  destruct (wc_send _); [|done|done]. by apply IH.
Qed.

Lemma im_GetOrOpen_keeps num : im_keeps (fun r => forall s, r = Some s -> s = new num) (im_GetOrOpenStream new num).
Proof.
  intros im Ht. unfold im_GetOrOpenStream, mbind at 1, stM_bind at 1, get at 1. destruct (_ <? _); [done|].
  destruct (_ <? _).
  - split; [done|]. cbn. intros s. destruct (imStreams im !! num) as [e|] eqn:E; [|done].
    destruct (ieShouldDelete e); [done|]. intros [= <-]. by apply Ht.
  - unfold mbind at 1, stM_bind at 1. pose proof (im_openLoop_keeps (Z.to_nat (num - imNextStreamToOpen im + 1)) (imNextStreamToOpen im) im Ht) as Hl.
    destruct (im_openLoop _ _ _ im) as [[[]| |] im1]; destruct Hl as [Hl _]; [|done|done]. run. split; [done|]. cbn. intros s.
    destruct (imStreams im1 !! num) as [e|] eqn:E; [|done]. intros [= <-]. by apply Hl.
Qed.

Lemma im_CloseWithError_keeps err : im_keeps (fun _ => True) (@im_CloseWithError T err).
Proof. intros im Ht. unfold im_CloseWithError. run. destruct (wc_close _); done. Qed.
End maps.

(** ** The four maps *)

Section streams.
Context (p : Perspective).
Abbreviation opp := (Perspective_Opposite p).

Record sm_typed (m : streamsMap) : Prop := {
  st_pers : smPerspective m = p;
  st_outBidi : om_typed (newOutBidi p) (smOutBidi m);
  st_outUni : om_typed (newOutUni p) (smOutUni m);
  st_inBidi : im_typed (newInBidi p) (smInBidi m);
  st_inUni : im_typed (newInUni p) (smInUni m)
}.

Definition sm_keeps {B} (Q : B -> Prop) (f : smM B) : Prop := forall m, sm_typed m ->
  let '(r, m') := f m in sm_typed m' /\ match r with Ok b => Q b | _ => True end.

Lemma sm_outBidi {B} (Q : B -> Prop) f : om_keeps (newOutBidi p) Q f -> sm_keeps Q (onOutBidi f).
Proof.
  intros Hf m []. unfold onOutBidi. specialize (Hf _ st_outBidi0). destruct (f _) as [r x]. destruct Hf. by repeat constructor.
Qed.
Lemma sm_outUni {B} (Q : B -> Prop) f : om_keeps (newOutUni p) Q f -> sm_keeps Q (onOutUni f).
Proof.
  intros Hf m []. unfold onOutUni. specialize (Hf _ st_outUni0). destruct (f _) as [r x]. destruct Hf. by repeat constructor.
Qed.
Lemma sm_inBidi {B} (Q : B -> Prop) f : im_keeps (newInBidi p) Q f -> sm_keeps Q (onInBidi f).
Proof.
  intros Hf m []. unfold onInBidi. specialize (Hf _ st_inBidi0). destruct (f _) as [r x]. destruct Hf. by repeat constructor.
Qed.
Lemma sm_inUni {B} (Q : B -> Prop) f : im_keeps (newInUni p) Q f -> sm_keeps Q (onInUni f).
Proof.
  intros Hf m []. unfold onInUni. specialize (Hf _ st_inUni0). destruct (f _) as [r x]. destruct Hf. by repeat constructor.
Qed.

Lemma sm_converting {B} (Q : B -> Prop) stype pers f : sm_keeps Q f -> sm_keeps Q (converting stype pers f).
Proof. intros Hf m Hm. unfold converting. specialize (Hf m Hm). by destruct (f m) as [[]]. Qed.
Lemma sm_streamStateError {B} (Q : B -> Prop) f : sm_keeps Q f -> sm_keeps Q (streamStateError f).
Proof. intros Hf m Hm. unfold streamStateError. specialize (Hf m Hm). by destruct (f m) as [[]]. Qed.
Lemma sm_unlessReset {B} (Q : B -> Prop) f : sm_keeps Q (f p) -> sm_keeps Q (unlessReset f).
Proof.
  intros Hf m Hm. unfold unlessReset, mbind, stM_bind, get. destruct (smReset m); [done|].
  rewrite (st_pers m Hm). by apply (Hf m).
Qed.
Lemma sm_bind {B C} (P : B -> Prop) (Q : C -> Prop) (f : smM B) (g : B -> smM C) :
  sm_keeps P f -> (forall b, P b -> sm_keeps Q (g b)) -> sm_keeps Q (f ≫= g).
Proof.
  intros Hf Hg m Hm. unfold mbind, stM_bind. specialize (Hf m Hm). destruct (f m) as [[b| |] m']; destruct Hf as [Hm' Hb];
    [|done|done]. by apply (Hg b Hb m').
Qed.
Lemma sm_ret {B} (Q : B -> Prop) b : Q b -> sm_keeps Q (mret b).
Proof. by intros Hb m Hm. Qed.
Lemma sm_get {B} (Q : B -> Prop) (f : streamsMap -> smM B) :
  (forall m, smPerspective m = p -> sm_keeps Q (f m)) -> sm_keeps Q (get ≫= f).
Proof. intros Hf m Hm. by apply (Hf m (st_pers m Hm) m). Qed.
Lemma sm_mono {B} (Q Q' : B -> Prop) f : (forall b, Q b -> Q' b) -> sm_keeps Q f -> sm_keeps Q' f.
Proof. intros HQ Hf m Hm. specialize (Hf m Hm). destruct (f m) as [[]]; destruct Hf; split; auto. Qed.
Lemma sm_throw {B} (Q : B -> Prop) e : sm_keeps Q (throw e).
Proof. by intros m Hm. Qed.

(** ** Every call *)

Inductive smOp :=
  | MOpen | MOpenUni | MOpenSync (ctxErr : option GoError) | MOpenUniSync (ctxErr : option GoError) | MAccept | MAcceptUni
  | MGetReceive (id : Z) | MGetSend (id : Z) | MDelete (id : Z) | MMaxStreams (f : MaxStreamsFrame)
  | MLimits (bidiData bidiNum uniData uniNum : Z) | MClose (err : GoError) | MReset | MUseReset.

Definition sm_do (o : smOp) : smM (option streamHandle) :=
  match o with
  | MOpen => s ← sm_OpenStream; mret (Some s)
  | MOpenUni => s ← sm_OpenUniStream; mret (Some s)
  | MOpenSync err => s ← sm_OpenStreamSync err; mret (match s with inl s => Some s | inr _ => None end)
  | MOpenUniSync err => s ← sm_OpenUniStreamSync err; mret (match s with inl s => Some s | inr _ => None end)
  | MAccept => sm_AcceptStream
  | MAcceptUni => sm_AcceptUniStream
  | MGetReceive id => sm_GetOrOpenReceiveStream id
  | MGetSend id => sm_GetOrOpenSendStream id
  | MDelete id => _ ← sm_DeleteStream id; mret None
  | MMaxStreams f => _ ← sm_HandleMaxStreamsFrame f; mret None
  | MLimits a b c d => _ ← sm_UpdateLimits a b c d; mret None
  | MClose err => _ ← sm_CloseWithError err; mret None
  | MReset => _ ← sm_ResetFor0RTT; mret None
  | MUseReset => _ ← sm_UseResetMaps; mret None
  end.

(** The stream that a call may return. *)
Definition stream_ok (o : smOp) (s : streamHandle) : Prop :=
  match o with
  | MOpen | MOpenSync _ => exists num, s = HStream (StreamNum_StreamID num StreamTypeBidi p)
  | MOpenUni | MOpenUniSync _ => exists num, s = HSendStream (StreamNum_StreamID num StreamTypeUni p)
  | MAccept => exists num, s = HStream (StreamNum_StreamID num StreamTypeBidi opp)
  | MAcceptUni => exists num, s = HReceiveStream (StreamNum_StreamID num StreamTypeUni opp)
  | MGetReceive id =>
      s = match StreamID_Type id with StreamTypeBidi => HStream id | StreamTypeUni => HReceiveStream id end /\
      (StreamID_Type id = StreamTypeUni -> StreamID_InitiatedBy id = opp)
  | MGetSend id =>
      s = match StreamID_Type id with StreamTypeBidi => HStream id | StreamTypeUni => HSendStream id end /\
      (StreamID_Type id = StreamTypeUni -> StreamID_InitiatedBy id = p)
  | _ => False
  end.

Definition smOp_ok (o : smOp) : Prop :=
  match o with MGetReceive id | MGetSend id => 0 <= id < 2 ^ 62 | _ => True end.

Definition result_ok (o : smOp) (r : option streamHandle) : Prop := forall s, r = Some s -> stream_ok o s.

Lemma not_self q : q <> p -> q = opp.
Proof. by destruct q, p. Qed.

Lemma sm_getBidi id : 0 <= id < 2 ^ 62 -> StreamID_Type id = StreamTypeBidi ->
  sm_keeps (fun r => forall s, r = Some s -> s = HStream id) (sm_getOrOpenBidi id).
Proof.
  intros Hid Ht. pose proof (StreamID_inv id Hid) as Hinv. rewrite Ht in Hinv. unfold sm_getOrOpenBidi. apply sm_get. intros m ->.
  apply sm_converting. destruct (decide (StreamID_InitiatedBy id = p)) as [E|E%not_self]; rewrite E in Hinv.
  - apply sm_outBidi. intros om Hom. pose proof (om_GetStream_keeps (newOutBidi p) (StreamID_StreamNum id) om Hom) as Hg.
    unfold newOutBidi in Hg. rewrite Hinv in Hg. exact Hg.
  - apply sm_inBidi. intros im Him. pose proof (im_GetOrOpen_keeps (newInBidi p) (StreamID_StreamNum id) im Him) as Hg.
    destruct (im_GetOrOpenStream _ _ im) as [[r| |]]; [|done|done]. destruct Hg as [? Hg]. split; [done|]. intros s Hs.
    rewrite (Hg s Hs). unfold newInBidi. by rewrite Hinv.
Qed.

(** The calls that return no stream. *)
Lemma sm_silent o (f : smM unit) : sm_keeps (fun _ => True) f -> sm_keeps (result_ok o) (_ ← f; mret None).
Proof. intros Hf. eapply sm_bind; [exact Hf|]. intros _ _. by apply sm_ret. Qed.

Lemma sm_delete id : sm_keeps (fun _ => True) (sm_DeleteStream id).
Proof.
  unfold sm_DeleteStream. apply sm_get. intros m ->. destruct (StreamID_Type id), (decide _); apply sm_converting.
  - apply sm_outUni, om_DeleteStream_keeps.
  - apply sm_inUni, im_deleteStream_keeps.
  - apply sm_outBidi, om_DeleteStream_keeps.
  - apply sm_inBidi, im_deleteStream_keeps.
Qed.

Lemma sm_close err : sm_keeps (fun _ => True) (sm_CloseWithError err).
Proof.
  unfold sm_CloseWithError. eapply sm_bind; [apply sm_outBidi, om_CloseWithError_keeps|intros _ _].
  eapply sm_bind; [apply sm_outUni, om_CloseWithError_keeps|intros _ _].
  eapply sm_bind; [apply sm_inBidi, im_CloseWithError_keeps|intros _ _]. apply sm_inUni, im_CloseWithError_keeps.
Qed.

Lemma sm_limits a b c d : sm_keeps (fun _ => True) (sm_UpdateLimits a b c d).
Proof.
  unfold sm_UpdateLimits. eapply sm_bind; [by apply (sm_outBidi (fun _ => True))|intros _ _].
  eapply sm_bind; [apply sm_outBidi, om_SetMaxStream_keeps|intros _ _].
  eapply sm_bind; [by apply (sm_outUni (fun _ => True))|intros _ _]. apply sm_outUni, om_SetMaxStream_keeps.
Qed.

Lemma init_typed maxBidi maxUni reset : sm_typed (initMaps p maxBidi maxUni reset).
Proof. constructor; [done|..]; intros k s; cbn; by rewrite lookup_empty. Qed.

Lemma sm_reset : sm_keeps (fun _ => True) sm_ResetFor0RTT.
Proof.
  unfold sm_ResetFor0RTT. eapply (sm_bind (fun _ => True)); [intros m []; by repeat constructor|intros _ _].
  eapply sm_bind; [apply sm_close|intros _ _]. intros m Hm. split; [|done]. rewrite (st_pers m Hm). apply init_typed.
Qed.

Lemma sm_do_keeps o : smOp_ok o -> sm_keeps (result_ok o) (sm_do o).
Proof.
  intros Hok. destruct o as [| |err|err| | |id|id|id|f|a b c d|err| |]; cbn [sm_do].
  - eapply sm_bind; [apply sm_unlessReset, sm_converting, sm_outBidi, om_OpenStream_keeps|]. intros s [k ->].
    apply sm_ret. intros ? [= <-]. by exists k.
  - eapply sm_bind; [apply sm_unlessReset, sm_converting, sm_outUni, om_OpenStream_keeps|]. intros s [k ->].
    apply sm_ret. intros ? [= <-]. by exists k.
  - eapply sm_bind; [apply sm_unlessReset, sm_converting, sm_outBidi, om_openSyncEnter_keeps|]. intros [s|pos] Hs; apply sm_ret; [|done].
    destruct Hs as [k ->]. intros ? [= <-]. by exists k.
  - eapply sm_bind; [apply sm_unlessReset, sm_converting, sm_outUni, om_openSyncEnter_keeps|]. intros [s|pos] Hs; apply sm_ret; [|done].
    destruct Hs as [k ->]. intros ? [= <-]. by exists k.
  - eapply sm_mono; [|apply sm_unlessReset, sm_converting, sm_inBidi, im_accept_keeps]. intros r Hr s Hs. exact (Hr s Hs).
  - eapply sm_mono; [|apply sm_unlessReset, sm_converting, sm_inUni, im_accept_keeps]. intros r Hr s Hs. exact (Hr s Hs).
  - apply sm_streamStateError. unfold sm_getOrOpenReceiveStream. apply sm_get. intros m ->. unfold result_ok, stream_ok.
    pose proof (StreamID_inv id Hok) as Hinv. destruct (StreamID_Type id) eqn:Et.
    + destruct (decide _) as [E|E%not_self]; [apply sm_throw|]. apply sm_converting.
      eapply sm_mono; [|apply sm_inUni, im_GetOrOpen_keeps]. intros r Hr s Hs. split; [|done].
      rewrite (Hr s Hs). unfold newInUni. by rewrite <- E, Hinv.
    + eapply sm_mono; [|by apply sm_getBidi]. intros r Hr s Hs. by split; [apply Hr|].
  - apply sm_streamStateError. unfold sm_getOrOpenSendStream. apply sm_get. intros m ->. unfold result_ok, stream_ok.
    pose proof (StreamID_inv id Hok) as Hinv. destruct (StreamID_Type id) eqn:Et.
    + destruct (decide _) as [E|E]; [|apply sm_throw]. apply sm_converting.
      eapply sm_mono; [|apply sm_outUni, om_GetStream_keeps]. intros r Hr s Hs. split; [|done].
      rewrite (Hr s Hs). unfold newOutUni. by rewrite <- E, Hinv.
    + eapply sm_mono; [|by apply sm_getBidi]. intros r Hr s Hs. by split; [apply Hr|].
  - apply sm_silent, sm_delete.
  - apply sm_silent. unfold sm_HandleMaxStreamsFrame. destruct (msType f); [apply sm_outUni|apply sm_outBidi]; apply om_SetMaxStream_keeps.
  - apply sm_silent, sm_limits.
  - apply sm_silent, sm_close.
  - apply sm_silent, sm_reset.
  - apply sm_silent. intros m []. by repeat constructor.
Qed.

(** The results of a sequence of calls, with the calls. *)
Fixpoint sm_run (os : list smOp) (m : streamsMap) : list (smOp * res (option streamHandle)) :=
  match os with
  | [] => []
  | o :: os' => let '(r, m') := sm_do o m in (o, r) :: sm_run os' m'
  end.

Lemma sm_run_typed os : forall m, sm_typed m -> Forall smOp_ok os ->
  Forall (fun or => match or.2 with Ok (Some s) => stream_ok or.1 s | _ => True end) (sm_run os m).
Proof.
  induction os as [|o os IH]; intros m Hm Hos; [constructor|]. apply Forall_cons in Hos as [Ho Hos].
  cbn [sm_run]. pose proof (sm_do_keeps o Ho m Hm) as Hd. destruct (sm_do o m) as [r m']. destruct Hd as [Hm' Hr].
  constructor; [|by apply IH]. destruct r as [[s|]| |]; try done. by apply Hr.
Qed.

(** C32: Every stream that a connection hands out is of the right kind and has the
    right ID.  Whatever is opened, accepted, looked up for a frame, deleted, closed
    or reset after a rejected 0-RTT attempt, in any order: opening returns a stream
    this endpoint may open, accepting one that the peer may open, and looking up an
    ID for receiving (or sending) returns the stream with that ID, and never a
    unidirectional stream of the wrong direction. *)
Theorem streams_typed maxBidi maxUni os : Forall smOp_ok os ->
  Forall (fun or => match or.2 with Ok (Some s) => stream_ok or.1 s | _ => True end)
    (sm_run os (newStreamsMap maxBidi maxUni p)).
Proof. apply sm_run_typed, init_typed. Qed.
End streams.

Lemma streams_typed_witness :
  let os := [MMaxStreams (mkMaxStreams StreamTypeBidi 3); MOpen; MGetSend 0; MGetReceive 6; MAcceptUni; MGetSend 5; MDelete 6; MReset; MUseReset; MAccept] in
  Forall (fun or => match or.2 with Ok (Some s) => stream_ok PerspectiveServer or.1 s | _ => True end)
    (sm_run os (newStreamsMap 10 10 PerspectiveServer)).
Proof.
  apply (streams_typed PerspectiveServer 10 10 [MMaxStreams (mkMaxStreams StreamTypeBidi 3); MOpen; MGetSend 0; MGetReceive 6;
    MAcceptUni; MGetSend 5; MDelete 6; MReset; MUseReset; MAccept]).
  repeat constructor; vm_compute; discriminate.
Defined.

(** The error for a unidirectional stream beyond the limit names the wrong
    streams: [getOrOpenReceiveStream] converts the stream numbers with its own
    perspective.  When a client that may open one stream opens the stream with ID
    6, the server reports stream 7 and the limit 3, which are IDs of its own. *)
Theorem uni_limit_error_names_own_streams :
  (sm_getOrOpenReceiveStream 6 (newStreamsMap 1 1 PerspectiveServer)).1 =
    Err (FmtError "peer tried to open stream %d (current limit: %d)" [7; 3]) /\
  StreamID_InitiatedBy 6 = PerspectiveClient /\ StreamID_InitiatedBy 7 = PerspectiveServer /\
  (sm_getOrOpenReceiveStream 4 (newStreamsMap 1 1 PerspectiveServer)).1 =
    Err (FmtError "peer tried to open stream %d (current limit: %d)" [4; 0]).
Proof. vm_compute. done. Qed.
