(* ===== verification/RingBuffer.v ===== *)
(** * RingBuffer: a queue in an array

    Models internal/utils/ringbuffer/ringbuffer.go and shows that it is a FIFO
    queue: the array, its two positions and the flag refine a list. *)

From S2P Require Import Prelude.
From stdpp Require Import base numbers list option strings.
From Stdlib Require Import ZArith Lia.

Record RingBuffer (T : Type) := mkRing { ring : list T; headPos : nat; tailPos : nat; full : bool }.
Arguments mkRing {_} _ _ _ _.
Arguments ring {_} _.
Arguments headPos {_} _.
Arguments tailPos {_} _.
Arguments full {_} _.

(** Case analysis on the comparisons of the code. *)
Ltac nat_cases :=
  repeat match goal with
  | |- context [?a =? ?b] => destruct (Nat.eqb_spec a b); cbv iota in *
  | |- context [?a <=? ?b] => destruct (Nat.leb_spec a b); cbv iota in *
  end.

Section ring.
Context {T : Type} (zero : T).
Implicit Types r : RingBuffer T.

Definition ring_zero : RingBuffer T := mkRing [] 0 0 false.
Definition ring_Init (size : nat) r : RingBuffer T := mkRing (replicate size zero) (headPos r) (tailPos r) (full r).

Definition ring_Len r : nat :=
  if full r then length (ring r)
  else if headPos r <=? tailPos r then tailPos r - headPos r
  else tailPos r + length (ring r) - headPos r.

Definition ring_Empty r : bool := negb (full r) && (headPos r =? tailPos r).

(** [copy] fills the new array from its start. *)
Definition ring_grow r : RingBuffer T :=
  let oldRing := ring r in
  let newSize := if length oldRing * 2 =? 0 then 1 else length oldRing * 2 in
  let copied := drop (headPos r) oldRing ++ take (headPos r) oldRing in
  mkRing (resize newSize zero copied) 0 (length oldRing) false.

Definition ring_PushBack (t : T) : stM (RingBuffer T) unit :=
  r ← get;
  let r := if full r || (length (ring r) =? 0) then ring_grow r else r in
  if length (ring r) <=? tailPos r then lift (Panic "index out of range")
  else
    let tail := if S (tailPos r) =? length (ring r) then 0 else S (tailPos r) in
    modify (fun _ => mkRing (<[tailPos r := t]> (ring r)) (headPos r) tail (if tail =? headPos r then true else full r)).

Definition ring_PopFront : stM (RingBuffer T) T :=
  r ← get;
  if ring_Empty r then lift (Panic "github.com/quic-go/quic-go/internal/utils/ringbuffer: pop from an empty queue")
  else
    match ring r !! headPos r with
    | None => lift (Panic "index out of range")
    | Some t =>
        let head := if S (headPos r) =? length (ring r) then 0 else S (headPos r) in
        _ ← modify (fun _ => mkRing (<[headPos r := zero]> (ring r)) head (tailPos r) false);
        mret t
    end.

Definition ring_Clear r : RingBuffer T := mkRing (replicate (length (ring r)) zero) 0 0 false.

(** ** The queue in the array *)

(** The array from the head on. *)
Definition rotation r : list T := drop (headPos r) (ring r) ++ take (headPos r) (ring r).
Definition queue r : list T := take (ring_Len r) (rotation r).

Record ring_inv r : Prop := {
  ri_pos : ring r = [] /\ headPos r = 0 /\ tailPos r = 0 /\ full r = false \/
           headPos r < length (ring r) /\ tailPos r < length (ring r);
  ri_full : full r = true -> headPos r = tailPos r
}.

Lemma length_rotation r : length (rotation r) = length (ring r).
Proof. unfold rotation. rewrite length_app, length_drop, length_take. lia. Qed.

Lemma ring_Len_le r : ring_inv r -> ring_Len r <= length (ring r).
Proof.
  intros [Hp _]. unfold ring_Len. destruct (full r); [done|]. destruct (Nat.leb_spec (headPos r) (tailPos r)); destruct Hp as [(-> & -> & -> & _)|[? ?]]; cbn; lia.
Qed.

Lemma length_queue r : ring_inv r -> length (queue r) = ring_Len r.
Proof. intros Hi. unfold queue. rewrite length_take, length_rotation. pose proof (ring_Len_le r Hi). lia. Qed.

Lemma ring_Empty_queue r : ring_inv r -> ring_Empty r = bool_decide (queue r = []).
Proof.
  intros Hi. pose proof (length_queue r Hi) as Hl. unfold ring_Empty. pose proof (ri_pos r Hi) as Hp. pose proof (ri_full r Hi) as Hf.
  unfold ring_Len in Hl. destruct (full r); cbn [negb andb].
  - rewrite bool_decide_false; [done|]. intros E. rewrite E in Hl. destruct Hp as [(_ & _ & _ & ?)|[? ?]]; [done|]. cbn in Hl. lia.
  - case_bool_decide as E; [rewrite E in Hl; apply Nat.eqb_eq|apply Nat.eqb_neq; intros Heq; apply E, nil_length_inv; rewrite Hl];
      destruct (Nat.leb_spec (headPos r) (tailPos r)); destruct Hp as [(E1 & -> & -> & _)|[? ?]]; cbn in *; lia.
Qed.

(** Writing at the tail is writing behind the queue. *)
Lemma rotation_insert (R : list T) h i t : h < length R -> i < length R ->
  drop h (<[i := t]> R) ++ take h (<[i := t]> R) =
  <[(if h <=? i then i - h else i + length R - h) := t]> (drop h R ++ take h R).
Proof.
  intros Hh Hi. destruct (Nat.leb_spec h i) as [Hle|Hlt].
  - rewrite take_insert_ge, drop_insert_ge by lia. by rewrite insert_app_l by (rewrite length_drop; lia).
  - rewrite drop_insert_lt, take_insert_lt by lia. rewrite insert_app_r_alt by (rewrite length_drop; lia).
    rewrite length_drop. do 2 f_equal. lia.
Qed.

Lemma take_insert_snoc (l : list T) n t : n < length l -> take (S n) (<[n := t]> l) = take n l ++ [t].
Proof.
  intros Hn. rewrite (take_S_r _ _ t) by (by rewrite list_lookup_insert_eq). by rewrite take_insert_ge by lia.
Qed.

Lemma ring_grow_inv r : ring_inv r -> full r = true \/ length (ring r) = 0 ->
  ring_inv (ring_grow r) /\ queue (ring_grow r) = queue r /\ full (ring_grow r) = false /\
  ring_Len (ring_grow r) = ring_Len r /\ ring_Len r < length (ring (ring_grow r)).
Proof.
  intros Hi Hf.
  assert (Hlen : ring_Len r = length (ring r)).
  { unfold ring_Len. destruct (full r) eqn:E; [done|]. destruct Hf as [?|H0]; [done|]. destruct (ri_pos r Hi) as [(_ & -> & -> & _)|[? ?]]; cbn; lia. }
  unfold ring_grow. set (n := if _ =? 0 then 1 else _).
  assert (Hn : length (ring r) < n) by (unfold n; destruct (Nat.eqb_spec (length (ring r) * 2) 0); lia).
  set (R := resize n zero _). assert (HR : length R = n) by apply length_resize.
  assert (HLen : ring_Len (mkRing R 0 (length (ring r)) false) = length (ring r)) by (unfold ring_Len; cbn; lia).
  split; [constructor; cbn; [right; lia|done]|]. cbn [full ring]. rewrite HLen, HR. split; [|split; [done|split; lia]].
  unfold queue. rewrite HLen, Hlen. unfold rotation. cbn [headPos ring]. rewrite drop_0, take_0, app_nil_r.
  unfold R. rewrite take_resize_le by lia. rewrite resize_le by (rewrite length_app, length_drop, length_take; lia). done.
Qed.

Lemma PushBack_spec t r : ring_inv r ->
  exists r', ring_PushBack t r = (Ok tt, r') /\ ring_inv r' /\ queue r' = queue r ++ [t].
Proof.
  intros Hi. unfold ring_PushBack, mbind, stM_bind, get.
  set (r1 := if full r || (length (ring r) =? 0) then ring_grow r else r).
  assert (H1 : ring_inv r1 /\ queue r1 = queue r /\ full r1 = false /\ headPos r1 < length (ring r1) /\ tailPos r1 < length (ring r1)).
  { unfold r1. destruct (full r) eqn:Ef; cbn [orb]; [|destruct (Nat.eqb_spec (length (ring r)) 0) as [E0|E0]].
    - destruct (ring_grow_inv r Hi (or_introl Ef)) as (Hg & -> & Hgf & _ & Hlt). split_and!; try done; destruct (ri_pos _ Hg) as [(E & _)|[? ?]]; try lia; rewrite E in Hlt; cbn in Hlt; lia.
    - destruct (ring_grow_inv r Hi (or_intror E0)) as (Hg & -> & Hgf & _ & Hlt). split_and!; try done; destruct (ri_pos _ Hg) as [(E & _)|[? ?]]; try lia; rewrite E in Hlt; cbn in Hlt; lia.
    - split_and!; try done; destruct (ri_pos _ Hi) as [(E & _)|[? ?]]; try lia; by rewrite E in E0. }
  clearbody r1. destruct H1 as (Hi1 & <- & Hf1 & Hh & Ht).
  replace (length (ring r1) <=? tailPos r1) with false by (symmetry; apply Nat.leb_gt; lia).
  unfold modify. eexists. split; [reflexivity|].
  set (n := length (ring r1)) in *. set (tail := if S (tailPos r1) =? n then 0 else S (tailPos r1)).
  assert (Htail : tail < n) by (unfold tail; destruct (Nat.eqb_spec (S (tailPos r1)) n); lia).
  set (r' := mkRing _ _ _ _).
  assert (HL : ring_Len r' = S (ring_Len r1)).
  { unfold ring_Len. rewrite Hf1. cbn [full ring headPos tailPos r']. rewrite Hf1, length_insert. fold n. unfold tail in *.
    destruct (Nat.eqb_spec (S (tailPos r1)) n); nat_cases; lia. }
  split.
  - constructor; cbn; [right; rewrite length_insert; fold n; lia|]. rewrite Hf1. destruct (Nat.eqb_spec tail (headPos r1)); [by intros _|done].
  - unfold queue. rewrite HL. unfold rotation at 1. cbn [ring headPos r']. rewrite rotation_insert by (fold n; lia).
    assert (Hidx : (if headPos r1 <=? tailPos r1 then tailPos r1 - headPos r1 else tailPos r1 + length (ring r1) - headPos r1) = ring_Len r1)
      by (unfold ring_Len; by rewrite Hf1).
    rewrite Hidx. apply take_insert_snoc. fold (rotation r1). rewrite length_rotation.
    unfold ring_Len. rewrite Hf1. fold n. destruct (Nat.leb_spec (headPos r1) (tailPos r1)); lia.
Qed.

Lemma PopFront_spec r : ring_inv r ->
  match queue r with
  | [] => exists msg, ring_PopFront r = (Panic msg, r)
  | t :: q => exists r', ring_PopFront r = (Ok t, r') /\ ring_inv r' /\ queue r' = q
  end.
Proof.
  intros Hi. unfold ring_PopFront, mbind, stM_bind, get. rewrite ring_Empty_queue by done.
  case_bool_decide as Hq; [rewrite Hq; by eexists|]. pose proof (length_queue r Hi) as Hl.
  assert (Hne : 0 < ring_Len r) by (rewrite <- Hl; by destruct (queue r); cbn; lia || done).
  destruct (ri_pos r Hi) as [(E & _)|[Hh Ht]].
  { pose proof (ring_Len_le r Hi) as Hle. rewrite E in Hle. cbn in Hle. lia. }
  destruct (lookup_lt_is_Some_2 (ring r) (headPos r) Hh) as [t Et]. rewrite Et.
  assert (Hrot : rotation r = t :: (drop (S (headPos r)) (ring r) ++ take (headPos r) (ring r)))
    by (unfold rotation; by rewrite (drop_S _ t)).
  set (n := length (ring r)) in *. set (head := if S (headPos r) =? n then 0 else S (headPos r)).
  unfold modify, mret, stM_ret. set (r' := mkRing _ _ _ _).
  assert (Eq : queue r = t :: take (ring_Len r - 1) (drop (S (headPos r)) (ring r) ++ take (headPos r) (ring r))).
  { unfold queue. rewrite Hrot. destruct (ring_Len r) as [|k]; [lia|]. cbn. by rewrite Nat.sub_0_r. }
  rewrite Eq. exists r'. split; [done|].
  assert (HL : ring_Len r' = ring_Len r - 1).
  { pose proof (ri_full r Hi) as Hfull. unfold ring_Len in *. cbn [full ring headPos tailPos r']. rewrite length_insert. fold n. unfold head.
    destruct (full r); [rewrite <- Hfull by done|]; revert Hne; nat_cases; lia. }
  assert (Hhead : head < n) by (unfold head; nat_cases; lia).
  split; [constructor; cbn; [right; rewrite length_insert; fold n; lia|done]|].
  unfold queue. rewrite HL. unfold rotation. cbn [ring headPos r'].
  pose proof (ring_Len_le r Hi) as Hle. fold n in Hle.
  assert (Hcut : forall l1 l2 l3 : list T, l1 = l2 ++ l3 -> ring_Len r - 1 <= length l2 -> take (ring_Len r - 1) l1 = take (ring_Len r - 1) l2)
    by (intros l1 l2 l3 -> ?; by rewrite take_app_le).
  eapply (Hcut _ _ [zero]); [|rewrite length_app, length_drop, length_take; fold n; lia].
  unfold head. destruct (Nat.eqb_spec (S (headPos r)) n) as [Eh|Eh].
  - rewrite drop_0, take_0, app_nil_r, (drop_ge (ring r)) by (fold n; lia). cbn [app].
    rewrite <- (take_drop (headPos r) (<[headPos r := zero]> (ring r))), take_insert_ge by lia. f_equal.
    rewrite drop_insert_ge, Nat.sub_diag by lia. rewrite (drop_S _ t) by done. rewrite drop_ge by (fold n; lia). done.
  - rewrite drop_insert_lt by lia. rewrite <- (assoc_L (++)). f_equal.
    apply take_insert_snoc. lia.
Qed.

Lemma Clear_spec r : ring_inv r -> ring_inv (ring_Clear r) /\ queue (ring_Clear r) = [].
Proof.
  intros Hi. split; [|done]. constructor; [|done]. cbn. rewrite length_replicate.
  destruct (length (ring r)) eqn:E; [left; split_and!; done|right; lia].
Qed.

Lemma zero_spec : ring_inv ring_zero /\ queue ring_zero = [].
Proof. split; [|done]. constructor; [by left|done]. Qed.
End ring.

(** ** Sequences of operations *)

Inductive ring_op (T : Type) := RPush (t : T) | RPop | RClear.
Arguments RPush {_} _.
Arguments RPop {_}.
Arguments RClear {_}.

Section run.
Context {T : Type} (zero : T).

(** The element an operation returns, and the buffer after it; the loop stops at a panic. *)
Fixpoint ring_run (os : list (ring_op T)) (r : RingBuffer T) : res (list T * RingBuffer T) :=
  match os with
  | [] => Ok ([], r)
  | RPush t :: os' => match ring_PushBack zero t r with (Ok _, r') => ring_run os' r' | _ => Panic "push" end
  | RPop :: os' =>
      match ring_PopFront zero r with
      | (Ok t, r') => '(ts, r'') ← ring_run os' r'; Ok (t :: ts, r'')
      | _ => Panic "pop"
      end
  | RClear :: os' => ring_run os' (ring_Clear zero r)
  end.

(** The same on a list. *)
Fixpoint list_run (os : list (ring_op T)) (q : list T) : res (list T * list T) :=
  match os with
  | [] => Ok ([], q)
  | RPush t :: os' => list_run os' (q ++ [t])
  | RPop :: os' =>
      match q with
      | [] => Panic "pop"
      | t :: q' => '(ts, q'') ← list_run os' q'; Ok (t :: ts, q'')
      end
  | RClear :: os' => list_run os' []
  end.

Lemma ring_run_refines os : forall r, ring_inv r ->
  match list_run os (queue r) with
  | Ok (ts, q) => exists r', ring_run os r = Ok (ts, r') /\ ring_inv r' /\ queue r' = q
  | Err _ => False
  | Panic _ => exists msg, ring_run os r = Panic msg
  end.
Proof.
  induction os as [|[t| |] os IH]; intros r Hi; cbn [ring_run list_run]; [by eauto| | |].
  - destruct (PushBack_spec zero t r Hi) as (r' & -> & Hi' & <-). by apply IH.
  - pose proof (PopFront_spec zero r Hi) as Hp. destruct (queue r) as [|t q].
    + destruct Hp as [msg ->]. by eexists.
    + destruct Hp as (r' & -> & Hi' & <-). specialize (IH r' Hi').
      destruct (list_run os (queue r')) as [[ts q']|e|m]; cbn [mbind res_bind]; [|done|].
      * destruct IH as (r'' & -> & Hi'' & Hq). cbn. eauto.
      * destruct IH as [msg ->]. cbn. eauto.
  - destruct (Clear_spec zero r Hi) as [Hi' Hq]. rewrite <- Hq. by apply IH.
Qed.

(** The ring buffer is a FIFO queue.  For every sequence of operations, from
    the zero value on, through any number of wrap-arounds and growths of the array,
    it returns the elements that a list returns (and panics when the list is
    empty), and [Len] and [Empty] agree with the list. *)
Theorem ring_buffer_refines_queue os :
  match list_run os [] with
  | Ok (ts, q) => exists r, ring_run os ring_zero = Ok (ts, r) /\ queue r = q /\
      ring_Len r = length q /\ ring_Empty r = bool_decide (q = [])
  | Err _ => False
  | Panic _ => exists msg, ring_run os ring_zero = Panic msg
  end.
Proof.
  destruct (zero_spec (T := T)) as [Hi Hq]. pose proof (ring_run_refines os _ Hi) as Hr. rewrite Hq in Hr.
  destruct (list_run os []) as [[ts q]|e|m]; [|done|done]. destruct Hr as (r & -> & Hi' & <-). exists r.
  split; [done|]. split; [done|]. by rewrite length_queue, ring_Empty_queue.
Qed.
End run.
