(* ===== verification/Framer.v ===== *)
(** * Framer: which frames go into the next packet

    Models framer.go.  The streams that the framer pulls frames from are behind the
    interface [SendStreams]; the streams of [SendStream] implement it. *)

From S2P Require Import Prelude Protocol Varint Frames FrameParser SendStream RingBuffer.
From stdpp Require Import base numbers list option strings gmap.
From Stdlib Require Import ZArith Lia.
#[local] Open Scope Z_scope.

(** [popFrom id maxBytes]: [GetOrOpenSendStream(id)] and, if it returns a stream,
    its [popStreamFrame(maxBytes)]: the frame, if any, and whether there is more. *)
Class SendStreams (G : Type) := {
  popFrom : Z -> Z -> stM G (option (option StreamFrame * bool))
}.

Record framerI (G : Type) := mkFramer {
  frStreams : G;
  frActiveStreams : gset Z;
  frStreamQueue : RingBuffer Z;
  frControlFrames : list wireFrame;
  frControlFrameMutex : bool  (* is it locked? *)
}.
Arguments mkFramer {_} _ _ _ _ _.
Arguments frStreams {_} _.
Arguments frActiveStreams {_} _.
Arguments frStreamQueue {_} _.
Arguments frControlFrames {_} _.
Arguments frControlFrameMutex {_} _.

Section framer.
Context {G : Type} `{SendStreams G}.
Implicit Types f : framerI G.
Abbreviation frM := (stM (framerI G)).

Definition newFramer (g : G) : framerI G := mkFramer g ∅ ring_zero [] false.

Definition fr_control (cs : list wireFrame) f : framerI G :=
  mkFramer (frStreams f) (frActiveStreams f) (frStreamQueue f) cs (frControlFrameMutex f).

Definition fr_queue (active : gset Z) (q : RingBuffer Z) f : framerI G :=
  mkFramer (frStreams f) active q (frControlFrames f) (frControlFrameMutex f).

(** Locking a mutex that nobody unlocks blocks forever. *)
Definition lockControl : frM unit :=
  f ← get; if frControlFrameMutex f then lift (Panic "deadlock: controlFrameMutex is locked") else mret tt.

Definition fr_HasData : frM bool :=
  f ← get;
  if negb (ring_Empty (frStreamQueue f)) then mret true
  else _ ← lockControl; mret (0 <? blen (frControlFrames f)).

Definition fr_QueueControlFrame (frame : wireFrame) : frM unit :=
  _ ← lockControl; modify (fun f => fr_control (frControlFrames f ++ [frame]) f).

(** The loop of [AppendControlFrames], over the control frames from the last one
    on; it returns the frames that it adds and those that remain. *)
Fixpoint appendControl (revFrames : list wireFrame) (length maxLen : Z) : res (list wireFrame * Z * list wireFrame) :=
  match revFrames with
  | [] => Ok ([], length, [])
  | frame :: rest =>
      frameLen ← frame_Length frame;
      if maxLen <? length + frameLen then Ok ([], length, revFrames)
      else
        '(added, length, remaining) ← appendControl rest (length + frameLen) maxLen;
        Ok (frame :: added, length, remaining)
  end.

Definition AppendControlFrames (frames : list wireFrame) (maxLen : Z) : frM (list wireFrame * Z) :=
  _ ← lockControl;
  f ← get;
  '(added, length, remaining) ← lift (appendControl (rev (frControlFrames f)) 0 maxLen);
  _ ← modify (fr_control (rev remaining));
  mret (frames ++ added, length).

Definition AddActiveStream (id : Z) : frM unit :=
  f ← get;
  if bool_decide (id ∈ frActiveStreams f) then mret tt
  else
    let '(r, q) := ring_PushBack 0 id (frStreamQueue f) in
    _ ← lift r;
    modify (fr_queue ({[id]} ∪ frActiveStreams f) q).

(** Calls on the queue and on the streams. *)
Definition onQueue {T} (m : stM (RingBuffer Z) T) : frM T := fun f =>
  let '(r, q) := m (frStreamQueue f) in (r, fr_queue (frActiveStreams f) q f).

Definition onStreams {T} (m : stM G T) : frM T := fun f =>
  let '(r, g) := m (frStreams f) in
  (r, mkFramer g (frActiveStreams f) (frStreamQueue f) (frControlFrames f) (frControlFrameMutex f)).

Definition deactivate (id : Z) : frM unit := modify (fun f => fr_queue (frActiveStreams f ∖ {[id]}) (frStreamQueue f) f).

(** [n] rounds of the loop of [AppendStreamFrames]. *)
Fixpoint appendStreams (n : nat) (frames : list StreamFrame) (length maxLen : Z) : frM (list StreamFrame * Z) :=
  match n with
  | O => mret (frames, length)
  | S n' =>
      if maxLen <? MinStreamFrameSize + length then mret (frames, length)
      else
        id ← onQueue (ring_PopFront 0);
        let remainingLen := maxLen - length in
        l ← lift (varint_Len (u64 remainingLen));
        r ← onStreams (popFrom id (remainingLen + l));
        match r with
        | None => _ ← deactivate id; appendStreams n' frames length maxLen
        | Some (frame, hasMoreData) =>
            _ ← (if hasMoreData : bool then onQueue (ring_PushBack 0 id) else deactivate id);
            match frame with
            | None => appendStreams n' frames length maxLen
            | Some frame => len ← lift (frame_Length frame); appendStreams n' (frames ++ [frame]) (length + len) maxLen
            end
        end
  end.

(** The last frame loses its length field. *)
Definition withoutDataLen (f : StreamFrame) : StreamFrame :=
  mkStream (sfStreamID f) (sfOffset f) (sfData f) (sfFin f) false.

Definition AppendStreamFrames (frames : list StreamFrame) (maxLen : Z) : frM (list StreamFrame * Z) :=
  f ← get;
  '(frames', length) ← appendStreams (ring_Len (frStreamQueue f)) frames 0 maxLen;
  if blen frames <? blen frames' then
    match last frames' with
    | None => lift (Panic "index out of range")
    | Some fr =>
        l ← lift (frame_Length fr);
        l' ← lift (frame_Length (withoutDataLen fr));
        mret (take (List.length frames' - 1) frames' ++ [withoutDataLen fr], length + (l' - l))
    end
  else mret (frames', length).

(** The loop over the control frames: those it keeps are moved to the front; it
    stops at a frame that must not be there. *)
Fixpoint keepControl (cs : list wireFrame) : list wireFrame * bool :=
  match cs with
  | [] => ([], true)
  | frame :: cs' =>
      match frame with
      | FMaxData _ | FMaxStreamData _ | FMaxStreams _ => ([], false)
      | FDataBlocked _ | FStreamDataBlocked _ | FStreamsBlocked _ => keepControl cs'
      | _ => let '(kept, ok) := keepControl cs' in (frame :: kept, ok)
      end
  end.

Definition fr_Handle0RTTRejection : frM unit :=
  _ ← lockControl;
  f ← get;
  let '(kept, ok) := keepControl (frControlFrames f) in
  if ok : bool then modify (fun f => mkFramer (frStreams f) ∅ (ring_Clear 0 (frStreamQueue f)) kept false)
  else
    (* the mutex is still held *)
    _ ← modify (fun f => mkFramer (frStreams f) ∅ (ring_Clear 0 (frStreamQueue f))
                          (kept ++ drop (List.length kept) (frControlFrames f)) true);
    throw (ErrorString "didn't expect MAX_DATA / MAX_STREAM_DATA / MAX_STREAMS frame to be sent in 0-RTT").
End framer.
