(* ===== verification/FramerProofs.v ===== *)
(** * FramerProofs: the frames fit, and no stream is forgotten

    The frames of the framer take up exactly the announced length, which is within
    the limit; a stream is in the queue if and only if it is active. *)

From S2P Require Import Prelude Protocol Varint Frames FrameParser FrameSplit FlowControl SendStream SendStreamProofs SendStreamClaims RingBuffer Framer.
From stdpp Require Import base numbers list option strings gmap.
From Stdlib Require Import ZArith Lia.
#[local] Open Scope Z_scope.

(** ** What the framer relies on *)

(** A stream frame that the framer can take: well formed, of the stream, with its
    length field. *)
Definition frame_from (id maxBytes : Z) (f : StreamFrame) : Prop :=
  frame_sendable f /\ sfStreamID f = id /\ sfDataLenPresent f = true /\ exists l, frame_Length f = Ok l /\ l <= maxBytes.

Class SendStreamsLaws (G : Type) `{SendStreams G} := {
  ss_ok : G -> Prop;
  ss_pop id maxBytes g : ss_ok g -> MinStreamFrameSize <= maxBytes <= MaxPacketBufferSize ->
    match popFrom id maxBytes g with
    | (Ok r, g') => ss_ok g' /\ (forall f more, r = Some (Some f, more) -> frame_from id maxBytes f)
    | _ => False
    end
}.

(** ** Frames of a send stream have their length field *)

Section len.
Context {F : Type} `{SendFlow F}.
Implicit Types s : sendStream F.

Definition len_ok s : Prop :=
  (forall f, txNextFrame s = Some f -> sfDataLenPresent f = true) /\
  Forall (fun f => sfDataLenPresent f = true) (txRetransmissionQueue s).

Definition lenQ (r : option StreamFrame * bool) s : Prop := len_ok s /\ forall f, r.1 = Some f -> sfDataLenPresent f = true.

Lemma wlp_lift {S T} (r : res T) (Q : T -> S -> Prop) (s : S) : (forall a, r = Ok a -> Q a s) -> wlp (lift r) Q s.
Proof. unfold wlp, lift. destruct r; auto. Qed.

Lemma wlp_mono {S T} (m : stM S T) (Q Q' : T -> S -> Prop) (s : S) :
  (forall a (s' : S), Q a s' -> Q' a s') -> wlp m Q s -> wlp m Q' s.
Proof. unfold wlp. destruct (m s) as [[] ?]; auto. Qed.

Lemma len_ok_keeps {T} (m : txM F T) s :
  keeps (fun s => (txNextFrame s, txRetransmissionQueue s)) m -> len_ok s -> wlp m (fun _ s' => len_ok s') s.
Proof.
  intros Hk Hs. eapply wlp_keeps; [exact Hk|]. intros a s' [= E1 E2]. unfold len_ok. by rewrite E1, E2.
Qed.

Lemma keeps_onTxFlow {T} (m : stM F T) : keeps (fun s => (txNextFrame s, txRetransmissionQueue s)) (onTxFlow m).
Proof. intros s. unfold onTxFlow. by destruct (m (txFlow s)). Qed.

Lemma keeps_getDataForWriting n : keeps (fun s => (txNextFrame s, txRetransmissionQueue s)) (@getDataForWriting F n).
Proof.
  apply keeps_bind; [done|]. intros s. cbv zeta. destruct (_ <=? _); repeat (apply keeps_bind; [done|intros ?]); try done.
  destruct (canBufferStreamFrame _); done.
Qed.

Lemma wlp_retransmission_len maxBytes s : len_ok s -> wlp (maybeGetRetransmission maxBytes) lenQ s.
Proof.
  intros [Hn Hr]. apply wlp_bind, wlp_get. destruct (txRetransmissionQueue s) as [|f q]; [done|].
  apply Forall_cons in Hr as [Hf Hq]. apply wlp_bind, wlp_lift. intros [[nf split] f'] E.
  assert (Hs : sfDataLenPresent f' = true /\ forall g, nf = Some g -> sfDataLenPresent g = true).
  { unfold stream_MaybeSplitOffFrame in E. apply res_bind_ok in E as (l & _ & E).
    destruct (_ <=? _); [by injection E as <- <- <-|]. apply res_bind_ok in E as (n & _ & E). cbv zeta in E.
    destruct (_ =? 0); [by injection E as <- <- <-|]. destruct (_ || _); [done|]. injection E as <- <- <-. by split; [|intros g [= <-]]. }
  destruct Hs as [Hf' Hnf]. destruct split; apply wlp_bind, wlp_modify, wlp_ret.
  - split; [split; [done|by constructor]|done].
  - split; [by split|by intros g [= <-]].
Qed.

Lemma wlp_popNewStreamFrame_len maxBytes w s : len_ok s -> wlp (popNewStreamFrame maxBytes w) lenQ s.
Proof.
  intros Hs. pose proof Hs as [Hn Hr]. apply wlp_bind, wlp_get. destruct (txNextFrame s) as [nf|] eqn:En.
  - apply wlp_bind, wlp_modify, wlp_bind, wlp_lift. intros n _. apply wlp_bind.
    assert (Hnone : len_ok (t_next None s)) by by split.
    destruct (_ <? _).
    + apply wlp_bind, wlp_lift. intros [] _. apply wlp_bind, wlp_modify, wlp_ret, wlp_bind, wlp_get, wlp_ret.
      split; [split; [by intros g [= <-]|done]|]. intros g [= <-]. exact (Hn nf eq_refl).
    + apply wlp_bind, wlp_modify, wlp_ret, wlp_bind, wlp_get, wlp_ret. split; [done|]. intros g [= <-]. exact (Hn nf eq_refl).
  - apply wlp_bind. eapply (wlp_mono _ (fun r s' => len_ok s' /\ sfDataLenPresent r.1 = true)).
    { intros [g more] s' [Hs' Hg]. apply wlp_ret. split; [done|]. cbn. case_match; [done|]. by intros ? [= <-]. }
    unfold popNewStreamFrameWithoutBuffer. apply wlp_bind, wlp_lift. intros n _. destruct (n =? 0).
    + by apply wlp_bind, wlp_get, wlp_ret.
    + apply wlp_bind. eapply wlp_mono; [|apply len_ok_keeps; [apply keeps_getDataForWriting|done]].
      intros d s' Hs'. by apply wlp_bind, wlp_get, wlp_ret.
Qed.

Lemma wlp_popNew_len maxBytes s : len_ok s -> wlp (popNew maxBytes) lenQ s.
Proof.
  intros Hs. apply wlp_bind, wlp_get. destruct (_ && _).
  { destruct (_ && _); [|by apply wlp_ret]. apply wlp_bind, wlp_modify, wlp_ret. split; [done|by intros g [= <-]]. }
  unfold popNewData. apply wlp_bind, wlp_get. cbv zeta. destruct (tfc_SendWindowSize (txFlow s) =? 0).
  { apply wlp_bind. eapply wlp_mono; [|apply len_ok_keeps; [apply keeps_onTxFlow|done]].
    intros [[] o] s' Hs'; [apply wlp_bind, wlp_modify|]; by apply wlp_ret. }
  apply wlp_bind. eapply wlp_mono; [|by apply wlp_popNewStreamFrame_len]. intros [fr more] s1 [Hs1 Hf].
  apply wlp_bind, wlp_lift. intros f Ef. destruct fr as [g|]; [|done]. cbn in Ef. injection Ef as <-.
  specialize (Hf g eq_refl). apply wlp_bind. eapply (wlp_mono _ (fun _ s' => len_ok s')).
  - intros [] s2 Hs2. apply wlp_bind, wlp_get, wlp_bind. eapply (wlp_mono _ (fun _ s' => len_ok s')).
    + intros [] s3 Hs3. apply wlp_ret. split; [done|]. by intros ? [= <-].
    + destruct (_ && _); done.
  - destruct (0 <? _); [|done]. apply wlp_bind, wlp_modify, len_ok_keeps; [apply keeps_onTxFlow|done].
Qed.

Lemma wlp_popStreamFrame_len maxBytes s : len_ok s -> wlp (popStreamFrame maxBytes) lenQ s.
Proof.
  intros Hs. apply wlp_bind. eapply (wlp_mono _ lenQ).
  - intros [f more] s' [Hs' Hf]. apply wlp_bind. destruct f as [f|]; [apply wlp_modify|]; by apply wlp_ret.
  - apply wlp_bind, wlp_get. destruct (_ || _); [by apply wlp_ret|]. destruct (0 <? _); [|by apply wlp_popNew_len].
    apply wlp_bind. eapply wlp_mono; [|by apply wlp_retransmission_len]. intros [f more] s' [Hs' Hf].
    destruct (_ || _); [by apply wlp_ret|by apply wlp_popNew_len].
Qed.
End len.

(** ** The streams of a connection as the framer sees them *)

#[export] Instance sendStreams_map {F} `{SendFlow F} : SendStreams (gmap Z (sendStream F)) := {
  popFrom id maxBytes := fun g =>
    match g !! id with
    | None => (Ok None, g)
    | Some s =>
        match popStreamFrame maxBytes s with
        | (Ok r, s') => (Ok (Some r), <[id := s']> g)
        | (Err e, s') => (Err e, <[id := s']> g)
        | (Panic p, s') => (Panic p, <[id := s']> g)
        end
    end
}.

Definition streams_ok {F} `{SendFlowLaws F} (g : gmap Z (sendStream F)) : Prop :=
  forall id s, g !! id = Some s -> txStreamID s = id /\ len_ok s /\ exists sent, tx_core sent s.

#[export] Program Instance sendStreams_laws {F} `{SendFlowLaws F} : SendStreamsLaws (gmap Z (sendStream F)) := {
  ss_ok := streams_ok
}.
Next Obligation.
  intros F HF HL id maxBytes g Hg Hm. cbn. destruct (g !! id) as [s|] eqn:Es; [|done].
  destruct (Hg id s Es) as (Hid & Hlen & sent & Hc).
  pose proof (wp_popStreamFrame maxBytes sent s (fun _ _ => False) Hc Hm) as Hw.
  pose proof (wlp_popStreamFrame_len maxBytes s Hlen) as Hl. unfold wp, wlp in *.
  destruct (popStreamFrame maxBytes s) as [[r|e|p] s']; [|done|done].
  destruct Hw as (s1 & (Hctl & _ & _ & Hpop) & Es'), Hl as [Hlen' Hf']. injection Hctl as _ Hid' _ _ _ _ _.
  destruct r as [[f|] more]; cbn [fst] in *.
  - destruct Hpop as (_ & new & Hc' & _ & _ & Hfr & Hfl & _). split.
    + intros k s0. destruct (decide (id = k)) as [<-|?]; [rewrite lookup_insert_eq; intros [= <-]|rewrite lookup_insert_ne by done; apply Hg].
      split_and!; [by rewrite Es'; cbn; rewrite Hid'|done|]. exists (sent ++ new). rewrite Es'. apply core_frames; [done|apply Hc'].
    + intros f0 more0 [= <- <-]. split_and!; [|destruct Hfr as [-> _]; done|by apply Hf'|done].
      split; [|apply Hfr]. rewrite <- Hid' in Hfr. by eapply frame_of_ok.
  - split; [|done]. intros k s0. destruct (decide (id = k)) as [<-|?]; [rewrite lookup_insert_eq; intros [= <-]|rewrite lookup_insert_ne by done; apply Hg].
    split_and!; [by rewrite Es', Hid'|done|]. exists sent. rewrite Es'. apply Hpop.
Qed.

(** ** Sizes *)

Abbreviation wlen f := (blen (wf_bytes f)).
Definition total (fs : list wireFrame) : Z := foldr (fun f n => wlen f + n) 0 fs.
Definition stotal (fs : list StreamFrame) : Z := total (FStream <$> fs).

Lemma total_app fs gs : total (fs ++ gs) = total fs + total gs.
Proof. unfold total. induction fs as [|f fs IH]; cbn [foldr app]; [done|]. rewrite IH. lia. Qed.

Lemma stotal_app fs gs : stotal (fs ++ gs) = stotal fs + stotal gs.
Proof. unfold stotal. by rewrite fmap_app, total_app. Qed.

Lemma stotal_one f : stotal [f] = wlen (FStream f).
Proof. unfold stotal, total. cbn [fmap list_fmap foldr]. lia. Qed.

Lemma total_nonneg fs : 0 <= total fs.
Proof. unfold total. induction fs as [|f fs IH]; cbn [foldr]; [done|]. pose proof (blen_nonneg (wf_bytes f)). lia. Qed.

Lemma stream_length f : frame_sendable f -> frame_Length f = Ok (wlen (FStream f)).
Proof. exact (wf_length (FStream f)). Qed.

(** The length field is what the last frame saves. *)
Lemma withoutDataLen_spec f : frame_sendable f -> sfDataLenPresent f = true ->
  frame_sendable (withoutDataLen f) /\ wlen (FStream f) = wlen (FStream (withoutDataLen f)) + vlen (sfDataLen f) /\
  wlen (FStream (withoutDataLen f)) = streamHeader f + sfDataLen f.
Proof.
  intros Hs Hd. pose proof Hs as [Hok Hne]. assert (Hs' : frame_sendable (withoutDataLen f)) by done. split; [done|].
  pose proof (stream_length f Hs) as E1. pose proof (stream_length (withoutDataLen f) Hs') as E2.
  rewrite (stream_Length_spec f Hok), Hd in E1.
  rewrite (stream_Length_spec (withoutDataLen f) Hok) in E2. injection E1 as E1. injection E2 as E2.
  unfold streamHeader, sfDataLen in *. cbn in E2 |- *. lia.
Qed.

Lemma streamHeader_le f : streamHeader f <= 17.
Proof.
  unfold streamHeader. pose proof (vlen_range (sfStreamID f)). pose proof (vlen_range (sfOffset f)). destruct (_ =? 0); lia.
Qed.

(** A frame that was popped for [room] bytes and its length field fits into [room]
    without it. *)
Lemma withoutDataLen_fits f id room : MinStreamFrameSize <= room <= MaxPacketBufferSize ->
  frame_from id (room + vlen room) f -> wlen (FStream (withoutDataLen f)) <= room.
Proof.
  intros Hr (Hs & _ & Hd & l & El & Hl). destruct (withoutDataLen_spec f Hs Hd) as (_ & E1 & E2).
  rewrite (stream_length f Hs) in El. injection El as El. pose proof (streamHeader_le f).
  unfold MinStreamFrameSize, MaxPacketBufferSize in Hr.
  assert (Hv : vlen room = 2) by (unfold vlen, maxVarInt1, maxVarInt2; repeat case_match; lia).
  assert (sfDataLen f <= 63 \/ 2 <= vlen (sfDataLen f)) by (unfold vlen, maxVarInt1; repeat case_match; lia). lia.
Qed.

Lemma wp_eq {S T} (m m' : stM S T) Q E (s : S) : m s = m' s -> wp m' Q E s -> wp m Q E s.
Proof. unfold wp. by intros ->. Qed.

Lemma Forall_sublist {T} (P : T -> Prop) l k : l `sublist_of` k -> Forall P k -> Forall P l.
Proof. induction 1; intros Hk; [done|apply Forall_cons in Hk as [? ?]; constructor; auto|apply Forall_cons in Hk as [? ?]; auto]. Qed.

(** ** The invariant of the framer *)

Section framer.
Context {G : Type} `{SendStreamsLaws G}.
Implicit Types f : framerI G.

(** A stream is in the queue, once, if and only if it is active. *)
Record fr_inv f : Prop := {
  fi_ring : ring_inv (frStreamQueue f);
  fi_nodup : NoDup (queue (frStreamQueue f));
  fi_active id : id ∈ frActiveStreams f <-> id ∈ queue (frStreamQueue f);
  fi_streams : ss_ok (frStreams f);
  fi_control : Forall wf_sendable (frControlFrames f);
  fi_mutex : frControlFrameMutex f = false
}.

Abbreviation noErr := (fun (_ : GoError) (_ : framerI G) => False).
Abbreviation fqueue f := (queue (frStreamQueue f)).

Lemma newFramer_inv g : ss_ok g -> fr_inv (newFramer g).
Proof.
  intros Hg. constructor; cbn; try done; [apply zero_spec|constructor|]. intros id. set_solver.
Qed.

Lemma wp_lockControl f (Q : unit -> framerI G -> Prop) E : fr_inv f -> Q tt f -> wp lockControl Q E f.
Proof. intros Hf HQ. apply wp_bind, wp_get. rewrite (fi_mutex f Hf). by apply wp_ret. Qed.

Lemma wp_QueueControlFrame c f : fr_inv f -> wf_sendable c ->
  wp (fr_QueueControlFrame c) (fun _ f' => fr_inv f' /\ fqueue f' = fqueue f /\ frControlFrames f' = frControlFrames f ++ [c]) noErr f.
Proof.
  intros Hf Hc. apply wp_bind, wp_lockControl; [done|]. apply wp_modify. split; [|done].
  destruct Hf. constructor; cbn; try done. by apply Forall_app_2; [|constructor].
Qed.

(** The frames come from the end of the list, as many as fit. *)
Lemma appendControl_spec cs : Forall wf_sendable cs -> forall length maxLen,
  exists k, (k <= List.length cs)%nat /\
    appendControl cs length maxLen = Ok (take k cs, length + total (take k cs), drop k cs) /\
    (length <= maxLen -> length + total (take k cs) <= maxLen) /\
    (forall c, cs !! k = Some c -> maxLen < length + total (take k cs) + wlen c).
Proof.
  induction 1 as [|c cs Hc _ IH]; intros length maxLen; cbn [appendControl].
  { exists 0%nat. cbn. split_and!; [lia|do 2 f_equal; f_equal; lia|lia|done]. }
  rewrite wf_length by done. cbn [mbind res_bind]. destruct (Z.ltb_spec maxLen (length + wlen c)) as [Hlt|Hge].
  - exists 0%nat. cbn. split_and!; [lia|do 2 f_equal; f_equal; lia|lia|]. intros ? [= <-]. lia.
  - destruct (IH (length + wlen c) maxLen) as (k & Hk & E & Hm & Hn). exists (S k). rewrite E. cbn [mbind res_bind take drop].
    change (total (c :: take k cs)) with (wlen c + total (take k cs)).
    split_and!; [cbn; lia|do 2 f_equal; f_equal; lia|lia|]. intros c' E'. specialize (Hn c' E'). lia.
Qed.

Lemma wp_AppendControlFrames frames maxLen f : fr_inv f -> 0 <= maxLen ->
  wp (AppendControlFrames frames maxLen)
     (fun r f' => exists kept added, fr_inv f' /\ fqueue f' = fqueue f /\ frControlFrames f = kept ++ rev added /\
        frControlFrames f' = kept /\ r = (frames ++ added, total added) /\ total added <= maxLen /\
        (forall c, last kept = Some c -> maxLen < total added + wlen c)) noErr f.
Proof.
  intros Hf Hm. apply wp_bind, wp_lockControl, wp_bind, wp_get; [done|].
  assert (Hc : Forall wf_sendable (rev (frControlFrames f))) by apply Forall_rev, Hf.
  destruct (appendControl_spec _ Hc 0 maxLen) as (k & Hk & E & Hle & Hmore). set (cs := rev (frControlFrames f)) in *.
  eapply wp_bind, wp_lift; [exact E|]. apply wp_bind, wp_modify, wp_ret. exists (rev (drop k cs)), (take k cs).
  assert (Ecs : frControlFrames f = rev (drop k cs) ++ rev (take k cs)).
  { rewrite <- rev_app_distr, take_drop. unfold cs. by rewrite rev_involutive. }
  split_and!; try done; [|lia|].
  - destruct Hf as [? ? ? ? Hf ?]. constructor; cbn; try done. rewrite Ecs in Hf. by apply Forall_app in Hf as [? ?].
  - intros c Hlast. destruct (drop k cs) as [|c' rest] eqn:Ed; [done|]. cbn [rev] in Hlast. rewrite last_snoc in Hlast.
    injection Hlast as ->. specialize (Hmore c). rewrite <- (Nat.add_0_r k), <- lookup_drop, Ed, Nat.add_0_r in Hmore. specialize (Hmore eq_refl). lia.
Qed.

Lemma wp_AddActiveStream id f : fr_inv f ->
  wp (AddActiveStream id) (fun _ f' => fr_inv f' /\ frControlFrames f' = frControlFrames f /\
    fqueue f' = if bool_decide (id ∈ fqueue f) then fqueue f else fqueue f ++ [id]) noErr f.
Proof.
  intros Hf. apply wp_bind, wp_get. pose proof (fi_active f Hf id) as Ha. case_bool_decide as Hin.
  { rewrite bool_decide_true by by apply Ha. by apply wp_ret. }
  rewrite bool_decide_false by (intros ?; by apply Hin, Ha).
  destruct (PushBack_spec 0 id _ (fi_ring f Hf)) as (q & -> & Hq & Eq).
  eapply wp_bind, wp_lift; [done|]. apply wp_modify. split; [|done]. destruct Hf. constructor; cbn; try done; rewrite Eq.
  - apply NoDup_app. split_and!; [done| |apply NoDup_singleton]. intros x Hx [=->]%list_elem_of_singleton. by apply Hin, Ha.
  - intros x. rewrite elem_of_app, list_elem_of_singleton. specialize (fi_active0 x). set_solver.
Qed.

(** ** The loop over the streams *)

Lemma wp_popQueue f id q (Q : Z -> framerI G -> Prop) E : ring_inv (frStreamQueue f) -> fqueue f = id :: q ->
  (forall r, ring_inv r -> queue r = q -> Q id (fr_queue (frActiveStreams f) r f)) -> wp (onQueue (ring_PopFront 0)) Q E f.
Proof.
  intros Hr Eq HQ. pose proof (PopFront_spec 0 _ Hr) as Hp. rewrite Eq in Hp. destruct Hp as (r' & Hp & Hr' & Eq').
  unfold wp, onQueue. rewrite Hp. by apply HQ.
Qed.

Lemma wp_pushQueue f id (Q : unit -> framerI G -> Prop) E : ring_inv (frStreamQueue f) ->
  (forall r, ring_inv r -> queue r = fqueue f ++ [id] -> Q tt (fr_queue (frActiveStreams f) r f)) -> wp (onQueue (ring_PushBack 0 id)) Q E f.
Proof.
  intros Hr HQ. destruct (PushBack_spec 0 id _ Hr) as (r' & Hp & Hr' & Eq'). unfold wp, onQueue. rewrite Hp. by apply HQ.
Qed.

Lemma wp_onStreams_pop id maxBytes f (Q : option (option StreamFrame * bool) -> framerI G -> Prop) E :
  ss_ok (frStreams f) -> MinStreamFrameSize <= maxBytes <= MaxPacketBufferSize ->
  (forall r g, ss_ok g -> (forall fr more, r = Some (Some fr, more) -> frame_from id maxBytes fr) ->
     Q r (mkFramer g (frActiveStreams f) (frStreamQueue f) (frControlFrames f) (frControlFrameMutex f))) ->
  wp (onStreams (popFrom id maxBytes)) Q E f.
Proof.
  intros Hs Hm HQ. pose proof (ss_pop id maxBytes _ Hs Hm) as Hp. unfold wp, onStreams.
  destruct (popFrom id maxBytes (frStreams f)) as [[r|e|p] g]; [|done|done]. destruct Hp. by apply HQ.
Qed.

(** One round of the loop, up to the handling of the frame. *)
Definition popOne (maxLen length : Z) : stM (framerI G) (option StreamFrame) :=
  id ← onQueue (ring_PopFront 0);
  let remainingLen := maxLen - length in
  l ← lift (varint_Len (u64 remainingLen));
  r ← onStreams (popFrom id (remainingLen + l));
  match r with
  | None => _ ← deactivate id; mret None
  | Some (frame, hasMoreData) =>
      _ ← (if hasMoreData : bool then onQueue (ring_PushBack 0 id) else deactivate id);
      mret frame
  end.

Lemma wp_popOne maxLen length f id q : fr_inv f -> fqueue f = id :: q ->
  MinStreamFrameSize + length <= maxLen -> 0 <= length -> maxLen <= MaxPacketBufferSize - 2 ->
  wp (popOne maxLen length) (fun r f' => exists more : bool, fr_inv f' /\ fqueue f' = q ++ (if more then [id] else []) /\
    frControlFrames f' = frControlFrames f /\
    (forall fr, r = Some fr -> frame_from id (maxLen - length + vlen (maxLen - length)) fr)) noErr f.
Proof.
  intros Hf Eq Hmin Hl Hmax. unfold popOne. pose proof (fi_nodup f Hf) as Hnd. pose proof (fi_active f Hf) as Hact. rewrite Eq in Hnd, Hact.
  apply NoDup_cons in Hnd as [Hid Hnd]. eapply wp_bind, wp_popQueue; [apply Hf|done|]. intros r1 Hr1 Er1. cbv zeta.
  unfold MinStreamFrameSize, MaxPacketBufferSize in Hmin, Hmax.
  assert (Hv : is_varint (maxLen - length)) by (unfold is_varint, maxVarInt8; lia).
  assert (Hv2 : vlen (maxLen - length) = 2) by (unfold vlen, maxVarInt1, maxVarInt2; repeat case_match; lia).
  eapply wp_bind, (wp_lift (vlen (maxLen - length))).
  { rewrite u64_small by int_range. apply varint_Len_vlen, Hv. }
  eapply wp_bind, wp_onStreams_pop; [apply Hf|unfold MinStreamFrameSize, MaxPacketBufferSize; lia|]. intros r g Hg Hfr. cbn [fr_queue].
  destruct Hf. destruct r as [[fr more]|].
  - apply wp_bind. destruct more.
    + eapply wp_pushQueue; [done|]. intros r2 Hr2 Er2. apply wp_ret. exists true. cbn in *. rewrite Er1 in Er2.
      split_and!; try done; [|by intros ? ->; eapply (Hfr _ _ eq_refl)]. constructor; cbn; try done; rewrite Er2.
      * apply NoDup_app. split_and!; [done| |apply NoDup_singleton]. by intros x ? ->%list_elem_of_singleton.
      * intros x. rewrite Hact. set_solver.
    + apply wp_modify, wp_ret. exists false. cbn in *. rewrite app_nil_r.
      split_and!; try done; [|by intros ? ->; eapply (Hfr _ _ eq_refl)]. constructor; cbn; try done; rewrite Er1; [done|].
      intros x. specialize (Hact x). set_solver.
  - apply wp_bind, wp_modify, wp_ret. exists false. cbn in *. rewrite app_nil_r.
    split_and!; try done. constructor; cbn; try done; rewrite Er1; [done|]. intros x. specialize (Hact x). set_solver.
Qed.

Lemma appendStreams_popOne n frames length maxLen f :
  appendStreams (S n) frames length maxLen f =
  (if maxLen <? MinStreamFrameSize + length then mret (frames, length)
   else
     frame ← popOne maxLen length;
     match frame with
     | None => appendStreams n frames length maxLen
     | Some frame => len ← lift (frame_Length frame); appendStreams n (frames ++ [frame]) (length + len) maxLen
     end) f.
Proof.
  cbn [appendStreams]. destruct (_ <? _); [done|]. unfold popOne, mbind, stM_bind, mret, stM_ret.
  destruct (onQueue _ f) as [[id| |] f1]; [|done|done]. destruct (lift _ f1) as [[l| |] f2]; [|done|done].
  destruct (onStreams _ f2) as [[[[fr more]|]| |] f3]; [..|done|done]; [|by destruct (deactivate id f3) as [[]]].
  destruct more; [by destruct (onQueue (ring_PushBack 0 id) f3) as [[]]|by destruct (deactivate id f3) as [[]]].
Qed.

(** The frames of the loop leave the packet within the limit once the last one has
    lost its length field. *)
Definition last_fits (added : list StreamFrame) (length maxLen : Z) : Prop :=
  match last added with
  | None => True
  | Some fr => length - wlen (FStream fr) + wlen (FStream (withoutDataLen fr)) <= maxLen
  end.

Definition framed (fr : StreamFrame) : Prop := frame_sendable fr /\ sfDataLenPresent fr = true.

(** What [n] rounds do with a queue that starts with the [n] streams [old]: the
    first [k] of them are asked, those of them that have more data, [more], go to
    the end of the queue; fewer than [n] are asked only if the packet is full. *)
Record rounds (old back : list Z) (length maxLen : Z) f (added : list StreamFrame) (k : nat) (more : list Z) f' : Prop := {
  ro_inv : fr_inv f';
  ro_control : frControlFrames f' = frControlFrames f;
  ro_k : (k <= List.length old)%nat;
  ro_queue : fqueue f' = drop k old ++ back ++ more;
  ro_more : more `sublist_of` take k old;
  ro_ids : (sfStreamID <$> added) `sublist_of` take k old;
  ro_framed : Forall framed added;
  ro_fits : last_fits added (length + stotal added) maxLen;
  ro_full : (k < List.length old)%nat -> maxLen < MinStreamFrameSize + (length + stotal added)
}.

Lemma last_cons_fits fr fs length maxLen : last_fits fs length maxLen ->
  (fs = [] -> last_fits [fr] length maxLen) -> last_fits (fr :: fs) length maxLen.
Proof. intros Hfs Hnil. destruct fs as [|fr' fs]; [by apply Hnil|exact Hfs]. Qed.

Lemma stotal_cons fr fs : stotal (fr :: fs) = wlen (FStream fr) + stotal fs.
Proof. done. Qed.

Lemma rounds_none old back frames length maxLen f : fr_inv f -> fqueue f = old ++ back ->
  (old <> [] -> maxLen < MinStreamFrameSize + length) -> exists added k more,
  (frames, length) = (frames ++ added, length + stotal added) /\ rounds old back length maxLen f added k more f.
Proof.
  intros Hf Eq Hfull. exists [], 0%nat, []. change (stotal []) with 0. rewrite app_nil_r, Z.add_0_r.
  split; [done|]. constructor; try done; cbn; [lia|by rewrite app_nil_r|]. rewrite Z.add_0_r. intros Hk. apply Hfull. by destruct old; cbn in Hk; [lia|].
Qed.

(** A round before the others. *)
Lemma rounds_cons id old back length maxLen f f1 f' (frame : option StreamFrame) (again : bool) added k more :
  MinStreamFrameSize + length <= maxLen -> maxLen <= MaxPacketBufferSize - 2 -> 0 <= length ->
  (forall fr, frame = Some fr -> frame_from id (maxLen - length + vlen (maxLen - length)) fr) ->
  frControlFrames f1 = frControlFrames f ->
  rounds old (back ++ (if again then [id] else [])) (length + stotal (option_list frame)) maxLen f1 added k more f' ->
  rounds (id :: old) back length maxLen f (option_list frame ++ added) (S k) ((if again then [id] else []) ++ more) f'.
Proof.
  intros Hmin Hmax Hl Hfr Hctl [Hi Hc Hk Hq Hm Hids Hfrd Hfits Hfull]. constructor; try done.
  - by rewrite Hc.
  - cbn. lia.
  - cbn [drop]. by rewrite Hq, <- (assoc_L (++) back).
  - cbn [take]. destruct again; cbn [app]; by constructor.
  - destruct frame as [fr|]; cbn [option_list option_rect app take]; [|by constructor]. rewrite fmap_cons.
    destruct (Hfr fr eq_refl) as (_ & -> & _). by constructor.
  - apply Forall_app. split; [|done]. destruct frame as [fr|]; cbn; constructor; [|constructor]. destruct (Hfr fr eq_refl) as (? & _ & ? & _). by split.
  - rewrite stotal_app, Z.add_assoc. destruct frame as [fr|]; [|done]. apply last_cons_fits; [done|]. intros ->.
    change (stotal []) with 0. cbn [option_list option_rect]. rewrite stotal_one. unfold last_fits. cbn [last].
    pose proof (withoutDataLen_fits fr id (maxLen - length) ltac:(unfold MinStreamFrameSize in *; lia) (Hfr fr eq_refl)). lia.
  - intros Hk'. rewrite stotal_app, (Z.add_assoc length). apply Hfull. cbn in Hk'. lia.
Qed.

Lemma wp_appendStreams old : forall back frames length maxLen f, fr_inv f -> fqueue f = old ++ back ->
  0 <= length -> maxLen <= MaxPacketBufferSize - 2 ->
  wp (appendStreams (List.length old) frames length maxLen) (fun r f' => exists added k more,
    r = (frames ++ added, length + stotal added) /\ rounds old back length maxLen f added k more f') noErr f.
Proof.
  induction old as [|id old IH]; intros back frames length maxLen f Hf Eq Hl Hmax; [apply wp_ret; by apply rounds_none|].
  cbn [List.length]. eapply wp_eq; [apply appendStreams_popOne|].
  destruct (Z.ltb_spec maxLen (MinStreamFrameSize + length)) as [Hlt|Hge]; [apply wp_ret; by apply rounds_none|].
  apply wp_bind. eapply (wp_mono _ _ _ noErr noErr); [|by intros|apply (wp_popOne _ _ _ id (old ++ back)); done]. intros frame f1 (again & Hf1 & Eq1 & Hc1 & Hfr).
  rewrite <- (assoc_L (++)) in Eq1.
  assert (Hk : wp (appendStreams (List.length old) (frames ++ option_list frame) (length + stotal (option_list frame)) maxLen)
    (fun r f' => exists added k more, r = (frames ++ added, length + stotal added) /\ rounds (id :: old) back length maxLen f added k more f') noErr f1).
  { eapply (wp_mono _ _ _ noErr noErr); [|by intros|apply (IH (back ++ if again then [id] else [])); try done].
    - intros r f' (added & k & more & -> & Hr). exists (option_list frame ++ added), (S k), ((if again then [id] else []) ++ more).
      split; [rewrite stotal_app, (assoc_L (++)); f_equal; lia|]. by eapply rounds_cons.
    - pose proof (total_nonneg (FStream <$> option_list frame)). unfold stotal. lia. }
  destruct frame as [fr|]; cbn [option_list option_rect] in Hk.
  - eapply wp_bind, wp_lift; [apply stream_length; by destruct (Hfr fr eq_refl)|]. by rewrite stotal_one in Hk.
  - change (stotal []) with 0 in Hk. by rewrite app_nil_r, Z.add_0_r in Hk.
Qed.

(** [AppendStreamFrames] as a whole: the last frame has lost its length field. *)
Definition strip_last (added : list StreamFrame) : list StreamFrame :=
  match last added with None => [] | Some fr => take (List.length added - 1) added ++ [withoutDataLen fr] end.

Lemma wp_AppendStreamFrames frames maxLen f : fr_inv f -> maxLen <= MaxPacketBufferSize - 2 ->
  wp (AppendStreamFrames frames maxLen) (fun r f' => exists added k more,
    r = (frames ++ strip_last added, stotal (strip_last added)) /\ (0 <= maxLen -> stotal (strip_last added) <= maxLen) /\
    rounds (fqueue f) [] 0 maxLen f added k more f') noErr f.
Proof.
  intros Hf Hmax. apply wp_bind, wp_get, wp_bind. rewrite <- length_queue by apply Hf.
  eapply (wp_mono _ _ _ noErr noErr); [|by intros|apply (wp_appendStreams _ []); try done; by rewrite app_nil_r].
  intros r f' (added & k & more & -> & Hr). rewrite Z.add_0_l. cbv beta iota zeta.
  pose proof (ro_framed _ _ _ _ _ _ _ _ _ Hr) as Hfrd. pose proof (ro_fits _ _ _ _ _ _ _ _ _ Hr) as Hfits.
  destruct (last added) as [fr|] eqn:El.
  - apply last_Some in El as [fs ->]. assert (Hlt : blen frames < blen (frames ++ fs ++ [fr])) by (unfold blen; rewrite !length_app; cbn; lia).
    apply Z.ltb_lt in Hlt as ->.
    rewrite (assoc_L (++)), last_snoc. apply Forall_app in Hfrd as [_ [Hs Hd]%Forall_singleton].
    destruct (withoutDataLen_spec fr Hs Hd) as (Hs' & _ & _).
    eapply wp_bind, wp_lift; [by apply stream_length|]. eapply wp_bind, wp_lift; [by apply stream_length|]. apply wp_ret.
    exists (fs ++ [fr]), k, more. unfold last_fits, strip_last in *. rewrite last_snoc in *.
    assert (Htake : forall l : list StreamFrame, take (List.length (l ++ [fr]) - 1) (l ++ [fr]) = l)
      by (intros l; rewrite length_app, Nat.add_sub; apply take_app_length).
    rewrite !Htake, !stotal_app, !stotal_one.
    rewrite stotal_app, stotal_one in Hfits.
    split_and!; [apply f_equal2; [by rewrite <- ?(assoc_L (++))|]; lia|lia|done].
  - apply last_None in El as ->. rewrite app_nil_r, Z.ltb_irrefl. apply wp_ret.
    exists [], k, more. split_and!; [by rewrite app_nil_r|done|done].
Qed.

Lemma wp_Handle0RTT f : fr_inv f ->
  wp fr_Handle0RTTRejection (fun _ f' => fr_inv f' /\ fqueue f' = [] /\ frControlFrames f' `sublist_of` frControlFrames f)
     (fun _ f' => frControlFrameMutex f' = true) f.
Proof.
  intros Hf. apply wp_bind, wp_lockControl, wp_bind, wp_get; [done|]. destruct (keepControl _) as [kept ok] eqn:Ek.
  destruct ok; [|by apply wp_bind, wp_modify]. apply wp_modify. destruct (Clear_spec 0 _ (fi_ring f Hf)) as [Hr Eq].
  assert (Hsub : kept `sublist_of` frControlFrames f).
  { clear -Ek. revert kept Ek. induction (frControlFrames f) as [|c cs IH]; intros kept Ek; cbn in Ek; [by injection Ek as <-|].
    destruct c; try done; try (by constructor; apply IH); destruct (keepControl cs) as [kept' ok']; injection Ek as <- ->; constructor; by apply IH. }
  split_and!; [|done|done]. destruct Hf as [? ? ? ? Hc ?]. constructor; cbn [frStreamQueue frActiveStreams frControlFrames]; try done; [rewrite Eq; constructor|intros id; rewrite Eq; set_solver|].
  by eapply Forall_sublist.
Qed.
End framer.

(** ** Claims *)

(** The operations of the framer. *)
Inductive fr_op := FOQueue (c : wireFrame) | FOActive (id : Z) | FOControl (maxLen : Z) | FOStreams (maxLen : Z) | FOReject.

Definition fr_op_ok (o : fr_op) : Prop :=
  match o with
  | FOQueue c => wf_sendable c
  | FOControl maxLen => 0 <= maxLen
  | FOStreams maxLen => 0 <= maxLen <= MaxPacketBufferSize - 2
  | _ => True
  end.

(** The frames an operation returns and the length it announces for them. *)
Definition fr_step {G} `{SendStreams G} (o : fr_op) : stM (framerI G) (list wireFrame * Z) :=
  match o with
  | FOQueue c => _ ← fr_QueueControlFrame c; mret ([], 0)
  | FOActive id => _ ← AddActiveStream id; mret ([], 0)
  | FOControl maxLen => AppendControlFrames [] maxLen
  | FOStreams maxLen => '(fs, l) ← AppendStreamFrames [] maxLen; mret (FStream <$> fs, l)
  | FOReject => _ ← fr_Handle0RTTRejection; mret ([], 0)
  end.

(** The framer after a sequence of operations, all of which return. *)
Inductive framer_run {G} `{SendStreams G} : framerI G -> framerI G -> Prop :=
  | framer_start f : framer_run f f
  | framer_next f f1 f' o r : framer_run f f1 -> fr_op_ok o -> fr_step o f1 = (Ok r, f') -> framer_run f f'.

Definition fr_max (o : fr_op) : Z := match o with FOControl m | FOStreams m => m | _ => 0 end.

Section claims.
Context {G : Type} `{SendStreamsLaws G}.
Implicit Types f : framerI G.

(** What an operation does to the frames and to the queue. *)
Definition fr_effect (o : fr_op) f (r : list wireFrame * Z) f' : Prop :=
  match o with
  | FOQueue c => frControlFrames f' = frControlFrames f ++ [c] /\ queue (frStreamQueue f') = queue (frStreamQueue f)
  | FOActive id => frControlFrames f' = frControlFrames f /\
      queue (frStreamQueue f') = (let q := queue (frStreamQueue f) in if bool_decide (id ∈ q) then q else q ++ [id])
  | FOControl maxLen => frControlFrames f = frControlFrames f' ++ rev r.1 /\ queue (frStreamQueue f') = queue (frStreamQueue f) /\
      (forall c, last (frControlFrames f') = Some c -> maxLen < total r.1 + wlen c)
  | FOStreams maxLen => frControlFrames f' = frControlFrames f /\ exists fs k more,
      r.1 = FStream <$> fs /\ queue (frStreamQueue f') = drop k (queue (frStreamQueue f)) ++ more /\
      more `sublist_of` take k (queue (frStreamQueue f)) /\ (sfStreamID <$> fs) `sublist_of` take k (queue (frStreamQueue f)) /\
      (MinStreamFrameSize <= maxLen -> queue (frStreamQueue f) <> [] -> (0 < k)%nat)
  | FOReject => frControlFrames f' `sublist_of` frControlFrames f /\ queue (frStreamQueue f') = []
  end.

Lemma strip_last_ids added : sfStreamID <$> strip_last added = sfStreamID <$> added.
Proof.
  unfold strip_last. destruct (last added) as [fr|] eqn:El; [|by apply last_None in El as ->].
  apply last_Some in El as [fs ->]. rewrite length_app, Nat.add_sub, take_app_length, !fmap_app. done.
Qed.

Lemma strip_last_sendable added : Forall framed added -> Forall frame_sendable (strip_last added).
Proof.
  intros Ha. unfold strip_last. destruct (last added) as [fr|] eqn:El; [|constructor]. apply last_Some in El as [fs ->].
  rewrite length_app, Nat.add_sub, take_app_length. apply Forall_app in Ha as [Hfs [Hs Hd]%Forall_singleton]. apply Forall_app. split.
  - eapply Forall_impl; [exact Hfs|]. by intros ? [? _].
  - apply Forall_singleton. by destruct (withoutDataLen_spec fr Hs Hd).
Qed.

(** An operation from a state that satisfies the invariant. *)
Lemma fr_step_spec o f : fr_inv f -> fr_op_ok o ->
  wp (fr_step o) (fun r f' => fr_inv f' /\ Forall wf_sendable r.1 /\ r.2 = total r.1 /\ r.2 <= fr_max o /\ fr_effect o f r f')
     (fun _ f' => o = FOReject /\ frControlFrameMutex f' = true) f.
Proof.
  intros Hf Ho. destruct o as [c|id|maxLen|maxLen|]; cbn [fr_step fr_op_ok] in *.
  - apply wp_bind. eapply (wp_mono _ _ _ (fun _ _ => False)); [|by intros ? ? []|by apply wp_QueueControlFrame]. intros [] f' (Hi & Hq & Hc). apply wp_ret.
    by split_and!; try done; constructor.
  - apply wp_bind. eapply (wp_mono _ _ _ (fun _ _ => False)); [|by intros ? ? []|by apply wp_AddActiveStream]. intros [] f' (Hi & Hc & Hq). apply wp_ret.
    by split_and!; try done; constructor.
  - eapply (wp_mono _ _ _ (fun _ _ => False)); [|by intros ? ? []|by apply wp_AppendControlFrames].
    intros r f' (kept & added & Hi & Hq & Hc & <- & -> & Hl & Hfull). cbn in *. split_and!; try done.
    pose proof (fi_control f Hf) as Hs. rewrite Hc in Hs. apply Forall_app in Hs as [_ Hs]. rewrite <- (rev_involutive added). by apply Forall_rev.
  - apply wp_bind. eapply (wp_mono _ _ _ (fun _ _ => False)); [|by intros ? ? []|apply wp_AppendStreamFrames; [done|lia]].
    intros r f' (added & k & more & -> & Hl & Hr). apply wp_ret. cbn [fst snd app].
    split_and!; [by destruct Hr| |done|apply Hl, Ho|split; [by destruct Hr|]].
    + apply Forall_fmap. eapply Forall_impl; [eapply strip_last_sendable; by destruct Hr|]. done.
    + exists (strip_last added), k, more. rewrite strip_last_ids. destruct Hr. split_and!; try done.
      intros Hmin Hne. destruct (decide (k = 0%nat)) as [->|?]; [|lia]. exfalso.
      assert (added = []) as ->. { destruct added; [done|]. cbn in ro_ids0. by apply sublist_nil_r in ro_ids0. }
      change (stotal []) with 0 in ro_full0. destruct (queue (frStreamQueue f)); [done|]. cbn in ro_full0. lia.
  - apply wp_bind. eapply (wp_mono _ _ _ (fun _ f' => frControlFrameMutex f' = true)); [|done|by apply wp_Handle0RTT]. intros [] f' (Hi & Hq & Hc). apply wp_ret.
    by split_and!; try done; constructor.
Qed.

Lemma framer_run_inv f f' : fr_inv f -> framer_run f f' -> fr_inv f'.
Proof.
  intros Hf. induction 1 as [|f f1 f' o r _ IH Ho E]; [done|]. pose proof (fr_step_spec o f1 (IH Hf) Ho) as Hw.
  unfold wp in Hw. rewrite E in Hw. by destruct Hw.
Qed.

(** C29: The frames of the framer fit.  From the start, over any streams that keep
    their promises, every operation returns, without a panic, whatever operations
    came before ([Handle0RTTRejection] can fail), and the frames that it returns
    are well formed, take up exactly the number of bytes that it announces and are
    within the limit.  The control frames come last in first out, as many as fit.
    The streams come in turn: the first [k] streams of the queue are asked, at
    least the first one if there is room for a frame, those that have more to send
    move to the end of the queue in the same order, no stream is asked twice.  A
    stream is in the queue exactly if it is active, and only once. *)
Theorem framer_fits_in_turn (g : G) f o : ss_ok g -> framer_run (newFramer g) f -> fr_op_ok o ->
  NoDup (queue (frStreamQueue f)) /\ (forall id, id ∈ frActiveStreams f <-> id ∈ queue (frStreamQueue f)) /\
  match fr_step o f with
  | (Ok r, f') => Forall wf_sendable r.1 /\ r.2 = total r.1 /\ r.2 <= fr_max o /\ fr_effect o f r f'
  | (Err _, _) => o = FOReject
  | (Panic _, _) => False
  end.
Proof.
  intros Hg Hrun Ho. assert (Hf : fr_inv f) by (eapply framer_run_inv; [by apply newFramer_inv|done]).
  split; [apply Hf|]. split; [apply Hf|]. pose proof (fr_step_spec o f Hf Ho) as Hw. unfold wp in Hw.
  destruct (fr_step o f) as [[r|e|p] f']; [by destruct Hw|by destruct Hw|done].
Qed.
End claims.

(** A connection with one stream, which has three bytes to send. *)
Definition ex_written : res _ :=
  tx_run (tx_start 4 (ex_stream, NewConnectionFlowController 1000 3000 None))
    [TxFlow (fun sc => (sc.1, conn_set (UpdateSendWindow 800 (connBase sc.2)) sc.2)); TxWrite [1; 2; 3] 5].

Definition ex_streams : gmap Z (sendStream (streamFlowController * connectionFlowController)%type) :=
  match ex_written with Ok st => {[4 := tyStream st]} | _ => ∅ end.

Lemma ex_streams_ok : ss_ok ex_streams.
Proof.
  assert (Hi : do_post ex_written).
  { apply (tx_run_inv _ []).
    - apply tx_start_inv; [|done|by vm_compute].
      split; (split; [vm_compute; split; congruence|]; split; [vm_compute; reflexivity|]; split; [vm_compute; congruence|]; split; constructor).
    - constructor; [|constructor; [|constructor]]; [intros [s c] [Hs Hc]; split; [|done]; split; [done|]; by apply UpdateSendWindow_ok|].
      repeat apply Forall_cons_2; unfold is_u8; lia || apply Forall_nil_2. }
  change (streams_ok ex_streams). unfold ex_streams.
  destruct ex_written as [st|e|m] eqn:E; [|done|done]. destruct Hi as [sent Hi].
  intros id s [<- <-]%lookup_singleton_Some. split_and!; [| |exists sent; apply Hi]; vm_compute in E; injection E as <-; [done|].
  split; [by intros f [= <-]|constructor].
Qed.

Lemma framer_fits_in_turn_witness :
  exists f f', fr_step (FOActive 4) (newFramer ex_streams) = (Ok ([], 0), f) /\
    fr_step (FOStreams 200) f = (Ok ([FStream (mkStream 4 0 [1; 2; 3] false false)], 5), f') /\ queue (frStreamQueue f') = [].
Proof.
  destruct (fr_step (FOActive 4) (newFramer ex_streams)) as [r f] eqn:E1. exists f.
  destruct (fr_step (FOStreams 200) f) as [r' f'] eqn:E2. exists f'.
  assert (Er : r = Ok ([], 0)) by (change r with (r, f).1; rewrite <- E1; vm_compute; reflexivity). subst r.
  pose proof (framer_fits_in_turn ex_streams f (FOStreams 200)) as Hc. rewrite E2 in Hc. split; [reflexivity|].
  destruct Hc as (_ & _ & Hc).
  - exact ex_streams_ok.
  - eapply (framer_next _ _ _ (FOActive 4)); [apply framer_start|exact I|exact E1].
  - vm_compute. split; congruence.
  - assert (Ef : f = (fr_step (FOActive 4) (newFramer ex_streams)).2) by by rewrite E1.
    assert (E' : r' = Ok ([FStream (mkStream 4 0 [1; 2; 3] false false)], 5)).
    { change r' with (r', f').1. rewrite <- E2, Ef. vm_compute. reflexivity. }
    rewrite E'. split; [reflexivity|]. change f' with (r', f').2. rewrite <- E2, Ef. vm_compute. reflexivity.
Defined.

(** The frames that a client cannot have queued before the handshake. *)
Definition is_max (c : wireFrame) : bool := match c with FMaxData _ | FMaxStreamData _ | FMaxStreams _ => true | _ => false end.

Lemma keepControl_max cs : (keepControl cs).2 = negb (existsb is_max cs).
Proof. induction cs as [|c cs IH]; cbn; [done|]. destruct c; cbn; try done; by destruct (keepControl cs). Qed.

(** The error path of [Handle0RTTRejection]: if a MAX_DATA, MAX_STREAM_DATA or
    MAX_STREAMS frame is queued, it returns without releasing the mutex, and the
    next call that needs the control frames waits forever. *)
Theorem rejection_error_keeps_mutex {G} `{SendStreams G} (f : framerI G) : frControlFrameMutex f = false ->
  existsb is_max (frControlFrames f) = true ->
  exists e f', fr_Handle0RTTRejection f = (Err e, f') /\
    (forall c, (fr_QueueControlFrame c f').1 = Panic "deadlock: controlFrameMutex is locked") /\
    (forall frames maxLen, (AppendControlFrames frames maxLen f').1 = Panic "deadlock: controlFrameMutex is locked").
Proof.
  intros Hm Hmax. pose proof (keepControl_max (frControlFrames f)) as Hk. rewrite Hmax in Hk.
  unfold fr_Handle0RTTRejection, lockControl, mbind, stM_bind, get. rewrite Hm. cbn [mret stM_ret].
  destruct (keepControl (frControlFrames f)) as [kept ok]. cbn in Hk. subst ok. unfold mret, stM_ret, modify, throw. eauto.
Qed.

Lemma rejection_error_keeps_mutex_witness :
  exists e f', fr_Handle0RTTRejection (mkFramer ex_streams ∅ ring_zero [FMaxData (mkMaxData 5)] false) = (Err e, f') /\
    forall c, (fr_QueueControlFrame c f').1 = Panic "deadlock: controlFrameMutex is locked".
Proof.
  destruct (rejection_error_keeps_mutex (mkFramer ex_streams ∅ ring_zero [FMaxData (mkMaxData 5)] false)) as (e & f' & E & Hq & _);
    [reflexivity|reflexivity|]. exists e, f'. split; [exact E|exact Hq].
Defined.
