(* ===== verification/TransportParams.v ===== *)
(** * TransportParams: the parameters that the endpoints exchange

    Models internal/wire/transport_parameters.go: serialization, parsing with its
    checks, the variant for session tickets and the comparisons for 0-RTT. *)

From S2P Require Import Prelude Protocol Varint Frames FrameParser Headers.
From stdpp Require Import base numbers list option strings sorting.
From Stdlib Require Import ZArith Lia.
#[local] Open Scope Z_scope.

Definition DefaultActiveConnectionIDLimit : Z := 2.
Definition MaxAckDelayExponent : Z := 20.
Definition DefaultMaxAckDelay : Z := 25 * Millisecond.
Definition MaxMaxAckDelay : Z := (2 ^ 14 - 1) * Millisecond.
Definition MinRemoteIdleTimeout : Z := 5 * Second.
Definition TransportParameterError : Z := 0x8.

Definition originalDestinationConnectionIDParameterID : Z := 0x0.
Definition maxIdleTimeoutParameterID : Z := 0x1.
Definition statelessResetTokenParameterID : Z := 0x2.
Definition maxUDPPayloadSizeParameterID : Z := 0x3.
Definition initialMaxDataParameterID : Z := 0x4.
Definition initialMaxStreamDataBidiLocalParameterID : Z := 0x5.
Definition initialMaxStreamDataBidiRemoteParameterID : Z := 0x6.
Definition initialMaxStreamDataUniParameterID : Z := 0x7.
Definition initialMaxStreamsBidiParameterID : Z := 0x8.
Definition initialMaxStreamsUniParameterID : Z := 0x9.
Definition ackDelayExponentParameterID : Z := 0xa.
Definition maxAckDelayParameterID : Z := 0xb.
Definition disableActiveMigrationParameterID : Z := 0xc.
Definition preferredAddressParameterID : Z := 0xd.
Definition activeConnectionIDLimitParameterID : Z := 0xe.
Definition initialSourceConnectionIDParameterID : Z := 0xf.
Definition retrySourceConnectionIDParameterID : Z := 0x10.
Definition maxDatagramFrameSizeParameterID : Z := 0x20.

Record PreferredAddress := mkPreferredAddress {
  paIPv4 : bytes; paIPv4Port : Z; paIPv6 : bytes; paIPv6Port : Z; paConnectionID : bytes; paStatelessResetToken : bytes
}.

Record TransportParameters := mkTransportParameters {
  tpInitialMaxStreamDataBidiLocal : Z;
  tpInitialMaxStreamDataBidiRemote : Z;
  tpInitialMaxStreamDataUni : Z;
  tpInitialMaxData : Z;
  tpMaxAckDelay : Z;
  tpAckDelayExponent : Z;
  tpDisableActiveMigration : bool;
  tpMaxUDPPayloadSize : Z;
  tpMaxUniStreamNum : Z;
  tpMaxBidiStreamNum : Z;
  tpMaxIdleTimeout : Z;
  tpPreferredAddress : option PreferredAddress;
  tpOriginalDestinationConnectionID : bytes;
  tpInitialSourceConnectionID : bytes;
  tpRetrySourceConnectionID : option bytes;
  tpStatelessResetToken : option bytes;
  tpActiveConnectionIDLimit : Z;
  tpMaxDatagramFrameSize : Z
}.

(** [&TransportParameters{}] *)
Definition tp_zero : TransportParameters := mkTransportParameters 0 0 0 0 0 0 false 0 0 0 0 None [] [] None None 0 0.

(** *** Assignments to the fields *)

Definition set_InitialMaxStreamDataBidiLocal x p : TransportParameters :=
  mkTransportParameters x (tpInitialMaxStreamDataBidiRemote p) (tpInitialMaxStreamDataUni p) (tpInitialMaxData p)
    (tpMaxAckDelay p) (tpAckDelayExponent p) (tpDisableActiveMigration p) (tpMaxUDPPayloadSize p)
    (tpMaxUniStreamNum p) (tpMaxBidiStreamNum p) (tpMaxIdleTimeout p) (tpPreferredAddress p)
    (tpOriginalDestinationConnectionID p) (tpInitialSourceConnectionID p) (tpRetrySourceConnectionID p)
    (tpStatelessResetToken p) (tpActiveConnectionIDLimit p) (tpMaxDatagramFrameSize p).
Definition set_InitialMaxStreamDataBidiRemote x p : TransportParameters :=
  mkTransportParameters (tpInitialMaxStreamDataBidiLocal p) x (tpInitialMaxStreamDataUni p) (tpInitialMaxData p)
    (tpMaxAckDelay p) (tpAckDelayExponent p) (tpDisableActiveMigration p) (tpMaxUDPPayloadSize p)
    (tpMaxUniStreamNum p) (tpMaxBidiStreamNum p) (tpMaxIdleTimeout p) (tpPreferredAddress p)
    (tpOriginalDestinationConnectionID p) (tpInitialSourceConnectionID p) (tpRetrySourceConnectionID p)
    (tpStatelessResetToken p) (tpActiveConnectionIDLimit p) (tpMaxDatagramFrameSize p).
Definition set_InitialMaxStreamDataUni x p : TransportParameters :=
  mkTransportParameters (tpInitialMaxStreamDataBidiLocal p) (tpInitialMaxStreamDataBidiRemote p) x
    (tpInitialMaxData p) (tpMaxAckDelay p) (tpAckDelayExponent p) (tpDisableActiveMigration p)
    (tpMaxUDPPayloadSize p) (tpMaxUniStreamNum p) (tpMaxBidiStreamNum p) (tpMaxIdleTimeout p) (tpPreferredAddress p)
    (tpOriginalDestinationConnectionID p) (tpInitialSourceConnectionID p) (tpRetrySourceConnectionID p)
    (tpStatelessResetToken p) (tpActiveConnectionIDLimit p) (tpMaxDatagramFrameSize p).
Definition set_InitialMaxData x p : TransportParameters :=
  mkTransportParameters (tpInitialMaxStreamDataBidiLocal p) (tpInitialMaxStreamDataBidiRemote p)
    (tpInitialMaxStreamDataUni p) x (tpMaxAckDelay p) (tpAckDelayExponent p) (tpDisableActiveMigration p)
    (tpMaxUDPPayloadSize p) (tpMaxUniStreamNum p) (tpMaxBidiStreamNum p) (tpMaxIdleTimeout p) (tpPreferredAddress p)
    (tpOriginalDestinationConnectionID p) (tpInitialSourceConnectionID p) (tpRetrySourceConnectionID p)
    (tpStatelessResetToken p) (tpActiveConnectionIDLimit p) (tpMaxDatagramFrameSize p).
Definition set_MaxAckDelay x p : TransportParameters :=
  mkTransportParameters (tpInitialMaxStreamDataBidiLocal p) (tpInitialMaxStreamDataBidiRemote p)
    (tpInitialMaxStreamDataUni p) (tpInitialMaxData p) x (tpAckDelayExponent p) (tpDisableActiveMigration p)
    (tpMaxUDPPayloadSize p) (tpMaxUniStreamNum p) (tpMaxBidiStreamNum p) (tpMaxIdleTimeout p) (tpPreferredAddress p)
    (tpOriginalDestinationConnectionID p) (tpInitialSourceConnectionID p) (tpRetrySourceConnectionID p)
    (tpStatelessResetToken p) (tpActiveConnectionIDLimit p) (tpMaxDatagramFrameSize p).
Definition set_AckDelayExponent x p : TransportParameters :=
  mkTransportParameters (tpInitialMaxStreamDataBidiLocal p) (tpInitialMaxStreamDataBidiRemote p)
    (tpInitialMaxStreamDataUni p) (tpInitialMaxData p) (tpMaxAckDelay p) x (tpDisableActiveMigration p)
    (tpMaxUDPPayloadSize p) (tpMaxUniStreamNum p) (tpMaxBidiStreamNum p) (tpMaxIdleTimeout p) (tpPreferredAddress p)
    (tpOriginalDestinationConnectionID p) (tpInitialSourceConnectionID p) (tpRetrySourceConnectionID p)
    (tpStatelessResetToken p) (tpActiveConnectionIDLimit p) (tpMaxDatagramFrameSize p).
Definition set_DisableActiveMigration x p : TransportParameters :=
  mkTransportParameters (tpInitialMaxStreamDataBidiLocal p) (tpInitialMaxStreamDataBidiRemote p)
    (tpInitialMaxStreamDataUni p) (tpInitialMaxData p) (tpMaxAckDelay p) (tpAckDelayExponent p) x
    (tpMaxUDPPayloadSize p) (tpMaxUniStreamNum p) (tpMaxBidiStreamNum p) (tpMaxIdleTimeout p) (tpPreferredAddress p)
    (tpOriginalDestinationConnectionID p) (tpInitialSourceConnectionID p) (tpRetrySourceConnectionID p)
    (tpStatelessResetToken p) (tpActiveConnectionIDLimit p) (tpMaxDatagramFrameSize p).
Definition set_MaxUDPPayloadSize x p : TransportParameters :=
  mkTransportParameters (tpInitialMaxStreamDataBidiLocal p) (tpInitialMaxStreamDataBidiRemote p)
    (tpInitialMaxStreamDataUni p) (tpInitialMaxData p) (tpMaxAckDelay p) (tpAckDelayExponent p)
    (tpDisableActiveMigration p) x (tpMaxUniStreamNum p) (tpMaxBidiStreamNum p) (tpMaxIdleTimeout p)
    (tpPreferredAddress p) (tpOriginalDestinationConnectionID p) (tpInitialSourceConnectionID p)
    (tpRetrySourceConnectionID p) (tpStatelessResetToken p) (tpActiveConnectionIDLimit p) (tpMaxDatagramFrameSize p).
Definition set_MaxUniStreamNum x p : TransportParameters :=
  mkTransportParameters (tpInitialMaxStreamDataBidiLocal p) (tpInitialMaxStreamDataBidiRemote p)
    (tpInitialMaxStreamDataUni p) (tpInitialMaxData p) (tpMaxAckDelay p) (tpAckDelayExponent p)
    (tpDisableActiveMigration p) (tpMaxUDPPayloadSize p) x (tpMaxBidiStreamNum p) (tpMaxIdleTimeout p)
    (tpPreferredAddress p) (tpOriginalDestinationConnectionID p) (tpInitialSourceConnectionID p)
    (tpRetrySourceConnectionID p) (tpStatelessResetToken p) (tpActiveConnectionIDLimit p) (tpMaxDatagramFrameSize p).
Definition set_MaxBidiStreamNum x p : TransportParameters :=
  mkTransportParameters (tpInitialMaxStreamDataBidiLocal p) (tpInitialMaxStreamDataBidiRemote p)
    (tpInitialMaxStreamDataUni p) (tpInitialMaxData p) (tpMaxAckDelay p) (tpAckDelayExponent p)
    (tpDisableActiveMigration p) (tpMaxUDPPayloadSize p) (tpMaxUniStreamNum p) x (tpMaxIdleTimeout p)
    (tpPreferredAddress p) (tpOriginalDestinationConnectionID p) (tpInitialSourceConnectionID p)
    (tpRetrySourceConnectionID p) (tpStatelessResetToken p) (tpActiveConnectionIDLimit p) (tpMaxDatagramFrameSize p).
Definition set_MaxIdleTimeout x p : TransportParameters :=
  mkTransportParameters (tpInitialMaxStreamDataBidiLocal p) (tpInitialMaxStreamDataBidiRemote p)
    (tpInitialMaxStreamDataUni p) (tpInitialMaxData p) (tpMaxAckDelay p) (tpAckDelayExponent p)
    (tpDisableActiveMigration p) (tpMaxUDPPayloadSize p) (tpMaxUniStreamNum p) (tpMaxBidiStreamNum p) x
    (tpPreferredAddress p) (tpOriginalDestinationConnectionID p) (tpInitialSourceConnectionID p)
    (tpRetrySourceConnectionID p) (tpStatelessResetToken p) (tpActiveConnectionIDLimit p) (tpMaxDatagramFrameSize p).
Definition set_PreferredAddress x p : TransportParameters :=
  mkTransportParameters (tpInitialMaxStreamDataBidiLocal p) (tpInitialMaxStreamDataBidiRemote p)
    (tpInitialMaxStreamDataUni p) (tpInitialMaxData p) (tpMaxAckDelay p) (tpAckDelayExponent p)
    (tpDisableActiveMigration p) (tpMaxUDPPayloadSize p) (tpMaxUniStreamNum p) (tpMaxBidiStreamNum p)
    (tpMaxIdleTimeout p) x (tpOriginalDestinationConnectionID p) (tpInitialSourceConnectionID p)
    (tpRetrySourceConnectionID p) (tpStatelessResetToken p) (tpActiveConnectionIDLimit p) (tpMaxDatagramFrameSize p).
Definition set_OriginalDestinationConnectionID x p : TransportParameters :=
  mkTransportParameters (tpInitialMaxStreamDataBidiLocal p) (tpInitialMaxStreamDataBidiRemote p)
    (tpInitialMaxStreamDataUni p) (tpInitialMaxData p) (tpMaxAckDelay p) (tpAckDelayExponent p)
    (tpDisableActiveMigration p) (tpMaxUDPPayloadSize p) (tpMaxUniStreamNum p) (tpMaxBidiStreamNum p)
    (tpMaxIdleTimeout p) (tpPreferredAddress p) x (tpInitialSourceConnectionID p) (tpRetrySourceConnectionID p)
    (tpStatelessResetToken p) (tpActiveConnectionIDLimit p) (tpMaxDatagramFrameSize p).
Definition set_InitialSourceConnectionID x p : TransportParameters :=
  mkTransportParameters (tpInitialMaxStreamDataBidiLocal p) (tpInitialMaxStreamDataBidiRemote p)
    (tpInitialMaxStreamDataUni p) (tpInitialMaxData p) (tpMaxAckDelay p) (tpAckDelayExponent p)
    (tpDisableActiveMigration p) (tpMaxUDPPayloadSize p) (tpMaxUniStreamNum p) (tpMaxBidiStreamNum p)
    (tpMaxIdleTimeout p) (tpPreferredAddress p) (tpOriginalDestinationConnectionID p) x (tpRetrySourceConnectionID p)
    (tpStatelessResetToken p) (tpActiveConnectionIDLimit p) (tpMaxDatagramFrameSize p).
Definition set_RetrySourceConnectionID x p : TransportParameters :=
  mkTransportParameters (tpInitialMaxStreamDataBidiLocal p) (tpInitialMaxStreamDataBidiRemote p)
    (tpInitialMaxStreamDataUni p) (tpInitialMaxData p) (tpMaxAckDelay p) (tpAckDelayExponent p)
    (tpDisableActiveMigration p) (tpMaxUDPPayloadSize p) (tpMaxUniStreamNum p) (tpMaxBidiStreamNum p)
    (tpMaxIdleTimeout p) (tpPreferredAddress p) (tpOriginalDestinationConnectionID p) (tpInitialSourceConnectionID p)
    x (tpStatelessResetToken p) (tpActiveConnectionIDLimit p) (tpMaxDatagramFrameSize p).
Definition set_StatelessResetToken x p : TransportParameters :=
  mkTransportParameters (tpInitialMaxStreamDataBidiLocal p) (tpInitialMaxStreamDataBidiRemote p)
    (tpInitialMaxStreamDataUni p) (tpInitialMaxData p) (tpMaxAckDelay p) (tpAckDelayExponent p)
    (tpDisableActiveMigration p) (tpMaxUDPPayloadSize p) (tpMaxUniStreamNum p) (tpMaxBidiStreamNum p)
    (tpMaxIdleTimeout p) (tpPreferredAddress p) (tpOriginalDestinationConnectionID p) (tpInitialSourceConnectionID p)
    (tpRetrySourceConnectionID p) x (tpActiveConnectionIDLimit p) (tpMaxDatagramFrameSize p).
Definition set_ActiveConnectionIDLimit x p : TransportParameters :=
  mkTransportParameters (tpInitialMaxStreamDataBidiLocal p) (tpInitialMaxStreamDataBidiRemote p)
    (tpInitialMaxStreamDataUni p) (tpInitialMaxData p) (tpMaxAckDelay p) (tpAckDelayExponent p)
    (tpDisableActiveMigration p) (tpMaxUDPPayloadSize p) (tpMaxUniStreamNum p) (tpMaxBidiStreamNum p)
    (tpMaxIdleTimeout p) (tpPreferredAddress p) (tpOriginalDestinationConnectionID p) (tpInitialSourceConnectionID p)
    (tpRetrySourceConnectionID p) (tpStatelessResetToken p) x (tpMaxDatagramFrameSize p).
Definition set_MaxDatagramFrameSize x p : TransportParameters :=
  mkTransportParameters (tpInitialMaxStreamDataBidiLocal p) (tpInitialMaxStreamDataBidiRemote p)
    (tpInitialMaxStreamDataUni p) (tpInitialMaxData p) (tpMaxAckDelay p) (tpAckDelayExponent p)
    (tpDisableActiveMigration p) (tpMaxUDPPayloadSize p) (tpMaxUniStreamNum p) (tpMaxBidiStreamNum p)
    (tpMaxIdleTimeout p) (tpPreferredAddress p) (tpOriginalDestinationConnectionID p) (tpInitialSourceConnectionID p)
    (tpRetrySourceConnectionID p) (tpStatelessResetToken p) (tpActiveConnectionIDLimit p) x.

(** ** Parsing *)

Definition readNumericTransportParameter (paramID expectedLen : Z) (p : TransportParameters) : parser TransportParameters :=
  remainingLen ← reader_len;
  val ← (fun r => match varint_Read r with
                  | (Err _, r') => (Err (ErrorString "error while reading transport parameter %d: %s"), r')
                  | x => x
                  end);
  len ← reader_len;
  if negb (remainingLen - len =? expectedLen)
  then fail (ErrorString "inconsistent transport parameter length for transport parameter %#x")
  else if paramID =? initialMaxStreamDataBidiLocalParameterID then mret (set_InitialMaxStreamDataBidiLocal (i64 val) p)
  else if paramID =? initialMaxStreamDataBidiRemoteParameterID then mret (set_InitialMaxStreamDataBidiRemote (i64 val) p)
  else if paramID =? initialMaxStreamDataUniParameterID then mret (set_InitialMaxStreamDataUni (i64 val) p)
  else if paramID =? initialMaxDataParameterID then mret (set_InitialMaxData (i64 val) p)
  else if paramID =? initialMaxStreamsBidiParameterID then
    if MaxStreamCount <? i64 val then fail (ErrorString "initial_max_streams_bidi too large: %d (maximum %d)")
    else mret (set_MaxBidiStreamNum (i64 val) p)
  else if paramID =? initialMaxStreamsUniParameterID then
    if MaxStreamCount <? i64 val then fail (ErrorString "initial_max_streams_uni too large: %d (maximum %d)")
    else mret (set_MaxUniStreamNum (i64 val) p)
  else if paramID =? maxIdleTimeoutParameterID then
    mret (set_MaxIdleTimeout (Z.max MinRemoteIdleTimeout (i64 (i64 val * Millisecond))) p)
  else if paramID =? maxUDPPayloadSizeParameterID then
    if val <? 1200 then fail (ErrorString "invalid value for max_packet_size: %d (minimum 1200)")
    else mret (set_MaxUDPPayloadSize (i64 val) p)
  else if paramID =? ackDelayExponentParameterID then
    if MaxAckDelayExponent <? val then fail (ErrorString "invalid value for ack_delay_exponent: %d (maximum %d)")
    else mret (set_AckDelayExponent (u8 val) p)
  else if paramID =? maxAckDelayParameterID then
    if Z.quot MaxMaxAckDelay Millisecond <? val
    then fail (ErrorString "invalid value for max_ack_delay: %dms (maximum %dms)")
    else mret (set_MaxAckDelay (i64 (i64 val * Millisecond)) p)
  else if paramID =? activeConnectionIDLimitParameterID then
    if val <? 2 then fail (ErrorString "invalid value for active_connection_id_limit: %d (minimum 2)")
    else mret (set_ActiveConnectionIDLimit val p)
  else if paramID =? maxDatagramFrameSizeParameterID then mret (set_MaxDatagramFrameSize (i64 val) p)
  else fail (ErrorString "TransportParameter BUG: transport parameter %d not found").

Definition readPreferredAddress (expectedLen : Z) (p : TransportParameters) : parser TransportParameters :=
  remainingLen ← reader_len;
  ipv4 ← ReadFull 4;
  port4 ← ReadUint16;
  ipv6 ← ReadFull 16;
  port6 ← ReadUint16;
  connIDLen ← ReadByte;
  if (connIDLen =? 0) || (MaxConnIDLen <? connIDLen) then fail (ErrorString "invalid connection ID length: %d")
  else
    connID ← ReadConnectionID connIDLen;
    token ← ReadFull 16;
    len ← reader_len;
    if negb (remainingLen - len =? expectedLen)
    then fail (ErrorString "expected preferred_address to be %d long, read %d bytes")
    else mret (set_PreferredAddress (Some (mkPreferredAddress ipv4 port4 ipv6 port6 connID token)) p).

(** [connID, _ = protocol.ReadConnectionID(r, l)]: the error is ignored.  There are
    at least [l] bytes, so the only error is a length above 20, with which nothing
    is read and the connection ID is empty. *)
Definition readConnectionIDIgnoringError (l : Z) : parser bytes := fun r =>
  match ReadConnectionID l r with
  | (Err _, r') => (Ok [], r')
  | x => x
  end.

(** The local variables of [unmarshal]. *)
Record tpState := mkTpState {
  tsParams : TransportParameters;
  tsParameterIDs : list Z;
  tsReadOriginalDestinationConnectionID : bool;
  tsReadInitialSourceConnectionID : bool;
  tsReadActiveConnectionIDLimit : bool
}.

Definition ts_params (p : TransportParameters) (s : tpState) : tpState :=
  mkTpState p (tsParameterIDs s) (tsReadOriginalDestinationConnectionID s) (tsReadInitialSourceConnectionID s)
    (tsReadActiveConnectionIDLimit s).
Definition ts_add (id : Z) (s : tpState) : tpState :=
  mkTpState (tsParams s) (tsParameterIDs s ++ [id]) (tsReadOriginalDestinationConnectionID s)
    (tsReadInitialSourceConnectionID s) (tsReadActiveConnectionIDLimit s).
Definition ts_gotOriginal (s : tpState) : tpState :=
  mkTpState (tsParams s) (tsParameterIDs s) true (tsReadInitialSourceConnectionID s) (tsReadActiveConnectionIDLimit s).
Definition ts_gotInitial (s : tpState) : tpState :=
  mkTpState (tsParams s) (tsParameterIDs s) (tsReadOriginalDestinationConnectionID s) true (tsReadActiveConnectionIDLimit s).
Definition ts_gotLimit (s : tpState) : tpState :=
  mkTpState (tsParams s) (tsParameterIDs s) (tsReadOriginalDestinationConnectionID s) (tsReadInitialSourceConnectionID s) true.

Definition numericIDs : list Z :=
  [maxIdleTimeoutParameterID; maxUDPPayloadSizeParameterID; initialMaxDataParameterID;
   initialMaxStreamDataBidiLocalParameterID; initialMaxStreamDataBidiRemoteParameterID;
   initialMaxStreamDataUniParameterID; initialMaxStreamsBidiParameterID; initialMaxStreamsUniParameterID;
   maxAckDelayParameterID; maxDatagramFrameSizeParameterID; ackDelayExponentParameterID].

(** The switch over the parameter ID. *)
Definition readParameter (sentBy : Perspective) (paramID paramLen : Z) (s : tpState) : parser tpState :=
  let client := bool_decide (sentBy = PerspectiveClient) in
  let p := tsParams s in
  if paramID =? activeConnectionIDLimitParameterID then
    p ← readNumericTransportParameter paramID paramLen p; mret (ts_params p (ts_gotLimit s))
  else if bool_decide (paramID ∈ numericIDs) then
    p ← readNumericTransportParameter paramID paramLen p; mret (ts_params p s)
  else if paramID =? preferredAddressParameterID then
    if client then fail (ErrorString "client sent a preferred_address")
    else p ← readPreferredAddress paramLen p; mret (ts_params p s)
  else if paramID =? disableActiveMigrationParameterID then
    if negb (paramLen =? 0) then fail (ErrorString "wrong length for disable_active_migration: %d (expected empty)")
    else mret (ts_params (set_DisableActiveMigration true p) s)
  else if paramID =? statelessResetTokenParameterID then
    if client then fail (ErrorString "client sent a stateless_reset_token")
    else if negb (paramLen =? 16) then fail (ErrorString "wrong length for stateless_reset_token: %d (expected 16)")
    else token ← ReadFull 16; mret (ts_params (set_StatelessResetToken (Some token) p) s)
  else if paramID =? originalDestinationConnectionIDParameterID then
    if client then fail (ErrorString "client sent an original_destination_connection_id")
    else
      connID ← readConnectionIDIgnoringError paramLen;
      mret (ts_gotOriginal (ts_params (set_OriginalDestinationConnectionID connID p) s))
  else if paramID =? initialSourceConnectionIDParameterID then
    connID ← readConnectionIDIgnoringError paramLen;
    mret (ts_gotInitial (ts_params (set_InitialSourceConnectionID connID p) s))
  else if paramID =? retrySourceConnectionIDParameterID then
    if client then fail (ErrorString "client sent a retry_source_connection_id")
    else
      connID ← readConnectionIDIgnoringError paramLen;
      mret (ts_params (set_RetrySourceConnectionID (Some connID) p) s)
  else _ ← seek paramLen; mret s.

(** The loop over the parameters. *)
Fixpoint unmarshal_loop (fuel : nat) (sentBy : Perspective) (s : tpState) : parser tpState :=
  n ← reader_len;
  if n =? 0 then mret s
  else
    match fuel with
    | O => lift (Panic "out of fuel")
    | S fuel' =>
        paramID ← varint_Read;
        paramLen ← varint_Read;
        n ← reader_len;
        if n <? paramLen then fail (ErrorString "remaining length (%d) smaller than parameter length (%d)")
        else
          s ← readParameter sentBy paramID paramLen (ts_add paramID s);
          unmarshal_loop fuel' sentBy s
    end.

(** Two equal neighbours in the sorted list. *)
Fixpoint hasNeighbours (ids : list Z) : bool :=
  match ids with
  | [] => false
  | a :: ids' => match ids' with [] => false | b :: _ => if a =? b then true else hasNeighbours ids' end
  end.

Definition unmarshal (p : TransportParameters) (sentBy : Perspective) (fromSessionTicket : bool) : parser TransportParameters :=
  let p := set_AckDelayExponent DefaultAckDelayExponent p in
  let p := set_MaxAckDelay DefaultMaxAckDelay p in
  let p := set_MaxDatagramFrameSize InvalidByteCount p in
  n ← reader_len;
  s ← unmarshal_loop (Z.to_nat n) sentBy (mkTpState p [] false false false);
  let p := tsParams s in
  let p := if negb (tsReadActiveConnectionIDLimit s) then set_ActiveConnectionIDLimit DefaultActiveConnectionIDLimit p else p in
  if negb fromSessionTicket && bool_decide (sentBy = PerspectiveServer) && negb (tsReadOriginalDestinationConnectionID s)
  then fail (ErrorString "missing original_destination_connection_id")
  else
    let p := if negb fromSessionTicket && (tpMaxUDPPayloadSize p =? 0) then set_MaxUDPPayloadSize MaxByteCount p else p in
    if negb fromSessionTicket && negb (tsReadInitialSourceConnectionID s)
    then fail (ErrorString "missing initial_source_connection_id")
    else if hasNeighbours (merge_sort Z.le (tsParameterIDs s))
    then fail (ErrorString "received duplicate transport parameter %#x")
    else mret p.

Definition Unmarshal (data : bytes) (sentBy : Perspective) (p : TransportParameters) : res TransportParameters :=
  match (unmarshal p sentBy false data).1 with
  | Err e => Err (TransportError TransportParameterError 0 (error_text e))
  | r => r
  end.

(** ** Serialization *)

Definition marshalVarintParam (b : bytes) (id val : Z) : res bytes :=
  b ← varint_Append b id;
  l ← varint_Len val;
  b ← varint_Append b l;
  varint_Append b val.

(** A parameter that is a byte string. *)
Definition marshalBytesParam (b : bytes) (id : Z) (val : bytes) : res bytes :=
  b ← varint_Append b id;
  b ← varint_Append b (blen val);
  Ok (b ++ val).

Definition marshalPreferredAddress (b : bytes) (pa : PreferredAddress) : res bytes :=
  b ← varint_Append b preferredAddressParameterID;
  b ← varint_Append b (4 + 2 + 16 + 2 + 1 + blen (paConnectionID pa) + 16);
  ipv4 ← sliceOf (paIPv4 pa) (blen (paIPv4 pa) - 4) (blen (paIPv4 pa));
  Ok (b ++ ipv4 ++ putUint16 (paIPv4Port pa) ++ paIPv6 pa ++ putUint16 (paIPv6Port pa)
        ++ [u8 (blen (paConnectionID pa))] ++ paConnectionID pa ++ paStatelessResetToken pa).

Fixpoint marshalAdditional (b : bytes) (ps : list (Z * bytes)) : res bytes :=
  match ps with
  | [] => Ok b
  | (k, v) :: ps' => b ← marshalBytesParam b k v; marshalAdditional b ps'
  end.

(** [random]: the 18 random bytes; [additional]: AdditionalTransportParametersClient
    in the order of the iteration. *)
Definition Marshal (random : bytes) (additional : list (Z * bytes)) (pers : Perspective) (p : TransportParameters) : res bytes :=
  let server := bool_decide (pers = PerspectiveServer) in
  r0 ← byteAt random 0;
  r1 ← byteAt random 1;
  b ← varint_Append [] (27 + 31 * r0);
  let length := r1 mod 16 in
  b ← varint_Append b length;
  grease ← sliceOf random 2 (2 + length);
  let b := b ++ grease in
  b ← marshalVarintParam b initialMaxStreamDataBidiLocalParameterID (u64 (tpInitialMaxStreamDataBidiLocal p));
  b ← marshalVarintParam b initialMaxStreamDataBidiRemoteParameterID (u64 (tpInitialMaxStreamDataBidiRemote p));
  b ← marshalVarintParam b initialMaxStreamDataUniParameterID (u64 (tpInitialMaxStreamDataUni p));
  b ← marshalVarintParam b initialMaxDataParameterID (u64 (tpInitialMaxData p));
  b ← marshalVarintParam b initialMaxStreamsBidiParameterID (u64 (tpMaxBidiStreamNum p));
  b ← marshalVarintParam b initialMaxStreamsUniParameterID (u64 (tpMaxUniStreamNum p));
  b ← marshalVarintParam b maxIdleTimeoutParameterID (u64 (Z.quot (tpMaxIdleTimeout p) Millisecond));
  b ← marshalVarintParam b maxUDPPayloadSizeParameterID MaxPacketBufferSize;
  b ← (if negb (tpMaxAckDelay p =? DefaultMaxAckDelay)
       then marshalVarintParam b maxAckDelayParameterID (u64 (Z.quot (tpMaxAckDelay p) Millisecond)) else Ok b);
  b ← (if negb (tpAckDelayExponent p =? DefaultAckDelayExponent)
       then marshalVarintParam b ackDelayExponentParameterID (tpAckDelayExponent p) else Ok b);
  b ← (if tpDisableActiveMigration p then marshalBytesParam b disableActiveMigrationParameterID [] else Ok b);
  b ← (if server then
         b ← match tpStatelessResetToken p with
             | Some token => marshalBytesParam b statelessResetTokenParameterID token
             | None => Ok b
             end;
         b ← marshalBytesParam b originalDestinationConnectionIDParameterID (tpOriginalDestinationConnectionID p);
         match tpPreferredAddress p with Some pa => marshalPreferredAddress b pa | None => Ok b end
       else Ok b);
  b ← (if negb (tpActiveConnectionIDLimit p =? DefaultActiveConnectionIDLimit)
       then marshalVarintParam b activeConnectionIDLimitParameterID (tpActiveConnectionIDLimit p) else Ok b);
  b ← marshalBytesParam b initialSourceConnectionIDParameterID (tpInitialSourceConnectionID p);
  b ← match tpRetrySourceConnectionID p with
      | Some connID => if server then marshalBytesParam b retrySourceConnectionIDParameterID connID else Ok b
      | None => Ok b
      end;
  b ← (if negb (tpMaxDatagramFrameSize p =? InvalidByteCount)
       then marshalVarintParam b maxDatagramFrameSizeParameterID (u64 (tpMaxDatagramFrameSize p)) else Ok b);
  if bool_decide (pers = PerspectiveClient) && (0 <? blen additional) then marshalAdditional b additional else Ok b.

(** ** Session tickets *)

Definition transportParameterMarshalingVersion : Z := 1.

Definition MarshalForSessionTicket (b : bytes) (p : TransportParameters) : res bytes :=
  b ← varint_Append b transportParameterMarshalingVersion;
  b ← marshalVarintParam b initialMaxStreamDataBidiLocalParameterID (u64 (tpInitialMaxStreamDataBidiLocal p));
  b ← marshalVarintParam b initialMaxStreamDataBidiRemoteParameterID (u64 (tpInitialMaxStreamDataBidiRemote p));
  b ← marshalVarintParam b initialMaxStreamDataUniParameterID (u64 (tpInitialMaxStreamDataUni p));
  b ← marshalVarintParam b initialMaxDataParameterID (u64 (tpInitialMaxData p));
  b ← marshalVarintParam b initialMaxStreamsBidiParameterID (u64 (tpMaxBidiStreamNum p));
  b ← marshalVarintParam b initialMaxStreamsUniParameterID (u64 (tpMaxUniStreamNum p));
  b ← (if negb (tpMaxDatagramFrameSize p =? InvalidByteCount)
       then marshalVarintParam b maxDatagramFrameSizeParameterID (u64 (tpMaxDatagramFrameSize p)) else Ok b);
  marshalVarintParam b activeConnectionIDLimitParameterID (tpActiveConnectionIDLimit p).

Definition UnmarshalFromSessionTicket (p : TransportParameters) : parser TransportParameters :=
  version ← varint_Read;
  if negb (version =? transportParameterMarshalingVersion)
  then fail (ErrorString "unknown transport parameter marshaling version: %d")
  else unmarshal p PerspectiveServer true.

Definition datagramReduced (p saved : TransportParameters) : bool :=
  negb (tpMaxDatagramFrameSize saved =? InvalidByteCount) &&
  ((tpMaxDatagramFrameSize p =? InvalidByteCount) || (tpMaxDatagramFrameSize p <? tpMaxDatagramFrameSize saved)).

Definition ValidFor0RTT (saved p : TransportParameters) : bool :=
  if datagramReduced p saved then false
  else
    (tpInitialMaxStreamDataBidiLocal saved <=? tpInitialMaxStreamDataBidiLocal p) &&
    (tpInitialMaxStreamDataBidiRemote saved <=? tpInitialMaxStreamDataBidiRemote p) &&
    (tpInitialMaxStreamDataUni saved <=? tpInitialMaxStreamDataUni p) &&
    (tpInitialMaxData saved <=? tpInitialMaxData p) &&
    (tpMaxBidiStreamNum saved <=? tpMaxBidiStreamNum p) &&
    (tpMaxUniStreamNum saved <=? tpMaxUniStreamNum p) &&
    (tpActiveConnectionIDLimit p =? tpActiveConnectionIDLimit saved).

Definition ValidForUpdate (saved p : TransportParameters) : bool :=
  if datagramReduced p saved then false
  else
    (tpActiveConnectionIDLimit saved <=? tpActiveConnectionIDLimit p) &&
    (tpInitialMaxData saved <=? tpInitialMaxData p) &&
    (tpInitialMaxStreamDataBidiLocal saved <=? tpInitialMaxStreamDataBidiLocal p) &&
    (tpInitialMaxStreamDataBidiRemote saved <=? tpInitialMaxStreamDataBidiRemote p) &&
    (tpInitialMaxStreamDataUni saved <=? tpInitialMaxStreamDataUni p) &&
    (tpMaxBidiStreamNum saved <=? tpMaxBidiStreamNum p) &&
    (tpMaxUniStreamNum saved <=? tpMaxUniStreamNum p).
