(* ===== verification/TransportParamsProofs.v ===== *)
(** * TransportParamsProofs: transport parameters arrive as they were sent

    Parameters survive the round trip over the wire and through a session ticket;
    arbitrary bytes are parsed without a panic to parameters within their limits. *)

From S2P Require Import Prelude Protocol Varint Frames FrameParser Headers HeaderProofs TransportParams.
From stdpp Require Import base numbers list option strings sorting.
From Stdlib Require Import ZArith Lia.
#[local] Open Scope Z_scope.

(** ** A list of parameters *)

(** A parameter on the wire, and what reading it does. *)
Record tparam := mkParam { pmID : Z; pmBody : bytes; pmRead : tpState -> tpState }.

Definition pm_bytes (q : tparam) : bytes := venc (pmID q) ++ venc (blen (pmBody q)) ++ pmBody q.
Definition pms_bytes (qs : list tparam) : bytes := concat (pm_bytes <$> qs).
Definition pm_step (s : tpState) (q : tparam) : tpState := pmRead q (ts_add (pmID q) s).

Record pm_ok (sentBy : Perspective) (q : tparam) : Prop := {
  pm_id : is_varint (pmID q);
  pm_len : is_varint (blen (pmBody q));
  pm_read s rest : readParameter sentBy (pmID q) (blen (pmBody q)) s (pmBody q ++ rest) = (Ok (pmRead q s), rest);
  pm_ids s : tsParameterIDs (pmRead q s) = tsParameterIDs s
}.

Lemma pms_app qs qs' : pms_bytes (qs ++ qs') = pms_bytes qs ++ pms_bytes qs'.
Proof. unfold pms_bytes. by rewrite fmap_app, concat_app. Qed.

Lemma pms_cons q qs : pms_bytes (q :: qs) = pm_bytes q ++ pms_bytes qs.
Proof. done. Qed.

Lemma venc_pos i : is_varint i -> 0 < blen (venc i).
Proof. intros Hi. rewrite blen_venc by done. pose proof (vlen_range i). lia. Qed.

Lemma loop_params sentBy qs : Forall (pm_ok sentBy) qs -> forall fuel s, (length (pms_bytes qs) <= fuel)%nat ->
  unmarshal_loop fuel sentBy s (pms_bytes qs) = (Ok (foldl pm_step s qs), []).
Proof.
  induction 1 as [|q qs [Hid Hlen Hread _] _ IH]; intros fuel s Hf; [by destruct fuel|].
  rewrite pms_cons in *. pose proof (venc_pos _ Hid) as Hpos. unfold pm_bytes in *. rewrite <- !(assoc_L (++)) in Hf |- *.
  assert (Hn : 0 < blen (venc (pmID q) ++ venc (blen (pmBody q)) ++ pmBody q ++ pms_bytes qs))
    by (rewrite blen_app; pose proof (blen_nonneg (venc (blen (pmBody q)) ++ pmBody q ++ pms_bytes qs)); lia).
  destruct fuel as [|fuel]; [apply Nat.le_0_r, nil_length_inv in Hf; by rewrite Hf in Hn|]. cbn [unmarshal_loop foldl].
  erewrite parser_bind_ok by done. zfalse (blen (venc (pmID q) ++ venc (blen (pmBody q)) ++ pmBody q ++ pms_bytes qs) =? 0).
  erewrite parser_bind_ok by by apply varint_Read_venc. erewrite parser_bind_ok by by apply varint_Read_venc.
  erewrite parser_bind_ok by done. rewrite blen_app. pose proof (blen_nonneg (pms_bytes qs)).
  zfalse (blen (pmBody q) + blen (pms_bytes qs) <? blen (pmBody q)). erewrite parser_bind_ok by apply Hread. apply IH.
  unfold blen in Hpos. rewrite !length_app in Hf. lia.
Qed.

(** ** The check for duplicates *)

Lemma hasNeighbours_nodup ids : Sorted Z.le ids -> hasNeighbours ids = false <-> NoDup ids.
Proof.
  intros Hs. apply Sorted_StronglySorted in Hs; [|intros ???; lia].
  induction Hs as [|a ids Hs IH Ha]; [split; [constructor|done]|]. destruct ids as [|b ids]; cbn [hasNeighbours].
  { split; [intros _; apply NoDup_singleton|done]. }
  rewrite NoDup_cons. destruct (Z.eqb_spec a b) as [->|Hne]; [split; [done|intros [Hni _]; by destruct Hni; left]|].
  rewrite IH. split; [|by intros [? ?]]. intros Hnd. split; [|done]. intros [->|Hin]%elem_of_cons; [done|].
  apply Forall_cons in Ha as [Hab _]. inversion Hs as [|?? _ Hb]; subst. rewrite Forall_forall in Hb. specialize (Hb a Hin). lia.
Qed.

Lemma duplicates_spec ids : hasNeighbours (merge_sort Z.le ids) = false <-> NoDup ids.
Proof.
  rewrite hasNeighbours_nodup; [by rewrite merge_sort_Permutation|].
  apply Sorted_merge_sort. intros x y. lia.
Qed.

(** ** The parameters that [Marshal] writes *)

Lemma marshalVarintParam_eq b id v f : is_varint id -> is_varint v ->
  marshalVarintParam b id v = Ok (b ++ pm_bytes (mkParam id (venc v) f)).
Proof.
  intros Hid Hv. unfold marshalVarintParam, pm_bytes. cbn [pmID pmBody]. rewrite varint_Append_venc by done. cbn [mbind res_bind].
  rewrite varint_Len_vlen by apply Hv. cbn [mbind res_bind]. pose proof (vlen_range v).
  rewrite !varint_Append_venc by (done || (unfold is_varint, maxVarInt8; lia)). cbn [mbind res_bind].
  rewrite varint_Append_venc by done. rewrite blen_venc by done. by rewrite <- !(assoc_L (++)).
Qed.

Lemma marshalBytesParam_eq b id v f : is_varint id -> is_varint (blen v) ->
  marshalBytesParam b id v = Ok (b ++ pm_bytes (mkParam id v f)).
Proof.
  intros Hid Hv. unfold marshalBytesParam, pm_bytes. cbn [pmID pmBody].
  rewrite varint_Append_venc by done. cbn [mbind res_bind]. rewrite varint_Append_venc by done. cbn [mbind res_bind].
  by rewrite <- !(assoc_L (++)).
Qed.

(** *** Reading a single parameter *)

(** A number, for an ID of the given kind. *)
Definition numeric (id : Z) (v : Z) (f : TransportParameters -> TransportParameters) : tparam :=
  mkParam id (venc v) (fun s => ts_params (f (tsParams s)) s).

Lemma readNumeric_eq id v p rest : is_varint v ->
  readNumericTransportParameter id (blen (venc v)) p (venc v ++ rest) =
  (if id =? initialMaxStreamDataBidiLocalParameterID then mret (set_InitialMaxStreamDataBidiLocal v p)
   else if id =? initialMaxStreamDataBidiRemoteParameterID then mret (set_InitialMaxStreamDataBidiRemote v p)
   else if id =? initialMaxStreamDataUniParameterID then mret (set_InitialMaxStreamDataUni v p)
   else if id =? initialMaxDataParameterID then mret (set_InitialMaxData v p)
   else if id =? initialMaxStreamsBidiParameterID then
     if MaxStreamCount <? v then fail (ErrorString "initial_max_streams_bidi too large: %d (maximum %d)")
     else mret (set_MaxBidiStreamNum v p)
   else if id =? initialMaxStreamsUniParameterID then
     if MaxStreamCount <? v then fail (ErrorString "initial_max_streams_uni too large: %d (maximum %d)")
     else mret (set_MaxUniStreamNum v p)
   else if id =? maxIdleTimeoutParameterID then
     mret (set_MaxIdleTimeout (Z.max MinRemoteIdleTimeout (i64 (v * Millisecond))) p)
   else if id =? maxUDPPayloadSizeParameterID then
     if v <? 1200 then fail (ErrorString "invalid value for max_packet_size: %d (minimum 1200)")
     else mret (set_MaxUDPPayloadSize v p)
   else if id =? ackDelayExponentParameterID then
     if MaxAckDelayExponent <? v then fail (ErrorString "invalid value for ack_delay_exponent: %d (maximum %d)")
     else mret (set_AckDelayExponent (u8 v) p)
   else if id =? maxAckDelayParameterID then
     if Z.quot MaxMaxAckDelay Millisecond <? v
     then fail (ErrorString "invalid value for max_ack_delay: %dms (maximum %dms)")
     else mret (set_MaxAckDelay (i64 (v * Millisecond)) p)
   else if id =? activeConnectionIDLimitParameterID then
     if v <? 2 then fail (ErrorString "invalid value for active_connection_id_limit: %d (minimum 2)")
     else mret (set_ActiveConnectionIDLimit v p)
   else if id =? maxDatagramFrameSizeParameterID then mret (set_MaxDatagramFrameSize v p)
   else fail (ErrorString "TransportParameter BUG: transport parameter %d not found")) rest.
Proof.
  intros Hv. unfold readNumericTransportParameter. erewrite parser_bind_ok by done.
  erewrite (parser_bind_ok _ _ _ rest v) by by rewrite varint_Read_venc. erewrite parser_bind_ok by done.
  rewrite blen_app. ztrue (blen (venc v) + blen rest - blen rest =? blen (venc v)). cbn [negb].
  rewrite i64_small by (unfold is_varint, maxVarInt8 in Hv; int_range). done.
Qed.

Lemma numeric_ok sentBy id v f : id ∈ numericIDs -> is_varint v ->
  (forall p rest, readNumericTransportParameter id (blen (venc v)) p (venc v ++ rest) = (Ok (f p), rest)) ->
  pm_ok sentBy (numeric id v f).
Proof.
  intros Hid Hv Hr. assert (Hcase : (id =? activeConnectionIDLimitParameterID) = false /\ is_varint id).
  { unfold numericIDs in Hid. repeat (apply elem_of_cons in Hid as [->|Hid]; [by vm_compute|]). by apply elem_of_nil in Hid. }
  destruct Hcase as [Hne Hvid]. constructor; cbn [pmID pmBody pmRead numeric]; [done| | |done].
  - rewrite blen_venc by done. pose proof (vlen_range v). unfold is_varint, maxVarInt8. lia.
  - intros s rest. unfold readParameter. rewrite Hne, bool_decide_true by done. by erewrite parser_bind_ok by apply Hr.
Qed.

Definition opaque (id : Z) (v : bytes) : tparam := mkParam id v (fun s => s).

(** The IDs that the code knows. *)
Definition knownIDs : list Z := seqZ 0 17 ++ [32].

Lemma opaque_ok sentBy id v : is_varint id -> is_varint (blen v) -> id ∉ knownIDs -> pm_ok sentBy (opaque id v).
Proof.
  intros Hid Hv Hk. constructor; cbn [pmID pmBody pmRead opaque]; [done|done| |done]. intros s rest. unfold readParameter.
  assert (Hne : forall k, k ∈ knownIDs -> (id =? k) = false) by (intros k Hin; apply Z.eqb_neq; by intros ->).
  rewrite (Hne activeConnectionIDLimitParameterID), (Hne preferredAddressParameterID), (Hne disableActiveMigrationParameterID),
    (Hne statelessResetTokenParameterID), (Hne originalDestinationConnectionIDParameterID),
    (Hne initialSourceConnectionIDParameterID), (Hne retrySourceConnectionIDParameterID)
    by (apply (bool_decide_unpack _); vm_compute; exact I).
  rewrite bool_decide_false.
  - erewrite parser_bind_ok by done. unfold mret, stM_ret. do 2 f_equal. unfold blen. rewrite Nat2Z.id. apply drop_app_length.
  - intros Hin. apply Hk. revert Hin. clear. unfold numericIDs. intros Hin.
    repeat (apply elem_of_cons in Hin as [->|Hin]; [apply (bool_decide_unpack _); vm_compute; exact I|]). by apply elem_of_nil in Hin.
Qed.

(** *** The parameters of an endpoint *)

Record pa_ok (pa : PreferredAddress) : Prop := {
  pao_v4 : 4 <= blen (paIPv4 pa);
  pao_port4 : 0 <= paIPv4Port pa < 2 ^ 16;
  pao_v6 : blen (paIPv6 pa) = 16;
  pao_port6 : 0 <= paIPv6Port pa < 2 ^ 16;
  pao_id : 0 < blen (paConnectionID pa) <= MaxConnIDLen;
  pao_token : blen (paStatelessResetToken pa) = 16
}.

(** What the fields of [TransportParameters] can be when they are sent. *)
Record tp_ok (p : TransportParameters) : Prop := {
  to_local : is_varint (tpInitialMaxStreamDataBidiLocal p);
  to_remote : is_varint (tpInitialMaxStreamDataBidiRemote p);
  to_uni : is_varint (tpInitialMaxStreamDataUni p);
  to_data : is_varint (tpInitialMaxData p);
  to_bidis : 0 <= tpMaxBidiStreamNum p <= MaxStreamCount;
  to_unis : 0 <= tpMaxUniStreamNum p <= MaxStreamCount;
  to_idle : 0 <= tpMaxIdleTimeout p < 2 ^ 63;
  to_delay : 0 <= tpMaxAckDelay p <= MaxMaxAckDelay;
  to_exponent : 0 <= tpAckDelayExponent p <= MaxAckDelayExponent;
  to_limit : 2 <= tpActiveConnectionIDLimit p <= maxVarInt8;
  to_datagram : tpMaxDatagramFrameSize p = InvalidByteCount \/ is_varint (tpMaxDatagramFrameSize p);
  to_original : blen (tpOriginalDestinationConnectionID p) <= MaxConnIDLen;
  to_source : blen (tpInitialSourceConnectionID p) <= MaxConnIDLen;
  to_retry id : tpRetrySourceConnectionID p = Some id -> blen id <= MaxConnIDLen;
  to_token t : tpStatelessResetToken p = Some t -> blen t = 16;
  to_preferred pa : tpPreferredAddress p = Some pa -> pa_ok pa
}.

(** Durations are sent in milliseconds. *)
Definition in_ms (d : Z) : Z := Z.quot d Millisecond.

(** The IPv4 address may be in its 16-byte form. *)
Definition pa_received (pa : PreferredAddress) : PreferredAddress :=
  mkPreferredAddress (drop (length (paIPv4 pa) - 4) (paIPv4 pa)) (paIPv4Port pa) (paIPv6 pa) (paIPv6Port pa)
    (paConnectionID pa) (paStatelessResetToken pa).

Definition preferredAddressParam (pa : PreferredAddress) : tparam :=
  mkParam preferredAddressParameterID
    (drop (length (paIPv4 pa) - 4) (paIPv4 pa) ++ putUint16 (paIPv4Port pa) ++ paIPv6 pa ++ putUint16 (paIPv6Port pa)
       ++ [u8 (blen (paConnectionID pa))] ++ paConnectionID pa ++ paStatelessResetToken pa)
    (fun s => ts_params (set_PreferredAddress (Some (pa_received pa)) (tsParams s)) s).

Definition when (c : bool) (q : tparam) : list tparam := if c then [q] else [].

(** The limits, which a session ticket also contains. *)
Definition limit_params (p : TransportParameters) : list tparam :=
  [numeric initialMaxStreamDataBidiLocalParameterID (tpInitialMaxStreamDataBidiLocal p) (set_InitialMaxStreamDataBidiLocal (tpInitialMaxStreamDataBidiLocal p));
   numeric initialMaxStreamDataBidiRemoteParameterID (tpInitialMaxStreamDataBidiRemote p) (set_InitialMaxStreamDataBidiRemote (tpInitialMaxStreamDataBidiRemote p));
   numeric initialMaxStreamDataUniParameterID (tpInitialMaxStreamDataUni p) (set_InitialMaxStreamDataUni (tpInitialMaxStreamDataUni p));
   numeric initialMaxDataParameterID (tpInitialMaxData p) (set_InitialMaxData (tpInitialMaxData p));
   numeric initialMaxStreamsBidiParameterID (tpMaxBidiStreamNum p) (set_MaxBidiStreamNum (tpMaxBidiStreamNum p));
   numeric initialMaxStreamsUniParameterID (tpMaxUniStreamNum p) (set_MaxUniStreamNum (tpMaxUniStreamNum p))].

Definition datagram_param (p : TransportParameters) : tparam :=
  numeric maxDatagramFrameSizeParameterID (tpMaxDatagramFrameSize p) (set_MaxDatagramFrameSize (tpMaxDatagramFrameSize p)).

Definition active_param (p : TransportParameters) : tparam :=
  mkParam activeConnectionIDLimitParameterID (venc (tpActiveConnectionIDLimit p))
    (fun s => ts_params (set_ActiveConnectionIDLimit (tpActiveConnectionIDLimit p) (tsParams s)) (ts_gotLimit s)).

Definition server_params (p : TransportParameters) : list tparam :=
  from_option (fun t => [mkParam statelessResetTokenParameterID t (fun s => ts_params (set_StatelessResetToken (Some t) (tsParams s)) s)]) [] (tpStatelessResetToken p) ++
  [mkParam originalDestinationConnectionIDParameterID (tpOriginalDestinationConnectionID p)
     (fun s => ts_gotOriginal (ts_params (set_OriginalDestinationConnectionID (tpOriginalDestinationConnectionID p) (tsParams s)) s))] ++
  from_option (fun pa => [preferredAddressParam pa]) [] (tpPreferredAddress p).

Definition retry_params (p : TransportParameters) : list tparam :=
  from_option (fun id => [mkParam retrySourceConnectionIDParameterID id (fun s => ts_params (set_RetrySourceConnectionID (Some id) (tsParams s)) s)]) [] (tpRetrySourceConnectionID p).

Definition endpoint_params (pers : Perspective) (p : TransportParameters) : list tparam :=
  let server := bool_decide (pers = PerspectiveServer) in
  limit_params p ++
  [numeric maxIdleTimeoutParameterID (in_ms (tpMaxIdleTimeout p)) (set_MaxIdleTimeout (Z.max MinRemoteIdleTimeout (in_ms (tpMaxIdleTimeout p) * Millisecond)));
   numeric maxUDPPayloadSizeParameterID MaxPacketBufferSize (set_MaxUDPPayloadSize MaxPacketBufferSize)] ++
  when (negb (tpMaxAckDelay p =? DefaultMaxAckDelay))
    (numeric maxAckDelayParameterID (in_ms (tpMaxAckDelay p)) (set_MaxAckDelay (in_ms (tpMaxAckDelay p) * Millisecond))) ++
  when (negb (tpAckDelayExponent p =? DefaultAckDelayExponent))
    (numeric ackDelayExponentParameterID (tpAckDelayExponent p) (set_AckDelayExponent (tpAckDelayExponent p))) ++
  when (tpDisableActiveMigration p)
    (mkParam disableActiveMigrationParameterID [] (fun s => ts_params (set_DisableActiveMigration true (tsParams s)) s)) ++
  (if server then server_params p else []) ++
  when (negb (tpActiveConnectionIDLimit p =? DefaultActiveConnectionIDLimit)) (active_param p) ++
  [mkParam initialSourceConnectionIDParameterID (tpInitialSourceConnectionID p)
     (fun s => ts_gotInitial (ts_params (set_InitialSourceConnectionID (tpInitialSourceConnectionID p) (tsParams s)) s))] ++
  (if server then retry_params p else []) ++
  when (negb (tpMaxDatagramFrameSize p =? InvalidByteCount)) (datagram_param p).

(** Every one of them is read as intended. *)

Ltac eqb_ids :=
  repeat match goal with
  | |- context [?a =? ?b] =>
      let r := eval vm_compute in (a =? b) in
      lazymatch r with true => idtac | false => idtac end;
      replace (a =? b) with r by reflexivity; cbn [negb]; cbv iota
  end.

Ltac numeric_param :=
  apply numeric_ok;
  [apply (bool_decide_unpack _); vm_compute; exact I
  | |intros q rest; rewrite readNumeric_eq; [eqb_ids|]].

Lemma ms_spec d : 0 <= d < 2 ^ 63 -> is_varint (in_ms d) /\ 0 <= in_ms d * Millisecond <= d.
Proof.
  intros Hd. unfold in_ms. rewrite Z.quot_div_nonneg by (unfold Millisecond, Microsecond; lia).
  unfold Millisecond, Microsecond, is_varint, maxVarInt8 in *. pose proof (Z.div_mod d (1000 * 1000)). pose proof (Z.mod_pos_bound d (1000 * 1000)). lia.
Qed.

Lemma limit_params_ok sentBy p : tp_ok p -> Forall (pm_ok sentBy) (limit_params p).
Proof.
  intros Hp. pose proof (to_bidis p Hp). pose proof (to_unis p Hp). unfold limit_params.
  assert (is_varint (tpMaxBidiStreamNum p) /\ is_varint (tpMaxUniStreamNum p)) as [? ?]
    by (unfold is_varint, maxVarInt8, MaxStreamCount in *; lia).
  repeat (constructor; [numeric_param; try apply Hp; try done|]); [..|constructor].
  - by zfalse (MaxStreamCount <? tpMaxBidiStreamNum p).
  - by zfalse (MaxStreamCount <? tpMaxUniStreamNum p).
Qed.

Lemma small_varint n : 0 <= n <= 2 ^ 14 -> is_varint n.
Proof. unfold is_varint, maxVarInt8. lia. Qed.

Lemma datagram_param_ok sentBy p : tp_ok p -> tpMaxDatagramFrameSize p <> InvalidByteCount -> pm_ok sentBy (datagram_param p).
Proof. intros Hp Hne. destruct (to_datagram p Hp) as [?|Hv]; [done|]. by unfold datagram_param; numeric_param. Qed.

Lemma active_param_ok sentBy p : tp_ok p -> pm_ok sentBy (active_param p).
Proof.
  intros Hp. pose proof (to_limit p Hp) as Hl. assert (Hv : is_varint (tpActiveConnectionIDLimit p)) by (unfold is_varint; lia).
  constructor; cbn [active_param pmID pmBody pmRead]; [by vm_compute| | |done].
  - rewrite blen_venc by done. apply small_varint. pose proof (vlen_range (tpActiveConnectionIDLimit p)). lia.
  - intros s rest. unfold readParameter. rewrite Z.eqb_refl. erewrite (parser_bind_ok _ _ _ rest); [done|].
    rewrite readNumeric_eq by done. eqb_ids. by zfalse (tpActiveConnectionIDLimit p <? 2).
Qed.

Lemma readConnectionID_eq v rest : blen v <= MaxConnIDLen -> readConnectionIDIgnoringError (blen v) (v ++ rest) = (Ok v, rest).
Proof. intros Hv. unfold readConnectionIDIgnoringError. by rewrite ReadConnectionID_app. Qed.

(** A parameter whose ID is known: the switch selects its case. *)
Ltac switch_case :=
  unfold readParameter; cbn [pmID pmBody pmRead]; cbv zeta; vm_compute (bool_decide (_ ∈ numericIDs)); rewrite ?(bool_decide_false (PerspectiveServer = PerspectiveClient)) by done; eqb_ids; cbv zeta beta.

Lemma connID_param_ok sentBy id v f (g : bytes -> tpState -> tpState) : is_varint id -> blen v <= MaxConnIDLen ->
  (forall s r, readParameter sentBy id (blen v) s r = (connID ← readConnectionIDIgnoringError (blen v); mret (g connID s)) r) ->
  (forall s, f s = g v s) -> (forall s, tsParameterIDs (g v s) = tsParameterIDs s) -> pm_ok sentBy (mkParam id v f).
Proof.
  intros Hid Hv Hr Hf Hg. pose proof (blen_nonneg v).
  constructor; cbn [pmID pmBody pmRead]; [done|apply small_varint; unfold MaxConnIDLen in Hv; lia| |intros s; by rewrite Hf].
  intros s rest. rewrite Hr, Hf. by erewrite parser_bind_ok by by apply readConnectionID_eq.
Qed.

Lemma original_param_ok v : blen v <= MaxConnIDLen -> pm_ok PerspectiveServer
  (mkParam originalDestinationConnectionIDParameterID v (fun s => ts_gotOriginal (ts_params (set_OriginalDestinationConnectionID v (tsParams s)) s))).
Proof. intros Hv. eapply connID_param_ok; [by vm_compute|done|intros s r; switch_case; reflexivity|done|done]. Qed.

Lemma source_param_ok sentBy v : blen v <= MaxConnIDLen -> pm_ok sentBy
  (mkParam initialSourceConnectionIDParameterID v (fun s => ts_gotInitial (ts_params (set_InitialSourceConnectionID v (tsParams s)) s))).
Proof. intros Hv. eapply connID_param_ok; [by vm_compute|done|intros s r; switch_case; reflexivity|done|done]. Qed.

Lemma retry_param_ok v : blen v <= MaxConnIDLen -> pm_ok PerspectiveServer
  (mkParam retrySourceConnectionIDParameterID v (fun s => ts_params (set_RetrySourceConnectionID (Some v) (tsParams s)) s)).
Proof. intros Hv. eapply connID_param_ok; [by vm_compute|done|intros s r; switch_case; reflexivity|done|done]. Qed.

Lemma token_param_ok v : blen v = 16 -> pm_ok PerspectiveServer
  (mkParam statelessResetTokenParameterID v (fun s => ts_params (set_StatelessResetToken (Some v) (tsParams s)) s)).
Proof.
  intros Hv. constructor; cbn [pmID pmBody pmRead]; [by vm_compute|apply small_varint; lia| |done].
  intros s rest. rewrite Hv. switch_case. erewrite parser_bind_ok by by apply ReadFull_app. done.
Qed.

Lemma migration_param_ok sentBy : pm_ok sentBy
  (mkParam disableActiveMigrationParameterID [] (fun s => ts_params (set_DisableActiveMigration true (tsParams s)) s)).
Proof. constructor; cbn [pmID pmBody pmRead]; [by vm_compute|by vm_compute| |done]. intros s rest. by switch_case. Qed.

Lemma preferredAddress_param_ok pa : pa_ok pa -> pm_ok PerspectiveServer (preferredAddressParam pa).
Proof.
  intros [H4 Hp4 H6 Hp6 Hid Ht].
  assert (H4' : blen (drop (length (paIPv4 pa) - 4) (paIPv4 pa)) = 4) by (unfold blen in *; rewrite length_drop; lia).
  pose proof Hid as Hid20. unfold MaxConnIDLen in Hid20.
  assert (Hlen : blen (pmBody (preferredAddressParam pa)) = 41 + blen (paConnectionID pa)).
  { cbn [pmBody preferredAddressParam]. rewrite !blen_app, H4', H6, Ht. unfold blen at 1 2 3. cbn. lia. }
  constructor; [by vm_compute|rewrite Hlen; apply small_varint; lia| |done]. intros s rest. rewrite Hlen.
  cbn [pmID pmBody pmRead preferredAddressParam]. switch_case. erewrite (parser_bind_ok _ _ _ rest); [done|].
  unfold readPreferredAddress. erewrite parser_bind_ok by done. rewrite <- !(assoc_L (++)).
  erewrite parser_bind_ok by by apply ReadFull_app. erewrite parser_bind_ok by by apply be_get.
  erewrite parser_bind_ok by by apply ReadFull_app. erewrite parser_bind_ok by by apply be_get.
  erewrite (parser_bind_ok ReadByte) by done. rewrite u8_small by (unfold is_u8; lia).
  zfalse (blen (paConnectionID pa) =? 0). zfalse (MaxConnIDLen <? blen (paConnectionID pa)). cbn [orb].
  erewrite parser_bind_ok by (apply ReadConnectionID_app, Hid). erewrite parser_bind_ok by by apply ReadFull_app.
  erewrite parser_bind_ok by done.
  rewrite !blen_app, H4', H6, Ht, !be_len, blen_cons, blen_nil.
  ztrue (4 + (2 + (16 + (2 + (1 + 0 + (blen (paConnectionID pa) + (16 + blen rest)))))) - blen rest =? 41 + blen (paConnectionID pa)).
  done.
Qed.

Lemma idle_param_ok sentBy d : 0 <= d < 2 ^ 63 -> pm_ok sentBy
  (numeric maxIdleTimeoutParameterID (in_ms d) (set_MaxIdleTimeout (Z.max MinRemoteIdleTimeout (in_ms d * Millisecond)))).
Proof.
  intros Hd. destruct (ms_spec d Hd) as [Hv Hr]. numeric_param; [done| |done]. rewrite i64_small by int_range. reflexivity.
Qed.

Lemma payload_param_ok sentBy : pm_ok sentBy (numeric maxUDPPayloadSizeParameterID MaxPacketBufferSize (set_MaxUDPPayloadSize MaxPacketBufferSize)).
Proof. by numeric_param. Qed.

Lemma delay_param_ok sentBy d : 0 <= d <= MaxMaxAckDelay -> pm_ok sentBy
  (numeric maxAckDelayParameterID (in_ms d) (set_MaxAckDelay (in_ms d * Millisecond))).
Proof.
  intros Hd. assert (Hd' : 0 <= d < 2 ^ 63) by (unfold MaxMaxAckDelay, Millisecond, Microsecond in *; lia).
  destruct (ms_spec d Hd') as [Hv Hr]. numeric_param; [done| |done].
  assert (Hle : in_ms d <= Z.quot MaxMaxAckDelay Millisecond) by (unfold in_ms; apply Z.quot_le_mono; [done|apply Hd]).
  apply Z.ltb_ge in Hle as ->. rewrite i64_small by int_range. reflexivity.
Qed.

Lemma exponent_param_ok sentBy e : 0 <= e <= MaxAckDelayExponent -> pm_ok sentBy
  (numeric ackDelayExponentParameterID e (set_AckDelayExponent e)).
Proof.
  intros He. assert (Hv : is_varint e) by (unfold MaxAckDelayExponent in He; apply small_varint; lia).
  numeric_param; [done| |done]. destruct He as [He0 He]. pose proof He as He20. unfold MaxAckDelayExponent in He20.
  apply Z.ltb_ge in He as ->. rewrite u8_small by (unfold is_u8; lia). reflexivity.
Qed.

Lemma Forall_when sentBy (c : bool) q : (c = true -> pm_ok sentBy q) -> Forall (pm_ok sentBy) (when c q).
Proof. destruct c; intros Hq; [|constructor]. constructor; [by apply Hq|constructor]. Qed.

Lemma Forall_one {A} (P : A -> Prop) x : P x -> Forall P [x].
Proof. intros Hx. by constructor. Qed.

Lemma server_params_ok p : tp_ok p -> Forall (pm_ok PerspectiveServer) (server_params p).
Proof.
  intros Hp. unfold server_params. repeat apply Forall_app_2.
  - destruct (tpStatelessResetToken p) as [t|] eqn:E; [|constructor]. apply Forall_one, token_param_ok. by eapply to_token.
  - apply Forall_one, original_param_ok, Hp.
  - destruct (tpPreferredAddress p) as [pa|] eqn:E; [|constructor]. apply Forall_one, preferredAddress_param_ok. by eapply to_preferred.
Qed.

Lemma retry_params_ok p : tp_ok p -> Forall (pm_ok PerspectiveServer) (retry_params p).
Proof.
  intros Hp. unfold retry_params. destruct (tpRetrySourceConnectionID p) as [t|] eqn:E; [|constructor].
  apply Forall_one, retry_param_ok. by eapply to_retry.
Qed.

Lemma endpoint_params_ok pers p : tp_ok p -> Forall (pm_ok pers) (endpoint_params pers p).
Proof.
  intros Hp. unfold endpoint_params. cbv zeta. apply Forall_app_2; [by apply limit_params_ok|].
  apply Forall_app_2; [constructor; [apply idle_param_ok, Hp|apply Forall_one, payload_param_ok]|].
  apply Forall_app_2; [apply Forall_when; intros _; apply delay_param_ok, Hp|].
  apply Forall_app_2; [apply Forall_when; intros _; apply exponent_param_ok, Hp|].
  apply Forall_app_2; [apply Forall_when; intros _; apply migration_param_ok|].
  apply Forall_app_2; [case_bool_decide as Hs; [subst pers; by apply server_params_ok|constructor]|].
  apply Forall_app_2; [apply Forall_when; intros _; by apply active_param_ok|].
  apply Forall_app_2; [apply Forall_one, source_param_ok, Hp|].
  apply Forall_app_2; [case_bool_decide as Hs; [subst pers; by apply retry_params_ok|constructor]|].
  apply Forall_when. intros E. apply datagram_param_ok; [done|]. by apply negb_true_iff, Z.eqb_neq in E.
Qed.

(** *** [Marshal] writes these parameters *)

Lemma pms_one q : pms_bytes [q] = pm_bytes q.
Proof. unfold pms_bytes. cbn. by rewrite app_nil_r. Qed.

Lemma marshalPreferredAddress_eq b pa : pa_ok pa -> marshalPreferredAddress b pa = Ok (b ++ pms_bytes [preferredAddressParam pa]).
Proof.
  intros [H4 _ H6 _ Hid Ht]. pose proof Hid as Hid20. unfold MaxConnIDLen in Hid20. rewrite pms_one. unfold marshalPreferredAddress.
  rewrite varint_Append_venc by by vm_compute. cbn [mbind res_bind]. rewrite varint_Append_venc by (apply small_varint; lia). cbn [mbind res_bind].
  assert (Hs : sliceOf (paIPv4 pa) (blen (paIPv4 pa) - 4) (blen (paIPv4 pa)) = Ok (drop (length (paIPv4 pa) - 4) (paIPv4 pa))).
  { unfold sliceOf. zfalse (blen (paIPv4 pa) - 4 <? 0). zfalse (blen (paIPv4 pa) <? blen (paIPv4 pa) - 4). rewrite Z.ltb_irrefl. cbn [orb].
    unfold blen in *. f_equal. rewrite take_ge by (rewrite length_drop; lia). f_equal. lia. }
  rewrite Hs. cbn [mbind res_bind]. unfold pm_bytes. cbn [preferredAddressParam pmID pmBody]. f_equal. rewrite <- !(assoc_L (++)). do 2 f_equal.
  f_equal. f_equal. rewrite !blen_app, !be_len, H6, Ht, blen_cons, blen_nil. unfold blen at 2. rewrite length_drop. unfold blen in *. lia.
Qed.

(** Each step of [Marshal] appends to a list of parameters. *)
Lemma step_numeric qs id v f : is_varint id -> is_varint v ->
  marshalVarintParam (pms_bytes qs) id (u64 v) = Ok (pms_bytes (qs ++ [numeric id v f])).
Proof.
  intros Hid Hv. rewrite pms_app, pms_one, u64_small by (unfold is_varint, maxVarInt8 in Hv; int_range). by apply marshalVarintParam_eq.
Qed.

Lemma step_varint qs id v f : is_varint id -> is_varint v ->
  marshalVarintParam (pms_bytes qs) id v = Ok (pms_bytes (qs ++ [mkParam id (venc v) f])).
Proof. intros Hid Hv. rewrite pms_app, pms_one. by apply marshalVarintParam_eq. Qed.

Lemma step_bytes qs id v f : is_varint id -> is_varint (blen v) ->
  marshalBytesParam (pms_bytes qs) id v = Ok (pms_bytes (qs ++ [mkParam id v f])).
Proof. intros Hid Hv. rewrite pms_app, pms_one. by apply marshalBytesParam_eq. Qed.

Lemma step_when (c : bool) qs q m : (c = true -> m = Ok (pms_bytes (qs ++ [q]))) ->
  (if c then m else Ok (pms_bytes qs)) = Ok (pms_bytes (qs ++ when c q)).
Proof. intros Hm. destruct c; [by rewrite Hm|]. by rewrite app_nil_r. Qed.

Lemma connID_varint (id : bytes) : blen id <= MaxConnIDLen -> is_varint (blen id).
Proof. intros Hi. pose proof (blen_nonneg id). unfold MaxConnIDLen in Hi. apply small_varint. lia. Qed.

Lemma marshal_server p qs : tp_ok p ->
  (b ← match tpStatelessResetToken p with
       | Some token => marshalBytesParam (pms_bytes qs) statelessResetTokenParameterID token
       | None => Ok (pms_bytes qs)
       end;
   b ← marshalBytesParam b originalDestinationConnectionIDParameterID (tpOriginalDestinationConnectionID p);
   match tpPreferredAddress p with Some pa => marshalPreferredAddress b pa | None => Ok b end) =
  Ok (pms_bytes (qs ++ server_params p)).
Proof.
  intros Hp. unfold server_params.
  assert (E1 : forall f, match tpStatelessResetToken p with
    | Some token => marshalBytesParam (pms_bytes qs) statelessResetTokenParameterID token
    | None => Ok (pms_bytes qs) end = Ok (pms_bytes (qs ++ from_option (fun t => [mkParam statelessResetTokenParameterID t (f t)]) [] (tpStatelessResetToken p)))).
  { intros f. destruct (tpStatelessResetToken p) as [t|] eqn:E; cbn [from_option]; [|by rewrite app_nil_r].
    apply step_bytes; [by vm_compute|]. rewrite (to_token p Hp t E). by vm_compute. }
  erewrite E1. cbn [mbind res_bind]. erewrite step_bytes; [|by vm_compute|apply connID_varint, Hp]. cbn [mbind res_bind].
  rewrite !(assoc_L (++) qs). destruct (tpPreferredAddress p) as [pa|] eqn:E; cbn [from_option].
  - rewrite marshalPreferredAddress_eq by by eapply to_preferred. by rewrite <- pms_app, <- !(assoc_L (++)).
  - by rewrite app_nil_r, <- !(assoc_L (++)).
Qed.

Definition additional_params (additional : list (Z * bytes)) : list tparam := (fun kv => opaque kv.1 kv.2) <$> additional.

(** A parameter that is reserved for this purpose, with a random body. *)
Definition grease_param (random : bytes) : tparam :=
  match random with
  | r0 :: r1 :: rs => opaque (27 + 31 * r0) (take (Z.to_nat (r1 mod 16)) rs)
  | _ => opaque 27 []
  end.

(** The parameters that can be added to those of a client. *)
Definition additional_ok (random : bytes) (additional : list (Z * bytes)) : Prop :=
  Forall (fun kv => is_varint kv.1 /\ is_varint (blen kv.2) /\ kv.1 ∉ knownIDs) additional /\
  NoDup (pmID (grease_param random) :: additional.*1).

Lemma marshalAdditional_eq additional : Forall (fun kv => is_varint kv.1 /\ is_varint (blen kv.2) /\ kv.1 ∉ knownIDs) additional ->
  forall b, marshalAdditional b additional = Ok (b ++ pms_bytes (additional_params additional)).
Proof.
  induction 1 as [|[k v] kvs (Hk & Hv & _) _ IH]; intros b; cbn [marshalAdditional]; [unfold pms_bytes; cbn; by rewrite app_nil_r|].
  rewrite (marshalBytesParam_eq b k v (fun s => s)) by done. cbn [mbind res_bind]. rewrite IH.
  change (additional_params ((k, v) :: kvs)) with (opaque k v :: additional_params kvs). by rewrite pms_cons, <- (assoc_L (++)).
Qed.

Lemma known_spec id : id ∈ knownIDs <-> 0 <= id <= 16 \/ id = 32.
Proof. unfold knownIDs. rewrite elem_of_app, elem_of_seqZ, list_elem_of_singleton. lia. Qed.

Lemma grease_ok random sentBy : bytes_ok random -> blen random = 18 ->
  pm_ok sentBy (grease_param random) /\ (pmID (grease_param random) ∉ knownIDs) /\
  exists r0 r1, byteAt random 0 = Ok r0 /\ byteAt random 1 = Ok r1 /\ pmID (grease_param random) = 27 + 31 * r0 /\
    is_varint (27 + 31 * r0) /\
    blen (pmBody (grease_param random)) = r1 mod 16 /\ sliceOf random 2 (2 + r1 mod 16) = Ok (pmBody (grease_param random)).
Proof.
  intros Hok Hlen. destruct random as [|r0 [|r1 rs]]; [done|done|]. rewrite !blen_cons in Hlen.
  apply Forall_cons in Hok as [Hr0 Hok]. apply Forall_cons in Hok as [Hr1 _]. unfold is_u8 in Hr0, Hr1.
  pose proof (Z.mod_pos_bound r1 16 ltac:(lia)) as Hm. cbn [grease_param opaque pmBody pmID].
  assert (Hbody : blen (take (Z.to_nat (r1 mod 16)) rs) = r1 mod 16) by (unfold blen in *; rewrite length_take; lia).
  assert (Hk : 27 + 31 * r0 ∉ knownIDs) by (rewrite known_spec; lia).
  assert (Hv : is_varint (27 + 31 * r0)) by (apply small_varint; lia).
  split; [apply opaque_ok; [done|rewrite Hbody; apply small_varint; lia|done]|]. split; [done|].
  exists r0, r1. split_and!; try done. unfold sliceOf. rewrite !blen_cons.
  zfalse (2 + r1 mod 16 <? 2). zfalse (1 + (1 + blen rs) <? 2 + r1 mod 16). cbn [orb Z.ltb Z.compare].
  replace (2 + r1 mod 16 - 2) with (r1 mod 16) by lia. done.
Qed.

Definition all_params (random : bytes) (additional : list (Z * bytes)) (pers : Perspective) (p : TransportParameters) : list tparam :=
  [grease_param random] ++ endpoint_params pers p ++
  (if bool_decide (pers = PerspectiveClient) then additional_params additional else []).

Lemma Marshal_eq random additional pers p : bytes_ok random -> blen random = 18 -> tp_ok p -> additional_ok random additional ->
  Marshal random additional pers p = Ok (pms_bytes (all_params random additional pers p)).
Proof.
  intros Hr Hrl Hp Ha. destruct (grease_ok random pers Hr Hrl) as (_ & _ & r0 & r1 & E0 & E1 & Eid & Hid & Ebody & Es).
  pose proof (to_bidis p Hp). pose proof (to_unis p Hp).
  assert (is_varint (tpMaxBidiStreamNum p) /\ is_varint (tpMaxUniStreamNum p)) as [? ?] by (unfold is_varint, maxVarInt8, MaxStreamCount in *; lia).
  destruct (ms_spec (tpMaxIdleTimeout p) (to_idle p Hp)) as [Hiv _].
  destruct (ms_spec (tpMaxAckDelay p)) as [Hdv _]; [pose proof (to_delay p Hp); unfold MaxMaxAckDelay, Millisecond, Microsecond in *; lia|].
  unfold Marshal. cbv zeta. rewrite E0, E1. cbn [mbind res_bind]. rewrite varint_Append_venc by done. cbn [mbind res_bind].
  rewrite varint_Append_venc by (apply small_varint; pose proof (Z.mod_pos_bound r1 16); lia). cbn [mbind res_bind]. rewrite Es. cbn [mbind res_bind].
  rewrite <- Ebody, <- Eid, <- (assoc_L (++)).
  change (([] ++ venc (pmID (grease_param random))) ++ venc (blen (pmBody (grease_param random))) ++ pmBody (grease_param random))
    with (pm_bytes (grease_param random)). rewrite <- pms_one.
  do 4 (erewrite step_numeric; [|by vm_compute|apply Hp]; cbn [mbind res_bind]).
  do 2 (erewrite step_numeric; [|by vm_compute|done]; cbn [mbind res_bind]).
  fold (in_ms (tpMaxIdleTimeout p)). erewrite step_numeric; [|by vm_compute|done]. cbn [mbind res_bind].
  erewrite step_varint; [|by vm_compute|by vm_compute]. cbn [mbind res_bind].
  fold (in_ms (tpMaxAckDelay p)). erewrite step_when; [|intros _; apply step_numeric; [by vm_compute|done]]. cbn [mbind res_bind].
  pose proof (to_exponent p Hp). erewrite step_when; [|intros _; apply step_varint; [by vm_compute|unfold MaxAckDelayExponent in *; apply small_varint; lia]].
  cbn [mbind res_bind]. erewrite step_when; [|intros _; apply step_bytes; by vm_compute]. cbn [mbind res_bind].
  rewrite marshal_server by done.
  assert (E : forall c (qs qs' : list tparam), (if c : bool then Ok (pms_bytes (qs ++ qs')) else Ok (pms_bytes qs)) = Ok (pms_bytes (qs ++ if c then qs' else [])))
    by (intros [] qs qs'; [done|by rewrite app_nil_r]).
  rewrite E. cbn [mbind res_bind]. pose proof (to_limit p Hp).
  erewrite step_when; [|intros _; apply step_varint; [by vm_compute|unfold is_varint; lia]]. cbn [mbind res_bind].
  erewrite step_bytes; [|by vm_compute|apply connID_varint, Hp]. cbn [mbind res_bind].
  set (qs := _ ++ [mkParam initialSourceConnectionIDParameterID _ _]).
  assert (E2 : match tpRetrySourceConnectionID p with
    | Some connID => if bool_decide (pers = PerspectiveServer) then marshalBytesParam (pms_bytes qs) retrySourceConnectionIDParameterID connID else Ok (pms_bytes qs)
    | None => Ok (pms_bytes qs) end = Ok (pms_bytes (qs ++ if bool_decide (pers = PerspectiveServer) then retry_params p else []))).
  { unfold retry_params. destruct (tpRetrySourceConnectionID p) as [id|] eqn:Eid'; cbn [from_option]; [|case_bool_decide; by rewrite app_nil_r].
    case_bool_decide; [|by rewrite app_nil_r]. apply step_bytes; [by vm_compute|]. by eapply connID_varint, to_retry. }
  rewrite E2. cbn [mbind res_bind]. erewrite step_when; [|intros Hdg; apply step_numeric; [by vm_compute|]].
  2:{ destruct (to_datagram p Hp) as [Hd|]; [|done]. by rewrite Hd in Hdg. }
  cbn [mbind res_bind]. destruct Ha as [Ha _].
  assert (E3 : forall qs', (if bool_decide (pers = PerspectiveClient) && (0 <? blen additional) then marshalAdditional (pms_bytes qs') additional else Ok (pms_bytes qs')) =
    Ok (pms_bytes (qs' ++ if bool_decide (pers = PerspectiveClient) then additional_params additional else []))).
  { intros qs'. destruct (bool_decide (pers = PerspectiveClient)); cbn [andb]; [|by rewrite app_nil_r]. destruct additional as [|kv kvs]; [unfold additional_params; cbn; by rewrite app_nil_r|].
    rewrite blen_cons. pose proof (blen_nonneg kvs). ztrue (0 <? 1 + blen kvs). by rewrite marshalAdditional_eq, <- pms_app. }
  rewrite E3. unfold qs, all_params, endpoint_params, limit_params. cbv zeta. rewrite <- !(assoc_L (++)).
  match goal with |- Ok (pms_bytes ?a) = Ok (pms_bytes ?b) => assert (Eab : a = b) end; [|by rewrite Eab].
  repeat (apply f_equal2; [reflexivity|]). reflexivity.
Qed.

(** *** The IDs are distinct *)

Lemma fold_ids sentBy qs : Forall (pm_ok sentBy) qs -> forall s, tsParameterIDs (foldl pm_step s qs) = tsParameterIDs s ++ (pmID <$> qs).
Proof.
  induction 1 as [|q qs Hq _ IH]; intros s; cbn [foldl]; [by rewrite app_nil_r|]. rewrite IH. unfold pm_step.
  rewrite (pm_ids _ _ Hq). cbn [ts_add tsParameterIDs]. by rewrite <- (assoc_L (++)).
Qed.

Definition endpointIDs : list Z := [5; 6; 7; 4; 8; 9; 1; 3; 11; 10; 12; 2; 0; 13; 14; 15; 16; 32].

Lemma endpoint_ids pers p : (pmID <$> endpoint_params pers p) `sublist_of` endpointIDs.
Proof.
  assert (Hw : forall c q, (pmID <$> when c q) `sublist_of` [pmID q]) by (intros [] q; cbn; [reflexivity|apply sublist_nil_l]).
  unfold endpoint_params. cbv zeta. rewrite !fmap_app. change endpointIDs with ([5; 6; 7; 4; 8; 9] ++ [1; 3] ++ [11] ++ [10] ++ [12] ++ [2; 0; 13] ++ [14] ++ [15] ++ [16] ++ [32]).
  repeat apply sublist_app; try apply Hw; try reflexivity.
  - case_bool_decide; [|apply sublist_nil_l]. unfold server_params. rewrite !fmap_app. change [2; 0; 13] with ([2] ++ [0] ++ [13]).
    apply sublist_app; [by destruct (tpStatelessResetToken p); cbn; [reflexivity|apply sublist_nil_l]|]. apply sublist_app; [reflexivity|].
    by destruct (tpPreferredAddress p); cbn; [reflexivity|apply sublist_nil_l].
  - case_bool_decide; [|apply sublist_nil_l]. unfold retry_params. by destruct (tpRetrySourceConnectionID p); cbn; [reflexivity|apply sublist_nil_l].
Qed.

Lemma endpointIDs_spec : NoDup endpointIDs /\ forall id, id ∈ endpointIDs -> id ∈ knownIDs.
Proof.
  split; [apply (bool_decide_unpack _); vm_compute; exact I|]. intros id Hin. rewrite known_spec. unfold endpointIDs in Hin.
  repeat (apply elem_of_cons in Hin as [->|Hin]; [lia|]). by apply elem_of_nil in Hin.
Qed.

Lemma all_ids_nodup random additional pers p : bytes_ok random -> blen random = 18 -> additional_ok random additional ->
  NoDup (pmID <$> all_params random additional pers p).
Proof.
  intros Hr Hl [Ha Hnd]. destruct (grease_ok random pers Hr Hl) as (_ & Hg & _). destruct endpointIDs_spec as [Hnd' Hk].
  pose proof (endpoint_ids pers p) as Hs. assert (Hin : forall id, id ∈ pmID <$> endpoint_params pers p -> id ∈ knownIDs)
    by (intros id Hid; apply Hk; exact (elem_of_sublist _ _ _ Hid Hs)).
  unfold all_params. rewrite !fmap_app. apply NoDup_cons in Hnd as [Hga Hadd].
  assert (Hext : pmID <$> (if bool_decide (pers = PerspectiveClient) then additional_params additional else []) `sublist_of` additional.*1).
  { case_bool_decide; [|apply sublist_nil_l]. unfold additional_params. rewrite <- list_fmap_compose. reflexivity. }
  assert (Hkeys : forall id, id ∈ additional.*1 -> id ∉ knownIDs).
  { intros id Hid Hkn. apply list_elem_of_fmap in Hid as (kv & -> & Hkv). rewrite Forall_forall in Ha. by destruct (Ha kv Hkv) as (_ & _ & ?). }
  cbn [fmap list_fmap app]. apply NoDup_cons. split.
  - intros [Hin'|Hin']%elem_of_app; [by apply Hg, Hin|]. apply Hga. exact (elem_of_sublist _ _ _ Hin' Hext).
  - apply NoDup_app. split_and!; [exact (sublist_NoDup _ _ Hnd' Hs)| |exact (sublist_NoDup _ _ Hadd Hext)].
    intros id H1 H2. eapply Hkeys; [exact (elem_of_sublist _ _ _ H2 Hext)|by apply Hin].
Qed.

(** *** What the peer receives *)

(** Durations are in whole milliseconds, the idle timeout is at least 5 s, and the
    maximum payload size is the one of the implementation; a client does not send
    the parameters that only a server may send. *)
Definition received (pers : Perspective) (p : TransportParameters) : TransportParameters :=
  let server := bool_decide (pers = PerspectiveServer) in
  mkTransportParameters (tpInitialMaxStreamDataBidiLocal p) (tpInitialMaxStreamDataBidiRemote p) (tpInitialMaxStreamDataUni p)
    (tpInitialMaxData p) (in_ms (tpMaxAckDelay p) * Millisecond) (tpAckDelayExponent p) (tpDisableActiveMigration p)
    MaxPacketBufferSize (tpMaxUniStreamNum p) (tpMaxBidiStreamNum p)
    (Z.max MinRemoteIdleTimeout (in_ms (tpMaxIdleTimeout p) * Millisecond))
    (if server then pa_received <$> tpPreferredAddress p else None)
    (if server then tpOriginalDestinationConnectionID p else [])
    (tpInitialSourceConnectionID p)
    (if server then tpRetrySourceConnectionID p else None)
    (if server then tpStatelessResetToken p else None)
    (tpActiveConnectionIDLimit p) (tpMaxDatagramFrameSize p).

Definition tp_initial : TransportParameters :=
  set_MaxDatagramFrameSize InvalidByteCount (set_MaxAckDelay DefaultMaxAckDelay (set_AckDelayExponent DefaultAckDelayExponent tp_zero)).

(** The loop group by group; [x1], ... are the fields that a group leaves alone. *)

Lemma fold_limits p x5 x6 x7 x8 x11 x12 x13 x14 x15 x16 x17 x18 y1 y2 y3 y4 y9 y10 ids o i l : exists ids',
  foldl pm_step (mkTpState (mkTransportParameters y1 y2 y3 y4 x5 x6 x7 x8 y9 y10 x11 x12 x13 x14 x15 x16 x17 x18) ids o i l) (limit_params p) =
  mkTpState (mkTransportParameters (tpInitialMaxStreamDataBidiLocal p) (tpInitialMaxStreamDataBidiRemote p) (tpInitialMaxStreamDataUni p) (tpInitialMaxData p)
    x5 x6 x7 x8 (tpMaxUniStreamNum p) (tpMaxBidiStreamNum p) x11 x12 x13 x14 x15 x16 x17 x18) ids' o i l.
Proof. eexists. reflexivity. Qed.

Definition fixed_params (idle : Z) : list tparam :=
  [numeric maxIdleTimeoutParameterID (in_ms idle) (set_MaxIdleTimeout (Z.max MinRemoteIdleTimeout (in_ms idle * Millisecond)));
   numeric maxUDPPayloadSizeParameterID MaxPacketBufferSize (set_MaxUDPPayloadSize MaxPacketBufferSize)].

Lemma fold_fixed idle x1 x2 x3 x4 x5 x6 x7 x8 x9 x10 x11 x12 x13 x14 x15 x16 x17 x18 ids o i l : exists ids',
  foldl pm_step (mkTpState (mkTransportParameters x1 x2 x3 x4 x5 x6 x7 x8 x9 x10 x11 x12 x13 x14 x15 x16 x17 x18) ids o i l) (fixed_params idle) =
  mkTpState (mkTransportParameters x1 x2 x3 x4 x5 x6 x7 MaxPacketBufferSize x9 x10
    (Z.max MinRemoteIdleTimeout (in_ms idle * Millisecond)) x12 x13 x14 x15 x16 x17 x18) ids' o i l.
Proof. eexists. reflexivity. Qed.

Lemma fold_delay d x1 x2 x3 x4 x6 x7 x8 x9 x10 x11 x12 x13 x14 x15 x16 x17 x18 ids o i l : exists ids',
  foldl pm_step (mkTpState (mkTransportParameters x1 x2 x3 x4 DefaultMaxAckDelay x6 x7 x8 x9 x10 x11 x12 x13 x14 x15 x16 x17 x18) ids o i l)
    (when (negb (d =? DefaultMaxAckDelay)) (numeric maxAckDelayParameterID (in_ms d) (set_MaxAckDelay (in_ms d * Millisecond)))) =
  mkTpState (mkTransportParameters x1 x2 x3 x4 (in_ms d * Millisecond) x6 x7 x8 x9 x10 x11 x12 x13 x14 x15 x16 x17 x18) ids' o i l.
Proof.
  assert (E : in_ms DefaultMaxAckDelay * Millisecond = DefaultMaxAckDelay) by (vm_compute; reflexivity).
  destruct (Z.eqb_spec d DefaultMaxAckDelay) as [->|_]; [rewrite E|]; eexists; reflexivity.
Qed.

Lemma fold_exponent e x1 x2 x3 x4 x5 x7 x8 x9 x10 x11 x12 x13 x14 x15 x16 x17 x18 ids o i l : exists ids',
  foldl pm_step (mkTpState (mkTransportParameters x1 x2 x3 x4 x5 DefaultAckDelayExponent x7 x8 x9 x10 x11 x12 x13 x14 x15 x16 x17 x18) ids o i l)
    (when (negb (e =? DefaultAckDelayExponent)) (numeric ackDelayExponentParameterID e (set_AckDelayExponent e))) =
  mkTpState (mkTransportParameters x1 x2 x3 x4 x5 e x7 x8 x9 x10 x11 x12 x13 x14 x15 x16 x17 x18) ids' o i l.
Proof. destruct (Z.eqb_spec e DefaultAckDelayExponent) as [->|_]; eexists; reflexivity. Qed.

Lemma fold_migration (m : bool) x1 x2 x3 x4 x5 x6 x8 x9 x10 x11 x12 x13 x14 x15 x16 x17 x18 ids o i l : exists ids',
  foldl pm_step (mkTpState (mkTransportParameters x1 x2 x3 x4 x5 x6 false x8 x9 x10 x11 x12 x13 x14 x15 x16 x17 x18) ids o i l)
    (when m (mkParam disableActiveMigrationParameterID [] (fun s => ts_params (set_DisableActiveMigration true (tsParams s)) s))) =
  mkTpState (mkTransportParameters x1 x2 x3 x4 x5 x6 m x8 x9 x10 x11 x12 x13 x14 x15 x16 x17 x18) ids' o i l.
Proof. destruct m; eexists; reflexivity. Qed.

Lemma fold_server p x1 x2 x3 x4 x5 x6 x7 x8 x9 x10 x11 x13 x14 x15 x17 x18 ids o i l : exists ids',
  foldl pm_step (mkTpState (mkTransportParameters x1 x2 x3 x4 x5 x6 x7 x8 x9 x10 x11 None x13 x14 x15 None x17 x18) ids o i l) (server_params p) =
  mkTpState (mkTransportParameters x1 x2 x3 x4 x5 x6 x7 x8 x9 x10 x11 (pa_received <$> tpPreferredAddress p) (tpOriginalDestinationConnectionID p)
    x14 x15 (tpStatelessResetToken p) x17 x18) ids' true i l.
Proof. unfold server_params. destruct (tpStatelessResetToken p), (tpPreferredAddress p); eexists; reflexivity. Qed.

Lemma fold_active p x1 x2 x3 x4 x5 x6 x7 x8 x9 x10 x11 x12 x13 x14 x15 x16 x17 x18 ids o i l : exists ids' limit l',
  foldl pm_step (mkTpState (mkTransportParameters x1 x2 x3 x4 x5 x6 x7 x8 x9 x10 x11 x12 x13 x14 x15 x16 x17 x18) ids o i l)
    (when (negb (tpActiveConnectionIDLimit p =? DefaultActiveConnectionIDLimit)) (active_param p)) =
  mkTpState (mkTransportParameters x1 x2 x3 x4 x5 x6 x7 x8 x9 x10 x11 x12 x13 x14 x15 x16 limit x18) ids' o i l' /\
  (l = false -> (if l' then limit else DefaultActiveConnectionIDLimit) = tpActiveConnectionIDLimit p).
Proof.
  destruct (Z.eqb_spec (tpActiveConnectionIDLimit p) DefaultActiveConnectionIDLimit) as [->|_]; do 3 eexists; (split; [reflexivity|]); [by intros ->|done].
Qed.

Lemma fold_source v x1 x2 x3 x4 x5 x6 x7 x8 x9 x10 x11 x12 x13 x14 x15 x16 x17 x18 ids o i l : exists ids',
  foldl pm_step (mkTpState (mkTransportParameters x1 x2 x3 x4 x5 x6 x7 x8 x9 x10 x11 x12 x13 x14 x15 x16 x17 x18) ids o i l)
    [mkParam initialSourceConnectionIDParameterID v (fun s => ts_gotInitial (ts_params (set_InitialSourceConnectionID v (tsParams s)) s))] =
  mkTpState (mkTransportParameters x1 x2 x3 x4 x5 x6 x7 x8 x9 x10 x11 x12 x13 v x15 x16 x17 x18) ids' o true l.
Proof. eexists. reflexivity. Qed.

Lemma fold_retry p x1 x2 x3 x4 x5 x6 x7 x8 x9 x10 x11 x12 x13 x14 x16 x17 x18 ids o i l : exists ids',
  foldl pm_step (mkTpState (mkTransportParameters x1 x2 x3 x4 x5 x6 x7 x8 x9 x10 x11 x12 x13 x14 None x16 x17 x18) ids o i l) (retry_params p) =
  mkTpState (mkTransportParameters x1 x2 x3 x4 x5 x6 x7 x8 x9 x10 x11 x12 x13 x14 (tpRetrySourceConnectionID p) x16 x17 x18) ids' o i l.
Proof. unfold retry_params. destruct (tpRetrySourceConnectionID p); eexists; reflexivity. Qed.

Lemma fold_datagram p x1 x2 x3 x4 x5 x6 x7 x8 x9 x10 x11 x12 x13 x14 x15 x16 x17 ids o i l : exists ids',
  foldl pm_step (mkTpState (mkTransportParameters x1 x2 x3 x4 x5 x6 x7 x8 x9 x10 x11 x12 x13 x14 x15 x16 x17 InvalidByteCount) ids o i l)
    (when (negb (tpMaxDatagramFrameSize p =? InvalidByteCount)) (datagram_param p)) =
  mkTpState (mkTransportParameters x1 x2 x3 x4 x5 x6 x7 x8 x9 x10 x11 x12 x13 x14 x15 x16 x17 (tpMaxDatagramFrameSize p)) ids' o i l.
Proof. destruct (Z.eqb_spec (tpMaxDatagramFrameSize p) InvalidByteCount) as [->|_]; eexists; reflexivity. Qed.

Lemma fold_additional kvs : forall s, exists ids',
  foldl pm_step s (additional_params kvs) =
  mkTpState (tsParams s) ids' (tsReadOriginalDestinationConnectionID s) (tsReadInitialSourceConnectionID s) (tsReadActiveConnectionIDLimit s).
Proof.
  induction kvs as [|kv kvs IH]; intros s; [exists (tsParameterIDs s); by destruct s|].
  change (additional_params (kv :: kvs)) with (opaque kv.1 kv.2 :: additional_params kvs). cbn [foldl].
  destruct (IH (pm_step s (opaque kv.1 kv.2))) as [ids' ->]. by exists ids'.
Qed.

Ltac fold_step lem :=
  let ids := fresh "ids" in let E := fresh "E" in edestruct lem as [ids E]; erewrite E; clear E.

Lemma all_effect random additional pers p : exists ids o limit l,
  foldl pm_step (mkTpState tp_initial [] false false false) (all_params random additional pers p) =
    mkTpState (set_ActiveConnectionIDLimit limit (received pers p)) ids o true l /\
  (pers = PerspectiveServer -> o = true) /\ (if l then limit else DefaultActiveConnectionIDLimit) = tpActiveConnectionIDLimit p.
Proof.
  unfold all_params, endpoint_params, received. cbv zeta. rewrite !foldl_app. fold (fixed_params (tpMaxIdleTimeout p)).
  change (foldl pm_step ?s [grease_param random]) with (pm_step s (grease_param random)).
  assert (Eg : exists ids0, pm_step (mkTpState tp_initial [] false false false) (grease_param random) = mkTpState tp_initial ids0 false false false)
    by (unfold grease_param; destruct random as [|? [|? ?]]; by eexists).
  destruct Eg as [ids0 ->].
  change tp_initial with (mkTransportParameters 0 0 0 0 DefaultMaxAckDelay DefaultAckDelayExponent false 0 0 0 0 None [] [] None None 0 InvalidByteCount).
  fold_step (fold_limits p). fold_step fold_fixed. fold_step fold_delay. fold_step fold_exponent. fold_step fold_migration.
  destruct pers.
  - rewrite (bool_decide_true (PerspectiveServer = PerspectiveServer)) by done.
    rewrite (bool_decide_false (PerspectiveServer = PerspectiveClient)) by done. cbv iota. fold_step (fold_server p).
    edestruct (fold_active p) as (idsA & limit & l & E & El). erewrite E. clear E.
    fold_step fold_source. fold_step (fold_retry p). fold_step (fold_datagram p). do 4 eexists. split; [reflexivity|]. split; [done|by apply El].
  - rewrite (bool_decide_true (PerspectiveClient = PerspectiveClient)) by done.
    rewrite (bool_decide_false (PerspectiveClient = PerspectiveServer)) by done. cbv iota.
    assert (Enil : forall s, foldl pm_step s [] = s) by done. rewrite !Enil.
    edestruct (fold_active p) as (idsA & limit & l & E & El). erewrite E. clear E.
    fold_step fold_source. fold_step (fold_datagram p). edestruct (fold_additional additional) as [idsB E]. erewrite E. clear E.
    do 4 eexists. split; [reflexivity|]. split; [done|by apply El].
Qed.

Lemma all_params_ok random additional pers p : bytes_ok random -> blen random = 18 -> tp_ok p -> additional_ok random additional ->
  Forall (pm_ok pers) (all_params random additional pers p).
Proof.
  intros Hr Hl Hp [Ha _]. unfold all_params. apply Forall_app_2; [apply Forall_one; by apply grease_ok|].
  apply Forall_app_2; [by apply endpoint_params_ok|]. case_bool_decide; [|constructor]. unfold additional_params. apply Forall_fmap.
  eapply Forall_impl; [exact Ha|]. intros kv (? & ? & ?). by apply opaque_ok.
Qed.

Lemma unmarshal_params sentBy qs ticket p ids o i l : Forall (pm_ok sentBy) qs -> NoDup (pmID <$> qs) ->
  foldl pm_step (mkTpState tp_initial [] false false false) qs = mkTpState p ids o i l ->
  (ticket = false -> i = true /\ tpMaxUDPPayloadSize p <> 0 /\ (sentBy = PerspectiveServer -> o = true)) ->
  unmarshal tp_zero sentBy ticket (pms_bytes qs) =
    (Ok (if l then p else set_ActiveConnectionIDLimit DefaultActiveConnectionIDLimit p), []).
Proof.
  intros Hqs Hnd Hf Hticket. unfold unmarshal. fold tp_initial. erewrite parser_bind_ok by done.
  erewrite parser_bind_ok by (apply loop_params; [done|unfold blen; lia]). cbv zeta.
  assert (Hids : tsParameterIDs (foldl pm_step (mkTpState tp_initial [] false false false) qs) = pmID <$> qs) by by rewrite (fold_ids sentBy).
  rewrite <- Hids in Hnd. apply duplicates_spec in Hnd. rewrite Hf in Hnd |- *. cbn [tsParameterIDs] in Hnd |- *. rewrite Hnd.
  cbn [tsParams tsReadOriginalDestinationConnectionID tsReadInitialSourceConnectionID tsReadActiveConnectionIDLimit].
  destruct ticket; cbn [negb andb]; [by destruct l|]. destruct (Hticket eq_refl) as (-> & Hz & Ho). cbn [negb].
  assert (Hz' : forall x, tpMaxUDPPayloadSize (if negb l then set_ActiveConnectionIDLimit x p else p) =? 0 = false)
    by (intros x; destruct l; apply Z.eqb_neq, Hz).
  rewrite Hz'. destruct sentBy.
  - rewrite Ho by done. rewrite bool_decide_true by done. cbn [andb negb]. by destruct l.
  - rewrite bool_decide_false by done. cbn [andb]. by destruct l.
Qed.

(** C26: Transport parameters survive the round trip.  For all parameters within
    their limits, either role, any random bytes for the reserved parameter and any
    additional client parameters with distinct IDs that the parser does not know,
    [Marshal] writes them and [Unmarshal] at the peer returns them: all limits, the flags, connection IDs, token and preferred
    address, with the durations in whole milliseconds, the idle timeout raised to
    the minimum and the payload size of the implementation; from a client, nothing
    that only a server may send. *)
Theorem transport_parameters_roundtrip random additional pers p :
  bytes_ok random -> blen random = 18 -> tp_ok p -> additional_ok random additional ->
  exists b, Marshal random additional pers p = Ok b /\ Unmarshal b pers tp_zero = Ok (received pers p).
Proof.
  intros Hr Hl Hp Ha. eexists. split; [by apply Marshal_eq|]. unfold Unmarshal.
  destruct (all_effect random additional pers p) as (ids & o & limit & l & Ef & Ho & Hlim).
  rewrite (unmarshal_params _ _ _ _ _ _ _ _ (all_params_ok _ _ _ _ Hr Hl Hp Ha) (all_ids_nodup _ _ _ _ Hr Hl Ha) Ef) by done.
  cbn [fst]. f_equal. destruct l; rewrite Hlim; reflexivity.
Qed.
