(* ===== verification/TransportParamsClaims.v ===== *)
(** * TransportParamsClaims: arbitrary parameters, session tickets, and two defects *)

From S2P Require Import Prelude Protocol Varint Frames FrameParser Headers HeaderProofs TransportParams TransportParamsProofs.
From stdpp Require Import base numbers list option strings sorting.
From Stdlib Require Import ZArith Lia.
#[local] Open Scope Z_scope.

(** ** Parsing arbitrary bytes *)

(** While the parameters are read; a value of 0 is one that was not sent. *)
Record tp_inv (sentBy : Perspective) (p : TransportParameters) : Prop := {
  ti_local : is_varint (tpInitialMaxStreamDataBidiLocal p);
  ti_remote : is_varint (tpInitialMaxStreamDataBidiRemote p);
  ti_uni : is_varint (tpInitialMaxStreamDataUni p);
  ti_data : is_varint (tpInitialMaxData p);
  ti_bidis : 0 <= tpMaxBidiStreamNum p <= MaxStreamCount;
  ti_unis : 0 <= tpMaxUniStreamNum p <= MaxStreamCount;
  ti_idle : tpMaxIdleTimeout p = 0 \/ MinRemoteIdleTimeout <= tpMaxIdleTimeout p < 2 ^ 63;
  ti_payload : tpMaxUDPPayloadSize p = 0 \/ 1200 <= tpMaxUDPPayloadSize p <= MaxByteCount;
  ti_delay : 0 <= tpMaxAckDelay p <= MaxMaxAckDelay;
  ti_exponent : 0 <= tpAckDelayExponent p <= MaxAckDelayExponent;
  ti_limit : tpActiveConnectionIDLimit p = 0 \/ 2 <= tpActiveConnectionIDLimit p <= maxVarInt8;
  ti_datagram : tpMaxDatagramFrameSize p = InvalidByteCount \/ is_varint (tpMaxDatagramFrameSize p);
  ti_original : blen (tpOriginalDestinationConnectionID p) <= MaxConnIDLen;
  ti_source : blen (tpInitialSourceConnectionID p) <= MaxConnIDLen;
  ti_retry id : tpRetrySourceConnectionID p = Some id -> blen id <= MaxConnIDLen;
  ti_token t : tpStatelessResetToken p = Some t -> blen t = 16;
  ti_preferred pa : tpPreferredAddress p = Some pa -> pa_ok pa;
  ti_client : sentBy = PerspectiveClient -> tpPreferredAddress p = None /\ tpStatelessResetToken p = None /\
    tpRetrySourceConnectionID p = None /\ tpOriginalDestinationConnectionID p = []
}.

(** The result: every value is set. *)
Definition tp_valid (sentBy : Perspective) (p : TransportParameters) : Prop :=
  tp_inv sentBy p /\ tpMaxUDPPayloadSize p <> 0 /\ tpActiveConnectionIDLimit p <> 0.

(** An assignment of one field keeps the facts about the others. *)
Ltac tp_simpl :=
  cbn [set_InitialMaxStreamDataBidiLocal set_InitialMaxStreamDataBidiRemote set_InitialMaxStreamDataUni
       set_InitialMaxData set_MaxAckDelay set_AckDelayExponent set_DisableActiveMigration
       set_MaxUDPPayloadSize set_MaxUniStreamNum set_MaxBidiStreamNum set_MaxIdleTimeout set_PreferredAddress
       set_OriginalDestinationConnectionID set_InitialSourceConnectionID set_RetrySourceConnectionID
       set_StatelessResetToken set_ActiveConnectionIDLimit set_MaxDatagramFrameSize
       tpInitialMaxStreamDataBidiLocal tpInitialMaxStreamDataBidiRemote tpInitialMaxStreamDataUni
       tpInitialMaxData tpMaxAckDelay tpAckDelayExponent tpDisableActiveMigration tpMaxUDPPayloadSize
       tpMaxUniStreamNum tpMaxBidiStreamNum tpMaxIdleTimeout tpPreferredAddress
       tpOriginalDestinationConnectionID tpInitialSourceConnectionID tpRetrySourceConnectionID
       tpStatelessResetToken tpActiveConnectionIDLimit tpMaxDatagramFrameSize].
Ltac assign_field Hp := destruct Hp; constructor; tp_simpl; try assumption.

Lemma safe_readNumeric sentBy id len p : tp_inv sentBy p -> safe_parser (tp_inv sentBy) (readNumericTransportParameter id len p).
Proof.
  intros Hp. unfold readNumericTransportParameter. eapply safe_bind; [apply safe_reader_len|]. intros n _.
  apply (safe_bind is_varint).
  { intros r Hr. pose proof (safe_varint r Hr) as Hs. destruct (varint_Read r) as [[]]; done. }
  intros v Hv. eapply safe_bind; [apply safe_reader_len|]. intros n' _.
  assert (Hi : i64 v = v) by (apply i64_small; unfold is_varint, maxVarInt8 in Hv; int_range). rewrite Hi.
  pose proof Hv as Hv'. unfold is_varint, maxVarInt8 in Hv'.
  assert (Hbig : 2 ^ 62 - 1 <= MaxByteCount) by (vm_compute; discriminate).
  repeat (apply safe_if; intros ?); try apply safe_fail; apply safe_ret; assign_field Hp.
  all: repeat match goal with H : (_ <? _) = false |- _ => apply Z.ltb_ge in H end; try lia; try (by right); try (right; lia).
  - right. split; [apply Z.le_max_l|]. apply Z.max_lub_lt; [by vm_compute|]. apply i64_range.
  - unfold MaxAckDelayExponent in *. rewrite u8_small by (unfold is_u8; lia). lia.
  - assert (Hq : Z.quot MaxMaxAckDelay Millisecond = 2 ^ 14 - 1) by (vm_compute; reflexivity).
    unfold MaxMaxAckDelay, Millisecond, Microsecond in *. rewrite i64_small by int_range. lia.
  - right. unfold maxVarInt8. lia.
Qed.

Lemma safe_ReadUint16 : safe_parser (fun v => 0 <= v < 2 ^ 16) ReadUint16.
Proof.
  unfold ReadUint16. repeat parser_step. unfold u16. apply Z.mod_pos_bound. lia.
Qed.
#[export] Hint Resolve safe_ReadUint16 : parsers.

Lemma safe_ReadConnectionID_len l : 0 < l <= MaxConnIDLen -> safe_parser (fun d => blen d = l) (ReadConnectionID l).
Proof.
  intros Hl. unfold ReadConnectionID. zfalse (l =? 0). zfalse (MaxConnIDLen <? l).
  eapply safe_mono; [apply safe_ReadFullEOF|]. intros d [_ Hd]. lia.
Qed.

Lemma safe_readPreferredAddress len p : tp_inv PerspectiveServer p ->
  safe_parser (tp_inv PerspectiveServer) (readPreferredAddress len p).
Proof.
  intros Hp. unfold readPreferredAddress. do 6 parser_step. apply safe_if; intros Hl; [apply safe_fail|].
  apply orb_false_iff in Hl as [Hnz%Z.eqb_neq Hle%Z.ltb_ge]. unfold is_u8 in *.
  eapply safe_bind; [apply safe_ReadConnectionID_len; lia|]. intros connID Hc. do 2 parser_step.
  apply safe_if; intros _; [apply safe_fail|]. apply safe_ret. assign_field Hp; [|done].
  intros pa [= <-]. unfold data_of in *. constructor; cbn [paIPv4 paIPv4Port paIPv6 paIPv6Port paConnectionID paStatelessResetToken]; try lia; apply Hv || lia.
Qed.

Lemma safe_connIDIgnoringError l : safe_parser (fun d => blen d <= MaxConnIDLen) (readConnectionIDIgnoringError l).
Proof.
  intros r Hr. unfold readConnectionIDIgnoringError, ReadConnectionID.
  destruct (Z.eqb_spec l 0); [split; [done|reflexivity]|]. destruct (Z.ltb_spec MaxConnIDLen l); [split; [done|reflexivity]|].
  pose proof (safe_ReadFullEOF l r Hr) as Hs. destruct (ReadFullEOF l r) as [[d|e|m] r']; [|split; [done|exact Hs]|done].
  destruct Hs as [[_ Hd] Hs]. split; [|done]. unfold MaxConnIDLen in *. lia.
Qed.

Definition ts_inv (sentBy : Perspective) (s : tpState) : Prop :=
  tp_inv sentBy (tsParams s) /\ (tsReadActiveConnectionIDLimit s = true -> tpActiveConnectionIDLimit (tsParams s) <> 0).

(** The limit is set when it is read, and kept. *)
Lemma readNumeric_limit id len p r p' r' : readNumericTransportParameter id len p r = (Ok p', r') ->
  if id =? activeConnectionIDLimitParameterID then tpActiveConnectionIDLimit p' <> 0
  else tpActiveConnectionIDLimit p' = tpActiveConnectionIDLimit p.
Proof.
  unfold readNumericTransportParameter. intros E. apply parser_bind_inv in E as (n & r1 & _ & E).
  apply parser_bind_inv in E as (v & r2 & _ & E). apply parser_bind_inv in E as (n' & r3 & _ & E).
  repeat match type of E with (if ?a =? ?b then _ else _) _ = _ => destruct (Z.eqb_spec a b); [subst id|] | (if ?b then _ else _) _ = _ => destruct b eqn:? end;
    try discriminate E; injection E as <- <-; tp_simpl; try reflexivity.
  match goal with H : (v <? 2) = false |- _ => apply Z.ltb_ge in H end. lia.
Qed.

Lemma safe_ts_numeric sentBy id len s s0 : ts_inv sentBy s -> tsParams s0 = tsParams s ->
  (id <> activeConnectionIDLimitParameterID -> tsReadActiveConnectionIDLimit s0 = tsReadActiveConnectionIDLimit s) ->
  safe_parser (ts_inv sentBy) (p ← readNumericTransportParameter id len (tsParams s); mret (ts_params p s0)).
Proof.
  intros [Hp Hlim] E0 Hl0 r Hr. pose proof (safe_readNumeric sentBy id len _ Hp r Hr) as Hs.
  unfold mbind, stM_bind. destruct (readNumericTransportParameter _ _ _ r) as [[p'|e|m] r'] eqn:E; [|done|done].
  destruct Hs as [Hp' Hs]. split; [|done]. split; [done|]. cbn [ts_params tsParams tsReadActiveConnectionIDLimit].
  apply readNumeric_limit in E. destruct (Z.eqb_spec id activeConnectionIDLimitParameterID) as [|Hne]; [by intros _|].
  rewrite E, Hl0 by done. exact Hlim.
Qed.

Lemma safe_readParameter sentBy id len s : ts_inv sentBy s -> safe_parser (ts_inv sentBy) (readParameter sentBy id len s).
Proof.
  intros Hs. pose proof Hs as [Hp Hlim]. unfold readParameter. cbv zeta.
  assert (Hset : forall s0, tp_inv sentBy (tsParams s0) -> tpActiveConnectionIDLimit (tsParams s0) = tpActiveConnectionIDLimit (tsParams s) ->
    tsReadActiveConnectionIDLimit s0 = tsReadActiveConnectionIDLimit s -> ts_inv sentBy s0)
    by (intros s0 Hp' E E0; split; [done|]; by rewrite E, E0).
  apply safe_if; intros Hid; [apply Z.eqb_eq in Hid; by apply safe_ts_numeric|].
  apply safe_if; intros _; [by apply safe_ts_numeric|].
  apply safe_if; intros _.
  { case_bool_decide as Hc; [apply safe_fail|]. assert (sentBy = PerspectiveServer) as -> by by destruct sentBy.
    intros r Hr. pose proof (safe_readPreferredAddress len _ Hp r Hr) as Hs'. unfold mbind, stM_bind.
    destruct (readPreferredAddress len (tsParams s) r) as [[p'|e|m] r'] eqn:E; [|done|done]. destruct Hs' as [Hp' Hs']. split; [|done].
    apply Hset; [exact Hp'| |done]. cbn [ts_params tsParams]. unfold readPreferredAddress in E. repeat (apply parser_bind_inv in E as (? & ? & _ & E)).
    destruct (_ || _); [done|]. repeat (apply parser_bind_inv in E as (? & ? & _ & E)). destruct (negb _); [done|]. by injection E as <- <-. }
  apply safe_if; intros _.
  { apply safe_if; intros _; [apply safe_fail|]. apply safe_ret. apply Hset; [|done|done]. cbn [ts_params ts_gotOriginal ts_gotInitial tsParams]. by assign_field Hp. }
  apply safe_if; intros _.
  { case_bool_decide as Hc; [apply safe_fail|]. apply safe_if; intros _; [apply safe_fail|]. eapply safe_bind; [apply safe_ReadFull|].
    intros t [_ Ht]. apply safe_ret. apply Hset; [|done|done]. cbn [ts_params ts_gotOriginal ts_gotInitial tsParams]. assign_field Hp; [by intros ? [= <-]|done]. }
  apply safe_if; intros _.
  { case_bool_decide as Hc; [apply safe_fail|]. eapply safe_bind; [apply safe_connIDIgnoringError|].
    intros t Ht. apply safe_ret. apply Hset; [|done|done]. cbn [ts_params ts_gotOriginal ts_gotInitial tsParams]. by assign_field Hp. }
  apply safe_if; intros _.
  { eapply safe_bind; [apply safe_connIDIgnoringError|]. intros t Ht. apply safe_ret. apply Hset; [|done|done]. cbn [ts_params ts_gotOriginal ts_gotInitial tsParams]. by assign_field Hp. }
  apply safe_if; intros _.
  { case_bool_decide as Hc; [apply safe_fail|]. eapply safe_bind; [apply safe_connIDIgnoringError|].
    intros t Ht. apply safe_ret. apply Hset; [|done|done]. cbn [ts_params ts_gotOriginal ts_gotInitial tsParams]. assign_field Hp; [by intros ? [= <-]|done]. }
  eapply safe_bind; [apply safe_seek|]. intros _ _. by apply safe_ret.
Qed.

Lemma safe_unmarshal_loop sentBy fuel : forall s r, ts_inv sentBy s -> bytes_ok r -> (length r <= fuel)%nat ->
  match unmarshal_loop fuel sentBy s r with
  | (Ok s', _) => ts_inv sentBy s'
  | (Err _, _) => True
  | (Panic _, _) => False
  end.
Proof.
  induction fuel as [|fuel IH]; intros s r Hs Hr Hf; cbn [unmarshal_loop].
  { destruct r; [done|cbn in Hf; lia]. }
  rewrite (parser_bind_ok reader_len _ r r (blen r)) by done. destruct (Z.eqb_spec (blen r) 0) as [|Hn]; [done|].
  destruct (varint_Read_total r Hr) as [[e E]|(used & id & r1 & -> & E & _ & _ & Hused)]; [by rewrite (parser_bind_err _ _ _ _ _ E)|].
  rewrite (parser_bind_ok _ _ _ _ _ E). apply Forall_app in Hr as [_ Hr1].
  pose proof (safe_varint r1 Hr1) as Hv. unfold mbind at 1, stM_bind at 1. destruct (varint_Read r1) as [[len|e|m] r2]; [|done|done].
  destruct Hv as [_ Hs2]. rewrite (parser_bind_ok reader_len _ r2 r2 (blen r2)) by done. destruct (_ <? _); [done|].
  pose proof (suffix_bytes_ok _ _ Hs2 Hr1) as Hr2. pose proof (safe_readParameter sentBy id len (ts_add id s) Hs r2 Hr2) as Hp.
  unfold mbind, stM_bind. destruct (readParameter _ _ _ _ r2) as [[s'|e|m] r3]; [|done|done]. destruct Hp as [Hs' Hs3].
  apply IH; [done|by eapply suffix_bytes_ok|]. destruct Hs2 as [k2 ->], Hs3 as [k3 ->]. unfold blen in Hused. rewrite !length_app in Hf. lia.
Qed.

Lemma tp_initial_inv sentBy : tp_inv sentBy tp_initial.
Proof.
  constructor; try (vm_compute; first [done|split; discriminate|by left]); try done.
Qed.

(** The parameters of a session ticket are parsed without a panic, whatever the bytes. *)
Lemma UnmarshalFromSessionTicket_total data : bytes_ok data ->
  match (UnmarshalFromSessionTicket tp_zero data).1 with Panic _ => False | _ => True end.
Proof.
  intros Hd. unfold UnmarshalFromSessionTicket.
  destruct (varint_Read_total data Hd) as [[e E]|(used & version & r & -> & E & _)]; [by rewrite (parser_bind_err _ _ _ _ _ E)|].
  rewrite (parser_bind_ok _ _ _ _ _ E). destruct (negb _); [done|]. apply Forall_app in Hd as [_ Hr].
  unfold unmarshal. fold tp_initial. cbv zeta. rewrite (parser_bind_ok reader_len _ r r (blen r)) by done.
  pose proof (safe_unmarshal_loop PerspectiveServer (Z.to_nat (blen r)) (mkTpState tp_initial [] false false false) r) as Hl.
  unfold mbind, stM_bind. destruct (unmarshal_loop _ _ _ r) as [[s|e|m] r']; [|done|].
  - cbn [negb andb]. by destruct (hasNeighbours _).
  - destruct Hl; [split; [apply tp_initial_inv|done]|done|unfold blen; lia].
Qed.

Lemma tp_valid_ok sentBy p : tp_valid sentBy p -> tp_ok p.
Proof.
  intros ([] & _ & Hl). constructor; try assumption; [|by destruct ti_limit0].
  destruct ti_idle0 as [-> |?]; [lia|]. unfold MinRemoteIdleTimeout, Second, Millisecond, Microsecond in *. lia.
Qed.

(** Arbitrary bytes are parsed to valid parameters or refused. *)
Lemma Unmarshal_validated data sentBy : bytes_ok data ->
  match Unmarshal data sentBy tp_zero with
  | Ok p => tp_valid sentBy p
  | Err e => exists msg, e = TransportError TransportParameterError 0 msg
  | Panic _ => False
  end.
Proof.
  intros Hd. unfold Unmarshal, unmarshal. fold tp_initial. cbv zeta. rewrite (parser_bind_ok reader_len _ data data (blen data)) by done.
  pose proof (safe_unmarshal_loop sentBy (Z.to_nat (blen data)) (mkTpState tp_initial [] false false false) data) as Hl.
  unfold mbind, stM_bind. destruct (unmarshal_loop _ _ _ data) as [[s|e|m] r'].
  - destruct Hl as [Hp Hlim]; [split; [apply tp_initial_inv|done]|done|unfold blen; lia|].
    set (p1 := if negb (tsReadActiveConnectionIDLimit s) then _ else _).
    assert (H1 : tp_inv sentBy p1 /\ tpActiveConnectionIDLimit p1 <> 0).
    { unfold p1. destruct (tsReadActiveConnectionIDLimit s); cbn [negb]; [by split; [|apply Hlim]|].
      split; [|done]. assign_field Hp. right. by vm_compute. }
    clearbody p1. destruct H1 as [Hp1 Hl1]. cbn [negb andb].
    destruct (bool_decide _ && _); [by eexists|]. destruct (negb (tsReadInitialSourceConnectionID s)); [by eexists|].
    destruct (hasNeighbours _); [by eexists|]. unfold mret, stM_ret. cbn [fst].
    destruct (Z.eqb_spec (tpMaxUDPPayloadSize p1) 0) as [E0|E0]; [|by split_and!].
    split_and!; [|by vm_compute|exact Hl1]. assign_field Hp1. right. by vm_compute.
  - by eexists.
  - destruct Hl; [split; [apply tp_initial_inv|done]|done|unfold blen; lia].
Qed.

(** C27: Transport parameters are validated.  [Unmarshal] returns for arbitrary
    bytes, without a panic, either a TRANSPORT_PARAMETER_ERROR or parameters that
    are all within the limits of the protocol: stream counts up to 2^60, a payload
    size of at least 1200 bytes, an ACK delay exponent up to 20 and an ACK delay up
    to 2^14 ms, at least two active connection IDs, connection IDs of at most 20
    bytes, a well-formed preferred address, and from a client nothing that only a
    server may send. *)
Theorem transport_parameters_validated data sentBy : bytes_ok data ->
  match Unmarshal data sentBy tp_zero with
  | Ok p => tp_valid sentBy p
  | Err e => exists msg, e = TransportError TransportParameterError 0 msg
  | Panic _ => False
  end.
Proof. apply Unmarshal_validated. Qed.

Lemma transport_parameters_validated_witness :
  match Unmarshal [4; 1; 7; 15; 2; 8; 9] PerspectiveClient tp_zero with
  | Ok p => tpInitialMaxData p = 7 /\ tp_valid PerspectiveClient p
  | _ => False
  end.
Proof.
  pose proof (transport_parameters_validated [4; 1; 7; 15; 2; 8; 9] PerspectiveClient) as Hv.
  destruct (Unmarshal _ _ _) as [p|e|m] eqn:E; vm_compute in E; [|discriminate|discriminate]. split; [by injection E as <-|].
  apply Hv. repeat apply Forall_cons_2; try apply Forall_nil_2; vm_compute; split; congruence.
Defined.

Definition ex_preferred : PreferredAddress :=
  mkPreferredAddress [127; 0; 0; 1] 443 (replicate 15 0 ++ [1]) 443 [7; 8] (replicate 16 9).

Definition ex_params : TransportParameters :=
  mkTransportParameters 1000 2000 3000 4000 (26 * Millisecond + 5) 10 true 0 100 200 (30 * Second) (Some ex_preferred)
    [1; 2; 3] [4; 5; 6; 7] (Some [8]) (Some (replicate 16 3)) 4 1200.

Lemma ex_params_ok : tp_ok ex_params.
Proof.
  constructor; try (vm_compute; first [done|split; congruence|by right; split; congruence]).
  - by intros ? [= <-].
  - by intros ? [= <-].
  - intros ? [= <-]. constructor; vm_compute; first [done|split; congruence].
Qed.

Lemma transport_parameters_roundtrip_witness :
  exists b, Marshal (replicate 18 5) [(100, [1; 2])] PerspectiveServer ex_params = Ok b /\
    Unmarshal b PerspectiveServer tp_zero = Ok (received PerspectiveServer ex_params).
Proof.
  apply (transport_parameters_roundtrip (replicate 18 5) [(100, [1; 2])] PerspectiveServer ex_params).
  - apply Forall_replicate. vm_compute. split; congruence.
  - reflexivity.
  - exact ex_params_ok.
  - split; [|apply (bool_decide_unpack _); vm_compute; exact I]. constructor; [|constructor].
    split; [vm_compute; split; congruence|]. split; [vm_compute; split; congruence|]. apply (bool_decide_unpack _). vm_compute. exact I.
Defined.

(** ** Session tickets *)

Definition ticket_params (p : TransportParameters) : list tparam :=
  limit_params p ++ when (negb (tpMaxDatagramFrameSize p =? InvalidByteCount)) (datagram_param p) ++ [active_param p].

(** The parameters that come back from a session ticket. *)
Definition saved_params (p : TransportParameters) : TransportParameters :=
  mkTransportParameters (tpInitialMaxStreamDataBidiLocal p) (tpInitialMaxStreamDataBidiRemote p) (tpInitialMaxStreamDataUni p)
    (tpInitialMaxData p) DefaultMaxAckDelay DefaultAckDelayExponent false 0 (tpMaxUniStreamNum p) (tpMaxBidiStreamNum p) 0
    None [] [] None None (tpActiveConnectionIDLimit p) (tpMaxDatagramFrameSize p).

(** No limit of [q] is lower than that of [p]. *)
Definition no_lower (p q : TransportParameters) : Prop :=
  tpInitialMaxStreamDataBidiLocal p <= tpInitialMaxStreamDataBidiLocal q /\
  tpInitialMaxStreamDataBidiRemote p <= tpInitialMaxStreamDataBidiRemote q /\
  tpInitialMaxStreamDataUni p <= tpInitialMaxStreamDataUni q /\ tpInitialMaxData p <= tpInitialMaxData q /\
  tpMaxBidiStreamNum p <= tpMaxBidiStreamNum q /\ tpMaxUniStreamNum p <= tpMaxUniStreamNum q /\
  tpMaxDatagramFrameSize p <= tpMaxDatagramFrameSize q.

Definition datagram_ok (n : Z) : Prop := n = InvalidByteCount \/ is_varint n.

Lemma datagramReduced_spec p saved : datagram_ok (tpMaxDatagramFrameSize saved) -> datagram_ok (tpMaxDatagramFrameSize p) ->
  datagramReduced p saved = true <-> tpMaxDatagramFrameSize p < tpMaxDatagramFrameSize saved.
Proof.
  unfold datagramReduced, datagram_ok, InvalidByteCount, is_varint. intros Hs Hp.
  destruct (Z.eqb_spec (tpMaxDatagramFrameSize saved) (-1)) as [E|E], (Z.eqb_spec (tpMaxDatagramFrameSize p) (-1)) as [E'|E']; cbn [negb andb orb];
    rewrite ?Z.ltb_lt; (split; [try discriminate; intros; lia|intros; try reflexivity; try lia]).
Qed.

Lemma Valid_spec p q : datagram_ok (tpMaxDatagramFrameSize p) -> datagram_ok (tpMaxDatagramFrameSize q) ->
  (ValidFor0RTT p q = true <-> no_lower p q /\ tpActiveConnectionIDLimit q = tpActiveConnectionIDLimit p) /\
  (ValidForUpdate p q = true <-> no_lower p q /\ tpActiveConnectionIDLimit p <= tpActiveConnectionIDLimit q).
Proof.
  intros Hp Hq. pose proof (datagramReduced_spec q p Hp Hq) as Hd. unfold ValidFor0RTT, ValidForUpdate, no_lower.
  destruct (datagramReduced q p).
  - assert (tpMaxDatagramFrameSize q < tpMaxDatagramFrameSize p) by by apply Hd. split; (split; [done|lia]).
  - assert (~ tpMaxDatagramFrameSize q < tpMaxDatagramFrameSize p) by (intros Hlt; by apply Hd in Hlt).
    split; rewrite !andb_true_iff, !Z.leb_le, ?Z.eqb_eq; lia.
Qed.

Lemma ticket_effect p : exists ids,
  foldl pm_step (mkTpState tp_initial [] false false false) (ticket_params p) = mkTpState (saved_params p) ids false false true.
Proof.
  unfold ticket_params, saved_params. rewrite !foldl_app.
  change tp_initial with (mkTransportParameters 0 0 0 0 DefaultMaxAckDelay DefaultAckDelayExponent false 0 0 0 0 None [] [] None None 0 InvalidByteCount).
  fold_step (fold_limits p). fold_step (fold_datagram p). eexists. reflexivity.
Qed.

Lemma ticket_params_ok p : tp_ok p -> Forall (pm_ok PerspectiveServer) (ticket_params p) /\ NoDup (pmID <$> ticket_params p).
Proof.
  intros Hp. split.
  - apply Forall_app_2; [by apply limit_params_ok|]. apply Forall_app_2; [|by apply Forall_one, active_param_ok].
    apply Forall_when. intros E. apply datagram_param_ok; [done|]. by apply negb_true_iff, Z.eqb_neq in E.
  - unfold ticket_params. destruct (negb _); apply (bool_decide_unpack _); vm_compute; exact I.
Qed.

Lemma MarshalForSessionTicket_eq b p : tp_ok p ->
  MarshalForSessionTicket b p = Ok (b ++ venc transportParameterMarshalingVersion ++ pms_bytes (ticket_params p)).
Proof.
  intros Hp. pose proof (to_bidis p Hp). pose proof (to_unis p Hp). pose proof (to_limit p Hp).
  assert (Hnum : forall b id v f, is_varint id -> is_varint v -> marshalVarintParam b id (u64 v) = Ok (b ++ pm_bytes (numeric id v f))).
  { intros b0 id v f Hid Hv. rewrite u64_small by (unfold is_varint, maxVarInt8 in Hv; int_range). by apply marshalVarintParam_eq. }
  assert (is_varint (tpMaxBidiStreamNum p) /\ is_varint (tpMaxUniStreamNum p)) as [? ?] by (unfold is_varint, maxVarInt8, MaxStreamCount in *; lia).
  unfold MarshalForSessionTicket. rewrite varint_Append_venc by by vm_compute. cbn [mbind res_bind].
  do 4 (erewrite Hnum; [|by vm_compute|apply Hp]; cbn [mbind res_bind]).
  do 2 (erewrite Hnum; [|by vm_compute|done]; cbn [mbind res_bind]).
  assert (Hdg : forall b, (if negb (tpMaxDatagramFrameSize p =? InvalidByteCount)
      then marshalVarintParam b maxDatagramFrameSizeParameterID (u64 (tpMaxDatagramFrameSize p)) else Ok b) =
    Ok (b ++ pms_bytes (when (negb (tpMaxDatagramFrameSize p =? InvalidByteCount)) (datagram_param p)))).
  { intros b0. destruct (Z.eqb_spec (tpMaxDatagramFrameSize p) InvalidByteCount) as [|Hne]; cbn [negb when]; [unfold pms_bytes; cbn; by rewrite app_nil_r|].
    rewrite pms_one. apply Hnum; [by vm_compute|]. by destruct (to_datagram p Hp). }
  rewrite Hdg. cbn [mbind res_bind]. erewrite marshalVarintParam_eq; [|by vm_compute|unfold is_varint; lia].
  unfold ticket_params. rewrite !pms_app, pms_one. unfold limit_params, active_param. rewrite !pms_cons. change (pms_bytes []) with (@nil Z).
  rewrite app_nil_r, <- !(assoc_L (++)). reflexivity.
Qed.

(** The limits survive in a session ticket.  Whatever precedes them in the
    ticket, the parameters that [MarshalForSessionTicket] appends are read back by
    [UnmarshalFromSessionTicket]; and with the parameters of the ticket 0-RTT is
    accepted exactly if no limit was lowered and the number of connection IDs is the
    same, and an update is valid exactly if no limit was lowered: data that a client
    sends within the old limits is within the new ones. *)
Theorem session_ticket_limits b p : tp_ok p ->
  exists t, MarshalForSessionTicket b p = Ok (b ++ t) /\ UnmarshalFromSessionTicket tp_zero t = (Ok (saved_params p), []) /\
    forall q, datagram_ok (tpMaxDatagramFrameSize q) ->
      (ValidFor0RTT (saved_params p) q = true <-> no_lower p q /\ tpActiveConnectionIDLimit q = tpActiveConnectionIDLimit p) /\
      (ValidForUpdate (saved_params p) q = true <-> no_lower p q /\ tpActiveConnectionIDLimit p <= tpActiveConnectionIDLimit q).
Proof.
  intros Hp. eexists. split; [by apply MarshalForSessionTicket_eq|]. split; [|intros q Hq; by apply (Valid_spec (saved_params p)); [apply Hp|]].
  unfold UnmarshalFromSessionTicket. erewrite parser_bind_ok by (apply varint_Read_venc; by vm_compute). rewrite Z.eqb_refl. cbn [negb].
  destruct (ticket_params_ok p Hp) as [Hok Hnd]. destruct (ticket_effect p) as [ids E]. by rewrite (unmarshal_params _ _ _ _ _ _ _ _ Hok Hnd E).
Qed.

Lemma session_ticket_limits_witness :
  exists t, MarshalForSessionTicket [9; 9] ex_params = Ok ([9; 9] ++ t) /\
    UnmarshalFromSessionTicket tp_zero t = (Ok (saved_params ex_params), []) /\
    ValidFor0RTT (saved_params ex_params) ex_params = true.
Proof.
  destruct (session_ticket_limits [9; 9] ex_params ex_params_ok) as (t & E & Eu & _). exists t.
  split; [exact E|]. split; [exact Eu|]. reflexivity.
Defined.

(** ** Two defects *)

(** A connection ID that is too long is not an error: [ReadConnectionID] reads
    nothing and its error is ignored.  The connection ID is then empty, and its
    bytes are read as further parameters: here the 21 bytes that follow the length
    set initial_max_data to 7. *)
Theorem long_connection_id_accepted :
  match Unmarshal ([15; 21] ++ [4; 1; 7] ++ [64; 100; 16] ++ replicate 16 0 ) PerspectiveClient tp_zero with
  | Ok p => tpInitialSourceConnectionID p = [] /\ tpInitialMaxData p = 7
  | _ => False
  end.
Proof. vm_compute. done. Qed.

(** A large idle timeout overflows: 2^44 ms, more than 500 years, is taken for the
    minimum of 5 s, and so is the value 0, which means no timeout. *)
Theorem idle_timeout_overflows :
  match Unmarshal ([15; 0; 1; 8] ++ venc (2 ^ 44)) PerspectiveClient tp_zero, Unmarshal [15; 0; 1; 1; 0] PerspectiveClient tp_zero with
  | Ok p, Ok q => tpMaxIdleTimeout p = 5 * Second /\ tpMaxIdleTimeout q = 5 * Second
  | _, _ => False
  end.
Proof. vm_compute. done. Qed.
