(* ===== verification/ConnIDs.v ===== *)
(** * ConnIDs: the connection IDs of the two endpoints

    Models conn_id_manager.go (the connection IDs of the peer that packets are sent
    to) and conn_id_generator.go (the connection IDs that are issued to the peer).
    The callbacks are recorded as events. *)

From S2P Require Import Prelude Protocol PNGenerator Frames.
From stdpp Require Import base numbers list option strings gmap.
From Stdlib Require Import ZArith Lia.
#[local] Open Scope Z_scope.

Definition MaxActiveConnectionIDs : Z := 4.
Definition MaxIssuedConnectionIDs : Z := 6.
Definition PacketsPerConnectionID : Z := 10000.
Definition ConnectionIDLimitError : Z := 0x9.

(** ** The connection IDs of the peer *)

Record newConnID := mkNewConnID { ncSeq : Z; ncID : bytes; ncToken : bytes }.

Inductive cmEvent :=
  | CmRetireFrame (seq : Z)       (* queueControlFrame(&wire.RetireConnectionIDFrame{...}) *)
  | CmAddToken (token : bytes)
  | CmRemoveToken (token : bytes).

Record connIDManager := mkConnIDManager {
  cmQueue : list newConnID;
  cmHandshakeComplete : bool;
  cmActiveSequenceNumber : Z;
  cmHighestRetired : Z;
  cmActiveConnectionID : bytes;
  cmActiveStatelessResetToken : option bytes;
  cmRand : nat;
  cmPacketsSinceLastChange : Z;
  cmPacketsPerConnectionID : Z;
  cmEvents : list cmEvent
}.

Definition newConnIDManager (initialDestConnID : bytes) (pos : nat) : connIDManager :=
  mkConnIDManager [] false 0 0 initialDestConnID None pos 0 0 [].

Definition cm_queue (q : list newConnID) h : connIDManager :=
  mkConnIDManager q (cmHandshakeComplete h) (cmActiveSequenceNumber h) (cmHighestRetired h) (cmActiveConnectionID h)
    (cmActiveStatelessResetToken h) (cmRand h) (cmPacketsSinceLastChange h) (cmPacketsPerConnectionID h) (cmEvents h).
Definition cm_event (evs : list cmEvent) h : connIDManager :=
  mkConnIDManager (cmQueue h) (cmHandshakeComplete h) (cmActiveSequenceNumber h) (cmHighestRetired h) (cmActiveConnectionID h)
    (cmActiveStatelessResetToken h) (cmRand h) (cmPacketsSinceLastChange h) (cmPacketsPerConnectionID h) (cmEvents h ++ evs).
Definition cm_highestRetired (n : Z) h : connIDManager :=
  mkConnIDManager (cmQueue h) (cmHandshakeComplete h) (cmActiveSequenceNumber h) n (cmActiveConnectionID h)
    (cmActiveStatelessResetToken h) (cmRand h) (cmPacketsSinceLastChange h) (cmPacketsPerConnectionID h) (cmEvents h).
Definition cm_activate (seq : Z) (id : bytes) (token : option bytes) (pos : nat) (since per : Z) h : connIDManager :=
  mkConnIDManager (cmQueue h) (cmHandshakeComplete h) seq (cmHighestRetired h) id token pos since per (cmEvents h).
Definition cm_complete h : connIDManager :=
  mkConnIDManager (cmQueue h) true (cmActiveSequenceNumber h) (cmHighestRetired h) (cmActiveConnectionID h)
    (cmActiveStatelessResetToken h) (cmRand h) (cmPacketsSinceLastChange h) (cmPacketsPerConnectionID h) (cmEvents h).

Section manager.
(** The random words, and a bound on the rejected ones in a row. *)
Context (rng : nat -> Z) (fuel : nat).
Implicit Types h : connIDManager.
Abbreviation cmM := (stM connIDManager).

Definition cm_updateConnectionID : cmM unit :=
  _ ← modify (fun h => cm_event [CmRetireFrame (cmActiveSequenceNumber h)] h);
  _ ← modify (fun h => cm_highestRetired (Z.max (cmHighestRetired h) (cmActiveSequenceNumber h)) h);
  _ ← modify (fun h => match cmActiveStatelessResetToken h with Some t => cm_event [CmRemoveToken t] h | None => h end);
  h ← get;
  match cmQueue h with
  | [] => lift (Panic "nil pointer dereference")
  | front :: q =>
      match Int31n rng fuel PacketsPerConnectionID (cmRand h) with
      | None => lift (Panic "Int31n")
      | Some (r, pos) =>
          _ ← modify (fun h => cm_activate (ncSeq front) (ncID front) (Some (ncToken front)) pos 0
                                 (u32 (PacketsPerConnectionID / 2 + u32 r)) (cm_queue q h));
          modify (cm_event [CmAddToken (ncToken front)])
      end
  end.

(** The walk over the queue: the new element goes before the first one with a
    higher sequence number. *)
Fixpoint insertConnID (c : newConnID) (q : list newConnID) : res (list newConnID) :=
  match q with
  | [] => Ok []
  | el :: q' =>
      if ncSeq el =? ncSeq c then
        if bool_decide (ncID el <> ncID c)
        then Err (FmtError "received conflicting connection IDs for sequence number %d" [ncSeq c])
        else if bool_decide (ncToken el <> ncToken c)
        then Err (FmtError "received conflicting stateless reset tokens for sequence number %d" [ncSeq c])
        else Ok q
      else if ncSeq c <? ncSeq el then Ok (c :: q)
      else q'' ← insertConnID c q'; Ok (el :: q'')
  end.

Definition cm_addConnectionID (c : newConnID) : cmM unit :=
  h ← get;
  if match last (cmQueue h) with None => true | Some el => ncSeq el <? ncSeq c end
  then modify (cm_queue (cmQueue h ++ [c]))
  else q ← lift (insertConnID c (cmQueue h)); modify (cm_queue q).

Definition cm_AddFromPreferredAddress (connID token : bytes) : cmM unit := cm_addConnectionID (mkNewConnID 1 connID token).

(** The queue without the elements that are retired, and their sequence numbers. *)
Fixpoint retireFront (retirePriorTo : Z) (q : list newConnID) : list Z * list newConnID :=
  match q with
  | [] => ([], [])
  | el :: q' =>
      if retirePriorTo <=? ncSeq el then ([], q)
      else let '(seqs, q'') := retireFront retirePriorTo q' in (ncSeq el :: seqs, q'')
  end.

Definition cm_add (f : NewConnectionIDFrame) : cmM unit :=
  h ← get;
  if (ncSequenceNumber f <? cmActiveSequenceNumber h) || (ncSequenceNumber f <? cmHighestRetired h)
  then modify (cm_event [CmRetireFrame (ncSequenceNumber f)])
  else
    _ ← (if cmHighestRetired h <? ncRetirePriorTo f then
           let '(seqs, q) := retireFront (ncRetirePriorTo f) (cmQueue h) in
           modify (fun h => cm_highestRetired (ncRetirePriorTo f) (cm_queue q (cm_event (CmRetireFrame <$> seqs) h)))
         else mret tt);
    if ncSequenceNumber f =? cmActiveSequenceNumber h then mret tt
    else
      _ ← cm_addConnectionID (mkNewConnID (ncSequenceNumber f) (ncConnectionID f) (ncStatelessResetToken f));
      if cmActiveSequenceNumber h <? ncRetirePriorTo f then cm_updateConnectionID else mret tt.

Definition cm_Add (f : NewConnectionIDFrame) : cmM unit :=
  _ ← cm_add f;
  h ← get;
  if MaxActiveConnectionIDs <=? blen (cmQueue h) then throw (TransportError ConnectionIDLimitError 0 "") else mret tt.

Definition cm_Close h : connIDManager :=
  match cmActiveStatelessResetToken h with Some t => cm_event [CmRemoveToken t] h | None => h end.

Definition cm_ChangeInitialConnID (id : bytes) : cmM unit :=
  h ← get;
  if negb (cmActiveSequenceNumber h =? 0) then lift (Panic "expected first connection ID to have sequence number 0")
  else modify (fun h => cm_activate (cmActiveSequenceNumber h) id (cmActiveStatelessResetToken h) (cmRand h)
                          (cmPacketsSinceLastChange h) (cmPacketsPerConnectionID h) h).

Definition cm_SetStatelessResetToken (token : bytes) : cmM unit :=
  h ← get;
  if negb (cmActiveSequenceNumber h =? 0) then lift (Panic "expected first connection ID to have sequence number 0")
  else modify (fun h => cm_event [CmAddToken token]
                          (cm_activate (cmActiveSequenceNumber h) (cmActiveConnectionID h) (Some token) (cmRand h)
                             (cmPacketsSinceLastChange h) (cmPacketsPerConnectionID h) h)).

Definition cm_SentPacket h : connIDManager :=
  cm_activate (cmActiveSequenceNumber h) (cmActiveConnectionID h) (cmActiveStatelessResetToken h) (cmRand h)
    (u32 (cmPacketsSinceLastChange h + 1)) (cmPacketsPerConnectionID h) h.

Definition cm_shouldUpdateConnID h : bool :=
  if negb (cmHandshakeComplete h) then false
  else if (0 <? blen (cmQueue h)) && (cmActiveSequenceNumber h =? 0) then true
  else (MaxActiveConnectionIDs <=? 2 * blen (cmQueue h)) && (cmPacketsPerConnectionID h <=? cmPacketsSinceLastChange h).

Definition cm_Get : cmM bytes :=
  h ← get;
  _ ← (if cm_shouldUpdateConnID h then cm_updateConnectionID else mret tt);
  h ← get; mret (cmActiveConnectionID h).

Definition cm_SetHandshakeComplete h : connIDManager := cm_complete h.
End manager.

(** ** The connection IDs for the peer *)

Inductive cgEvent :=
  | CgAdd (id : bytes)
  | CgRemove (id : bytes)
  | CgRetire (id : bytes)
  | CgReplaceWithClosed (ids : list bytes) (pers : Perspective) (connClose : bytes)
  | CgNewConnectionID (f : NewConnectionIDFrame).

Record connIDGenerator := mkConnIDGenerator {
  cgGenerated : nat;                      (* calls of generator.GenerateConnectionID *)
  cgHighestSeq : Z;
  cgActiveSrcConnIDs : gmap Z bytes;
  cgInitialClientDestConnID : option bytes;
  cgEvents : list cgEvent
}.

Definition newConnIDGenerator (initialConnectionID : bytes) (initialClientDestConnID : option bytes) : connIDGenerator :=
  mkConnIDGenerator 0 0 {[0 := initialConnectionID]} initialClientDestConnID [].

Definition ProtocolViolationError : Z := 0xa.

Section generator.
(** The user's [ConnectionIDGenerator]: its results and the length of its IDs; and
    the function for the reset tokens. *)
Context (generateID : nat -> res bytes) (connectionIDLen : Z) (getStatelessResetToken : bytes -> bytes).
Implicit Types m : connIDGenerator.
Abbreviation cgM := (stM connIDGenerator).

Definition cg_event (evs : list cgEvent) m : connIDGenerator :=
  mkConnIDGenerator (cgGenerated m) (cgHighestSeq m) (cgActiveSrcConnIDs m) (cgInitialClientDestConnID m) (cgEvents m ++ evs).

Definition cg_issueNewConnID : cgM unit :=
  m ← get;
  _ ← modify (fun m => mkConnIDGenerator (S (cgGenerated m)) (cgHighestSeq m) (cgActiveSrcConnIDs m)
                         (cgInitialClientDestConnID m) (cgEvents m));
  connID ← lift (generateID (cgGenerated m));
  let seq := u64 (cgHighestSeq m + 1) in
  modify (fun m =>
    mkConnIDGenerator (cgGenerated m) seq (<[seq := connID]> (cgActiveSrcConnIDs m)) (cgInitialClientDestConnID m)
      (cgEvents m ++ [CgAdd connID; CgNewConnectionID (mkNewConnectionID seq 0 connID (getStatelessResetToken connID))])).

(** [k] rounds of the loop. *)
Fixpoint cg_issueLoop (k : nat) : cgM unit :=
  match k with
  | O => mret tt
  | S k' => _ ← cg_issueNewConnID; cg_issueLoop k'
  end.

Definition cg_SetMaxActiveConnIDs (limit : Z) : cgM unit :=
  if connectionIDLen =? 0 then mret tt
  else
    m ← get;
    cg_issueLoop (Z.to_nat (Z.min limit MaxIssuedConnectionIDs - Z.of_nat (size (cgActiveSrcConnIDs m)))).

Definition cg_Retire (seq : Z) (sentWithDestConnID : bytes) : cgM unit :=
  m ← get;
  if cgHighestSeq m <? seq
  then throw (TransportError ProtocolViolationError 0 "retired connection ID %d (highest issued: %d)")
  else
    match cgActiveSrcConnIDs m !! seq with
    | None => mret tt
    | Some connID =>
        if bool_decide (connID = sentWithDestConnID)
        then throw (TransportError ProtocolViolationError 0
                      "retired connection ID %d (%s), which was used as the Destination Connection ID on this packet")
        else
          _ ← modify (cg_event [CgRetire connID]);
          _ ← modify (fun m => mkConnIDGenerator (cgGenerated m) (cgHighestSeq m) (delete seq (cgActiveSrcConnIDs m))
                                 (cgInitialClientDestConnID m) (cgEvents m));
          if seq =? 0 then mret tt else cg_issueNewConnID
    end.

Definition cg_SetHandshakeComplete m : connIDGenerator :=
  match cgInitialClientDestConnID m with
  | Some id => mkConnIDGenerator (cgGenerated m) (cgHighestSeq m) (cgActiveSrcConnIDs m) None (cgEvents m ++ [CgRetire id])
  | None => m
  end.

(** The connection IDs in some order of the map. *)
Definition cg_ids m : list bytes := option_list (cgInitialClientDestConnID m) ++ (map_to_list (cgActiveSrcConnIDs m)).*2.

Definition cg_RemoveAll m : connIDGenerator := cg_event (CgRemove <$> cg_ids m) m.

Definition cg_ReplaceWithClosed (pers : Perspective) (connClose : bytes) m : connIDGenerator :=
  cg_event [CgReplaceWithClosed (cg_ids m) pers connClose] m.
End generator.
