(* ===== verification/ConnIDProofs.v ===== *)
(** * ConnIDProofs: the operations on connection IDs keep their invariants *)

From S2P Require Import Prelude Protocol PNGenerator Frames ConnIDs.
From stdpp Require Import base numbers list option strings gmap sorting.
From Stdlib Require Import ZArith Lia.
#[local] Open Scope Z_scope.

(** ** The queue of connection IDs *)

Definition seqs (q : list newConnID) : list Z := ncSeq <$> q.
Definition sorted (q : list newConnID) : Prop := StronglySorted Z.lt (seqs q).

Lemma sorted_app q1 q2 : sorted (q1 ++ q2) <-> sorted q1 /\ sorted q2 /\ forall a b, a ∈ q1 -> b ∈ q2 -> ncSeq a < ncSeq b.
Proof.
  unfold sorted, seqs. rewrite fmap_app. induction q1 as [|c q1 IH]; cbn [fmap list_fmap app].
  { split; [|by intros (_ & ? & _)]. intros Hs. split_and!; [constructor|done|]. by intros a b ?%elem_of_nil. }
  split.
  - intros Hs. apply StronglySorted_inv in Hs as [Hs Hc]. apply IH in Hs as (H1 & H2 & H12). apply Forall_app in Hc as [Hc1 Hc2].
    split_and!; [by constructor|done|]. intros a b [->|Ha]%elem_of_cons Hb; [|by apply H12].
    rewrite Forall_fmap, Forall_forall in Hc2. by apply (Hc2 b).
  - intros (H1 & H2 & H12). apply StronglySorted_inv in H1 as [H1 Hc]. constructor.
    + apply IH. split_and!; try done. intros a b Ha Hb. apply H12; [by right|done].
    + apply Forall_app. split; [done|]. rewrite Forall_fmap, Forall_forall. intros b Hb. apply H12; [by left|done].
Qed.

Lemma sorted_cons c q : sorted (c :: q) <-> sorted q /\ forall b, b ∈ q -> ncSeq c < ncSeq b.
Proof.
  rewrite (sorted_app [c] q). split.
  - intros (_ & ? & Hc). split; [done|]. intros b Hb. apply Hc; [by left|done].
  - intros [? Hc]. split_and!; [repeat constructor|done|]. intros a b ->%list_elem_of_singleton. apply Hc.
Qed.

Lemma sorted_seq_inj q a b : sorted q -> a ∈ q -> b ∈ q -> ncSeq a = ncSeq b -> a = b.
Proof.
  induction q as [|c q IH]; intros Hs Ha Hb E; [by apply elem_of_nil in Ha|]. apply sorted_cons in Hs as [Hs Hc].
  apply elem_of_cons in Ha as [->|Ha]; apply elem_of_cons in Hb as [->|Hb]; [done| | |by apply IH].
  - specialize (Hc b Hb). lia.
  - specialize (Hc a Ha). lia.
Qed.

(** The queue with one more connection ID. *)
Definition added (c : newConnID) (q q' : list newConnID) : Prop := sorted q' /\ forall e, e ∈ q' <-> e ∈ q \/ e = c.

Lemma insertConnID_spec c q : sorted q -> (exists e, e ∈ q /\ ncSeq c <= ncSeq e) ->
  match insertConnID c q with
  | Ok q' => added c q q'
  | Err _ => exists e, e ∈ q /\ ncSeq e = ncSeq c /\ e <> c
  | Panic _ => False
  end.
Proof.
  induction q as [|el q IH]; intros Hs (e & He & Hle); [by apply elem_of_nil in He|]. cbn [insertConnID].
  pose proof Hs as [Hq Hel]%sorted_cons. destruct (Z.eqb_spec (ncSeq el) (ncSeq c)) as [E|Hne].
  - case_bool_decide as H1; [exists el; split; [by left|]; split; [done|]; by intros ->|].
    case_bool_decide as H2; [exists el; split; [by left|]; split; [done|]; by intros ->|].
    assert (el = c) as -> by (destruct el, c; cbn in *; by subst).
    split; [done|]. intros x. rewrite elem_of_cons. naive_solver.
  - destruct (Z.ltb_spec (ncSeq c) (ncSeq el)) as [Hlt|Hge].
    + split; [|intros x; rewrite elem_of_cons; naive_solver]. apply sorted_cons. split; [done|].
      intros b [->|Hb]%elem_of_cons; [done|]. specialize (Hel b Hb). lia.
    + assert (He' : exists e, e ∈ q /\ ncSeq c <= ncSeq e).
      { apply elem_of_cons in He as [->|He]; [lia|by exists e]. }
      specialize (IH Hq He'). destruct (insertConnID c q) as [q'|err|m]; cbn [mbind res_bind]; [| |done].
      * destruct IH as [Hs' Hin]. split.
        -- apply sorted_cons. split; [done|]. intros b [Hb|Eb]%Hin; [by apply Hel|subst b; lia].
        -- intros x. rewrite !elem_of_cons, Hin. naive_solver.
      * destruct IH as (e' & He1 & He2). exists e'. split; [by right|done].
Qed.

Lemma retireFront_spec rpt q : sorted q ->
  exists pre, q = pre ++ (retireFront rpt q).2 /\ (retireFront rpt q).1 = seqs pre /\
    (forall e, e ∈ pre -> ncSeq e < rpt) /\ forall e, e ∈ (retireFront rpt q).2 -> rpt <= ncSeq e.
Proof.
  induction q as [|el q IH]; intros Hs; cbn [retireFront]; [exists []; split_and!; try done; by intros e ?%elem_of_nil|].
  pose proof Hs as [Hq Hel]%sorted_cons. destruct (Z.leb_spec rpt (ncSeq el)) as [Hle|Hlt].
  - exists []. split_and!; try done; [by intros e ?%elem_of_nil|]. intros e [->|He]%elem_of_cons; [done|]. specialize (Hel e He). lia.
  - destruct (IH Hq) as (pre & E & Es & Hpre & Hrest). destruct (retireFront rpt q) as [ss q']. cbn [fst snd] in *.
    exists (el :: pre). subst q ss. split_and!; try done. intros e [->|He]%elem_of_cons; [done|by apply Hpre].
Qed.

(** ** The manager *)

(** The sequence numbers for which a RETIRE_CONNECTION_ID frame was queued. *)
Definition ev_retired (e : cmEvent) : option Z := match e with CmRetireFrame s => Some s | _ => None end.
Definition cm_retired (h : connIDManager) : list Z := omap ev_retired (cmEvents h).

(** The reset tokens that are registered. *)
Definition ev_token (ts : gset bytes) (e : cmEvent) : gset bytes :=
  match e with CmAddToken t => {[t]} ∪ ts | CmRemoveToken t => ts ∖ {[t]} | CmRetireFrame _ => ts end.
Definition cm_tokens (h : connIDManager) : gset bytes := foldl ev_token ∅ (cmEvents h).

(** The connection IDs in use or in reserve, by sequence number. *)
Definition cm_has (h : connIDManager) (s : Z) : Prop := s = cmActiveSequenceNumber h \/ s ∈ seqs (cmQueue h).

Record cm_inv (h : connIDManager) : Prop := {
  ci_sorted : sorted (cmQueue h);
  ci_active c : c ∈ cmQueue h -> cmActiveSequenceNumber h < ncSeq c;
  ci_highest : 0 <= cmHighestRetired h <= cmActiveSequenceNumber h;
  ci_retired s : s ∈ cm_retired h -> s < cmActiveSequenceNumber h;
  ci_tokens : cm_tokens h = match cmActiveStatelessResetToken h with Some t => {[t]} | None => ∅ end
}.

Lemma retired_app h evs : cm_retired (cm_event evs h) = cm_retired h ++ omap ev_retired evs.
Proof. unfold cm_retired. cbn. by rewrite omap_app. Qed.

Lemma tokens_app h evs : cm_tokens (cm_event evs h) = foldl ev_token (cm_tokens h) evs.
Proof. unfold cm_tokens. cbn. by rewrite foldl_app. Qed.

Lemma retired_frames (ss : list Z) : omap ev_retired (CmRetireFrame <$> ss) = ss.
Proof. induction ss as [|s ss IH]; cbn; [done|]. by rewrite IH. Qed.

Lemma tokens_frames ts (ss : list Z) : foldl ev_token ts (CmRetireFrame <$> ss) = ts.
Proof. induction ss as [|s ss IH]; cbn; [done|]. by rewrite IH. Qed.

Lemma newConnIDManager_inv id pos : cm_inv (newConnIDManager id pos).
Proof. constructor; cbn; try done; [constructor|by intros c ?%elem_of_nil|by intros c ?%elem_of_nil]. Qed.

Section manager.
(** Among [fuel] random words there is one that is not rejected. *)
Context (rng : nat -> Z) (fuel : nat) (Hrng : forall pos, is_Some (Int31n rng fuel PacketsPerConnectionID pos)).
Implicit Types h : connIDManager.
Abbreviation noErr := (fun (_ : GoError) (_ : connIDManager) => False).

(** The state after a change of the connection ID to [c]. *)
Record updated (c : newConnID) (q : list newConnID) h h' : Prop := {
  up_queue : cmQueue h' = q;
  up_active : cmActiveSequenceNumber h' = ncSeq c;
  up_id : cmActiveConnectionID h' = ncID c;
  up_token : cmActiveStatelessResetToken h' = Some (ncToken c);
  up_highest : cmHighestRetired h' = Z.max (cmHighestRetired h) (cmActiveSequenceNumber h);
  up_retired : cm_retired h' = cm_retired h ++ [cmActiveSequenceNumber h];
  up_tokens : cm_tokens h = match cmActiveStatelessResetToken h with Some t => {[t]} | None => ∅ end -> cm_tokens h' = {[ncToken c]}
}.

Lemma wp_updateConnectionID h c q E : cmQueue h = c :: q -> wp (cm_updateConnectionID rng fuel) (fun _ => updated c q h) E h.
Proof.
  intros Hq. unfold cm_updateConnectionID. do 3 apply wp_bind, wp_modify. apply wp_bind, wp_get.
  set (h1 := cm_highestRetired _ (cm_event [CmRetireFrame (cmActiveSequenceNumber h)] h)).
  set (h2 := match cmActiveStatelessResetToken h1 with Some t => cm_event [CmRemoveToken t] h1 | None => h1 end).
  assert (H2 : cmQueue h2 = c :: q /\ cmHighestRetired h2 = Z.max (cmHighestRetired h) (cmActiveSequenceNumber h) /\
    cm_retired h2 = cm_retired h ++ [cmActiveSequenceNumber h] /\
    (cm_tokens h = match cmActiveStatelessResetToken h with Some t => {[t]} | None => ∅ end -> cm_tokens h2 = ∅)).
  { assert (Hr : cm_retired h1 = cm_retired h ++ [cmActiveSequenceNumber h]) by exact (retired_app h [CmRetireFrame (cmActiveSequenceNumber h)]).
    assert (Ht : cm_tokens h1 = cm_tokens h) by exact (tokens_app h [CmRetireFrame (cmActiveSequenceNumber h)]).
    unfold h2. change (cmActiveStatelessResetToken h1) with (cmActiveStatelessResetToken h).
    destruct (cmActiveStatelessResetToken h) as [t|]; split_and!; try done.
    - rewrite retired_app. cbn [omap]. by rewrite app_nil_r.
    - intros Hts. rewrite tokens_app, Ht, Hts. cbn. set_solver.
    - by rewrite Ht. }
  clearbody h2. destruct H2 as (Hq2 & Hh2 & Hr2 & Ht2). rewrite Hq2. destruct (Hrng (cmRand h2)) as [[r pos] ->].
  apply wp_bind, wp_modify, wp_modify. constructor; cbn; try done.
  - rewrite <- Hr2. unfold cm_retired. cbn. rewrite omap_app. cbn. by rewrite app_nil_r.
  - intros Hts. unfold cm_tokens. cbn. rewrite foldl_app. fold (cm_tokens h2). rewrite (Ht2 Hts). cbn. set_solver.
Qed.

Lemma updated_inv c q h h' : cm_inv h -> cmQueue h = c :: q -> updated c q h h' -> cm_inv h'.
Proof.
  intros [Hs Ha Hh Hr Ht] Hq [Uq Ua Uid Ut Uh Ur Utk]. rewrite Hq in *. apply sorted_cons in Hs as [Hs Hc].
  specialize (Ha c ltac:(by left)) as Hlt. constructor; rewrite ?Uq, ?Ua, ?Uh, ?Ut, ?Ur; [done|done| | |by apply Utk].
  - lia.
  - intros s [Hin|Es%list_elem_of_singleton]%elem_of_app; [specialize (Hr s Hin)|]; lia.
Qed.

Lemma wp_addConnectionID c h : sorted (cmQueue h) ->
  wp (cm_addConnectionID c) (fun _ h' => exists q, h' = cm_queue q h /\ added c (cmQueue h) q)
     (fun _ _ => exists e, e ∈ cmQueue h /\ ncSeq e = ncSeq c /\ e <> c) h.
Proof.
  intros Hs. apply wp_bind, wp_get. destruct (last (cmQueue h)) as [el|] eqn:El.
  - pose proof El as [l Hl]%last_Some. assert (Hel : el ∈ cmQueue h) by (rewrite Hl; apply elem_of_app; right; by left).
    destruct (Z.ltb_spec (ncSeq el) (ncSeq c)) as [Hc|Hc].
    + apply wp_modify. eexists. split; [done|]. split; [|intros e; rewrite elem_of_app, list_elem_of_singleton; done].
      apply sorted_app. split_and!; [done|repeat constructor|]. intros a b Ha ->%list_elem_of_singleton.
      rewrite Hl in Ha, Hs. apply elem_of_app in Ha as [Ha|Ha%list_elem_of_singleton]; [|by subst a].
      apply sorted_app in Hs as (_ & _ & H12). specialize (H12 a el Ha ltac:(by left)). lia.
    + pose proof (insertConnID_spec c (cmQueue h) Hs ltac:(by exists el)) as Hins. apply wp_bind. unfold wp at 1, lift.
      destruct (insertConnID c (cmQueue h)) as [q|e|m]; [apply wp_modify; by exists q|done|done].
  - apply last_None in El. apply wp_modify. rewrite El. exists [c]. split; [done|]. split; [repeat constructor|].
    intros e. rewrite elem_of_nil, list_elem_of_singleton. naive_solver.
Qed.

(** What a frame changes: the connection IDs in use and in reserve, those that are
    retired now, and where the new ones come from. *)
Record cm_changed (f : option NewConnectionIDFrame) h h' (new : list Z) : Prop := {
  ch_inv : cm_inv h';
  ch_retired : cm_retired h' = cm_retired h ++ new;
  ch_has s : cm_has h' s \/ s ∈ new <-> cm_has h s \/ Some s = (ncSequenceNumber <$> f);
  ch_active : cmActiveSequenceNumber h <= cmActiveSequenceNumber h';
  ch_queue c : c ∈ cmQueue h' -> c ∈ cmQueue h \/
    exists g, f = Some g /\ c = mkNewConnID (ncSequenceNumber g) (ncConnectionID g) (ncStatelessResetToken g);
  ch_id : cmActiveSequenceNumber h' = cmActiveSequenceNumber h /\ cmActiveConnectionID h' = cmActiveConnectionID h \/
    (exists c, c ∈ cmQueue h /\ ncSeq c = cmActiveSequenceNumber h' /\ ncID c = cmActiveConnectionID h') \/
    exists g, f = Some g /\ ncSequenceNumber g = cmActiveSequenceNumber h' /\ ncConnectionID g = cmActiveConnectionID h'
}.

Lemma retire_old_inv h rpt : cm_inv h ->
  let '(ss, q) := retireFront rpt (cmQueue h) in
  let h1 := cm_queue q (cm_event (CmRetireFrame <$> ss) h) in
  cm_retired h1 = cm_retired h ++ ss /\ cm_tokens h1 = cm_tokens h /\ sorted q /\
  (forall c, c ∈ q -> c ∈ cmQueue h /\ rpt <= ncSeq c) /\ (forall s, s ∈ seqs (cmQueue h) <-> s ∈ seqs q \/ s ∈ ss) /\ forall s, s ∈ ss -> s < rpt.
Proof.
  intros Hi. destruct (retireFront_spec rpt (cmQueue h) (ci_sorted h Hi)) as (pre & Eq & Es & Hpre & Hq).
  destruct (retireFront rpt (cmQueue h)) as [ss q]. cbn [fst snd] in *. subst ss. pose proof (ci_sorted h Hi) as Hs. rewrite Eq in Hs.
  apply sorted_app in Hs as (_ & Hs & _). split_and!; try done.
  - unfold cm_retired. cbn. by rewrite omap_app, retired_frames.
  - unfold cm_tokens. cbn. by rewrite foldl_app, tokens_frames.
  - intros c Hc. split; [rewrite Eq; apply elem_of_app; by right|by apply Hq].
  - intros s. rewrite Eq. unfold seqs. rewrite fmap_app, elem_of_app. naive_solver.
  - intros s Hs'. unfold seqs in Hs'. apply list_elem_of_fmap in Hs' as (e & -> & He). by apply Hpre.
Qed.

(** The state when the new connection ID is in the queue and before a change of the
    active one. *)
Record cm_mid (rpt : Z) h h1 (ss : list Z) : Prop := {
  cd_sorted : sorted (cmQueue h1);
  cd_active c : c ∈ cmQueue h1 -> cmActiveSequenceNumber h < ncSeq c /\ rpt <= ncSeq c;
  cd_from c : c ∈ cmQueue h1 -> c ∈ cmQueue h;
  cd_seqs s : s ∈ seqs (cmQueue h) <-> s ∈ seqs (cmQueue h1) \/ s ∈ ss;
  cd_old s : s ∈ ss -> s < rpt;
  cd_retired : cm_retired h1 = cm_retired h ++ ss;
  cd_tokens : cm_tokens h1 = cm_tokens h;
  cd_highest : cmHighestRetired h1 = Z.max (cmHighestRetired h) rpt;
  cd_same : (cmActiveSequenceNumber h1, cmActiveConnectionID h1, cmActiveStatelessResetToken h1) =
            (cmActiveSequenceNumber h, cmActiveConnectionID h, cmActiveStatelessResetToken h)
}.

Lemma wp_retire_old rpt h E : cm_inv h -> rpt <= cmHighestRetired h \/ cmHighestRetired h < rpt ->
  wp (if cmHighestRetired h <? rpt then
        let '(seqs, q) := retireFront rpt (cmQueue h) in
        modify (fun h => cm_highestRetired rpt (cm_queue q (cm_event (CmRetireFrame <$> seqs) h)))
      else mret tt) (fun _ h1 => exists ss, cm_mid rpt h h1 ss) E h.
Proof.
  intros Hi _. destruct (Z.ltb_spec (cmHighestRetired h) rpt) as [Hlt|Hge].
  - pose proof (retire_old_inv h rpt Hi) as Hr. destruct (retireFront rpt (cmQueue h)) as [ss q].
    destruct Hr as (R1 & R2 & R3 & R4 & R5 & R6). apply wp_modify. exists ss. constructor; cbn; try done; [|by intros c [? _]%R4|lia].
    intros c [Hc Hle]%R4. split; [by apply (ci_active h Hi)|done].
  - apply wp_ret. exists []. pose proof (ci_highest h Hi). constructor; try done; try apply Hi.
    + intros c Hc. pose proof (ci_active h Hi c Hc). lia.
    + intros s. by rewrite elem_of_nil; naive_solver.
    + by intros s ?%elem_of_nil.
    + by rewrite app_nil_r.
    + lia.
Qed.

Lemma added_seqs c q q' s : added c q q' -> s ∈ seqs q' <-> s ∈ seqs q \/ s = ncSeq c.
Proof.
  intros [_ Hin]. unfold seqs. rewrite !list_elem_of_fmap. setoid_rewrite Hin. naive_solver.
Qed.

Definition conn_of (f : NewConnectionIDFrame) : newConnID := mkNewConnID (ncSequenceNumber f) (ncConnectionID f) (ncStatelessResetToken f).

Lemma wp_cm_add f h : cm_inv h -> 0 <= ncRetirePriorTo f <= ncSequenceNumber f ->
  wp (cm_add rng fuel f) (fun _ h' => exists new, cm_changed (Some f) h h' new /\ ncRetirePriorTo f <= cmActiveSequenceNumber h')
     (fun _ _ => exists e, e ∈ cmQueue h /\ ncSeq e = ncSequenceNumber f /\ e <> conn_of f) h.
Proof.
  intros Hi Hrpt. unfold cm_add. apply wp_bind, wp_get. pose proof (ci_highest h Hi) as Hh.
  destruct (_ || _) eqn:Eold.
  { assert (Hlt : ncSequenceNumber f < cmActiveSequenceNumber h) by (apply orb_true_iff in Eold as [?%Z.ltb_lt|?%Z.ltb_lt]; lia).
    apply wp_modify. exists [ncSequenceNumber f]. split; [|cbn; lia].
    constructor; [|by rewrite retired_app| |done|by left|by left].
    - destruct Hi. constructor; [exact ci_sorted0|exact ci_active0|exact ci_highest0| |rewrite tokens_app; exact ci_tokens0].
      intros s. rewrite retired_app. intros [Hs|Es%list_elem_of_singleton]%elem_of_app; [by apply ci_retired0|by subst s].
    - intros s. rewrite list_elem_of_singleton. unfold cm_has. cbn. naive_solver. }
  apply orb_false_iff in Eold as [Hge%Z.ltb_ge Hge2%Z.ltb_ge].
  apply wp_bind. eapply wp_mono; [| |apply (wp_retire_old _ _ noErr); done || lia]; [|by intros]. intros [] h1 [ss Hm].
  destruct Hm as [Ms Ma Mf Mq Mo Mr Mt Mh Msame]. injection Msame as Msa Msi Mst.
  assert (Hss : forall s, s ∈ ss -> s < ncSequenceNumber f) by (intros s Hs; specialize (Mo s Hs); lia).
  destruct (Z.eqb_spec (ncSequenceNumber f) (cmActiveSequenceNumber h)) as [Eact|Hne].
  { apply wp_ret. exists ss. split; [|lia]. constructor; [|done| |lia|by left; apply Mf|left; by rewrite Msa, Msi].
    - constructor; [done|by intros c [? _]%Ma; rewrite Msa|lia| |by rewrite Mt, Mst; apply Hi].
      intros s. rewrite Mr, Msa. intros [Hs|Hs]%elem_of_app; [by apply (ci_retired h Hi)|]. specialize (Hss s Hs). lia.
    - intros s. unfold cm_has. rewrite Mq, Msa. cbn. naive_solver. }
  apply wp_bind. eapply wp_mono; [| |apply wp_addConnectionID; exact Ms]; [|intros _ _ (e & He & Hes); exists e; split; [by apply Mf|exact Hes]].
  intros [] h2 (q & -> & Hadd). fold (conn_of f) in Hadd. pose proof (fun s => added_seqs _ _ _ s Hadd) as Hsq. destruct Hadd as [Hqs Hin].
  cbn [ncSeq conn_of] in Hsq. set (h2 := cm_queue q h1).
  assert (Hq : forall c, c ∈ q -> cmActiveSequenceNumber h < ncSeq c /\ ncRetirePriorTo f <= ncSeq c).
  { intros c [Hc|Ec]%Hin; [by apply Ma|subst c; cbn; lia]. }
  assert (Hfrom : forall c, c ∈ q -> c ∈ cmQueue h \/ exists g, Some f = Some g /\ c = conn_of g).
  { intros c [Hc|Ec]%Hin; [left; by apply Mf|right; by exists f]. }
  assert (Hhas : forall s, (s = cmActiveSequenceNumber h \/ s ∈ seqs q) \/ s ∈ ss <-> cm_has h s \/ Some s = (ncSequenceNumber <$> Some f)).
  { intros s. unfold cm_has. rewrite Mq, Hsq. cbn. naive_solver. }
  assert (Hret2 : cm_retired h2 = cm_retired h ++ ss) by exact Mr.
  assert (Htok2 : cm_tokens h2 = match cmActiveStatelessResetToken h2 with Some t => {[t]} | None => ∅ end).
  { change (cm_tokens h1 = match cmActiveStatelessResetToken h1 with Some t => {[t]} | None => ∅ end). rewrite Mt, Mst. apply Hi. }
  destruct (Z.ltb_spec (cmActiveSequenceNumber h) (ncRetirePriorTo f)) as [Hupd|Hno].
  - destruct q as [|c0 q0]; [exfalso; by eapply not_elem_of_nil, (Hin (conn_of f)); right|].
    eapply wp_mono; [| |apply (wp_updateConnectionID h2 c0 q0 noErr); done]; [|by intros].
    intros [] h' U. exists (ss ++ [cmActiveSequenceNumber h]). destruct (Hq c0 ltac:(by left)) as [Hc0 Hc0r].
    pose proof (up_active _ _ _ _ U) as Ua. pose proof (up_queue _ _ _ _ U) as Uq. pose proof Hqs as [Hqs0 Hc0q]%sorted_cons.
    assert (Hret' : cm_retired h' = cm_retired h ++ ss ++ [cmActiveSequenceNumber h]).
    { rewrite (up_retired _ _ _ _ U), Hret2, <- (assoc_L (++)). do 3 f_equal. exact Msa. }
    split; [|lia]. constructor; [|done| |lia| |].
    + constructor; rewrite ?Ua, ?Uq; [done|done| | |rewrite (up_token _ _ _ _ U); by apply (up_tokens _ _ _ _ U)].
      * rewrite (up_highest _ _ _ _ U). change (cmHighestRetired h2) with (cmHighestRetired h1). change (cmActiveSequenceNumber h2) with (cmActiveSequenceNumber h1). lia.
      * intros s. rewrite Hret'. intros [Hs|[Hs|Es%list_elem_of_singleton]%elem_of_app]%elem_of_app.
        -- pose proof (ci_retired h Hi s Hs). lia.
        -- specialize (Mo s Hs). lia.
        -- lia.
    + intros s. rewrite <- Hhas. unfold cm_has. rewrite Ua, Uq, elem_of_app, list_elem_of_singleton. unfold seqs. cbn [fmap list_fmap].
      rewrite elem_of_cons. naive_solver.
    + intros c Hc. rewrite Uq in Hc. apply Hfrom. by right.
    + right. rewrite Ua, (up_id _ _ _ _ U). destruct (Hfrom c0 ltac:(by left)) as [Hc|(g & Eg & Ec)]; [left; by exists c0|].
      right. exists g. split; [done|]. by rewrite Ec.
  - apply wp_ret. exists ss. split; [|change (ncRetirePriorTo f <= cmActiveSequenceNumber h1); lia].
    constructor; [|done|by intros s; rewrite <- Hhas; unfold cm_has; cbn [cm_queue cmQueue cmActiveSequenceNumber h2]; rewrite Msa
      |change (cmActiveSequenceNumber h <= cmActiveSequenceNumber h1); lia|exact Hfrom|left; by rewrite <- Msa, <- Msi].
    constructor; [done| | | |done].
    + intros c [Hc _]%Hq. change (cmActiveSequenceNumber h1 < ncSeq c). lia.
    + change (0 <= cmHighestRetired h1 <= cmActiveSequenceNumber h1). lia.
    + intros s. rewrite Hret2. change (cmActiveSequenceNumber h2) with (cmActiveSequenceNumber h1). intros [Hs|Hs]%elem_of_app.
      * pose proof (ci_retired h Hi s Hs). lia.
      * specialize (Mo s Hs). lia.
Qed.

Lemma changed_none h h' : cm_inv h' -> cm_retired h' = cm_retired h -> cmQueue h' = cmQueue h ->
  cmActiveSequenceNumber h' = cmActiveSequenceNumber h -> cmActiveConnectionID h' = cmActiveConnectionID h -> cm_changed None h h' [].
Proof.
  intros Hi Hr Hq Ha Hid. constructor; try done; rewrite ?Ha, ?Hq; try done; [by rewrite app_nil_r| |by left|by left].
  intros s. unfold cm_has. rewrite Ha, Hq, elem_of_nil. cbn. naive_solver.
Qed.

Lemma wp_cm_Get h : cm_inv h ->
  wp (cm_Get rng fuel) (fun id h' => id = cmActiveConnectionID h' /\ exists new, cm_changed None h h' new) noErr h.
Proof.
  intros Hi. apply wp_bind, wp_get, wp_bind. destruct (cm_shouldUpdateConnID h) eqn:Eu.
  - assert (Hne : cmQueue h <> []).
    { intros E. unfold cm_shouldUpdateConnID in Eu. rewrite E in Eu. by destruct (cmHandshakeComplete h), (cmActiveSequenceNumber h =? 0). }
    destruct (cmQueue h) as [|c q] eqn:Eq; [done|]. eapply wp_mono; [| |apply (wp_updateConnectionID h c q noErr Eq)]; [|by intros].
    intros [] h' U. apply wp_bind, wp_get, wp_ret. split; [done|]. exists [cmActiveSequenceNumber h].
    pose proof (updated_inv c q h h' Hi Eq U) as Hi'. destruct U as [Uq Ua Uid _ _ Ur _]. pose proof (ci_active h Hi c) as Hc. rewrite Eq in Hc.
    specialize (Hc ltac:(by left)). constructor; [done|done| |lia| |].
    + intros s. unfold cm_has. rewrite Uq, Ua, Eq, list_elem_of_singleton. unfold seqs. cbn. rewrite elem_of_cons. naive_solver.
    + intros e. rewrite Uq, Eq. intros He. left. by right.
    + right. left. exists c. rewrite Eq. split_and!; [by left|done|done].
  - apply wp_ret, wp_bind, wp_get, wp_ret. split; [done|]. exists []. by apply changed_none.
Qed.

Lemma cm_SentPacket_changed h : cm_inv h -> cm_changed None h (cm_SentPacket h) [].
Proof. intros Hi. apply changed_none; try done. by destruct Hi. Qed.

Lemma cm_Complete_changed h : cm_inv h -> cm_changed None h (cm_SetHandshakeComplete h) [].
Proof. intros Hi. apply changed_none; try done. by destruct Hi. Qed.

(** [Add] with its limit. *)
Lemma wp_cm_Add f h : cm_inv h -> 0 <= ncRetirePriorTo f <= ncSequenceNumber f ->
  wp (cm_Add rng fuel f)
     (fun _ h' => exists new, cm_changed (Some f) h h' new /\ ncRetirePriorTo f <= cmActiveSequenceNumber h' /\ blen (cmQueue h') < MaxActiveConnectionIDs)
     (fun e h' => (exists c, c ∈ cmQueue h /\ ncSeq c = ncSequenceNumber f /\ c <> conn_of f) \/
        e = TransportError ConnectionIDLimitError 0 "" /\ exists new, cm_changed (Some f) h h' new /\ ncRetirePriorTo f <= cmActiveSequenceNumber h' /\
          MaxActiveConnectionIDs <= blen (cmQueue h')) h.
Proof.
  intros Hi Hr. apply wp_bind. eapply wp_mono; [| |by apply wp_cm_add]; [|by left]. intros [] h' (new & Hc & Hle). apply wp_bind, wp_get.
  destruct (Z.leb_spec MaxActiveConnectionIDs (blen (cmQueue h'))) as [Hm|Hm]; [|apply wp_ret; by exists new].
  right. split; [done|]. by exists new.
Qed.
End manager.
