(* ===== verification/ConnIDClaims.v ===== *)
(** * ConnIDClaims: connection IDs are switched and retired consistently

    What the manager of the peer's connection IDs does for every sequence of
    frames, and that the two sides together never break the connection. *)

From S2P Require Import Prelude Protocol PNGenerator Frames ConnIDs ConnIDProofs.
From stdpp Require Import base numbers list option strings gmap sorting.
From Stdlib Require Import ZArith Lia.
#[local] Open Scope Z_scope.

(** ** The manager on its own *)

Inductive cm_op := CAdd (f : NewConnectionIDFrame) | CGet | CSent | CComplete.

Definition cm_frame (o : cm_op) : option NewConnectionIDFrame := match o with CAdd f => Some f | _ => None end.
Definition cm_op_ok (o : cm_op) : Prop := match o with CAdd f => 0 <= ncRetirePriorTo f <= ncSequenceNumber f | _ => True end.

Section manager.
Context (rng : nat -> Z) (fuel : nat) (Hrng : forall pos, is_Some (Int31n rng fuel PacketsPerConnectionID pos)).

Definition cm_do (o : cm_op) : stM connIDManager unit :=
  match o with
  | CAdd f => cm_Add rng fuel f
  | CGet => _ ← cm_Get rng fuel; mret tt
  | CSent => modify cm_SentPacket
  | CComplete => modify cm_SetHandshakeComplete
  end.

(** The connection is closed at the first error. *)
Fixpoint cm_run (os : list cm_op) : stM connIDManager unit :=
  match os with
  | [] => mret tt
  | o :: os' => _ ← cm_do o; cm_run os'
  end.

(** The manager of a connection after the handshake: the connection ID was chosen
    by the peer, which may have sent a reset token for it and a preferred address. *)
Definition cm_start (id id' : bytes) (token : option bytes) (preferred : option (bytes * bytes)) : stM connIDManager unit :=
  _ ← cm_ChangeInitialConnID id';
  _ ← match token with Some t => cm_SetStatelessResetToken t | None => mret tt end;
  match preferred with Some (connID, t) => cm_AddFromPreferredAddress connID t | None => mret tt end.

(** The preferred address counts as a frame with the sequence number 1. *)
Definition cm_frames (preferred : option (bytes * bytes)) (os : list cm_op) : list NewConnectionIDFrame :=
  option_list ((fun ct => mkNewConnectionID 1 0 ct.1 ct.2) <$> preferred) ++ omap cm_frame os.

(** The manager after the frames [fs]. *)
Record cm_sound (id : bytes) (fs : list NewConnectionIDFrame) (h : connIDManager) : Prop := {
  cs_inv : cm_inv h;
  cs_seen s : cm_has h s \/ s ∈ cm_retired h <-> s = 0 \/ s ∈ ncSequenceNumber <$> fs;
  cs_prior f : f ∈ fs -> ncRetirePriorTo f <= cmActiveSequenceNumber h;
  cs_queue c : c ∈ cmQueue h -> exists f, f ∈ fs /\ c = conn_of f;
  cs_active : cmActiveSequenceNumber h = 0 /\ cmActiveConnectionID h = id \/
    exists f, f ∈ fs /\ ncSequenceNumber f = cmActiveSequenceNumber h /\ ncConnectionID f = cmActiveConnectionID h
}.

Lemma sound_changed id fs f h h' new : cm_sound id fs h -> cm_changed f h h' new ->
  (forall g, f = Some g -> ncRetirePriorTo g <= cmActiveSequenceNumber h') -> cm_sound id (fs ++ option_list f) h'.
Proof.
  intros [Hi Hseen Hprior Hq Ha] [Ci Cr Ch Cle Cq Cid] Hf.
  assert (Hopt : forall g, g ∈ option_list f <-> f = Some g) by (intros g; destruct f; cbn; rewrite ?list_elem_of_singleton, ?elem_of_nil; naive_solver).
  constructor; [done|..].
  - intros s. rewrite fmap_app, elem_of_app, Cr, elem_of_app.
    assert (Hs : s ∈ ncSequenceNumber <$> option_list f <-> Some s = ncSequenceNumber <$> f)
      by (rewrite list_elem_of_fmap; setoid_rewrite Hopt; destruct f; cbn; naive_solver).
    rewrite Hs. specialize (Hseen s). specialize (Ch s). revert Hseen Ch. clear.
    generalize (cm_has h s) (cm_has h' s) (s ∈ new) (s ∈ cm_retired h) (s = 0) (s ∈ ncSequenceNumber <$> fs) (Some s = ncSequenceNumber <$> f).
    intros A B C D F G I [H1 H1'] [H2 H2']. assert (Ha : A -> F \/ G) by auto. assert (Hd : D -> F \/ G) by auto. split.
    + intros [b|[d|c]]; [destruct (H2 (or_introl b)) as [a|i]; [destruct (Ha a)|]|destruct (Hd d)|destruct (H2 (or_intror c)) as [a|i]; [destruct (Ha a)|]]; auto.
    + intros [x|[x|i]]; [destruct (H1' (or_introl x)) as [a|d]; [destruct (H2' (or_introl a))|]|destruct (H1' (or_intror x)) as [a|d]; [destruct (H2' (or_introl a))|]
        |destruct (H2' (or_intror i))]; auto.
  - intros g [Hg|Hg]%elem_of_app; [specialize (Hprior g Hg); lia|]. apply Hf. by apply Hopt.
  - intros c Hc. destruct (Cq c Hc) as [Hc'|(g & Eg & Ec)].
    + destruct (Hq c Hc') as (g & Hg & E). exists g. split; [apply elem_of_app; by left|done].
    + exists g. split; [apply elem_of_app; right; by apply Hopt|done].
  - destruct Cid as [[Ea Ei]|[(c & Hc & Ea & Ei)|(g & Eg & Ea & Ei)]].
    + rewrite Ea, Ei. destruct Ha as [?|(g & Hg & E)]; [by left|right]. exists g. split; [apply elem_of_app; by left|done].
    + right. destruct (Hq c Hc) as (g & Hg & ->). exists g. split; [apply elem_of_app; by left|done].
    + right. exists g. split; [apply elem_of_app; right; by apply Hopt|done].
Qed.

(** Why an operation fails: two frames contradict each other, or there are more
    than four connection IDs that are not to be retired. *)
Definition cm_failure (fs : list NewConnectionIDFrame) (e : GoError) : Prop :=
  (exists f g, f ∈ fs /\ g ∈ fs /\ ncSequenceNumber f = ncSequenceNumber g /\ conn_of f <> conn_of g) \/
  e = TransportError ConnectionIDLimitError 0 "" /\ exists ss, NoDup ss /\ MaxActiveConnectionIDs < blen ss /\
    forall s, s ∈ ss -> (s = 0 \/ s ∈ ncSequenceNumber <$> fs) /\ forall f, f ∈ fs -> ncRetirePriorTo f <= s.

Lemma sorted_nodup q : sorted q -> NoDup (seqs q).
Proof.
  unfold sorted. induction 1 as [|s ss Hs IH Hlt]; constructor; [|done]. intros Hin. rewrite Forall_forall in Hlt. specialize (Hlt s Hin). lia.
Qed.

Lemma queue_subset (q q' : list newConnID) : sorted q' -> (forall c, c ∈ q' -> c ∈ q) -> blen q' <= blen q.
Proof.
  intros Hs Hsub. apply sorted_nodup in Hs. assert (Hnd : NoDup q') by (unfold seqs in Hs; by apply NoDup_fmap_1 in Hs).
  pose proof (submseteq_length _ _ (NoDup_submseteq q' q Hnd Hsub)). unfold blen. lia.
Qed.

Lemma cm_do_sound id fs o h : cm_sound id fs h -> cm_op_ok o ->
  wp (cm_do o) (fun _ h' => cm_sound id (fs ++ option_list (cm_frame o)) h' /\ (blen (cmQueue h) < MaxActiveConnectionIDs -> blen (cmQueue h') < MaxActiveConnectionIDs))
     (fun e _ => cm_failure (fs ++ option_list (cm_frame o)) e) h.
Proof.
  intros Hs Ho. pose proof (cs_inv _ _ _ Hs) as Hi.
  assert (Hother : forall h' new, cm_changed None h h' new -> cm_sound id (fs ++ []) h' /\ (blen (cmQueue h) < MaxActiveConnectionIDs -> blen (cmQueue h') < MaxActiveConnectionIDs)).
  { intros h' new Hc. split; [by eapply (sound_changed _ _ None)|]. pose proof (queue_subset (cmQueue h) (cmQueue h')) as Hq.
    specialize (Hq (ci_sorted _ (ch_inv _ _ _ _ Hc))). intros Hlt. eapply Z.le_lt_trans; [|exact Hlt]. apply Hq.
    intros c Hin. by destruct (ch_queue _ _ _ _ Hc c Hin) as [|(? & ? & _)]. }
  destruct o as [f| | |]; cbn [cm_do cm_frame cm_op_ok option_list option_rect] in *.
  - eapply wp_mono; [| |by apply wp_cm_Add].
    + intros [] h' (new & Hc & Hle & Hlt). split; [|done]. eapply (sound_changed _ _ (Some f)); [done..|]. by intros g [= <-].
    + intros e h' [(c & Hc & Es & Hne)|[-> (new & Hc & Hle & Hlen)]].
      * left. destruct (cs_queue _ _ _ Hs c Hc) as (g & Hg & ->). exists g, f. split_and!; [apply elem_of_app; by left|apply elem_of_app; right; by left|done|done].
      * right. split; [done|]. assert (Hs' : cm_sound id (fs ++ [f]) h') by (eapply (sound_changed _ _ (Some f)); [done..|]; by intros g [= <-]).
        pose proof (cs_inv _ _ _ Hs') as Hi'. exists (cmActiveSequenceNumber h' :: seqs (cmQueue h')).
        assert (Hge : forall s, s ∈ cmActiveSequenceNumber h' :: seqs (cmQueue h') -> cm_has h' s /\ cmActiveSequenceNumber h' <= s).
        { intros s [->|Hin]%elem_of_cons; [split; [by left|lia]|]. split; [by right|]. apply list_elem_of_fmap in Hin as (c & -> & Hin).
          pose proof (ci_active h' Hi' c Hin). lia. }
        split_and!.
        -- constructor; [|apply sorted_nodup, Hi']. intros (c & E & Hin)%list_elem_of_fmap. pose proof (ci_active h' Hi' c Hin). lia.
        -- rewrite blen_cons. unfold seqs, blen in *. rewrite length_fmap. lia.
        -- intros s [Hhas Hle']%Hge. split; [apply (cs_seen _ _ _ Hs'); by left|]. intros g Hg. pose proof (cs_prior _ _ _ Hs' g Hg). lia.
  - apply wp_bind. eapply wp_mono; [| |by apply wp_cm_Get]; [|done]. intros id0 h' (_ & new & Hc). apply wp_ret. by eapply Hother.
  - apply wp_modify. by eapply Hother, cm_SentPacket_changed.
  - apply wp_modify. by eapply Hother, cm_Complete_changed.
Qed.

Lemma cm_run_sound id os : Forall cm_op_ok os -> forall fs h, cm_sound id fs h -> blen (cmQueue h) < MaxActiveConnectionIDs ->
  wp (cm_run os) (fun _ h' => cm_sound id (fs ++ omap cm_frame os) h' /\ blen (cmQueue h') < MaxActiveConnectionIDs)
     (fun e _ => exists k, cm_failure (fs ++ omap cm_frame (take k os)) e) h.
Proof.
  assert (Hcat : forall o os fs, fs ++ omap cm_frame (o :: os) = (fs ++ option_list (cm_frame o)) ++ omap cm_frame os)
    by (intros o os' fs; rewrite <- (assoc_L (++)); cbn; by destruct (cm_frame o)).
  induction 1 as [|o os Ho _ IH]; intros fs h Hs Hl; cbn [cm_run]; [apply wp_ret; cbn; by rewrite app_nil_r|].
  rewrite Hcat. apply wp_bind. eapply wp_mono; [| |by apply cm_do_sound].
  - intros [] h' [Hs' Hl']. eapply wp_mono; [| |apply IH; [exact Hs'|by apply Hl']]; [done|].
    intros e h2 [k Hk]. exists (S k). cbn [take]. by rewrite Hcat.
  - intros e h' Hf. exists 1%nat. cbn [take]. rewrite take_0, Hcat. cbn. by rewrite app_nil_r.
Qed.

Lemma cm_start_sound id id' token preferred pos E :
  wp (cm_start id id' token preferred) (fun _ h => cm_sound id' (cm_frames preferred []) h /\ blen (cmQueue h) < MaxActiveConnectionIDs) E (newConnIDManager id pos).
Proof.
  unfold cm_start. apply wp_bind, wp_bind, wp_get. cbn [cmActiveSequenceNumber newConnIDManager Z.eqb negb]. apply wp_modify. apply wp_bind.
  set (h1 := cm_activate _ id' _ _ _ _ (newConnIDManager id pos)).
  assert (H2 : forall h2, cm_inv h2 -> cmQueue h2 = [] -> cmActiveSequenceNumber h2 = 0 -> cmActiveConnectionID h2 = id' -> cm_retired h2 = [] ->
    wp (match preferred with Some (connID, t) => cm_AddFromPreferredAddress connID t | None => mret tt end)
      (fun _ h => cm_sound id' (cm_frames preferred []) h /\ blen (cmQueue h) < MaxActiveConnectionIDs) E h2).
  { intros h2 Hi Hq Ha Hid Hr. unfold cm_frames. cbn [omap list_omap]. destruct preferred as [[connID t]|]; cbn [fmap option_fmap option_map option_list option_rect app].
    - apply wp_bind, wp_get. rewrite Hq. cbn [last]. apply wp_modify. split; [|done].
      assert (Hi' : cm_inv (cm_queue [mkNewConnID 1 connID t] h2)).
      { destruct Hi. constructor; cbn [cm_queue cmQueue cmActiveSequenceNumber]; try done; [repeat constructor|].
        intros c ->%list_elem_of_singleton. cbn. lia. }
      constructor; cbn [cm_queue cmQueue cmActiveSequenceNumber cmActiveConnectionID]; [done| | | |left; by split].
      + intros s. unfold cm_has. cbn [cm_queue cmQueue cmActiveSequenceNumber]. match goal with |- context [cm_retired ?x] => change (cm_retired x) with (cm_retired h2) end.
        rewrite Hr, Ha. cbn. rewrite !list_elem_of_singleton, elem_of_nil. naive_solver.
      + intros f ->%list_elem_of_singleton. cbn. lia.
      + intros c ->%list_elem_of_singleton. eexists. split; [by left|done].
    - apply wp_ret. rewrite Hq. split; [|done]. constructor; rewrite ?Ha; [done| |by intros f ?%elem_of_nil| |left; by split].
      + intros s. unfold cm_has. rewrite Hq, Hr, Ha. cbn. rewrite !elem_of_nil. naive_solver.
      + rewrite Hq. by intros c ?%elem_of_nil. }
  assert (Hi1 : cm_inv h1) by (destruct (newConnIDManager_inv id pos); by constructor).
  destruct token as [t|]; [|apply wp_ret; by apply H2].
  apply wp_bind, wp_get. cbn [cmActiveSequenceNumber cm_activate h1 newConnIDManager Z.eqb negb]. apply wp_modify. apply H2; try done.
  destruct Hi1. constructor; try done. unfold cm_tokens. cbn. set_solver.
Qed.

(** C25: The connection IDs of the peer are managed consistently.  Whatever
    NEW_CONNECTION_ID frames arrive, in any order, and whenever packets are sent,
    the manager does not panic.  Every sequence number that was announced is the
    active one, in the queue, or retired, the retired ones being lower and the queued
    ones higher than the active one; the active connection ID is the one that was
    announced for its number and is not below any Retire Prior To; at most four are
    kept; and the registered reset token is exactly the one of the active
    connection ID.  An error is returned only for contradictory frames, or if more
    than four connection IDs are to be kept. *)
Theorem conn_id_manager_consistent id id' token preferred pos os : Forall cm_op_ok os ->
  match (_ ← cm_start id id' token preferred; cm_run os) (newConnIDManager id pos) with
  | (Ok _, h) =>
      let fs := cm_frames preferred os in
      (forall s, (s = 0 \/ s ∈ ncSequenceNumber <$> fs) <-> s = cmActiveSequenceNumber h \/ s ∈ seqs (cmQueue h) \/ s ∈ cm_retired h) /\
      (forall s, s ∈ cm_retired h -> s < cmActiveSequenceNumber h) /\ (forall s, s ∈ seqs (cmQueue h) -> cmActiveSequenceNumber h < s) /\
      (cmActiveSequenceNumber h = 0 /\ cmActiveConnectionID h = id' \/
        exists f, f ∈ fs /\ ncSequenceNumber f = cmActiveSequenceNumber h /\ ncConnectionID f = cmActiveConnectionID h) /\
      (forall f, f ∈ fs -> ncRetirePriorTo f <= cmActiveSequenceNumber h) /\
      1 + blen (cmQueue h) <= MaxActiveConnectionIDs /\
      cm_tokens h = match cmActiveStatelessResetToken h with Some t => {[t]} | None => ∅ end
  | (Err e, _) => exists k, cm_failure (cm_frames preferred (take k os)) e
  | (Panic _, _) => False
  end.
Proof.
  intros Hos.
  assert (Hw : wp (_ ← cm_start id id' token preferred; cm_run os)
    (fun _ h => cm_sound id' (cm_frames preferred os) h /\ blen (cmQueue h) < MaxActiveConnectionIDs)
    (fun e _ => exists k, cm_failure (cm_frames preferred (take k os)) e) (newConnIDManager id pos)).
  { apply wp_bind. eapply wp_mono; [| |by apply (cm_start_sound _ _ _ _ _ (fun _ _ => False))]; [|done]. intros [] h [Hs Hl].
    unfold cm_frames in *. cbn [omap list_omap] in Hs. rewrite app_nil_r in Hs. by apply cm_run_sound. }
  unfold wp in Hw. destruct ((_ ← cm_start id id' token preferred; cm_run os) (newConnIDManager id pos)) as [[[]|e|m] h]; [|done|done].
  destruct Hw as [[Hi Hseen Hprior Hq Ha] Hl]. cbv zeta. split_and!; try done; [| | |unfold MaxActiveConnectionIDs in *; lia|].
  - intros s. rewrite <- Hseen. unfold cm_has. tauto.
  - apply Hi.
  - intros s (c & -> & Hc)%list_elem_of_fmap. by apply Hi.
  - apply Hi.
Qed.
End manager.

Lemma conn_id_manager_consistent_witness :
  let os := [CAdd (mkNewConnectionID 3 0 [3] [33]); CComplete; CGet; CAdd (mkNewConnectionID 2 0 [2] [22]); CAdd (mkNewConnectionID 4 4 [4] [44]); CSent] in
  match (_ ← cm_start [9] [8] (Some [88]) (Some ([1], [11])); cm_run (fun _ => 0) 0 os) (newConnIDManager [9] 0) with
  | (Ok _, h) => 1 + blen (cmQueue h) <= MaxActiveConnectionIDs /\ cm_retired h = [0; 2; 3; 1]
  | _ => False
  end.
Proof.
  intros os. pose proof (conn_id_manager_consistent (fun _ => 0) 0 ltac:(intros pos; by eexists) [9] [8] (Some [88]) (Some ([1], [11])) 0 os
    ltac:(repeat constructor; cbn; lia)) as H.
  assert (Hr : match (_ ← cm_start [9] [8] (Some [88]) (Some ([1], [11])); cm_run (fun _ => 0) 0 os) (newConnIDManager [9] 0) with
    | (Ok _, h) => cm_retired h = [0; 2; 3; 1] | _ => False end) by (vm_compute; reflexivity).
  destruct ((_ ← cm_start [9] [8] (Some [88]) (Some ([1], [11])); cm_run (fun _ => 0) 0 os) (newConnIDManager [9] 0)) as [[[]|e|p] h]; [|exact Hr..].
  split; [apply H|exact Hr].
Defined.

(** ** Both sides of a connection *)

Definition ev_frame (e : cgEvent) : option NewConnectionIDFrame := match e with CgNewConnectionID f => Some f | _ => None end.
Definition cg_frames (m : connIDGenerator) : list NewConnectionIDFrame := omap ev_frame (cgEvents m).

(** The connection IDs for which packets are routed to the connection. *)
Definition ev_routed (ids : gset bytes) (e : cgEvent) : gset bytes :=
  match e with CgAdd id => {[id]} ∪ ids | CgRemove id | CgRetire id => ids ∖ {[id]} | _ => ids end.
Definition cg_routed (init : bytes) (m : connIDGenerator) : gset bytes := foldl ev_routed {[init]} (cgEvents m).

Section system.
Context (rng : nat -> Z) (fuel : nat) (Hrng : forall pos, is_Some (Int31n rng fuel PacketsPerConnectionID pos)).
(** The generator of the user returns distinct connection IDs. *)
Context (init : bytes) (gid : nat -> bytes) (len limit : Z) (token : bytes -> bytes).
Context (Hgid : forall n k, gid n = gid k -> n = k) (Hinit : forall n, gid n <> init).
Context (Hlimit : 1 <= limit <= MaxActiveConnectionIDs).

(** The endpoint that issues connection IDs, the one that uses them, the RETIRE
    frames with the position in the history from which on they are sent, and the
    history of the sequence numbers and connection IDs in use. *)
Record id_world := mkIdWorld {
  iwGen : connIDGenerator;
  iwMgr : connIDManager;
  iwRetire : list (Z * nat);
  iwHist : list (Z * bytes)
}.

Inductive id_op :=
  | WLimit                          (* the transport parameters are applied *)
  | WNew (i : nat)                  (* the i-th NEW_CONNECTION_ID frame arrives (again) *)
  | WGet | WSent | WComplete        (* the other endpoint sends packets *)
  | WRetire (i j : nat).            (* the i-th RETIRE_CONNECTION_ID frame arrives in a packet to the j-th connection ID *)

Definition observe (w : id_world) (h : connIDManager) : id_world :=
  let new := drop (length (cm_retired (iwMgr w))) (cm_retired h) in
  mkIdWorld (iwGen w) h (iwRetire w ++ ((fun s => (s, length (iwHist w))) <$> new))
    (iwHist w ++ [(cmActiveSequenceNumber h, cmActiveConnectionID h)]).

Definition on_mgr {A} (w : id_world) (m : stM connIDManager A) : res id_world :=
  match m (iwMgr w) with
  | (Ok _, h) => Ok (observe w h)
  | (Err e, _) => Err e
  | (Panic p, _) => Panic p
  end.

Definition on_gen {A} (w : id_world) (m : stM connIDGenerator A) : res id_world :=
  match m (iwGen w) with
  | (Ok _, g) => Ok (mkIdWorld g (iwMgr w) (iwRetire w) (iwHist w))
  | (Err e, _) => Err e
  | (Panic p, _) => Panic p
  end.

Definition id_do (w : id_world) (o : id_op) : res id_world :=
  match o with
  | WLimit => on_gen w (cg_SetMaxActiveConnIDs (fun n => Ok (gid n)) len token limit)
  | WNew i => match cg_frames (iwGen w) !! i with Some f => on_mgr w (cm_Add rng fuel f) | None => Ok w end
  | WGet => on_mgr w (cm_Get rng fuel)
  | WSent => on_mgr w (modify cm_SentPacket)
  | WComplete => on_mgr w (modify cm_SetHandshakeComplete)
  | WRetire i j =>
      match iwRetire w !! i, iwHist w !! j with
      | Some (s, from), Some (_, id) =>
          if bool_decide (from <= j)%nat then on_gen w (cg_Retire (fun n => Ok (gid n)) token s id) else Ok w
      | _, _ => Ok w
      end
  end.

Fixpoint id_run (w : id_world) (os : list id_op) : res id_world :=
  match os with
  | [] => Ok w
  | o :: os' => w' ← id_do w o; id_run w' os'
  end.

Definition id_start (pos : nat) : id_world :=
  mkIdWorld (newConnIDGenerator init None) (newConnIDManager init pos) [] [(0, init)].

(** The connection ID with a sequence number. *)
Definition id_of (s : Z) : bytes := if s =? 0 then init else gid (Z.to_nat (s - 1)).

Lemma id_of_inj s t : 0 <= s -> 0 <= t -> id_of s = id_of t -> s = t.
Proof.
  unfold id_of. destruct (Z.eqb_spec s 0), (Z.eqb_spec t 0); intros Hs Ht E; [lia| | |].
  - symmetry in E. by apply Hinit in E.
  - by apply Hinit in E.
  - apply Hgid in E. lia.
Qed.

Record cg_inv (bound : Z) (m : connIDGenerator) : Prop := {
  gi_highest : 0 <= cgHighestSeq m <= bound;
  gi_generated : cgGenerated m = Z.to_nat (cgHighestSeq m);
  gi_active s id : cgActiveSrcConnIDs m !! s = Some id -> 0 <= s <= cgHighestSeq m /\ id = id_of s;
  gi_size : Z.of_nat (size (cgActiveSrcConnIDs m)) <= limit;
  gi_frames f : f ∈ cg_frames m -> 1 <= ncSequenceNumber f <= cgHighestSeq m /\ ncRetirePriorTo f = 0 /\
    ncConnectionID f = id_of (ncSequenceNumber f) /\ ncStatelessResetToken f = token (id_of (ncSequenceNumber f));
  gi_routed id : id ∈ cg_routed init m <-> exists s, cgActiveSrcConnIDs m !! s = Some id
}.

Lemma cg_inv_mono b b' x : cg_inv b x -> b <= b' -> cg_inv b' x.
Proof. intros [Hh Hg Ha Hs Hf Hr] Hle. constructor; [lia|done..]. Qed.

Lemma issue_spec bound m : cg_inv bound m -> bound < 2 ^ 63 -> Z.of_nat (size (cgActiveSrcConnIDs m)) < limit ->
  exists m', cg_issueNewConnID (fun n => Ok (gid n)) token m = (Ok tt, m') /\ cg_inv (bound + 1) m' /\
    cgHighestSeq m' = cgHighestSeq m + 1 /\ cgActiveSrcConnIDs m' = <[cgHighestSeq m + 1 := id_of (cgHighestSeq m + 1)]> (cgActiveSrcConnIDs m).
Proof.
  intros [Hh Hg Ha Hs Hf Hr] Hb Hlt. unfold cg_issueNewConnID, mbind, stM_bind, get, modify, lift.
  rewrite u64_small by int_range.
  assert (Eid : gid (cgGenerated m) = id_of (cgHighestSeq m + 1)).
  { unfold id_of. zfalse (cgHighestSeq m + 1 =? 0). rewrite Hg. f_equal. lia. }
  rewrite Eid. set (s := cgHighestSeq m + 1) in *. eexists. split; [done|]. split; [|by split].
  assert (Hnone : cgActiveSrcConnIDs m !! s = None) by (destruct (cgActiveSrcConnIDs m !! s) as [x|] eqn:E; [|done]; apply Ha in E as [? _]; lia).
  constructor; cbn [cgHighestSeq cgGenerated cgActiveSrcConnIDs cgEvents].
  - lia.
  - lia.
  - intros t id. destruct (decide (s = t)) as [<-|Hne]; [rewrite lookup_insert_eq; intros [= <-]; split; [lia|done]|].
    rewrite lookup_insert_ne by done. intros [? ?]%Ha. split; [lia|done].
  - rewrite map_size_insert_None by done. lia.
  - intros f. unfold cg_frames. cbn. rewrite omap_app. intros [Hin|Hin]%elem_of_app.
    + destruct (Hf f Hin) as (? & ? & ? & ?). split_and!; try done; lia.
    + cbn in Hin. apply list_elem_of_singleton in Hin as ->. cbn. split_and!; try done; lia.
  - intros id. unfold cg_routed. cbn. rewrite foldl_app. fold (cg_routed init m). cbn. rewrite elem_of_union, elem_of_singleton, Hr. split.
    + intros [->|(t & Ht)]; [exists s; by rewrite lookup_insert_eq|]. exists t. rewrite lookup_insert_ne; [done|]. intros <-. by rewrite Hnone in Ht.
    + intros (t & Ht). destruct (decide (s = t)) as [<-|Hne]; [rewrite lookup_insert_eq in Ht; injection Ht as <-; by left|].
      rewrite lookup_insert_ne in Ht by done. right. by exists t.
Qed.

(** A connection ID that was issued and is no longer active. *)
Definition gone (m : connIDGenerator) (t : Z) : Prop := 0 <= t <= cgHighestSeq m /\ cgActiveSrcConnIDs m !! t = None.

Lemma issueLoop_spec k : forall bound m, cg_inv bound m -> bound + Z.of_nat k < 2 ^ 63 -> Z.of_nat (size (cgActiveSrcConnIDs m)) + Z.of_nat k <= limit ->
  exists m', cg_issueLoop (fun n => Ok (gid n)) token k m = (Ok tt, m') /\ cg_inv (bound + Z.of_nat k) m' /\
    cgHighestSeq m <= cgHighestSeq m' /\ forall t, gone m' t -> gone m t.
Proof.
  induction k as [|k IH]; intros bound m Hm Hb Hs; cbn [cg_issueLoop].
  { exists m. rewrite Z.add_0_r. split_and!; try done. }
  destruct (issue_spec bound m Hm) as (m1 & E1 & Hm1 & Hh1 & Ha1); [lia|lia|]. rewrite (stM_bind_ok _ _ _ _ _ E1).
  destruct (IH (bound + 1) m1 Hm1) as (m' & E' & Hm' & Hh' & Hgone); [lia| |].
  - pose proof (gi_active _ _ Hm) as Ha. rewrite Ha1, map_size_insert_None; [lia|]. destruct (_ !! (cgHighestSeq m + 1)) as [x|] eqn:E; [|done]. apply Ha in E as [? _]. lia.
  - exists m'. split_and!; [done|by replace (bound + Z.of_nat (S k)) with (bound + 1 + Z.of_nat k) by lia|lia|].
    intros t Ht. destruct (Hgone t Ht) as [Hr Hl]. rewrite Ha1 in Hl. rewrite Hh1 in Hr.
    destruct (decide (cgHighestSeq m + 1 = t)) as [<-|Hne]; [by rewrite lookup_insert_eq in Hl|]. rewrite lookup_insert_ne in Hl by done. split; [lia|done].
Qed.

Lemma SetMax_spec bound m : cg_inv bound m -> bound < 2 ^ 62 ->
  exists m', cg_SetMaxActiveConnIDs (fun n => Ok (gid n)) len token limit m = (Ok tt, m') /\ cg_inv (bound + 4) m' /\
    cgHighestSeq m <= cgHighestSeq m' /\ forall t, gone m' t -> gone m t.
Proof.
  intros Hm Hb. unfold MaxActiveConnectionIDs in Hlimit.
  unfold cg_SetMaxActiveConnIDs. destruct (len =? 0); [exists m; split_and!; [done|apply (cg_inv_mono bound); [done|lia]|lia|done]|].
  unfold mbind, stM_bind, get. set (k := Z.to_nat _). pose proof (gi_size _ _ Hm) as Hs.
  assert (Hk : Z.of_nat (size (cgActiveSrcConnIDs m)) + Z.of_nat k <= limit /\ Z.of_nat k <= 4) by (unfold k, MaxIssuedConnectionIDs in *; lia).
  destruct (issueLoop_spec k bound m Hm) as (m' & E & Hm' & Hh & Hg); [lia|lia|]. exists m'. split_and!; [done| |done|done]. eapply cg_inv_mono; [exact Hm'|lia].
Qed.

Lemma Retire_spec bound m s id : cg_inv bound m -> bound < 2 ^ 62 -> 0 <= s <= cgHighestSeq m -> id <> id_of s ->
  exists m', cg_Retire (fun n => Ok (gid n)) token s id m = (Ok tt, m') /\ cg_inv (bound + 4) m' /\
    cgHighestSeq m <= cgHighestSeq m' /\ forall t, gone m' t -> gone m t \/ t = s.
Proof.
  intros Hm Hb Hs Hid. unfold cg_Retire, mbind, stM_bind, get.
  zfalse (cgHighestSeq m <? s). destruct (cgActiveSrcConnIDs m !! s) as [cid|] eqn:Es;
    [|exists m; split_and!; [done|apply (cg_inv_mono bound); [done|lia]|lia|intros t Ht; by left]].
  pose proof Hm as [Hh Hg Ha Hsz Hf Hr]. destruct (Ha _ _ Es) as [_ ->]. rewrite bool_decide_false by done. unfold modify.
  set (m1 := mkConnIDGenerator _ _ (delete s _) _ _).
  assert (Hm1 : cg_inv bound m1 /\ Z.of_nat (size (cgActiveSrcConnIDs m1)) < limit).
  { assert (Hsize : Z.of_nat (size (delete s (cgActiveSrcConnIDs m))) < limit).
    { rewrite (map_size_delete_Some _ _ (mk_is_Some _ _ Es)).
      assert (size (cgActiveSrcConnIDs m) <> 0)%nat by (intros E0%map_size_empty_inv; by rewrite E0, lookup_empty in Es). lia. }
    split; [|exact Hsize]. constructor; cbn [m1 cgHighestSeq cgGenerated cgActiveSrcConnIDs cg_event]; try done.
    - intros t x [_ Hx]%lookup_delete_Some. by apply Ha.
    - lia.
    - intros f. unfold cg_frames. cbn. rewrite omap_app, elem_of_app. cbn. rewrite elem_of_nil. intros [Hin|[]]. by apply Hf.
    - intros x. unfold cg_routed. cbn. rewrite foldl_app. fold (cg_routed init m). cbn. rewrite elem_of_difference, elem_of_singleton, Hr. split.
      + intros [(t & Ht) Hne]. exists t. rewrite lookup_delete_ne; [done|]. intros <-. rewrite Es in Ht. by injection Ht as <-.
      + intros (t & [Hne Ht]%lookup_delete_Some). split; [by exists t|]. intros ->. destruct (Ha _ _ Ht) as [Hr1 E%id_of_inj]; lia. }
  destruct Hm1 as [Hm1 Hlt1].
  assert (Hgone1 : forall t, gone m1 t -> gone m t \/ t = s).
  { intros t [Hrt Ht]. destruct (decide (t = s)); [by right|left]. split; [done|]. cbn in Ht. by rewrite lookup_delete_ne in Ht. }
  destruct (s =? 0); [exists m1; split_and!; [done|apply (cg_inv_mono bound); [done|lia]|cbn; lia|done]|].
  destruct (issue_spec bound m1 Hm1 ltac:(lia) Hlt1) as (m' & E & Hm' & Hh' & Ha'). exists m'.
  split_and!; [done|apply (cg_inv_mono (bound + 1)); [done|lia]|change (cgHighestSeq m) with (cgHighestSeq m1); lia|].
  intros t [Hrt Ht]. apply Hgone1. rewrite Ha' in Ht. destruct (decide (cgHighestSeq m1 + 1 = t)) as [<-|Hne]; [by rewrite lookup_insert_eq in Ht|].
  rewrite lookup_insert_ne in Ht by done. split; [lia|done].
Qed.

(** The invariant of both sides: the user of the connection IDs keeps only issued
    ones, what the issuer dropped was retired, and packets with a RETIRE frame go to
    a later connection ID. *)
Record iw_inv (bound : Z) (w : id_world) : Prop := {
  wi_gen : cg_inv bound (iwGen w);
  wi_mgr : cm_inv (iwMgr w);
  wi_active : 0 <= cmActiveSequenceNumber (iwMgr w) <= cgHighestSeq (iwGen w) /\
    cmActiveConnectionID (iwMgr w) = id_of (cmActiveSequenceNumber (iwMgr w));
  wi_queue c : c ∈ cmQueue (iwMgr w) -> 0 <= ncSeq c <= cgHighestSeq (iwGen w) /\ c = mkNewConnID (ncSeq c) (id_of (ncSeq c)) (token (id_of (ncSeq c)));
  wi_retire : (iwRetire w).*1 = cm_retired (iwMgr w);
  wi_retired s : s ∈ cm_retired (iwMgr w) -> 0 <= s <= cgHighestSeq (iwGen w);
  wi_gone t : gone (iwGen w) t -> t ∈ cm_retired (iwMgr w);
  wi_hist s from j s' id : (s, from) ∈ iwRetire w -> (from <= j)%nat -> iwHist w !! j = Some (s', id) -> s < s' /\ id = id_of s'
}.

Lemma iw_kept bound w s : iw_inv bound w -> cm_has (iwMgr w) s -> cgActiveSrcConnIDs (iwGen w) !! s = Some (id_of s).
Proof.
  intros Hw Hs. assert (Hr : 0 <= s <= cgHighestSeq (iwGen w) /\ cmActiveSequenceNumber (iwMgr w) <= s).
  { destruct Hs as [->|(c & -> & Hc)%list_elem_of_fmap]; [split; [apply Hw|lia]|].
    destruct (wi_queue _ _ Hw c Hc) as [Hr _]. pose proof (ci_active _ (wi_mgr _ _ Hw) c Hc). lia. }
  destruct (cgActiveSrcConnIDs (iwGen w) !! s) as [id|] eqn:E.
  - by destruct (gi_active _ _ (wi_gen _ _ Hw) _ _ E) as [_ ->].
  - assert (Hg : s ∈ cm_retired (iwMgr w)) by (apply (wi_gone _ _ Hw); split; [lia|done]). apply (ci_retired _ (wi_mgr _ _ Hw)) in Hg. lia.
Qed.

Lemma iw_count bound w : iw_inv bound w -> 1 + blen (cmQueue (iwMgr w)) <= Z.of_nat (size (cgActiveSrcConnIDs (iwGen w))) <= limit.
Proof.
  intros Hw. pose proof (gi_size _ _ (wi_gen _ _ Hw)) as Hs. set (h := iwMgr w).
  assert (Hnd : NoDup (cmActiveSequenceNumber h :: seqs (cmQueue h))).
  { constructor; [|apply sorted_nodup, ci_sorted, Hw]. intros (c & E & Hin)%list_elem_of_fmap. pose proof (ci_active _ (wi_mgr _ _ Hw) c Hin) as Hc. fold h in Hc. lia. }
  assert (Hsub : (list_to_set (cmActiveSequenceNumber h :: seqs (cmQueue h)) : gset Z) ⊆ dom (cgActiveSrcConnIDs (iwGen w))).
  { intros s Hin%elem_of_list_to_set. apply elem_of_dom. eexists. eapply iw_kept; [exact Hw|]. by apply elem_of_cons in Hin. }
  apply subseteq_size in Hsub. rewrite (size_list_to_set _ Hnd), size_dom in Hsub. cbn in Hsub. unfold seqs in Hsub. rewrite length_fmap in Hsub.
  unfold blen. lia.
Qed.

Lemma observe_inv bound w f h' new : iw_inv bound w -> (forall g, f = Some g -> g ∈ cg_frames (iwGen w)) ->
  cm_changed f (iwMgr w) h' new -> iw_inv bound (observe w h').
Proof.
  intros Hw Hf [Ci Cr Ch Cle Cq Cid]. pose proof Hw as [Wg Wm Wa Wq Wr Wrd Wgo Wh].
  assert (Hframe : forall g, f = Some g -> 0 <= ncSequenceNumber g <= cgHighestSeq (iwGen w) /\
    conn_of g = mkNewConnID (ncSequenceNumber g) (id_of (ncSequenceNumber g)) (token (id_of (ncSequenceNumber g)))).
  { intros g Hg. destruct (gi_frames _ _ Wg g (Hf g Hg)) as (? & _ & Ei & Et). split; [lia|]. unfold conn_of. by rewrite Ei, Et. }
  assert (Hhas : forall s, cm_has (iwMgr w) s -> 0 <= s <= cgHighestSeq (iwGen w)).
  { intros s [->|(c & -> & Hc)%list_elem_of_fmap]; [apply Wa|by apply Wq]. }
  assert (Hnew : drop (length (cm_retired (iwMgr w))) (cm_retired h') = new) by (rewrite Cr; apply drop_app_length).
  assert (Ha : 0 <= cmActiveSequenceNumber h' <= cgHighestSeq (iwGen w) /\ cmActiveConnectionID h' = id_of (cmActiveSequenceNumber h')).
  { destruct Cid as [[-> ->]|[(c & Hc & <- & <-)|(g & Eg & <- & <-)]]; [done| |].
    - destruct (Wq c Hc) as [Hr E]. split; [done|]. by rewrite E at 1.
    - destruct (Hframe g Eg) as [Hr E]. split; [done|]. by injection E. }
  unfold observe. rewrite Hnew. constructor; cbn [iwGen iwMgr iwRetire iwHist]; try done.
  - intros c Hc. destruct (Cq c Hc) as [Hin|(g & Eg & ->)]; [by apply Wq|]. by apply (Hframe g).
  - rewrite fmap_app, Wr, Cr. f_equal. rewrite <- list_fmap_compose. apply list_fmap_id.
  - intros s. rewrite Cr. intros [Hs|Hs]%elem_of_app; [by apply Wrd|]. destruct (proj1 (Ch s) (or_intror Hs)) as [Hs'|Hs']; [by apply Hhas|].
    destruct f as [g|]; [|done]. injection Hs' as ->. by apply (Hframe g).
  - intros t Ht. rewrite Cr. apply elem_of_app. left. by apply Wgo.
  - intros s from j s' id Hin Hle [Hj|[Hj Hx]]%lookup_app_Some.
    + apply elem_of_app in Hin as [Hin|(x & [= _ ->] & _)%list_elem_of_fmap]; [by eapply Wh|]. apply lookup_lt_Some in Hj. lia.
    + apply list_lookup_singleton_Some in Hx as [_ [= <- <-]]. split; [|apply Ha]. apply (ci_retired _ Ci). rewrite Cr.
      apply elem_of_app in Hin as [Hin|(x & [= -> _] & Hin)%list_elem_of_fmap]; apply elem_of_app; [left|by right].
      rewrite <- Wr. apply list_elem_of_fmap. by exists (s, from).
Qed.

Lemma on_mgr_ok {A} bound w f (m : stM connIDManager A) : iw_inv bound w -> (forall g, f = Some g -> g ∈ cg_frames (iwGen w)) ->
  wp m (fun _ h' => exists new, cm_changed f (iwMgr w) h' new) (fun _ _ => False) (iwMgr w) ->
  exists w', on_mgr w m = Ok w' /\ iw_inv bound w'.
Proof.
  intros Hw Hf Hm. unfold wp in Hm. unfold on_mgr. destruct (m (iwMgr w)) as [[a|e|p] h']; [|done|done].
  destruct Hm as [new Hc]. eexists. split; [done|]. by eapply observe_inv.
Qed.

Lemma on_gen_ok bound b' w (m : stM connIDGenerator unit) g' : iw_inv bound w -> m (iwGen w) = (Ok tt, g') -> cg_inv b' g' ->
  cgHighestSeq (iwGen w) <= cgHighestSeq g' -> (forall t, gone g' t -> gone (iwGen w) t \/ t ∈ cm_retired (iwMgr w)) ->
  exists w', on_gen w m = Ok w' /\ iw_inv b' w'.
Proof.
  intros [Wg Wm Wa Wq Wr Wrd Wgo Wh] Em Hg Hh Hgone. unfold on_gen. rewrite Em. eexists. split; [done|]. constructor; cbn; try done.
  - split; [lia|apply Wa].
  - intros c Hc. destruct (Wq c Hc). split; [lia|done].
  - intros s Hs. specialize (Wrd s Hs). lia.
  - intros t [Ht|Ht]%Hgone; [by apply Wgo|done].
Qed.

Lemma wp_add_known bound w f : iw_inv bound w -> f ∈ cg_frames (iwGen w) ->
  wp (cm_Add rng fuel f) (fun _ h' => exists new, cm_changed (Some f) (iwMgr w) h' new) (fun _ _ => False) (iwMgr w).
Proof.
  intros Hw Hf. destruct (gi_frames _ _ (wi_gen _ _ Hw) f Hf) as (Hs & Hp & Hid & Ht).
  eapply wp_mono; [| |apply wp_cm_Add; [exact Hrng|apply Hw|lia]]; [intros [] h' (new & Hc & _); by exists new|].
  intros e h' [(c & Hc & Es & Hne)|[_ (new & Hc & _ & Hlen)]].
  - apply Hne. destruct (wi_queue _ _ Hw c Hc) as [_ E]. rewrite E, Es. unfold conn_of. by rewrite Hid, Ht.
  - assert (Hw' : iw_inv bound (observe w h')) by (eapply observe_inv; [exact Hw| |exact Hc]; by intros g [= <-]).
    pose proof (iw_count _ _ Hw') as Hcount. cbn in Hcount. lia.
Qed.

Lemma id_do_inv bound w o : iw_inv bound w -> bound < 2 ^ 62 -> exists w', id_do w o = Ok w' /\ iw_inv (bound + 4) w'.
Proof.
  intros Hw Hb. assert (Hmono : forall r, (exists w', r = Ok w' /\ iw_inv bound w') -> exists w', r = Ok w' /\ iw_inv (bound + 4) w').
  { intros r (w' & -> & [Wg Wm Wa Wq Wr Wrd Wgo Wh]). exists w'. split; [done|]. constructor; try done. apply (cg_inv_mono bound); [done|lia]. }
  assert (Hstay : exists w', Ok w = Ok w' /\ iw_inv (bound + 4) w') by (apply Hmono; by exists w).
  pose proof (wi_gen _ _ Hw) as Wg. pose proof (wi_mgr _ _ Hw) as Wm. destruct o as [|i| | | |i j]; cbn [id_do].
  - destruct (SetMax_spec bound (iwGen w) Wg Hb) as (g' & E & Hg & Hh & Hgone). eapply on_gen_ok; [exact Hw|exact E|done|done|]. intros t Ht. left. by apply Hgone.
  - destruct (cg_frames (iwGen w) !! i) as [f|] eqn:Ef; [|done]. apply list_elem_of_lookup_2 in Ef. apply Hmono.
    eapply (on_mgr_ok _ _ (Some f)); [exact Hw|by intros g [= <-]|by eapply wp_add_known].
  - apply Hmono, (on_mgr_ok _ _ None); [exact Hw|done|]. eapply wp_mono; [| |by apply wp_cm_Get]; [|done]. by intros id h' [_ Hc].
  - apply Hmono, (on_mgr_ok _ _ None); [exact Hw|done|]. apply wp_modify. exists []. by apply cm_SentPacket_changed.
  - apply Hmono, (on_mgr_ok _ _ None); [exact Hw|done|]. apply wp_modify. exists []. by apply cm_Complete_changed.
  - destruct (iwRetire w !! i) as [[s from]|] eqn:Ei; [|done]. destruct (iwHist w !! j) as [[s' id]|] eqn:Ej; [|done].
    case_bool_decide as Hle; [|done]. apply list_elem_of_lookup_2 in Ei. destruct (wi_hist _ _ Hw _ _ _ _ _ Ei Hle Ej) as [Hlt ->].
    assert (Hs : s ∈ cm_retired (iwMgr w)) by (rewrite <- (wi_retire _ _ Hw); apply list_elem_of_fmap; by exists (s, from)).
    pose proof (wi_retired _ _ Hw s Hs) as Hr.
    destruct (Retire_spec bound (iwGen w) s (id_of s') Wg Hb Hr) as (g' & E & Hg & Hh & Hgone).
    { intros Eid%id_of_inj; lia. }
    eapply on_gen_ok; [exact Hw|exact E|done|done|]. intros t [Ht| ->]%Hgone; [by left|by right].
Qed.

Lemma id_run_inv os : forall bound w, iw_inv bound w -> bound + 4 * blen os <= 2 ^ 62 ->
  exists w', id_run w os = Ok w' /\ iw_inv (bound + 4 * blen os) w'.
Proof.
  induction os as [|o os IH]; intros bound w Hw Hb; [exists w; split; [done|]; by rewrite Z.add_0_r|].
  rewrite blen_cons in *. pose proof (blen_nonneg os). destruct (id_do_inv bound w o Hw) as (w1 & E1 & Hw1); [lia|]. cbn [id_run]. rewrite E1. cbn [mbind res_bind].
  destruct (IH (bound + 4) w1 Hw1) as (w' & E' & Hw'); [lia|]. exists w'. split; [done|]. by replace (bound + 4 * (1 + blen os)) with (bound + 4 + 4 * blen os) by lia.
Qed.

Lemma id_start_inv pos : iw_inv 0 (id_start pos).
Proof.
  assert (Hg : cg_inv 0 (newConnIDGenerator init None)).
  { constructor; cbn; try done.
    - intros s id [<- <-]%lookup_singleton_Some. done.
    - rewrite map_size_singleton. lia.
    - by intros f ?%elem_of_nil.
    - intros id. unfold cg_routed. cbn. rewrite elem_of_singleton. split; [intros ->; exists 0; by rewrite lookup_singleton_eq|].
      intros (s & [_ <-]%lookup_singleton_Some). done. }
  constructor; [exact Hg|apply newConnIDManager_inv|done|by intros c ?%elem_of_nil|done|by intros c ?%elem_of_nil| |by intros s from j s' id ?%elem_of_nil].
  intros t [Ht Hl]. cbn in *. assert (t = 0) as -> by lia. by rewrite lookup_singleton_eq in Hl.
Qed.

(** C24: The two endpoints keep each other reachable.  However the NEW_CONNECTION_ID
    and RETIRE_CONNECTION_ID frames are delayed, reordered and repeated between an
    endpoint that issues connection IDs for the limit of its peer and the endpoint
    that uses them, neither reports an error or panics.  Every connection ID
    the sender uses or keeps in reserve is still active and routed at the endpoint
    that issued it, and the sender keeps no more than it allowed. *)
Theorem connection_ids_in_step pos os : 4 * blen os <= 2 ^ 62 ->
  exists w, id_run (id_start pos) os = Ok w /\
    cgActiveSrcConnIDs (iwGen w) !! cmActiveSequenceNumber (iwMgr w) = Some (cmActiveConnectionID (iwMgr w)) /\
    cmActiveConnectionID (iwMgr w) ∈ cg_routed init (iwGen w) /\
    (forall c, c ∈ cmQueue (iwMgr w) -> ncID c ∈ cg_routed init (iwGen w) /\ ncToken c = token (ncID c)) /\
    1 + blen (cmQueue (iwMgr w)) <= Z.of_nat (size (cgActiveSrcConnIDs (iwGen w))) <= limit.
Proof.
  intros Hos. destruct (id_run_inv os 0 (id_start pos) (id_start_inv pos)) as (w & E & Hw); [lia|]. exists w. split; [done|].
  assert (Hkept : forall s, cm_has (iwMgr w) s -> id_of s ∈ cg_routed init (iwGen w)).
  { intros s Hs. apply (gi_routed _ _ (wi_gen _ _ Hw)). exists s. by eapply iw_kept. }
  destruct (wi_active _ _ Hw) as [_ ->]. split_and!.
  - eapply iw_kept; [exact Hw|by left].
  - apply Hkept. by left.
  - intros c Hc. destruct (wi_queue _ _ Hw c Hc) as [_ ->]. split; [|done]. apply Hkept. right. apply list_elem_of_fmap. by exists c.
  - by eapply iw_count.
  - by eapply iw_count.
Qed.
End system.

(** Test data: an issuer whose connection IDs have distinct lengths, and a random
    source that is never rejected. *)
Definition demo_gid (n : nat) : bytes := replicate (S n) 7.
Definition demo_ops : list id_op :=
  [WLimit; WNew 0; WNew 1; WNew 0; WComplete; WGet; WSent; WRetire 0 6; WNew 2; WRetire 0 6; WLimit; WNew 3; WGet].

Lemma connection_ids_in_step_witness :
  exists w, id_run (fun _ => 0) 0 demo_gid 8 4 (fun id => 1 :: id) (id_start [] 0) demo_ops = Ok w /\
    cmActiveSequenceNumber (iwMgr w) = 1 /\ cmActiveConnectionID (iwMgr w) = [7] /\ cmActiveConnectionID (iwMgr w) ∈ cg_routed [] (iwGen w) /\
    size (cgActiveSrcConnIDs (iwGen w)) = 4%nat.
Proof.
  destruct (connection_ids_in_step (fun _ => 0) 0 ltac:(intros pos; by eexists) [] demo_gid 8 4 (fun id => 1 :: id)
    ltac:(intros n k E; apply (f_equal length) in E; unfold demo_gid in E; rewrite !length_replicate in E; lia) ltac:(done) ltac:(by vm_compute)
    0 demo_ops ltac:(by vm_compute)) as (w & E & _ & Hr & _). exists w. split; [exact E|].
  assert (Ew : exists w', id_run (fun _ => 0) 0 demo_gid 8 4 (fun id => 1 :: id) (id_start [] 0) demo_ops = Ok w' /\
    (cmActiveSequenceNumber (iwMgr w') =? 1) && bool_decide (cmActiveConnectionID (iwMgr w') = [7]) && (size (cgActiveSrcConnIDs (iwGen w')) =? 4)%nat = true)
    by (eexists; split; vm_compute; reflexivity).
  destruct Ew as (w' & E' & Hw). rewrite E in E'. injection E' as <-. rewrite !andb_true_iff in Hw. destruct Hw as [[H1%Z.eqb_eq H2%bool_decide_eq_true] H3%Nat.eqb_eq].
  repeat split; assumption.
Defined.
