(* ===== verification/CryptoSetup.v ===== *)
(** * CryptoSetup: the keys of a connection

    Models internal/handshake/crypto_setup.go and session_ticket.go.  The TLS stack
    (crypto/tls, through internal/qtls) is the class [TLSConn]; [now] is the time,
    [random] and [additional] are the arguments of [Marshal] that stand for random
    bytes and for AdditionalTransportParametersClient. *)

From S2P Require Import Prelude Protocol Varint Frames FrameParser RTTStats StreamsMap TransportParams Protection KeyUpdate.
From stdpp Require Import base numbers list option strings.
From Stdlib Require Import ZArith Lia.
#[local] Open Scope Z_scope.

Definition ErrKeysNotYetAvailable : GoError := ErrorString "CryptoSetup: keys at this encryption level not yet available".
Definition InternalError : Z := 0x1.
Definition clientSessionStateRevision : Z := 3.
Definition sessionTicketRevision : Z := 4.

(** ** The TLS stack *)

Inductive QUICEncryptionLevel :=
  QUICEncryptionLevelInitial | QUICEncryptionLevelEarly | QUICEncryptionLevelHandshake | QUICEncryptionLevelApplication.

#[export] Instance QUICEncryptionLevel_eq_dec : EqDecision QUICEncryptionLevel.
Proof. solve_decision. Defined.

Inductive QUICEventKind :=
  | QUICNoEvent | QUICSetReadSecret | QUICSetWriteSecret | QUICWriteData | QUICTransportParameters
  | QUICTransportParametersRequired | QUICRejectedEarlyData | QUICHandshakeDone | QUICUnknownEvent (kind : Z).

#[export] Instance QUICEventKind_eq_dec : EqDecision QUICEventKind.
Proof. solve_decision. Defined.

Record QUICEvent := mkQUICEvent { qeKind : QUICEventKind; qeLevel : QUICEncryptionLevel; qeSuite : Z; qeData : bytes }.

(** [alertOf] is [errors.As(err, &alertErr)]. *)
Class TLSConn (T : Type) := {
  tls_Start : stM T unit;
  tls_HandleData : QUICEncryptionLevel -> bytes -> stM T unit;
  tls_NextEvent : stM T QUICEvent;
  tls_SetTransportParameters : bytes -> stM T unit;
  tls_SendSessionTicket : bool -> stM T unit;
  tls_Close : stM T unit;
  alertOf : GoError -> option Z
}.

Definition ToTLSEncryptionLevel (e : EncryptionLevel) : QUICEncryptionLevel :=
  match e with
  | EncryptionInitial => QUICEncryptionLevelInitial
  | EncryptionHandshake => QUICEncryptionLevelHandshake
  | Encryption1RTT => QUICEncryptionLevelApplication
  | Encryption0RTT => QUICEncryptionLevelEarly
  end.

(** ** Session tickets *)

Record sessionTicket := mkSessionTicket { stParameters : option TransportParameters; stRTT : Z }.

Definition ticket_Marshal (t : sessionTicket) : res bytes :=
  b ← varint_Append [] sessionTicketRevision;
  b ← varint_Append b (u64 (Z.quot (stRTT t) Microsecond));
  match stParameters t with
  | None => Ok b
  | Some p => MarshalForSessionTicket b p
  end.

Definition orError {T} (msg : string) (m : parser T) : parser T := fun r =>
  match m r with (Err _, r') => (Err (ErrorString msg), r') | x => x end.

Definition ticket_Unmarshal (using0RTT : bool) : parser sessionTicket :=
  rev ← orError "failed to read session ticket revision" varint_Read;
  if negb (rev =? sessionTicketRevision) then fail (ErrorString "unknown session ticket revision: %d")
  else
    rtt ← orError "failed to read RTT" varint_Read;
    params ← (if using0RTT then
                tp ← orError "unmarshaling transport parameters from session ticket failed: %s" (UnmarshalFromSessionTicket tp_zero);
                mret (Some tp)
              else
                n ← reader_len;
                if 0 <? n then fail (ErrorString "the session ticket has more bytes than expected") else mret None);
    mret (mkSessionTicket params (i64 (i64 rtt * Microsecond))).

(** ** The crypto setup *)

Inductive Event :=
  | EventNoEvent
  | EventWriteInitialData (data : bytes)
  | EventWriteHandshakeData (data : bytes)
  | EventReceivedReadKeys
  | EventDiscard0RTTKeys
  | EventReceivedTransportParameters (tp : TransportParameters)
  | EventRestoredTransportParameters (tp : TransportParameters)
  | EventHandshakeComplete.

Record cryptoSetup (A T : Type) := mkCryptoSetup {
  suConn : T;
  suEvents : list Event;
  suVersion : Z;
  suOurParams : TransportParameters;
  suPeerParams : option TransportParameters;
  suZeroRTTParameters : option TransportParameters;
  suAllow0RTT : bool;
  suRTTStats : RTTStats;
  suPerspective : Perspective;
  suHandshakeCompleteTime : Z;
  suZeroRTTOpener : option (longHeaderOpener A);
  suZeroRTTSealer : option (longHeaderSealer A);
  suInitialOpener : option (longHeaderOpener A);
  suInitialSealer : option (longHeaderSealer A);
  suHandshakeOpener : option (longHeaderOpener A);
  suHandshakeSealer : option (longHeaderSealer A);
  suUsed0RTT : bool;
  suAead : updatableAEAD A;
  suHas1RTTSealer : bool;
  suHas1RTTOpener : bool
}.
Arguments mkCryptoSetup {_ _} _ _ _ _ _ _ _ _ _ _ _ _ _ _ _ _ _ _ _ _.
Arguments suConn {_ _} _.
Arguments suEvents {_ _} _.
Arguments suVersion {_ _} _.
Arguments suOurParams {_ _} _.
Arguments suPeerParams {_ _} _.
Arguments suZeroRTTParameters {_ _} _.
Arguments suAllow0RTT {_ _} _.
Arguments suRTTStats {_ _} _.
Arguments suPerspective {_ _} _.
Arguments suHandshakeCompleteTime {_ _} _.
Arguments suZeroRTTOpener {_ _} _.
Arguments suZeroRTTSealer {_ _} _.
Arguments suInitialOpener {_ _} _.
Arguments suInitialSealer {_ _} _.
Arguments suHandshakeOpener {_ _} _.
Arguments suHandshakeSealer {_ _} _.
Arguments suUsed0RTT {_ _} _.
Arguments suAead {_ _} _.
Arguments suHas1RTTSealer {_ _} _.
Arguments suHas1RTTOpener {_ _} _.

Section setters.
Context {A T : Type}.
Implicit Types h : cryptoSetup A T.

Definition w_Conn (x : T) h : cryptoSetup A T :=
  mkCryptoSetup x (suEvents h) (suVersion h) (suOurParams h) (suPeerParams h) (suZeroRTTParameters h) (suAllow0RTT h)
    (suRTTStats h) (suPerspective h) (suHandshakeCompleteTime h) (suZeroRTTOpener h) (suZeroRTTSealer h)
    (suInitialOpener h) (suInitialSealer h) (suHandshakeOpener h) (suHandshakeSealer h) (suUsed0RTT h)
    (suAead h) (suHas1RTTSealer h) (suHas1RTTOpener h).
Definition w_Events (x : list Event) h : cryptoSetup A T :=
  mkCryptoSetup (suConn h) x (suVersion h) (suOurParams h) (suPeerParams h) (suZeroRTTParameters h) (suAllow0RTT h)
    (suRTTStats h) (suPerspective h) (suHandshakeCompleteTime h) (suZeroRTTOpener h) (suZeroRTTSealer h)
    (suInitialOpener h) (suInitialSealer h) (suHandshakeOpener h) (suHandshakeSealer h) (suUsed0RTT h)
    (suAead h) (suHas1RTTSealer h) (suHas1RTTOpener h).
Definition w_PeerParams (x : option TransportParameters) h : cryptoSetup A T :=
  mkCryptoSetup (suConn h) (suEvents h) (suVersion h) (suOurParams h) x (suZeroRTTParameters h) (suAllow0RTT h)
    (suRTTStats h) (suPerspective h) (suHandshakeCompleteTime h) (suZeroRTTOpener h) (suZeroRTTSealer h)
    (suInitialOpener h) (suInitialSealer h) (suHandshakeOpener h) (suHandshakeSealer h) (suUsed0RTT h)
    (suAead h) (suHas1RTTSealer h) (suHas1RTTOpener h).
Definition w_ZeroRTTParameters (x : option TransportParameters) h : cryptoSetup A T :=
  mkCryptoSetup (suConn h) (suEvents h) (suVersion h) (suOurParams h) (suPeerParams h) x (suAllow0RTT h) (suRTTStats h)
    (suPerspective h) (suHandshakeCompleteTime h) (suZeroRTTOpener h) (suZeroRTTSealer h) (suInitialOpener h)
    (suInitialSealer h) (suHandshakeOpener h) (suHandshakeSealer h) (suUsed0RTT h) (suAead h)
    (suHas1RTTSealer h) (suHas1RTTOpener h).
Definition w_RTTStats (x : RTTStats) h : cryptoSetup A T :=
  mkCryptoSetup (suConn h) (suEvents h) (suVersion h) (suOurParams h) (suPeerParams h) (suZeroRTTParameters h)
    (suAllow0RTT h) x (suPerspective h) (suHandshakeCompleteTime h) (suZeroRTTOpener h) (suZeroRTTSealer h)
    (suInitialOpener h) (suInitialSealer h) (suHandshakeOpener h) (suHandshakeSealer h) (suUsed0RTT h)
    (suAead h) (suHas1RTTSealer h) (suHas1RTTOpener h).
Definition w_HandshakeCompleteTime (x : Z) h : cryptoSetup A T :=
  mkCryptoSetup (suConn h) (suEvents h) (suVersion h) (suOurParams h) (suPeerParams h) (suZeroRTTParameters h)
    (suAllow0RTT h) (suRTTStats h) (suPerspective h) x (suZeroRTTOpener h) (suZeroRTTSealer h)
    (suInitialOpener h) (suInitialSealer h) (suHandshakeOpener h) (suHandshakeSealer h) (suUsed0RTT h)
    (suAead h) (suHas1RTTSealer h) (suHas1RTTOpener h).
Definition w_ZeroRTTOpener (x : option (longHeaderOpener A)) h : cryptoSetup A T :=
  mkCryptoSetup (suConn h) (suEvents h) (suVersion h) (suOurParams h) (suPeerParams h) (suZeroRTTParameters h)
    (suAllow0RTT h) (suRTTStats h) (suPerspective h) (suHandshakeCompleteTime h) x (suZeroRTTSealer h)
    (suInitialOpener h) (suInitialSealer h) (suHandshakeOpener h) (suHandshakeSealer h) (suUsed0RTT h)
    (suAead h) (suHas1RTTSealer h) (suHas1RTTOpener h).
Definition w_ZeroRTTSealer (x : option (longHeaderSealer A)) h : cryptoSetup A T :=
  mkCryptoSetup (suConn h) (suEvents h) (suVersion h) (suOurParams h) (suPeerParams h) (suZeroRTTParameters h)
    (suAllow0RTT h) (suRTTStats h) (suPerspective h) (suHandshakeCompleteTime h) (suZeroRTTOpener h) x
    (suInitialOpener h) (suInitialSealer h) (suHandshakeOpener h) (suHandshakeSealer h) (suUsed0RTT h)
    (suAead h) (suHas1RTTSealer h) (suHas1RTTOpener h).
Definition w_InitialOpener (x : option (longHeaderOpener A)) h : cryptoSetup A T :=
  mkCryptoSetup (suConn h) (suEvents h) (suVersion h) (suOurParams h) (suPeerParams h) (suZeroRTTParameters h)
    (suAllow0RTT h) (suRTTStats h) (suPerspective h) (suHandshakeCompleteTime h) (suZeroRTTOpener h)
    (suZeroRTTSealer h) x (suInitialSealer h) (suHandshakeOpener h) (suHandshakeSealer h) (suUsed0RTT h)
    (suAead h) (suHas1RTTSealer h) (suHas1RTTOpener h).
Definition w_InitialSealer (x : option (longHeaderSealer A)) h : cryptoSetup A T :=
  mkCryptoSetup (suConn h) (suEvents h) (suVersion h) (suOurParams h) (suPeerParams h) (suZeroRTTParameters h)
    (suAllow0RTT h) (suRTTStats h) (suPerspective h) (suHandshakeCompleteTime h) (suZeroRTTOpener h)
    (suZeroRTTSealer h) (suInitialOpener h) x (suHandshakeOpener h) (suHandshakeSealer h) (suUsed0RTT h)
    (suAead h) (suHas1RTTSealer h) (suHas1RTTOpener h).
Definition w_HandshakeOpener (x : option (longHeaderOpener A)) h : cryptoSetup A T :=
  mkCryptoSetup (suConn h) (suEvents h) (suVersion h) (suOurParams h) (suPeerParams h) (suZeroRTTParameters h)
    (suAllow0RTT h) (suRTTStats h) (suPerspective h) (suHandshakeCompleteTime h) (suZeroRTTOpener h)
    (suZeroRTTSealer h) (suInitialOpener h) (suInitialSealer h) x (suHandshakeSealer h) (suUsed0RTT h)
    (suAead h) (suHas1RTTSealer h) (suHas1RTTOpener h).
Definition w_HandshakeSealer (x : option (longHeaderSealer A)) h : cryptoSetup A T :=
  mkCryptoSetup (suConn h) (suEvents h) (suVersion h) (suOurParams h) (suPeerParams h) (suZeroRTTParameters h)
    (suAllow0RTT h) (suRTTStats h) (suPerspective h) (suHandshakeCompleteTime h) (suZeroRTTOpener h)
    (suZeroRTTSealer h) (suInitialOpener h) (suInitialSealer h) (suHandshakeOpener h) x (suUsed0RTT h)
    (suAead h) (suHas1RTTSealer h) (suHas1RTTOpener h).
Definition w_Used0RTT (x : bool) h : cryptoSetup A T :=
  mkCryptoSetup (suConn h) (suEvents h) (suVersion h) (suOurParams h) (suPeerParams h) (suZeroRTTParameters h)
    (suAllow0RTT h) (suRTTStats h) (suPerspective h) (suHandshakeCompleteTime h) (suZeroRTTOpener h)
    (suZeroRTTSealer h) (suInitialOpener h) (suInitialSealer h) (suHandshakeOpener h) (suHandshakeSealer h) x
    (suAead h) (suHas1RTTSealer h) (suHas1RTTOpener h).
Definition w_Aead (x : updatableAEAD A) h : cryptoSetup A T :=
  mkCryptoSetup (suConn h) (suEvents h) (suVersion h) (suOurParams h) (suPeerParams h) (suZeroRTTParameters h)
    (suAllow0RTT h) (suRTTStats h) (suPerspective h) (suHandshakeCompleteTime h) (suZeroRTTOpener h)
    (suZeroRTTSealer h) (suInitialOpener h) (suInitialSealer h) (suHandshakeOpener h) (suHandshakeSealer h)
    (suUsed0RTT h) x (suHas1RTTSealer h) (suHas1RTTOpener h).
Definition w_Has1RTTSealer (x : bool) h : cryptoSetup A T :=
  mkCryptoSetup (suConn h) (suEvents h) (suVersion h) (suOurParams h) (suPeerParams h) (suZeroRTTParameters h)
    (suAllow0RTT h) (suRTTStats h) (suPerspective h) (suHandshakeCompleteTime h) (suZeroRTTOpener h)
    (suZeroRTTSealer h) (suInitialOpener h) (suInitialSealer h) (suHandshakeOpener h) (suHandshakeSealer h)
    (suUsed0RTT h) (suAead h) x (suHas1RTTOpener h).
Definition w_Has1RTTOpener (x : bool) h : cryptoSetup A T :=
  mkCryptoSetup (suConn h) (suEvents h) (suVersion h) (suOurParams h) (suPeerParams h) (suZeroRTTParameters h)
    (suAllow0RTT h) (suRTTStats h) (suPerspective h) (suHandshakeCompleteTime h) (suZeroRTTOpener h)
    (suZeroRTTSealer h) (suInitialOpener h) (suInitialSealer h) (suHandshakeOpener h) (suHandshakeSealer h)
    (suUsed0RTT h) (suAead h) (suHas1RTTSealer h) x.
End setters.

Section model.
Context {A T : Type} `{Crypto A} `{TLSConn T}.
Context (now : Z) (random : bytes) (additional : list (Z * bytes)).
Implicit Types h : cryptoSetup A T.
Abbreviation suM := (stM (cryptoSetup A T)).

Definition onConn {B} (m : stM T B) : suM B := fun h => let '(r, c) := m (suConn h) in (r, w_Conn c h).
Definition onAead {B} (m : stM (updatableAEAD A) B) : suM B := fun h => let '(r, a) := m (suAead h) in (r, w_Aead a h).
Definition addEvent (ev : Event) : suM unit := modify (fun h => w_Events (suEvents h ++ [ev]) h).

Definition newCryptoSetup (conn : T) (connID : bytes) (tp : TransportParameters) (rtt : RTTStats) (allow0RTT : bool)
    (perspective : Perspective) (version : Z) : res (cryptoSetup A T) :=
  '(initialSealer, initialOpener) ← NewInitialAEAD connID perspective version;
  Ok (mkCryptoSetup conn [] version tp None None allow0RTT rtt perspective zeroTime None None
        (Some initialOpener) (Some initialSealer) None None false (newUpdatableAEAD version) false false).

(** The rest of the two constructors is the configuration of TLS. *)
Definition NewCryptoSetupClient (conn : T) (connID : bytes) (tp : TransportParameters) (enable0RTT : bool) (rtt : RTTStats)
    (version : Z) : res (cryptoSetup A T) :=
  cs ← newCryptoSetup conn connID tp rtt enable0RTT PerspectiveClient version;
  b ← Marshal random additional PerspectiveClient tp;
  match onConn (tls_SetTransportParameters b) cs with
  | (Ok _, cs) => Ok cs
  | (Err e, _) => Err e
  | (Panic p, _) => Panic p
  end.

Definition NewCryptoSetupServer (conn : T) (connID : bytes) (tp : TransportParameters) (allow0RTT : bool) (rtt : RTTStats)
    (version : Z) : res (cryptoSetup A T) :=
  newCryptoSetup conn connID tp rtt allow0RTT PerspectiveServer version.

Definition ChangeConnectionID (id : bytes) : suM unit :=
  h ← get;
  '(initialSealer, initialOpener) ← lift (NewInitialAEAD id (suPerspective h) (suVersion h));
  modify (fun h => w_InitialOpener (Some initialOpener) (w_InitialSealer (Some initialSealer) h)).

Definition SetLargest1RTTAcked (pn : Z) : suM unit := onAead (SetLargestAcked pn).

(** *** Events of the TLS stack *)

Definition rejected0RTT : suM unit :=
  h ← get;
  let had0RTTKeys := bool_decide (is_Some (suZeroRTTSealer h)) in
  _ ← modify (w_ZeroRTTSealer None);
  if had0RTTKeys then addEvent EventDiscard0RTTKeys else mret tt.

Definition longOpener (suite : cipherSuite) (trafficSecret : bytes) : suM (longHeaderOpener A) :=
  h ← get;
  aead ← lift (createAEAD suite trafficSecret (suVersion h));
  hp ← lift (newHeaderProtector suite trafficSecret true (suVersion h));
  mret (newLongHeaderOpener aead hp).

Definition longSealer (suite : cipherSuite) (trafficSecret : bytes) : suM (longHeaderSealer A) :=
  h ← get;
  aead ← lift (createAEAD suite trafficSecret (suVersion h));
  hp ← lift (newHeaderProtector suite trafficSecret true (suVersion h));
  mret (newLongHeaderSealer aead hp).

Definition su_SetReadKey (el : QUICEncryptionLevel) (suiteID : Z) (trafficSecret : bytes) : suM unit :=
  suite ← lift (getCipherSuite suiteID);
  h ← get;
  _ ← match el with
      | QUICEncryptionLevelEarly =>
          if decide (suPerspective h = PerspectiveClient) then lift (Panic "Received 0-RTT read key for the client")
          else o ← longOpener suite trafficSecret; _ ← modify (w_ZeroRTTOpener (Some o)); modify (w_Used0RTT true)
      | QUICEncryptionLevelHandshake => o ← longOpener suite trafficSecret; modify (w_HandshakeOpener (Some o))
      | QUICEncryptionLevelApplication => _ ← onAead (SetReadKey suite trafficSecret); modify (w_Has1RTTOpener true)
      | QUICEncryptionLevelInitial => lift (Panic "unexpected read encryption level")
      end;
  addEvent EventReceivedReadKeys.

Definition su_SetWriteKey (el : QUICEncryptionLevel) (suiteID : Z) (trafficSecret : bytes) : suM unit :=
  suite ← lift (getCipherSuite suiteID);
  h ← get;
  match el with
  | QUICEncryptionLevelEarly =>
      if decide (suPerspective h = PerspectiveServer) then lift (Panic "Received 0-RTT write key for the server")
      else s ← longSealer suite trafficSecret; modify (w_ZeroRTTSealer (Some s))
  | QUICEncryptionLevelHandshake => s ← longSealer suite trafficSecret; modify (w_HandshakeSealer (Some s))
  | QUICEncryptionLevelApplication =>
      _ ← onAead (SetWriteKey suite trafficSecret);
      _ ← modify (w_Has1RTTSealer true);
      if bool_decide (is_Some (suZeroRTTSealer h)) then modify (fun h => w_ZeroRTTSealer None (w_Used0RTT true h)) else mret tt
  | QUICEncryptionLevelInitial => lift (Panic "unexpected write encryption level")
  end.

Definition WriteRecord (encLevel : QUICEncryptionLevel) (p : bytes) : suM unit :=
  match encLevel with
  | QUICEncryptionLevelInitial => addEvent (EventWriteInitialData p)
  | QUICEncryptionLevelHandshake => addEvent (EventWriteHandshakeData p)
  | QUICEncryptionLevelApplication => lift (Panic "unexpected write")
  | QUICEncryptionLevelEarly => lift (Panic "unexpected write encryption level: %s")
  end.

Definition su_handshakeComplete : suM unit :=
  _ ← modify (w_HandshakeCompleteTime now); addEvent EventHandshakeComplete.

Definition handleTransportParameters (data : bytes) : suM unit :=
  h ← get;
  tp ← lift (Unmarshal data (Perspective_Opposite (suPerspective h)) tp_zero);
  _ ← modify (w_PeerParams (Some tp));
  addEvent (EventReceivedTransportParameters tp).

(** Whether there are no more events. *)
Definition handleEvent (ev : QUICEvent) : suM bool :=
  match qeKind ev with
  | QUICNoEvent => mret true
  | QUICSetReadSecret => _ ← su_SetReadKey (qeLevel ev) (qeSuite ev) (qeData ev); mret false
  | QUICSetWriteSecret => _ ← su_SetWriteKey (qeLevel ev) (qeSuite ev) (qeData ev); mret false
  | QUICTransportParameters => _ ← handleTransportParameters (qeData ev); mret false
  | QUICTransportParametersRequired =>
      h ← get;
      b ← lift (Marshal random additional (suPerspective h) (suOurParams h));
      _ ← onConn (tls_SetTransportParameters b); mret false
  | QUICRejectedEarlyData => _ ← rejected0RTT; mret false
  | QUICWriteData => _ ← WriteRecord (qeLevel ev) (qeData ev); mret false
  | QUICHandshakeDone => _ ← su_handshakeComplete; mret false
  | QUICUnknownEvent _ => throw (ErrorString "unexpected event: %d")
  end.

Fixpoint eventLoop (fuel : nat) : suM unit :=
  ev ← onConn tls_NextEvent;
  finished ← handleEvent ev;
  if finished : bool then mret tt
  else match fuel with O => lift (Panic "out of fuel") | S fuel' => eventLoop fuel' end.

(** Alert 80 is an internal error. *)
Definition wrapError (e : GoError) : GoError :=
  match alertOf e with
  | Some a => if negb (a =? 80) then TransportError (0x100 + a) 0 "" else TransportError InternalError 0 (error_text e)
  | None => TransportError InternalError 0 (error_text e)
  end.

Definition wrapping {B} (m : suM B) : suM B := fun h => match m h with (Err e, h') => (Err (wrapError e), h') | x => x end.

Definition StartHandshake (fuel : nat) : suM unit :=
  _ ← wrapping (onConn tls_Start);
  _ ← wrapping (eventLoop fuel);
  h ← get;
  if decide (suPerspective h = PerspectiveClient) then
    match suZeroRTTSealer h, suZeroRTTParameters h with
    | Some _, Some tp => addEvent (EventRestoredTransportParameters tp)
    | _, _ => mret tt
    end
  else mret tt.

Definition su_Close : suM unit := onConn tls_Close.

Definition handleMessage (fuel : nat) (data : bytes) (encLevel : EncryptionLevel) : suM unit :=
  _ ← onConn (tls_HandleData (ToTLSEncryptionLevel encLevel) data); eventLoop fuel.

Definition su_HandleMessage (fuel : nat) (data : bytes) (encLevel : EncryptionLevel) : suM unit :=
  wrapping (handleMessage fuel data encLevel).

Definition su_NextEvent : suM Event :=
  h ← get;
  match suEvents h with
  | [] => mret EventNoEvent
  | ev :: evs => _ ← modify (w_Events evs); mret ev
  end.

(** *** Session tickets and 0-RTT *)

Definition marshalDataForSessionState : suM bytes :=
  h ← get;
  b ← lift (varint_Append [] clientSessionStateRevision);
  b ← lift (varint_Append b (u64 (Z.quot (smoothedRTT (suRTTStats h)) Microsecond)));
  p ← lift (nilDeref (suPeerParams h));
  lift (MarshalForSessionTicket b p).

Definition setInitialRTT (t : Z) : suM unit := modify (fun h => w_RTTStats (SetInitialRTT (suRTTStats h) t) h).

Definition handleDataFromSessionStateImpl (data : bytes) : suM TransportParameters :=
  let '(ver, r) := varint_Read data in
  ver ← lift ver;
  if negb (ver =? clientSessionStateRevision) then throw (ErrorString "mismatching version. Got %d, expected %d")
  else
    let '(rtt, r) := varint_Read r in
    rtt ← lift rtt;
    _ ← setInitialRTT (i64 (i64 rtt * Microsecond));
    lift (UnmarshalFromSessionTicket tp_zero r).1.

Definition handleDataFromSessionState (data : bytes) : suM bool := fun h =>
  match handleDataFromSessionStateImpl data h with
  | (Ok tp, h) => if suAllow0RTT h then (Ok true, w_ZeroRTTParameters (Some tp) h) else (Ok false, h)
  | (Err _, h) => (Ok false, h)
  | (Panic p, h) => (Panic p, h)
  end.

Definition getDataForSessionTicket h : res bytes :=
  ticket_Marshal (mkSessionTicket (if suAllow0RTT h then Some (suOurParams h) else None) (smoothedRTT (suRTTStats h))).

Definition ticketsUnavailable (e : GoError) : bool :=
  match String.index 0 "session ticket keys unavailable" (error_text e) with Some _ => true | None => false end.

Definition GetSessionTicket : suM (option bytes) := fun h =>
  match onConn (tls_SendSessionTicket (suAllow0RTT h)) h with
  | (Err e, h) => if ticketsUnavailable e then (Ok None, h) else (Err e, h)
  | (Panic p, h) => (Panic p, h)
  | (Ok _, h) =>
      (ev ← onConn tls_NextEvent;
       if bool_decide (qeKind ev <> QUICWriteData) || bool_decide (qeLevel ev <> QUICEncryptionLevelApplication)
       then lift (Panic "crypto/tls bug: where's my session ticket?")
       else
         ev2 ← onConn tls_NextEvent;
         if bool_decide (qeKind ev2 <> QUICNoEvent) then lift (Panic "crypto/tls bug: why more than one ticket?")
         else mret (Some (qeData ev))) h
  end.

(** Whether 0-RTT is accepted. *)
Definition handleSessionTicket (data : bytes) (using0RTT : bool) : suM bool :=
  match (ticket_Unmarshal using0RTT data).1 with
  | Err _ => mret false
  | Panic p => lift (Panic p)
  | Ok t =>
      _ ← setInitialRTT (stRTT t);
      if negb using0RTT then mret false
      else
        h ← get;
        saved ← lift (nilDeref (stParameters t));
        if negb (ValidFor0RTT saved (suOurParams h)) then mret false else mret (suAllow0RTT h)
  end.

(** *** Keys *)

Definition DiscardInitialKeys : suM unit := modify (fun h => w_InitialSealer None (w_InitialOpener None h)).

Definition su_SetHandshakeConfirmed : suM unit :=
  _ ← onAead ua_SetHandshakeConfirmed;
  h ← get;
  if bool_decide (is_Some (suHandshakeOpener h)) then modify (fun h => w_HandshakeSealer None (w_HandshakeOpener None h))
  else mret tt.

Definition keyOr {B} (k : option B) (e : GoError) : res B := match k with Some x => Ok x | None => Err e end.

Definition GetInitialSealer h : res (longHeaderSealer A) := keyOr (suInitialSealer h) ErrKeysDropped.
Definition Get0RTTSealer h : res (longHeaderSealer A) := keyOr (suZeroRTTSealer h) ErrKeysDropped.
Definition GetHandshakeSealer h : res (longHeaderSealer A) :=
  keyOr (suHandshakeSealer h) (match suInitialSealer h with None => ErrKeysDropped | Some _ => ErrKeysNotYetAvailable end).
Definition Get1RTTSealer h : res (updatableAEAD A) := if negb (suHas1RTTSealer h) then Err ErrKeysNotYetAvailable else Ok (suAead h).

Definition GetInitialOpener h : res (longHeaderOpener A) := keyOr (suInitialOpener h) ErrKeysDropped.
Definition Get0RTTOpener h : res (longHeaderOpener A) :=
  keyOr (suZeroRTTOpener h) (match suInitialOpener h with Some _ => ErrKeysNotYetAvailable | None => ErrKeysDropped end).
Definition GetHandshakeOpener h : res (longHeaderOpener A) :=
  keyOr (suHandshakeOpener h) (match suInitialOpener h with Some _ => ErrKeysNotYetAvailable | None => ErrKeysDropped end).

Definition Get1RTTOpener : suM (updatableAEAD A) :=
  h ← get;
  _ ← (if bool_decide (is_Some (suZeroRTTOpener h)) && (i64 (3 * PTO (suRTTStats h) true) <? Time_Sub now (suHandshakeCompleteTime h))
       then modify (w_ZeroRTTOpener None) else mret tt);
  if negb (suHas1RTTOpener h) then throw ErrKeysNotYetAvailable else h ← get; mret (suAead h).
End model.
