(* ===== verification/DatagramQueue.v ===== *)
(** * DatagramQueue: DATAGRAM frames to send and received

    Models datagram_queue.go.  A call that waits is split at the channel operations:
    [AddAndWait] into [dq_AddAndWait], which queues the frame, and
    [dq_AwaitDequeue]; a [Receive] that finds nothing waits for the notification.
    A channel of capacity one is an option or a flag; the unbuffered channel
    [dequeued] is a rendezvous with one of the calls that wait on it. *)

From S2P Require Import Prelude Protocol Frames.
From stdpp Require Import base numbers list option strings.
From Stdlib Require Import ZArith Lia.
#[local] Open Scope Z_scope.

Definition DatagramRcvQueueLen : Z := 128.

Record datagramQueue := mkDatagramQueue {
  dqSendQueue : option DatagramFrame;    (* chan of capacity 1 *)
  dqNextFrame : option DatagramFrame;
  dqWaiting : nat;                       (* calls of AddAndWait that wait for dequeued *)
  dqDone : nat;                          (* those that may return *)
  dqHasData : nat;                       (* calls of hasData *)
  dqRcvQueue : list bytes;
  dqRcvd : bool;                         (* chan of capacity 1 *)
  dqCloseErr : option GoError            (* set when closed is closed *)
}.

Definition newDatagramQueue : datagramQueue := mkDatagramQueue None None 0 0 0 [] false None.

Abbreviation dqM := (stM datagramQueue).

Definition dq_send (sq nf : option DatagramFrame) (w d hd : nat) q : datagramQueue :=
  mkDatagramQueue sq nf w d hd (dqRcvQueue q) (dqRcvd q) (dqCloseErr q).
Definition dq_rcv (rq : list bytes) (rcvd : bool) q : datagramQueue :=
  mkDatagramQueue (dqSendQueue q) (dqNextFrame q) (dqWaiting q) (dqDone q) (dqHasData q) rq rcvd (dqCloseErr q).

(** The outcome of an operation that may have to wait. *)
Inductive waiting (A : Type) := Ready (a : A) | Waits.
Arguments Ready {_} _.
Arguments Waits {_}.

(** The first select of [AddAndWait]. *)
Definition dq_AddAndWait (f : DatagramFrame) : dqM (waiting unit) :=
  q ← get;
  match dqSendQueue q with
  | None =>
      _ ← modify (fun q => dq_send (Some f) (dqNextFrame q) (S (dqWaiting q)) (dqDone q) (S (dqHasData q)) q);
      mret (Ready tt)
  | Some _ => match dqCloseErr q with Some e => throw e | None => mret Waits end
  end.

(** The second select of [AddAndWait]. *)
Definition dq_AwaitDequeue : dqM (waiting unit) :=
  q ← get;
  match dqDone q with
  | S n => _ ← modify (fun q => dq_send (dqSendQueue q) (dqNextFrame q) (dqWaiting q) n (dqHasData q) q); mret (Ready tt)
  | O =>
      match dqCloseErr q with
      | Some e => _ ← modify (fun q => dq_send (dqSendQueue q) (dqNextFrame q) (pred (dqWaiting q)) O (dqHasData q) q); throw e
      | None => mret Waits
      end
  end.

(** Taking the frame from the channel releases the call of [AddAndWait] that put
    it there; without such a call the send on [dequeued] blocks forever. *)
Definition dq_Peek : dqM (option DatagramFrame) :=
  q ← get;
  match dqNextFrame q with
  | Some f => mret (Some f)
  | None =>
      match dqSendQueue q with
      | None => mret None
      | Some f =>
          match dqWaiting q with
          | O => lift (Panic "deadlock: nobody receives from dequeued")
          | S w => _ ← modify (fun q => dq_send None (Some f) w (S (dqDone q)) (dqHasData q) q); mret (Some f)
          end
      end
  end.

Definition dq_Pop : dqM unit :=
  q ← get;
  match dqNextFrame q with
  | None => lift (Panic "datagramQueue BUG: Pop called for nil frame")
  | Some _ => modify (fun q => dq_send (dqSendQueue q) None (dqWaiting q) (dqDone q) (dqHasData q) q)
  end.

Definition HandleDatagramFrame (f : DatagramFrame) (q : datagramQueue) : datagramQueue :=
  if blen (dqRcvQueue q) <? DatagramRcvQueueLen then dq_rcv (dqRcvQueue q ++ [dgData f]) true q else q.

(** One round of the loop of [Receive]: [ctxErr] if the context is done. *)
Definition dq_Receive (ctxErr : option GoError) : dqM (waiting bytes) :=
  q ← get;
  match dqRcvQueue q with
  | data :: rest => _ ← modify (dq_rcv rest (dqRcvd q)); mret (Ready data)
  | [] =>
      match dqCloseErr q, ctxErr with
      | Some e, _ => throw e
      | None, Some e => throw e
      | None, None => mret Waits
      end
  end.

(** The notification wakes up a [Receive] that waits; it loops. *)
Definition dq_Notified : dqM bool := q ← get; _ ← modify (dq_rcv (dqRcvQueue q) false); mret (dqRcvd q).

Definition dq_CloseWithError (e : GoError) (q : datagramQueue) : datagramQueue :=
  mkDatagramQueue (dqSendQueue q) (dqNextFrame q) (dqWaiting q) (dqDone q) (dqHasData q) (dqRcvQueue q) (dqRcvd q) (Some e).

(** ** Datagrams are sent and received in order *)

Inductive dq_op :=
  | DqAdd (f : DatagramFrame) | DqAwait | DqSend (* Peek and Pop, in a packet with room for it *) | DqPeek
  | DqHandle (f : DatagramFrame)
  | DqReceive   (* a goroutine calls Receive, or one that was woken up loops *)
  | DqNotified. (* one that waits is woken up, if there is a notification *)

(** What was queued and sent, what was accepted from the peer and delivered, how many
    goroutines wait in [Receive], and whether ever one looked for a datagram while
    another one waited. *)
Record dq_log := mkDqLog {
  dlQueued : list DatagramFrame; dlSent : list DatagramFrame; dlAccepted : list bytes; dlDelivered : list bytes;
  dlWaits : nat; dlShared : bool
}.

Definition dl_receiving (delivered : list bytes) (waits : nat) (shared : bool) (l : dq_log) : dq_log :=
  mkDqLog (dlQueued l) (dlSent l) (dlAccepted l) delivered waits shared.

Definition dq_do (o : dq_op) (l : dq_log) : dqM dq_log :=
  match o with
  | DqAdd f =>
      r ← dq_AddAndWait f;
      mret (match r with Ready _ => mkDqLog (dlQueued l ++ [f]) (dlSent l) (dlAccepted l) (dlDelivered l) (dlWaits l) (dlShared l) | Waits => l end)
  | DqAwait => _ ← dq_AwaitDequeue; mret l
  | DqPeek => _ ← dq_Peek; mret l
  | DqSend =>
      f ← dq_Peek;
      match f with
      | None => mret l
      | Some f => _ ← dq_Pop; mret (mkDqLog (dlQueued l) (dlSent l ++ [f]) (dlAccepted l) (dlDelivered l) (dlWaits l) (dlShared l))
      end
  | DqHandle f =>
      q ← get;
      _ ← modify (HandleDatagramFrame f);
      mret (if blen (dqRcvQueue q) <? DatagramRcvQueueLen
            then mkDqLog (dlQueued l) (dlSent l) (dlAccepted l ++ [dgData f]) (dlDelivered l) (dlWaits l) (dlShared l) else l)
  | DqReceive =>
      let shared := dlShared l || negb (dlWaits l =? 0)%nat in
      r ← dq_Receive None;
      mret (match r with
            | Ready d => dl_receiving (dlDelivered l ++ [d]) (dlWaits l) shared l
            | Waits => dl_receiving (dlDelivered l) (S (dlWaits l)) shared l
            end)
  | DqNotified =>
      match dlWaits l with
      | O => mret l
      | S n => b ← dq_Notified; mret (dl_receiving (dlDelivered l) (if b : bool then n else S n) (dlShared l) l)
      end
  end.

Fixpoint dq_run (os : list dq_op) (l : dq_log) : dqM dq_log :=
  match os with
  | [] => mret l
  | o :: os' => l' ← dq_do o l; dq_run os' l'
  end.

Record dq_inv (l : dq_log) (q : datagramQueue) : Prop := {
  di_open : dqCloseErr q = None;
  di_sent : dlQueued l = dlSent l ++ option_list (dqNextFrame q) ++ option_list (dqSendQueue q);
  di_waiting : dqWaiting q = length (option_list (dqSendQueue q));
  di_rcvd : dlAccepted l = dlDelivered l ++ dqRcvQueue q;
  di_bound : blen (dqRcvQueue q) <= DatagramRcvQueueLen;
  di_single : dlShared l = false -> (dlWaits l <= 1)%nat;
  di_notified : dlShared l = false -> dlWaits l <> 0%nat -> dqRcvQueue q <> [] -> dqRcvd q = true
}.

Abbreviation dqErr := (fun (_ : GoError) (_ : datagramQueue) => False).

Lemma wp_dq_Peek l q : dq_inv l q ->
  wp dq_Peek (fun r q' => dq_inv l q' /\ dqNextFrame q' = r /\ (r = None -> dqSendQueue q' = None)) dqErr q.
Proof.
  intros Hi. pose proof Hi as [Ho Hs Hw Hr Hb H1 Hn]. apply wp_bind, wp_get. destruct (dqNextFrame q) as [f|] eqn:En; [by apply wp_ret|].
  destruct (dqSendQueue q) as [f|] eqn:Eq; [|by apply wp_ret]. rewrite Hw. cbn [option_list option_rect length].
  apply wp_bind, wp_modify, wp_ret. split; [|by split]. by constructor.
Qed.

Lemma wp_dq_do o l q : dq_inv l q -> wp (dq_do o l) dq_inv dqErr q.
Proof.
  intros Hi. pose proof Hi as [Ho Hs Hw Hr Hb H1 Hn]. destruct o as [f| | | |f| |]; cbn [dq_do].
  - apply wp_bind, wp_bind, wp_get. destruct (dqSendQueue q) as [g|] eqn:Eq.
    + rewrite Ho. by apply wp_ret, wp_ret.
    + apply wp_bind, wp_modify, wp_ret, wp_ret. constructor; cbn; try done; [|by rewrite Hw].
      rewrite Hs. cbn. by rewrite !app_nil_r, <- (assoc_L (++)).
  - apply wp_bind, wp_bind, wp_get. destruct (dqDone q) as [|n]; [rewrite Ho; by apply wp_ret, wp_ret|].
    apply wp_bind, wp_modify, wp_ret, wp_ret. by constructor.
  - apply wp_bind. eapply wp_mono; [| |by apply wp_dq_Peek]; [|done]. intros [f|] q' (Hi' & Hf & _); [|by apply wp_ret].
    apply wp_bind, wp_bind, wp_get. rewrite Hf. apply wp_modify, wp_ret. destruct Hi' as [Ho' Hs' Hw' Hr' Hb' H1' Hn']. constructor; cbn; try done.
    rewrite Hs', Hf. cbn. by rewrite <- (assoc_L (++)).
  - apply wp_bind. eapply wp_mono; [| |by apply wp_dq_Peek]; [|done]. intros r q' (Hi' & _ & _). by apply wp_ret.
  - apply wp_bind, wp_get, wp_bind, wp_modify, wp_ret. unfold HandleDatagramFrame.
    destruct (Z.ltb_spec (blen (dqRcvQueue q)) DatagramRcvQueueLen) as [Hlt|Hge]; [|done].
    constructor; cbn; try done; [by rewrite Hr, <- (assoc_L (++))|]. rewrite blen_app, blen_cons, blen_nil. lia.
  - apply wp_bind, wp_bind, wp_get.
    assert (Hsh : dlShared l || negb (dlWaits l =? 0)%nat = false -> dlWaits l = 0%nat).
    { intros [_ E%negb_false_iff]%orb_false_iff. by apply Nat.eqb_eq. }
    destruct (dqRcvQueue q) as [|d rest] eqn:Eq.
    + rewrite Ho. apply wp_ret, wp_ret. constructor; cbn; rewrite ?Eq; try done. intros E%Hsh. lia.
    + apply wp_bind, wp_modify, wp_ret, wp_ret. constructor; cbn; try done; [by rewrite Hr, <- (assoc_L (++))|rewrite blen_cons in Hb; lia|intros E%Hsh; lia|by intros E%Hsh].
  - destruct (dlWaits l) as [|n] eqn:El; [by apply wp_ret|]. apply wp_bind, wp_bind, wp_get, wp_bind, wp_modify, wp_ret, wp_ret.
    constructor; cbn; try done.
    + intros E. specialize (H1 E). destruct (dqRcvd q); lia.
    + intros E Hw' Hne. specialize (H1 E). rewrite (Hn E ltac:(done) Hne) in Hw'. lia.
Qed.

Lemma wp_dq_run os : forall l q, dq_inv l q -> wp (dq_run os l) dq_inv dqErr q.
Proof.
  induction os as [|o os IH]; intros l q Hi; [by apply wp_ret|]. apply wp_bind.
  eapply wp_mono; [| |by apply wp_dq_do]; [|done]. intros l' q'. apply IH.
Qed.

(** C38: Datagrams keep their order. While the queue is open, whatever the
    application queues, the packer sends, the peer sends and the application
    receives, and however these are interleaved, nothing panics, and [Peek] does not
    block forever on a call of [AddAndWait] that is gone: the frames are sent in the order in which they were queued, each one once, with
    at most two pending and one call of [AddAndWait] waiting exactly while its frame
    is in the channel; the datagrams that are accepted from the peer are handed to the
    goroutines in [Receive] in order, each one once, and at most 128 of them are
    stored.  If goroutines have called [Receive] one after the other, not at the same
    time, one that waits while a datagram is stored is notified. *)
Theorem datagrams_in_order os :
  match dq_run os (mkDqLog [] [] [] [] 0 false) newDatagramQueue with
  | (Ok l, q) =>
      (exists pending, dlQueued l = dlSent l ++ pending /\ (length pending <= 2)%nat) /\
      dqWaiting q = (if dqSendQueue q then 1 else 0)%nat /\
      (exists stored, dlAccepted l = dlDelivered l ++ stored /\ blen stored <= DatagramRcvQueueLen /\
        (dlShared l = false -> dlWaits l <> 0%nat -> stored <> [] -> dqRcvd q = true))
  | _ => False
  end.
Proof.
  assert (H0 : dq_inv (mkDqLog [] [] [] [] 0 false) newDatagramQueue) by (constructor; cbn; first [done|lia]).
  pose proof (wp_dq_run os _ _ H0) as Hw. unfold wp in Hw.
  destruct (dq_run os _ newDatagramQueue) as [[l|e|p] q]; [|done|done]. destruct Hw as [Ho Hs Hw Hr Hb H1 Hn]. split_and!.
  - eexists. split; [exact Hs|]. destruct (dqNextFrame q), (dqSendQueue q); cbn; lia.
  - rewrite Hw. by destruct (dqSendQueue q).
  - by exists (dqRcvQueue q).
Qed.

(** *** A defect *)

(** Two goroutines wait in [Receive], and two datagrams arrive: the second notification
    is dropped, since the first one is still in the channel.  One goroutine is woken up
    and returns the first datagram; the other one waits, although the second datagram
    is stored, until yet another one arrives. *)
Theorem receive_lost_wakeup f1 f2 :
  exists l q, dq_run [DqReceive; DqReceive; DqHandle f1; DqHandle f2; DqNotified; DqReceive] (mkDqLog [] [] [] [] 0 false) newDatagramQueue = (Ok l, q) /\
    dlDelivered l = [dgData f1] /\ dqRcvQueue q = [dgData f2] /\ dlWaits l = 1%nat /\
    forall n, dq_run (replicate n DqNotified) l q = (Ok l, q).
Proof.
  eexists _, _. split; [reflexivity|]. do 3 (split; [reflexivity|]). intros n. induction n as [|n IH]; [done|exact IH].
Qed.
