(* ===== verification/Mtu.v ===== *)
(** * Mtu: path MTU discovery

    Models mtu_discoverer.go: a binary search for the largest datagram that the path
    carries.  [now] is the argument or the result of [time.Now()]; the RTT statistics,
    which the finder only reads, are an argument. *)

From S2P Require Import Prelude Protocol Frames FrameParser RTTStats.
From stdpp Require Import base numbers list option strings.
From Stdlib Require Import ZArith Lia.
#[local] Open Scope Z_scope.

Definition maxMTUDiff : Z := 20.
Definition mtuProbeDelay : Z := 5.
Definition MinInitialPacketSize : Z := 1200.
Definition InitialPacketSizeIPv6 : Z := 1232.

(** The type of the address: not UDP, or UDP with an IPv4 or IPv6 address. *)
Inductive addrKind := OtherAddr | UDPAddr (isIPv4 : bool).

Definition getMaxPacketSize (addr : addrKind) : Z :=
  match addr with
  | OtherAddr => MinInitialPacketSize
  | UDPAddr isIPv4 => if isIPv4 then InitialPacketSizeIPv4 else InitialPacketSizeIPv6
  end.

Record mtuFinder := mkMtuFinder {
  mtLastProbeTime : Z;
  mtIncreased : list Z;      (* the calls of mtuIncreased *)
  mtInFlight : Z;
  mtCurrent : Z;
  mtMax : Z
}.

Definition newMTUDiscoverer (start : Z) : mtuFinder := mkMtuFinder zeroTime [] InvalidByteCount start 0.

Definition mtu_done (f : mtuFinder) : bool := i64 (mtMax f - mtCurrent f) <=? maxMTUDiff + 1.

Definition mtu_Start (maxPacketSize now : Z) (f : mtuFinder) : mtuFinder :=
  mkMtuFinder now (mtIncreased f) (mtInFlight f) (mtCurrent f) maxPacketSize.

Definition ShouldSendProbe (rtt : RTTStats) (now : Z) (f : mtuFinder) : bool :=
  if (mtMax f =? 0) || Time_IsZero (mtLastProbeTime f) then false
  else if negb (mtInFlight f =? InvalidByteCount) || mtu_done f then false
  else negb (Time_Before now (Time_Add (mtLastProbeTime f) (i64 (mtuProbeDelay * smoothedRTT rtt)))).

(** The frame is a PING with the finder as its handler. *)
Definition GetPing (now : Z) (f : mtuFinder) : wireFrame * Z * mtuFinder :=
  let size := Z.quot (i64 (mtMax f + mtCurrent f)) 2 in
  (FPing mkPing, size, mkMtuFinder now (mtIncreased f) size (mtCurrent f) (mtMax f)).

Definition CurrentSize (f : mtuFinder) : Z := mtCurrent f.

Definition mtu_OnAcked (f : mtuFinder) : res mtuFinder :=
  let size := mtInFlight f in
  if size =? InvalidByteCount then Panic "OnAcked callback called although there's no MTU probe packet in flight"
  else Ok (mkMtuFinder (mtLastProbeTime f) (mtIncreased f ++ [size]) InvalidByteCount size (mtMax f)).

Definition mtu_OnLost (f : mtuFinder) : res mtuFinder :=
  let size := mtInFlight f in
  if size =? InvalidByteCount then Panic "OnLost callback called although there's no MTU probe packet in flight"
  else Ok (mkMtuFinder (mtLastProbeTime f) (mtIncreased f) InvalidByteCount (mtCurrent f) size).

(** ** The search *)

Section search.
(** The path carries datagrams of up to [m] bytes; the search goes from [start], the size
    of the first datagrams, to [max], the limit of the peer. *)
Context (m start max : Z) (Hstart : 0 < start < 2 ^ 62) (Hmax : 0 <= max <= MaxPacketBufferSize).

(** Reachable states, with the number of probes that were sent: a probe is sent when
    it is due, and acknowledged or lost as the path has it. *)
Inductive mtu_reach : nat -> mtuFinder -> Prop :=
  | reach_start now : 0 < now -> mtu_reach 0 (mtu_Start max now (newMTUDiscoverer start))
  | reach_probe n f rtt now : mtu_reach n f -> 0 < now -> ShouldSendProbe rtt now f = true -> mtu_reach (S n) (GetPing now f).2
  | reach_acked n f f' : mtu_reach n f -> mtInFlight f <= m -> mtu_OnAcked f = Ok f' -> mtu_reach n f'
  | reach_lost n f f' : mtu_reach n f -> m < mtInFlight f -> mtu_OnLost f = Ok f' -> mtu_reach n f'.

(** If the first datagrams are larger than the limit, nothing is ever probed. *)
Lemma mtu_no_search n f : max < start -> mtu_reach n f -> n = 0%nat /\ mtInFlight f = InvalidByteCount /\ mtCurrent f = start /\ mtMax f = max.
Proof.
  intros Hlt. unfold MaxPacketBufferSize in *. induction 1 as [now Hnow|n f rtt now _ IH Hnow Hs|n f f' _ IH Hle He|n f f' _ IH Hl He]; [done|exfalso..].
  - destruct IH as (_ & _ & Ec & Em). unfold ShouldSendProbe, mtu_done, maxMTUDiff in Hs. rewrite Ec, Em, i64_small in Hs by int_range.
    ztrue_in (max - start <=? 20 + 1) Hs. rewrite orb_true_r in Hs. by destruct (_ || _).
  - unfold mtu_OnAcked in He. destruct IH as (_ & E & _). by rewrite E in He.
  - unfold mtu_OnLost in He. destruct IH as (_ & E & _). by rewrite E in He.
Qed.

Section within.
Context (Hwithin : start <= max).

(** The MTU is between [mtCurrent] and [mtMax]; each probe halves the distance. *)
Record mtu_inv (n : nat) (f : mtuFinder) : Prop := {
  mi_time : mtLastProbeTime f <> 0;
  mi_current : start <= mtCurrent f <= Z.max start m;
  mi_max : mtCurrent f <= mtMax f <= max;
  mi_above : mtMax f = max \/ m < mtMax f;
  mi_width : n = 0%nat /\ mtInFlight f = InvalidByteCount /\ mtMax f - mtCurrent f <= max - start \/
             mtInFlight f = InvalidByteCount /\ 2 ^ Z.of_nat n * (mtMax f - mtCurrent f - 1) <= max - start - 1 \/
             (0 < n)%nat /\ mtInFlight f = (mtMax f + mtCurrent f) / 2 /\ 22 <= mtMax f - mtCurrent f /\
             2 ^ (Z.of_nat n - 1) * (mtMax f - mtCurrent f - 1) <= max - start - 1;
  mi_probes : (0 < n)%nat -> 21 * 2 ^ (Z.of_nat n - 1) < max - start
}.

Lemma mtu_done_spec n f : mtu_inv n f -> mtu_done f = true <-> mtMax f - mtCurrent f <= 21.
Proof.
  intros []. unfold mtu_done, maxMTUDiff, MaxPacketBufferSize in *. rewrite i64_small by int_range. rewrite Z.leb_le. lia.
Qed.

Lemma half_split a b : 0 <= a -> 0 <= b -> a <= b -> a <= (b + a) / 2 <= b /\ 2 * ((b + a) / 2 - a - 1) <= b - a - 1 /\ 2 * (b - (b + a) / 2 - 1) <= b - a - 1.
Proof. intros. pose proof (Z.div_mod (b + a) 2). pose proof (Z.mod_pos_bound (b + a) 2). lia. Qed.

Lemma pow_half n x : 0 < n -> 2 ^ n * x = 2 ^ (n - 1) * (2 * x).
Proof. intros Hn. replace n with (Z.succ (n - 1)) at 1 by lia. rewrite Z.pow_succ_r by lia. lia. Qed.

Lemma inv_probe n f rtt now : mtu_inv n f -> 0 < now -> ShouldSendProbe rtt now f = true -> mtu_inv (S n) (GetPing now f).2.
Proof.
  intros Hi Hnow Hs. pose proof (mtu_done_spec n f Hi) as Hd. unfold ShouldSendProbe in Hs.
  destruct (_ || Time_IsZero _); [done|]. destruct (Z.eqb_spec (mtInFlight f) InvalidByteCount) as [Ef|]; cbn [negb orb] in Hs; [|done].
  destruct (mtu_done f); [done|]. assert (Hw : ~ (mtMax f - mtCurrent f <= 21)) by (intros Hx; by apply Hd in Hx). clear Hs Hd.
  destruct Hi as [Ht Hc Hm Ha Hwd Hp]. unfold MaxPacketBufferSize in *.
  assert (Eq : Z.quot (i64 (mtMax f + mtCurrent f)) 2 = (mtMax f + mtCurrent f) / 2) by (rewrite i64_small by int_range; apply Z.quot_div_nonneg; lia).
  assert (Hpow : 0 < 2 ^ Z.of_nat n) by (apply Z.pow_pos_nonneg; lia).
  assert (Hmul : 2 ^ Z.of_nat n * (mtMax f - mtCurrent f - 1) <= max - start - 1).
  { destruct Hwd as [(-> & _ & Hw0)|[[_ Hw0]|(_ & E0 & _)]]; [change (2 ^ Z.of_nat 0) with 1; lia|done|]. rewrite Ef in E0. unfold InvalidByteCount in E0.
    pose proof (half_split (mtCurrent f) (mtMax f)). lia. }
  constructor; cbn [GetPing snd mtLastProbeTime mtCurrent mtMax mtInFlight]; rewrite ?Eq; try done; [lia| |].
  - right; right. split; [lia|]. split; [done|]. split; [lia|]. by replace (Z.of_nat (S n) - 1) with (Z.of_nat n) by lia.
  - intros _. replace (Z.of_nat (S n) - 1) with (Z.of_nat n) by lia. rewrite Z.mul_comm.
    enough (2 ^ Z.of_nat n * 21 <= max - start - 1) by lia. etransitivity; [|exact Hmul]. apply Z.mul_le_mono_nonneg_l; lia.
Qed.

Lemma inv_answer n f : mtu_inv n f -> mtInFlight f <> InvalidByteCount ->
  let size := mtInFlight f in (0 < n)%nat /\ mtCurrent f < size < mtMax f /\
  2 ^ Z.of_nat n * (size - mtCurrent f - 1) <= max - start - 1 /\ 2 ^ Z.of_nat n * (mtMax f - size - 1) <= max - start - 1.
Proof.
  intros [Ht Hc Hm Ha Hwd Hp] Hf size. destruct Hwd as [(_ & ? & _)|[[? _]|(Hn & E0 & H22 & Hw)]]; [done|done|]. unfold size. rewrite E0.
  destruct (half_split (mtCurrent f) (mtMax f)) as (H1 & H2 & H3); [lia..|]. rewrite !(pow_half (Z.of_nat n)) by lia.
  assert (0 < 2 ^ (Z.of_nat n - 1)) by (apply Z.pow_pos_nonneg; lia). split; [done|].
  split; [|split; (etransitivity; [|exact Hw]); apply Z.mul_le_mono_nonneg_l; lia].
  pose proof (Z.div_mod (mtMax f + mtCurrent f) 2). pose proof (Z.mod_pos_bound (mtMax f + mtCurrent f) 2). lia.
Qed.

Lemma mtu_reach_inv n f : mtu_reach n f -> mtu_inv n f.
Proof.
  induction 1 as [now Hnow|n f rtt now _ IH Hnow Hs|n f f' _ IH Hle He|n f f' _ IH Hlt He].
  - constructor; cbn; [lia|lia|lia|by left|left; split_and!; done || lia|lia].
  - by eapply inv_probe.
  - unfold mtu_OnAcked in He. destruct (Z.eqb_spec (mtInFlight f) InvalidByteCount) as [|Hf]; [done|]. injection He as <-.
    destruct (inv_answer n f IH Hf) as (Hn & Hr & _ & Hw). destruct IH. constructor; cbn; try done; [lia|lia|]. right; left. by split.
  - unfold mtu_OnLost in He. destruct (Z.eqb_spec (mtInFlight f) InvalidByteCount) as [|Hf]; [done|]. injection He as <-.
    destruct (inv_answer n f IH Hf) as (Hn & Hr & Hw & _). destruct IH. constructor; cbn; try done; [lia|by right|]. right; left. by split.
Qed.

End within.

(** C37: Path MTU discovery converges.  While the path carries datagrams of [m]
    bytes, the size in use never exceeds [m] and the limit of the peer, unless it is
    the size of the first datagrams, which is not checked against either; a probe is
    larger than it; the number of probes is at most logarithmic in the distance;
    without a probe in flight either the next one is sent five round-trip times
    after the last, or the size in use is at most 21 bytes below the largest one that
    is possible. *)
Theorem mtu_discovery_converges n f : mtu_reach n f ->
  start <= CurrentSize f <= Z.max start (Z.min m max) /\
  (mtInFlight f = InvalidByteCount \/ CurrentSize f < mtInFlight f < mtMax f) /\
  ((0 < n)%nat -> 21 * 2 ^ (Z.of_nat n - 1) < max - start) /\
  (mtInFlight f = InvalidByteCount ->
    (forall rtt now, mtLastProbeTime f + i64 (mtuProbeDelay * smoothedRTT rtt) <= now -> ShouldSendProbe rtt now f = true) \/
    Z.min m max - 21 <= CurrentSize f).
Proof.
  intros Hr. unfold CurrentSize. destruct (Z.lt_ge_cases max start) as [Hlt|Hwithin].
  { destruct (mtu_no_search n f Hlt Hr) as (-> & Ef & Ec & _). rewrite Ec. split; [lia|]. split; [by left|]. split; [lia|]. intros _. right. lia. }
  apply (mtu_reach_inv Hwithin) in Hr. pose proof (mtu_done_spec n f Hr) as Hd. pose proof Hr as [Ht Hc Hm Ha Hw Hp].
  split; [lia|]. split; [|split; [done|]].
  - destruct (decide (mtInFlight f = InvalidByteCount)) as [|Hf]; [by left|]. right. by destruct (inv_answer n f Hr Hf) as (_ & ? & _).
  - intros Hf. destruct (mtu_done f) eqn:Ed; [right; pose proof (proj1 Hd eq_refl); lia|]. left. intros rtt now Hnow. unfold ShouldSendProbe, Time_IsZero. rewrite Hf, Ed.
    zfalse (mtMax f =? 0). zfalse (mtLastProbeTime f =? 0). rewrite Z.eqb_refl. cbn [negb orb]. unfold Time_Before, Time_Add. apply negb_true_iff, Z.ltb_ge. done.
Qed.
End search.

(** On a path of 1400 bytes, the first probe has 1352 bytes and arrives. *)
Lemma mtu_discovery_converges_witness :
  let f := mkMtuFinder 10 [1352] InvalidByteCount 1352 1452 in
  1252 <= CurrentSize f <= 1400 /\ (21 * 2 ^ (Z.of_nat 1 - 1) < 1452 - 1252).
Proof.
  intros f. assert (Hr : mtu_reach 1400 1252 1452 1 f).
  { eapply (reach_acked _ _ _ 1 (mkMtuFinder 10 [] 1352 1252 1452)); [|cbn; lia|reflexivity].
    apply (reach_probe _ _ _ 0 (mtu_Start 1452 5 (newMTUDiscoverer 1252)) NewRTTStats 10); [apply reach_start; lia|lia|reflexivity]. }
  destruct (mtu_discovery_converges 1400 1252 1452 ltac:(lia) ltac:(split; [lia|vm_compute; discriminate]) 1 f Hr) as (H1 & _ & H2 & _).
  split; [|apply H2; lia]. split; [apply H1|]. etransitivity; [apply H1|]. reflexivity || lia.
Defined.

(** ** A defect *)

(** The size in use is not limited to what the peer accepts: with IPv4 a datagram
    has 1252 bytes from the start, also if the peer announces a
    max_udp_payload_size of 1200. *)
Theorem mtu_ignores_peer_limit now : CurrentSize (mtu_Start 1200 now (newMTUDiscoverer (getMaxPacketSize (UDPAddr true)))) = 1252.
Proof. reflexivity. Qed.
