(* ===== verification/Packer.v ===== *)
(** * Packer: composing packets

    Models packet_packer.go on the crypto setup, the crypto streams, the
    retransmission queue and the datagram queue.  The packet number manager, the
    source of ACK frames, the framer and the connection IDs are interfaces in the
    code; they are the class [PackerEnv] here, on one state. *)

From S2P Require Import Prelude Protocol Varint AckFrame Frames FrameParser Connection CryptoStream RetransmissionQueue SendStream Headers Protection KeyUpdate Unpacker CryptoSetup DatagramQueue.
From stdpp Require Import base numbers list option strings.
From Stdlib Require Import ZArith Lia.
#[local] Open Scope Z_scope.

Definition MaxNonAckElicitingAcks : Z := 19.
Definition MinCoalescedPacketSize : Z := 128.
Definition ApplicationErrorErrorCode : Z := 0xc.

Definition errNothingToPack : GoError := ErrorString "nothing to pack".

(** The interfaces of the packer. *)
Class PackerEnv (E : Type) := {
  getDestConnID : stM E bytes;
  PeekPacketNumber : EncryptionLevel -> E -> res (Z * Z);
  PopPacketNumber : EncryptionLevel -> stM E Z;
  GetAckFrame : EncryptionLevel -> bool -> stM E (option AckFrame);
  framer_HasData : stM E bool;
  framer_AppendControlFrames : list wireFrame -> Z -> stM E (list wireFrame * Z);
  framer_AppendStreamFrames : list StreamFrame -> Z -> stM E (list StreamFrame * Z)
}.

(** The handler of a frame: one of the retransmission queue or another one. *)
Inductive frameHandler := retransmissionHandler (lvl : EncryptionLevel) | otherHandler (id : Z).

Record packFrame := mkPackFrame { pfFrame : wireFrame; pfHandler : option frameHandler }.

Record payload := mkPayload {
  plStreamFrames : list StreamFrame;
  plFrames : list packFrame;
  plAck : option AckFrame;
  plLength : Z
}.

Definition noPayload : payload := mkPayload [] [] None 0.

Record longHeaderPacket := mkLongHeaderPacket {
  lpHeader : ExtendedHeader;
  lpAck : option AckFrame;
  lpFrames : list packFrame;
  lpStreamFrames : list StreamFrame;
  lpLength : Z
}.

Record shortHeaderPacket := mkShortHeaderPacket {
  spPacketNumber : Z;
  spFrames : list packFrame;
  spStreamFrames : list StreamFrame;
  spAck : option AckFrame;
  spLength : Z;
  spIsPathMTUProbePacket : bool;
  spDestConnID : bytes;
  spPacketNumberLen : Z;
  spKeyPhase : KeyPhaseBit
}.

(** The bytes of the buffer and its capacity. *)
Record packetBuffer := mkBuffer { bufData : bytes; bufCap : Z }.

Definition getPacketBuffer : packetBuffer := mkBuffer [] MaxPacketBufferSize.

Record coalescedPacket := mkCoalesced {
  cpBuffer : packetBuffer;
  cpLongHdrPackets : list longHeaderPacket;
  cpShortHdrPacket : option shortHeaderPacket
}.

Definition IsOnlyShortHeaderPacket (p : coalescedPacket) : bool :=
  (blen (cpLongHdrPackets p) =? 0) && bool_decide (is_Some (cpShortHdrPacket p)).

Definition HasAckElicitingFrames (fs : list packFrame) : bool := existsb (fun f => IsFrameAckEliciting (pfFrame f)) fs.

Definition lp_EncryptionLevel (p : longHeaderPacket) : res EncryptionLevel :=
  match hType (ehHeader (lpHeader p)) with
  | Some PacketTypeInitial => Ok EncryptionInitial
  | Some PacketTypeHandshake => Ok EncryptionHandshake
  | Some PacketType0RTT => Ok Encryption0RTT
  | _ => Panic "can't determine encryption level"
  end.

Definition lp_IsAckEliciting (p : longHeaderPacket) : bool := HasAckElicitingFrames (lpFrames p).
Definition sp_IsAckEliciting (p : shortHeaderPacket) : bool := HasAckElicitingFrames (spFrames p).

Record packetPacker (A T E : Type) := mkPacker {
  ppSrcConnID : bytes;
  ppPerspective : Perspective;
  ppCryptoSetup : cryptoSetup A T;
  ppInitialStream : cryptoStream;
  ppHandshakeStream : cryptoStream;
  ppToken : bytes;
  ppEnv : E;
  ppDatagramQueue : option datagramQueue;
  ppRetransmissionQueue : retransmissionQueue;
  ppRand : nat;
  ppNumNonAckElicitingAcks : Z
}.
Arguments mkPacker {_ _ _} _ _ _ _ _ _ _ _ _ _ _.
Arguments ppSrcConnID {_ _ _} _.
Arguments ppPerspective {_ _ _} _.
Arguments ppCryptoSetup {_ _ _} _.
Arguments ppInitialStream {_ _ _} _.
Arguments ppHandshakeStream {_ _ _} _.
Arguments ppToken {_ _ _} _.
Arguments ppEnv {_ _ _} _.
Arguments ppDatagramQueue {_ _ _} _.
Arguments ppRetransmissionQueue {_ _ _} _.
Arguments ppRand {_ _ _} _.
Arguments ppNumNonAckElicitingAcks {_ _ _} _.

Section model.
Context {A T E : Type} `{Crypto A} `{PackerEnv E}.
(** [rand.Shuffle] of golang.org/x/exp/rand. *)
Context (shuffle : nat -> list packFrame -> list packFrame).
Implicit Types p : packetPacker A T E.
Abbreviation ppM := (stM (packetPacker A T E)).

Definition pp_setup (x : cryptoSetup A T) p : packetPacker A T E :=
  mkPacker (ppSrcConnID p) (ppPerspective p) x (ppInitialStream p) (ppHandshakeStream p) (ppToken p) (ppEnv p)
    (ppDatagramQueue p) (ppRetransmissionQueue p) (ppRand p) (ppNumNonAckElicitingAcks p).
Definition pp_initialStream (x : cryptoStream) p : packetPacker A T E :=
  mkPacker (ppSrcConnID p) (ppPerspective p) (ppCryptoSetup p) x (ppHandshakeStream p) (ppToken p) (ppEnv p)
    (ppDatagramQueue p) (ppRetransmissionQueue p) (ppRand p) (ppNumNonAckElicitingAcks p).
Definition pp_handshakeStream (x : cryptoStream) p : packetPacker A T E :=
  mkPacker (ppSrcConnID p) (ppPerspective p) (ppCryptoSetup p) (ppInitialStream p) x (ppToken p) (ppEnv p)
    (ppDatagramQueue p) (ppRetransmissionQueue p) (ppRand p) (ppNumNonAckElicitingAcks p).
Definition pp_token (x : bytes) p : packetPacker A T E :=
  mkPacker (ppSrcConnID p) (ppPerspective p) (ppCryptoSetup p) (ppInitialStream p) (ppHandshakeStream p) x (ppEnv p)
    (ppDatagramQueue p) (ppRetransmissionQueue p) (ppRand p) (ppNumNonAckElicitingAcks p).
Definition pp_env (x : E) p : packetPacker A T E :=
  mkPacker (ppSrcConnID p) (ppPerspective p) (ppCryptoSetup p) (ppInitialStream p) (ppHandshakeStream p) (ppToken p)
    x (ppDatagramQueue p) (ppRetransmissionQueue p) (ppRand p) (ppNumNonAckElicitingAcks p).
Definition pp_datagrams (x : option datagramQueue) p : packetPacker A T E :=
  mkPacker (ppSrcConnID p) (ppPerspective p) (ppCryptoSetup p) (ppInitialStream p) (ppHandshakeStream p) (ppToken p)
    (ppEnv p) x (ppRetransmissionQueue p) (ppRand p) (ppNumNonAckElicitingAcks p).
Definition pp_retrans (x : retransmissionQueue) p : packetPacker A T E :=
  mkPacker (ppSrcConnID p) (ppPerspective p) (ppCryptoSetup p) (ppInitialStream p) (ppHandshakeStream p) (ppToken p)
    (ppEnv p) (ppDatagramQueue p) x (ppRand p) (ppNumNonAckElicitingAcks p).
Definition pp_rand (x : nat) p : packetPacker A T E :=
  mkPacker (ppSrcConnID p) (ppPerspective p) (ppCryptoSetup p) (ppInitialStream p) (ppHandshakeStream p) (ppToken p)
    (ppEnv p) (ppDatagramQueue p) (ppRetransmissionQueue p) x (ppNumNonAckElicitingAcks p).
Definition pp_numAcks (x : Z) p : packetPacker A T E :=
  mkPacker (ppSrcConnID p) (ppPerspective p) (ppCryptoSetup p) (ppInitialStream p) (ppHandshakeStream p) (ppToken p)
    (ppEnv p) (ppDatagramQueue p) (ppRetransmissionQueue p) (ppRand p) x.

(** Calls on the parts of the packer. *)
Definition onEnv {B} (m : stM E B) : ppM B := fun p => let '(r, e) := m (ppEnv p) in (r, pp_env e p).
Definition onRetrans {B} (m : stM retransmissionQueue B) : ppM B := fun p =>
  let '(r, q) := m (ppRetransmissionQueue p) in (r, pp_retrans q p).
Definition onSetup {B} (m : stM (cryptoSetup A T) B) : ppM B := fun p => let '(r, c) := m (ppCryptoSetup p) in (r, pp_setup c p).
Definition onDatagrams {B} (m : stM datagramQueue B) : ppM B := fun p =>
  match ppDatagramQueue p with
  | None => (Panic "nil pointer dereference", p)
  | Some q => let '(r, q) := m q in (r, pp_datagrams (Some q) p)
  end.

Definition longSealerAt (lvl : EncryptionLevel) (c : cryptoSetup A T) : res (longHeaderSealer A) :=
  match lvl with
  | EncryptionInitial => GetInitialSealer c
  | EncryptionHandshake => GetHandshakeSealer c
  | Encryption0RTT => Get0RTTSealer c
  | Encryption1RTT => Panic "unreachable"
  end.

(** Sealing with the sealer of a level, which the crypto setup owns. *)
Definition setLongSealer (lvl : EncryptionLevel) (s : longHeaderSealer A) (c : cryptoSetup A T) : cryptoSetup A T :=
  match lvl with
  | EncryptionInitial => w_InitialSealer (Some s) c
  | EncryptionHandshake => w_HandshakeSealer (Some s) c
  | Encryption0RTT => w_ZeroRTTSealer (Some s) c
  | Encryption1RTT => c
  end.

Definition onLongSealer {B} (lvl : EncryptionLevel) (m : stM (longHeaderSealer A) B) : ppM B := fun p =>
  match longSealerAt lvl (ppCryptoSetup p) with
  | Ok s => let '(r, s) := m s in (r, pp_setup (setLongSealer lvl s (ppCryptoSetup p)) p)
  | Err _ => (Panic "nil pointer dereference", p)
  | Panic msg => (Panic msg, p)
  end.

Definition newPacketPacker (srcConnID : bytes) (env : E) (initialStream handshakeStream : cryptoStream)
    (cs : cryptoSetup A T) (rq : retransmissionQueue) (dq : option datagramQueue) (perspective : Perspective)
    : packetPacker A T E :=
  mkPacker srcConnID perspective cs initialStream handshakeStream [] env dq rq 0 0.

Definition SetToken (token : bytes) p : packetPacker A T E := pp_token token p.

(** ** Sizes *)

(** A tiny payload is padded, such that there is enough for the sample of header
    protection. *)
Definition tinyPadding (pnLen length : Z) : Z := if length <? 4 - pnLen then 4 - pnLen - length else 0.

Definition longHeaderPacketLength (hdr : ExtendedHeader) (pl : payload) : res Z :=
  l ← GetLength hdr; Ok (l + plLength pl + tinyPadding (ehPacketNumberLen hdr) (plLength pl)).

Definition shortHeaderPacketLength (connID : bytes) (pnLen : Z) (pl : payload) : Z :=
  ShortHeaderLen connID pnLen + plLength pl + tinyPadding pnLen (plLength pl).

Definition initialPaddingLen (frames : list packFrame) (currentSize maxPacketSize : Z) p : Z :=
  if bool_decide (ppPerspective p = PerspectiveServer) && negb (HasAckElicitingFrames frames) then 0
  else if maxPacketSize <=? currentSize then 0
  else maxPacketSize - currentSize.

(** ** Headers *)

Definition typeOfLevel (lvl : EncryptionLevel) : option PacketType :=
  match lvl with
  | EncryptionInitial => Some PacketTypeInitial
  | EncryptionHandshake => Some PacketTypeHandshake
  | Encryption0RTT => Some PacketType0RTT
  | Encryption1RTT => None
  end.

Definition getLongHeader (lvl : EncryptionLevel) (v : Z) : ppM ExtendedHeader :=
  p ← get;
  '(pn, pnLen) ← lift (PeekPacketNumber lvl (ppEnv p));
  dest ← onEnv getDestConnID;
  mret (mkExtended (mkHeader 0 (typeOfLevel lvl) v (ppSrcConnID p) dest 0
                      (if decide (lvl = EncryptionInitial) then ppToken p else []) 0) 0 pnLen pn 0).

(** ** Appending a packet to the buffer *)

Fixpoint appendFrames {F} `{WireFrame F} (raw : bytes) (fs : list F) : res bytes :=
  match fs with
  | [] => Ok raw
  | f :: fs' => raw ← frame_Append raw f; appendFrames raw fs'
  end.

(** The bytes, and the control frames in their new order. *)
Definition appendPacketPayload (raw : bytes) (pl : payload) (paddingLen : Z) : ppM (bytes * list packFrame) :=
  let payloadOffset := blen raw in
  raw ← lift (match plAck pl with Some ack => frame_Append raw (FAck ack) | None => Ok raw end);
  let raw := if 0 <? paddingLen then raw ++ replicate (Z.to_nat paddingLen) 0 else raw in
  p ← get;
  let '(frames, rand) := if (1 <? blen (plFrames pl)) then (shuffle (ppRand p) (plFrames pl), S (ppRand p))
                         else (plFrames pl, ppRand p) in
  _ ← modify (pp_rand rand);
  raw ← lift (appendFrames raw (pfFrame <$> frames));
  raw ← lift (appendFrames raw (FStream <$> plStreamFrames pl));
  let payloadSize := blen raw - payloadOffset - paddingLen in
  if negb (payloadSize =? plLength pl)
  then throw (ErrorString "PacketPacker BUG: payload size inconsistent (expected %d, got %d bytes)")
  else mret (raw, frames).

(** [buffer.Data = buffer.Data[:len(buffer.Data)+len(raw)]]: the packet was written
    behind the data, if there is room for it. *)
Definition extendBuffer (buffer : packetBuffer) (raw : bytes) : res packetBuffer :=
  if bufCap buffer <? blen (bufData buffer) + blen raw then Panic "slice bounds out of range"
  else Ok (mkBuffer (bufData buffer ++ raw) (bufCap buffer)).

Definition setLength (n : Z) (e : ExtendedHeader) : ExtendedHeader :=
  let h := ehHeader e in
  mkExtended (mkHeader (hTypeByte h) (hType h) (hVersion h) (hSrcConnectionID h) (hDestConnectionID h) n (hToken h) (hParsedLen h))
    (ehTypeByte e) (ehPacketNumberLen e) (ehPacketNumber e) (ehParsedLen e).

Definition appendLongHeaderPacket (buffer : packetBuffer) (header : ExtendedHeader) (pl : payload) (padding : Z)
    (lvl : EncryptionLevel) (v : Z) : ppM (longHeaderPacket * packetBuffer) :=
  let pnLen := ehPacketNumberLen header in
  let paddingLen := tinyPadding pnLen (plLength pl) + padding in
  overhead ← onLongSealer lvl (s ← get; mret (seal_Overhead s));
  let header := setLength (pnLen + overhead + plLength pl + paddingLen) header in
  raw ← lift (ext_Append [] header v);
  let payloadOffset := blen raw in
  '(raw, frames) ← appendPacketPayload raw pl paddingLen;
  raw ← onLongSealer lvl (encryptPacket raw (ehPacketNumber header) payloadOffset pnLen);
  buffer ← lift (extendBuffer buffer raw);
  pn ← onEnv (PopPacketNumber lvl);
  if negb (pn =? ehPacketNumber header)
  then throw (ErrorString "packetPacker BUG: Peeked and Popped packet numbers do not match: expected %d, got %d")
  else mret (mkLongHeaderPacket header (plAck pl) frames (plStreamFrames pl) (blen raw), buffer).

Definition appendShortHeaderPacket (buffer : packetBuffer) (connID : bytes) (pn pnLen : Z) (kp : KeyPhaseBit) (pl : payload)
    (padding maxPacketSize : Z) (isMTUProbePacket : bool) : ppM (shortHeaderPacket * packetBuffer) :=
  let paddingLen := tinyPadding pnLen (plLength pl) + padding in
  raw ← lift (AppendShortHeader [] connID pn pnLen kp);
  let payloadOffset := blen raw in
  '(raw, frames) ← appendPacketPayload raw pl paddingLen;
  p ← get;
  if negb isMTUProbePacket && (maxPacketSize <? blen raw + uAeadOverhead (suAead (ppCryptoSetup p)))
  then throw (ErrorString "PacketPacker BUG: packet too large (%d bytes, allowed %d bytes)")
  else
    raw ← onSetup (onAead (encryptPacket raw pn payloadOffset pnLen));
    buffer ← lift (extendBuffer buffer raw);
    newPN ← onEnv (PopPacketNumber Encryption1RTT);
    if negb (newPN =? pn)
    then throw (ErrorString "packetPacker BUG: Peeked and Popped packet numbers do not match: expected %d, got %d")
    else mret (mkShortHeaderPacket pn frames (plStreamFrames pl) (plAck pl) (blen raw) isMTUProbePacket connID pnLen kp, buffer).

(** ** The frames of a packet *)

(** The loop that takes the frames to be retransmitted in an Initial or Handshake packet. *)
Fixpoint cryptoRetransmissions (fuel : nat) (lvl : EncryptionLevel) (maxPacketSize : Z) (pl : payload) : ppM payload :=
  f ← onRetrans (match lvl with
                 | EncryptionInitial => GetInitialFrame maxPacketSize
                 | EncryptionHandshake => GetHandshakeFrame maxPacketSize
                 | _ => mret None
                 end);
  match f with
  | None => mret pl
  | Some f =>
      frameLen ← lift (frame_Length f);
      let pl := mkPayload (plStreamFrames pl) (plFrames pl ++ [mkPackFrame f (Some (retransmissionHandler lvl))]) (plAck pl)
                  (plLength pl + frameLen) in
      match fuel with
      | O => lift (Panic "out of fuel")
      | S fuel' => cryptoRetransmissions fuel' lvl (maxPacketSize - frameLen) pl
      end
  end.

Definition popCrypto (lvl : EncryptionLevel) (maxLen : Z) : ppM CryptoFrame := fun p =>
  if decide (lvl = EncryptionInitial)
  then let '(r, s) := PopCryptoFrame maxLen (ppInitialStream p) in (r, pp_initialStream s p)
  else let '(r, s) := PopCryptoFrame maxLen (ppHandshakeStream p) in (r, pp_handshakeStream s p).

(** For the Initial and the Handshake level. *)
Definition maybeGetCryptoPacket (maxPacketSize : Z) (lvl : EncryptionLevel) (onlyAck ackAllowed : bool) (v : Z)
    : ppM (option ExtendedHeader * payload) :=
  if onlyAck then
    ack ← onEnv (GetAckFrame lvl true);
    match ack with
    | Some ack => hdr ← getLongHeader lvl v; l ← lift (frame_Length (FAck ack)); mret (Some hdr, mkPayload [] [] (Some ack) l)
    | None => mret (None, noPayload)
    end
  else
    p ← get;
    let initial := bool_decide (lvl = EncryptionInitial) in
    let hasRetransmission := if initial then HasInitialData (ppRetransmissionQueue p) else HasHandshakeData (ppRetransmissionQueue p) in
    let hasData := cs_HasData (if initial then ppInitialStream p else ppHandshakeStream p) in
    ack ← (if ackAllowed then onEnv (GetAckFrame lvl (negb hasRetransmission && negb hasData)) else mret None);
    if negb hasData && negb hasRetransmission && bool_decide (ack = None) then mret (None, noPayload)
    else
      ackLen ← lift (match ack with Some ack => frame_Length (FAck ack) | None => Ok 0 end);
      hdr ← getLongHeader lvl v;
      hdrLen ← lift (GetLength hdr);
      let maxPacketSize := maxPacketSize - ackLen - hdrLen in
      pl ← (if hasRetransmission then
              cryptoRetransmissions (Z.to_nat maxPacketSize) lvl maxPacketSize (mkPayload [] [] ack ackLen)
            else if hasData then
              cf ← popCrypto lvl maxPacketSize;
              l ← lift (frame_Length (FCrypto cf));
              mret (mkPayload [] [mkPackFrame (FCrypto cf) (Some (retransmissionHandler lvl))] ack (ackLen + l))
            else mret (mkPayload [] [] ack ackLen));
      mret (Some hdr, pl).

(** The loop that takes the frames to be retransmitted in an application data packet. *)
Fixpoint appDataRetransmissions (fuel : nat) (maxFrameSize : Z) (pl : payload) : ppM payload :=
  let remainingLen := maxFrameSize - plLength pl in
  if remainingLen <? MinStreamFrameSize then mret pl
  else
    f ← onRetrans (GetAppDataFrame remainingLen);
    match f with
    | None => mret pl
    | Some f =>
        l ← lift (frame_Length f);
        let pl := mkPayload (plStreamFrames pl) (plFrames pl ++ [mkPackFrame f (Some (retransmissionHandler Encryption1RTT))])
                    (plAck pl) (plLength pl + l) in
        match fuel with
        | O => lift (Panic "out of fuel")
        | S fuel' => appDataRetransmissions fuel' maxFrameSize pl
        end
    end.

(** The DATAGRAM frame, if there is one and it fits. *)
Definition addDatagram (maxFrameSize : Z) (pl : payload) : ppM payload :=
  p ← get;
  match ppDatagramQueue p with
  | None => mret pl
  | Some _ =>
      f ← onDatagrams dq_Peek;
      match f with
      | None => mret pl
      | Some f =>
          size ← lift (frame_Length (FDatagram f));
          if size <=? maxFrameSize - plLength pl then
            _ ← onDatagrams dq_Pop;
            mret (mkPayload (plStreamFrames pl) (plFrames pl ++ [mkPackFrame (FDatagram f) None]) (plAck pl) (plLength pl + size))
          else mret pl
      end
  end.

(** The frames of the framer. *)
Definition addFramer (maxFrameSize : Z) (pl : payload) : ppM payload :=
  '(fs, lengthAdded) ← onEnv (framer_AppendControlFrames (pfFrame <$> plFrames pl) (maxFrameSize - plLength pl));
  let added := drop (length (plFrames pl)) fs in
  let frames := plFrames pl ++ ((fun f => mkPackFrame f (Some (retransmissionHandler Encryption1RTT))) <$> added) in
  let len := plLength pl + lengthAdded in
  '(sfs, lengthAdded) ← onEnv (framer_AppendStreamFrames (plStreamFrames pl) (maxFrameSize - len));
  mret (mkPayload sfs frames (plAck pl) (len + lengthAdded)).

Definition composeNextPacket (maxFrameSize : Z) (onlyAck ackAllowed : bool) : ppM payload :=
  if onlyAck then
    ack ← onEnv (GetAckFrame Encryption1RTT true);
    match ack with
    | Some ack => l ← lift (frame_Length (FAck ack)); mret (mkPayload [] [] (Some ack) l)
    | None => mret noPayload
    end
  else
    hasData ← onEnv framer_HasData;
    p ← get;
    let hasRetransmission := HasAppData (ppRetransmissionQueue p) in
    ack ← (if ackAllowed then onEnv (GetAckFrame Encryption1RTT (negb hasRetransmission && negb hasData)) else mret None);
    l ← lift (match ack with Some ack => frame_Length (FAck ack) | None => Ok 0 end);
    pl ← addDatagram maxFrameSize (mkPayload [] [] ack l);
    if bool_decide (is_Some ack) && negb hasData && negb hasRetransmission then mret pl
    else
      pl ← (if hasRetransmission then appDataRetransmissions (Z.to_nat (maxFrameSize - plLength pl)) maxFrameSize pl else mret pl);
      if hasData : bool then addFramer maxFrameSize pl else mret pl.

Definition maybeGetAppDataPacket (maxPayloadSize : Z) (onlyAck ackAllowed : bool) : ppM payload :=
  pl ← composeNextPacket maxPayloadSize onlyAck ackAllowed;
  if (blen (plFrames pl) =? 0) && (blen (plStreamFrames pl) =? 0) then
    if bool_decide (plAck pl = None) then mret noPayload
    else
      p ← get;
      if MaxNonAckElicitingAcks <=? ppNumNonAckElicitingAcks p then
        l ← lift (frame_Length (FPing mkPing));
        _ ← modify (pp_numAcks 0);
        mret (mkPayload (plStreamFrames pl) (plFrames pl ++ [mkPackFrame (FPing mkPing) None]) (plAck pl) (plLength pl + l))
      else _ ← modify (pp_numAcks (ppNumNonAckElicitingAcks p + 1)); mret pl
  else _ ← modify (pp_numAcks 0); mret pl.

Definition maybeGetAppDataPacketFor0RTT (overhead maxPacketSize v : Z) : ppM (option ExtendedHeader * payload) :=
  p ← get;
  if negb (bool_decide (ppPerspective p = PerspectiveClient)) then mret (None, noPayload)
  else
    hdr ← getLongHeader Encryption0RTT v;
    hdrLen ← lift (GetLength hdr);
    pl ← maybeGetAppDataPacket (maxPacketSize - hdrLen - overhead) false false;
    mret (Some hdr, pl).

Definition maybeGetShortHeaderPacket (overhead hdrLen maxPacketSize : Z) (onlyAck ackAllowed : bool) : ppM payload :=
  maybeGetAppDataPacket (maxPacketSize - hdrLen - overhead) onlyAck ackAllowed.

(** ** Whole datagrams *)

(** The sealer, if there is one; errors other than the given ones are returned. *)
Definition unlessKeys {B} (allowed : list GoError) (r : res B) : res (option B) :=
  match r with
  | Ok s => Ok (Some s)
  | Err e => if decide (e ∈ allowed) then Ok None else Err e
  | Panic m => Panic m
  end.

Definition noKeys : list GoError := [ErrKeysDropped; ErrKeysNotYetAvailable].

(** The size of a long header packet with its tag; 0 if there is none. *)
Definition longSize (hdr : option ExtendedHeader) (pl : payload) (overhead : Z) : res Z :=
  if 0 <? plLength pl then h ← nilDeref hdr; l ← longHeaderPacketLength h pl; Ok (l + overhead) else Ok 0.

(** What goes into the application data packet. *)
Inductive appPacket :=
  | NoAppPacket
  | ZeroRTTPacket (hdr : option ExtendedHeader) (pl : payload)
  | OneRTTPacket (connID : bytes) (pn pnLen : Z) (kp : KeyPhaseBit) (pl : payload).

Definition app_payload (a : appPacket) : payload :=
  match a with NoAppPacket => noPayload | ZeroRTTPacket _ pl | OneRTTPacket _ _ _ _ pl => pl end.

Definition getCryptoPart (lvl : EncryptionLevel) (allowed : list GoError) (room : Z) (onlyAck ackAllowed : bool) (v : Z)
    : ppM (option ExtendedHeader * payload * Z) :=
  p ← get;
  sealer ← lift (unlessKeys allowed (longSealerAt lvl (ppCryptoSetup p)));
  match sealer with
  | None => mret (None, noPayload, 0)
  | Some s =>
      '(hdr, pl) ← maybeGetCryptoPacket (room - seal_Overhead s) lvl onlyAck ackAllowed v;
      size ← lift (longSize hdr pl (seal_Overhead s));
      mret (hdr, pl, size)
  end.

Definition getAppPart (room : Z) (onlyAck ackAllowed : bool) (v : Z) : ppM appPacket :=
  p ← get;
  oneRTT ← lift (unlessKeys noKeys (Get1RTTSealer (ppCryptoSetup p)));
  match oneRTT with
  | Some s =>
      kp ← onSetup (onAead ua_KeyPhase);
      connID ← onEnv getDestConnID;
      p ← get;
      '(pn, pnLen) ← lift (PeekPacketNumber Encryption1RTT (ppEnv p));
      pl ← maybeGetShortHeaderPacket (uAeadOverhead s) (ShortHeaderLen connID pnLen) room onlyAck ackAllowed;
      mret (OneRTTPacket connID pn pnLen kp pl)
  | None =>
      if bool_decide (ppPerspective p = PerspectiveClient) && negb onlyAck then
        zeroRTT ← lift (unlessKeys noKeys (Get0RTTSealer (ppCryptoSetup p)));
        match zeroRTT with
        | None => mret NoAppPacket
        | Some s => '(hdr, pl) ← maybeGetAppDataPacketFor0RTT (seal_Overhead s) room v; mret (ZeroRTTPacket hdr pl)
        end
      else mret NoAppPacket
  end.

(** Its size with the tag. *)
Definition appSize (a : appPacket) : ppM Z :=
  p ← get;
  match a with
  | NoAppPacket => mret 0
  | ZeroRTTPacket hdr pl =>
      match suZeroRTTSealer (ppCryptoSetup p) with
      | Some s => lift (longSize hdr pl (seal_Overhead s))
      | None => lift (Panic "nil pointer dereference")
      end
  | OneRTTPacket connID _ pnLen _ pl =>
      mret (if 0 <? plLength pl then shortHeaderPacketLength connID pnLen pl + uAeadOverhead (suAead (ppCryptoSetup p)) else 0)
  end.

Definition appendCryptoPart (lvl : EncryptionLevel) (hdr : option ExtendedHeader) (pl : payload) (padding v : Z)
    (packet : coalescedPacket) : ppM coalescedPacket :=
  if 0 <? plLength pl then
    h ← lift (nilDeref hdr);
    '(cont, buffer) ← appendLongHeaderPacket (cpBuffer packet) h pl padding lvl v;
    mret (mkCoalesced buffer (cpLongHdrPackets packet ++ [cont]) (cpShortHdrPacket packet))
  else mret packet.

Definition appendAppPart (a : appPacket) (maxPacketSize v : Z) (packet : coalescedPacket) : ppM coalescedPacket :=
  match a with
  | NoAppPacket => mret packet
  | ZeroRTTPacket hdr pl => appendCryptoPart Encryption0RTT hdr pl 0 v packet
  | OneRTTPacket connID pn pnLen kp pl =>
      if 0 <? plLength pl then
        '(shp, buffer) ← appendShortHeaderPacket (cpBuffer packet) connID pn pnLen kp pl 0 maxPacketSize false;
        mret (mkCoalesced buffer (cpLongHdrPackets packet) (Some shp))
      else mret packet
  end.

Definition PackCoalescedPacket (onlyAck : bool) (maxPacketSize v : Z) : ppM (option coalescedPacket) :=
  let more size := (onlyAck && (size =? 0)) || (negb onlyAck && (size <? maxPacketSize - MinCoalescedPacketSize)) in
  '(initialHdr, initialPl, size) ← getCryptoPart EncryptionInitial [ErrKeysDropped] maxPacketSize onlyAck true v;
  '(handshakeHdr, handshakePl, handshakeSize) ←
    (if more size then getCryptoPart EncryptionHandshake noKeys (maxPacketSize - size) onlyAck (size =? 0) v
     else mret (None, noPayload, 0));
  let size := size + handshakeSize in
  app ← (if more size then getAppPart (maxPacketSize - size) onlyAck (size =? 0) v else mret NoAppPacket);
  appLen ← appSize app;
  let size := size + appLen in
  if (plLength initialPl =? 0) && (plLength handshakePl =? 0) && (plLength (app_payload app) =? 0) then mret None
  else
    let packet := mkCoalesced getPacketBuffer [] None in
    p ← get;
    packet ← appendCryptoPart EncryptionInitial initialHdr initialPl (initialPaddingLen (plFrames initialPl) size maxPacketSize p) v packet;
    packet ← appendCryptoPart EncryptionHandshake handshakeHdr handshakePl 0 v packet;
    packet ← appendAppPart app maxPacketSize v packet;
    mret (Some packet).

Definition appendPacket (buf : packetBuffer) (onlyAck : bool) (maxPacketSize : Z) : ppM (shortHeaderPacket * packetBuffer) :=
  p ← get;
  s ← lift (Get1RTTSealer (ppCryptoSetup p));
  '(pn, pnLen) ← lift (PeekPacketNumber Encryption1RTT (ppEnv p));
  connID ← onEnv getDestConnID;
  pl ← maybeGetShortHeaderPacket (uAeadOverhead s) (ShortHeaderLen connID pnLen) maxPacketSize onlyAck true;
  if plLength pl =? 0 then throw errNothingToPack
  else
    kp ← onSetup (onAead ua_KeyPhase);
    appendShortHeaderPacket buf connID pn pnLen kp pl 0 maxPacketSize false.

Definition PackAckOnlyPacket (maxPacketSize : Z) : ppM (shortHeaderPacket * packetBuffer) := appendPacket getPacketBuffer true maxPacketSize.
Definition AppendPacket (buf : packetBuffer) (maxPacketSize : Z) : ppM (shortHeaderPacket * packetBuffer) := appendPacket buf false maxPacketSize.

Definition MaybePackProbePacket (lvl : EncryptionLevel) (maxPacketSize v : Z) : ppM (option coalescedPacket) :=
  match lvl with
  | Encryption1RTT =>
      p ← get;
      s ← lift (Get1RTTSealer (ppCryptoSetup p));
      kp ← onSetup (onAead ua_KeyPhase);
      connID ← onEnv getDestConnID;
      p ← get;
      '(pn, pnLen) ← lift (PeekPacketNumber Encryption1RTT (ppEnv p));
      pl ← maybeGetAppDataPacket (maxPacketSize - uAeadOverhead s - ShortHeaderLen connID pnLen) false true;
      if plLength pl =? 0 then mret None
      else
        '(shp, buffer) ← appendShortHeaderPacket getPacketBuffer connID pn pnLen kp pl 0 maxPacketSize false;
        mret (Some (mkCoalesced buffer [] (Some shp)))
  | EncryptionInitial | EncryptionHandshake =>
      p ← get;
      s ← lift (longSealerAt lvl (ppCryptoSetup p));
      '(hdr, pl) ← maybeGetCryptoPacket (maxPacketSize - seal_Overhead s) lvl false true v;
      if plLength pl =? 0 then mret None
      else
        h ← lift (nilDeref hdr);
        l ← lift (longHeaderPacketLength h pl);
        p ← get;
        let padding := if decide (lvl = EncryptionInitial) then initialPaddingLen (plFrames pl) (l + seal_Overhead s) maxPacketSize p else 0 in
        '(cont, buffer) ← appendLongHeaderPacket getPacketBuffer h pl padding lvl v;
        mret (Some (mkCoalesced buffer [cont] None))
  | Encryption0RTT => lift (Panic "unknown encryption level")
  end.

Definition PackMTUProbePacket (ping : packFrame) (size : Z) : ppM (shortHeaderPacket * packetBuffer) :=
  l ← lift (frame_Length (pfFrame ping));
  let pl := mkPayload [] [ping] None l in
  p ← get;
  s ← lift (Get1RTTSealer (ppCryptoSetup p));
  connID ← onEnv getDestConnID;
  p ← get;
  '(pn, pnLen) ← lift (PeekPacketNumber Encryption1RTT (ppEnv p));
  let padding := size - shortHeaderPacketLength connID pnLen pl - uAeadOverhead s in
  kp ← onSetup (onAead ua_KeyPhase);
  appendShortHeaderPacket getPacketBuffer connID pn pnLen kp pl padding size true.

(** ** Closing the connection *)

(** What a level contributes to the datagram that closes the connection. *)
Inductive closePart :=
  | CloseLong (lvl : EncryptionLevel) (hdr : ExtendedHeader) (pl : payload)
  | CloseShort (connID : bytes) (pn pnLen : Z) (kp : KeyPhaseBit) (pl : payload).

Definition closeFrame (isApplicationError : bool) (errorCode frameType : Z) (reason : bytes) (lvl : EncryptionLevel) : ConnectionCloseFrame :=
  if isApplicationError && bool_decide (lvl ∈ [EncryptionInitial; EncryptionHandshake])
  then mkConnectionClose false ApplicationErrorErrorCode frameType []
  else mkConnectionClose isApplicationError errorCode frameType reason.

(** A round of the first loop: the part, if there are keys, and its size. *)
Definition closeLevel (ccf : ConnectionCloseFrame) (lvl : EncryptionLevel) (v : Z) : ppM (option closePart * Z) :=
  p ← get;
  if bool_decide (ppPerspective p = PerspectiveServer) && bool_decide (lvl = Encryption0RTT) then mret (None, 0)
  else
    l ← lift (frame_Length (FConnectionClose ccf));
    let pl := mkPayload [] [mkPackFrame (FConnectionClose ccf) None] None l in
    match lvl with
    | Encryption1RTT =>
        s ← lift (unlessKeys noKeys (Get1RTTSealer (ppCryptoSetup p)));
        match s with
        | None => mret (None, 0)
        | Some _ =>
            kp ← onSetup (onAead ua_KeyPhase);
            connID ← onEnv getDestConnID;
            p ← get;
            '(pn, pnLen) ← lift (PeekPacketNumber Encryption1RTT (ppEnv p));
            mret (Some (CloseShort connID pn pnLen kp pl), shortHeaderPacketLength connID pnLen pl)
        end
    | _ =>
        s ← lift (unlessKeys noKeys (longSealerAt lvl (ppCryptoSetup p)));
        match s with
        | None => mret (None, 0)
        | Some s =>
            hdr ← getLongHeader lvl v;
            n ← lift (longHeaderPacketLength hdr pl);
            mret (Some (CloseLong lvl hdr pl), n + seal_Overhead s)
        end
    end.

Fixpoint closeLevels (ccf : EncryptionLevel -> ConnectionCloseFrame) (lvls : list EncryptionLevel) (v : Z) : ppM (list closePart * Z) :=
  match lvls with
  | [] => mret ([], 0)
  | lvl :: lvls' =>
      '(part, n) ← closeLevel (ccf lvl) lvl v;
      '(parts, size) ← closeLevels ccf lvls' v;
      mret (option_list part ++ parts, n + size)
  end.

(** The second loop. *)
Fixpoint appendCloseParts (parts : list closePart) (size maxPacketSize v : Z) (packet : coalescedPacket) : ppM coalescedPacket :=
  match parts with
  | [] => mret packet
  | part :: parts' =>
      p ← get;
      packet ← match part with
               | CloseLong lvl hdr pl =>
                   let padding := if decide (lvl = EncryptionInitial) then initialPaddingLen (plFrames pl) size maxPacketSize p else 0 in
                   '(cont, buffer) ← appendLongHeaderPacket (cpBuffer packet) hdr pl padding lvl v;
                   mret (mkCoalesced buffer (cpLongHdrPackets packet ++ [cont]) (cpShortHdrPacket packet))
               | CloseShort connID pn pnLen kp pl =>
                   '(shp, buffer) ← appendShortHeaderPacket (cpBuffer packet) connID pn pnLen kp pl 0 maxPacketSize false;
                   mret (mkCoalesced buffer (cpLongHdrPackets packet) (Some shp))
               end;
      appendCloseParts parts' size maxPacketSize v packet
  end.

Definition packConnectionClose (isApplicationError : bool) (errorCode frameType : Z) (reason : bytes) (maxPacketSize v : Z) : ppM coalescedPacket :=
  '(parts, size) ← closeLevels (closeFrame isApplicationError errorCode frameType reason)
                     [EncryptionInitial; EncryptionHandshake; Encryption0RTT; Encryption1RTT] v;
  appendCloseParts parts size maxPacketSize v (mkCoalesced getPacketBuffer [] None).

Definition IsCryptoError (code : Z) : bool := (0x100 <=? code) && (code <? 0x200).

Definition PackConnectionClose (errorCode frameType : Z) (errorMessage : bytes) (maxPacketSize v : Z) : ppM coalescedPacket :=
  packConnectionClose false errorCode frameType (if negb (IsCryptoError errorCode) then errorMessage else []) maxPacketSize v.

Definition PackApplicationClose (errorCode : Z) (errorMessage : bytes) (maxPacketSize v : Z) : ppM coalescedPacket :=
  packConnectionClose true errorCode 0 errorMessage maxPacketSize v.
End model.
