(* ===== verification/PackerProofs.v ===== *)
(** * PackerProofs: what the packer promises about packets

    The laws of the packer's environment, the invariant of the packer, and for each
    function the frames it takes and the size of what it writes. *)

From stdpp Require Import base numbers list option strings sorting.
From S2P Require Import Prelude Protocol Varint AckFrame Frames FrameParser FrameSplit Connection CryptoStream RetransmissionQueue SendStream Headers HeaderProofs Protection ProtectionProofs KeyUpdate KeyUpdateProofs Unpacker UnpackerProofs FramerProofs CryptoSetup DatagramQueue Packer.
From Stdlib Require Import ZArith Lia.
#[local] Open Scope Z_scope.

(** ** The environment *)

(** 0-RTT and 1-RTT packets have the same packet numbers. *)
Definition space_of (lvl : EncryptionLevel) : EncryptionLevel :=
  match lvl with Encryption0RTT => Encryption1RTT | _ => lvl end.

(** Frames that can be followed by others. *)
Definition frame_good (f : wireFrame) : Prop := wf_sendable f /\ forall rest, wf_tail f rest.

(** Only the last STREAM frame may come without a length. *)
Definition streams_good (fs : list StreamFrame) : Prop :=
  Forall (fun f => wf_sendable (FStream f)) fs /\ forall l x, fs = l ++ [x] -> Forall (fun f => sfDataLenPresent f = true) l.

Abbreviation noErr S := (fun (_ : GoError) (_ : S) => False).

(** [env_number lvl e] is the packet number, and its length, that can be used next at
    a level; there is none between the time it is popped and the time at which the
    packet is registered as sent. *)
Class PackerEnvLaws (E : Type) `{PackerEnv E} := {
  env_ok : E -> Prop;
  env_number : EncryptionLevel -> E -> option (Z * Z);
  env_peek e lvl pn n : env_ok e -> env_number lvl e = Some (pn, n) -> PeekPacketNumber lvl e = Ok (pn, n);
  env_maxAck : Z;
  env_maxAck_nonneg : 0 <= env_maxAck;
  env_dest e : env_ok e ->
    wp getDestConnID (fun id e' => env_ok e' /\ (forall l, env_number l e' = env_number l e) /\ blen id <= MaxConnIDLen) (noErr E) e;
  env_pop e lvl pn n : env_ok e -> env_number lvl e = Some (pn, n) ->
    wp (PopPacketNumber lvl) (fun pn' e' => pn' = pn /\ env_ok e' /\
      forall l, space_of l <> space_of lvl -> env_number l e' = env_number l e) (noErr E) e;
  env_ack e lvl q : env_ok e ->
    wp (GetAckFrame lvl q) (fun r e' => env_ok e' /\ (forall l, env_number l e' = env_number l e) /\
      forall ack, r = Some ack -> frame_good (FAck ack) /\ wlen (FAck ack) <= env_maxAck) (noErr E) e;
  env_hasData e : env_ok e -> wp framer_HasData (fun _ e' => env_ok e' /\ (forall l, env_number l e' = env_number l e)) (noErr E) e;
  env_control e fs max : env_ok e -> 0 <= max ->
    wp (framer_AppendControlFrames fs max) (fun r e' => env_ok e' /\ (forall l, env_number l e' = env_number l e) /\
      exists added, r = (fs ++ added, total added) /\ Forall frame_good added /\ total added <= max) (noErr E) e;
  env_streams e max : env_ok e -> 0 <= max <= MaxPacketBufferSize - 2 ->
    wp (framer_AppendStreamFrames [] max) (fun r e' => env_ok e' /\ (forall l, env_number l e' = env_number l e) /\
      r.2 = stotal r.1 /\ streams_good r.1 /\ stotal r.1 <= max) (noErr E) e
}.

Section numbers.
Context {E : Type} `{PackerEnvLaws E}.

(** A packet number can be had at the level. *)
Definition numbered (lvl : EncryptionLevel) (e : E) : Prop :=
  exists pn n, env_number lvl e = Some (pn, n) /\ 0 <= pn < 2 ^ 62 /\ 1 <= n <= 4.

Definition same_numbers (e e' : E) : Prop := forall lvl, env_number lvl e' = env_number lvl e.
End numbers.

(** ** The invariant *)

Definition cryptoBuf_ok (s : cryptoStream) : Prop :=
  0 <= csWriteOffset s /\ csWriteOffset s + blen (csWriteBuf s) <= MaxByteCount /\ bytes_ok (csWriteBuf s).

Definition cryptoData_ok (f : CryptoFrame) : Prop := cryptoFrame_ok f /\ bytes_ok (cfData f).

Record retrans_ok (q : retransmissionQueue) : Prop := {
  rt_initialCrypto : Forall cryptoData_ok (rqInitialCryptoData q);
  rt_initial : Forall frame_good (rqInitial q);
  rt_handshakeCrypto : Forall cryptoData_ok (rqHandshakeCryptoData q);
  rt_handshake : Forall frame_good (rqHandshake q);
  rt_appData : Forall frame_good (rqAppData q)
}.

Record datagrams_ok (q : datagramQueue) : Prop := {
  dg_next f : dqNextFrame q = Some f -> frame_good (FDatagram f);
  dg_send f : dqSendQueue q = Some f -> frame_good (FDatagram f);
  dg_waiting : dqSendQueue q = None \/ (0 < dqWaiting q)%nat
}.

(** The frames of a payload and its length. *)
Definition ackLen (ack : option AckFrame) : Z := from_option (fun a => wlen (FAck a)) 0 ack.

Record pl_ok (pl : payload) : Prop := {
  po_ack ack : plAck pl = Some ack -> frame_good (FAck ack);
  po_frames : Forall (fun f => frame_good (pfFrame f)) (plFrames pl);
  po_streams : streams_good (plStreamFrames pl);
  po_length : plLength pl = ackLen (plAck pl) + total (pfFrame <$> plFrames pl) + stotal (plStreamFrames pl)
}.

Lemma wlen_pos f : 0 < wlen f.
Proof. unfold wf_bytes. rewrite blen_cons. pose proof (blen_nonneg (wf_body f)). lia. Qed.

Lemma total_one f : total [f] = wlen f.
Proof. unfold total. cbn [foldr]. lia. Qed.

Lemma ackLen_nonneg ack : 0 <= ackLen ack.
Proof. destruct ack as [a|]; cbn [ackLen from_option]; [pose proof (wlen_pos (FAck a))|]; lia. Qed.

Lemma streams_good_nil : streams_good [].
Proof. split; [done|]. intros [|] x; by intros. Qed.

Lemma pl_ok_nonneg pl : pl_ok pl -> 0 <= plLength pl.
Proof.
  intros Hp. rewrite (po_length _ Hp). pose proof (ackLen_nonneg (plAck pl)). pose proof (total_nonneg (pfFrame <$> plFrames pl)).
  pose proof (total_nonneg (FStream <$> plStreamFrames pl)). unfold stotal. lia.
Qed.

Lemma noPayload_ok : pl_ok noPayload.
Proof. constructor; cbn; [done|constructor|apply streams_good_nil|done]. Qed.

Lemma ackPayload_ok ack : frame_good (FAck ack) -> pl_ok (mkPayload [] [] (Some ack) (wlen (FAck ack))).
Proof. intros Ha. constructor; cbn; [by intros ? [= <-]|constructor|apply streams_good_nil|unfold stotal; cbn; lia]. Qed.

(** One more frame. *)
Lemma pl_ok_snoc pl f h : pl_ok pl -> frame_good f ->
  pl_ok (mkPayload (plStreamFrames pl) (plFrames pl ++ [mkPackFrame f h]) (plAck pl) (plLength pl + wlen f)).
Proof.
  intros [Ha Hf Hs Hl] Hg. constructor; cbn [plFrames plAck plStreamFrames plLength]; [done| |done|].
  - apply Forall_app. split; [done|]. by apply Forall_singleton.
  - rewrite fmap_app, total_app, Hl. cbn [fmap list_fmap pfFrame]. rewrite total_one. lia.
Qed.

Section packer.
Context {A T E : Type} `{HC : !Crypto A} `{HCL : !CryptoLaws A} `{HE : !PackerEnv E} `{HEL : !PackerEnvLaws E}.
Context (shuffle : nat -> list packFrame -> list packFrame) (Hshuffle : forall n l, Permutation (shuffle n l) l).
Implicit Types p : packetPacker A T E.

Lemma wp_onEnv {B} (m : stM E B) (Q : B -> packetPacker A T E -> Prop) F p :
  wp m (fun a e => Q a (pp_env e p)) (fun err e => F err (pp_env e p)) (ppEnv p) -> wp (onEnv m) Q F p.
Proof. unfold wp, onEnv. by destruct (m (ppEnv p)) as [[] ?]. Qed.

Lemma wp_onRetrans {B} (m : stM retransmissionQueue B) (Q : B -> packetPacker A T E -> Prop) F p :
  wp m (fun a q => Q a (pp_retrans q p)) (fun err q => F err (pp_retrans q p)) (ppRetransmissionQueue p) -> wp (onRetrans m) Q F p.
Proof. unfold wp, onRetrans. by destruct (m (ppRetransmissionQueue p)) as [[] ?]. Qed.

Lemma wp_onSetup {B} (m : stM (cryptoSetup A T) B) (Q : B -> packetPacker A T E -> Prop) F p :
  wp m (fun a c => Q a (pp_setup c p)) (fun err c => F err (pp_setup c p)) (ppCryptoSetup p) -> wp (onSetup m) Q F p.
Proof. unfold wp, onSetup. by destruct (m (ppCryptoSetup p)) as [[] ?]. Qed.

Lemma wp_onDatagrams {B} (m : stM datagramQueue B) (Q : B -> packetPacker A T E -> Prop) F p q : ppDatagramQueue p = Some q ->
  wp m (fun a q => Q a (pp_datagrams (Some q) p)) (fun err q => F err (pp_datagrams (Some q) p)) q -> wp (onDatagrams m) Q F p.
Proof. intros Eq. unfold wp, onDatagrams. rewrite Eq. by destruct (m q) as [[] ?]. Qed.

(** *** Keys *)

Record sealer_ok (s : longHeaderSealer A) : Prop := {
  so_mask : blen (nonceMask (lsAead s)) = 12;
  so_long : hp_isLongHeader (lsHeaderProtector s) = true;
  so_buf : blen (lsNonceBuf s) = 8
}.

(** The 1-RTT keys: what sealing needs, and what a key update needs. *)
Record aead_ok (a : updatableAEAD A) : Prop := {
  ao_send : exists x, uSendAEAD a = Some x /\ blen (nonceMask x) = 12;
  ao_buf : blen (uNonceBuf a) = 8;
  ao_hp : is_Some (uHeaderEncrypter a);
  ao_overhead : uAeadOverhead a = 16
}.

Definition may_update (a : updatableAEAD A) : Prop :=
  shouldInitiateKeyUpdate a = false \/
  exists suite v ws rs, suite_ok suite /\ ua_inv suite v ws rs a /\ uKeyPhase a + 1 < 2 ^ 62.

(** The levels at which packets can be sealed. *)
Definition avail (lvl : EncryptionLevel) (c : cryptoSetup A T) : bool :=
  match lvl with
  | EncryptionInitial => bool_decide (is_Some (suInitialSealer c))
  | EncryptionHandshake => bool_decide (is_Some (suHandshakeSealer c))
  | Encryption0RTT => bool_decide (is_Some (suZeroRTTSealer c))
  | Encryption1RTT => suHas1RTTSealer c
  end.

Record keys_ok (c : cryptoSetup A T) : Prop := {
  ko_long lvl s : longSealerAt lvl c = Ok s -> sealer_ok s;
  ko_short : suHas1RTTSealer c = true -> aead_ok (suAead c)
}.

Record pk_ok p : Prop := {
  pk_env : env_ok (ppEnv p);
  pk_src : blen (ppSrcConnID p) <= MaxConnIDLen;
  pk_initial : cryptoBuf_ok (ppInitialStream p);
  pk_handshake : cryptoBuf_ok (ppHandshakeStream p);
  pk_retrans : retrans_ok (ppRetransmissionQueue p);
  pk_datagrams q : ppDatagramQueue p = Some q -> datagrams_ok q;
  pk_keys : keys_ok (ppCryptoSetup p)
}.

(** What taking frames leaves alone. *)
Record kept p p' : Prop := {
  kt_src : ppSrcConnID p' = ppSrcConnID p;
  kt_pers : ppPerspective p' = ppPerspective p;
  kt_token : ppToken p' = ppToken p;
  kt_numbers : same_numbers (ppEnv p) (ppEnv p');
  kt_setup : ppCryptoSetup p' = ppCryptoSetup p
}.

Lemma kept_refl p : kept p p.
Proof. by constructor. Qed.

Lemma kept_trans p1 p2 p3 : kept p1 p2 -> kept p2 p3 -> kept p1 p3.
Proof.
  intros [A1 A2 A3 A4 A5] [B1 B2 B3 B4 B5]. constructor; congruence || (intros lvl; by rewrite B4, A4).
Qed.

(** What packets of other packet number spaces leave alone. *)
Record steady (lvls : EncryptionLevel -> Prop) p p' : Prop := {
  sd_src : ppSrcConnID p' = ppSrcConnID p;
  sd_pers : ppPerspective p' = ppPerspective p;
  sd_token : ppToken p' = ppToken p;
  sd_numbers lvl : lvls lvl -> env_number lvl (ppEnv p') = env_number lvl (ppEnv p);
  sd_avail lvl : avail lvl (ppCryptoSetup p') = avail lvl (ppCryptoSetup p)
}.

Lemma kept_steady lvls p p' : kept p p' -> steady lvls p p'.
Proof. intros [? ? ? ? Es]. constructor; try done. intros lvl. by rewrite Es. Qed.

Lemma steady_trans (P Q R : EncryptionLevel -> Prop) p1 p2 p3 : (forall l, R l -> P l /\ Q l) -> steady P p1 p2 -> steady Q p2 p3 -> steady R p1 p3.
Proof.
  intros HR [A1 A2 A3 A4 A5] [B1 B2 B3 B4 B5]. constructor; try congruence; intros l Hl. destruct (HR l Hl). by rewrite B4, A4.
Qed.

Lemma kept_numbered p p' lvl : kept p p' -> numbered lvl (ppEnv p) -> numbered lvl (ppEnv p').
Proof. intros Hk (pn & n & Hp & ?). exists pn, n. by rewrite (kt_numbers _ _ Hk). Qed.

(** Changes of single parts. *)
Lemma env_step p e : pk_ok p -> env_ok e -> same_numbers (ppEnv p) e -> pk_ok (pp_env e p) /\ kept p (pp_env e p).
Proof. intros [] He Hs. split; by constructor. Qed.

Lemma retrans_step p q : pk_ok p -> retrans_ok q -> pk_ok (pp_retrans q p) /\ kept p (pp_retrans q p).
Proof. intros [] Hq. split; by constructor. Qed.

(** Only the environment changed. *)
Definition env_only p p' : Prop := exists e, p' = pp_env e p.

Lemma env_only_trans p1 p2 p3 : env_only p1 p2 -> env_only p2 p3 -> env_only p1 p3.
Proof. intros [e ->] [e' ->]. by exists e'. Qed.

Lemma wp_env_step {B} (m : stM E B) (P : B -> Prop) p :
  pk_ok p -> wp m (fun r e' => env_ok e' /\ same_numbers (ppEnv p) e' /\ P r) (noErr E) (ppEnv p) ->
  wp (onEnv m) (fun r p' => pk_ok p' /\ kept p p' /\ env_only p p' /\ P r) (noErr _) p.
Proof.
  intros Hp Hm. apply wp_onEnv. eapply wp_mono; [| |exact Hm]; [|done]. intros r e (He & Hs & Hr).
  destruct (env_step p e Hp He Hs). split_and!; try done. by eexists.
Qed.

(** *** Headers *)

(** The header of a packet of the level, still without its length. *)
Record header_for (lvl : EncryptionLevel) (v : Z) p (h : ExtendedHeader) : Prop := {
  hf_peek : env_number lvl (ppEnv p) = Some (ehPacketNumber h, ehPacketNumberLen h);
  hf_pn : 0 <= ehPacketNumber h < 2 ^ 62;
  hf_pnLen : 1 <= ehPacketNumberLen h <= 4;
  hf_type : hType (ehHeader h) = typeOfLevel lvl;
  hf_version : hVersion (ehHeader h) = v;
  hf_src : hSrcConnectionID (ehHeader h) = ppSrcConnID p;
  hf_dest : blen (hDestConnectionID (ehHeader h)) <= MaxConnIDLen;
  hf_token : hToken (ehHeader h) = if decide (lvl = EncryptionInitial) then ppToken p else []
}.

Lemma header_steady (P : EncryptionLevel -> Prop) lvl v p p' h : steady P p p' -> P lvl -> header_for lvl v p h -> header_for lvl v p' h.
Proof.
  intros Hk Hl []. constructor; try done; [by rewrite (sd_numbers _ _ _ Hk)|by rewrite (sd_src _ _ _ Hk)|by rewrite (sd_token _ _ _ Hk)].
Qed.

Lemma wp_getLongHeader lvl v p : pk_ok p -> numbered lvl (ppEnv p) ->
  wp (getLongHeader lvl v) (fun h p' => pk_ok p' /\ kept p p' /\ env_only p p' /\ header_for lvl v p h) (noErr _) p.
Proof.
  intros Hp (pn & n & Hpn & Hr & Hn). unfold getLongHeader. apply wp_bind, wp_get, wp_bind. eapply wp_lift; [apply env_peek; [apply Hp|exact Hpn]|].
  apply wp_bind. eapply wp_mono; [| |apply (wp_env_step _ (fun id => blen id <= MaxConnIDLen)); [done|apply env_dest, Hp]]; [|done].
  intros id p' (Hp' & Hk & He & Hid). apply wp_ret. split_and!; try done.
Qed.

Definition version_ok (v : Z) : Prop := v = Version1 \/ v = Version2.

Lemma header_sendable lvl v p h n typ : pk_ok p -> version_ok v -> is_varint (blen (ppToken p)) -> header_for lvl v p h ->
  typeOfLevel lvl = Some typ -> 0 <= n <= maxVarInt2 -> long_sendable (setLength n h) v typ.
Proof.
  intros Hp Hv Htok [] Ht Hn. constructor; cbn; try done.
  - by rewrite hf_type0.
  - destruct lvl; cbn in Ht; by simplify_eq.
  - rewrite hf_src0. apply Hp.
  - intros Hne. rewrite hf_token0. case_decide as Hd; [|done]. subst lvl. cbn in Ht. by simplify_eq.
  - rewrite hf_token0. case_decide; [done|by vm_compute].
Qed.

Lemma header_length lvl v p h typ : pk_ok p -> version_ok v -> is_varint (blen (ppToken p)) -> header_for lvl v p h -> typeOfLevel lvl = Some typ ->
  exists n, GetLength h = Ok n /\ 0 < n <= 61 + (if decide (lvl = EncryptionInitial) then blen (ppToken p) else 0).
Proof.
  intros Hp Hv Htok Hh Ht. assert (Hs : long_sendable (setLength 0 h) v typ) by (eapply header_sendable; done).
  destruct (long_layout _ _ _ Hs) as (pre & pbs & _ & Hg & Hpb & Hpre & _). cbn in Hg, Hpb, Hpre.
  exists (1 + blen pre + blen pbs). split; [exact Hg|]. rewrite (hf_token _ _ _ _ Hh) in Hpre. pose proof (hf_pnLen _ _ _ _ Hh).
  pose proof (blen_nonneg pre). case_decide; rewrite ?blen_nil in Hpre; lia.
Qed.

(** *** Frames for retransmission *)

Lemma crypto_good f : cryptoData_ok f -> frame_good (FCrypto f).
Proof. intros [Hf Hb]. split; [|done]. split; [apply Hf|]. split; [done|]. by apply crypto_len_varint. Qed.

Lemma length_good f l : frame_good f -> frame_Length f = Ok l -> l = wlen f.
Proof. intros [Hs _] E0. rewrite (wf_length _ Hs) in E0. by injection E0. Qed.

Lemma split_good f new f' max : cryptoData_ok f -> crypto_split_ok f new f' max ->
  cryptoData_ok new /\ cryptoData_ok f' /\ wlen (FCrypto new) <= max.
Proof.
  intros [[Hv Hm] Hb] ((l & El & Hl) & Hd & Ho & Ho' & _). rewrite <- Hd in Hb, Hm. rewrite blen_app in Hm. apply Forall_app in Hb as [Hb1 Hb2].
  pose proof (blen_nonneg (cfData new)). pose proof (blen_nonneg (cfData f')).
  assert (Hn : cryptoData_ok new) by (split; [split; [by rewrite Ho|lia]|done]).
  split; [done|]. split; [split; [split; [|lia]|done]|].
  - unfold is_varint, maxVarInt8, MaxByteCount in *. lia.
  - rewrite <- (length_good _ _ (crypto_good _ Hn) El). done.
Qed.

(** A frame that was taken fits. *)
Definition taken (max : Z) (r : option wireFrame) : Prop := forall f, r = Some f -> frame_good f /\ wlen f <= max.

Lemma firstFitting_taken max fs : Forall frame_good fs ->
  exists r fs', firstFitting max fs = Ok (r, fs') /\ Forall frame_good fs' /\ taken max r.
Proof.
  intros Hfs. destruct fs as [|f fs]; cbn [firstFitting]; [by exists None, []|]. pose proof Hfs as [[Hf Ht] Hr]%Forall_cons.
  rewrite (wf_length _ Hf). cbn [mbind res_bind]. destruct (Z.ltb_spec max (wlen f)) as [Hlt|Hge].
  - by exists None, (f :: fs).
  - exists (Some f), fs. split; [done|]. split; [done|]. by intros ? [= <-].
Qed.

Lemma getFrame_taken max cs fs : max < 2 ^ 14 -> Forall cryptoData_ok cs -> Forall frame_good fs ->
  exists r cs' fs', getFrame max cs fs = Ok (r, cs', fs') /\ Forall cryptoData_ok cs' /\ Forall frame_good fs' /\ taken max r.
Proof.
  intros Hm Hcs Hfs. unfold getFrame. destruct (firstFitting_taken max fs Hfs) as (r & fs' & -> & Hfs' & Hr). cbn [mbind res_bind fst snd].
  destruct cs as [|f cs]; [by exists r, [], fs'|]. pose proof Hcs as [Hf Hcs']%Forall_cons. pose proof Hf as [Hfo Hfb].
  pose proof (crypto_split_spec f max Hfo Hm) as Hsp.
  destruct (crypto_MaybeSplitOffFrame f max) as [[[[new|] [|]] f']|e|m]; try done; cbn [mbind res_bind].
  - destruct (split_good f new f' max Hf Hsp) as (H1 & H2 & H3). exists (Some (FCrypto new)), (f' :: cs), fs.
    split_and!; [done|by constructor|done|]. intros ? [= <-]. split; [by apply crypto_good|done].
  - by exists r, (f :: cs), fs'.
  - destruct Hsp as (_ & l & El & Hl). exists (Some (FCrypto f)), cs, fs. split_and!; try done. intros ? [= <-].
    pose proof (crypto_good f Hf) as Hg. split; [done|]. by rewrite <- (length_good _ _ Hg El).
Qed.

Definition crypto_level (lvl : EncryptionLevel) : Prop := lvl = EncryptionInitial \/ lvl = EncryptionHandshake.

Lemma wp_getCryptoFrame lvl max p : pk_ok p -> crypto_level lvl -> max < 2 ^ 14 ->
  wp (onRetrans (match lvl with
                 | EncryptionInitial => GetInitialFrame max
                 | EncryptionHandshake => GetHandshakeFrame max
                 | _ => mret None
                 end)) (fun r p' => pk_ok p' /\ kept p p' /\ taken max r) (noErr _) p.
Proof.
  intros Hp Hl Hm. pose proof (pk_retrans _ Hp) as [R1 R2 R3 R4 R5]. apply wp_onRetrans. destruct Hl as [-> | ->]; apply wp_bind, wp_get, wp_bind.
  - destruct (getFrame_taken max _ _ Hm R1 R2) as (r & cs & fs & E0 & H1 & H2 & H3). eapply wp_lift; [exact E0|]. apply wp_bind, wp_modify, wp_ret.
    destruct (retrans_step p (rq_initial cs fs (ppRetransmissionQueue p)) Hp) as [? ?]; [by constructor|done].
  - destruct (getFrame_taken max _ _ Hm R3 R4) as (r & cs & fs & E0 & H1 & H2 & H3). eapply wp_lift; [exact E0|]. apply wp_bind, wp_modify, wp_ret.
    destruct (retrans_step p (rq_handshake cs fs (ppRetransmissionQueue p)) Hp) as [? ?]; [by constructor|done].
Qed.

(** The payload grew by at most [room] bytes. *)
Record grown (room : Z) (pl pl' : payload) : Prop := {
  gr_ok : pl_ok pl';
  gr_ack : plAck pl' = plAck pl;
  gr_streams : plStreamFrames pl' = plStreamFrames pl;
  gr_length : plLength pl <= plLength pl' <= plLength pl + room
}.

Lemma grown_refl room pl : pl_ok pl -> 0 <= room -> grown room pl pl.
Proof. intros Hp Hr. constructor; try done. lia. Qed.

Lemma grown_snoc room pl f h pl' : grown (room - wlen f) (mkPayload (plStreamFrames pl) (plFrames pl ++ [mkPackFrame f h]) (plAck pl) (plLength pl + wlen f)) pl' ->
  grown room pl pl'.
Proof. intros [G1 G2 G3 G4]. cbn [plLength plAck plStreamFrames] in *. pose proof (wlen_pos f). constructor; try done. lia. Qed.

Lemma wp_cryptoRetransmissions lvl fuel : crypto_level lvl -> forall max pl p, pk_ok p -> max < 2 ^ 14 -> (Z.to_nat max <= fuel)%nat -> pl_ok pl ->
  wp (cryptoRetransmissions fuel lvl max pl) (fun pl' p' => pk_ok p' /\ kept p p' /\ grown (Z.max 0 max) pl pl') (noErr _) p.
Proof.
  intros Hl. induction fuel as [|fuel IH]; intros max pl p Hp Hm Hf Hpl; cbn [cryptoRetransmissions]; apply wp_bind;
    (eapply wp_mono; [| |by apply wp_getCryptoFrame]; [|done]); intros [f|] p1 (Hp1 & Hk1 & Ht);
    try (apply wp_ret; split; [done|]; split; [done|]; apply grown_refl; [done|lia]);
    destruct (Ht f eq_refl) as [Hg Hle]; pose proof (wlen_pos f); [lia|].
  eapply wp_bind, wp_lift; [apply wf_length, Hg|]. cbv zeta.
  eapply wp_mono; [| |apply (IH (max - wlen f)); [done|lia|lia|by apply pl_ok_snoc]]; [|done].
  intros pl' p2 (Hp2 & Hk2 & Hgr). split; [done|]. split; [by eapply kept_trans|]. eapply grown_snoc.
  replace (Z.max 0 max - wlen f) with (Z.max 0 (max - wlen f)) by lia. exact Hgr.
Qed.

(** *** Crypto data *)

Lemma wp_popCrypto lvl max p : pk_ok p -> crypto_level lvl -> 11 <= max < 2 ^ 14 ->
  cs_HasData (if bool_decide (lvl = EncryptionInitial) then ppInitialStream p else ppHandshakeStream p) = true ->
  wp (popCrypto lvl max) (fun cf p' => pk_ok p' /\ kept p p' /\ frame_good (FCrypto cf) /\ wlen (FCrypto cf) <= max) (noErr _) p.
Proof.
  intros Hp Hl Hm Hd.
  assert (Hpop : forall s, cryptoBuf_ok s -> cs_HasData s = true ->
    wp (PopCryptoFrame max) (fun cf s' => cryptoBuf_ok s' /\ frame_good (FCrypto cf) /\ wlen (FCrypto cf) <= max) (noErr _) s).
  { intros s (H0 & Hmax & Hb) Hdata. eapply wp_mono; [| |apply (wp_PopCryptoFrame s max (noErr _)); [done|done|lia]]; [|done].
    intros cf s' (Ho & Hw & Hoff & Hfit & Hne). rewrite Hw in Hb, Hmax. rewrite blen_app in Hmax. apply Forall_app in Hb as [Hb1 Hb2].
    pose proof (blen_nonneg (cfData cf)). pose proof (blen_nonneg (csWriteBuf s')).
    assert (Hcf : cryptoData_ok cf).
    { split; [split|done]; rewrite Ho; [unfold is_varint, maxVarInt8, MaxByteCount in *|]; lia. }
    pose proof (crypto_good _ Hcf) as Hg. split; [split; [lia|split; [lia|done]]|]. split; [done|].
    assert (Hnil : cfData cf <> []).
    { apply Hne; [intros E0; unfold cs_HasData in Hdata; by rewrite E0 in Hdata|]. unfold cryptoHeader. pose proof (vlen_range (cfOffset cf)). lia. }
    destruct Hfit as [?|(l & El & Hl')]; [done|]. by rewrite <- (length_good _ _ Hg El). }
  unfold popCrypto. destruct Hp as [P1 P2 P3 P4 P5 P6 P7]. destruct Hl as [-> | ->]; unfold wp; [rewrite decide_True by done|rewrite decide_False by done].
  - specialize (Hpop (ppInitialStream p) P3 Hd). unfold wp in Hpop. destruct (PopCryptoFrame max _) as [[cf|e|m] s']; [|done|done].
    destruct Hpop as (H1 & H2 & H3). split; [by constructor|]. split; [by constructor|done].
  - specialize (Hpop (ppHandshakeStream p) P4 Hd). unfold wp in Hpop. destruct (PopCryptoFrame max _) as [[cf|e|m] s']; [|done|done].
    destruct Hpop as (H1 & H2 & H3). split; [by constructor|]. split; [by constructor|done].
Qed.

(** *** Initial and Handshake packets *)

(** The header and the payload of a packet that fits into [max] bytes. *)
Definition part_ok (lvl : EncryptionLevel) (v max : Z) p (r : option ExtendedHeader * payload) : Prop :=
  pl_ok r.2 /\ (0 < plLength r.2 -> exists h n, r.1 = Some h /\ header_for lvl v p h /\ GetLength h = Ok n /\
    0 < n /\ n + plLength r.2 <= max /\ n + 4 <= max).

Definition tokenLen (lvl : EncryptionLevel) p : Z := if decide (lvl = EncryptionInitial) then blen (ppToken p) else 0.

Lemma noPart lvl v max p hdr : part_ok lvl v max p (hdr, noPayload).
Proof. split; [apply noPayload_ok|]. cbn. lia. Qed.

Lemma wp_GetAckFrame lvl q p : pk_ok p ->
  wp (onEnv (GetAckFrame lvl q)) (fun r p' => pk_ok p' /\ kept p p' /\ env_only p p' /\
    forall ack, r = Some ack -> frame_good (FAck ack) /\ wlen (FAck ack) <= env_maxAck) (noErr _) p.
Proof. intros Hp. apply wp_env_step; [done|]. apply env_ack, Hp. Qed.

Lemma ack_length ack : (forall a, ack = Some a -> frame_good (FAck a) /\ wlen (FAck a) <= env_maxAck) ->
  match ack with Some a => frame_Length (FAck a) | None => Ok 0 end = Ok (ackLen ack) /\ ackLen ack <= env_maxAck /\
  pl_ok (mkPayload [] [] ack (ackLen ack)).
Proof.
  intros Ha. destruct ack as [a|].
  - destruct (Ha a eq_refl) as [[Hs Ht] Hle]. rewrite (wf_length _ Hs). split; [done|]. split; [done|]. by apply ackPayload_ok.
  - split; [done|]. split; [exact env_maxAck_nonneg|]. apply noPayload_ok.
Qed.

Lemma wp_maybeGetCryptoPacket lvl max onlyAck ackAllowed v p :
  pk_ok p -> version_ok v -> is_varint (blen (ppToken p)) -> crypto_level lvl -> numbered lvl (ppEnv p) -> max < 2 ^ 14 ->
  72 + tokenLen lvl p + (if onlyAck || ackAllowed then env_maxAck else 0) <= max ->
  wp (maybeGetCryptoPacket max lvl onlyAck ackAllowed v) (fun r p' => pk_ok p' /\ kept p p' /\ part_ok lvl v max p r) (noErr _) p.
Proof.
  intros Hp Hv Htok Hl Hn Hm Hroom. unfold maybeGetCryptoPacket. pose proof env_maxAck_nonneg as Hma.
  assert (exists typ, typeOfLevel lvl = Some typ) as [typ Htyp] by (destruct Hl as [-> | ->]; by eexists).
  assert (Hhdr : forall p1, pk_ok p1 -> kept p p1 -> wp (getLongHeader lvl v) (fun h p2 => pk_ok p2 /\ kept p p2 /\ env_only p1 p2 /\ header_for lvl v p h /\
    exists n, GetLength h = Ok n /\ 0 < n <= 61 + tokenLen lvl p) (noErr _) p1).
  { intros p1 Hp1 Hk1. eapply wp_mono; [| |apply wp_getLongHeader; [done|by eapply kept_numbered]]; [|done]. intros h p2 (Hp2 & Hk2 & He2 & Hh).
    destruct (header_length lvl v p1 h typ Hp1 Hv) as (n & Hg & Hnn); [by rewrite (kt_token _ _ Hk1)|done|done|].
    rewrite (kt_token _ _ Hk1) in Hnn.
    split; [done|]. split; [by eapply kept_trans|]. split; [done|]. split; [|by exists n]. destruct Hh. constructor; try done.
    - by rewrite <- (kt_numbers _ _ Hk1).
    - by rewrite <- (kt_src _ _ Hk1).
    - by rewrite <- (kt_token _ _ Hk1). }
  destruct onlyAck; cbn [orb] in Hroom.
  { apply wp_bind. eapply wp_mono; [| |by apply wp_GetAckFrame]; [|done]. intros [ack|] p1 (Hp1 & Hk1 & _ & Ha).
    - apply wp_bind. eapply wp_mono; [| |by apply Hhdr]; [|done]. intros h p2 (Hp2 & Hk2 & _ & Hh & n & Hg & Hnn).
      destruct (Ha ack eq_refl) as [Hga Hle]. eapply wp_bind, wp_lift; [apply wf_length, Hga|]. apply wp_ret.
      split; [done|]. split; [done|]. split; [by apply ackPayload_ok|]. intros _. exists h, n. cbn [fst snd plLength]. split_and!; done || lia.
    - apply wp_ret. split; [done|]. split; [done|]. apply noPart. }
  apply wp_bind, wp_get. cbv zeta. set (hasR := if bool_decide _ then HasInitialData _ else _). set (hasD := cs_HasData _).
  apply wp_bind. set (ackM := if ackAllowed then _ else _).
  assert (Hack : wp ackM (fun r p' => pk_ok p' /\ kept p p' /\ env_only p p' /\
    (forall ack, r = Some ack -> frame_good (FAck ack) /\ wlen (FAck ack) <= if ackAllowed then env_maxAck else 0)) (noErr _) p).
  { unfold ackM. destruct ackAllowed; [|apply wp_ret; split_and!; [done|apply kept_refl|by exists (ppEnv p); destruct p|done]]. by apply wp_GetAckFrame. }
  eapply wp_mono; [| |exact Hack]; [|done]. intros ack p1 (Hp1 & Hk1 & He1 & Ha). clear Hack ackM.
  destruct (negb hasD && negb hasR && bool_decide (ack = None)); [apply wp_ret; split; [done|]; split; [done|apply noPart]|].
  destruct (ack_length ack) as (El & Hle & Hpl); [intros a Ea; destruct (Ha a Ea); split; [done|]; destruct ackAllowed; lia|].
  assert (Hle' : ackLen ack <= if ackAllowed then env_maxAck else 0).
  { destruct ack as [a|]; [by apply Ha|]. cbn. by destruct ackAllowed. }
  eapply wp_bind, wp_lift; [exact El|]. apply wp_bind.
  eapply wp_mono; [| |apply (Hhdr p1 Hp1 Hk1)]; [|done]. intros h p2 (Hp2 & Hk2 & He2 & Hh & n & Hg & Hnn).
  eapply wp_bind, wp_lift; [exact Hg|]. cbv zeta. apply wp_bind. set (room := max - ackLen ack - n).
  assert (Hr : 11 <= room < 2 ^ 14) by (pose proof (ackLen_nonneg ack); lia).
  assert (Hdone : forall pl p3, pk_ok p3 -> kept p p3 -> pl_ok pl -> ackLen ack <= plLength pl <= ackLen ack + room ->
    wp (mret (Some h, pl)) (fun r p' => pk_ok p' /\ kept p p' /\ part_ok lvl v max p r) (noErr _) p3).
  { intros pl p3 Hp3 Hk3 Hplo Hlen. apply wp_ret. split; [done|]. split; [done|]. split; [done|]. intros _. exists h, n. cbn [fst snd].
    pose proof (ackLen_nonneg ack). split_and!; done || lia. }
  destruct hasR.
  - eapply wp_mono; [| |apply wp_cryptoRetransmissions; [done|done|lia|done|exact Hpl]]; [|done].
    intros pl p3 (Hp3 & Hk3 & Hgr). apply Hdone; [done|by eapply kept_trans|apply Hgr|]. pose proof (gr_length _ _ _ Hgr) as Hgl. cbn [plLength] in Hgl. lia.
  - destruct hasD eqn:EhasD; [|apply wp_ret, Hdone; done || (cbn [plLength]; lia)].
    apply wp_bind.
    assert (Hd2 : wp (popCrypto lvl room) (fun cf p' => pk_ok p' /\ kept p2 p' /\ frame_good (FCrypto cf) /\ wlen (FCrypto cf) <= room) (noErr _) p2).
    { apply wp_popCrypto; [done|done|done|]. destruct (env_only_trans _ _ _ He1 He2) as [e ->]. exact EhasD. }
    eapply wp_mono; [| |exact Hd2]; [|done]. intros cf p3 (Hp3 & Hk3 & Hgf & Hfit). eapply wp_bind, wp_lift; [apply wf_length, Hgf|]. apply wp_ret.
    apply Hdone; [done|by eapply kept_trans|by apply (pl_ok_snoc (mkPayload [] [] ack (ackLen ack)))|].
    cbn [plLength]. pose proof (wlen_pos (FCrypto cf)). lia.
Qed.

(** *** Application data packets *)

Lemma datagrams_step p q' : pk_ok p -> datagrams_ok q' -> pk_ok (pp_datagrams (Some q') p) /\ kept p (pp_datagrams (Some q') p).
Proof. intros [] Hq. split; [|by constructor]. constructor; try done. by intros x [= <-]. Qed.

Lemma wp_dq_Peek_good q : datagrams_ok q ->
  wp dq_Peek (fun r q' => datagrams_ok q' /\ dqNextFrame q' = r /\ forall f, r = Some f -> frame_good (FDatagram f)) (noErr _) q.
Proof.
  intros Hq. pose proof Hq as [H1 H2 H3]. apply wp_bind, wp_get. destruct (dqNextFrame q) as [f|] eqn:En; [apply wp_ret; auto|].
  destruct (dqSendQueue q) as [f|] eqn:Es; [|by apply wp_ret]. destruct H3 as [?|Hw]; [done|]. destruct (dqWaiting q) as [|w]; [lia|].
  apply wp_bind, wp_modify, wp_ret. split; [|by split]. constructor; cbn; [by intros ? [= <-]; apply H2|done|by left].
Qed.

Lemma wp_addDatagram max pl p : pk_ok p -> pl_ok pl -> plLength pl <= max ->
  wp (addDatagram max pl) (fun pl' p' => pk_ok p' /\ kept p p' /\ grown (max - plLength pl) pl pl') (noErr _) p.
Proof.
  intros Hp Hpl Hm. unfold addDatagram. apply wp_bind, wp_get.
  assert (Hstay : forall p', pk_ok p' -> kept p p' -> wp (mret pl) (fun pl' p' => pk_ok p' /\ kept p p' /\ grown (max - plLength pl) pl pl') (noErr _) p').
  { intros p' Hp' Hk. apply wp_ret. split; [done|]. split; [done|]. apply grown_refl; [done|lia]. }
  destruct (ppDatagramQueue p) as [q|] eqn:Eq; [|apply Hstay; [done|apply kept_refl]].
  pose proof (pk_datagrams _ Hp q Eq) as Hq. apply wp_bind. eapply wp_onDatagrams; [exact Eq|].
  eapply wp_mono; [| |by apply wp_dq_Peek_good]; [|done]. intros r q1 (Hq1 & Hn & Hg). destruct (datagrams_step p q1 Hp Hq1) as [Hp1 Hk1].
  destruct r as [f|]; [|by apply Hstay]. pose proof (Hg f eq_refl) as Hgf. eapply wp_bind, wp_lift; [apply wf_length, Hgf|].
  destruct (Z.leb_spec (wlen (FDatagram f)) (max - plLength pl)) as [Hfit|Hno]; [|by apply Hstay].
  apply wp_bind. eapply wp_onDatagrams; [done|]. apply wp_bind, wp_get. rewrite Hn. apply wp_modify, wp_ret.
  set (q2 := dq_send _ None _ _ _ q1). assert (Hq2 : datagrams_ok q2) by (destruct Hq1; by constructor).
  destruct (datagrams_step _ q2 Hp1 Hq2) as [Hp2 Hk2]. split; [done|]. split; [by eapply kept_trans|].
  eapply grown_snoc. apply grown_refl; [by apply pl_ok_snoc|lia].
Qed.

Lemma wp_appDataRetransmissions max fuel : max < 2 ^ 14 -> forall pl p, pk_ok p -> pl_ok pl -> plLength pl <= max -> (Z.to_nat (max - plLength pl) <= fuel)%nat ->
  wp (appDataRetransmissions fuel max pl) (fun pl' p' => pk_ok p' /\ kept p p' /\ grown (max - plLength pl) pl pl') (noErr _) p.
Proof.
  intros Hmax. assert (Hstay : forall pl p p', pl_ok pl -> plLength pl <= max -> pk_ok p' -> kept p p' ->
    wp (mret pl) (fun pl' p' => pk_ok p' /\ kept p p' /\ grown (max - plLength pl) pl pl') (noErr _) p').
  { intros pl p p' Hpl Hle Hp' Hk. apply wp_ret. split; [done|]. split; [done|]. apply grown_refl; [done|lia]. }
  induction fuel as [|fuel IH]; intros pl p Hp Hpl Hle Hf; cbn [appDataRetransmissions];
    (destruct (Z.ltb_spec (max - plLength pl) MinStreamFrameSize) as [Hlt|Hge]; [apply Hstay; done || apply kept_refl|]).
  { unfold MinStreamFrameSize in Hge. lia. }
  apply wp_bind, wp_onRetrans, wp_bind, wp_get, wp_bind. pose proof (pk_retrans _ Hp) as Hr.
  destruct (firstFitting_taken (max - plLength pl) _ (rt_appData _ Hr)) as (r & fs & E0 & Hfs & Ht). eapply wp_lift; [exact E0|].
  apply wp_bind, wp_modify, wp_ret. destruct (retrans_step p (rq_appData fs (ppRetransmissionQueue p)) Hp) as [Hp1 Hk1]; [destruct Hr; by constructor|].
  destruct r as [f|]; [|by apply Hstay]. destruct (Ht f eq_refl) as [Hg Hfit]. pose proof (wlen_pos f).
  eapply wp_bind, wp_lift; [apply wf_length, Hg|]. cbv zeta.
  eapply wp_mono; [| |apply (IH _ _ Hp1); [by apply pl_ok_snoc|cbn [plLength]; lia|cbn [plLength]; lia]]; [|done].
  intros pl' p2 (Hp2 & Hk2 & Hgr). split; [done|]. split; [by eapply kept_trans|]. eapply grown_snoc. cbn [plLength] in Hgr.
  by replace (max - plLength pl - wlen f) with (max - (plLength pl + wlen f)) by lia.
Qed.

Definition fits (max : Z) (pl pl' : payload) : Prop := pl_ok pl' /\ plAck pl' = plAck pl /\ plLength pl' <= max.

Lemma wp_addFramer max pl p : pk_ok p -> pl_ok pl -> plStreamFrames pl = [] -> plLength pl <= max <= MaxPacketBufferSize - 2 ->
  wp (addFramer max pl) (fun pl' p' => pk_ok p' /\ kept p p' /\ fits max pl pl') (noErr _) p.
Proof.
  intros Hp Hpl Hs Hm. unfold addFramer. apply wp_bind. pose proof (pl_ok_nonneg _ Hpl) as H0.
  eapply wp_mono; [| |eapply wp_env_step; [exact Hp|apply env_control; [apply Hp|lia]]]; [|done].
  intros [fs n] p1 (Hp1 & Hk1 & _ & added & [= -> ->] & Hgood & Hle). pose proof (total_nonneg added).
  apply wp_bind. rewrite Hs. cbv zeta.
  eapply wp_mono; [| |eapply wp_env_step; [exact Hp1|apply env_streams; [apply Hp1|lia]]]; [|done].
  intros [sfs n'] p2 (Hp2 & Hk2 & _ & Hn & Hsg & Hsl). cbn [fst snd] in *. subst n'. apply wp_ret. split; [done|]. split; [by eapply kept_trans|].
  replace (drop (length (plFrames pl)) ((pfFrame <$> plFrames pl) ++ added)) with added
    by (rewrite drop_app_length'; [done|by rewrite length_fmap]).
  destruct Hpl as [P1 P2 P3 P4]. split_and!; [|done|cbn [plLength]; lia]. constructor; cbn [plAck plFrames plStreamFrames plLength]; [done| |done|].
  - apply Forall_app. split; [done|]. by apply Forall_fmap.
  - rewrite fmap_app, total_app, <- list_fmap_compose, P4, Hs. change (stotal []) with 0.
    replace ((pfFrame ∘ _) <$> added) with added by (symmetry; apply list_fmap_id). lia.
Qed.

Lemma wp_composeNextPacket max onlyAck ackAllowed p : pk_ok p -> 0 <= max <= MaxPacketBufferSize - 2 ->
  (if onlyAck || ackAllowed then env_maxAck else 0) <= max ->
  wp (composeNextPacket max onlyAck ackAllowed) (fun pl p' => pk_ok p' /\ kept p p' /\ pl_ok pl /\ plLength pl <= max /\
    ackLen (plAck pl) <= (if onlyAck || ackAllowed then env_maxAck else 0)) (noErr _) p.
Proof.
  intros Hp Hm Hroom. unfold composeNextPacket. pose proof env_maxAck_nonneg as Hma. destruct onlyAck; cbn [orb] in *.
  { apply wp_bind. eapply wp_mono; [| |by apply wp_GetAckFrame]; [|done]. intros [ack|] p1 (Hp1 & Hk1 & _ & Ha).
    - destruct (Ha ack eq_refl) as [Hg Hle]. eapply wp_bind, wp_lift; [apply wf_length, Hg|]. apply wp_ret.
      split_and!; [done|done|by apply ackPayload_ok|cbn [plLength]; lia|done].
    - apply wp_ret. split_and!; [done|done|apply noPayload_ok|cbn; lia|done]. }
  apply wp_bind. eapply wp_mono; [| |apply (wp_env_step _ (fun _ => True) _ Hp)]; [|done|
    eapply wp_mono; [| |apply env_hasData, Hp]; [intros b e (? & ?); by split_and!|done]].
  intros hasData p1 (Hp1 & Hk1 & _ & _). apply wp_bind, wp_get. cbv zeta. set (hasR := HasAppData _). apply wp_bind.
  set (ackM := if ackAllowed then _ else _).
  assert (Hack : wp ackM (fun r p' => pk_ok p' /\ kept p p' /\
    (forall ack, r = Some ack -> frame_good (FAck ack) /\ wlen (FAck ack) <= if ackAllowed then env_maxAck else 0)) (noErr _) p1).
  { unfold ackM. destruct ackAllowed; [|by apply wp_ret]. eapply wp_mono; [| |by apply wp_GetAckFrame]; [|done].
    intros r p2 (Hp2 & Hk2 & _ & Hr). split_and!; try done. by eapply kept_trans. }
  eapply wp_mono; [| |exact Hack]; [|done]. intros ack p2 (Hp2 & Hk2 & Ha). clear Hack ackM.
  destruct (ack_length ack) as (El & Hle & Hpl); [intros a Ea; destruct (Ha a Ea); split; [done|]; destruct ackAllowed; lia|].
  assert (Hle' : ackLen ack <= if ackAllowed then env_maxAck else 0).
  { destruct ack as [a|]; [by apply Ha|]. cbn. by destruct ackAllowed. }
  eapply wp_bind, wp_lift; [exact El|]. apply wp_bind.
  eapply wp_mono; [| |apply (wp_addDatagram max _ p2 Hp2 Hpl); cbn [plLength]; lia]; [|done].
  intros pl3 p3 (Hp3 & Hk3 & Hg3). assert (Hk : kept p p3) by by eapply kept_trans.
  destruct Hg3 as [G1 G2 G3 G4]. cbn [plLength plAck plStreamFrames] in *.
  destruct (_ && _); [apply wp_ret; split_and!; [done|done|done|lia|by rewrite G2]|]. apply wp_bind.
  assert (Hr : wp (if hasR then appDataRetransmissions (Z.to_nat (max - plLength pl3)) max pl3 else mret pl3)
    (fun pl' p' => pk_ok p' /\ kept p3 p' /\ grown (max - plLength pl3) pl3 pl') (noErr _) p3).
  { destruct hasR; [apply wp_appDataRetransmissions; [unfold MaxPacketBufferSize in *; lia|done|done|lia|done]|]. apply wp_ret. split; [done|].
    split; [apply kept_refl|]. apply grown_refl; [done|lia]. }
  eapply wp_mono; [| |exact Hr]; [|done]. intros pl4 p4 (Hp4 & Hk4 & [G5 G6 G7 G8]).
  destruct hasData; [|apply wp_ret; split_and!; [done|by eapply kept_trans|done|lia|by rewrite G6, G2]].
  eapply wp_mono; [| |apply (wp_addFramer max pl4 p4 Hp4 G5); [congruence|lia]]; [|done].
  intros pl5 p5 (Hp5 & Hk5 & F1 & F2 & F3). split_and!; [done|by do 2 (eapply kept_trans; [done|])|done|done|by rewrite F2, G6, G2].
Qed.

Lemma wp_maybeGetAppDataPacket max onlyAck ackAllowed p : pk_ok p -> 0 <= max <= MaxPacketBufferSize - 2 ->
  (if onlyAck || ackAllowed then env_maxAck + 1 else 0) <= max ->
  wp (maybeGetAppDataPacket max onlyAck ackAllowed) (fun pl p' => pk_ok p' /\ kept p p' /\ pl_ok pl /\ plLength pl <= max) (noErr _) p.
Proof.
  intros Hp Hm Hroom. unfold maybeGetAppDataPacket. apply wp_bind.
  eapply wp_mono; [| |apply wp_composeNextPacket; [done|done|destruct (onlyAck || ackAllowed); lia]]; [|done].
  intros pl p1 (Hp1 & Hk1 & Hpl & Hle & Hack).
  assert (Hnum : forall n, pk_ok (pp_numAcks n p1) /\ kept p (pp_numAcks n p1)).
  { intros n. split; [by destruct Hp1; constructor|]. by destruct Hk1; constructor. }
  destruct (Z.eqb_spec (blen (plFrames pl)) 0) as [Ef|Ef]; cbn [andb]; [destruct (Z.eqb_spec (blen (plStreamFrames pl)) 0) as [Es|Es]|];
    [|apply wp_bind, wp_modify, wp_ret; destruct (Hnum 0); by split_and!..].
  case_bool_decide as Ha; [apply wp_ret; split_and!; [done|done|apply noPayload_ok|cbn; lia]|].
  apply wp_bind, wp_get. destruct (MaxNonAckElicitingAcks <=? _); [|apply wp_bind, wp_modify, wp_ret; destruct (Hnum (ppNumNonAckElicitingAcks p1 + 1)); by split_and!].
  assert (Hping : frame_good (FPing mkPing)) by done. apply wp_bind. apply (wp_lift 1); [done|]. apply wp_bind, wp_modify, wp_ret.
  destruct (Hnum 0). split_and!; [done|done|by apply (pl_ok_snoc _ (FPing mkPing))|]. cbn [plLength].
  assert (plFrames pl = [] /\ plStreamFrames pl = []) as [E1 E2] by (unfold blen in *; by destruct (plFrames pl), (plStreamFrames pl)).
  pose proof (po_length _ Hpl) as Hlen. rewrite E1, E2 in Hlen. change (stotal []) with 0 in Hlen. change (total (pfFrame <$> [])) with 0 in Hlen.
  destruct (plAck pl) as [a|] eqn:Ea; [|done]. destruct (onlyAck || ackAllowed); [lia|]. cbn in Hack. pose proof (wlen_pos (FAck a)). lia.
Qed.

(** *** The bytes of a payload *)

Definition framesBytes (fs : list wireFrame) : bytes := concat (wf_bytes <$> fs).

(** The ACK, the padding, the control frames and the STREAM frames. *)
Definition contents (ack : option AckFrame) (pad : Z) (frames : list packFrame) (sfs : list StreamFrame) : bytes :=
  from_option (fun a => wf_bytes (FAck a)) [] ack ++ replicate (Z.to_nat pad) 0 ++
  framesBytes (pfFrame <$> frames) ++ framesBytes (FStream <$> sfs).

Lemma blen_framesBytes fs : blen (framesBytes fs) = total fs.
Proof. unfold framesBytes, total. induction fs as [|f fs IH]; cbn [fmap list_fmap concat foldr]; [done|]. rewrite blen_app, IH. done. Qed.

Lemma appendFrames_spec fs : Forall wf_sendable fs -> forall raw, appendFrames raw fs = Ok (raw ++ framesBytes fs).
Proof.
  unfold framesBytes. induction 1 as [|f fs Hf _ IH]; intros raw; cbn [appendFrames fmap list_fmap concat]; [by rewrite app_nil_r|].
  rewrite (wf_append _ _ Hf). cbn [mbind res_bind]. rewrite IH. by rewrite <- (assoc_L (++)).
Qed.

Lemma total_perm fs gs : Permutation fs gs -> total fs = total gs.
Proof. unfold total. induction 1; cbn [foldr]; lia. Qed.

Lemma blen_contents ack pad frames sfs : 0 <= pad ->
  blen (contents ack pad frames sfs) = ackLen ack + pad + total (pfFrame <$> frames) + stotal sfs.
Proof.
  intros Hp. unfold contents, stotal. rewrite !blen_app, !blen_framesBytes. unfold blen at 2. rewrite length_replicate.
  unfold ackLen. destruct ack; cbn [from_option]; rewrite ?blen_nil; lia.
Qed.

Lemma appendPacketPayload_spec raw pl pad p : pl_ok pl -> 0 <= pad ->
  exists frames k, Permutation frames (plFrames pl) /\
    appendPacketPayload shuffle raw pl pad p = (Ok (raw ++ contents (plAck pl) pad frames (plStreamFrames pl), frames), pp_rand k p) /\
    blen (contents (plAck pl) pad frames (plStreamFrames pl)) = plLength pl + pad.
Proof.
  intros [Ha Hf Hs Hl] Hp.
  set (fk := if 1 <? blen (plFrames pl) then (shuffle (ppRand p) (plFrames pl), S (ppRand p)) else (plFrames pl, ppRand p)).
  assert (Hperm : Permutation fk.1 (plFrames pl)) by (unfold fk; destruct (1 <? blen (plFrames pl)); [apply Hshuffle|done]).
  assert (Hlen : blen (contents (plAck pl) pad fk.1 (plStreamFrames pl)) = plLength pl + pad).
  { rewrite blen_contents, Hl by done. rewrite (total_perm (pfFrame <$> fk.1) (pfFrame <$> plFrames pl)) by (by apply fmap_Permutation). lia. }
  exists fk.1, fk.2. split; [done|]. split; [|done]. unfold appendPacketPayload.
  assert (E1 : match plAck pl with Some ack => frame_Append raw (FAck ack) | None => Ok raw end =
    Ok (raw ++ from_option (fun a => wf_bytes (FAck a)) [] (plAck pl))).
  { destruct (plAck pl) as [a|]; [apply wf_append; by apply Ha|]. cbn. by rewrite app_nil_r. }
  rewrite E1, run_lift. set (raw1 := raw ++ _). set (raw2 := if 0 <? pad then _ else raw1).
  assert (E2 : raw2 = raw1 ++ replicate (Z.to_nat pad) 0).
  { unfold raw2. destruct (Z.ltb_spec 0 pad); [done|]. replace pad with 0 by lia. cbn. by rewrite app_nil_r. }
  rewrite run_get. fold fk. destruct fk as [frames k]. cbn [fst snd] in *. rewrite (stM_bind_ok _ _ p (pp_rand k p) tt) by done.
  rewrite (appendFrames_spec (pfFrame <$> frames)), run_lift.
  2:{ apply Forall_fmap. rewrite Forall_forall in Hf |- *. intros f Hin. rewrite Hperm in Hin. by apply Hf. }
  rewrite (appendFrames_spec (FStream <$> plStreamFrames pl)), run_lift by (apply Forall_fmap; apply Hs).
  set (out := ((raw2 ++ _) ++ _)).
  assert (Eout : out = raw ++ contents (plAck pl) pad frames (plStreamFrames pl)).
  { unfold out, contents. rewrite E2. unfold raw1. by rewrite <- !(assoc_L (++)). }
  rewrite Eout, blen_app, Hlen. ztrue (blen raw + (plLength pl + pad) - blen raw - pad =? plLength pl). done.
Qed.

(** *** Sealing *)

Lemma encrypt_total {S} `{Sealer S} (s s' : S) b0 pre pbs payload pn ct :
  let hdr := (b0 :: pre) ++ pbs in
  1 <= blen pbs <= 4 -> 4 <= blen pbs + blen payload -> seal_Seal payload pn hdr s = (Ok ct, s') ->
  blen ct = blen payload + 16 -> seal_Overhead s' = 16 ->
  (forall sample fb bs, blen sample = 16 -> blen bs <= 4 -> exists fb' bs', seal_EncryptHeader s' sample fb bs = Ok (fb', bs') /\ blen bs' = blen bs) ->
  exists out, encryptPacket (hdr ++ payload) pn (blen hdr) (blen pbs) s = (Ok out, s') /\ blen out = blen hdr + blen payload + 16.
Proof.
  intros hdr Hn H4 Hseal Hct Hov Hhp.
  destruct (sample_split ct (4 - blen pbs)) as (c1 & sample & c2 & -> & Hc1 & Hs); [lia..|].
  destruct (Hhp sample b0 pbs Hs ltac:(lia)) as (b0' & pbs' & Henc & Hl).
  assert (Hh : blen hdr = 1 + blen pre + blen pbs) by (unfold hdr; rewrite blen_app, blen_cons; lia).
  exists ((b0' :: pre) ++ pbs' ++ c1 ++ sample ++ c2). split.
  - rewrite Hh. unfold hdr. rewrite <- (assoc_L (++)). eapply encryptPacket_eq; [exact Hseal|lia|done|lia|exact Henc|done].
  - rewrite !blen_app, blen_cons. rewrite !blen_app in Hct. lia.
Qed.

Lemma hp_apply_len hp sample fb bs : blen sample = 16 -> blen bs <= 4 -> exists fb' bs', hp_apply hp sample fb bs = Ok (fb', bs') /\ blen bs' = blen bs.
Proof.
  intros Hs Hb. pose proof (blen_nonneg bs). destruct (hp_apply_twice hp sample fb bs (replicate (Z.to_nat (4 - blen bs)) 0) Hs) as (_ & Ha & Hl & _).
  { rewrite blen_app. unfold blen at 2. rewrite length_replicate. lia. }
  by eexists _, _.
Qed.

Lemma encrypt_long (s : longHeaderSealer A) b0 pre pbs payload pn : sealer_ok s ->
  let hdr := (b0 :: pre) ++ pbs in 1 <= blen pbs <= 4 -> 4 <= blen pbs + blen payload ->
  exists out s', encryptPacket (hdr ++ payload) pn (blen hdr) (blen pbs) s = (Ok out, s') /\ sealer_ok s' /\ blen out = blen hdr + blen payload + 16.
Proof.
  intros [Hm Hlong Hb] hdr Hn H4. set (s' := mkSealer (lsAead s) (lsHeaderProtector s) (putUint64 (u64 pn))).
  assert (Hseal : ls_Seal payload pn hdr s = (Ok (aead_Seal (xaead (lsAead s)) (nonceOf (nonceMask (lsAead s)) (putUint64 (u64 pn))) payload hdr), s')).
  { unfold ls_Seal, mbind, stM_bind, get, modify, lift. rewrite putNonce_eq by done. by rewrite xor_Seal_eq. }
  destruct (encrypt_total (S := longHeaderSealer A) (H := longHeaderSealer_Sealer) s s' b0 pre pbs payload pn _ Hn H4 Hseal) as (out & E0 & Hl).
  - rewrite aead_seal_len, aead_overhead. done.
  - apply aead_overhead.
  - intros. by apply hp_apply_len.
  - exists out, s'. split; [done|]. split; [by constructor|done].
Qed.

Lemma encrypt_short (a : updatableAEAD A) b0 pre pbs payload pn : aead_ok a ->
  let hdr := (b0 :: pre) ++ pbs in 1 <= blen pbs <= 4 -> 4 <= blen pbs + blen payload ->
  exists out a', encryptPacket (hdr ++ payload) pn (blen hdr) (blen pbs) a = (Ok out, a') /\ aead_ok a' /\ blen out = blen hdr + blen payload + 16.
Proof.
  intros [(x & Hx & Hm) Hb [hp Hhp] Hov] hdr Hn H4. set (nonce := putUint64 (u64 pn)).
  assert (Hseal : exists a', ua_Seal payload pn hdr a = (Ok (aead_Seal (xaead x) (nonceOf (nonceMask x) nonce) payload hdr), a') /\
    aead_ok a' /\ uHeaderEncrypter a' = Some hp).
  { unfold ua_Seal, withAEAD, mbind, stM_bind, get, modify, lift. rewrite putNonce_eq by done. cbn. rewrite Hx. cbn.
    rewrite xor_Seal_eq by done. eexists. split; [reflexivity|]. split; [|done]. constructor; cbn; [by exists x|done|by exists hp|done]. }
  destruct Hseal as (a' & Hseal & Ha' & Hhp').
  destruct (encrypt_total (S := updatableAEAD A) (H := updatableAEAD_Sealer) a a' b0 pre pbs payload pn _ Hn H4 Hseal) as (out & E0 & Hl).
  - rewrite aead_seal_len, aead_overhead. done.
  - apply Ha'.
  - intros sample fb bs Hs Hbs. cbn. unfold ua_EncryptHeader. rewrite Hhp'. cbn. by apply hp_apply_len.
  - by exists out, a'.
Qed.

(** *** Appending packets *)

Lemma wp_onLongSealer {B} lvl (m : stM (longHeaderSealer A) B) (Q : B -> packetPacker A T E -> Prop) F p s :
  longSealerAt lvl (ppCryptoSetup p) = Ok s ->
  wp m (fun r s' => Q r (pp_setup (setLongSealer lvl s' (ppCryptoSetup p)) p)) (fun e s' => F e (pp_setup (setLongSealer lvl s' (ppCryptoSetup p)) p)) s ->
  wp (onLongSealer lvl m) Q F p.
Proof. intros Es. unfold wp, onLongSealer. rewrite Es. by destruct (m s) as [[] ?]. Qed.

Lemma avail_sealer lvl c typ : typeOfLevel lvl = Some typ -> avail lvl c = true -> exists s, longSealerAt lvl c = Ok s.
Proof.
  destruct lvl; cbn; intros Ht Ha; try done; apply bool_decide_eq_true in Ha as [s Es]; exists s;
    unfold GetInitialSealer, GetHandshakeSealer, Get0RTTSealer; by rewrite Es.
Qed.

Lemma sealer_avail lvl c s : longSealerAt lvl c = Ok s -> avail lvl c = true.
Proof.
  destruct lvl; cbn; unfold GetInitialSealer, GetHandshakeSealer, Get0RTTSealer, keyOr; intros Es; try done;
    apply bool_decide_eq_true; case_match; by eauto.
Qed.

Lemma sealer_step lvl p s s' typ : typeOfLevel lvl = Some typ -> longSealerAt lvl (ppCryptoSetup p) = Ok s -> pk_ok p -> sealer_ok s' ->
  let p' := pp_setup (setLongSealer lvl s' (ppCryptoSetup p)) p in
  pk_ok p' /\ (forall P, steady P p p') /\ longSealerAt lvl (ppCryptoSetup p') = Ok s'.
Proof.
  intros Ht Es [] Hs' p'. pose proof (sealer_avail _ _ _ Es) as Ha. split; [|split].
  - constructor; try done. destruct pk_keys0 as [Hl Hsh]. constructor.
    + unfold p'. clear p'. intros l x Ex. destruct (decide (l = lvl)) as [->|Hne].
      * by destruct lvl; cbn in Ex; try done; injection Ex as <-.
      * apply (Hl l). rewrite <- Ex. destruct lvl, l; try done.
        cbn in Ex |- *. unfold GetHandshakeSealer in *. cbn in Ex |- *. by destruct (suHandshakeSealer (ppCryptoSetup p)).
    + intros Hh. unfold p'. destruct lvl; by apply Hsh.
  - intros P. constructor; try done. intros l. cbn. destruct lvl, l; cbn in *; try done; symmetry; by rewrite Ha.
  - by destruct lvl.
Qed.

Lemma tiny_range pnLen len : 1 <= pnLen <= 4 -> 0 <= len -> 0 <= tinyPadding pnLen len /\ 4 <= pnLen + len + tinyPadding pnLen len /\
  (len + tinyPadding pnLen len <= Z.max len (4 - pnLen)).
Proof. intros. unfold tinyPadding. destruct (Z.ltb_spec len (4 - pnLen)); lia. Qed.

(** What appending a packet to the buffer leaves behind. *)
Definition appended (lvl : EncryptionLevel) (b b' : packetBuffer) (len : Z) p p' : Prop :=
  pk_ok p' /\ steady (fun l => space_of l <> space_of lvl) p p' /\
  bufCap b' = bufCap b /\ exists raw, bufData b' = bufData b ++ raw /\ blen raw = len.

Lemma extendBuffer_ok b raw : blen (bufData b) + blen raw <= bufCap b -> extendBuffer b raw = Ok (mkBuffer (bufData b ++ raw) (bufCap b)).
Proof. intros Hr. unfold extendBuffer. by zfalse (bufCap b <? blen (bufData b) + blen raw). Qed.

(** Popping the packet number that was peeked. *)
Lemma wp_pop lvl pn n p : pk_ok p -> env_number lvl (ppEnv p) = Some (pn, n) ->
  wp (onEnv (PopPacketNumber lvl)) (fun pn' p' => pn' = pn /\ pk_ok p' /\ steady (fun l => space_of l <> space_of lvl) p p' /\
    ppCryptoSetup p' = ppCryptoSetup p /\ PopPacketNumber lvl (ppEnv p) = (Ok pn, ppEnv p')) (noErr _) p.
Proof.
  intros Hp Hpk. apply wp_onEnv. pose proof (env_pop (ppEnv p) lvl pn n (pk_env _ Hp) Hpk) as Hw. unfold wp in *.
  destruct (PopPacketNumber lvl (ppEnv p)) as [[pn'|err|m] e]; [|done|done]. destruct Hw as (-> & He & Hn).
  split; [done|]. split; [by destruct Hp|]. split; [|done]. by constructor.
Qed.

Lemma rand_step k p : pk_ok p -> pk_ok (pp_rand k p) /\ forall P, steady P p (pp_rand k p).
Proof. intros []. split; by constructor. Qed.

(** The overhead is that of every AEAD. *)
Lemma wp_overhead lvl p s typ : typeOfLevel lvl = Some typ -> pk_ok p -> longSealerAt lvl (ppCryptoSetup p) = Ok s ->
  wp (onLongSealer lvl (s ← get; mret (seal_Overhead s))) (fun r p' => r = 16 /\ pk_ok p' /\ (forall P, steady P p p') /\
    longSealerAt lvl (ppCryptoSetup p') = Ok s /\ ppEnv p' = ppEnv p) (noErr _) p.
Proof.
  intros Ht Hp Es. eapply wp_onLongSealer; [exact Es|]. apply wp_bind, wp_get, wp_ret. split; [apply aead_overhead|].
  destruct (sealer_step lvl p s s typ Ht Es Hp) as (? & ? & ?); [by eapply (ko_long _ (pk_keys _ Hp))|]. done.
Qed.

(** The packet: its bytes are the header and the frames, sealed. *)
Definition long_sealed (lvl : EncryptionLevel) (v : Z) (typ : PacketType) (h : ExtendedHeader) (pl : payload) (pad : Z)
    (lp : longHeaderPacket) (raw : bytes) p p' : Prop :=
  PopPacketNumber lvl (ppEnv p) = (Ok (ehPacketNumber h), ppEnv p') /\
  let pnLen := ehPacketNumberLen h in let padding := tinyPadding pnLen (plLength pl) + pad in
  exists frames hdr s s', Permutation frames (plFrames pl) /\
    lp = mkLongHeaderPacket (setLength (pnLen + 16 + plLength pl + padding) h) (plAck pl) frames (plStreamFrames pl) (blen raw) /\
    longSealerAt lvl (ppCryptoSetup p) = Ok s /\ long_sendable (lpHeader lp) v typ /\ ext_Append [] (lpHeader lp) v = Ok hdr /\
    encryptPacket (hdr ++ contents (plAck pl) padding frames (plStreamFrames pl)) (ehPacketNumber h) (blen hdr) pnLen s = (Ok raw, s').

Lemma wp_appendLongHeaderPacket lvl v p h n pl pad b typ :
  pk_ok p -> version_ok v -> is_varint (blen (ppToken p)) -> typeOfLevel lvl = Some typ -> avail lvl (ppCryptoSetup p) = true ->
  header_for lvl v p h -> GetLength h = Ok n -> pl_ok pl -> 0 <= pad ->
  let len := n + plLength pl + tinyPadding (ehPacketNumberLen h) (plLength pl) + pad + 16 in
  blen (bufData b) + len <= bufCap b -> bufCap b <= MaxPacketBufferSize ->
  wp (appendLongHeaderPacket shuffle b h pl pad lvl v) (fun r p' => appended lvl b r.2 len p p' /\
    lpLength r.1 = len /\ hType (ehHeader (lpHeader r.1)) = Some typ /\ Permutation (lpFrames r.1) (plFrames pl) /\
    exists raw, bufData r.2 = bufData b ++ raw /\ long_sealed lvl v typ h pl pad r.1 raw p p') (noErr _) p.
Proof.
  intros Hp Hv Htok Ht Ha Hh Hg Hpl Hpad len Hfit Hcap. unfold appendLongHeaderPacket. cbv zeta. apply wp_bind.
  destruct (avail_sealer _ _ _ Ht Ha) as [s Es]. pose proof (pl_ok_nonneg _ Hpl) as Hpos. pose proof (hf_pnLen _ _ _ _ Hh) as Hn.
  destruct (tiny_range _ _ Hn Hpos) as (T1 & T2 & T3). set (tiny := tinyPadding _ _) in *. set (pnLen := ehPacketNumberLen h) in *.
  eapply wp_mono; [| |by eapply wp_overhead]; [|done]. intros ? p1 (-> & Hp1 & Hk1 & Es1 & Ee1). set (h' := setLength _ h).
  pose proof (blen_nonneg (bufData b)) as Hb0. unfold MaxPacketBufferSize in Hcap.
  assert (Hls : long_sendable h' v typ).
  { eapply (header_sendable _ _ p); try done. unfold maxVarInt2. split; [lia|].
    assert (n >= pnLen); [|lia]. destruct (long_layout (setLength 0 h) v typ) as (pre & pbs & _ & Hg' & Hpb & _);
      [by eapply (header_sendable _ _ p)|]. change (GetLength (setLength 0 h)) with (GetLength h) in Hg'. rewrite Hg in Hg'.
    cbn in Hpb. injection Hg' as ->. pose proof (blen_nonneg pre). fold pnLen in Hpb. lia. }
  destruct (long_layout h' v typ Hls) as (pre & pbs & Happ & Hg' & Hpb & _ & _ & _).
  change (GetLength h') with (GetLength h) in Hg'. rewrite Hg in Hg'. injection Hg' as Hn'. change (ehPacketNumberLen h') with pnLen in Hpb.
  eapply wp_bind, wp_lift; [exact Happ|]. set (hdr := (_ :: pre) ++ pbs). apply wp_bind.
  destruct (appendPacketPayload_spec hdr pl (tiny + pad) p1 Hpl ltac:(lia)) as (frames & k & Hperm & Eapp & Hlen).
  unfold wp at 1. rewrite Eapp. set (body := contents _ _ _ _) in *.
  destruct (rand_step k p1 Hp1) as [Hp2 Hk2]. apply wp_bind. eapply wp_onLongSealer; [exact Es1|].
  destruct (encrypt_long s (longFirstByte v typ (ehPacketNumberLen h')) pre pbs body (ehPacketNumber h') (ko_long _ (pk_keys _ Hp1) _ _ Es1) ltac:(lia) ltac:(lia)) as (out & s' & Eenc & Hs' & Hout).
  fold hdr in Eenc, Hout. rewrite Hpb in Eenc. unfold wp at 1. rewrite Eenc.
  assert (Hhdr : blen hdr = n) by (unfold hdr; rewrite blen_app, blen_cons; lia).
  destruct (sealer_step lvl (pp_rand k p1) s s' typ Ht Es1 Hp2 Hs') as (Hp3 & Hk3 & _). cbv zeta in Hp3, Hk3.
  set (p3 := pp_setup _ (pp_rand k p1)) in *.
  eapply wp_bind, wp_lift; [apply extendBuffer_ok; lia|]. apply wp_bind.
  assert (Hk : forall P, steady P p p3) by (intros P; do 2 (eapply (steady_trans P P); [by split|done|]); done).
  eapply wp_mono; [| |apply (wp_pop lvl (ehPacketNumber h) pnLen p3 Hp3)]; [|done|rewrite (sd_numbers _ _ _ (Hk (fun _ => True))) by done; apply Hh].
  intros pn p4 (-> & Hp4 & Hk4 & Ec4 & Epop). change (ehPacketNumber h') with (ehPacketNumber h). rewrite Z.eqb_refl. cbn [negb]. apply wp_ret.
  cbn [fst snd lpLength lpHeader lpFrames]. assert (Hol : blen out = len) by (rewrite Hout, Hhdr, Hlen; unfold len; lia).
  split; [|split; [exact Hol|]; split; [by rewrite <- Ht, <- (hf_type _ _ _ _ Hh)|]; split; [done|]].
  - split; [done|]. split; [by eapply (steady_trans (fun _ => True)); [|apply Hk|exact Hk4]|]. split; [done|]. by exists out.
  - exists out. split; [done|]. split; [by rewrite <- Ee1|]. exists frames, hdr, s, s'. done.
Qed.

(** *** Short header packets *)

Lemma rollKeys_frame (a a' : updatableAEAD A) : rollKeys a = (Ok tt, a') ->
  uHeaderEncrypter a' = uHeaderEncrypter a /\ uAeadOverhead a' = uAeadOverhead a.
Proof.
  unfold rollKeys, mbind, stM_bind, get, modify, mret, stM_ret. intros Hr. repeat (case_match; simplify_eq/=); done.
Qed.

Lemma KeyPhase_keeps a : aead_ok a -> may_update a ->
  exists a', ua_KeyPhase a = (Ok (KeyPhase_Bit (uKeyPhase a')), a') /\ aead_ok a' /\ (shouldInitiateKeyUpdate a = false -> a' = a).
Proof.
  intros Ha Hm. destruct (shouldInitiateKeyUpdate a) eqn:Es.
  2:{ exists a. split; [|done]. unfold ua_KeyPhase, mbind, stM_bind, get. by rewrite Es. }
  destruct Hm as [Hc|(suite & v & ws & rs & Hs & Hi & Hk)].
  { congruence. }
  destruct (KeyPhase_spec suite v Hs ws rs a Hi Hk) as (a' & Ek & Hi' & _). exists a'. split; [done|]. split; [|done].
  assert (Hf : uHeaderEncrypter a' = uHeaderEncrypter a /\ uAeadOverhead a' = uAeadOverhead a).
  { unfold ua_KeyPhase, mbind at 1, stM_bind at 1, get at 1 in Ek. rewrite Es in Ek. unfold mbind, stM_bind in Ek.
    destruct (rollKeys a) as [[[]| |] a1] eqn:Er; try done. cbn in Ek. injection Ek as _ <-. by apply rollKeys_frame. }
  destruct Hf as [F1 F2]. destruct (genAt_some suite v Hs ws (uKeyPhase a')) as (x & Ex & _ & Hx). destruct Ha.
  constructor; [exists x; by rewrite (ui_send _ _ _ _ _ Hi')|by apply Hi'|by rewrite F1|by rewrite F2].
Qed.

Lemma wp_onAead {B} (m : stM (updatableAEAD A) B) (Q : B -> packetPacker A T E -> Prop) F p :
  wp m (fun r a => Q r (pp_setup (w_Aead a (ppCryptoSetup p)) p)) (fun e a => F e (pp_setup (w_Aead a (ppCryptoSetup p)) p)) (suAead (ppCryptoSetup p)) ->
  wp (onSetup (onAead m)) Q F p.
Proof. unfold wp, onSetup, onAead. by destruct (m (suAead (ppCryptoSetup p))) as [[] ?]. Qed.

Lemma aead_step p a : pk_ok p -> aead_ok a -> pk_ok (pp_setup (w_Aead a (ppCryptoSetup p)) p) /\ forall P, steady P p (pp_setup (w_Aead a (ppCryptoSetup p)) p).
Proof.
  intros [? ? ? ? ? ? [Hl Hs]] Ha. split; [by constructor|].
  intros P. constructor; try done.
Qed.

Lemma wp_KeyPhase p : pk_ok p -> avail Encryption1RTT (ppCryptoSetup p) = true -> may_update (suAead (ppCryptoSetup p)) ->
  wp (onSetup (onAead ua_KeyPhase)) (fun kp p' => pk_ok p' /\ (forall P, steady P p p') /\ kp = KeyPhase_Bit (uKeyPhase (suAead (ppCryptoSetup p'))) /\
    (shouldInitiateKeyUpdate (suAead (ppCryptoSetup p)) = false -> suAead (ppCryptoSetup p') = suAead (ppCryptoSetup p))) (noErr _) p.
Proof.
  intros Hp Ha Hm. apply wp_onAead. destruct (KeyPhase_keeps _ (ko_short _ (pk_keys _ Hp) Ha) Hm) as (a' & Ek & Ha' & Hsame).
  unfold wp. rewrite Ek. destruct (aead_step p a' Hp Ha'). by split_and!.
Qed.

(** The packet number at the level of the packet. *)
Definition numberedBy (lvl : EncryptionLevel) (pn pnLen : Z) p : Prop :=
  env_number lvl (ppEnv p) = Some (pn, pnLen) /\ 0 <= pn < 2 ^ 62 /\ 1 <= pnLen <= 4.

Lemma numberedBy_steady (P : EncryptionLevel -> Prop) lvl pn n p p' : steady P p p' -> P lvl -> numberedBy lvl pn n p -> numberedBy lvl pn n p'.
Proof. intros Hk Hl [Hp Hr]. split; [by rewrite (sd_numbers _ _ _ Hk)|done]. Qed.

Definition shortLen (connID : bytes) (pnLen : Z) (pl : payload) (pad : Z) : Z := shortHeaderPacketLength connID pnLen pl + pad + 16.

(** The packet is the sealed contents. *)
Definition short_sealed (connID : bytes) (pn pnLen : Z) (kp : KeyPhaseBit) (pl : payload) (pad : Z) (mtu : bool) (shp : shortHeaderPacket) (raw : bytes) p p' : Prop :=
  exists frames hdr, Permutation frames (plFrames pl) /\
  shp = mkShortHeaderPacket pn frames (plStreamFrames pl) (plAck pl) (blen raw) mtu connID pnLen kp /\
  AppendShortHeader [] connID pn pnLen kp = Ok hdr /\
  let body := contents (plAck pl) (tinyPadding pnLen (plLength pl) + pad) frames (plStreamFrames pl) in
  blen body = plLength pl + (tinyPadding pnLen (plLength pl) + pad) /\
  encryptPacket (hdr ++ body) pn (blen hdr) pnLen (suAead (ppCryptoSetup p)) = (Ok raw, suAead (ppCryptoSetup p')).

Lemma wp_appendShortHeaderPacket connID pn pnLen kp pl pad max mtu b p :
  pk_ok p -> avail Encryption1RTT (ppCryptoSetup p) = true -> numberedBy Encryption1RTT pn pnLen p -> kp <> KeyPhaseUndefined -> pl_ok pl -> 0 <= pad ->
  let len := shortLen connID pnLen pl pad in
  blen (bufData b) + len <= bufCap b -> (mtu = true \/ len <= max) ->
  wp (appendShortHeaderPacket shuffle b connID pn pnLen kp pl pad max mtu) (fun r p' => appended Encryption1RTT b r.2 len p p' /\
    spLength r.1 = len /\ exists raw, bufData r.2 = bufData b ++ raw /\ short_sealed connID pn pnLen kp pl pad mtu r.1 raw p p') (noErr _) p.
Proof.
  intros Hp Ha [Hpk [Hpn Hn]] Hkp Hpl Hpad len Hfit Hmax. unfold appendShortHeaderPacket. cbv zeta.
  pose proof (pl_ok_nonneg _ Hpl) as Hpos. destruct (tiny_range _ _ Hn Hpos) as (T1 & T2 & T3). 
  assert (Hlen' : len = ShortHeaderLen connID pnLen + plLength pl + tinyPadding pnLen (plLength pl) + pad + 16) by done.
  clearbody len. set (tiny := tinyPadding _ _) in *.
  destruct (short_layout connID pn pnLen kp Hn Hkp) as (b0 & pbs & Happ & Hpb & Hhl & _). set (hdr := (b0 :: connID) ++ pbs) in *.
  eapply wp_bind, wp_lift; [exact Happ|]. apply wp_bind.
  destruct (appendPacketPayload_spec hdr pl (tiny + pad) p Hpl ltac:(lia)) as (frames & k & Hperm & Eapp & Hlen).
  unfold wp at 1. rewrite Eapp. set (body := contents _ _ _ _) in *. destruct (rand_step k p Hp) as [Hp2 Hk2]. apply wp_bind, wp_get.
  pose proof (ko_short _ (pk_keys _ Hp) Ha) as Hao. change (suAead (ppCryptoSetup (pp_rand k p))) with (suAead (ppCryptoSetup p)).
  rewrite (ao_overhead _ Hao), blen_app.
  replace (negb mtu && _) with false.
  2:{ destruct mtu; [done|]. destruct Hmax as [|Hmax]; [done|]. symmetry. apply Z.ltb_ge. lia. }
  apply wp_bind, wp_onAead.
  destruct (encrypt_short (suAead (ppCryptoSetup p)) b0 connID pbs body pn Hao ltac:(lia) ltac:(lia)) as (out & a' & Eenc & Ha' & Hout).
  fold hdr in Eenc, Hout. rewrite Hpb in Eenc. change (suAead (ppCryptoSetup (pp_rand k p))) with (suAead (ppCryptoSetup p)). unfold wp at 1. rewrite Eenc.
  destruct (aead_step (pp_rand k p) a' Hp2 Ha') as [Hp3 Hk3]. set (p3 := pp_setup _ (pp_rand k p)) in *.
  eapply wp_bind, wp_lift; [apply extendBuffer_ok; lia|]. apply wp_bind.
  assert (Hk : forall P, steady P p p3) by (intros P; by eapply (steady_trans P P)).
  eapply wp_mono; [| |apply (wp_pop Encryption1RTT pn pnLen p3 Hp3)]; [|done|rewrite (sd_numbers _ _ _ (Hk (fun _ => True))) by done; apply Hpk].
  intros pn' p4 (-> & Hp4 & Hk4 & Ec4 & _). rewrite Z.eqb_refl. cbn [negb]. apply wp_ret.
  assert (Hol : blen out = len) by (rewrite Hout, Hhl, Hlen, Hlen'; lia). cbn [fst snd spLength bufData].
  split; [|split; [exact Hol|]].
  - split; [done|]. split; [by eapply (steady_trans (fun _ => True)); [|apply Hk|exact Hk4]|]. split; [done|]. by exists out.
  - exists out. split; [done|]. exists frames, hdr. split; [done|]. split; [done|]. split; [done|]. split; [done|]. rewrite Ec4. exact Eenc.
Qed.
End packer.
