(* ===== verification/PackerClaims.v ===== *)
(** * PackerClaims: the datagrams of the packer

    A datagram that [PackCoalescedPacket] returns is made of the packets of the
    levels that have keys; it fits, and it is padded when it has to be.  What
    [AppendPacket] writes is read back by the peer. *)

From stdpp Require Import base numbers list option strings sorting.
From S2P Require Import Prelude Protocol Varint AckFrame RTTStats TransportParams KeyUpdateClaims Frames FrameParser FrameSplit Connection CryptoStream RetransmissionQueue SendStream Headers HeaderProofs Protection ProtectionProofs KeyUpdate KeyUpdateProofs Unpacker UnpackerProofs FramerProofs CryptoSetup DatagramQueue Packer PackerProofs.
From Stdlib Require Import ZArith Lia.
#[local] Open Scope Z_scope.

Section packer.
Context {A T E : Type} `{HC : !Crypto A} `{HCL : !CryptoLaws A} `{HE : !PackerEnv E} `{HEL : !PackerEnvLaws E}.
Context (shuffle : nat -> list packFrame -> list packFrame) (Hshuffle : forall n l, Permutation (shuffle n l) l).
Implicit Types p : packetPacker A T E.

(** ** Choosing the frames *)

(** What goes into a long header packet, and the size of that packet. *)
Definition chosen (lvl : EncryptionLevel) (v room : Z) p (hdr : option ExtendedHeader) (pl : payload) (size : Z) : Prop :=
  pl_ok pl /\ 0 <= size <= room /\ (plLength pl = 0 -> size = 0) /\
  (0 < plLength pl -> avail lvl (ppCryptoSetup p) = true /\ exists h n, hdr = Some h /\ header_for lvl v p h /\ GetLength h = Ok n /\
    size = n + plLength pl + tinyPadding (ehPacketNumberLen h) (plLength pl) + 16).

Lemma nothing_chosen lvl v room p hdr : 0 <= room -> chosen lvl v room p hdr noPayload 0.
Proof. intros Hr. split; [apply noPayload_ok|]. split; [lia|]. split; [done|]. cbn. lia. Qed.

Lemma chosen_steady (P : EncryptionLevel -> Prop) lvl v room p p' hdr pl size : steady P p p' -> P lvl -> chosen lvl v room p hdr pl size -> chosen lvl v room p' hdr pl size.
Proof.
  intros Hk Hl (H1 & H2 & H3 & H4). split; [done|]. split; [done|]. split; [done|]. intros H5. destruct (H4 H5) as (Ha & h & n & Hh & Hf & Hr).
  split; [by rewrite (sd_avail _ _ _ Hk)|]. exists h, n. split; [done|]. split; [by eapply header_steady|done].
Qed.

(** A part that fits without its tag. *)
Lemma part_chosen lvl v room p hdr pl : part_ok lvl v (room - 16) p (hdr, pl) -> 0 <= room -> avail lvl (ppCryptoSetup p) = true ->
  exists size, longSize hdr pl 16 = Ok size /\ chosen lvl v room p hdr pl size.
Proof.
  intros [Hpl Hpart] Hr Ha. cbn [fst snd] in *. pose proof (pl_ok_nonneg _ Hpl) as Hpos. unfold longSize.
  destruct (Z.ltb_spec 0 (plLength pl)) as [Hlt|Hge].
  - destruct (Hpart Hlt) as (h & n & -> & Hh & Hg & Hn & Hfit & H4). pose proof (hf_pnLen _ _ _ _ Hh) as Hpn.
    destruct (tiny_range _ _ Hpn Hpos) as (T1 & T2 & T3). unfold nilDeref, longHeaderPacketLength. cbn [from_option mbind res_bind]. rewrite Hg. cbn [mbind res_bind].
    eexists. split; [reflexivity|]. split; [done|]. split; [lia|]. split; [lia|]. intros _. split; [done|]. by exists h, n.
  - exists 0. split; [done|]. split; [done|]. split; [lia|]. split; [done|]. lia.
Qed.

Lemma crypto_typed lvl : crypto_level lvl -> exists typ, typeOfLevel lvl = Some typ.
Proof. intros [-> | ->]; by eexists. Qed.

Lemma wp_getCryptoPart lvl allowed room onlyAck ackAllowed v p :
  pk_ok p -> version_ok v -> is_varint (blen (ppToken p)) -> crypto_level lvl -> (avail lvl (ppCryptoSetup p) = true -> numbered lvl (ppEnv p)) ->
  (forall e, longSealerAt lvl (ppCryptoSetup p) = Err e -> e ∈ allowed) -> room <= MaxPacketBufferSize ->
  88 + tokenLen lvl p + (if onlyAck || ackAllowed then env_maxAck else 0) <= room ->
  wp (getCryptoPart lvl allowed room onlyAck ackAllowed v) (fun r p' => pk_ok p' /\ kept p p' /\ chosen lvl v room p r.1.1 r.1.2 r.2) (noErr _) p.
Proof.
  intros Hp Hv Htok Hl Hn Hall Hmax Hroom. unfold getCryptoPart, MaxPacketBufferSize in *. apply wp_bind, wp_get. pose proof env_maxAck_nonneg.
  assert (0 <= tokenLen lvl p) by (unfold tokenLen; case_decide; [apply blen_nonneg|done]).
  assert (0 <= room) by (destruct (onlyAck || ackAllowed); lia).
  destruct (longSealerAt lvl (ppCryptoSetup p)) as [s|e|m] eqn:Es.
  - eapply wp_bind, wp_lift; [done|]. apply wp_bind. pose proof (sealer_avail _ _ _ Es) as Ha.
    assert (Ho : seal_Overhead s = 16) by apply aead_overhead. rewrite Ho.
    eapply wp_mono; [| |apply wp_maybeGetCryptoPacket; try done; [by apply Hn|lia|lia]]; [|done].
    intros [hdr pl] p1 (Hp1 & Hk1 & Hpart). destruct (part_chosen lvl v room p hdr pl Hpart) as (size & Esz & Hc); [lia|done|].
    eapply wp_bind, wp_lift; [exact Esz|]. by apply wp_ret.
  - apply wp_bind. unfold unlessKeys. rewrite decide_True by (by apply Hall). eapply wp_lift; [done|]. apply wp_ret.
    split; [done|]. split; [apply kept_refl|]. by apply nothing_chosen.
  - exfalso. unfold longSealerAt, GetInitialSealer, GetHandshakeSealer, keyOr in Es. destruct Hl as [-> | ->]; by repeat case_match.
Qed.

Lemma sealer_missing lvl (c : cryptoSetup A T) e : longSealerAt lvl c = Err e -> e ∈ noKeys /\ (lvl = EncryptionInitial -> e = ErrKeysDropped).
Proof.
  unfold longSealerAt, GetInitialSealer, GetHandshakeSealer, Get0RTTSealer, keyOr, noKeys. intros Es.
  split; [|intros ->]; repeat case_match; simplify_eq; done || (constructor 1) || (constructor 2; constructor 1).
Qed.

(** The packet with application data: 0-RTT or 1-RTT. *)
Definition app_chosen (v room : Z) p (a : appPacket) (size : Z) : Prop :=
  match a with
  | NoAppPacket => size = 0 /\ 0 <= room
  | ZeroRTTPacket hdr pl => chosen Encryption0RTT v room p hdr pl size /\ avail Encryption0RTT (ppCryptoSetup p) = true
  | OneRTTPacket connID pn pnLen kp pl =>
      pl_ok pl /\ avail Encryption1RTT (ppCryptoSetup p) = true /\ numberedBy Encryption1RTT pn pnLen p /\ kp <> KeyPhaseUndefined /\
      0 <= size <= room /\ size = if 0 <? plLength pl then shortLen connID pnLen pl 0 else 0
  end.

Lemma app_steady (P : EncryptionLevel -> Prop) v room p p' a size : steady P p p' -> P Encryption1RTT -> P Encryption0RTT ->
  app_chosen v room p a size -> app_chosen v room p' a size.
Proof.
  intros Hk H1 H0. destruct a; [done| |]; cbn [app_chosen].
  - intros [Hc Ha]. split; [by eapply chosen_steady|by rewrite (sd_avail _ _ _ Hk)].
  - intros (Ha & Hb & Hc & Hd & He). split_and!; try done; [by rewrite (sd_avail _ _ _ Hk)|by eapply numberedBy_steady|apply He..].
Qed.

Lemma KeyPhase_Bit_defined k : KeyPhase_Bit k <> KeyPhaseUndefined.
Proof. unfold KeyPhase_Bit. by case_match. Qed.

(** With 1-RTT keys. *)
Lemma wp_get1RTT room onlyAck ackAllowed p s :
  pk_ok p -> Get1RTTSealer (ppCryptoSetup p) = Ok s -> numbered Encryption1RTT (ppEnv p) -> may_update (suAead (ppCryptoSetup p)) ->
  128 <= room <= MaxPacketBufferSize -> (if onlyAck || ackAllowed then env_maxAck + 42 else 0) <= room ->
  forall v, wp (kp ← onSetup (onAead ua_KeyPhase);
      connID ← onEnv getDestConnID;
      p ← get;
      '(pn, pnLen) ← lift (PeekPacketNumber Encryption1RTT (ppEnv p));
      pl ← maybeGetShortHeaderPacket (uAeadOverhead s) (ShortHeaderLen connID pnLen) room onlyAck ackAllowed;
      mret (OneRTTPacket connID pn pnLen kp pl))
    (fun a p' => pk_ok p' /\ (forall P, steady P p p') /\ exists size, app_chosen v room p' a size) (noErr _) p.
Proof.
  intros Hp Hs Hn Hup Hroom Hack v. unfold MaxPacketBufferSize in *. unfold Get1RTTSealer in Hs. destruct (suHas1RTTSealer (ppCryptoSetup p)) eqn:Ha; [|done].
  injection Hs as <-. rewrite (ao_overhead _ (ko_short _ (pk_keys _ Hp) Ha)). apply wp_bind.
  eapply wp_mono; [| |by apply wp_KeyPhase]; [|done]. intros kp p1 (Hp1 & Hk1 & -> & _). apply wp_bind.
  eapply wp_mono; [| |apply (wp_env_step _ (fun id => blen id <= MaxConnIDLen)); [exact Hp1|apply env_dest, Hp1]]; [|done].
  intros connID p2 (Hp2 & Hk2 & _ & Hid). apply wp_bind, wp_get, wp_bind.
  destruct Hn as (pn & n & Hpk & Hpn & Hnn).
  assert (Hs2 : forall P, steady P p p2) by (intros P; eapply (steady_trans P P); [by split|done|by apply kept_steady]).
  assert (Hpk2 : env_number Encryption1RTT (ppEnv p2) = Some (pn, n)) by (by rewrite (sd_numbers _ _ _ (Hs2 (fun _ => True)))).
  eapply wp_lift; [apply env_peek; [apply Hp2|exact Hpk2]|]. apply wp_bind. unfold maybeGetShortHeaderPacket.
  assert (Hsl : ShortHeaderLen connID n = 1 + blen connID + n) by done. unfold MaxConnIDLen in Hid. pose proof (blen_nonneg connID).
  eapply wp_mono; [| |apply wp_maybeGetAppDataPacket; [done|unfold MaxPacketBufferSize; lia|destruct (onlyAck || ackAllowed); lia]]; [|done].
  intros pl p3 (Hp3 & Hk3 & Hpl & Hle). apply wp_ret. split; [done|].
  assert (Hs3 : forall P, steady P p p3) by (intros P; eapply (steady_trans P P); [by split|apply Hs2|by apply kept_steady]). split; [done|].
  exists (if 0 <? plLength pl then shortLen connID n pl 0 else 0). cbn [app_chosen]. pose proof (pl_ok_nonneg _ Hpl) as Hpos.
  destruct (tiny_range _ _ Hnn Hpos) as (T1 & T2 & T3).
  split; [done|]. split; [by rewrite (sd_avail _ _ _ (Hs3 (fun _ => True)))|].
  split; [by split; [rewrite (sd_numbers _ _ _ (Hs3 (fun _ => True)))|]|]. split; [apply KeyPhase_Bit_defined|]. split; [|done].
  destruct (Z.ltb_spec 0 (plLength pl)); unfold shortLen, shortHeaderPacketLength; lia.
Qed.

(** With 0-RTT keys. *)
Lemma wp_get0RTT room v p s :
  pk_ok p -> version_ok v -> is_varint (blen (ppToken p)) -> Get0RTTSealer (ppCryptoSetup p) = Ok s -> numbered Encryption0RTT (ppEnv p) ->
  128 <= room <= MaxPacketBufferSize ->
  wp ('(hdr, pl) ← maybeGetAppDataPacketFor0RTT (seal_Overhead s) room v; mret (ZeroRTTPacket hdr pl))
    (fun a p' => pk_ok p' /\ (forall P, steady P p p') /\ exists size, app_chosen v room p' a size) (noErr _) p.
Proof.
  intros Hp Hv Htok Hs Hn Hroom. unfold MaxPacketBufferSize in *. pose proof (sealer_avail Encryption0RTT _ _ Hs) as Ha.
  assert (Ho : seal_Overhead s = 16) by apply aead_overhead. rewrite Ho. apply wp_bind.
  apply (wp_mono _ (fun r p' => pk_ok p' /\ kept p p' /\ part_ok Encryption0RTT v (room - 16) p r) _ (noErr _)); [|done|].
  - intros [hdr pl] p1 (Hp1 & Hk1 & Hpart). apply wp_ret. split; [done|]. assert (Hst : forall P, steady P p p1) by (intros P; by apply kept_steady).
    split; [done|]. destruct (part_chosen _ v room p hdr pl Hpart) as (size & _ & Hc); [lia|done|]. exists size.
    split; [by eapply (chosen_steady (fun _ => True))|by rewrite (sd_avail _ _ _ (Hst (fun _ => True)))].
  - unfold maybeGetAppDataPacketFor0RTT. apply wp_bind, wp_get. case_bool_decide; cbn [negb].
    2:{ apply wp_ret. split; [done|]. split; [apply kept_refl|]. apply noPart. }
    apply wp_bind. eapply wp_mono; [| |by apply wp_getLongHeader]; [|done]. intros h p1 (Hp1 & Hk1 & _ & Hh).
    destruct (header_length Encryption0RTT v p h PacketType0RTT Hp Hv Htok Hh eq_refl) as (n & Hg & Hnr). rewrite decide_False in Hnr by done.
    eapply wp_bind, wp_lift; [exact Hg|]. apply wp_bind.
    eapply wp_mono; [| |apply wp_maybeGetAppDataPacket; [done|unfold MaxPacketBufferSize; lia|cbn; lia]]; [|done].
    intros pl p2 (Hp2 & Hk2 & Hpl & Hle). apply wp_ret. split; [done|]. split; [by eapply kept_trans|]. split; [done|]. intros _.
    exists h, n. cbn [fst snd]. split_and!; [done|done|done|lia|lia|lia].
Qed.

Lemma wp_getAppPart room onlyAck ackAllowed v p :
  pk_ok p -> version_ok v -> is_varint (blen (ppToken p)) -> (forall lvl, avail lvl (ppCryptoSetup p) = true -> numbered lvl (ppEnv p)) ->
  (avail Encryption1RTT (ppCryptoSetup p) = true -> may_update (suAead (ppCryptoSetup p))) ->
  128 <= room <= MaxPacketBufferSize -> (if onlyAck || ackAllowed then env_maxAck + 42 else 0) <= room ->
  wp (getAppPart room onlyAck ackAllowed v)
    (fun a p' => pk_ok p' /\ (forall P, steady P p p') /\ exists size, app_chosen v room p' a size) (noErr _) p.
Proof.
  intros Hp Hv Htok Hn Hup Hroom Hack. unfold getAppPart. apply wp_bind, wp_get, wp_bind.
  assert (Hnone : wp (mret NoAppPacket) (fun a p' => pk_ok p' /\ (forall P, steady P p p') /\ exists size, app_chosen v room p' a size) (noErr _) p).
  { apply wp_ret. split; [done|]. split; [intros P; apply kept_steady, kept_refl|]. exists 0. split; [done|lia]. }
  destruct (suHas1RTTSealer (ppCryptoSetup p)) eqn:Ha.
  - apply (wp_lift (Some (suAead (ppCryptoSetup p)))); [unfold Get1RTTSealer; by rewrite Ha|].
    apply wp_get1RTT; try done; [unfold Get1RTTSealer; by rewrite Ha|by apply Hn|by apply Hup].
  - apply (wp_lift None); [unfold Get1RTTSealer; by rewrite Ha|]. destruct (_ && _); [|done]. apply wp_bind.
    destruct (Get0RTTSealer (ppCryptoSetup p)) as [s|e|m] eqn:Es.
    + eapply wp_lift; [done|]. apply wp_get0RTT; try done. apply Hn. by apply (sealer_avail Encryption0RTT _ s).
    + apply (wp_lift None); [|done]. unfold unlessKeys. rewrite decide_True; [done|]. by apply (sealer_missing Encryption0RTT (ppCryptoSetup p)).
    + unfold Get0RTTSealer, keyOr in Es. by case_match.
Qed.

Lemma appSize_chosen v room p a size : app_chosen v room p a size -> pk_ok p -> appSize a p = (Ok size, p).
Proof.
  intros Hc Hp. unfold appSize. rewrite run_get. destruct a as [|hdr pl|connID pn pnLen kp pl]; cbn [app_chosen] in Hc.
  - by destruct Hc as [-> _].
  - destruct Hc as [(Hpl & Hr & H0 & Hpos) Ha]. cbn in Ha. apply bool_decide_eq_true in Ha as [s Es]. rewrite Es.
    assert (Ho : seal_Overhead s = 16) by apply aead_overhead. rewrite Ho. unfold longSize. pose proof (pl_ok_nonneg _ Hpl).
    destruct (Z.ltb_spec 0 (plLength pl)) as [Hlt|Hge]; [|rewrite H0 by lia; done].
    destruct (Hpos Hlt) as (_ & h & n & -> & _ & Hg & ->). unfold nilDeref, longHeaderPacketLength. cbn [from_option mbind res_bind]. by rewrite Hg.
  - destruct Hc as (_ & Ha & _ & _ & _ & ->). rewrite (ao_overhead _ (ko_short _ (pk_keys _ Hp) Ha)). unfold shortLen. destruct (0 <? plLength pl); [|done].
    by rewrite Z.add_0_r.
Qed.

(** ** Appending the packets *)

(** The bytes that the packets of a datagram announce. *)
Definition packetsLen (packet : coalescedPacket) : Z :=
  foldr (fun lp n => lpLength lp + n) 0 (cpLongHdrPackets packet) + from_option spLength 0 (cpShortHdrPacket packet).

Definition datagram_ok (packet : coalescedPacket) (len : Z) : Prop :=
  bufCap (cpBuffer packet) = MaxPacketBufferSize /\ blen (bufData (cpBuffer packet)) = len /\ packetsLen packet = len.

(** The Initial packets elicit an ACK only if the given frames do. *)
Definition initials_from (frames : list packFrame) (packet : coalescedPacket) : Prop :=
  Forall (fun lp => hType (ehHeader (lpHeader lp)) = Some PacketTypeInitial -> Permutation (lpFrames lp) frames) (cpLongHdrPackets packet).

Lemma sum_snoc lps lp : foldr (fun lp n => lpLength lp + n) 0 (lps ++ [lp]) = foldr (fun lp n => lpLength lp + n) 0 lps + lpLength lp.
Proof. induction lps; cbn; lia. Qed.

Definition partLen (pl : payload) (n : Z) : Z := if 0 <? plLength pl then n else 0.

Lemma wp_appendCryptoPart lvl typ hdr pl pad v room packet size len fs p :
  pk_ok p -> version_ok v -> is_varint (blen (ppToken p)) -> typeOfLevel lvl = Some typ -> chosen lvl v room p hdr pl size -> 0 <= pad ->
  datagram_ok packet len -> cpShortHdrPacket packet = None -> initials_from fs packet -> (typ = PacketTypeInitial -> fs = plFrames pl) ->
  len + partLen pl (size + pad) <= MaxPacketBufferSize ->
  wp (appendCryptoPart shuffle lvl hdr pl pad v packet) (fun packet' p' => pk_ok p' /\ steady (fun l => space_of l <> space_of lvl) p p' /\
    datagram_ok packet' (len + partLen pl (size + pad)) /\ cpShortHdrPacket packet' = None /\ initials_from fs packet' /\
    (typ <> PacketTypeInitial -> forall lp, In lp (cpLongHdrPackets packet') -> In lp (cpLongHdrPackets packet) \/ hType (ehHeader (lpHeader lp)) <> Some PacketTypeInitial) /\
    (plLength pl = 0 -> cpLongHdrPackets packet' = cpLongHdrPackets packet)) (noErr _) p.
Proof.
  intros Hp Hv Htok Ht (Hpl & Hsz & H0 & Hpos) Hpad (Hcap & Hdata & Hsum) Hshort Hini Hfs Hfit. unfold appendCryptoPart, partLen in *.
  destruct (Z.ltb_spec 0 (plLength pl)) as [Hlt|Hge].
  2:{ apply wp_ret. split; [done|]. split; [apply kept_steady, kept_refl|]. rewrite Z.add_0_r. split; [done|]. split; [done|]. split; [done|]. split; [|done].
      intros _ lp Hlp. by left. }
  destruct (Hpos Hlt) as (Ha & h & n & -> & Hh & Hg & Esz). eapply wp_bind, wp_lift; [done|]. apply wp_bind.
  eapply wp_mono; [| |eapply (wp_appendLongHeaderPacket _ Hshuffle lvl v p h n pl pad (cpBuffer packet) typ); try done]; [|done|lia|by rewrite Hcap].
  intros [lp b] p1 ((Hp1 & Hk1 & Hcap1 & raw & Eraw & Hraw) & Hlen & Hty & Hperm & _). cbn [fst snd] in *. apply wp_ret.
  split; [done|]. split; [done|]. split_and!; cbn [cpBuffer cpLongHdrPackets cpShortHdrPacket]; [|done| | |].
  - split; [by cbn; rewrite Hcap1|]. split; [cbn [cpBuffer]; rewrite Eraw, blen_app; lia|].
    unfold packetsLen in *. cbn [cpLongHdrPackets cpShortHdrPacket]. rewrite sum_snoc. lia.
  - apply Forall_app. split; [done|]. apply Forall_singleton. intros Ei. rewrite Hfs; [done|congruence].
  - intros Hne lp'. rewrite in_app_iff. intros [?|[<-|[]]]; [by left|right; congruence].
  - lia.
Qed.

Lemma wp_appendAppPart a v room packet size len max fs p :
  pk_ok p -> version_ok v -> is_varint (blen (ppToken p)) -> app_chosen v room p a size ->
  datagram_ok packet len -> cpShortHdrPacket packet = None -> initials_from fs packet -> len + size <= max <= MaxPacketBufferSize -> 0 <= len ->
  wp (appendAppPart shuffle a max v packet) (fun packet' p' => pk_ok p' /\ datagram_ok packet' (len + size) /\ initials_from fs packet' /\
    (forall lp, In lp (cpLongHdrPackets packet') -> In lp (cpLongHdrPackets packet) \/ hType (ehHeader (lpHeader lp)) <> Some PacketTypeInitial)) (noErr _) p.
Proof.
  intros Hp Hv Htok Hc Hd Hshort Hini Hfit Hlen0. unfold appendAppPart. destruct a as [|hdr pl|connID pn pnLen kp pl]; cbn [app_chosen] in Hc.
  - destruct Hc as [-> _]. apply wp_ret. rewrite Z.add_0_r. split; [done|]. split; [done|]. split; [done|]. by left.
  - destruct Hc as [Hc Ha]. pose proof Hc as (Hpl & Hsz & H0 & _). pose proof (pl_ok_nonneg _ Hpl).
    assert (Epl : partLen pl (size + 0) = size) by (unfold partLen; destruct (Z.ltb_spec 0 (plLength pl)); [lia|rewrite H0; lia]).
    eapply wp_mono; [| |apply (wp_appendCryptoPart Encryption0RTT PacketType0RTT hdr pl 0 v room packet size len fs p); done || lia]; [|done].
    intros packet' p' (Hp' & _ & Hd' & _ & Hi' & Hlp & _). rewrite Epl in Hd'. split; [done|]. split; [done|]. split; [done|]. by apply Hlp.
  - destruct Hc as (Hpl & Ha & Hn & Hkp & Hr & Esz). destruct (0 <? plLength pl).
    2:{ subst size. apply wp_ret. rewrite Z.add_0_r. split; [done|]. split; [done|]. split; [done|]. by left. }
    destruct Hd as (Hcap & Hdata & Hsum). apply wp_bind.
    eapply wp_mono; [| |apply (wp_appendShortHeaderPacket _ Hshuffle connID pn pnLen kp pl 0 max false (cpBuffer packet) p); try done]; [|done|lia|right; lia].
    intros [shp b] p1 ((Hp1 & _ & Hcap1 & raw & Eraw & Hraw) & Hlen & _). cbn [fst snd] in *. apply wp_ret. split; [done|].
    split; [|split; [done|by left]]. split; [by cbn; rewrite Hcap1|]. split; [cbn [cpBuffer]; rewrite Eraw, blen_app; lia|].
    unfold packetsLen in *. rewrite Hshort in Hsum. cbn [cpLongHdrPackets cpShortHdrPacket from_option] in *. lia.
Qed.

(** ** Whole datagrams *)

(** A packer that can send a datagram of [max] bytes. *)
Record can_pack (max v : Z) p : Prop := {
  cp_ok : pk_ok p;
  cp_version : version_ok v;
  cp_max : 1200 <= max <= MaxPacketBufferSize;
  cp_room : 88 + blen (ppToken p) + env_maxAck <= max;
  cp_numbered lvl : avail lvl (ppCryptoSetup p) = true -> numbered lvl (ppEnv p);
  cp_update : avail Encryption1RTT (ppCryptoSetup p) = true -> may_update (suAead (ppCryptoSetup p))
}.

Lemma can_pack_token max v p : can_pack max v p -> is_varint (blen (ppToken p)).
Proof.
  intros [_ _ Hm Hr _ _]. pose proof env_maxAck_nonneg. pose proof (blen_nonneg (ppToken p)). unfold is_varint, maxVarInt8, MaxPacketBufferSize in *. lia.
Qed.

Lemma can_pack_kept max v p p' : can_pack max v p -> pk_ok p' -> kept p p' -> can_pack max v p'.
Proof.
  intros [H1 H2 H3 H4 H5 H6] Hp' Hk. constructor; try done; rewrite ?(kt_token _ _ Hk), ?(kt_setup _ _ Hk); try done.
  intros lvl Ha. eapply kept_numbered; [done|]. by apply H5.
Qed.

Lemma eliciting_perm fs gs : Permutation fs gs -> HasAckElicitingFrames fs = HasAckElicitingFrames gs.
Proof.
  unfold HasAckElicitingFrames. induction 1; cbn [existsb]; [done|by rewrite IHPermutation| |congruence].
  by destruct (IsFrameAckEliciting (pfFrame x)), (IsFrameAckEliciting (pfFrame y)).
Qed.

Lemma tokenLen_le lvl p : 0 <= tokenLen lvl p <= blen (ppToken p).
Proof. unfold tokenLen. pose proof (blen_nonneg (ppToken p)). case_decide; lia. Qed.

(** What the first half of [PackCoalescedPacket] has chosen. *)
Record choice (max v : Z) p (ihdr : option ExtendedHeader) (ipl : payload) (isz : Z) (hhdr : option ExtendedHeader) (hpl : payload) (hsz : Z)
    (app : appPacket) (asz : Z) : Prop := {
  ch_initial : chosen EncryptionInitial v max p ihdr ipl isz;
  ch_handshake : chosen EncryptionHandshake v (max - isz) p hhdr hpl hsz;
  ch_app : app_chosen v (max - isz - hsz) p app asz
}.

Definition more (onlyAck : bool) (max size : Z) : bool :=
  (onlyAck && (size =? 0)) || (negb onlyAck && (size <? max - MinCoalescedPacketSize)).

(** There is room for another packet, and for the ACK frame if the datagram is still empty. *)
Lemma more_room onlyAck max size : more onlyAck max size = true -> 0 <= size -> 1200 <= max -> 128 <= max - size /\
  (onlyAck || (size =? 0) = true -> size = 0).
Proof.
  unfold more, MinCoalescedPacketSize. intros Hm H0 Hmax. destruct onlyAck; cbn [negb andb orb] in *.
  - rewrite orb_false_r in Hm. apply Z.eqb_eq in Hm. lia.
  - apply Z.ltb_lt in Hm. split; [lia|]. apply Z.eqb_eq.
Qed.

Lemma chosen_nonneg lvl v room p hdr pl size : chosen lvl v room p hdr pl size -> 0 <= size <= room.
Proof. by intros (_ & ? & _). Qed.

Lemma app_nonneg v room p a size : app_chosen v room p a size -> 0 <= size <= room.
Proof. destruct a; cbn [app_chosen]; [lia|intros [Hc _]; by eapply chosen_nonneg|tauto]. Qed.

Lemma wp_handshakePart onlyAck max v isz p : can_pack max v p -> 0 <= isz <= max ->
  wp (if more onlyAck max isz then getCryptoPart EncryptionHandshake noKeys (max - isz) onlyAck (isz =? 0) v else mret (None, noPayload, 0))
    (fun r p' => pk_ok p' /\ kept p p' /\ chosen EncryptionHandshake v (max - isz) p r.1.1 r.1.2 r.2) (noErr _) p.
Proof.
  intros Hc Hi. pose proof (can_pack_token _ _ _ Hc) as Htok. destruct Hc as [Hp Hv Hm Hr Hn Hu].
  destruct (more onlyAck max isz) eqn:Em.
  2:{ apply wp_ret. split; [done|]. split; [apply kept_refl|]. apply nothing_chosen. lia. }
  destruct (more_room _ _ _ Em) as [H128 H0]; [lia|lia|]. pose proof env_maxAck_nonneg. pose proof (tokenLen_le EncryptionInitial p).
  apply wp_getCryptoPart; try done; [by right|by apply Hn| |lia|].
  - intros e He. by apply (sealer_missing EncryptionHandshake (ppCryptoSetup p)).
  - unfold tokenLen. rewrite decide_False by done. destruct (onlyAck || _); [rewrite H0 in * by done|]; pose proof (blen_nonneg (ppToken p)); lia.
Qed.

Lemma wp_appPart onlyAck max v size p : can_pack max v p -> 0 <= size <= max ->
  wp (if more onlyAck max size then getAppPart (max - size) onlyAck (size =? 0) v else mret NoAppPacket)
    (fun a p' => pk_ok p' /\ (forall P, steady P p p') /\ exists asz, app_chosen v (max - size) p' a asz) (noErr _) p.
Proof.
  intros Hc Hi. pose proof (can_pack_token _ _ _ Hc) as Htok. destruct Hc as [Hp Hv Hm Hr Hn Hu].
  destruct (more onlyAck max size) eqn:Em.
  2:{ apply wp_ret. split; [done|]. split; [intros P; apply kept_steady, kept_refl|]. exists 0. split; [done|lia]. }
  destruct (more_room _ _ _ Em) as [H128 H0]; [lia|lia|]. pose proof env_maxAck_nonneg. pose proof (blen_nonneg (ppToken p)).
  apply wp_getAppPart; try done; [lia|]. destruct (onlyAck || _); [rewrite H0 in * by done|]; lia.
Qed.

Lemma padding_range frames size max p : size <= max ->
  0 <= initialPaddingLen frames size max p /\ size + initialPaddingLen frames size max p <= max /\
  (ppPerspective p = PerspectiveClient \/ HasAckElicitingFrames frames = true -> size + initialPaddingLen frames size max p = max).
Proof.
  intros Hs. unfold initialPaddingLen. destruct (Z.leb_spec max size).
  - replace (if (_ : bool) then 0 else 0) with 0 by (by case_match). lia.
  - destruct (bool_decide _ && _) eqn:Eb; [|lia]. split_and!; [lia|lia|]. apply andb_true_iff in Eb as [Es Hn]. apply bool_decide_eq_true in Es.
    apply negb_true_iff in Hn. intros [He|He]; congruence.
Qed.

Lemma partLen_chosen lvl v room p hdr pl size pad : chosen lvl v room p hdr pl size -> 0 <= pad ->
  size <= partLen pl (size + pad) <= size + pad /\ (pad = 0 -> partLen pl (size + pad) = size).
Proof.
  intros (Hpl & Hr & H0 & _) Hp. unfold partLen. pose proof (pl_ok_nonneg _ Hpl). destruct (Z.ltb_spec 0 (plLength pl)); [lia|].
  assert (size = 0) by (apply H0; lia). lia.
Qed.

(** What a datagram of at most [max] bytes looks like. *)
Definition fitting (max : Z) p (packet : coalescedPacket) : Prop :=
  blen (bufData (cpBuffer packet)) = packetsLen packet /\ packetsLen packet <= max /\
  forall lp, In lp (cpLongHdrPackets packet) -> hType (ehHeader (lpHeader lp)) = Some PacketTypeInitial ->
    ppPerspective p = PerspectiveClient \/ lp_IsAckEliciting lp = true -> packetsLen packet = max.

Lemma wp_appendChoice max v p ihdr ipl isz hhdr hpl hsz app asz :
  pk_ok p -> version_ok v -> is_varint (blen (ppToken p)) -> max <= MaxPacketBufferSize -> choice max v p ihdr ipl isz hhdr hpl hsz app asz ->
  wp (packet ← appendCryptoPart shuffle EncryptionInitial ihdr ipl (initialPaddingLen (plFrames ipl) (isz + hsz + asz) max p) v (mkCoalesced getPacketBuffer [] None);
      packet ← appendCryptoPart shuffle EncryptionHandshake hhdr hpl 0 v packet;
      packet ← appendAppPart shuffle app max v packet;
      mret (Some packet)) (fun r p' => pk_ok p' /\ exists packet, r = Some packet /\ fitting max p packet) (noErr _) p.
Proof.
  intros Hp Hv Htok Hmax [Hi Hh Happ]. pose proof (chosen_nonneg _ _ _ _ _ _ _ Hi). pose proof (chosen_nonneg _ _ _ _ _ _ _ Hh). pose proof (app_nonneg _ _ _ _ _ Happ).
  destruct (padding_range (plFrames ipl) (isz + hsz + asz) max p) as (P1 & P2 & P3); [lia|]. set (pad := initialPaddingLen _ _ _ _) in *.
  destruct (partLen_chosen _ _ _ _ _ _ _ pad Hi P1) as [I1 _]. destruct (partLen_chosen _ _ _ _ _ _ _ 0 Hh) as [L1 L2]; [done|]. specialize (L2 eq_refl).
  apply wp_bind. eapply wp_mono; [| |eapply (wp_appendCryptoPart EncryptionInitial PacketTypeInitial ihdr ipl pad v max _ isz 0 (plFrames ipl) p); try done]; [|done|by constructor|lia].
  intros k1 p1 (Hp1 & Hk1 & Hd1 & Hn1 & Hf1 & _ & Hz1). apply wp_bind.
  assert (Htok1 : is_varint (blen (ppToken p1))) by (by rewrite (sd_token _ _ _ Hk1)).
  eapply wp_mono; [| |eapply (wp_appendCryptoPart EncryptionHandshake PacketTypeHandshake hhdr hpl 0 v (max - isz) k1 hsz _ (plFrames ipl) p1); try done]; [|done| |lia].
  2:{ by eapply (chosen_steady _ EncryptionHandshake). }
  intros k2 p2 (Hp2 & Hk2 & Hd2 & Hn2 & Hf2 & Hl2 & _). apply wp_bind.
  assert (Hk : steady (fun l => space_of l = Encryption1RTT) p p2) by (eapply steady_trans; [|exact Hk1|exact Hk2]; by intros []).
  eapply wp_mono; [| |eapply (wp_appendAppPart app v (max - isz - hsz) k2 asz _ max (plFrames ipl) p2); try done]; [|done| | |lia|lia].
  2:{ by rewrite (sd_token _ _ _ Hk). }
  2:{ by eapply app_steady. }
  intros k3 p3 (Hp3 & (Hc3 & Hd3 & Hs3) & Hf3 & Hl3). apply wp_ret. split; [done|]. exists k3. split; [done|].
  split; [congruence|]. split; [lia|]. intros lp Hlp Hty Hel.
  assert (Hlp1 : In lp (cpLongHdrPackets k1)) by (destruct (Hl3 lp Hlp) as [H3|]; [destruct (Hl2 ltac:(done) lp H3); done|done]).
  assert (Hpl : 0 < plLength ipl).
  { destruct Hi as (Hpl & _). pose proof (pl_ok_nonneg _ Hpl). assert (plLength ipl <> 0); [|lia]. intros E0. rewrite (Hz1 E0) in Hlp1. done. }
  assert (Ei : partLen ipl (isz + pad) = isz + pad) by (unfold partLen; by ztrue (0 <? plLength ipl)).
  rewrite Hs3, Ei, L2. rewrite <- P3; [lia|]. destruct Hel as [|Hel]; [by left|]. right. rewrite <- Hel. unfold lp_IsAckEliciting.
  unfold initials_from in Hf1. rewrite List.Forall_forall in Hf1. symmetry. apply eliciting_perm. by apply Hf1.
Qed.

(** C10: A datagram that [PackCoalescedPacket] puts together fits: with packet
    numbers for the levels that have keys, and with a maximum size that has room for
    the largest header and ACK frame, packing never panics and never reports one of
    the packer's own errors; the buffer holds the packets back to back, at most
    [max] bytes of them; and a datagram with an Initial packet that a client sends,
    or that elicits an ACK, is padded to exactly [max] bytes. *)
Theorem packed_datagram_fits onlyAck max v p : can_pack max v p ->
  wp (PackCoalescedPacket shuffle onlyAck max v) (fun r p' => pk_ok p' /\ forall packet, r = Some packet -> fitting max p packet) (noErr _) p.
Proof.
  intros Hc. pose proof (can_pack_token _ _ _ Hc) as Htok. pose proof Hc as [Hp Hv Hm Hr Hn Hu]. unfold PackCoalescedPacket. cbv zeta. apply wp_bind.
  pose proof (tokenLen_le EncryptionInitial p).
  eapply wp_mono; [| |apply wp_getCryptoPart; try done; [by left|by apply Hn| |lia|rewrite orb_true_r; lia]]; [|done|].
  2:{ intros e He. destruct (sealer_missing EncryptionInitial (ppCryptoSetup p) e He) as [_ ->]; [|done]. constructor. }
  intros [[ihdr ipl] isz] p1 (Hp1 & Hk1 & Hi). cbn [fst snd] in Hi. apply wp_bind. pose proof (chosen_nonneg _ _ _ _ _ _ _ Hi) as Hisz.
  pose proof (can_pack_kept _ _ _ _ Hc Hp1 Hk1) as Hc1.
  eapply wp_mono; [| |apply (wp_handshakePart onlyAck max v isz p1 Hc1); lia]; [|done].
  intros [[hhdr hpl] hsz] p2 (Hp2 & Hk2 & Hh). cbn [fst snd] in Hh. apply wp_bind. pose proof (chosen_nonneg _ _ _ _ _ _ _ Hh) as Hhsz.
  eapply wp_mono; [| |apply (wp_appPart onlyAck max v (isz + hsz) p2 (can_pack_kept _ _ _ _ Hc1 Hp2 Hk2)); lia]; [|done].
  intros app p3 (Hp3 & Hk3 & asz & Ha). apply wp_bind. unfold wp at 1. rewrite (appSize_chosen _ _ _ _ _ Ha Hp3).
  destruct (_ && _ && _); [by apply wp_ret|]. apply wp_bind, wp_get.
  assert (Hs : forall P, steady P p p3).
  { intros P. eapply (steady_trans P P); [by split|by apply kept_steady|]. eapply (steady_trans P P); [by split|by apply kept_steady|done]. }
  eapply wp_mono; [| |apply (wp_appendChoice max v p3 ihdr ipl isz hhdr hpl hsz app asz); try done]; [|done| |lia|].
  - intros r p' (Hp' & packet & -> & Hf). split; [done|]. intros ? [= <-]. destruct Hf as (F1 & F2 & F3). split; [done|]. split; [done|].
    by rewrite <- (sd_pers _ _ _ (Hs (fun _ => True))).
  - by rewrite (sd_token _ _ _ (Hs (fun _ => True))).
  - constructor; [by apply (chosen_steady _ _ _ _ _ _ _ _ _ (Hs (fun _ => True)))| |by rewrite Z.sub_add_distr in Ha].
    eapply (chosen_steady (fun _ => True)); [|done|exact Hh]. eapply (steady_trans (fun _ => True) (fun _ => True)); [done|by apply kept_steady|done].
Qed.
End packer.

(** ** What the peer reads *)

(** The frames in the order of the packet; the padding is in front of the first
    frame that is no ACK. *)
Definition layout (ack : option AckFrame) (pad : Z) (fs : list wireFrame) : list (nat * wireFrame) :=
  option_list ((fun a => (0%nat, FAck a)) <$> ack) ++
  match fs with [] => [] | f :: fs' => (Z.to_nat pad, f) :: (pair 0%nat <$> fs') end.

Lemma payload_plain fs : Connection.payload (pair 0%nat <$> fs) = framesBytes fs.
Proof. unfold Connection.payload, framesBytes. by rewrite <- list_fmap_compose. Qed.

Lemma payload_app fs gs : Connection.payload (fs ++ gs) = Connection.payload fs ++ Connection.payload gs.
Proof. unfold Connection.payload. by rewrite fmap_app, concat_app. Qed.

Lemma framesBytes_app fs gs : framesBytes (fs ++ gs) = framesBytes fs ++ framesBytes gs.
Proof. unfold framesBytes. by rewrite fmap_app, concat_app. Qed.

Lemma layout_frames ack pad fs : (layout ack pad fs).*2 = option_list (FAck <$> ack) ++ fs.
Proof.
  unfold layout. rewrite fmap_app. destruct ack, fs; cbn; try done; do 2 f_equal; by rewrite <- list_fmap_compose, list_fmap_id.
Qed.

Lemma contents_layout ack pad frames sfs : let fs := (pfFrame <$> frames) ++ (FStream <$> sfs) in 0 <= pad -> (fs = [] -> pad = 0) ->
  contents ack pad frames sfs = Connection.payload (layout ack pad fs).
Proof.
  intros fs Hp H0. unfold contents, layout. rewrite payload_app, <- framesBytes_app. fold fs. f_equal.
  - destruct ack; cbn; [by rewrite !app_nil_r|done].
  - destruct fs as [|f fs'] eqn:E; [by rewrite H0|]. rewrite payload_cons, payload_plain. done.
Qed.

(** Every frame can be read where it is. *)
Lemma plain_ok fs : (forall l f r, fs = l ++ f :: r -> wf_sendable f /\ wf_tail f (framesBytes r)) ->
  payload_ok Encryption1RTT (pair 0%nat <$> fs).
Proof.
  induction fs as [|f fs IH]; intros Hf; [done|]. cbn [fmap list_fmap payload_ok]. destruct (Hf [] f fs eq_refl) as [Hs Ht].
  split; [done|]. split; [done|]. split; [by rewrite payload_plain|]. apply IH. intros l g r ->. by apply (Hf (f :: l)).
Qed.

Lemma layout_ok ack pad fs : (forall a, ack = Some a -> frame_good (FAck a)) -> (forall l f r, fs = l ++ f :: r -> wf_sendable f /\ wf_tail f (framesBytes r)) ->
  payload_ok Encryption1RTT (layout ack pad fs).
Proof.
  intros Ha Hf. pose proof (plain_ok fs Hf) as Hp. unfold layout.
  assert (Htail : payload_ok Encryption1RTT (match fs with [] => [] | f :: fs' => (Z.to_nat pad, f) :: (pair 0%nat <$> fs') end)) by (by destruct fs).
  destruct ack as [a|]; [|done]. cbn. split; [by apply Ha|]. by split; [|split].
Qed.

Lemma good_split frames sfs : Forall (fun f => frame_good (pfFrame f)) frames -> streams_good sfs ->
  forall l f r, (pfFrame <$> frames) ++ (FStream <$> sfs) = l ++ f :: r -> wf_sendable f /\ wf_tail f (framesBytes r).
Proof.
  intros Hf [Hs Hlast] l f r E0. apply app_eq_inv in E0 as [(k & E1 & E2)|(k & -> & E2)].
  - destruct k as [|g k]; cbn in E2.
    + rewrite app_nil_r in E1. symmetry in E2. apply fmap_cons_inv in E2 as (x & xs & -> & -> & ->). apply Forall_cons in Hs as [Hx Hxs]. split; [done|].
      cbn. intros Hd. destruct xs as [|y xs _] using rev_ind; [done|]. specialize (Hlast (x :: xs) y eq_refl). apply Forall_cons in Hlast as [Hx' _]. congruence.
    + injection E2 as <- ->. assert (Hin : f ∈ pfFrame <$> frames) by (rewrite E1; apply elem_of_app; right; constructor).
      apply list_elem_of_fmap in Hin as (x & -> & Hx). rewrite Forall_forall in Hf. destruct (Hf x Hx) as [H1 H2]. split; [done|apply H2].
  - apply fmap_app_inv in E2 as (a & b & -> & E2 & ->). symmetry in E2. apply fmap_cons_inv in E2 as (x & xs & -> & -> & ->).
    apply Forall_app in Hs as [_ Hs]. apply Forall_cons in Hs as [Hx _]. split; [done|]. cbn. intros Hd.
    destruct xs as [|y xs _] using rev_ind; [done|]. specialize (Hlast (a ++ x :: xs) y). rewrite <- app_assoc in Hlast. specialize (Hlast eq_refl).
    apply Forall_app in Hlast as [_ Hl]. apply Forall_cons in Hl as [Hx' _]. congruence.
Qed.

Lemma ack_min a : wf_sendable (FAck a) -> 3 <= wlen (FAck a).
Proof.
  intros Ha. destruct (ack_facts a Ha) as (r0 & rs & Hr & Hn & Hs & _). destruct (frame_facts a r0 rs _ Ha Hr Hn Hs) as (_ & _ & _ & _ & Hv1 & _ & _ & _ & Hv2 & _).
  unfold wf_bytes. rewrite blen_cons. cbn [wf_body with_codec frame_body Ack_codec]. rewrite Hr. unfold ack_body. rewrite !blen_app, !blen_venc by done.
  pose proof (vlen_range (Largest r0)). pose proof (vlen_range (DelayTime a / 8000)).
  pose proof (blen_nonneg (venc (Z.of_nat (ackMoreRanges a)))). pose proof (blen_nonneg (venc (Largest r0 - Smallest r0))).
  pose proof (blen_nonneg (enc_ranges r0 (take (ackMoreRanges a) rs))).
  match goal with |- context [blen (if ?c then ?x else ?y)] => pose proof (blen_nonneg (if c then x else y)) end. lia.
Qed.

Section peer.
Context {A T E : Type} `{HC : !Crypto A} `{HCL : !CryptoLaws A} `{HE : !PackerEnv E} `{HEL : !PackerEnvLaws E}.
Context (shuffle : nat -> list packFrame -> list packFrame) (Hshuffle : forall n l, Permutation (shuffle n l) l).
Context (suite : cipherSuite) (v : Z) (Hsuite : suite_ok suite) (ws rs : bytes).
Implicit Types p : packetPacker A T E.

(** The packer and the keys of its peer: the key phases agree, no update is due,
    and the peer can reconstruct the next packet number. *)
Record in_step p (b : updatableAEAD A) : Prop := {
  is_ours : ua_inv suite v ws rs (suAead (ppCryptoSetup p));
  is_theirs : ua_inv suite v rs ws b;
  is_phase : uKeyPhase (suAead (ppCryptoSetup p)) = uKeyPhase b;
  is_settled : shouldInitiateKeyUpdate (suAead (ppCryptoSetup p)) = false;
  is_headers : exists hp, uHeaderEncrypter (suAead (ppCryptoSetup p)) = Some hp /\ uHeaderDecrypter b = Some hp;
  is_highest : 0 <= uHighestRcvdPN b < 2 ^ 61;
  is_window pn n : PeekPacketNumber Encryption1RTT (ppEnv p) = Ok (pn, n) -> Z.abs (pn - (uHighestRcvdPN b + 1)) < 2 ^ (8 * n - 1)
}.

(** A payload with something in it, in the layout of the peer. *)
Lemma body_layout pl pnLen frames : pl_ok pl -> 0 < plLength pl -> 1 <= pnLen <= 4 -> Permutation frames (plFrames pl) ->
  let tiny := tinyPadding pnLen (plLength pl) in let fs := (pfFrame <$> frames) ++ (FStream <$> plStreamFrames pl) in
  contents (plAck pl) (tiny + 0) frames (plStreamFrames pl) = Connection.payload (layout (plAck pl) (tiny + 0) fs) /\
  payload_ok Encryption1RTT (layout (plAck pl) (tiny + 0) fs).
Proof.
  intros Hpl Hpos Hn Hperm tiny fs. destruct (tiny_range pnLen (plLength pl) Hn ltac:(lia)) as (T1 & _ & _). fold tiny in T1.
  assert (Hf : Forall (fun f => frame_good (pfFrame f)) frames) by (rewrite Hperm; apply Hpl).
  split; [|apply layout_ok; [apply Hpl|apply good_split; [done|apply Hpl]]].
  apply contents_layout; [lia|]. intros Enil. pose proof (po_length _ Hpl) as Hl.
  apply app_nil in Enil as [E1 E2]. apply fmap_nil_inv in E1, E2. subst frames. apply Permutation_nil_l in Hperm. rewrite <- Hperm, E2 in Hl.
  change (stotal []) with 0 in Hl. change (total (pfFrame <$> [])) with 0 in Hl. destruct (plAck pl) as [a|] eqn:Ea; cbn [ackLen from_option] in Hl; [|lia].
  pose proof (ack_min a (proj1 (po_ack _ Hpl a Ea))). unfold tiny, tinyPadding. destruct (Z.ltb_spec (plLength pl) (4 - pnLen)); lia.
Qed.

(** C9: What [AppendPacket] writes, the peer reads.  Behind the data of the buffer
    there is one more packet, of at most [max] bytes; the peer that holds the keys
    of the same phase unprotects and opens it, reconstructs the packet number, and
    finds a payload in which its frame parser reads the frames of the packet, the
    ACK first, then the control frames and the STREAM frames, all of them and
    unchanged.  If there is nothing to send, the packer says so, and it reports no
    other error. *)
Theorem appended_packet_understood p (b : updatableAEAD A) (os : openers A) buf max rtt rcvTime :
  pk_ok p -> avail Encryption1RTT (ppCryptoSetup p) = true -> numbered Encryption1RTT (ppEnv p) -> in_step p b -> op1RTT os = Ok b ->
  128 <= max <= MaxPacketBufferSize -> env_maxAck + 42 <= max -> blen (bufData buf) + max <= bufCap buf ->
  wp (AppendPacket shuffle buf max) (fun r p' => let '(shp, buf') := r in pk_ok p' /\ exists raw fs b',
      bufData buf' = bufData buf ++ raw /\ blen raw = spLength shp /\ spLength shp <= max /\
      UnpackShortHeader rtt (blen (spDestConnID shp)) rcvTime raw os =
        (Ok (spPacketNumber shp, spPacketNumberLen shp, spKeyPhase shp, Connection.payload fs),
         mkOpeners (opInitial os) (opHandshake os) (op0RTT os) (Ok b')) /\
      ua_inv suite v rs ws b' /\ payload_ok Encryption1RTT fs /\
      fs.*2 = option_list (FAck <$> spAck shp) ++ (pfFrame <$> spFrames shp) ++ (FStream <$> spStreamFrames shp))
    (fun e p' => e = errNothingToPack /\ pk_ok p') p.
Proof.
  intros Hp Ha (pn & n & Hpk & Hpn & Hn) [Io It Iph Is (hp & Ihe & Ihd) Ihi Iw] Hop Hmax Hack Hbuf. unfold AppendPacket, appendPacket.
  apply wp_bind, wp_get. eapply wp_bind, wp_lift; [unfold Get1RTTSealer; cbn in Ha; by rewrite Ha|]. apply wp_bind. pose proof (env_peek _ _ _ _ (pk_env _ Hp) Hpk) as Hpeek. eapply wp_lift; [exact Hpeek|].
  pose proof (ko_short _ (pk_keys _ Hp) Ha) as Hao. rewrite (ao_overhead _ Hao). apply wp_bind.
  eapply wp_mono; [| |apply (wp_env_step _ (fun id => blen id <= MaxConnIDLen) p Hp), env_dest, Hp]; [|done].
  intros connID p1 (Hp1 & Hk1 & _ & Hid). apply wp_bind. unfold maybeGetShortHeaderPacket.
  assert (Hsl : ShortHeaderLen connID n = 1 + blen connID + n) by done. unfold MaxConnIDLen, MaxPacketBufferSize in *. pose proof (blen_nonneg connID).
  eapply wp_mono; [| |apply wp_maybeGetAppDataPacket; [done|unfold MaxPacketBufferSize; lia|cbn; lia]]; [|done].
  intros pl p2 (Hp2 & Hk2 & Hpl & Hle). pose proof (pl_ok_nonneg _ Hpl). pose proof (kept_trans _ _ _ Hk1 Hk2) as Hk.
  destruct (Z.eqb_spec (plLength pl) 0) as [E0|E0]; [by unfold wp, throw|]. apply wp_bind. pose proof (kt_setup _ _ Hk) as Ec.
  eapply wp_mono; [| |apply wp_KeyPhase; [done|by rewrite Ec|rewrite Ec; by left]]; [|done].
  intros kp p3 (Hp3 & Hk3 & -> & Hsame). rewrite Ec in Hsame. specialize (Hsame Is). rewrite Hsame.
  assert (Hnb : numberedBy Encryption1RTT pn n p3).
  { split; [|done]. rewrite (sd_numbers _ _ _ (Hk3 (fun _ => True))) by done. by rewrite (kt_numbers _ _ Hk). }
  destruct (tiny_range n (plLength pl) Hn ltac:(lia)) as (T1 & T2 & T3).
  assert (Hlen : shortLen connID n pl 0 <= max) by (unfold shortLen, shortHeaderPacketLength; lia).
  eapply wp_mono; [| |apply (wp_appendShortHeaderPacket _ Hshuffle connID pn n _ pl 0 max false buf p3); try done]; [|done|..|lia|by right].
  2:{ rewrite (sd_avail _ _ _ (Hk3 (fun _ => True))). by rewrite Ec. }
  2:{ apply KeyPhase_Bit_defined. }
  intros [shp buf'] p4 ((Hp4 & _ & _ & _) & Hsp & raw & Eraw & frames & hdr & Hperm & Eshp & Hhdr & Hbl & Henc). cbn [fst] in Eshp. subst shp. cbn [fst snd spLength spFrames spAck
    spStreamFrames spDestConnID spPacketNumber spPacketNumberLen spKeyPhase] in *. split; [done|].
  destruct (body_layout pl n frames Hpl ltac:(lia) Hn Hperm) as [Ebody Hok]. set (body := contents _ _ _ _) in *.
  destruct (short_packet_roundtrip suite v Hsuite ws rs (suAead (ppCryptoSetup p)) b hp os connID pn n body rtt rcvTime)
    as (hdr' & packet & a' & b' & Hhdr' & _ & Henc' & Hun & _ & Hb'); try done; [by rewrite (ao_overhead _ Hao)|lia|lia|by apply Iw|].
  rewrite Hhdr in Hhdr'. injection Hhdr' as <-. rewrite Hsame, Henc' in Henc. injection Henc as <- _.
  eexists packet, _, b'. split; [done|]. split; [done|]. split; [lia|]. rewrite <- Ebody. split; [exact Hun|]. split; [done|]. split; [exact Hok|].
  apply layout_frames.
Qed.
End peer.

(** ** An environment that satisfies the laws

    Packet numbers of two bytes in three spaces, an ACK frame and a PING on every
    request, and a stream that always has three more bytes. *)

Record toyEnv := mkToyEnv { teInitial : Z; teHandshake : Z; teApp : Z }.

Definition toyNext (lvl : EncryptionLevel) (e : toyEnv) : Z :=
  match lvl with EncryptionInitial => teInitial e | EncryptionHandshake => teHandshake e | _ => teApp e end.

Definition toyPop (lvl : EncryptionLevel) (e : toyEnv) : toyEnv :=
  match lvl with
  | EncryptionInitial => mkToyEnv (teInitial e + 1) (teHandshake e) (teApp e)
  | EncryptionHandshake => mkToyEnv (teInitial e) (teHandshake e + 1) (teApp e)
  | _ => mkToyEnv (teInitial e) (teHandshake e) (teApp e + 1)
  end.

Definition toyAck : AckFrame := mkAckFrame [mkAckRange 0 5] 0 0 0 0.
Definition toyStream : StreamFrame := mkStream 4 10 [1; 2; 3] false true.

#[local] Instance toyEnv_PackerEnv : PackerEnv toyEnv := {
  getDestConnID := mret [4; 5; 6; 7];
  PeekPacketNumber lvl e := Ok (toyNext lvl e, 2);
  PopPacketNumber lvl := e ← get; _ ← modify (toyPop lvl); mret (toyNext lvl e);
  GetAckFrame _ _ := mret (Some toyAck);
  framer_HasData := mret true;
  framer_AppendControlFrames fs max := mret (if max <? 1 then (fs, 0) else (fs ++ [FPing mkPing], 1));
  framer_AppendStreamFrames fs max := mret (if max <? 7 then (fs, 0) else (fs ++ [toyStream], 7))
}.

Lemma toyAck_good : frame_good (FAck toyAck).
Proof. split; [|done]. unfold wf_sendable; cbn. unfold ack_wf; cbn. split_and!; done || (vm_compute; intuition congruence). Qed.

#[local] Instance toyEnv_laws : PackerEnvLaws toyEnv.
Proof.
  refine {| env_ok := fun _ => True; env_number lvl e := Some (toyNext lvl e, 2); env_maxAck := 5 |}.
  - by intros e lvl pn n _ [= <- <-].
  - done.
  - intros e _. by apply wp_ret.
  - intros e lvl pn n _ [= <- <-]. apply wp_bind, wp_get, wp_bind, wp_modify, wp_ret. split; [done|]. split; [done|].
    intros l Hl. by destruct lvl, l.
  - intros e lvl q _. apply wp_ret. split; [done|]. split; [done|]. intros ? [= <-]. split; [apply toyAck_good|by vm_compute].
  - intros e _. by apply wp_ret.
  - intros e fs max _ Hm. apply wp_ret. split; [done|]. split; [done|]. destruct (Z.ltb_spec max 1).
    + exists []. rewrite app_nil_r. split; [done|]. split; [constructor|done].
    + exists [FPing mkPing]. split; [done|]. split; [by apply Forall_singleton|]. change (total [FPing mkPing]) with 1. lia.
  - intros e max _ Hm. apply wp_ret. split; [done|]. split; [done|]. destruct (Z.ltb_spec max 7).
    + split; [done|]. split; [apply streams_good_nil|]. cbn. lia.
    + cbn [fst snd app]. change (stotal [toyStream]) with 7. split; [done|]. split; [|lia]. split.
      * apply Forall_singleton. cbn. split; [|by left]. repeat split; try (vm_compute; congruence). by repeat constructor.
      * intros [|y l] x E0; [done|]. injection E0 as _ E0. by destruct l.
Defined.

Definition toyCrypto : cryptoStream := cs_write 0 [1; 0; 0; 5; 9; 9; 9; 9; 9] newCryptoStream.

(** A client in the middle of the handshake, with data to send and keys for Initial packets. *)
Definition toy_setup : cryptoSetup bytes unit :=
  mkCryptoSetup tt [] Version1 tp_zero None None false NewRTTStats PerspectiveClient zeroTime None None None (Some toy_client) None None false
    (toy_endpoint true) true true.

Definition toy_packer : packetPacker bytes unit toyEnv :=
  mkPacker [1; 2; 3] PerspectiveClient toy_setup toyCrypto newCryptoStream [0xaa] (mkToyEnv 0 0 5) (Some newDatagramQueue) newRetransmissionQueue 0 0.

Lemma toy_sealer_ok : sealer_ok toy_client.
Proof. by constructor; vm_compute. Qed.

Lemma toy_aead_ok : aead_ok (toy_endpoint true).
Proof. constructor; [eexists; split; by vm_compute|by vm_compute|eexists; by vm_compute|by vm_compute]. Qed.

Lemma toy_packer_ok : pk_ok toy_packer.
Proof.
  constructor; [done|by vm_compute|..].
  - split; [done|]. split; [by vm_compute|]. by repeat constructor.
  - split; [done|]. split; [by vm_compute|]. constructor.
  - by constructor; constructor.
  - intros q [= <-]. constructor; [done|done|by left].
  - constructor; [|intros _; apply toy_aead_ok]. intros lvl s Hs. destruct lvl; try discriminate Hs. injection Hs as <-. apply toy_sealer_ok.
Qed.

Lemma toy_numbered lvl n : 0 <= n < 2 ^ 62 -> numbered lvl (mkToyEnv 0 0 n).
Proof. intros Hn. exists (toyNext lvl (mkToyEnv 0 0 n)), 2. split; [done|]. split; [by destruct lvl|lia]. Qed.

Lemma toy_can_pack : can_pack 1252 Version1 toy_packer.
Proof.
  constructor; [apply toy_packer_ok|by left|by vm_compute|by vm_compute| |].
  - intros lvl _. by apply toy_numbered.
  - intros _. by left.
Qed.

Definition noShuffle (_ : nat) (l : list packFrame) : list packFrame := l.

(** The client sends an Initial packet and a 1-RTT packet in a datagram of 1252 bytes. *)
Lemma packed_datagram_fits_witness :
  wp (PackCoalescedPacket noShuffle false 1252 Version1)
    (fun r p' => pk_ok p' /\ forall packet, r = Some packet -> fitting 1252 toy_packer packet) (noErr _) toy_packer /\
  match PackCoalescedPacket noShuffle false 1252 Version1 toy_packer with
  | (Ok (Some packet), _) => length (cpLongHdrPackets packet) = 1%nat /\ is_Some (cpShortHdrPacket packet) /\ blen (bufData (cpBuffer packet)) = 1252
  | _ => False
  end.
Proof.
  split.
  - apply (packed_datagram_fits noShuffle); [done|]. apply toy_can_pack.
  - vm_compute. split; [reflexivity|]. split; [eexists; reflexivity|reflexivity].
Defined.

Lemma toy_in_step : in_step toy_suite Version1 (toy_secrets true) (toy_secrets false) toy_packer (toy_endpoint false).
Proof.
  constructor.
  - apply (toy_endpoint_inv true).
  - apply (toy_endpoint_inv false).
  - by vm_compute.
  - by vm_compute.
  - eexists. split; [by vm_compute|by vm_compute].
  - split; [by vm_compute|by vm_compute].
  - intros pn n [= <- <-]. by vm_compute.
Qed.

(** The client's next 1-RTT packet has an ACK frame, a PING and a STREAM frame. *)
Lemma appended_packet_understood_witness :
  wp (AppendPacket noShuffle getPacketBuffer 1252) (fun r p' => let '(shp, buf') := r in pk_ok p' /\ exists raw fs b',
      bufData buf' = bufData getPacketBuffer ++ raw /\ blen raw = spLength shp /\ spLength shp <= 1252 /\
      UnpackShortHeader NewRTTStats (blen (spDestConnID shp)) 1 raw toy_1rtt_openers =
        (Ok (spPacketNumber shp, spPacketNumberLen shp, spKeyPhase shp, Connection.payload fs),
         mkOpeners (Err ErrKeysDropped) (Err ErrKeysDropped) (Err ErrKeysDropped) (Ok b')) /\
      ua_inv toy_suite Version1 (toy_secrets false) (toy_secrets true) b' /\ payload_ok Encryption1RTT fs /\
      fs.*2 = option_list (FAck <$> spAck shp) ++ (pfFrame <$> spFrames shp) ++ (FStream <$> spStreamFrames shp))
    (fun e p' => e = errNothingToPack /\ pk_ok p') toy_packer.
Proof.
  apply (appended_packet_understood noShuffle ltac:(done) toy_suite Version1 eq_refl (toy_secrets true) (toy_secrets false) toy_packer
           (toy_endpoint false) toy_1rtt_openers getPacketBuffer 1252 NewRTTStats 1);
    [apply toy_packer_ok|reflexivity|by apply toy_numbered|apply toy_in_step|reflexivity|by vm_compute|by vm_compute|by vm_compute].
Defined.

(** ** A defect *)

(** The size of the 1-RTT packet is counted without its tag when the connection is
    closed, so the padding of the Initial packet is 16 bytes too long: the datagram of
    a client that has both keys is longer than the limit. *)
Theorem close_datagram_too_long :
  match PackConnectionClose noShuffle 0xa 0 [] 1252 Version1 toy_packer with
  | (Ok packet, _) => blen (bufData (cpBuffer packet)) = 1252 + 16
  | _ => False
  end.
Proof. vm_compute. reflexivity. Qed.
