(* ===== verification/CryptoSetupProofs.v ===== *)
(** * CryptoSetupProofs: what the crypto setup promises

    Session tickets and the decision about 0-RTT; the keys that the crypto setup
    hands to the packer; the handling of messages for the TLS stack. *)

From stdpp Require Import base numbers list option strings.
From S2P Require Import Prelude Protocol Varint Frames FrameParser RTTStats StreamsMap Headers TransportParams TransportParamsProofs TransportParamsClaims Protection ProtectionProofs KeyUpdate KeyUpdateProofs KeyUpdateClaims UnpackerProofs CryptoSetup Packer PackerProofs.
From Stdlib Require Import ZArith Lia.
#[local] Open Scope Z_scope.

(** ** Session tickets *)

Section tickets.
Context {A T : Type} `{HC : !Crypto A} `{HT : !TLSConn T}.
Implicit Types h : cryptoSetup A T.

Lemma orError_ok {B} msg (m : parser B) r x r' : m r = (Ok x, r') -> orError msg m r = (Ok x, r').
Proof. intros E. unfold orError. by rewrite E. Qed.

(** The RTT is saved in microseconds. *)
Definition in_us (d : Z) : Z := Z.quot d Microsecond * Microsecond.

Lemma in_us_range d : 0 <= d < 2 ^ 63 -> is_varint (Z.quot d Microsecond) /\ 0 <= in_us d <= d.
Proof.
  intros Hd. unfold in_us, Microsecond, is_varint, maxVarInt8. rewrite Z.quot_div_nonneg by lia. pose proof (Z.div_mod d 1000). pose proof (Z.mod_pos_bound d 1000). lia.
Qed.

Lemma us_roundtrip d : 0 <= d < 2 ^ 63 -> i64 (i64 (Z.quot d Microsecond) * Microsecond) = in_us d /\ u64 (Z.quot d Microsecond) = Z.quot d Microsecond.
Proof.
  intros Hd. destruct (in_us_range d Hd) as [Hv Hr]. unfold is_varint, maxVarInt8 in Hv. rewrite (i64_small (Z.quot d Microsecond)) by int_range.
  fold (in_us d). rewrite i64_small, u64_small by int_range. done.
Qed.

(** What a ticket holds. *)
Lemma ticket_Marshal_eq t : 0 <= stRTT t < 2 ^ 63 -> (forall p, stParameters t = Some p -> tp_ok p) ->
  exists b, ticket_Marshal t = Ok (venc sessionTicketRevision ++ venc (Z.quot (stRTT t) Microsecond) ++ b) /\
    match stParameters t with Some p => UnmarshalFromSessionTicket tp_zero b = (Ok (saved_params p), []) | None => b = [] end.
Proof.
  intros Hr Hp. destruct (in_us_range _ Hr) as [Hv _]. destruct (us_roundtrip _ Hr) as [_ Hu]. unfold ticket_Marshal.
  rewrite varint_Append_venc by by vm_compute. cbn [mbind res_bind]. rewrite Hu, varint_Append_venc by done. cbn [mbind res_bind].
  destruct (stParameters t) as [p|].
  - destruct (session_ticket_limits (([] ++ venc sessionTicketRevision) ++ venc (Z.quot (stRTT t) Microsecond)) p (Hp p eq_refl)) as (b & -> & Eu & _).
    exists b. split; [|done]. by rewrite app_nil_l, <- (assoc_L (++)).
  - exists []. split; [|done]. by rewrite app_nil_l, app_nil_r.
Qed.

(** Reading it back. *)
Lemma ticket_Unmarshal_eq rtt b using0RTT : 0 <= rtt < 2 ^ 63 ->
  ticket_Unmarshal using0RTT (venc sessionTicketRevision ++ venc (Z.quot rtt Microsecond) ++ b) =
    (params ← (if using0RTT then
                 tp ← orError "unmarshaling transport parameters from session ticket failed: %s" (UnmarshalFromSessionTicket tp_zero);
                 mret (Some tp)
               else
                 n ← reader_len;
                 if 0 <? n then fail (ErrorString "the session ticket has more bytes than expected") else mret None);
     mret (mkSessionTicket params (in_us rtt))) b.
Proof.
  intros Hr. destruct (in_us_range _ Hr) as [Hv _]. destruct (us_roundtrip _ Hr) as [Hu _]. unfold ticket_Unmarshal.
  erewrite parser_bind_ok by (apply orError_ok, varint_Read_venc; by vm_compute). rewrite Z.eqb_refl. cbn [negb].
  erewrite parser_bind_ok by (by apply orError_ok, varint_Read_venc). by rewrite Hu.
Qed.

Lemma no_params : exists e r, UnmarshalFromSessionTicket tp_zero [] = (Err e, r).
Proof. eexists _, _. by vm_compute. Qed.

(** The ticket is understood if it is used for what it was issued for. *)
Lemma ticket_back h using0RTT : tp_ok (suOurParams h) -> 0 <= smoothedRTT (suRTTStats h) < 2 ^ 63 ->
  exists data r, getDataForSessionTicket h = Ok data /\ (ticket_Unmarshal using0RTT data).1 = r /\
    if bool_decide (suAllow0RTT h = using0RTT)
    then r = Ok (mkSessionTicket (if using0RTT then Some (saved_params (suOurParams h)) else None) (in_us (smoothedRTT (suRTTStats h))))
    else exists e, r = Err e.
Proof.
  intros Hp Hr. unfold getDataForSessionTicket. set (t := mkSessionTicket _ _).
  destruct (ticket_Marshal_eq t) as (b & -> & Hb); [done|by unfold t; intros q; cbn; destruct (suAllow0RTT h); [intros [= <-]|]|].
  eexists _, _. split; [reflexivity|]. split; [reflexivity|]. unfold t in *. cbn [stRTT stParameters] in *.
  rewrite ticket_Unmarshal_eq by done. destruct using0RTT, (suAllow0RTT h); cbn [bool_decide decide]; rewrite ?bool_decide_true, ?bool_decide_false by done.
  - erewrite parser_bind_ok; [reflexivity|]. by erewrite parser_bind_ok by (by apply orError_ok).
  - subst b. destruct no_params as (e & r & E0). unfold mbind, stM_bind. unfold orError at 1. rewrite E0. by eexists.
  - destruct b as [|x b]; [destruct no_params as (e & r & E0); congruence|]. unfold mbind, stM_bind, reader_len. 
    rewrite blen_cons. pose proof (blen_nonneg b). ztrue (0 <? 1 + blen b). by eexists.
  - subst b. done.
Qed.

Lemma w_RTTStats_id h : w_RTTStats (suRTTStats h) h = h.
Proof. by destruct h. Qed.

(** C28: 0-RTT is accepted exactly if it is safe.  The data of a session ticket
    that a server issues is understood by the same server or another one exactly if
    it is used for what it was issued for, with 0-RTT or without: then the ticket
    restores the round-trip time, in microseconds, and otherwise nothing changes.
    0-RTT is accepted exactly if it is used, both servers allow it, and the current
    transport parameters lower no limit of those under which the ticket was issued
    and have the same limit of connection IDs.  Nothing panics. *)
Theorem zero_rtt_accepted_iff h h' using0RTT :
  tp_ok (suOurParams h) -> datagram_ok (tpMaxDatagramFrameSize (suOurParams h')) -> 0 <= smoothedRTT (suRTTStats h) < 2 ^ 63 ->
  exists data accepted rtt', getDataForSessionTicket h = Ok data /\
    handleSessionTicket data using0RTT h' = (Ok accepted, w_RTTStats rtt' h') /\
    rtt' = (if bool_decide (suAllow0RTT h = using0RTT) then SetInitialRTT (suRTTStats h') (in_us (smoothedRTT (suRTTStats h))) else suRTTStats h') /\
    (accepted = true <-> using0RTT = true /\ suAllow0RTT h = true /\ suAllow0RTT h' = true /\
      no_lower (suOurParams h) (suOurParams h') /\ tpActiveConnectionIDLimit (suOurParams h') = tpActiveConnectionIDLimit (suOurParams h)).
Proof.
  intros Hp Hd Hr. destruct (ticket_back h using0RTT Hp Hr) as (data & r & Em & Eu & Hcase). exists data. unfold handleSessionTicket. rewrite Eu.
  case_bool_decide as Hsame.
  2:{ destruct Hcase as (e & ->). exists false, (suRTTStats h'). rewrite w_RTTStats_id. split; [done|]. split; [done|]. split; [done|]. split; [done|]. intros (-> & ? & _). congruence. }
  rewrite Hcase. clear Eu Hcase. set (rtt' := SetInitialRTT _ _).
  destruct using0RTT; cbn [stRTT stParameters negb].
  2:{ exists false, rtt'. split; [done|]. split; [reflexivity|]. split; [done|]. split; [done|]. by intros []. }
  destruct (session_ticket_limits [] (suOurParams h) Hp) as (_ & _ & _ & Hv). destruct (Hv (suOurParams h') Hd) as [Hiff _].
  exists (ValidFor0RTT (saved_params (suOurParams h)) (suOurParams h') && suAllow0RTT h'), rtt'. split; [done|]. split.
  { unfold mbind, stM_bind, setInitialRTT, modify, get. cbn. by destruct (ValidFor0RTT _ _). }
  split; [done|]. rewrite andb_true_iff, Hiff. naive_solver.
Qed.
End tickets.

(** ** Keys *)

Section keys.
Context {A : Type} `{HC : !Crypto A} `{HCL : !CryptoLaws A}.
Implicit Types a : updatableAEAD A.

(** The parameters of the AEAD are set with the first key. *)
Definition aead_started a : Prop := uSuite a = None \/ (blen (uNonceBuf a) = 8 /\ uAeadOverhead a = 16).

Definition started a : Prop := uSuite a <> None /\ blen (uNonceBuf a) = 8 /\ uAeadOverhead a = 16.

Lemma wp_params aead suite a (F : GoError -> updatableAEAD A -> Prop) : suite_ok suite -> aead_started a ->
  wp (if bool_decide (uSuite a = None) then setAEADParameters aead suite else mret tt)
    (fun _ a' => started a' /\ uSendAEAD a' = uSendAEAD a /\ uHeaderEncrypter a' = uHeaderEncrypter a) F a.
Proof.
  intros Hs Ha. case_bool_decide as Hn; [|apply wp_ret; destruct Ha as [|[? ?]]; by repeat split].
  unfold setAEADParameters. apply wp_bind. eapply (wp_lift (if (csID suite =? TLS_AES_128_GCM_SHA256) || (csID suite =? TLS_AES_256_GCM_SHA384)
    then InvalidPacketLimitAES else InvalidPacketLimitChaCha)); [by destruct (suite_cases _ Hs) as [->|[->| ->]]|].
  apply wp_modify. split; [|done]. split; [done|]. split; [done|]. apply aead_overhead.
Qed.

Lemma wp_SetReadKey suite ts a (F : GoError -> updatableAEAD A -> Prop) : suite_ok suite -> aead_started a ->
  wp (SetReadKey suite ts) (fun _ a' => started a' /\ uSendAEAD a' = uSendAEAD a /\ uHeaderEncrypter a' = uHeaderEncrypter a) F a.
Proof.
  intros Hs Ha. unfold SetReadKey. apply wp_bind, wp_get, wp_bind. destruct (createAEAD_total suite ts (uVersion a) Hs) as (x & Ex & _).
  eapply wp_lift; [exact Ex|]. apply wp_bind, wp_modify, wp_bind. destruct (newHeaderProtector_total suite ts false (uVersion a) Hs) as (hp & Ehp & _).
  eapply wp_lift; [exact Ehp|]. apply wp_bind, wp_modify, wp_bind. set (a1 := ua_hpDec _ _). change (uSuite a) with (uSuite a1).
  eapply (wp_mono _ _ _ F F); [| |apply (wp_params x suite a1); [done|exact Ha]]; [|done].
  intros [] a2 (H1 & H2 & H3). apply wp_bind. eapply wp_lift; [by apply nextSecret_total|]. apply wp_bind.
  destruct (createAEAD_total suite (nextSecret suite ts) (uVersion a) Hs) as (y & Ey & _). eapply wp_lift; [exact Ey|]. by apply wp_modify.
Qed.

Lemma wp_SetWriteKey suite ts a (F : GoError -> updatableAEAD A -> Prop) : suite_ok suite -> aead_started a ->
  wp (SetWriteKey suite ts) (fun _ a' => started a' /\ aead_ok a') F a.
Proof.
  intros Hs Ha. unfold SetWriteKey. apply wp_bind, wp_get, wp_bind. destruct (createAEAD_total suite ts (uVersion a) Hs) as (x & Ex & Hx).
  eapply wp_lift; [exact Ex|]. apply wp_bind, wp_modify, wp_bind. destruct (newHeaderProtector_total suite ts false (uVersion a) Hs) as (hp & Ehp & _).
  eapply wp_lift; [exact Ehp|]. apply wp_bind, wp_modify, wp_bind. set (a1 := ua_hpEnc _ _). change (uSuite a) with (uSuite a1).
  eapply (wp_mono _ _ _ F F); [| |apply (wp_params x suite a1); [done|exact Ha]]; [|done].
  intros [] a2 ((H1 & H1' & H1'') & H2 & H3). apply wp_bind. eapply wp_lift; [by apply nextSecret_total|]. apply wp_bind.
  destruct (createAEAD_total suite (nextSecret suite ts) (uVersion a) Hs) as (y & Ey & _). eapply wp_lift; [exact Ey|]. apply wp_modify.
  split; [done|]. constructor; cbn; [exists x; by rewrite H2|done|rewrite H3; by eexists|done].
Qed.

Lemma started_aead a : started a -> aead_started a.
Proof. intros (_ & ? & ?). by right. Qed.

Lemma aead_ok_same a a' : started a' -> uSendAEAD a' = uSendAEAD a -> uHeaderEncrypter a' = uHeaderEncrypter a -> aead_ok a -> aead_ok a'.
Proof. intros (_ & Hb & Ho) E1 E2 []. constructor; [by rewrite E1|done|by rewrite E2|done]. Qed.
End keys.

(** ** Messages of the peer *)

(** What crypto/tls sends to an endpoint: secrets of known cipher suites, no 0-RTT
    keys for the wrong direction, and handshake data only at the levels that have
    CRYPTO frames of the handshake. *)
Definition event_ok (pers : Perspective) (ev : QUICEvent) : Prop :=
  match qeKind ev with
  | QUICSetReadSecret =>
      (exists suite, getCipherSuite (qeSuite ev) = Ok suite) /\
      (qeLevel ev = QUICEncryptionLevelHandshake \/ qeLevel ev = QUICEncryptionLevelApplication \/
       qeLevel ev = QUICEncryptionLevelEarly /\ pers = PerspectiveServer)
  | QUICSetWriteSecret =>
      (exists suite, getCipherSuite (qeSuite ev) = Ok suite) /\
      (qeLevel ev = QUICEncryptionLevelHandshake \/ qeLevel ev = QUICEncryptionLevelApplication \/
       qeLevel ev = QUICEncryptionLevelEarly /\ pers = PerspectiveClient)
  | QUICWriteData => qeLevel ev = QUICEncryptionLevelInitial \/ qeLevel ev = QUICEncryptionLevelHandshake
  | QUICTransportParameters => bytes_ok (qeData ev)
  | _ => True
  end.

(** The TLS stack: events come to an end, and alerts are bytes; a session ticket is one
    message at the level of the application, with no event before and after it. *)
Class TLSLaws (T : Type) `{TLSConn T} := {
  tls_ok : Perspective -> T -> Prop;
  tls_pending : T -> nat;
  tls_bound : nat;
  tls_bounded pers c : tls_ok pers c -> (tls_pending c <= tls_bound)%nat;
  tls_start pers c : tls_ok pers c -> wp tls_Start (fun _ c' => tls_ok pers c') (fun _ c' => tls_ok pers c') c;
  tls_data pers lvl d c : tls_ok pers c -> wp (tls_HandleData lvl d) (fun _ c' => tls_ok pers c') (fun _ c' => tls_ok pers c') c;
  tls_next pers c : tls_ok pers c ->
    wp tls_NextEvent (fun ev c' => tls_ok pers c' /\ event_ok pers ev /\
      (if decide (qeKind ev = QUICNoEvent) then tls_pending c' = 0%nat else tls_pending c' < tls_pending c)%nat) (fun _ _ => False) c;
  tls_params pers b c : tls_ok pers c ->
    wp (tls_SetTransportParameters b) (fun _ c' => tls_ok pers c' /\ (tls_pending c' <= tls_pending c)%nat) (fun _ _ => False) c;
  tls_ticket pers early c : tls_ok pers c -> tls_pending c = 0%nat ->
    wp (tls_SendSessionTicket early) (fun _ => wp tls_NextEvent (fun ev c1 => (qeKind ev = QUICWriteData /\ qeLevel ev = QUICEncryptionLevelApplication) /\
      wp tls_NextEvent (fun ev c2 => qeKind ev = QUICNoEvent /\ tls_ok pers c2) (fun _ _ => False) c1) (fun _ _ => False)) (fun _ c' => tls_ok pers c') c;
  tls_close pers c : tls_ok pers c -> wp tls_Close (fun _ c' => tls_ok pers c') (fun _ c' => tls_ok pers c') c;
  tls_alert e a : alertOf e = Some a -> 0 <= a < 256
}.

Section setup.
Context {A T : Type} `{HC : !Crypto A} `{HCL : !CryptoLaws A} `{HT : !TLSConn T} `{HTL : !TLSLaws T}.
Context (now : Z) (random : bytes) (additional : list (Z * bytes)).
Context (Hrandom : bytes_ok random /\ blen random = 18) (Hadditional : additional_ok random additional).
Implicit Types h : cryptoSetup A T.

(** The smoothed RTT is a duration. *)
Definition rtt_ok (r : RTTStats) : Prop := 0 <= smoothedRTT r < 2 ^ 63.

(** The invariant of the crypto setup; [keys_ok] is what the packer relies on. *)
Record su_ok h : Prop := {
  so_conn : tls_ok (suPerspective h) (suConn h);
  so_keys : keys_ok h;
  so_aead : aead_started (suAead h);
  so_ours : tp_ok (suOurParams h);
  so_peer tp : suPeerParams h = Some tp -> tp_valid (Perspective_Opposite (suPerspective h)) tp;
  so_rtt : rtt_ok (suRTTStats h)
}.

(** The parts of the setup that an event leaves alone. *)
Definition step h h' : Prop := su_ok h' /\ suPerspective h' = suPerspective h /\ (tls_pending (suConn h') <= tls_pending (suConn h))%nat.

Lemma step_refl h : su_ok h -> step h h.
Proof. intros Hh. split; [done|]. by split. Qed.

Lemma step_trans h1 h2 h3 : step h1 h2 -> step h2 h3 -> step h1 h3.
Proof. intros (H1 & H2 & H3) (G1 & G2 & G3). split; [done|]. split; [congruence|lia]. Qed.

(** The keys of the packer: a level that is changed gets a good sealer or none. *)
Lemma keys_ok_iff h : keys_ok h <->
  (forall s, suInitialSealer h = Some s -> sealer_ok s) /\ (forall s, suHandshakeSealer h = Some s -> sealer_ok s) /\
  (forall s, suZeroRTTSealer h = Some s -> sealer_ok s) /\ (suHas1RTTSealer h = true -> aead_ok (suAead h)).
Proof.
  split.
  - intros [Hl Hs]. split_and!; [intros s Es|intros s Es|intros s Es|done].
    + apply (Hl EncryptionInitial). cbn. unfold GetInitialSealer. by rewrite Es.
    + apply (Hl EncryptionHandshake). cbn. unfold GetHandshakeSealer. by rewrite Es.
    + apply (Hl Encryption0RTT). cbn. unfold Get0RTTSealer. by rewrite Es.
  - intros (H1 & H2 & H3 & H4). constructor; [|done]. intros [] s; cbn; unfold GetInitialSealer, GetHandshakeSealer, Get0RTTSealer, keyOr;
      intros Es; try done; case_match; simplify_eq; auto.
Qed.

Lemma step_event ev h : su_ok h -> step h (w_Events (suEvents h ++ [ev]) h).
Proof. intros [? Hk%keys_ok_iff ? ? ? ?]. split; [|done]. constructor; try done. by apply keys_ok_iff. Qed.

Lemma wp_addEvent ev h h0 (F : GoError -> cryptoSetup A T -> Prop) : step h0 h -> wp (addEvent ev) (fun _ h' => step h0 h') F h.
Proof. intros Hs. apply wp_modify. eapply step_trans; [exact Hs|]. apply step_event, Hs. Qed.

Lemma wp_longSealer suite ts h Q (F : GoError -> cryptoSetup A T -> Prop) : suite_ok suite -> (forall s, sealer_ok s -> Q s h) -> wp (longSealer suite ts) Q F h.
Proof.
  intros Hs HQ. destruct (createAEAD_total suite ts (suVersion h) Hs) as (x & Ex & Hx).
  destruct (newHeaderProtector_total suite ts true (suVersion h) Hs) as (hp & Ehp & Hhp).
  unfold longSealer. apply wp_bind, wp_get. do 2 (eapply wp_bind, wp_lift; [eassumption|]). apply wp_ret, HQ. by constructor.
Qed.

Lemma wp_longOpener suite ts h Q (F : GoError -> cryptoSetup A T -> Prop) : suite_ok suite -> (forall o, Q o h) -> wp (longOpener suite ts) Q F h.
Proof.
  intros Hs HQ. destruct (createAEAD_total suite ts (suVersion h) Hs) as (x & Ex & Hx).
  destruct (newHeaderProtector_total suite ts true (suVersion h) Hs) as (hp & Ehp & Hhp).
  unfold longOpener. apply wp_bind, wp_get. do 2 (eapply wp_bind, wp_lift; [eassumption|]). apply wp_ret, HQ.
Qed.

Lemma getCipherSuite_ok id suite : getCipherSuite id = Ok suite -> suite_ok suite.
Proof. unfold getCipherSuite, suite_ok. intros E. repeat case_match; simplify_eq; done. Qed.

Lemma wp_suAead {B} (m : stM (updatableAEAD A) B) (Q : B -> cryptoSetup A T -> Prop) F h :
  wp m (fun r a => Q r (w_Aead a h)) (fun e a => F e (w_Aead a h)) (suAead h) -> wp (onAead m) Q F h.
Proof. unfold wp, onAead. by destruct (m (suAead h)) as [[] ?]. Qed.

Lemma wp_suConn {B} (m : stM T B) (Q : B -> cryptoSetup A T -> Prop) F h :
  wp m (fun r c => Q r (w_Conn c h)) (fun e c => F e (w_Conn c h)) (suConn h) -> wp (onConn m) Q F h.
Proof. unfold wp, onConn. by destruct (m (suConn h)) as [[] ?]. Qed.

(** Setters of fields that the invariant does not mention, or that come with a good key. *)
Ltac su_set :=
  match goal with H : su_ok ?h |- step ?h _ =>
    let Hk := fresh "Hk" in destruct H as [? Hk%keys_ok_iff ? ? ? ?]; split; [constructor; try done; apply keys_ok_iff; cbn in *; naive_solver|done]
  end.

Lemma step_zeroOpener o h : su_ok h -> step h (w_ZeroRTTOpener o h).
Proof. intros Hh. su_set. Qed.
Lemma step_used0RTT b h : su_ok h -> step h (w_Used0RTT b h).
Proof. intros Hh. su_set. Qed.
Lemma step_handshakeOpener o h : su_ok h -> step h (w_HandshakeOpener o h).
Proof. intros Hh. su_set. Qed.
Lemma step_has1RTTOpener b h : su_ok h -> step h (w_Has1RTTOpener b h).
Proof. intros Hh. su_set. Qed.
Lemma step_handshakeSealer o h : su_ok h -> (forall s, o = Some s -> sealer_ok s) -> step h (w_HandshakeSealer o h).
Proof. intros Hh Ho. su_set. Qed.
Lemma step_zeroSealer o h : su_ok h -> (forall s, o = Some s -> sealer_ok s) -> step h (w_ZeroRTTSealer o h).
Proof. intros Hh Ho. su_set. Qed.
Lemma step_completeTime t h : su_ok h -> step h (w_HandshakeCompleteTime t h).
Proof. intros Hh. su_set. Qed.
Lemma step_rtt r h : su_ok h -> rtt_ok r -> step h (w_RTTStats r h).
Proof. intros Hh Hr. su_set. Qed.
Lemma step_zeroParams tp h : su_ok h -> step h (w_ZeroRTTParameters tp h).
Proof. intros Hh. su_set. Qed.
Lemma step_peer tp h : su_ok h -> tp_valid (Perspective_Opposite (suPerspective h)) tp -> step h (w_PeerParams (Some tp) h).
Proof. intros Hh Ht. destruct Hh as [? Hk%keys_ok_iff ? ? ? ?]. split; [|done]. constructor; try done; [by apply keys_ok_iff|]. by intros ? [= <-]. Qed.
Lemma step_aead a h : su_ok h -> aead_started a -> (suHas1RTTSealer h = true -> aead_ok a) -> step h (w_Aead a h).
Proof. intros Hh Ha Ho. destruct Hh as [? Hk%keys_ok_iff ? ? ? ?]. split; [|done]. constructor; try done. apply keys_ok_iff. cbn. naive_solver. Qed.

Lemma wp_su_SetReadKey ev h (F : GoError -> cryptoSetup A T -> Prop) : su_ok h -> event_ok (suPerspective h) ev -> qeKind ev = QUICSetReadSecret ->
  wp (su_SetReadKey (qeLevel ev) (qeSuite ev) (qeData ev)) (fun _ h' => step h h') F h.
Proof.
  intros Hh Hev Ek. unfold event_ok in Hev. rewrite Ek in Hev. destruct Hev as ((suite & Es) & Hl). pose proof (getCipherSuite_ok _ _ Es) as Hs.
  unfold su_SetReadKey. eapply wp_bind, wp_lift; [exact Es|]. apply wp_bind, wp_get, wp_bind.
  destruct Hl as [-> |[-> |[-> Hp]]].
  - apply wp_bind, wp_longOpener; [done|]. intros o. apply wp_modify, wp_addEvent. by apply step_handshakeOpener.
  - apply wp_bind, wp_suAead. eapply wp_mono; [| |apply (wp_SetReadKey suite _ _ (fun _ _ => False)); [done|apply Hh]]; [|done].
    intros [] a (Hst & E1 & E2). apply wp_modify, wp_addEvent.
    assert (Ha : step h (w_Aead a h)) by (apply step_aead; [done|by apply started_aead|]; intros Hx; eapply aead_ok_same; [done..|]; by apply (ko_short _ (so_keys _ Hh))).
    eapply step_trans; [exact Ha|]. apply step_has1RTTOpener, Ha.
  - rewrite Hp, decide_False by done. apply wp_bind, wp_longOpener; [done|]. intros o. apply wp_bind, wp_modify, wp_modify, wp_addEvent.
    assert (H0 : step h (w_ZeroRTTOpener (Some o) h)) by by apply step_zeroOpener. eapply step_trans; [exact H0|]. apply step_used0RTT, H0.
Qed.

Lemma wp_su_SetWriteKey ev h (F : GoError -> cryptoSetup A T -> Prop) : su_ok h -> event_ok (suPerspective h) ev -> qeKind ev = QUICSetWriteSecret ->
  wp (su_SetWriteKey (qeLevel ev) (qeSuite ev) (qeData ev)) (fun _ h' => step h h') F h.
Proof.
  intros Hh Hev Ek. unfold event_ok in Hev. rewrite Ek in Hev. destruct Hev as ((suite & Es) & Hl). pose proof (getCipherSuite_ok _ _ Es) as Hs.
  unfold su_SetWriteKey. eapply wp_bind, wp_lift; [exact Es|]. apply wp_bind, wp_get.
  destruct Hl as [-> |[-> |[-> Hp]]].
  - apply wp_bind, wp_longSealer; [done|]. intros s Hsl. apply wp_modify, step_handshakeSealer; [done|]. by intros ? [= <-].
  - apply wp_bind, wp_suAead. eapply wp_mono; [| |apply (wp_SetWriteKey suite _ _ (fun _ _ => False)); [done|apply Hh]]; [|done].
    intros [] a (Hst & Hao). apply wp_bind, wp_modify.
    assert (Ha : step h (w_Has1RTTSealer true (w_Aead a h))).
    { destruct Hh as [? Hk%keys_ok_iff ? ? ? ?]. split; [|done]. constructor; try done; [|by apply started_aead]. apply keys_ok_iff. cbn. naive_solver. }
    case_bool_decide; [|by apply wp_ret]. apply wp_modify. eapply step_trans; [exact Ha|].
    assert (Hu : step (w_Has1RTTSealer true (w_Aead a h)) (w_Used0RTT true (w_Has1RTTSealer true (w_Aead a h)))) by apply step_used0RTT, Ha.
    eapply step_trans; [exact Hu|]. apply step_zeroSealer; [apply Hu|done].
  - rewrite Hp, decide_False by done. apply wp_bind, wp_longSealer; [done|]. intros s Hsl. apply wp_modify, step_zeroSealer; [done|]. by intros ? [= <-].
Qed.

(** Every event is handled; only bad transport parameters and unknown events are refused. *)
Lemma wp_handleEvent ev h : su_ok h -> event_ok (suPerspective h) ev ->
  wp (handleEvent now random additional ev) (fun finished h' => step h h' /\ (finished = true <-> qeKind ev = QUICNoEvent)) (fun _ h' => step h h') h.
Proof.
  intros Hh Hev. pose proof (step_refl h Hh) as Hr. unfold handleEvent. destruct (qeKind ev) eqn:Ek.
  - by apply wp_ret.
  - apply wp_bind. eapply wp_mono; [| |by apply (wp_su_SetReadKey ev h (fun _ _ => False))]; [|done]. intros [] h' Hs. by apply wp_ret.
  - apply wp_bind. eapply wp_mono; [| |by apply (wp_su_SetWriteKey ev h (fun _ _ => False))]; [|done]. intros [] h' Hs. by apply wp_ret.
  - apply wp_bind. unfold event_ok in Hev. rewrite Ek in Hev. unfold WriteRecord.
    assert (Hw : forall e, wp (addEvent e) (fun _ h' => wp (mret false) (fun finished h' => step h h' /\ (finished = true <-> QUICWriteData = QUICNoEvent)) (fun _ h' => step h h') h') (fun _ h' => step h h') h).
    { intros e. eapply wp_mono; [| |by apply (wp_addEvent e h h (fun _ _ => False))]; [|done]. intros [] h' Hs. by apply wp_ret. }
    destruct Hev as [-> | ->]; apply Hw.
  - unfold event_ok in Hev. rewrite Ek in Hev. apply wp_bind. unfold handleTransportParameters. apply wp_bind, wp_get, wp_bind.
    pose proof (Unmarshal_validated (qeData ev) (Perspective_Opposite (suPerspective h)) Hev) as Hu.
    destruct (Unmarshal _ _ _) as [tp|e|m]; [|done|done]. eapply wp_lift; [done|]. apply wp_bind, wp_modify.
    eapply wp_mono; [| |apply (wp_addEvent _ _ h (fun _ _ => False)); by apply step_peer]; [|done]. intros [] h' Hs. by apply wp_ret.
  - apply wp_bind, wp_get, wp_bind. eapply wp_lift; [apply Marshal_eq; [apply Hrandom|apply Hrandom|apply Hh|done]|]. apply wp_bind, wp_suConn.
    eapply wp_mono; [| |apply (tls_params (suPerspective h)), Hh]; [|done]. intros [] c [Hc Hp]. apply wp_ret. split; [|done].
    split; [|done]. destruct Hh as [? Hk%keys_ok_iff ? ? ? ?]. constructor; try done. by apply keys_ok_iff.
  - apply wp_bind. unfold rejected0RTT. apply wp_bind, wp_get. cbv zeta. apply wp_bind, wp_modify.
    assert (H0 : step h (w_ZeroRTTSealer None h)) by (by apply step_zeroSealer). case_bool_decide.
    + eapply wp_mono; [| |apply (wp_addEvent _ _ h (fun _ _ => False)), H0]; [|done]. intros [] h' Hs. by apply wp_ret.
    + apply wp_ret. by apply wp_ret.
  - apply wp_bind. unfold su_handshakeComplete. apply wp_bind, wp_modify.
    eapply wp_mono; [| |apply (wp_addEvent _ _ h (fun _ _ => False)); by apply step_completeTime]; [|done]. intros [] h' Hs. by apply wp_ret.
  - done.
Qed.

(** What an operation keeps, whatever happens on the TLS connection. *)
Definition served h h' : Prop := su_ok h' /\ suPerspective h' = suPerspective h.

Lemma served_conn c h : su_ok h -> tls_ok (suPerspective h) c -> su_ok (w_Conn c h).
Proof. intros [? Hk%keys_ok_iff ? ? ? ?] Hc. constructor; try done. by apply keys_ok_iff. Qed.

Definition drained h : Prop := tls_pending (suConn h) = 0%nat.

(** The events come to an end. *)
Lemma wp_eventLoop fuel : forall h, su_ok h -> (tls_pending (suConn h) <= fuel)%nat ->
  wp (eventLoop now random additional fuel) (fun _ h' => served h h' /\ drained h') (fun _ h' => served h h') h.
Proof.
  induction fuel as [|fuel IH]; intros h Hh Hf; cbn [eventLoop]; apply wp_bind, wp_suConn;
    (eapply wp_mono; [| |apply (tls_next (suPerspective h)), Hh]; [|done]); intros ev c (Hc & Hev & Hp);
    pose proof (served_conn c h Hh Hc) as Hh1; apply wp_bind;
    (eapply wp_mono; [| |apply (wp_handleEvent ev _ Hh1 Hev)]; [|intros e h' (? & ? & _); done]).
  all: intros finished h' ((Hs & Epers & Hle) & Hfin); cbn in Hle; destruct finished.
  1, 3: apply wp_ret; split; [by split|]; unfold drained; rewrite decide_True in Hp by (by apply Hfin); lia.
  all: assert (Hlt : (tls_pending c < tls_pending (suConn h))%nat) by (case_decide as Hn; [by apply Hfin in Hn|done]).
  - lia.
  - eapply wp_mono; [| |apply (IH h' Hs); lia].
    + intros ? h'' ((H1 & H2) & H3). split; [|done]. split; [done|cbn in *; congruence].
    + intros ? h'' (H1 & H2). split; [done|cbn in *; congruence].
Qed.

(** Errors that close the connection. *)
Definition closes (e : GoError) : Prop := exists code msg, e = TransportError code 0 msg /\ (code = InternalError \/ IsCryptoError code = true).

Lemma wrapError_closes e : closes (wrapError (T := T) e).
Proof.
  unfold wrapError. destruct (alertOf e) as [a|] eqn:Ea; [|by eexists _, _; split; [reflexivity|by left]].
  destruct (a =? 80); cbn [negb]; [by eexists _, _; split; [reflexivity|by left]|].
  eexists _, _. split; [reflexivity|]. right. pose proof (tls_alert e a Ea). unfold IsCryptoError. ztrue (0x100 <=? 0x100 + a). ztrue (0x100 + a <? 0x200). done.
Qed.

Lemma wp_wrapping {B} (m : stM (cryptoSetup A T) B) Q (F : GoError -> cryptoSetup A T -> Prop) h :
  wp m Q (fun e h' => F (wrapError (T := T) e) h') h -> wp (wrapping m) Q F h.
Proof. unfold wp, wrapping. by destruct (m h) as [[] ?]. Qed.

Lemma wp_StartHandshake fuel h : su_ok h -> (tls_bound <= fuel)%nat ->
  wp (StartHandshake now random additional fuel) (fun _ h' => served h h' /\ drained h') (fun e h' => served h h' /\ closes e) h.
Proof.
  intros Hh Hf. unfold StartHandshake. apply wp_bind, wp_wrapping, wp_suConn.
  eapply wp_mono; [| |apply (tls_start (suPerspective h)), Hh].
  2:{ intros e c Hc. split; [|apply wrapError_closes]. by split; [apply served_conn|]. }
  intros [] c Hc. apply wp_bind, wp_wrapping. pose proof (served_conn c h Hh Hc) as Hh1.
  eapply wp_mono; [| |apply (wp_eventLoop fuel _ Hh1)].
  - intros [] h' ((H1 & H2) & H3). apply wp_bind, wp_get.
    assert (Hend : wp (mret tt) (fun _ h' => served h h' /\ drained h') (fun e h' => served h h' /\ closes e) h') by (by apply wp_ret).
    case_decide; [|done]. destruct (suZeroRTTSealer h'); [|done]. destruct (suZeroRTTParameters h'); [|done].
    eapply wp_mono; [| |apply (wp_addEvent _ h' h' (fun _ _ => False)), step_refl, H1]; [|done]. intros [] h'' (G1 & G2 & G3).
    cbn in H2. split; [split; [done|congruence]|]. unfold drained in *. lia.
  - intros e h' (H1 & H2). split; [done|]. apply wrapError_closes.
  - cbn. pose proof (tls_bounded _ _ Hc). lia.
Qed.

Lemma wp_su_HandleMessage fuel data lvl h : su_ok h -> (tls_bound <= fuel)%nat ->
  wp (su_HandleMessage now random additional fuel data lvl) (fun _ h' => served h h' /\ drained h') (fun e h' => served h h' /\ closes e) h.
Proof.
  intros Hh Hf. unfold su_HandleMessage, handleMessage. apply wp_wrapping, wp_bind, wp_suConn.
  eapply wp_mono; [| |apply (tls_data (suPerspective h)), Hh].
  2:{ intros e c Hc. split; [|apply wrapError_closes]. by split; [apply served_conn|]. }
  intros [] c Hc. pose proof (served_conn c h Hh Hc) as Hh1.
  eapply wp_mono; [| |apply (wp_eventLoop fuel _ Hh1)]; [done| |cbn; pose proof (tls_bounded _ _ Hc); lia].
  intros e h' Hs. split; [done|]. apply wrapError_closes.
Qed.

(** *** Session tickets *)

(** The RTT in the data of a ticket, in microseconds, is a duration. *)
Definition ticket_rtt_ok (data : bytes) : Prop :=
  forall rev r rtt r', varint_Read data = (Ok rev, r) -> varint_Read r = (Ok rtt, r') -> rtt * Microsecond < 2 ^ 63.

(** The data that the crypto setup itself has written is such data. *)
Lemma ticket_data_ok rev d b : is_varint rev -> 0 <= d < 2 ^ 63 -> ticket_rtt_ok (venc rev ++ venc (Z.quot d Microsecond) ++ b).
Proof.
  intros Hrev Hd rev' r rtt r' E1 E2. destruct (in_us_range d Hd) as [Hv Hr]. unfold in_us in Hr.
  rewrite varint_Read_venc in E1 by done. injection E1 as _ <-. rewrite varint_Read_venc in E2 by done. injection E2 as <- _. lia.
Qed.

Lemma setInitialRTT_ok r t : rtt_ok r -> 0 <= t < 2 ^ 63 -> rtt_ok (SetInitialRTT r t).
Proof. intros Hr Ht. unfold SetInitialRTT. by destruct (hasMeasurement r). Qed.

(** The two varints at the front of the data. *)
Lemma ticket_fields data : bytes_ok data -> ticket_rtt_ok data ->
  (exists e r, varint_Read data = (Err e, r)) \/
  exists rev r, varint_Read data = (Ok rev, r) /\
    ((exists e r', varint_Read r = (Err e, r')) \/
     exists rtt r', varint_Read r = (Ok rtt, r') /\ bytes_ok r' /\ 0 <= i64 (i64 rtt * Microsecond) < 2 ^ 63).
Proof.
  intros Hd Hrtt. destruct (varint_Read_total data Hd) as [[e E]|(used & rev & r & -> & E & _)]; [by left; eexists _, _|]. right. exists rev, r.
  split; [done|]. apply Forall_app in Hd as [_ Hr]. destruct (varint_Read_total r Hr) as [[e E']|(used' & rtt & r' & -> & E' & _)]; [by left; eexists _, _|].
  right. exists rtt, r'. apply Forall_app in Hr as [Hu Hr']. split; [done|]. split; [done|].
  pose proof (safe_varint (used' ++ r') ltac:(by apply Forall_app)) as Hv. rewrite E' in Hv. destruct Hv as [Hv _].
  pose proof (Hrtt _ _ _ _ E E') as Hle. unfold is_varint, maxVarInt8 in Hv. rewrite (i64_small rtt) by int_range.
  unfold Microsecond in *. rewrite i64_small by int_range. lia.
Qed.

Lemma wp_handleDataFromSessionState data h : su_ok h -> bytes_ok data -> ticket_rtt_ok data ->
  wp (handleDataFromSessionState data) (fun _ h' => step h h') (fun _ _ => False) h.
Proof.
  intros Hh Hd Hrtt. pose proof (step_refl h Hh) as Hr. unfold wp, handleDataFromSessionState, handleDataFromSessionStateImpl.
  destruct (ticket_fields data Hd Hrtt) as [(e & r & ->)|(rev & r & -> & Hf)]; [done|]. unfold mbind, stM_bind, lift. destruct (negb _); [done|].
  destruct Hf as [(e & r' & ->)|(rtt & r' & -> & Hr' & Ht)]; [done|]. set (h1 := w_RTTStats (SetInitialRTT (suRTTStats h) (i64 (i64 rtt * Microsecond))) h).
  assert (H1 : step h h1) by (apply step_rtt; [done|]; by apply setInitialRTT_ok; [apply Hh|]).
  pose proof (UnmarshalFromSessionTicket_total r' Hr') as Hu. unfold setInitialRTT, modify. fold h1. destruct (UnmarshalFromSessionTicket tp_zero r').1 as [tp|e|m]; [|done|done].
  destruct (suAllow0RTT h1); [|done]. eapply step_trans; [exact H1|]. apply step_zeroParams, H1.
Qed.

(** A ticket is read without a panic, with parameters if they are asked for. *)
Lemma ticket_Unmarshal_total using0RTT data : bytes_ok data -> ticket_rtt_ok data ->
  match (ticket_Unmarshal using0RTT data).1 with
  | Ok t => 0 <= stRTT t < 2 ^ 63 /\ (using0RTT = true -> is_Some (stParameters t))
  | Err _ => True
  | Panic _ => False
  end.
Proof.
  intros Hd Hrtt. unfold ticket_Unmarshal.
  destruct (ticket_fields data Hd Hrtt) as [(e & r & E)|(rev & r & E & Hf)]; [unfold mbind, stM_bind, orError; by rewrite E|].
  rewrite (parser_bind_ok _ _ _ _ _ (orError_ok _ _ _ _ _ E)). destruct (negb _); [done|].
  destruct Hf as [(e & r' & E')|(rtt & r' & E' & Hr' & Ht)]; [unfold mbind, stM_bind, orError; by rewrite E'|].
  rewrite (parser_bind_ok _ _ _ _ _ (orError_ok _ _ _ _ _ E')). pose proof (UnmarshalFromSessionTicket_total r' Hr') as Hu.
  destruct using0RTT; unfold mbind, stM_bind, orError, reader_len; [|by destruct (0 <? blen r')].
  by destruct (UnmarshalFromSessionTicket tp_zero r') as [[tp|e|m] r''].
Qed.

Lemma wp_handleSessionTicket data using0RTT h : su_ok h -> bytes_ok data -> ticket_rtt_ok data ->
  wp (handleSessionTicket data using0RTT) (fun _ h' => step h h') (fun _ _ => False) h.
Proof.
  intros Hh Hd Hrtt. unfold handleSessionTicket. pose proof (ticket_Unmarshal_total using0RTT data Hd Hrtt) as Hu.
  destruct (ticket_Unmarshal using0RTT data).1 as [t|e|m]; [|by apply wp_ret, step_refl|done]. destruct Hu as [Ht Hp]. apply wp_bind, wp_modify.
  assert (H1 : step h (w_RTTStats (SetInitialRTT (suRTTStats h) (stRTT t)) h)) by (apply step_rtt; [done|]; by apply setInitialRTT_ok; [apply Hh|]).
  destruct using0RTT; cbn [negb]; [|by apply wp_ret]. destruct (Hp eq_refl) as [tp Etp]. apply wp_bind, wp_get, wp_bind.
  eapply wp_lift; [by rewrite Etp|]. destruct (negb _); by apply wp_ret.
Qed.

Lemma getDataForSessionTicket_total h : su_ok h -> exists data, getDataForSessionTicket h = Ok data.
Proof. intros Hh. destruct (ticket_back h true (so_ours _ Hh) (so_rtt _ Hh)) as (data & _ & E & _). by exists data. Qed.

Lemma wp_marshalDataForSessionState h : su_ok h -> is_Some (suPeerParams h) ->
  wp marshalDataForSessionState (fun _ h' => h' = h) (fun _ _ => False) h.
Proof.
  intros Hh [tp Etp]. pose proof (tp_valid_ok _ _ (so_peer _ Hh _ Etp)) as Htp. destruct (in_us_range _ (so_rtt _ Hh)) as [Hv _].
  destruct (us_roundtrip _ (so_rtt _ Hh)) as [_ Hu]. unfold marshalDataForSessionState. apply wp_bind, wp_get, wp_bind.
  eapply wp_lift; [apply varint_Append_venc; by vm_compute|]. apply wp_bind. rewrite Hu. eapply wp_lift; [by apply varint_Append_venc|].
  apply wp_bind. eapply wp_lift; [by rewrite Etp|]. eapply wp_lift; [by apply MarshalForSessionTicket_eq|]. done.
Qed.

Lemma wp_GetSessionTicket h : su_ok h -> drained h -> wp GetSessionTicket (fun _ h' => served h h') (fun _ h' => served h h') h.
Proof.
  intros Hh Hd. pose proof (tls_ticket (suPerspective h) (suAllow0RTT h) (suConn h) (so_conn _ Hh) Hd) as Ht.
  assert (Hs : forall c, tls_ok (suPerspective h) c -> served h (w_Conn c h)) by (intros c Hc; split; [by apply served_conn|done]).
  unfold wp, GetSessionTicket, onConn, mbind, stM_bind in *. destruct (tls_SendSessionTicket (suAllow0RTT h) (suConn h)) as [[[]|e|m] c]; [|destruct (ticketsUnavailable e); by apply Hs|done].
  cbn [suConn w_Conn]. destruct (tls_NextEvent c) as [[ev|e|m] c1]; [|done|done]. destruct Ht as [[-> ->] Ht].
  rewrite !bool_decide_false by (by intros []). cbn [orb suConn w_Conn]. destruct (tls_NextEvent c1) as [[ev2|e|m] c2]; [|done|done].
  destruct Ht as [-> Hc2]. rewrite bool_decide_false by (by intros []). by apply Hs.
Qed.

(** *** Runs *)

(** The operations of the connection, and the callbacks that the TLS stack makes during
    [Start], [HandleData] and [SendSessionTicket]; they do not touch the TLS stack, so
    that a callback is an operation before the one in which it is made.  [SuRTT]: the
    RTT, which the crypto setup shares with the connection, has been updated. *)
Inductive su_op :=
  | SuStart | SuMessage (data : bytes) (lvl : EncryptionLevel) | SuNextEvent | SuDiscardInitial | SuConfirmed
  | SuChangeID (id : bytes) | SuAcked (pn : Z) | SuOpener | SuTicket | SuClose
  | SuMarshalState | SuRestoreState (data : bytes) | SuTicketData | SuUseTicket (data : bytes) (using0RTT : bool) | SuRTT (r : RTTStats).

Definition su_apply (op : su_op) : stM (cryptoSetup A T) unit :=
  match op with
  | SuStart => StartHandshake now random additional tls_bound
  | SuMessage data lvl => su_HandleMessage now random additional tls_bound data lvl
  | SuNextEvent => _ ← su_NextEvent; mret tt
  | SuDiscardInitial => DiscardInitialKeys
  | SuConfirmed => su_SetHandshakeConfirmed
  | SuChangeID id => ChangeConnectionID id
  | SuAcked pn => SetLargest1RTTAcked pn
  | SuOpener => _ ← Get1RTTOpener now; mret tt
  | SuTicket => _ ← GetSessionTicket; mret tt
  | SuClose => su_Close
  | SuMarshalState => _ ← marshalDataForSessionState; mret tt
  | SuRestoreState data => _ ← handleDataFromSessionState data; mret tt
  | SuTicketData => h ← get; _ ← lift (getDataForSessionTicket h); mret tt
  | SuUseTicket data using0RTT => _ ← handleSessionTicket data using0RTT; mret tt
  | SuRTT r => modify (w_RTTStats r)
  end.

(** Is the TLS stack waiting, after an operation of the handshake without an error? *)
Definition su_waits (op : su_op) (r : res unit) (waits : bool) : bool :=
  match op with
  | SuStart | SuMessage _ _ => match r with Ok _ => true | _ => false end
  | SuTicket | SuClose => false
  | _ => waits
  end.

(** How the connection and the TLS stack call the operations: a ticket is asked for when
    the handshake is complete, and no events are left; the session state is saved when
    the peer's parameters are there; session data and tickets are those that the
    endpoint has written before, as far as their RTT goes. *)
Definition su_allowed (waits : bool) (op : su_op) h : Prop :=
  match op with
  | SuTicket => waits = true
  | SuMarshalState => is_Some (suPeerParams h)
  | SuRestoreState data | SuUseTicket data _ => bytes_ok data /\ ticket_rtt_ok data
  | SuRTT r => rtt_ok r
  | _ => True
  end.

Fixpoint su_legal (waits : bool) (ops : list su_op) h : Prop :=
  match ops with
  | [] => True
  | op :: ops' => su_allowed waits op h /\ let '(r, h') := su_apply op h in su_legal (su_waits op r waits) ops' h'
  end.

(** The errors on the way and the state; nothing if an operation panics. *)
Fixpoint su_run (ops : list su_op) h : option (list (su_op * GoError) * cryptoSetup A T) :=
  match ops with
  | [] => Some ([], h)
  | op :: ops' =>
      match su_apply op h with
      | (Ok _, h') => su_run ops' h'
      | (Err e, h') => '(errs, h'') ← su_run ops' h'; Some ((op, e) :: errs, h'')
      | (Panic _, _) => None
      end
  end.

Definition of_handshake (op : su_op) : Prop := match op with SuStart | SuMessage _ _ => True | _ => False end.

Lemma step_served h h' : step h h' -> served h h'.
Proof. by intros (? & ? & _). Qed.

(** What every operation keeps; if the TLS stack waits, it has no events. *)
Definition kept (waits : bool) h h' : Prop := served h h' /\ (waits = true -> drained h').

Lemma step_kept waits h h' : (waits = true -> drained h) -> step h h' -> kept waits h h'.
Proof. intros Hd (? & ? & Hp). split; [done|]. intros Hw. specialize (Hd Hw). unfold drained in *. lia. Qed.

(** The operations that leave the TLS stack alone. *)
Lemma wp_su_keys op h : su_ok h -> match op with SuNextEvent | SuDiscardInitial | SuConfirmed | SuChangeID _ | SuAcked _ | SuOpener => True | _ => False end ->
  wp (su_apply op) (fun _ h' => step h h') (fun _ h' => step h h') h.
Proof.
  intros Hh Hop. pose proof (step_refl h Hh) as Hr. destruct op as [|data lvl| | | |id|pn| | | | | | | |]; try done; cbn [su_apply].
  - unfold su_NextEvent. apply wp_bind, wp_bind, wp_get. destruct (suEvents h); [by apply wp_ret, wp_ret|].
    apply wp_bind, wp_modify, wp_ret, wp_ret. su_set.
  - apply wp_modify. su_set.
  - unfold su_SetHandshakeConfirmed. apply wp_bind, wp_suAead, wp_modify, wp_bind, wp_get.
    assert (Hc : step h (w_Aead (ua_confirmed (suAead h)) h)).
    { apply step_aead; [done|by destruct (so_aead _ Hh) as [|]; [left|right]|]. intros Hx. destruct (ko_short _ (so_keys _ Hh) Hx). by constructor. }
    case_bool_decide; [|by apply wp_ret]. apply wp_modify. eapply step_trans; [exact Hc|].
    assert (Ho : step _ (w_HandshakeOpener None (w_Aead (ua_confirmed (suAead h)) h))) by apply step_handshakeOpener, Hc.
    eapply step_trans; [exact Ho|]. apply step_handshakeSealer; [apply Ho|done].
  - unfold ChangeConnectionID. apply wp_bind, wp_get, wp_bind. destruct (initial_keys_match id (suVersion h)) as (cs & co & ss & so & Ec & Es & Kc & Ks & _).
    assert (Hk : forall (s : longHeaderSealer A) o, keys_match s o -> sealer_ok s).
    { intros s o []. constructor; [by rewrite km_aead|by rewrite km_hp|done]. }
    destruct (suPerspective h); (eapply wp_lift; [eassumption|]); apply wp_modify;
      destruct Hh as [? Hkk%keys_ok_iff ? ? ? ?]; (split; [|done]); constructor; try done; apply keys_ok_iff; cbn; naive_solver.
  - unfold SetLargest1RTTAcked, SetLargestAcked. apply wp_suAead, wp_bind, wp_get. destruct (_ && _ && _).
    + unfold wp, throw. by destruct h.
    + apply wp_modify, step_aead; [done|by destruct (so_aead _ Hh) as [|]; [left|right]|].
      intros Hx. destruct (ko_short _ (so_keys _ Hh) Hx). by constructor.
  - unfold Get1RTTOpener. apply wp_bind, wp_bind, wp_get, wp_bind.
    assert (Hz : step h (w_ZeroRTTOpener None h)) by by apply step_zeroOpener.
    destruct (bool_decide _ && _); [apply wp_modify|apply wp_ret]; (destruct (negb (suHas1RTTOpener h)); [by unfold wp, throw|]); by apply wp_bind, wp_get, wp_ret, wp_ret.
Qed.

Lemma wp_su_callback waits op h : su_ok h -> su_allowed waits op h ->
  match op with SuMarshalState | SuRestoreState _ | SuTicketData | SuUseTicket _ _ | SuRTT _ => True | _ => False end ->
  wp (su_apply op) (fun _ h' => step h h') (fun _ h' => step h h') h.
Proof.
  intros Hh Hal Hop. pose proof (step_refl h Hh) as Hr. destruct op; try done; cbn [su_apply su_allowed] in *.
  - apply wp_bind. eapply wp_mono; [| |by apply wp_marshalDataForSessionState]; [|done]. intros ? ? ->. by apply wp_ret.
  - apply wp_bind. eapply wp_mono; [| |by apply wp_handleDataFromSessionState; [|apply Hal..]]; [|done]. intros ? ? ?. by apply wp_ret.
  - apply wp_bind, wp_get, wp_bind. destruct (getDataForSessionTicket_total h Hh) as [data E]. eapply wp_lift; [exact E|]. by apply wp_ret.
  - apply wp_bind. eapply wp_mono; [| |by apply wp_handleSessionTicket; [|apply Hal..]]; [|done]. intros ? ? ?. by apply wp_ret.
  - apply wp_modify. by apply step_rtt.
Qed.

Lemma wp_su_apply waits op h : su_ok h -> (waits = true -> drained h) -> su_allowed waits op h ->
  wp (su_apply op) (fun _ h' => kept (su_waits op (Ok tt) waits) h h')
    (fun e h' => kept (su_waits op (Err e) waits) h h' /\ (of_handshake op -> closes e)) h.
Proof.
  intros Hh Hd Hal.
  assert (Hstep : wp (su_apply op) (fun _ h' => step h h') (fun _ h' => step h h') h -> (forall r, su_waits op r waits = waits) -> ~ of_handshake op ->
    wp (su_apply op) (fun _ h' => kept (su_waits op (Ok tt) waits) h h') (fun e h' => kept (su_waits op (Err e) waits) h h' /\ (of_handshake op -> closes e)) h).
  { intros Hw Hr Ho. eapply wp_mono; [| |exact Hw]; [intros [] h' Hs|intros e h' Hs]; rewrite Hr; [by apply step_kept|]. split; [by apply step_kept|done]. }
  destruct op; try by (apply Hstep; [first [by apply wp_su_keys|by eapply wp_su_callback]|reflexivity|by intros []]); clear Hstep; cbn [su_apply su_waits].
  - eapply wp_mono; [| |by apply wp_StartHandshake]; [by intros [] h' [? ?]|]. intros e h' [? ?]. by split.
  - eapply wp_mono; [| |by apply wp_su_HandleMessage]; [by intros [] h' [? ?]|]. intros e h' [? ?]. by split.
  - apply wp_bind. eapply wp_mono; [| |by apply wp_GetSessionTicket; [|apply Hd]]; [intros ? h' ?; by apply wp_ret|done].
  - apply wp_suConn. assert (Hs : forall c, tls_ok (suPerspective h) c -> kept false h (w_Conn c h)) by (intros c Hc; split; [|done]; split; [by apply served_conn|done]).
    eapply wp_mono; [| |apply (tls_close (suPerspective h)), Hh]; [intros [] c Hc; by apply Hs|intros e c Hc; split; [by apply Hs|done]].
Qed.

Lemma new_ok conn connID tp rtt allow pers v h : tls_ok pers conn -> tp_ok tp -> rtt_ok rtt -> newCryptoSetup conn connID tp rtt allow pers v = Ok h ->
  su_ok h /\ suPerspective h = pers.
Proof.
  intros Hc Htp Hrtt Hn. unfold newCryptoSetup in Hn. destruct (initial_keys_match connID v) as (cs & co & ss & so & Ec & Es & Kc & Ks & _).
  assert (Hk : forall (s : longHeaderSealer A) o, keys_match s o -> sealer_ok s).
  { intros s o []. constructor; [by rewrite km_aead|by rewrite km_hp|done]. }
  destruct pers; rewrite ?Ec, ?Es in Hn; cbn in Hn; injection Hn as <-; (split; [|done]); (constructor; [done| |by left|done|done|done]); apply keys_ok_iff; cbn; naive_solver.
Qed.

Lemma su_run_ok ops : forall waits h, su_ok h -> (waits = true -> drained h) -> su_legal waits ops h ->
  exists errs h', su_run ops h = Some (errs, h') /\ served h h' /\ forall op e, In (op, e) errs -> of_handshake op -> closes e.
Proof.
  induction ops as [|op ops IH]; intros waits h Hh Hd Hl; cbn [su_run]; [by exists [], h|]. cbn [su_legal] in Hl. destruct Hl as [Hal Hl].
  pose proof (wp_su_apply waits op h Hh Hd Hal) as Hw. unfold wp in Hw. destruct (su_apply op h) as [[[]|e|m] h1]; [| |done].
  - destruct Hw as [[H1 E1] Hd1]. destruct (IH _ h1 H1 Hd1 Hl) as (errs & h' & -> & [H2 E2] & He). exists errs, h'. split; [done|]. split; [by split; [|congruence]|done].
  - destruct Hw as [[[H1 E1] Hd1] Hcl]. destruct (IH _ h1 H1 Hd1 Hl) as (errs & h' & -> & [H2 E2] & He). exists ((op, e) :: errs), h'. split; [done|].
    split; [by split; [|congruence]|]. intros op' e' [[= <- <-]|Hin]; [done|by eapply He].
Qed.

(** C18: The crypto setup serves the connection, whatever the TLS stack does within
    its contract.  In every run of the operations of a new crypto setup and of its
    callbacks for session tickets, in which a ticket is only asked for when no events
    of TLS are left, the session state is only saved when the peer's parameters are
    there and the RTT in the data of tickets is a duration, nothing panics and the
    loop over the events of TLS ends; every sealer that it hands out is one that the
    packer can seal with; the peer's transport parameters are valid ones of the other
    side; and an error of the handshake is a transport error, a TLS alert or
    INTERNAL_ERROR. *)
Theorem crypto_setup_serves ops conn connID tp rtt allow pers v h :
  tls_ok pers conn -> tp_ok tp -> rtt_ok rtt -> newCryptoSetup conn connID tp rtt allow pers v = Ok h -> su_legal false ops h ->
  exists errs h', su_run ops h = Some (errs, h') /\ keys_ok h' /\
    (forall q, suPeerParams h' = Some q -> tp_valid (Perspective_Opposite pers) q) /\
    (forall op e, In (op, e) errs -> of_handshake op -> closes e).
Proof.
  intros Hc Htp Hrtt Hn Hl. destruct (new_ok _ _ _ _ _ _ _ _ Hc Htp Hrtt Hn) as [Hh <-].
  destruct (su_run_ok ops false h Hh ltac:(done) Hl) as (errs & h' & Er & [Hh' Ep] & He).
  exists errs, h'. split; [done|]. split; [apply Hh'|]. split; [|done]. intros q Hq. rewrite <- Ep. by apply Hh'.
Qed.
End setup.

(** ** A defect *)

(** The time at which the handshake completed is zero until then, so that a short
    header packet that arrives before the handshake is complete, for which there are
    no keys yet, makes the server drop its 0-RTT keys at once. *)
Theorem zero_rtt_keys_dropped_early {A T : Type} `{Crypto A} (h : cryptoSetup A T) now :
  is_Some (suZeroRTTOpener h) -> suHas1RTTOpener h = false -> suHandshakeCompleteTime h = zeroTime ->
  i64 (3 * PTO (suRTTStats h) true) < now < 2 ^ 63 -> 0 < now ->
  Get1RTTOpener now h = (Err ErrKeysNotYetAvailable, w_ZeroRTTOpener None h).
Proof.
  intros Hz Hn Ht Hnow Hpos. unfold Get1RTTOpener, mbind, stM_bind, get, modify, mret, stM_ret, throw. rewrite Hn, Ht.
  rewrite bool_decide_true by done. unfold Time_Sub, zeroTime. rewrite Z.min_r, Z.max_r by lia.
  by ztrue (i64 (3 * PTO (suRTTStats h) true) <? now - 0).
Qed.

(** ** A TLS stack that satisfies the laws

    It plays the events of a client's handshake. *)

#[local] Instance toyTLS : TLSConn (list QUICEvent) := {
  tls_Start := mret tt;
  tls_HandleData _ _ := mret tt;
  tls_NextEvent c := match c with [] => (Ok (mkQUICEvent QUICNoEvent QUICEncryptionLevelInitial 0 []), []) | ev :: c' => (Ok ev, c') end;
  tls_SetTransportParameters _ := mret tt;
  tls_SendSessionTicket _ c :=
    match c with
    | [] => (Ok tt, [mkQUICEvent QUICWriteData QUICEncryptionLevelApplication 0 [4; 2]])
    | _ => (Err (ErrorString "tls: SendSessionTicket called before handshake completed"), c)
    end;
  tls_Close := mret tt;
  alertOf _ := None
}.

#[local] Instance toyTLS_laws : TLSLaws (list QUICEvent).
Proof.
  refine {| tls_ok pers c := Forall (fun ev => event_ok pers ev /\ qeKind ev <> QUICNoEvent) c /\ (length c <= 10)%nat; tls_pending c := length c; tls_bound := 10%nat |}.
  - by intros pers c [_ ?].
  - intros pers c Hc. by apply wp_ret.
  - intros pers lvl d c Hc. by apply wp_ret.
  - intros pers [|ev c] [Hc Hl]; [by split_and!|]. apply Forall_cons in Hc as [[Hev Hk] Hc]. cbn in Hl |- *.
    split; [by split; [|lia]|]. split; [done|]. rewrite decide_False by done. lia.
  - intros pers b c Hc. apply wp_ret. by split.
  - intros pers early [|ev c] Hc Hp; [|done]. by split_and!.
  - intros pers c Hc. by apply wp_ret.
  - done.
Defined.

(** A server gets its keys and the transport parameters of the client. *)
Definition toy_handshake : list QUICEvent :=
  [mkQUICEvent QUICTransportParameters QUICEncryptionLevelInitial 0 [4; 1; 7; 15; 2; 8; 9];
   mkQUICEvent QUICTransportParametersRequired QUICEncryptionLevelInitial 0 [];
   mkQUICEvent QUICWriteData QUICEncryptionLevelInitial 0 [1; 2];
   mkQUICEvent QUICSetWriteSecret QUICEncryptionLevelHandshake TLS_AES_128_GCM_SHA256 [4];
   mkQUICEvent QUICSetReadSecret QUICEncryptionLevelHandshake TLS_AES_128_GCM_SHA256 [3];
   mkQUICEvent QUICSetWriteSecret QUICEncryptionLevelApplication TLS_AES_128_GCM_SHA256 [6];
   mkQUICEvent QUICSetReadSecret QUICEncryptionLevelApplication TLS_AES_128_GCM_SHA256 [5];
   mkQUICEvent QUICHandshakeDone QUICEncryptionLevelInitial 0 []].

Definition toy_cryptoSetup : res (cryptoSetup bytes (list QUICEvent)) :=
  newCryptoSetup toy_handshake [4; 5; 6; 7] ex_params NewRTTStats true PerspectiveServer Version1.

Lemma toy_handshake_ok : tls_ok PerspectiveServer toy_handshake.
Proof.
  split; [|cbn; lia]. repeat (apply Forall_cons; split); try apply Forall_nil_2; (split; [|done]); unfold event_ok; cbn [qeKind qeLevel qeSuite qeData];
    first [done|by left|by apply (bool_decide_unpack _); vm_compute|split; [by eexists; vm_compute|auto]].
Qed.

(** The server uses the ticket of an earlier connection, completes the handshake, issues
    a ticket and discards keys that it no longer needs. *)
Definition toy_ops : list su_op :=
  [SuUseTicket [4; 7] false; SuStart; SuMessage [7] EncryptionHandshake; SuTicketData; SuTicket; SuMarshalState; SuDiscardInitial; SuConfirmed; SuOpener; SuClose].

Lemma toy_ops_legal : match toy_cryptoSetup with Ok h => su_legal 5 (replicate 18 5) [] false toy_ops h | _ => False end.
Proof.
  destruct toy_cryptoSetup as [h| |] eqn:E; [|vm_compute in E; discriminate E..]. split.
  - split; [by apply (bool_decide_unpack _); vm_compute|]. apply (ticket_data_ok 4 7000 []); [by vm_compute|lia].
  - vm_compute in E. injection E as <-. vm_compute. by repeat split; eexists.
Qed.

Lemma crypto_setup_serves_witness : exists h errs h', toy_cryptoSetup = Ok h /\
  su_run 5 (replicate 18 5) [] toy_ops h = Some (errs, h') /\
  keys_ok h' /\ (forall q, suPeerParams h' = Some q -> tp_valid PerspectiveClient q) /\
  (forall op e, In (op, e) errs -> of_handshake op -> closes e).
Proof.
  pose proof toy_ops_legal as Hl. destruct toy_cryptoSetup as [h| |] eqn:E; [|destruct Hl..]. exists h.
  destruct (crypto_setup_serves 5 (replicate 18 5) [] ltac:(split; [by repeat constructor|done]) ltac:(split; [constructor|by apply (bool_decide_unpack _)])
    toy_ops toy_handshake [4; 5; 6; 7] ex_params NewRTTStats true
    PerspectiveServer Version1 h toy_handshake_ok ex_params_ok ltac:(by vm_compute) E Hl) as (errs & h' & Er & Hk & Hp & He).
  exists errs, h'. split; [reflexivity|]. split; [exact Er|]. split; [exact Hk|]. split; [exact Hp|exact He].
Defined.

(** A ticket of a server is accepted by the same server, and by none that allows less data. *)
Definition toy_server_setup (tp : TransportParameters) : cryptoSetup bytes unit :=
  mkCryptoSetup tt [] Version1 tp None None true (SetInitialRTT NewRTTStats 1234567) PerspectiveServer zeroTime None None None None None None false
    (newUpdatableAEAD Version1) false false.

Lemma zero_rtt_accepted_iff_witness :
  exists data accepted rtt', getDataForSessionTicket (toy_server_setup ex_params) = Ok data /\
    handleSessionTicket data true (toy_server_setup ex_params) = (Ok accepted, w_RTTStats rtt' (toy_server_setup ex_params)) /\
    smoothedRTT rtt' = 1234000 /\ accepted = true.
Proof.
  destruct (zero_rtt_accepted_iff (toy_server_setup ex_params) (toy_server_setup ex_params) true ex_params_ok (to_datagram _ ex_params_ok)
    ltac:(by vm_compute)) as (data & accepted & rtt' & E1 & E2 & -> & Hiff).
  exists data, accepted, (SetInitialRTT (suRTTStats (toy_server_setup ex_params)) (in_us (smoothedRTT (suRTTStats (toy_server_setup ex_params))))).
  split; [exact E1|]. split; [exact E2|]. split; [reflexivity|]. apply Hiff. vm_compute. intuition congruence.
Defined.
