(* ===== verification/PacketHandling.v ===== *)
(** * PacketHandling: from a datagram to its packets

    Models the part of connection.go that takes a datagram apart: [handlePacketImpl],
    [handleLongHeaderPacket], [handleShortHeaderPacket], [handleUnpackError],
    [tryQueueingUndecryptablePacket], [handleRetryPacket] and
    [handleVersionNegotiationPacket], the ways to close a connection, and retry.go of
    the handshake.  What becomes of a decrypted packet is Connection.v.  The unpacker,
    the connection ID manager, the crypto setup and the packer are the class
    [PacketOps], which Endpoint.v provides. *)

From stdpp Require Import base numbers list option strings.
From S2P Require Import Prelude Protocol Varint AckFrame ReceivedHistory ReceivedTracker SentHistory PNGenerator Ecn GoFloat RTTStats Congestion SentPacketHandler.
From S2P Require Import Frames FrameParser Connection CryptoStream Headers Protection KeyUpdate Unpacker TransportParams CryptoSetup.
From Stdlib Require Import ZArith Lia.
#[local] Open Scope Z_scope.

(** ** Retry packets *)

Section retry.
Context {C : Type} `{Crypto C}.

Definition retryAEADv1 : C :=
  newAEAD TLS_AES_128_GCM_SHA256 [0xbe; 0x0c; 0x69; 0x0b; 0x9f; 0x66; 0x57; 0x5a; 0x1d; 0x76; 0x6b; 0x54; 0xe3; 0x68; 0xc8; 0x4e].
Definition retryAEADv2 : C :=
  newAEAD TLS_AES_128_GCM_SHA256 [0x8f; 0xb4; 0xb0; 0x1b; 0x56; 0xac; 0x48; 0xe2; 0x60; 0xfb; 0xcb; 0xce; 0xad; 0x7c; 0xcc; 0x92].
Definition retryNonceV1 : bytes := [0x46; 0x15; 0x99; 0xd3; 0x5d; 0x63; 0x2b; 0xf2; 0x23; 0x98; 0x25; 0xbb].
Definition retryNonceV2 : bytes := [0xd8; 0x69; 0x69; 0xbc; 0x2d; 0x7c; 0x6d; 0x99; 0x90; 0xef; 0xb0; 0x4a].

Definition GetRetryIntegrityTag (retry origDestConnID : bytes) (version : Z) : res bytes :=
  let retryBuf := [u8 (blen origDestConnID)] ++ origDestConnID ++ retry in
  let sealed := if version =? Version2 then aead_Seal retryAEADv2 retryNonceV2 [] retryBuf
                else aead_Seal retryAEADv1 retryNonceV1 [] retryBuf in
  if negb (blen sealed =? 16) then Panic "unexpected Retry integrity tag length: %d" else Ok sealed.
End retry.

(** ** The state *)

(** A datagram; its buffer, its addresses and the control information are left out. *)
Record receivedPacket := mkReceived { rpData : bytes; rpRcvTime : Z; rpECN : ECN }.

(** Why a connection is closed: an error, an error of the application, a timeout, a
    stateless reset, no common version, or that the client starts again with another version. *)
Inductive closeCause :=
  | CloseNil
  | CloseErr (e : GoError)
  | CloseIdleTimeout
  | CloseHandshakeTimeout
  | CloseStatelessReset (token : bytes)
  | CloseApplication (code : Z) (msg : bytes)
  | CloseNoVersion (ours theirs : list Z)
  | CloseForRecreating (nextPacketNumber nextVersion : Z).

Record closeError := mkCloseError { ceErr : closeCause; ceImmediate : bool; ceRemote : bool }.

(** Of the configuration, what is used here. *)
Record Config := mkConfig { cfVersions : list Z; cfHandshakeIdleTimeout : Z; cfMaxIdleTimeout : Z; cfKeepAlivePeriod : Z }.

(** [utils.Timer]: whether its channel was read, and its deadline. *)
Record Timer := mkTimer { tmRead : bool; tmDeadline : Z }.
Record connectionTimer := mkConnectionTimer { ctTimer : Timer; ctLast : Z }.

(** [rvClose] is what was put into [closeChan], by the first call of [closeOnce.Do]. *)
Record receiver (X : Type) := mkReceiver {
  rvConfig : Config;
  rvVersion : Z;
  rvSrcConnIDLen : Z;
  rvOrigDestConnID : bytes;
  rvCreationTime : Z;
  rvVersionNegotiated : bool;
  rvReceivedRetry : bool;
  rvRetrySrcConnID : option bytes;
  rvUndecryptable : list receivedPacket;      (* undecryptablePackets *)
  rvToProcess : list receivedPacket;          (* undecryptablePacketsToProcess *)
  rvPeerParams : option TransportParameters;
  rvEarlyReady : bool;                        (* is earlyConnReadyChan closed? *)
  rvIdleTimeout : Z;
  rvKeepAliveInterval : Z;
  rvTimer : connectionTimer;
  rvClose : option closeError;
  rvRest : X
}.
Arguments mkReceiver {X} _ _ _ _ _ _ _ _ _ _ _ _ _ _ _ _ _.
Arguments rvConfig {X} _.
Arguments rvVersion {X} _.
Arguments rvSrcConnIDLen {X} _.
Arguments rvOrigDestConnID {X} _.
Arguments rvCreationTime {X} _.
Arguments rvVersionNegotiated {X} _.
Arguments rvReceivedRetry {X} _.
Arguments rvRetrySrcConnID {X} _.
Arguments rvUndecryptable {X} _.
Arguments rvToProcess {X} _.
Arguments rvPeerParams {X} _.
Arguments rvEarlyReady {X} _.
Arguments rvIdleTimeout {X} _.
Arguments rvKeepAliveInterval {X} _.
Arguments rvTimer {X} _.
Arguments rvClose {X} _.
Arguments rvRest {X} _.

Definition rv_rest {X} (v : X) (r : receiver X) : receiver X :=
  mkReceiver (rvConfig r) (rvVersion r) (rvSrcConnIDLen r) (rvOrigDestConnID r) (rvCreationTime r) (rvVersionNegotiated r)
    (rvReceivedRetry r) (rvRetrySrcConnID r) (rvUndecryptable r) (rvToProcess r) (rvPeerParams r) (rvEarlyReady r)
    (rvIdleTimeout r) (rvKeepAliveInterval r) (rvTimer r) (rvClose r) v.
Definition rv_undecryptable {X} (v : list receivedPacket) (r : receiver X) : receiver X :=
  mkReceiver (rvConfig r) (rvVersion r) (rvSrcConnIDLen r) (rvOrigDestConnID r) (rvCreationTime r) (rvVersionNegotiated r)
    (rvReceivedRetry r) (rvRetrySrcConnID r) v (rvToProcess r) (rvPeerParams r) (rvEarlyReady r) (rvIdleTimeout r)
    (rvKeepAliveInterval r) (rvTimer r) (rvClose r) (rvRest r).
Definition rv_toProcess {X} (v : list receivedPacket) (r : receiver X) : receiver X :=
  mkReceiver (rvConfig r) (rvVersion r) (rvSrcConnIDLen r) (rvOrigDestConnID r) (rvCreationTime r) (rvVersionNegotiated r)
    (rvReceivedRetry r) (rvRetrySrcConnID r) (rvUndecryptable r) v (rvPeerParams r) (rvEarlyReady r) (rvIdleTimeout r)
    (rvKeepAliveInterval r) (rvTimer r) (rvClose r) (rvRest r).
Definition rv_close {X} (v : option closeError) (r : receiver X) : receiver X :=
  mkReceiver (rvConfig r) (rvVersion r) (rvSrcConnIDLen r) (rvOrigDestConnID r) (rvCreationTime r) (rvVersionNegotiated r)
    (rvReceivedRetry r) (rvRetrySrcConnID r) (rvUndecryptable r) (rvToProcess r) (rvPeerParams r) (rvEarlyReady r)
    (rvIdleTimeout r) (rvKeepAliveInterval r) (rvTimer r) v (rvRest r).
Definition rv_retry {X} (received : bool) (src : option bytes) (r : receiver X) : receiver X :=
  mkReceiver (rvConfig r) (rvVersion r) (rvSrcConnIDLen r) (rvOrigDestConnID r) (rvCreationTime r)
    (rvVersionNegotiated r) received src (rvUndecryptable r) (rvToProcess r) (rvPeerParams r) (rvEarlyReady r) (rvIdleTimeout r)
    (rvKeepAliveInterval r) (rvTimer r) (rvClose r) (rvRest r).
Definition rv_peerParams {X} (v : option TransportParameters) (r : receiver X) : receiver X :=
  mkReceiver (rvConfig r) (rvVersion r) (rvSrcConnIDLen r) (rvOrigDestConnID r) (rvCreationTime r) (rvVersionNegotiated r)
    (rvReceivedRetry r) (rvRetrySrcConnID r) (rvUndecryptable r) (rvToProcess r) v (rvEarlyReady r) (rvIdleTimeout r)
    (rvKeepAliveInterval r) (rvTimer r) (rvClose r) (rvRest r).
Definition rv_earlyReady {X} (v : bool) (r : receiver X) : receiver X :=
  mkReceiver (rvConfig r) (rvVersion r) (rvSrcConnIDLen r) (rvOrigDestConnID r) (rvCreationTime r) (rvVersionNegotiated r)
    (rvReceivedRetry r) (rvRetrySrcConnID r) (rvUndecryptable r) (rvToProcess r) (rvPeerParams r) v (rvIdleTimeout r)
    (rvKeepAliveInterval r) (rvTimer r) (rvClose r) (rvRest r).
Definition rv_timeouts {X} (idle keepAlive : Z) (r : receiver X) : receiver X :=
  mkReceiver (rvConfig r) (rvVersion r) (rvSrcConnIDLen r) (rvOrigDestConnID r) (rvCreationTime r) (rvVersionNegotiated r)
    (rvReceivedRetry r) (rvRetrySrcConnID r) (rvUndecryptable r) (rvToProcess r) (rvPeerParams r) (rvEarlyReady r) idle keepAlive
    (rvTimer r) (rvClose r) (rvRest r).
Definition rv_timer {X} (v : connectionTimer) (r : receiver X) : receiver X :=
  mkReceiver (rvConfig r) (rvVersion r) (rvSrcConnIDLen r) (rvOrigDestConnID r) (rvCreationTime r) (rvVersionNegotiated r)
    (rvReceivedRetry r) (rvRetrySrcConnID r) (rvUndecryptable r) (rvToProcess r) (rvPeerParams r) (rvEarlyReady r)
    (rvIdleTimeout r) (rvKeepAliveInterval r) v (rvClose r) (rvRest r).

(** What handling a datagram calls in the other subsystems. *)
Class PacketOps (X : Type) := {
  (* unpacker *)
  ops_UnpackLongHeader : Header -> bytes -> stM X unpackedPacket;
  ops_UnpackShortHeader : RTTStats -> Z -> bytes -> stM X (Z * Z * KeyPhaseBit * bytes);
  (* connIDManager.Get *)
  ops_GetDestConnID : stM X bytes;
  (* cryptoStreamHandler.ChangeConnectionID *)
  ops_ChangeConnectionID : bytes -> stM X unit;
  (* packer.SetToken *)
  ops_SetToken : bytes -> X -> X;
  ops_scheduleSending : X -> X
}.

Definition MaxUndecryptablePackets : Z := 32.

Section model.
Context {A X C : Type} `{SendAlgorithm A} `{PacketOps X} `{ConnectionOps A (receiver X)} `{Crypto C}.
(** [now] is the time, [log] says whether packets are traced; [rng] are the random
    words for skipped packet numbers. *)
Context (rng : nat -> Z) (now : Z) (log : bool).
Abbreviation hM := (stM (connection A (receiver X))).
Implicit Types c : connection A (receiver X).

Definition modifyRv (f : receiver X -> receiver X) : hM unit := modify (fun c => c_rest (f (cRest c)) c).

Definition onX {B} (m : stM X B) : hM B := fun c =>
  let '(r, x) := m (rvRest (cRest c)) in (r, c_rest (rv_rest x (cRest c)) c).

(** The error as a value. *)
Definition attempt {B} (m : hM B) : hM (GoError + B) := fun c =>
  match m c with
  | (Ok b, c') => (Ok (inr b), c')
  | (Err e, c') => (Ok (inl e), c')
  | (Panic p, c') => (Panic p, c')
  end.

(** *** Closing *)

Definition closeOnce (e : closeError) : hM unit :=
  modifyRv (fun r => match rvClose r with None => rv_close (Some e) r | Some _ => r end).

Definition closeLocal (e : closeCause) : hM unit := closeOnce (mkCloseError e false false).
Definition destroyImpl (e : closeCause) : hM unit := closeOnce (mkCloseError e true false).
Definition closeRemote (e : closeCause) : hM unit := closeOnce (mkCloseError e true true).

(** *** Packets that cannot be decrypted *)

Definition tryQueueingUndecryptablePacket (p : receivedPacket) : hM unit :=
  c ← get;
  if handshakeComplete c then lift (Panic "shouldn't queue undecryptable packets after handshake completion")
  else if MaxUndecryptablePackets <? blen (rvUndecryptable (cRest c)) + 1 then mret tt
  else modifyRv (fun r => rv_undecryptable (rvUndecryptable r ++ [p]) r).

(** Returns whether the packet was queued. *)
Definition handleUnpackError (err : GoError) (p : receivedPacket) : hM bool :=
  if decide (err = ErrKeysDropped) then mret false
  else if decide (err = ErrKeysNotYetAvailable) then _ ← tryQueueingUndecryptablePacket p; mret true
  else if decide (err = ErrInvalidReservedBits) then
    _ ← closeLocal (CloseErr (TransportError ProtocolViolation 0 (error_text err))); mret false
  else if decide (err = ErrDecryptionFailed) then mret false
  else match err with
  | HeaderParseError _ => mret false
  | _ => _ ← closeLocal (CloseErr err); mret false
  end.

(** *** Retry and Version Negotiation *)

Definition setHandshakeDestConnID (id : bytes) c : connection A (receiver X) :=
  mkConn (cPerspective c) (cEnableInstantACK c) (receivedFirstPacket c) id (handshakeComplete c) (cHandshakeConfirmed c)
    (lastPacketReceivedTime c) (firstAckElicitingPacketAfterIdleSentTime c) (keepAlivePingSent c) (cSent c) (cReceived c)
    (cParser c) (cRest c).

Definition handleRetryPacket (hdr : Header) (data : bytes) (rcvTime : Z) : hM bool :=
  c ← get;
  if bool_decide (cPerspective c = PerspectiveServer) then mret false
  else if receivedFirstPacket c then mret false
  else
    destConnID ← onX ops_GetDestConnID;
    if bool_decide (hSrcConnectionID hdr = destConnID) then mret false
    else if rvReceivedRetry (cRest c) then mret false
    else
      retry ← lift (sliceOf data 0 (blen data - 16));
      tag ← lift (GetRetryIntegrityTag (C := C) retry destConnID (hVersion hdr));
      tag' ← lift (sliceOf data (blen data - 16) (blen data));
      if negb (bool_decide (tag' = tag)) then mret false
      else
        let newDestConnID := hSrcConnectionID hdr in
        _ ← modifyRv (fun r => rv_retry true (rvRetrySrcConnID r) r);
        r ← attempt (onSent (ResetForRetry rng rcvTime));
        match r with
        | inl err => _ ← closeLocal (CloseErr err); mret false
        | inr _ =>
            _ ← modify (setHandshakeDestConnID newDestConnID);
            _ ← modifyRv (fun r => rv_retry true (Some newDestConnID) r);
            _ ← onX (ops_ChangeConnectionID newDestConnID);
            _ ← modifyRv (fun r => rv_rest (ops_SetToken (hToken hdr) (rvRest r)) r);
            _ ← modifyRv (ops_ChangeInitialConnID newDestConnID);
            _ ← modifyRv (fun r => rv_rest (ops_scheduleSending (rvRest r)) r);
            mret true
        end.

Definition handleVersionNegotiationPacket (p : receivedPacket) : hM unit :=
  c ← get;
  if bool_decide (cPerspective c = PerspectiveServer) || receivedFirstPacket c || rvVersionNegotiated (cRest c) then mret tt
  else
    r ← attempt (lift (ParseVersionNegotiationPacket (rpData p)));
    match r with
    | inl _ => mret tt
    | inr (_, _, supportedVersions) =>
        let r := cRest c in
        if existsb (Z.eqb (rvVersion r)) supportedVersions then mret tt
        else
          let '(newVersion, ok) := ChooseSupportedVersion (cfVersions (rvConfig r)) supportedVersions in
          if negb ok then destroyImpl (CloseNoVersion (cfVersions (rvConfig r)) supportedVersions)
          else
            '(nextPN, _) ← lift (sph_PeekPacketNumber (cSent c) EncryptionInitial);
            destroyImpl (CloseForRecreating nextPN newVersion)
    end.

(** *** Packets *)

(** The handlers return whether the packet was processed. *)
Definition handleShortHeaderPacket (p : receivedPacket) (destConnID : bytes) : hM bool :=
  c ← get;
  r ← attempt (onX (ops_UnpackShortHeader (rttStats (cSent c)) (rpRcvTime p) (rpData p)));
  match r with
  | inl err => _ ← handleUnpackError err p; mret false
  | inr (pn, _, _, data) =>
      duplicate ← lift (rhandler_IsPotentiallyDuplicate (cReceived c) pn Encryption1RTT);
      if duplicate : bool then mret false
      else
        r ← attempt (handleUnpackedShortHeaderPacket destConnID pn data (rpECN p) (rpRcvTime p) log now);
        match r with
        | inl err => _ ← closeLocal (CloseErr err); mret false
        | inr _ => mret true
        end
  end.

Definition handleLongHeaderPacket (p : receivedPacket) (hdr : Header) : hM bool :=
  if decide (hType hdr = Some PacketTypeRetry) then handleRetryPacket hdr (rpData p) (rpRcvTime p)
  else
    c ← get;
    if receivedFirstPacket c && bool_decide (hType hdr = Some PacketTypeInitial)
       && negb (bool_decide (hSrcConnectionID hdr = handshakeDestConnID c)) then mret false
    else if bool_decide (cPerspective c = PerspectiveClient) && bool_decide (hType hdr = Some PacketType0RTT) then mret false
    else
      r ← attempt (onX (ops_UnpackLongHeader hdr (rpData p)));
      match r with
      | inl err => _ ← handleUnpackError err p; mret false
      | inr packet =>
          duplicate ← lift (rhandler_IsPotentiallyDuplicate (cReceived c) (upPacketNumber packet) (upLevel packet));
          if duplicate : bool then mret false
          else
            r ← attempt (handleUnpackedLongHeaderPacket packet (rpECN p) (rpRcvTime p) log now);
            match r with
            | inl err => _ ← closeLocal (CloseErr err); mret false
            | inr _ => mret true
            end
      end.

(** The destination connection ID of a packet behind the first one, [None] if the rest
    of the datagram is dropped.  For the first packet it stays empty. *)
Definition coalescedDest (counter : Z) (data lastConnID : bytes) : hM (option bytes) :=
  if 0 <? counter then
    c ← get;
    r ← attempt (lift (header_ParseConnectionID data (rvSrcConnIDLen (cRest c))));
    match r with
    | inl _ => mret None
    | inr destConnID => mret (if bool_decide (destConnID = lastConnID) then Some destConnID else None)
    end
  else mret (Some []).

(** Every round consumes a byte. *)
Fixpoint handleCoalesced (fuel : nat) (rp : receivedPacket) (data : bytes) (counter : Z) (lastConnID : bytes) (processed : bool)
    : hM bool :=
  match data, fuel with
  | [], _ => mret processed
  | _, O => lift (Panic "out of fuel")
  | b0 :: _, S fuel' =>
      dest ← coalescedDest counter data lastConnID;
      match dest with
      | None => mret processed
      | Some destConnID =>
          if IsLongHeaderPacket b0 then
            r ← attempt (lift (ParsePacket data));
            match r with
            | inl _ | inr (UnsupportedVersion _) => mret processed
            | inr (ParsedPacket hdr packetData rest) =>
                c ← get;
                if negb (hVersion hdr =? rvVersion (cRest c)) then mret processed
                else
                  wasProcessed ← handleLongHeaderPacket (mkReceived packetData (rpRcvTime rp) (rpECN rp)) hdr;
                  handleCoalesced fuel' rp rest (u8 (counter + 1)) (hDestConnectionID hdr) (processed || wasProcessed)
            end
          else handleShortHeaderPacket (mkReceived data (rpRcvTime rp) (rpECN rp)) destConnID
      end
  end.

Definition handlePacketImpl (rp : receivedPacket) : hM bool :=
  _ ← onSent (ReceivedBytes (blen (rpData rp)) now);
  if IsVersionNegotiationPacket (rpData rp) then _ ← handleVersionNegotiationPacket rp; mret false
  else handleCoalesced (length (rpData rp)) rp (rpData rp) 0 [] false.
End model.
