(* ===== verification/PacketHandlingProofs.v ===== *)
(** * PacketHandlingProofs: datagrams that are not authentic

    A datagram in which no packet can be decrypted, whatever its bytes, is taken apart
    without a panic and changes nothing but the count of received bytes and the queue of
    packets that wait for keys, which is bounded. *)

From stdpp Require Import base numbers list option strings.
From S2P Require Import Prelude Protocol Varint AckFrame ReceivedHistory ReceivedTracker SentHistory PNGenerator Ecn GoFloat RTTStats Congestion SentPacketHandler SentPacketProofs.
From S2P Require Import Frames FrameParser Connection CryptoStream Headers HeaderProofs Protection ProtectionProofs KeyUpdate Unpacker UnpackerProofs CryptoSetup PackerProofs ConnIDs PacketHandling.
From Stdlib Require Import ZArith Lia.
#[local] Open Scope Z_scope.

(** ** Parsing *)

Lemma byteAt_total (data : bytes) i : 0 <= i < blen data -> exists b, byteAt data i = Ok b /\ (bytes_ok data -> is_u8 b).
Proof.
  intros Hi. unfold byteAt. destruct (lookup_lt_is_Some_2 data (Z.to_nat i)) as [b Hb]; [unfold blen in Hi; lia|].
  rewrite Hb. zfalse (i <? 0). exists b. split; [done|]. intros Hd. by apply (Forall_lookup_1 _ _ _ _ Hd Hb).
Qed.

(** The connection ID of a packet is read without a panic. *)
Lemma header_ParseConnectionID_total (data : bytes) n : bytes_ok data -> 0 <= n <= MaxConnIDLen ->
  match header_ParseConnectionID data n with Panic _ => False | _ => True end.
Proof.
  intros Hd Hn. unfold header_ParseConnectionID. pose proof (blen_nonneg data). destruct (Z.eqb_spec (blen data) 0); [done|].
  destruct (byteAt_total data 0 ltac:(lia)) as (b0 & -> & _). cbn [mbind res_bind]. destruct (negb _).
  - destruct (Z.ltb_spec (blen data) (n + 1)); [done|]. rewrite sliceOf_total by lia. cbn [mbind res_bind].
    rewrite (proj2 (Z.ltb_ge _ _)); [done|]. unfold blen in *. rewrite length_take. lia.
  - destruct (Z.ltb_spec (blen data) 6); [done|]. destruct (byteAt_total data 5 ltac:(lia)) as (l & -> & Hl). cbn [mbind res_bind].
    specialize (Hl Hd). unfold is_u8 in Hl. destruct (MaxConnIDLen <? l); [done|]. destruct (Z.ltb_spec (blen data) (6 + l)); [done|].
    by rewrite sliceOf_total by lia.
Qed.

(** A packet with a version that is not zero has a type, and is not a Version Negotiation packet. *)
Lemma parseLongHeader_inv tb r h sup r' : parseLongHeader tb r = (Ok (h, sup), r') ->
  (sup = true -> hVersion h <> 0 -> is_Some (hType h)) /\ (hVersion h <> 0 -> forall b, IsVersionNegotiationPacket (b :: r) = false).
Proof.
  unfold parseLongHeader, mbind, stM_bind. destruct (ReadUint32 r) as [[v| |] r1] eqn:Ev; [|done..]. destruct (_ && _); [done|].
  destruct (ReadByte r1) as [[n1| |] r2]; [|done..]. destruct (ReadConnectionID n1 r2) as [[dest| |] r3]; [|done..].
  destruct (ReadByte r3) as [[n2| |] r4]; [|done..]. destruct (ReadConnectionID n2 r4) as [[src| |] r5]; [|done..].
  assert (Hvn : v <> 0 -> forall b, IsVersionNegotiationPacket (b :: r) = false).
  { intros Hv b. destruct r as [|b4 [|b3 [|b2 [|b1 r0]]]]; try done. injection Ev as <- _. cbn [IsVersionNegotiationPacket].
    destruct (Z.eqb_spec b4 0), (Z.eqb_spec b3 0), (Z.eqb_spec b2 0), (Z.eqb_spec b1 0); rewrite ?andb_false_r; try done. by subst. }
  destruct (Z.eqb_spec v 0); [by intros [= <- _ _]|]. destruct (negb _); [by intros [= <- <- _]|].
  destruct (parseTypeDependent _ r5) as [[[token len]| |] r6]; [|done..]. intros [= <- _ _]. split; [by eexists|done].
Qed.

Lemma ParsePacket_inv data h packet rest : ParsePacket data = Ok (ParsedPacket h packet rest) -> hVersion h <> 0 ->
  is_Some (hType h) /\ IsVersionNegotiationPacket data = false /\ exists b0 data0, data = b0 :: data0 /\ IsLongHeaderPacket b0 = true.
Proof.
  unfold ParsePacket. destruct data as [|b0 data0]; [done|]. destruct (IsLongHeaderPacket b0) eqn:El; [|done]. unfold parseHeader, mbind, stM_bind at 1. cbn [reader_len ReadByte].
  unfold stM_bind. change (ReadByte (b0 :: data0)) with (Ok b0, data0).
  cbv beta iota. destruct (parseLongHeader b0 data0) as [[[h0 sup]| |] r] eqn:E; cbn -[sliceOf]; [|done..]. destruct sup; cbn -[sliceOf]; [|done].
  destruct (_ <? _); [done|]. destruct (sliceOf _ 0 _); cbn -[sliceOf]; [|done..]. destruct (sliceOf _ _ _); cbn -[IsVersionNegotiationPacket]; [|done..]. intros [= <- _ _] Hv.
  destruct (parseLongHeader_inv _ _ _ _ _ E) as [H1 H2]. split; [by apply H1|]. split; [by apply H2|by exists b0, data0].
Qed.

(** ** Errors of the unpacker *)

(** The packet is dropped, or it waits for its keys. *)
Definition dropped (e : GoError) : Prop := e = ErrKeysDropped \/ e = ErrDecryptionFailed \/ exists e', e = HeaderParseError e'.

Section forged.
Context {A X C : Type} `{SendAlgorithm A} `{PacketOps X} `{ConnectionOps A (receiver X)} `{Crypto C}.
Context (rng : nat -> Z) (now : Z) (log : bool).
(** [same x x']: the state [x'] of the other subsystems is [x], but for what a packet that
    is dropped may change. *)
Context (same : X -> X -> Prop) `{Hsame : !PreOrder same}.
Implicit Types c : connection A (receiver X).

(** Unpacking fails; keys may only be missing while the handshake goes on. *)
Definition unpack_error (complete : bool) (e : GoError) : Prop := dropped e \/ (e = ErrKeysNotYetAvailable /\ complete = false).

Definition fails {B} (complete : bool) (m : stM X B) (x : X) : Prop :=
  exists e x', m x = (Err e, x') /\ same x x' /\ unpack_error complete e.

(** No part of the datagram is a packet that can be decrypted. *)
Record forged (version : Z) (complete : bool) (d : bytes) (x0 : X) : Prop := {
  fg_long pre packet post hdr x : d = pre ++ packet ++ post -> ParsePacket (packet ++ post) = Ok (ParsedPacket hdr packet post) ->
    hVersion hdr = version -> hType hdr <> Some PacketTypeRetry -> same x0 x -> fails complete (ops_UnpackLongHeader hdr packet) x;
  fg_short pre packet rtt t x : d = pre ++ packet -> same x0 x -> fails complete (ops_UnpackShortHeader rtt t packet) x
}.

Lemma forged_same version complete d x0 x1 : same x0 x1 -> forged version complete d x0 -> forged version complete d x1.
Proof.
  intros Hs [Hl Hr]. constructor.
  - intros pre packet post hdr x Hd Hp Hv Ht Hx. eapply Hl; [done..|]. by etrans.
  - intros pre packet rtt t x Hd Hx. eapply Hr; [done|]. by etrans.
Qed.

(** [c'] is [c] but for what dropped packets change, and for packets that wait for their keys. *)
Record ignored (d : bytes) c c' : Prop := {
  ig_state : exists x ps, same (rvRest (cRest c)) x /\
    c' = c_rest (rv_rest x (rv_undecryptable (rvUndecryptable (cRest c) ++ ps) (cRest c))) c /\
    Forall (fun p => exists pre post, d = pre ++ rpData p ++ post) ps /\
    blen (rvUndecryptable (cRest c) ++ ps) <= Z.max MaxUndecryptablePackets (blen (rvUndecryptable (cRest c)))
}.

Lemma ignored_refl d c : ignored d c c.
Proof. constructor. exists (rvRest (cRest c)), []. rewrite app_nil_r. split_and!; [done|by destruct c as [????????????[]]|constructor|lia]. Qed.

Lemma ignored_trans d c1 c2 c3 : ignored d c1 c2 -> ignored d c2 c3 -> ignored d c1 c3.
Proof.
  intros [(x & ps & Hx & -> & Hp & Hl)] [(x' & ps' & Hx' & -> & Hp' & Hl')]. constructor. exists x', (ps ++ ps'). cbn in *.
  split_and!; [by etrans|by rewrite (assoc_L (++))|by apply Forall_app|rewrite (assoc_L (++)); lia].
Qed.

(** Under this condition Retry and Version Negotiation packets are ignored. *)
Definition established c : Prop := cPerspective c = PerspectiveServer \/ receivedFirstPacket c = true.

(** What stays the same. *)
Lemma ignored_keeps d c c' : ignored d c c' -> same (rvRest (cRest c)) (rvRest (cRest c')) /\
  handshakeComplete c' = handshakeComplete c /\ (established c -> established c') /\
  rvSrcConnIDLen (cRest c') = rvSrcConnIDLen (cRest c) /\ rvVersion (cRest c') = rvVersion (cRest c).
Proof. by intros [(x & ps & Hx & -> & _)]. Qed.

Lemma attempt_err {B} (m : stM X B) c e x' : m (rvRest (cRest c)) = (Err e, x') ->
  attempt (onX m) c = (Ok (inl e), c_rest (rv_rest x' (cRest c)) c).
Proof. intros E. unfold attempt, onX. by rewrite E. Qed.

Lemma unpackError_ignored d pre post e p c x' :
  unpack_error (handshakeComplete c) e -> d = pre ++ rpData p ++ post -> same (rvRest (cRest c)) x' ->
  exists b c', handleUnpackError e p (c_rest (rv_rest x' (cRest c)) c) = (Ok b, c') /\ ignored d c c'.
Proof.
  intros He Hd Hx. set (c1 := c_rest (rv_rest x' (cRest c)) c).
  assert (Hi : ignored d c c1).
  { constructor. exists x', []. rewrite app_nil_r. split_and!; [done|by destruct c as [????????????[]]|constructor|lia]. }
  unfold handleUnpackError. destruct He as [[-> |[-> |[e' ->]]]|[-> Hc]]; repeat (case_decide; [|try done]); try done; try by (eexists _, _; split; [reflexivity|]).
  unfold tryQueueingUndecryptablePacket, mbind, stM_bind, get. change (handshakeComplete c1) with (handshakeComplete c). rewrite Hc.
  destruct (Z.ltb_spec MaxUndecryptablePackets (blen (rvUndecryptable (cRest c1)) + 1)) as [Hl|Hl]; [by eexists _, _|].
  eexists _, _. split; [reflexivity|]. constructor. exists x', [p]. split_and!; [done|done| |].
  - apply Forall_singleton. by exists pre, post.
  - rewrite blen_app. change (blen [p]) with 1. cbn in Hl. lia.
Qed.

Lemma long_ignored d pre post p hdr c : forged (rvVersion (cRest c)) (handshakeComplete c) d (rvRest (cRest c)) -> established c ->
  d = pre ++ rpData p ++ post -> ParsePacket (rpData p ++ post) = Ok (ParsedPacket hdr (rpData p) post) -> hVersion hdr = rvVersion (cRest c) ->
  exists c', handleLongHeaderPacket (C := C) rng now log p hdr c = (Ok false, c') /\ ignored d c c'.
Proof.
  intros Hf He Hd Hparse Hv. unfold handleLongHeaderPacket. case_decide as Hr.
  - exists c. split; [|apply ignored_refl]. unfold handleRetryPacket, mbind, stM_bind, get. destruct He as [-> | ->]; [done|].
    by destruct (bool_decide _).
  - rewrite (stM_bind_ok get _ c c c) by done. destruct (_ && _ && _); [exists c; split; [done|apply ignored_refl]|].
    destruct (_ && _); [exists c; split; [done|apply ignored_refl]|].
    destruct (fg_long _ _ _ _ Hf pre (rpData p) post hdr (rvRest (cRest c)) Hd Hparse Hv Hr ltac:(reflexivity)) as (e & x' & Eu & Hx & Hu).
    rewrite (stM_bind_ok _ _ _ _ _ (attempt_err _ _ _ _ Eu)). destruct (unpackError_ignored d pre post e p c x' Hu Hd Hx) as (b & c' & Eh & Hi).
    exists c'. split; [|done]. by rewrite (stM_bind_ok _ _ _ _ _ Eh).
Qed.

Lemma short_ignored d pre p dest c : forged (rvVersion (cRest c)) (handshakeComplete c) d (rvRest (cRest c)) ->
  d = pre ++ rpData p -> exists c', handleShortHeaderPacket now log p dest c = (Ok false, c') /\ ignored d c c'.
Proof.
  intros Hf Hd. unfold handleShortHeaderPacket. rewrite (stM_bind_ok get _ c c c) by done.
  destruct (fg_short _ _ _ _ Hf pre (rpData p) (rttStats (cSent c)) (rpRcvTime p) (rvRest (cRest c)) Hd ltac:(reflexivity)) as (e & x' & Eu & Hx & Hu).
  rewrite (stM_bind_ok _ _ _ _ _ (attempt_err _ _ _ _ Eu)).
  destruct (unpackError_ignored d pre [] e p c x' Hu) as (b & c' & Eh & Hi); [by rewrite app_nil_r|done|].
  exists c'. split; [|done]. by rewrite (stM_bind_ok _ _ _ _ _ Eh).
Qed.

Lemma coalescedDest_total counter data last c : bytes_ok data -> 0 <= rvSrcConnIDLen (cRest c) <= MaxConnIDLen ->
  exists r, coalescedDest counter data last c = (Ok r, c).
Proof.
  intros Hd Hn. unfold coalescedDest. destruct (0 <? counter); [|by eexists]. unfold mbind, stM_bind, get, attempt, lift.
  pose proof (header_ParseConnectionID_total data _ Hd Hn) as Ht.
  destruct (header_ParseConnectionID data (rvSrcConnIDLen (cRest c))); [by eexists|by eexists|done].
Qed.

Lemma coalesced_ignored rp d fuel : forall pre data counter last c,
  forged (rvVersion (cRest c)) (handshakeComplete c) d (rvRest (cRest c)) -> established c -> 0 <= rvSrcConnIDLen (cRest c) <= MaxConnIDLen ->
  bytes_ok data -> blen data < 2 ^ 62 -> (length data <= fuel)%nat -> d = pre ++ data ->
  exists c', handleCoalesced (C := C) rng now log fuel rp data counter last false c = (Ok false, c') /\ ignored d c c'.
Proof.
  induction fuel as [|fuel IH]; intros pre data counter last c Hf He Hn Hb Hl Hfuel Hd.
  { destruct data; [|cbn in Hfuel; lia]. exists c. split; [done|apply ignored_refl]. }
  destruct data as [|b0 data0]; [exists c; split; [done|apply ignored_refl]|]. cbn [handleCoalesced]. set (data := b0 :: data0) in *.
  destruct (coalescedDest_total counter data last c Hb Hn) as [[dest|] Edest]; rewrite (stM_bind_ok _ _ _ _ _ Edest);
    [|exists c; split; [done|apply ignored_refl]].
  destruct (IsLongHeaderPacket b0); [|by apply (short_ignored d pre)].
  pose proof (ParsePacket_total data Hb Hl) as Hp. unfold mbind at 1, stM_bind at 1, attempt, lift.
  destruct (ParsePacket data) as [[hdr packet rest|hdr]|err|m] eqn:Eparse; [|exists c; split; [done|apply ignored_refl]..|done].
  destruct Hp as (Ed & Hpk & Hpl & Hhl & _). rewrite (stM_bind_ok get _ c c c) by done.
  destruct (Z.eqb_spec (hVersion hdr) (rvVersion (cRest c))) as [Hv|]; cbn [negb]; [|exists c; split; [done|apply ignored_refl]].
  destruct (long_ignored d pre rest (mkReceived packet (rpRcvTime rp) (rpECN rp)) hdr c Hf He) as (c1 & E1 & Hi1); [by rewrite Hd, Ed|cbn [rpData]; by rewrite <- Ed|done|].
  rewrite (stM_bind_ok _ _ _ _ _ E1). destruct (ignored_keeps _ _ _ Hi1) as (K1 & K2 & K3 & K4 & K5). cbn [orb].
  assert (Hr : bytes_ok rest /\ (length rest < length data)%nat).
  { rewrite Ed in Hb |- *. apply Forall_app in Hb as [_ Hr]. split; [done|]. rewrite length_app. unfold blen in Hpk. lia. }
  destruct (IH (pre ++ packet) rest (u8 (counter + 1)) (hDestConnectionID hdr) c1) as (c' & E' & Hi').
  - rewrite K2, K5. by eapply forged_same.
  - by apply K3.
  - by rewrite K4.
  - apply Hr.
  - unfold blen in *. lia.
  - lia.
  - rewrite Hd, Ed. by rewrite (assoc_L (++)).
  - exists c'. split; [done|]. by eapply ignored_trans.
Qed.

(** A datagram with one packet. *)
Lemma handleCoalesced_single rp data hd last c : ParsePacket data = Ok (ParsedPacket hd data []) -> hVersion hd <> 0 -> hVersion hd = rvVersion (cRest c) ->
  handleCoalesced (C := C) rng now log (length data) rp data 0 last false c =
    handleLongHeaderPacket (C := C) rng now log (mkReceived data (rpRcvTime rp) (rpECN rp)) hd c.
Proof.
  intros Hp Hnz Hv. destruct (ParsePacket_inv _ _ _ _ Hp Hnz) as (_ & _ & b0 & d1 & -> & Eb). cbn [length handleCoalesced].
  rewrite (stM_bind_ok _ _ c c (Some [])) by done. rewrite Eb. rewrite (stM_bind_ok _ _ c c (inr (ParsedPacket hd (b0 :: d1) []))) by (unfold attempt, lift; by rewrite Hp).
  rewrite (stM_bind_ok get _ c c c) by done. rewrite Hv, Z.eqb_refl. cbn [negb]. unfold mbind, stM_bind.
  destruct (handleLongHeaderPacket _ _ _ _ _ c) as [[]]; [|done..]. by destruct (length d1).
Qed.

(** *** Two defects *)

(** A short header packet at the end of a datagram decides alone whether the datagram
    counts as processed: if it has to wait for its keys, the loop does not answer the
    packets in front of it, although they were handled. *)
Theorem short_packet_hides_long rp data hd packet b rest last c c1 c2 :
  ParsePacket data = Ok (ParsedPacket hd packet (b :: rest)) -> hVersion hd <> 0 -> hVersion hd = rvVersion (cRest c) ->
  handleLongHeaderPacket (C := C) rng now log (mkReceived packet (rpRcvTime rp) (rpECN rp)) hd c = (Ok true, c1) ->
  IsLongHeaderPacket b = false -> header_ParseConnectionID (b :: rest) (rvSrcConnIDLen (cRest c1)) = Ok (hDestConnectionID hd) ->
  handleShortHeaderPacket now log (mkReceived (b :: rest) (rpRcvTime rp) (rpECN rp)) (hDestConnectionID hd) c1 = (Ok false, c2) ->
  (length data > 1)%nat -> handleCoalesced (C := C) rng now log (length data) rp data 0 last false c = (Ok false, c2).
Proof.
  intros Hp Hnz Hv Hl Hb Hid Hs Hlen. destruct (ParsePacket_inv _ _ _ _ Hp Hnz) as (_ & _ & b0 & d1 & -> & Eb).
  destruct d1 as [|b1 d1]; [cbn in Hlen; lia|]. cbn [length handleCoalesced]. rewrite (stM_bind_ok _ _ c c (Some [])) by done. rewrite Eb.
  rewrite (stM_bind_ok _ _ c c (inr (ParsedPacket hd packet (b :: rest)))) by (unfold attempt, lift; by rewrite Hp).
  rewrite (stM_bind_ok get _ c c c) by done. rewrite Hv, Z.eqb_refl. cbn [negb]. rewrite (stM_bind_ok _ _ _ _ _ Hl).
  rewrite (stM_bind_ok _ _ c1 c1 (Some (hDestConnectionID hd))); [by rewrite Hb|].
  unfold coalescedDest, mbind, stM_bind, get, attempt, lift. change (0 <? u8 (0 + 1)) with true. cbv beta iota. rewrite Hid. by rewrite bool_decide_eq_true_2.
Qed.

(** The connection ID of a short header packet is only parsed behind another packet: the
    frames of a packet on its own are handled as if it had come with an empty one. *)
Theorem lone_short_packet_no_connID rp b d last c : IsLongHeaderPacket b = false -> rpData rp = b :: d ->
  handleCoalesced (C := C) rng now log (length (rpData rp)) rp (rpData rp) 0 last false c = handleShortHeaderPacket now log rp [] c.
Proof.
  intros Hb Hd. rewrite Hd. cbn [length handleCoalesced]. rewrite (stM_bind_ok _ _ c c (Some [])) by done. rewrite Hb, <- Hd. by destruct rp.
Qed.

Lemma ReceivedBytes_total n (h : sentPacketHandler A) :
  exists v, ReceivedBytes n now h = (Ok tt, w_alarm v (w_bytesReceived (i64 (bytesReceived h + n)) h)).
Proof.
  unfold ReceivedBytes. rewrite (stM_bind_ok get _ h h h) by done. set (h1 := w_bytesReceived _ h).
  rewrite (stM_bind_ok (modify _) _ h h1 tt) by done. rewrite (stM_bind_ok get _ h1 h1 h1) by done.
  destruct (_ && _); [by eexists|exists (alarm h1); by destruct h].
Qed.

(** Whatever bytes arrive, if no part of
    the datagram is a packet that can be decrypted, a server, and a client that has
    received a packet before, handles the datagram without a panic and reports that
    nothing was processed; it is not closed and sends nothing.  Only the count of
    received bytes (with the timer it may unblock) and the queue of packets that wait
    for their keys change: the queue grows by parts of this datagram, and not beyond
    its limit. *)
Lemma forged_ignored rp c :
  forged (rvVersion (cRest c)) (handshakeComplete c) (rpData rp) (rvRest (cRest c)) -> established c ->
  0 <= rvSrcConnIDLen (cRest c) <= MaxConnIDLen -> bytes_ok (rpData rp) -> blen (rpData rp) < 2 ^ 62 ->
  exists v c', handlePacketImpl (C := C) rng now log rp c = (Ok false, c') /\
    ignored (rpData rp) (c_sent (w_alarm v (w_bytesReceived (i64 (bytesReceived (cSent c) + blen (rpData rp))) (cSent c))) c) c'.
Proof.
  intros Hf He Hn Hb Hl. destruct (ReceivedBytes_total (blen (rpData rp)) (cSent c)) as [v Ev]. exists v.
  set (c1 := c_sent _ c). unfold handlePacketImpl. rewrite (stM_bind_ok _ _ c c1 tt) by (unfold onSent; by rewrite Ev).
  destruct (IsVersionNegotiationPacket (rpData rp)).
  - exists c1. split; [|apply ignored_refl]. rewrite (stM_bind_ok _ _ c1 c1 tt); [done|].
    unfold handleVersionNegotiationPacket, mbind, stM_bind, get. change (cPerspective c1) with (cPerspective c).
    change (receivedFirstPacket c1) with (receivedFirstPacket c). by destruct He as [-> | ->]; rewrite ?orb_true_r.
  - by apply (coalesced_ignored rp (rpData rp) (length (rpData rp)) []).
Qed.
End forged.

(** ** The unpacker rejects what the AEAD rejects *)

Section unpacker.
Context {C : Type} `{HC : !Crypto C} `{HCL : !CryptoLaws C}.

(** No part of [d] opens under the key. *)
Record rejects (d : bytes) (o : longHeaderOpener C) : Prop := {
  rj_mask : blen (nonceMask (loAead o)) = 12;
  rj_buf : blen (loNonceBuf o) = 8;
  rj_open pre ct post nonce ad : d = pre ++ ct ++ post -> aead_Open (xaead (loAead o)) nonce ct ad = None
}.

(** All but the buffer for nonces. *)
Definition opener_view (o : longHeaderOpener C) := (loAead o, loHeaderProtector o, loHighestRcvdPN o, blen (loNonceBuf o)).

Lemma readPacketNumber_total (pbs : bytes) : 1 <= blen pbs <= 4 -> exists pn, forall r, readPacketNumber (blen pbs) (pbs ++ r) = (Ok pn, r).
Proof.
  intros Hn. unfold blen in *. destruct pbs as [|a [|b [|c [|e [|f pbs]]]]]; cbn in Hn; try lia; eexists; intros r; reflexivity.
Qed.

(** Removing the header protection leaves the encrypted payload as it is. *)
Lemma unpackLongHeader_total (o : longHeaderOpener C) hdr b0 (pre pb sample rest : bytes) :
  hParsedLen hdr = 1 + blen pre -> blen pb = 4 -> blen sample = 16 ->
  exists ext valid hd pb1 pb2, unpackLongHeader o hdr ((b0 :: pre) ++ pb ++ sample ++ rest) = Ok (ext, valid, hd ++ pb2 ++ sample ++ rest) /\
    ehParsedLen ext = blen hd /\ pb = pb1 ++ pb2.
Proof.
  intros Hh Hp Hs. destruct (hp_apply_len (loHeaderProtector o) sample b0 pb Hs ltac:(lia)) as (fb & pbd & Ea & Hl).
  set (k := Z.land fb 3 + 1). assert (Hk : 1 <= k <= 4).
  { unfold k. change 3 with (Z.ones 2). rewrite Z.land_ones by lia. pose proof (Z.mod_pos_bound fb (2 ^ 2)). lia. }
  set (pb1 := take (Z.to_nat k) pb). set (pb2 := drop (Z.to_nat k) pb). assert (Epb : pb = pb1 ++ pb2) by (symmetry; apply take_drop).
  assert (L1 : blen pb1 = k /\ blen (take (Z.to_nat k) pbd) = k).
  { unfold blen, pb1 in *. rewrite !length_take. lia. }
  assert (L2 : blen (drop (Z.to_nat k) pbd) = blen pb2) by (unfold blen, pb2 in *; rewrite !length_drop; lia).
  destruct (readPacketNumber_total (take (Z.to_nat k) pbd)) as [pn Hpn]; [lia|].
  exists (mkExtended hdr fb (blen (take (Z.to_nat k) pbd)) pn (1 + blen pre + blen (take (Z.to_nat k) pbd))), (Z.land fb 0xc =? 0),
    ((fb :: pre) ++ take (Z.to_nat k) pbd), pb1, pb2. split; [|split; [|exact Epb]].
  - rewrite Epb, <- (assoc_L (++)).
    rewrite (unpackLongHeader_ok o hdr fb b0 pre (take (Z.to_nat k) pbd) pb1 pb2 (drop (Z.to_nat k) pbd) sample rest pn Hh); try done; try lia.
    + by rewrite <- blen_app, <- Epb.
    + by rewrite take_drop, <- Epb.
  - cbn [ehParsedLen]. rewrite blen_app, blen_cons. lia.
Qed.

(** A packet that does not open is dropped, and the opener is as before. *)
Lemma unpackLong_rejects (d pre0 packet post : bytes) (o : longHeaderOpener C) hdr : rejects d o ->
  d = pre0 ++ packet ++ post -> 1 <= hParsedLen hdr <= blen packet ->
  exists e o', unpackLongHeaderPacket hdr packet o = (Err e, o') /\ dropped e /\ opener_view o' = opener_view o.
Proof.
  intros [Hm Hb Hj] Hd Hl. unfold unpackLongHeaderPacket. rewrite run_get.
  destruct (Z.ltb_spec (blen packet) (hParsedLen hdr + 4 + 16)) as [Hsmall|Hbig].
  { unfold unpackLongHeader, mbind, stM_bind, lift, headerParse. rewrite (proj2 (Z.ltb_lt _ _) Hsmall).
    eexists _, o. split; [reflexivity|]. split; [|done]. right. right. by eexists. }
  assert (exists b0 pre pb sample rest, packet = (b0 :: pre) ++ pb ++ sample ++ rest /\ hParsedLen hdr = 1 + blen pre /\ blen pb = 4 /\ blen sample = 16)
    as (b0 & pre & pb & sample & rest & -> & Hh & Hp & Hs).
  { set (n := Z.to_nat (hParsedLen hdr)). destruct packet as [|b0 packet]; [rewrite blen_nil in Hl; lia|].
    exists b0, (take (n - 1) packet), (take 4 (drop (n - 1) packet)), (take 16 (drop 4 (drop (n - 1) packet))), (drop 16 (drop 4 (drop (n - 1) packet))).
    rewrite blen_cons in *. unfold blen in *. split; [|rewrite !length_take, !length_drop; lia].
    cbn [app]. by rewrite !take_drop. }
  destruct (unpackLongHeader_total o hdr b0 pre pb sample rest Hh Hp Hs) as (ext & valid & hd & pb1 & pb2 & Eu & Hx & Epb).
  rewrite Eu. unfold headerParse. rewrite run_lift. cbv zeta.
  rewrite Hx, sliceOf_suffix, run_lift, sliceOf_prefix, run_lift.
  set (pn := lo_DecodePacketNumber _ _ _). set (nonce := putUint64 (u64 pn)).
  assert (Ho : lo_Open (pb2 ++ sample ++ rest) pn hd o = (Err ErrDecryptionFailed, mkOpener (loAead o) (loHeaderProtector o) (loHighestRcvdPN o) nonce)).
  { unfold lo_Open. rewrite run_get, putNonce_eq, run_lift by done. fold nonce. rewrite xor_Open_eq by done.
    rewrite (Hj (pre0 ++ (b0 :: pre) ++ pb1) (pb2 ++ sample ++ rest) post) by (rewrite Hd, Epb, <- !(assoc_L (++)); done). done. }
  eexists _, _. unfold mbind, stM_bind. rewrite Ho. split; [reflexivity|]. split; [right; by left|]. unfold opener_view. cbn. by rewrite Hb.
Qed.

(** All but the buffers for nonces. *)
Definition key_view (k : res (longHeaderOpener C)) := match k with Ok o => inl (opener_view o) | Err e => inr (Some e) | Panic _ => inr None end.
Definition openers_view (os : openers C) := (key_view (opInitial os), key_view (opHandshake os), key_view (op0RTT os), op1RTT os).

(** Under the key nothing in [d] opens, or the key is missing. *)
Definition key_rejects (complete : bool) (d : bytes) (k : res (longHeaderOpener C)) : Prop :=
  match k with Ok o => rejects d o | Err e => unpack_error complete e | Panic _ => False end.

(** A datagram from a party without the keys, before the keys of 1-RTT packets are there. *)
Record foreign (complete : bool) (d : bytes) (os : openers C) : Prop := {
  fo_initial : key_rejects complete d (opInitial os);
  fo_handshake : key_rejects complete d (opHandshake os);
  fo_0rtt : key_rejects complete d (op0RTT os);
  fo_1rtt : exists e, op1RTT os = Err e /\ unpack_error complete e
}.

Lemma key_rejects_view complete d k k' : key_view k' = key_view k -> key_rejects complete d k -> key_rejects complete d k'.
Proof.
  destruct k as [o|e|m], k' as [o'|e'|m']; cbn; intros E; try done.
  - injection E as E1 E2 E3 E4. intros [H1 H2 H3]. constructor; [by rewrite E1|by rewrite E4|]. intros. rewrite E1. by eapply H3.
  - by injection E as ->.
Qed.

Lemma foreign_view complete d os os' : openers_view os' = openers_view os -> foreign complete d os -> foreign complete d os'.
Proof.
  intros E [H1 H2 H3 H4]. injection E as E1 E2 E3 E4. constructor; [eapply key_rejects_view; done..|]. by rewrite E4.
Qed.

(** The unpacker drops the packets of such a datagram. *)
Lemma foreign_long complete d pre packet post hdr os : foreign complete d os -> d = pre ++ packet ++ post ->
  1 <= hParsedLen hdr <= blen packet -> levelOf (hType hdr) <> None ->
  exists e os', UnpackLongHeader hdr packet os = (Err e, os') /\ openers_view os' = openers_view os /\ unpack_error complete e.
Proof.
  intros [H1 H2 H3 _] Hd Hl Ht. unfold UnpackLongHeader. destruct (levelOf (hType hdr)) as [lvl|] eqn:El; [|done]. rewrite run_get.
  assert (Hlvl : lvl <> Encryption1RTT) by (destruct (hType hdr) as [[]|]; naive_solver).
  assert (Hk : key_rejects complete d (getOpener lvl os)) by by destruct lvl.
  destruct (getOpener lvl os) as [o|e|m] eqn:Eo; [|by exists e, os|done].
  destruct (unpackLong_rejects d pre packet post o hdr Hk Hd Hl) as (e & o' & Eu & Hdr & Hv).
  exists e, (setOpener lvl o' os). unfold mbind, stM_bind, lift. rewrite Eu. split; [done|]. split; [|by left].
  unfold openers_view. destruct lvl; cbn in *; rewrite ?Eo; cbn; rewrite ?Hv; done.
Qed.

Lemma foreign_short complete d rtt n t packet os : foreign complete d os ->
  exists e, UnpackShortHeader rtt n t packet os = (Err e, os) /\ unpack_error complete e.
Proof. intros [_ _ _ (e & E & He)]. exists e. unfold UnpackShortHeader. rewrite run_get, E. done. Qed.
End unpacker.
