(* ===== verification/ConnHandshake.v ===== *)
(** * ConnHandshake: the events of the handshake in a connection

    Models the part of connection.go that reacts to the crypto setup:
    [handleHandshakeEvents], [handleTransportParameters] with the checks of connection
    IDs, [restoreTransportParameters], [applyTransportParameters] and
    [handleHandshakeComplete].  What these call in the streams, in flow control and in
    the connection IDs is the class [HandshakeOps]. *)

From stdpp Require Import base numbers list option strings.
From S2P Require Import Prelude Protocol Varint AckFrame ReceivedHistory ReceivedTracker SentHistory PNGenerator Ecn GoFloat RTTStats Congestion SentPacketHandler.
From S2P Require Import Frames FrameParser Connection CryptoStream Headers Protection KeyUpdate Unpacker TransportParams CryptoSetup PacketHandling.
From Stdlib Require Import ZArith Lia.
#[local] Open Scope Z_scope.

Class HandshakeOps (X : Type) := {
  (* cryptoStreamHandler *)
  ops_NextEvent : stM X Event;
  ops_Used0RTT : X -> bool;
  ops_GetSessionTicket : stM X (option bytes);
  (* the crypto streams *)
  ops_WriteInitial : bytes -> X -> X;
  ops_WriteHandshake : bytes -> X -> X;
  ops_WriteOneRTT : bytes -> X -> X;
  ops_OneRTTHasData : X -> bool;
  ops_PopOneRTT : Z -> stM X CryptoFrame;
  (* streamsMap, connFlowController *)
  ops_UpdateLimits : TransportParameters -> X -> X;
  ops_UpdateSendWindow : Z -> X -> X;
  (* connIDGenerator, connIDManager *)
  ops_SetMaxActiveConnIDs : Z -> stM X unit;
  ops_SetStatelessResetToken : bytes -> stM X unit;
  ops_AddFromPreferredAddress : bytes -> bytes -> stM X unit;
  ops_SetConnIDsComplete : X -> X;
  (* tokenGenerator, framer *)
  ops_NewToken : stM X bytes;
  ops_queueControlFrame : wireFrame -> stM X unit
}.

Definition MaxKeepAliveInterval : Z := 20 * Second.

Definition MinNonZeroDuration (a b : Z) : Z := if a =? 0 then b else if b =? 0 then a else Z.min a b.

Section model.
Context {A X : Type} `{SendAlgorithm A} `{HandshakeOps X} `{ConnectionOps A (receiver X)}.
Context (now : Z).
Abbreviation hM := (stM (connection A (receiver X))).
Implicit Types c : connection A (receiver X).

(** Call a method and ignore the error it returns. *)
Definition ignoringX (m : stM X unit) : hM unit := ignoring (onX m).
Definition modifyX (f : X -> X) : hM unit := modifyRv (fun r => rv_rest (f (rvRest r)) r).

(** *** Transport parameters *)

Definition checkTransportParameters (params : TransportParameters) c : res unit :=
  let r := cRest c in
  if negb (bool_decide (tpInitialSourceConnectionID params = handshakeDestConnID c))
  then Err (ErrorString "expected initial_source_connection_id to equal %s, is %s")
  else if bool_decide (cPerspective c = PerspectiveServer) then Ok tt
  else if negb (bool_decide (tpOriginalDestinationConnectionID params = rvOrigDestConnID r))
  then Err (ErrorString "expected original_destination_connection_id to equal %s, is %s")
  else match rvRetrySrcConnID r, tpRetrySourceConnectionID params with
  | Some _, None => Err (ErrorString "missing retry_source_connection_id")
  | Some id, Some id' =>
      if negb (bool_decide (id' = id)) then Err (ErrorString "expected retry_source_connection_id to equal %s, is %s") else Ok tt
  | None, Some _ => Err (ErrorString "received retry_source_connection_id, although no Retry was performed")
  | None, None => Ok tt
  end.

Definition setParser (p : frameParser) c : connection A (receiver X) :=
  mkConn (cPerspective c) (cEnableInstantACK c) (receivedFirstPacket c) (handshakeDestConnID c) (handshakeComplete c)
    (cHandshakeConfirmed c) (lastPacketReceivedTime c) (firstAckElicitingPacketAfterIdleSentTime c) (keepAlivePingSent c)
    (cSent c) (cReceived c) p (cRest c).
Definition setComplete (b : bool) c : connection A (receiver X) :=
  mkConn (cPerspective c) (cEnableInstantACK c) (receivedFirstPacket c) (handshakeDestConnID c) b
    (cHandshakeConfirmed c) (lastPacketReceivedTime c) (firstAckElicitingPacketAfterIdleSentTime c) (keepAlivePingSent c)
    (cSent c) (cReceived c) (cParser c) (cRest c).

(** The parameters of the peer, which the callers have set. *)
Definition peerParams : hM TransportParameters :=
  c ← get; match rvPeerParams (cRest c) with Some p => mret p | None => lift (Panic "nil pointer dereference") end.

Definition applyTransportParameters : hM unit :=
  params ← peerParams;
  _ ← modifyRv (fun r =>
        let idle := MinNonZeroDuration (cfMaxIdleTimeout (rvConfig r)) (tpMaxIdleTimeout params) in
        rv_timeouts idle (Z.min (cfKeepAlivePeriod (rvConfig r)) (Z.min (Z.quot idle 2) MaxKeepAliveInterval)) r);
  _ ← modifyX (ops_UpdateLimits params);
  _ ← modify (fun c => setParser (SetAckDelayExponent (tpAckDelayExponent params) (cParser c)) c);
  _ ← modifyX (ops_UpdateSendWindow (tpInitialMaxData params));
  _ ← modify (fun c => c_sent (w_rtt (SetMaxAckDelay (rttStats (cSent c)) (tpMaxAckDelay params)) (cSent c)) c);
  _ ← ignoringX (ops_SetMaxActiveConnIDs (tpActiveConnectionIDLimit params));
  _ ← match tpStatelessResetToken params with Some token => onX (ops_SetStatelessResetToken token) | None => mret tt end;
  match tpPreferredAddress params with
  | Some pa => ignoringX (ops_AddFromPreferredAddress (paConnectionID pa) (paStatelessResetToken pa))
  | None => mret tt
  end.

Definition closeEarlyReady : hM unit :=
  c ← get;
  if rvEarlyReady (cRest c) then lift (Panic "close of closed channel") else modifyRv (rv_earlyReady true).

Definition restoreTransportParameters (params : TransportParameters) : hM unit :=
  _ ← modifyRv (rv_peerParams (Some params));
  _ ← ignoringX (ops_SetMaxActiveConnIDs (tpActiveConnectionIDLimit params));
  _ ← modifyX (ops_UpdateSendWindow (tpInitialMaxData params));
  modifyX (ops_UpdateLimits params).

Definition errReducedLimits : GoError := TransportError ProtocolViolation 0 "server sent reduced limits after accepting 0-RTT data".

(** Do the parameters contradict those under which 0-RTT data was sent? *)
Definition reducesLimits (params : TransportParameters) c : bool :=
  bool_decide (cPerspective c = PerspectiveClient) &&
  match rvPeerParams (cRest c) with
  | Some saved => ops_Used0RTT (rvRest (cRest c)) && negb (ValidForUpdate saved params)
  | None => false
  end.

Definition handleTransportParameters (params : TransportParameters) : hM unit :=
  c ← get;
  match checkTransportParameters params c with
  | Err e => throw (TransportError TransportParameterError 0 (error_text e))
  | Panic m => lift (Panic m)
  | Ok _ =>
      if reducesLimits params c then throw errReducedLimits
      else
        _ ← modifyRv (rv_peerParams (Some params));
        if bool_decide (cPerspective c = PerspectiveServer)
        then _ ← applyTransportParameters; closeEarlyReady
        else mret tt
  end.

(** *** Events *)

Definition handleHandshakeEvent (ev : Event) : hM unit :=
  match ev with
  | EventNoEvent => mret tt
  | EventHandshakeComplete => modify (setComplete true)
  | EventReceivedTransportParameters params => handleTransportParameters params
  | EventRestoredTransportParameters params => _ ← restoreTransportParameters params; closeEarlyReady
  | EventReceivedReadKeys => modifyRv (fun r => rv_undecryptable [] (rv_toProcess (rvUndecryptable r) r))
  | EventDiscard0RTTKeys => dropEncryptionLevel Encryption0RTT now
  | EventWriteInitialData data => modifyX (ops_WriteInitial data)
  | EventWriteHandshakeData data => modifyX (ops_WriteHandshake data)
  end.

(** The loop runs until there is no event left; [fuel] bounds the number of events. *)
Fixpoint handleHandshakeEvents (fuel : nat) : hM unit :=
  ev ← onX ops_NextEvent;
  match ev, fuel with
  | EventNoEvent, _ => mret tt
  | _, O => lift (Panic "out of fuel")
  | _, S fuel' => _ ← handleHandshakeEvent ev; handleHandshakeEvents fuel'
  end.

(** *** The end of the handshake *)

Definition queueFrame (f : wireFrame) : hM unit := onX (ops_queueControlFrame f).

Fixpoint queueTicket (fuel : nat) : hM unit :=
  c ← get;
  if negb (ops_OneRTTHasData (rvRest (cRest c))) then mret tt
  else match fuel with
  | O => lift (Panic "out of fuel")
  | S fuel' => f ← onX (ops_PopOneRTT 1000); _ ← queueFrame (FCrypto f); queueTicket fuel'
  end.

Definition conn_handleHandshakeComplete (fuel : nat) : hM unit :=
  _ ← modifyRv (rv_undecryptable []);
  _ ← modifyX ops_SetConnIDsComplete;
  c ← get;
  if bool_decide (cPerspective c = PerspectiveClient) then applyTransportParameters
  else
    _ ← handleHandshakeConfirmed now;
    ticket ← onX ops_GetSessionTicket;
    _ ← match ticket with Some t => _ ← modifyX (ops_WriteOneRTT t); queueTicket fuel | None => mret tt end;
    token ← onX ops_NewToken;
    _ ← queueFrame (FNewToken (mkNewToken token));
    queueFrame (FHandshakeDone mkHandshakeDone).
End model.

(** ** Properties *)

Section proofs.
Context {A X : Type} `{SendAlgorithm A} `{HandshakeOps X} `{ConnectionOps A (receiver X)}.
Context (now : Z).
Implicit Types c : connection A (receiver X).

(** The connection IDs in the transport parameters are those that were used. *)
Definition ids_authentic (params : TransportParameters) c : Prop :=
  tpInitialSourceConnectionID params = handshakeDestConnID c /\
  (cPerspective c = PerspectiveClient ->
     tpOriginalDestinationConnectionID params = rvOrigDestConnID (cRest c) /\
     tpRetrySourceConnectionID params = rvRetrySrcConnID (cRest c)).

Lemma checkTransportParameters_spec params c :
  match checkTransportParameters params c with
  | Ok _ => ids_authentic params c
  | Err _ => ~ ids_authentic params c
  | Panic _ => False
  end.
Proof.
  unfold checkTransportParameters, ids_authentic. case_bool_decide as Hi; cbn [negb]; [|naive_solver].
  destruct (cPerspective c) eqn:Ep; [by split|]. rewrite (bool_decide_eq_false_2 (PerspectiveClient = PerspectiveServer)) by done.
  case_bool_decide as Ho; cbn [negb]; [|naive_solver].
  destruct (rvRetrySrcConnID (cRest c)) as [id|], (tpRetrySourceConnectionID params) as [id'|]; try naive_solver.
  case_bool_decide; cbn [negb]; naive_solver.
Qed.

(** A client accepts the transport parameters of a server if and only if their
    connection IDs are those that were used, with a Retry or without, and they do not
    take back limits under which 0-RTT data was sent.  Otherwise it reports an error and
    changes nothing. *)
Theorem client_checks_transport_parameters params c : cPerspective c = PerspectiveClient ->
  handleTransportParameters params c = (Ok tt, c_rest (rv_peerParams (Some params) (cRest c)) c) /\
    ids_authentic params c /\ reducesLimits params c = false \/
  exists e, handleTransportParameters params c = (Err e, c) /\ (~ ids_authentic params c \/ reducesLimits params c = true).
Proof.
  intros Hp. unfold handleTransportParameters, mbind, stM_bind, get. pose proof (checkTransportParameters_spec params c) as Hs.
  destruct (checkTransportParameters params c) as [[]|e|m]; [|right; eexists; split; [reflexivity|by left]|done].
  destruct (reducesLimits params c) eqn:Er; [right; eexists; split; [reflexivity|by right]|].
  left. split; [|done]. by rewrite Hp.
Qed.

(** ** A defect *)

(** When the crypto setup reports new keys twice before the waiting packets are
    processed, the packets that wait for their keys are lost: the second event replaces
    the list that the first one has filled. *)
Theorem read_keys_twice_lose_packets c x1 x2 x3 :
  ops_NextEvent (rvRest (cRest c)) = (Ok EventReceivedReadKeys, x1) -> ops_NextEvent x1 = (Ok EventReceivedReadKeys, x2) ->
  ops_NextEvent x2 = (Ok EventNoEvent, x3) ->
  exists c', handleHandshakeEvents now 2 c = (Ok tt, c') /\ rvToProcess (cRest c') = [] /\ rvUndecryptable (cRest c') = [].
Proof.
  intros E1 E2 E3. unfold handleHandshakeEvents, mbind, stM_bind, onX. rewrite E1. cbn. rewrite E2. cbn. rewrite E3.
  eexists. split; [reflexivity|done].
Qed.
End proofs.
