(* ===== verification/SendQueue.v ===== *)
(** * SendQueue: [send_queue.go]

    Datagrams wait in a channel of capacity 8 for the goroutine that writes them to the
    socket ([Run]).  A round of [Run] is an event: it sees that [Close] was called, or
    it takes an entry and calls [Write], whose result is part of the event.  [Run] is
    started before anything else and stops after [Close] when the queue is empty, or
    when a write fails for another reason than the size of the datagram. *)

From S2P Require Import Prelude Protocol.
From stdpp Require Import base numbers list option strings.
From Stdlib Require Import ZArith Lia.
#[local] Open Scope Z_scope.

Definition sendQueueCapacity : Z := 8.

Record queueEntry := mkEntry { enBuf : bytes; enGSOSize : Z; enECN : ECN }.

(** [sqCloseCalled] and [sqRunStopped] are channels that are closed as a signal,
    [sqAvailable] is a channel of capacity 1; [sqWritten] is what was written. *)
Record sendQueue := mkSendQueue {
  sqQueue : list queueEntry;
  sqCloseCalled : bool;
  sqShouldClose : bool;
  sqRunStopped : bool;
  sqAvailable : bool;
  sqWritten : list queueEntry
}.

Definition newSendQueue : sendQueue := mkSendQueue [] false false false false [].

(** If there is room and [Run] has stopped, [Send] may also drop the entry: nobody
    would write it. *)
Definition sq_Send (e : queueEntry) : stM sendQueue unit :=
  q ← get;
  if blen (sqQueue q) <? sendQueueCapacity then
    modify (fun q =>
      let queue := sqQueue q ++ [e] in
      mkSendQueue queue (sqCloseCalled q) (sqShouldClose q) (sqRunStopped q)
        (if blen queue =? sendQueueCapacity then false else sqAvailable q) (sqWritten q))
  else if sqRunStopped q then mret tt
  else lift (Panic "sendQueue.Send would have blocked").

Definition sq_WouldBlock (q : sendQueue) : bool := blen (sqQueue q) =? sendQueueCapacity.

(** Receiving from [Available()]. *)
Definition sq_takeAvailable (q : sendQueue) : bool * sendQueue :=
  (sqAvailable q, mkSendQueue (sqQueue q) (sqCloseCalled q) (sqShouldClose q) (sqRunStopped q) false (sqWritten q)).

Inductive writeResult := Written | TooLarge | WriteFailed.
Inductive runEvent := RunClose | RunEntry (w : writeResult).

(** The check at the head of the loop. *)
Definition sq_settle (q : sendQueue) : sendQueue :=
  if sqShouldClose q && (blen (sqQueue q) =? 0)
  then mkSendQueue (sqQueue q) (sqCloseCalled q) true true (sqAvailable q) (sqWritten q) else q.

(** A round that cannot happen waits. *)
Definition sq_round (ev : runEvent) (q : sendQueue) : sendQueue :=
  if sqRunStopped q then q
  else match ev with
  | RunClose =>
      if sqCloseCalled q
      then sq_settle (mkSendQueue (sqQueue q) (sqCloseCalled q) true false (sqAvailable q) (sqWritten q)) else q
  | RunEntry w =>
      match sqQueue q with
      | [] => q
      | e :: rest =>
          match w with
          | WriteFailed => mkSendQueue rest (sqCloseCalled q) (sqShouldClose q) true (sqAvailable q) (sqWritten q)
          | TooLarge => sq_settle (mkSendQueue rest (sqCloseCalled q) (sqShouldClose q) false true (sqWritten q))
          | Written => sq_settle (mkSendQueue rest (sqCloseCalled q) (sqShouldClose q) false true (sqWritten q ++ [e]))
          end
      end
  end.

Definition sq_Run (evs : list runEvent) (q : sendQueue) : sendQueue := foldl (fun q ev => sq_round ev q) q evs.

(** [Close] then waits for [Run] to stop; it panics when it is called twice. *)
Definition sq_Close : stM sendQueue unit :=
  q ← get;
  if sqCloseCalled q then lift (Panic "close of closed channel")
  else modify (fun q => mkSendQueue (sqQueue q) true (sqShouldClose q) (sqRunStopped q) (sqAvailable q) (sqWritten q)).

(** ** Properties *)

Record sq_inv (q : sendQueue) : Prop := {
  si_capacity : blen (sqQueue q) <= sendQueueCapacity;
  si_close : sqShouldClose q = true -> sqCloseCalled q = true;
  (* [available] does not say that a full queue has room *)
  si_available : sqAvailable q = true -> sqRunStopped q = false -> sq_WouldBlock q = false;
  si_settled : sqShouldClose q = true -> sqRunStopped q = false -> sqQueue q <> []
}.

Lemma newSendQueue_inv : sq_inv newSendQueue.
Proof. by constructor. Qed.

Lemma sq_settle_inv q : blen (sqQueue q) <= sendQueueCapacity -> (sqShouldClose q = true -> sqCloseCalled q = true) ->
  (sqAvailable q = true -> sq_WouldBlock q = false) -> sq_inv (sq_settle q).
Proof.
  intros Hc Hs Ha. unfold sq_settle. destruct (sqShouldClose q) eqn:Es; cbn [andb].
  - destruct (Z.eqb_spec (blen (sqQueue q)) 0) as [E|E]; constructor; cbn; rewrite ?Es; auto; try done. intros _ _ E0. by rewrite E0 in E.
  - constructor; rewrite ?Es; auto; done.
Qed.

(** [Send] does not panic if [WouldBlock] returned false, also if [Run] went on meanwhile. *)
Lemma sq_Send_ok e q : sq_inv q -> sq_WouldBlock q = false ->
  exists q', sq_Send e q = (Ok tt, q') /\ sq_inv q' /\ sqQueue q' = sqQueue q ++ [e] /\ sqWritten q' = sqWritten q.
Proof.
  intros [Hc Hs Ha Hn] Hb. unfold sq_WouldBlock in Hb. apply Z.eqb_neq in Hb. unfold sq_Send, mbind, stM_bind, get.
  ztrue (blen (sqQueue q) <? sendQueueCapacity). eexists. split; [reflexivity|]. split; [|done].
  assert (Hl : blen (sqQueue q ++ [e]) = blen (sqQueue q) + 1) by (rewrite blen_app; done).
  constructor; cbn [sqQueue sqCloseCalled sqShouldClose sqRunStopped sqAvailable].
  - rewrite Hl. lia.
  - done.
  - unfold sq_WouldBlock. cbn [sqQueue]. destruct (blen (sqQueue q ++ [e]) =? sendQueueCapacity); by intros.
  - intros _ _ E. by destruct (sqQueue q).
Qed.

Lemma sq_round_inv ev q : sq_inv q -> sq_inv (sq_round ev q).
Proof.
  intros Hq. unfold sq_round. destruct (sqRunStopped q) eqn:Er; [done|]. destruct ev as [|w].
  - destruct (sqCloseCalled q) eqn:Ec; [|done]. destruct Hq as [Hc Hs Ha Hn]. apply sq_settle_inv; cbn; auto.
  - destruct (sqQueue q) as [|e rest] eqn:Eq; [done|]. destruct Hq as [Hc Hs Ha Hn]. rewrite Eq, blen_cons in Hc.
    assert (Hb : blen rest < sendQueueCapacity) by lia.
    assert (Hw : forall cl sc rs av wr, sq_WouldBlock (mkSendQueue rest cl sc rs av wr) = false) by (intros; apply Z.eqb_neq; cbn; lia).
    destruct w; [apply sq_settle_inv; cbn; auto; lia..|]. constructor; cbn; auto; lia || done.
Qed.

Lemma sq_Run_inv evs q : sq_inv q -> sq_inv (sq_Run evs q).
Proof. revert q. induction evs as [|ev evs IH]; intros q Hq; [done|]. by apply IH, sq_round_inv. Qed.

(** Entries leave the queue in the order in which they were sent. *)
Definition all_written (evs : list runEvent) : Prop := Forall (fun ev => ev <> RunEntry TooLarge /\ ev <> RunEntry WriteFailed) evs.

Lemma sq_settle_entries q : sqWritten (sq_settle q) ++ sqQueue (sq_settle q) = sqWritten q ++ sqQueue q.
Proof. unfold sq_settle. by destruct (_ && _). Qed.

Lemma sq_Run_fifo evs q : all_written evs -> sqWritten (sq_Run evs q) ++ sqQueue (sq_Run evs q) = sqWritten q ++ sqQueue q.
Proof.
  intros He. revert q. induction He as [|ev evs [H1 H2] _ IH]; intros q; [done|]. etrans; [apply IH|]. unfold sq_round.
  destruct (sqRunStopped q); [done|]. destruct ev as [|[]]; [| |done|done].
  - destruct (sqCloseCalled q); [|done]. by rewrite sq_settle_entries.
  - destruct (sqQueue q) as [|e rest] eqn:Eq; [by rewrite Eq|]. rewrite sq_settle_entries. cbn. by rewrite <- (assoc_L (++)).
Qed.

Lemma nonempty_blen {A} (x : A) l : (blen (x :: l) =? 0) = false.
Proof. apply Z.eqb_neq. unfold blen. cbn. lia. Qed.

(** After [Close], the entries in the queue are still written, then [Run] stops. *)
Lemma sq_Run_flush n : forall q, sqRunStopped q = false -> sqShouldClose q = true -> length (sqQueue q) = S n ->
  let q' := sq_Run (replicate (S n) (RunEntry Written)) q in
  sqRunStopped q' = true /\ sqQueue q' = [] /\ sqWritten q' = sqWritten q ++ sqQueue q.
Proof.
  induction n as [|n IH]; intros q Hr Hs Hl; (destruct (sqQueue q) as [|e rest] eqn:Eq; [done|]).
  - destruct rest; [|done]. cbn. unfold sq_round. rewrite Hr, Eq. unfold sq_settle. cbn. rewrite Hs. by split_and!.
  - set (q1 := mkSendQueue rest (sqCloseCalled q) true false true (sqWritten q ++ [e])).
    assert (E : sq_round (RunEntry Written) q = q1).
    { unfold sq_round. rewrite Hr, Eq. unfold sq_settle. cbn [sqShouldClose sqQueue]. destruct rest; [done|]. by rewrite Hs, nonempty_blen. }
    change (replicate (S (S n)) (RunEntry Written)) with (RunEntry Written :: replicate (S n) (RunEntry Written)).
    unfold sq_Run. cbn [foldl]. rewrite E. destruct (IH q1) as (I1 & I2 & I3); [done|done|by injection Hl|].
    split; [exact I1|]. split; [exact I2|]. etrans; [exact I3|]. cbn. by rewrite <- (assoc_L (++)).
Qed.

Theorem sq_close_flushes q : sqRunStopped q = false -> sqCloseCalled q = true ->
  let q' := sq_Run (RunClose :: replicate (length (sqQueue q)) (RunEntry Written)) q in
  sqRunStopped q' = true /\ sqQueue q' = [] /\ sqWritten q' = sqWritten q ++ sqQueue q.
Proof.
  intros Hr Hc. assert (E : sq_round RunClose q = sq_settle (mkSendQueue (sqQueue q) true true false (sqAvailable q) (sqWritten q))).
  { unfold sq_round. by rewrite Hr, Hc. }
  unfold sq_Run. cbn [foldl]. rewrite E. destruct (sqQueue q) as [|e rest].
  - cbn. by rewrite app_nil_r.
  - unfold sq_settle. cbn [sqShouldClose sqQueue andb]. rewrite nonempty_blen.
    by apply (sq_Run_flush (length rest) (mkSendQueue (e :: rest) true true false (sqAvailable q) (sqWritten q))).
Qed.
