(* ===== verification/Sending.v ===== *)
(** * Sending: when and what a connection sends

    Models the sending half of connection.go ([triggerSending] and what it calls) and
    window_update_queue.go, on the packet packer, the send queue, the two packet
    handlers, the framer, the connection ID manager and path MTU discovery.  It gives
    the packer its environment: the sent packet handler numbers packets, the received
    packet handler provides ACK frames, the framer the other frames, and the connection
    ID manager the destination.

    [now] is the time of a call; [rng] are the random words for skipped packet numbers,
    [rngID] and [fuelID] those of the connection ID manager; [shuffle] is the order of
    the control frames in a packet and [order] that of a loop over a map.  The send
    queue is emptied by another goroutine: the state has a schedule that says which rounds
    of it happen, and whether a packet arrives, before each look at the queue. *)

From stdpp Require Import base numbers list option strings gmap.
From S2P Require Import Prelude Protocol Varint AckFrame ReceivedHistory ReceivedTracker SentHistory PNGenerator Ecn GoFloat RTTStats Congestion SentPacketHandler.
From S2P Require Import FlowControl Frames FrameParser Connection CryptoStream RetransmissionQueue SendStream Headers Protection KeyUpdate Unpacker.
From S2P Require Import RingBuffer Framer ConnIDs CryptoSetup DatagramQueue Mtu Packer SendQueue.
From Stdlib Require Import ZArith Lia.
#[local] Open Scope Z_scope.

(** ** The window update queue *)

Record windowUpdateQueue := mkWindowUpdates { wuQueue : gset Z; wuQueuedConn : bool }.

Definition newWindowUpdateQueue : windowUpdateQueue := mkWindowUpdates ∅ false.
Definition AddStream (id : Z) (q : windowUpdateQueue) : windowUpdateQueue := mkWindowUpdates ({[id]} ∪ wuQueue q) (wuQueuedConn q).
Definition AddConnection (q : windowUpdateQueue) : windowUpdateQueue := mkWindowUpdates (wuQueue q) true.

(** The streams and the flow controllers, which share state: the connection's
    [IsNewlyBlocked] and [GetWindowUpdate]; for a stream, [GetOrOpenReceiveStream]
    and, if it returns a stream, its [getWindowUpdate]. *)
Class FlowOps (G : Type) := {
  connNewlyBlocked : stM G (option Z);
  connWindowUpdate : stM G Z;
  streamWindowUpdate : Z -> stM G (option Z)
}.

(** ** The connection *)

(** What the packer sees of the connection. *)
Record packEnv (A G : Type) := mkPackEnv {
  peSent : sentPacketHandler A;
  peReceived : receivedPacketHandler;
  peFramer : framerI G;
  peConnIDs : connIDManager;
  peScheduled : bool      (* sendingScheduled *)
}.
Arguments mkPackEnv {_ _} _ _ _ _ _.
Arguments peSent {_ _} _.
Arguments peReceived {_ _} _.
Arguments peFramer {_ _} _.
Arguments peConnIDs {_ _} _.
Arguments peScheduled {_ _} _.

(** The rest of the connection; the environment of the packer is kept apart. *)
Record sendState (C T G : Type) := mkSendState {
  xPacker : packetPacker C T unit;
  xFramer : framerI G;
  xConnIDs : connIDManager;
  xMtu : mtuFinder;
  xSendQueue : sendQueue;
  xOneRTTStream : cryptoStream;
  xWindowUpdates : windowUpdateQueue;
  xPacingDeadline : Z;
  xSentFirstPacket : bool;
  xSendingScheduled : bool;           (* a channel of capacity 1 *)
  xReceivedPackets : bool;            (* are there received packets to handle? *)
  xSchedule : list (list runEvent * bool)
}.
Arguments mkSendState {_ _ _} _ _ _ _ _ _ _ _ _ _ _ _.
Arguments xPacker {_ _ _} _.
Arguments xFramer {_ _ _} _.
Arguments xConnIDs {_ _ _} _.
Arguments xMtu {_ _ _} _.
Arguments xSendQueue {_ _ _} _.
Arguments xOneRTTStream {_ _ _} _.
Arguments xWindowUpdates {_ _ _} _.
Arguments xPacingDeadline {_ _ _} _.
Arguments xSentFirstPacket {_ _ _} _.
Arguments xSendingScheduled {_ _ _} _.
Arguments xReceivedPackets {_ _ _} _.
Arguments xSchedule {_ _ _} _.

Definition withEnv {C T E E'} (e : E') (p : packetPacker C T E) : packetPacker C T E' :=
  mkPacker (ppSrcConnID p) (ppPerspective p) (ppCryptoSetup p) (ppInitialStream p) (ppHandshakeStream p) (ppToken p) e
    (ppDatagramQueue p) (ppRetransmissionQueue p) (ppRand p) (ppNumNonAckElicitingAcks p).

Section setters.
Context {C T G : Type}.
Implicit Types x : sendState C T G.

Definition x_packer (v : packetPacker C T unit) (f : framerI G) (m : connIDManager) x : sendState C T G :=
  mkSendState v f m (xMtu x) (xSendQueue x) (xOneRTTStream x) (xWindowUpdates x) (xPacingDeadline x) (xSentFirstPacket x)
    (xSendingScheduled x) (xReceivedPackets x) (xSchedule x).
Definition x_mtu (v : mtuFinder) x : sendState C T G :=
  mkSendState (xPacker x) (xFramer x) (xConnIDs x) v (xSendQueue x) (xOneRTTStream x) (xWindowUpdates x) (xPacingDeadline x)
    (xSentFirstPacket x) (xSendingScheduled x) (xReceivedPackets x) (xSchedule x).
Definition x_sendQueue (v : sendQueue) x : sendState C T G :=
  mkSendState (xPacker x) (xFramer x) (xConnIDs x) (xMtu x) v (xOneRTTStream x) (xWindowUpdates x) (xPacingDeadline x)
    (xSentFirstPacket x) (xSendingScheduled x) (xReceivedPackets x) (xSchedule x).
Definition x_oneRTT (v : cryptoStream) x : sendState C T G :=
  mkSendState (xPacker x) (xFramer x) (xConnIDs x) (xMtu x) (xSendQueue x) v (xWindowUpdates x) (xPacingDeadline x)
    (xSentFirstPacket x) (xSendingScheduled x) (xReceivedPackets x) (xSchedule x).
Definition x_windowUpdates (v : windowUpdateQueue) x : sendState C T G :=
  mkSendState (xPacker x) (xFramer x) (xConnIDs x) (xMtu x) (xSendQueue x) (xOneRTTStream x) v (xPacingDeadline x)
    (xSentFirstPacket x) (xSendingScheduled x) (xReceivedPackets x) (xSchedule x).
Definition x_pacing (v : Z) x : sendState C T G :=
  mkSendState (xPacker x) (xFramer x) (xConnIDs x) (xMtu x) (xSendQueue x) (xOneRTTStream x) (xWindowUpdates x) v
    (xSentFirstPacket x) (xSendingScheduled x) (xReceivedPackets x) (xSchedule x).
Definition x_sentFirst (v : bool) x : sendState C T G :=
  mkSendState (xPacker x) (xFramer x) (xConnIDs x) (xMtu x) (xSendQueue x) (xOneRTTStream x) (xWindowUpdates x)
    (xPacingDeadline x) v (xSendingScheduled x) (xReceivedPackets x) (xSchedule x).
Definition x_scheduled (v : bool) x : sendState C T G :=
  mkSendState (xPacker x) (xFramer x) (xConnIDs x) (xMtu x) (xSendQueue x) (xOneRTTStream x) (xWindowUpdates x)
    (xPacingDeadline x) (xSentFirstPacket x) v (xReceivedPackets x) (xSchedule x).
Definition x_world (q : sendQueue) (received : bool) (s : list (list runEvent * bool)) x : sendState C T G :=
  mkSendState (xPacker x) (xFramer x) (xConnIDs x) (xMtu x) q (xOneRTTStream x) (xWindowUpdates x)
    (xPacingDeadline x) (xSentFirstPacket x) (xSendingScheduled x) received s.
End setters.

Definition deadlineSendImmediately : Z := 42 * Millisecond.
Definition MaxLargePacketBufferSize : Z := 20 * 1024.
Definition MaxPostHandshakeCryptoFrameSize : Z := 1000.

Definition getLargePacketBuffer : packetBuffer := mkBuffer [] MaxLargePacketBufferSize.

Section model.
Context {A C T G : Type} `{SendAlgorithm A} `{Crypto C} `{SendStreams G} `{FlowOps G} `{LevelOps (sendState C T G)}.
Context (rng : nat -> Z) (rngID : nat -> Z) (fuelID : nat) (now : Z) (v : Z) (gso : bool).
Context (shuffle : nat -> list packFrame -> list packFrame) (order : gset Z -> list Z).
(** Frames and frame handlers by identity, and what the handlers of lost frames do. *)
Context (frameId : wireFrame -> Z) (handlerId : frameHandler -> Z) (streamHandlerId : Z -> Z).
Context (onLost : list frame_event -> sendState C T G -> sendState C T G).

Abbreviation connT := (connection A (sendState C T G)).
Abbreviation sM := (stM (connection A (sendState C T G))).
Implicit Types c : connection A (sendState C T G).

(** *** The environment of the packer *)

Definition onPeSent {B} (m : stM (sentPacketHandler A) B) : stM (packEnv A G) B := fun e =>
  let '(r, h) := m (peSent e) in (r, mkPackEnv h (peReceived e) (peFramer e) (peConnIDs e) (peScheduled e)).
Definition onPeFramer {B} (m : stM (framerI G) B) : stM (packEnv A G) B := fun e =>
  let '(r, f) := m (peFramer e) in (r, mkPackEnv (peSent e) (peReceived e) f (peConnIDs e) (peScheduled e)).

(** The callback of the connection ID manager queues RETIRE_CONNECTION_ID frames. *)
Definition retireFrames (evs : list cmEvent) : list wireFrame :=
  omap (fun e => match e with CmRetireFrame seq => Some (FRetireConnectionID (mkRetireConnectionID seq)) | _ => None end) evs.

Fixpoint queueAll (fs : list wireFrame) : stM (framerI G) unit :=
  match fs with
  | [] => mret tt
  | f :: fs' => _ ← fr_QueueControlFrame f; queueAll fs'
  end.

Definition pe_getDestConnID : stM (packEnv A G) bytes := fun e =>
  let '(r, m) := cm_Get rngID fuelID (peConnIDs e) in
  let new := drop (length (cmEvents (peConnIDs e))) (cmEvents m) in
  (_ ← onPeFramer (queueAll (retireFrames new)); lift r)
    (mkPackEnv (peSent e) (peReceived e) (peFramer e) m (peScheduled e || negb (bool_decide (retireFrames new = [])))).

Definition pe_GetAckFrame (lvl : EncryptionLevel) (onlyIfQueued : bool) : stM (packEnv A G) (option AckFrame) := fun e =>
  let '(h, ack) := rhandler_GetAckFrame (peReceived e) lvl now onlyIfQueued in
  (Ok ack, mkPackEnv (peSent e) h (peFramer e) (peConnIDs e) (peScheduled e)).

#[local] Instance connEnv : PackerEnv (packEnv A G) := {
  getDestConnID := pe_getDestConnID;
  PeekPacketNumber lvl e := sph_PeekPacketNumber (peSent e) lvl;
  PopPacketNumber lvl := onPeSent (sph_PopPacketNumber rng lvl);
  GetAckFrame := pe_GetAckFrame;
  framer_HasData := onPeFramer fr_HasData;
  framer_AppendControlFrames fs maxLen := onPeFramer (AppendControlFrames fs maxLen);
  framer_AppendStreamFrames fs maxLen := onPeFramer (AppendStreamFrames fs maxLen)
}.

Definition packerOf c : packetPacker C T (packEnv A G) :=
  let x := cRest c in withEnv (mkPackEnv (cSent c) (cReceived c) (xFramer x) (xConnIDs x) (xSendingScheduled x)) (xPacker x).

Definition putPacker (p : packetPacker C T (packEnv A G)) c : connT :=
  let e := ppEnv p in
  c_sent (peSent e) (c_received (peReceived e) (c_rest (x_scheduled (peScheduled e) (x_packer (withEnv tt p) (peFramer e) (peConnIDs e) (cRest c))) c)).

Definition onPacker {B} (m : stM (packetPacker C T (packEnv A G)) B) : sM B := fun c =>
  let '(r, p) := m (packerOf c) in (r, putPacker p c).

(** *** Calls on the parts *)

Definition modifyRest (f : sendState C T G -> sendState C T G) : sM unit := modify (fun c => c_rest (f (cRest c)) c).

Definition onFramer {B} (m : stM (framerI G) B) : sM B := fun c =>
  let '(r, f) := m (xFramer (cRest c)) in (r, c_rest (x_packer (xPacker (cRest c)) f (xConnIDs (cRest c)) (cRest c)) c).
Definition onFlow {B} (m : stM G B) : sM B := onFramer (onStreams m).

Definition scheduleSending : sM unit := modifyRest (x_scheduled true).
Definition queueControlFrame (f : wireFrame) : sM unit := _ ← onFramer (fr_QueueControlFrame f); scheduleSending.

(** The callbacks of streams and of flow control. *)
Definition onHasStreamWindowUpdate (id : Z) : sM unit :=
  _ ← modifyRest (fun x => x_windowUpdates (AddStream id (xWindowUpdates x)) x); scheduleSending.
Definition onHasConnectionWindowUpdate : sM unit :=
  _ ← modifyRest (fun x => x_windowUpdates (AddConnection (xWindowUpdates x)) x); scheduleSending.
Definition onHasStreamData (id : Z) : sM unit := _ ← onFramer (AddActiveStream id); scheduleSending.

Definition Send (buf : packetBuffer) (gsoSize : Z) (ecn : ECN) : sM unit := fun c =>
  let '(r, q) := sq_Send (mkEntry (bufData buf) gsoSize ecn) (xSendQueue (cRest c)) in (r, c_rest (x_sendQueue q (cRest c)) c).

(** What happens meanwhile. *)
Definition elapsed (x : sendState C T G) : sendState C T G :=
  match xSchedule x with
  | [] => x
  | (evs, arrived) :: s => x_world (sq_Run evs (xSendQueue x)) (xReceivedPackets x || arrived) s x
  end.
Definition elapse : sM unit := modifyRest elapsed.

Definition WouldBlock : sM bool := _ ← elapse; c ← get; mret (sq_WouldBlock (xSendQueue (cRest c))).

Definition setPacing (t : Z) : sM unit := modifyRest (x_pacing t).

Definition resetPacingDeadline : sM unit :=
  c ← get;
  let deadline := sph_TimeUntilSend (cSent c) in
  setPacing (if Time_IsZero deadline then deadlineSendImmediately else deadline).

(** *** Window updates *)

Fixpoint queueStreamUpdates (ids : list Z) : sM unit :=
  match ids with
  | [] => mret tt
  | id :: ids' =>
      offset ← onFlow (streamWindowUpdate id);
      _ ← match offset with
          | None => mret tt
          | Some offset => if offset =? 0 then mret tt else onFramer (fr_QueueControlFrame (FMaxStreamData (mkMaxStreamData id offset)))
          end;
      queueStreamUpdates ids'
  end.

Definition QueueAll : sM unit :=
  c ← get;
  let q := xWindowUpdates (cRest c) in
  _ ← (if wuQueuedConn q then
         offset ← onFlow connWindowUpdate;
         _ ← onFramer (fr_QueueControlFrame (FMaxData (mkMaxData offset)));
         modifyRest (x_windowUpdates (mkWindowUpdates (wuQueue q) false))
       else mret tt);
  _ ← modifyRest (x_windowUpdates (mkWindowUpdates ∅ false));
  queueStreamUpdates (order (wuQueue q)).

(** *** Registering what was sent *)

Definition sentFrames (fs : list packFrame) : list Frame :=
  (fun f => mkFrame (frameId (pfFrame f)) (handlerId <$> pfHandler f)) <$> fs.
Definition sentStreamFrames (fs : list StreamFrame) : list Frame :=
  (fun f => mkFrame (frameId (FStream f)) (Some (streamHandlerId (sfStreamID f)))) <$> fs.

Definition noteAckEliciting (t : Z) (eliciting : bool) : sM unit := modify (fun c =>
  if Time_IsZero (firstAckElicitingPacketAfterIdleSentTime c) && eliciting
  then mkConn (cPerspective c) (cEnableInstantACK c) (receivedFirstPacket c) (handshakeDestConnID c) (handshakeComplete c)
         (cHandshakeConfirmed c) (lastPacketReceivedTime c) t (keepAlivePingSent c) (cSent c) (cReceived c) (cParser c) (cRest c)
  else c).

Definition largestAckedOf (ack : option AckFrame) : res Z :=
  match ack with Some ack => LargestAcked ack | None => Ok InvalidPacketNumber end.

Definition sentConnID : sM unit := modifyRest (fun x => x_packer (xPacker x) (xFramer x) (cm_SentPacket (xConnIDs x)) x).

Definition registerPackedShortHeaderPacket (p : shortHeaderPacket) (ecn : ECN) : sM unit :=
  _ ← noteAckEliciting now ((0 <? blen (spStreamFrames p)) || HasAckElicitingFrames (spFrames p));
  largestAcked ← lift (largestAckedOf (spAck p));
  _ ← onSent (SentPacket now (spPacketNumber p) largestAcked (sentStreamFrames (spStreamFrames p)) (sentFrames (spFrames p))
                Encryption1RTT ecn (spLength p) (spIsPathMTUProbePacket p) now);
  sentConnID.

Fixpoint registerLong (ps : list longHeaderPacket) (ecn : ECN) : sM unit :=
  match ps with
  | [] => mret tt
  | p :: ps' =>
      _ ← noteAckEliciting now (lp_IsAckEliciting p);
      largestAcked ← lift (largestAckedOf (lpAck p));
      lvl ← lift (lp_EncryptionLevel p);
      _ ← onSent (SentPacket now (ehPacketNumber (lpHeader p)) largestAcked (sentStreamFrames (lpStreamFrames p))
                    (sentFrames (lpFrames p)) lvl ecn (lpLength p) false now);
      c ← get;
      _ ← (if bool_decide (cPerspective c = PerspectiveClient) && bool_decide (lvl = EncryptionHandshake)
           then dropEncryptionLevel EncryptionInitial now else mret tt);
      registerLong ps' ecn
  end.

Definition sendPackedCoalescedPacket (packet : coalescedPacket) (ecn : ECN) : sM unit :=
  _ ← registerLong (cpLongHdrPackets packet) ecn;
  _ ← match cpShortHdrPacket packet with
      | None => mret tt
      | Some p =>
          _ ← noteAckEliciting now (sp_IsAckEliciting p);
          largestAcked ← lift (largestAckedOf (spAck p));
          onSent (SentPacket now (spPacketNumber p) largestAcked (sentStreamFrames (spStreamFrames p)) (sentFrames (spFrames p))
                    Encryption1RTT ecn (spLength p) (spIsPathMTUProbePacket p) now)
      end;
  _ ← sentConnID;
  Send (cpBuffer packet) 0 ecn.

(** *** Packets *)

Definition currentSize : sM Z := c ← get; mret (CurrentSize (xMtu (cRest c))).

Definition appendOneShortHeaderPacket (buf : packetBuffer) (maxSize : Z) (ecn : ECN) : sM (Z * packetBuffer) :=
  '(p, buf') ← onPacker (AppendPacket shuffle buf maxSize);
  _ ← registerPackedShortHeaderPacket p ecn;
  mret (blen (bufData buf') - blen (bufData buf), buf').

(** [None] if there is nothing to pack. *)
Definition unlessNothing {B} (m : sM B) : sM (option B) := fun c =>
  match m c with
  | (Ok x, c') => (Ok (Some x), c')
  | (Err e, c') => if decide (e = errNothingToPack) then (Ok None, c') else (Err e, c')
  | (Panic p, c') => (Panic p, c')
  end.

Definition maybeSendAckOnlyPacket : sM unit :=
  c ← get;
  if negb (cHandshakeConfirmed c) then
    ecn ← onSent (ECNMode false);
    size ← currentSize;
    packet ← onPacker (PackCoalescedPacket shuffle true size v);
    match packet with
    | None => mret tt
    | Some packet => sendPackedCoalescedPacket packet ecn
    end
  else
    ecn ← onSent (ECNMode true);
    size ← currentSize;
    r ← unlessNothing (onPacker (PackAckOnlyPacket shuffle size));
    match r with
    | None => mret tt
    | Some (p, buf) => _ ← registerPackedShortHeaderPacket p ecn; Send buf 0 ecn
    end.

(** The handlers of the frames that are declared lost queue them again. *)
Definition conn_QueueProbePacket (lvl : EncryptionLevel) : sM bool :=
  c ← get;
  let before := length (sh_events (cSent c)) in
  queued ← onSent (QueueProbePacket lvl);
  c ← get;
  _ ← modifyRest (onLost (drop before (sh_events (cSent c))));
  mret queued.

(** The loop ends when a packet was packed or when no packet is outstanding. *)
Fixpoint queueProbes (fuel : nat) (lvl : EncryptionLevel) : sM (option coalescedPacket) :=
  wasQueued ← conn_QueueProbePacket lvl;
  if negb wasQueued then mret None
  else
    size ← currentSize;
    packet ← onPacker (MaybePackProbePacket shuffle lvl size v);
    match packet, fuel with
    | Some packet, _ => mret (Some packet)
    | None, O => lift (Panic "out of fuel")
    | None, S fuel' => queueProbes fuel' lvl
    end.

Definition sendProbePacket (fuel : nat) (lvl : EncryptionLevel) : sM unit :=
  packet ← queueProbes fuel lvl;
  packet ← match packet with
           | Some packet => mret (Some packet)
           | None =>
               _ ← onPacker (onRetrans (AddPing lvl));
               size ← currentSize;
               onPacker (MaybePackProbePacket shuffle lvl size v)
           end;
  match packet with
  | None => throw (ErrorString "connection BUG: couldn't pack %s probe packet")
  | Some packet =>
      if (blen (cpLongHdrPackets packet) =? 0) && bool_decide (cpShortHdrPacket packet = None)
      then throw (ErrorString "connection BUG: couldn't pack %s probe packet")
      else
        ecn ← onSent (ECNMode (IsOnlyShortHeaderPacket packet));
        sendPackedCoalescedPacket packet ecn
  end.

(** Whether to continue after a packet was sent. *)
Definition maySendMore : sM bool :=
  c ← get;
  match sph_SendMode (cSent c) now with
  | SendAny => mret true
  | SendPacingLimited => _ ← resetPacingDeadline; mret false
  | _ => mret false
  end.

Definition receiveFirst : sM bool :=
  c ← get; if xReceivedPackets (cRest c) then _ ← setPacing deadlineSendImmediately; mret true else mret false.

Fixpoint sendPacketsWithoutGSO (fuel : nat) : sM unit :=
  ecn ← onSent (ECNMode true);
  size ← currentSize;
  r ← unlessNothing (appendOneShortHeaderPacket getPacketBuffer size ecn);
  match r with
  | None => mret tt
  | Some (_, buf) =>
      _ ← Send buf 0 ecn;
      blocked ← WouldBlock;
      if blocked : bool then mret tt
      else
        more ← maySendMore;
        if negb more then mret tt
        else
          stop ← receiveFirst;
          if stop : bool then mret tt
          else match fuel with O => lift (Panic "out of fuel") | S fuel' => sendPacketsWithoutGSO fuel' end
  end.

Fixpoint sendPacketsWithGSO_loop (fuel : nat) (buf : packetBuffer) (maxSize : Z) (ecn : ECN) : sM unit :=
  r ← unlessNothing (appendOneShortHeaderPacket buf maxSize ecn);
  match r with
  | None =>
      if blen (bufData buf) =? 0 then mret tt
      else _ ← onSent (ECNMode true); Send buf (u16 maxSize) ecn
  | Some (size, buf) =>
      more ← maySendMore;
      nextECN ← onSent (ECNMode true);
      if more && (size =? maxSize) && bool_decide (nextECN = ecn) && (blen (bufData buf) + maxSize <=? bufCap buf)
      then match fuel with O => lift (Panic "out of fuel") | S fuel' => sendPacketsWithGSO_loop fuel' buf maxSize ecn end
      else
        _ ← Send buf (u16 maxSize) ecn;
        if negb more then mret tt
        else
          blocked ← WouldBlock;
          if blocked : bool then mret tt
          else
            stop ← receiveFirst;
            if stop : bool then mret tt
            else match fuel with O => lift (Panic "out of fuel") | S fuel' => sendPacketsWithGSO_loop fuel' getLargePacketBuffer maxSize ecn end
  end.

Definition sendPacketsWithGSO (fuel : nat) : sM unit :=
  maxSize ← currentSize;
  ecn ← onSent (ECNMode true);
  sendPacketsWithGSO_loop fuel getLargePacketBuffer maxSize ecn.

(** The path MTU probe; the handler of its PING frame is the MTU discoverer. *)
Definition sendMTUProbe (mtuHandler : Z) : sM unit :=
  c ← get;
  let '(ping, size, mtu) := GetPing now (xMtu (cRest c)) in
  _ ← modifyRest (x_mtu mtu);
  '(p, buf) ← onPacker (PackMTUProbePacket shuffle (mkPackFrame ping (Some (otherHandler mtuHandler))) size);
  ecn ← onSent (ECNMode true);
  _ ← registerPackedShortHeaderPacket p ecn;
  _ ← Send buf 0 ecn;
  setPacing deadlineSendImmediately.

(** Control frames that are due. *)
Definition queueDueFrames : sM unit :=
  blocked ← onFlow connNewlyBlocked;
  _ ← match blocked with
      | Some offset => onFramer (fr_QueueControlFrame (FDataBlocked (mkDataBlocked offset)))
      | None => mret tt
      end;
  _ ← QueueAll;
  c ← get;
  if negb (cs_HasData (xOneRTTStream (cRest c))) then mret tt
  else
    let '(r, s) := PopCryptoFrame MaxPostHandshakeCryptoFrameSize (xOneRTTStream (cRest c)) in
    _ ← modifyRest (x_oneRTT s);
    f ← lift r;
    queueControlFrame (FCrypto f).

Definition sendPackets (fuel : nat) (mtuHandler : Z) : sM unit :=
  c ← get;
  if cHandshakeConfirmed c && ShouldSendProbe (rttStats (cSent c)) now (xMtu (cRest c)) then sendMTUProbe mtuHandler
  else
    _ ← queueDueFrames;
    c ← get;
    if negb (cHandshakeConfirmed c) then
      size ← currentSize;
      packet ← onPacker (PackCoalescedPacket shuffle false size v);
      match packet with
      | None => mret tt
      | Some packet =>
          _ ← modifyRest (x_sentFirst true);
          ecn ← onSent (ECNMode (IsOnlyShortHeaderPacket packet));
          _ ← sendPackedCoalescedPacket packet ecn;
          more ← maySendMore;
          if more : bool then setPacing deadlineSendImmediately else mret tt
      end
    else if gso then sendPacketsWithGSO fuel else sendPacketsWithoutGSO fuel.

(** [fuel] bounds the loops that send packets, [rounds] the probe packets. *)
Fixpoint triggerSending (fuel rounds : nat) (mtuHandler : Z) : sM unit :=
  let probe lvl :=
    _ ← sendProbePacket fuel lvl;
    blocked ← WouldBlock;
    if blocked : bool then scheduleSending
    else match rounds with O => lift (Panic "out of fuel") | S rounds' => triggerSending fuel rounds' mtuHandler end in
  _ ← setPacing zeroTime;
  c ← get;
  match sph_SendMode (cSent c) now with
  | SendAny => sendPackets fuel mtuHandler
  | SendNone => mret tt
  | SendPacingLimited => _ ← resetPacingDeadline; maybeSendAckOnlyPacket
  | SendAck => maybeSendAckOnlyPacket
  | SendPTOInitial => probe EncryptionInitial
  | SendPTOHandshake => probe EncryptionHandshake
  | SendPTOAppData => probe Encryption1RTT
  end.

(** *** Closing *)

(** The error is one of the protocol or, on the right, of the application.  The packet
    is written to the socket directly; the write succeeds. *)
Definition sendConnectionClose (e : GoError + (Z * bytes)) : sM bytes :=
  size ← currentSize;
  packet ← onPacker (match e with
                     | inl (TransportError code frameType msg) => PackConnectionClose shuffle code frameType (bytes_of_string msg) size v
                     | inr (code, msg) => PackApplicationClose shuffle code msg size v
                     | inl e => PackConnectionClose shuffle InternalError 0
                                (bytes_of_string ("connection BUG: unspecified error type (msg: " +:+ error_text e +:+ ")")) size v
                     end);
  ecn ← onSent (ECNMode (IsOnlyShortHeaderPacket packet));
  let data := bufData (cpBuffer packet) in
  _ ← modifyRest (fun x =>
        let q := xSendQueue x in
        x_sendQueue (mkSendQueue (sqQueue q) (sqCloseCalled q) (sqShouldClose q) (sqRunStopped q) (sqAvailable q) (sqWritten q ++ [mkEntry data 0 ecn])) x);
  mret data.

(** *** The operations of a connection that sends *)

(** The handlers of frames, of the end of the handshake and of acknowledged 1-RTT
    packets are parameters.  Until the handshake is complete, the connection ID in use
    has sequence number 0, so [ChangeInitialConnID] does not panic. *)
Definition sendingOps (fuel rounds : nat) (mtuHandler : Z)
    (handleFrame' : wireFrame -> EncryptionLevel -> bytes -> sM unit) (handshakeComplete' : sM unit)
    (confirmed : sendState C T G -> sendState C T G) (largestAcked : Z -> sendState C T G -> res (sendState C T G))
    : ConnectionOps A (sendState C T G) := {|
  ops_ChangeInitialConnID id x := x_packer (xPacker x) (xFramer x) (cm_ChangeInitialConnID id (xConnIDs x)).2 x;
  ops_handleFrame := handleFrame';
  ops_handleHandshakeComplete := handshakeComplete';
  ops_triggerSending := triggerSending fuel rounds mtuHandler;
  ops_SetHandshakeConfirmed := confirmed;
  ops_SetLargest1RTTAcked := largestAcked
|}.
End model.
