(* ===== verification/RunLoop.v ===== *)
(** * RunLoop: timers, timeouts and the main loop of a connection

    Models connection_timer.go, internal/utils/timer.go, and of connection.go the
    deadlines ([nextIdleTimeoutTime], [nextKeepAliveTime], [maybeResetTimer]), [run] with
    the body of its loop, and what happens when the loop has ended
    ([handleCloseError]).  A round of the loop is a function of what woke it up.  The
    channel of a timer is not modelled: that it fired is such an event.  The time of a
    round is [now]. *)

From stdpp Require Import base numbers list option strings gmap.
From S2P Require Import Prelude Protocol Varint AckFrame ReceivedHistory ReceivedTracker SentHistory PNGenerator Ecn GoFloat RTTStats Congestion SentPacketHandler.
From S2P Require Import Frames FrameParser Connection CryptoStream Headers Protection KeyUpdate Unpacker TransportParams CryptoSetup PacketHandling ConnHandshake Sending.
From Stdlib Require Import ZArith Lia.
#[local] Open Scope Z_scope.

(** ** Timers *)

Definition NewTimer : Timer := mkTimer false zeroTime.

Definition tm_Reset (deadline : Z) (t : Timer) : Timer :=
  if (deadline =? tmDeadline t) && negb (tmRead t) then t else mkTimer false deadline.

Definition newTimer : connectionTimer := mkConnectionTimer NewTimer zeroTime.

Definition ct_SetRead (t : connectionTimer) : connectionTimer :=
  mkConnectionTimer (mkTimer true (tmDeadline (ctTimer t)))
    (if negb (tmDeadline (ctTimer t) =? deadlineSendImmediately) then tmDeadline (ctTimer t) else ctLast t).

(** The deadline that [SetTimer] chooses. *)
Definition timerDeadline (idleTimeoutOrKeepAlive ackAlarm lossTime pacing last : Z) : Z :=
  let deadline := idleTimeoutOrKeepAlive in
  let deadline := if negb (Time_IsZero ackAlarm) && Time_Before ackAlarm deadline && Time_After ackAlarm last then ackAlarm else deadline in
  let deadline := if negb (Time_IsZero lossTime) && Time_Before lossTime deadline && Time_After lossTime last then lossTime else deadline in
  if negb (Time_IsZero pacing) && Time_Before pacing deadline then pacing else deadline.

Definition ct_SetTimer (idleTimeoutOrKeepAlive ackAlarm lossTime pacing : Z) (t : connectionTimer) : connectionTimer :=
  mkConnectionTimer (tm_Reset (timerDeadline idleTimeoutOrKeepAlive ackAlarm lossTime pacing (ctLast t)) (ctTimer t)) (ctLast t).

(** ** The connection *)

(** What the loop calls in the other subsystems. *)
Class RunOps (A X : Type) := {
  ops_pacingDeadline : X -> Z;
  ops_sentFirstPacket : X -> bool;
  (* cryptoStreamHandler.StartHandshake *)
  ops_StartHandshake : stM X unit;
  (* the channels sendingScheduled and sendQueue.Available *)
  ops_takeScheduled : X -> X;
  ops_takeAvailable : X -> X;
  ops_WouldBlock : stM X bool;
  ops_queuePing : stM X unit;
  (* cryptoStreamHandler.Close, sendQueue.Close *)
  ops_CryptoClose : X -> X;
  ops_CloseQueue : stM X unit;
  (* streamsMap, connIDManager and datagramQueue *)
  ops_CloseWithError : closeCause -> X -> X;
  (* connIDGenerator *)
  ops_ReplaceWithClosed : Perspective -> option bytes -> X -> X;
  ops_RemoveAll : X -> X;
  ops_sendConnectionClose : closeCause -> stM (connection A (receiver X)) bytes
}.

(** What wakes the loop up: the timer, data to send, space in the send queue, or a
    packet, with those that have arrived behind it. *)
Inductive wake :=
  | WakeTimer
  | WakeScheduled
  | WakeAvailable
  | WakePacket (p : receivedPacket) (more : list receivedPacket).

Definition handshakeTimeout (cf : Config) : Z := 2 * cfHandshakeIdleTimeout cf.

Section model.
Context {A X C : Type} `{SendAlgorithm A} `{PacketOps X} `{ConnectionOps A (receiver X)} `{RunOps A X} `{Crypto C}.
Context (rng : nat -> Z) (now : Z) (log : bool).
Abbreviation hM := (stM (connection A (receiver X))).
Implicit Types c : connection A (receiver X).

(** *** Deadlines *)

Definition idleTimeoutStartTime c : Z :=
  if Time_After (lastPacketReceivedTime c) (firstAckElicitingPacketAfterIdleSentTime c)
  then lastPacketReceivedTime c else firstAckElicitingPacketAfterIdleSentTime c.

Definition connPTO c : Z := PTO (rttStats (cSent c)) true.

Definition nextIdleTimeoutTime c : Z :=
  Time_Add (idleTimeoutStartTime c) (Z.max (rvIdleTimeout (cRest c)) (i64 (connPTO c * 3))).

Definition nextKeepAliveTime c : Z :=
  if (cfKeepAlivePeriod (rvConfig (cRest c)) =? 0) || keepAlivePingSent c
     || negb (Time_IsZero (firstAckElicitingPacketAfterIdleSentTime c)) then zeroTime
  else Time_Add (lastPacketReceivedTime c) (Z.max (rvKeepAliveInterval (cRest c)) (Z.quot (i64 (connPTO c * 3)) 2)).

Definition connDeadline c : Z :=
  let r := cRest c in
  if negb (handshakeComplete c) then
    let a := Time_Add (rvCreationTime r) (handshakeTimeout (rvConfig r)) in
    let b := Time_Add (idleTimeoutStartTime c) (cfHandshakeIdleTimeout (rvConfig r)) in
    if Time_After a b then b else a
  else if negb (Time_IsZero (nextKeepAliveTime c)) then nextKeepAliveTime c else nextIdleTimeoutTime c.

Definition maybeResetTimer : hM unit := modify (fun c =>
  let r := cRest c in
  c_rest (rv_timer (ct_SetTimer (connDeadline c) (rhandler_GetAlarmTimeout (cReceived c)) (GetLossDetectionTimeout (cSent c))
                      (ops_pacingDeadline (rvRest r)) (rvTimer r)) r) c).

(** *** A round of the loop *)

Definition isClosed : hM bool := c ← get; mret (bool_decide (is_Some (rvClose (cRest c)))).

(** Handle packets until the connection is closed ([None]); was one processed? *)
Fixpoint handlePackets (ps : list receivedPacket) (processed : bool) : hM (option bool) :=
  match ps with
  | [] => mret (Some processed)
  | p :: ps' =>
      b ← handlePacketImpl (C := C) rng now log p;
      closed ← isClosed;
      if closed : bool then mret None else handlePackets ps' (processed || b)
  end.

(** More than one packet is received only after the handshake. *)
Definition receivePackets (p : receivedPacket) (more : list receivedPacket) : hM (option bool) :=
  r ← handlePackets [p] false;
  match r with
  | None => mret None
  | Some processed => c ← get; if handshakeComplete c then handlePackets more processed else mret (Some processed)
  end.

Definition lossTimeout : hM unit :=
  c ← get;
  let timeout := GetLossDetectionTimeout (cSent c) in
  if negb (Time_IsZero timeout) && Time_Before timeout now then
    r ← attempt (onSent (OnLossDetectionTimeout rng now));
    match r with inl err => closeLocal (CloseErr err) | inr _ => mret tt end
  else mret tt.

Definition setKeepAlivePingSent c : connection A (receiver X) :=
  mkConn (cPerspective c) (cEnableInstantACK c) (receivedFirstPacket c) (handshakeDestConnID c) (handshakeComplete c)
    (cHandshakeConfirmed c) (lastPacketReceivedTime c) (firstAckElicitingPacketAfterIdleSentTime c) true (cSent c) (cReceived c)
    (cParser c) (cRest c).

(** Has the handshake, or has the connection, been idle for too long? *)
Definition idleExpired c : bool :=
  (negb (handshakeComplete c) && (cfHandshakeIdleTimeout (rvConfig (cRest c)) <=? Time_Sub now (idleTimeoutStartTime c)))
  || (handshakeComplete c && Time_After now (nextIdleTimeoutTime c)).

(** Keep-alive and timeouts; false if the connection was closed. *)
Definition checkTimeouts : hM bool :=
  c ← get;
  let keepAliveTime := nextKeepAliveTime c in
  if negb (Time_IsZero keepAliveTime) && negb (Time_Before now keepAliveTime) then
    _ ← onX ops_queuePing;
    _ ← modify setKeepAlivePingSent;
    mret true
  else if negb (handshakeComplete c) && (handshakeTimeout (rvConfig (cRest c)) <=? Time_Sub now (rvCreationTime (cRest c))) then
    _ ← destroyImpl CloseHandshakeTimeout; mret false
  else if idleExpired c then _ ← destroyImpl CloseIdleTimeout; mret false
  else mret true.

Definition trySending : hM unit :=
  blocked ← onX ops_WouldBlock;
  if blocked : bool then mret tt
  else
    r ← attempt ops_triggerSending;
    match r with inl err => closeLocal (CloseErr err) | inr _ => mret tt end.

(** Returns whether the loop goes on.  If packets that waited for their keys were
    processed, the loop does not wait, and [w] stays for the next round. *)
Definition runRound (w : wake) : hM bool :=
  closed ← isClosed;
  if closed : bool then mret false
  else
    _ ← maybeResetTimer;
    c ← get;
    _ ← modifyRv (rv_toProcess []);
    undecryptable ← handlePackets (rvToProcess (cRest c)) false;
    processed ← match undecryptable with
                | None => mret None
                | Some true => mret (Some true)
                | Some false =>
                    match w with
                    | WakeTimer => _ ← modifyRv (fun r => rv_timer (ct_SetRead (rvTimer r)) r); mret (Some true)
                    | WakeScheduled => _ ← modifyRv (fun r => rv_rest (ops_takeScheduled (rvRest r)) r); mret (Some true)
                    | WakeAvailable => _ ← modifyRv (fun r => rv_rest (ops_takeAvailable (rvRest r)) r); mret (Some true)
                    | WakePacket p more => receivePackets p more
                    end
                end;
    match processed with
    | None => mret false
    | Some false => mret true
    | Some true =>
        _ ← lossTimeout;
        open ← checkTimeouts;
        if negb open then mret true else _ ← trySending; mret true
    end.

Fixpoint runLoop (ws : list wake) : hM bool :=
  match ws with
  | [] => mret true
  | w :: ws' => more ← runRound w; if more : bool then runLoop ws' else mret false
  end.

(** *** After the loop *)

(** The error as the application and the peer see it. *)
Definition reportedError (e : closeCause) : closeCause :=
  match e with
  | CloseNil => CloseApplication 0 []
  | CloseErr (TransportError _ _ _) => e
  | CloseErr e => CloseErr (TransportError InternalError 0 (error_text e))
  | _ => e
  end.

Definition handleCloseError (closeErr : closeError) : hM unit :=
  let e := reportedError (ceErr closeErr) in
  let onRv f : hM unit := modifyRv (fun r => rv_rest (f (rvRest r)) r) in
  _ ← onRv (ops_CloseWithError e);
  c ← get;
  if ceRemote closeErr then onRv (ops_ReplaceWithClosed (cPerspective c) None)
  else if ceImmediate closeErr then onRv ops_RemoveAll
  else if bool_decide (cPerspective c = PerspectiveClient) && negb (ops_sentFirstPacket (rvRest (cRest c))) then onRv ops_RemoveAll
  else
    r ← attempt (ops_sendConnectionClose e);
    onRv (ops_ReplaceWithClosed (cPerspective c) (match r with inr packet => Some packet | inl _ => None end)).

Definition endLoop : hM unit :=
  c ← get;
  match rvClose (cRest c) with
  | None => mret tt
  | Some closeErr =>
      _ ← modifyRv (fun r => rv_rest (ops_CryptoClose (rvRest r)) r);
      _ ← onX ops_CloseQueue;
      handleCloseError closeErr
  end.

(** The events of the handshake are bounded by [fuel]; [ws] is what wakes the loop up. *)
Definition startRun `{HandshakeOps X} (fuel : nat) : hM unit :=
  _ ← modifyRv (rv_timer newTimer);
  _ ← onX ops_StartHandshake;
  _ ← handleHandshakeEvents now fuel;
  c ← get;
  if bool_decide (cPerspective c = PerspectiveClient) then modifyRv (fun r => rv_rest (ops_scheduleSending (rvRest r)) r) else mret tt.

Definition run `{HandshakeOps X} (fuel : nat) (ws : list wake) : hM unit := _ ← startRun fuel; _ ← runLoop ws; endLoop.
End model.

(** ** The timer *)

(** The timer fires no later than any deadline that is not in the past of its last
    firing, and it fires for one of them. *)
Lemma timerDeadline_spec idle ack loss pacing last :
  let d := timerDeadline idle ack loss pacing last in
  d <= idle /\ (ack <> 0 -> last < ack -> d <= ack) /\ (loss <> 0 -> last < loss -> d <= loss) /\ (pacing <> 0 -> d <= pacing) /\
  (d = idle \/ (d = ack /\ last < ack) \/ (d = loss /\ last < loss) \/ d = pacing).
Proof.
  unfold timerDeadline, Time_IsZero, Time_Before, Time_After, zeroTime.
  set (d1 := if negb (ack =? 0) && (ack <? idle) && (last <? ack) then ack else idle).
  set (d2 := if negb (loss =? 0) && (loss <? d1) && (last <? loss) then loss else d1). cbv zeta.
  assert (H1 : d1 <= idle /\ (ack <> 0 -> last < ack -> d1 <= ack) /\ (d1 = idle \/ (d1 = ack /\ last < ack)))
    by (clear d2; subst d1; destruct (_ && _ && _) eqn:E; lia).
  assert (H2 : d2 <= d1 /\ (loss <> 0 -> last < loss -> d2 <= loss) /\ (d2 = d1 \/ (d2 = loss /\ last < loss)))
    by (clearbody d1; subst d2; destruct (_ && _ && _) eqn:E; lia).
  clearbody d1 d2. destruct (negb (pacing =? 0) && (pacing <? d2)) eqn:E; lia.
Qed.

(** After the timer has fired at an alarm, it is not set to the same or an earlier alarm
    again, however often the loop goes round: only the timeout of the connection and the
    pacer can be earlier. *)
Lemma timer_no_busy_loop t idle ack loss :
  let fired := tmDeadline (ctTimer t) in fired <> deadlineSendImmediately ->
  let d := tmDeadline (ctTimer (ct_SetTimer idle ack loss zeroTime (ct_SetRead t))) in d = idle \/ fired < d.
Proof.
  intros fired Hf d. assert (Hd : d = timerDeadline idle ack loss zeroTime fired).
  { subst d. unfold ct_SetTimer, ct_SetRead, tm_Reset. cbn [ctTimer ctLast tmDeadline tmRead]. fold fired.
    rewrite (proj2 (Z.eqb_neq _ _) Hf). cbn [negb]. by rewrite andb_false_r. }
  rewrite Hd. clear d Hd.
  unfold timerDeadline, Time_IsZero, Time_Before, Time_After, zeroTime. rewrite Z.eqb_refl. cbn [negb andb].
  destruct (negb (ack =? 0) && (ack <? idle) && (fired <? ack)) eqn:E1; destruct (negb (loss =? 0) && (loss <? _) && (fired <? loss)) eqn:E2; lia.
Qed.

(** ** Timeouts *)

Section proofs.
Context {A X C : Type} `{HA : !SendAlgorithm A} `{HP : !PacketOps X} `{HO : !ConnectionOps A (receiver X)} `{HR : !RunOps A X} `{HC : !Crypto C}.
Context (rng : nat -> Z) (now : Z) (log : bool).
Implicit Types c : connection A (receiver X).

Definition closedFor (e : closeCause) c : connection A (receiver X) := c_rest (rv_close (Some (mkCloseError e true false)) (cRest c)) c.

(** After [maybeResetTimer] the timer fires no later than the deadline of the connection. *)
Lemma armed_deadline c : tmDeadline (ctTimer (rvTimer (cRest (maybeResetTimer c).2))) <= connDeadline c.
Proof.
  cbn. set (d := timerDeadline _ _ _ _ _).
  assert (E : tmDeadline (tm_Reset d (ctTimer (rvTimer (cRest c)))) = d).
  { unfold tm_Reset. destruct (Z.eqb_spec d (tmDeadline (ctTimer (rvTimer (cRest c))))) as [E|]; [by destruct (negb _)|done]. }
  rewrite E. apply timerDeadline_spec.
Qed.

(** The loop is not woken up by a packet. *)
Definition no_packet (w : wake) : Prop := match w with WakePacket _ _ => False | _ => True end.

(** The connection in a round that [w] has woken up. *)
Definition woken (w : wake) c : connection A (receiver X) :=
  let c := (maybeResetTimer c).2 in
  let r := rv_toProcess [] (cRest c) in
  c_rest (match w with
          | WakeTimer => rv_timer (ct_SetRead (rvTimer r)) r
          | WakeScheduled => rv_rest (ops_takeScheduled (rvRest r)) r
          | WakeAvailable => rv_rest (ops_takeAvailable (rvRest r)) r
          | WakePacket _ _ => r
          end) c.

Lemma round_woken w c : rvClose (cRest c) = None -> rvToProcess (cRest c) = [] -> no_packet w ->
  runRound (C := C) rng now log w c =
    (_ ← lossTimeout rng now; open ← checkTimeouts now; if negb open then mret true else _ ← trySending; mret true) (woken w c).
Proof.
  intros Hc Hp Hw. unfold runRound.
  rewrite (stM_bind_ok isClosed _ c c false) by (unfold isClosed, mbind, stM_bind, get; by rewrite Hc). cbn beta iota.
  set (c1 := (maybeResetTimer c).2). rewrite (stM_bind_ok maybeResetTimer _ c c1 tt) by done. cbn beta.
  rewrite (stM_bind_ok get _ c1 c1 c1) by done. cbn beta. assert (Hp1 : rvToProcess (cRest c1) = []) by done. rewrite Hp1.
  set (c2 := c_rest (rv_toProcess [] (cRest c1)) c1). rewrite (stM_bind_ok (modifyRv (rv_toProcess [])) _ c1 c2 tt) by done. cbn beta.
  rewrite (stM_bind_ok (handlePackets (C := C) rng now log [] false) _ c2 c2 (Some false)) by done. cbn beta iota.
  rewrite (stM_bind_ok _ _ c2 (woken w c) (Some true)); [done|by destruct w].
Qed.

(** The loss timer only concerns the sent packets; an error closes the connection. *)
Lemma lossTimeout_keeps c : exists h e, (lossTimeout rng now c).2 = c_rest (rv_close e (cRest c)) (c_sent h c).
Proof.
  assert (Hid : c = c_rest (rv_close (rvClose (cRest c)) (cRest c)) (c_sent (cSent c) c)) by by destruct c as [????????????[]].
  unfold lossTimeout. rewrite (stM_bind_ok get _ c c c) by done. destruct (_ && _); [|by eexists _, _].
  unfold mbind, stM_bind, attempt, onSent. destruct (OnLossDetectionTimeout rng now (cSent c)) as [[[]|e|m] h].
  - exists h, (rvClose (cRest c)). by destruct c as [????????????[]].
  - cbn. destruct (rvClose (cRest c)) as [e0|] eqn:Ec; cbn; [exists h, (Some e0); rewrite <- Ec; by destruct c as [????????????[]]|by eexists _, _].
  - exists h, (rvClose (cRest c)). by destruct c as [????????????[]].
Qed.

Lemma lossTimeout_no_error c e : (lossTimeout rng now c).1 <> Err e.
Proof.
  unfold lossTimeout. rewrite (stM_bind_ok get _ c c c) by done. destruct (_ && _); [|done].
  unfold mbind, stM_bind, attempt. by destruct (onSent _ c) as [[]].
Qed.

(** Without keep-alives, after the handshake, only the idle timeout counts. *)
Lemma checkTimeouts_idle c :
  handshakeComplete c = true -> cfKeepAlivePeriod (rvConfig (cRest c)) = 0 -> rvClose (cRest c) = None ->
  checkTimeouts now c = if nextIdleTimeoutTime c <? now then (Ok false, closedFor CloseIdleTimeout c) else (Ok true, c).
Proof.
  intros Hh Hk Hc. assert (Hka : nextKeepAliveTime c = zeroTime) by (unfold nextKeepAliveTime; by rewrite Hk).
  unfold checkTimeouts. rewrite (stM_bind_ok get _ c c c) by done. rewrite Hka, Hh. cbn [negb andb Time_IsZero].
  unfold idleExpired, Time_After. rewrite Hh. cbn [negb andb orb]. destruct (nextIdleTimeoutTime c <? now); [|done].
  change (Time_IsZero zeroTime) with true. cbn [negb andb]. rewrite (stM_bind_ok _ _ c (closedFor CloseIdleTimeout c) tt); [done|].
  unfold destroyImpl, closeOnce, modifyRv, modify. by rewrite Hc.
Qed.

(** C39: A connection that is idle for too long is closed, and not before.  After the
    handshake, without keep-alives, the timer is never set later than the idle
    deadline - the last packet received, or the first ack-eliciting packet sent
    since, plus the idle timeout or three PTOs.  Consider a round that is woken up
    by the timer, by data to send or by space in the send queue, with no packet that
    has waited for its keys.  An expired loss timer is handled first; unless that
    closes the connection because of an error (or panics), a round after the
    deadline closes the connection with the idle timeout error and sends nothing,
    and the next round ends the loop, while a round until the deadline closes
    nothing and goes on to send. *)
Theorem idle_connection_closes w c :
  handshakeComplete c = true -> cfKeepAlivePeriod (rvConfig (cRest c)) = 0 ->
  rvClose (cRest c) = None -> rvToProcess (cRest c) = [] -> no_packet w ->
  let round w c := runRound (C := C) rng now log w c in
  tmDeadline (ctTimer (rvTimer (cRest (maybeResetTimer c).2))) <= nextIdleTimeoutTime c /\
  ((GetLossDetectionTimeout (cSent c) = 0 \/ now <= GetLossDetectionTimeout (cSent c)) -> lossTimeout rng now (woken w c) = (Ok tt, woken w c)) /\
  match lossTimeout rng now (woken w c) with
  | (Ok _, c1) => rvClose (cRest c1) = None ->
      let closed := closedFor CloseIdleTimeout c1 in
      (nextIdleTimeoutTime c1 < now -> round w c = (Ok true, closed) /\ forall w', round w' closed = (Ok false, closed)) /\
      (now <= nextIdleTimeoutTime c1 -> round w c = (_ ← trySending; mret true) c1)
  | (Err _, _) => False
  | (Panic m, c1) => round w c = (Panic m, c1)
  end.
Proof.
  intros Hh Hk Hc Hp Hw round.
  assert (Hka : nextKeepAliveTime c = zeroTime) by (unfold nextKeepAliveTime; by rewrite Hk).
  split; [|split].
  - etrans; [apply armed_deadline|]. unfold connDeadline. rewrite Hh, Hka. done.
  - intros Hl. unfold lossTimeout, mbind, stM_bind, get. change (cSent (woken w c)) with (cSent c). unfold Time_IsZero, Time_Before, zeroTime.
    by replace (negb (GetLossDetectionTimeout (cSent c) =? 0) && (GetLossDetectionTimeout (cSent c) <? now)) with false by (destruct Hl; lia).
  - unfold round. rewrite round_woken by done. destruct (lossTimeout_keeps (woken w c)) as (h & e & El).
    pose proof (lossTimeout_no_error (woken w c)) as Hne.
    destruct (lossTimeout rng now (woken w c)) as [[[]|err|m] c1] eqn:E; [|by destruct (Hne err)|by rewrite (stM_bind_panic _ _ _ _ _ E)].
    cbn in El. intros Hc1.
    assert (Hh1 : handshakeComplete c1 = true /\ cfKeepAlivePeriod (rvConfig (cRest c1)) = 0) by (rewrite El; by destruct w).
    rewrite (stM_bind_ok _ _ _ _ _ E). pose proof (checkTimeouts_idle c1 (proj1 Hh1) (proj2 Hh1) Hc1) as Ht.
    split; intros Hn; [ztrue_in (nextIdleTimeoutTime c1 <? now) Ht|zfalse_in (nextIdleTimeoutTime c1 <? now) Ht]; by rewrite (stM_bind_ok _ _ _ _ _ Ht).
Qed.
End proofs.
