(* ===== verification/SendingProofs.v ===== *)
(** * SendingProofs: the packer in its connection

    The environment that a connection gives to the packer satisfies the laws on which
    the theorems about the packer rest: the sent packet handler, the received packet
    handler, the framer and the connection ID manager together implement
    [PackerEnvLaws]. *)

From stdpp Require Import base numbers list option strings gmap sorting.
From S2P Require Import Prelude Protocol Varint AckFrame ReceivedHistory ReceivedTracker SentHistory PNGenerator Ecn GoFloat RTTStats Congestion SentPacketHandler SentPacketProofs AckProcessing SentPacketClaims.
From S2P Require Import FlowControl Frames FrameParser FrameSplit Connection CryptoStream RetransmissionQueue SendStream Headers HeaderProofs Protection ProtectionProofs KeyUpdate KeyUpdateProofs Unpacker UnpackerProofs.
From S2P Require Import RingBuffer Framer FramerProofs ConnIDs ConnIDProofs CryptoSetup DatagramQueue Mtu Packer PackerProofs PackerClaims SendQueue Sending.
From Stdlib Require Import ZArith Lia.
#[local] Open Scope Z_scope.

(** ** Invariants of the parts *)

(** A tracker whose next ACK frame can be sent. *)
Record tracker_good (t : receivedPacketTracker) : Prop := {
  tg_inv : tracker_inv t;
  tg_ready : ack_ready t;
  tg_ecn : is_varint (ect0 t) /\ is_varint (ect1 t) /\ is_varint (ecnce t)
}.

Record received_good (h : receivedPacketHandler) : Prop := {
  rg_initial t : initialPackets h = Some t -> tracker_good t;
  rg_handshake t : handshakePackets h = Some t -> tracker_good t;
  rg_appData : tracker_good (appDataPackets h)
}.

Definition id_good (c : newConnID) : Prop := is_varint (ncSeq c) /\ blen (ncID c) <= MaxConnIDLen.

Record ids_good (m : connIDManager) : Prop := {
  ig_inv : ConnIDProofs.cm_inv m;
  ig_active : is_varint (cmActiveSequenceNumber m) /\ blen (cmActiveConnectionID m) <= MaxConnIDLen;
  ig_queue : Forall id_good (cmQueue m)
}.

Lemma ack_good t now onlyIfQueued : tracker_good t ->
  let '(t', r) := tracker_GetAckFrame t now onlyIfQueued in
  tracker_good t' /\ forall ack, r = Some ack -> ack_wf ack /\ blen (AckRanges ack) <= MaxNumAckRanges.
Proof.
  intros [Hi Hr (He0 & He1 & Hce)]. pose proof (tracker_GetAckFrame_inv t now onlyIfQueued Hi Hr) as [I R].
  destruct (tracker_GetAckFrame_cases t now onlyIfQueued) as [[Hs He]|[_ He]].
  - destruct (fillAck_spec t now (ti_hist _ Hi) (Hr (proj1 Hs))) as (F1 & F2 & F3 & _).
    assert (Hecn : forall t', t' = (tracker_GetAckFrame t now onlyIfQueued).1 -> ect0 t' = ect0 t /\ ect1 t' = ect1 t /\ ecnce t' = ecnce t).
    { intros t' ->. unfold tracker_GetAckFrame. repeat case_match; by destruct t. }
    destruct (tracker_GetAckFrame t now onlyIfQueued) as [t' r]. cbn [fst snd] in *. subst r. destruct (Hecn t' eq_refl) as (E0 & E1 & E2).
    split; [constructor; [done|done|by rewrite E0, E1, E2]|]. intros ack [= <-]. split; [by split|].
    unfold fillAck, AppendAckRanges. cbn. unfold blen. rewrite length_map. apply (proj2 (proj2 (ti_hist _ Hi))).
  - rewrite He. split; [by constructor|done].
Qed.

Lemma zeroDelay_wf ack : ack_wf ack -> ack_wf (zeroDelay ack).
Proof. intros (H1 & H2 & H3 & H4). split; [done|]. split; [done|]. by split. Qed.

Lemma ack_noDelay_good t now onlyIfQueued : tracker_good t ->
  let '(t', r) := getAckFrameNoDelay t now onlyIfQueued in
  tracker_good t' /\ forall ack, r = Some ack -> ack_wf ack /\ blen (AckRanges ack) <= MaxNumAckRanges.
Proof.
  intros Ht. pose proof (ack_good t now onlyIfQueued Ht) as Hg. unfold getAckFrameNoDelay.
  destruct (tracker_GetAckFrame t now onlyIfQueued) as [t' [ack|]]; [|done]. destruct Hg as [[Hi Hr He] Ha].
  destruct (Ha ack eq_refl) as [Hw Hl]. split.
  - destruct Hi as [I1 I2 I3 I4 I5 I6 I7 I8 I9], t'. constructor; [|done|done]. constructor; cbn in *; try done.
    + intros f [= <-]. split; apply Hw.
    + intros Ha'. destruct (I6 Ha') as (? & ? & ?). by eauto.
  - intros ? [= <-]. split; [by apply zeroDelay_wf|done].
Qed.

Lemma ack_frame_good ack : ack_wf ack -> blen (AckRanges ack) <= MaxNumAckRanges -> frame_good (FAck ack) /\ wlen (FAck ack) <= 551.
Proof.
  intros Hw Hl. split; [by split|]. destruct (ack_frame_size ack Hw Hl) as (_ & n & En & Hn & _).
  pose proof (wf_length (FAck ack) Hw) as Hlen. change (frame_Length (FAck ack)) with (AckFrame_Length ack) in Hlen. rewrite En in Hlen. injection Hlen as <-. done.
Qed.

(** The generator is not ahead of the history. *)
Definition in_sync (s : packetNumberSpace) : bool :=
  (gen_next (pns s) <=? 2 ^ 61) && (highestPacketNumber (history s) <=? 2 ^ 61) &&
  ((highestPacketNumber (history s) =? -1) || (gen_next (pns s) =? highestPacketNumber (history s) + 1)).

Lemma in_sync_spec s : gen_inv 0 (pns s) -> in_sync s = true -> pn_synced s.
Proof. unfold in_sync, pn_synced. intros Hg Hs. rewrite !andb_true_iff, orb_true_iff, !Z.leb_le, !Z.eqb_eq in Hs. naive_solver. Qed.

(** *** Connection IDs *)

Section ids.
Context (rngID : nat -> Z) (fuelID : nat) (Hrng : forall pos, is_Some (Int31n rngID fuelID PacketsPerConnectionID pos)).

Lemma cm_Get_appends m : exists evs, cmEvents (cm_Get rngID fuelID m).2 = cmEvents m ++ evs.
Proof.
  unfold cm_Get, mbind, stM_bind, get. destruct (cm_shouldUpdateConnID m); [|exists []; by rewrite app_nil_r].
  unfold cm_updateConnectionID, mbind, stM_bind, get, modify.
  set (m1 := match _ with Some t => _ | None => _ end).
  assert (Hm1 : exists evs, cmEvents m1 = cmEvents m ++ evs).
  { subst m1. cbn [cmActiveStatelessResetToken cm_highestRetired cm_event]. destruct (cmActiveStatelessResetToken m); cbn [cmEvents cm_event cm_highestRetired].
    - rewrite <- (assoc_L (++)). by eexists.
    - by eexists. }
  clearbody m1. destruct (cmQueue m1) as [|front q]; [exact Hm1|]. destruct (Int31n _ _ _ _) as [[r pos]|]; [|exact Hm1].
  cbn. destruct Hm1 as [evs ->]. rewrite <- (assoc_L (++)). by eexists.
Qed.

Lemma retireFrames_retired evs : retireFrames evs = (fun s => FRetireConnectionID (mkRetireConnectionID s)) <$> omap ev_retired evs.
Proof. induction evs as [|[s|t|t] evs IH]; cbn; [done|by rewrite <- IH|done..]. Qed.

(** [Get] returns an ID of the right length and retires IDs that it has. *)
Lemma cm_Get_good m : ids_good m ->
  exists id m', cm_Get rngID fuelID m = (Ok id, m') /\ ids_good m' /\ blen id <= MaxConnIDLen /\
    Forall frame_good (retireFrames (drop (length (cmEvents m)) (cmEvents m'))).
Proof.
  intros [Hi [Hs Hid] Hq]. pose proof (wp_cm_Get rngID fuelID Hrng m Hi) as Hw. destruct (cm_Get_appends m) as [evs Hev]. unfold wp in Hw.
  destruct (cm_Get rngID fuelID m) as [[id|e|p] m']; [|done|done]. destruct Hw as [-> [new Hc]]. cbn [snd] in Hev.
  exists (cmActiveConnectionID m'), m'. split; [done|]. rewrite Forall_forall in Hq.
  assert (Hhas : forall c, c ∈ cmQueue m' -> c ∈ cmQueue m).
  { intros c Hin. destruct (ch_queue _ _ _ _ Hc c Hin) as [|(g & ? & _)]; done. }
  assert (Hact : is_varint (cmActiveSequenceNumber m') /\ blen (cmActiveConnectionID m') <= MaxConnIDLen).
  { destruct (ch_id _ _ _ _ Hc) as [[-> ->]|[(c & Hin & <- & <-)|(g & ? & _)]]; [done|by apply Hq|done]. }
  split; [constructor; [apply Hc|done|]; apply Forall_forall; intros c Hin; by apply Hq, Hhas|]. split; [apply Hact|].
  rewrite Hev, drop_app_length, retireFrames_retired. apply Forall_fmap, Forall_forall. intros s Hin. split; [|done].
  assert (Hnew : s ∈ new).
  { pose proof (ch_retired _ _ _ _ Hc) as Hr. unfold cm_retired in Hr. rewrite Hev, omap_app in Hr. apply app_inv_head in Hr. by rewrite <- Hr. }
  destruct (proj1 (ch_has _ _ _ _ Hc s) (or_intror Hnew)) as [[-> |Hseq]|]; [exact Hs| |done].
  unfold seqs in Hseq. apply list_elem_of_fmap in Hseq as (c & -> & Hc'). by apply (Hq c).
Qed.
End ids.

(** ** The laws *)

Section laws.
Context {A G : Type} `{HA : !SendAlgorithm A} `{HG : !SendStreams G} `{HGL : !SendStreamsLaws G}.
Context (rng rngID : nat -> Z) (fuelID : nat) (now : Z).
Context (Hrng : forall pos, is_Some (Int31n rngID fuelID PacketsPerConnectionID pos)).
Implicit Types e : packEnv A G.

#[local] Existing Instance connEnv.
#[local] Instance theEnv : PackerEnv (packEnv A G) := connEnv rng rngID fuelID now.

Definition tails_ok (fs : list wireFrame) : Prop := Forall (fun f => forall rest, wf_tail f rest) fs.

Record env_good e : Prop := {
  eg_framer : fr_inv (peFramer e);
  eg_tails : tails_ok (frControlFrames (peFramer e));
  eg_ids : ids_good (peConnIDs e);
  eg_received : received_good (peReceived e);
  eg_sent : sph_inv 0 (peSent e);
  eg_gen lvl s : getPacketNumberSpace (peSent e) lvl = Some s -> gen_inv 0 (pns s)
}.

Definition conn_number (lvl : EncryptionLevel) e : option (Z * Z) :=
  match getPacketNumberSpace (peSent e) lvl with
  | Some s => if in_sync s then Some (pns_Peek (pns s), GetPacketNumberLengthForHeader (pns_Peek (pns s)) (spLargestAcked s)) else None
  | None => None
  end.

(** Popping a packet number leaves the other packet number spaces alone. *)
Lemma keeps_pop lvl l : space_of l <> space_of lvl ->
  keeps (fun h : sentPacketHandler A => getPacketNumberSpace h l) (sph_PopPacketNumber rng lvl).
Proof.
  intros Hl. assert (Hset : forall s (h : sentPacketHandler A), getPacketNumberSpace (setPacketNumberSpace lvl s h) l = getPacketNumberSpace h l).
  { intros s []. by destruct lvl, l. }
  assert (Hget : keeps (fun h : sentPacketHandler A => getPacketNumberSpace h l) (getSpace lvl)).
  { intros h. unfold getSpace, mbind, stM_bind, get. by destruct (getPacketNumberSpace h lvl). }
  apply keeps_bind; [exact Hget|intros s]. apply keeps_bind; [apply keeps_lift|intros [[sk pn] g]].
  apply keeps_bind; [apply keeps_modify; intros h; apply Hset|intros _].
  apply keeps_bind; [|intros _; apply keeps_ret]. destruct sk; [|apply keeps_ret].
  apply keeps_bind; [exact Hget|intros s']. apply keeps_bind; [apply keeps_lift|intros hist]. apply keeps_modify. intros h. apply Hset.
Qed.

Lemma wp_onPeSent {B} (m : stM (sentPacketHandler A) B) Q F e :
  wp m (fun b h => Q b (mkPackEnv h (peReceived e) (peFramer e) (peConnIDs e) (peScheduled e)))
       (fun err h => F err (mkPackEnv h (peReceived e) (peFramer e) (peConnIDs e) (peScheduled e))) (peSent e) -> wp (onPeSent m) Q F e.
Proof. unfold wp, onPeSent. by destruct (m (peSent e)) as [[] ?]. Qed.

Lemma wp_onPeFramer {B} (m : stM (framerI G) B) Q F e :
  wp m (fun b f => Q b (mkPackEnv (peSent e) (peReceived e) f (peConnIDs e) (peScheduled e)))
       (fun err f => F err (mkPackEnv (peSent e) (peReceived e) f (peConnIDs e) (peScheduled e))) (peFramer e) -> wp (onPeFramer m) Q F e.
Proof. unfold wp, onPeFramer. by destruct (m (peFramer e)) as [[] ?]. Qed.

(** A call on the framer. *)
Lemma framer_step {B} (m : stM (framerI G) B) (P : B -> Prop) e : env_good e ->
  wp m (fun b f => fr_inv f /\ tails_ok (frControlFrames f) /\ P b) (noErr _) (peFramer e) ->
  wp (onPeFramer m) (fun b e' => env_good e' /\ (forall l, conn_number l e' = conn_number l e) /\ P b) (noErr _) e.
Proof.
  intros [] Hw. apply wp_onPeFramer. eapply wp_mono; [| |exact Hw]; [|done]. intros b f (Hf & Ht & HP). split; [by constructor|by split].
Qed.

Lemma wp_queueAll fs f : fr_inv f -> tails_ok (frControlFrames f) -> Forall frame_good fs ->
  wp (queueAll fs) (fun _ f' => fr_inv f' /\ tails_ok (frControlFrames f') /\ True) (noErr _) f.
Proof.
  intros Hf Ht Hfs. revert f Hf Ht. induction Hfs as [|c fs [Hc Htl] _ IH]; intros f Hf Ht; cbn [queueAll]; [by apply wp_ret|].
  apply wp_bind. eapply wp_mono; [| |by apply wp_QueueControlFrame]; [|done]. intros [] f' (Hf' & _ & Hcs). apply IH; [done|].
  rewrite Hcs. apply Forall_app. split; [done|]. by apply Forall_singleton.
Qed.

Lemma conn_dest e : env_good e ->
  wp (pe_getDestConnID rngID fuelID) (fun id e' => env_good e' /\ (forall l, conn_number l e' = conn_number l e) /\ blen id <= MaxConnIDLen) (noErr _) e.
Proof.
  intros He. destruct (cm_Get_good rngID fuelID Hrng (peConnIDs e) (eg_ids _ He)) as (id & m & Eg & Hm & Hid & Hfs).
  unfold wp, pe_getDestConnID. rewrite Eg. set (fs := retireFrames _) in *.
  set (e1 := mkPackEnv (peSent e) (peReceived e) (peFramer e) m _).
  assert (He1 : env_good e1) by (destruct He; by constructor).
  pose proof (framer_step (queueAll fs) (fun _ => True) e1 He1 (wp_queueAll fs _ (eg_framer _ He) (eg_tails _ He) Hfs)) as Hw.
  unfold wp in Hw. unfold mbind, stM_bind. destruct (onPeFramer (queueAll fs) e1) as [[[]|err|msg] e2]; [|done|done].
  destruct Hw as (He2 & Hn & _). cbn. by split.
Qed.

Lemma conn_pop e lvl pn n : env_good e -> conn_number lvl e = Some (pn, n) ->
  wp (onPeSent (sph_PopPacketNumber rng lvl)) (fun pn' e' => pn' = pn /\ env_good e' /\
    forall l, space_of l <> space_of lvl -> conn_number l e' = conn_number l e) (noErr _) e.
Proof.
  intros He Hn. unfold conn_number in Hn. destruct (getPacketNumberSpace (peSent e) lvl) as [s|] eqn:Es; [|done].
  destruct (in_sync s) eqn:Ey; [|done]. injection Hn as <- <-. pose proof (in_sync_spec s (eg_gen _ He _ _ Es) Ey) as Hsync.
  apply wp_onPeSent. pose proof (wp_PopPacketNumber rng 0 (peSent e) lvl s (noErr _) (eg_sent _ He) Es Hsync) as Hw.
  assert (Hk : forall l, space_of l <> space_of lvl -> getPacketNumberSpace (sph_PopPacketNumber rng lvl (peSent e)).2 l = getPacketNumberSpace (peSent e) l).
  { intros l Hl. apply (keeps_pop lvl l Hl). }
  unfold wp in *. destruct (sph_PopPacketNumber rng lvl (peSent e)) as [[pn'|err|msg] h]; [|done|done]. cbn [snd] in Hk.
  destruct Hw as (Hi & _ & _ & -> & s' & Es' & _ & _ & Hg' & _). split; [done|]. split.
  - destruct He as [H1 H2 H3 H4 H5 H6]. constructor; cbn; try done. intros l sl Hl. destruct (decide (space_of l = space_of lvl)) as [El|El].
    + replace (getPacketNumberSpace h l) with (getPacketNumberSpace h lvl) in Hl by (destruct l, lvl; done). rewrite Es' in Hl. by injection Hl as <-.
    + rewrite Hk in Hl by done. by apply (H6 l).
  - intros l Hl. unfold conn_number. cbn. by rewrite Hk.
Qed.

Lemma conn_ack e lvl q : env_good e ->
  wp (pe_GetAckFrame now lvl q) (fun r e' => env_good e' /\ (forall l, conn_number l e' = conn_number l e) /\
    forall ack, r = Some ack -> frame_good (FAck ack) /\ wlen (FAck ack) <= 551) (noErr _) e.
Proof.
  intros [H1 H2 H3 Hrg H5 H6]. pose proof (rg_appData _ Hrg) as Ra. unfold wp, pe_GetAckFrame, rhandler_GetAckFrame.
  assert (Hfin : forall h r, received_good h -> (forall ack, r = Some ack -> ack_wf ack /\ blen (AckRanges ack) <= MaxNumAckRanges) ->
    env_good (mkPackEnv (peSent e) h (peFramer e) (peConnIDs e) (peScheduled e)) /\
    (forall l, conn_number l (mkPackEnv (peSent e) h (peFramer e) (peConnIDs e) (peScheduled e)) = conn_number l e) /\
    forall ack, r = Some ack -> frame_good (FAck ack) /\ wlen (FAck ack) <= 551).
  { intros h r Hh Hr. split; [by constructor|]. split; [done|]. intros ack Ha. apply ack_frame_good; by apply Hr. }
  destruct lvl.
  - destruct (initialPackets (peReceived e)) as [t|] eqn:Et; [|by apply Hfin].
    pose proof (ack_noDelay_good t now q (rg_initial _ Hrg t Et)) as Hg. destruct (getAckFrameNoDelay t now q) as [t' r].
    apply Hfin; [|apply Hg]. constructor; cbn; [by intros ? [= <-]; apply Hg|apply Hrg|done].
  - destruct (handshakePackets (peReceived e)) as [t|] eqn:Et; [|by apply Hfin].
    pose proof (ack_noDelay_good t now q (rg_handshake _ Hrg t Et)) as Hg. destruct (getAckFrameNoDelay t now q) as [t' r].
    apply Hfin; [|apply Hg]. constructor; cbn; [apply Hrg|by intros ? [= <-]; apply Hg|done].
  - by apply Hfin.
  - pose proof (ack_good _ now q Ra) as Hg. destruct (tracker_GetAckFrame _ now q) as [t' r].
    apply Hfin; [|apply Hg]. constructor; cbn; [apply Hrg|apply Hrg|apply Hg].
Qed.

Lemma wp_fr_HasData f : fr_inv f -> tails_ok (frControlFrames f) ->
  wp fr_HasData (fun _ f' => fr_inv f' /\ tails_ok (frControlFrames f') /\ True) (noErr _) f.
Proof.
  intros Hf Ht. apply wp_bind, wp_get. destruct (negb _); [by apply wp_ret|]. apply wp_bind, wp_lockControl; [done|]. by apply wp_ret.
Qed.

Lemma strip_last_good added : Forall framed added -> streams_good (strip_last added).
Proof.
  intros Hf. split; [by apply (strip_last_sendable added)|]. unfold strip_last. destruct (last added) as [fr|] eqn:El; [|by intros [|] ?].
  intros l x Hx. apply app_inj_tail in Hx as [<- _]. apply Forall_take. eapply Forall_impl; [exact Hf|]. by intros ? [].
Qed.

(** The connection provides what the packer needs. *)
#[export] Instance connEnv_laws : PackerEnvLaws (packEnv A G).
Proof.
  refine {| env_ok := env_good; env_number := conn_number; env_maxAck := 551 |}.
  - intros e lvl pn n He Hn. unfold conn_number in Hn. cbn. unfold sph_PeekPacketNumber.
    destruct (getPacketNumberSpace (peSent e) lvl) as [s|]; [|done]. destruct (in_sync s); [|done]. by injection Hn as <- <-.
  - done.
  - apply conn_dest.
  - apply conn_pop.
  - apply conn_ack.
  - intros e He. eapply wp_mono; [| |apply (framer_step fr_HasData (fun _ => True) e He), wp_fr_HasData; apply He]; [|done]. by intros b e' (? & ? & _).
  - intros e fs max He Hm. apply framer_step; [done|]. eapply wp_mono; [| |by apply wp_AppendControlFrames; [apply He|]]; [|done].
    intros r f (kept & added & Hf & _ & Ec & Ec' & -> & Hle & _). pose proof (eg_tails _ He) as Ht. pose proof (fi_control _ (eg_framer _ He)) as Hs.
    rewrite Ec in Ht, Hs. apply Forall_app in Ht as [Ht1 Ht2], Hs as [Hs1 Hs2]. split; [done|]. split; [by rewrite Ec'|].
    exists added. split; [done|]. split; [|done]. apply Forall_rev in Ht2, Hs2. rewrite rev_involutive in Ht2, Hs2.
    apply Forall_forall. intros f' Hin. rewrite Forall_forall in Ht2, Hs2. split; [by apply Hs2|by apply Ht2].
  - intros e max He Hm. apply framer_step; [done|]. eapply wp_mono; [| |apply wp_AppendStreamFrames; [apply He|lia]]; [|done].
    intros r f (added & k & more & -> & Hle & Hr). split; [apply Hr|]. split; [rewrite (ro_control _ _ _ _ _ _ _ _ _ Hr); apply He|].
    cbn [fst snd app]. split; [done|]. split; [apply strip_last_good, Hr|]. apply Hle. lia.
Defined.
End laws.
