(* ===== verification/SendingClaims.v ===== *)
(** * SendingClaims: the ECN marking of packets that are sent in batches *)

From stdpp Require Import base numbers list option strings gmap sorting.
From S2P Require Import Prelude Protocol Varint AckFrame ReceivedHistory ReceivedTracker SentHistory PNGenerator Ecn GoFloat RTTStats Congestion SentPacketHandler.
From S2P Require Import FlowControl Frames FrameParser FrameSplit Connection CryptoStream RetransmissionQueue SendStream Headers Protection KeyUpdate KeyUpdateClaims Unpacker UnpackerProofs.
From S2P Require Import RingBuffer Framer ConnIDs TransportParams CryptoSetup DatagramQueue Mtu Packer PackerClaims SendQueue Sending.
From Stdlib Require Import ZArith Lia.
#[local] Open Scope Z_scope.

(** ** A run *)

(** A stream that always fills the packet. *)
#[local] Instance fullStream : SendStreams unit := {
  popFrom id maxBytes :=
    n ← lift (stream_MaxDataLen (mkStream id 0 [] false true) maxBytes);
    mret (Some (Some (mkStream id 0 (replicate (Z.to_nat n) 1) false true), true))
}.
#[local] Instance unblocked : FlowOps unit := {
  connNewlyBlocked := mret None;
  connWindowUpdate := mret 0;
  streamWindowUpdate _ := mret None
}.

Definition gso_packer : packetPacker bytes unit unit :=
  mkPacker [5; 5; 5] PerspectiveServer toy_setup newCryptoStream newCryptoStream [] tt (Some newDatagramQueue) newRetransmissionQueue 0 0.

(** Eight packets of the ten with which ECN is tested have been sent. *)
Definition gso_ecn : ecnTracker := mkECN ecnStateTesting 8 0 0 InvalidPacketNumber InvalidPacketNumber 8 0 0 0 0.

Definition gso_sent : sentPacketHandler (cubicSender unit) :=
  mkSPH None None ex_space0 true 1200 0 true true 0 0
    (NewCubicSender NewRTTStats 1252 true) NewRTTStats 0 SendNone 0 0 (Some gso_ecn) PerspectiveServer [].

Definition gso_conn : connection (cubicSender unit) (sendState bytes unit unit) :=
  mkConn PerspectiveServer true true [1; 2] true true 0 0 false gso_sent newReceivedPacketHandler (NewFrameParser false)
    (mkSendState gso_packer (AddActiveStream 4 (newFramer tt)).2 (newConnIDManager [1; 2] 0) (newMTUDiscoverer 1252) newSendQueue newCryptoStream
       newWindowUpdateQueue 0 true false false []).

Definition gso_run (gso : bool) :=
  let run := if gso then sendPacketsWithGSO else sendPacketsWithoutGSO in
  let '(r, c) := run (fun _ => 0) (fun _ => 0) 10%nat 7 noShuffle (fun _ => 0) (fun _ => 0) (fun _ => 0) 30%nat gso_conn in
  (r, (fun e => (blen (enBuf e), enECN e)) <$> sqQueue (xSendQueue (cRest c)), (ECNMode true (cSent c)).1).

(** ** A defect *)

(** Packets after the last one of the ten test packets are sent without a marking until
    the test is over.  With batches, the marking is read once, before the first packet:
    the test packets fill the first batch, and what follows is sent with their marking,
    and, as the next packet never has the marking of the batch, in batches of one packet. *)
Example gso_stale_marking :
  gso_run false = (Ok tt, replicate 2 (1252, ECT0) ++ replicate 6 (1252, ECNNon), Ok ECNNon) /\
  gso_run true = (Ok tt, (2504, ECT0) :: replicate 7 (1252, ECT0), Ok ECNNon).
Proof. split; vm_compute; reflexivity. Qed.
