(* ===== verification/InstantAck.v ===== *)
(** * InstantAck: the instant ACK on the wire

    The receive path, the packet packer and the sending path together: when a server
    with [EnableInstantACK] receives the first packet of a connection, a datagram with
    the acknowledgement of that packet, and nothing else, is handed to the send queue
    before the frames of the packet are looked at, and the client understands it. *)

From stdpp Require Import base numbers list option strings gmap sorting.
From S2P Require Import Prelude Protocol Varint AckFrame ReceivedHistory ReceivedTracker SentHistory PNGenerator Ecn GoFloat RTTStats Congestion SentPacketHandler SentPacketProofs AckProcessing SentPacketClaims.
From S2P Require Import FlowControl Frames FrameParser FrameSplit Connection CryptoStream RetransmissionQueue SendStream Headers HeaderProofs Protection ProtectionProofs KeyUpdate KeyUpdateProofs KeyUpdateClaims Unpacker UnpackerProofs.
From S2P Require Import RingBuffer Framer FramerProofs ConnIDs ConnIDProofs TransportParams CryptoSetup DatagramQueue Mtu Packer PackerProofs PackerClaims SendQueue Sending SendingProofs.
From Stdlib Require Import ZArith Lia.
#[local] Open Scope Z_scope.

(** ** Packing an acknowledgement *)

Section pack.
Context {C T E : Type} `{HC : !Crypto C} `{HCL : !CryptoLaws C} `{HE : !PackerEnv E} `{HEL : !PackerEnvLaws E}.
Context (shuffle : nat -> list packFrame -> list packFrame) (Hshuffle : forall n l, Permutation (shuffle n l) l).
Implicit Types p : packetPacker C T E.

(** A server that has only Initial keys, and nothing to send but an ACK frame. *)
Record ack_only (ack : AckFrame) (e1 : E) (max v : Z) p : Prop := {
  ao_ok : pk_ok p;
  ao_version : version_ok v;
  ao_pers : ppPerspective p = PerspectiveServer;
  ao_token : ppToken p = [];
  ao_sealer : avail EncryptionInitial (ppCryptoSetup p) = true;
  ao_handshake : suHandshakeSealer (ppCryptoSetup p) = None;
  ao_1rtt : suHas1RTTSealer (ppCryptoSetup p) = false;
  ao_retrans : HasInitialData (ppRetransmissionQueue p) = false;
  ao_data : cs_HasData (ppInitialStream p) = false;
  ao_number : numbered EncryptionInitial (ppEnv p);
  ao_ack : GetAckFrame EncryptionInitial true (ppEnv p) = (Ok (Some ack), e1);
  ao_room : 88 + env_maxAck <= max <= MaxPacketBufferSize
}.

Definition ackPayload (ack : AckFrame) : payload := mkPayload [] [] (Some ack) (wlen (FAck ack)).

Lemma getLongHeader_eq lvl v p : pk_ok p -> numbered lvl (ppEnv p) ->
  exists id e h, getDestConnID (ppEnv p) = (Ok id, e) /\ getLongHeader lvl v p = (Ok h, pp_env e p) /\
    header_for lvl v p h /\ hDestConnectionID (ehHeader h) = id /\ pk_ok (pp_env e p) /\ kept p (pp_env e p).
Proof.
  intros Hp Hn. pose proof (wp_getLongHeader lvl v p Hp Hn) as Hw. destruct Hn as (pn & n & Hnum & _).
  unfold getLongHeader, wp, mbind, stM_bind, get, lift, onEnv in Hw |- *. rewrite (env_peek _ _ _ _ (pk_env _ Hp) Hnum) in Hw |- *.
  destruct (getDestConnID (ppEnv p)) as [[id|err|m] e]; [|done|done]. cbn in Hw. destruct Hw as (Hp' & Hk & _ & Hh).
  eexists id, e, _. split; [done|]. split; [done|]. split; [exact Hh|]. split; [done|]. by split.
Qed.

(** The packet for the Initial level. *)
Lemma ack_part ack e1 max v p : ack_only ack e1 max v p ->
  exists id e2 h n, getDestConnID e1 = (Ok id, e2) /\
    getCryptoPart EncryptionInitial [ErrKeysDropped] max false true v p = (Ok (Some h, ackPayload ack, n + wlen (FAck ack) + 16), pp_env e2 p) /\
    header_for EncryptionInitial v (pp_env e2 p) h /\ hDestConnectionID (ehHeader h) = id /\ GetLength h = Ok n /\ n <= 61 /\
    frame_good (FAck ack) /\ 3 <= wlen (FAck ack) <= env_maxAck /\ pk_ok (pp_env e2 p) /\ kept p (pp_env e2 p).
Proof.
  intros [Hp Hv Hpers Htok Ha Hhs H1 Hr Hd Hn Hack Hroom]. pose proof (wp_GetAckFrame EncryptionInitial true p Hp) as Hw.
  unfold wp, onEnv in Hw. rewrite Hack in Hw. destruct Hw as (Hp1 & Hk1 & _ & Hgood). destruct (Hgood ack eq_refl) as [Hg Hmax].
  destruct (getLongHeader_eq EncryptionInitial v (pp_env e1 p) Hp1 (kept_numbered _ _ _ Hk1 Hn)) as (id & e2 & h & Hdest & Eh & Hh & Hid & Hp2 & Hk2).
  pose proof (kept_trans _ _ _ Hk1 Hk2) as Hk. change (pp_env e2 (pp_env e1 p)) with (pp_env e2 p) in *.
  assert (Hh2 : header_for EncryptionInitial v (pp_env e2 p) h) by (eapply (header_steady (fun _ => True)); [apply kept_steady, Hk2|done|exact Hh]).
  destruct (header_length EncryptionInitial v (pp_env e1 p) h PacketTypeInitial Hp1 Hv ltac:(by cbn; rewrite Htok; vm_compute) Hh eq_refl) as (n & En & Hn').
  cbn [ppToken pp_env] in Hn'. rewrite Htok in Hn'. change (blen []) with 0 in Hn'. case_decide; [|done].
  pose proof (ack_min ack (proj1 Hg)) as H3.
  exists id, e2, h, n. split; [exact Hdest|]. split; [|split_and!; try done; lia].
  destruct (avail_sealer EncryptionInitial (ppCryptoSetup p) PacketTypeInitial eq_refl Ha) as [s Es].
  assert (Ho : seal_Overhead s = 16) by apply aead_overhead.
  unfold getCryptoPart, maybeGetCryptoPacket, mbind, stM_bind, get, lift. cbn [unlessKeys]. rewrite Es. cbn [unlessKeys].
  rewrite bool_decide_eq_true_2 by done. rewrite Hr, Hd. cbn [negb andb orb]. unfold onEnv. rewrite Hack.
  rewrite bool_decide_eq_false_2 by done. rewrite (wf_length (FAck ack) (proj1 Hg)).
  unfold mbind, stM_bind in Eh. rewrite Eh, En. cbn [mret stM_ret].
  unfold longSize. cbn [plLength]. rewrite Ho. ztrue (0 <? wlen (FAck ack)). unfold nilDeref, longHeaderPacketLength. cbn. rewrite En. cbn.
  unfold tinyPadding. pose proof (hf_pnLen _ _ _ _ Hh). zfalse (wlen (FAck ack) <? 4 - ehPacketNumberLen h). by rewrite Z.add_0_r.
Qed.

Lemma no_handshake_part room onlyAck ackAllowed v p : suHandshakeSealer (ppCryptoSetup p) = None ->
  getCryptoPart EncryptionHandshake noKeys room onlyAck ackAllowed v p = (Ok (None, noPayload, 0), p).
Proof.
  intros Hs. unfold getCryptoPart, mbind, stM_bind, get, lift. cbn [longSealerAt]. unfold GetHandshakeSealer, keyOr. rewrite Hs.
  unfold unlessKeys. rewrite decide_True by (unfold noKeys; destruct (suInitialSealer _); set_solver). done.
Qed.

Lemma no_app_part room onlyAck ackAllowed v p : suHas1RTTSealer (ppCryptoSetup p) = false -> ppPerspective p = PerspectiveServer ->
  getAppPart room onlyAck ackAllowed v p = (Ok NoAppPacket, p).
Proof.
  intros Hs Hp. unfold getAppPart, mbind, stM_bind, get, lift. unfold Get1RTTSealer. rewrite Hs. cbn [negb].
  unfold unlessKeys. rewrite decide_True by (unfold noKeys; set_solver). by rewrite Hp, bool_decide_eq_false_2.
Qed.

(** The server packs the ACK frame into a small Initial packet, without padding. *)
Lemma pack_ack ack e1 max v p : ack_only ack e1 max v p ->
  exists id e2 h lp raw p', getDestConnID e1 = (Ok id, e2) /\
    PackCoalescedPacket shuffle false max v p = (Ok (Some (mkCoalesced (mkBuffer raw MaxPacketBufferSize) [lp] None)), p') /\
    pk_ok (pp_env e2 p) /\ pk_ok p' /\ hDestConnectionID (ehHeader h) = id /\ header_for EncryptionInitial v (pp_env e2 p) h /\
    long_sealed EncryptionInitial v PacketTypeInitial h (ackPayload ack) 0 lp raw (pp_env e2 p) p' /\
    frame_good (FAck ack) /\ 3 <= wlen (FAck ack) <= env_maxAck /\ blen raw <= 77 + wlen (FAck ack).
Proof.
  intros Ho. destruct (ack_part ack e1 max v p Ho) as (id & e2 & h & n & Hdest & Epart & Hh & Hid & Hg & Hn & Hgood & Hlen & Hp2 & Hk2).
  destruct Ho as [Hp Hv Hpers Htok Ha Hhs H1 Hr Hd Hnum Hack Hroom]. exists id, e2, h. unfold MaxPacketBufferSize in Hroom.
  set (p2 := pp_env e2 p) in *. set (b := mkBuffer [] MaxPacketBufferSize).
  destruct (tiny_range (ehPacketNumberLen h) (wlen (FAck ack)) (hf_pnLen _ _ _ _ Hh) ltac:(lia)) as (T1 & T2 & T3).
  assert (Ht : tinyPadding (ehPacketNumberLen h) (wlen (FAck ack)) = 0).
  { unfold tinyPadding. pose proof (hf_pnLen _ _ _ _ Hh). by zfalse (wlen (FAck ack) <? 4 - ehPacketNumberLen h). }
  assert (Hw : wp (appendLongHeaderPacket shuffle b h (ackPayload ack) 0 EncryptionInitial v) (fun r p' =>
    appended EncryptionInitial b r.2 (n + wlen (FAck ack) + 0 + 0 + 16) p2 p' /\
    exists raw, bufData r.2 = [] ++ raw /\ long_sealed EncryptionInitial v PacketTypeInitial h (ackPayload ack) 0 r.1 raw p2 p') (noErr _) p2).
  { eapply wp_mono; [| |apply (wp_appendLongHeaderPacket shuffle Hshuffle EncryptionInitial v p2 h n (ackPayload ack) 0 b PacketTypeInitial)]; try done.
    - intros r p' (Hap & _ & _ & _ & Hraw). cbn [plLength ackPayload] in Hap. rewrite Ht in Hap. done.
    - change (ppToken p2) with (ppToken p). rewrite Htok. by vm_compute.
    - by apply ackPayload_ok.
    - cbn [plLength ackPayload bufData b bufCap]. rewrite Ht, blen_nil. unfold MaxPacketBufferSize. lia. }
  unfold wp in Hw. destruct (appendLongHeaderPacket _ _ _ _ _ _ _ p2) as [[[lp buf]|err|m] p'] eqn:Eapp; [|done|done].
  destruct Hw as [(Hp' & _ & Hcap & raw' & Eraw' & Hblen) (raw & Eraw & Hsealed)]. cbn [fst snd app] in *.
  assert (raw' = raw) as -> by (rewrite Eraw in Eraw'; exact (eq_sym Eraw')). exists lp, raw, p'. split; [done|]. split; [|by split_and!; try done; lia].
  unfold PackCoalescedPacket. cbv zeta. rewrite (stM_bind_ok _ _ _ _ _ Epart). cbn [negb andb orb].
  set (size := n + wlen (FAck ack) + 16). fold p2.
  rewrite (stM_bind_ok _ _ p2 p2 (None, noPayload, 0)) by (destruct (size <? _); [by apply no_handshake_part|done]).
  rewrite (stM_bind_ok _ _ p2 p2 NoAppPacket) by (destruct (size + 0 <? _); [by apply no_app_part|done]).
  rewrite (stM_bind_ok _ _ p2 p2 0) by done. cbn [plLength ackPayload]. zfalse (wlen (FAck ack) =? 0). cbn [andb].
  rewrite (stM_bind_ok get _ p2 p2 p2) by done.
  assert (Epad : initialPaddingLen (plFrames (ackPayload ack)) (size + 0 + 0) max p2 = 0).
  { unfold initialPaddingLen. change (ppPerspective p2) with (ppPerspective p). by rewrite Hpers, bool_decide_eq_true_2. }
  rewrite Epad. rewrite (stM_bind_ok _ _ p2 p' (mkCoalesced buf [lp] None)).
  2:{ unfold appendCryptoPart. cbn [plLength ackPayload]. ztrue (0 <? wlen (FAck ack)). unfold lift, nilDeref, mbind, stM_bind. cbn [from_option cpBuffer].
      change getPacketBuffer with b. fold (ackPayload ack). by rewrite Eapp. }
  rewrite (stM_bind_ok _ _ p' p' (mkCoalesced buf [lp] None)) by done. rewrite (stM_bind_ok _ _ p' p' (mkCoalesced buf [lp] None)) by done.
  destruct buf as [d cap]. cbn in Eraw, Hcap. by subst.
Qed.
End pack.

(** ** What the client reads *)

Section client.
Context {C T E : Type} `{HC : !Crypto C} `{HCL : !CryptoLaws C} `{HE : !PackerEnv E} `{HEL : !PackerEnvLaws E}.
Implicit Types p : packetPacker C T E.

Lemma ack_payload_bytes ack : contents (Some ack) 0 [] [] = Connection.payload [(0%nat, FAck ack)].
Proof. unfold contents, Connection.payload. cbn. by rewrite !app_nil_r. Qed.

(** A sealed packet with nothing but an ACK frame is opened by the peer. *)
Lemma ack_understood v h ack lp raw p p' s (os : openers C) o :
  long_sealed EncryptionInitial v PacketTypeInitial h (ackPayload ack) 0 lp raw p p' -> header_for EncryptionInitial v p h -> ppToken p = [] ->
  frame_good (FAck ack) -> 3 <= wlen (FAck ack) ->
  longSealerAt EncryptionInitial (ppCryptoSetup p) = Ok s -> getOpener EncryptionInitial os = Ok o -> keys_match s o ->
  0 <= loHighestRcvdPN o < 2 ^ 61 -> Z.abs (ehPacketNumber h - (loHighestRcvdPN o + 1)) < 2 ^ (8 * ehPacketNumberLen h - 1) ->
  exists h' o', ParsePacket raw = Ok (ParsedPacket h' raw []) /\
    UnpackLongHeader h' raw os =
      (Ok (mkUnpacked (ehPacketNumber h) (ppSrcConnID p) (hDestConnectionID (ehHeader h)) EncryptionInitial (Connection.payload [(0%nat, FAck ack)])),
       setOpener EncryptionInitial o' os).
Proof.
  intros [_ (frames & hdr & s0 & s' & Hperm & Elp & Es & Hls & Happ & Henc)] Hh Htok Hg H3 Es' Ho Hk Hhi Hwin.
  rewrite Es in Es'. injection Es' as ->. cbn [plFrames ackPayload] in Hperm. apply Permutation_nil_r in Hperm as ->.
  cbn [plAck plStreamFrames plLength ackPayload] in Henc, Elp. pose proof (hf_pnLen _ _ _ _ Hh) as Hn.
  assert (Ht : tinyPadding (ehPacketNumberLen h) (wlen (FAck ack)) = 0) by (unfold tinyPadding; by zfalse (wlen (FAck ack) <? 4 - ehPacketNumberLen h)).
  rewrite Ht in Henc, Elp. change (0 + 0) with 0 in Henc, Elp. rewrite ack_payload_bytes in Henc.
  set (fs := [(0%nat, FAck ack)]) in *.
  assert (Hpl : blen (Connection.payload fs) = wlen (FAck ack)) by (unfold Connection.payload, fs; cbn; by rewrite app_nil_r).
  set (e := lpHeader lp) in *. assert (Ee : e = setLength (ehPacketNumberLen h + 16 + wlen (FAck ack) + 0) h) by (unfold e; by rewrite Elp).
  destruct (long_packet_opens e v PacketTypeInitial EncryptionInitial (Connection.payload fs) [] s os o) as (hdr' & packet & s2 & h' & o' & A1 & A2 & A3 & A4 & _).
  - done.
  - rewrite Ee, Hpl. cbn. lia.
  - rewrite Ee. cbn. rewrite (hf_token _ _ _ _ Hh). case_decide; [|done]. rewrite Htok. done.
  - rewrite Hpl. lia.
  - rewrite Ee, Hpl. cbn. lia.
  - done.
  - done.
  - done.
  - done.
  - rewrite Ee. cbn. apply Hh.
  - rewrite Ee. cbn. done.
  - rewrite A1 in Happ. injection Happ as ->. rewrite Ee in A2. cbn [ehPacketNumber setLength ehPacketNumberLen] in A2. rewrite Henc in A2.
    injection A2 as -> ->. rewrite app_nil_r in A3. exists h', o'. split; [done|]. rewrite A4, Ee. cbn. by rewrite (hf_src _ _ _ _ Hh).
Qed.
End client.

(** ** The acknowledgement *)

(** The counts of ECN markings after the first packet. *)
Lemma first_ecn pn ecn rcvTime t : 0 <= pn -> tracker_ReceivedPacket newReceivedPacketTracker pn ecn rcvTime true = (Ok tt, t) ->
  0 <= ect0 t <= 1 /\ 0 <= ect1 t <= 1 /\ 0 <= ecnce t <= 1.
Proof.
  intros Hp. unfold tracker_ReceivedPacket, history_ReceivedPacket.
  cbn [packetHistory newReceivedPacketTracker deletedBelow newReceivedPacketHistory]. zfalse (pn <? 0).
  cbn. ztrue (0 <=? pn). intros [= <-]. destruct ecn; by vm_compute.
Qed.

Lemma first_tracker_good pn ecn rcvTime t : 0 <= pn <= maxPN -> 0 < rcvTime ->
  tracker_ReceivedPacket newReceivedPacketTracker pn ecn rcvTime true = (Ok tt, t) -> tracker_good t.
Proof.
  intros Hp Hr Et. destruct newReceivedPacketTracker_inv as [Hi Ha].
  pose proof (tracker_ReceivedPacket_spec newReceivedPacketTracker pn ecn rcvTime true Hi Hp Hr) as Hs. rewrite Et in Hs.
  destruct Hs as (Hi' & Ha' & _). destruct (first_ecn pn ecn rcvTime t ltac:(lia) Et) as (? & ? & ?).
  constructor; [done|by apply Ha'|]. unfold is_varint, maxVarInt8. cbn. lia.
Qed.

(** The frame that acknowledges one packet takes at most 15 bytes. *)
Definition oneAck (pn e0 e1 ce : Z) : AckFrame := mkAckFrame [mkAckRange pn pn] 0 e0 e1 ce.

Lemma oneAck_length pn e0 e1 ce : 0 <= pn <= maxPN -> 0 <= e0 <= 1 -> 0 <= e1 <= 1 -> 0 <= ce <= 1 ->
  exists n, AckFrame_Length (oneAck pn e0 e1 ce) = Ok n /\ n <= 15.
Proof.
  intros Hp H0 H1 H2. unfold maxPN, maxVarInt8 in Hp. unfold AckFrame_Length, numEncodableAckRanges, oneAck. cbn [AckRanges lookup list_lookup Largest Smallest LargestAcked mbind res_bind].
  rewrite (u64_small pn) by int_range. rewrite Z.sub_diag. assert (Hl : varint_Len pn = Ok (vlen pn)) by (apply varint_Len_vlen; unfold maxVarInt8; lia).
  cbn. rewrite Hl. cbn. pose proof (vlen_range pn). pose proof (vlen_small e0). pose proof (vlen_small e1). pose proof (vlen_small ce).
  unfold maxVarInt1 in *. unfold AckFrame_hasECN. destruct (_ || _).
  - rewrite !varint_Len_vlen by (unfold maxVarInt8; cbn; lia). cbn. eexists. split; [reflexivity|]. lia.
  - eexists. split; [reflexivity|]. lia.
Qed.

(** ** Sending it *)

Section conn.
Context {A C T G : Type} `{HA : !SendAlgorithm A} `{HC : !Crypto C} `{HCL : !CryptoLaws C}.
Context `{HG : !SendStreams G} `{HGL : !SendStreamsLaws G} `{HF : !FlowOps G} `{HL : !LevelOps (sendState C T G)}.
Context (rng rngID : nat -> Z) (fuelID : nat) (now v : Z) (gso : bool).
Context (Hrng : forall pos, is_Some (Int31n rngID fuelID PacketsPerConnectionID pos)).
Context (shuffle : nat -> list packFrame -> list packFrame) (Hshuffle : forall n l, Permutation (shuffle n l) l).
Context (order : gset Z -> list Z).
Context (frameId : wireFrame -> Z) (handlerId : frameHandler -> Z) (streamHandlerId : Z -> Z).
Context (onLost : list frame_event -> sendState C T G -> sendState C T G).
Abbreviation connT := (connection A (sendState C T G)).
Implicit Types c : connection A (sendState C T G).

#[local] Instance connEnv' : PackerEnv (packEnv A G) := connEnv rng rngID fuelID now.
#[local] Instance connLaws' : PackerEnvLaws (packEnv A G) := connEnv_laws rng rngID fuelID now Hrng.

(** No frames are due that the framer does not have yet. *)
Record quiet c : Prop := {
  qu_blocked : connNewlyBlocked (frStreams (xFramer (cRest c))) = (Ok None, frStreams (xFramer (cRest c)));
  qu_conn : wuQueuedConn (xWindowUpdates (cRest c)) = false;
  qu_streams : order (wuQueue (xWindowUpdates (cRest c))) = [];
  qu_oneRTT : cs_HasData (xOneRTTStream (cRest c)) = false
}.

Definition noUpdates c : connT := c_rest (x_windowUpdates newWindowUpdateQueue (cRest c)) c.

Lemma quiet_queueDueFrames c : quiet c -> queueDueFrames order c = (Ok tt, noUpdates c).
Proof.
  intros [Hb Hc Hs Ho]. unfold queueDueFrames. rewrite (stM_bind_ok _ _ c c None).
  2:{ unfold onFlow, onFramer, onStreams. rewrite Hb. by destruct c as [????????????[?[]]]. }
  rewrite (stM_bind_ok _ _ c c tt) by done. rewrite (stM_bind_ok _ _ c (noUpdates c) tt).
  2:{ unfold QueueAll, mbind, stM_bind, get. rewrite Hc, Hs. done. }
  unfold mbind, stM_bind, get. change (xOneRTTStream (cRest (noUpdates c))) with (xOneRTTStream (cRest c)). by rewrite Ho.
Qed.

(** A packet with only an ACK frame is registered with the sent packet handler. *)
Lemma register_ack c s h n ack (raw : bytes) ecn :
  let lp := mkLongHeaderPacket (setLength n h) (Some ack) [] [] (blen raw) in
  sph_inv 0 (cSent c) -> getPacketNumberSpace (cSent c) EncryptionInitial = Some s -> next_pn (history s) (ehPacketNumber h) ->
  0 <= now -> bytesInFlight (cSent c) + blen raw < 2 ^ 62 -> hType (ehHeader h) = Some PacketTypeInitial ->
  AckRanges ack <> [] -> cPerspective c = PerspectiveServer ->
  exists sent, registerLong now frameId handlerId streamHandlerId [lp] ecn c = (Ok tt, c_sent sent c) /\
    bytesInFlight sent = bytesInFlight (cSent c) /\ sph_inv 0 sent.
Proof.
  intros lp Hi Hs Hn Hnow Hb Hty Ha Hp. destruct (LargestAcked_ok ack Ha) as [la Hla]. cbn [registerLong].
  rewrite (stM_bind_ok _ _ c c tt) by (unfold noteAckEliciting, modify; by rewrite andb_false_r).
  rewrite (stM_bind_ok _ _ c c la) by (cbn; by rewrite Hla).
  rewrite (stM_bind_ok _ _ c c EncryptionInitial) by (unfold lp_EncryptionLevel, lp, lift; cbn; by rewrite Hty).
  pose proof (wp_SentPacket (cSent c) now (ehPacketNumber h) la [] [] EncryptionInitial ecn (blen raw) false now s (noErr _) Hi Hs Hn Hnow
    ltac:(unfold blen; lia) Hb ltac:(by intros e _ [=])) as Hw. unfold wp in Hw.
  change (sentStreamFrames frameId streamHandlerId (lpStreamFrames lp)) with (@nil Frame).
  change (sentFrames frameId handlerId (lpFrames lp)) with (@nil Frame).
  destruct (SentPacket now (ehPacketNumber h) la [] [] EncryptionInitial ecn (blen raw) false now (cSent c)) as [[[]|e|m] sent] eqn:Esent; [|done|done].
  destruct Hw as (Hi' & Hfl & _). exists sent. split; [|split; [change (is_ack_eliciting [] []) with false in Hfl; by rewrite Z.add_0_r in Hfl|done]].
  rewrite (stM_bind_ok _ _ c (c_sent sent c) tt) by (unfold onSent; cbn [ehPacketNumber lpHeader lp setLength lpLength]; by rewrite Esent).
  rewrite (stM_bind_ok get _ _ (c_sent sent c) (c_sent sent c)) by done. change (cPerspective (c_sent sent c)) with (cPerspective c). by rewrite Hp.
Qed.

Lemma after_sending c :
  exists t, (more ← maySendMore now; if more : bool then setPacing deadlineSendImmediately else mret tt) c =
    (Ok tt, c_rest (x_pacing t (cRest c)) c).
Proof.
  assert (Heta : c = c_rest (x_pacing (xPacingDeadline (cRest c)) (cRest c)) c) by by destruct c as [????????????[]].
  unfold maySendMore, mbind, stM_bind, get. destruct (sph_SendMode (cSent c) now); try (eexists; rewrite <- Heta; reflexivity).
  - by eexists.
  - by eexists.
Qed.

Lemma onSent_same {B} (m : stM (sentPacketHandler A) B) c r : m (cSent c) = (r, cSent c) -> onSent m c = (r, c).
Proof. intros E. unfold onSent. rewrite E. by destruct c. Qed.

Lemma ECNMode_long (h : sentPacketHandler A) : exists ecn, ECNMode false h = (Ok ecn, h).
Proof. unfold ECNMode, mbind, stM_bind, get. destruct (sh_ecn h); by eexists. Qed.

Lemma send_entry c buf gsoSize ecn : blen (sqQueue (xSendQueue (cRest c))) < sendQueueCapacity ->
  exists q, Send buf gsoSize ecn c = (Ok tt, c_rest (x_sendQueue q (cRest c)) c) /\
    sqQueue q = sqQueue (xSendQueue (cRest c)) ++ [mkEntry (bufData buf) gsoSize ecn].
Proof.
  intros Hq. unfold Send, sq_Send, mbind, stM_bind, get. ztrue (blen (sqQueue (xSendQueue (cRest c))) <? sendQueueCapacity).
  eexists. split; [reflexivity|done].
Qed.

(** A datagram with such a packet is handed to the send queue. *)
Lemma send_ack c s h n ack (raw : bytes) ecn :
  let lp := mkLongHeaderPacket (setLength n h) (Some ack) [] [] (blen raw) in
  sph_inv 0 (cSent c) -> getPacketNumberSpace (cSent c) EncryptionInitial = Some s -> next_pn (history s) (ehPacketNumber h) ->
  0 <= now -> bytesInFlight (cSent c) + blen raw < 2 ^ 62 -> hType (ehHeader h) = Some PacketTypeInitial ->
  AckRanges ack <> [] -> cPerspective c = PerspectiveServer -> blen (sqQueue (xSendQueue (cRest c))) < sendQueueCapacity ->
  exists c', sendPackedCoalescedPacket now frameId handlerId streamHandlerId (mkCoalesced (mkBuffer raw MaxPacketBufferSize) [lp] None) ecn c = (Ok tt, c') /\
    bytesInFlight (cSent c') = bytesInFlight (cSent c) /\
    sqQueue (xSendQueue (cRest c')) = sqQueue (xSendQueue (cRest c)) ++ [mkEntry raw 0 ecn].
Proof.
  intros lp Hi Hs Hn Hnow Hb Hty Ha Hp Hq. destruct (register_ack c s h n ack raw ecn Hi Hs Hn Hnow Hb Hty Ha Hp) as (sent & Ereg & Hb' & _).
  set (c1 := c_sent sent c). set (c2 := c_rest (x_packer (xPacker (cRest c1)) (xFramer (cRest c1)) (cm_SentPacket (xConnIDs (cRest c1))) (cRest c1)) c1).
  destruct (send_entry c2 (mkBuffer raw MaxPacketBufferSize) 0 ecn Hq) as (q & Esend & Hqueue).
  exists (c_rest (x_sendQueue q (cRest c2)) c2). split; [|split; [exact Hb'|exact Hqueue]]. unfold sendPackedCoalescedPacket. cbn [cpLongHdrPackets cpShortHdrPacket cpBuffer]. fold lp in Ereg.
  rewrite (stM_bind_ok _ _ _ _ _ Ereg), (stM_bind_ok _ _ _ c1 tt) by done. by rewrite (stM_bind_ok _ _ c1 c2 tt).
Qed.

(** A server that may send, and has nothing but an acknowledgement to send. *)
Record ack_alone (ack : AckFrame) e1 c : Prop := {
  ad_pers : cPerspective c = PerspectiveServer;
  ad_unconfirmed : cHandshakeConfirmed c = false;
  ad_mode : sph_SendMode (cSent c) now = SendAny;
  ad_flight : bytesInFlight (cSent c) + 2000 < 2 ^ 62;
  ad_quiet : quiet c;
  ad_queue : blen (sqQueue (xSendQueue (cRest c))) < sendQueueCapacity;
  ad_only : ack_only ack e1 (CurrentSize (xMtu (cRest c))) v (packerOf c);
  ad_keeps : peSent e1 = cSent c;
  ad_ranges : AckRanges ack <> []
}.

(** The sent packet handler can register the packet whose number it has given out. *)
Lemma popped_sent (e e' : packEnv A G) pn n : env_good e -> conn_number EncryptionInitial e = Some (pn, n) ->
  PopPacketNumber EncryptionInitial e = (Ok pn, e') ->
  exists s, sph_inv 0 (peSent e') /\ bytesInFlight (peSent e') = bytesInFlight (peSent e) /\
    getPacketNumberSpace (peSent e') EncryptionInitial = Some s /\ next_pn (history s) pn.
Proof.
  intros He Hn Hpop. unfold conn_number in Hn. destruct (getPacketNumberSpace (peSent e) EncryptionInitial) as [s|] eqn:Es; [|done].
  destruct (in_sync s) eqn:Ey; [|done]. injection Hn as <- <-.
  pose proof (wp_PopPacketNumber rng 0 (peSent e) EncryptionInitial s (noErr _) (eg_sent _ He) Es (in_sync_spec s (eg_gen _ He _ _ Es) Ey)) as Hw.
  cbn in Hpop. unfold onPeSent in Hpop. unfold wp in Hw. destruct (sph_PopPacketNumber rng EncryptionInitial (peSent e)) as [[pn'|err|m] h]; [|done|done].
  injection Hpop as -> <-. destruct Hw as (Hi & _ & Hb & _ & s' & Es' & Hnext & _). exists s'. cbn. do 3 (split; [done|]). exact Hnext.
Qed.

Lemma conn_number_sent lvl (e e' : packEnv A G) : peSent e' = peSent e -> conn_number lvl e' = conn_number lvl e.
Proof. intros E. unfold conn_number. by rewrite E. Qed.

(** The number is taken from the state in which the header was made. *)
Lemma dest_keeps_sent (e : packEnv A G) : peSent (getDestConnID e).2 = peSent e.
Proof.
  cbn. unfold pe_getDestConnID. destruct (cm_Get _ _ _) as [r m]. unfold mbind, stM_bind, onPeFramer.
  destruct (queueAll _ _) as [[?|?|?] ?]; [|done..]. by destruct r.
Qed.

Lemma triggerSending_any fuel rounds mtuHandler c : sph_SendMode (cSent c) now = SendAny ->
  triggerSending rng rngID fuelID now v gso shuffle order frameId handlerId streamHandlerId onLost fuel rounds mtuHandler c =
  sendPackets rng rngID fuelID now v gso shuffle order frameId handlerId streamHandlerId fuel mtuHandler (c_rest (x_pacing zeroTime (cRest c)) c).
Proof. intros Hm. destruct rounds; unfold triggerSending, setPacing, modifyRest, mbind, stM_bind, get, modify; cbn [cSent c_rest]; by rewrite Hm. Qed.

Lemma trigger_ack fuel rounds mtuHandler ack e1 c : ack_alone ack e1 c -> 0 <= now ->
  exists id e2 h lp raw p' c' ecn, getDestConnID e1 = (Ok id, e2) /\
    triggerSending rng rngID fuelID now v gso shuffle order frameId handlerId streamHandlerId onLost fuel rounds mtuHandler c = (Ok tt, c') /\
    sqQueue (xSendQueue (cRest c')) = sqQueue (xSendQueue (cRest c)) ++ [mkEntry raw 0 ecn] /\
    bytesInFlight (cSent c') = bytesInFlight (cSent c) /\
    hDestConnectionID (ehHeader h) = id /\ header_for EncryptionInitial v (pp_env e2 (packerOf c)) h /\
    long_sealed EncryptionInitial v PacketTypeInitial h (ackPayload ack) 0 lp raw (pp_env e2 (packerOf c)) p' /\
    frame_good (FAck ack) /\ 3 <= wlen (FAck ack) /\ blen raw <= 77 + wlen (FAck ack).
Proof.
  intros [Hpers Hunc Hmode Hfl Hq Hroom Honly Hkeep Hne] Hnow.
  destruct (pack_ack shuffle Hshuffle ack e1 _ v _ Honly) as (id & e2 & h & lp & raw & p' & Hdest & Epack & Hp2 & Hp' & Hid & Hh & Hsealed & Hg & H3 & Hraw).
  set (c1 := noUpdates (c_rest (x_pacing zeroTime (cRest c)) c)). destruct (ECNMode_long (peSent (ppEnv p'))) as [ecn Eecn].
  set (c2 := c_rest (x_sentFirst true (cRest (putPacker p' c1))) (putPacker p' c1)).
  assert (Hsealed' := Hsealed). destruct Hsealed' as [Hpop (frames & hdr & s & s' & Hperm & Elp & _)].
  apply Permutation_nil_r in Hperm as ->. cbn [plAck plStreamFrames plLength ackPayload] in Elp.
  set (n := ehPacketNumberLen h + 16 + wlen (FAck ack) + _) in Elp.
  pose proof (dest_keeps_sent e1) as Hk2. rewrite Hdest in Hk2. cbn [snd] in Hk2.
  destruct (popped_sent e2 (ppEnv p') _ _ (pk_env _ Hp2) (hf_peek _ _ _ _ Hh) Hpop) as (sp & Hi & Hb & Hsp & Hnext). rewrite Hk2, Hkeep in Hb.
  destruct (send_ack c2 sp h n ack raw ecn) as (c3 & Esend & Hb' & Hqueue); try done.
  { change (cSent c2) with (peSent (ppEnv p')). rewrite Hb. change env_maxAck with 551 in H3. lia. }
  { by rewrite (hf_type _ _ _ _ Hh). }
  change (cSent c2) with (peSent (ppEnv p')) in Hb'. rewrite Hb in Hb'. destruct (after_sending c3) as [t Eafter].
  exists id, e2, h, lp, raw, p', (c_rest (x_pacing t (cRest c3)) c3), ecn. split; [done|].
  split; [|by split; [exact Hqueue|]; split; [exact Hb'|]; do 3 (split; [done|]); split; [done|]; split; [apply H3|]].
  rewrite triggerSending_any by done. unfold sendPackets. rewrite (stM_bind_ok get _ _ _ _ eq_refl). cbn [cHandshakeConfirmed c_rest]. rewrite Hunc. cbn [andb].
  rewrite (stM_bind_ok _ _ _ c1 tt) by (apply quiet_queueDueFrames; by destruct Hq).
  rewrite (stM_bind_ok get _ _ _ _ eq_refl). cbn [cHandshakeConfirmed noUpdates c1 c_rest]. rewrite Hunc. cbn [negb].
  rewrite (stM_bind_ok _ _ c1 c1 (CurrentSize (xMtu (cRest c)))) by done.
  rewrite (stM_bind_ok _ _ c1 (putPacker p' c1) _) by (unfold onPacker; fold connEnv'; change (packerOf c1) with (packerOf c); rewrite Epack; reflexivity).
  cbv beta iota. rewrite (stM_bind_ok _ _ _ c2 tt) by done. rewrite (stM_bind_ok _ _ c2 c2 ecn) by (apply onSent_same, Eecn).
  rewrite Elp. rewrite (stM_bind_ok _ _ c2 c3 tt) by exact Esend. exact Eafter.
Qed.

(** *** The first packet of a connection *)

(** The frame handlers and the handshake, which are not reached. *)
Context (fuel rounds : nat) (mtuHandler : Z).
Context (handleFrame' : wireFrame -> EncryptionLevel -> bytes -> stM connT unit) (handshakeComplete' : stM connT unit).
Context (confirmed : sendState C T G -> sendState C T G) (largestAcked' : Z -> sendState C T G -> res (sendState C T G)).

#[local] Instance ops : ConnectionOps A (sendState C T G) :=
  sendingOps rng rngID fuelID now v gso shuffle order frameId handlerId streamHandlerId onLost fuel rounds mtuHandler
    handleFrame' handshakeComplete' confirmed largestAcked'.

(** A server that has the keys of the Initial packets, and has not sent or received anything. *)
Record first_contact c : Prop := {
  fc_server : cPerspective c = PerspectiveServer;
  fc_instant : cEnableInstantACK c = true;
  fc_unconfirmed : cHandshakeConfirmed c = false;
  fc_received : cReceived c = newReceivedPacketHandler;
  fc_mode : sph_SendMode (cSent c) now = SendAny;
  fc_flight : bytesInFlight (cSent c) + 2000 < 2 ^ 62;
  fc_quiet : quiet c;
  fc_queue : blen (sqQueue (xSendQueue (cRest c))) < sendQueueCapacity;
  fc_size : 639 <= CurrentSize (xMtu (cRest c)) <= MaxPacketBufferSize;
  fc_version : version_ok v;
  fc_packer : pk_ok (packerOf c);
  fc_pers : ppPerspective (xPacker (cRest c)) = PerspectiveServer;
  fc_token : ppToken (xPacker (cRest c)) = [];
  fc_sealer : avail EncryptionInitial (ppCryptoSetup (xPacker (cRest c))) = true;
  fc_handshake : suHandshakeSealer (ppCryptoSetup (xPacker (cRest c))) = None;
  fc_1rtt : suHas1RTTSealer (ppCryptoSetup (xPacker (cRest c))) = false;
  fc_retrans : HasInitialData (ppRetransmissionQueue (xPacker (cRest c))) = false;
  fc_data : cs_HasData (ppInitialStream (xPacker (cRest c))) = false;
  fc_number : conn_number EncryptionInitial (ppEnv (packerOf c)) = Some (0, 2);
  fc_connID : cmActiveConnectionID (xConnIDs (cRest c)) = handshakeDestConnID c;
  fc_sequence : cmActiveSequenceNumber (xConnIDs (cRest c)) = 0;
  fc_incomplete : cmHandshakeComplete (xConnIDs (cRest c)) = false
}.

Definition adopt (id : bytes) c : connT :=
  if negb (bool_decide (id = handshakeDestConnID c)) then switchConnID id (c_first true c) else c_first true c.

(** The connection ID of the client is used for what is sent. *)
Lemma adopt_ids id c : first_contact c -> blen id <= MaxConnIDLen ->
  cmActiveConnectionID (xConnIDs (cRest (adopt id c))) = id /\ cmHandshakeComplete (xConnIDs (cRest (adopt id c))) = false /\
  ids_good (xConnIDs (cRest (adopt id c))) /\ cSent (adopt id c) = cSent c /\
  cRest (adopt id c) = x_packer (xPacker (cRest c)) (xFramer (cRest c)) (xConnIDs (cRest (adopt id c))) (cRest c) /\
  cPerspective (adopt id c) = cPerspective c /\ cHandshakeConfirmed (adopt id c) = cHandshakeConfirmed c.
Proof.
  intros Hc Hid. pose proof (eg_ids _ (pk_env _ (fc_packer _ Hc))) as Hg. change (peConnIDs (ppEnv (packerOf c))) with (xConnIDs (cRest c)) in Hg.
  pose proof (fc_connID _ Hc) as Ha. pose proof (fc_sequence _ Hc) as Hs. pose proof (fc_incomplete _ Hc) as Hi.
  unfold adopt. case_bool_decide as Hb; cbn [negb].
  - split; [cbn; congruence|]. do 3 (split; [done|]). split; [by destruct c as [????????????[]]|done].
  - unfold switchConnID. cbn [ops_ChangeInitialConnID ops sendingOps cRest c_first xConnIDs x_packer cSent cPerspective cHandshakeConfirmed].
    unfold cm_ChangeInitialConnID, mbind, stM_bind, get, modify. rewrite Hs. cbn [negb Z.eqb snd].
    split; [done|]. split; [done|]. split; [|done]. destruct Hg as [[G1 G2 G3 G4 G5] [G6 _] G7]. rewrite Hs in *.
    by constructor; [constructor| |].
Qed.

Lemma adopt_packer id c t : first_contact c -> blen id <= MaxConnIDLen -> tracker_good t ->
  let c1 := c_received (set_initialPackets (Some t) newReceivedPacketHandler) (adopt id c) in
  packerOf c1 = withEnv (mkPackEnv (cSent c) (set_initialPackets (Some t) newReceivedPacketHandler) (xFramer (cRest c))
    (xConnIDs (cRest (adopt id c))) (xSendingScheduled (cRest c))) (xPacker (cRest c)) /\
  pk_ok (packerOf c1).
Proof.
  intros Hc Hid Ht c1. destruct (adopt_ids id c Hc Hid) as (_ & _ & A3 & A4 & A5 & _).
  assert (E : packerOf c1 = withEnv (mkPackEnv (cSent c) (set_initialPackets (Some t) newReceivedPacketHandler) (xFramer (cRest c))
    (xConnIDs (cRest (adopt id c))) (xSendingScheduled (cRest c))) (xPacker (cRest c))).
  { unfold packerOf, c1. cbn [cRest cSent cReceived c_received]. rewrite A4. by rewrite A5. }
  split; [exact E|]. rewrite E. destruct (fc_packer _ Hc) as [[] ? ? ? ? ? ?]. constructor; try done. constructor; try done.
  destruct newReceivedPacketTracker_inv as [Hi Hr]. assert (Hn : tracker_good newReceivedPacketTracker) by by constructor.
  constructor; cbn; [by intros ? [= <-]|by intros ? [= <-]|done].
Qed.

(** The acknowledgement that is due after the first packet. *)
Lemma first_ack_alone packet ecn rcvTime c t :
  first_contact c -> 0 <= upPacketNumber packet <= maxPN -> 0 < rcvTime -> blen (upSrcConnID packet) <= MaxConnIDLen ->
  tracker_ReceivedPacket newReceivedPacketTracker (upPacketNumber packet) ecn rcvTime true = (Ok tt, t) ->
  packetHistory t = mkHistory [mkInterval (upPacketNumber packet) (upPacketNumber packet)] 0 ->
  hasNewAck t = true -> ackQueued t = true ->
  let c1 := c_received (set_initialPackets (Some t) newReceivedPacketHandler) (adopt (upSrcConnID packet) c) in
  exists e1, ack_alone (oneAck (upPacketNumber packet) (ect0 t) (ect1 t) (ecnce t)) e1 c1 /\
    (getDestConnID e1).1 = Ok (upSrcConnID packet).
Proof.
  intros Hc Hpn Hr Hid Et Hh Hnew Hq c1. destruct (adopt_ids (upSrcConnID packet) c Hc Hid) as (A1 & A2 & A3 & A4 & A5 & A6 & A7).
  set (c2 := adopt (upSrcConnID packet) c) in *. pose proof (first_tracker_good _ _ _ _ Hpn Hr Et) as Ht.
  destruct (pe_GetAckFrame now EncryptionInitial true (ppEnv (packerOf c1))) as [r e1] eqn:Eack.
  assert (r = Ok (Some (oneAck (upPacketNumber packet) (ect0 t) (ect1 t) (ecnce t))) /\ peSent e1 = cSent c2 /\ peConnIDs e1 = xConnIDs (cRest c2)) as (-> & Es1 & Ei1).
  { unfold pe_GetAckFrame, rhandler_GetAckFrame, getAckFrameNoDelay, tracker_GetAckFrame in Eack. cbn in Eack. rewrite Hnew, Hq in Eack. cbn in Eack.
    injection Eack as <- <-. split; [|done]. unfold zeroDelay, fillAck, oneAck. cbn. by rewrite Hh. }
  exists e1. split.
  - constructor; try done.
    + cbn. rewrite A6. apply Hc.
    + cbn. rewrite A7. apply Hc.
    + cbn. rewrite A4. apply Hc.
    + cbn. rewrite A4. apply Hc.
    + destruct (fc_quiet _ Hc). constructor; cbn; rewrite A5; done.
    + cbn. rewrite A5. apply Hc.
    + destruct (adopt_packer (upSrcConnID packet) c t Hc Hid Ht) as [Ep Hp]. fold c2 c1 in Ep, Hp. destruct Hc as [C1 C2 C3 C4 C5 C6 C7 C8 C9 C10 C11 C12 C13 C14 C15 C16 C17 C18 C19].
      constructor; [exact Hp|exact C10|..]; try (rewrite Ep; done).
      * exists 0, 2. rewrite Ep. split; [exact C19|]. done.
      * exact Eack.
      * cbn. rewrite A5. exact C9.
  - cbn. unfold pe_getDestConnID, cm_Get, mbind, stM_bind, get, cm_shouldUpdateConnID. rewrite Ei1, A2. cbn.
    rewrite drop_all. cbn. by rewrite A1.
Qed.

(** The datagram that [triggerSending] sends after the first packet. *)
Lemma first_trigger packet ecn rcvTime c t s os o :
  first_contact c -> 0 <= upPacketNumber packet <= maxPN -> 0 < rcvTime -> 0 <= now ->
  blen (upSrcConnID packet) <= MaxConnIDLen -> longSealerAt EncryptionInitial (ppCryptoSetup (xPacker (cRest c))) = Ok s ->
  getOpener EncryptionInitial os = Ok o -> keys_match s o -> loHighestRcvdPN o = 0 ->
  tracker_ReceivedPacket newReceivedPacketTracker (upPacketNumber packet) ecn rcvTime true = (Ok tt, t) ->
  packetHistory t = mkHistory [mkInterval (upPacketNumber packet) (upPacketNumber packet)] 0 -> hasNewAck t = true -> ackQueued t = true ->
  exists c' d marking ack hdr o',
    ops_triggerSending (c_received (set_initialPackets (Some t) newReceivedPacketHandler) (adopt (upSrcConnID packet) c)) = (Ok tt, c') /\
    sqQueue (xSendQueue (cRest c')) = sqQueue (xSendQueue (cRest c)) ++ [mkEntry d 0 marking] /\ blen d <= 92 /\
    bytesInFlight (cSent c') = bytesInFlight (cSent c) /\
    AckRanges ack = [mkAckRange (upPacketNumber packet) (upPacketNumber packet)] /\ DelayTime ack = 0 /\
    payload_ok EncryptionInitial [(0%nat, FAck ack)] /\
    ParsePacket d = Ok (ParsedPacket hdr d []) /\
    UnpackLongHeader hdr d os =
      (Ok (mkUnpacked 0 (ppSrcConnID (xPacker (cRest c))) (upSrcConnID packet) EncryptionInitial (Connection.payload [(0%nat, FAck ack)])),
       setOpener EncryptionInitial o' os).
Proof.
  intros Hc Hpn Hr Hnow Hid Hs Ho Hk Hhi Et Hh Hnew Hq.
  destruct (first_ack_alone packet ecn rcvTime c t Hc Hpn Hr Hid Et Hh Hnew Hq) as (e1 & Halone & Hdest).
  set (ack := oneAck _ _ _ _) in Halone.
  destruct (adopt_packer (upSrcConnID packet) c t Hc Hid (first_tracker_good _ _ _ _ Hpn Hr Et)) as [Ep _].
  set (c1 := c_received _ _) in *. destruct (trigger_ack fuel rounds mtuHandler ack e1 c1 Halone Hnow)
    as (id & e2 & h & lp & raw & p' & c' & marking & Edest & Etrig & Hqueue & Hfl & Ehid & Hhdr & Hsealed & Hg & H3 & Hraw).
  assert (id = upSrcConnID packet) as -> by (rewrite Edest in Hdest; by injection Hdest).
  destruct (first_ecn _ _ _ _ (proj1 Hpn) Et) as (E0 & E1 & E2).
  destruct (oneAck_length _ _ _ _ Hpn E0 E1 E2) as (n & Elen & Hn). change (AckFrame_Length ack = Ok n) in Elen.
  pose proof (wf_length (FAck ack) (proj1 Hg)) as Hlen. change (frame_Length (FAck ack)) with (AckFrame_Length ack) in Hlen.
  rewrite Elen in Hlen. injection Hlen as Hn'.
  assert (Hnum : ehPacketNumber h = 0 /\ ehPacketNumberLen h = 2).
  { pose proof (hf_peek _ _ _ _ Hhdr) as Hpeek. destruct (adopt_ids (upSrcConnID packet) c Hc Hid) as (_ & _ & _ & A4 & _).
    pose proof (dest_keeps_sent e1) as Hk2. rewrite Edest in Hk2. pose proof (fc_number _ Hc) as Hn0.
    rewrite (conn_number_sent _ (ppEnv (pp_env e2 (packerOf c1)))) in Hn0 by (etrans; [|symmetry; exact Hk2]; by rewrite (ad_keeps _ _ _ Halone)).
    change (conn_number EncryptionInitial (ppEnv (pp_env e2 (packerOf c1))) = Some (ehPacketNumber h, ehPacketNumberLen h)) in Hpeek.
    rewrite Hn0 in Hpeek. by injection Hpeek as <- <-. }
  destruct (ack_understood v h ack lp raw _ p' s os o Hsealed Hhdr) as (hdr & o' & Hparse & Hunpack); try done.
  - rewrite Ep. apply Hc.
  - rewrite Ep. exact Hs.
  - by rewrite Hhi.
  - by rewrite Hhi, (proj1 Hnum), (proj2 Hnum).
  - exists c', raw, marking, ack, hdr, o'. split.
    { exact Etrig. }
    destruct (adopt_ids (upSrcConnID packet) c Hc Hid) as (_ & _ & _ & A4 & A5 & _).
    split; [rewrite Hqueue; cbn [cRest c1 c_received]; by rewrite A5|]. split; [lia|]. split; [rewrite Hfl; cbn [cSent c1 c_received]; by rewrite A4|].
    do 2 (split; [done|]). split; [|split; [done|]]; [by split; [apply Hg|]|].
    rewrite Hunpack, (proj1 Hnum), Ehid. change (ppSrcConnID (pp_env e2 (packerOf c1))) with (ppSrcConnID (packerOf c1)). by rewrite Ep.
Qed.

(** The instant ACK is sent, and the client understands it.  A server with
    [EnableInstantACK] that has the Initial keys and may send receives the first packet
    of a connection.  Then the call of [triggerSending] from inside the handling of that
    packet - before its frames are parsed - hands exactly one more datagram to the send
    queue.  The datagram has at most 92 bytes, is not padded and does not count as in
    flight; it is one Initial packet with packet number 0 to the connection ID the
    client has chosen.  A client with the matching keys parses and decrypts it, and
    finds a single ACK frame, allowed in an Initial packet, which acknowledges exactly
    the packet received, with delay zero. *)
Theorem instant_ack_sent packet ecn rcvTime c s os o :
  first_contact c -> upLevel packet = EncryptionInitial -> 0 <= upPacketNumber packet <= maxPN -> 0 < rcvTime -> 0 <= now ->
  blen (upSrcConnID packet) <= MaxConnIDLen -> longSealerAt EncryptionInitial (ppCryptoSetup (xPacker (cRest c))) = Ok s ->
  getOpener EncryptionInitial os = Ok o -> keys_match s o -> loHighestRcvdPN o = 0 ->
  exists c' d marking ack hdr o',
    firstPacket packet ecn rcvTime now c = (Ok true, c') /\
    sqQueue (xSendQueue (cRest c')) = sqQueue (xSendQueue (cRest c)) ++ [mkEntry d 0 marking] /\ blen d <= 92 /\
    bytesInFlight (cSent c') = bytesInFlight (cSent c) /\
    AckRanges ack = [mkAckRange (upPacketNumber packet) (upPacketNumber packet)] /\ DelayTime ack = 0 /\
    payload_ok EncryptionInitial [(0%nat, FAck ack)] /\
    ParsePacket d = Ok (ParsedPacket hdr d []) /\
    UnpackLongHeader hdr d os =
      (Ok (mkUnpacked 0 (ppSrcConnID (xPacker (cRest c))) (upSrcConnID packet) EncryptionInitial (Connection.payload [(0%nat, FAck ack)])),
       setOpener EncryptionInitial o' os).
Proof.
  intros Hc Hl Hpn Hr Hnow Hid Hs Ho Hk Hhi.
  destruct (firstPacket_triggers packet ecn rcvTime now c (fc_server _ Hc) (fc_instant _ Hc) (fc_received _ Hc) Hl ltac:(lia))
    as (t & Et & E & Hh & Hnew & Hq & _). fold (adopt (upSrcConnID packet) c) in E.
  destruct (first_trigger packet ecn rcvTime c t s os o Hc Hpn Hr Hnow Hid Hs Ho Hk Hhi Et Hh Hnew Hq) as (c' & d & marking & ack & hdr & o' & Etrig & Hrest).
  exists c', d, marking, ack, hdr, o'. split; [|exact Hrest]. rewrite E. unfold mbind, stM_bind, ignoring. by rewrite Etrig.
Qed.
End conn.

(** ** A run *)

(** Streams that have nothing to send, and are not blocked. *)
#[local] Instance noStreams : SendStreams unit := { popFrom _ _ := mret None }.
#[local] Instance noStreams_laws : SendStreamsLaws unit.
Proof. by refine {| ss_ok _ := True |}. Defined.
#[local] Instance noFlow : FlowOps unit := {
  connNewlyBlocked := mret None;
  connWindowUpdate := mret 0;
  streamWindowUpdate _ := mret None
}.
#[local] Instance noLevels : LevelOps (sendState bytes unit unit) := {
  ops_DiscardInitialKeys x := x;
  ops_DropCryptoStream _ x := Ok x;
  ops_Reset0RTT x := Ok x
}.

(** The Initial keys of the server, and those with which the client opens. *)
Definition ia_sealer : longHeaderSealer bytes :=
  match NewInitialAEAD [4; 5; 6; 7] PerspectiveServer Version1 with
  | Ok (s, _) => s
  | _ => newLongHeaderSealer (mkXorNonce [] []) (aesHeaderProtector [] true)
  end.
Definition ia_opener : longHeaderOpener bytes :=
  match NewInitialAEAD [4; 5; 6; 7] PerspectiveClient Version1 with
  | Ok (_, o) => o
  | _ => newLongHeaderOpener (mkXorNonce [] []) (aesHeaderProtector [] true)
  end.
Definition ia_openers : openers bytes := mkOpeners (Ok ia_opener) (Err ErrKeysDropped) (Err ErrKeysDropped) (Err ErrKeysDropped).

Definition ia_setup : cryptoSetup bytes unit :=
  mkCryptoSetup tt [] Version1 tp_zero None None false NewRTTStats PerspectiveServer zeroTime None None None (Some ia_sealer) None None false
    (toy_endpoint true) false false.

Definition ia_packer : packetPacker bytes unit unit :=
  mkPacker [5; 5; 5] PerspectiveServer ia_setup newCryptoStream newCryptoStream [] tt (Some newDatagramQueue) newRetransmissionQueue 0 0.

Definition ia_rng (_ : nat) : Z := 0.

(** The handler of a server that has received a datagram of 1200 bytes. *)
Definition ia_sent : sentPacketHandler (cubicSender unit) :=
  mkSPH (Some ex_space0) (Some ex_space0) ex_space0 true 1200 0 false false 0 0
    (NewCubicSender NewRTTStats 1252 true) NewRTTStats 0 SendNone 0 0 None PerspectiveServer [].

Lemma ia_sent_inv : sph_inv 0 ia_sent.
Proof.
  assert (Hs : space_inv ex_space0).
  { split; [apply newSentPacketHistory_inv|]. intros p Hp. by apply not_elem_of_nil in Hp. }
  split; [by intros ? [= <-]|]. split; [by intros ? [= <-]|]. split; [done|]. split; [done|]. split; [done|]. done.
Qed.

Definition ia_conn : connection (cubicSender unit) (sendState bytes unit unit) :=
  mkConn PerspectiveServer true false [1; 2] false false 0 0 false ia_sent newReceivedPacketHandler (NewFrameParser false)
    (mkSendState ia_packer (newFramer tt) (newConnIDManager [1; 2] 0) (newMTUDiscoverer 1252) newSendQueue newCryptoStream
       newWindowUpdateQueue 0 false false false []).

Lemma ia_env_good : env_good (ppEnv (packerOf ia_conn)).
Proof.
  constructor.
  - by apply newFramer_inv.
  - constructor.
  - constructor; [apply newConnIDManager_inv|by vm_compute|constructor].
  - destruct newReceivedPacketTracker_inv as [Hi Hr]. assert (Hn : tracker_good newReceivedPacketTracker) by by constructor.
    constructor; cbn; [by intros ? [= <-]|by intros ? [= <-]|done].
  - apply ia_sent_inv.
  - intros lvl s Hs. destruct lvl; injection Hs as <-; by cbn.
Qed.

Lemma ia_first_contact Hrng : first_contact ia_rng ia_rng 10 7 Version1 Hrng elements ia_conn.
Proof.
  constructor; [done|done|done|done|by vm_compute|done|by constructor|done|by vm_compute|by left| |done|done|by vm_compute|done|done|done|done|by vm_compute|done|done|done].
  constructor; [apply ia_env_good|by vm_compute|..].
  - split; [done|]. split; [by vm_compute|]. constructor.
  - split; [done|]. split; [by vm_compute|]. constructor.
  - by constructor; constructor.
  - intros q [= <-]. constructor; [done|done|by left].
  - constructor; [|by intros ?]. intros lvl s Hs. destruct lvl; try discriminate Hs. injection Hs as <-. by constructor; vm_compute.
Qed.

Lemma ia_Int31n pos : is_Some (Int31n ia_rng 10 PacketsPerConnectionID pos).
Proof. by eexists. Qed.

#[local] Instance ia_ops : ConnectionOps (cubicSender unit) (sendState bytes unit unit) :=
  sendingOps ia_rng ia_rng 10 7 Version1 false noShuffle elements (fun _ => 0) (fun _ => 0) (fun _ => 0) (fun _ x => x) 10 0 0
    (fun _ _ _ => mret tt) (mret tt) id (fun _ x => Ok x).

(** The server receives an Initial packet with packet number 0 from the client [9; 9]. *)
Lemma instant_ack_sent_witness :
  exists c' d marking ack hdr o',
    firstPacket ex_ping ECNNon 5 7 ia_conn = (Ok true, c') /\
    sqQueue (xSendQueue (cRest c')) = [mkEntry d 0 marking] /\ blen d <= 92 /\
    bytesInFlight (cSent c') = 0 /\ AckRanges ack = [mkAckRange 0 0] /\ DelayTime ack = 0 /\
    payload_ok EncryptionInitial [(0%nat, FAck ack)] /\
    ParsePacket d = Ok (ParsedPacket hdr d []) /\
    UnpackLongHeader hdr d ia_openers =
      (Ok (mkUnpacked 0 [5; 5; 5] [9; 9] EncryptionInitial (Connection.payload [(0%nat, FAck ack)])), setOpener EncryptionInitial o' ia_openers).
Proof.
  apply (instant_ack_sent ia_rng ia_rng 10 7 Version1 false ia_Int31n noShuffle ltac:(done) elements (fun _ => 0) (fun _ => 0) (fun _ => 0)
    (fun _ x => x) 10 0 0 (fun _ _ _ => mret tt) (mret tt) id (fun _ x => Ok x) ex_ping ECNNon 5 ia_conn ia_sealer ia_openers ia_opener);
    [apply ia_first_contact|reflexivity|by vm_compute|lia|lia|by vm_compute|reflexivity|reflexivity|by vm_compute|reflexivity].
Defined.

(** The datagram of this run, and what is left to do. *)
Example instant_ack_run :
  match firstPacket ex_ping ECNNon 5 7 ia_conn with
  | (Ok true, c') => length <$> (enBuf <$> sqQueue (xSendQueue (cRest c'))) = [38%nat] /\ xPacingDeadline (cRest c') = deadlineSendImmediately
  | _ => False
  end.
Proof. vm_compute. auto. Qed.
