(* ===== verification/Endpoint.v ===== *)
(** * Endpoint: from a datagram to the answer

    Puts the parts of a connection together: the packet unpacker opens packets with the
    keys of the crypto setup, which the packer seals with; datagrams are handled by
    PacketHandling.v, and [triggerSending] is that of Sending.v.  The handlers of the
    frames of streams, of TLS and of connection IDs stay parameters.

    For this connection, datagrams without a packet that opens change nothing, and the
    first datagram of a client is answered by the instant ACK, whatever the packet
    contains. *)

From stdpp Require Import base numbers list option strings gmap.
From S2P Require Import Prelude Protocol Varint AckFrame ReceivedHistory ReceivedTracker SentHistory PNGenerator Ecn GoFloat RTTStats Congestion SentPacketHandler SentPacketProofs AckProcessing SentPacketClaims.
From S2P Require Import FlowControl Frames FrameParser Connection CryptoStream RetransmissionQueue Headers HeaderProofs Protection ProtectionProofs KeyUpdate KeyUpdateProofs KeyUpdateClaims Unpacker UnpackerProofs RingBuffer Framer FramerProofs ConnIDs.
From S2P Require Import TransportParams CryptoSetup DatagramQueue Mtu Packer PackerProofs PackerClaims PacketHandling PacketHandlingProofs SendQueue Sending SendingProofs InstantAck RunLoop.
From Stdlib Require Import ZArith Lia.
#[local] Open Scope Z_scope.

(** ** The unpacker with the keys of the crypto setup *)

Section unpacker.
Context {C T : Type} `{Crypto C} (now : Z).
Implicit Types h : cryptoSetup C T.

(** The 1-RTT key is got with [Get1RTTOpener], which may drop the 0-RTT key. *)
Definition suOpeners h : openers C :=
  mkOpeners (GetInitialOpener h) (GetHandshakeOpener h) (Get0RTTOpener h) (if suHas1RTTOpener h then Ok (suAead h) else Err ErrKeysNotYetAvailable).

Definition keyIn {B} (k : res B) (old : option B) : option B := match k with Ok o => Some o | _ => old end.

Definition putOpeners (os : openers C) h : cryptoSetup C T :=
  w_InitialOpener (keyIn (opInitial os) (suInitialOpener h)) (w_HandshakeOpener (keyIn (opHandshake os) (suHandshakeOpener h))
    (w_ZeroRTTOpener (keyIn (op0RTT os) (suZeroRTTOpener h)) (w_Aead (match op1RTT os with Ok a => a | _ => suAead h end) h))).

Definition onOpeners {B} (m : stM (openers C) B) : stM (cryptoSetup C T) B := fun h =>
  let '(r, os) := m (suOpeners h) in (r, putOpeners os h).

Definition su_UnpackLongHeader (hdr : Header) (data : bytes) : stM (cryptoSetup C T) unpackedPacket :=
  onOpeners (UnpackLongHeader hdr data).
Definition su_UnpackShortHeader (rtt : RTTStats) (connIDLen rcvTime : Z) (data : bytes) : stM (cryptoSetup C T) (Z * Z * KeyPhaseBit * bytes) :=
  _ ← Get1RTTOpener now; onOpeners (UnpackShortHeader rtt connIDLen rcvTime data).
End unpacker.

(** ** The connection *)

Definition withRest {A X Y} (y : Y) (c : connection A X) : connection A Y :=
  mkConn (cPerspective c) (cEnableInstantACK c) (receivedFirstPacket c) (handshakeDestConnID c) (handshakeComplete c)
    (cHandshakeConfirmed c) (lastPacketReceivedTime c) (firstAckElicitingPacketAfterIdleSentTime c) (keepAlivePingSent c) (cSent c)
    (cReceived c) (cParser c) y.

(** The part of the connection that sends. *)
Definition sending {A X} (c : connection A (receiver X)) : connection A X := withRest (rvRest (cRest c)) c.

Definition onSending {A X B} (m : stM (connection A X) B) : stM (connection A (receiver X)) B := fun c =>
  let '(r, c') := m (sending c) in (r, withRest (rv_rest (cRest c') (cRest c)) c').

Section endpoint.
Context {A C T G : Type} `{HA : !SendAlgorithm A} `{HC : !Crypto C} `{HG : !SendStreams G} `{HF : !FlowOps G} `{HL : !LevelOps (sendState C T G)}.
Context (rng rngID : nat -> Z) (fuelID : nat) (now v : Z) (gso pmtud : bool) (connIDLen : Z).
Context (shuffle : nat -> list packFrame -> list packFrame) (order : gset Z -> list Z).
Context (frameId : wireFrame -> Z) (handlerId : frameHandler -> Z) (streamHandlerId : Z -> Z).
Context (onLost : list frame_event -> sendState C T G -> sendState C T G).
Context (fuel rounds : nat) (mtuHandler : Z).
Abbreviation stateT := (sendState C T G).
Abbreviation connR := (connection A (receiver (sendState C T G))).
Context (handleFrame' : wireFrame -> EncryptionLevel -> bytes -> stM connR unit) (handshakeComplete' : stM connR unit).
Implicit Types x : sendState C T G.

Definition x_setup (h : cryptoSetup C T) x : stateT := x_packer (pp_setup h (xPacker x)) (xFramer x) (xConnIDs x) x.

Definition onCrypto {B} (m : stM (cryptoSetup C T) B) : stM stateT B := fun x =>
  let '(r, h) := m (ppCryptoSetup (xPacker x)) in (r, x_setup h x).

(** As [pe_getDestConnID]: frames for retired connection IDs are queued. *)
Definition x_getDestConnID : stM stateT bytes := fun x =>
  let '(r, m) := cm_Get rngID fuelID (xConnIDs x) in
  let frames := retireFrames (drop (length (cmEvents (xConnIDs x))) (cmEvents m)) in
  let '(queued, f) := queueAll frames (xFramer x) in
  (_ ← queued; r, x_scheduled (xSendingScheduled x || negb (bool_decide (frames = []))) (x_packer (xPacker x) f m x)).

#[export] Instance endpointPackets : PacketOps stateT := {
  ops_UnpackLongHeader hdr data := onCrypto (su_UnpackLongHeader hdr data);
  ops_UnpackShortHeader rtt rcvTime data := onCrypto (su_UnpackShortHeader now rtt connIDLen rcvTime data);
  ops_GetDestConnID := x_getDestConnID;
  ops_ChangeConnectionID id := onCrypto (ChangeConnectionID id);
  ops_SetToken token x := x_packer (pp_token token (xPacker x)) (xFramer x) (xConnIDs x) x;
  ops_scheduleSending := x_scheduled true
}.

(** [pmtud] says whether path MTU discovery is enabled and possible.  The parameters
    of the peer are known when the handshake is confirmed. *)
Definition confirmHandshake (r : receiver stateT) : receiver stateT :=
  let x := (onCrypto su_SetHandshakeConfirmed (rvRest r)).2 in
  let x := if pmtud then
             let max := match rvPeerParams r with Some p => tpMaxUDPPayloadSize p | None => 0 end in
             x_mtu (mtu_Start (Z.min (if max =? 0 then MaxByteCount else max) MaxPacketBufferSize) now (xMtu x)) x
           else x in
  rv_rest x r.

#[export] Instance receiverLevels : LevelOps (receiver stateT) := {
  ops_DiscardInitialKeys r := rv_rest (ops_DiscardInitialKeys (rvRest r)) r;
  ops_DropCryptoStream lvl r := x ← ops_DropCryptoStream lvl (rvRest r); Ok (rv_rest x r);
  ops_Reset0RTT r := x ← ops_Reset0RTT (rvRest r); Ok (rv_rest x r)
}.

(** As in [sendingOps], [ChangeInitialConnID] does not panic here. *)
#[export] Instance endpointOps : ConnectionOps A (receiver stateT) := {|
  ops_levels := receiverLevels;
  ops_ChangeInitialConnID id r :=
    let x := rvRest r in rv_rest (x_packer (xPacker x) (xFramer x) (cm_ChangeInitialConnID id (xConnIDs x)).2 x) r;
  ops_handleFrame := handleFrame';
  ops_handleHandshakeComplete := handshakeComplete';
  ops_triggerSending := onSending (triggerSending rng rngID fuelID now v gso shuffle order frameId handlerId streamHandlerId onLost fuel rounds mtuHandler);
  ops_SetHandshakeConfirmed := confirmHandshake;
  ops_SetLargest1RTTAcked pn r := let '(res, x) := onCrypto (SetLargest1RTTAcked pn) (rvRest r) in _ ← res; Ok (rv_rest x r)
|}.

(** What the main loop calls; the streams and the generator of connection IDs are parameters. *)
Definition closeMessage (e : closeCause) : GoError + (Z * bytes) :=
  match e with
  | CloseErr e => inl e
  | CloseApplication code msg => inr (code, msg)
  | CloseNil => inr (0, [])
  | CloseIdleTimeout => inl (ErrorString "timeout: no recent network activity")
  | CloseHandshakeTimeout => inl (ErrorString "timeout: handshake did not complete in time")
  | CloseStatelessReset _ => inl (ErrorString "received a stateless reset with token %x")
  | CloseNoVersion _ _ => inl (ErrorString "no compatible QUIC version found (we support %s, server offered %s)")
  | CloseForRecreating _ _ => inl (ErrorString "closing connection in order to recreate it")
  end.

#[export] Instance endpointRun (closeWithError : closeCause -> stateT -> stateT)
    (replaceWithClosed : Perspective -> option bytes -> stateT -> stateT) (removeAll : stateT -> stateT) (random : bytes) (additional : list (Z * bytes))
    (fuelTLS : nat) `{TLSConn T} : RunOps A stateT := {|
  ops_pacingDeadline := xPacingDeadline;
  ops_sentFirstPacket := xSentFirstPacket;
  ops_StartHandshake := onCrypto (StartHandshake now random additional fuelTLS);
  ops_takeScheduled := x_scheduled false;
  ops_takeAvailable x := x_sendQueue (sq_takeAvailable (xSendQueue x)).2 x;
  ops_WouldBlock x := let x := elapsed x in (Ok (sq_WouldBlock (xSendQueue x)), x);
  ops_queuePing x := let '(r, f) := fr_QueueControlFrame (FPing mkPing) (xFramer x) in (r, x_packer (xPacker x) f (xConnIDs x) x);
  ops_CryptoClose x := (onCrypto su_Close x).2;
  ops_CloseQueue x := let '(r, q) := sq_Close (xSendQueue x) in (r, x_sendQueue q x);
  ops_CloseWithError := closeWithError;
  ops_ReplaceWithClosed := replaceWithClosed;
  ops_RemoveAll := removeAll;
  ops_sendConnectionClose e := onSending (sendConnectionClose rng rngID fuelID now v shuffle (closeMessage e))
|}.
End endpoint.

(** ** Datagrams that are not authentic *)

Section foreign.
Context {A C T G : Type} `{HA : !SendAlgorithm A} `{HC : !Crypto C} `{HCL : !CryptoLaws C}.
Context `{HG : !SendStreams G} `{HF : !FlowOps G} `{HL : !LevelOps (sendState C T G)}.
Context (rng rngID : nat -> Z) (fuelID : nat) (now v : Z) (gso pmtud log : bool) (connIDLen : Z).
Context (shuffle : nat -> list packFrame -> list packFrame) (order : gset Z -> list Z).
Context (frameId : wireFrame -> Z) (handlerId : frameHandler -> Z) (streamHandlerId : Z -> Z).
Context (onLost : list frame_event -> sendState C T G -> sendState C T G).
Context (fuel rounds : nat) (mtuHandler : Z).
Abbreviation stateT := (sendState C T G).
Abbreviation connR := (connection A (receiver (sendState C T G))).
Context (handleFrame' : wireFrame -> EncryptionLevel -> bytes -> stM connR unit) (handshakeComplete' : stM connR unit).
Implicit Types x : sendState C T G.
Implicit Types h : cryptoSetup C T.
Implicit Types c : connection A (receiver (sendState C T G)).

#[local] Instance packets' : PacketOps stateT := endpointPackets rngID fuelID now connIDLen.
#[local] Instance ops' : ConnectionOps A (receiver stateT) :=
  endpointOps rng rngID fuelID now v gso pmtud shuffle order frameId handlerId streamHandlerId onLost fuel rounds mtuHandler handleFrame' handshakeComplete'.

(** During the handshake, before there are 1-RTT keys, no part of [d] opens under the
    keys that there are. *)
Record unauthentic (d : bytes) h : Prop := {
  un_initial o : suInitialOpener h = Some o -> rejects d o;
  un_handshake o : suHandshakeOpener h = Some o -> rejects d o;
  un_0rtt o : suZeroRTTOpener h = Some o -> rejects d o;
  un_1rtt : suHas1RTTOpener h = false
}.

Lemma unauthentic_foreign d h : unauthentic d h -> foreign false d (suOpeners h).
Proof.
  intros [H1 H2 H3 H4]. unfold suOpeners, GetInitialOpener, GetHandshakeOpener, Get0RTTOpener. rewrite H4.
  assert (He : forall e, e = ErrKeysDropped \/ e = ErrKeysNotYetAvailable -> unpack_error false e).
  { intros e [-> | ->]; [left; by left|by right]. }
  constructor; cbn [opInitial opHandshake op0RTT op1RTT].
  - destruct (suInitialOpener h) as [o|]; cbn; [by apply H1|apply He; by left].
  - destruct (suHandshakeOpener h) as [o|]; cbn; [by apply H2|]. apply He. destruct (suInitialOpener h); [by right|by left].
  - destruct (suZeroRTTOpener h) as [o|]; cbn; [by apply H3|]. apply He. destruct (suInitialOpener h); [by right|by left].
  - exists ErrKeysNotYetAvailable. split; [done|]. apply He. by right.
Qed.

(** All of the state but the 0-RTT key and the buffers for the nonces of the keys that
    open packets. *)
Definition sealed_view x :=
  let h := ppCryptoSetup (xPacker x) in
  (x_setup (w_InitialOpener None (w_HandshakeOpener None (w_ZeroRTTOpener None h))) x, opener_view <$> suInitialOpener h, opener_view <$> suHandshakeOpener h).

(** The 0-RTT key is the same but for the buffer, or it was dropped because it is taken
    to be three PTOs after the handshake. *)
Definition zero_rtt_key h h' : Prop :=
  opener_view <$> suZeroRTTOpener h' = opener_view <$> suZeroRTTOpener h \/
  (suZeroRTTOpener h' = None /\ i64 (3 * PTO (suRTTStats h) true) < Time_Sub now (suHandshakeCompleteTime h)).

(** What a packet that is not authentic may change of the subsystems. *)
Definition same_but_buffers x x' : Prop :=
  sealed_view x' = sealed_view x /\ zero_rtt_key (ppCryptoSetup (xPacker x)) (ppCryptoSetup (xPacker x')).

(** What the view shows of the crypto setup. *)
Lemma sealed_view_setup x x' : sealed_view x' = sealed_view x ->
  let h := ppCryptoSetup (xPacker x) in let h' := ppCryptoSetup (xPacker x') in
  opener_view <$> suInitialOpener h' = opener_view <$> suInitialOpener h /\ opener_view <$> suHandshakeOpener h' = opener_view <$> suHandshakeOpener h /\
  suHas1RTTOpener h' = suHas1RTTOpener h /\ suRTTStats h' = suRTTStats h /\ suHandshakeCompleteTime h' = suHandshakeCompleteTime h.
Proof.
  intros E. unfold sealed_view in E. apply pair_eq in E as [E E2]. apply pair_eq in E as [E0 E1].
  apply (f_equal (fun y => ppCryptoSetup (xPacker y))) in E0. cbn in E0. split_and!; [done|done|..].
  - apply (f_equal suHas1RTTOpener) in E0. exact E0.
  - apply (f_equal suRTTStats) in E0. exact E0.
  - apply (f_equal suHandshakeCompleteTime) in E0. exact E0.
Qed.

#[local] Instance same_but_buffers_preorder : PreOrder same_but_buffers.
Proof.
  split.
  - intros x. split; [done|by left].
  - intros x1 x2 x3 [E1 Z1] [E2 Z2]. destruct (sealed_view_setup _ _ E1) as (_ & _ & _ & K1 & K2). split; [congruence|].
    unfold zero_rtt_key in *. rewrite K1, K2 in Z2. destruct Z2 as [Z2|Z2]; [|by right]. destruct Z1 as [Z1|[Z1 Ht]]; [left; congruence|].
    right. split; [|done]. rewrite Z1 in Z2. by apply fmap_None in Z2.
Qed.

Lemma keyIn_view (k : res (longHeaderOpener C)) old e : key_view k = key_view (keyOr old e) -> opener_view <$> keyIn k old = opener_view <$> old.
Proof. destruct old as [o|], k as [o'|e'|m]; cbn; try done. intros E. unfold opener_view in *. injection E as E1 E2 E3 E4. by rewrite E1, E2, E3, E4. Qed.

Lemma putOpeners_same d x os : unauthentic d (ppCryptoSetup (xPacker x)) -> openers_view os = openers_view (suOpeners (ppCryptoSetup (xPacker x))) ->
  same_but_buffers x (x_setup (putOpeners os (ppCryptoSetup (xPacker x))) x).
Proof.
  intros [_ _ _ H1] E. set (h := ppCryptoSetup (xPacker x)) in *. injection E as E1 E2 E3 E4.
  unfold GetInitialOpener in E1. unfold GetHandshakeOpener in E2. unfold Get0RTTOpener in E3. rewrite H1 in E4.
  apply keyIn_view in E1, E2, E3. split; [|by left]. unfold sealed_view. cbn [x_setup xPacker x_packer ppCryptoSetup pp_setup].
  unfold putOpeners. rewrite E4. f_equal; [f_equal; exact E1|exact E2].
Qed.

Lemma unauthentic_same d x x' : same_but_buffers x x' -> unauthentic d (ppCryptoSetup (xPacker x)) -> unauthentic d (ppCryptoSetup (xPacker x')).
Proof.
  intros [E Hz] [H1 H2 H3 H4]. destruct (sealed_view_setup _ _ E) as (E1 & E2 & E4 & _).
  assert (Hr : forall k k' : option (longHeaderOpener C), opener_view <$> k' = opener_view <$> k -> (forall o, k = Some o -> rejects d o) ->
    forall o, k' = Some o -> rejects d o).
  { intros k k' Ev Hk o' ->. destruct k as [o|]; [|done]. apply (key_rejects_view false d (Ok o) (Ok o')); [|by apply Hk].
    cbn. f_equal. by apply (inj Some). }
  constructor; [by eapply Hr|by eapply Hr| |by rewrite E4]. destruct Hz as [Hz|[Hz _]]; [by eapply Hr|by rewrite Hz].
Qed.

(** Without 1-RTT keys a short header packet waits for them; the 0-RTT key may be dropped. *)
Lemma short_same rtt t packet x : suHas1RTTOpener (ppCryptoSetup (xPacker x)) = false ->
  exists x', onCrypto (su_UnpackShortHeader now rtt connIDLen t packet) x = (Err ErrKeysNotYetAvailable, x') /\ same_but_buffers x x'.
Proof.
  intros H1. unfold onCrypto, su_UnpackShortHeader, Get1RTTOpener, mbind, stM_bind, get. rewrite H1. cbn [negb].
  destruct (bool_decide _ && (_ <? _)) eqn:Ed; cbn; eexists; (split; [reflexivity|]).
  - apply andb_prop in Ed as [_ Ed]. split; [by destruct x as [[]]|]. right. split; [done|lia].
  - split; [by destruct x as [[]]|by left].
Qed.

(** What the unpacker drops is forged in the sense of PacketHandlingProofs.v. *)
Lemma unauthentic_forged d x : version_ok v -> bytes_ok d -> blen d < 2 ^ 62 -> unauthentic d (ppCryptoSetup (xPacker x)) ->
  forged same_but_buffers v false d x.
Proof.
  intros Hv Hb Hl Hu. constructor.
  - intros pre packet post hdr x0 Hd Hparse Hver Htyp Hx. pose proof (unauthentic_same d x x0 Hx Hu) as Hu0.
    assert (Hs : bytes_ok (packet ++ post) /\ blen (packet ++ post) <= blen d).
    { rewrite Hd in Hb |- *. apply Forall_app in Hb as [_ Hb]. split; [done|]. rewrite !blen_app. pose proof (blen_nonneg pre). lia. }
    pose proof (ParsePacket_total (packet ++ post) (proj1 Hs) ltac:(lia)) as Hp. rewrite Hparse in Hp.
    destruct Hp as (_ & Hpk & Hpl & Hhl & _).
    destruct (ParsePacket_inv _ _ _ _ Hparse) as ([typ Et] & _); [rewrite Hver; by destruct Hv as [-> | ->]|].
    destruct (foreign_long false d pre packet post hdr _ (unauthentic_foreign _ _ Hu0) Hd) as (e & os & Eu & Hview & He); [lia|by destruct typ; rewrite Et in *|].
    eexists e, _. cbn. unfold onCrypto, su_UnpackLongHeader, onOpeners. rewrite Eu. split; [reflexivity|]. split; [|done]. by apply (putOpeners_same d).
  - intros pre packet rtt t x0 Hd Hx. pose proof (unauthentic_same d x x0 Hx Hu) as Hu0.
    destruct (short_same rtt t packet x0 (un_1rtt _ _ Hu0)) as (x1 & E & Hs). exists ErrKeysNotYetAvailable, x1. split_and!; [exact E|done|by right].
Qed.

(** C6: Datagrams that are not authentic are ignored.  During the handshake, before there
    are 1-RTT keys, whatever bytes arrive, if no part of the datagram opens under the
    Initial, Handshake and 0-RTT keys that there are, a server, and a client that has
    received a packet before, handles the datagram without a panic, and reports that
    nothing was processed, so that the loop sends nothing; the connection is not closed
    and nothing is handed to the send queue.  Only the count of received bytes (with
    the timer it may unblock), the buffers for nonces, the 0-RTT key, which a short
    header packet may make the server drop, and the queue of packets that wait for
    their keys change: the queue grows by parts of this datagram, and not beyond its
    limit. *)
Theorem unauthentic_datagram_ignored rp c :
  version_ok v -> rvVersion (cRest c) = v -> handshakeComplete c = false -> established c ->
  0 <= rvSrcConnIDLen (cRest c) <= MaxConnIDLen -> bytes_ok (rpData rp) -> blen (rpData rp) < 2 ^ 62 ->
  unauthentic (rpData rp) (ppCryptoSetup (xPacker (rvRest (cRest c)))) ->
  exists a c', handlePacketImpl (C := C) rng now log rp c = (Ok false, c') /\
    ignored same_but_buffers (rpData rp) (c_sent (w_alarm a (w_bytesReceived (i64 (bytesReceived (cSent c) + blen (rpData rp))) (cSent c))) c) c' /\
    rvClose (cRest c') = rvClose (cRest c) /\ xSendQueue (rvRest (cRest c')) = xSendQueue (rvRest (cRest c)).
Proof.
  intros Hv Hver Hh He Hn Hb Hl Hu.
  destruct (forged_ignored rng now log same_but_buffers rp c) as (a & c' & E & Hi); try done.
  { rewrite Hver, Hh. by apply unauthentic_forged. }
  exists a, c'. do 2 (split; [done|]). destruct Hi as [(x & ps & Hx & -> & _)]. split; [done|].
  destruct Hx as [Hx _]. apply (f_equal (fun y => xSendQueue y.1.1)) in Hx. exact Hx.
Qed.
End foreign.

(** ** The first datagram *)

Section first.
Context {A C T G : Type} `{HA : !SendAlgorithm A} `{HC : !Crypto C} `{HCL : !CryptoLaws C}.
Context `{HG : !SendStreams G} `{HGL : !SendStreamsLaws G} `{HF : !FlowOps G} `{HL : !LevelOps (sendState C T G)}.
Context (rng rngID : nat -> Z) (fuelID : nat) (now v : Z) (gso pmtud log : bool) (connIDLen : Z).
Context (Hrng : forall pos, is_Some (Int31n rngID fuelID PacketsPerConnectionID pos)).
Context (shuffle : nat -> list packFrame -> list packFrame) (Hshuffle : forall n l, Permutation (shuffle n l) l).
Context (order : gset Z -> list Z).
Context (frameId : wireFrame -> Z) (handlerId : frameHandler -> Z) (streamHandlerId : Z -> Z).
Context (onLost : list frame_event -> sendState C T G -> sendState C T G).
Context (fuel rounds : nat) (mtuHandler : Z).
Abbreviation stateT := (sendState C T G).
Abbreviation connR := (connection A (receiver (sendState C T G))).
Context (handleFrame' : wireFrame -> EncryptionLevel -> bytes -> stM connR unit) (handshakeComplete' : stM connR unit).
Implicit Types c : connection A (receiver (sendState C T G)).

#[local] Instance packets : PacketOps stateT := endpointPackets rngID fuelID now connIDLen.
#[local] Instance ops : ConnectionOps A (receiver stateT) :=
  endpointOps rng rngID fuelID now v gso pmtud shuffle order frameId handlerId streamHandlerId onLost fuel rounds mtuHandler handleFrame' handshakeComplete'.

#[local] Instance env : PackerEnv (packEnv A G) := connEnv rng rngID fuelID now.
#[local] Instance envLaws : PackerEnvLaws (packEnv A G) := connEnv_laws rng rngID fuelID now Hrng.

Definition queueOf c : list queueEntry := sqQueue (xSendQueue (rvRest (cRest c))).

(** The handlers of frames do not send. *)
Context (Hdrop : forall lvl (x x' : stateT), ops_DropCryptoStream lvl x = Ok x' -> xSendQueue x' = xSendQueue x).
Context (Hframes : forall f lvl id, keeps queueOf (handleFrame' f lvl id)) (Hcomplete : keeps queueOf handshakeComplete').

Lemma keeps_handleFrames data id lvl : keeps queueOf (handleFrames data id lvl log now).
Proof.
  apply handleFrames_keeps; [|exact Hcomplete]. intros f.
  apply (keeps_rest_handleFrame (fun r : receiver stateT => sqQueue (xSendQueue (rvRest r)))); [| | |by apply Hframes].
  - intros l r r' E. cbn in E. destruct (ops_DropCryptoStream l (rvRest r)) as [x| |] eqn:Ed; [|done..]. injection E as <-. cbn. by rewrite (Hdrop _ _ _ Ed).
  - intros r. cbn. unfold confirmHandshake, onCrypto. destruct (su_SetHandshakeConfirmed _) as [res h]. by destruct pmtud.
  - intros pn r r'. cbn. unfold onCrypto. destruct (SetLargest1RTTAcked pn _) as [[]]; [|done..]. by intros [= <-].
Qed.

(** What follows the instant ACK in the handling of the packet leaves the queue alone. *)
Lemma keeps_afterFirst packet ecn rcvTime : keeps queueOf (afterFirst packet ecn rcvTime log now true).
Proof.
  apply keeps_bind; [by apply keeps_modify|intros _]. apply keeps_bind; [apply keeps_handleFrames|intros ae]. apply keeps_ret.
Qed.

(** Keys that open packets do not matter for what is sent. *)
Lemma first_contact_opener o c os : setOpener EncryptionInitial o (suOpeners (ppCryptoSetup (xPacker (rvRest (cRest c))))) = os ->
  let h := putOpeners os (ppCryptoSetup (xPacker (rvRest (cRest c)))) in
  first_contact rng rngID fuelID now v Hrng order (sending c) ->
  first_contact rng rngID fuelID now v Hrng order (sending (c_rest (rv_rest (x_setup h (rvRest (cRest c))) (cRest c)) c)).
Proof.
  intros <- h []. assert (Hp : pk_ok (E := packEnv A G) (packerOf (sending (c_rest (rv_rest (x_setup h (rvRest (cRest c))) (cRest c)) c)))).
  { destruct fc_packer as [? ? ? ? ? ? [K1 K2]]. constructor; try done. constructor; [|intros E; cbn in E, fc_1rtt; by rewrite E in fc_1rtt].
    intros lvl s. apply (K1 lvl s). }
  destruct fc_quiet. by constructor.
Qed.

(** The packet of the client, as the server sees it. *)
Record opens (d : bytes) (hdr : Header) (packet : unpackedPacket) c : Prop := {
  op_parse : ParsePacket d = Ok (ParsedPacket hdr d []);
  op_version : hVersion hdr = v;
  op_type : hType hdr = Some PacketTypeInitial;
  op_level : upLevel packet = EncryptionInitial;
  op_unpack : exists o, UnpackLongHeader hdr d (suOpeners (ppCryptoSetup (xPacker (rvRest (cRest c))))) =
    (Ok packet, setOpener EncryptionInitial o (suOpeners (ppCryptoSetup (xPacker (rvRest (cRest c))))))
}.

(** The instant ACK is sent while the packet is handled. *)
Lemma long_packet_acked d hdr packet rcvTime ecn c s os o :
  first_contact rng rngID fuelID now v Hrng order (sending c) -> receivedFirstPacket c = false -> opens d hdr packet c ->
  0 <= upPacketNumber packet <= maxPN -> 0 < rcvTime -> 0 <= now -> blen (upSrcConnID packet) <= MaxConnIDLen ->
  longSealerAt EncryptionInitial (ppCryptoSetup (xPacker (rvRest (cRest c)))) = Ok s ->
  getOpener EncryptionInitial os = Ok o -> keys_match s o -> loHighestRcvdPN o = 0 ->
  exists res c' d' marking ack hdr' o',
    handleLongHeaderPacket (C := C) rng now log (mkReceived d rcvTime ecn) hdr c = (res, c') /\
    queueOf c' = queueOf c ++ [mkEntry d' 0 marking] /\ blen d' <= 92 /\
    AckRanges ack = [mkAckRange (upPacketNumber packet) (upPacketNumber packet)] /\ DelayTime ack = 0 /\
    ParsePacket d' = Ok (ParsedPacket hdr' d' []) /\
    UnpackLongHeader hdr' d' os =
      (Ok (mkUnpacked 0 (ppSrcConnID (xPacker (rvRest (cRest c)))) (upSrcConnID packet) EncryptionInitial (Connection.payload [(0%nat, FAck ack)])),
       setOpener EncryptionInitial o' os).
Proof.
  intros Hfc Hfirst [Hparse Hver Htyp Hlvl (o1 & Hun)] Hpn Hr Hnow Hid Hs Ho Hk Hhi.
  set (x := rvRest (cRest c)) in *. set (h := putOpeners (setOpener EncryptionInitial o1 (suOpeners (ppCryptoSetup (xPacker x)))) (ppCryptoSetup (xPacker x))).
  set (c1 := c_rest (rv_rest (x_setup h x) (cRest c)) c).
  pose proof (first_contact_opener o1 c _ eq_refl Hfc) as Hfc1. fold x h c1 in Hfc1.
  unfold handleLongHeaderPacket. rewrite Htyp, decide_False by done. rewrite (stM_bind_ok get _ c c c) by done. rewrite Hfirst. cbn [andb].
  rewrite (bool_decide_eq_false_2 (Some PacketTypeInitial = Some PacketType0RTT)), andb_false_r by done.
  assert (Eun : attempt (onX (ops_UnpackLongHeader hdr d)) c = (Ok (inr packet), c1)).
  { unfold attempt, onX. cbn. unfold onCrypto, su_UnpackLongHeader, onOpeners. fold x. by rewrite Hun. }
  cbn [rpData]. rewrite (stM_bind_ok _ _ _ _ _ Eun). 
  assert (Hrec : cReceived c = newReceivedPacketHandler) by exact (fc_received _ _ _ _ _ _ _ _ Hfc).
  assert (Edup : rhandler_IsPotentiallyDuplicate (cReceived c) (upPacketNumber packet) (upLevel packet) = Ok false).
  { rewrite Hrec, Hlvl. cbn. unfold tracker_IsPotentiallyDuplicate, history_IsPotentiallyDuplicate. cbn. by zfalse (upPacketNumber packet <? 0). }
  rewrite Edup, run_lift. cbn [rpECN rpRcvTime].
  destruct (firstPacket_triggers packet ecn rcvTime now c1 (fc_server _ _ _ _ _ _ _ _ Hfc) (fc_instant _ _ _ _ _ _ _ _ Hfc) Hrec Hlvl ltac:(lia))
    as (t & Et & E & Hh & Hnew & Hq & _). set (c2 := c_received _ _) in E.
  destruct (first_trigger rng rngID fuelID now v gso Hrng shuffle Hshuffle order frameId handlerId streamHandlerId onLost fuel rounds mtuHandler
    (fun _ _ _ => mret tt) (mret tt) id (fun _ x => Ok x) packet ecn rcvTime (sending c1) t s os o Hfc1 Hpn Hr Hnow Hid Hs Ho Hk Hhi Et Hh Hnew Hq)
    as (c3 & d' & marking & ack & hdr' & o' & Etrig & Hqueue & Hlen & _ & Hranges & Hdelay & _ & Hparse' & Hun').
  assert (Esend : ops_triggerSending c2 = (Ok tt, withRest (rv_rest (cRest c3) (cRest c2)) c3)).
  { cbn. unfold onSending. replace (sending c2) with (c_received (set_initialPackets (Some t) newReceivedPacketHandler) (adopt rng rngID fuelID now v gso shuffle order frameId handlerId streamHandlerId onLost fuel rounds mtuHandler
    (fun _ _ _ => mret tt) (mret tt) id (fun _ x => Ok x) (upSrcConnID packet) (sending c1))); [cbn in Etrig; by rewrite Etrig|].
    subst c2. unfold adopt. by destruct (negb _). }
  set (c4 := withRest _ c3) in Esend. pose proof (keeps_afterFirst packet ecn rcvTime c4) as Hkeep.
  assert (Eh : handleUnpackedLongHeaderPacket packet ecn rcvTime log now c1 = afterFirst packet ecn rcvTime log now true c4).
  { rewrite handleUnpacked_first by done. rewrite (stM_bind_assoc_ret _ _ _ _ _ E). unfold mbind, stM_bind, ignoring. by rewrite Esend. }
  change (queueOf c4) with (sqQueue (xSendQueue (cRest c3))) in Hkeep. rewrite Hqueue in Hkeep.
  assert (Hfinal : exists res c', (attempt (handleUnpackedLongHeaderPacket packet ecn rcvTime log now) ≫=
      (fun r => match r with inl err => _ ← closeLocal (CloseErr err); mret false | inr _ => mret true end)) c1 = (res, c') /\
    queueOf c' = queueOf (afterFirst packet ecn rcvTime log now true c4).2).
  { unfold mbind, stM_bind, attempt. rewrite Eh. destruct (afterFirst _ _ _ _ _ _ c4) as [[[]|err|m] c5]; try by eexists _, _.
    eexists _, _. split; [reflexivity|]. cbn. by destruct (rvClose (cRest c5)). }
  destruct Hfinal as (res & c' & -> & Hq'). exists res, c', d', marking, ack, hdr', o'. split; [done|]. split; [by rewrite Hq', Hkeep|]. done.
Qed.

(** C1: A client sends the first packet of a connection in a datagram of its own, and the
    server answers with the instant ACK while it handles the datagram, whatever the
    packet contains and however its frames are handled - even if they make the server
    close the connection.  The server has the keys, may send once the datagram
    is counted, and has [EnableInstantACK] set.  The answer is one datagram of at most
    92 bytes; the client parses and decrypts it and finds one ACK frame, which
    acknowledges the packet the client has sent, with delay zero. *)
Theorem first_datagram_acked e payload d (sc : longHeaderSealer C) rcvTime ecn c c1 so s os o sc' hdr :
  let h := ehHeader e in let n := ehPacketNumberLen e in let pn := ehPacketNumber e in
  long_sendable e v PacketTypeInitial -> hLength h = n + blen payload + 16 -> blen (hToken h) < 2 ^ 61 ->
  0 < blen payload -> 4 <= n + blen payload -> 0 <= pn < 2 ^ (8 * n - 1) -> 0 < rcvTime -> 0 <= now ->
  ext_Append [] e v = Ok hdr -> encryptPacket (hdr ++ payload) pn (blen hdr) n sc = (Ok d, sc') ->
  onSent (ReceivedBytes (blen d) now) c = (Ok tt, c1) -> first_contact rng rngID fuelID now v Hrng order (sending c1) ->
  receivedFirstPacket c = false -> rvVersion (cRest c) = v ->
  suInitialOpener (ppCryptoSetup (xPacker (rvRest (cRest c)))) = Some so -> keys_match sc so -> loHighestRcvdPN so = 0 ->
  longSealerAt EncryptionInitial (ppCryptoSetup (xPacker (rvRest (cRest c)))) = Ok s ->
  getOpener EncryptionInitial os = Ok o -> keys_match s o -> loHighestRcvdPN o = 0 ->
  exists res c' d' marking ack hdr' o',
    handlePacketImpl (C := C) rng now log (mkReceived d rcvTime ecn) c = (res, c') /\
    queueOf c' = queueOf c ++ [mkEntry d' 0 marking] /\ blen d' <= 92 /\
    AckRanges ack = [mkAckRange pn pn] /\ DelayTime ack = 0 /\
    ParsePacket d' = Ok (ParsedPacket hdr' d' []) /\
    UnpackLongHeader hdr' d' os =
      (Ok (mkUnpacked 0 (ppSrcConnID (xPacker (rvRest (cRest c)))) (hSrcConnectionID h) EncryptionInitial (Connection.payload [(0%nat, FAck ack)])),
       setOpener EncryptionInitial o' os).
Proof.
  intros h n pn Hls Hlen Htok Hpl H4 Hpn Hr Hnow Happ Henc Erb Hfc Hfirst Hver Hso Hkc Hhc Hs Ho Hk Hhi.
  destruct (ReceivedBytes_total now (blen d) (cSent c)) as [a Ea]. unfold onSent in Erb. rewrite Ea in Erb. injection Erb as Ec1.
  assert (Er : cRest c1 = cRest c) by by rewrite <- Ec1. pose proof (ls_pnLen _ _ _ Hls) as Hn. fold n in Hn.
  assert (H2 : 2 ^ 7 <= 2 ^ (8 * n - 1) <= 2 ^ 31) by (split; apply Z.pow_le_mono_r; lia).
  destruct (long_packet_opens e v PacketTypeInitial EncryptionInitial payload [] sc (suOpeners (ppCryptoSetup (xPacker (rvRest (cRest c))))) so)
    as (hdr0 & d0 & s0 & hd & o1 & E1 & E2 & E3 & E4 & _ & _ & Ev & Ety); try done; try (rewrite ?blen_nil; fold h n pn; lia).
  { cbn. unfold GetInitialOpener. by rewrite Hso. }
  fold h n pn in E1, E2, E4. rewrite Happ in E1. injection E1 as <-. rewrite Henc in E2. injection E2 as <- <-. rewrite app_nil_r in E3.
  assert (Hv0 : hVersion hd <> 0) by (rewrite Ev; by destruct (ls_supported _ _ _ Hls) as [-> | ->]).
  destruct (ParsePacket_inv _ _ _ _ E3 Hv0) as (_ & Evn & _).
  set (packet := mkUnpacked pn (hSrcConnectionID h) (hDestConnectionID h) EncryptionInitial payload) in *.
  assert (Hop : opens d hd packet c1).
  { constructor; [done|done|done|done|]. exists o1. by rewrite Er. }
  destruct (long_packet_acked d hd packet rcvTime ecn c1 s os o Hfc) as (res & c' & d' & marking & ack & hdr' & o' & Eh & Hq & Hrest); try done.
  { by rewrite <- Ec1. }
  { cbn. unfold maxPN, maxVarInt8. lia. }
  { apply (ls_src _ _ _ Hls). }
  { by rewrite Er. }
  exists res, c', d', marking, ack, hdr', o'. cbn [upPacketNumber upSrcConnID] in Hrest. rewrite Er in Hrest. unfold queueOf in Hq |- *. rewrite Er in Hq.
  split; [|split; [done|exact Hrest]]. unfold handlePacketImpl. cbn [rpData]. rewrite (stM_bind_ok _ _ c c1 tt) by (unfold onSent; by rewrite Ea, Ec1).
  rewrite Evn, (handleCoalesced_single rng now log _ d hd) by (congruence || done). exact Eh.
Qed.
End first.

(** ** A run *)

#[local] Existing Instance noStreams.
#[local] Existing Instance noStreams_laws.
#[local] Existing Instance noFlow.
#[local] Existing Instance noLevels.

Abbreviation ep_connT := (connection (cubicSender unit) (receiver (sendState bytes unit unit))).

(** The server of InstantAck.v, with the key for the packets of the client. *)
Definition ep_state : sendState bytes unit unit :=
  x_setup (putOpeners (setOpener EncryptionInitial toy_server (suOpeners ia_setup)) ia_setup) (cRest ia_conn).

Definition ep_receiver (x : sendState bytes unit unit) : receiver (sendState bytes unit unit) :=
  mkReceiver (mkConfig [Version1] 0 0 0) Version1 4 [4; 5; 6; 7] 0 false false None [] [] None false 0 0
    (mkConnectionTimer (mkTimer false 0) 0) None x.

Definition ep_conn (received : Z) : ep_connT := withRest (ep_receiver ep_state) (c_sent (w_bytesReceived received ia_sent) ia_conn).

(** The packet of the client: a header, and a payload that is not a sequence of frames. *)
Definition ep_header : bytes := match ext_Append [] initial_example Version1 with Ok hdr => hdr | _ => [] end.
Definition ep_sealed := encryptPacket (ep_header ++ [255; 0; 0; 0]) 7 (blen ep_header) 1 toy_client.
Definition ep_datagram : bytes := match ep_sealed with (Ok d, _) => d | _ => [] end.

#[local] Instance ep_packets : PacketOps (sendState bytes unit unit) := endpointPackets ia_rng 10 7 4.
#[local] Instance ep_ops : ConnectionOps (cubicSender unit) (receiver (sendState bytes unit unit)) :=
  endpointOps ia_rng ia_rng 10 7 Version1 false false noShuffle elements (fun _ => 0) (fun _ => 0) (fun _ => 0) (fun _ x => x) 10 0 0
    (fun _ _ _ => mret tt) (mret tt).

(** The server answers, and then closes the connection because of the payload. *)
Example first_datagram_run :
  let '(r, c) := handlePacketImpl (C := bytes) ia_rng 7 false (mkReceived ep_datagram 5 ECNNon) (ep_conn 1161) in
  r = Ok false /\ length <$> (enBuf <$> queueOf c) = [39%nat] /\
  exists e, rvClose (cRest c) = Some (mkCloseError (CloseErr e) false false).
Proof. vm_compute. eauto. Qed.

Lemma ep_first_contact Hrng : first_contact ia_rng ia_rng 10 7 Version1 Hrng elements (sending (ep_conn 1200)).
Proof.
  apply (first_contact_opener ia_rng ia_rng 10 7 Version1 Hrng elements toy_server (withRest (ep_receiver (cRest ia_conn)) ia_conn) _ eq_refl).
  apply ia_first_contact.
Qed.

Lemma first_datagram_acked_witness :
  exists res c' d' marking ack hdr' o',
    handlePacketImpl (C := bytes) ia_rng 7 false (mkReceived ep_datagram 5 ECNNon) (ep_conn 1161) = (res, c') /\
    queueOf c' = [mkEntry d' 0 marking] /\ blen d' <= 92 /\ AckRanges ack = [mkAckRange 7 7] /\ DelayTime ack = 0 /\
    ParsePacket d' = Ok (ParsedPacket hdr' d' []) /\
    UnpackLongHeader hdr' d' ia_openers =
      (Ok (mkUnpacked 0 [5; 5; 5] [1; 2; 3] EncryptionInitial (Connection.payload [(0%nat, FAck ack)])), setOpener EncryptionInitial o' ia_openers).
Proof.
  apply (first_datagram_acked ia_rng ia_rng 10 7 Version1 false false false 4 ia_Int31n noShuffle ltac:(done) elements (fun _ => 0) (fun _ => 0) (fun _ => 0)
    (fun _ x => x) 10 0 0 (fun _ _ _ => mret tt) (mret tt) ltac:(by intros lvl x x' [= ->]) ltac:(done) ltac:(done)
    initial_example [255; 0; 0; 0] ep_datagram toy_client 5 ECNNon (ep_conn 1161) (ep_conn 1200) toy_server ia_sealer ia_openers ia_opener
    (snd ep_sealed) ep_header);
    [constructor; vm_compute; first [by auto | done | split; discriminate]|reflexivity|reflexivity|reflexivity|vm_compute; discriminate
    |split; [vm_compute; discriminate|reflexivity]|lia|lia|reflexivity|reflexivity|reflexivity|apply ep_first_contact|reflexivity..
    |by vm_compute|reflexivity|reflexivity|reflexivity|by vm_compute|reflexivity].
Defined.

(** The toy cipher rejects what does not contain the key. *)
Lemma toy_rejects d (o : longHeaderOpener bytes) : blen (nonceMask (loAead o)) = 12 -> blen (loNonceBuf o) = 8 ->
  forallb (fun k => negb (bool_decide (take 16 (drop k d) = toy_tag (xaead (loAead o))))) (seq 0 (length d)) = true -> rejects d o.
Proof.
  intros Hm Hb Hf. constructor; [done|done|]. intros pre ct post nonce ad Hd. cbn. case_decide as Ht; [|done]. exfalso.
  rewrite forallb_forall in Hf. assert (Hl : length (drop (length ct - 16) ct) = 16%nat) by (rewrite Ht; apply length_resize).
  rewrite length_drop in Hl. specialize (Hf (length pre + (length ct - 16))%nat).
  rewrite bool_decide_eq_true_2 in Hf; [|].
  - apply negb_true_iff in Hf; [done|]. apply in_seq. rewrite Hd, !length_app. lia.
  - rewrite Hd, <- Ht, <- drop_drop, drop_app_length, drop_app_le by lia. rewrite take_app_le by (rewrite length_drop; lia).
    apply take_ge. rewrite length_drop. lia.
Qed.

(** The same datagram with another seal. *)
Definition ep_forged : bytes := take 38 ep_datagram ++ [1].

Lemma unauthentic_datagram_ignored_witness :
  exists a c', handlePacketImpl (C := bytes) ia_rng 7 false (mkReceived ep_forged 5 ECNNon) (ep_conn 1161) = (Ok false, c') /\
    ignored (same_but_buffers 7) ep_forged (c_sent (w_alarm a (w_bytesReceived 1200 ia_sent)) (ep_conn 1161)) c' /\
    rvClose (cRest c') = None /\ xSendQueue (rvRest (cRest c')) = newSendQueue.
Proof.
  apply (unauthentic_datagram_ignored ia_rng ia_rng 10 7 Version1 false false false 4 noShuffle elements (fun _ => 0) (fun _ => 0) (fun _ => 0)
    (fun _ x => x) 10 0 0 (fun _ _ _ => mret tt) (mret tt) (mkReceived ep_forged 5 ECNNon) (ep_conn 1161));
    [by left|reflexivity|reflexivity|by left|vm_compute; split; discriminate| |reflexivity|].
  - apply (bool_decide_unpack _). vm_compute. exact I.
  - constructor; [|done|done|done]. intros o [= <-]. apply toy_rejects; vm_compute; reflexivity.
Defined.

(** A TLS stack that has nothing more to say. *)
#[local] Instance ep_tls : TLSConn unit := {
  tls_Start := mret tt;
  tls_NextEvent := mret (mkQUICEvent QUICNoEvent QUICEncryptionLevelInitial 0 []);
  tls_HandleData _ _ := mret tt;
  tls_SetTransportParameters _ := mret tt;
  alertOf _ := None;
  tls_SendSessionTicket _ := mret tt;
  tls_Close := mret tt
}.

#[local] Instance ep_run : RunOps (cubicSender unit) (sendState bytes unit unit) :=
  endpointRun ia_rng ia_rng 10 5000000000 Version1 noShuffle (fun _ x => x) (fun _ _ x => x) id [] [] 0.

(** A connection with an idle timeout of three seconds, which has received a packet at
    time one second, and has sent an ack-eliciting packet at time 1.5 seconds. *)
Definition ep_idle : ep_connT :=
  mkConn PerspectiveServer true true [1; 2] true true Second (1500 * Millisecond) false ia_sent newReceivedPacketHandler (NewFrameParser false)
    (rv_timeouts (3 * Second) 0 (ep_receiver ep_state)).

Lemma idle_connection_closes_witness :
  let now := 5000000000 in let closed := closedFor CloseIdleTimeout (woken WakeTimer ep_idle) in
  nextIdleTimeoutTime ep_idle = 4500 * Millisecond /\
  tmDeadline (ctTimer (rvTimer (cRest (maybeResetTimer ep_idle).2))) <= 4500 * Millisecond /\
  runRound (C := bytes) ia_rng now false WakeTimer ep_idle = (Ok true, closed) /\
  runRound (C := bytes) ia_rng now false WakeScheduled closed = (Ok false, closed).
Proof.
  intros now closed. destruct (idle_connection_closes (C := bytes) ia_rng now false WakeTimer ep_idle) as (H1 & H2 & H3);
    [reflexivity|reflexivity|reflexivity|reflexivity|exact I|].
  rewrite (H2 ltac:(by left)) in H3. destruct (H3 ltac:(reflexivity)) as [H4 _]. destruct H4 as [H4 H5]; [vm_compute; reflexivity|].
  split_and!; [vm_compute; reflexivity|exact H1|exact H4|apply H5].
Defined.
